(* ===== verification/_CoqProject ===== *)
-Q . S2P
Prelude.v
RustStr.v
Ids.v
LayoutTypes.v
Sizing.v
LayoutTree.v
Tiling.v
TreeEdits.v
WindowOps.v
PolicyLayouts.v
WindowInv.v
WindowSteps.v
WindowMoves.v
WindowNav.v
WindowRestore.v
WindowCommands.v
WindowTheorems.v
Scheduler.v
SchedulerInv.v
SchedulerSteps.v
SchedulerTheorems.v
RustBytes.v
Framing.v
FramingTheorems.v
EventLog.v
EventTheorems.v
FrameRender.v
SessionTypes.v
Reconcile.v
SessionTargets.v
SessionClients.v
SessionWindows.v
SessionMoves.v
SessionRestore.v
SessionInv.v
SessionOk.v
SessionFocus.v
SessionRemoval.v
SessionGrowth.v
SessionRelocate.v
SessionMembers.v
SessionDepart.v
SessionSteps.v
SessionCommands.v
SessionTheorems.v
RustText.v
PermTypes.v
PermShell.v
Sha256.v
PermRules.v
PermPolicy.v
PermApprovals.v
PermDecisions.v
PermRecords.v
PermTheorems.v
ProviderRetry.v
RetryTheorems.v
Utf8Text.v
ReadlineText.v
Readline.v
ReadlineSpec.v
ReadlineRows.v
ReadlineInv.v
ReadlineKeys.v
ReadlinePrompt.v
ReadlineDecode.v
ReadlineRecall.v
ReadlineTheorems.v
KeyInput.v
TermText.v
History.v
Screen.v
ScreenReflow.v
ScreenParser.v
ScreenInv.v
ScreenTheorems.v
CopyMode.v
CopyTheorems.v
Commands.v
CommandTheorems.v
