(* ===== verification/Prelude.v ===== *)
(** * Mezzanine: a verification library

    Mezzanine is a terminal multiplexer with agents in its panes, written in
    Rust.  This library models the parts of it that keep state or decide
    something, as executable definitions translated from the sources under
    [src/crates], and proves what makes them correct.

    ** The program and its models

    A session ([mez-mux/src/session]) holds windows in groups and the clients
    attached to it; a window ([mez-mux/src/layout]) holds panes in a split tree.
    Every attached client has a view of its own (group, window, pane, zoom),
    which a command projects into the shared session, changes, and captures
    back; after a change of the layout all views are reconciled.  Agents run
    turns that a scheduler ([mez-agent/src/scheduler]) admits, orders and starts;
    failed provider calls are retried by a reducer; what a turn may execute is
    decided by permissions ([mez-agent/src/permissions]).  Clients and agents
    talk to the runtime in frames and are shown an event log
    ([mezzanine/src/protocol]).  What a user types is classified by the key
    bindings ([mez-mux/src/input.rs]) as text for a pane, a multiplexer action
    or a command in the command language ([mez-mux/src/command]); at a prompt it
    goes through a terminal decoder into a line buffer with history
    ([mez-mux/src/readline]), in copy mode it moves over a copy of the screen
    ([mez-mux/src/copy.rs]) from which text goes to the paste buffers
    ([mez-mux/src/paste.rs]).  What a program in a pane writes is interpreted by
    a terminal screen ([mez-terminal/src/screen]): a parser of escape sequences
    over a grid of cells, with the rows that scroll off it kept in a bounded
    history ([mez-terminal/src/history.rs]).

    - [RustStr], [RustBytes], [RustText]: the parts of the
      Rust standard library the sources use on text (UTF-8 strings are their
      bytes), ordered maps and paths.
    - [Ids]: stable identities and the identity factory ([mez-core/src/ids.rs]).
    - [LayoutTypes], [Sizing], [LayoutTree], [Tiling], [TreeEdits]:
      pane data, sizing rules, proportional distribution and the split tree
      ([layout/types.rs], [sizing.rs], [tree.rs]), with what its rectangles cover.
    - [WindowOps], [WindowNav], [WindowRestore]: every operation of [Window]
      ([layout/window.rs]), directional focus, restoration; [PolicyLayouts],
      [WindowInv], [WindowSteps], [WindowMoves] prove that operations keep the
      window invariant, [WindowCommands] and [WindowTheorems] state it for runs.
    - [SessionTypes], [Reconcile], [SessionTargets], [SessionClients],
      [SessionWindows], [SessionMoves], [SessionRestore]: the
      whole of [session/*.rs], one definition per method under the method's name;
      [SessionInv], [SessionOk] the invariants; [SessionFocus],
      [SessionRemoval], [SessionGrowth],
      [SessionRelocate], [SessionMembers], [SessionDepart], [SessionSteps] one
      group of commands each; [SessionCommands], [SessionTheorems] runs and
      their properties.
    - [Scheduler] ([scheduler/queue.rs] and its types) with [SchedulerInv],
      [SchedulerSteps], [SchedulerTheorems].
    - [ProviderRetry], [RetryTheorems]: [scheduler/provider_retry.rs] and the
      policy of [provider_error.rs].
    - [PermTypes], [PermShell], [Sha256], [PermRules], [PermPolicy],
      [PermApprovals]: [permissions/*.rs]; [PermDecisions], [PermRecords],
      [PermTheorems] their properties.
    - [Framing], [FramingTheorems], [FrameRender]: [protocol/framing] and the
      message frames; [EventLog], [EventTheorems]: [protocol/event].
    - [Utf8Text]: text as characters under byte offsets, and UTF-8;
      [ReadlineText], [Readline]: [readline/buffer.rs] and [projection.rs];
      [ReadlineKeys]: [readline/decoder.rs]; [ReadlinePrompt]:
      [readline/prompt.rs].  [ReadlineSpec] is the reference editor with the
      refinement; [ReadlineRows], [ReadlineInv], [ReadlinePrompt] the
      invariant; [ReadlineDecode] the decoder and its pastes; [ReadlineRecall]
      collapsed pastes and the projection; [ReadlineTheorems] the properties.
    - [KeyInput]: chords, bindings and classification ([input.rs],
      [key_preset.rs], [mez-terminal/src/mouse.rs]) with their properties.
    - [TermText]: widths, renditions, styled lines and the provenance of
      presented rows ([mez-terminal/src/width.rs], [style.rs], [copy_source.rs],
      [mez-core/src/presentation]); [History]: [mez-terminal/src/history.rs] with
      the list it refines (module [HistorySpec]).
    - [Screen]: the state of [TerminalScreen], cells, wrapping and every operation
      of [screen/editing.rs]; [ScreenReflow]: logical lines, resizing,
      synchronized output and content updates ([screen/mod.rs], [lifecycle.rs],
      [content.rs], [synchronized_output.rs]); [ScreenParser]: [screen/parser.rs],
      input of bytes, hidden and presented input, restored content and state.
      [ScreenInv] is the invariant with every grid operation and resize;
      [ScreenTheorems] the parser, the public calls and the properties.
    - [CopyMode]: [copy.rs], and [paste.rs] (module [Paste]); [CopyTheorems] their
      properties, with the stack that specifies the paste buffers (module
      [PasteSpec]).
    - [Commands]: [command/mod.rs] and [command/plans.rs]; [CommandTheorems] their
      properties.

    ** Conventions

    A method that returns [Result] is a value of [outcome] ([Ok], [Err], [Panic]);
    a method on [&mut self] is an [op], which keeps the state also on errors, as
    the code does.  Panics (indexing, [expect], slices out of range) are values,
    so their absence is proved.  Unsigned integers are [Z] or [N] with their
    width written out ([sat_add], [checked_sub], [wrap]).  Plain additions of
    bounded integers wrap, as they do in a release build (the workspace sets no
    overflow checks; a debug build panics instead); only the counters of approval
    identities are modelled with the panic, so that no identity is issued twice.
    Hash maps are [gmap]s; B-trees whose order matters are sorted lists or are
    put in order where they are iterated.  The clock is a stream of readings
    ([Clock]), predicates passed as closures are functions.  Two crates the
    permissions call are parameters: [shlex] ([Shlex], nothing assumed) and
    [serde_json] for declared effects ([EffectsJson], a round-trip law).  The
    Unicode tables behind alphanumeric tests, lower-casing and display widths
    are a parameter of readline and copy mode ([UnicodeTables], nothing assumed),
    and so are grapheme clusters ([TerminalText], nothing assumed).  The
    theorems on the terminal screen assume of the tables that a character takes
    at most two columns, as the [unicode-width] crate documents.  The fields of
    [TerminalScreen] are grouped: what the alternate screen sets aside is a
    [Surface], the six per-row vectors a [Grid]; the process-wide counter of
    generations is a field.

    ** What is proved

    - Windows: no sequence of commands panics, and all keep panes, tree, focus,
      history and zoom consistent, as long as callers keep to [admissible] (the
      last pane is not taken, an inserted pane is new); the pane rectangles
      cover every cell once as long as layouts have a cell for every pane and no
      single pane is given another size, and again after the next layout of the
      whole window ([ends_tiled]); a single pane's resize fills the window only
      when it changes nothing; killing focuses the most recently
      used survivor; directional focus is undone by the opposite direction;
      restoration is a round trip and validates untrusted rectangles;
      reconstruction of a tree from rectangles ends.
    - Sessions: no command panics, groups partition the windows and identities
      stay unique (unless panes are swapped between windows), attached views
      name live things (unless a join lost its pane), one of at most sixteen
      primaries owns the layout; commands through one view leave the others
      alone; reconciliation repairs the view of every attached primary, follows
      a moved pane and is idempotent.
    - Scheduler: all indexes stay consistent, started turns share neither agent
      nor pane, starts are fair and make progress, limits hold, cancelling
      undoes queueing.
    - Retries: the budget of a limited policy and the backoff are respected under
      any event order.
    - Permissions: a line is decided by its strictest candidate, built-in rules
      allow only commands labelled as reads, deny rules only restrict, the intersection of path
      authorities is their greatest lower bound, stored rules round trip, exact
      rules decide their command, blocked requests are decided once.
    - Protocol: frames round trip through any chunking, the decoder's wait is
      bounded, the event log refines the unbounded history, replay shows an
      audience only its events, dates agree with the Gregorian calendar.
    - Readline: no sequence of prompt commands panics on what the decoder yields,
      and one that does not return has used up the paste markers; byte cursors
      stay on character boundaries and the history within its bounds; edits refine a
      reference editor on text; submissions are recalled as submitted; soft rows
      partition a line; a selection copies the entered text; decoded keys are
      safe to apply, pasted bytes are never keys, and a paste is delivered whole
      through any split of the input.
    - Keys: the decoder yields exactly the chords the encoder has bytes for but
      three ambiguous kinds, and reads them back; notations round trip; presets take effect and retire the
      default prefix keys.
    - Terminal screen: no admissible call panics on a reachable screen, whatever
      bytes a program writes and whatever sizes it is given, and grid, cursor,
      scrollback and buffers stay within bounds; reads do not tear characters;
      reflow and merging keep the text of lines; a visit to the alternate
      screen leaves the normal one and the scrollback alone; hidden input
      preserves content, and leaves alternate mode well exactly on a screen that
      has its old size; modes survive a snapshot.  The history refines a list
      with batch eviction.
    - Copy mode: no sequence of commands panics or loses the viewport, the cursor
      or the selection; searches find the nearest match; moving right and left
      is inverse on clusters; carriers round trip and conflicting sources are
      found.  Paste buffers refine a stack of writes.
    - Commands: quoted sequences round trip, any input is parsed into slices of
      itself, and the words after a double dash reach the shell.

    Theorems that show surprising behaviour of the code by a concrete run
    ([failed_join_loses_pane], [untokenizable_candidate_hides_denial],
    [tenth_decision_ignored], [even_policy_overflows],
    [invalid_byte_unframes_paste], [used_up_markers_hang],
    [tail_words_taken_as_flags], [search_leaves_cursor_outside],
    [hidden_leave_after_resize_panics] and others) stand next to
    the component they are about.

    ** Bounds and fuel

    Recursion that is not structural takes fuel that the callers compute and the
    proofs show to be enough: the length of the string for trimming and
    splitting, 63 rounds for the padding of SHA-256 ([pad_whole_blocks]), the
    number of rectangles for the reconstruction of trees
    ([tree_reconstruction_total]), the length of the text for the readline
    loops, twice the bytes of a read for its decoder ([decode_at_total]), five
    rounds for the modifiers of a chord ([notation_never_panics]), one round per
    character for the splitting of commands ([split_loop_total]), one more than
    the bytes for the input loop of a screen ([feed_bytes_stream]), the rows for
    single evictions ([enforce_spec]), the columns for the repair of a row.  The
    search for a paste marker may run forever in the code; its fuel is one more
    than the number of markers and loses no result ([paste_marker_found]).
    Session runs assume what callers guarantee
    ([sadmissible]): sizes are [u16], the identity counters have not reached
    [u64::MAX].  A swap between two windows and a join whose destination refuses
    the pane do break the invariants; they are excluded where these are stated
    ([local_swap], [join_keeps_panes]), not where panics are.  Calls of a screen
    ([admissible]) are given machine integers; hidden input needs a saved screen
    of the screen's own size, without which the code does panic, and presented
    input two columns beside a repeated prefix.

    ** Not modelled

    Rendering, overlays and themes; configuration, storage and transports; model
    providers, prompts and transcripts; agent messaging and tools; the runtime
    and host that connect the components.  They draw, do I/O, build text for
    external services, or depend on durable storage and asynchronous tasks whose
    behaviour is not in the sources as functions on data. *)

From stdpp Require Export base list gmap strings pretty sorting.
From Stdlib Require Export ZArith Lia.
From Stdlib Require Import Bool.

(** ** Scopes, hint databases and tactics *)

Declare Scope mez_scope.
Delimit Scope mez_scope with mez.

Create HintDb mez discriminated.
Create HintDb mezz discriminated.

(** [destruct_match] analyses the innermost scrutinee of a match in the goal. *)
Ltac destruct_match :=
  match goal with
  | |- context [match ?x with _ => _ end] =>
      lazymatch x with
      | context [match _ with _ => _ end] => fail
      | _ => destruct x eqn:?
      end
  end.

(** Boolean comparisons of the code turned into propositions. *)
Ltac bool_to_prop :=
  repeat match goal with
  | H : (_ && _) = true |- _ => apply andb_true_iff in H; destruct H
  | H : (_ || _) = false |- _ => apply orb_false_iff in H; destruct H
  | H : negb _ = true |- _ => apply negb_true_iff in H
  | H : negb _ = false |- _ => apply negb_false_iff in H
  | H : (_ =? _)%Z = true |- _ => apply Z.eqb_eq in H
  | H : (_ =? _)%Z = false |- _ => apply Z.eqb_neq in H
  | H : (_ <? _)%Z = true |- _ => apply Z.ltb_lt in H
  | H : (_ <? _)%Z = false |- _ => apply Z.ltb_ge in H
  | H : (_ <=? _)%Z = true |- _ => apply Z.leb_le in H
  | H : (_ <=? _)%Z = false |- _ => apply Z.leb_gt in H
  | H : (_ =? _)%nat = true |- _ => apply Nat.eqb_eq in H
  | H : (_ =? _)%nat = false |- _ => apply Nat.eqb_neq in H
  | H : (_ <? _)%nat = true |- _ => apply Nat.ltb_lt in H
  | H : (_ <? _)%nat = false |- _ => apply Nat.ltb_ge in H
  | H : (_ <=? _)%nat = true |- _ => apply Nat.leb_le in H
  | H : (_ <=? _)%nat = false |- _ => apply Nat.leb_gt in H
  | H : bool_decide _ = true |- _ => apply bool_decide_eq_true in H
  | H : bool_decide _ = false |- _ => apply bool_decide_eq_false in H
  end.

(** ** Results of fallible code

    A Rust computation that returns [Result<T, E>] ends in a value, in an
    error of type [E], or in a panic (an index out of range, a failed
    [expect]).  Panics are kept apart from errors so that their absence is a
    statement of its own. *)

Inductive outcome (E A : Type) : Type :=
| Ok (a : A)
| Err (e : E)
| Panic.
Arguments Ok {E A} a.
Arguments Err {E A} e.
Arguments Panic {E A}.

#[global] Instance outcome_eq_dec {E A} `{!EqDecision E, !EqDecision A} :
  EqDecision (outcome E A).
Proof. solve_decision. Defined.

#[global] Instance outcome_ret {E} : MRet (outcome E) := fun A => @Ok E A.
#[global] Instance outcome_bind {E} : MBind (outcome E) := fun A B f m =>
  match m with Ok a => f a | Err e => Err e | Panic => Panic end.
#[global] Instance outcome_fmap {E} : FMap (outcome E) := fun A B f m =>
  match m with Ok a => Ok (f a) | Err e => Err e | Panic => Panic end.

Definition is_ok {E A} (r : outcome E A) : bool :=
  match r with Ok _ => true | _ => false end.

(** [Option::ok_or_else]. *)
Definition ok_or {E A} (o : option A) (e : E) : outcome E A :=
  match o with Some a => Ok a | None => Err e end.

(** [slice[i]]: panics out of range. *)
Definition index_or_panic {E A} (l : list A) (i : nat) : outcome E A :=
  match l !! i with Some a => Ok a | None => Panic end.

Lemma bind_Ok_inv {E A B} (m : outcome E A) (f : A -> outcome E B) b :
  (m ≫= f) = Ok b <-> exists a, m = Ok a /\ f a = Ok b.
Proof. destruct m; simpl; naive_solver. Qed.

Lemma ok_or_Ok_inv {E A} (o : option A) (e : E) a : ok_or o e = Ok a <-> o = Some a.
Proof. destruct o; simpl; naive_solver. Qed.

Lemma index_or_panic_Ok {E A} (l : list A) i (a : A) :
  index_or_panic (E:=E) l i = Ok a <-> l !! i = Some a.
Proof. unfold index_or_panic. destruct (l !! i); naive_solver. Qed.

(** Code that never panics. *)
Definition no_panic {E A} (r : outcome E A) : Prop := r <> Panic.

Lemma no_panic_Ok {E A} (a : A) : no_panic (E:=E) (Ok a).
Proof. done. Qed.
Lemma no_panic_Err {E A} (e : E) : no_panic (A:=A) (Err e).
Proof. done. Qed.
Lemma no_panic_ok_or {E A} (o : option A) (e : E) : no_panic (ok_or o e).
Proof. by destruct o. Qed.
Lemma no_panic_if {E A} (b : bool) (r r' : outcome E A) :
  no_panic r -> no_panic r' -> no_panic (if b then r else r').
Proof. by destruct b. Qed.
Lemma no_panic_bind {E A B} (m : outcome E A) (f : A -> outcome E B) :
  no_panic m -> (forall a, no_panic (f a)) -> no_panic (m ≫= f).
Proof. destruct m; [|done|done]. intros _ H. apply H. Qed.

#[export] Hint Resolve no_panic_Ok no_panic_Err no_panic_ok_or no_panic_if no_panic_bind : mez.

(** Folds a fallible check over a list, stopping at the first failure: the
    shape of a [for] loop whose body ends in [?] or an early [return Err]. *)
Fixpoint for_each {E A} (f : A -> outcome E unit) (l : list A) : outcome E unit :=
  match l with
  | [] => Ok tt
  | x :: l => match f x with Ok _ => for_each f l | Err e => Err e | Panic => Panic end
  end.

Lemma for_each_Ok {E A} (f : A -> outcome E unit) l :
  for_each f l = Ok tt <-> Forall (fun x => f x = Ok tt) l.
Proof.
  induction l as [|x l IH]; simpl; [by split|].
  rewrite Forall_cons. destruct (f x) as [[]| |]; naive_solver.
Qed.

(** A loop that threads a state and may fail. *)
Definition fold_outcome {E A S} (f : A -> S -> outcome E S) : list A -> S -> outcome E S :=
  fix go l s :=
    match l with
    | [] => Ok s
    | x :: l => match f x s with Ok s => go l s | Err e => Err e | Panic => Panic end
    end.

(** A loop over two zipped lists that threads a state. *)
Definition fold_zip {A B S} (f : A -> B -> S -> S) : list A -> list B -> S -> S :=
  fix go l k s :=
    match l, k with
    | x :: l, y :: k => go l k (f x y s)
    | _, _ => s
    end.

(** ** Stateful fallible code

    A method that takes [&mut self] and returns [Result<T, E>]: the state it
    leaves behind is kept also when it fails, since the code mutates in place
    and an early [return Err] undoes nothing. *)

Definition op (E S A : Type) : Type := S -> S * outcome E A.

#[global] Instance op_ret {E S} : MRet (op E S) := fun A a s => (s, Ok a).
#[global] Instance op_bind {E S} : MBind (op E S) := fun A B f m s =>
  let '(s, r) := m s in
  match r with Ok a => f a s | Err e => (s, Err e) | Panic => (s, Panic) end.

(** Reading the state, updating it, and running code that leaves it alone. *)
Definition op_get {E S A} (f : S -> A) : op E S A := fun s => (s, Ok (f s)).
Definition op_modify {E S} (f : S -> S) : op E S unit := fun s => (f s, Ok tt).
Definition op_lift {E S A} (r : outcome E A) : op E S A := fun s => (s, r).
(** A primitive step. *)
Definition op_step {E S A} (f : S -> S * outcome E A) : op E S A := f.
(** Running an operation on a part of the state. *)
Definition op_zoom {E S T A} (get : S -> T) (set : T -> S -> S) (m : op E T A) : op E S A :=
  fun s => let '(t, r) := m (get s) in (set t s, r).

Lemma op_bind_Ok {E S A B} (m : op E S A) (f : A -> op E S B) s s' a :
  m s = (s', Ok a) -> (m ≫= f) s = f a s'.
Proof. intros H. unfold mbind, op_bind. by rewrite H. Qed.

Lemma op_bind_Err {E S A B} (m : op E S A) (f : A -> op E S B) s s' e :
  m s = (s', Err e) -> (m ≫= f) s = (s', Err e).
Proof. intros H. unfold mbind, op_bind. by rewrite H. Qed.

Lemma op_bind_inv {E S A B} (m : op E S A) (f : A -> op E S B) s s' b :
  (m ≫= f) s = (s', Ok b) -> exists s1 a, m s = (s1, Ok a) /\ f a s1 = (s', Ok b).
Proof.
  unfold mbind, op_bind. destruct (m s) as [s1 [a|e|]] eqn:H; intros Hf; try done. eauto.
Qed.

(** Runs the primitive steps at the head of an operation. *)
Ltac op_run :=
  unfold op_zoom, op_step, op_get, op_lift, op_modify, mret, op_ret, mbind, op_bind;
  cbv beta iota; cbn [fst snd].

(** ** Machine integers

    Unsigned machine integers are integers kept in their range by the
    operations; [wrap] is the release-mode behaviour of an unchecked
    operation. *)

Local Open Scope Z_scope.

Definition u8_MAX : Z := 255.
Definition u16_MAX : Z := 65535.
Definition u32_MAX : Z := 4294967295.
Definition u64_MAX : Z := 18446744073709551615.

Definition in_u16 (x : Z) : Prop := 0 <= x <= u16_MAX.
Definition in_u32 (x : Z) : Prop := 0 <= x <= u32_MAX.
Definition in_u64 (x : Z) : Prop := 0 <= x <= u64_MAX.

Definition sat_add (max a b : Z) : Z := Z.min max (a + b).
Definition sat_mul (max a b : Z) : Z := Z.min max (a * b).
Definition sat_sub (a b : Z) : Z := Z.max 0 (a - b).
Definition wrap (max x : Z) : Z := x mod (max + 1).
Definition checked_add (max a b : Z) : option Z :=
  if a + b <=? max then Some (a + b) else None.
Definition checked_sub (a b : Z) : option Z :=
  if b <=? a then Some (a - b) else None.

(** [u16::try_from(x)] on a wider unsigned value. *)
Definition u16_try_from (x : Z) : option Z := if x <=? u16_MAX then Some x else None.

Ltac solve_int :=
  unfold in_u16, in_u32, in_u64, sat_add, sat_mul, sat_sub, u8_MAX, u16_MAX, u32_MAX, u64_MAX in *;
  lia.

Lemma wrap_small max x : 0 <= x <= max -> wrap max x = x.
Proof. intros. unfold wrap. apply Z.mod_small. lia. Qed.

Lemma wrap_range max x : 0 <= max -> 0 <= wrap max x <= max.
Proof. intros. unfold wrap. pose proof (Z.mod_pos_bound x (max + 1)). lia. Qed.

Lemma checked_sub_Some a b c : checked_sub a b = Some c <-> b <= a /\ c = a - b.
Proof.
  unfold checked_sub. destruct (b <=? a) eqn:?; bool_to_prop; naive_solver lia.
Qed.

Lemma checked_add_Some m a b c : checked_add m a b = Some c <-> a + b <= m /\ c = a + b.
Proof.
  unfold checked_add. destruct (a + b <=? m) eqn:?; bool_to_prop; naive_solver lia.
Qed.

(** ** Sums and maxima of integer lists *)

Definition sum_Z (l : list Z) : Z := foldr Z.add 0 l.

(** [iter().max().unwrap_or(d)]. *)
Definition max_or (d : Z) (l : list Z) : Z :=
  match l with [] => d | x :: l => foldl Z.max x l end.

(** [iter().min().unwrap_or(d)]. *)
Definition min_or (d : Z) (l : list Z) : Z :=
  match l with [] => d | x :: l => foldl Z.min x l end.

Lemma sum_Z_app l k : sum_Z (l ++ k) = sum_Z l + sum_Z k.
Proof. induction l; simpl; lia. Qed.

Lemma sum_Z_perm l k : l ≡ₚ k -> sum_Z l = sum_Z k.
Proof. induction 1; simpl; lia. Qed.

Lemma sum_Z_nonneg l : Forall (fun x => 0 <= x) l -> 0 <= sum_Z l.
Proof. induction 1; simpl; lia. Qed.

Lemma sum_Z_ge_length l : Forall (fun x => 1 <= x) l -> Z.of_nat (length l) <= sum_Z l.
Proof. induction 1; simpl; lia. Qed.

Lemma sum_Z_mono l k : Forall2 Z.le l k -> sum_Z l <= sum_Z k.
Proof. induction 1; simpl; lia. Qed.

Lemma sum_Z_elem l x : Forall (fun y => 0 <= y) l -> x ∈ l -> x <= sum_Z l.
Proof.
  intros Hl Hx. induction Hl as [|y l Hy Hl IH]; [by apply not_elem_of_nil in Hx|].
  pose proof (sum_Z_nonneg l Hl). simpl.
  apply elem_of_cons in Hx as [->|Hx]; [lia|]. specialize (IH Hx). lia.
Qed.

Lemma sum_Z_insert l i x y :
  l !! i = Some x -> sum_Z (<[i := y]> l) = sum_Z l - x + y.
Proof.
  revert i. induction l as [|z l IH]; intros [|i] Hi; simplify_eq/=; [lia|].
  rewrite (IH i) by done. lia.
Qed.

Lemma foldl_max_ge l x : x <= foldl Z.max x l.
Proof. revert x. induction l as [|y l IH]; intros x; simpl; [lia|]. specialize (IH (Z.max x y)). lia. Qed.

Lemma max_or_const d c l : l <> [] -> Forall (fun x => x = c) l -> max_or d l = c.
Proof.
  destruct l as [|x l]; [done|]. intros _ [-> Hl]%Forall_cons. simpl.
  induction Hl as [|y l -> Hl IH]; simpl; [done|]. by rewrite Z.max_id.
Qed.

(** ** Lists *)

(** [iter().position(p)]. *)
Fixpoint position {A} (p : A -> bool) (l : list A) : option nat :=
  match l with
  | [] => None
  | x :: l => if p x then Some 0%nat else S <$> position p l
  end.

(** [iter().rposition(p)]. *)
Fixpoint rposition {A} (p : A -> bool) (l : list A) : option nat :=
  match l with
  | [] => None
  | x :: l => match rposition p l with
              | Some i => Some (S i)
              | None => if p x then Some 0%nat else None
              end
  end.

Lemma position_Some {A} (p : A -> bool) l i :
  position p l = Some i <->
  exists x, l !! i = Some x /\ p x = true /\ Forall (fun y => p y = false) (take i l).
Proof.
  revert i. induction l as [|y l IH]; intros i; simpl; [naive_solver|].
  destruct (p y) eqn:Hp.
  - split; [intros [= <-]; exists y; by repeat split|].
    destruct i as [|i]; [done|]. simpl. intros (x & _ & _ & [Hy _]%Forall_cons). congruence.
  - destruct i as [|i]; simpl.
    + split; [by destruct (position p l)|]. intros (x & [= <-] & Hx & _). congruence.
    + rewrite fmap_Some. setoid_rewrite IH.
      split; [intros (j & H & [= <-])|intros (x & ? & ? & [_ ?]%Forall_cons)];
        [destruct H as (x & ? & ? & ?); exists x; by rewrite Forall_cons|by eauto 10].
Qed.

Lemma position_lt {A} (p : A -> bool) l i : position p l = Some i -> (i < length l)%nat.
Proof. intros (x & Hx & _)%position_Some. by eapply lookup_lt_Some. Qed.

Lemma position_None {A} (p : A -> bool) l :
  position p l = None <-> Forall (fun y => p y = false) l.
Proof.
  induction l as [|y l IH]; simpl; [done|]. rewrite Forall_cons, <- IH.
  destruct (p y), (position p l); simpl; naive_solver.
Qed.

Lemma position_is_Some {A} (p : A -> bool) l x :
  x ∈ l -> p x = true -> is_Some (position p l).
Proof.
  intros Hx Hp. destruct (position p l) eqn:E; [by eauto|].
  apply position_None in E. rewrite Forall_forall in E. rewrite E in Hp; done.
Qed.

Lemma rposition_Some {A} (p : A -> bool) l i :
  rposition p l = Some i -> exists x, l !! i = Some x /\ p x = true.
Proof.
  revert i. induction l as [|y l IH]; intros i; simpl; [done|].
  destruct (rposition p l) as [j|] eqn:E.
  - intros [= <-]. by apply IH.
  - destruct (p y) eqn:?; intros [= <-]. by exists y.
Qed.

Lemma rposition_None {A} (p : A -> bool) l :
  rposition p l = None -> Forall (fun y => p y = false) l.
Proof.
  induction l as [|y l IH]; simpl; [done|].
  destruct (rposition p l); [done|]. destruct (p y) eqn:?; [done|]. auto.
Qed.

Lemma filter_all {A} (P : A -> Prop) `{!forall x, Decision (P x)} (l : list A) :
  Forall P l -> filter P l = l.
Proof. induction 1 as [|x l Hx _ IH]; [done|]. by rewrite filter_cons_True, IH. Qed.

(** [Vec::insert] and [Vec::remove] at an index in range. *)
Definition insert_at {A} (i : nat) (x : A) (l : list A) : list A := take i l ++ x :: drop i l.
Definition remove_at {A} (i : nat) (l : list A) : list A := take i l ++ drop (S i) l.

Lemma length_insert_at {A} i (x : A) l :
  (i <= length l)%nat -> length (insert_at i x l) = S (length l).
Proof. intros. unfold insert_at. rewrite length_app, length_take; simpl. rewrite length_drop. lia. Qed.

Lemma length_remove_at {A} i (l : list A) :
  (i < length l)%nat -> length (remove_at i l) = (length l - 1)%nat.
Proof. intros. unfold remove_at. rewrite length_app, length_take, length_drop. lia. Qed.

Lemma lookup_insert_at_lt {A} i j (x : A) l :
  (i <= length l)%nat -> (j < i)%nat -> insert_at i x l !! j = l !! j.
Proof.
  intros. unfold insert_at. rewrite lookup_app_l by (rewrite length_take; lia).
  by apply lookup_take_lt.
Qed.

Lemma lookup_insert_at_eq {A} i (x : A) l :
  (i <= length l)%nat -> insert_at i x l !! i = Some x.
Proof.
  intros. unfold insert_at. rewrite lookup_app_r; rewrite length_take, Nat.min_l by lia; [|lia].
  by rewrite Nat.sub_diag.
Qed.

Lemma lookup_insert_at_gt {A} i j (x : A) l :
  (i <= j)%nat -> (i <= length l)%nat -> insert_at i x l !! S j = l !! j.
Proof.
  intros. unfold insert_at. rewrite lookup_app_r; rewrite length_take, Nat.min_l by lia; [|lia].
  replace (S j - i)%nat with (S (j - i)) by lia. simpl. rewrite lookup_drop. f_equal. lia.
Qed.

Lemma lookup_remove_at_lt {A} i j (l : list A) :
  (j < i)%nat -> remove_at i l !! j = l !! j.
Proof.
  intros. unfold remove_at. destruct (decide (j < length l)%nat).
  - rewrite lookup_app_l by (rewrite length_take; lia). by apply lookup_take_lt.
  - rewrite !lookup_ge_None_2; [done|lia|].
    rewrite length_app, length_take, length_drop. lia.
Qed.

Lemma lookup_remove_at_ge {A} i j (l : list A) :
  (i <= j)%nat -> remove_at i l !! j = l !! S j.
Proof.
  intros. unfold remove_at. destruct (decide (i <= length l)%nat).
  - rewrite lookup_app_r; rewrite length_take, Nat.min_l by lia; [|lia].
    rewrite lookup_drop. f_equal. lia.
  - rewrite !lookup_ge_None_2; [done|lia|].
    rewrite length_app, length_take, length_drop. lia.
Qed.

Lemma insert_at_perm {A} i (x : A) l : insert_at i x l ≡ₚ x :: l.
Proof. unfold insert_at. rewrite <- Permutation_middle. by rewrite take_drop. Qed.

Lemma remove_at_perm {A} i (x : A) l : l !! i = Some x -> x :: remove_at i l ≡ₚ l.
Proof.
  intros Hx. unfold remove_at. rewrite Permutation_middle.
  rewrite <- (drop_S _ _ _ Hx). by rewrite take_drop.
Qed.

Lemma list_alter_insert {A} (f : A -> A) (i : nat) (x : A) (l : list A) :
  l !! i = Some x -> alter f i l = <[i := f x]> l.
Proof.
  intros Hx. apply list_eq. intros j. rewrite list_lookup_alter, list_lookup_insert.
  pose proof (lookup_lt_Some _ _ _ Hx).
  repeat case_decide; subst; rewrite ?Hx; try done; intuition.
Qed.

(** Stable sort by a key ([slice::sort_by_key]): insertion from the right, so
    that equal keys keep their order. *)
Section SortByKey.
Context {A : Type} (key : A -> nat).

Fixpoint insert_by_key (x : A) (l : list A) : list A :=
  match l with
  | [] => [x]
  | y :: l' => if (key x <=? key y)%nat then x :: l else y :: insert_by_key x l'
  end.

Definition sort_by_key (l : list A) : list A := foldr insert_by_key [] l.

Lemma insert_by_key_perm x l : insert_by_key x l ≡ₚ x :: l.
Proof.
  induction l as [|y l IH]; simpl; [done|].
  destruct (key x <=? key y)%nat; [done|]. rewrite IH. by constructor.
Qed.

Lemma sort_by_key_perm l : sort_by_key l ≡ₚ l.
Proof. induction l as [|x l IH]; simpl; [done|]. by rewrite insert_by_key_perm, IH. Qed.

Lemma insert_by_key_sorted x l :
  StronglySorted (fun a b => (key a <= key b)%nat) l ->
  StronglySorted (fun a b => (key a <= key b)%nat) (insert_by_key x l).
Proof.
  induction 1 as [|y l Hs IH Hall]; simpl; [by repeat constructor|].
  destruct (key x <=? key y)%nat eqn:E; bool_to_prop.
  - constructor; [by constructor|]. constructor; [done|].
    eapply Forall_impl; [exact Hall|]. simpl. intros. lia.
  - constructor; [done|]. rewrite insert_by_key_perm. constructor; [lia|done].
Qed.

Lemma sort_by_key_sorted l : StronglySorted (fun a b => (key a <= key b)%nat) (sort_by_key l).
Proof. induction l; simpl; [constructor|]. by apply insert_by_key_sorted. Qed.
End SortByKey.

(** Stable sort by a comparison ([slice::sort_by]); also the entries of a B-tree
    in key order. *)
Fixpoint insert_sorted {A} (leb : A -> A -> bool) (x : A) (l : list A) : list A :=
  match l with
  | [] => [x]
  | y :: l' => if leb x y then x :: l else y :: insert_sorted leb x l'
  end.
Definition in_order {A} (leb : A -> A -> bool) (l : list A) : list A := foldr (insert_sorted leb) [] l.

Lemma insert_sorted_perm {A} (leb : A -> A -> bool) x l : insert_sorted leb x l ≡ₚ x :: l.
Proof.
  induction l as [|y l IH]; simpl; [done|]. destruct (leb x y); [done|]. rewrite IH. by apply Permutation_swap.
Qed.

Lemma in_order_perm {A} (leb : A -> A -> bool) l : in_order leb l ≡ₚ l.
Proof. induction l as [|x l IH]; simpl; [done|]. by rewrite insert_sorted_perm, IH. Qed.

(** [Iterator::min]: the first of the least elements. *)
Definition iter_min {A} (lt : A -> A -> bool) (l : list A) : option A :=
  match l with
  | [] => None
  | x :: l => Some (foldl (fun best y => if lt y best then y else best) x l)
  end.

Lemma iter_min_elem {A} (lt : A -> A -> bool) l x : iter_min lt l = Some x -> x ∈ l.
Proof.
  destruct l as [|y l]; [done|]. simpl. intros [= <-]. revert y.
  induction l as [|z l IH]; intros y; simpl; [set_solver|].
  specialize (IH (if lt z y then z else y)). destruct (lt z y); set_solver.
Qed.

#[export] Hint Resolve sum_Z_nonneg : mez.
#[export] Hint Rewrite @length_insert @length_app @length_fmap : mezz.
