(* ===== verification/RustStr.v ===== *)
(** * Strings of the Rust standard library

    A Rust [String] is its UTF-8 bytes, a [string] here.  This file gives the
    functions of [str] the sources call: decimal formatting and parsing of
    unsigned integers, the first character, and [trim] on Unicode white
    space. *)

From S2P Require Import Prelude.
From Stdlib Require Import Ascii.
Local Open Scope N_scope.

(** ** Decimal numbers *)

Definition digit_value (a : ascii) : option N :=
  let n := N_of_ascii a in
  if (48 <=? n) && (n <=? 57) then Some (n - 48) else None.

(** The value of a string of decimal digits, on top of an accumulator. *)
Fixpoint digits_value (acc : N) (s : string) : option N :=
  match s with
  | EmptyString => Some acc
  | String a s => match digit_value a with
                  | Some d => digits_value (10 * acc + d) s
                  | None => None
                  end
  end.

Definition u64_max : N := 18446744073709551615.

(** [str::parse::<u64>] (and [usize] on a 64-bit target): an optional [+], at
    least one digit, no overflow. *)
Definition parse_u64 (s : string) : option N :=
  let digits := match s with String "+" s' => s' | _ => s end in
  match digits with
  | EmptyString => None
  | _ => match digits_value 0 digits with
         | Some n => if n <=? u64_max then Some n else None
         | None => None
         end
  end.

(** [u64::to_string], the [{}] format of an unsigned integer. *)
Definition u64_to_string (n : N) : string := pretty n.

(** [usize::to_string]. *)
Definition usize_to_string (n : nat) : string := u64_to_string (N.of_nat n).

Lemma digit_value_pretty d : d < 10 -> digit_value (pretty_N_char d) = Some d.
Proof.
  intros Hd.
  assert (d = 0 ∨ d = 1 ∨ d = 2 ∨ d = 3 ∨ d = 4 ∨ d = 5 ∨ d = 6 ∨ d = 7 ∨ d = 8 ∨ d = 9) by lia.
  repeat match goal with H : _ ∨ _ |- _ => destruct H as [->|H] end; subst; reflexivity.
Qed.

Lemma digits_value_pretty_go x s :
  digits_value 0 (pretty_N_go x s) = digits_value x s.
Proof.
  revert s. induction (N.lt_wf_0 x) as [x _ IH]; intros s.
  destruct (decide (x = 0)) as [->|Hx]; [by rewrite pretty_N_go_0|].
  rewrite pretty_N_go_step by lia.
  rewrite IH by (apply N.div_lt; lia). simpl.
  pose proof (N.mod_upper_bound x 10 ltac:(lia)).
  rewrite digit_value_pretty by done. f_equal.
  pose proof (N.div_mod x 10 ltac:(lia)). lia.
Qed.

Lemma digits_value_pretty n : digits_value 0 (pretty n) = Some n.
Proof.
  unfold pretty, pretty_N. case_decide as Hn; [by subst|]. by rewrite digits_value_pretty_go.
Qed.

Lemma pretty_N_no_sign n : match u64_to_string n with
                           | EmptyString => False
                           | String a _ => is_Some (digit_value a)
                           end.
Proof.
  unfold u64_to_string. pose proof (digits_value_pretty n) as H.
  destruct (pretty n) as [|a s] eqn:E; simpl in *.
  - revert E. unfold pretty, pretty_N. case_decide; [done|].
    intros E. assert (N.eqb n 0 = false) as Hn by by apply N.eqb_neq.
    pose proof (digits_value_pretty_go n EmptyString) as H'. rewrite E in H'. simpl in H'. naive_solver.
  - destruct (digit_value a); [by eauto|done].
Qed.

Lemma parse_u64_to_string n : n <= u64_max -> parse_u64 (u64_to_string n) = Some n.
Proof.
  intros Hn. pose proof (pretty_N_no_sign n) as Hs. unfold parse_u64.
  destruct (u64_to_string n) as [|a s] eqn:E; [done|].
  assert (match String a s with String "+" s' => s' | _ => String a s end = String a s) as ->.
  { destruct a as [[] [] [] [] [] [] [] []]; try done. destruct Hs as [? [=]]. }
  rewrite <- E. unfold u64_to_string. rewrite digits_value_pretty.
  destruct (N.leb_spec n u64_max); [|lia].
  by destruct (pretty n).
Qed.

#[global] Instance u64_to_string_inj : Inj (=) (=) u64_to_string.
Proof. intros x y. apply (inj pretty). Qed.

(** ** Characters *)

(** The number of bytes of the UTF-8 character that starts with a byte. *)
Definition utf8_width (a : ascii) : nat :=
  let n := N_of_ascii a in
  if n <? 128 then 1%nat else if n <? 224 then 2%nat else if n <? 240 then 3%nat else 4%nat.

Fixpoint split_at (n : nat) (s : string) : string * string :=
  match n, s with
  | O, _ => (EmptyString, s)
  | _, EmptyString => (EmptyString, EmptyString)
  | S n, String a s => let '(l, r) := split_at n s in (String a l, r)
  end.

(** [chars().next()] with the rest of the string ([Chars::as_str]). *)
Definition first_char (s : string) : option (string * string) :=
  match s with
  | EmptyString => None
  | String a _ => Some (split_at (utf8_width a) s)
  end.

Lemma first_char_ascii a s :
  N_of_ascii a < 128 -> first_char (String a s) = Some (String a EmptyString, s).
Proof. intros H. unfold first_char, utf8_width. apply N.ltb_lt in H as ->. simpl. by destruct s. Qed.

(** The UTF-8 encodings of the characters with the [White_Space] property. *)
Definition bytes (l : list N) : string :=
  foldr (fun n s => String (ascii_of_N n) s) EmptyString l.

Definition white_space : list string :=
  [bytes [9]; bytes [10]; bytes [11]; bytes [12]; bytes [13]; bytes [32];
   bytes [194; 133]; bytes [194; 160]; bytes [225; 154; 128]]
  ++ ((fun n => bytes [226; 128; n]) <$>
        [128; 129; 130; 131; 132; 133; 134; 135; 136; 137; 138; 168; 169; 175])
  ++ [bytes [226; 129; 159]; bytes [227; 128; 128]].

(** Removes a prefix; [None] when the string does not start with it. *)
Fixpoint strip_prefix (p s : string) : option string :=
  match p, s with
  | EmptyString, _ => Some s
  | String a p, String b s => if (a =? b)%char then strip_prefix p s else None
  | _, _ => None
  end.

(** Removes one leading separator of a list, when there is one. *)
Fixpoint strip_one (ws : list string) (s : string) : option string :=
  match ws with
  | [] => None
  | w :: ws => match strip_prefix w s with Some r => Some r | None => strip_one ws s end
  end.

Fixpoint strip_all (fuel : nat) (ws : list string) (s : string) : string :=
  match fuel with
  | O => s
  | S fuel => match strip_one ws s with Some r => strip_all fuel ws r | None => s end
  end.

Definition trim_start (s : string) : string := strip_all (String.length s) white_space s.
Definition trim_end (s : string) : string :=
  String.rev (strip_all (String.length s) (String.rev <$> white_space) (String.rev s)).

(** [str::trim]. *)
Definition trim (s : string) : string := trim_end (trim_start s).

Definition str_is_empty (s : string) : bool :=
  match s with EmptyString => true | _ => false end.

Example trim_example : trim (bytes [32; 226; 128; 137; 97; 32; 98; 194; 160; 10]) = bytes [97; 32; 98].
Proof. vm_compute. reflexivity. Qed.
