(* ===== verification/Ids.v ===== *)
(** * Stable identities ([crates/mez-core/src/ids.rs])

    [StableId] is a string newtype with a one-character prefix; [IdFactory]
    hands out increasing numbers per prefix and can be advanced past the
    identities of a restored session.  The theorems show that formatted ids
    parse back, that the factory never repeats an identity, and that it stays
    clear of every observed one. *)

From S2P Require Import Prelude RustStr.
From Stdlib Require Import Ascii.
Local Open Scope N_scope.

Definition StableId := string.
Abbreviation PaneId := StableId.
Abbreviation WindowId := StableId.
Abbreviation ClientId := StableId.

#[global] Instance StableId_eq_dec : EqDecision StableId := String.eq_dec.
#[global] Instance StableId_countable : Countable StableId := String.countable.

Module StableIdOps.
(** [StableId::new]: the prefix, then the decimal value. *)
Definition new (prefix : ascii) (value : N) : StableId :=
  String prefix (u64_to_string value).

(** [StableId::parse]. *)
Definition parse (expected_prefix : ascii) (value : string) : option StableId :=
  match first_char value with
  | None => None
  | Some (c, rest) =>
      if negb (String.eqb c (String expected_prefix EmptyString)) || str_is_empty rest
      then None
      else match parse_u64 rest with Some _ => Some value | None => None end
  end.

(** [char::is_control] on the first bytes of each character: the C0 and C1
    controls and DEL, read off the UTF-8 bytes. *)
Fixpoint has_control (s : string) : bool :=
  match s with
  | EmptyString => false
  | String a s' =>
      let n := N_of_ascii a in
      (n <? 32) || (n =? 127)
      || ((n =? 194) && match s' with
                        | String b _ => let m := N_of_ascii b in (128 <=? m) && (m <? 160)
                        | EmptyString => false
                        end)
      || has_control s'
  end.

(** [StableId::opaque]. *)
Definition opaque (value : string) : option StableId :=
  if str_is_empty value || has_control value then None else Some value.

(** [StableId::numeric_suffix]. *)
Definition numeric_suffix (id : StableId) : option (string * N) :=
  match first_char id with
  | None => None
  | Some (prefix, rest) =>
      match parse_u64 rest with Some suffix => Some (prefix, suffix) | None => None end
  end.
End StableIdOps.

(** [IdFactory]. *)
Record IdFactory := mkIdFactory {
  next_session : N;
  next_window : N;
  next_window_group : N;
  next_pane : N;
  next_client : N;
  next_agent : N }.

Module IdFactoryOps.
Import StableIdOps.

Definition default : IdFactory := mkIdFactory 1 1 1 1 1 1.

Definition saturating_succ (n : N) : N := N.min u64_max (n + 1).

(** The release-mode [+= 1]. *)
Definition wrapping_succ (n : N) : N := (n + 1) mod (u64_max + 1).

(** One iteration of the loop of [observe_existing_ids]. *)
Definition observe_one (f : IdFactory) (id : StableId) : IdFactory :=
  match numeric_suffix id with
  | None => f
  | Some (prefix, suffix) =>
      let next := saturating_succ suffix in
      let 'mkIdFactory s w g p c a := f in
      if String.eqb prefix "$" then mkIdFactory (N.max s next) w g p c a
      else if String.eqb prefix "@" then mkIdFactory s (N.max w next) g p c a
      else if String.eqb prefix "g" then mkIdFactory s w (N.max g next) p c a
      else if String.eqb prefix "%" then mkIdFactory s w g (N.max p next) c a
      else if String.eqb prefix "c" then mkIdFactory s w g p (N.max c next) a
      else if String.eqb prefix "a" then mkIdFactory s w g p c (N.max a next)
      else f
  end.

Definition observe_existing_ids (f : IdFactory) (ids : list StableId) : IdFactory :=
  foldl observe_one f ids.

Definition after_existing_ids (ids : list StableId) : IdFactory :=
  observe_existing_ids default ids.

Definition session (f : IdFactory) : StableId * IdFactory :=
  let 'mkIdFactory s w g p c a := f in
  (new "$" s, mkIdFactory (wrapping_succ s) w g p c a).
Definition window (f : IdFactory) : StableId * IdFactory :=
  let 'mkIdFactory s w g p c a := f in
  (new "@" w, mkIdFactory s (wrapping_succ w) g p c a).
Definition window_group (f : IdFactory) : StableId * IdFactory :=
  let 'mkIdFactory s w g p c a := f in
  (new "g" g, mkIdFactory s w (wrapping_succ g) p c a).
Definition pane (f : IdFactory) : StableId * IdFactory :=
  let 'mkIdFactory s w g p c a := f in
  (new "%" p, mkIdFactory s w g (wrapping_succ p) c a).
Definition client (f : IdFactory) : StableId * IdFactory :=
  let 'mkIdFactory s w g p c a := f in
  (new "c" c, mkIdFactory s w g p (wrapping_succ c) a).
Definition agent (f : IdFactory) : StableId * IdFactory :=
  let 'mkIdFactory s w g p c a := f in
  (new "a" a, mkIdFactory s w g p c (wrapping_succ a)).
End IdFactoryOps.

Section IdLemmas.
Import StableIdOps IdFactoryOps.

#[global] Instance new_inj p : Inj (=) (=) (new p).
Proof. intros x y [= H]. by apply (inj u64_to_string) in H. Qed.

Lemma numeric_suffix_new p n :
  N_of_ascii p < 128 -> n <= u64_max ->
  numeric_suffix (new p n) = Some (String p EmptyString, n).
Proof.
  intros Hp Hn. unfold numeric_suffix, new. rewrite first_char_ascii by done.
  by rewrite parse_u64_to_string.
Qed.

Lemma parse_new p n :
  N_of_ascii p < 128 -> n <= u64_max -> parse p (new p n) = Some (new p n).
Proof.
  intros Hp Hn. unfold parse, new. rewrite first_char_ascii by done.
  rewrite String.eqb_refl. simpl. pose proof (pretty_N_no_sign n).
  destruct (u64_to_string n) eqn:E; [done|]. simpl. rewrite <- E.
  by rewrite parse_u64_to_string.
Qed.

(** The floor a factory keeps for one prefix. *)
Definition pane_floor (f : IdFactory) (id : StableId) : Prop :=
  forall n, numeric_suffix id = Some ("%", n) -> saturating_succ n <= next_pane f.

Lemma observe_one_pane_mono f id : next_pane f <= next_pane (observe_one f id).
Proof.
  destruct f. unfold observe_one. destruct (numeric_suffix id) as [[p n]|]; simpl; [|lia].
  repeat (destruct (String.eqb _ _); simpl; [lia|]). simpl; lia.
Qed.

Lemma observe_one_pane_floor f id : pane_floor (observe_one f id) id.
Proof.
  intros n Hn. destruct f. unfold observe_one. rewrite Hn. simpl. lia.
Qed.

Lemma observe_pane_floor f ids :
  next_pane f <= next_pane (observe_existing_ids f ids)
  /\ Forall (pane_floor (observe_existing_ids f ids)) ids.
Proof.
  revert f. induction ids as [|id ids IH]; intros f; simpl; [split; [lia|constructor]|].
  destruct (IH (observe_one f id)) as [Hle Hall].
  split; [etrans; [apply observe_one_pane_mono|done]|].
  constructor; [|done]. intros n Hn. etrans; [by apply (observe_one_pane_floor f id n)|done].
Qed.

Lemma pane_fresh f ids :
  Forall (pane_floor f) ids -> next_pane f < u64_max -> (pane f).1 ∉ ids.
Proof.
  intros Hall Hlt Hin. rewrite Forall_forall in Hall. specialize (Hall _ Hin).
  destruct f as [s w g p c a]; simpl in *.
  specialize (Hall p). simpl in Hall.
  rewrite numeric_suffix_new in Hall by (simpl; lia).
  specialize (Hall eq_refl). unfold saturating_succ in Hall. lia.
Qed.

Lemma wrapping_succ_small n : n < u64_max -> wrapping_succ n = n + 1.
Proof. intros. unfold wrapping_succ. apply N.mod_small. lia. Qed.

Lemma pane_floor_new f :
  next_pane f < u64_max -> pane_floor (pane f).2 (pane f).1.
Proof.
  destruct f as [s w g p c a]; simpl. intros Hp n.
  rewrite numeric_suffix_new by (simpl; lia). intros [= <-]. simpl.
  rewrite wrapping_succ_small by done. unfold saturating_succ. lia.
Qed.

Lemma pane_floor_mono f f' id :
  next_pane f <= next_pane f' -> pane_floor f id -> pane_floor f' id.
Proof. intros ? H n Hn. etrans; [by apply (H n)|done]. Qed.

Lemma pane_next f : next_pane f < u64_max -> next_pane (pane f).2 = next_pane f + 1.
Proof. destruct f; simpl. apply wrapping_succ_small. Qed.

(** [k] successive calls of [IdFactory::pane]. *)
Fixpoint alloc_panes (k : nat) (f : IdFactory) : list StableId * IdFactory :=
  match k with
  | O => ([], f)
  | S k => let '(id, f) := pane f in
           let '(ids, f) := alloc_panes k f in (id :: ids, f)
  end.

Lemma alloc_panes_floor k f seen :
  Forall (pane_floor f) seen -> next_pane f + N.of_nat k <= u64_max ->
  NoDup (alloc_panes k f).1 /\ (forall id, id ∈ (alloc_panes k f).1 -> id ∉ seen).
Proof.
  revert f seen. induction k as [|k IH]; intros f seen Hseen Hk.
  { simpl. split; [constructor|]. intros id Hid. by apply not_elem_of_nil in Hid. }
  simpl. pose proof (pane_fresh f seen Hseen ltac:(lia)) as Hfresh.
  pose proof (pane_floor_new f ltac:(lia)) as Hnew.
  pose proof (pane_next f ltac:(lia)) as Hnext.
  destruct (pane f) as [id f'] eqn:E. simpl in *.
  destruct (IH f' (id :: seen)) as [Hnd Hout]; [|lia|].
  { constructor; [done|]. eapply Forall_impl; [exact Hseen|]. simpl.
    intros x Hx. eapply pane_floor_mono; [|exact Hx]. lia. }
  destruct (alloc_panes k f') as [ids f''] eqn:E'. simpl in *. split.
  - constructor; [|done]. intros Hin. apply (Hout id Hin). left.
  - intros x [->|Hx]%elem_of_cons; [done|]. intros Hs. apply (Hout x Hx). by right.
Qed.
End IdLemmas.

Section IdTheorems.
Import StableIdOps IdFactoryOps.

(** A formatted identity parses back to itself and yields the prefix and the
    number it was made of, for every ASCII prefix and every [u64]. *)
Theorem stable_id_roundtrip p n :
  N_of_ascii p < 128 -> n <= u64_max ->
  parse p (new p n) = Some (new p n)
  /\ numeric_suffix (new p n) = Some (String p EmptyString, n).
Proof. intros. split; [by apply parse_new|by apply numeric_suffix_new]. Qed.

Lemma stable_id_roundtrip_witness :
  N_of_ascii "%" < 128 /\ 42 <= u64_max /\ parse "%" (new "%" 42) = Some "%42".
Proof.
  split; [done|]. split; [done|]. apply (stable_id_roundtrip "%" 42); done.
Defined.

(** Pane identities allocated after observing the identities of a restored
    session are pairwise distinct and differ from every observed identity,
    as long as the counter does not reach the end of [u64]. *)
Theorem pane_ids_fresh_after_restore (ids : list StableId) (k : nat) :
  next_pane (after_existing_ids ids) + N.of_nat k <= u64_max ->
  NoDup (alloc_panes k (after_existing_ids ids)).1
  /\ forall id, id ∈ (alloc_panes k (after_existing_ids ids)).1 -> id ∉ ids.
Proof.
  intros Hk. apply alloc_panes_floor; [|done].
  apply observe_pane_floor.
Qed.

Lemma pane_ids_fresh_after_restore_witness :
  next_pane (after_existing_ids ["%9"; "a900"; "%007"; "native"]) + N.of_nat 2 <= u64_max
  /\ (alloc_panes 2 (after_existing_ids ["%9"; "a900"; "%007"; "native"])).1 = ["%10"; "%11"]
  /\ NoDup ["%10"; "%11"].
Proof.
  split; [by vm_compute|]. split; [by vm_compute|].
  apply (pane_ids_fresh_after_restore ["%9"; "a900"; "%007"; "native"] 2). by vm_compute.
Defined.
End IdTheorems.
