(* ===== verification/LayoutTypes.v ===== *)
(** * Layout data ([mez-mux/src/layout/types.rs], [mez-mux/src/error.rs],
    [mez-terminal/src/geometry.rs])

    The records and enumerations the layout engine shares: terminal sizes and
    their validation, split directions, size requests, layout policies with
    their names, panes, pane rectangles, and the error type of the crate. *)

From S2P Require Import Prelude RustStr Ids.
Local Open Scope Z_scope.

(** ** Errors ([error.rs]) *)

Inductive MuxErrorKind := InvalidArgs | InvalidState | Conflict | NotFound | Forbidden | Io.

Record MuxError := mkMuxError { err_kind : MuxErrorKind; err_message : string }.

#[global] Instance MuxErrorKind_eq_dec : EqDecision MuxErrorKind.
Proof. solve_decision. Defined.
#[global] Instance MuxError_eq_dec : EqDecision MuxError.
Proof. solve_decision. Defined.

Definition invalid_args (m : string) : MuxError := mkMuxError InvalidArgs m.
Definition invalid_state (m : string) : MuxError := mkMuxError InvalidState m.
Definition not_found (m : string) : MuxError := mkMuxError NotFound m.

Notation result := (outcome MuxError).

(** ** Terminal sizes ([geometry.rs]) *)

(** [TerminalSize], re-exported by the layout module as [Size]. *)
Record Size := mkSize { columns : Z; rows : Z }.

#[global] Instance Size_eq_dec : EqDecision Size.
Proof. solve_decision. Defined.

Definition MAX_TERMINAL_AXIS_CELLS : Z := 4096.
Definition MAX_TERMINAL_SURFACE_CELLS : Z := 262144.

Inductive TerminalSizeError := NonPositive | ResourceLimit.

Definition TerminalSizeError_message (e : TerminalSizeError) : string :=
  match e with
  | NonPositive => "terminal dimensions must be positive non-zero cells"
  | ResourceLimit => "terminal dimensions exceed 4096 cells per axis or 262144 surface cells"
  end.

(** [TerminalSize::validate]. *)
Definition TerminalSize_validate (s : Size) : outcome TerminalSizeError unit :=
  if (columns s =? 0) || (rows s =? 0) then Err NonPositive
  else if (MAX_TERMINAL_AXIS_CELLS <? columns s) || (MAX_TERMINAL_AXIS_CELLS <? rows s)
          || (MAX_TERMINAL_SURFACE_CELLS <? columns s * rows s)
  then Err ResourceLimit
  else Ok tt.

(** [From<TerminalSizeError> for MuxError], applied by [?] and [map_err]. *)
Definition from_size_error {A} (r : outcome TerminalSizeError A) : result A :=
  match r with
  | Ok a => Ok a
  | Err e => Err (invalid_args (TerminalSizeError_message e))
  | Panic => Panic
  end.

(** [size.validate()?] in code that returns a [MuxError]. *)
Definition Size_validate (s : Size) : result unit := from_size_error (TerminalSize_validate s).

(** [Size::new(columns, rows)] with the error converted. *)
Definition Size_new (c r : Z) : result Size :=
  Size_validate (mkSize c r) ≫= fun _ => Ok (mkSize c r).

(** The sizes [validate] accepts. *)
Definition valid_size (s : Size) : Prop :=
  1 <= columns s <= 4096 /\ 1 <= rows s <= 4096 /\ columns s * rows s <= 262144.

(** A size whose fields are [u16] values. *)
Definition u16_size (s : Size) : Prop := in_u16 (columns s) /\ in_u16 (rows s).

(** ** Directions, requests and policies ([types.rs]) *)

Definition MIN_PANE_COLUMNS : Z := 2.
Definition MIN_PANE_ROWS : Z := 2.

Inductive SplitDirection := Vertical | Horizontal.
Inductive PaneNavigationDirection := NavUp | NavDown | NavLeft | NavRight.
Inductive ResizeAxis := AxisColumns | AxisRows | AxisBoth.
Inductive ResizeDirection := ResizeLeft | ResizeRight | ResizeUp | ResizeDown.

Inductive PaneSizeSpec :=
| Cells (columns rows : option Z)
| Percent (percent : Z) (axis : ResizeAxis)
| Delta (direction : ResizeDirection) (amount : Z)
| Edge (edge : ResizeDirection) (amount : Z).

Inductive LayoutPolicy := Tiled | EvenVertical | EvenHorizontal | EvenGrid.

#[global] Instance SplitDirection_eq_dec : EqDecision SplitDirection.
Proof. solve_decision. Defined.
#[global] Instance LayoutPolicy_eq_dec : EqDecision LayoutPolicy.
Proof. solve_decision. Defined.

Definition SplitDirection_name (d : SplitDirection) : string :=
  match d with Vertical => "vertical" | Horizontal => "horizontal" end.

Definition SplitDirection_from_name (name : string) : option SplitDirection :=
  if String.eqb name "vertical" then Some Vertical
  else if String.eqb name "horizontal" then Some Horizontal
  else None.

Definition ResizeDirection_from_name (name : string) : option ResizeDirection :=
  if String.eqb name "left" || String.eqb name "L" then Some ResizeLeft
  else if String.eqb name "right" || String.eqb name "R" then Some ResizeRight
  else if String.eqb name "up" || String.eqb name "top" || String.eqb name "U" then Some ResizeUp
  else if String.eqb name "down" || String.eqb name "bottom" || String.eqb name "D"
  then Some ResizeDown
  else None.

Definition LayoutPolicy_name (p : LayoutPolicy) : string :=
  match p with
  | Tiled => "tiled"
  | EvenVertical => "even-vertical"
  | EvenHorizontal => "even-horizontal"
  | EvenGrid => "even-grid"
  end.

Definition LayoutPolicy_from_name (name : string) : option LayoutPolicy :=
  if String.eqb name "tiled" then Some Tiled
  else if String.eqb name "even-vertical" then Some EvenVertical
  else if String.eqb name "even-horizontal" then Some EvenHorizontal
  else if String.eqb name "even-grid" then Some EvenGrid
  else None.

Definition LayoutPolicy_next (p : LayoutPolicy) : LayoutPolicy :=
  match p with
  | Tiled => EvenVertical
  | EvenVertical => EvenHorizontal
  | EvenHorizontal => EvenGrid
  | EvenGrid => Tiled
  end.

(** ** Panes and rectangles *)

Inductive PaneTitleSource := TitleDefault | TitleAutomatic | TitleProgram | TitleExplicit.

Definition PaneTitleSource_is_explicit (s : PaneTitleSource) : bool :=
  match s with TitleExplicit => true | _ => false end.

Record Pane := mkPane {
  p_id : PaneId;
  p_index : nat;
  p_title : string;
  p_title_source : PaneTitleSource;
  p_size : Size;
  p_active : bool;
  p_live : bool }.

#[global] Instance PaneTitleSource_eq_dec : EqDecision PaneTitleSource.
Proof. solve_decision. Defined.
#[global] Instance Pane_eq_dec : EqDecision Pane.
Proof. solve_decision. Defined.

(** Field assignments [pane.size = ..], [pane.index = ..], [pane.active = ..]. *)
Definition pane_set_size (s : Size) (p : Pane) : Pane :=
  mkPane (p_id p) (p_index p) (p_title p) (p_title_source p) s (p_active p) (p_live p).
Definition pane_set_index (i : nat) (p : Pane) : Pane :=
  mkPane (p_id p) i (p_title p) (p_title_source p) (p_size p) (p_active p) (p_live p).
Definition pane_set_active (a : bool) (p : Pane) : Pane :=
  mkPane (p_id p) (p_index p) (p_title p) (p_title_source p) (p_size p) a (p_live p).

Record PaneGeometry := mkGeometry {
  g_index : nat;
  g_column : Z;
  g_row : Z;
  g_columns : Z;
  g_rows : Z }.

#[global] Instance PaneGeometry_eq_dec : EqDecision PaneGeometry.
Proof. solve_decision. Defined.

(** [range_overlap_u16] ([layout/mod.rs]). *)
Definition range_overlap_u16 (first_start first_end second_start second_end : Z) : Z :=
  sat_sub (Z.min first_end second_end) (Z.max first_start second_start).

(** ** Facts about sizes *)

Lemma Size_validate_Ok s :
  u16_size s -> Size_validate s = Ok tt <-> valid_size s.
Proof.
  intros [Hc Hr]. unfold Size_validate, TerminalSize_validate, from_size_error, valid_size,
    MAX_TERMINAL_AXIS_CELLS, MAX_TERMINAL_SURFACE_CELLS, in_u16, u16_MAX in *.
  repeat match goal with |- context [if ?b then _ else _] => destruct b eqn:? end; bool_to_prop;
    split; intros Hv; try done; try lia; exfalso;
    repeat match goal with
    | Ho : (_ || _) = true |- _ => apply orb_true_iff in Ho as [Ho|Ho]
    end; bool_to_prop; lia.
Qed.

Lemma Size_new_Ok c r s :
  in_u16 c -> in_u16 r -> Size_new c r = Ok s <-> s = mkSize c r /\ valid_size s.
Proof.
  intros Hc Hr. unfold Size_new. rewrite bind_Ok_inv.
  pose proof (Size_validate_Ok (mkSize c r) (conj Hc Hr)) as H.
  split; [intros ([] & Hv & [= <-]); by rewrite <- H|].
  intros [-> Hv]. exists tt. by rewrite H.
Qed.

(** The stable names of policies and split directions parse back, and the
    policy cycle visits the four policies. *)
Lemma policy_names_roundtrip p d :
  LayoutPolicy_from_name (LayoutPolicy_name p) = Some p
  /\ SplitDirection_from_name (SplitDirection_name d) = Some d
  /\ Nat.iter 4 LayoutPolicy_next p = p.
Proof. destruct p, d; repeat split; reflexivity. Qed.
