(* ===== verification/Sizing.v ===== *)
(** * Pane sizing ([mez-mux/src/layout/sizing.rs])

    Dimension arithmetic of the layout engine: splitting a size in two,
    resolving size requests, dividing an axis evenly, and choosing the shape
    of the even grid. *)

From S2P Require Import Prelude RustStr Ids LayoutTypes.
Local Open Scope Z_scope.

Definition EVEN_GRID_TARGET_COLUMNS : Z := 40.
Definition EVEN_GRID_TARGET_ROWS : Z := 8.

(** Diagnostic wording of one request surface. *)
Record PaneSizeErrorMessages := mkMessages {
  empty_cells : option string;
  percent_positive : string;
  percent_range : string;
  direction_positive : string;
  direction_range : string }.

Definition scaled_dimension (total percent : Z) (axis range_error_prefix : string) : result Z :=
  let scaled := sat_add u32_MAX (sat_mul u32_MAX total percent) 99 / 100 in
  match u16_try_from (Z.max scaled 1) with
  | Some v => Ok v
  | None => Err (invalid_args (range_error_prefix +:+ " " +:+ axis +:+ " is out of range"))
  end.

Definition percent_size_for_axis (source fallback : Size) (percent : Z) (axis : ResizeAxis)
    (positive_error range_error_prefix : string) : result Size :=
  if percent =? 0 then Err (invalid_args positive_error) else
  (match axis with
   | AxisColumns | AxisBoth => scaled_dimension (columns source) percent "columns" range_error_prefix
   | AxisRows => Ok (columns fallback)
   end) ≫= fun c =>
  (match axis with
   | AxisRows | AxisBoth => scaled_dimension (rows source) percent "rows" range_error_prefix
   | AxisColumns => Ok (rows fallback)
   end) ≫= fun r =>
  Size_new c r.

Definition size_from_direction (current : Size) (direction : ResizeDirection) (amount : Z)
    (positive_error range_error_prefix : string) : result Size :=
  if amount =? 0 then Err (invalid_args positive_error) else
  match direction with
  | ResizeLeft =>
      ok_or (checked_sub (columns current) amount)
        (invalid_args (range_error_prefix +:+ " would reduce columns below zero")) ≫= fun c =>
      Size_new c (rows current)
  | ResizeRight =>
      ok_or (checked_add u16_MAX (columns current) amount)
        (invalid_args (range_error_prefix +:+ " columns are out of range")) ≫= fun c =>
      Size_new c (rows current)
  | ResizeUp =>
      ok_or (checked_sub (rows current) amount)
        (invalid_args (range_error_prefix +:+ " would reduce rows below zero")) ≫= fun r =>
      Size_new (columns current) r
  | ResizeDown =>
      ok_or (checked_add u16_MAX (rows current) amount)
        (invalid_args (range_error_prefix +:+ " rows are out of range")) ≫= fun r =>
      Size_new (columns current) r
  end.

Definition resolve_size_spec (source fallback : Size) (spec : PaneSizeSpec)
    (messages : PaneSizeErrorMessages) : result Size :=
  match spec with
  | Cells c r =>
      match c, r, empty_cells messages with
      | None, None, Some message => Err (invalid_args message)
      | _, _, _ => Size_new (default (columns fallback) c) (default (rows fallback) r)
      end
  | Percent percent axis =>
      percent_size_for_axis source fallback percent axis
        (percent_positive messages) (percent_range messages)
  | Delta direction amount | Edge direction amount =>
      size_from_direction fallback direction amount
        (direction_positive messages) (direction_range messages)
  end.

Definition validate_pane_size (size : Size) : result unit :=
  Size_validate size ≫= fun _ =>
  if (columns size <? MIN_PANE_COLUMNS) || (rows size <? MIN_PANE_ROWS)
  then Err (invalid_args "pane size is below the minimum pane dimensions")
  else Ok tt.

Definition new_window_pane_size (window_size : Size) (spec : PaneSizeSpec) : result Size :=
  resolve_size_spec window_size window_size spec
    (mkMessages None "percent pane creation size requires a positive percent"
       "percent pane creation size" "directional pane creation size amount must be positive"
       "pane creation size") ≫= fun size =>
  validate_pane_size size ≫= fun _ =>
  if (columns window_size <? columns size) || (rows window_size <? rows size)
  then Err (invalid_args "pane creation size must fit inside the new window")
  else Ok size.

Definition split_size (size : Size) (direction : SplitDirection) : result (Size * Size) :=
  match direction with
  | Vertical =>
      if columns size <? sat_mul u16_MAX MIN_PANE_COLUMNS 2
      then Err (invalid_state "cannot split vertically with fewer than 2 columns")
      else Ok (mkSize (columns size / 2 + columns size mod 2) (rows size),
               mkSize (columns size / 2) (rows size))
  | Horizontal =>
      if rows size <? sat_mul u16_MAX MIN_PANE_ROWS 2
      then Err (invalid_state "cannot split horizontally with fewer than 2 rows")
      else Ok (mkSize (columns size) (rows size / 2 + rows size mod 2),
               mkSize (columns size) (rows size / 2))
  end.

Definition split_requested_size (original default_created : Size) (spec : PaneSizeSpec) : result Size :=
  resolve_size_spec original default_created spec
    (mkMessages None "percent split size requires a positive percent" "percent split size"
       "directional split size amount must be positive" "split size").

Definition split_size_with_spec (size : Size) (direction : SplitDirection) (spec : PaneSizeSpec)
    : result (Size * Size) :=
  split_size size direction ≫= fun halves =>
  split_requested_size size (halves.2) spec ≫= fun requested =>
  match direction with
  | Vertical =>
      if negb (rows requested =? rows size)
      then Err (invalid_args "vertical split size must preserve the pane row count") else
      ok_or (checked_sub (columns size) (columns requested))
        (invalid_args "vertical split size would overlap the existing pane") ≫= fun existing =>
      if (columns requested <? MIN_PANE_COLUMNS) || (existing <? MIN_PANE_COLUMNS)
      then Err (invalid_args "vertical split size is below the minimum pane dimensions")
      else Ok (mkSize existing (rows size), requested)
  | Horizontal =>
      if negb (columns requested =? columns size)
      then Err (invalid_args "horizontal split size must preserve the pane column count") else
      ok_or (checked_sub (rows size) (rows requested))
        (invalid_args "horizontal split size would overlap the existing pane") ≫= fun existing =>
      if (rows requested <? MIN_PANE_ROWS) || (existing <? MIN_PANE_ROWS)
      then Err (invalid_args "horizontal split size is below the minimum pane dimensions")
      else Ok (mkSize (columns size) existing, requested)
  end.

Definition resize_pane_size (window_size current : Size) (spec : PaneSizeSpec) : result Size :=
  resolve_size_spec window_size current spec
    (mkMessages (Some "cells resize requires columns or rows")
       "percent resize requires a positive percent" "percent resize"
       "directional resize amount must be positive" "resize").

(** ** Even division *)

(** [(base + usize::from(index < remainder)).max(1) as u16] for each index. *)
Definition split_dimension_evenly (total : Z) (count : nat) : list Z :=
  let count := Nat.max count 1 in
  let base := total / Z.of_nat count in
  let remainder := total mod Z.of_nat count in
  (fun index => wrap u16_MAX (Z.max (base + (if Z.of_nat index <? remainder then 1 else 0)) 1))
    <$> seq 0 count.

Definition minimum_even_dimension (total : Z) (count : nat) : Z :=
  wrap u16_MAX (Z.max (total / Z.of_nat (Nat.max count 1)) 1).

Definition ratio_millis (value target : Z) : Z :=
  sat_mul u32_MAX value 1000 / Z.max target 1.

(** ** The even grid *)

(** The score of a candidate grid: preferred axes, smallest ratio, pane area,
    and [Reverse(empty_cells)]. *)
Record GridScore := mkScore { sc_preferred : Z; sc_ratio : Z; sc_area : Z; sc_empty : Z }.

(** [score > best_score], the lexicographic order of the tuple. *)
Definition score_gt (a b : GridScore) : bool :=
  if sc_preferred a =? sc_preferred b then
    if sc_ratio a =? sc_ratio b then
      if sc_area a =? sc_area b then sc_empty a <? sc_empty b
      else sc_area b <? sc_area a
    else sc_ratio b <? sc_ratio a
  else sc_preferred b <? sc_preferred a.

(** [usize::div_ceil]. *)
Definition div_ceil (a b : nat) : nat := ((a + b - 1) / b)%nat.

Definition grid_score (size : Size) (pane_count cols : nat) : GridScore :=
  let row_count := div_ceil pane_count cols in
  let min_columns := minimum_even_dimension (columns size) cols in
  let min_rows := minimum_even_dimension (rows size) row_count in
  mkScore
    ((if EVEN_GRID_TARGET_COLUMNS <=? min_columns then 1 else 0)
     + (if EVEN_GRID_TARGET_ROWS <=? min_rows then 1 else 0))
    (Z.min (ratio_millis min_columns EVEN_GRID_TARGET_COLUMNS)
           (ratio_millis min_rows EVEN_GRID_TARGET_ROWS))
    (sat_mul u32_MAX min_columns min_rows)
    (Z.of_nat (cols * row_count - pane_count)).

(** The loop over the candidate column counts. *)
Fixpoint best_grid (size : Size) (pane_count : nat) (candidates : list nat)
    (best : option (GridScore * nat * nat)) : option (GridScore * nat * nat) :=
  match candidates with
  | [] => best
  | cols :: candidates =>
      let score := grid_score size pane_count cols in
      let best := match best with
                  | Some (best_score, _, _) =>
                      if score_gt score best_score
                      then Some (score, cols, div_ceil pane_count cols) else best
                  | None => Some (score, cols, div_ceil pane_count cols)
                  end in
      best_grid size pane_count candidates best
  end.

Definition even_grid_dimensions (size : Size) (pane_count : nat) : nat * nat :=
  let pane_count := Nat.max pane_count 1 in
  match best_grid size pane_count (seq 1 pane_count) None with
  | Some (_, cols, rws) => (cols, rws)
  | None => (pane_count, 1%nat)
  end.

Definition even_layout_minimum_pane_size (policy : LayoutPolicy) (size : Size) (pane_count : nat)
    : Size :=
  let pane_count := Nat.max pane_count 1 in
  match policy with
  | Tiled | EvenVertical =>
      mkSize (minimum_even_dimension (columns size) pane_count) (rows size)
  | EvenHorizontal =>
      mkSize (columns size) (minimum_even_dimension (rows size) pane_count)
  | EvenGrid =>
      let '(cols, rws) := even_grid_dimensions size pane_count in
      mkSize (minimum_even_dimension (columns size) cols) (minimum_even_dimension (rows size) rws)
  end.

(** ** Lemmas on splitting *)

(** How a size is divided in two along a direction. *)
Definition splits_into (direction : SplitDirection) (size first second : Size) : Prop :=
  match direction with
  | Vertical => columns first + columns second = columns size
                /\ rows first = rows size /\ rows second = rows size
  | Horizontal => rows first + rows second = rows size
                  /\ columns first = columns size /\ columns second = columns size
  end.

(** The extent of a size along the axis a direction divides. *)
Definition axis_extent (direction : SplitDirection) (size : Size) : Z :=
  match direction with Vertical => columns size | Horizontal => rows size end.

Lemma split_size_Ok size direction a b :
  split_size size direction = Ok (a, b) ->
  splits_into direction size a b
  /\ 2 <= axis_extent direction b <= axis_extent direction a
  /\ axis_extent direction a <= axis_extent direction b + 1.
Proof.
  assert (forall n, n / 2 + n mod 2 + n / 2 = n) as Hsum.
  { intros n. pose proof (Z.div_mod n 2 ltac:(lia)). lia. }
  assert (forall n, 4 <= n -> 2 <= n / 2) as Hge.
  { intros n Hn. apply Z.div_le_lower_bound; lia. }
  assert (forall n, 0 <= n mod 2 <= 1) as Hm.
  { intros n. pose proof (Z.mod_pos_bound n 2 ltac:(lia)). lia. }
  unfold split_size, sat_mul, u16_MAX, MIN_PANE_COLUMNS, MIN_PANE_ROWS, splits_into, axis_extent.
  destruct direction.
  - destruct (columns size <? _) eqn:E; intros [= <- <-]; bool_to_prop; simpl.
    specialize (Hsum (columns size)). specialize (Hm (columns size)).
    specialize (Hge (columns size) ltac:(lia)). lia.
  - destruct (rows size <? _) eqn:E; intros [= <- <-]; bool_to_prop; simpl.
    specialize (Hsum (rows size)). specialize (Hm (rows size)).
    specialize (Hge (rows size) ltac:(lia)). lia.
Qed.

Lemma split_size_with_spec_Ok size direction spec a b :
  split_size_with_spec size direction spec = Ok (a, b) ->
  splits_into direction size a b
  /\ 2 <= axis_extent direction a /\ 2 <= axis_extent direction b.
Proof.
  unfold split_size_with_spec. rewrite bind_Ok_inv. intros (halves & _ & H).
  rewrite bind_Ok_inv in H. destruct H as (req & _ & H). destruct direction; simpl in *.
  - destruct (rows req =? rows size) eqn:?; simpl in H; [|done]. bool_to_prop.
    rewrite bind_Ok_inv in H. destruct H as (e & He & H).
    apply ok_or_Ok_inv, checked_sub_Some in He as [? ->].
    destruct (_ || _) eqn:?; [done|]. injection H as <- <-. bool_to_prop.
    unfold MIN_PANE_COLUMNS in *. simpl. lia.
  - destruct (columns req =? columns size) eqn:?; simpl in H; [|done]. bool_to_prop.
    rewrite bind_Ok_inv in H. destruct H as (e & He & H).
    apply ok_or_Ok_inv, checked_sub_Some in He as [? ->].
    destruct (_ || _) eqn:?; [done|]. injection H as <- <-. bool_to_prop.
    unfold MIN_PANE_ROWS in *. simpl. lia.
Qed.

(** Resolving and splitting sizes report errors and never panic. *)

Lemma no_panic_Size_new c r : no_panic (Size_new c r).
Proof.
  unfold Size_new, Size_validate, TerminalSize_validate, from_size_error.
  apply no_panic_bind; [|auto with mez]. by repeat destruct_match.
Qed.
#[export] Hint Resolve no_panic_Size_new : mez.

Lemma no_panic_scaled t p a m : no_panic (scaled_dimension t p a m).
Proof. unfold scaled_dimension. destruct (u16_try_from _); auto with mez. Qed.
#[export] Hint Resolve no_panic_scaled : mez.

Lemma no_panic_resolve source fallback spec messages :
  no_panic (resolve_size_spec source fallback spec messages).
Proof.
  destruct spec as [c r|percent axis|dir amount|dir amount]; simpl.
  - destruct c, r, (empty_cells messages); auto with mez.
  - unfold percent_size_for_axis. destruct axis; auto 10 with mez.
  - unfold size_from_direction. destruct dir; auto 10 with mez.
  - unfold size_from_direction. destruct dir; auto 10 with mez.
Qed.
#[export] Hint Resolve no_panic_resolve : mez.

Lemma no_panic_split_size size d : no_panic (split_size size d).
Proof. unfold split_size. destruct d; auto with mez. Qed.
#[export] Hint Resolve no_panic_split_size : mez.

Lemma no_panic_split_size_with_spec size d spec : no_panic (split_size_with_spec size d spec).
Proof.
  unfold split_size_with_spec, split_requested_size.
  apply no_panic_bind; [auto with mez|]. intros halves. apply no_panic_bind; [auto with mez|].
  intros requested. destruct d; auto 10 with mez.
Qed.
#[export] Hint Resolve no_panic_split_size_with_spec : mez.

Lemma no_panic_validate_pane_size size : no_panic (validate_pane_size size).
Proof.
  unfold validate_pane_size. apply no_panic_bind; [|auto with mez].
  unfold Size_validate, TerminalSize_validate, from_size_error. by repeat destruct_match.
Qed.
#[export] Hint Resolve no_panic_validate_pane_size : mez.

(** ** Lemmas on even division *)

Lemma length_split_dimension_evenly total count :
  length (split_dimension_evenly total count) = Nat.max count 1.
Proof. unfold split_dimension_evenly. by rewrite length_fmap, length_seq. Qed.

Lemma sum_seq_ind (base r : Z) (n : nat) :
  0 <= r <= Z.of_nat n ->
  sum_Z ((fun i => base + (if Z.of_nat i <? r then 1 else 0)) <$> seq 0 n) = base * Z.of_nat n + r.
Proof.
  revert r. induction n as [|n IH]; intros r Hr; [simpl; lia|].
  rewrite seq_S, fmap_app, sum_Z_app. simpl.
  destruct (Z.of_nat n <? r) eqn:E; bool_to_prop.
  - assert (r = Z.of_nat (S n)) as -> by lia.
    rewrite (list_fmap_ext _ (fun i => base + (if Z.of_nat i <? Z.of_nat n then 1 else 0)) _).
    { rewrite IH by lia. lia. }
    intros i x Hi. apply lookup_seq in Hi as [-> ?]. simpl.
    destruct (Z.ltb_spec (Z.of_nat i) (Z.of_nat (S n))), (Z.ltb_spec (Z.of_nat i) (Z.of_nat n)); lia.
  - rewrite IH by lia. lia.
Qed.

Section EvenDivision.
Context (total : Z) (count : nat).
Hypothesis Htotal : in_u16 total.

Local Abbreviation n := (Nat.max count 1).
Local Abbreviation base := (total / Z.of_nat n).
Local Abbreviation rem := (total mod Z.of_nat n).

Lemma even_base_range : 0 <= base <= total /\ base * Z.of_nat n + rem = total /\ 0 <= rem < Z.of_nat n.
Proof.
  pose proof (Z.div_mod total (Z.of_nat n) ltac:(lia)).
  pose proof (Z.mod_pos_bound total (Z.of_nat n) ltac:(lia)).
  unfold in_u16 in Htotal. assert (0 <= base) by (apply Z.div_pos; lia).
  assert (base <= total) by (apply Z.div_le_upper_bound; nia). lia.
Qed.

Lemma even_share_le i : base + (if Z.of_nat i <? rem then 1 else 0) <= total.
Proof.
  pose proof even_base_range as (? & ? & ?).
  destruct (Z.ltb_spec (Z.of_nat i) rem); [|lia].
  assert (1 <= Z.of_nat n) by lia. nia.
Qed.

(** Each share is [base] or [base + 1], at least one cell, and fits in [u16]. *)
Lemma split_dimension_evenly_lookup i x :
  split_dimension_evenly total count !! i = Some x ->
  x = Z.max (base + (if Z.of_nat i <? rem then 1 else 0)) 1.
Proof.
  unfold split_dimension_evenly. rewrite list_lookup_fmap.
  destruct (seq 0 n !! i) as [j|] eqn:Hj; simpl; intros [= <-].
  apply lookup_seq in Hj as [-> Hj]. simpl. apply wrap_small.
  pose proof even_base_range as (? & ? & ?).
  pose proof (even_share_le i). unfold in_u16, u16_MAX in *. lia.
Qed.

Lemma split_dimension_evenly_pos : Forall (fun x => 1 <= x <= u16_MAX) (split_dimension_evenly total count).
Proof.
  apply Forall_lookup. intros i x Hx.
  assert (i < length (split_dimension_evenly total count))%nat as Hi by by eapply lookup_lt_Some.
  rewrite length_split_dimension_evenly in Hi. apply split_dimension_evenly_lookup in Hx as ->.
  pose proof (even_share_le i). unfold in_u16, u16_MAX in *. lia.
Qed.

Lemma split_dimension_evenly_balanced :
  Forall (fun x => minimum_even_dimension total count <= x <= minimum_even_dimension total count + 1)
    (split_dimension_evenly total count).
Proof.
  apply Forall_lookup. intros i x Hx. apply split_dimension_evenly_lookup in Hx as ->.
  pose proof even_base_range as (? & ? & ?). unfold minimum_even_dimension.
  rewrite wrap_small by (unfold in_u16, u16_MAX in *; lia).
  destruct (Z.ltb_spec (Z.of_nat i) rem); lia.
Qed.

(** With at least one cell per share the shares add up to the axis. *)
Lemma split_dimension_evenly_sum :
  Z.of_nat n <= total -> sum_Z (split_dimension_evenly total count) = total.
Proof.
  intros Hn. pose proof even_base_range as (? & ? & ?).
  assert (1 <= base) by (apply Z.div_le_lower_bound; lia).
  transitivity (base * Z.of_nat n + rem); [|lia].
  rewrite <- sum_seq_ind by lia. f_equal. unfold split_dimension_evenly.
  apply list_fmap_ext. intros i x Hi. apply lookup_seq in Hi as [-> Hi]. simpl.
  rewrite Z.max_l by (destruct (Z.of_nat i <? rem); lia).
  apply wrap_small. pose proof (even_share_le i). unfold in_u16, u16_MAX in *.
  destruct (Z.of_nat i <? rem); lia.
Qed.
End EvenDivision.

(** ** Lemmas on the even grid *)

Lemma score_gt_spec a b :
  score_gt a b = true <->
  sc_preferred b < sc_preferred a
  \/ (sc_preferred a = sc_preferred b
      /\ (sc_ratio b < sc_ratio a
          \/ (sc_ratio a = sc_ratio b
              /\ (sc_area b < sc_area a \/ (sc_area a = sc_area b /\ sc_empty a < sc_empty b))))).
Proof.
  unfold score_gt.
  repeat match goal with |- context [if ?b then _ else _] => destruct b eqn:? end;
    bool_to_prop; rewrite ?Z.ltb_lt; lia.
Qed.

Lemma score_gt_false a b : score_gt a b = false <-> ~ (score_gt a b = true).
Proof. by rewrite not_true_iff_false. Qed.

Lemma score_gt_le_lt_trans a b c :
  score_gt a b = false -> score_gt c b = true -> score_gt a c = false.
Proof. rewrite !score_gt_false, !score_gt_spec. lia. Qed.

Lemma score_gt_trans a b c :
  score_gt a b = true -> score_gt b c = true -> score_gt a c = true.
Proof. rewrite !score_gt_spec. lia. Qed.

Lemma score_gt_irrefl a : score_gt a a = false.
Proof. rewrite score_gt_false, score_gt_spec. lia. Qed.

Lemma div_ceil_cover a b : (1 <= b)%nat -> (a <= b * div_ceil a b)%nat.
Proof.
  intros Hb. unfold div_ceil. pose proof (Nat.div_mod_eq (a + b - 1) b).
  pose proof (Nat.mod_upper_bound (a + b - 1) b ltac:(lia)). nia.
Qed.

Lemma div_ceil_le a b : (1 <= b)%nat -> (1 <= a)%nat -> (1 <= div_ceil a b <= a)%nat.
Proof.
  intros Hb Ha. unfold div_ceil. split.
  - apply Nat.div_le_lower_bound; lia.
  - apply Nat.lt_succ_r, Nat.Div0.div_lt_upper_bound. nia.
Qed.

(** The candidate kept after a prefix of the loop: better than every earlier
    candidate, and no candidate of the prefix beats it. *)
Definition grid_best_of (size : Size) (n k : nat) (best : option (GridScore * nat * nat)) : Prop :=
  match best with
  | None => k = 0%nat
  | Some (s, c, r) =>
      (1 <= c <= k)%nat /\ s = grid_score size n c /\ r = div_ceil n c
      /\ (forall c', (1 <= c' <= k)%nat -> score_gt (grid_score size n c') s = false)
      /\ (forall c', (1 <= c' < c)%nat -> score_gt s (grid_score size n c') = true)
  end.

Lemma grid_best_step size n k best :
  grid_best_of size n k best ->
  grid_best_of size n (S k)
    (match best with
     | Some (best_score, _, _) =>
         if score_gt (grid_score size n (S k)) best_score
         then Some (grid_score size n (S k), S k, div_ceil n (S k)) else best
     | None => Some (grid_score size n (S k), S k, div_ceil n (S k))
     end).
Proof.
  intros H. destruct best as [[[s c] r]|]; simpl in H.
  - destruct H as (Hc & -> & -> & Hbest & Hfirst).
    destruct (score_gt (grid_score size n (S k)) _) eqn:E; simpl; (split; [lia|]); do 2 (split; [done|]).
    + split; intros c' Hc'.
      * destruct (decide (c' = S k)) as [->|]; [apply score_gt_irrefl|].
        eapply score_gt_le_lt_trans; [|exact E]. apply Hbest. lia.
      * assert (score_gt (grid_score size n c') (grid_score size n c) = false) as Hb
          by (apply Hbest; lia).
        rewrite score_gt_false in Hb. rewrite score_gt_spec in Hb, E |- *. lia.
    + split; [|done]. intros c' Hc'. destruct (decide (c' = S k)) as [->|]; [done|].
      apply Hbest. lia.
  - simpl. subst k. split; [lia|]. do 2 (split; [done|]). split; intros c' Hc'; [|lia].
    assert (c' = 1)%nat as -> by lia. apply score_gt_irrefl.
Qed.

Lemma best_grid_spec size n m k best :
  grid_best_of size n k best -> grid_best_of size n (k + m) (best_grid size n (seq (S k) m) best).
Proof.
  revert k best. induction m as [|m IH]; intros k best H; [by rewrite Nat.add_0_r|].
  simpl. rewrite <- Nat.add_succ_comm. apply IH. by apply grid_best_step.
Qed.

Lemma even_grid_dimensions_spec size pane_count c r :
  even_grid_dimensions size pane_count = (c, r) ->
  let n := Nat.max pane_count 1 in
  (1 <= c <= n)%nat /\ r = div_ceil n c
  /\ (forall c', (1 <= c' <= n)%nat -> score_gt (grid_score size n c') (grid_score size n c) = false)
  /\ (forall c', (1 <= c' < c)%nat -> score_gt (grid_score size n c) (grid_score size n c') = true).
Proof.
  intros H n. unfold even_grid_dimensions in H. fold n in H.
  pose proof (best_grid_spec size n n 0 None eq_refl) as Hb. simpl in Hb.
  destruct (best_grid size n (seq 1 n) None) as [[[s c'] r']|]; simpl in Hb; [|lia].
  injection H as -> ->. by destruct Hb as (? & -> & ? & ? & ?).
Qed.

(** ** Theorems *)

(** A split with an explicit size request, when it succeeds, divides the pane
    exactly: the two extents add up to the original, the other axis is kept,
    and both parts have at least the minimum pane dimension. *)
Theorem split_with_spec_partitions size direction spec first second :
  split_size_with_spec size direction spec = Ok (first, second) ->
  splits_into direction size first second
  /\ 2 <= axis_extent direction first /\ 2 <= axis_extent direction second.
Proof. apply split_size_with_spec_Ok. Qed.

Lemma split_with_spec_partitions_witness :
  split_size_with_spec (mkSize 81 24) Vertical (Percent 25 AxisColumns)
    = Ok (mkSize 60 24, mkSize 21 24)
  /\ splits_into Vertical (mkSize 81 24) (mkSize 60 24) (mkSize 21 24).
Proof.
  split; [reflexivity|].
  apply (split_with_spec_partitions (mkSize 81 24) Vertical (Percent 25 AxisColumns)). reflexivity.
Defined.

(** Dividing an axis evenly among [count] panes gives [max count 1] shares that
    differ by at most one cell from the computed minimum share, are at least
    one cell each, and add up to the axis whenever there is a cell per pane. *)
Theorem even_division_exact total count :
  in_u16 total ->
  let shares := split_dimension_evenly total count in
  length shares = Nat.max count 1
  /\ Forall (fun x => 1 <= x /\ minimum_even_dimension total count <= x
                      /\ x <= minimum_even_dimension total count + 1) shares
  /\ (Z.of_nat (Nat.max count 1) <= total -> sum_Z shares = total).
Proof.
  intros Ht shares. split; [apply length_split_dimension_evenly|]. split.
  - pose proof (split_dimension_evenly_pos total count Ht) as H1.
    pose proof (split_dimension_evenly_balanced total count Ht) as H2.
    eapply Forall_impl; [apply Forall_and; split; [exact H1|exact H2]|]. simpl. lia.
  - by apply split_dimension_evenly_sum.
Qed.

Lemma even_division_exact_witness :
  in_u16 80 /\ split_dimension_evenly 80 3 = [27; 27; 26]
  /\ sum_Z (split_dimension_evenly 80 3) = 80.
Proof.
  split; [done|]. split; [reflexivity|]. apply (even_division_exact 80 3); done.
Defined.

(** The even grid has room for every pane and no candidate grid scores higher;
    among the best grids the one with the fewest columns is chosen. *)
Theorem even_grid_optimal size pane_count c r :
  even_grid_dimensions size pane_count = (c, r) ->
  let n := Nat.max pane_count 1 in
  (1 <= c <= n)%nat /\ r = div_ceil n c /\ (pane_count <= c * r)%nat
  /\ (forall c', (1 <= c' <= n)%nat -> score_gt (grid_score size n c') (grid_score size n c) = false)
  /\ (forall c', (1 <= c' < c)%nat -> score_gt (grid_score size n c) (grid_score size n c') = true).
Proof.
  intros H n. destruct (even_grid_dimensions_spec _ _ _ _ H) as (Hc & Hr & Hb & Hf).
  fold n in Hc, Hr, Hb, Hf. split; [done|]. split; [done|]. split; [|done].
  pose proof (div_ceil_cover n c ltac:(lia)). rewrite Hr. lia.
Qed.

Lemma even_grid_optimal_witness :
  even_grid_dimensions (mkSize 200 50) 5 = (2%nat, 3%nat)
  /\ (5 <= 2 * 3)%nat.
Proof.
  split; [reflexivity|].
  apply (even_grid_optimal (mkSize 200 50) 5 2 3). reflexivity.
Defined.

(** ** Proportional distribution of an axis *)



(** [while remainder > 0 { allocations[index] += 1; .. }]: round robin. *)
Fixpoint grow_allocations (remainder : nat) (index : nat) (allocations : list Z) : list Z :=
  match remainder with
  | O => allocations
  | S remainder =>
      grow_allocations remainder ((index + 1) mod length allocations)%nat
        (alter (fun a => sat_add u16_MAX a 1) index allocations)
  end.

(** [while excess > 0 { .. }]: takes a cell from the last share above one. *)
Fixpoint shrink_allocations (excess : nat) (allocations : list Z) : list Z :=
  match excess with
  | O => allocations
  | S excess =>
      match rposition (fun a => 1 <? a) allocations with
      | None => allocations
      | Some index => shrink_allocations excess (alter (fun a => a - 1) index allocations)
      end
  end.

(** The scaled share of one weight. *)
Definition scaled_share (total total_weight weight : Z) : Z :=
  default u16_MAX (u16_try_from (Z.max (sat_mul u32_MAX total weight / total_weight) 1)).

Definition distribute_dimension (total : Z) (weights : list Z) : list Z :=
  match weights with
  | [] => []
  | [_] => [Z.max total 1]
  | _ =>
      let total_weight := wrap u32_MAX (sum_Z weights) in
      if total_weight =? 0 then split_dimension_evenly total (length weights) else
      let allocations := scaled_share total total_weight <$> weights in
      let allocated := wrap u32_MAX (sum_Z allocations) in
      let target := Z.max total 1 in
      if allocated <? target then grow_allocations (Z.to_nat (target - allocated)) 0 allocations
      else if target <? allocated then shrink_allocations (Z.to_nat (allocated - target)) allocations
      else allocations
  end.

(** ** The correction loops *)

Lemma length_grow_allocations k i l : length (grow_allocations k i l) = length l.
Proof. revert i l. induction k; intros; simpl; [done|]. by rewrite IHk, length_alter. Qed.

Lemma length_shrink_allocations k l : length (shrink_allocations k l) = length l.
Proof.
  revert l. induction k; intros; simpl; [done|]. destruct (rposition _ _); [|done].
  by rewrite IHk, length_alter.
Qed.

Lemma alter_sum (f : Z -> Z) i l x :
  l !! i = Some x -> sum_Z (alter f i l) = sum_Z l - x + f x.
Proof. intros Hx. rewrite (list_alter_insert _ _ _ _ Hx). by apply sum_Z_insert. Qed.

Lemma Forall_alter_Z (P : Z -> Prop) f i l :
  (forall x, P x -> P (f x)) -> Forall P l -> Forall P (alter f i l).
Proof. intros Hf Hl. by apply Forall_alter; [|intros; auto]. Qed.

Lemma grow_allocations_spec k : forall i l,
  (i < length l)%nat -> Forall (fun x => 1 <= x) l -> sum_Z l + Z.of_nat k <= u16_MAX ->
  sum_Z (grow_allocations k i l) = sum_Z l + Z.of_nat k
  /\ Forall2 Z.le l (grow_allocations k i l).
Proof.
  induction k as [|k IH]; intros i l Hi Hl Hs; simpl.
  { split; [lia|]. clear. induction l; by constructor. }
  destruct (lookup_lt_is_Some_2 l i Hi) as [x Hx].
  assert (x <= sum_Z l) as Hxs.
  { apply sum_Z_elem; [|by eapply list_elem_of_lookup_2].
    eapply Forall_impl; [exact Hl|]. simpl. lia. }
  pose proof (alter_sum (fun a => sat_add u16_MAX a 1) i l x Hx) as Hsum.
  assert (sat_add u16_MAX x 1 = x + 1) as Hsat by solve_int.
  cbv beta in Hsum. rewrite Hsat in Hsum.
  assert (Forall2 Z.le l (alter (fun a => sat_add u16_MAX a 1) i l)) as Hmono.
  { rewrite (list_alter_insert _ _ _ _ Hx). cbv beta. rewrite Hsat. apply Forall2_same_length_lookup.
    rewrite length_insert. split; [done|]. intros j y z Hy Hz.
    destruct (decide (i = j)) as [->|Hij].
    - rewrite list_lookup_insert_eq in Hz by done. simplify_eq. lia.
    - rewrite list_lookup_insert_ne in Hz by done. simplify_eq. lia. }
  destruct (IH ((i + 1) mod length l)%nat (alter (fun a => sat_add u16_MAX a 1) i l)) as [Hs' Hm'].
  - rewrite length_alter. apply Nat.mod_upper_bound. lia.
  - apply Forall_alter_Z; [|done]. intros. solve_int.
  - lia.
  - split; [lia|]. etrans; [exact Hmono|exact Hm'].
Qed.

Lemma shrink_allocations_spec k : forall l,
  Forall (fun x => 1 <= x) l -> Z.of_nat (length l) <= sum_Z l - Z.of_nat k ->
  sum_Z (shrink_allocations k l) = sum_Z l - Z.of_nat k
  /\ Forall (fun x => 1 <= x) (shrink_allocations k l).
Proof.
  induction k as [|k IH]; intros l Hl Hs; simpl; [split; [lia|done]|].
  destruct (rposition (fun a => 1 <? a) l) as [i|] eqn:E.
  - apply rposition_Some in E as (x & Hx & Hgt). bool_to_prop.
    pose proof (alter_sum (fun a => a - 1) i l x Hx) as Hsum. cbv beta in Hsum.
    destruct (IH (alter (fun a => a - 1) i l)) as [Hs' Hl'].
    + rewrite (list_alter_insert _ _ _ _ Hx). apply Forall_insert; [done|lia].
    + rewrite length_alter, Hsum. lia.
    + split; [lia|done].
  - exfalso. apply rposition_None in E.
    assert (sum_Z l = Z.of_nat (length l)); [|lia]. clear Hs IH.
    induction Hl as [|y l Hy Hl IH]; [done|]. apply Forall_cons in E as [Hy' E]. bool_to_prop.
    simpl. rewrite IH by done. lia.
Qed.

(** ** Shares *)

Lemma grow_allocations_range k i l : Forall in_u16 l -> Forall in_u16 (grow_allocations k i l).
Proof.
  revert i l. induction k as [|k IH]; intros i l Hl; simpl; [done|].
  apply IH, Forall_alter_Z; [|done]. intros. solve_int.
Qed.

Lemma shrink_allocations_range k l : Forall in_u16 l -> Forall in_u16 (shrink_allocations k l).
Proof.
  revert l. induction k as [|k IH]; intros l Hl; simpl; [done|].
  destruct (rposition _ l) as [i|] eqn:E; [|done].
  apply rposition_Some in E as (x & Hx & Hgt). bool_to_prop. apply IH.
  rewrite (list_alter_insert _ _ _ _ Hx). apply Forall_insert; [done|].
  eapply Forall_lookup_1 in Hx; [|exact Hl]. solve_int.
Qed.

Lemma scaled_share_range total W w : in_u16 (scaled_share total W w).
Proof.
  unfold scaled_share, u16_try_from. generalize (sat_mul u32_MAX total w / W). intros q.
  destruct (Z.leb_spec (Z.max q 1) u16_MAX); simpl; solve_int.
Qed.

(** Whatever the weights, every share is a [u16]. *)
Lemma distribute_dimension_range total weights :
  in_u16 total -> Forall in_u16 (distribute_dimension total weights).
Proof.
  intros Ht. unfold distribute_dimension.
  destruct weights as [|w [|w' ws]]; [constructor|constructor; [solve_int|constructor]|].
  set (weights := w :: w' :: ws).
  assert (Forall in_u16 (scaled_share total (wrap u32_MAX (sum_Z weights)) <$> weights)) as Hs.
  { rewrite Forall_fmap. apply Forall_forall. intros x _. apply scaled_share_range. }
  repeat match goal with |- context [if ?b then _ else _] => destruct b end;
    auto using grow_allocations_range, shrink_allocations_range.
  eapply Forall_impl; [by apply split_dimension_evenly_pos|]. simpl. intros. solve_int.
Qed.

Section Distribute.
Context (total : Z) (weights : list Z).
Hypothesis Htotal : in_u16 total.
Hypothesis Hweights : Forall in_u16 weights.
Hypothesis Hlen : Z.of_nat (length weights) <= u16_MAX.

Lemma weights_sum_range : 0 <= sum_Z weights <= u32_MAX.
Proof.
  assert (forall l, Forall in_u16 l -> 0 <= sum_Z l <= Z.of_nat (length l) * u16_MAX) as H.
  { induction 1 as [|x l Hx Hl IH]; simpl; [lia|]. unfold in_u16, u16_MAX in *. lia. }
  specialize (H weights Hweights). unfold u16_MAX, u32_MAX in *. lia.
Qed.

Lemma scaled_share_eq w :
  0 < sum_Z weights -> w ∈ weights ->
  scaled_share total (sum_Z weights) w = Z.max (total * w / sum_Z weights) 1
  /\ 1 <= scaled_share total (sum_Z weights) w <= Z.max total 1.
Proof.
  intros HW Hw. rewrite Forall_forall in Hweights. pose proof (Hweights _ Hw) as Hwu.
  assert (w <= sum_Z weights).
  { apply sum_Z_elem; [|done]. apply Forall_forall. intros y Hy.
    specialize (Hweights _ Hy). unfold in_u16 in *. lia. }
  assert (0 <= total * w / sum_Z weights <= total).
  { unfold in_u16 in *. split; [apply Z.div_pos; nia|apply Z.div_le_upper_bound; nia]. }
  unfold scaled_share, sat_mul, in_u16, u16_MAX, u32_MAX, u16_try_from in *.
  rewrite Z.min_r by nia.
  destruct (Z.leb_spec (Z.max (total * w / sum_Z weights) 1) u16_MAX);
    unfold u16_MAX in *; simpl; lia.
Qed.

Lemma scaled_shares_pos :
  0 < sum_Z weights ->
  Forall (fun x => 1 <= x <= u16_MAX) (scaled_share total (sum_Z weights) <$> weights).
Proof.
  intros HW. rewrite Forall_fmap. apply Forall_forall. intros w Hw. simpl.
  pose proof (scaled_share_eq w HW Hw). unfold in_u16, u16_MAX in *. lia.
Qed.

Lemma scaled_shares_sum_range :
  0 < sum_Z weights -> 0 <= sum_Z (scaled_share total (sum_Z weights) <$> weights) <= u32_MAX.
Proof.
  intros HW. pose proof (scaled_shares_pos HW) as Hs.
  assert (forall l, Forall (fun x => 1 <= x <= u16_MAX) l ->
                    0 <= sum_Z l <= Z.of_nat (length l) * u16_MAX) as H.
  { induction 1 as [|x l Hx Hl IH]; simpl; [lia|]. unfold u16_MAX in *. lia. }
  specialize (H _ Hs). rewrite length_fmap in H. unfold u16_MAX, u32_MAX in *. lia.
Qed.

Lemma length_distribute_dimension : length (distribute_dimension total weights) = length weights.
Proof.
  unfold distribute_dimension. destruct weights as [|w [|w' ws]]; [done..|].
  repeat match goal with |- context [if ?b then _ else _] => destruct b end;
    rewrite ?length_grow_allocations, ?length_shrink_allocations, ?length_fmap; try done.
  rewrite length_split_dimension_evenly. simpl. lia.
Qed.

(** Enough cells for one per child: the shares are positive and exact. *)
Lemma distribute_dimension_exact :
  weights <> [] -> Z.of_nat (length weights) <= total ->
  Forall (fun x => 1 <= x) (distribute_dimension total weights)
  /\ sum_Z (distribute_dimension total weights) = total.
Proof.
  intros Hne Hle. pose proof weights_sum_range as HWr.
  pose proof scaled_shares_pos as Hpos. pose proof scaled_shares_sum_range as Hsr.
  unfold distribute_dimension.
  destruct weights as [|w [|w' ws]] eqn:Ews; [done|simpl in *; split; [|lia]|rewrite <- Ews in *].
  { constructor; [lia|constructor]. }
  assert (1 <= total) by (rewrite Ews in Hle; simpl in Hle; lia).
  rewrite wrap_small by done.
  destruct (sum_Z weights =? 0) eqn:E0; bool_to_prop.
  { assert (Z.of_nat (length weights `max` 1) <= total) by (rewrite Ews in *; simpl in *; lia).
    split; [|by apply split_dimension_evenly_sum].
    eapply Forall_impl; [by apply split_dimension_evenly_pos|]. simpl. lia. }
  assert (0 < sum_Z weights) as HW by lia. specialize (Hpos HW). specialize (Hsr HW).
  rewrite wrap_small by done.
  set (al := scaled_share total (sum_Z weights) <$> weights) in *.
  assert (length al = length weights) as Hlal by (unfold al; by rewrite length_fmap).
  assert (Forall (fun x => 1 <= x) al) as Hpos1 by (eapply Forall_impl; [exact Hpos|simpl; lia]).
  destruct (sum_Z al <? Z.max total 1) eqn:E1; bool_to_prop.
  { destruct (grow_allocations_spec (Z.to_nat (Z.max total 1 - sum_Z al)) 0 al) as [Hs Hm].
    - rewrite Hlal, Ews. simpl. lia.
    - done.
    - unfold in_u16, u16_MAX in *. lia.
    - split; [|lia]. clear -Hm Hpos1.
      induction Hm; [constructor|]. apply Forall_cons in Hpos1 as [? ?]. constructor; [lia|auto]. }
  destruct (Z.max total 1 <? sum_Z al) eqn:E2; bool_to_prop; [|split; [done|lia]].
  destruct (shrink_allocations_spec (Z.to_nat (sum_Z al - Z.max total 1)) al) as [Hs Hl]; [done|lia|].
  split; [done|lia].
Qed.

Lemma scaled_sum_le_total :
  0 < sum_Z weights ->
  sum_Z ((fun w => total * w / sum_Z weights) <$> weights) <= total.
Proof.
  intros HW. set (W := sum_Z weights) in *.
  assert (forall l, W * sum_Z ((fun w => total * w / W) <$> l) <= total * sum_Z l) as H.
  { induction l as [|x l IH]; csimpl; [lia|].
    pose proof (Z.mul_div_le (total * x) W HW) as Hx.
    set (q := total * x / W) in *. clearbody q. nia. }
  specialize (H weights). fold W in H. nia.
Qed.

(** An axis that does not shrink shrinks no child. *)
Lemma distribute_dimension_grows :
  weights <> [] -> Forall (fun w => 1 <= w) weights -> sum_Z weights <= total ->
  Forall2 Z.le weights (distribute_dimension total weights).
Proof.
  intros Hne Hw1 Hle. pose proof weights_sum_range as HWr.
  pose proof (sum_Z_ge_length _ Hw1) as Hge.
  pose proof scaled_shares_pos as Hpos. pose proof scaled_shares_sum_range as Hsr.
  pose proof scaled_sum_le_total as Hfl. pose proof scaled_share_eq as Heq.
  unfold distribute_dimension.
  destruct weights as [|w [|w' ws]] eqn:Ews; [done|..|rewrite <- Ews in *].
  { constructor; [simpl in *; lia|constructor]. }
  assert (0 < sum_Z weights) as HW by (rewrite Ews in *; simpl in *; lia).
  specialize (Hpos HW). specialize (Hsr HW). specialize (Hfl HW). rewrite wrap_small by done.
  destruct (sum_Z weights =? 0) eqn:E0; bool_to_prop; [lia|].
  rewrite wrap_small by done.
  assert (forall w, 1 <= w -> w <= total * w / sum_Z weights) as Hdiv.
  { intros x Hx. apply Z.div_le_lower_bound; [done|]. nia. }
  assert (scaled_share total (sum_Z weights) <$> weights
          = (fun w => total * w / sum_Z weights) <$> weights) as Hal.
  { apply list_fmap_ext. intros i x Hx. apply list_elem_of_lookup_2 in Hx.
    rewrite Forall_forall in Hw1. specialize (Hw1 x Hx). specialize (Hdiv x Hw1).
    destruct (Heq x HW Hx) as [-> _]. lia. }
  rewrite Hal in *. set (al := (fun w => total * w / sum_Z weights) <$> weights) in *.
  assert (Forall2 Z.le weights al) as Hmono.
  { unfold al. apply Forall2_fmap_r. clear -Hw1 Hdiv.
    assert (forall l, Forall (fun w => 1 <= w) l ->
              Forall2 (fun x y => x <= total * y / sum_Z weights) l l) as H.
    { induction 1; constructor; auto. }
    by apply H. }
  assert (Forall (fun x => 1 <= x) al) as Hpos1 by (eapply Forall_impl; [exact Hpos|simpl; lia]).
  destruct (sum_Z al <? Z.max total 1) eqn:E1; bool_to_prop.
  { destruct (grow_allocations_spec (Z.to_nat (Z.max total 1 - sum_Z al)) 0 al) as [_ Hm].
    - unfold al. rewrite length_fmap, Ews. simpl. lia.
    - done.
    - unfold in_u16, u16_MAX in *. lia.
    - etrans; [exact Hmono|exact Hm]. }
  destruct (Z.max total 1 <? sum_Z al) eqn:E2; bool_to_prop; [lia|done].
Qed.
End Distribute.

(** ** Theorem *)

(** The proportional distribution of an axis among the children of a split
    gives one share per child; with at least a cell per child every share is
    positive and the shares add up to the axis exactly, and an axis that does
    not shrink shrinks no child. *)
Theorem proportional_distribution_exact total weights :
  in_u16 total -> Forall in_u16 weights -> weights <> [] -> Z.of_nat (length weights) <= total ->
  let shares := distribute_dimension total weights in
  length shares = length weights /\ Forall (fun x => 1 <= x) shares /\ sum_Z shares = total
  /\ (Forall (fun w => 1 <= w) weights -> sum_Z weights <= total -> Forall2 Z.le weights shares).
Proof.
  intros Ht Hw Hne Hl shares.
  assert (Z.of_nat (length weights) <= u16_MAX) as Hlen by solve_int.
  destruct (distribute_dimension_exact total weights Ht Hw Hlen Hne Hl) as [H1 H2].
  split; [by apply length_distribute_dimension|]. split; [done|]. split; [done|].
  intros Hpos Hsum. by apply distribute_dimension_grows.
Qed.

Lemma proportional_distribution_exact_witness :
  let shares := distribute_dimension 100 [70; 3; 7] in
  shares = [88; 4; 8] /\ sum_Z shares = 100 /\ Forall2 Z.le [70; 3; 7] shares.
Proof.
  assert (in_u16 100) as Ht by (vm_compute; split; discriminate).
  assert (Forall in_u16 [70; 3; 7]) as Hw by (repeat constructor; vm_compute; discriminate).
  destruct (proportional_distribution_exact 100 [70; 3; 7] Ht Hw) as (_ & _ & H1 & H2);
    [discriminate|vm_compute; discriminate|].
  split; [vm_compute; reflexivity|]. split; [exact H1|].
  apply H2; [repeat constructor; vm_compute; discriminate|vm_compute; discriminate].
Defined.
