(* ===== verification/LayoutTree.v ===== *)
(** * The split tree ([mez-mux/src/layout/tree.rs])

    A window's layout is a tree whose leaves are pane slots (indices into the
    window's pane vector) and whose inner nodes split a rectangle among their
    children.  This file holds the tree, every operation of [LayoutNode], the
    induction principle of the nested type, and the facts that do not speak
    about rectangles: which slots an operation touches and which slots a tree
    refers to. *)

From S2P Require Import Prelude RustStr Ids LayoutTypes Sizing.
Local Open Scope Z_scope.

(** [LayoutNode]: [NPane] is the variant [Pane], [NSplit] the variant [Split]. *)
Inductive LayoutNode : Type :=
| NPane (index : nat)
| NSplit (direction : SplitDirection) (children : list LayoutNode).

(** Induction with the hypothesis for every child. *)
Lemma LayoutNode_ind' (P : LayoutNode -> Prop) :
  (forall i, P (NPane i)) -> (forall d cs, Forall P cs -> P (NSplit d cs)) -> forall n, P n.
Proof.
  intros Hp Hs. fix IH 1. intros [i|d cs]; [apply Hp|]. apply Hs.
  induction cs as [|c cs IHcs]; constructor; [apply IH|apply IHcs].
Qed.

#[global] Instance LayoutNode_eq_dec : EqDecision LayoutNode.
Proof.
  refine (fix go a b : Decision (a = b) :=
    match a, b with
    | NPane i, NPane j => cast_if (decide (i = j))
    | NSplit d cs, NSplit d' cs' =>
        cast_if_and (decide (d = d')) (@list_eq_dec _ go cs cs')
    | _, _ => right _
    end); clear go; abstract congruence.
Defined.

Module Node.
(** ** Construction and access *)

Definition single_pane (index : nat) : LayoutNode := NPane index.

Definition flat (direction : SplitDirection) (pane_count : nat) : LayoutNode :=
  if (pane_count <=? 1)%nat then single_pane 0
  else NSplit direction (single_pane <$> seq 0 pane_count).

Definition pane_index (n : LayoutNode) : option nat :=
  match n with NPane i => Some i | NSplit _ _ => None end.

Definition direction (n : LayoutNode) : option SplitDirection :=
  match n with NPane _ => None | NSplit d _ => Some d end.

Definition children (n : LayoutNode) : list LayoutNode :=
  match n with NPane _ => [] | NSplit _ cs => cs end.

(** The leaves, in visual order. *)
Fixpoint leaves (n : LayoutNode) : list nat :=
  match n with NPane i => [i] | NSplit _ cs => concat (List.map leaves cs) end.

(** ** Sizes *)

(** The sums of [u16] values wrap, as in a release build; a debug build panics
    where one exceeds 65535. *)
Fixpoint minimum_size (n : LayoutNode) : Size :=
  match n with
  | NPane _ => mkSize MIN_PANE_COLUMNS MIN_PANE_ROWS
  | NSplit d cs =>
      let child_sizes := List.map minimum_size cs in
      match d with
      | Vertical => mkSize (wrap u16_MAX (sum_Z (List.map columns child_sizes)))
                           (max_or 1 (List.map rows child_sizes))
      | Horizontal => mkSize (max_or 1 (List.map columns child_sizes))
                             (wrap u16_MAX (sum_Z (List.map rows child_sizes)))
      end
  end.

Fixpoint logical_size (n : LayoutNode) (panes : list Pane) : Size :=
  match n with
  | NPane i => match panes !! i with Some p => p_size p | None => mkSize 0 0 end
  | NSplit d cs =>
      let child_sizes := List.map (fun c => logical_size c panes) cs in
      match d with
      | Vertical => mkSize (wrap u16_MAX (sum_Z (List.map columns child_sizes)))
                           (max_or 0 (List.map rows child_sizes))
      | Horizontal => mkSize (max_or 0 (List.map columns child_sizes))
                             (wrap u16_MAX (sum_Z (List.map rows child_sizes)))
      end
  end.

Definition allocation_on_axis (n : LayoutNode) (panes : list Pane) (d : SplitDirection) : Z :=
  let size := logical_size n panes in
  match d with Vertical => columns size | Horizontal => rows size end.

(** The size a child receives: its allocation on the split axis, the
    parent's extent on the other. *)
Definition child_size (d : SplitDirection) (size : Size) (allocation : Z) : Size :=
  match d with
  | Vertical => mkSize allocation (rows size)
  | Horizontal => mkSize (columns size) allocation
  end.

Fixpoint resize_panes (n : LayoutNode) (panes : list Pane) (size : Size) : list Pane :=
  match n with
  | NPane i => alter (pane_set_size size) i panes
  | NSplit d cs =>
      let weights := List.map (fun c => allocation_on_axis c panes d) cs in
      let allocations :=
        match d with
        | Vertical => distribute_dimension (columns size) weights
        | Horizontal => distribute_dimension (rows size) weights
        end in
      fold_zip (fun c allocation panes => resize_panes c panes (child_size d size allocation))
        cs allocations panes
  end.

Definition expand_on_axis (n : LayoutNode) (panes : list Pane) (d : SplitDirection) (amount : Z)
    : list Pane :=
  let size := logical_size n panes in
  let size := match d with
              | Vertical => mkSize (sat_add u16_MAX (columns size) amount) (rows size)
              | Horizontal => mkSize (columns size) (sat_add u16_MAX (rows size) amount)
              end in
  resize_panes n panes size.

(** ** Splitting and removing slots *)

(** [split_pane_inner]: the updated node, and whether the target was found. *)
Fixpoint split_pane_inner (n : LayoutNode) (target inserted : nat) (d : SplitDirection)
    : LayoutNode * bool :=
  match n with
  | NPane i =>
      if (i =? target)%nat
      then (NSplit d [single_pane target; single_pane inserted], true)
      else (NPane (if (inserted <=? i)%nat then S i else i), false)
  | NSplit d' cs =>
      let results := List.map (fun c => split_pane_inner c target inserted d) cs in
      (NSplit d' (List.map fst results), existsb id (List.map snd results))
  end.

(** [split_pane]: the node is updated in place, also when the target is
    missing. *)
Definition split_pane (n : LayoutNode) (target inserted : nat) (d : SplitDirection)
    : LayoutNode * result unit :=
  let '(n', found) := split_pane_inner n target inserted d in
  (n', if found then Ok tt else Err (invalid_state "layout tree does not contain target pane")).

(** The [while] loop over the children of a split.  [kept] are the children
    already visited and kept, so that its length is [child_index] and
    [kept ++ rest] is the vector after a removal. *)
Definition visit_children
    (remove : LayoutNode -> list Pane -> LayoutNode * list Pane * bool * bool)
    : list LayoutNode -> list LayoutNode -> list Pane -> bool -> option nat ->
      list LayoutNode * list Pane * bool * option nat :=
  fix visit todo kept panes found expansion_target :=
    match todo with
    | [] => (kept, panes, found, expansion_target)
    | c :: rest =>
        let '(c', panes, child_found, remove_child) := remove c panes in
        if remove_child
        then visit rest kept panes (found || child_found)
               (match kept ++ rest with
                | [] => expansion_target
                | _ => Some (if (0 <? length kept)%nat then (length kept - 1)%nat else 0%nat)
                end)
        else visit rest (kept ++ [c']) panes (found || child_found) expansion_target
    end.

(** [remove_pane_inner]: the updated node and panes, whether the slot was
    found, and whether the node itself must go. *)
Fixpoint remove_pane_inner (n : LayoutNode) (removed : nat) (removed_size : Size)
    (panes : list Pane) : LayoutNode * list Pane * bool * bool :=
  match n with
  | NPane i =>
      if (i =? removed)%nat then (n, panes, true, true)
      else (NPane (if (removed <? i)%nat then (i - 1)%nat else i), panes, false, false)
  | NSplit d cs =>
      let '(kept, panes, found, expansion_target) :=
        visit_children (fun c panes => remove_pane_inner c removed removed_size panes)
          cs [] panes false None in
      let panes :=
        match expansion_target with
        | Some target =>
            match kept !! (target `min` (length kept - 1))%nat with
            | Some child =>
                expand_on_axis child panes d
                  (match d with Vertical => columns removed_size | Horizontal => rows removed_size end)
            | None => panes
            end
        | None => panes
        end in
      match kept with
      | [] => (NSplit d kept, panes, found, true)
      | [only_child] => (only_child, panes, found, false)
      | _ => (NSplit d kept, panes, found, false)
      end
  end.

Definition remove_pane (n : LayoutNode) (removed : nat) (removed_size : Size) (panes : list Pane)
    : LayoutNode * list Pane * bool :=
  let '(n', panes, found, remove_self) := remove_pane_inner n removed removed_size panes in
  (if remove_self then single_pane 0 else n', panes, found).

(** ** Rectangles *)

(** The loop over the children of a split, advancing by each child's extent. *)
Definition place_children (geometries : LayoutNode -> Z -> Z -> list PaneGeometry)
    (size : LayoutNode -> Size) (d : SplitDirection)
    : list LayoutNode -> Z -> Z -> list PaneGeometry :=
  fix place cs next_column next_row :=
    match cs with
    | [] => []
    | c :: cs =>
        geometries c next_column next_row
        ++ match d with
           | Vertical => place cs (sat_add u16_MAX next_column (columns (size c))) next_row
           | Horizontal => place cs next_column (sat_add u16_MAX next_row (rows (size c)))
           end
    end.

Fixpoint collect_geometries (n : LayoutNode) (column row : Z) (panes : list Pane)
    : list PaneGeometry :=
  match n with
  | NPane i =>
      match panes !! i with
      | Some p => [mkGeometry i column row (columns (p_size p)) (rows (p_size p))]
      | None => []
      end
  | NSplit d cs =>
      place_children (fun c column row => collect_geometries c column row panes)
        (fun c => logical_size c panes) d cs column row
  end.

Definition pane_geometries (n : LayoutNode) (panes : list Pane) : list PaneGeometry :=
  sort_by_key g_index (collect_geometries n 0 0 panes).

(** ** Validation *)

Fixpoint collect_pane_indices (n : LayoutNode) (pane_count : nat) (seen : list bool)
    : result (list bool) :=
  match n with
  | NPane i =>
      match seen !! i with
      | None => Err (invalid_args "layout tree references an unknown pane index")
      | Some true => Err (invalid_args "layout tree references a pane index more than once")
      | Some false =>
          if (pane_count =? 0)%nat
          then Err (invalid_args "layout tree cannot reference panes in an empty window")
          else Ok (<[i := true]> seen)
      end
  | NSplit _ cs =>
      if (length cs <? 2)%nat
      then Err (invalid_args "layout split nodes must contain at least two children")
      else fold_outcome (fun c seen => collect_pane_indices c pane_count seen) cs seen
  end.

Definition validate_pane_indices (n : LayoutNode) (pane_count : nat) : result unit :=
  collect_pane_indices n pane_count (replicate pane_count false) ≫= fun seen =>
  if existsb negb seen
  then Err (invalid_args "layout tree must reference every pane exactly once")
  else Ok tt.
End Node.

(** ** Reconstruction of a tree from rectangles *)

Module Reconstruct.
(** [LayoutGeometryNode] is a field-by-field copy of [PaneGeometry]. *)
Abbreviation LayoutGeometryNode := PaneGeometry.

Definition node_right (g : LayoutGeometryNode) : Z := sat_add u16_MAX (g_column g) (g_columns g).
Definition node_bottom (g : LayoutGeometryNode) : Z := sat_add u16_MAX (g_row g) (g_rows g).

Record LayoutBounds := mkBounds { b_column : Z; b_row : Z; b_columns : Z; b_rows : Z }.

Definition covering (nodes : list LayoutGeometryNode) : LayoutBounds :=
  let left := min_or 0 (g_column <$> nodes) in
  let top := min_or 0 (g_row <$> nodes) in
  let right := max_or left (node_right <$> nodes) in
  let bottom := max_or top (node_bottom <$> nodes) in
  mkBounds left top (sat_sub right left) (sat_sub bottom top).

Definition bounds_right (b : LayoutBounds) : Z := sat_add u16_MAX (b_column b) (b_columns b).
Definition bounds_bottom (b : LayoutBounds) : Z := sat_add u16_MAX (b_row b) (b_rows b).

(** [LayoutPartitionDirection] has the variants of [SplitDirection]. *)
Definition partition_start (d : SplitDirection) (b : LayoutBounds) : Z :=
  match d with Vertical => b_column b | Horizontal => b_row b end.
Definition partition_end (d : SplitDirection) (b : LayoutBounds) : Z :=
  match d with Vertical => bounds_right b | Horizontal => bounds_bottom b end.

(** The near and far edge of a rectangle on the partitioned axis. *)
Definition near_edge (d : SplitDirection) (g : LayoutGeometryNode) : Z :=
  match d with Vertical => g_column g | Horizontal => g_row g end.
Definition far_edge (d : SplitDirection) (g : LayoutGeometryNode) : Z :=
  match d with Vertical => node_right g | Horizontal => node_bottom g end.

(** [Vec::dedup]. *)
Fixpoint dedup (l : list Z) : list Z :=
  match l with
  | x :: ((y :: _) as l') => if x =? y then dedup l' else x :: dedup l'
  | _ => l
  end.

Definition candidate_cuts (d : SplitDirection) (nodes : list LayoutGeometryNode)
    (b : LayoutBounds) : list Z :=
  let edges := concat (List.map (fun g => [near_edge d g; far_edge d g]) nodes) in
  dedup (sort_by_key Z.to_nat
    (List.filter (fun cut => (partition_start d b <? cut) && (cut <? partition_end d b)) edges)).

(** The inner loop of one cut: [None] when a rectangle crosses it. *)
Fixpoint divide_at (d : SplitDirection) (cut : Z) (nodes before after : list LayoutGeometryNode)
    : option (list LayoutGeometryNode * list LayoutGeometryNode) :=
  match nodes with
  | [] => Some (before, after)
  | g :: nodes =>
      if far_edge d g <=? cut then divide_at d cut nodes (before ++ [g]) after
      else if cut <=? near_edge d g then divide_at d cut nodes before (after ++ [g])
      else None
  end.

Fixpoint first_clean_cut (d : SplitDirection) (nodes : list LayoutGeometryNode) (cuts : list Z)
    : option (list LayoutGeometryNode * list LayoutGeometryNode) :=
  match cuts with
  | [] => None
  | cut :: cuts =>
      match divide_at d cut nodes [] [] with
      | Some ((_ :: _) as before, (_ :: _) as after) => Some (before, after)
      | _ => first_clean_cut d nodes cuts
      end
  end.

Definition layout_partition_at_clean_cut (nodes : list LayoutGeometryNode) (b : LayoutBounds)
    (d : SplitDirection)
    : option (list LayoutGeometryNode * list LayoutGeometryNode * LayoutBounds * LayoutBounds) :=
  match first_clean_cut d nodes (candidate_cuts d nodes b) with
  | Some (before, after) => Some (before, after, covering before, covering after)
  | None => None
  end.

(** [layout_node_from_geometries], recursive on the number of rectangles. *)
Fixpoint layout_node_from_geometries (fuel : nat) (nodes : list LayoutGeometryNode)
    (b : LayoutBounds) : option LayoutNode :=
  match fuel, nodes with
  | O, _ => None
  | S _, [g] => Some (Node.single_pane (g_index g))
  | S fuel, _ =>
      match layout_partition_at_clean_cut nodes b Vertical with
      | Some (l, r, bl, br) =>
          l' ← layout_node_from_geometries fuel l bl;
          r' ← layout_node_from_geometries fuel r br;
          Some (NSplit Vertical [l'; r'])
      | None =>
          match layout_partition_at_clean_cut nodes b Horizontal with
          | Some (t, u, bt, bu) =>
              t' ← layout_node_from_geometries fuel t bt;
              u' ← layout_node_from_geometries fuel u bu;
              Some (NSplit Horizontal [t'; u'])
          | None =>
              let d := match nodes with
                       | first :: _ =>
                           if forallb (fun g => g_rows g =? g_rows first) nodes
                           then Vertical else Horizontal
                       | [] => Horizontal
                       end in
              Some (NSplit d (List.map (fun g => Node.single_pane (g_index g)) nodes))
          end
      end
  end.

(** [LayoutNode::from_geometries]; the number of rectangles is enough fuel. *)
Definition from_geometries (geometries : list PaneGeometry) : result LayoutNode :=
  match geometries with
  | [] => Err (invalid_args "layout tree requires at least one pane geometry")
  | _ =>
      let nodes := sort_by_key g_index geometries in
      match layout_node_from_geometries (length nodes) nodes (covering nodes) with
      | Some n => Ok n
      | None => Panic
      end
  end.
End Reconstruct.

(** ** Examples *)

Example resize_example :
  let p w h := mkPane "%1" 0 "shell" TitleDefault (mkSize w h) false true in
  let tree := NSplit Vertical [NPane 0; NSplit Horizontal [NPane 1; NPane 2]] in
  p_size <$> Node.resize_panes tree [p 50 24; p 30 12; p 30 12] (mkSize 161 25)
  = [mkSize 101 25; mkSize 60 13; mkSize 60 12].
Proof. vm_compute. reflexivity. Qed.
