(* ===== verification/Tiling.v ===== *)
(** * Rectangles of a split tree

    When the pane sizes agree with the tree ([exact]), the rectangles the tree
    computes tile the window: every cell lies in exactly one pane and no pane
    reaches outside.  [resize_panes] establishes [exact] whenever every split
    receives a cell per child ([fits]), and growing a layout always fits. *)

From S2P Require Import Prelude RustStr Ids LayoutTypes Sizing LayoutTree.
Import Node.
Local Open Scope Z_scope.

(** ** Pointwise predicates on two lists, usable under recursion *)

Definition zip_all {A B} (P : A -> B -> Prop) : list A -> list B -> Prop :=
  fix go l k :=
    match l, k with
    | [], [] => True
    | x :: l, y :: k => P x y /\ go l k
    | _, _ => False
    end.

Lemma zip_all_Forall2 {A B} (P : A -> B -> Prop) l k : zip_all P l k <-> Forall2 P l k.
Proof.
  revert k. induction l as [|x l IH]; intros [|y k]; simpl; [done|..].
  - split; [done|]. intros H; inversion H.
  - split; [done|]. intros H; inversion H.
  - rewrite IH. split; [intros [? ?]; by constructor|]. intros H; by inversion H.
Qed.

(** ** Agreement of sizes and tree *)

(** [exact panes n s]: the panes below [n] fill a rectangle of size [s]. *)
Fixpoint exact (panes : list Pane) (n : LayoutNode) (s : Size) : Prop :=
  match n with
  | NPane i => exists p, panes !! i = Some p /\ p_size p = s /\ 1 <= columns s /\ 1 <= rows s
  | NSplit d cs =>
      cs <> [] /\ exists ws, sum_Z ws = axis_extent d s
                 /\ zip_all (fun c w => exact panes c (child_size d s w)) cs ws
  end.

(** [fits panes n s]: the proportional distribution of [s] gives every split
    at least one cell per child. *)
Fixpoint fits (panes : list Pane) (n : LayoutNode) (s : Size) : Prop :=
  match n with
  | NPane i => (i < length panes)%nat /\ 1 <= columns s /\ 1 <= rows s
  | NSplit d cs =>
      cs <> [] /\ Z.of_nat (length cs) <= axis_extent d s
      /\ zip_all (fun c w => fits panes c (child_size d s w)) cs
           (distribute_dimension (axis_extent d s) (List.map (fun c => allocation_on_axis c panes d) cs))
  end.

Definition size_at (panes : list Pane) (i : nat) : option Size := p_size <$> panes !! i.

Definition leaves_of (cs : list LayoutNode) : list nat := concat (List.map leaves cs).

Lemma elem_of_leaves_of i cs : i ∈ leaves_of cs <-> exists c, c ∈ cs /\ i ∈ leaves c.
Proof.
  unfold leaves_of. induction cs as [|c cs IH]; simpl.
  - split; [by intros ?%not_elem_of_nil|]. intros (? & ?%not_elem_of_nil & _). done.
  - rewrite elem_of_app, IH. setoid_rewrite elem_of_cons. naive_solver.
Qed.

Lemma exact_split panes d cs s :
  exact panes (NSplit d cs) s <->
  cs <> [] /\ exists ws, sum_Z ws = axis_extent d s
             /\ Forall2 (fun c w => exact panes c (child_size d s w)) cs ws.
Proof. simpl. by setoid_rewrite zip_all_Forall2. Qed.

Lemma axis_extent_child d s w : axis_extent d (child_size d s w) = w.
Proof. by destruct d. Qed.

Lemma exact_pos panes n : forall s, exact panes n s -> 1 <= columns s /\ 1 <= rows s.
Proof.
  induction n as [i|d cs IH] using LayoutNode_ind'; intros s.
  - intros (p & _ & <- & ?). done.
  - rewrite exact_split. intros (Hne & ws & Hsum & H2).
    assert (Forall (fun w => 1 <= w) ws /\ (1 <= columns s \/ d = Vertical)
            /\ (1 <= rows s \/ d = Horizontal)) as (Hws & Hc & Hr).
    { clear Hsum. destruct H2 as [|c w cs ws Hc H2]; [done|].
      apply Forall_cons in IH as [IHc IH]. apply IHc in Hc.
      assert (Forall (fun w => 1 <= w) ws) as Hws.
      { clear -IH H2. induction H2 as [|c w cs ws Hc H2 IH2]; [constructor|].
        apply Forall_cons in IH as [IHc IH]. apply IHc in Hc.
        constructor; [destruct d; simpl in Hc; lia|auto]. }
      split; [constructor; [destruct d; simpl in Hc; lia|done]|].
      destruct d; simpl in *; lia || (split; [by right|left; lia]) || (split; [left; lia|by right]). }
    apply sum_Z_ge_length in Hws. destruct H2; [done|].
    destruct d; simpl in *; destruct Hc, Hr; try done; lia.
Qed.

Lemma exact_children_pos panes d cs ws s :
  Forall2 (fun c w => exact panes c (child_size d s w)) cs ws -> Forall (fun w => 1 <= w) ws.
Proof.
  induction 1 as [|c w cs ws Hc H2 IH]; constructor; [|done].
  apply exact_pos in Hc. destruct d; simpl in Hc; lia.
Qed.

(** The logical size of a node that fills [s] is [s]. *)
Lemma exact_logical panes n : forall s,
  exact panes n s -> columns s <= u16_MAX -> rows s <= u16_MAX -> logical_size n panes = s.
Proof.
  induction n as [i|d cs IH] using LayoutNode_ind'; intros s.
  - intros (p & Hp & <- & _) _ _. simpl. by rewrite Hp.
  - rewrite exact_split. intros (Hne & ws & Hsum & H2) Hcm Hrm.
    pose proof (exact_children_pos _ _ _ _ _ H2) as Hpos.
    assert (sum_Z ws <= u16_MAX) as Hm by (destruct d; simpl in Hsum; lia).
    assert (List.map (fun c => logical_size c panes) cs = List.map (child_size d s) ws) as Hmap.
    { clear Hne Hsum. induction H2 as [|c w cs ws Hc H2 IH2]; [done|].
      apply Forall_cons in IH as [IHc IH]. apply Forall_cons in Hpos as [Hw Hpos].
      pose proof (sum_Z_ge_length ws Hpos). simpl in *. f_equal; [|apply IH2; try done; lia].
      apply IHc; [done|..]; destruct d; simpl; lia. }
    assert (0 <= sum_Z ws) by (pose proof (sum_Z_ge_length ws Hpos); lia).
    assert (ws <> []) as Hwne by (intros ->; by inversion H2; subst).
    simpl. rewrite Hmap, !List.map_map. destruct d, s as [sc sr]; simpl in *;
      rewrite List.map_id, wrap_small, Hsum by done; f_equal;
      (apply max_or_const; [by destruct ws|]; clear; induction ws; by constructor).
Qed.

Lemma exact_allocations panes d cs ws s :
  Forall2 (fun c w => exact panes c (child_size d s w)) cs ws ->
  columns s <= u16_MAX -> rows s <= u16_MAX -> sum_Z ws = axis_extent d s ->
  List.map (fun c => allocation_on_axis c panes d) cs = ws.
Proof.
  intros H2 Hc Hr Hsum. pose proof (exact_children_pos _ _ _ _ _ H2) as Hpos.
  assert (sum_Z ws <= u16_MAX) as Hm by (destruct d; simpl in Hsum; lia). clear Hsum.
  induction H2 as [|c w cs ws Hcw H2 IH]; [done|].
  apply Forall_cons in Hpos as [Hw Hpos]. pose proof (sum_Z_ge_length ws Hpos). simpl in *.
  f_equal; [|apply IH; [done|lia]]. unfold allocation_on_axis.
  rewrite (exact_logical _ _ _ Hcw); [by destruct d|destruct d; simpl; lia..].
Qed.

(** ** Renaming slots *)

Fixpoint rename (f : nat -> nat) (n : LayoutNode) : LayoutNode :=
  match n with NPane i => NPane (f i) | NSplit d cs => NSplit d (List.map (rename f) cs) end.

Lemma rename_id n : rename id n = n.
Proof.
  induction n as [i|d cs IH] using LayoutNode_ind'; simpl; [done|]. f_equal.
  induction IH as [|c cs Hc _ IH]; simpl; [done|]. by rewrite Hc, IH.
Qed.

Lemma leaves_rename f n : leaves (rename f n) = f <$> leaves n.
Proof.
  induction n as [i|d cs IH] using LayoutNode_ind'; simpl; [done|].
  induction IH as [|c cs Hc _ IH]; simpl; [done|]. by rewrite Hc, IH, fmap_app.
Qed.

(** [exact] depends only on the sizes of the slots the tree refers to. *)
Lemma exact_rename f panes panes' n : forall s,
  (forall i, i ∈ leaves n -> size_at panes' (f i) = size_at panes i) ->
  exact panes n s -> exact panes' (rename f n) s.
Proof.
  induction n as [i|d cs IH] using LayoutNode_ind'; intros s Hsz.
  - intros (p & Hp & <- & ?). specialize (Hsz i ltac:(simpl; set_solver)).
    unfold size_at in Hsz. rewrite Hp in Hsz. apply fmap_Some in Hsz as (p' & Hp' & Heq).
    by exists p'.
  - simpl rename. rewrite !exact_split. intros (Hne & ws & Hsum & H2).
    split; [by destruct cs|]. exists ws. split; [done|]. clear Hne Hsum.
    induction H2 as [|c w cs ws Hc H2 IH2]; simpl; [constructor|].
    apply Forall_cons in IH as [IHc IH]. constructor.
    + apply IHc; [|done]. intros i Hi. apply Hsz. simpl. set_solver.
    + apply IH2; [done|]. intros i Hi. apply Hsz. simpl in *. set_solver.
Qed.

Lemma exact_frame panes panes' n s :
  (forall i, i ∈ leaves n -> size_at panes' i = size_at panes i) ->
  exact panes n s -> exact panes' n s.
Proof. intros H He. rewrite <- (rename_id n). by eapply (exact_rename id). Qed.

Lemma logical_size_frame panes panes' n :
  (forall i, i ∈ leaves n -> size_at panes' i = size_at panes i) ->
  logical_size n panes' = logical_size n panes.
Proof.
  induction n as [i|d cs IH] using LayoutNode_ind'; intros H.
  - specialize (H i ltac:(simpl; set_solver)). unfold size_at in H. simpl.
    destruct (panes !! i), (panes' !! i); by simplify_eq/=.
  - simpl. assert (List.map (fun c => logical_size c panes') cs
                   = List.map (fun c => logical_size c panes) cs) as ->; [|done].
    induction IH as [|c cs Hc _ IH]; simpl; [done|]. f_equal.
    + apply Hc. intros i Hi. apply H. simpl. set_solver.
    + apply IH. intros i Hi. apply H. simpl in *. set_solver.
Qed.

(** With all other sizes fixed, the size of one slot is determined by the
    rectangle to fill. *)
Lemma exact_slot_determined panes panes' i n : forall s,
  columns s <= u16_MAX -> rows s <= u16_MAX -> NoDup (leaves n) -> i ∈ leaves n ->
  (forall j, j <> i -> size_at panes' j = size_at panes j) ->
  exact panes n s -> exact panes' n s -> size_at panes' i = size_at panes i.
Proof.
  induction n as [j|d cs IH] using LayoutNode_ind'; intros s Hc Hr Hnd Hi Hsz.
  - simpl in Hi. apply list_elem_of_singleton in Hi as ->. unfold size_at.
    intros (p & Hp & Es & _) (p' & Hp' & Es' & _). rewrite Hp, Hp'. simpl. congruence.
  - change (leaves (NSplit d cs)) with (leaves_of cs) in Hnd, Hi.
    rewrite !exact_split. intros (_ & ws & Hsum & H2) (_ & ws' & Hsum' & H2').
    pose proof (exact_allocations _ _ _ _ _ H2 Hc Hr Hsum) as Ha.
    pose proof (exact_allocations _ _ _ _ _ H2' Hc Hr Hsum') as Ha'.
    apply elem_of_leaves_of in Hi as (c & Hcs & Hi). apply list_elem_of_split in Hcs as (l & r & ->).
    unfold leaves_of in Hnd. rewrite List.map_app, concat_app in Hnd. simpl in Hnd.
    apply NoDup_app in Hnd as (_ & Hl & Hnd). apply NoDup_app in Hnd as (Hndc & Hrr & _).
    assert (forall m, m ∈ l ++ r ->
              allocation_on_axis m panes' d = allocation_on_axis m panes d) as Hsame.
    { intros m Hm. unfold allocation_on_axis. rewrite (logical_size_frame panes panes' m); [done|].
      intros j Hj. apply Hsz. intros ->. apply elem_of_app in Hm as [Hm|Hm].
      - apply (Hl i); [|set_solver]. apply (elem_of_leaves_of i l). eauto.
      - apply (Hrr i Hi). apply (elem_of_leaves_of i r). eauto. }
    subst ws ws'. rewrite !List.map_app, !sum_Z_app in Hsum, Hsum'. simpl in Hsum, Hsum'.
    assert (forall m, (forall x, x ∈ m -> x ∈ l ++ r) ->
      List.map (fun c => allocation_on_axis c panes' d) m
      = List.map (fun c => allocation_on_axis c panes d) m) as Hmap.
    { intros m Hm. apply List.map_ext_in. intros x Hx%list_elem_of_In. by apply Hsame, Hm. }
    rewrite (Hmap l), (Hmap r) in Hsum' by set_solver.
    assert (allocation_on_axis c panes' d = allocation_on_axis c panes d) as Hw by lia.
    pose proof (exact_children_pos _ _ _ _ _ H2) as Hpos.
    rewrite List.map_app in H2, H2', Hpos. simpl in H2, H2', Hpos.
    apply Forall_app in Hpos as [Hp1%sum_Z_ge_length [_ Hp2%sum_Z_ge_length]%Forall_cons].
    apply Forall2_app_inv in H2 as [_ H2]; [|by rewrite List.length_map].
    apply Forall2_app_inv in H2' as [_ H2']; [|by rewrite List.length_map].
    apply Forall2_cons in H2 as [He _]. apply Forall2_cons in H2' as [He' _]. rewrite Hw in He'.
    apply Forall_app in IH as [_ IH]. apply Forall_cons in IH as [IHc _].
    assert (allocation_on_axis c panes d <= axis_extent d s) as Hle by lia.
    apply (IHc (child_size d s (allocation_on_axis c panes d))); try done; destruct d; simpl in *; lia.
Qed.

Lemma allocations_frame panes panes' d cs :
  (forall i, i ∈ leaves_of cs -> size_at panes' i = size_at panes i) ->
  List.map (fun c => allocation_on_axis c panes' d) cs
  = List.map (fun c => allocation_on_axis c panes d) cs.
Proof.
  intros H. induction cs as [|c cs IH]; simpl; [done|]. f_equal.
  - unfold allocation_on_axis. rewrite (logical_size_frame panes panes'); [done|].
    intros i Hi. apply H, elem_of_leaves_of. exists c. set_solver.
  - apply IH. intros i (c' & ? & ?)%elem_of_leaves_of. apply H, elem_of_leaves_of.
    exists c'. set_solver.
Qed.

Lemma fits_frame panes panes' n : forall s,
  (forall i, i ∈ leaves n -> size_at panes' i = size_at panes i) ->
  length panes' = length panes -> fits panes n s -> fits panes' n s.
Proof.
  induction n as [i|d cs IH] using LayoutNode_ind'; intros s H Hlen; simpl.
  - by rewrite Hlen.
  - intros (Hne & Hle & Hz). split; [done|]. split; [done|].
    rewrite (allocations_frame panes panes') by (intros; by apply H).
    rewrite zip_all_Forall2 in Hz |- *.
    clear Hne Hle. revert Hz. generalize (distribute_dimension (axis_extent d s)
      (List.map (fun c => allocation_on_axis c panes d) cs)) as ws.
    intros ws Hz. induction Hz as [|c w cs ws Hc Hz IHz]; constructor.
    + apply Forall_cons in IH as [IHc _]. apply IHc; [|done..].
      intros i Hi. apply H. simpl. set_solver.
    + apply Forall_cons in IH as [_ IH]. apply IHz; [done|].
      intros i Hi. apply H. simpl in *. set_solver.
Qed.

(** ** Resizing *)

(** What [resize_panes] may change: the sizes of the slots of the tree. *)
Definition same_but_sizes (slots : list nat) (panes panes' : list Pane) : Prop :=
  length panes' = length panes
  /\ (forall i, i ∉ slots -> panes' !! i = panes !! i)
  /\ (forall i p, panes !! i = Some p -> exists s, panes' !! i = Some (pane_set_size s p)).

Lemma pane_set_size_id p : pane_set_size (p_size p) p = p.
Proof. by destruct p. Qed.

Lemma same_but_sizes_refl slots panes : same_but_sizes slots panes panes.
Proof.
  split; [done|]. split; [done|]. intros i p Hp. exists (p_size p). by rewrite pane_set_size_id.
Qed.

Lemma same_but_sizes_trans slots1 slots2 slots panes1 panes2 panes3 :
  (forall i, i ∈ slots1 -> i ∈ slots) -> (forall i, i ∈ slots2 -> i ∈ slots) ->
  same_but_sizes slots1 panes1 panes2 -> same_but_sizes slots2 panes2 panes3 ->
  same_but_sizes slots panes1 panes3.
Proof.
  intros H1 H2 (Hl1 & Hf1 & Hs1) (Hl2 & Hf2 & Hs2). split; [congruence|]. split.
  - intros i Hi. rewrite Hf2, Hf1; naive_solver.
  - intros i p Hp. destruct (Hs1 i p Hp) as [s Hp']. destruct (Hs2 i _ Hp') as [s' ->].
    by exists s'.
Qed.

Lemma resize_panes_same n : forall panes s, same_but_sizes (leaves n) panes (resize_panes n panes s).
Proof.
  induction n as [i|d cs IH] using LayoutNode_ind'; intros panes s; simpl.
  - split; [by rewrite length_alter|]. split.
    + intros j Hj. rewrite list_lookup_alter_ne; [done|]. set_solver.
    + intros j p Hp. rewrite list_lookup_alter. case_decide as Hij; subst.
      * rewrite Hp. by exists s.
      * exists (p_size p). by rewrite pane_set_size_id.
  - generalize (match d with
      | Vertical => distribute_dimension (columns s)
          (List.map (fun c => allocation_on_axis c panes d) cs)
      | Horizontal => distribute_dimension (rows s)
          (List.map (fun c => allocation_on_axis c panes d) cs) end).
    revert panes. induction IH as [|c cs Hc _ IH]; intros panes ws; simpl.
    { destruct ws; apply same_but_sizes_refl. }
    destruct ws as [|w ws]; [apply same_but_sizes_refl|].
    eapply (same_but_sizes_trans (leaves c) (concat (List.map leaves cs))); [| |apply Hc|apply IH];
      set_solver.
Qed.

Lemma size_at_frame slots panes panes' i :
  same_but_sizes slots panes panes' -> i ∉ slots -> size_at panes' i = size_at panes i.
Proof. intros (_ & Hf & _) Hi. unfold size_at. by rewrite Hf. Qed.

Lemma resize_split_eq d cs panes s :
  resize_panes (NSplit d cs) panes s
  = fold_zip (fun c w ps => resize_panes c ps (child_size d s w)) cs
      (distribute_dimension (axis_extent d s) (List.map (fun c => allocation_on_axis c panes d) cs))
      panes.
Proof. by destruct d. Qed.

Definition resize_children (d : SplitDirection) (s : Size) : list LayoutNode -> list Z -> list Pane -> list Pane :=
  fold_zip (fun c w ps => resize_panes c ps (child_size d s w)).

Lemma resize_children_same d s cs : forall ws panes,
  same_but_sizes (leaves_of cs) panes (resize_children d s cs ws panes).
Proof.
  induction cs as [|c cs IH]; intros [|w ws] panes; simpl; try apply same_but_sizes_refl.
  eapply same_but_sizes_trans; [| |apply resize_panes_same|apply IH]; unfold leaves_of; set_solver.
Qed.

(** The sizes of all panes are [u16] sizes. *)
Definition panes_u16 (panes : list Pane) : Prop := Forall (fun p => u16_size (p_size p)) panes.

Lemma max_or_u16 d l : in_u16 d -> Forall in_u16 l -> in_u16 (max_or d l).
Proof.
  intros Hd [|x l' Hx Hl]; [done|]. simpl. revert x Hx.
  induction Hl as [|y l' Hy Hl IH]; intros x Hx; simpl; [done|]. apply IH. solve_int.
Qed.

Lemma logical_size_u16 panes n : panes_u16 panes -> u16_size (logical_size n panes).
Proof.
  intros Hp. induction n as [i|d cs IH] using LayoutNode_ind'; simpl.
  - destruct (panes !! i) eqn:E; [exact (Forall_lookup_1 _ _ _ _ Hp E)|]. split; simpl; solve_int.
  - assert (forall f : Size -> Z, (forall s, u16_size s -> in_u16 (f s)) ->
      in_u16 (max_or 0 (List.map f (List.map (fun c => logical_size c panes) cs)))) as Hmax.
    { intros f Hf. apply max_or_u16; [solve_int|]. rewrite List.map_map. apply Forall_map.
      eapply Forall_impl; [exact IH|]. intros c Hc. by apply Hf. }
    destruct d; split; simpl; try (by apply wrap_range); apply Hmax; by intros s [??].
Qed.

Lemma allocations_u16 panes d cs :
  panes_u16 panes -> Forall in_u16 (List.map (fun c => allocation_on_axis c panes d) cs).
Proof.
  intros Hp. apply Forall_map, Forall_forall. intros c _. unfold allocation_on_axis.
  destruct (logical_size_u16 panes c Hp). by destruct d.
Qed.

Lemma axis_extent_u16 d s : u16_size s -> in_u16 (axis_extent d s).
Proof. intros [??]. by destruct d. Qed.

Lemma child_size_u16 d s w : u16_size s -> in_u16 w -> u16_size (child_size d s w).
Proof. intros [??] ?. by destruct d. Qed.

Lemma resize_panes_u16 n : forall panes s,
  panes_u16 panes -> u16_size s -> panes_u16 (resize_panes n panes s).
Proof.
  induction n as [i|d cs IH] using LayoutNode_ind'; intros panes s Hp Hs.
  - apply Forall_alter; [done|]. done.
  - rewrite resize_split_eq.
    pose proof (distribute_dimension_range (axis_extent d s)
      (List.map (fun c => allocation_on_axis c panes d) cs) (axis_extent_u16 _ _ Hs)) as Hws.
    revert Hws. generalize (distribute_dimension (axis_extent d s)
      (List.map (fun c => allocation_on_axis c panes d) cs)) as ws.
    intros ws Hws. revert ws Hws panes Hp. induction IH as [|c cs Hc _ IH]; intros [|w ws] Hws panes Hp; simpl; try done.
    apply Forall_cons in Hws as [Hw Hws]. apply IH; [done|]. apply Hc; [done|].
    by apply child_size_u16.
Qed.

(** The allocations of a split that has a cell per child. *)
Lemma split_allocations panes d cs s :
  panes_u16 panes -> u16_size s -> cs <> [] -> Z.of_nat (length cs) <= axis_extent d s ->
  let ws := distribute_dimension (axis_extent d s)
              (List.map (fun c => allocation_on_axis c panes d) cs) in
  Forall (fun w => 1 <= w) ws /\ sum_Z ws = axis_extent d s.
Proof.
  intros Hp Hs Hne Hle ws. pose proof (axis_extent_u16 d s Hs) as Hax.
  apply distribute_dimension_exact; rewrite ?List.length_map; try done.
  - by apply allocations_u16.
  - solve_int.
  - by destruct cs.
Qed.

Lemma resize_children_exact d s cs : forall ws panes,
  Forall (fun c => forall panes s, NoDup (leaves c) -> u16_size s -> panes_u16 panes ->
                   fits panes c s -> exact (resize_panes c panes s) c s) cs ->
  NoDup (leaves_of cs) -> u16_size s -> panes_u16 panes -> Forall in_u16 ws ->
  Forall2 (fun c w => fits panes c (child_size d s w)) cs ws ->
  Forall2 (fun c w => exact (resize_children d s cs ws panes) c (child_size d s w)) cs ws.
Proof.
  induction cs as [|c cs IH]; intros ws panes Hall Hnd Hs Hp Hws Hz; inversion Hz as [|? w ? ws' Hc Hz']; subst;
    [constructor|].
  apply Forall_cons in Hall as [Hcx Hall]. apply Forall_cons in Hws as [Hw Hws].
  apply NoDup_app in Hnd as (Hndc & Hdisj & Hnd).
  pose proof (resize_panes_same c panes (child_size d s w)) as Hsame.
  pose proof (child_size_u16 d s w Hs Hw) as Hcs. simpl. constructor.
  - eapply exact_frame; [|by apply Hcx]. intros i Hi.
    eapply size_at_frame; [apply resize_children_same|]. by apply Hdisj.
  - apply IH; try done; [by apply resize_panes_u16|].
    assert (forall c', c' ∈ cs -> forall w', fits panes c' (child_size d s w') ->
              fits (resize_panes c panes (child_size d s w)) c' (child_size d s w')) as Hf.
    { intros c' Hc' w' Hf. eapply fits_frame; [|apply Hsame|exact Hf].
      intros i Hi. eapply size_at_frame; [exact Hsame|]. intros Hic.
      apply (Hdisj i Hic). apply elem_of_leaves_of. by exists c'. }
    clear -Hz' Hf. induction Hz'; constructor; [apply Hf; [set_solver|done]|].
    apply IHHz'. intros. apply Hf; [set_solver|done].
Qed.

(** Resizing a layout that fits gives a layout that fills the new size. *)
Lemma resize_exact n : forall panes s,
  NoDup (leaves n) -> u16_size s -> panes_u16 panes ->
  fits panes n s -> exact (resize_panes n panes s) n s.
Proof.
  induction n as [i|d cs IH] using LayoutNode_ind'; intros panes s Hnd Hs Hp.
  - intros (Hi & Hc & Hr). simpl. destruct (lookup_lt_is_Some_2 panes i Hi) as [p Hpi].
    exists (pane_set_size s p). rewrite list_lookup_alter_eq, Hpi. done.
  - intros (Hne & Hle & Hz). rewrite zip_all_Forall2 in Hz. apply exact_split. rewrite resize_split_eq.
    destruct (split_allocations panes d cs s Hp Hs Hne Hle) as [_ Hsum].
    split; [done|]. eexists. split; [exact Hsum|]. apply resize_children_exact; try done.
    by apply distribute_dimension_range, axis_extent_u16.
Qed.

(** A layout that fills a size fits every larger size. *)
Lemma exact_fits panes n : forall s0 s,
  exact panes n s0 -> panes_u16 panes ->
  columns s0 <= columns s <= u16_MAX -> rows s0 <= rows s <= u16_MAX -> fits panes n s.
Proof.
  induction n as [i|d cs IH] using LayoutNode_ind'; intros s0 s He Hp Hc Hr.
  - destruct He as (p & Hpi & <- & ? & ?). split; [by eapply lookup_lt_Some|lia].
  - pose proof (exact_pos _ _ _ He) as [Hc0 Hr0].
    apply exact_split in He as (Hne & ws & Hsum & H2).
    pose proof (exact_children_pos _ _ _ _ _ H2) as Hpos.
    assert (length cs = length ws) as Hl by (by eapply Forall2_length).
    pose proof (sum_Z_ge_length ws Hpos) as Hge.
    assert (axis_extent d s0 <= axis_extent d s <= u16_MAX) as Hax by (destruct d; simpl; lia).
    assert (List.map (fun c => allocation_on_axis c panes d) cs = ws) as Hal
      by (eapply exact_allocations; [done|lia..|done]).
    simpl. split; [done|]. split; [lia|]. rewrite zip_all_Forall2, Hal.
    assert (Forall2 Z.le ws (distribute_dimension (axis_extent d s) ws)) as Hgrow.
    { apply distribute_dimension_grows; try done.
      - solve_int.
      - rewrite <- Hal. by apply allocations_u16.
      - solve_int.
      - by intros ->; inversion H2; subst.
      - lia. }
    assert (Forall in_u16 (distribute_dimension (axis_extent d s) ws)) as Hr16
      by (apply distribute_dimension_range; solve_int).
    revert Hgrow Hr16. generalize (distribute_dimension (axis_extent d s) ws) as vs.
    clear Hsum Hge Hal Hne Hl. induction H2 as [|c w cs ws Hcw H2 IH2]; intros vs Hgrow Hr16;
      inversion Hgrow as [|? v ? vs' Hwv Hgrow']; subst; constructor.
    + apply Forall_cons in IH as [IHc _]. apply Forall_cons in Hr16 as [Hv _].
      apply (IHc (child_size d s0 w)); try done; destruct d; simpl; solve_int.
    + apply Forall_cons in IH as [_ IH]. apply Forall_cons in Hr16 as [_ Hr16].
      apply Forall_cons in Hpos as [_ Hpos]. by apply IH2.
Qed.

(** Growing a layout that fills its rectangle makes it fill the larger one. *)
Lemma grow_exact panes n s0 s :
  NoDup (leaves n) -> panes_u16 panes -> exact panes n s0 ->
  columns s0 <= columns s <= u16_MAX -> rows s0 <= rows s <= u16_MAX ->
  exact (resize_panes n panes s) n s.
Proof.
  intros Hnd Hp He Hc Hr. pose proof (exact_pos _ _ _ He).
  apply resize_exact; try done; [split; solve_int|]. by eapply exact_fits.
Qed.

(** ** Tiling *)

(** Whether a rectangle contains the cell in column [x] and row [y]. *)
Definition covers (x y : Z) (g : PaneGeometry) : bool :=
  (g_column g <=? x) && (x <? g_column g + g_columns g)
  && (g_row g <=? y) && (y <? g_row g + g_rows g).

(** How many rectangles of a list contain a cell. *)
Definition cover_count (x y : Z) (gs : list PaneGeometry) : nat :=
  length (List.filter (covers x y) gs).

Definition in_rect (column row : Z) (s : Size) (x y : Z) : bool :=
  (column <=? x) && (x <? column + columns s) && (row <=? y) && (y <? row + rows s).

(** The rectangles partition a rectangle of cells: each cell inside lies in
    exactly one of them, and no cell outside lies in any. *)
Definition tiles (gs : list PaneGeometry) (column row : Z) (s : Size) : Prop :=
  forall x y, cover_count x y gs = if in_rect column row s x y then 1%nat else 0%nat.

Lemma cover_count_app x y gs hs : cover_count x y (gs ++ hs) = (cover_count x y gs + cover_count x y hs)%nat.
Proof. unfold cover_count. by rewrite List.filter_app, length_app. Qed.

Lemma cover_count_perm x y gs hs : gs ≡ₚ hs -> cover_count x y gs = cover_count x y hs.
Proof.
  intros H. unfold cover_count.
  induction H; simpl; [done|destruct (covers x y _); simpl; lia| |lia].
  destruct (covers x y x0), (covers x y y0); simpl; lia.
Qed.

#[global] Instance tiles_perm : Proper ((≡ₚ) ==> eq ==> eq ==> eq ==> iff) tiles.
Proof.
  intros gs hs H ? c -> ? r -> ? s ->. unfold tiles.
  split; intros Ht x y; rewrite <- Ht; [symmetry|]; by apply cover_count_perm.
Qed.

Ltac split_rect :=
  unfold in_rect, covers; simpl;
  repeat match goal with
  | |- context [(?a <=? ?b)] => destruct (Z.leb_spec a b)
  | |- context [(?a <? ?b)] => destruct (Z.ltb_spec a b)
  end; simpl; try lia.

Lemma place_children_tiles panes d cs : forall ws column row s,
  Forall (fun c => forall column row s, exact panes c s -> 0 <= column -> 0 <= row ->
            column + columns s <= u16_MAX -> row + rows s <= u16_MAX ->
            tiles (collect_geometries c column row panes) column row s) cs ->
  Forall2 (fun c w => exact panes c (child_size d s w)) cs ws ->
  sum_Z ws = axis_extent d s -> 0 <= column -> 0 <= row ->
  column + columns s <= u16_MAX -> row + rows s <= u16_MAX ->
  1 <= columns s \/ d = Vertical -> 1 <= rows s \/ d = Horizontal ->
  tiles (place_children (fun c column row => collect_geometries c column row panes)
           (fun c => logical_size c panes) d cs column row) column row s.
Proof.
  induction cs as [|c cs IH]; intros ws column row s Hall H2 Hsum Hc0 Hr0 Hc Hr Hd1 Hd2.
  - inversion H2; subst. intros x y. unfold cover_count. simpl in *. destruct d; simpl in *; split_rect.
  - inversion H2 as [|? w ? ws' Hcw H2']; subst. apply Forall_cons in Hall as [Hcx Hall].
    pose proof (exact_children_pos _ _ _ _ _ H2) as Hpos. apply Forall_cons in Hpos as [Hw Hpos].
    pose proof (sum_Z_ge_length ws' Hpos) as Hge. simpl in Hsum.
    assert (logical_size c panes = child_size d s w) as Hls.
    { apply exact_logical; [done|..]; destruct d; simpl in *; lia. }
    intros x y. simpl. rewrite Hls.
    destruct d; simpl in *; rewrite cover_count_app.
    + rewrite (Hcx column row _ Hcw) by (simpl; lia).
      replace (sat_add u16_MAX column w) with (column + w) by solve_int.
      rewrite (IH ws' (column + w) row (mkSize (columns s - w) (rows s)));
        simpl; try done; try lia; [|by right]. split_rect.
    + rewrite (Hcx column row _ Hcw) by (simpl; lia).
      replace (sat_add u16_MAX row w) with (row + w) by solve_int.
      rewrite (IH ws' column (row + w) (mkSize (columns s) (rows s - w)));
        simpl; try done; try lia; [|by right]. split_rect.
Qed.

(** The rectangles of a node that fills [s] tile the rectangle [s] placed at
    the node's position. *)
Lemma exact_tiles panes n : forall column row s,
  exact panes n s -> 0 <= column -> 0 <= row ->
  column + columns s <= u16_MAX -> row + rows s <= u16_MAX ->
  tiles (collect_geometries n column row panes) column row s.
Proof.
  induction n as [i|d cs IH] using LayoutNode_ind'; intros column row s He Hc0 Hr0 Hc Hr.
  - destruct He as (p & Hp & <- & ? & ?). simpl. rewrite Hp. intros x y.
    unfold cover_count. simpl. split_rect.
  - pose proof (exact_pos _ _ _ He) as [? ?].
    apply exact_split in He as (Hne & ws & Hsum & H2). simpl.
    eapply place_children_tiles; try done; by left.
Qed.

Lemma pane_geometries_tile panes n s :
  exact panes n s -> columns s <= u16_MAX -> rows s <= u16_MAX ->
  tiles (pane_geometries n panes) 0 0 s.
Proof.
  intros He Hc Hr. unfold pane_geometries. rewrite sort_by_key_perm. by apply exact_tiles.
Qed.

(** ** Which panes get a rectangle *)

Lemma place_children_indices panes d cs : forall column row,
  Forall (fun c => forall column row, Forall (fun i => (i < length panes)%nat) (leaves c) ->
            g_index <$> collect_geometries c column row panes = leaves c) cs ->
  Forall (fun i => (i < length panes)%nat) (leaves_of cs) ->
  g_index <$> place_children (fun c column row => collect_geometries c column row panes)
     (fun c => logical_size c panes) d cs column row = leaves_of cs.
Proof.
  induction cs as [|c cs IH]; intros column row Hall Hin; [done|].
  apply Forall_cons in Hall as [Hc Hall]. unfold leaves_of in *. simpl in *.
  apply Forall_app in Hin as [Hinc Hin].
  rewrite fmap_app, Hc by done. f_equal. by destruct d; apply IH.
Qed.

Lemma collect_geometries_indices panes n : forall column row,
  Forall (fun i => (i < length panes)%nat) (leaves n) ->
  g_index <$> collect_geometries n column row panes = leaves n.
Proof.
  induction n as [i|d cs IH] using LayoutNode_ind'; intros column row Hin; simpl.
  - assert (i < length panes)%nat by (by apply Forall_cons in Hin as [? _]). destruct (lookup_lt_is_Some_2 panes i ltac:(done)) as [p ->]. done.
  - by apply place_children_indices.
Qed.

(** Rectangles depend only on the sizes of the slots. *)
Lemma collect_geometries_frame panes panes' n : forall column row,
  (forall i, i ∈ leaves n -> size_at panes' i = size_at panes i) ->
  collect_geometries n column row panes' = collect_geometries n column row panes.
Proof.
  induction n as [i|d cs IH] using LayoutNode_ind'; intros column row H; simpl.
  - specialize (H i ltac:(simpl; set_solver)). unfold size_at in H.
    destruct (panes !! i), (panes' !! i); simplify_eq/=; congruence.
  - revert column row. induction IH as [|c cs Hc _ IH]; intros column row; simpl; [done|].
    rewrite (logical_size_frame panes panes') by (intros; apply H; simpl; set_solver).
    rewrite Hc by (intros; apply H; simpl; set_solver). f_equal.
    destruct d; apply IH; intros; apply H; simpl in *; set_solver.
Qed.

Lemma pane_geometries_frame panes panes' n :
  (forall i, i ∈ leaves n -> size_at panes' i = size_at panes i) ->
  pane_geometries n panes' = pane_geometries n panes.
Proof. intros H. unfold pane_geometries. by rewrite (collect_geometries_frame panes panes'). Qed.

(** ** The rectangle of a pane has the pane's size *)

Lemma place_children_elem geometries size d cs g : forall column row,
  g ∈ place_children geometries size d cs column row ->
  exists c column row, c ∈ cs /\ g ∈ geometries c column row.
Proof.
  induction cs as [|c cs IH]; intros column row Hg; simpl in Hg; [set_solver|].
  apply elem_of_app in Hg as [Hg|Hg]; [exists c, column, row; set_solver|].
  destruct d; destruct (IH _ _ Hg) as (c' & x & y & Hc & Hin); exists c', x, y; set_solver.
Qed.

Lemma collect_geometries_size panes n g : forall column row,
  g ∈ collect_geometries n column row panes ->
  g_index g ∈ leaves n
  /\ exists p, panes !! g_index g = Some p /\ p_size p = mkSize (g_columns g) (g_rows g).
Proof.
  induction n as [i|d cs IH] using LayoutNode_ind'; intros column row Hg.
  - simpl in Hg. destruct (panes !! i) as [p|] eqn:Hp; [|set_solver].
    apply list_elem_of_singleton in Hg as ->. split; [simpl; set_solver|].
    exists p. simpl. split; [done|]. by destruct (p_size p).
  - simpl in Hg. apply place_children_elem in Hg as (c & x & y & Hc & Hg).
    rewrite Forall_forall in IH. destruct (IH c Hc x y Hg) as [Hl Hp]. split; [|done].
    apply elem_of_leaves_of. eauto.
Qed.

Lemma exact_leaf_pos panes n i p : forall s,
  exact panes n s -> i ∈ leaves n -> panes !! i = Some p -> 1 <= columns (p_size p) /\ 1 <= rows (p_size p).
Proof.
  induction n as [j|d cs IH] using LayoutNode_ind'; intros s He Hi Hp.
  - simpl in Hi. apply list_elem_of_singleton in Hi as ->. destruct He as (q & Hq & <- & Hpos).
    congruence.
  - apply exact_split in He as (_ & ws & _ & H2). apply elem_of_leaves_of in Hi as (c & Hc & Hi).
    apply list_elem_of_lookup in Hc as [k Hk].
    destruct (Forall2_lookup_l _ _ _ _ _ H2 Hk) as (x & _ & Hex).
    eapply (Forall_lookup_1 _ _ _ _ IH Hk); [exact Hex|done|done].
Qed.

Lemma pane_geometries_nonempty panes n s g :
  exact panes n s -> g ∈ pane_geometries n panes -> 1 <= g_columns g /\ 1 <= g_rows g.
Proof.
  intros He Hg. unfold pane_geometries in Hg. rewrite (sort_by_key_perm _ _) in Hg.
  destruct (collect_geometries_size _ _ _ _ _ Hg) as (Hl & p & Hp & Hs).
  pose proof (exact_leaf_pos _ _ _ _ _ He Hl Hp) as H. rewrite Hs in H. done.
Qed.
