(* ===== verification/TreeEdits.v ===== *)
(** * Edits of the split tree

    Splitting a slot and removing a slot keep the tree a tree of exactly the
    slots of the window, with at least two children per split, and keep the
    layout filling its rectangle.  The validation of restored trees accepts
    exactly such trees. *)

From S2P Require Import Prelude RustStr Ids LayoutTypes Sizing LayoutTree Tiling.
Import Node.
Local Open Scope Z_scope.

(** Every split has at least two children. *)
Fixpoint arity_ok (n : LayoutNode) : bool :=
  match n with
  | NPane _ => true
  | NSplit _ cs => (2 <=? length cs)%nat && forallb arity_ok cs
  end.

(** A tree over the slots [0 .. m-1]: each slot once, splits of two or more. *)
Definition tree_ok (n : LayoutNode) (m : nat) : Prop :=
  leaves n ≡ₚ seq 0 m /\ arity_ok n = true.

Lemma arity_ok_split d cs :
  arity_ok (NSplit d cs) = true <-> (2 <= length cs)%nat /\ Forall (fun c => arity_ok c = true) cs.
Proof. cbn [arity_ok]. by rewrite andb_true_iff, Nat.leb_le, forallb_forall, <- List.Forall_forall. Qed.

Lemma leaves_nonempty n : arity_ok n = true -> leaves n <> [].
Proof.
  induction n as [i|d cs IH] using LayoutNode_ind'; [done|].
  rewrite arity_ok_split. intros [Hl Ha]. destruct IH as [|c cs Hc _]; simpl in *; [lia|].
  apply Forall_cons in Ha as [Hac _]. specialize (Hc Hac). by destruct (leaves c).
Qed.

Lemma tree_ok_NoDup n m : tree_ok n m -> NoDup (leaves n).
Proof. intros [-> _]. apply NoDup_seq. Qed.

Lemma tree_ok_elem n m i : tree_ok n m -> i ∈ leaves n <-> (i < m)%nat.
Proof. intros [-> _]. rewrite elem_of_seq. lia. Qed.

Lemma tree_ok_pos n m : tree_ok n m -> (0 < m)%nat.
Proof.
  intros [Hp Ha]. apply leaves_nonempty in Ha. destruct m; [|lia].
  simpl in Hp. by apply Permutation_nil_r in Hp.
Qed.

(** ** Flat trees *)

Lemma leaves_singles l : concat (List.map leaves (List.map single_pane l)) = l.
Proof. induction l; simpl; [done|]. by f_equal. Qed.

Lemma flat_tree_ok d m : (0 < m)%nat -> tree_ok (flat d m) m.
Proof.
  intros Hm. unfold flat. destruct (m <=? 1)%nat eqn:E; bool_to_prop.
  - assert (m = 1)%nat as -> by lia. by split.
  - split.
    + cbn [leaves]. change (single_pane <$> seq 0 m) with (List.map single_pane (seq 0 m)).
      by rewrite leaves_singles.
    + apply arity_ok_split. rewrite length_fmap, length_seq. split; [lia|].
      apply Forall_fmap, Forall_forall. done.
Qed.

(** ** Validation *)

(** Marking the leaves one by one, the effect of [collect_pane_indices]. *)
Definition mark (pane_count i : nat) (seen : list bool) : result (list bool) :=
  collect_pane_indices (NPane i) pane_count seen.

Lemma fold_outcome_app {E A S} (f : A -> S -> outcome E S) l k s :
  fold_outcome f (l ++ k) s = fold_outcome f l s ≫= fold_outcome f k.
Proof. revert s. induction l as [|x l IH]; intros s; simpl; [done|]. destruct (f x s); simpl; auto. Qed.

Lemma collect_children_Ok m cs :
  Forall (fun c => forall seen seen', collect_pane_indices c m seen = Ok seen' <->
            arity_ok c = true /\ fold_outcome (mark m) (leaves c) seen = Ok seen') cs ->
  forall seen seen',
  fold_outcome (fun c seen => collect_pane_indices c m seen) cs seen = Ok seen' <->
  Forall (fun c => arity_ok c = true) cs /\ fold_outcome (mark m) (leaves_of cs) seen = Ok seen'.
Proof.
  induction 1 as [|c cs Hc _ IH]; intros seen seen'; [by split; [|intros [_ ?]]|].
  unfold leaves_of in *. cbn [List.map concat]. rewrite fold_outcome_app, Forall_cons. simpl.
  specialize (Hc seen). destruct (collect_pane_indices c m seen) as [s| |].
  - destruct (proj1 (Hc s) eq_refl) as [Ha Hf]. rewrite Hf. simpl. rewrite IH. tauto.
  - split; [done|]. intros [[Ha _] H]. apply bind_Ok_inv in H as (s & Hs & _).
    discriminate (proj2 (Hc s) (conj Ha Hs)).
  - split; [done|]. intros [[Ha _] H]. apply bind_Ok_inv in H as (s & Hs & _).
    discriminate (proj2 (Hc s) (conj Ha Hs)).
Qed.

Lemma collect_pane_indices_Ok n m : forall seen seen',
  collect_pane_indices n m seen = Ok seen' <->
  arity_ok n = true /\ fold_outcome (mark m) (leaves n) seen = Ok seen'.
Proof.
  induction n as [i|d cs IH] using LayoutNode_ind'; intros seen seen'.
  - assert (fold_outcome (mark m) (leaves (NPane i)) seen = mark m i seen) as ->
      by (simpl; by destruct (mark m i seen)).
    unfold mark. cbn [arity_ok]. tauto.
  - rewrite arity_ok_split. cbn [collect_pane_indices].
    destruct (length cs <? 2)%nat eqn:E; bool_to_prop; [split; [done|lia]|].
    rewrite collect_children_Ok by done. unfold leaves_of. cbn [leaves]. naive_solver lia.
Qed.

Lemma mark_Ok m i seen seen' :
  mark m i seen = Ok seen' <-> seen !! i = Some false /\ m <> 0%nat /\ seen' = <[i := true]> seen.
Proof.
  unfold mark. simpl. destruct (seen !! i) as [[]|]; [naive_solver| |naive_solver].
  destruct (m =? 0)%nat eqn:E; bool_to_prop; naive_solver.
Qed.

Lemma fold_mark_Ok m l : forall seen seen',
  m <> 0%nat ->
  fold_outcome (mark m) l seen = Ok seen' <->
  NoDup l /\ Forall (fun i => seen !! i = Some false) l
  /\ seen' = foldl (fun s i => <[i := true]> s) seen l.
Proof.
  induction l as [|i l IH]; intros seen seen' Hm; simpl; [naive_solver constructor|].
  rewrite NoDup_cons, Forall_cons.
  destruct (mark m i seen) as [s| |] eqn:E.
  - apply mark_Ok in E as (Hi & _ & ->). rewrite IH by done.
    assert (Forall (fun j => <[i:=true]> seen !! j = Some false) l
            <-> i ∉ l /\ Forall (fun j => seen !! j = Some false) l) as Hiff.
    { pose proof (lookup_lt_Some _ _ _ Hi). rewrite !Forall_forall. split.
      - intros Hall. assert (i ∉ l).
        { intros Hin. specialize (Hall i Hin). by rewrite list_lookup_insert_eq in Hall. }
        split; [done|]. intros j Hj. specialize (Hall j Hj).
        rewrite list_lookup_insert_ne in Hall; [done|]. by intros ->.
      - intros [Hni Hall] j Hj. rewrite list_lookup_insert_ne; [auto|]. by intros ->. }
    rewrite Hiff. tauto.
  - split; [done|]. intros (_ & [Hi _] & _).
    pose proof (proj2 (mark_Ok m i seen _) (conj Hi (conj Hm eq_refl))). congruence.
  - split; [done|]. intros (_ & [Hi _] & _).
    pose proof (proj2 (mark_Ok m i seen _) (conj Hi (conj Hm eq_refl))). congruence.
Qed.

Lemma lookup_fold_mark l : forall (seen : list bool) i,
  (i < length seen)%nat ->
  foldl (fun s i => <[i := true]> s) seen l !! i
  = if decide (i ∈ l) then Some true else seen !! i.
Proof.
  induction l as [|j l IH]; intros seen i Hi; cbn [foldl].
  { case_decide as H; [by apply not_elem_of_nil in H|done]. }
  rewrite IH by (by rewrite length_insert). rewrite list_lookup_insert.
  repeat case_decide; set_solver.
Qed.

Lemma length_fold_mark l (seen : list bool) :
  length (foldl (fun s i => <[i := true]> s) seen l) = length seen.
Proof. revert seen. induction l; intros; simpl; [done|]. by rewrite IHl, length_insert. Qed.

Lemma NoDup_perm_seq (l : list nat) m :
  NoDup l -> (forall i, i ∈ l <-> (i < m)%nat) -> l ≡ₚ seq 0 m.
Proof.
  intros Hl H. apply NoDup_Permutation; [done|apply NoDup_seq|].
  intros i. rewrite H, elem_of_seq. lia.
Qed.

(** [validate_pane_indices] accepts exactly the trees over the window's slots. *)
Lemma validate_pane_indices_Ok n m :
  validate_pane_indices n m = Ok tt <-> tree_ok n m.
Proof.
  destruct (decide (m = 0)%nat) as [->|Hm].
  { split; [|intros H; apply tree_ok_pos in H; lia].
    unfold validate_pane_indices. rewrite bind_Ok_inv. intros (seen & H & _).
    apply collect_pane_indices_Ok in H as [Ha H]. apply leaves_nonempty in Ha.
    destruct (leaves n) as [|i l]; [done|]. simpl in H.
    destruct (mark 0 i []) eqn:E; [|done..]. by apply mark_Ok in E as (? & ? & ?). }
  unfold validate_pane_indices. rewrite bind_Ok_inv. setoid_rewrite collect_pane_indices_Ok.
  setoid_rewrite fold_mark_Ok; [|done].
  assert (forall l, Forall (fun i => i < m)%nat l ->
    existsb negb (foldl (fun s i => <[i := true]> s) (replicate m false) l) = false
    <-> forall i, (i < m)%nat -> i ∈ l) as Hall.
  { intros l Hl. rewrite <- not_true_iff_false, existsb_exists. split.
    - intros H i Hi. destruct (decide (i ∈ l)) as [|Hn]; [done|]. exfalso. apply H.
      exists false. split; [|done]. apply list_elem_of_In, list_elem_of_lookup. exists i.
      rewrite lookup_fold_mark by (by rewrite length_replicate). case_decide; [done|].
      by apply lookup_replicate_2.
    - intros H ([] & Hx & Hneg); [done|]. apply list_elem_of_In, list_elem_of_lookup in Hx as [i Hi].
      pose proof (lookup_lt_Some _ _ _ Hi) as Hlt.
      rewrite length_fold_mark, length_replicate in Hlt.
      rewrite lookup_fold_mark in Hi by (by rewrite length_replicate).
      case_decide; [done|]. by apply H in Hlt. }
  assert (forall l, Forall (fun i => replicate m false !! i = Some false) l
                    <-> Forall (fun i => i < m)%nat l) as Hrep.
  { intros l. rewrite !Forall_forall. split; intros H i Hi; specialize (H i Hi).
    - by apply lookup_replicate in H as [_ ?].
    - by apply lookup_replicate_2. }
  setoid_rewrite Hrep. split.
  - intros (seen & (Ha & Hnd & Hlt & ->) & H). split; [|done].
    destruct (existsb negb _) eqn:E; [done|]. rewrite Hall in E by done.
    apply NoDup_perm_seq; [done|]. intros i. split; [|by apply E].
    rewrite Forall_forall in Hlt. apply Hlt.
  - intros Hok. pose proof (tree_ok_elem n m) as Hel. eexists. split; [split; [apply Hok|]|].
    + split; [by eapply tree_ok_NoDup|]. split; [|done].
      apply Forall_forall. intros i Hi. by apply (Hel i Hok).
    + assert (existsb negb (foldl (fun s i => <[i := true]> s) (replicate m false) (leaves n)) = false)
        as ->; [|done].
      apply Hall; [apply Forall_forall|]; intros i Hi; by apply (Hel i Hok).
Qed.

(** ** Splitting a slot *)

Section SplitSlot.
Context (target : nat) (d : SplitDirection).

(** Slots after the target move up by one. *)
Definition shift_up (i : nat) : nat := if (S target <=? i)%nat then S i else i.

Definition split_slots (i : nat) : list nat :=
  if (i =? target)%nat then [target; S target] else [shift_up i].

Local Abbreviation split n := (split_pane_inner n target (S target) d).

Lemma split_leaves n : leaves (split n).1 = concat (List.map split_slots (leaves n)).
Proof.
  induction n as [i|d' cs IH] using LayoutNode_ind'; simpl.
  - unfold split_slots, shift_up. by destruct (i =? target)%nat.
  - induction IH as [|c cs Hc _ IH]; simpl; [done|].
    by rewrite Hc, IH, List.map_app, concat_app.
Qed.

Lemma split_found n : (split n).2 = bool_decide (target ∈ leaves n).
Proof.
  induction n as [i|d' cs IH] using LayoutNode_ind'; simpl.
  - destruct (i =? target)%nat eqn:E; bool_to_prop; simpl; symmetry;
      [apply bool_decide_eq_true|apply bool_decide_eq_false]; set_solver.
  - induction IH as [|c cs Hc _ IH]; simpl.
    { done. }
    rewrite IH. unfold id. rewrite Hc. destruct (bool_decide (target ∈ leaves c)) eqn:E1;
      destruct (bool_decide (target ∈ concat (List.map leaves cs))) eqn:E2; bool_to_prop; simpl;
      symmetry; first [apply bool_decide_eq_true|apply bool_decide_eq_false]; set_solver.
Qed.

Lemma split_arity n : arity_ok n = true -> arity_ok (split n).1 = true.
Proof.
  induction n as [i|d' cs IH] using LayoutNode_ind'; intros Ha.
  - simpl. by destruct (i =? target)%nat.
  - apply arity_ok_split in Ha as [Hl Ha]. simpl split. apply arity_ok_split.
    rewrite !List.length_map. split; [done|]. rewrite List.map_map. apply Forall_map.
    rewrite Forall_forall in IH, Ha |- *. auto.
Qed.

Lemma split_seq m : (target < m)%nat ->
  concat (List.map split_slots (seq 0 m)) = seq 0 (S m).
Proof.
  intros Hm. assert (exists k, m = (target + S k)%nat) as [k ->] by (exists (m - S target)%nat; lia).
  replace (S (target + S k)) with (target + S (S k))%nat by lia.
  rewrite !seq_app, List.map_app, concat_app. simpl.
  assert (forall a k, (a + k <= target)%nat -> concat (List.map split_slots (seq a k)) = seq a k) as Hlow.
  { intros a j. revert a. induction j as [|j IH]; intros a Hk; simpl; [done|].
    rewrite IH by lia. unfold split_slots, shift_up.
    destruct (Nat.eqb_spec a target); [lia|]. destruct (Nat.leb_spec (S target) a); [lia|done]. }
  assert (forall a k, (target < a)%nat -> concat (List.map split_slots (seq a k)) = seq (S a) k) as Hhigh.
  { intros a j. revert a. induction j as [|j IH]; intros a Hk; simpl; [done|].
    rewrite IH by lia. unfold split_slots, shift_up.
    destruct (Nat.eqb_spec a target); [lia|]. destruct (Nat.leb_spec (S target) a); [done|lia]. }
  rewrite Hlow, Hhigh by lia. unfold split_slots. by rewrite Nat.eqb_refl.
Qed.

Lemma split_tree_ok n m :
  (target < m)%nat -> tree_ok n m -> tree_ok (split n).1 (S m) /\ (split n).2 = true.
Proof.
  intros Hm Hok. split.
  - destruct Hok as [Hp Ha]. split; [|by apply split_arity].
    rewrite split_leaves, <- split_seq by done. 
    clear -Hp. induction Hp; simpl; [done|by apply Permutation_app_head| |by etrans].
    rewrite !app_assoc. apply Permutation_app_tail, Permutation_app_comm.
  - rewrite split_found. apply bool_decide_eq_true. by apply (tree_ok_elem n m).
Qed.

(** The layout still fills its rectangle when the target's size is divided. *)
Lemma split_exact panes panes' n first second :
  size_at panes' target = Some first -> size_at panes' (S target) = Some second ->
  (forall i, i <> target -> i ∈ leaves n -> size_at panes' (shift_up i) = size_at panes i) ->
  (forall s0, size_at panes target = Some s0 ->
     splits_into d s0 first second /\ 1 <= axis_extent d first /\ 1 <= axis_extent d second) ->
  forall s, exact panes n s -> exact panes' (split n).1 s.
Proof.
  intros Hf Hs. induction n as [i|d' cs IH] using LayoutNode_ind'; intros Hsz Hsp s He.
  - destruct He as (p & Hp & <- & Hc & Hr). simpl. destruct (Nat.eqb_spec i target) as [->|Hne]; simpl.
    + destruct (Hsp (p_size p)) as (Hin & Ha1 & Ha2); [unfold size_at; by rewrite Hp|].
      unfold size_at in Hf, Hs. apply fmap_Some in Hf as (p1 & Hp1 & ->).
      apply fmap_Some in Hs as (p2 & Hp2 & ->).
      split; [done|]. exists [axis_extent d (p_size p1); axis_extent d (p_size p2)].
      split; [destruct d; simpl in *; lia|]. repeat split; simpl; eexists; (split; [done|]);
        destruct (p_size p), (p_size p1), (p_size p2), d; simpl in *;
        (split; [f_equal; lia|lia]).
    + change (exact panes' (rename shift_up (NPane i)) (p_size p)).
      eapply exact_rename; [|by exists p].
      intros j ->%list_elem_of_singleton. by apply Hsz; [|left].
  - apply exact_split in He as (Hne & ws & Hsum & H2). simpl split. apply exact_split.
    split; [by destruct cs|]. exists ws. split; [done|]. rewrite List.map_map. clear Hne Hsum.
    induction H2 as [|c w cs ws Hcw H2 IH2]; simpl; [constructor|].
    apply Forall_cons in IH as [IHc IH]. constructor.
    + apply IHc; try done. intros i Hi Hin. apply Hsz; [done|]. simpl. set_solver.
    + apply IH2; try done. intros i Hi Hin. apply Hsz; [done|]. simpl in *. set_solver.
Qed.
End SplitSlot.

(** ** Growing one child *)

Lemma expand_same n panes d a : same_but_sizes (leaves n) panes (expand_on_axis n panes d a).
Proof. apply resize_panes_same. Qed.

Lemma expand_u16 n panes d a :
  panes_u16 panes -> 0 <= a -> panes_u16 (expand_on_axis n panes d a).
Proof.
  intros Hp Ha. apply resize_panes_u16; [done|].
  destruct (logical_size_u16 panes n Hp). destruct d; split; simpl; solve_int.
Qed.

Lemma expand_exact n panes d a s w :
  NoDup (leaves n) -> panes_u16 panes -> exact panes n (child_size d s w) ->
  columns s <= u16_MAX -> rows s <= u16_MAX -> 0 <= a -> w + a <= axis_extent d s ->
  exact (expand_on_axis n panes d a) n (child_size d s (w + a)).
Proof.
  intros Hnd Hp He Hc Hr Ha Hw. pose proof (exact_pos _ _ _ He) as [? ?].
  unfold expand_on_axis. rewrite (exact_logical _ _ _ He) by (destruct d; simpl in *; lia).
  destruct d; simpl in *; (replace (sat_add u16_MAX w a) with (w + a) by solve_int);
    (eapply grow_exact; [done|done|exact He|simpl; lia..]).
Qed.

Lemma leaves_of_app cs ds : leaves_of (cs ++ ds) = leaves_of cs ++ leaves_of ds.
Proof. unfold leaves_of. by rewrite List.map_app, concat_app. Qed.

Lemma leaves_of_cons c cs : leaves_of (c :: cs) = leaves c ++ leaves_of cs.
Proof. done. Qed.

Lemma Forall2_exact_frame panes panes' d s cs ws :
  (forall i, i ∈ leaves_of cs -> size_at panes' i = size_at panes i) ->
  Forall2 (fun c w => exact panes c (child_size d s w)) cs ws ->
  Forall2 (fun c w => exact panes' c (child_size d s w)) cs ws.
Proof.
  intros H H2. induction H2 as [|c w cs ws Hc H2 IH]; constructor.
  - eapply exact_frame; [|exact Hc]. intros i Hi. apply H. rewrite leaves_of_cons. set_solver.
  - apply IH. intros i Hi. apply H. rewrite leaves_of_cons. set_solver.
Qed.

(** One child of a split takes over [a] cells. *)
Lemma expand_one panes d s A x B WA w WB a :
  NoDup (leaves_of (A ++ x :: B)) -> panes_u16 panes -> columns s <= u16_MAX -> rows s <= u16_MAX ->
  0 <= a -> w + a <= axis_extent d s ->
  Forall2 (fun c w => exact panes c (child_size d s w)) A WA ->
  exact panes x (child_size d s w) ->
  Forall2 (fun c w => exact panes c (child_size d s w)) B WB ->
  Forall2 (fun c w => exact (expand_on_axis x panes d a) c (child_size d s w))
    (A ++ x :: B) (WA ++ (w + a) :: WB).
Proof.
  intros Hnd Hp Hc Hr Ha Hw HA Hx HB. rewrite leaves_of_app, leaves_of_cons in Hnd.
  apply NoDup_app in Hnd as (HndA & HdA & Hnd). apply NoDup_app in Hnd as (Hndx & Hdx & HndB).
  pose proof (expand_same x panes d a) as Hsame. apply Forall2_app; [|constructor].
  - eapply Forall2_exact_frame; [|exact HA]. intros i Hi. eapply size_at_frame; [exact Hsame|].
    specialize (HdA i Hi). set_solver.
  - by apply expand_exact.
  - eapply Forall2_exact_frame; [|exact HB]. intros i Hi. eapply size_at_frame; [exact Hsame|].
    intros Hix. by apply (Hdx i Hix).
Qed.

(** A split of one child is the child. *)
Definition collapse (d : SplitDirection) (kept : list LayoutNode) : LayoutNode :=
  match kept with [only] => only | _ => NSplit d kept end.

Lemma collapse_exact panes d s kept ws :
  kept <> [] -> sum_Z ws = axis_extent d s ->
  Forall2 (fun c w => exact panes c (child_size d s w)) kept ws -> exact panes (collapse d kept) s.
Proof.
  intros Hne Hsum H2. destruct kept as [|c [|c' kept]]; [done|..].
  - inversion H2 as [|? w ? ws' Hc H2']; subst. inversion H2'; subst. simpl in Hsum.
    replace (child_size d s w) with s in Hc; [done|]. destruct s, d; simpl in *; f_equal; lia.
  - apply exact_split. split; [done|]. by exists ws.
Qed.

Lemma collapse_leaves d kept : leaves (collapse d kept) = leaves_of kept.
Proof. destruct kept as [|c [|c' kept]]; [done| |done]. simpl. unfold leaves_of. simpl. by rewrite app_nil_r. Qed.

Lemma collapse_arity d kept :
  kept <> [] -> Forall (fun c => arity_ok c = true) kept -> arity_ok (collapse d kept) = true.
Proof.
  intros Hne Ha. destruct kept as [|c [|c' kept]]; [done|by apply Forall_cons in Ha as [? _]|].
  apply arity_ok_split. simpl. split; [lia|done].
Qed.

(** ** Removing a slot *)

Section RemoveSlot.
Context (removed : nat) (rs : Size).

(** Slots after the removed one move down by one. *)
Definition shift_down (i : nat) : nat := if (removed <? i)%nat then (i - 1)%nat else i.

Local Abbreviation remove_inner n panes := (remove_pane_inner n removed rs panes).
Local Abbreviation down := (rename shift_down).

Definition remaining (l : list nat) : list nat := shift_down <$> filter (fun i => i <> removed) l.

Lemma remaining_app l k : remaining (l ++ k) = remaining l ++ remaining k.
Proof. unfold remaining. by rewrite filter_app, fmap_app. Qed.

Lemma remaining_notin l : removed ∉ l -> remaining l = shift_down <$> l.
Proof.
  intros H. unfold remaining. f_equal. induction l as [|i l IH]; [done|].
  rewrite filter_cons. case_decide; [f_equal; apply IH|]; set_solver.
Qed.

Lemma remaining_here : remaining [removed] = [].
Proof. unfold remaining. rewrite filter_cons. case_decide; done. Qed.

Lemma shift_down_inj i j :
  i <> removed -> j <> removed -> shift_down i = shift_down j -> i = j.
Proof.
  unfold shift_down. destruct (Nat.ltb_spec removed i), (Nat.ltb_spec removed j); lia.
Qed.

Lemma remaining_NoDup l : NoDup l -> NoDup (remaining l).
Proof.
  intros Hl. unfold remaining. induction Hl as [|i l Hi Hl IH]; [constructor|].
  rewrite filter_cons. case_decide as Hr; [|done]. rewrite fmap_cons. constructor; [|done].
  intros (j & Hij & Hj)%list_elem_of_fmap. apply list_elem_of_filter in Hj as [Hjr Hj].
  apply shift_down_inj in Hij; congruence.
Qed.

(** A subtree without the slot is only renumbered. *)
Lemma remove_absent n : forall panes,
  arity_ok n = true -> removed ∉ leaves n -> remove_inner n panes = (down n, panes, false, false).
Proof.
  induction n as [i|d cs IH] using LayoutNode_ind'; intros panes Ha Hn.
  - simpl. destruct (Nat.eqb_spec i removed) as [->|]; [set_solver|]. done.
  - apply arity_ok_split in Ha as [Hl Ha].
    assert (forall kept, visit_children (fun c panes => remove_inner c panes) cs kept panes false None
            = (kept ++ List.map down cs, panes, false, None)) as Hv.
    { clear Hl. induction IH as [|c cs Hc _ IH]; intros kept; simpl; [by rewrite app_nil_r|].
      apply Forall_cons in Ha as [Hac Ha]. simpl in Hn.
      rewrite Hc by (done || set_solver). rewrite IH by (done || set_solver).
      by rewrite <- app_assoc. }
    simpl. rewrite Hv. simpl. destruct cs as [|c1 [|c2 cs]]; simpl in *; [lia|lia|done].
Qed.

Lemma visit_absent pre : forall rest kept panes found tgt,
  Forall (fun c => arity_ok c = true) pre -> removed ∉ leaves_of pre ->
  visit_children (fun c panes => remove_inner c panes) (pre ++ rest) kept panes found tgt
  = visit_children (fun c panes => remove_inner c panes) rest (kept ++ List.map down pre)
      panes found tgt.
Proof.
  induction pre as [|c pre IH]; intros rest kept panes found tgt Ha Hn; simpl.
  { by rewrite app_nil_r. }
  apply Forall_cons in Ha as [Hac Ha]. unfold leaves_of in Hn. simpl in Hn.
  rewrite remove_absent by (done || set_solver). simpl. rewrite orb_false_r.
  rewrite IH by (done || (unfold leaves_of; set_solver)). by rewrite <- app_assoc.
Qed.

(** The child that takes over the cells of a removed leaf. *)
Definition heir (npre : nat) : nat := if (0 <? npre)%nat then (npre - 1)%nat else 0%nat.

Lemma remove_leaf_child d pre post panes :
  (1 <= length (pre ++ post))%nat ->
  Forall (fun c => arity_ok c = true) (pre ++ post) ->
  removed ∉ leaves_of pre -> removed ∉ leaves_of post ->
  exists A x B, List.map down (pre ++ post) = A ++ x :: B /\ length A = heir (length pre)
    /\ remove_inner (NSplit d (pre ++ NPane removed :: post)) panes
       = (collapse d (A ++ x :: B), expand_on_axis x panes d (axis_extent d rs), true, false).
Proof.
  intros Hl Ha Hpre Hpost. apply Forall_app in Ha as [Hapre Hapost].
  assert (heir (length pre) < length (List.map down (pre ++ post)))%nat as Hlt.
  { rewrite List.length_map. unfold heir. rewrite length_app in Hl |- *.
    destruct (Nat.ltb_spec 0 (length pre)); lia. }
  destruct (lookup_lt_is_Some_2 _ _ Hlt) as [x Hx].
  destruct (list_elem_of_split_length _ _ _ Hx) as (A & B & HAB & HlA).
  exists A, x, B. split; [done|]. split; [by rewrite HlA|].
  cbn [remove_pane_inner]. rewrite visit_absent by done. simpl. rewrite Nat.eqb_refl. simpl.
  rewrite <- (app_nil_r post) at 1. rewrite visit_absent by done. simpl.
  rewrite <- List.map_app, List.length_map. fold (heir (length pre)).
  assert (List.map down pre ++ post <> []) as Hne.
  { destruct pre, post; simpl in *; try done; lia. }
  destruct (List.map down pre ++ post) eqn:E; [done|]. simpl.
  replace (heir (length pre) `min` (length (List.map down (pre ++ post)) - 1))%nat
    with (heir (length pre)) by lia.
  rewrite Hx, HAB. unfold axis_extent.
  destruct A as [|a1 [|a2 A]], B as [|b1 [|b2 B]]; simpl; by destruct d.
Qed.

Lemma remove_inner_child d pre c c' post panes panes' :
  (1 <= length (pre ++ post))%nat ->
  Forall (fun c => arity_ok c = true) (pre ++ post) ->
  removed ∉ leaves_of pre -> removed ∉ leaves_of post ->
  remove_inner c panes = (c', panes', true, false) ->
  remove_inner (NSplit d (pre ++ c :: post)) panes
  = (NSplit d (List.map down pre ++ c' :: List.map down post), panes', true, false).
Proof.
  intros Hl Ha Hpre Hpost Hc. apply Forall_app in Ha as [Hapre Hapost].
  cbn [remove_pane_inner]. rewrite visit_absent by done. simpl. rewrite Hc. simpl.
  rewrite <- (app_nil_r post). rewrite visit_absent by done. simpl. rewrite <- app_assoc. simpl.
  rewrite app_nil_r.
  destruct pre as [|p1 [|p2 pre]], post as [|q1 post]; simpl in *; try done; lia.
Qed.

Lemma leaves_of_down cs : removed ∉ leaves_of cs -> leaves_of (List.map down cs) = remaining (leaves_of cs).
Proof.
  intros Hn. rewrite remaining_notin by done. clear Hn.
  induction cs as [|c cs IH]; [done|]. cbn [List.map]. rewrite !leaves_of_cons, IH, leaves_rename.
  by rewrite fmap_app.
Qed.

Lemma down_arity c : arity_ok c = true -> arity_ok (down c) = true.
Proof.
  induction c as [i|d cs IH] using LayoutNode_ind'; intros Ha; [done|].
  apply arity_ok_split in Ha as [Hl Ha]. simpl rename. apply arity_ok_split.
  rewrite List.length_map. split; [done|]. apply Forall_map.
  rewrite Forall_forall in IH, Ha |- *. auto.
Qed.

Lemma down_arity_all cs :
  Forall (fun c => arity_ok c = true) cs -> Forall (fun c => arity_ok c = true) (List.map down cs).
Proof. intros H. apply Forall_map. eapply Forall_impl; [exact H|]. apply down_arity. Qed.

(** The panes after the slot has left the vector: the others moved down. *)
Context (panes0 : list Pane).

Definition moved_down (l : list nat) (panes : list Pane) : Prop :=
  forall i, i ∈ l -> i <> removed -> size_at panes (shift_down i) = size_at panes0 i.

Lemma down_exact cs ws panes d s :
  removed ∉ leaves_of cs -> moved_down (leaves_of cs) panes ->
  Forall2 (fun c w => exact panes0 c (child_size d s w)) cs ws ->
  Forall2 (fun c w => exact panes c (child_size d s w)) (List.map down cs) ws.
Proof.
  intros Hn Hm H2. induction H2 as [|c w cs ws Hc H2 IH]; [constructor|].
  rewrite leaves_of_cons in Hn, Hm. simpl. constructor.
  - eapply exact_rename; [|exact Hc]. intros i Hi. apply Hm; set_solver.
  - apply IH; [set_solver|]. intros i Hi. apply Hm. set_solver.
Qed.

(** What removing a slot below a split guarantees. *)
Record removal (n : LayoutNode) (panes : list Pane) (n' : LayoutNode) (panes' : list Pane) : Prop := {
  rem_leaves : leaves n' = remaining (leaves n);
  rem_arity : arity_ok n' = true;
  rem_same : same_but_sizes (leaves n') panes panes';
  rem_u16 : panes_u16 panes';
  rem_exact : forall s, exact panes0 n s -> columns s <= u16_MAX -> rows s <= u16_MAX ->
              exact panes' n' s }.

Lemma NoDup_leaves_middle pre c post :
  NoDup (leaves_of (pre ++ c :: post)) -> removed ∈ leaves c ->
  removed ∉ leaves_of pre /\ removed ∉ leaves_of post /\ NoDup (leaves c).
Proof.
  rewrite leaves_of_app, leaves_of_cons. intros Hnd Hin.
  apply NoDup_app in Hnd as (_ & Hd & Hnd). apply NoDup_app in Hnd as (Hc & Hd' & _).
  split; [|split; [|done]].
  - intros H. apply (Hd removed H). set_solver.
  - by apply Hd'.
Qed.

Lemma removal_leaf d pre post panes :
  (1 <= length (pre ++ post))%nat -> Forall (fun c => arity_ok c = true) (pre ++ post) ->
  NoDup (leaves_of (pre ++ NPane removed :: post)) -> panes_u16 panes -> u16_size rs ->
  size_at panes0 removed = Some rs -> moved_down (leaves_of (pre ++ NPane removed :: post)) panes ->
  exists n' panes', remove_inner (NSplit d (pre ++ NPane removed :: post)) panes = (n', panes', true, false)
    /\ removal (NSplit d (pre ++ NPane removed :: post)) panes n' panes'.
Proof.
  intros Hl Ha Hnd Hp Hrs Hsz Hm.
  destruct (NoDup_leaves_middle pre (NPane removed) post Hnd) as (Hpre & Hpost & _); [simpl; set_solver|].
  destruct (remove_leaf_child d pre post panes Hl Ha Hpre Hpost) as (A & x & B & HAB & _ & Heq).
  exists (collapse d (A ++ x :: B)), (expand_on_axis x panes d (axis_extent d rs)).
  split; [done|].
  assert (removed ∉ leaves_of (pre ++ post)) as Hpp by (rewrite leaves_of_app; set_solver).
  assert (leaves_of (A ++ x :: B) = remaining (leaves_of (pre ++ NPane removed :: post))) as Hlv.
  { rewrite <- HAB, leaves_of_down by done. rewrite !leaves_of_app, leaves_of_cons, !remaining_app.
    cbn [leaves]. by rewrite remaining_here. }
  assert (NoDup (leaves_of (A ++ x :: B))) as HndAB by (rewrite Hlv; by apply remaining_NoDup).
  pose proof (axis_extent_u16 d rs Hrs) as Hax.
  split.
  - by rewrite collapse_leaves.
  - apply collapse_arity; [by destruct A|]. rewrite <- HAB. by apply down_arity_all.
  - rewrite collapse_leaves. eapply same_but_sizes_trans;
      [| |apply expand_same|apply (same_but_sizes_refl [])];
      [rewrite leaves_of_app, leaves_of_cons; set_solver|set_solver].
  - apply expand_u16; [done|]. solve_int.
  - intros s He Hc Hr. apply exact_split in He as (_ & ws & Hsum & H2).
    apply Forall2_app_inv_l in H2 as (wpre & ws' & H2pre & H2' & ->).
    inversion H2' as [|? w ? wpost Hcw H2post]; subst.
    destruct Hcw as (p & Hpr & Hps & _). unfold size_at in Hsz. rewrite Hpr in Hsz.
    injection Hsz as Hrs'. rewrite Hps in Hrs'. rewrite <- Hrs', axis_extent_child.
    rewrite <- Hrs', axis_extent_child in Hax.
    assert (0 <= w) as Hw0 by solve_int. clear Hax.
    assert (Forall2 (fun c w => exact panes c (child_size d s w)) (A ++ x :: B) (wpre ++ wpost)) as H2d.
    { rewrite <- HAB. apply down_exact; [done| |by apply Forall2_app].
      intros i Hi. apply Hm. rewrite leaves_of_app, leaves_of_cons in *. set_solver. }
    apply Forall2_app_inv_l in H2d as (WA & WX & HA & HX & HW).
    inversion HX as [|? wx ? WB Hx HB]; subst.
    pose proof (exact_children_pos _ _ _ _ _ HA) as HpA%sum_Z_ge_length.
    pose proof (exact_children_pos _ _ _ _ _ HB) as HpB%sum_Z_ge_length.
    assert (sum_Z (wpre ++ wpost) = sum_Z (WA ++ wx :: WB)) as Hsw by (by rewrite HW).
    rewrite sum_Z_app in Hsum. rewrite !sum_Z_app in Hsw. simpl in Hsum, Hsw.
    apply (collapse_exact _ _ _ _ (WA ++ (wx + w) :: WB)); [by destruct A|rewrite sum_Z_app; simpl; lia|].
    apply expand_one; try done. lia.
Qed.

Lemma removal_child d pre c c' post panes panes' :
  (1 <= length (pre ++ post))%nat -> Forall (fun c => arity_ok c = true) (pre ++ post) ->
  NoDup (leaves_of (pre ++ c :: post)) -> removed ∈ leaves c ->
  moved_down (leaves_of (pre ++ c :: post)) panes ->
  removal c panes c' panes' ->
  removal (NSplit d (pre ++ c :: post)) panes (NSplit d (List.map down pre ++ c' :: List.map down post)) panes'.
Proof.
  intros Hl Ha Hnd Hin Hm [Rl Ra Rs Ru Re].
  destruct (NoDup_leaves_middle _ _ _ Hnd Hin) as (Hpre & Hpost & _).
  assert (leaves_of (List.map down pre ++ c' :: List.map down post)
          = remaining (leaves_of (pre ++ c :: post))) as Hlv.
  { rewrite !leaves_of_app, !leaves_of_cons, !remaining_app, Rl, !leaves_of_down by done. done. }
  pose proof (remaining_NoDup _ Hnd) as Hnd'. rewrite <- Hlv in Hnd'.
  rewrite leaves_of_app, leaves_of_cons in Hnd'.
  apply NoDup_app in Hnd' as (_ & Hd1 & Hnd'). apply NoDup_app in Hnd' as (_ & Hd2 & _).
  split.
  - exact Hlv.
  - apply arity_ok_split. apply Forall_app in Ha as [Hapre Hapost]. split.
    + rewrite length_app in Hl |- *. simpl. rewrite !List.length_map. lia.
    + apply Forall_app. split; [by apply down_arity_all|].
      constructor; [done|by apply down_arity_all].
  - eapply same_but_sizes_trans; [| |exact Rs|apply (same_but_sizes_refl [])];
      [cbn [leaves]; fold (leaves_of (List.map down pre ++ c' :: List.map down post));
       rewrite leaves_of_app, leaves_of_cons; set_solver|set_solver].
  - done.
  - intros s He Hc Hr. apply exact_split in He as (_ & ws & Hsum & H2).
    apply Forall2_app_inv_l in H2 as (wpre & ws' & H2pre & H2' & ->).
    inversion H2' as [|? w ? wpost Hcw H2post]; subst.
    pose proof (exact_children_pos _ _ _ _ _ H2pre) as HpA%sum_Z_ge_length.
    pose proof (exact_children_pos _ _ _ _ _ H2post) as HpB%sum_Z_ge_length.
    rewrite sum_Z_app in Hsum. simpl in Hsum.
    rewrite leaves_of_app, leaves_of_cons in Hm.
    apply exact_split. split; [by destruct pre|]. exists (wpre ++ w :: wpost).
    split; [rewrite sum_Z_app; simpl; lia|]. apply Forall2_app; [|constructor].
    + eapply Forall2_exact_frame;
        [|apply (down_exact _ _ panes); [done| |exact H2pre]; intros i Hi; apply Hm; set_solver].
      intros i Hi. eapply size_at_frame; [exact Rs|]. specialize (Hd1 i Hi). set_solver.
    + apply Re; [done|destruct d; simpl in *; lia..].
    + eapply Forall2_exact_frame;
        [|apply (down_exact _ _ panes); [done| |exact H2post]; intros i Hi; apply Hm; set_solver].
      intros i Hi. eapply size_at_frame; [exact Rs|]. intros Hic. by apply (Hd2 i Hic).
Qed.

Lemma remove_inner_spec n : forall panes,
  arity_ok n = true -> NoDup (leaves n) -> removed ∈ leaves n -> n <> NPane removed ->
  panes_u16 panes -> u16_size rs -> size_at panes0 removed = Some rs -> moved_down (leaves n) panes ->
  exists n' panes', remove_inner n panes = (n', panes', true, false) /\ removal n panes n' panes'.
Proof.
  induction n as [i|d cs IH] using LayoutNode_ind'; intros panes Ha Hnd Hin Hne Hp Hrs Hsz Hm.
  - exfalso. apply Hne. f_equal. simpl in Hin. set_solver.
  - apply arity_ok_split in Ha as [Hl Ha].
    apply elem_of_leaves_of in Hin as (c & Hc & Hin).
    apply list_elem_of_split in Hc as (pre & post & ->).
    assert (1 <= length (pre ++ post))%nat by (rewrite length_app in Hl |- *; simpl in Hl; lia).
    pose proof (proj1 (Forall_app _ _ _) Ha) as [Hapre [Hac Hapost]%Forall_cons].
    pose proof (proj2 (Forall_app _ _ _) (conj Hapre Hapost)) as Happ.
    destruct (decide (c = NPane removed)) as [->|Hcne]; [by apply removal_leaf|].
    destruct (NoDup_leaves_middle _ _ _ Hnd Hin) as (Hpre & Hpost & Hndc).
    apply Forall_app in IH as [_ [IHc _]%Forall_cons].
    destruct (IHc panes) as (c' & panes' & Heq & Hrem); try done.
    { intros i Hi. apply Hm. fold (leaves_of (pre ++ c :: post)).
      cbn [leaves]. fold (leaves_of (pre ++ c :: post)).
      rewrite leaves_of_app, leaves_of_cons. set_solver. }
    eexists _, panes'. split; [by eapply remove_inner_child|]. by apply removal_child.
Qed.
End RemoveSlot.

Section RemoveFromTree.
Context (removed : nat) (rs : Size).

Lemma remaining_perm l k : l ≡ₚ k -> remaining removed l ≡ₚ remaining removed k.
Proof. intros H. unfold remaining. by rewrite H. Qed.

Lemma remaining_seq m :
  (removed < S m)%nat -> remaining removed (seq 0 (S m)) ≡ₚ seq 0 m.
Proof.
  intros Hr. apply NoDup_perm_seq; [apply remaining_NoDup, NoDup_ListNoDup, seq_NoDup|].
  intros i. unfold remaining, shift_down. rewrite list_elem_of_fmap. split.
  - intros (j & -> & [Hj Hin%elem_of_seq]%list_elem_of_filter).
    destruct (Nat.ltb_spec removed j); lia.
  - intros Hi. exists (if (i <? removed)%nat then i else S i).
    rewrite list_elem_of_filter, elem_of_seq.
    destruct (Nat.ltb_spec i removed) as [H|H].
    + destruct (Nat.ltb_spec removed i); lia.
    + destruct (Nat.ltb_spec removed (S i)); lia.
Qed.

(** Removing a slot of a tree over [m + 1] slots. *)
Lemma remove_pane_spec panes0 n panes m :
  (1 <= m)%nat -> tree_ok n (S m) -> (removed < S m)%nat ->
  panes_u16 panes -> u16_size rs -> size_at panes0 removed = Some rs ->
  moved_down removed panes0 (seq 0 (S m)) panes ->
  exists n' panes', remove_pane n removed rs panes = (n', panes', true)
    /\ tree_ok n' m /\ same_but_sizes (seq 0 m) panes panes' /\ panes_u16 panes'
    /\ (forall s, exact panes0 n s -> columns s <= u16_MAX -> rows s <= u16_MAX ->
        exact panes' n' s).
Proof.
  intros Hm Ht Hr Hp Hrs Hsz Hmd.
  destruct (remove_inner_spec removed rs panes0 n panes) as (n' & panes' & Heq & [Rl Ra Rs Ru Re]);
    try done.
  - apply Ht.
  - by eapply tree_ok_NoDup.
  - by eapply tree_ok_elem.
  - intros ->. destruct Ht as [Hl%Permutation_length _]. rewrite length_seq in Hl. simpl in Hl. lia.
  - intros i Hi. apply Hmd. rewrite elem_of_seq. apply (tree_ok_elem _ _ _ Ht) in Hi. lia.
  - exists n', panes'. unfold remove_pane. rewrite Heq.
    assert (leaves n' ≡ₚ seq 0 m) as Hl.
    { rewrite Rl. rewrite (remaining_perm _ (seq 0 (S m))) by apply Ht. by apply remaining_seq. }
    repeat split; try done.
    + apply Rs.
    + intros i Hi. apply Rs. by rewrite Hl.
    + apply Rs.
Qed.
End RemoveFromTree.
