(* ===== verification/WindowOps.v ===== *)
(** * Windows ([mez-mux/src/layout/window.rs], [types.rs])

    The mutable window of the layout engine: its panes in slot order, the
    active slot, the focus history, zoom, layout policy, split tree and the
    rectangles computed from it, with every operation that changes them.  An
    operation is a function on the window; the ones that return [Result] or
    index a vector run in [op], which keeps the state an error leaves behind
    and makes panics explicit. *)

From S2P Require Import Prelude RustStr Ids LayoutTypes Sizing LayoutTree.
Import Node.
Local Open Scope Z_scope.

(** ** State *)

Inductive WindowNameSource := NameGenerated | NameExplicit.

Definition WindowNameSource_is_explicit (s : WindowNameSource) : bool :=
  match s with NameExplicit => true | NameGenerated => false end.

Record Window := mkWindow {
  w_id : WindowId;
  w_index : nat;
  w_name : string;
  w_name_source : WindowNameSource;
  w_created_at_unix_seconds : option Z;
  w_size : Size;
  w_panes : list Pane;
  w_active_pane_index : nat;
  w_last_active_pane_index : option nat;
  w_pane_focus_history : list PaneId;
  w_zoomed_pane_id : option PaneId;
  w_layout_policy : LayoutPolicy;
  w_layout_root : LayoutNode;
  w_pane_geometries : list PaneGeometry }.

(** Field assignments. *)
Section Setters.
Context (w : Window).
Local Abbreviation mk name src size panes active last history zoomed policy root geometries :=
  (mkWindow (w_id w) (w_index w) name src (w_created_at_unix_seconds w) size panes active last
     history zoomed policy root geometries).

Definition set_name (name : string) (src : WindowNameSource) : Window :=
  mk name src (w_size w) (w_panes w) (w_active_pane_index w) (w_last_active_pane_index w)
    (w_pane_focus_history w) (w_zoomed_pane_id w) (w_layout_policy w) (w_layout_root w)
    (w_pane_geometries w).
Definition set_size (size : Size) : Window :=
  mk (w_name w) (w_name_source w) size (w_panes w) (w_active_pane_index w)
    (w_last_active_pane_index w) (w_pane_focus_history w) (w_zoomed_pane_id w)
    (w_layout_policy w) (w_layout_root w) (w_pane_geometries w).
Definition set_panes (panes : list Pane) : Window :=
  mk (w_name w) (w_name_source w) (w_size w) panes (w_active_pane_index w)
    (w_last_active_pane_index w) (w_pane_focus_history w) (w_zoomed_pane_id w)
    (w_layout_policy w) (w_layout_root w) (w_pane_geometries w).
Definition set_active (active : nat) : Window :=
  mk (w_name w) (w_name_source w) (w_size w) (w_panes w) active
    (w_last_active_pane_index w) (w_pane_focus_history w) (w_zoomed_pane_id w)
    (w_layout_policy w) (w_layout_root w) (w_pane_geometries w).
Definition set_last (last : option nat) : Window :=
  mk (w_name w) (w_name_source w) (w_size w) (w_panes w) (w_active_pane_index w)
    last (w_pane_focus_history w) (w_zoomed_pane_id w)
    (w_layout_policy w) (w_layout_root w) (w_pane_geometries w).
Definition set_history (history : list PaneId) : Window :=
  mk (w_name w) (w_name_source w) (w_size w) (w_panes w) (w_active_pane_index w)
    (w_last_active_pane_index w) history (w_zoomed_pane_id w)
    (w_layout_policy w) (w_layout_root w) (w_pane_geometries w).
Definition set_zoomed (zoomed : option PaneId) : Window :=
  mk (w_name w) (w_name_source w) (w_size w) (w_panes w) (w_active_pane_index w)
    (w_last_active_pane_index w) (w_pane_focus_history w) zoomed
    (w_layout_policy w) (w_layout_root w) (w_pane_geometries w).
Definition set_policy (policy : LayoutPolicy) : Window :=
  mk (w_name w) (w_name_source w) (w_size w) (w_panes w) (w_active_pane_index w)
    (w_last_active_pane_index w) (w_pane_focus_history w) (w_zoomed_pane_id w)
    policy (w_layout_root w) (w_pane_geometries w).
Definition set_root (root : LayoutNode) : Window :=
  mk (w_name w) (w_name_source w) (w_size w) (w_panes w) (w_active_pane_index w)
    (w_last_active_pane_index w) (w_pane_focus_history w) (w_zoomed_pane_id w)
    (w_layout_policy w) root (w_pane_geometries w).
Definition set_geometries (geometries : list PaneGeometry) : Window :=
  mk (w_name w) (w_name_source w) (w_size w) (w_panes w) (w_active_pane_index w)
    (w_last_active_pane_index w) (w_pane_focus_history w) (w_zoomed_pane_id w)
    (w_layout_policy w) (w_layout_root w) geometries.
End Setters.

(** Methods on [&mut self]. *)
Abbreviation method := (op MuxError Window).

Definition has_pane_id (panes : list Pane) (id : PaneId) : bool :=
  existsb (fun p => String.eqb (p_id p) id) panes.

Definition position_of_id (panes : list Pane) (id : PaneId) : option nat :=
  position (fun p => String.eqb (p_id p) id) panes.

Definition pane_matches_target (p : Pane) (target : string) : bool :=
  String.eqb (p_id p) target || String.eqb (usize_to_string (p_index p)) target.

Module Win.
(** ** Construction *)

Definition window_name_source_for_created_window (index : nat) (name : string)
    : WindowNameSource :=
  let trimmed := trim name in
  if str_is_empty trimmed || String.eqb trimmed (usize_to_string index)
     || String.eqb trimmed "shell"
  then NameGenerated else NameExplicit.

(** A window of one pane that fills it. *)
Definition single (id : WindowId) (index : nat) (name : string) (size : Size) (p : Pane) : Window :=
  mkWindow id index name (window_name_source_for_created_window index name) None size [p]
    0 None [] None Tiled (single_pane 0) [mkGeometry 0 0 0 (columns size) (rows size)].

(** An allocation of the identity factory as a step. *)
Definition alloc (next : IdFactory -> StableId * IdFactory) (ids : IdFactory)
    : IdFactory * outcome MuxError StableId :=
  let '(id, ids) := next ids in (ids, Ok id).

Definition new (index : nat) (name : string) (size : Size) : op MuxError IdFactory Window :=
  op_lift (Size_validate size) ≫= fun _ =>
  op_step (alloc IdFactoryOps.pane) ≫= fun pane_id =>
  op_step (alloc IdFactoryOps.window) ≫= fun window_id =>
  mret (single window_id index name size (mkPane pane_id 0 "shell" TitleDefault size true true)).

Definition from_existing_pane (index : nat) (name : string) (size : Size) (p : Pane)
    : op MuxError IdFactory Window :=
  op_lift (Size_validate size) ≫= fun _ =>
  op_lift (Size_validate (p_size p)) ≫= fun _ =>
  let p := pane_set_active true (pane_set_size size (pane_set_index 0 p)) in
  op_step (alloc IdFactoryOps.window) ≫= fun window_id =>
  mret (single window_id index name size p).

(** ** Bookkeeping *)

Definition reindex_panes (w : Window) : Window := set_panes w (imap pane_set_index (w_panes w)).

Definition refresh_pane_geometries (w : Window) : Window :=
  set_geometries w (pane_geometries (w_layout_root w) (w_panes w)).

Definition retain_valid_zoom (w : Window) : Window :=
  match w_zoomed_pane_id w with
  | Some zoomed => if has_pane_id (w_panes w) zoomed then w else set_zoomed w None
  | None => w
  end.

Fixpoint prune (panes : list Pane) (history retained : list PaneId) : list PaneId :=
  match history with
  | [] => retained
  | id :: history =>
      prune panes history
        (if has_pane_id panes id && negb (existsb (fun e => String.eqb e id) retained)
         then retained ++ [id] else retained)
  end.

Definition prune_pane_focus_history (w : Window) : Window :=
  set_history w (prune (w_panes w) (w_pane_focus_history w) []).

Definition record_bounded_focus (history : list PaneId) (value : PaneId) : list PaneId :=
  let history := List.filter (fun e => negb (String.eqb e value)) history ++ [value] in
  if (10 <? length history)%nat then remove_at 0 history else history.

(** The window is pruned as a side effect. *)
Definition most_recent_surviving_pane_index (w : Window) : Window * option nat :=
  let w := prune_pane_focus_history w in
  (w, head (omap (position_of_id (w_panes w)) (rev (w_pane_focus_history w)))).

Definition set_active_pane_index_without_history (index : nat) (w : Window) : Window :=
  let w := set_active w index in
  let w := set_panes w (imap (fun i => pane_set_active (i =? index)%nat) (w_panes w)) in
  prune_pane_focus_history w.

Definition set_active_pane_index (index : nat) (w : Window) : Window :=
  let w :=
    if negb (w_active_pane_index w =? index)%nat then
      match w_panes w !! w_active_pane_index w with
      | Some previous =>
          if p_active previous
          then set_history (set_last w (Some (w_active_pane_index w)))
                 (record_bounded_focus (w_pane_focus_history w) (p_id previous))
          else w
      | None => w
      end
    else w in
  set_active_pane_index_without_history index w.

(** ** Layout policies *)

Definition layout_policy_rebalances (w : Window) : bool :=
  match w_layout_policy w with
  | EvenVertical | EvenHorizontal | EvenGrid => true
  | Tiled => false
  end.

(** The loop over one row of the grid: sizes from [pane_index] on, one
    leaf per width. *)
Fixpoint place_grid_row (rows : Z) (widths : list Z) (pane_index : nat) (panes : list Pane)
    (children : list LayoutNode) : outcome MuxError (nat * list Pane * list LayoutNode) :=
  match widths with
  | [] => Ok (pane_index, panes, children)
  | columns :: widths =>
      index_or_panic panes pane_index ≫= fun p =>
      place_grid_row rows widths (S pane_index)
        (<[pane_index := pane_set_size (mkSize columns rows) p]> panes)
        (children ++ [single_pane pane_index])
  end.

(** The loop over the rows; [row_index] counts from the first row. *)
Fixpoint place_grid_rows (size : Size) (pane_count column_count row_count : nat)
    (row_heights : list Z) (row_index pane_index : nat) (panes : list Pane)
    (row_nodes : list LayoutNode) : outcome MuxError (list Pane * list LayoutNode) :=
  match row_heights with
  | [] => Ok (panes, row_nodes)
  | rows :: row_heights =>
      if (pane_count <=? pane_index)%nat then Ok (panes, row_nodes) else
      let rows_remaining := Nat.max (row_count - row_index) 1 in
      let panes_remaining := (pane_count - pane_index)%nat in
      let panes_this_row := Nat.min (div_ceil panes_remaining rows_remaining) column_count in
      let widths := split_dimension_evenly (columns size) panes_this_row in
      place_grid_row rows widths pane_index panes [] ≫= fun '(pane_index, panes, children) =>
      let node := match children with [child] => child | _ => NSplit Vertical children end in
      place_grid_rows size pane_count column_count row_count row_heights (S row_index) pane_index
        panes (row_nodes ++ [node])
  end.

Definition apply_even_grid_layout : method unit := fun w =>
  let pane_count := length (w_panes w) in
  let '(column_count, row_count) := even_grid_dimensions (w_size w) pane_count in
  let row_heights := split_dimension_evenly (rows (w_size w)) row_count in
  match place_grid_rows (w_size w) pane_count column_count row_count row_heights 0 0 (w_panes w) []
  with
  | Ok (panes, row_nodes) =>
      let root := match row_nodes with [node] => node | _ => NSplit Horizontal row_nodes end in
      (refresh_pane_geometries (set_root (set_panes w panes) root), Ok tt)
  | Err e => (w, Err e)
  | Panic => (w, Panic)
  end.

Definition apply_layout_policy : method unit := fun w =>
  match w_panes w with
  | [] => (w, Ok tt)
  | _ =>
      match w_layout_policy w with
      | Tiled | EvenVertical =>
          let widths := split_dimension_evenly (columns (w_size w)) (length (w_panes w)) in
          let w := set_panes w (zip_with (fun p columns =>
                     pane_set_size (mkSize columns (rows (w_size w))) p) (w_panes w) widths
                     ++ drop (length widths) (w_panes w)) in
          let w := set_root w (flat Vertical (length (w_panes w))) in
          (refresh_pane_geometries w, Ok tt)
      | EvenHorizontal =>
          let heights := split_dimension_evenly (rows (w_size w)) (length (w_panes w)) in
          let w := set_panes w (zip_with (fun p rows =>
                     pane_set_size (mkSize (columns (w_size w)) rows) p) (w_panes w) heights
                     ++ drop (length heights) (w_panes w)) in
          let w := set_root w (flat Horizontal (length (w_panes w))) in
          (refresh_pane_geometries w, Ok tt)
      | EvenGrid => apply_even_grid_layout w
      end
  end.

Definition rebalance_after_pane_count_change : method unit := fun w =>
  if layout_policy_rebalances w then apply_layout_policy w else (refresh_pane_geometries w, Ok tt).

Definition reflow_after_pane_removal (removed_index : nat) (removed_size : Size) : method unit :=
  fun w =>
  if layout_policy_rebalances w then apply_layout_policy w
  else
    let '(root, panes, found) :=
      remove_pane (w_layout_root w) removed_index removed_size (w_panes w) in
    let panes := if found then panes else resize_panes root panes (w_size w) in
    (refresh_pane_geometries (set_panes (set_root w root) panes), Ok tt).

Definition cycle_layout : method LayoutPolicy :=
  op_modify (fun w => set_policy w (LayoutPolicy_next (w_layout_policy w))) ≫= fun _ =>
  apply_layout_policy ≫= fun _ => op_get w_layout_policy.

Definition set_layout_policy (policy : LayoutPolicy) : method LayoutPolicy :=
  op_modify (fun w => set_policy w policy) ≫= fun _ =>
  apply_layout_policy ≫= fun _ => op_get w_layout_policy.

(** ** Targets *)

Definition pane_index (w : Window) (target : option string) : result nat :=
  match target with
  | Some target =>
      ok_or (position (fun p => pane_matches_target p target) (w_panes w))
        (not_found "pane not found")
  | None =>
      match w_panes w with
      | [] => Err (invalid_state "window has no active pane")
      | _ => Ok (w_active_pane_index w)
      end
  end.

Definition pane_index_by_id (w : Window) (pane_id : string) : option nat :=
  position_of_id (w_panes w) pane_id.

Definition select_pane (target : string) : method unit := fun w =>
  match pane_index w (Some target) with
  | Ok index => (set_active_pane_index index w, Ok tt)
  | Err e => (w, Err e)
  | Panic => (w, Panic)
  end.

Definition select_last_pane : method unit := fun w =>
  match w_last_active_pane_index w with
  | Some index =>
      if (index <? length (w_panes w))%nat then (set_active_pane_index index w, Ok tt)
      else (w, Err (invalid_state "window has no last active pane"))
  | None => (w, Err (invalid_state "window has no last active pane"))
  end.

(** ** Zoom *)

Definition toggle_zoom_active : method (option PaneId) := fun w =>
  match w_panes w !! w_active_pane_index w with
  | None => (w, Panic)
  | Some p =>
      let w := if bool_decide (w_zoomed_pane_id w = Some (p_id p))
               then set_zoomed w None else set_zoomed w (Some (p_id p)) in
      (w, Ok (w_zoomed_pane_id w))
  end.

Definition set_pane_zoom (pane_id : PaneId) (zoomed : bool) : method (option PaneId) := fun w =>
  if negb (has_pane_id (w_panes w) pane_id) then (w, Err (not_found "pane not found")) else
  let w := if zoomed then set_zoomed w (Some pane_id)
           else if bool_decide (w_zoomed_pane_id w = Some pane_id) then set_zoomed w None
           else w in
  (w, Ok (w_zoomed_pane_id w)).

(** ** Splitting *)

(** Runs a method on the window of a factory and a window. *)
Definition on_window {A} (m : method A) : op MuxError (IdFactory * Window) A :=
  op_zoom snd (fun w s => (s.1, w)) m.

(** The part of a split after the identity is known: the new pane enters the
    vector after the target and the tree splits the target's slot. *)
Definition insert_split_pane (target_index : nat) (existing : Size) (p : Pane)
    (direction : SplitDirection) : method unit := fun w =>
  let w := set_panes w (alter (pane_set_size existing) target_index (w_panes w)) in
  let w := set_panes w (insert_at (S target_index) p (w_panes w)) in
  let w := reindex_panes w in
  let '(root, r) := split_pane (w_layout_root w) target_index (S target_index) direction in
  (set_root w root, r).

Definition split_active_with_requested_size (direction : SplitDirection)
    (requested_size : option PaneSizeSpec) (select_new : bool)
    : op MuxError (IdFactory * Window) Pane :=
  op_get snd ≫= fun w =>
  let active_index := w_active_pane_index w in
  op_lift (index_or_panic (w_panes w) active_index) ≫= fun active =>
  op_lift (match requested_size with
           | Some spec => split_size_with_spec (p_size active) direction spec
           | None => split_size (p_size active) direction
           end) ≫= fun '(existing, created) =>
  let new_index := S active_index in
  op_zoom fst (fun ids s => (ids, s.2)) (op_step (alloc IdFactoryOps.pane)) ≫= fun id =>
  on_window
    (insert_split_pane active_index existing
       (mkPane id new_index "shell" TitleDefault created false true) direction ≫= fun _ =>
     op_modify (if select_new then set_active_pane_index new_index
                else fun w =>
                  set_panes w (alter (pane_set_active false) new_index
                                 (alter (pane_set_active true) active_index (w_panes w))))
       ≫= fun _ =>
     rebalance_after_pane_count_change ≫= fun _ =>
     op_get w_panes ≫= fun panes => op_lift (index_or_panic panes new_index)).

Definition split_active_select (direction : SplitDirection) (select_new : bool) :=
  split_active_with_requested_size direction None select_new.
Definition split_active (direction : SplitDirection) := split_active_select direction true.
Definition split_active_with_size_spec_select (direction : SplitDirection) (spec : PaneSizeSpec)
    (select_new : bool) := split_active_with_requested_size direction (Some spec) select_new.
Definition split_active_with_size_spec (direction : SplitDirection) (spec : PaneSizeSpec) :=
  split_active_with_size_spec_select direction spec true.

Definition insert_existing_after (target : option string) (p : Pane) (direction : SplitDirection)
    (select_inserted : bool) : method Pane :=
  op_get id ≫= fun w =>
  op_lift (pane_index w target) ≫= fun target_index =>
  op_lift (index_or_panic (w_panes w) (w_active_pane_index w)) ≫= fun active =>
  op_lift (index_or_panic (w_panes w) target_index) ≫= fun target_pane =>
  op_lift (split_size (p_size target_pane) direction) ≫= fun '(existing, inserted) =>
  let inserted_index := S target_index in
  let p := pane_set_active false (pane_set_size inserted (pane_set_index inserted_index p)) in
  insert_split_pane target_index existing p direction ≫= fun _ =>
  op_modify (fun w =>
    if select_inserted then set_active_pane_index inserted_index w
    else match position_of_id (w_panes w) (p_id active) with
         | Some active_index => set_active_pane_index active_index w
         | None => w
         end) ≫= fun _ =>
  rebalance_after_pane_count_change ≫= fun _ =>
  op_get w_panes ≫= fun panes => op_lift (index_or_panic panes inserted_index).

(** ** Removing *)

Definition take_pane_at (index : nat) : method Pane := fun w =>
  match w_panes w !! index with
  | None => (w, Panic)
  | Some removed =>
      let w := set_panes w (remove_at index (w_panes w)) in
      match w_panes w with
      | [] => (set_zoomed (set_history (set_last (set_active w 0) None) []) None, Ok removed)
      | _ =>
          let '(w, next_active) :=
            if p_active removed then
              let '(w, recent) := most_recent_surviving_pane_index w in
              (w, default (Nat.min index (length (w_panes w) - 1)) recent)
            else (w, if (index <? w_active_pane_index w)%nat then (w_active_pane_index w - 1)%nat
                     else Nat.min (w_active_pane_index w) (length (w_panes w) - 1)) in
          let w := reindex_panes w in
          (reflow_after_pane_removal index (p_size removed) ≫= fun _ =>
           op_modify (fun w => retain_valid_zoom (set_active_pane_index_without_history next_active w))
             ≫= fun _ =>
           op_lift (Ok removed)) w
      end
  end.

Definition take_pane (target : option string) : method Pane := fun w =>
  match pane_index w target with
  | Ok index => take_pane_at index w
  | Err e => (w, Err e)
  | Panic => (w, Panic)
  end.

(** The index a target of [kill_pane] and [resize_pane] names. *)
Definition target_or_active (w : Window) (target : option string) : result nat :=
  match target with
  | Some target =>
      ok_or (position (fun p => pane_matches_target p target) (w_panes w))
        (not_found "pane not found")
  | None => Ok (w_active_pane_index w)
  end.

Definition kill_pane (target : option string) : method Pane :=
  op_get id ≫= fun w =>
  op_lift (target_or_active w target) ≫= fun index =>
  (if (length (w_panes w) =? 1)%nat
   then op_lift (Err (invalid_state "cannot remove the final pane through Window::kill_pane"))
   else op_lift (Ok tt)) ≫= fun _ =>
  op_lift (index_or_panic (w_panes w) (w_active_pane_index w)) ≫= fun active =>
  op_lift (index_or_panic (w_panes w) index) ≫= fun removed =>
  op_modify (fun w => set_panes w (remove_at index (w_panes w))) ≫= fun _ =>
  op_step (fun w =>
     let '(w, found) :=
       if p_active removed then most_recent_surviving_pane_index w
       else (w, position_of_id (w_panes w) (p_id active)) in
     (w, Ok (default (Nat.min index (length (w_panes w) - 1)) found))) ≫= fun next_active =>
  op_modify reindex_panes ≫= fun _ =>
  reflow_after_pane_removal index (p_size removed) ≫= fun _ =>
  op_modify (fun w => retain_valid_zoom (set_active_pane_index_without_history next_active w))
    ≫= fun _ =>
  op_lift (Ok removed).

(** ** Moving panes between slots *)

(** A pane that takes over another slot: it keeps its identity and takes the
    slot's index, size and active flag. *)
Definition into_slot (slot : Pane) (p : Pane) : Pane :=
  pane_set_active (p_active slot) (pane_set_size (p_size slot) (pane_set_index (p_index slot) p)).

Definition position_active (w : Window) : nat :=
  default (Nat.min (w_active_pane_index w) (length (w_panes w) - 1))
    (position p_active (w_panes w)).

Definition rotate_left1 {A} (l : list A) : list A :=
  match l with [] => [] | x :: l => l ++ [x] end.
Definition rotate_right1 {A} (l : list A) : list A :=
  match last l with Some x => x :: take (length l - 1) l | None => l end.

Definition rotate_panes (reverse : bool) (w : Window) : Window :=
  if (length (w_panes w) <? 2)%nat then w else
  let slots := w_panes w in
  let rotated := if reverse then rotate_right1 slots else rotate_left1 slots in
  let rotated := imap (fun index '(slot, p) =>
                   pane_set_active (p_active slot)
                     (pane_set_size (p_size slot) (pane_set_index index p))) (zip slots rotated) in
  let w := set_panes w rotated in
  let w := set_active w (position_active w) in
  refresh_pane_geometries (retain_valid_zoom w).

Definition swap_pane_indices (first_index second_index : nat) : method unit := fun w =>
  if (first_index =? second_index)%nat then (w, Ok tt) else
  match w_panes w !! first_index, w_panes w !! second_index with
  | Some first_slot, Some second_slot =>
      let w := set_panes w (<[second_index := into_slot second_slot first_slot]>
                              (<[first_index := into_slot first_slot second_slot]> (w_panes w))) in
      let w := set_active w (position_active w) in
      (retain_valid_zoom w, Ok tt)
  | _, _ => (w, Panic)
  end.

Definition swap_panes (first : option string) (second : string) : method unit :=
  op_get id ≫= fun w =>
  op_lift (pane_index w first) ≫= fun first_index =>
  op_lift (pane_index w (Some second)) ≫= fun second_index =>
  swap_pane_indices first_index second_index.

Definition swap_panes_between (first : Window) (first_index : nat) (second : Window)
    (second_index : nat) : outcome MuxError (Window * Window) :=
  index_or_panic (w_panes first) first_index ≫= fun first_slot =>
  index_or_panic (w_panes second) second_index ≫= fun second_slot =>
  let place w i slot p := refresh_pane_geometries (reindex_panes
                            (set_panes w (<[i := into_slot slot p]> (w_panes w)))) in
  Ok (place first first_index first_slot second_slot,
      place second second_index second_slot first_slot).

(** ** Sizes *)

Definition validate_resize (w : Window) (size : Size) : result unit :=
  if (columns size =? 0) || (rows size =? 0)
  then Err (invalid_args "window size must be positive non-zero cells") else
  Size_validate size ≫= fun _ =>
  let minimum := minimum_size (w_layout_root w) in
  if (columns size <? columns minimum) || (rows size <? rows minimum)
  then Err (invalid_args ("window size " +:+ pretty (columns size) +:+ "x" +:+ pretty (rows size)
              +:+ " is smaller than layout minimum " +:+ pretty (columns minimum) +:+ "x"
              +:+ pretty (rows minimum)))
  else Ok tt.

Definition resize_window (size : Size) : method unit :=
  op_get id ≫= fun w =>
  op_lift (validate_resize w size) ≫= fun _ =>
  op_modify (fun w => set_size w size) ≫= fun _ =>
  op_step (fun w =>
    if layout_policy_rebalances w then apply_layout_policy w
    else (refresh_pane_geometries (set_panes w (resize_panes (w_layout_root w) (w_panes w) size)),
          Ok tt)).

Definition resize_pane_at_index (index : nat) (size : Size) : method Pane :=
  op_lift (validate_pane_size size) ≫= fun _ =>
  op_step (fun w =>
    match w_panes w !! index with
    | None => (w, Panic)
    | Some p =>
        (refresh_pane_geometries (set_panes w (<[index := pane_set_size size p]> (w_panes w))),
         Ok (pane_set_size size p))
    end).

Definition resize_active_pane (size : Size) : method unit :=
  op_get w_active_pane_index ≫= fun index =>
  resize_pane_at_index index size ≫= fun _ => op_lift (Ok tt).

Definition resize_pane (target : option string) (size : Size) : method Pane :=
  op_get id ≫= fun w =>
  op_lift (target_or_active w target) ≫= fun index => resize_pane_at_index index size.

Definition size_from_spec (w : Window) (index : nat) (spec : PaneSizeSpec) : result Size :=
  ok_or (w_panes w !! index) (invalid_state "pane index is outside the window") ≫= fun p =>
  resize_pane_size (w_size w) (p_size p) spec.

Definition resolve_pane_size_spec (w : Window) (target : option string) (spec : PaneSizeSpec)
    : result Size :=
  pane_index w target ≫= fun index => size_from_spec w index spec.

Definition resize_pane_with_spec (target : option string) (spec : PaneSizeSpec) : method Pane :=
  op_get id ≫= fun w =>
  op_lift (pane_index w target) ≫= fun index =>
  op_lift (size_from_spec w index spec) ≫= fun size => resize_pane_at_index index size.

Definition pane_geometries_for_size (w : Window) (size : Size) : list PaneGeometry :=
  pane_geometries (w_layout_root w) (resize_panes (w_layout_root w) (w_panes w) size).

(** ** Per-client navigation *)

Definition client_navigation_state (w : Window)
    : option PaneId * option PaneId * list PaneId * option PaneId :=
  (p_id <$> w_panes w !! w_active_pane_index w,
   p_id <$> (w_last_active_pane_index w ≫= fun i => w_panes w !! i),
   w_pane_focus_history w, w_zoomed_pane_id w).

Definition apply_client_navigation_state (active last : option PaneId) (history : list PaneId)
    (zoomed : option PaneId) (w : Window) : Window :=
  match w_panes w with
  | [] => w
  | _ =>
      let active_index := default 0%nat (active ≫= position_of_id (w_panes w)) in
      let w := set_active_pane_index_without_history active_index w in
      let w := set_last w (last ≫= position_of_id (w_panes w)) in
      let w := set_history w (List.filter (has_pane_id (w_panes w)) history) in
      let w := prune_pane_focus_history w in
      set_zoomed w (zoomed ≫= fun id => if has_pane_id (w_panes w) id then Some id else None)
  end.

(** ** Names *)

Definition title_uses_active_pane (w : Window) : bool :=
  negb (WindowNameSource_is_explicit (w_name_source w))
  && (str_is_empty (trim (w_name w)) || String.eqb (w_name w) (usize_to_string (w_index w))
      || String.eqb (w_name w) "shell").

Definition active_pane (w : Window) : outcome MuxError Pane :=
  index_or_panic (w_panes w) (w_active_pane_index w).

Definition title (w : Window) : outcome MuxError string :=
  if title_uses_active_pane w then p_title <$> active_pane w else Ok (w_name w).

Definition rename_explicit (name : string) (w : Window) : Window := set_name w name NameExplicit.
Definition rename_generated (name : string) (w : Window) : Window := set_name w name NameGenerated.
Definition mark_name_generated (w : Window) : Window := set_name w (w_name w) NameGenerated.
Definition rename (name : string) (w : Window) : Window := rename_explicit name w.
End Win.
