(* ===== verification/PolicyLayouts.v ===== *)
(** * Layouts chosen by a policy

    [Window::apply_layout_policy] keeps every pane, gives the window a tree
    over exactly its slots, never indexes out of range, and fills the window
    whenever there is a cell for every pane. *)

From S2P Require Import Prelude RustStr Ids LayoutTypes Sizing LayoutTree Tiling TreeEdits WindowOps.
Import Node Win.
Local Open Scope Z_scope.

(** A pane with its size forgotten: what layout changes leave alone. *)
Definition unsized (p : Pane) : Pane := pane_set_size (mkSize 0 0) p.

Lemma unsized_set s p : unsized (pane_set_size s p) = unsized p.
Proof. by destruct p. Qed.

Lemma same_unsized slots panes panes' :
  same_but_sizes slots panes panes' -> unsized <$> panes' = unsized <$> panes.
Proof.
  intros (Hl & _ & H). apply list_eq. intros i. rewrite !list_lookup_fmap.
  destruct (panes !! i) as [p|] eqn:Hp.
  - destruct (H i p Hp) as [s ->]. simpl. by rewrite unsized_set.
  - apply lookup_ge_None in Hp. by rewrite (proj2 (lookup_ge_None panes' i)) by lia.
Qed.

Lemma unsized_insert (panes : list Pane) i p s :
  panes !! i = Some p -> unsized <$> <[i := pane_set_size s p]> panes = unsized <$> panes.
Proof.
  intros Hp. rewrite list_fmap_insert, unsized_set. apply list_insert_id.
  by rewrite list_lookup_fmap, Hp.
Qed.

Lemma unsized_length (panes panes' : list Pane) :
  unsized <$> panes' = unsized <$> panes -> length panes' = length panes.
Proof. intros H%(f_equal length). by rewrite !length_fmap in H. Qed.

Lemma size_at_insert_eq (panes : list Pane) i p s :
  panes !! i = Some p -> size_at (<[i := pane_set_size s p]> panes) i = Some s.
Proof. intros Hp. unfold size_at. by rewrite list_lookup_insert_eq by (by eapply lookup_lt_Some). Qed.

Lemma size_at_insert_ne (panes : list Pane) i j p :
  i <> j -> size_at (<[i := p]> panes) j = size_at panes j.
Proof. intros Hij. unfold size_at. by rewrite list_lookup_insert_ne. Qed.

Lemma panes_u16_insert panes i p s :
  panes_u16 panes -> u16_size s -> panes_u16 (<[i := pane_set_size s p]> panes).
Proof. intros Hp Hs. by apply Forall_insert. Qed.

(** ** Flat layouts *)

Definition sized (f : Z -> Size) (panes : list Pane) (shares : list Z) : list Pane :=
  zip_with (fun p x => pane_set_size (f x) p) panes shares ++ drop (length shares) panes.

Section Flat.
Context (panes : list Pane) (shares : list Z) (f : Z -> Size).
Hypothesis Hlen : length shares = length panes.

Lemma length_sized : length (sized f panes shares) = length panes.
Proof. unfold sized. rewrite length_app, length_zip_with, length_drop. lia. Qed.

Lemma sized_lookup i p x :
  panes !! i = Some p -> shares !! i = Some x ->
  sized f panes shares !! i = Some (pane_set_size (f x) p).
Proof.
  intros Hp Hx. unfold sized. rewrite lookup_app_l.
  - by rewrite lookup_zip_with, Hp; simpl; rewrite Hx.
  - apply lookup_lt_Some in Hp. rewrite length_zip_with. lia.
Qed.

Lemma sized_unsized : unsized <$> sized f panes shares = unsized <$> panes.
Proof.
  apply list_eq_same_length with (length panes);
    [by rewrite length_fmap|by rewrite length_fmap, length_sized|].
  intros i p q Hi. rewrite !list_lookup_fmap.
  destruct (lookup_lt_is_Some_2 panes i) as [r Hr]; [done|].
  destruct (lookup_lt_is_Some_2 shares i) as [x Hx]; [lia|].
  rewrite (sized_lookup i r x), Hr by done. simpl. rewrite unsized_set. congruence.
Qed.

Lemma sized_u16 : Forall (fun x => u16_size (f x)) shares -> panes_u16 (sized f panes shares).
Proof.
  intros Hs. unfold sized. rewrite Hlen, drop_all, app_nil_r.
  apply Forall_lookup. intros i p. rewrite lookup_zip_with.
  destruct (panes !! i); simpl; [|done]. destruct (shares !! i) eqn:Hx; simpl; [|done].
  intros [= <-]. simpl. by eapply Forall_lookup_1 in Hs.
Qed.

Lemma flat_exact d s :
  panes <> [] -> f = child_size d s -> Forall (fun x => 1 <= x) shares ->
  sum_Z shares = axis_extent d s -> 1 <= columns s -> 1 <= rows s ->
  exact (sized f panes shares) (flat d (length (sized f panes shares))) s.
Proof.
  intros Hne Hf Hpos Hsum Hc Hr. rewrite length_sized.
  assert (Forall2 (fun c w => exact (sized f panes shares) c (child_size d s w))
            (single_pane <$> seq 0 (length panes)) shares) as H2.
  { apply Forall2_same_length_lookup_2; [by rewrite length_fmap, length_seq|].
    intros i c w Hi Hw.
    rewrite list_lookup_fmap in Hi.
    destruct (seq 0 (length panes) !! i) as [j|] eqn:Hj; [|done]. injection Hi as <-.
    apply lookup_seq in Hj as [-> Hj].
    destruct (lookup_lt_is_Some_2 panes i) as [p Hp]; [lia|].
    exists (pane_set_size (f w) p). rewrite Nat.add_0_l, (sized_lookup i p w) by done.
    rewrite Forall_lookup in Hpos. specialize (Hpos i w Hw).
    split; [done|]. split; [by subst f|]. destruct d; simpl; lia. }
  unfold flat. destruct (length panes) as [|[|m]] eqn:Hm.
  - by destruct panes.
  - destruct shares as [|x [|? ?]]; try done. simpl in H2. apply Forall2_cons in H2 as [Hx _].
    simpl in Hsum. simpl. replace s with (child_size d s x); [done|].
    destruct s, d; simpl in *; f_equal; lia.
  - rewrite (proj2 (Nat.leb_gt _ _)) by lia. apply exact_split. split; [done|]. by exists shares.
Qed.
End Flat.

(** ** The even grid *)

Lemma div_ceil_bounds a b :
  (1 <= b)%nat -> (b * div_ceil a b < a + b)%nat /\ (a <= b * div_ceil a b)%nat.
Proof.
  intros Hb. split; [|by apply div_ceil_cover]. unfold div_ceil.
  pose proof (Nat.mul_div_le (a + b - 1) b ltac:(lia)). lia.
Qed.

(** Taking a fair share of [rem] panes for one of [r] rows leaves a fair load
    for the other rows. *)
Lemma fair_share rem r c :
  (1 <= r)%nat -> (r <= rem)%nat -> (rem <= r * c)%nat ->
  let k := div_ceil rem r in
  (1 <= k <= c)%nat /\ (k <= rem)%nat /\ (r - 1 <= rem - k)%nat /\ (rem - k <= (r - 1) * c)%nat
  /\ (r = 1%nat -> k = rem).
Proof.
  intros Hr Hrem Hc k. pose proof (div_ceil_bounds rem r Hr) as [H1 H2]. fold k in H1, H2.
  assert (1 <= k)%nat by (destruct k; nia). assert (k <= c)%nat by nia.
  assert (k <= rem)%nat by nia.
  repeat split; try done; try nia.
Qed.

Section GridRow.
Context (rows : Z).

(** One row: [length widths] panes from slot [k] on. *)
Lemma place_grid_row_spec widths : forall k panes children,
  (k + length widths <= length panes)%nat ->
  exists panes', place_grid_row rows widths k panes children
    = Ok ((k + length widths)%nat, panes', children ++ (single_pane <$> seq k (length widths)))
  /\ unsized <$> panes' = unsized <$> panes
  /\ (forall i x, widths !! i = Some x -> size_at panes' (k + i) = Some (mkSize x rows))
  /\ (forall j, (j < k \/ k + length widths <= j)%nat -> size_at panes' j = size_at panes j)
  /\ (panes_u16 panes -> Forall (fun x => u16_size (mkSize x rows)) widths -> panes_u16 panes').
Proof.
  induction widths as [|x widths IH]; intros k panes children Hk; simpl in *.
  - exists panes. rewrite Nat.add_0_r, app_nil_r. repeat split; try done.
  - destruct (lookup_lt_is_Some_2 panes k) as [p Hp]; [lia|]. unfold index_or_panic. rewrite Hp.
    cbn [mbind outcome_bind].
    destruct (IH (S k) (<[k := pane_set_size (mkSize x rows) p]> panes) (children ++ [single_pane k]))
      as (panes' & -> & Hu & Hs & Ho & H16); [rewrite length_insert; lia|].
    exists panes'. split; [|split; [|split; [|split]]].
    + rewrite <- app_assoc, Nat.add_succ_r. done.
    + by rewrite Hu, unsized_insert.
    + intros [|i] y Hy; simpl in Hy.
      * injection Hy as <-. rewrite Nat.add_0_r, Ho by lia. by apply size_at_insert_eq.
      * rewrite Nat.add_succ_r. by apply (Hs i y).
    + intros j Hj. rewrite Ho by lia. apply size_at_insert_ne. lia.
    + intros Hp16 Hw. apply Forall_cons in Hw as [Hx Hw]. apply H16; [by apply panes_u16_insert|done].
Qed.

Definition row_node (k len : nat) : LayoutNode := collapse Vertical (single_pane <$> seq k len).

Lemma row_node_leaves k len : leaves (row_node k len) = seq k len.
Proof. unfold row_node. rewrite collapse_leaves. apply leaves_singles. Qed.

Lemma row_node_arity k len : (1 <= len)%nat -> arity_ok (row_node k len) = true.
Proof.
  intros Hl. apply collapse_arity; [by destruct len; [lia|]|].
  apply Forall_fmap, Forall_true. done.
Qed.

Lemma row_node_exact panes k widths s :
  rows = LayoutTypes.rows s -> widths <> [] -> 1 <= rows -> Forall (fun x => 1 <= x) widths ->
  sum_Z widths = columns s ->
  (forall i x, widths !! i = Some x -> size_at panes (k + i) = Some (mkSize x rows)) ->
  exact panes (row_node k (length widths)) s.
Proof.
  intros -> Hne Hr Hpos Hsum Hs. apply (collapse_exact _ _ _ _ widths); [by destruct widths|done|].
  apply Forall2_same_length_lookup_2; [by rewrite length_fmap, length_seq|].
  intros i c w Hi Hw. rewrite list_lookup_fmap in Hi.
  destruct (seq k (length widths) !! i) as [j|] eqn:Hj; [|done]. injection Hi as <-.
  apply lookup_seq in Hj as [-> Hj]. specialize (Hs i w Hw). unfold size_at in Hs.
  destruct (panes !! (k + i)%nat) as [p|] eqn:Hp; [|done]. injection Hs as Hs.
  exists p. rewrite Forall_lookup in Hpos. specialize (Hpos i w Hw).
  repeat split; simpl; done || lia.
Qed.
End GridRow.

Section Grid.
Context (size : Size) (pane_count column_count row_count : nat).
Hypothesis Hsize : u16_size size.

(** The rows still to place: at least one pane and at most [column_count]
    panes for each. *)
Definition load_ok (heights : nat) (rem : nat) : Prop :=
  (heights <= rem <= heights * column_count)%nat.

Lemma widths_u16 n h : in_u16 h ->
  Forall (fun x => u16_size (mkSize x h)) (split_dimension_evenly (columns size) n).
Proof.
  intros Hh. eapply Forall_impl; [apply split_dimension_evenly_pos, Hsize|].
  intros x [H1 H2]. split; [simpl; solve_int|done].
Qed.

Lemma widths_ge1 n : Forall (fun x => 1 <= x) (split_dimension_evenly (columns size) n).
Proof. eapply Forall_impl; [apply split_dimension_evenly_pos, Hsize|]. simpl. lia. Qed.

Lemma place_grid_rows_spec heights : forall ri k panes nodes,
  length panes = pane_count -> (row_count - ri = length heights)%nat -> (k <= pane_count)%nat ->
  load_ok (length heights) (pane_count - k) -> Forall (fun h => 1 <= h <= u16_MAX) heights ->
  exists panes' new,
    place_grid_rows size pane_count column_count row_count heights ri k panes nodes
      = Ok (panes', nodes ++ new)
    /\ unsized <$> panes' = unsized <$> panes
    /\ leaves_of new = seq k (pane_count - k) /\ Forall (fun c => arity_ok c = true) new
    /\ length new = length heights
    /\ (forall j, (j < k)%nat -> size_at panes' j = size_at panes j)
    /\ (panes_u16 panes -> panes_u16 panes')
    /\ (Z.of_nat column_count <= columns size ->
        Forall2 (fun c h => exact panes' c (mkSize (columns size) h)) new heights).
Proof.
  induction heights as [|h heights IH]; intros ri k panes nodes Hlen Hri Hk [Hl1 Hl2] Hh.
  - exists panes, []. simpl in *. rewrite app_nil_r. replace (pane_count - k)%nat with 0%nat by lia.
    repeat split; try done.
  - simpl in Hri, Hl1, Hl2. apply Forall_cons in Hh as [Hh1 Hh].
    cbn [place_grid_rows]. rewrite (proj2 (Nat.leb_gt _ _)) by lia.
    replace (Nat.max (row_count - ri) 1) with (S (length heights)) by lia.
    set (rem := (pane_count - k)%nat) in *.
    destruct (fair_share rem (S (length heights)) column_count) as (Hs1 & Hs2 & Hs3 & Hs4 & Hs5);
      [lia..|]. rewrite (Nat.min_l _ column_count) by lia.
    set (n := div_ceil rem (S (length heights))) in *.
    set (widths := split_dimension_evenly (columns size) n).
    assert (length widths = n) as Hwl.
    { unfold widths. rewrite length_split_dimension_evenly. lia. }
    destruct (place_grid_row_spec h widths k panes []) as (panes1 & -> & Hu1 & Hsz1 & Ho1 & H161);
      [rewrite Hlen; lia|].
    cbn [mbind outcome_bind]. rewrite app_nil_l, Hwl in *.
    pose proof (unsized_length _ _ Hu1) as Hlen1.
    destruct (IH (S ri) (k + n)%nat panes1 (nodes ++ [row_node k n]))
      as (panes' & new & Heq & Hu & Hlv & Har & Hln & Ho & H16 & Hex);
      [congruence|lia|lia|unfold load_ok in *; lia|done|].
    exists panes', (row_node k n :: new).
    split; [|split; [|split; [|split; [|split; [|split; [|split]]]]]].
    + transitivity (Ok (E:=MuxError) (panes', (nodes ++ [row_node k n]) ++ new)).
      * rewrite <- Heq. f_equal.
      * by rewrite <- app_assoc.
    + by rewrite Hu, Hu1.
    + rewrite leaves_of_cons, row_node_leaves, Hlv. fold rem.
      replace rem with (n + (pane_count - (k + n)))%nat by lia. by rewrite seq_app.
    + constructor; [apply row_node_arity; lia|done].
    + simpl. by rewrite Hln.
    + intros j Hj. rewrite Ho by lia. apply Ho1. lia.
    + intros Hp. apply H16, H161; [done|]. apply widths_u16. solve_int.
    + intros Hcc. constructor; [|by apply Hex].
      apply (exact_frame panes1).
      * intros i Hi. rewrite row_node_leaves in Hi. apply elem_of_seq in Hi. apply Ho. lia.
      * rewrite <- Hwl. eapply (row_node_exact h); try done.
        -- intros Hn. rewrite Hn in Hwl. simpl in Hwl. lia.
        -- simpl. lia.
        -- apply widths_ge1.
        -- unfold widths. simpl. apply split_dimension_evenly_sum; [apply Hsize|lia].
Qed.
End Grid.

(** ** Applying the policy *)

Lemma nonempty_match {A B} (l : list A) (a b : B) :
  l <> [] -> match l with [] => a | _ :: _ => b end = b.
Proof. by destruct l. Qed.


(** Whether the policy has a cell for every pane. *)
Definition policy_fits (policy : LayoutPolicy) (size : Size) (n : nat) : bool :=
  match policy with
  | Tiled | EvenVertical => Z.of_nat n <=? columns size
  | EvenHorizontal => Z.of_nat n <=? rows size
  | EvenGrid => let '(c, r) := even_grid_dimensions size n in
                (Z.of_nat c <=? columns size) && (Z.of_nat r <=? rows size)
  end.

(** A window after a layout change. *)
Definition relaid (w : Window) (panes : list Pane) (root : LayoutNode) : Window :=
  set_geometries (set_root (set_panes w panes) root) (pane_geometries root panes).

Record layout_change (w : Window) (panes : list Pane) (root : LayoutNode) : Prop := {
  lc_unsized : unsized <$> panes = unsized <$> w_panes w;
  lc_u16 : panes_u16 panes;
  lc_tree : tree_ok root (length panes) }.

Section ApplyPolicy.
Context (w : Window).
Hypotheses (Hne : w_panes w <> []) (Hsize : u16_size (w_size w)) (Hp : panes_u16 (w_panes w)).
Hypothesis (Hpos : 1 <= columns (w_size w) /\ 1 <= rows (w_size w)).
Local Abbreviation n := (length (w_panes w)).

Lemma pane_count_pos : (1 <= n)%nat.
Proof. destruct (w_panes w); [done|simpl; lia]. Qed.

Lemma even_grid_spec : exists panes root,
  apply_even_grid_layout w = (relaid w panes root, Ok tt) /\ layout_change w panes root
  /\ (policy_fits EvenGrid (w_size w) n = true -> exact panes root (w_size w)).
Proof.
  pose proof pane_count_pos as Hn. unfold apply_even_grid_layout, policy_fits.
  destruct (even_grid_dimensions (w_size w) n) as [c r] eqn:Hg.
  pose proof (even_grid_dimensions_spec _ _ _ _ Hg) as (Hc & Hr & _).
  rewrite Nat.max_l in Hc, Hr by lia.
  pose proof (div_ceil_le n c ltac:(lia) ltac:(lia)) as Hrn. rewrite <- Hr in Hrn.
  pose proof (div_ceil_cover n c ltac:(lia)) as Hcov. rewrite <- Hr in Hcov.
  set (heights := split_dimension_evenly (rows (w_size w)) r).
  assert (length heights = r) as Hhl.
  { unfold heights. rewrite length_split_dimension_evenly. lia. }
  pose proof (split_dimension_evenly_pos (rows (w_size w)) r (proj2 Hsize)) as Hhp.
  destruct (place_grid_rows_spec (w_size w) n c r Hsize heights 0 0 (w_panes w) [])
    as (panes & new & -> & Hu & Hlv & Har & Hln & _ & H16 & Hex); try done; try lia.
  { unfold load_ok. rewrite Hhl. lia. }
  rewrite app_nil_l. fold (collapse Horizontal new).
  assert (new <> []) as Hnn by (intros ->; simpl in Hln; lia).
  exists panes, (collapse Horizontal new). split; [done|]. split; [split; [done|by apply H16|]|].
  - rewrite (unsized_length _ _ Hu). split; [|by apply collapse_arity].
    rewrite collapse_leaves, Hlv. by rewrite Nat.sub_0_r.
  - intros Hf. bool_to_prop. apply (collapse_exact _ _ _ _ heights); [done| |].
    + simpl. apply split_dimension_evenly_sum; [apply Hsize|]. lia.
    + by apply Hex.
Qed.

(** The flat policies. *)
Lemma flat_policy_spec d :
  let shares := split_dimension_evenly (axis_extent d (w_size w)) n in
  let panes := sized (child_size d (w_size w)) (w_panes w) shares in
  layout_change w panes (flat d (length panes))
  /\ (Z.of_nat n <= axis_extent d (w_size w) ->
      exact panes (flat d (length panes)) (w_size w)).
Proof.
  intros shares panes. pose proof pane_count_pos as Hn.
  pose proof (axis_extent_u16 d _ Hsize) as Hax.
  assert (length shares = n) as Hl by (unfold shares; rewrite length_split_dimension_evenly; lia).
  pose proof (split_dimension_evenly_pos _ n Hax) as Hsp. fold shares in Hsp.
  split; [split|].
  - by apply sized_unsized.
  - apply sized_u16; [done|]. eapply Forall_impl; [exact Hsp|]. intros x Hx.
    apply child_size_u16; [done|]. simpl in Hx. solve_int.
  - apply flat_tree_ok. unfold panes. rewrite length_sized by done. lia.
  - intros Hf. apply flat_exact; try done; try lia.
    + eapply Forall_impl; [exact Hsp|]. simpl. lia.
    + apply split_dimension_evenly_sum; [done|lia].
Qed.

Lemma apply_layout_policy_spec : exists panes root,
  apply_layout_policy w = (relaid w panes root, Ok tt) /\ layout_change w panes root
  /\ (policy_fits (w_layout_policy w) (w_size w) n = true -> exact panes root (w_size w)).
Proof.
  pose proof (flat_policy_spec Vertical) as [HV HVe].
  pose proof (flat_policy_spec Horizontal) as [HH HHe].
  unfold apply_layout_policy. rewrite (nonempty_match (w_panes w)) by done.
  destruct (w_layout_policy w).
  1,2: eexists _, _; split; [reflexivity|]; split; [exact HV|];
    intros Hf; simpl in Hf; bool_to_prop; by apply HVe.
  - eexists _, _. split; [reflexivity|]. split; [exact HH|].
    intros Hf. simpl in Hf. bool_to_prop. by apply HHe.
  - apply even_grid_spec.
Qed.
End ApplyPolicy.
