(* ===== verification/WindowInv.v ===== *)
(** * The window invariant

    What every window operation relies on and preserves: slots are numbered
    by position, exactly the active slot is marked active, identities are
    distinct, the split tree mentions each slot once, the focus history is a
    bounded list of distinct live panes, and a zoomed pane is a pane of the
    window.  The lemmas here are shared by the operations of [WindowSteps] and
    by the layout theorems of [WindowLayout]. *)

From S2P Require Import Prelude RustStr Ids LayoutTypes Sizing LayoutTree Tiling TreeEdits WindowOps PolicyLayouts.
Import Node Win.
Local Open Scope Z_scope.

Definition ids_of (panes : list Pane) : list PaneId := p_id <$> panes.

(** ** The invariant *)

(** The part of the invariant that holds also between the steps of an
    operation. *)
Record window_core (w : Window) : Prop := {
  wc_index : forall i p, w_panes w !! i = Some p -> p_index p = i;
  wc_ids : NoDup (ids_of (w_panes w));
  wc_u16 : panes_u16 (w_panes w);
  wc_size : valid_size (w_size w);
  wc_bound : (length (w_pane_focus_history w) <= 10)%nat }.

(** Exactly the active slot is marked and the history holds live panes. *)
Record focus_ok (w : Window) : Prop := {
  fo_lt : (w_active_pane_index w < length (w_panes w))%nat;
  fo_active : forall i p, w_panes w !! i = Some p -> p_active p = (i =? w_active_pane_index w)%nat;
  fo_distinct : NoDup (w_pane_focus_history w);
  fo_history : forall id, id ∈ w_pane_focus_history w -> id ∈ ids_of (w_panes w) }.

Definition zoom_ok (w : Window) : Prop :=
  forall id, w_zoomed_pane_id w = Some id -> id ∈ ids_of (w_panes w).

Definition root_ok (w : Window) : Prop := tree_ok (w_layout_root w) (length (w_panes w)).

Record window_ok (w : Window) : Prop := {
  wo_core : window_core w;
  wo_root : root_ok w;
  wo_focus : focus_ok w;
  wo_zoom : zoom_ok w }.

(** The stored rectangles are the ones of the tree. *)
Definition synced (w : Window) : Prop :=
  w_pane_geometries w = pane_geometries (w_layout_root w) (w_panes w).

(** The stored rectangles belong to the slots, one each. *)
Definition indexed (w : Window) : Prop :=
  g_index <$> w_pane_geometries w ≡ₚ seq 0 (length (w_panes w)).

(** The panes fill the window. *)
Definition filled (w : Window) : Prop := exact (w_panes w) (w_layout_root w) (w_size w).

Lemma valid_size_u16 s : valid_size s -> u16_size s.
Proof. intros (Hc & Hr & _). split; solve_int. Qed.

Lemma window_nonempty w : window_ok w -> w_panes w <> [].
Proof. intros H. pose proof (fo_lt w (wo_focus w H)). by destruct (w_panes w); [simpl in *; lia|]. Qed.

Lemma synced_indexed w : root_ok w -> synced w -> indexed w.
Proof.
  intros Hr Hs. unfold indexed. rewrite Hs. unfold pane_geometries.
  rewrite (fmap_Permutation _ _ _ (sort_by_key_perm _ _)).
  rewrite collect_geometries_indices; [apply Hr|].
  apply Forall_forall. intros i Hi. by apply (tree_ok_elem _ _ _ Hr).
Qed.

(** The rectangles of a synced window that is filled tile it. *)
Lemma filled_tiles w :
  valid_size (w_size w) -> synced w -> filled w -> tiles (w_pane_geometries w) 0 0 (w_size w).
Proof.
  intros (Hc & Hr & _) -> Hf. apply pane_geometries_tile; [done|solve_int..].
Qed.

(** ** Membership tests of the code *)

Lemma has_pane_id_spec panes id : has_pane_id panes id = true <-> id ∈ ids_of panes.
Proof.
  unfold has_pane_id, ids_of. rewrite existsb_exists, list_elem_of_fmap. split.
  - intros (p & Hp & He%String.eqb_eq). exists p. by rewrite list_elem_of_In.
  - intros (p & -> & Hp). exists p. by rewrite <- list_elem_of_In, String.eqb_refl.
Qed.

Lemma position_of_id_lt panes id i : position_of_id panes id = Some i -> (i < length panes)%nat.
Proof. apply position_lt. Qed.

Lemma position_of_id_lookup panes id i :
  position_of_id panes id = Some i -> ids_of panes !! i = Some id.
Proof.
  intros (p & Hp & He%String.eqb_eq & _)%position_Some. unfold ids_of.
  rewrite list_lookup_fmap, Hp. simpl. by f_equal.
Qed.

Lemma position_of_id_is_Some panes id : id ∈ ids_of panes -> is_Some (position_of_id panes id).
Proof.
  intros (p & -> & Hp)%list_elem_of_fmap. eapply position_is_Some; [exact Hp|]. apply String.eqb_refl.
Qed.

(** ** Focus history *)

Lemma prune_spec panes history : forall retained,
  NoDup retained -> Forall (fun id => id ∈ ids_of panes) retained ->
  NoDup (prune panes history retained)
  /\ Forall (fun id => id ∈ ids_of panes) (prune panes history retained)
  /\ (length (prune panes history retained) <= length retained + length history)%nat
  /\ (forall id, id ∈ prune panes history retained <->
        id ∈ retained \/ (id ∈ history /\ id ∈ ids_of panes)).
Proof.
  induction history as [|id history IH]; intros retained Hnd Hf; simpl.
  - repeat split; try done; [lia|set_solver|set_solver].
  - destruct (has_pane_id panes id && negb (existsb (fun e => String.eqb e id) retained)) eqn:Hc.
    + apply andb_true_iff in Hc as [Hp%has_pane_id_spec Hn%negb_true_iff].
      assert (id ∉ retained) as Hni.
      { intros Hi. apply not_true_iff_false in Hn. apply Hn, existsb_exists.
        exists id. by rewrite <- list_elem_of_In, String.eqb_refl. }
      destruct (IH (retained ++ [id])) as (H1 & H2 & H3 & H4).
      * apply NoDup_app. split; [done|]. split; [set_solver|]. apply NoDup_singleton.
      * apply Forall_app. by split; [|constructor].
      * rewrite length_app in H3. simpl in H3. repeat split; try done; [lia|..]; set_solver.
    + destruct (IH retained Hnd Hf) as (H1 & H2 & H3 & H4).
      repeat split; try done; [lia|set_solver|].
      intros [Hr|[[->|Hh]%elem_of_cons Hi]]; [set_solver| |set_solver].
      apply H4. left. apply andb_false_iff in Hc as [Hc|Hc].
      * apply has_pane_id_spec in Hi. congruence.
      * apply negb_false_iff, existsb_exists in Hc as (e & He & ->%String.eqb_eq).
        by apply list_elem_of_In.
Qed.

Lemma prune_nil_spec panes history :
  NoDup (prune panes history [])
  /\ (forall id, id ∈ prune panes history [] -> id ∈ ids_of panes)
  /\ (length (prune panes history []) <= length history)%nat.
Proof.
  destruct (prune_spec panes history []) as (H1 & H2 & H3 & _); [constructor|done|].
  rewrite Forall_forall in H2. by repeat split.
Qed.

(** Pruning a history of distinct entries keeps the live ones. *)
Lemma prune_filter panes history : forall retained,
  NoDup (retained ++ history) ->
  prune panes history retained = retained ++ filter (fun id => id ∈ ids_of panes) history.
Proof.
  induction history as [|id history IH]; intros retained Hnd; simpl; [by rewrite app_nil_r|].
  assert (existsb (fun e => String.eqb e id) retained = false) as ->.
  { apply not_true_iff_false. intros (e & He & ->%String.eqb_eq)%existsb_exists.
    apply list_elem_of_In in He. apply NoDup_app in Hnd as (_ & Hd & _).
    apply (Hd id He). set_solver. }
  rewrite andb_true_r. rewrite filter_cons. destruct (decide (id ∈ ids_of panes)) as [Hi|Hi].
  - rewrite (proj2 (has_pane_id_spec _ _) Hi). rewrite IH; [by rewrite <- app_assoc|by rewrite <- app_assoc].
  - destruct (has_pane_id panes id) eqn:Hh; [by apply has_pane_id_spec in Hh|].
    apply IH. apply NoDup_app in Hnd as (H1 & H2 & H3). apply NoDup_cons in H3 as [_ H3].
    apply NoDup_app. split; [done|]. split; [|done]. intros e He. specialize (H2 e He). set_solver.
Qed.

(** The pane to focus after the active pane is gone. *)
Lemma most_recent_spec w :
  NoDup (w_pane_focus_history w) ->
  (most_recent_surviving_pane_index w).2
  = last (filter (fun id => id ∈ ids_of (w_panes w)) (w_pane_focus_history w))
      ≫= position_of_id (w_panes w).
Proof.
  intros Hnd. unfold most_recent_surviving_pane_index. simpl. rewrite prune_filter by done. simpl.
  set (h := filter _ _).
  assert (Forall (fun id => id ∈ ids_of (w_panes w)) h) as Hf.
  { apply Forall_forall. intros id Hid. by apply list_elem_of_filter in Hid as [? _]. }
  clearbody h. destruct h as [|x h _] using rev_ind; [done|].
  rewrite rev_app_distr, last_snoc. simpl. apply Forall_app in Hf as [_ Hx]. apply Forall_cons in Hx as [Hx _].
  destruct (position_of_id_is_Some _ _ Hx) as [i ->]. done.
Qed.

Lemma record_bounded_focus_spec history id :
  (length history <= 10)%nat ->
  (length (record_bounded_focus history id) <= 10)%nat
  /\ last (record_bounded_focus history id) = Some id
  /\ (NoDup history -> NoDup (record_bounded_focus history id)).
Proof.
  intros Hl. unfold record_bounded_focus.
  set (kept := List.filter (fun e => negb (String.eqb e id)) history).
  assert (length kept <= length history)%nat as Hk by apply List.filter_length_le.
  assert (NoDup history -> NoDup (kept ++ [id])) as Hnd.
  { intros Hn. apply NoDup_app. split; [by apply NoDup_ListNoDup, List.NoDup_filter, NoDup_ListNoDup|].
    split; [|apply NoDup_singleton]. intros e He. apply list_elem_of_In, filter_In in He as [_ He].
    intros ->%list_elem_of_singleton. by rewrite String.eqb_refl in He. }
  destruct (Nat.ltb_spec 10 (length (kept ++ [id]))) as [H|H].
  - unfold remove_at. simpl. destruct kept as [|k kept]; [simpl in H; lia|].
    rewrite length_app in H. simpl in *. split; [rewrite length_drop, length_app; simpl; lia|].
    split; [by rewrite drop_0, last_snoc|]. intros Hn. rewrite drop_0.
    specialize (Hnd Hn). by apply NoDup_cons in Hnd as [_ ?].
  - split; [done|]. split; [by rewrite last_snoc|done].
Qed.

(** ** Layout changes *)

Lemma unsized_lookup (panes panes' : list Pane) i p' :
  unsized <$> panes' = unsized <$> panes -> panes' !! i = Some p' ->
  exists p, panes !! i = Some p /\ p_id p = p_id p' /\ p_index p = p_index p'
            /\ p_active p = p_active p'.
Proof.
  intros H Hp. apply (f_equal (.!! i)) in H. rewrite !list_lookup_fmap, Hp in H. simpl in H.
  destruct (panes !! i) as [p|]; [|done]. exists p. injection H as H1 H2 H3 H4 H5 H6. done.
Qed.

Lemma unsized_ids (panes panes' : list Pane) :
  unsized <$> panes' = unsized <$> panes -> ids_of panes' = ids_of panes.
Proof.
  intros H. unfold ids_of.
  assert (forall l : list Pane, p_id <$> l = p_id <$> (unsized <$> l)) as E.
  { intros l. rewrite <- list_fmap_compose. done. }
  by rewrite (E panes), (E panes'), H.
Qed.

Section Relaid.
Context (w : Window) (panes : list Pane) (root : LayoutNode).
Hypothesis Hlc : layout_change w panes root.

Lemma relaid_core : window_core w -> window_core (relaid w panes root).
Proof.
  intros [Hi Hn Hu Hs Hb]. split; simpl; try done; try apply Hlc.
  - intros i p Hp. destruct (unsized_lookup _ _ _ _ (lc_unsized _ _ _ Hlc) Hp) as (q & Hq & _ & <- & _).
    by apply Hi.
  - by rewrite (unsized_ids _ _ (lc_unsized _ _ _ Hlc)).
Qed.

Lemma relaid_focus : focus_ok w -> focus_ok (relaid w panes root).
Proof.
  intros [Hl Ha Hd Hh]. split; simpl; try done.
  - by rewrite (unsized_length _ _ (lc_unsized _ _ _ Hlc)).
  - intros i p Hp. destruct (unsized_lookup _ _ _ _ (lc_unsized _ _ _ Hlc) Hp) as (q & Hq & _ & _ & <-).
    by apply Ha.
  - by rewrite (unsized_ids _ _ (lc_unsized _ _ _ Hlc)).
Qed.

Lemma relaid_zoom : zoom_ok w -> zoom_ok (relaid w panes root).
Proof. unfold zoom_ok. simpl. by rewrite (unsized_ids _ _ (lc_unsized _ _ _ Hlc)). Qed.

Lemma relaid_ok : window_ok w -> window_ok (relaid w panes root) /\ synced (relaid w panes root).
Proof.
  intros [Hc Ht Hf Hz]. split; [|done]. split;
    [by apply relaid_core|apply Hlc|by apply relaid_focus|by apply relaid_zoom].
Qed.
End Relaid.

(** ** Changing the active slot *)

Section Activate.
Context (w : Window) (index : nat).
Local Abbreviation w' := (set_active_pane_index_without_history index w).

Lemma activate_lookup i p' : w_panes w' !! i = Some p' ->
  exists p, w_panes w !! i = Some p /\ p' = pane_set_active (i =? index)%nat p.
Proof.
  simpl. rewrite list_lookup_imap. destruct (w_panes w !! i) as [p|]; [|done].
  intros [= <-]. eauto.
Qed.

Lemma activate_length : length (w_panes w') = length (w_panes w).
Proof. simpl. by rewrite length_imap. Qed.

Lemma activate_ids : ids_of (w_panes w') = ids_of (w_panes w).
Proof.
  unfold ids_of. simpl. apply list_eq. intros i. rewrite !list_lookup_fmap, list_lookup_imap.
  by destruct (w_panes w !! i).
Qed.

Lemma activate_size_at i : size_at (w_panes w') i = size_at (w_panes w) i.
Proof. unfold size_at. simpl. rewrite list_lookup_imap. by destruct (w_panes w !! i). Qed.

Lemma activate_core : window_core w -> window_core w'.
Proof.
  intros [Hi Hn Hu Hs Hb]. split.
  - intros i p' (p & Hp & ->)%activate_lookup. simpl. by apply Hi.
  - by rewrite activate_ids.
  - unfold panes_u16 in *. rewrite Forall_lookup in *. intros i p' (p & Hp & ->)%activate_lookup.
    by apply (Hu i p).
  - done.
  - simpl. etransitivity; [apply prune_nil_spec|done].
Qed.

Lemma activate_focus : (index < length (w_panes w))%nat -> focus_ok w'.
Proof.
  intros Hlt. destruct (prune_nil_spec (w_panes w') (w_pane_focus_history w)) as (H1 & H2 & _).
  split; [by rewrite activate_length| |done|done].
  intros i p' (p & Hp & ->)%activate_lookup. done.
Qed.

Lemma activate_root : root_ok w -> root_ok w'.
Proof. unfold root_ok. by rewrite activate_length. Qed.

Lemma activate_zoom : zoom_ok w -> zoom_ok w'.
Proof. unfold zoom_ok. by rewrite activate_ids. Qed.

Lemma activate_synced : synced w -> synced w'.
Proof.
  unfold synced. intros H. simpl. rewrite H. symmetry. apply pane_geometries_frame.
  intros i _. apply activate_size_at.
Qed.

Lemma activate_filled : filled w -> filled w'.
Proof. apply exact_frame. intros i _. apply activate_size_at. Qed.

Lemma activate_ok :
  window_core w -> root_ok w -> zoom_ok w -> (index < length (w_panes w))%nat -> window_ok w'.
Proof.
  intros Hc Ht Hz Hl.
  split; [by apply activate_core|by apply activate_root|by apply activate_focus|by apply activate_zoom].
Qed.
End Activate.

(** [set_active_pane_index] is the activation after recording the focus. *)
Definition record_focus (index : nat) (w : Window) : Window :=
  if negb (w_active_pane_index w =? index)%nat then
    match w_panes w !! w_active_pane_index w with
    | Some previous =>
        if p_active previous
        then set_history (set_last w (Some (w_active_pane_index w)))
               (record_bounded_focus (w_pane_focus_history w) (p_id previous))
        else w
    | None => w
    end
  else w.

Lemma set_active_pane_index_unfold index w :
  set_active_pane_index index w = set_active_pane_index_without_history index (record_focus index w).
Proof. done. Qed.

Lemma record_focus_cases index w :
  record_focus index w = w
  \/ exists h, record_focus index w = set_history (set_last w (Some (w_active_pane_index w))) h
     /\ ((length (w_pane_focus_history w) <= 10)%nat -> (length h <= 10)%nat).
Proof.
  unfold record_focus. destruct (negb _); [|by left].
  destruct (w_panes w !! w_active_pane_index w) as [p|]; [|by left].
  destruct (p_active p); [|by left]. right. eexists. split; [done|].
  intros H. by apply record_bounded_focus_spec.
Qed.

Lemma record_focus_same index w :
  w_panes (record_focus index w) = w_panes w /\ w_layout_root (record_focus index w) = w_layout_root w
  /\ w_size (record_focus index w) = w_size w
  /\ w_pane_geometries (record_focus index w) = w_pane_geometries w
  /\ w_layout_policy (record_focus index w) = w_layout_policy w
  /\ w_zoomed_pane_id (record_focus index w) = w_zoomed_pane_id w.
Proof. by destruct (record_focus_cases index w) as [->|(h & -> & _)]. Qed.

Lemma set_active_ok index w :
  window_core w -> root_ok w -> zoom_ok w -> (index < length (w_panes w))%nat ->
  window_ok (set_active_pane_index index w).
Proof.
  intros Hc Ht Hz Hl. rewrite set_active_pane_index_unfold.
  destruct (record_focus_cases index w) as [->|(h & -> & Hh)]; [by apply activate_ok|].
  apply activate_ok; try done. destruct Hc as [Hi Hn Hu Hs Hb]. split; try done. by apply Hh.
Qed.

Lemma set_active_synced index w : synced w -> synced (set_active_pane_index index w).
Proof.
  rewrite set_active_pane_index_unfold. intros H. apply activate_synced.
  destruct (record_focus_same index w) as (Hp & Hr & _ & Hg & _). unfold synced.
  by rewrite Hp, Hr, Hg.
Qed.

Lemma set_active_filled index w : filled w -> filled (set_active_pane_index index w).
Proof.
  rewrite set_active_pane_index_unfold. intros H. apply activate_filled.
  destruct (record_focus_same index w) as (Hp & Hr & Hs & _). unfold filled.
  by rewrite Hp, Hr, Hs.
Qed.

(** ** Zoom *)

Lemma retain_valid_zoom_cases w :
  retain_valid_zoom w = w \/ retain_valid_zoom w = set_zoomed w None.
Proof.
  unfold retain_valid_zoom. destruct (w_zoomed_pane_id w); [|by left].
  destruct (has_pane_id _ _); [by left|by right].
Qed.

Lemma retain_valid_zoom_ok w :
  window_core w -> root_ok w -> focus_ok w -> window_ok (retain_valid_zoom w).
Proof.
  intros Hc Ht Hf. unfold retain_valid_zoom.
  destruct (w_zoomed_pane_id w) as [z|] eqn:Hz.
  - destruct (has_pane_id (w_panes w) z) eqn:Hh.
    + split; try done. intros id Hid. apply has_pane_id_spec. congruence.
    + destruct Hc, Hf. by split.
  - destruct Hc, Hf. split; try done. intros id Hid. congruence.
Qed.

Lemma retain_valid_zoom_synced w : synced w -> synced (retain_valid_zoom w).
Proof. by destruct (retain_valid_zoom_cases w) as [->| ->]. Qed.

Lemma retain_valid_zoom_filled w : filled w -> filled (retain_valid_zoom w).
Proof. by destruct (retain_valid_zoom_cases w) as [->| ->]. Qed.
