(* ===== verification/WindowSteps.v ===== *)
(** * Splitting, inserting and removing panes

    From a well-formed window these operations never panic, leave a
    well-formed window whose stored rectangles are the tree's, and keep the
    panes filling the window (for the even policies: when the policy has a
    cell for every pane).  An operation that fails leaves the window as it
    was. *)

From S2P Require Import Prelude RustStr Ids LayoutTypes Sizing LayoutTree Tiling TreeEdits WindowOps PolicyLayouts WindowInv.
Import Node Win.
Local Open Scope Z_scope.

(** The rebalancing policies need a cell for every pane; the tiled policy
    keeps what the tree gives. *)
Definition rebalance_fits (w : Window) (n : nat) : Prop :=
  layout_policy_rebalances w = true -> policy_fits (w_layout_policy w) (w_size w) n = true.

(** ** Rebalancing *)

Lemma apply_policy_ok w : window_ok w -> exists panes root,
  apply_layout_policy w = (relaid w panes root, Ok tt) /\ layout_change w panes root
  /\ (policy_fits (w_layout_policy w) (w_size w) (length (w_panes w)) = true ->
      exact panes root (w_size w)).
Proof.
  intros Hok. pose proof (wc_size w (wo_core w Hok)) as Hs. apply apply_layout_policy_spec.
  - by apply window_nonempty.
  - by apply valid_size_u16.
  - apply Hok.
  - unfold valid_size in Hs. lia.
Qed.

Lemma refresh_relaid w : refresh_pane_geometries w = relaid w (w_panes w) (w_layout_root w).
Proof. done. Qed.

Lemma rebalance_ok w : window_ok w -> exists panes root,
  rebalance_after_pane_count_change w = (relaid w panes root, Ok tt) /\ layout_change w panes root
  /\ (rebalance_fits w (length (w_panes w)) ->
      (layout_policy_rebalances w = false -> filled w) -> exact panes root (w_size w)).
Proof.
  intros Hok. unfold rebalance_after_pane_count_change, rebalance_fits.
  destruct (layout_policy_rebalances w) eqn:Hr.
  - destruct (apply_policy_ok w Hok) as (panes & root & -> & Hlc & Hf). eauto 10.
  - rewrite refresh_relaid. exists (w_panes w), (w_layout_root w). split; [done|].
    split; [|intros _ H; by apply H]. split; [done|apply Hok|apply Hok].
Qed.

(** ** Inserting a pane *)

Section InsertSplit.
Context (w : Window) (target : nat) (existing : Size) (p : Pane) (d : SplitDirection).
Context (target_pane : Pane).
Hypotheses (Hok : window_ok w) (Ht : w_panes w !! target = Some target_pane).
Hypotheses (Hnew : p_id p ∉ ids_of (w_panes w)).
Hypothesis Hsplit : splits_into d (p_size target_pane) existing (p_size p).
Hypothesis Hpos : 1 <= axis_extent d existing /\ 1 <= axis_extent d (p_size p).

Definition inserted_panes : list Pane :=
  imap pane_set_index (insert_at (S target) p (alter (pane_set_size existing) target (w_panes w))).
Local Abbreviation w1 :=
  (set_root (set_panes w inserted_panes)
     (split_pane_inner (w_layout_root w) target (S target) d).1).

Lemma target_lt : (target < length (w_panes w))%nat.
Proof using Ht. by eapply lookup_lt_Some. Qed.

Lemma insert_split_eq : insert_split_pane target existing p d w = (w1, Ok tt).
Proof using All.
  unfold insert_split_pane, split_pane. simpl.
  destruct (split_tree_ok target d (w_layout_root w) (length (w_panes w)) target_lt (wo_root w Hok)) as [_ Hf].
  destruct (split_pane_inner _ _ _ _) as [root found]. simpl in *. by subst found.
Qed.

Lemma length_inserted : length inserted_panes = S (length (w_panes w)).
Proof using Ht.
  pose proof target_lt as Hlt.
  unfold inserted_panes. rewrite length_imap, length_insert_at; rewrite length_alter; lia.
Qed.

Lemma inserted_new : inserted_panes !! S target = Some (pane_set_index (S target) p).
Proof using Ht.
  pose proof target_lt as Hlt.
  unfold inserted_panes. rewrite list_lookup_imap, lookup_insert_at_eq; [done|].
  rewrite length_alter. lia.
Qed.

(** An old pane, moved up when it is after the target, shrunk when it is
    the target. *)
Definition inserted_old (i : nat) (q : Pane) : Pane :=
  pane_set_index (shift_up target i) (if (i =? target)%nat then pane_set_size existing q else q).

Lemma inserted_lookup_old i q :
  w_panes w !! i = Some q -> inserted_panes !! shift_up target i = Some (inserted_old i q).
Proof using Ht.
  pose proof target_lt as Hlt.
  intros Hq. unfold inserted_panes, inserted_old, shift_up. rewrite list_lookup_imap.
  destruct (Nat.leb_spec (S target) i) as [H|H].
  - rewrite lookup_insert_at_gt by (rewrite ?length_alter; lia).
    rewrite list_lookup_alter_ne, Hq by lia. simpl.
    by rewrite (proj2 (Nat.eqb_neq i target)) by lia.
  - rewrite lookup_insert_at_lt by (rewrite ?length_alter; lia).
    destruct (Nat.eqb_spec i target) as [->|Hne].
    + by rewrite list_lookup_alter_eq, Hq.
    + by rewrite list_lookup_alter_ne, Hq by lia.
Qed.

Lemma inserted_cases i q : inserted_panes !! i = Some q ->
  (i = S target /\ q = pane_set_index (S target) p)
  \/ exists j q0, w_panes w !! j = Some q0 /\ i = shift_up target j /\ q = inserted_old j q0.
Proof using Ht.
  pose proof target_lt as Hlt.
  intros Hq. pose proof (lookup_lt_Some _ _ _ Hq) as Hl. rewrite length_inserted in Hl.
  destruct (decide (i = S target)) as [->|Hne].
  - left. split; [done|]. rewrite inserted_new in Hq. congruence.
  - right. set (j := if (i <=? target)%nat then i else (i - 1)%nat).
    assert (i = shift_up target j) as Hi.
    { unfold shift_up, j. destruct (Nat.leb_spec i target);
        [destruct (Nat.leb_spec (S target) i)|destruct (Nat.leb_spec (S target) (i - 1))]; lia. }
    destruct (lookup_lt_is_Some_2 (w_panes w) j) as [q0 Hq0].
    { unfold j. destruct (Nat.leb_spec i target); lia. }
    exists j, q0. repeat split; try done. rewrite Hi, (inserted_lookup_old j q0 Hq0) in Hq. congruence.
Qed.

Lemma inserted_ids_perm : ids_of inserted_panes ≡ₚ p_id p :: ids_of (w_panes w).
Proof using Ht.
  unfold inserted_panes, ids_of.
  assert (p_id <$> imap pane_set_index (insert_at (S target) p (alter (pane_set_size existing) target (w_panes w)))
          = p_id <$> insert_at (S target) p (alter (pane_set_size existing) target (w_panes w))) as ->.
  { apply list_eq. intros i. rewrite !list_lookup_fmap, list_lookup_imap.
    by destruct (insert_at _ _ _ !! i). }
  rewrite (fmap_Permutation _ _ _ (insert_at_perm _ _ _)). simpl. f_equiv.
  rewrite (list_alter_insert _ _ target_pane) by done. rewrite list_fmap_insert. simpl.
  rewrite list_insert_id; [done|]. by rewrite list_lookup_fmap, Ht.
Qed.

Lemma inserted_core : window_core w1.
Proof using All.
  destruct (wo_core w Hok) as [Hi Hn Hu Hs Hb]. split; simpl; try done.
  - intros i q [[-> ->]|(j & q0 & Hq0 & -> & ->)]%inserted_cases; done.
  - rewrite inserted_ids_perm. apply NoDup_cons. done.
  - pose proof (Forall_lookup_1 _ _ _ _ Hu Ht) as [Hc Hr].
    apply Forall_lookup. intros i q [[-> ->]|(j & q0 & Hq0 & -> & ->)]%inserted_cases; simpl.
    + destruct d; simpl in *; split; solve_int.
    + unfold inserted_old. destruct (Nat.eqb_spec j target) as [->|]; simpl.
      * destruct d; simpl in *; split; solve_int.
      * apply (Forall_lookup_1 _ _ _ _ Hu Hq0).
Qed.

Lemma inserted_root : root_ok w1.
Proof using Hok Ht.
  pose proof target_lt as Hlt.
  unfold root_ok. simpl. rewrite length_inserted. apply split_tree_ok; [done|apply Hok].
Qed.

Lemma inserted_mem id : id ∈ ids_of (w_panes w) -> id ∈ ids_of inserted_panes.
Proof using Ht. intros H. rewrite inserted_ids_perm. apply elem_of_cons. by right. Qed.

Lemma inserted_zoom : zoom_ok w1.
Proof using Hok Ht. intros id Hid. apply inserted_mem. by apply (wo_zoom w Hok). Qed.

Lemma inserted_filled : filled w -> filled w1.
Proof using All.
  unfold filled. simpl. apply split_exact with (first := existing) (second := p_size p).
  - assert (shift_up target target = target) as E
      by (unfold shift_up; destruct (Nat.leb_spec (S target) target); lia).
    unfold size_at. rewrite <- E at 1. rewrite (inserted_lookup_old _ _ Ht). simpl.
    unfold inserted_old. by rewrite Nat.eqb_refl.
  - unfold size_at. by rewrite inserted_new.
  - intros i Hne Hin. apply (tree_ok_elem _ _ i (wo_root w Hok)) in Hin.
    destruct (lookup_lt_is_Some_2 _ _ Hin) as [q Hq]. unfold size_at.
    rewrite (inserted_lookup_old _ _ Hq), Hq. unfold inserted_old.
    by rewrite (proj2 (Nat.eqb_neq _ _)) by done.
  - intros s0. unfold size_at. rewrite Ht. intros [= <-]. by split.
Qed.
End InsertSplit.

(** ** Splitting the active pane *)

Lemma split_request_Ok size d req a b :
  (match req with
   | Some spec => split_size_with_spec size d spec
   | None => split_size size d
   end) = Ok (a, b) ->
  splits_into d size a b /\ 1 <= axis_extent d a /\ 1 <= axis_extent d b.
Proof.
  destruct req as [spec|].
  - intros (H & H1 & H2)%split_size_with_spec_Ok. split; [done|lia].
  - intros (H & H1 & H2)%split_size_Ok. split; [done|lia].
Qed.

(** The factory is ahead of every identity of the window. *)
Definition ids_ahead (ids : IdFactory) (w : Window) : Prop :=
  Forall (pane_floor ids) (ids_of (w_panes w)).

(** What a method guarantees from a well-formed window. *)
Record preserved (w w' : Window) : Prop := {
  pr_ok : window_ok w';
  pr_synced : synced w' }.

Section SplitActive.
Context (w : Window) (d : SplitDirection) (select_new : bool) (active : Pane).
Context (existing created : Size) (id : PaneId).
Hypotheses (Hok : window_ok w) (Ha : w_panes w !! w_active_pane_index w = Some active).
Hypothesis Hid : id ∉ ids_of (w_panes w).
Hypothesis Hsplit : splits_into d (p_size active) existing created.
Hypothesis Hpos : 1 <= axis_extent d existing /\ 1 <= axis_extent d created.
Local Abbreviation k := (w_active_pane_index w).
Local Abbreviation p := (mkPane id (S k) "shell" TitleDefault created false true).
Local Abbreviation panes1 := (inserted_panes w k existing p).
Local Abbreviation w1 :=
  (set_root (set_panes w panes1) (split_pane_inner (w_layout_root w) k (S k) d).1).
Local Abbreviation keep_active :=
  (fun w => set_panes w (alter (pane_set_active false) (S k)
              (alter (pane_set_active true) k (w_panes w)))).
Local Abbreviation w2 := ((if select_new then set_active_pane_index (S k) else keep_active) w1).

Lemma split_focus : focus_ok w1.
Proof using Hok Ha.
  destruct (wo_focus w Hok) as [Hl Hact Hd Hh]. split; simpl; try done.
  - rewrite (length_inserted _ _ _ _ _ Ha). lia.
  - intros i q [[-> ->]|(j & q0 & Hq0 & -> & ->)]%(inserted_cases _ _ _ _ _ Ha).
    + symmetry. apply Nat.eqb_neq. lia.
    + unfold inserted_old. specialize (Hact j q0 Hq0).
      assert (p_active (if (j =? k)%nat then pane_set_size existing q0 else q0) = p_active q0) as E
        by (by destruct (j =? k)%nat).
      simpl. rewrite E, Hact. unfold shift_up. destruct (Nat.leb_spec (S k) j); [|done].
      transitivity false; [|symmetry]; apply Nat.eqb_neq; lia.
  - intros e He. apply (inserted_mem _ _ _ _ _ Ha). by apply Hh.
Qed.

Lemma keep_active_id : keep_active w1 = w1.
Proof using Hok Ha.
  destruct split_focus as [Hl Hact _ _]. simpl in Hact. unfold set_panes. simpl.
  assert (alter (pane_set_active false) (S k) (alter (pane_set_active true) k panes1) = panes1) as ->;
    [|done].
  apply list_eq. intros i. destruct (panes1 !! i) as [q|] eqn:Hq.
  - specialize (Hact i q Hq).
    destruct (decide (i = S k)) as [->|Hne1]; [|destruct (decide (i = k)) as [->|Hne2]].
    + rewrite list_lookup_alter_eq, list_lookup_alter_ne, Hq by lia. simpl.
      rewrite (proj2 (Nat.eqb_neq _ _)) in Hact by lia. destruct q; simpl in *; by subst.
    + rewrite list_lookup_alter_ne, list_lookup_alter_eq, Hq by lia. simpl.
      rewrite Nat.eqb_refl in Hact. destruct q; simpl in *; by subst.
    + by rewrite !list_lookup_alter_ne, Hq by lia.
  - apply lookup_ge_None. rewrite !length_alter. by apply lookup_ge_None.
Qed.

Lemma split_selected : window_ok w2 /\ (filled w -> filled w2)
  /\ w_active_pane_index w2 = (if select_new then S k else k)
  /\ ids_of (w_panes w2) = ids_of panes1 /\ length (w_panes w2) = S (length (w_panes w))
  /\ w_size w2 = w_size w /\ w_layout_policy w2 = w_layout_policy w.
Proof using All.
  pose proof (inserted_core w k existing p d active Hok Ha Hid Hsplit Hpos) as Hc.
  pose proof (inserted_root w k existing p d active Hok Ha) as Hr.
  pose proof (inserted_zoom w k existing p d active Hok Ha) as Hz.
  pose proof (inserted_filled w k existing p d active Hok Ha Hid Hsplit Hpos) as Hf.
  pose proof (length_inserted w k existing p active Ha) as Hl.
  pose proof (fo_lt w (wo_focus w Hok)) as Hlt.
  destruct select_new.
  - rewrite set_active_pane_index_unfold.
    pose proof (record_focus_same (S k) w1) as (Ep & Er & Es & _ & Epol & _).
    split; [apply set_active_ok; try done; simpl; lia|].
    split; [by intros H; apply set_active_filled, Hf|].
    split; [done|]. rewrite activate_ids, activate_length, Ep. simpl in *.
    by rewrite Es, Epol.
  - rewrite keep_active_id. split; [by split; [..|apply split_focus|]|]. done.
Qed.
End SplitActive.

Lemma split_active_spec ids w d req select_new :
  window_ok w -> ids_ahead ids w -> (next_pane ids < u64_max)%N ->
  let '(ids', w', r) := split_active_with_requested_size d req select_new (ids, w) in
  match r with
  | Ok p =>
      window_ok w' /\ synced w' /\ ids_ahead ids' w'
      /\ length (w_panes w') = S (length (w_panes w))
      /\ w_panes w' !! S (w_active_pane_index w) = Some p
      /\ w_active_pane_index w' = (if select_new then S (w_active_pane_index w) else w_active_pane_index w)
      /\ ids_of (w_panes w') ≡ₚ p_id p :: ids_of (w_panes w)
      /\ (rebalance_fits w (S (length (w_panes w))) -> filled w -> filled w')
      /\ IdFactoryOps.pane ids = (p_id p, ids')
  | Err _ => ids' = ids /\ w' = w
  | Panic => False
  end.
Proof.
  intros Hok Hahead Hnext. unfold split_active_with_requested_size. op_run.
  destruct (lookup_lt_is_Some_2 _ _ (fo_lt w (wo_focus w Hok))) as [active Ha].
  unfold index_or_panic at 1. rewrite Ha.
  assert (no_panic (match req with
                    | Some spec => split_size_with_spec (p_size active) d spec
                    | None => split_size (p_size active) d
                    end)) as Hnp by (destruct req; auto with mez).
  destruct (match req with Some _ => _ | None => _ end) as [[existing created]|e|] eqn:Hs; [|done|done].
  apply split_request_Ok in Hs as [Hsplit Hpos]. clear Hnp.
  pose proof (pane_fresh ids _ Hahead Hnext) as Hfresh.
  pose proof (pane_floor_new ids Hnext) as Hnew. pose proof (pane_next ids Hnext) as Hnx.
  unfold alloc, on_window. op_run. destruct (IdFactoryOps.pane ids) as [id ids'] eqn:Hal. op_run. simpl in Hfresh, Hnew, Hnx.
  rewrite (insert_split_eq w _ existing
    (mkPane id (S (w_active_pane_index w)) "shell" TitleDefault created false true) d active
    Hok Ha Hfresh Hsplit Hpos).
  destruct (split_selected w d select_new active existing created id Hok Ha Hfresh Hsplit Hpos)
    as (Hok2 & Hf2 & Hact2 & Hids2 & Hlen2 & Hsz2 & Hpol2).
  match goal with |- context [rebalance_after_pane_count_change ?x] => set (w2 := x) in * end.
  destruct (rebalance_ok w2 Hok2) as (panes & root & -> & Hlc & Hex).
  pose proof (lc_unsized _ _ _ Hlc) as Hu.
  pose proof (unsized_ids _ _ Hu) as Hidse. pose proof (unsized_length _ _ Hu) as Hlene.
  cbn [snd w_panes relaid set_geometries set_root set_panes].
  pose proof (lookup_lt_Some _ _ _ Ha) as Hlt.
  destruct (lookup_lt_is_Some_2 panes (S (w_active_pane_index w))) as [p0 Hp0]; [lia|].
  unfold index_or_panic. rewrite Hp0.
  assert (p_id p0 = id) as Hpid.
  { assert (ids_of panes !! S (w_active_pane_index w) = Some (p_id p0)) as H1
      by (unfold ids_of; by rewrite list_lookup_fmap, Hp0).
    rewrite Hidse, Hids2 in H1. unfold ids_of in H1.
    rewrite list_lookup_fmap, (inserted_new _ _ _ _ _ Ha) in H1. simpl in H1. congruence. }
  destruct (relaid_ok w2 panes root Hlc Hok2) as [Hok3 Hsy3].
  assert (ids_of panes ≡ₚ id :: ids_of (w_panes w)) as Hperm
    by (rewrite Hidse, Hids2, (inserted_ids_perm _ _ _ _ _ Ha); done).
  cbv beta iota. split; [exact Hok3|]. split; [exact Hsy3|]. split; [|split; [simpl; congruence|split; [done|split; [done|split; [|split]]]]].
  - unfold ids_ahead. simpl. rewrite Hperm. constructor; [done|].
    eapply Forall_impl; [exact Hahead|]. intros e He. eapply pane_floor_mono; [|exact He]. lia.
  - simpl. by rewrite Hpid.
  - intros Hfit Hfill. unfold filled. simpl. apply Hex; [|by intros _; apply Hf2].
    unfold rebalance_fits, layout_policy_rebalances in *. by rewrite Hpol2, Hsz2, Hlen2.
  - by rewrite Hpid.
Qed.

(** ** Targets *)

Lemma pane_index_Ok w target i :
  window_ok w -> pane_index w target = Ok i -> (i < length (w_panes w))%nat.
Proof.
  intros Hok. pose proof (fo_lt w (wo_focus w Hok)). destruct target as [t|]; simpl.
  - intros H'%ok_or_Ok_inv. by eapply position_lt.
  - destruct (w_panes w); [done|]. by intros [= <-].
Qed.

Lemma no_panic_pane_index w target : no_panic (pane_index w target).
Proof. destruct target; simpl; [auto with mez|]. by destruct (w_panes w). Qed.

Lemma target_or_active_Ok w target i :
  window_ok w -> target_or_active w target = Ok i -> (i < length (w_panes w))%nat.
Proof.
  intros Hok. pose proof (fo_lt w (wo_focus w Hok)). destruct target as [t|]; simpl.
  - intros H'%ok_or_Ok_inv. by eapply position_lt.
  - by intros [= <-].
Qed.

Lemma no_panic_target_or_active w target : no_panic (target_or_active w target).
Proof. destruct target; simpl; auto with mez. Qed.

#[export] Hint Resolve no_panic_pane_index no_panic_target_or_active : mez.

(** The identity in the active slot. *)
Definition active_id (w : Window) : option PaneId := ids_of (w_panes w) !! w_active_pane_index w.

Lemma set_active_lookup_id index w :
  active_id (set_active_pane_index index w) = ids_of (w_panes w) !! index.
Proof.
  unfold active_id. rewrite set_active_pane_index_unfold, activate_ids.
  by destruct (record_focus_same index w) as (-> & _).
Qed.

Lemma relaid_active_id w panes root :
  layout_change w panes root -> active_id (relaid w panes root) = active_id w.
Proof. intros H. unfold active_id. simpl. by rewrite (unsized_ids _ _ (lc_unsized _ _ _ H)). Qed.

Lemma set_active_same index w :
  let w' := set_active_pane_index index w in
  ids_of (w_panes w') = ids_of (w_panes w) /\ length (w_panes w') = length (w_panes w)
  /\ w_size w' = w_size w /\ w_layout_policy w' = w_layout_policy w.
Proof.
  intros w'. unfold w'. rewrite set_active_pane_index_unfold, activate_ids, activate_length.
  destruct (record_focus_same index w) as (-> & _ & Hs & _ & Hp & _). by rewrite <- Hs, <- Hp.
Qed.

(** ** Inserting an existing pane *)

Lemma insert_existing_spec w target p d select_inserted :
  window_ok w -> p_id p ∉ ids_of (w_panes w) ->
  let '(w', r) := insert_existing_after target p d select_inserted w in
  match r with
  | Ok q =>
      window_ok w' /\ synced w' /\ length (w_panes w') = S (length (w_panes w))
      /\ q ∈ w_panes w' /\ p_id q = p_id p
      /\ ids_of (w_panes w') ≡ₚ p_id p :: ids_of (w_panes w)
      /\ active_id w' = (if select_inserted then Some (p_id p) else active_id w)
      /\ (rebalance_fits w (S (length (w_panes w))) -> filled w -> filled w')
  | Err _ => w' = w
  | Panic => False
  end.
Proof.
  intros Hok Hfresh. unfold insert_existing_after. op_run. cbv [id].
  pose proof (no_panic_pane_index w target) as Hnp.
  destruct (pane_index w target) as [k|e|] eqn:Hk; [|done|done]. clear Hnp.
  pose proof (pane_index_Ok w target k Hok Hk) as Hklt.
  destruct (lookup_lt_is_Some_2 _ _ (fo_lt w (wo_focus w Hok))) as [active Ha].
  destruct (lookup_lt_is_Some_2 _ _ Hklt) as [tp Ht].
  unfold index_or_panic at 1 2. rewrite Ha, Ht.
  pose proof (no_panic_split_size (p_size tp) d) as Hnp.
  destruct (split_size (p_size tp) d) as [[existing inserted]|e|] eqn:Hs; [|done|done]. clear Hnp.
  apply split_size_Ok in Hs as (Hsplit & Hp1 & Hp2).
  assert (1 <= axis_extent d existing /\ 1 <= axis_extent d inserted) as Hpos by lia.
  set (p' := pane_set_active false (pane_set_size inserted (pane_set_index (S k) p))) in *.
  rewrite (insert_split_eq w k existing p' d tp Hok Ht Hfresh Hsplit Hpos).
  pose proof (inserted_core w k existing p' d tp Hok Ht Hfresh Hsplit Hpos) as Hc.
  pose proof (inserted_root w k existing p' d tp Hok Ht) as Hr.
  pose proof (inserted_zoom w k existing p' d tp Hok Ht) as Hz.
  pose proof (inserted_filled w k existing p' d tp Hok Ht Hfresh Hsplit Hpos) as Hf.
  pose proof (length_inserted w k existing p' tp Ht) as Hl.
  pose proof (inserted_ids_perm w k existing p' tp Ht) as Hperm.
  set (w1 := set_root (set_panes w (inserted_panes w k existing p'))
               (split_pane_inner (w_layout_root w) k (S k) d).1) in *.
  assert (p_id active ∈ ids_of (w_panes w1)) as Hain.
  { simpl. apply (inserted_mem _ _ _ _ _ Ht). unfold ids_of.
    apply list_elem_of_fmap. exists active. split; [done|]. by eapply list_elem_of_lookup_2. }
  destruct (position_of_id_is_Some _ _ Hain) as [j Hj].
  set (next := if select_inserted then S k else j).
  match goal with |- context [rebalance_after_pane_count_change ?x] =>
    assert (x = set_active_pane_index next w1) as -> end.
  { unfold next. destruct select_inserted; [done|]. by rewrite Hj. }
  assert (next < length (w_panes w1))%nat as Hnext.
  { unfold next. destruct select_inserted; [simpl; lia|]. by apply position_of_id_lt in Hj. }
  pose proof (set_active_ok next w1 Hc Hr Hz Hnext) as Hok2.
  destruct (rebalance_ok _ Hok2) as (panes & root & -> & Hlc & Hex).
  destruct (set_active_same next w1) as (Hids2 & Hlen2 & Hsz2 & Hpol2).
  set (w2 := set_active_pane_index next w1) in *.
  pose proof (unsized_ids _ _ (lc_unsized _ _ _ Hlc)) as Hidse.
  pose proof (unsized_length _ _ (lc_unsized _ _ _ Hlc)) as Hlene.
  assert (ids_of panes = ids_of (w_panes w1)) as Hids by congruence.
  assert (length panes = S (length (w_panes w))) as Hlen by (rewrite Hlene, Hlen2; exact Hl).
  destruct (lookup_lt_is_Some_2 panes (S k)) as [q Hq]; [lia|].
  cbn [snd w_panes relaid set_geometries set_root set_panes]. unfold index_or_panic. rewrite Hq.
  assert (ids_of (w_panes w1) !! S k = Some (p_id p)) as Hnew.
  { unfold ids_of. simpl. by rewrite list_lookup_fmap, (inserted_new _ _ _ _ _ Ht). }
  assert (Some (p_id q) = Some (p_id p)) as [= Hqid].
  { rewrite <- Hnew, <- Hids. unfold ids_of. by rewrite list_lookup_fmap, Hq. }
  destruct (relaid_ok w2 panes root Hlc Hok2) as [Hok3 Hsy3].
  split; [exact Hok3|]. split; [exact Hsy3|]. split; [done|]. split; [by eapply list_elem_of_lookup_2|].
  split; [done|]. split; [by rewrite Hids|]. split.
  - rewrite relaid_active_id by done. unfold w2. rewrite set_active_lookup_id. unfold next.
    destruct select_inserted; [done|]. rewrite (position_of_id_lookup _ _ _ Hj).
    unfold active_id, ids_of. by rewrite list_lookup_fmap, Ha.
  - intros Hfit Hfill. unfold filled. simpl. apply Hex; [|intros _; by apply set_active_filled, Hf].
    unfold rebalance_fits, layout_policy_rebalances in *. rewrite Hpol2, Hsz2, Hlen2.
    simpl. by rewrite Hl.
Qed.

(** ** Removing a pane *)

Section RemovePane.
Context (w : Window) (index : nat) (removed : Pane).
Hypotheses (Hok : window_ok w) (Hrem : w_panes w !! index = Some removed).
Hypothesis Hmany : (2 <= length (w_panes w))%nat.
Local Abbreviation m := (length (w_panes w) - 1)%nat.

Definition remaining_panes : list Pane := imap pane_set_index (remove_at index (w_panes w)).

Lemma index_lt : (index < length (w_panes w))%nat.
Proof using Hrem. by eapply lookup_lt_Some. Qed.

Lemma length_remaining : length remaining_panes = m.
Proof using Hrem.
  unfold remaining_panes. rewrite length_imap. apply length_remove_at, index_lt.
Qed.

Lemma remaining_lookup i q :
  w_panes w !! i = Some q -> i <> index ->
  remaining_panes !! shift_down index i = Some (pane_set_index (shift_down index i) q).
Proof.
  intros Hq Hne. unfold remaining_panes, shift_down. rewrite list_lookup_imap.
  destruct (Nat.ltb_spec index i).
  - rewrite lookup_remove_at_ge by lia. replace (S (i - 1)) with i by lia. by rewrite Hq.
  - rewrite lookup_remove_at_lt by lia. by rewrite Hq.
Qed.

Lemma remaining_ids : ids_of remaining_panes = ids_of (remove_at index (w_panes w)).
Proof.
  unfold remaining_panes, ids_of. apply list_eq. intros i.
  rewrite !list_lookup_fmap, list_lookup_imap. by destruct (remove_at _ _ !! i).
Qed.

Lemma remaining_ids_perm : ids_of (w_panes w) ≡ₚ p_id removed :: ids_of remaining_panes.
Proof using Hrem.
  rewrite remaining_ids. unfold ids_of.
  by rewrite <- (fmap_Permutation p_id _ _ (remove_at_perm _ _ _ Hrem)).
Qed.

Lemma remaining_u16 : panes_u16 remaining_panes.
Proof using Hok Hrem.
  pose proof (wc_u16 w (wo_core w Hok)) as Hu. unfold panes_u16 in *.
  rewrite <- (remove_at_perm _ _ _ Hrem) in Hu. apply Forall_cons in Hu as [_ Hu].
  rewrite Forall_lookup in Hu |- *. intros i q. unfold remaining_panes.
  rewrite list_lookup_imap. destruct (remove_at index (w_panes w) !! i) as [q0|] eqn:Hq; [|done].
  intros [= <-]. by apply (Hu i q0).
Qed.

(** The window between the removal and the reflow. *)
Context (w1 : Window).
Hypotheses (Hp1 : w_panes w1 = remaining_panes) (Hr1 : w_layout_root w1 = w_layout_root w)
  (Hs1 : w_size w1 = w_size w) (Hpol1 : w_layout_policy w1 = w_layout_policy w)
  (Hh1 : (length (w_pane_focus_history w1) <= 10)%nat).

Lemma removed_core : window_core w1.
Proof using All.
  destruct (wo_core w Hok) as [Hi Hn Hu Hs Hb]. split; rewrite ?Hp1, ?Hs1; try done.
  - intros i q. unfold remaining_panes. rewrite list_lookup_imap.
    destruct (remove_at index (w_panes w) !! i); [|done]. by intros [= <-].
  - rewrite remaining_ids_perm in Hn. by apply NoDup_cons in Hn as [_ ?].
  - apply remaining_u16.
Qed.

Lemma reflow_ok : exists panes root,
  reflow_after_pane_removal index (p_size removed) w1 = (relaid w1 panes root, Ok tt)
  /\ layout_change w1 panes root
  /\ (rebalance_fits w m -> (layout_policy_rebalances w = false -> filled w) ->
      exact panes root (w_size w1)).
Proof using All.
  pose proof length_remaining as Hlen. pose proof index_lt as Hlt. pose proof remaining_u16 as Hu16.
  pose proof (valid_size_u16 _ (wc_size w (wo_core w Hok))) as Hsu.
  pose proof (wc_size w (wo_core w Hok)) as Hvs. unfold valid_size in Hvs.
  assert (layout_policy_rebalances w1 = layout_policy_rebalances w) as Hreb
    by (unfold layout_policy_rebalances; by rewrite Hpol1).
  unfold reflow_after_pane_removal, rebalance_fits. rewrite Hreb.
  destruct (layout_policy_rebalances w) eqn:Hb.
  - destruct (apply_layout_policy_spec w1) as (panes & root & Heq & Hlc & Hex).
    + rewrite Hp1. intros E. rewrite E in Hlen. simpl in Hlen. lia.
    + by rewrite Hs1.
    + by rewrite Hp1.
    + rewrite Hs1. lia.
    + exists panes, root. split; [done|]. split; [done|]. intros Hf _. apply Hex.
      rewrite Hpol1, Hs1, Hp1, Hlen. by apply Hf.
  - destruct (remove_pane_spec index (p_size removed) (w_panes w) (w_layout_root w) (w_panes w1) m)
      as (root & panes & Heq & Ht & Hsame & H16 & Hex).
    + lia.
    + replace (S m) with (length (w_panes w)) by lia. apply Hok.
    + lia.
    + by rewrite Hp1.
    + apply (Forall_lookup_1 _ _ _ _ (wc_u16 w (wo_core w Hok)) Hrem).
    + unfold size_at. by rewrite Hrem.
    + intros i Hi Hne. apply elem_of_seq in Hi.
      destruct (lookup_lt_is_Some_2 (w_panes w) i) as [q Hq]; [lia|].
      unfold size_at. by rewrite Hp1, (remaining_lookup i q Hq Hne), Hq.
    + rewrite Hr1, Heq. exists panes, root. split; [done|].
      pose proof (same_unsized _ _ _ Hsame) as Hun.
      split; [split; [done|done|]|].
      * by rewrite (unsized_length _ _ Hun), Hp1, Hlen.
      * intros _ Hf. rewrite Hs1. destruct Hsu. apply Hex; [by apply Hf|solve_int..].
Qed.

(** The end of a removal: activation and zoom. *)
Lemma removal_finish next panes root :
  layout_change w1 panes root -> (next < m)%nat ->
  let w' := retain_valid_zoom (set_active_pane_index_without_history next (relaid w1 panes root)) in
  window_ok w' /\ synced w' /\ ids_of (w_panes w') = ids_of remaining_panes
  /\ w_active_pane_index w' = next
  /\ (exact panes root (w_size w1) -> filled w').
Proof using All.
  intros Hlc Hnext w'. pose proof removed_core as Hc. pose proof length_remaining as Hlen.
  pose proof (unsized_length _ _ (lc_unsized _ _ _ Hlc)) as Hl. rewrite Hp1 in Hl.
  assert (next < length (w_panes (relaid w1 panes root)))%nat by (simpl; lia).
  split; [|split; [|split; [|split]]].
  - apply retain_valid_zoom_ok; [by apply activate_core, relaid_core| |by apply activate_focus].
    apply activate_root. apply Hlc.
  - by apply retain_valid_zoom_synced, activate_synced.
  - transitivity (ids_of (w_panes (set_active_pane_index_without_history next (relaid w1 panes root)))).
    + unfold w'. by destruct (retain_valid_zoom_cases
        (set_active_pane_index_without_history next (relaid w1 panes root))) as [->| ->].
    + rewrite activate_ids. simpl. by rewrite (unsized_ids _ _ (lc_unsized _ _ _ Hlc)), Hp1.
  - unfold w'. by destruct (retain_valid_zoom_cases
        (set_active_pane_index_without_history next (relaid w1 panes root))) as [->| ->].
  - intros Hex. by apply retain_valid_zoom_filled, activate_filled.
Qed.
End RemovePane.

(** The identity focused after slot [index] is removed: the active pane when
    another pane goes, otherwise the most recently focused survivor, otherwise
    the pane that takes the slot (the last one when the last slot goes). *)
Definition focus_successor (w : Window) (index : nat) : option PaneId :=
  let survivors := ids_of (remove_at index (w_panes w)) in
  if (index =? w_active_pane_index w)%nat then
    match last (filter (fun id => id ∈ survivors) (w_pane_focus_history w)) with
    | Some id => Some id
    | None => survivors !! Nat.min index (length survivors - 1)
    end
  else active_id w.

(** A removal that leaves panes: the removed slot closes up, the rest keeps
    its order, and the focus goes to the successor. *)
Definition removal_result (w : Window) (index : nat) (w' : Window) : Prop :=
  window_ok w' /\ synced w'
  /\ ids_of (w_panes w') = ids_of (remove_at index (w_panes w))
  /\ active_id w' = focus_successor w index
  /\ (rebalance_fits w (length (w_panes w) - 1) -> filled w -> filled w').

Lemma remove_at_fmap {A B} (f : A -> B) i (l : list A) : f <$> remove_at i l = remove_at i (f <$> l).
Proof. unfold remove_at. by rewrite fmap_app, fmap_take, fmap_drop. Qed.

(** The slot to activate, computed on the window whose vector has lost the
    pane. *)
Section NextActive.
Context (w : Window) (index : nat) (removed : Pane).
Hypotheses (Hok : window_ok w) (Hrem : w_panes w !! index = Some removed).
Hypothesis Hmany : (2 <= length (w_panes w))%nat.
Local Abbreviation w0 := (set_panes w (remove_at index (w_panes w))).
Local Abbreviation n0 := (length (remove_at index (w_panes w))).

Lemma n0_eq : n0 = (length (w_panes w) - 1)%nat.
Proof using Hrem. apply length_remove_at. by eapply lookup_lt_Some. Qed.

Lemma removed_active : p_active removed = (index =? w_active_pane_index w)%nat.
Proof using Hok Hrem. apply (fo_active w (wo_focus w Hok) _ _ Hrem). Qed.

Lemma next_active_removed :
  p_active removed = true ->
  let next := default (Nat.min index (n0 - 1)) (most_recent_surviving_pane_index w0).2 in
  (next < n0)%nat /\ ids_of (remove_at index (w_panes w)) !! next = focus_successor w index.
Proof using All.
  intros Ha next. rewrite removed_active in Ha. unfold focus_successor. rewrite Ha.
  pose proof n0_eq as Hn. unfold next.
  rewrite most_recent_spec by apply (fo_distinct w (wo_focus w Hok)). simpl.
  set (survivors := ids_of (remove_at index (w_panes w))).
  assert (length survivors = n0) as Hls by (unfold survivors, ids_of; by rewrite length_fmap).
  destruct (last (filter _ _)) as [id|] eqn:Hl; simpl.
  - apply last_Some_elem_of, list_elem_of_filter in Hl as [Hin _].
    destruct (position_of_id_is_Some _ _ Hin) as [j Hj]. rewrite Hj. simpl.
    split; [by apply position_of_id_lt in Hj|by apply position_of_id_lookup].
  - rewrite Hls. split; [lia|done].
Qed.

Lemma active_survives :
  p_active removed = false ->
  exists active, w_panes w !! w_active_pane_index w = Some active
    /\ active_id w = Some (p_id active) /\ index <> w_active_pane_index w.
Proof using Hok Hrem.
  intros Ha. rewrite removed_active in Ha. bool_to_prop.
  destruct (lookup_lt_is_Some_2 _ _ (fo_lt w (wo_focus w Hok))) as [active Hact].
  exists active. split; [done|]. split; [|done]. unfold active_id, ids_of.
  by rewrite list_lookup_fmap, Hact.
Qed.

(** The position of the active pane after the removal. *)
Lemma active_moved :
  p_active removed = false ->
  let next := if (index <? w_active_pane_index w)%nat then (w_active_pane_index w - 1)%nat
              else Nat.min (w_active_pane_index w) (n0 - 1) in
  (next < n0)%nat /\ ids_of (remove_at index (w_panes w)) !! next = focus_successor w index.
Proof using All.
  intros Ha next. destruct (active_survives Ha) as (active & Hact & Hid & Hne).
  unfold focus_successor. rewrite (proj2 (Nat.eqb_neq _ _)), Hid by done.
  pose proof n0_eq as Hn. pose proof (lookup_lt_Some _ _ _ Hrem) as Hi.
  pose proof (fo_lt w (wo_focus w Hok)) as Hlt. unfold next, ids_of.
  rewrite list_lookup_fmap. destruct (Nat.ltb_spec index (w_active_pane_index w)).
  - split; [lia|]. rewrite lookup_remove_at_ge by lia.
    replace (S (w_active_pane_index w - 1)) with (w_active_pane_index w) by lia. by rewrite Hact.
  - split; [lia|]. rewrite Nat.min_l by lia. rewrite lookup_remove_at_lt by lia. by rewrite Hact.
Qed.

Lemma active_found :
  p_active removed = false ->
  exists active next, w_panes w !! w_active_pane_index w = Some active
    /\ position_of_id (remove_at index (w_panes w)) (p_id active) = Some next
    /\ (next < n0)%nat /\ ids_of (remove_at index (w_panes w)) !! next = focus_successor w index.
Proof using All.
  intros Ha. destruct (active_survives Ha) as (active & Hact & Hid & Hne).
  destruct (active_moved Ha) as [_ Hm].
  unfold focus_successor in *. rewrite (proj2 (Nat.eqb_neq _ _)), Hid in * by done.
  destruct (position_of_id_is_Some (remove_at index (w_panes w)) (p_id active)) as [j Hj];
    [by eapply list_elem_of_lookup_2|].
  exists active, j. split; [done|]. split; [done|].
  split; [by apply position_of_id_lt in Hj|by apply position_of_id_lookup].
Qed.
End NextActive.

Section Removal.
Context (w : Window) (index : nat) (removed : Pane).
Hypotheses (Hok : window_ok w) (Hrem : w_panes w !! index = Some removed).
Hypothesis Hmany : (2 <= length (w_panes w))%nat.
Local Abbreviation w0 := (set_panes w (remove_at index (w_panes w))).

(** Reindexing, reflow and activation of the chosen slot, from the window
    whose vector has lost the pane (its history possibly pruned). *)
Definition finish_removal (next : nat) : method Pane :=
  reflow_after_pane_removal index (p_size removed) ≫= fun _ =>
  op_modify (fun w => retain_valid_zoom (set_active_pane_index_without_history next w)) ≫= fun _ =>
  op_lift (Ok removed).

Lemma finish_removal_ok next history :
  (length history <= 10)%nat -> (next < length (remove_at index (w_panes w)))%nat ->
  ids_of (remove_at index (w_panes w)) !! next = focus_successor w index ->
  exists w', finish_removal next (reindex_panes (set_history w0 history)) = (w', Ok removed)
             /\ removal_result w index w'.
Proof using All.
  intros Hh Hnext Hsucc. set (w1 := reindex_panes (set_history w0 history)).
  assert (length (remove_at index (w_panes w)) = (length (w_panes w) - 1)%nat) as Hn0
    by (apply n0_eq with removed; done).
  destruct (reflow_ok w index removed Hok Hrem Hmany w1) as (panes & root & Heq & Hlc & Hex); try done.
  destruct (removal_finish w index removed Hok Hrem Hmany w1 eq_refl eq_refl eq_refl eq_refl Hh next
              panes root Hlc) as (H1 & H2 & H3 & H4 & H5); [lia|].
  eexists. split; [unfold finish_removal; op_run; by rewrite Heq|].
  split; [exact H1|]. split; [exact H2|]. rewrite remaining_ids in H3. split; [exact H3|]. split.
  - unfold active_id. by rewrite H3, H4.
  - intros Hfit Hf. apply H5. by apply Hex.
Qed.
End Removal.

Lemma history_bound_pruned w panes :
  window_ok w -> (length (prune panes (w_pane_focus_history w) []) <= 10)%nat.
Proof.
  intros Hok. etransitivity; [apply prune_nil_spec|]. apply (wc_bound w (wo_core w Hok)).
Qed.

Lemma set_history_id w : set_history w (w_pane_focus_history w) = w.
Proof. by destruct w. Qed.

Lemma kill_pane_spec w target :
  window_ok w ->
  let '(w', r) := kill_pane target w in
  match r with
  | Ok removed => exists index, target_or_active w target = Ok index
      /\ w_panes w !! index = Some removed /\ removal_result w index w'
  | Err _ => w' = w
  | Panic => False
  end.
Proof.
  intros Hok. unfold kill_pane. op_run. cbv [id].
  pose proof (no_panic_target_or_active w target) as Hnp.
  destruct (target_or_active w target) as [index|e|] eqn:Ht; [|done|done]. clear Hnp.
  pose proof (target_or_active_Ok w target index Hok Ht) as Hlt.
  destruct (Nat.eqb_spec (length (w_panes w)) 1) as [|Hne]; [done|].
  assert (2 <= length (w_panes w))%nat as Hmany by lia.
  destruct (lookup_lt_is_Some_2 _ _ (fo_lt w (wo_focus w Hok))) as [active Ha].
  destruct (lookup_lt_is_Some_2 _ _ Hlt) as [removed Hrem].
  unfold index_or_panic. rewrite Ha, Hrem.
  pose proof (next_active_removed w index removed Hok Hrem Hmany) as Hact.
  pose proof (active_found w index removed Hok Hrem Hmany) as Hinact.
  destruct (p_active removed) eqn:Hpa.
  - destruct (Hact eq_refl) as [Hn Hs].
    match type of Hs with ids_of _ !! ?x = _ => set (next := x) in * end.
    destruct (finish_removal_ok w index removed Hok Hrem Hmany next _
                (history_bound_pruned w (remove_at index (w_panes w)) Hok) Hn Hs) as (w' & Heq & Hres).
    unfold most_recent_surviving_pane_index in Heq |- *. cbn [fst snd].
    unfold finish_removal in Heq. revert Heq. op_run. intros Heq.
    match type of Heq with ?lhs = _ =>
      match goal with |- context [match ?x with _ => _ end] =>
        change x with lhs end end. rewrite Heq. eauto.
  - destruct (Hinact eq_refl) as (active' & next & Ha' & Hpos & Hn & Hs).
    assert (active' = active) as -> by congruence.
    destruct (finish_removal_ok w index removed Hok Hrem Hmany next (w_pane_focus_history w)
                (wc_bound w (wo_core w Hok)) Hn Hs) as (w' & Heq & Hres).
    unfold finish_removal in Heq. revert Heq. op_run. intros Heq. cbn [w_panes set_panes].
    rewrite Hpos. simpl default. cbn [w_panes set_panes] in Heq.
    match type of Heq with ?lhs = _ =>
      match goal with |- context [match ?x with _ => _ end] =>
        change x with lhs end end. rewrite Heq. eauto.
Qed.

Lemma take_pane_at_spec w index removed :
  window_ok w -> w_panes w !! index = Some removed ->
  exists w', take_pane_at index w = (w', Ok removed)
    /\ ((2 <= length (w_panes w))%nat -> removal_result w index w')
    /\ (length (w_panes w) = 1%nat ->
        w_panes w' = [] /\ w_pane_focus_history w' = [] /\ w_zoomed_pane_id w' = None
        /\ w_last_active_pane_index w' = None /\ w_active_pane_index w' = 0%nat).
Proof.
  intros Hok Hrem. unfold take_pane_at. rewrite Hrem. cbn [w_panes set_panes].
  pose proof (n0_eq w index removed Hrem) as Hn0.
  destruct (remove_at index (w_panes w)) as [|q qs] eqn:Hl.
  - eexists. split; [done|]. simpl in Hn0. split; [lia|]. by repeat split.
  - assert (2 <= length (w_panes w))%nat as Hmany by (simpl in Hn0; lia). rewrite <- Hl.
    pose proof (next_active_removed w index removed Hok Hrem Hmany) as Hact.
    pose proof (active_moved w index removed Hok Hrem Hmany) as Hinact.
    destruct (p_active removed) eqn:Hpa.
    + destruct (Hact eq_refl) as [Hn Hs].
      destruct (finish_removal_ok w index removed Hok Hrem Hmany _ _
                  (history_bound_pruned w (remove_at index (w_panes w)) Hok) Hn Hs) as (w' & Heq & Hres).
      exists w'. split; [exact Heq|]. split; [done|lia].
    + destruct (Hinact eq_refl) as [Hn Hs].
      destruct (finish_removal_ok w index removed Hok Hrem Hmany _ (w_pane_focus_history w)
                  (wc_bound w (wo_core w Hok)) Hn Hs) as (w' & Heq & Hres).
      exists w'. split; [exact Heq|]. split; [done|lia].
Qed.
