(* ===== verification/WindowMoves.v ===== *)
(** * Moving, resizing, zooming and selecting

    The window operations that neither add nor remove panes: rotation, swaps,
    window and pane resizes, layout policies, zoom, selection, per-client
    navigation state and names. *)

From S2P Require Import Prelude RustStr Ids LayoutTypes Sizing LayoutTree Tiling TreeEdits WindowOps PolicyLayouts WindowInv WindowSteps.
Import Node Win.
Local Open Scope Z_scope.

(** ** Panes that exchange slots *)

(** A vector of panes that take over the slots of the window: each slot keeps
    its index, size and active flag. *)
Record reslotted (panes panes' : list Pane) : Prop := {
  rs_slots : forall i p', panes' !! i = Some p' -> exists slot, panes !! i = Some slot
    /\ p_index p' = p_index slot /\ p_size p' = p_size slot /\ p_active p' = p_active slot;
  rs_length : length panes' = length panes }.

Lemma reslotted_size_at panes panes' i : reslotted panes panes' -> size_at panes' i = size_at panes i.
Proof.
  intros [Hs Hl]. unfold size_at. destruct (panes' !! i) as [p'|] eqn:Hp.
  - destruct (Hs i p' Hp) as (slot & -> & _ & E & _). simpl. by rewrite E.
  - apply lookup_ge_None in Hp. by rewrite (proj2 (lookup_ge_None panes i)) by lia.
Qed.

Lemma reslotted_position w panes' :
  window_ok w -> reslotted (w_panes w) panes' ->
  position p_active panes' = Some (w_active_pane_index w).
Proof.
  intros Hok [Hs Hl]. destruct (wo_focus w Hok) as [Hlt Ha _ _].
  destruct (lookup_lt_is_Some_2 panes' (w_active_pane_index w)) as [p' Hp']; [lia|].
  apply position_Some. exists p'. destruct (Hs _ _ Hp') as (slot & Hslot & _ & _ & E).
  split; [done|]. split; [by rewrite E, (Ha _ _ Hslot), Nat.eqb_refl|].
  apply Forall_lookup. intros i q Hq.
  apply lookup_take_Some in Hq as [Hq Hi]. destruct (Hs _ _ Hq) as (sl & Hsl & _ & _ & Eq).
  rewrite Eq, (Ha _ _ Hsl). apply Nat.eqb_neq. lia.
Qed.

Lemma reslotted_core w panes' :
  window_core w -> reslotted (w_panes w) panes' -> NoDup (ids_of panes') ->
  window_core (set_panes w panes').
Proof.
  intros [Hi Hn Hu Hsz Hb] [Hs Hl] Hnd. split; simpl; try done.
  - intros i p' (slot & Hslot & -> & _)%Hs. by apply Hi.
  - apply Forall_lookup. intros i p' (slot & Hslot & _ & -> & _)%Hs.
    by apply (Forall_lookup_1 _ _ _ _ Hu Hslot).
Qed.

Lemma reslotted_synced w panes' :
  reslotted (w_panes w) panes' -> synced w -> synced (set_panes w panes').
Proof.
  intros Hrs H. unfold synced in *. simpl. rewrite H. symmetry. apply pane_geometries_frame.
  intros i _. by apply reslotted_size_at.
Qed.

Lemma reslotted_filled w panes' :
  reslotted (w_panes w) panes' -> filled w -> filled (set_panes w panes').
Proof. intros Hrs. apply exact_frame. intros i _. by apply reslotted_size_at. Qed.

Lemma reslotted_ok w panes' :
  window_ok w -> reslotted (w_panes w) panes' -> ids_of panes' ≡ₚ ids_of (w_panes w) ->
  window_ok (set_panes w panes') /\ (synced w -> synced (set_panes w panes'))
  /\ (filled w -> filled (set_panes w panes')).
Proof.
  intros [Hc Hr Hf Hz] Hrs Hids. pose proof Hrs as [Hs Hl].
  split; [split|split; [by apply reslotted_synced|by apply reslotted_filled]].
  - apply reslotted_core; [done|done|]. rewrite Hids. apply Hc.
  - unfold root_ok. simpl. by rewrite Hl.
  - destruct Hf as [Hlt Ha Hd Hh]. split; simpl; try done.
    + by rewrite Hl.
    + intros i p' (slot & Hslot & _ & _ & ->)%Hs. by apply Ha.
    + intros id Hid. rewrite Hids. by apply Hh.
  - intros id Hid. simpl. rewrite Hids. by apply Hz.
Qed.

Lemma set_active_id w : set_active w (w_active_pane_index w) = w.
Proof. by destruct w. Qed.

Lemma retain_valid_zoom_id w : zoom_ok w -> retain_valid_zoom w = w.
Proof.
  intros Hz. unfold retain_valid_zoom. destruct (w_zoomed_pane_id w) as [z|] eqn:E; [|done].
  by rewrite (proj2 (has_pane_id_spec _ _) (Hz z E)).
Qed.

(** Both operations end by locating the active slot and checking the zoom. *)
Lemma reslotted_finish w panes' :
  window_ok w -> reslotted (w_panes w) panes' -> ids_of panes' ≡ₚ ids_of (w_panes w) ->
  let w1 := set_panes w panes' in
  retain_valid_zoom (set_active w1 (position_active w1)) = w1.
Proof.
  intros Hok Hrs Hids w1. unfold position_active.
  replace (w_panes w1) with panes' by done. rewrite (reslotted_position w panes' Hok Hrs). simpl.
  change (set_active w1 (w_active_pane_index w)) with w1.
  apply retain_valid_zoom_id. by apply (wo_zoom w1), reslotted_ok.
Qed.

Lemma rotate_left1_perm {A} (l : list A) : rotate_left1 l ≡ₚ l.
Proof. destruct l as [|x l]; [done|]. simpl. by rewrite Permutation_app_comm. Qed.

Lemma rotate_right1_perm {A} (l : list A) : rotate_right1 l ≡ₚ l.
Proof.
  unfold rotate_right1. destruct l as [|x l _] using rev_ind; [done|]. rewrite last_snoc, length_app.
  simpl. rewrite Nat.add_sub, take_app_length. by rewrite Permutation_app_comm.
Qed.

(** The panes after a rotation: the identities rotate, the slots stay. *)
Definition rotated_panes (reverse : bool) (slots : list Pane) : list Pane :=
  imap (fun index '(slot, p) =>
          pane_set_active (p_active slot) (pane_set_size (p_size slot) (pane_set_index index p)))
    (zip slots (if reverse then rotate_right1 slots else rotate_left1 slots)).

Lemma rotated_length (reverse : bool) (slots : list Pane) :
  length (if reverse then rotate_right1 slots else rotate_left1 slots) = length slots.
Proof. apply Permutation_length. destruct reverse; [apply rotate_right1_perm|apply rotate_left1_perm]. Qed.

Lemma rotated_ids (reverse : bool) (slots : list Pane) :
  ids_of (rotated_panes reverse slots)
  = (if reverse then rotate_right1 (ids_of slots) else rotate_left1 (ids_of slots)).
Proof.
  transitivity (ids_of (if reverse then rotate_right1 slots else rotate_left1 slots)).
  - unfold ids_of, rotated_panes. apply list_eq. intros i.
    rewrite !list_lookup_fmap, list_lookup_imap, lookup_zip_with.
    pose proof (rotated_length reverse slots) as Hl.
    set (rotated := if reverse then rotate_right1 slots else rotate_left1 slots) in *.
    destruct (slots !! i) as [s|] eqn:Hs; simpl.
    + by destruct (rotated !! i).
    + apply lookup_ge_None in Hs. by rewrite (proj2 (lookup_ge_None _ i)) by lia.
  - destruct reverse.
    + unfold rotate_right1, ids_of. rewrite fmap_last. destruct (last slots); simpl; [|done].
      by rewrite fmap_take, length_fmap.
    + destruct slots; [done|]. unfold ids_of. simpl. by rewrite fmap_app.
Qed.

Lemma rotated_reslotted w reverse :
  window_ok w -> reslotted (w_panes w) (rotated_panes reverse (w_panes w)).
Proof.
  intros Hok. pose proof (rotated_length reverse (w_panes w)) as Hl. unfold rotated_panes.
  set (rotated := if reverse then rotate_right1 (w_panes w) else rotate_left1 (w_panes w)) in *. split.
  - intros i p'. rewrite list_lookup_imap, lookup_zip_with.
    destruct (w_panes w !! i) as [slot|] eqn:Hslot; simpl; [|done].
    destruct (rotated !! i) as [p|]; simpl; [|done]. intros [= <-].
    exists slot. simpl. split; [done|]. split; [|done].
    symmetry. apply (wc_index w (wo_core w Hok) _ _ Hslot).
  - rewrite length_imap, length_zip_with, Hl. lia.
Qed.

(** Rotating moves every pane to the next slot and leaves the slots, their
    sizes and the active slot where they are. *)
Lemma rotate_panes_spec w reverse :
  window_ok w ->
  let w' := rotate_panes reverse w in
  window_ok w' /\ (w' = w \/ synced w') /\ (filled w -> filled w')
  /\ ids_of (w_panes w')
     = (if reverse then rotate_right1 (ids_of (w_panes w)) else rotate_left1 (ids_of (w_panes w)))
  /\ (forall i, size_at (w_panes w') i = size_at (w_panes w) i)
  /\ w_active_pane_index w' = w_active_pane_index w
  /\ (synced w -> w_pane_geometries w' = w_pane_geometries w).
Proof.
  intros Hok w'. unfold w', rotate_panes.
  pose proof (rotated_reslotted w reverse Hok) as Hrs.
  pose proof (rotated_ids reverse (w_panes w)) as Hids.
  destruct (Nat.ltb_spec (length (w_panes w)) 2) as [Hs|Hs].
  - split; [done|]. split; [by left|]. split; [done|]. split; [|done].
    pose proof (fo_lt w (wo_focus w Hok)).
    destruct (w_panes w) as [|p [|? ?]]; simpl in *; try lia. by destruct reverse.
  - assert (ids_of (rotated_panes reverse (w_panes w)) ≡ₚ ids_of (w_panes w)) as Hperm.
    { rewrite Hids. destruct reverse; [apply rotate_right1_perm|apply rotate_left1_perm]. }
    destruct (reslotted_ok w _ Hok Hrs Hperm) as (Hok1 & Hsy1 & Hf1).
    fold (rotated_panes reverse (w_panes w)). cbv zeta.
    rewrite (reslotted_finish w _ Hok Hrs Hperm). set (w1 := set_panes w _) in *.
    assert (layout_change w1 (w_panes w1) (w_layout_root w1)) as Hlc.
    { split; [done|apply Hok1|apply Hok1]. }
    rewrite refresh_relaid. destruct (relaid_ok w1 _ _ Hlc Hok1) as [Hok2 Hsy2].
    split; [done|]. split; [by right|]. split; [done|]. split; [done|].
    split; [intros i; by apply reslotted_size_at|]. split; [done|].
    intros Hsy. symmetry. by apply Hsy1.
Qed.

(** ** Swapping *)

Lemma swap_reslotted w i j pi pj :
  w_panes w !! i = Some pi -> w_panes w !! j = Some pj ->
  i <> j ->
  let panes' := <[j := into_slot pj pi]> (<[i := into_slot pi pj]> (w_panes w)) in
  reslotted (w_panes w) panes'
  /\ ids_of panes' = <[j := p_id pi]> (<[i := p_id pj]> (ids_of (w_panes w))).
Proof.
  intros Hi Hj Hne panes'. split; [split|].
  - intros k p' Hp'. unfold panes' in Hp'.
    destruct (decide (k = j)) as [->|Hkj]; [|destruct (decide (k = i)) as [->|Hki]].
    + apply lookup_lt_Some in Hj as Hlt.
      rewrite list_lookup_insert_eq in Hp' by (by rewrite length_insert).
      injection Hp' as <-. by exists pj.
    + apply lookup_lt_Some in Hi as Hlt.
      rewrite list_lookup_insert_ne, list_lookup_insert_eq in Hp' by done.
      injection Hp' as <-. by exists pi.
    + rewrite !list_lookup_insert_ne in Hp' by done. by exists p'.
  - unfold panes'. by rewrite !length_insert.
  - unfold panes', ids_of. by rewrite !list_fmap_insert.
Qed.

(** Swapping two slots exchanges the two identities and nothing else. *)
Lemma swap_pane_indices_spec w i j :
  window_ok w -> (i < length (w_panes w))%nat -> (j < length (w_panes w))%nat ->
  exists w', swap_pane_indices i j w = (w', Ok tt)
    /\ window_ok w' /\ (synced w -> synced w') /\ (filled w -> filled w')
    /\ w_active_pane_index w' = w_active_pane_index w
    /\ w_pane_geometries w' = w_pane_geometries w
    /\ ids_of (w_panes w') ≡ₚ ids_of (w_panes w)
    /\ (forall k, size_at (w_panes w') k = size_at (w_panes w) k)
    /\ forall k, ids_of (w_panes w') !! k =
         ids_of (w_panes w) !! (if decide (k = i) then j else if decide (k = j) then i else k).
Proof.
  intros Hok Hi Hj. unfold swap_pane_indices. destruct (Nat.eqb_spec i j) as [->|Hne].
  - exists w. split; [done|]. repeat split; try done; try apply Hok. intros k. repeat case_decide; congruence.
  - destruct (lookup_lt_is_Some_2 _ _ Hi) as [pi Hpi]. destruct (lookup_lt_is_Some_2 _ _ Hj) as [pj Hpj].
    rewrite Hpi, Hpj. destruct (swap_reslotted w i j pi pj Hpi Hpj Hne) as [Hrs Hids].
    set (panes' := <[j := _]> _) in *.
    assert (ids_of (w_panes w) !! i = Some (p_id pi) /\ ids_of (w_panes w) !! j = Some (p_id pj)) as [Hii Hij].
    { unfold ids_of. by rewrite !list_lookup_fmap, Hpi, Hpj. }
    assert (ids_of panes' ≡ₚ ids_of (w_panes w)) as Hperm.
    { rewrite Hids. by apply Permutation_insert_swap. }
    exists (set_panes w panes'). rewrite (reslotted_finish w panes' Hok Hrs Hperm).
    destruct (reslotted_ok w panes' Hok Hrs Hperm) as (H1 & H2 & H3).
    split; [done|]. split; [done|]. split; [done|]. split; [done|]. split; [done|]. split; [done|]. split; [done|].
    split; [intros k; by apply reslotted_size_at|].
    intros k. cbn [w_panes set_panes]. rewrite Hids.
    assert (i < length (ids_of (w_panes w)))%nat by (unfold ids_of; by rewrite length_fmap).
    assert (j < length (ids_of (w_panes w)))%nat by (unfold ids_of; by rewrite length_fmap).
    case_decide; [|case_decide]; subst.
    + by rewrite list_lookup_insert_ne, list_lookup_insert_eq, Hij by done.
    + rewrite list_lookup_insert_eq by (by rewrite length_insert). by rewrite Hii.
    + by rewrite !list_lookup_insert_ne by done.
Qed.

Lemma swap_panes_spec w first second :
  window_ok w ->
  let '(w', r) := swap_panes first second w in
  match r with
  | Ok _ => window_ok w' /\ (synced w -> synced w') /\ (filled w -> filled w')
  | Err _ => w' = w
  | Panic => False
  end.
Proof.
  intros Hok. unfold swap_panes. op_run. cbv [id].
  pose proof (no_panic_pane_index w first). pose proof (no_panic_pane_index w (Some second)).
  destruct (pane_index w first) as [i| |] eqn:Hi; [|done|done].
  destruct (pane_index w (Some second)) as [j| |] eqn:Hj; [|done|done].
  destruct (swap_pane_indices_spec w i j Hok) as (w' & -> & H1 & H2 & H3 & _);
    [by eapply pane_index_Ok..|]. done.
Qed.

(** Between two windows, each window keeps its slots and takes the other's
    pane into the slot. *)
Section SwapBetween.
Context (w : Window) (i : nat) (slot p : Pane).
Hypotheses (Hok : window_ok w) (Hs : w_panes w !! i = Some slot)
  (Hid : p_id p ∉ ids_of (w_panes w)).
Local Abbreviation panes' := (<[i := into_slot slot p]> (w_panes w)).
Definition swapped_in : Window := refresh_pane_geometries (reindex_panes (set_panes w panes')).

Lemma swapped_reslotted : reslotted (w_panes w) panes'.
Proof using Hs.
  split; [|by rewrite length_insert]. intros k p' Hp'. apply list_lookup_insert_Some in Hp'.
  destruct Hp' as [(-> & <- & _)|[_ Hp']]; [by exists slot|by exists p'].
Qed.

Lemma swapped_reindex : reindex_panes (set_panes w panes') = set_panes w panes'.
Proof using Hok Hs.
  unfold reindex_panes. simpl.
  assert (imap pane_set_index panes' = panes') as ->; [|done].
  apply list_eq. intros k. rewrite list_lookup_imap.
  destruct (panes' !! k) as [q|] eqn:Hq; [|done]. simpl. f_equal.
  destruct (rs_slots _ _ swapped_reslotted k q Hq) as (sl & Hsl & E & _).
  rewrite (wc_index w (wo_core w Hok) _ _ Hsl) in E. destruct q; simpl in *; by subst.
Qed.

Lemma swapped_in_ok :
  window_core swapped_in /\ root_ok swapped_in /\ synced swapped_in
  /\ (filled w -> filled swapped_in)
  /\ ids_of (w_panes swapped_in) = <[i := p_id p]> (ids_of (w_panes w)).
Proof using All.
  unfold swapped_in. rewrite swapped_reindex. pose proof swapped_reslotted as Hrs.
  assert (ids_of panes' = <[i := p_id p]> (ids_of (w_panes w))) as Hids
    by (unfold ids_of; by rewrite list_fmap_insert).
  assert (NoDup (ids_of panes')) as Hnd.
  { rewrite Hids. pose proof (wc_ids w (wo_core w Hok)) as Hn.
    assert (ids_of (w_panes w) !! i = Some (p_id slot)) as Hl
      by (unfold ids_of; by rewrite list_lookup_fmap, Hs).
    apply list_elem_of_split_length in Hl as (l1 & l2 & E & Hlen). rewrite E in Hn, Hid |- *.
    rewrite Hlen, insert_app_r_alt, Nat.sub_diag by lia. simpl.
    apply NoDup_app in Hn as (N1 & N2 & N3). apply NoDup_cons in N3 as [N3 N4].
    apply NoDup_app. split; [done|]. split; [set_solver|]. apply NoDup_cons. set_solver. }
  split; [|split; [|split; [done|split; [by apply reslotted_filled|done]]]].
  - destruct (reslotted_core w panes' (wo_core w Hok) Hrs Hnd) as [H1 H2 H3 H4 H5]. by split.
  - unfold root_ok. simpl. rewrite (rs_length _ _ Hrs). apply Hok.
Qed.
End SwapBetween.

Lemma swap_panes_between_spec first i second j :
  window_ok first -> window_ok second ->
  (forall id, id ∈ ids_of (w_panes first) -> id ∉ ids_of (w_panes second)) ->
  (i < length (w_panes first))%nat -> (j < length (w_panes second))%nat ->
  exists first' second', swap_panes_between first i second j = Ok (first', second')
    /\ (window_core first' /\ root_ok first' /\ synced first' /\ (filled first -> filled first'))
    /\ (window_core second' /\ root_ok second' /\ synced second' /\ (filled second -> filled second'))
    /\ ids_of (w_panes first') ++ ids_of (w_panes second')
       ≡ₚ ids_of (w_panes first) ++ ids_of (w_panes second).
Proof.
  intros Hok1 Hok2 Hdis Hi Hj.
  destruct (lookup_lt_is_Some_2 _ _ Hi) as [p1 Hp1]. destruct (lookup_lt_is_Some_2 _ _ Hj) as [p2 Hp2].
  unfold swap_panes_between, index_or_panic. rewrite Hp1, Hp2. cbn [mbind outcome_bind].
  assert (ids_of (w_panes first) !! i = Some (p_id p1)) as H1
    by (unfold ids_of; by rewrite list_lookup_fmap, Hp1).
  assert (ids_of (w_panes second) !! j = Some (p_id p2)) as H2
    by (unfold ids_of; by rewrite list_lookup_fmap, Hp2).
  pose proof (list_elem_of_lookup_2 _ _ _ H1) as E1. pose proof (list_elem_of_lookup_2 _ _ _ H2) as E2.
  destruct (swapped_in_ok first i p1 p2 Hok1 Hp1) as (A1 & A2 & A3 & A4 & A5);
    [by intros H; apply (Hdis _ H)|].
  destruct (swapped_in_ok second j p2 p1 Hok2 Hp2) as (B1 & B2 & B3 & B4 & B5); [by apply Hdis|].
  exists (swapped_in first i p1 p2), (swapped_in second j p2 p1). split; [done|].
  split; [done|]. split; [done|].
  rewrite A5, B5. set (l := ids_of (w_panes first)) in *. set (k := ids_of (w_panes second)) in *.
  rewrite <- (Permutation_insert_swap (l ++ k) i (length l + j) (p_id p1) (p_id p2)).
  - rewrite insert_app_l by (by eapply lookup_lt_Some).
    rewrite insert_app_r_alt by (rewrite length_insert; lia). rewrite length_insert.
    by replace (length l + j - length l)%nat with j by lia.
  - by apply lookup_app_l_Some.
  - rewrite lookup_app_r by lia. by replace (length l + j - length l)%nat with j by lia.
Qed.

(** ** Selection, zoom and names *)

(** Selecting a slot changes the focus and nothing of the layout. *)
Lemma select_ok w index :
  window_ok w -> (index < length (w_panes w))%nat ->
  let w' := set_active_pane_index index w in
  window_ok w' /\ (synced w -> synced w') /\ (filled w -> filled w')
  /\ active_id w' = ids_of (w_panes w) !! index.
Proof.
  intros Hok Hlt w'. split; [apply set_active_ok; try done; apply Hok|].
  split; [apply set_active_synced|]. split; [apply set_active_filled|]. apply set_active_lookup_id.
Qed.

(** The outcome of an operation that only selects. *)
Definition selects (w : Window) (index : nat) (w' : Window) : Prop :=
  window_ok w' /\ (synced w -> synced w') /\ (filled w -> filled w')
  /\ active_id w' = ids_of (w_panes w) !! index.

Lemma select_pane_spec w target :
  window_ok w ->
  let '(w', r) := select_pane target w in
  match r with
  | Ok _ => exists index, pane_index w (Some target) = Ok index /\ selects w index w'
  | Err _ => w' = w
  | Panic => False
  end.
Proof.
  intros Hok. unfold select_pane. pose proof (no_panic_pane_index w (Some target)).
  destruct (pane_index w (Some target)) as [i| |] eqn:Hi; [|done|done].
  exists i. split; [done|]. apply select_ok; [done|]. by eapply pane_index_Ok.
Qed.

Lemma select_last_pane_spec w :
  window_ok w ->
  let '(w', r) := select_last_pane w in
  match r with
  | Ok _ => exists index, w_last_active_pane_index w = Some index /\ selects w index w'
  | Err _ => w' = w
  | Panic => False
  end.
Proof.
  intros Hok. unfold select_last_pane.
  destruct (w_last_active_pane_index w) as [i|] eqn:Hi; [|done].
  destruct (Nat.ltb_spec i (length (w_panes w))); [|done].
  exists i. split; [done|]. by apply select_ok.
Qed.

(** Selecting another pane and then the last pane returns to where it was. *)
Lemma select_then_last w index :
  window_ok w -> (index < length (w_panes w))%nat -> index <> w_active_pane_index w ->
  let w1 := set_active_pane_index index w in
  w_last_active_pane_index w1 = Some (w_active_pane_index w)
  /\ last (w_pane_focus_history w1) = active_id w
  /\ exists w2, select_last_pane w1 = (w2, Ok tt) /\ active_id w2 = active_id w.
Proof.
  intros Hok Hlt Hne w1. destruct (wo_focus w Hok) as [Hal Ha Hd Hh].
  destruct (lookup_lt_is_Some_2 _ _ Hal) as [p Hp].
  assert (record_focus index w
          = set_history (set_last w (Some (w_active_pane_index w)))
              (record_bounded_focus (w_pane_focus_history w) (p_id p))) as Hrec.
  { unfold record_focus. rewrite (proj2 (Nat.eqb_neq _ _)) by done. simpl. rewrite Hp.
    by rewrite (Ha _ _ Hp), Nat.eqb_refl. }
  assert (active_id w = Some (p_id p)) as Hid by (unfold active_id, ids_of; by rewrite list_lookup_fmap, Hp).
  assert (w_last_active_pane_index w1 = Some (w_active_pane_index w)) as Hlast.
  { unfold w1. rewrite set_active_pane_index_unfold, Hrec. done. }
  destruct (record_bounded_focus_spec (w_pane_focus_history w) (p_id p)) as (Hb & Hl & Hnd);
    [apply Hok|].
  split; [done|]. split.
  - unfold w1. rewrite set_active_pane_index_unfold, Hrec.
    cbn [set_active_pane_index_without_history prune_pane_focus_history set_history
         w_pane_focus_history set_panes set_active set_last].
    rewrite prune_filter by (by apply Hnd). simpl. rewrite Hid.
    destruct (record_bounded_focus (w_pane_focus_history w) (p_id p)) as [|x l _] using rev_ind; [done|].
    rewrite last_snoc in Hl. injection Hl as ->. rewrite filter_app, filter_cons_True; [by rewrite filter_nil, last_snoc|].
    change (p_id p ∈ ids_of (w_panes (set_active_pane_index_without_history index w))).
    rewrite activate_ids. unfold ids_of.
    apply list_elem_of_fmap. exists p. split; [done|]. by eapply list_elem_of_lookup_2.
  - unfold select_last_pane. rewrite Hlast. destruct (set_active_same index w) as (Hids & Hlen & _).
    fold w1 in Hids, Hlen. rewrite Hlen, (proj2 (Nat.ltb_lt _ _)) by done.
    eexists. split; [done|]. rewrite set_active_lookup_id, Hids. done.
Qed.

(** Replacing the zoomed pane by a pane of the window, or by none. *)
Lemma set_zoomed_ok w z :
  window_ok w -> (forall id, z = Some id -> id ∈ ids_of (w_panes w)) -> window_ok (set_zoomed w z).
Proof. intros [Hc Hr Hf Hz] H. destruct Hc, Hf. by split. Qed.

(** What neither moves panes nor changes their sizes. *)
Definition layout_kept (w w' : Window) : Prop :=
  window_ok w' /\ (synced w -> synced w') /\ (filled w -> filled w')
  /\ ids_of (w_panes w') = ids_of (w_panes w).

Lemma set_zoomed_kept w z :
  window_ok w -> (forall id, z = Some id -> id ∈ ids_of (w_panes w)) -> layout_kept w (set_zoomed w z).
Proof. intros Hok H. split; [by apply set_zoomed_ok|done]. Qed.

Lemma layout_kept_refl w : window_ok w -> layout_kept w w.
Proof. done. Qed.

(** Toggling zooms the active pane, and toggling again undoes it. *)
Lemma toggle_zoom_spec w :
  window_ok w -> exists w' z, toggle_zoom_active w = (w', Ok z) /\ layout_kept w w'
    /\ z = w_zoomed_pane_id w' /\ z = (if bool_decide (w_zoomed_pane_id w = active_id w) then None
                                        else active_id w).
Proof.
  intros Hok. destruct (lookup_lt_is_Some_2 _ _ (fo_lt w (wo_focus w Hok))) as [p Hp].
  assert (active_id w = Some (p_id p)) as Hid by (unfold active_id, ids_of; by rewrite list_lookup_fmap, Hp).
  unfold toggle_zoom_active. rewrite Hp, Hid. eexists _, _. split; [reflexivity|].
  destruct (bool_decide (w_zoomed_pane_id w = Some (p_id p))).
  - split; [by apply set_zoomed_kept|done].
  - split; [|done]. apply set_zoomed_kept; [done|]. intros id [= <-].
    by eapply (list_elem_of_lookup_2 _ (w_active_pane_index w)).
Qed.

Lemma set_pane_zoom_spec w pane_id zoomed :
  window_ok w ->
  let '(w', r) := set_pane_zoom pane_id zoomed w in
  match r with
  | Ok z => pane_id ∈ ids_of (w_panes w) /\ layout_kept w w' /\ z = w_zoomed_pane_id w'
      /\ (zoomed = true -> z = Some pane_id) /\ (zoomed = false -> z <> Some pane_id)
  | Err _ => w' = w /\ pane_id ∉ ids_of (w_panes w)
  | Panic => False
  end.
Proof.
  intros Hok. unfold set_pane_zoom. destruct (has_pane_id (w_panes w) pane_id) eqn:Hh; simpl.
  - apply has_pane_id_spec in Hh. split; [done|]. destruct zoomed.
    + split; [|done]. apply set_zoomed_kept; [done|]. by intros id [= <-].
    + case_bool_decide; (split; [|done]); [by apply set_zoomed_kept|done].
  - split; [done|]. rewrite <- has_pane_id_spec. by rewrite Hh.
Qed.

Lemma rename_kept w name source : window_ok w -> layout_kept w (set_name w name source).
Proof. intros [Hc Hr Hf Hz]. split; [|done]. destruct Hc, Hf. by split. Qed.

(** Restoring a client's navigation state. *)
Lemma apply_client_navigation_ok w active last history zoomed :
  window_ok w -> (length history <= 10)%nat ->
  let w' := apply_client_navigation_state active last history zoomed w in
  layout_kept w w' /\ active_id w' = ids_of (w_panes w) !! default 0%nat (active ≫= position_of_id (w_panes w)).
Proof.
  intros Hok Hh. unfold apply_client_navigation_state.
  rewrite (nonempty_match (w_panes w)) by (by apply window_nonempty).
  set (index := default 0%nat (active ≫= position_of_id (w_panes w))).
  assert (index < length (w_panes w))%nat as Hlt.
  { pose proof (fo_lt w (wo_focus w Hok)). unfold index. destruct active as [a|]; simpl; [|lia].
    destruct (position_of_id (w_panes w) a) eqn:E; simpl; [by eapply position_of_id_lt|lia]. }
  set (w1 := set_active_pane_index_without_history index w).
  assert (window_ok w1) as Hok1 by (apply activate_ok; try done; apply Hok).
  cbv zeta. match goal with |- layout_kept _ ?x /\ _ => set (w' := x) end.
  assert (ids_of (w_panes w') = ids_of (w_panes w)) as Hids by apply (activate_ids w index).
  split.
  - split; [|split; [|split; [|done]]].
    + destruct Hok1 as [Hc Hr Hf Hz]. destruct Hc as [Hi Hn Hu Hs Hb].
      set (h := prune (w_panes w1) (List.filter (has_pane_id (w_panes w1)) history) []).
      destruct (prune_nil_spec (w_panes w1) (List.filter (has_pane_id (w_panes w1)) history))
        as (P1 & P2 & P3).
      assert (length h <= 10)%nat as Hb'.
      { etransitivity; [exact P3|]. etransitivity; [apply List.filter_length_le|done]. }
      destruct Hf as [Hl Ha _ _]. split; [by split|done|by split|].
      intros id. simpl. destruct zoomed as [z|]; [|done]. simpl.
      match goal with |- context [if ?b then _ else _] => destruct b eqn:Hz' end; [|done].
      intros [= <-]. apply has_pane_id_spec in Hz'. done.
    + apply (activate_synced w index).
    + apply (activate_filled w index).
  - unfold active_id. by rewrite Hids.
Qed.

(** Capturing a client's navigation state and applying it to the window it
    was taken from changes nothing of the focus. *)
Lemma client_navigation_roundtrip w :
  window_ok w ->
  let '(active, last, history, zoomed) := client_navigation_state w in
  let w' := apply_client_navigation_state active last history zoomed w in
  active_id w' = active_id w /\ w_pane_focus_history w' = w_pane_focus_history w
  /\ w_zoomed_pane_id w' = w_zoomed_pane_id w /\ w_active_pane_index w' = w_active_pane_index w.
Proof.
  intros Hok. unfold client_navigation_state.
  destruct (wo_focus w Hok) as [Hlt Ha Hd Hh].
  destruct (lookup_lt_is_Some_2 _ _ Hlt) as [p Hp].
  assert (ids_of (w_panes w) !! w_active_pane_index w = Some (p_id p)) as Hid
    by (unfold ids_of; by rewrite list_lookup_fmap, Hp).
  assert (position_of_id (w_panes w) (p_id p) = Some (w_active_pane_index w)) as Hpos.
  { destruct (position_of_id_is_Some (w_panes w) (p_id p)) as [j Hj]; [by eapply list_elem_of_lookup_2|].
    rewrite Hj. f_equal. apply position_of_id_lookup in Hj.
    by apply (NoDup_lookup _ _ _ _ (wc_ids w (wo_core w Hok)) Hj Hid). }
  rewrite Hp. unfold apply_client_navigation_state.
  rewrite (nonempty_match (w_panes w)) by (by apply window_nonempty).
  cbn [fmap option_fmap option_map mbind option_bind]. rewrite Hpos. cbn [default].
  cbv zeta. set (w1 := set_active_pane_index_without_history (w_active_pane_index w) w).
  assert (ids_of (w_panes w1) = ids_of (w_panes w)) as Hids by apply activate_ids.
  assert (forall id, id ∈ ids_of (w_panes w) -> has_pane_id (w_panes w1) id = true) as Hhas.
  { intros id Hi. apply has_pane_id_spec. by rewrite Hids. }
  split.
  { change (ids_of (w_panes w1) !! w_active_pane_index w = active_id w). by rewrite Hids. }
  split; [|split; [|done]].
  - change (prune (w_panes w1) (List.filter (has_pane_id (w_panes w1)) (w_pane_focus_history w)) []
            = w_pane_focus_history w).
    assert (List.filter (has_pane_id (w_panes w1)) (w_pane_focus_history w) = w_pane_focus_history w) as ->.
    { apply List.forallb_filter_id, forallb_forall. intros id Hi. apply Hhas, Hh. by apply list_elem_of_In. }
    rewrite prune_filter by done. rewrite app_nil_l. apply filter_all, Forall_forall.
    intros id Hi. rewrite Hids. by apply Hh.
  - change ((w_zoomed_pane_id w ≫= fun id => if has_pane_id (w_panes w1) id then Some id else None)
            = w_zoomed_pane_id w).
    destruct (w_zoomed_pane_id w) as [z|] eqn:Hz; [|done].
    cbn [mbind option_bind]. by rewrite (Hhas z (wo_zoom w Hok z Hz)).
Qed.

(** ** Policies and sizes *)

Lemma set_policy_ok w policy : window_ok w -> window_ok (set_policy w policy).
Proof. intros [Hc Hr Hf Hz]. destruct Hc, Hf. by split. Qed.

Lemma set_layout_policy_spec w policy :
  window_ok w ->
  exists w', set_layout_policy policy w = (w', Ok policy) /\ window_ok w' /\ synced w'
    /\ w_layout_policy w' = policy /\ ids_of (w_panes w') = ids_of (w_panes w)
    /\ active_id w' = active_id w
    /\ (policy_fits policy (w_size w) (length (w_panes w)) = true -> filled w').
Proof.
  intros Hok. pose proof (set_policy_ok w policy Hok) as Hok1.
  destruct (apply_policy_ok _ Hok1) as (panes & root & Heq & Hlc & Hex).
  destruct (relaid_ok _ panes root Hlc Hok1) as [Hok2 Hsy2].
  exists (relaid (set_policy w policy) panes root).
  split; [unfold set_layout_policy; op_run; by rewrite Heq|].
  split; [done|]. split; [done|]. split; [done|].
  split; [apply (unsized_ids _ _ (lc_unsized _ _ _ Hlc))|].
  split; [by rewrite relaid_active_id|]. intros Hf. by apply Hex.
Qed.

Lemma cycle_layout_eq w :
  cycle_layout w = set_layout_policy (LayoutPolicy_next (w_layout_policy w)) w.
Proof. done. Qed.

Lemma set_size_ok w size : window_ok w -> valid_size size -> window_ok (set_size w size).
Proof. intros [Hc Hr Hf Hz] Hs. destruct Hc, Hf. by split. Qed.

Lemma validate_resize_Ok w size :
  u16_size size -> validate_resize w size = Ok tt ->
  valid_size size
  /\ columns (minimum_size (w_layout_root w)) <= columns size
  /\ rows (minimum_size (w_layout_root w)) <= rows size.
Proof.
  intros Hu. unfold validate_resize. destruct ((columns size =? 0) || (rows size =? 0)); [done|].
  intros ([] & Hv & H)%bind_Ok_inv. apply Size_validate_Ok in Hv; [|done].
  match type of H with (if ?b then _ else _) = _ => destruct b eqn:Hb end; [done|].
  bool_to_prop. done.
Qed.

Lemma no_panic_validate_resize w size : no_panic (validate_resize w size).
Proof.
  unfold validate_resize. apply no_panic_if; [done|]. apply no_panic_bind; [|auto with mez].
  unfold Size_validate, TerminalSize_validate, from_size_error. by repeat destruct_match.
Qed.

(** When the panes of a resized window fill it again. *)
Definition resize_fills (w : Window) (size : Size) : Prop :=
  if layout_policy_rebalances w
  then policy_fits (w_layout_policy w) size (length (w_panes w)) = true
  else fits (w_panes w) (w_layout_root w) size.

Lemma resize_window_spec w size :
  window_ok w -> u16_size size ->
  let '(w', r) := resize_window size w in
  match r with
  | Ok _ => valid_size size /\ window_ok w' /\ synced w' /\ w_size w' = size
      /\ ids_of (w_panes w') = ids_of (w_panes w) /\ active_id w' = active_id w
      /\ (resize_fills w size -> filled w')
  | Err _ => w' = w
  | Panic => False
  end.
Proof.
  intros Hok Hu. unfold resize_window. op_run. cbv [id].
  pose proof (no_panic_validate_resize w size) as Hnp.
  destruct (validate_resize w size) as [[]|e|] eqn:Hv; [|done|done]. clear Hnp.
  apply validate_resize_Ok in Hv as (Hv & _); [|done].
  pose proof (set_size_ok w size Hok Hv) as Hok1. set (w1 := set_size w size) in *.
  assert (exists panes root,
    (if layout_policy_rebalances w1 then apply_layout_policy w1
     else (refresh_pane_geometries (set_panes w1 (resize_panes (w_layout_root w1) (w_panes w1) size)), Ok tt))
    = (relaid w1 panes root, Ok tt) /\ layout_change w1 panes root
    /\ (resize_fills w size -> exact panes root size)) as (panes & root & -> & Hlc & Hex).
  { unfold resize_fills. change (layout_policy_rebalances w1) with (layout_policy_rebalances w).
    destruct (layout_policy_rebalances w).
    - destruct (apply_policy_ok w1 Hok1) as (panes & root & Heq & Hlc & Hex). eauto 10.
    - exists (resize_panes (w_layout_root w) (w_panes w) size), (w_layout_root w).
      pose proof (resize_panes_same (w_layout_root w) (w_panes w) size) as Hsame.
      split; [done|]. split; [split|].
      + by eapply same_unsized.
      + apply resize_panes_u16; [apply Hok|done].
      + rewrite (proj1 Hsame). apply Hok.
      + intros Hf. apply resize_exact; [|done|apply Hok|done].
        eapply tree_ok_NoDup. apply Hok. }
  destruct (relaid_ok w1 panes root Hlc Hok1) as [Hok2 Hsy2].
  split; [done|]. split; [done|]. split; [done|]. split; [done|].
  split; [apply (unsized_ids _ _ (lc_unsized _ _ _ Hlc))|]. split; [by rewrite relaid_active_id|done].
Qed.

(** Growing a filled window keeps it filled, whatever its tree. *)
Lemma grow_fills w size :
  window_ok w -> filled w -> layout_policy_rebalances w = false ->
  columns (w_size w) <= columns size <= u16_MAX -> rows (w_size w) <= rows size <= u16_MAX ->
  resize_fills w size.
Proof.
  intros Hok Hf Hr Hc Hro. unfold resize_fills. rewrite Hr.
  eapply exact_fits; [exact Hf|apply Hok|done|done].
Qed.

Lemma validate_pane_size_Ok size :
  u16_size size -> validate_pane_size size = Ok tt ->
  valid_size size /\ 2 <= columns size /\ 2 <= rows size.
Proof.
  intros Hu. unfold validate_pane_size. intros ([] & Hv & H)%bind_Ok_inv.
  apply Size_validate_Ok in Hv; [|done].
  match type of H with (if ?b then _ else _) = _ => destruct b eqn:Hb end; [done|].
  unfold MIN_PANE_COLUMNS, MIN_PANE_ROWS in *. by bool_to_prop.
Qed.

(** An explicit pane size is checked against the minimum and stored. *)
Lemma resize_pane_at_index_spec w index size :
  window_ok w -> (index < length (w_panes w))%nat -> u16_size size ->
  let '(w', r) := resize_pane_at_index index size w in
  match r with
  | Ok p => window_ok w' /\ synced w' /\ w_panes w' !! index = Some p /\ p_size p = size
      /\ 2 <= columns size /\ 2 <= rows size
      /\ ids_of (w_panes w') = ids_of (w_panes w) /\ active_id w' = active_id w
      /\ (forall i, i <> index -> w_panes w' !! i = w_panes w !! i)
  | Err _ => w' = w
  | Panic => False
  end.
Proof.
  intros Hok Hlt Hu. unfold resize_pane_at_index. op_run.
  pose proof (no_panic_validate_pane_size size) as Hnp.
  destruct (validate_pane_size size) as [[]|e|] eqn:Hv; [|done|done]. clear Hnp.
  apply validate_pane_size_Ok in Hv as (Hv & Hc & Hr); [|done].
  destruct (lookup_lt_is_Some_2 _ _ Hlt) as [p Hp]. rewrite Hp.
  set (panes := <[index := pane_set_size size p]> (w_panes w)).
  assert (layout_change w panes (w_layout_root w)) as Hlc.
  { split; unfold panes.
    - by apply unsized_insert.
    - apply panes_u16_insert; [apply Hok|done].
    - rewrite length_insert. apply Hok. }
  destruct (relaid_ok w panes _ Hlc Hok) as [Hok1 Hsy1].
  split; [exact Hok1|]. split; [exact Hsy1|].
  split; [by apply list_lookup_insert_eq|]. split; [done|]. split; [done|]. split; [done|].
  split; [apply (unsized_ids _ _ (lc_unsized _ _ _ Hlc))|].
  split; [by apply (relaid_active_id w panes _ Hlc)|].
  intros i Hi. by apply list_lookup_insert_ne.
Qed.
