(* ===== verification/WindowNav.v ===== *)
(** * Directional pane navigation ([Window::select_adjacent_pane])

    The candidates in a direction, the preference for the pane the focus came
    from, the fallback that wraps around the window, and the theorem that in a
    filled window a directional move can be undone by the opposite one. *)

From S2P Require Import Prelude RustStr Ids LayoutTypes Sizing LayoutTree Tiling TreeEdits WindowOps PolicyLayouts WindowInv WindowSteps WindowMoves.
Import Node Win.
Local Open Scope Z_scope.

Module Nav.
(** [PaneRect] is a field-by-field copy of [PaneGeometry]. *)
Abbreviation PaneRect := PaneGeometry.

Definition right (r : PaneRect) : Z := sat_add u16_MAX (g_column r) (g_columns r).
Definition bottom (r : PaneRect) : Z := sat_add u16_MAX (g_row r) (g_rows r).
Definition center_column_twice (r : PaneRect) : Z :=
  sat_add u32_MAX (sat_mul u32_MAX (g_column r) 2) (g_columns r).
Definition center_row_twice (r : PaneRect) : Z :=
  sat_add u32_MAX (sat_mul u32_MAX (g_row r) 2) (g_rows r).

Definition abs_delta (first second : Z) : Z := sat_sub (Z.max first second) (Z.min first second).

(** The derived order compares the fields in this order. *)
Record DirectionalCandidate := mkCandidate { dc_distance : Z; dc_center_delta : Z; dc_index : nat }.

Definition candidate_lt (a b : DirectionalCandidate) : bool :=
  (dc_distance a <? dc_distance b)
  || ((dc_distance a =? dc_distance b)
      && ((dc_center_delta a <? dc_center_delta b)
          || ((dc_center_delta a =? dc_center_delta b) && (dc_index a <? dc_index b)%nat))).

Record WrappedDirectionalCandidate := mkWrapped {
  wc_overlap_rank : Z; wc_edge_distance : Z; wc_center_delta : Z; wc_pane : nat }.

Definition wrapped_lt (a b : WrappedDirectionalCandidate) : bool :=
  (wc_overlap_rank a <? wc_overlap_rank b)
  || ((wc_overlap_rank a =? wc_overlap_rank b)
      && ((wc_edge_distance a <? wc_edge_distance b)
          || ((wc_edge_distance a =? wc_edge_distance b)
              && ((wc_center_delta a <? wc_center_delta b)
                  || ((wc_center_delta a =? wc_center_delta b) && (wc_pane a <? wc_pane b)%nat))))).

Definition column_overlap (candidate active : PaneRect) : Z :=
  range_overlap_u16 (g_column candidate) (right candidate) (g_column active) (right active).
Definition row_overlap (candidate active : PaneRect) : Z :=
  range_overlap_u16 (g_row candidate) (bottom candidate) (g_row active) (bottom active).
Definition column_delta (candidate active : PaneRect) : Z :=
  abs_delta (center_column_twice candidate) (center_column_twice active).
Definition row_delta (candidate active : PaneRect) : Z :=
  abs_delta (center_row_twice candidate) (center_row_twice active).

Definition directional_candidate (active candidate : PaneRect) (direction : PaneNavigationDirection)
    : option DirectionalCandidate :=
  let '(in_direction, overlap, distance, center_delta) :=
    match direction with
    | NavUp => (bottom candidate <=? g_row active, column_overlap candidate active,
                sat_sub (g_row active) (bottom candidate), column_delta candidate active)
    | NavDown => (bottom active <=? g_row candidate, column_overlap candidate active,
                  sat_sub (g_row candidate) (bottom active), column_delta candidate active)
    | NavLeft => (right candidate <=? g_column active, row_overlap candidate active,
                  sat_sub (g_column active) (right candidate), row_delta candidate active)
    | NavRight => (right active <=? g_column candidate, row_overlap candidate active,
                   sat_sub (g_column candidate) (right active), row_delta candidate active)
    end in
  if in_direction && (0 <? overlap)
  then Some (mkCandidate distance center_delta (g_index candidate)) else None.

Definition wrapped_directional_candidate (active candidate : PaneRect)
    (direction : PaneNavigationDirection) : option WrappedDirectionalCandidate :=
  let '(overlap, edge_distance, center_delta) :=
    match direction with
    | NavUp => (column_overlap candidate active, sat_sub u16_MAX (bottom candidate),
                column_delta candidate active)
    | NavDown => (column_overlap candidate active, g_row candidate, column_delta candidate active)
    | NavLeft => (row_overlap candidate active, sat_sub u16_MAX (right candidate),
                  row_delta candidate active)
    | NavRight => (row_overlap candidate active, g_column candidate, row_delta candidate active)
    end in
  if overlap =? 0 then None else Some (mkWrapped 0 edge_distance center_delta (g_index candidate)).

(** [slice::iter().find(p)]. *)
Definition find {A} (p : A -> bool) (l : list A) : option A := List.find p l.

Definition direct_candidates (w : Window) (active : PaneRect) (direction : PaneNavigationDirection)
    : list DirectionalCandidate :=
  omap (fun r => directional_candidate active r direction)
    (List.filter (fun r => negb (g_index r =? w_active_pane_index w)%nat) (w_pane_geometries w)).

(** The pane the focus came from, when it is among the nearest. *)
Definition backtrack (w : Window) (candidates : list DirectionalCandidate) : option nat :=
  match w_last_active_pane_index w with
  | Some last =>
      if negb (last =? w_active_pane_index w)%nat then
        match find (fun c => (dc_index c =? last)%nat) candidates with
        | Some c =>
            if bool_decide (Some (dc_distance c)
                            = (match candidates with
                               | [] => None
                               | d :: ds => Some (foldl Z.min (dc_distance d) (dc_distance <$> ds))
                               end))
            then Some (dc_index c) else None
        | None => None
        end
      else None
  | None => None
  end.

Definition wrapped (w : Window) (active : PaneRect) (direction : PaneNavigationDirection) : option nat :=
  wc_pane <$> iter_min wrapped_lt
    (omap (fun r => wrapped_directional_candidate active r direction)
      (List.filter (fun r => negb (g_index r =? w_active_pane_index w)%nat) (w_pane_geometries w))).

Definition adjacent_pane (w : Window) (active : PaneRect) (direction : PaneNavigationDirection)
    : option nat :=
  let candidates := direct_candidates w active direction in
  match backtrack w candidates with
  | Some index => Some index
  | None =>
      match dc_index <$> iter_min candidate_lt candidates with
      | Some index => Some index
      | None => wrapped w active direction
      end
  end.

Definition select_adjacent_pane (direction : PaneNavigationDirection) : method unit := fun w =>
  match w_panes w with
  | [] => (w, Err (invalid_state "window has no panes"))
  | _ =>
      match find (fun r => (g_index r =? w_active_pane_index w)%nat) (w_pane_geometries w) with
      | None => (w, Ok tt)
      | Some active =>
          match adjacent_pane w active direction with
          | Some next => (set_active_pane_index next w, Ok tt)
          | None => (w, Ok tt)
          end
      end
  end.
End Nav.
Import Nav.

(** ** Minima *)

Lemma foldl_min_le l x : foldl Z.min x l <= x /\ Forall (fun y => foldl Z.min x l <= y) l.
Proof.
  revert x. induction l as [|y l IH]; intros x; simpl; [split; [lia|done]|].
  destruct (IH (Z.min x y)) as [H1 H2]. split; [lia|]. constructor; [lia|done].
Qed.

Lemma foldl_min_elem l x : foldl Z.min x l = x \/ foldl Z.min x l ∈ l.
Proof.
  revert x. induction l as [|y l IH]; intros x; simpl; [by left|].
  destruct (IH (Z.min x y)) as [->|H]; [|right; set_solver].
  destruct (Z.min_spec x y) as [[_ ->]|[_ ->]]; [by left|right; set_solver].
Qed.

(** The lexicographic minimum has the least distance. *)
Lemma min_candidate_distance l c :
  iter_min candidate_lt l = Some c -> Forall (fun d => dc_distance c <= dc_distance d) l.
Proof.
  destruct l as [|x l]; [done|]. simpl. intros [= <-]. revert x.
  induction l as [|y l IH]; intros x; simpl; [by repeat constructor|].
  specialize (IH (if candidate_lt y x then y else x)). apply Forall_cons in IH as [H1 H2].
  assert (dc_distance (if candidate_lt y x then y else x) <= dc_distance x
          /\ dc_distance (if candidate_lt y x then y else x) <= dc_distance y) as [H3 H4].
  { destruct (candidate_lt y x) eqn:Hlt; unfold candidate_lt in Hlt; [|bool_to_prop; lia].
    apply orb_true_iff in Hlt as [Hlt|Hlt]; bool_to_prop; lia. }
  constructor; [lia|]. constructor; [lia|done].
Qed.

(** ** The rectangles of a window *)

Lemma geometry_unique w g h :
  indexed w -> g ∈ w_pane_geometries w -> h ∈ w_pane_geometries w ->
  g_index g = g_index h -> g = h.
Proof.
  unfold indexed. intros Hix Hg Hh He.
  assert (NoDup (g_index <$> w_pane_geometries w)) as Hnd.
  { rewrite Hix. apply NoDup_ListNoDup, seq_NoDup. }
  apply list_elem_of_lookup in Hg as [i Hi]. apply list_elem_of_lookup in Hh as [j Hj].
  assert (i = j) as ->; [|congruence].
  eapply (NoDup_lookup _ _ _ (g_index g) Hnd); rewrite list_lookup_fmap;
    [by rewrite Hi|rewrite Hj; simpl; congruence].
Qed.

Lemma find_geometry w i :
  indexed w -> (i < length (w_panes w))%nat ->
  exists g, find (fun r => (g_index r =? i)%nat) (w_pane_geometries w) = Some g
            /\ g ∈ w_pane_geometries w /\ g_index g = i.
Proof.
  unfold indexed. intros Hix Hi.
  assert (i ∈ g_index <$> w_pane_geometries w) as (g & -> & Hg)%list_elem_of_fmap.
  { rewrite Hix. apply elem_of_seq. lia. }
  unfold find. destruct (List.find (fun r => (g_index r =? g_index g)%nat) (w_pane_geometries w)) as [h|] eqn:Hf.
  - apply find_some in Hf as [Hin He]. bool_to_prop. exists h. by rewrite list_elem_of_In.
  - apply list_elem_of_In in Hg. pose proof (find_none _ _ Hf g Hg) as Hn. simpl in Hn.
    by rewrite Nat.eqb_refl in Hn.
Qed.

Lemma geometry_index_lt w g :
  indexed w -> g ∈ w_pane_geometries w -> (g_index g < length (w_panes w))%nat.
Proof.
  unfold indexed. intros Hix Hg. assert (g_index g ∈ g_index <$> w_pane_geometries w) as H.
  { apply list_elem_of_fmap. by exists g. }
  rewrite Hix in H. apply elem_of_seq in H. lia.
Qed.

(** ** The operation on every window *)

Lemma direct_candidates_elem w active dir c :
  c ∈ direct_candidates w active dir ->
  exists r, r ∈ w_pane_geometries w /\ g_index r <> w_active_pane_index w
            /\ directional_candidate active r dir = Some c.
Proof.
  intros (r & Hr & Hc)%list_elem_of_omap. apply list_elem_of_In, filter_In in Hr as [Hr Hne].
  bool_to_prop. exists r. by rewrite list_elem_of_In.
Qed.

Lemma directional_candidate_index active r dir c :
  directional_candidate active r dir = Some c -> dc_index c = g_index r.
Proof. unfold directional_candidate. by destruct dir; destruct (_ && _); intros [= <-]. Qed.

Lemma find_elem {A} (p : A -> bool) l x : find p l = Some x -> x ∈ l /\ p x = true.
Proof. intros H. apply find_some in H as [H1 H2]. by rewrite list_elem_of_In. Qed.

Lemma backtrack_elem w candidates i :
  backtrack w candidates = Some i ->
  exists c, c ∈ candidates /\ dc_index c = i /\ w_last_active_pane_index w = Some i
            /\ Forall (fun d => dc_distance c <= dc_distance d) candidates.
Proof.
  unfold backtrack. destruct (w_last_active_pane_index w) as [last|]; [|done].
  destruct (negb _); [|done].
  destruct (find _ candidates) as [c|] eqn:Hf; [|done].
  apply find_elem in Hf as [Hc He]. bool_to_prop. case_bool_decide as Hd; [|done].
  intros [= <-]. exists c. split; [done|]. split; [done|]. split; [by rewrite He|].
  destruct candidates as [|d ds]; [done|]. injection Hd as ->.
  destruct (foldl_min_le (dc_distance <$> ds) (dc_distance d)) as [H1 H2].
  rewrite Forall_fmap in H2. by constructor.
Qed.

(** The chosen pane: a nearest candidate in the direction when there is one,
    otherwise the pane the wrap-around selects; never the active pane. *)
Lemma adjacent_pane_spec w active dir i :
  indexed w -> adjacent_pane w active dir = Some i ->
  (i < length (w_panes w))%nat /\ i <> w_active_pane_index w
  /\ (direct_candidates w active dir <> [] ->
      exists c, c ∈ direct_candidates w active dir /\ dc_index c = i
        /\ Forall (fun d => dc_distance c <= dc_distance d) (direct_candidates w active dir)).
Proof.
  intros Hix. unfold adjacent_pane.
  assert (forall c, c ∈ direct_candidates w active dir ->
            (dc_index c < length (w_panes w))%nat /\ dc_index c <> w_active_pane_index w) as Hin.
  { intros c (r & Hr & Hne & Hc)%direct_candidates_elem.
    rewrite (directional_candidate_index _ _ _ _ Hc). split; [by apply geometry_index_lt|done]. }
  destruct (backtrack w _) as [j|] eqn:Hb.
  - intros [= <-]. apply backtrack_elem in Hb as (c & Hc & <- & _ & Hmin).
    destruct (Hin c Hc). repeat split; try done. intros _. by exists c.
  - destruct (iter_min candidate_lt _) as [c|] eqn:Hm; simpl.
    + intros [= <-]. pose proof (iter_min_elem _ _ _ Hm) as Hc. destruct (Hin c Hc).
      repeat split; try done. intros _. exists c. repeat split; try done.
      by apply min_candidate_distance.
    + unfold wrapped. destruct (iter_min wrapped_lt _) as [c|] eqn:Hw; [|done]. simpl.
      intros [= <-]. apply iter_min_elem, list_elem_of_omap in Hw as (r & Hr & Hc).
      apply list_elem_of_In, filter_In in Hr as [Hr Hne]. apply list_elem_of_In in Hr. bool_to_prop.
      assert (wc_pane c = g_index r) as ->.
      { revert Hc. unfold wrapped_directional_candidate.
        by destruct dir; destruct (_ =? 0); intros [= <-]. }
      split; [by apply geometry_index_lt|]. split; [done|].
      intros H. destruct (direct_candidates w active dir); [done|done].
Qed.

Lemma select_adjacent_ok w dir :
  window_ok w -> indexed w ->
  exists w', select_adjacent_pane dir w = (w', Ok tt)
    /\ (w' = w \/ exists i, (i < length (w_panes w))%nat /\ w' = set_active_pane_index i w).
Proof.
  intros Hok Hix. unfold select_adjacent_pane.
  rewrite (nonempty_match (w_panes w)) by (by apply window_nonempty).
  destruct (find _ (w_pane_geometries w)) as [active|]; [|by eauto].
  destruct (adjacent_pane w active dir) as [i|] eqn:Hn; [|by eauto].
  destruct (adjacent_pane_spec w active dir i Hix Hn) as (Hlt & _). eauto 10.
Qed.

(** ** Rectangles of a filled window *)

Definition opposite (d : PaneNavigationDirection) : PaneNavigationDirection :=
  match d with NavUp => NavDown | NavDown => NavUp | NavLeft => NavRight | NavRight => NavLeft end.

(** A non-empty rectangle inside the window. *)
Definition rect_in (s : Size) (g : PaneGeometry) : Prop :=
  0 <= g_column g /\ 1 <= g_columns g /\ g_column g + g_columns g <= columns s
  /\ 0 <= g_row g /\ 1 <= g_rows g /\ g_row g + g_rows g <= rows s.

(** The cells between two rectangles in a direction, negative when the second
    does not lie in that direction. *)
Definition gap (d : PaneNavigationDirection) (a b : PaneGeometry) : Z :=
  match d with
  | NavUp => g_row a - (g_row b + g_rows b)
  | NavDown => g_row b - (g_row a + g_rows a)
  | NavLeft => g_column a - (g_column b + g_columns b)
  | NavRight => g_column b - (g_column a + g_columns a)
  end.

(** Whether two rectangles share a line across the direction. *)
Definition facing (d : PaneNavigationDirection) (a b : PaneGeometry) : Prop :=
  match d with
  | NavUp | NavDown =>
      Z.max (g_column a) (g_column b) < Z.min (g_column a + g_columns a) (g_column b + g_columns b)
  | NavLeft | NavRight =>
      Z.max (g_row a) (g_row b) < Z.min (g_row a + g_rows a) (g_row b + g_rows b)
  end.

Lemma gap_opposite d a b : gap (opposite d) b a = gap d a b.
Proof. by destruct d. Qed.

Lemma facing_opposite d a b : facing (opposite d) b a <-> facing d a b.
Proof. destruct d; simpl; lia. Qed.

Lemma directional_candidate_Some s d a b :
  valid_size s -> rect_in s a -> rect_in s b ->
  (exists c, directional_candidate a b d = Some c) <-> 0 <= gap d a b /\ facing d a b.
Proof.
  intros (Hc & Hr & _) Ha Hb. unfold rect_in in *.
  unfold directional_candidate, gap, facing, column_overlap, row_overlap, range_overlap_u16, right, bottom,
    sat_add, sat_sub, u16_MAX.
  split.
  - intros [c Hcand]. destruct d; cbv beta iota in Hcand;
      match type of Hcand with (if ?b then _ else _) = _ => destruct b eqn:E end; try done;
      bool_to_prop; lia.
  - intros [Hg Hf]. destruct d; cbv beta iota;
      match goal with |- context [if ?b then _ else _] => destruct b eqn:E end; eauto;
      exfalso; apply andb_false_iff in E as [E|E]; bool_to_prop; lia.
Qed.

Lemma directional_candidate_distance s d a b c :
  valid_size s -> rect_in s a -> rect_in s b ->
  directional_candidate a b d = Some c -> dc_distance c = gap d a b.
Proof.
  intros (Hc & Hr & _) Ha Hb. unfold rect_in in *.
  unfold directional_candidate, gap, right, bottom, sat_add, sat_sub, u16_MAX.
  destruct d; cbv beta iota;
    match goal with |- (if ?b then _ else _) = _ -> _ => destruct b eqn:E end; try done;
    intros [= <-]; bool_to_prop; simpl; lia.
Qed.

(** Two distinct rectangles of a tiling share no cell. *)
Lemma cover_two x y gs a b :
  a ∈ gs -> b ∈ gs -> a <> b -> covers x y a = true -> covers x y b = true ->
  (2 <= cover_count x y gs)%nat.
Proof.
  intros Ha Hb Hne Hca Hcb. unfold cover_count.
  assert (a ∈ List.filter (covers x y) gs /\ b ∈ List.filter (covers x y) gs) as [Fa Fb].
  { rewrite !list_elem_of_In, !filter_In, <- !list_elem_of_In. done. }
  destruct (List.filter (covers x y) gs) as [|u [|v l]]; simpl; [set_solver| |lia].
  apply list_elem_of_singleton in Fa, Fb. congruence.
Qed.

Section FilledWindow.
Context (w : Window).
Hypotheses (Hok : window_ok w) (Hsy : synced w) (Hfill : filled w).
Local Abbreviation gs := (w_pane_geometries w).
Local Abbreviation s := (w_size w).

Lemma window_tiles : tiles gs 0 0 s.
Proof using All. by apply filled_tiles; [apply Hok|..]. Qed.

Lemma covered_in x y g : g ∈ gs -> covers x y g = true -> in_rect 0 0 s x y = true.
Proof using All.
  intros Hg Hc. pose proof (window_tiles x y) as Ht. destruct (in_rect 0 0 s x y); [done|].
  unfold cover_count in Ht. destruct (List.filter (covers x y) gs) as [|h l] eqn:Hf; [|done].
  assert (g ∈ List.filter (covers x y) gs) as Hin
    by (rewrite list_elem_of_In, filter_In, <- list_elem_of_In; done).
  rewrite Hf in Hin. set_solver.
Qed.

Lemma in_covered x y : in_rect 0 0 s x y = true -> exists g, g ∈ gs /\ covers x y g = true.
Proof using All.
  intros Hi. pose proof (window_tiles x y) as Ht. rewrite Hi in Ht. unfold cover_count in Ht.
  destruct (List.filter (covers x y) gs) as [|h l] eqn:Hf; [done|].
  assert (h ∈ List.filter (covers x y) gs) as Hin by (rewrite Hf; set_solver).
  rewrite list_elem_of_In, filter_In, <- list_elem_of_In in Hin. eauto.
Qed.

Lemma covered_once x y g h :
  g ∈ gs -> h ∈ gs -> covers x y g = true -> covers x y h = true -> g = h.
Proof using All.
  intros Hg Hh Hcg Hch. destruct (decide (g = h)) as [|Hne]; [done|].
  pose proof (cover_two x y gs g h Hg Hh Hne Hcg Hch) as H2. rewrite (window_tiles x y) in H2.
  destruct (in_rect 0 0 s x y); lia.
Qed.
Lemma geometry_in g : g ∈ gs -> rect_in s g.
Proof using All.
  intros Hg. assert (1 <= g_columns g /\ 1 <= g_rows g) as [Hc Hr].
  { eapply pane_geometries_nonempty; [exact Hfill|]. by rewrite <- Hsy. }
  assert (covers (g_column g) (g_row g) g = true) as H1 by (split_rect).
  assert (covers (g_column g + g_columns g - 1) (g_row g + g_rows g - 1) g = true) as H2 by (split_rect).
  apply (covered_in _ _ _ Hg) in H1, H2. unfold in_rect, rect_in in *. bool_to_prop. lia.
Qed.

(** A pane with a candidate in some direction has an adjacent one there. *)
Lemma adjacent_exists d a b :
  a ∈ gs -> b ∈ gs -> 0 <= gap d a b -> facing d a b ->
  exists c, c ∈ gs /\ gap d a c = 0 /\ facing d a c.
Proof using All.
  intros Ha Hb Hg Hf. pose proof (geometry_in a Ha) as Ia. pose proof (geometry_in b Hb) as Ib.
  unfold rect_in in Ia, Ib.
  (* the cell of [a]'s edge on a line shared with [b], and its neighbour *)
  set (p := match d with
            | NavUp => (Z.max (g_column a) (g_column b), g_row a)
            | NavDown => (Z.max (g_column a) (g_column b), g_row a + g_rows a - 1)
            | NavLeft => (g_column a, Z.max (g_row a) (g_row b))
            | NavRight => (g_column a + g_columns a - 1, Z.max (g_row a) (g_row b))
            end).
  set (q := match d with
            | NavUp => (p.1, p.2 - 1) | NavDown => (p.1, p.2 + 1)
            | NavLeft => (p.1 - 1, p.2) | NavRight => (p.1 + 1, p.2)
            end).
  assert (covers p.1 p.2 a = true) as Hpa by (unfold p; destruct d; simpl in *; split_rect).
  destruct (in_covered q.1 q.2) as (c & Hc & Hqc).
  { unfold q, p; destruct d; simpl in *; split_rect. }
  exists c. split; [done|].
  assert (covers p.1 p.2 c = true -> a = c) as Hone by (intros; by apply (covered_once p.1 p.2)).
  assert (a <> c) as Hac.
  { intros <-. unfold covers, q, p in Hqc. destruct d; simpl in *; bool_to_prop; lia. }
  assert (covers p.1 p.2 c <> true) as Hpc by (by intros H; apply Hac, Hone).
  pose proof (geometry_in c Hc) as Ic. unfold rect_in in Ic.
  clear Hone Hac. unfold covers, q, p in *. rewrite !andb_true_iff in *.
  rewrite !Z.leb_le, !Z.ltb_lt in *. destruct d; simpl in *; lia.
Qed.

(** So the nearest candidate in a direction touches the pane. *)
Lemma nearest_adjacent d a c :
  a ∈ gs -> g_index a = w_active_pane_index w -> c ∈ direct_candidates w a d ->
  Forall (fun e => dc_distance c <= dc_distance e) (direct_candidates w a d) -> dc_distance c = 0.
Proof using All.
  intros Ha Hia Hc Hmin. pose proof (wc_size w (wo_core w Hok)) as Hv.
  destruct (direct_candidates_elem _ _ _ _ Hc) as (b & Hb & Hnb & Hcb).
  pose proof (directional_candidate_distance s d a b c Hv (geometry_in a Ha) (geometry_in b Hb) Hcb) as Hdc.
  destruct (proj1 (directional_candidate_Some s d a b Hv (geometry_in a Ha) (geometry_in b Hb)))
    as [Hg Hf]; [by exists c|].
  destruct (adjacent_exists d a b Ha Hb Hg Hf) as (e & He & Hge & Hfe).
  destruct (proj2 (directional_candidate_Some s d a e Hv (geometry_in a Ha) (geometry_in e He)))
    as [ce Hce]; [split; [lia|done]|].
  pose proof (directional_candidate_distance s d a e ce Hv (geometry_in a Ha) (geometry_in e He) Hce) as Hde.
  assert (ce ∈ direct_candidates w a d) as Hin.
  { apply list_elem_of_omap. exists e. split; [|done]. apply list_elem_of_In, filter_In.
    rewrite <- list_elem_of_In. split; [done|]. apply negb_true_iff, Nat.eqb_neq. rewrite <- Hia.
    intros Heq. assert (a = e) as <- by (by apply (geometry_unique w); [apply synced_indexed; [apply Hok|]|..]).
    pose proof (geometry_in a Ha) as Ia. unfold rect_in in Ia. destruct d; simpl in Hge; lia. }
  rewrite Forall_forall in Hmin. specialize (Hmin ce Hin). lia.
Qed.
End FilledWindow.

(** The rectangle of the active pane. *)
Definition active_rect (w : Window) : option PaneGeometry :=
  find (fun r => (g_index r =? w_active_pane_index w)%nat) (w_pane_geometries w).

Lemma backtrack_nearest w candidates last c :
  w_last_active_pane_index w = Some last -> last <> w_active_pane_index w ->
  c ∈ candidates -> dc_index c = last -> dc_distance c = 0 ->
  (forall e, e ∈ candidates -> dc_index e = last -> e = c) ->
  (forall e, e ∈ candidates -> 0 <= dc_distance e) ->
  backtrack w candidates = Some last.
Proof.
  intros Hl Hne Hc Hi Hd Huniq Hnn. unfold backtrack. rewrite Hl.
  rewrite (proj2 (Nat.eqb_neq _ _)) by done. simpl.
  destruct (find (fun c => (dc_index c =? last)%nat) candidates) as [e|] eqn:Hf.
  - apply find_elem in Hf as [He Hei]. bool_to_prop. rewrite (Huniq e He Hei).
    rewrite bool_decide_eq_true_2; [by rewrite Hi|]. rewrite Hd.
    destruct candidates as [|x l]; [set_solver|]. f_equal.
    destruct (foldl_min_le (dc_distance <$> l) (dc_distance x)) as [H1 H2].
    rewrite Forall_fmap, Forall_forall in H2.
    assert (foldl Z.min (dc_distance x) (dc_distance <$> l) <= 0) as Hle.
    { apply elem_of_cons in Hc as [->|Hc]; [lia|]. specialize (H2 c Hc). simpl in H2. lia. }
    destruct (foldl_min_elem (dc_distance <$> l) (dc_distance x)) as [E|E].
    + specialize (Hnn x ltac:(set_solver)). lia.
    + apply list_elem_of_fmap in E as (y & E & Hy). specialize (Hnn y ltac:(set_solver)). lia.
  - apply list_elem_of_In in Hc. pose proof (find_none _ _ Hf c Hc) as Hn. simpl in Hn.
    by rewrite Hi, Nat.eqb_refl in Hn.
Qed.

Section Reverse.
Context (w : Window) (d : PaneNavigationDirection) (a : PaneGeometry).
Hypotheses (Hok : window_ok w) (Hsy : synced w) (Hfill : filled w).
Hypotheses (Ha : active_rect w = Some a) (Hcand : direct_candidates w a d <> []).

Lemma active_rect_in : a ∈ w_pane_geometries w /\ g_index a = w_active_pane_index w.
Proof using Ha. unfold active_rect in Ha. apply find_elem in Ha as [H1 H2]. by bool_to_prop. Qed.

(** The pane the move selects touches the active pane in the direction. *)
Lemma forward : exists b, b ∈ w_pane_geometries w /\ adjacent_pane w a d = Some (g_index b)
  /\ g_index b <> w_active_pane_index w /\ gap d a b = 0 /\ facing d a b.
Proof using All.
  destruct active_rect_in as [Hin Hia]. pose proof (wc_size w (wo_core w Hok)) as Hv.
  assert (exists i, adjacent_pane w a d = Some i) as [i Hi].
  { unfold adjacent_pane. destruct (backtrack _ _); [by eexists|].
    destruct (direct_candidates w a d); [done|]. simpl. by eexists. }
  destruct (adjacent_pane_spec w a d i (synced_indexed w (wo_root w Hok) Hsy) Hi) as (Hlt & Hne & Hc).
  destruct (Hc Hcand) as (c & Hc1 & Hc2 & Hc3).
  pose proof (nearest_adjacent w Hok Hsy Hfill d a c Hin Hia Hc1 Hc3) as H0.
  destruct (direct_candidates_elem _ _ _ _ Hc1) as (b & Hb & Hnb & Hcb).
  pose proof (geometry_in w Hok Hsy Hfill a Hin) as Ia.
  pose proof (geometry_in w Hok Hsy Hfill b Hb) as Ib.
  exists b. rewrite <- (directional_candidate_index _ _ _ _ Hcb), Hc2.
  split; [done|]. split; [done|]. split; [done|].
  rewrite <- (directional_candidate_distance _ d a b c Hv Ia Ib Hcb). split; [done|].
  apply (directional_candidate_Some _ d a b Hv Ia Ib). by exists c.
Qed.

Lemma navigation_reverses_aux : exists w1 w2,
  select_adjacent_pane d w = (w1, Ok tt) /\ select_adjacent_pane (opposite d) w1 = (w2, Ok tt)
  /\ active_id w1 <> active_id w /\ active_id w2 = active_id w.
Proof using All.
  destruct forward as (b & Hb & Hnext & Hne & Hgap & Hfac). destruct active_rect_in as [Hin Hia].
  pose proof (wc_size w (wo_core w Hok)) as Hv.
  pose proof (geometry_index_lt w b (synced_indexed w (wo_root w Hok) Hsy) Hb) as Hlt.
  set (w1 := set_active_pane_index (g_index b) w).
  destruct (select_ok w (g_index b) Hok Hlt) as (Hok1 & Hsy1 & Hf1 & Hid1). fold w1 in Hok1, Hsy1, Hf1, Hid1.
  specialize (Hsy1 Hsy). specialize (Hf1 Hfill).
  destruct (select_then_last w (g_index b) Hok Hlt Hne) as (Hlast & _). fold w1 in Hlast.
  assert (w_pane_geometries w1 = w_pane_geometries w) as Hgs.
  { unfold w1. rewrite set_active_pane_index_unfold.
    destruct (record_focus_same (g_index b) w) as (_ & _ & _ & Hg & _). exact Hg. }
  assert (w_active_pane_index w1 = g_index b) as Hact by done.
  assert (w_size w1 = w_size w) as Hsz by (by destruct (set_active_same (g_index b) w) as (_ & _ & ? & _)).
  destruct (find_geometry w1 (g_index b) (synced_indexed w1 (wo_root w1 Hok1) Hsy1)) as (b' & Hfind & Hb' & Hib').
  { unfold w1. by destruct (set_active_same (g_index b) w) as (_ & -> & _). }
  rewrite Hgs in Hb'. assert (b' = b) as -> by (by apply (geometry_unique w); [apply synced_indexed; [apply Hok|]|..]).
  (* the way back *)
  assert (forall r, r ∈ w_pane_geometries w -> rect_in (w_size w) r) as Hrect by (by apply geometry_in).
  destruct (proj2 (directional_candidate_Some _ (opposite d) b a Hv (Hrect b Hb) (Hrect a Hin)))
    as [ca Hca]; [by rewrite gap_opposite, facing_opposite, Hgap|].
  assert (backtrack w1 (direct_candidates w1 b (opposite d)) = Some (w_active_pane_index w)) as Hback.
  { apply backtrack_nearest with ca; rewrite ?Hact; try done.
    - apply list_elem_of_omap. exists a. split; [|done]. rewrite Hgs, Hact.
      apply list_elem_of_In, filter_In. rewrite <- list_elem_of_In. split; [done|].
      apply negb_true_iff, Nat.eqb_neq. congruence.
    - by rewrite (directional_candidate_index _ _ _ _ Hca).
    - rewrite (directional_candidate_distance _ _ _ _ _ Hv (Hrect b Hb) (Hrect a Hin) Hca).
      by rewrite gap_opposite.
    - intros e (r & Hr & _ & He)%direct_candidates_elem Hei. rewrite Hgs in Hr.
      rewrite (directional_candidate_index _ _ _ _ He) in Hei.
      assert (r = a) as -> by (apply (geometry_unique w); [apply synced_indexed; [apply Hok|done]|congruence..]). congruence.
    - intros e (r & Hr & _ & He)%direct_candidates_elem. rewrite Hgs in Hr.
      rewrite (directional_candidate_distance _ _ _ _ _ Hv (Hrect b Hb) (Hrect r Hr) He).
      apply (directional_candidate_Some _ (opposite d) b r Hv (Hrect b Hb) (Hrect r Hr)). by exists e. }
  exists w1, (set_active_pane_index (w_active_pane_index w) w1).
  split; [|split; [|split]].
  - unfold select_adjacent_pane. rewrite (nonempty_match (w_panes w)) by (by apply window_nonempty).
    fold (active_rect w). by rewrite Ha, Hnext.
  - unfold select_adjacent_pane. rewrite (nonempty_match (w_panes w1)) by (by apply window_nonempty).
    rewrite Hact, Hfind. unfold adjacent_pane. by rewrite Hback.
  - rewrite Hid1. unfold active_id. intros E.
    destruct (lookup_lt_is_Some_2 (ids_of (w_panes w)) (g_index b)) as [x Hx];
      [unfold ids_of; by rewrite length_fmap|].
    apply Hne. eapply (NoDup_lookup _ _ _ x (wc_ids w (wo_core w Hok))); [done|congruence].
  - rewrite set_active_lookup_id. unfold w1. by destruct (set_active_same (g_index b) w) as (-> & _).
Qed.
End Reverse.
