(* ===== verification/WindowRestore.v ===== *)
(** * Restoring windows and replacing rectangles
    ([Window::from_restored_parts_with_layout], [Window::replace_pane_geometries])

    A snapshot gives panes and, optionally, their rectangles and a split tree.
    Restoring validates the parts; the theorem of this file is that the parts
    of a well-formed filled window are accepted and give the window's layout
    back. *)

From S2P Require Import Prelude RustStr Ids LayoutTypes Sizing LayoutTree Tiling TreeEdits WindowOps PolicyLayouts WindowInv WindowSteps WindowMoves WindowNav.
Import Node Win.
Local Open Scope Z_scope.

Record RestoredWindowLayout := mkRestoredLayout {
  rl_pane_geometries : option (list PaneGeometry);
  rl_layout_root : option LayoutNode;
  rl_layout_policy : LayoutPolicy }.

Module Restore.
(** ** Validation of rectangles *)

Definition pane_geometries_overlap (left right : PaneGeometry) : bool :=
  let left_right := sat_add u16_MAX (g_column left) (g_columns left) in
  let left_bottom := sat_add u16_MAX (g_row left) (g_rows left) in
  let right_right := sat_add u16_MAX (g_column right) (g_columns right) in
  let right_bottom := sat_add u16_MAX (g_row right) (g_rows right) in
  (g_column left <? right_right) && (g_column right <? left_right)
  && (g_row left <? right_bottom) && (g_row right <? left_bottom).

(** The nested loops over all pairs. *)
Fixpoint reject_overlaps (message : string) (gs : list PaneGeometry) : result unit :=
  match gs with
  | [] => Ok tt
  | g :: gs =>
      for_each (fun h => if pane_geometries_overlap g h then Err (invalid_args message) else Ok tt) gs
      ≫= fun _ => reject_overlaps message gs
  end.

Definition outside (window_size : Size) (g : PaneGeometry) : bool :=
  (columns window_size <? sat_add u16_MAX (g_column g) (g_columns g))
  || (rows window_size <? sat_add u16_MAX (g_row g) (g_rows g)).

Definition check_restored_geometry (window_size : Size) (index : nat) (p : Pane) (g : PaneGeometry)
    : result unit :=
  if negb (g_index g =? index)%nat
  then Err (invalid_args "restored pane geometries must use contiguous pane indices")
  else if (g_columns g =? 0) || (g_rows g =? 0)
  then Err (invalid_args "restored pane geometry dimensions must be non-zero")
  else if negb (g_columns g =? columns (p_size p)) || negb (g_rows g =? rows (p_size p))
  then Err (invalid_args "restored pane geometry dimensions must match pane size")
  else if outside window_size g
  then Err (invalid_args "restored pane geometry must fit inside the window")
  else Ok tt.

Definition validated_pane_geometries (window_size : Size) (panes : list Pane)
    (geometries : list PaneGeometry) : result (list PaneGeometry) :=
  if negb (length geometries =? length panes)%nat
  then Err (invalid_args "restored pane geometries must align to restored panes") else
  for_each (fun '(index, (p, g)) => check_restored_geometry window_size index p g)
    (imap pair (zip panes geometries)) ≫= fun _ =>
  reject_overlaps "restored pane geometries must not overlap" geometries ≫= fun _ =>
  Ok geometries.

Definition check_replacement_geometry (window_size : Size) (g : PaneGeometry) (seen : list bool)
    : result (list bool) :=
  match seen !! g_index g with
  | None => Err (invalid_args "replacement pane geometries must use known pane indices")
  | Some true => Err (invalid_args "replacement pane geometries must not repeat pane indices")
  | Some false =>
      if (g_columns g <? MIN_PANE_COLUMNS) || (g_rows g <? MIN_PANE_ROWS)
      then Err (invalid_args "replacement pane geometry is below the minimum pane dimensions")
      else if outside window_size g
      then Err (invalid_args "replacement pane geometry must fit inside the window")
      else Ok (<[g_index g := true]> seen)
  end.

Definition validate_replacement_pane_geometries (window_size : Size) (pane_count : nat)
    (geometries : list PaneGeometry) : result unit :=
  if negb (length geometries =? pane_count)%nat
  then Err (invalid_args "replacement pane geometries must align to window panes") else
  fold_outcome (check_replacement_geometry window_size) geometries (replicate pane_count false)
  ≫= fun seen =>
  if existsb negb seen
  then Err (invalid_args "replacement pane geometries must include every pane") else
  reject_overlaps "replacement pane geometries must not overlap" geometries.

(** ** Inferring rectangles from pane sizes *)

Record CandidateLayout := mkLayout { cl_size : Size; cl_rects : list PaneGeometry }.

Definition join_candidate_layouts (left right : CandidateLayout) (direction : SplitDirection)
    : CandidateLayout :=
  let rects := cl_rects left ++
    List.map (fun r =>
      match direction with
      | Vertical => mkGeometry (g_index r) (sat_add u16_MAX (g_column r) (columns (cl_size left)))
                      (g_row r) (g_columns r) (g_rows r)
      | Horizontal => mkGeometry (g_index r) (g_column r)
                        (sat_add u16_MAX (g_row r) (rows (cl_size left))) (g_columns r) (g_rows r)
      end) (cl_rects right) in
  let size := match direction with
              | Vertical => mkSize (sat_add u16_MAX (columns (cl_size left)) (columns (cl_size right)))
                              (rows (cl_size left))
              | Horizontal => mkSize (columns (cl_size left))
                                (sat_add u16_MAX (rows (cl_size left)) (rows (cl_size right)))
              end in
  mkLayout size rects.

(** The layouts one pair contributes, in the order they are pushed. *)
Definition joined (left right : CandidateLayout) : list CandidateLayout :=
  (if rows (cl_size left) =? rows (cl_size right)
   then [join_candidate_layouts left right Vertical] else [])
  ++ (if columns (cl_size left) =? columns (cl_size right)
      then [join_candidate_layouts left right Horizontal] else []).

(** Pushes until [limit] layouts are stored; the flag is the early return. *)
Fixpoint push_until (limit : nat) (candidates layouts : list CandidateLayout)
    : list CandidateLayout * bool :=
  match candidates with
  | [] => (layouts, false)
  | c :: candidates =>
      let layouts := layouts ++ [c] in
      if (limit <=? length layouts)%nat then (layouts, true) else push_until limit candidates layouts
  end.

(** The loop over the split positions. *)
Definition split_loop (candidates : list Pane -> nat -> nat -> list CandidateLayout)
    (panes : list Pane) (index_offset limit : nat)
    : list nat -> list CandidateLayout -> list CandidateLayout :=
  fix go splits layouts :=
    match splits with
    | [] => layouts
    | split :: splits =>
        let left_layouts := candidates (take split panes) index_offset limit in
        let right_layouts := candidates (drop split panes) (index_offset + split)%nat
                               (limit - length layouts)%nat in
        let '(layouts, returned) :=
          push_until limit
            (concat (List.map (fun l => concat (List.map (joined l) right_layouts)) left_layouts))
            layouts in
        if returned then layouts else go splits layouts
    end.

(** Recursive on shorter slices: the number of panes is enough fuel. *)
Fixpoint candidate_layouts_with_indices (fuel : nat) (panes : list Pane) (index_offset limit : nat)
    : list CandidateLayout :=
  match fuel, panes with
  | O, _ | _, [] => []
  | S fuel, [p] =>
      if (limit =? 0)%nat then [] else
      [mkLayout (p_size p) [mkGeometry index_offset 0 0 (columns (p_size p)) (rows (p_size p))]]
  | S fuel, _ =>
      if (limit =? 0)%nat then [] else
      split_loop (candidate_layouts_with_indices fuel) panes index_offset limit
        (seq 1 (length panes - 1)) []
  end.

Definition MAX_CANDIDATE_LAYOUTS : nat := 128.

Definition candidate_layouts (panes : list Pane) : list CandidateLayout :=
  candidate_layouts_with_indices (length panes) panes 0 MAX_CANDIDATE_LAYOUTS.

(** The rectangles side by side or stacked, from the running position. *)
Fixpoint stack_rects (side_by_side : bool) (panes : list Pane) (index : nat) (column row : Z)
    : list PaneGeometry :=
  match panes with
  | [] => []
  | p :: panes =>
      mkGeometry index column row (columns (p_size p)) (rows (p_size p))
      :: (if side_by_side
          then stack_rects side_by_side panes (S index) (sat_add u16_MAX column (columns (p_size p))) row
          else stack_rects side_by_side panes (S index) column (sat_add u16_MAX row (rows (p_size p))))
  end.

Definition fallback_pane_rects (window_size : Size) (panes : list Pane) : list PaneGeometry :=
  let side_by_side :=
    match panes with
    | [] => false
    | first :: _ =>
        forallb (fun p => rows (p_size p) =? rows (p_size first)) panes
        && (wrap u16_MAX (sum_Z (List.map (fun p => columns (p_size p)) panes)) <=? columns window_size)
    end in
  stack_rects side_by_side panes 0 0 0.

Definition inferred_pane_rects (window_size : Size) (panes : list Pane) : list PaneGeometry :=
  match List.find (fun l => bool_decide (cl_size l = window_size)) (candidate_layouts panes) with
  | Some layout => cl_rects layout
  | None => fallback_pane_rects window_size panes
  end.

Definition stored_pane_geometries := inferred_pane_rects.

Definition restored_layout_root (window_size : Size) (panes : list Pane)
    (pane_geometries : option (list PaneGeometry)) : result LayoutNode :=
  let geometries := default (stored_pane_geometries window_size panes) pane_geometries in
  Reconstruct.from_geometries geometries ≫= fun root =>
  validate_pane_indices root (length panes) ≫= fun _ => Ok root.

(** ** Restoring a window *)

Definition active_indices (panes : list Pane) : list nat :=
  omap (fun '(i, p) => if p_active p then Some i else None) (zip (seq 0 (length panes)) panes).

Definition from_restored_parts_with_layout (id : WindowId) (index : nat) (name : string)
    (size : Size) (panes : list Pane) (layout : RestoredWindowLayout) : result Window :=
  Size_validate size ≫= fun _ =>
  for_each (fun p => Size_validate (p_size p)) panes ≫= fun _ =>
  (match rl_pane_geometries layout with
   | Some geometries =>
       for_each (fun g => Size_new (g_columns g) (g_rows g) ≫= fun _ => Ok tt) geometries
   | None => Ok tt
   end) ≫= fun _ =>
  match panes with
  | [] => Err (invalid_args "restored window must contain at least one pane")
  | _ =>
      match active_indices panes with
      | [active_pane_index] =>
          let panes := imap pane_set_index panes in
          (match rl_pane_geometries layout with
           | Some geometries => Some <$> validated_pane_geometries size panes geometries
           | None => Ok None
           end) ≫= fun validated =>
          (match rl_layout_root layout with
           | Some root => validate_pane_indices root (length panes) ≫= fun _ => Ok root
           | None => restored_layout_root size panes validated
           end) ≫= fun root =>
          let w := mkWindow id index name (window_name_source_for_created_window index name) None size
                     panes active_pane_index None [] None (rl_layout_policy layout) root [] in
          let w := refresh_pane_geometries w in
          match validated with
          | Some expected =>
              if bool_decide (w_pane_geometries w = expected) then Ok w
              else Err (invalid_args "restored layout tree must match restored pane geometries")
          | None => Ok w
          end
      | _ => Err (invalid_args "restored window must contain exactly one active pane")
      end
  end.

Definition from_restored_parts_with_geometries (id : WindowId) (index : nat) (name : string)
    (size : Size) (panes : list Pane) (geometries : option (list PaneGeometry))
    (policy : LayoutPolicy) : result Window :=
  from_restored_parts_with_layout id index name size panes (mkRestoredLayout geometries None policy).

Definition from_restored_parts (id : WindowId) (index : nat) (name : string) (size : Size)
    (panes : list Pane) : result Window :=
  from_restored_parts_with_geometries id index name size panes None Tiled.

(** ** Replacing rectangles *)

(** The loop that writes the sizes of the rectangles into the panes. *)
Definition write_sizes (geometries : list PaneGeometry) (panes : list Pane) : list Pane :=
  foldl (fun panes g => alter (pane_set_size (mkSize (g_columns g) (g_rows g))) (g_index g) panes)
    panes geometries.

Definition replace_pane_geometries (geometries : list PaneGeometry) : method unit := fun w =>
  match validate_replacement_pane_geometries (w_size w) (length (w_panes w)) geometries with
  | Err e => (w, Err e)
  | Panic => (w, Panic)
  | Ok _ =>
      let previous_sizes := p_size <$> w_panes w in
      let w := set_panes w (write_sizes geometries (w_panes w)) in
      if bool_decide (pane_geometries (w_layout_root w) (w_panes w) = geometries)
      then (set_geometries w geometries, Ok tt)
      else
        let w := set_panes w (zip_with (fun p s => pane_set_size s p) (w_panes w) previous_sizes) in
        match Reconstruct.from_geometries geometries with
        | Err e => (w, Err e)
        | Panic => (w, Panic)
        | Ok root =>
            match validate_pane_indices root (length (w_panes w)) with
            | Err e => (w, Err e)
            | Panic => (w, Panic)
            | Ok _ =>
                let w := set_panes w (write_sizes geometries (w_panes w)) in
                (set_geometries (set_root w root) geometries, Ok tt)
            end
        end
  end.
End Restore.
Import Restore.

Example infer_quadrants :
  let p w h := mkPane "%1" 0 "shell" TitleDefault (mkSize w h) false true in
  inferred_pane_rects (mkSize 80 24) [p 40 12; p 40 12; p 40 24]
  = [mkGeometry 0 0 0 40 12; mkGeometry 1 0 12 40 12; mkGeometry 2 40 0 40 24].
Proof. vm_compute. reflexivity. Qed.

(** ** Validation accepts the rectangles of a filled window *)

Lemma reject_overlaps_Ok message gs :
  reject_overlaps message gs = Ok tt <->
  ForallOrdPairs (fun g h => pane_geometries_overlap g h = false) gs.
Proof.
  induction gs as [|g gs IH]; simpl; [split; [constructor|done]|].
  rewrite bind_Ok_inv. split.
  - intros ([] & Hf & Hr). constructor; [|by apply IH].
    apply for_each_Ok in Hf. eapply Forall_impl; [exact Hf|]. intros h Hh. simpl in Hh.
    by destruct (pane_geometries_overlap g h).
  - intros H. inversion H as [|? ? Hf Hr]; subst. exists tt. split; [|by apply IH].
    apply for_each_Ok. eapply Forall_impl; [exact Hf|]. intros h Hh. by rewrite Hh.
Qed.

Lemma ForallOrdPairs_intro {A} (P : A -> A -> Prop) l :
  NoDup l -> (forall x y, x ∈ l -> y ∈ l -> x <> y -> P x y) -> ForallOrdPairs P l.
Proof.
  induction 1 as [|x l Hx Hnd IH]; intros H; constructor.
  - apply Forall_forall. intros y Hy. apply H; [set_solver|set_solver|set_solver].
  - apply IH. intros y z Hy Hz. apply H; set_solver.
Qed.

(** The rectangles are stored in slot order. *)
Lemma geometries_in_order w :
  window_ok w -> synced w -> g_index <$> w_pane_geometries w = seq 0 (length (w_panes w)).
Proof.
  intros Hok Hsy. apply (StronglySorted_unique le).
  - rewrite Hsy. unfold pane_geometries.
    pose proof (sort_by_key_sorted g_index (collect_geometries (w_layout_root w) 0 0 (w_panes w))) as Hs.
    induction Hs as [|g l Hs IH Hf]; simpl; constructor; [done|]. by apply Forall_fmap.
  - generalize 0%nat. induction (length (w_panes w)) as [|n IH]; intros k; simpl; constructor; [done|].
    apply Forall_forall. intros i Hi%elem_of_seq. lia.
  - apply synced_indexed; [apply Hok|done].
Qed.

Section RestoreFilled.
Context (w : Window).
Hypotheses (Hok : window_ok w) (Hsy : synced w) (Hfill : filled w).

Lemma geometries_disjoint g h :
  g ∈ w_pane_geometries w -> h ∈ w_pane_geometries w -> g <> h -> pane_geometries_overlap g h = false.
Proof using All.
  intros Hg Hh Hne. destruct (pane_geometries_overlap g h) eqn:Ho; [|done]. exfalso.
  pose proof (geometry_in w Hok Hsy Hfill g Hg) as Ig. pose proof (geometry_in w Hok Hsy Hfill h Hh) as Ih.
  pose proof (wc_size w (wo_core w Hok)) as Hv. unfold rect_in, valid_size in *.
  unfold pane_geometries_overlap, sat_add, u16_MAX in Ho. bool_to_prop.
  apply Hne. apply (covered_once w Hok Hsy Hfill (Z.max (g_column g) (g_column h))
                      (Z.max (g_row g) (g_row h))); try done; split_rect.
Qed.

(** The rectangle in slot [i] belongs to pane [i] and has its size. *)
Lemma geometry_slot i p g :
  w_panes w !! i = Some p -> w_pane_geometries w !! i = Some g ->
  g_index g = i /\ p_size p = mkSize (g_columns g) (g_rows g).
Proof using Hok Hsy.
  intros Hp Hg. pose proof (geometries_in_order w Hok Hsy) as Ho.
  apply (f_equal (.!! i)) in Ho. rewrite list_lookup_fmap, Hg in Ho. simpl in Ho.
  symmetry in Ho. apply lookup_seq in Ho as [Hi _]. simpl in Hi. split; [done|].
  assert (g ∈ w_pane_geometries w) as Hin by (by eapply list_elem_of_lookup_2).
  rewrite Hsy in Hin. unfold pane_geometries in Hin. rewrite (sort_by_key_perm _ _) in Hin.
  destruct (collect_geometries_size _ _ _ _ _ Hin) as (_ & q & Hq & Hs).
  rewrite Hi, Hp in Hq. injection Hq as <-. done.
Qed.

Lemma length_geometries : length (w_pane_geometries w) = length (w_panes w).
Proof using Hok Hsy.
  pose proof (geometries_in_order w Hok Hsy) as Ho%(f_equal length).
  by rewrite length_fmap, length_seq in Ho.
Qed.

(** A pane of a filled window has a valid size. *)
Lemma pane_size_valid i p : w_panes w !! i = Some p -> valid_size (p_size p).
Proof using All.
  intros Hp. destruct (lookup_lt_is_Some_2 (w_pane_geometries w) i) as [g Hg].
  { rewrite length_geometries. by eapply lookup_lt_Some. }
  destruct (geometry_slot i p g Hp Hg) as [_ ->].
  pose proof (geometry_in w Hok Hsy Hfill g ltac:(by eapply list_elem_of_lookup_2)) as Ig.
  pose proof (wc_size w (wo_core w Hok)) as Hv. unfold rect_in, valid_size in *. simpl. nia.
Qed.

Lemma validated_own_geometries :
  validated_pane_geometries (w_size w) (w_panes w) (w_pane_geometries w) = Ok (w_pane_geometries w).
Proof using All.
  unfold validated_pane_geometries. rewrite length_geometries, Nat.eqb_refl. simpl.
  assert (for_each (fun '(index, (p, g)) => check_restored_geometry (w_size w) index p g)
            (imap pair (zip (w_panes w) (w_pane_geometries w))) = Ok tt) as ->.
  { apply for_each_Ok, Forall_lookup. intros i [j [p g]] Hi. rewrite list_lookup_imap in Hi.
    rewrite lookup_zip_with in Hi. destruct (w_panes w !! i) as [q|] eqn:Hp; [|done].
    destruct (w_pane_geometries w !! i) as [h|] eqn:Hg; [|done]. simpl in Hi. injection Hi as <- <- <-.
    destruct (geometry_slot i q h Hp Hg) as [Hi Hs]. unfold check_restored_geometry.
    rewrite Hi, Nat.eqb_refl, Hs. simpl.
    pose proof (geometry_in w Hok Hsy Hfill h ltac:(by eapply list_elem_of_lookup_2)) as Ig.
    pose proof (wc_size w (wo_core w Hok)) as Hv. unfold rect_in, valid_size in *.
    rewrite !Z.eqb_refl, !(proj2 (Z.eqb_neq _ _)) by lia. simpl.
    unfold outside, sat_add, u16_MAX. rewrite !(proj2 (Z.ltb_ge _ _)) by lia. done. }
  assert (reject_overlaps "restored pane geometries must not overlap" (w_pane_geometries w) = Ok tt) as ->.
  { apply reject_overlaps_Ok, ForallOrdPairs_intro; [|apply geometries_disjoint].
    apply (NoDup_fmap_1 g_index). rewrite geometries_in_order by done.
    apply NoDup_ListNoDup, seq_NoDup. }
  done.
Qed.

Lemma imap_set_index_id : imap pane_set_index (w_panes w) = w_panes w.
Proof using Hok.
  apply list_eq. intros i. rewrite list_lookup_imap. destruct (w_panes w !! i) as [p|] eqn:Hp; [|done].
  simpl. f_equal. pose proof (wc_index w (wo_core w Hok) _ _ Hp) as E. destruct p; simpl in *; by subst.
Qed.
End RestoreFilled.

(** Exactly one slot is marked active: the active one. *)
Lemma active_indices_none panes o :
  Forall (fun p => p_active p = false) panes ->
  omap (fun '(i, p) => if p_active p then Some i else None) (zip (seq o (length panes)) panes) = [].
Proof.
  unfold omap. intros Hf. revert o. induction Hf as [|p panes Hp _ IH]; intros o; simpl; [done|].
  rewrite Hp. apply IH.
Qed.

Lemma active_indices_single panes : forall k o,
  (k < length panes)%nat -> (forall i p, panes !! i = Some p -> p_active p = (i =? k)%nat) ->
  omap (fun '(i, p) => if p_active p then Some i else None) (zip (seq o (length panes)) panes)
  = [(o + k)%nat].
Proof.
  pose proof active_indices_none as Hnone. unfold omap in *.
  induction panes as [|p panes IH]; intros k o Hk Ha; simpl in *; [lia|].
  rewrite (Ha 0%nat p eq_refl). destruct k as [|k]; simpl.
  - rewrite Hnone; [by rewrite Nat.add_0_r|].
    apply Forall_lookup. intros i q Hq. by apply (Ha (S i) q).
  - rewrite (IH k (S o)); [f_equal; lia|lia|]. intros i q Hq. by apply (Ha (S i) q).
Qed.

(** The parts a snapshot keeps of a window. *)
Definition snapshot_layout (w : Window) : RestoredWindowLayout :=
  mkRestoredLayout (Some (w_pane_geometries w)) (Some (w_layout_root w)) (w_layout_policy w).

Lemma restore_snapshot w :
  window_ok w -> synced w -> filled w ->
  exists w', from_restored_parts_with_layout (w_id w) (w_index w) (w_name w) (w_size w) (w_panes w)
               (snapshot_layout w) = Ok w'
    /\ w_panes w' = w_panes w /\ w_layout_root w' = w_layout_root w
    /\ w_pane_geometries w' = w_pane_geometries w /\ w_size w' = w_size w
    /\ w_active_pane_index w' = w_active_pane_index w /\ w_layout_policy w' = w_layout_policy w
    /\ window_ok w' /\ filled w'.
Proof.
  intros Hok Hsy Hfill. pose proof (wc_size w (wo_core w Hok)) as Hv.
  unfold from_restored_parts_with_layout. simpl rl_pane_geometries. simpl rl_layout_root.
  rewrite (proj2 (Size_validate_Ok _ (valid_size_u16 _ Hv)) Hv). cbn [mbind outcome_bind].
  assert (for_each (fun p => Size_validate (p_size p)) (w_panes w) = Ok tt) as ->.
  { apply for_each_Ok, Forall_lookup. intros i p Hp.
    pose proof (pane_size_valid w Hok Hsy Hfill i p Hp) as Hpv.
    by apply Size_validate_Ok; [apply valid_size_u16|]. }
  cbn [mbind outcome_bind].
  assert (for_each (fun g => Size_new (g_columns g) (g_rows g) ≫= fun _ => Ok tt) (w_pane_geometries w)
          = Ok tt) as ->.
  { apply for_each_Ok, Forall_lookup. intros i g Hg.
    destruct (lookup_lt_is_Some_2 (w_panes w) i) as [p Hp].
    { rewrite <- (length_geometries w Hok Hsy). by eapply lookup_lt_Some. }
    destruct (geometry_slot w Hok Hsy i p g Hp Hg) as [_ Hs].
    pose proof (pane_size_valid w Hok Hsy Hfill i p Hp) as Hpv. rewrite Hs in Hpv.
    destruct (valid_size_u16 _ Hpv) as [Hc Hr]. simpl in Hc, Hr.
    by rewrite (proj2 (Size_new_Ok _ _ (mkSize (g_columns g) (g_rows g)) Hc Hr)). }
  cbn [mbind outcome_bind]. rewrite (nonempty_match (w_panes w)) by (by apply window_nonempty).
  destruct (wo_focus w Hok) as [Hlt Hact _ _].
  unfold active_indices. rewrite (active_indices_single _ _ 0 Hlt Hact). cbn [Nat.add].
  rewrite (imap_set_index_id w Hok), (validated_own_geometries w Hok Hsy Hfill).
  rewrite (proj2 (validate_pane_indices_Ok _ _) (wo_root w Hok)).
  cbn [fmap outcome_fmap mbind outcome_bind]. rewrite bool_decide_eq_true_2 by (symmetry; exact Hsy).
  eexists. split; [reflexivity|]. do 6 (split; [done|]). split; [|done].
  destruct Hok as [[Hi Hn Hu Hs Hb] Hr Hf Hz]. split; [split; try done; simpl; lia|done| |done].
  split; simpl; try done; [constructor|set_solver].
Qed.

(** ** What a successful restore guarantees *)

Lemma active_indices_elem panes i :
  i ∈ active_indices panes <-> exists p, panes !! i = Some p /\ p_active p = true.
Proof.
  unfold active_indices. rewrite list_elem_of_omap. split.
  - intros ([j p] & Hin & Hs). apply list_elem_of_lookup in Hin as [k Hk].
    rewrite lookup_zip_with in Hk. destruct (seq 0 (length panes) !! k) as [j'|] eqn:Hj; [|done].
    simpl in Hk. destruct (panes !! k) as [q|] eqn:Hq; [|done]. simpl in Hk. injection Hk as -> ->.
    apply lookup_seq in Hj as [-> _]. destruct (p_active p) eqn:Ha; [|done]. injection Hs as <-. eauto.
  - intros (p & Hp & Ha). exists (i, p). split; [|by rewrite Ha].
    apply list_elem_of_lookup. exists i. rewrite lookup_zip_with, Hp.
    rewrite (proj2 (lookup_seq 0 (length panes) i i)); [done|]. split; [done|]. by eapply lookup_lt_Some.
Qed.

Lemma active_indices_one panes k :
  active_indices panes = [k] ->
  (k < length panes)%nat /\ forall i p, panes !! i = Some p -> p_active p = (i =? k)%nat.
Proof.
  intros He. assert (k ∈ active_indices panes) as Hk by (rewrite He; set_solver).
  apply active_indices_elem in Hk as (q & Hq & Ha). split; [by eapply lookup_lt_Some|].
  intros i p Hp. destruct (Nat.eqb_spec i k) as [->|Hne]; [congruence|].
  destruct (p_active p) eqn:Hpa; [|done]. exfalso. apply Hne.
  assert (i ∈ active_indices panes) as Hi by (apply active_indices_elem; eauto).
  rewrite He in Hi. by apply list_elem_of_singleton in Hi.
Qed.

Lemma validated_pane_geometries_Ok size panes gs gs' :
  validated_pane_geometries size panes gs = Ok gs' ->
  gs' = gs /\ ForallOrdPairs (fun g h => pane_geometries_overlap g h = false) gs
  /\ Forall (fun g => outside size g = false) gs.
Proof.
  unfold validated_pane_geometries. destruct (Nat.eqb_spec (length gs) (length panes)) as [Hl|]; [|done].
  simpl. intros ([] & Hf & ([] & Hr%reject_overlaps_Ok & [= <-])%bind_Ok_inv)%bind_Ok_inv.
  split; [done|]. split; [done|]. apply Forall_lookup. intros i g Hg.
  destruct (lookup_lt_is_Some_2 panes i) as [p Hp]; [rewrite <- Hl; by eapply lookup_lt_Some|].
  apply for_each_Ok in Hf. rewrite Forall_lookup in Hf. specialize (Hf i (i, (p, g))).
  rewrite list_lookup_imap, lookup_zip_with, Hp in Hf. simpl in Hf. rewrite Hg in Hf.
  specialize (Hf eq_refl). unfold check_restored_geometry in Hf.
  repeat match type of Hf with (if ?b then _ else _) = _ => destruct b eqn:? end; done.
Qed.

Lemma restored_layout_root_Ok size panes gs root :
  restored_layout_root size panes gs = Ok root -> tree_ok root (length panes).
Proof.
  unfold restored_layout_root. intros (r & _ & ([] & Hv & [= <-])%bind_Ok_inv)%bind_Ok_inv.
  by apply validate_pane_indices_Ok.
Qed.

Lemma restore_sound id index name size panes layout w :
  NoDup (ids_of panes) -> u16_size size -> panes_u16 panes ->
  from_restored_parts_with_layout id index name size panes layout = Ok w ->
  window_ok w /\ synced w /\ ids_of (w_panes w) = ids_of panes
  /\ (forall gs, rl_pane_geometries layout = Some gs ->
        w_pane_geometries w = gs /\ Forall (fun g => outside size g = false) gs
        /\ ForallOrdPairs (fun g h => pane_geometries_overlap g h = false) gs).
Proof.
  intros Hnd Hu Hp. unfold from_restored_parts_with_layout.
  intros ([] & Hsz%Size_validate_Ok & ([] & _ & ([] & _ & H)%bind_Ok_inv)%bind_Ok_inv)%bind_Ok_inv; [|done].
  destruct panes as [|p ps] eqn:Hps; [done|]. rewrite <- Hps in *. clear Hps p ps.
  destruct (active_indices panes) as [|k [|? ?]] eqn:Hact; [done| |done].
  apply active_indices_one in Hact as [Hk Hact].
  apply bind_Ok_inv in H as (validated & Hval & H). apply bind_Ok_inv in H as (root & Hroot & H).
  assert (tree_ok root (length panes)) as Htree.
  { destruct (rl_layout_root layout) as [r|].
    - apply bind_Ok_inv in Hroot as ([] & Hv & [= <-]). apply validate_pane_indices_Ok in Hv.
      by rewrite length_imap in Hv.
    - apply restored_layout_root_Ok in Hroot. by rewrite length_imap in Hroot. }
  set (w0 := mkWindow id index name (window_name_source_for_created_window index name) None size
               (imap pane_set_index panes) k None [] None (rl_layout_policy layout) root []) in *.
  assert (w = refresh_pane_geometries w0
          /\ forall gs, validated = Some gs -> w_pane_geometries (refresh_pane_geometries w0) = gs) as [-> Hexp].
  { destruct validated as [gs|].
    - case_bool_decide; [|done]. injection H as <-. split; [done|]. by intros gs' [= <-].
    - injection H as <-. done. }
  assert (forall i p, imap pane_set_index panes !! i = Some p ->
            exists q, panes !! i = Some q /\ p = pane_set_index i q) as Hlk.
  { intros i p. rewrite list_lookup_imap. destruct (panes !! i) as [q|]; [|done]. intros [= <-]. eauto. }
  assert (ids_of (imap pane_set_index panes) = ids_of panes) as Hids.
  { unfold ids_of. apply list_eq. intros i. rewrite !list_lookup_fmap, list_lookup_imap.
    by destruct (panes !! i). }
  split; [split; [split|..]|split; [done|split; [done|]]].
  - intros i p (q & _ & ->)%Hlk. done.
  - simpl. by rewrite Hids.
  - apply Forall_lookup. intros i p (q & Hq & ->)%Hlk. by apply (Forall_lookup_1 _ _ _ _ Hp Hq).
  - done.
  - simpl. lia.
  - unfold root_ok. simpl. by rewrite length_imap.
  - split; simpl; [by rewrite length_imap| |constructor|set_solver].
    intros i p (q & Hq & ->)%Hlk. exact (Hact i q Hq).
  - done.
  - intros gs Hgs. rewrite Hgs in Hval.
    destruct (validated_pane_geometries size (imap pane_set_index panes) gs) as [gs'| |] eqn:Hv; [|done|done].
    injection Hval as <-. apply validated_pane_geometries_Ok in Hv as (-> & H1 & H2). auto.
Qed.

(** ** Reconstruction terminates *)

Section ReconstructTotal.
Import Reconstruct.

Lemma divide_at_perm d cut nodes : forall before after bs as_,
  divide_at d cut nodes before after = Some (bs, as_) -> bs ++ as_ ≡ₚ (before ++ after) ++ nodes.
Proof.
  induction nodes as [|g nodes IH]; intros before after bs as_; simpl.
  - intros [= <- <-]. by rewrite app_nil_r.
  - destruct (far_edge d g <=? cut); [|destruct (cut <=? near_edge d g); [|done]]; intros H%IH;
      rewrite H; solve_Permutation.
Qed.

Lemma partition_perm d nodes b l r bl br :
  layout_partition_at_clean_cut nodes b d = Some (l, r, bl, br) ->
  l ++ r ≡ₚ nodes /\ l <> [] /\ r <> [].
Proof.
  unfold layout_partition_at_clean_cut.
  assert (forall cuts l r, first_clean_cut d nodes cuts = Some (l, r) ->
            l ++ r ≡ₚ nodes /\ l <> [] /\ r <> []) as Hcut.
  { induction cuts as [|cut cuts IH]; intros l' r'; simpl; [done|].
    destruct (divide_at d cut nodes [] []) as [[[|x xs] [|y ys]]|] eqn:Hd; try apply IH.
    intros [= <- <-]. split; [|done]. by apply divide_at_perm in Hd. }
  destruct (first_clean_cut d nodes (candidate_cuts d nodes b)) as [[l' r']|] eqn:Hf; [|done].
  intros [= <- <- _ _]. by eapply Hcut.
Qed.

(** The number of rectangles bounds the recursion, and the tree has exactly
    their indices as leaves, with two or more children per split. *)
Lemma layout_node_total fuel : forall nodes b,
  (length nodes <= fuel)%nat -> nodes <> [] ->
  exists n, layout_node_from_geometries fuel nodes b = Some n
            /\ leaves n ≡ₚ g_index <$> nodes /\ arity_ok n = true.
Proof.
  induction fuel as [|fuel IH]; intros nodes b Hl Hne; [destruct nodes; simpl in *; [done|lia]|].
  destruct nodes as [|g [|h rest]]; [done|by exists (NPane (g_index g))|].
  set (nodes := g :: h :: rest) in *. clear Hne.
  assert (forall d l r bl br, layout_partition_at_clean_cut nodes b d = Some (l, r, bl, br) ->
    exists n, (l' ← layout_node_from_geometries fuel l bl; r' ← layout_node_from_geometries fuel r br;
               Some (NSplit d [l'; r'])) = Some n
              /\ leaves n ≡ₚ g_index <$> nodes /\ arity_ok n = true) as Hpart.
  { intros d l r bl br (Hperm & Hnl & Hnr)%partition_perm.
    pose proof (Permutation_length Hperm) as Hlen. rewrite length_app in Hlen.
    assert (0 < length l)%nat by (destruct l; [done|simpl; lia]).
    assert (0 < length r)%nat by (destruct r; [done|simpl; lia]).
    destruct (IH l bl) as (nl & -> & L1 & L2); [lia|done|].
    destruct (IH r br) as (nr & -> & R1 & R2); [lia|done|].
    eexists. split; [reflexivity|]. split.
    - simpl. rewrite app_nil_r, L1, R1, <- fmap_app. by rewrite Hperm.
    - simpl. by rewrite L2, R2. }
  change (layout_node_from_geometries (S fuel) nodes b) with
    (match layout_partition_at_clean_cut nodes b Vertical with
     | Some (l, r, bl, br) =>
         l' ← layout_node_from_geometries fuel l bl; r' ← layout_node_from_geometries fuel r br;
         Some (NSplit Vertical [l'; r'])
     | None =>
         match layout_partition_at_clean_cut nodes b Horizontal with
         | Some (t, u, bt, bu) =>
             t' ← layout_node_from_geometries fuel t bt; u' ← layout_node_from_geometries fuel u bu;
             Some (NSplit Horizontal [t'; u'])
         | None =>
             Some (NSplit (if forallb (fun x => g_rows x =? g_rows g) nodes then Vertical else Horizontal)
                     (List.map (fun x => single_pane (g_index x)) nodes))
         end
     end).
  destruct (layout_partition_at_clean_cut nodes b Vertical) as [[[[l r] bl] br]|] eqn:HV;
    [by eapply Hpart|].
  destruct (layout_partition_at_clean_cut nodes b Horizontal) as [[[[l r] bl] br]|] eqn:HH;
    [by eapply Hpart|].
  eexists. split; [reflexivity|]. clear. split.
  - change (leaves_of (List.map (fun x => single_pane (g_index x)) nodes) ≡ₚ g_index <$> nodes).
    induction nodes as [|x l IH]; [done|]. cbn [List.map]. rewrite leaves_of_cons. simpl. by rewrite IH.
  - apply arity_ok_split. rewrite List.length_map. split; [simpl; lia|].
    apply Forall_map, Forall_true. done.
Qed.

Lemma from_geometries_total gs :
  gs <> [] -> exists n, from_geometries gs = Ok n /\ leaves n ≡ₚ g_index <$> gs /\ arity_ok n = true.
Proof.
  intros Hne. unfold from_geometries. rewrite (nonempty_match gs) by done.
  destruct (layout_node_total (length (sort_by_key g_index gs)) (sort_by_key g_index gs)
              (covering (sort_by_key g_index gs))) as (n & -> & Hl & Ha); [done| |].
  - intros E. pose proof (sort_by_key_perm g_index gs) as Hp. rewrite E in Hp.
    by apply Permutation_nil_l in Hp.
  - exists n. split; [done|]. split; [|done]. by rewrite Hl, sort_by_key_perm.
Qed.
End ReconstructTotal.

(** ** Replacing rectangles *)

Definition geometry_u16 (g : PaneGeometry) : Prop := u16_size (mkSize (g_columns g) (g_rows g)).

Lemma check_replacement_Ok size m g seen seen' :
  m <> 0%nat -> check_replacement_geometry size g seen = Ok seen' ->
  mark m (g_index g) seen = Ok seen' /\ 2 <= g_columns g /\ 2 <= g_rows g /\ outside size g = false.
Proof.
  intros Hm. unfold check_replacement_geometry. rewrite mark_Ok.
  destruct (seen !! g_index g) as [[]|] eqn:Hs; try done.
  unfold MIN_PANE_COLUMNS, MIN_PANE_ROWS.
  destruct ((g_columns g <? 2) || (g_rows g <? 2)) eqn:H1; [done|].
  destruct (outside size g) eqn:H2; [done|]. intros [= <-]. bool_to_prop. done.
Qed.

Lemma validate_replacement_Ok size m gs :
  m <> 0%nat -> validate_replacement_pane_geometries size m gs = Ok tt ->
  g_index <$> gs ≡ₚ seq 0 m
  /\ Forall (fun g => 2 <= g_columns g /\ 2 <= g_rows g /\ outside size g = false) gs
  /\ ForallOrdPairs (fun g h => pane_geometries_overlap g h = false) gs.
Proof.
  intros Hm. unfold validate_replacement_pane_geometries.
  destruct (Nat.eqb_spec (length gs) m) as [Hl|]; [|done]. simpl.
  intros (seen & Hf & H)%bind_Ok_inv. destruct (existsb negb seen); [done|].
  apply reject_overlaps_Ok in H.
  assert (forall gs seen seen', fold_outcome (check_replacement_geometry size) gs seen = Ok seen' ->
    fold_outcome (mark m) (g_index <$> gs) seen = Ok seen'
    /\ Forall (fun g => 2 <= g_columns g /\ 2 <= g_rows g /\ outside size g = false) gs) as Hfold.
  { clear -Hm. induction gs as [|g gs IH]; intros seen seen'; simpl; [by intros [= <-]|].
    destruct (check_replacement_geometry size g seen) as [s| |] eqn:Hc; [|done|done].
    apply (check_replacement_Ok size m) in Hc as (Hmk & Hrest); [|done]. intros [H1 H2]%IH.
    rewrite Hmk. split; [done|]. by constructor. }
  apply Hfold in Hf as [Hmark Hall]. split; [|done].
  apply fold_mark_Ok in Hmark as (Hnd & Hin & _); [|done].
  assert (g_index <$> gs ⊆ seq 0 m) as Hsub.
  { intros i Hi. rewrite Forall_forall in Hin. specialize (Hin i Hi). apply lookup_replicate in Hin as [_ Hi'].
    apply elem_of_seq. lia. }
  apply submseteq_length_Permutation.
  - by apply NoDup_submseteq.
  - rewrite length_seq, length_fmap. lia.
Qed.

Lemma write_sizes_spec gs : forall panes,
  NoDup (g_index <$> gs) -> Forall (fun g => (g_index g < length panes)%nat) gs ->
  same_but_sizes (g_index <$> gs) panes (write_sizes gs panes)
  /\ (forall g, g ∈ gs -> size_at (write_sizes gs panes) (g_index g) = Some (mkSize (g_columns g) (g_rows g)))
  /\ (panes_u16 panes -> Forall geometry_u16 gs -> panes_u16 (write_sizes gs panes)).
Proof.
  induction gs as [|g gs IH]; intros panes Hnd Hlt; simpl.
  - split; [apply same_but_sizes_refl|]. split; [set_solver|done].
  - apply NoDup_cons in Hnd as [Hni Hnd]. apply Forall_cons in Hlt as [Hg Hlt].
    destruct (lookup_lt_is_Some_2 _ _ Hg) as [p Hp].
    set (panes1 := alter (pane_set_size (mkSize (g_columns g) (g_rows g))) (g_index g) panes).
    assert (panes1 = <[g_index g := pane_set_size (mkSize (g_columns g) (g_rows g)) p]> panes) as E
      by (by apply list_alter_insert).
    assert (same_but_sizes [g_index g] panes panes1) as Hs1 by (apply (resize_panes_same (NPane (g_index g)))).
    destruct (IH panes1 Hnd) as (Hs & Hsz & Hu).
    { rewrite E, length_insert. done. }
    split; [|split].
    + eapply same_but_sizes_trans; [| |exact Hs1|exact Hs]; set_solver.
    + intros h [->|Hh]%elem_of_cons; [|by apply Hsz].
      rewrite (size_at_frame _ _ _ _ Hs Hni), E. by apply size_at_insert_eq.
    + intros Hp16 Hg16. apply Forall_cons in Hg16 as [Hg1 Hg16]. apply Hu; [|done].
      rewrite E. by apply panes_u16_insert.
Qed.

Lemma restore_sizes (panes panes' : list Pane) :
  unsized <$> panes' = unsized <$> panes ->
  zip_with (fun p s => pane_set_size s p) panes' (p_size <$> panes) = panes.
Proof.
  intros Hu. apply list_eq. intros i. rewrite lookup_zip_with, list_lookup_fmap.
  pose proof (unsized_length _ _ Hu) as Hl. apply (f_equal (.!! i)) in Hu. rewrite !list_lookup_fmap in Hu.
  destruct (panes !! i) as [p|] eqn:Hp.
  - destruct (panes' !! i) as [p'|]; [|done]. simpl in *. f_equal. destruct p, p'.
    unfold unsized, pane_set_size in *. simpl in *. congruence.
  - apply lookup_ge_None in Hp. by rewrite (proj2 (lookup_ge_None panes' i)) by lia.
Qed.

Lemma no_panic_reject_overlaps message gs : no_panic (reject_overlaps message gs).
Proof.
  induction gs as [|g gs IH]; simpl; [done|]. apply no_panic_bind; [|done].
  clear IH. induction gs as [|h gs IH]; simpl; [done|]. by destruct (pane_geometries_overlap g h).
Qed.

Lemma no_panic_validate_replacement size m gs :
  no_panic (validate_replacement_pane_geometries size m gs).
Proof.
  unfold validate_replacement_pane_geometries. apply no_panic_if; [done|]. apply no_panic_bind.
  - generalize (replicate m false). induction gs as [|g gs IH]; intros s; simpl; [done|].
    unfold check_replacement_geometry at 1. destruct (s !! g_index g) as [[]|]; try done.
    destruct (_ || _); [done|]. destruct (outside _ _); [done|]. by apply IH.
  - intros seen. apply no_panic_if; [done|apply no_panic_reject_overlaps].
Qed.

(** Rectangles replaced in a well-formed window: either the window is as it
    was, or every pane has the size of its rectangle, the rectangles lie inside
    the window, are large enough and do not overlap. *)
Lemma replace_pane_geometries_spec w gs :
  window_ok w -> Forall geometry_u16 gs ->
  let '(w', r) := replace_pane_geometries gs w in
  match r with
  | Ok _ => window_ok w' /\ w_pane_geometries w' = gs /\ ids_of (w_panes w') = ids_of (w_panes w)
      /\ active_id w' = active_id w
      /\ (forall g, g ∈ gs -> size_at (w_panes w') (g_index g) = Some (mkSize (g_columns g) (g_rows g)))
      /\ Forall (fun g => 2 <= g_columns g /\ 2 <= g_rows g /\ outside (w_size w) g = false) gs
      /\ ForallOrdPairs (fun g h => pane_geometries_overlap g h = false) gs
      /\ g_index <$> gs ≡ₚ seq 0 (length (w_panes w))
  | Err _ => w' = w
  | Panic => False
  end.
Proof.
  intros Hok Hg16. unfold replace_pane_geometries.
  assert (length (w_panes w) <> 0%nat) as Hn by (pose proof (fo_lt w (wo_focus w Hok)); lia).
  pose proof (no_panic_validate_replacement (w_size w) (length (w_panes w)) gs) as Hnp.
  destruct (validate_replacement_pane_geometries (w_size w) (length (w_panes w)) gs) as [[]|e|] eqn:Hv;
    [|done|done].
  clear Hnp. apply validate_replacement_Ok in Hv as (Hperm & Hall & Hov); [|done].
  set (panes := write_sizes gs (w_panes w)).
  destruct (write_sizes_spec gs (w_panes w)) as (Hsame & Hsz & Hu16).
  { rewrite Hperm. apply NoDup_ListNoDup, seq_NoDup. }
  { apply Forall_forall. intros g Hg. assert (g_index g ∈ g_index <$> gs) as Hi
      by (apply list_elem_of_fmap; by exists g). rewrite Hperm in Hi. apply elem_of_seq in Hi. lia. }
  pose proof (same_unsized _ _ _ Hsame) as Hu. fold panes in Hsame, Hsz, Hu16, Hu.
  assert (forall root, tree_ok root (length panes) -> layout_change w panes root) as Hlc.
  { intros root Ht. split; [done|apply Hu16; [apply Hok|done]|done]. }
  assert (forall root, tree_ok root (length panes) ->
            window_ok (set_geometries (set_root (set_panes w panes) root) gs)
            /\ active_id (set_geometries (set_root (set_panes w panes) root) gs) = active_id w) as Hfin.
  { intros root Ht. destruct (relaid_ok w panes root (Hlc root Ht) Hok) as [Hok1 _].
    split; [|apply (relaid_active_id w panes root), Hlc, Ht].
    destruct Hok1 as [Hc Hr Hf Hz]. destruct Hc, Hf. by split. }
  cbn [w_panes set_panes w_layout_root]. fold panes. case_bool_decide as Heq.
  - destruct (Hfin (w_layout_root w)) as [H1 H2].
    { rewrite (unsized_length _ _ Hu). apply Hok. }
    split; [exact H1|]. split; [done|]. split; [by apply unsized_ids|]. split; [exact H2|]. done.
  - rewrite (restore_sizes (w_panes w) panes Hu). fold panes.
    destruct (from_geometries_total gs) as (root & -> & Hl & Ha).
    { intros ->. apply Permutation_nil in Hperm. by destruct (length (w_panes w)). }
    assert (tree_ok root (length (w_panes w))) as Ht by (split; [by rewrite Hl|done]).
    rewrite (proj2 (validate_pane_indices_Ok _ _) Ht).
    destruct (Hfin root) as [H1 H2]; [by rewrite (unsized_length _ _ Hu)|].
    split; [exact H1|]. split; [done|]. split; [by apply unsized_ids|]. split; [exact H2|]. done.
Qed.
