(* ===== verification/WindowCommands.v ===== *)
(** * Windows under any sequence of commands

    The mutating operations of a window as commands over an identity factory
    and a window, the invariant of such a pair, and its preservation by every
    command and every sequence of commands: no command panics, and as long as
    layouts get a cell for every pane and no pane is resized on its own, the
    panes keep tiling the window; a layout of the whole window tiles it again. *)

From S2P Require Import Prelude RustStr Ids LayoutTypes Sizing LayoutTree Tiling TreeEdits WindowOps PolicyLayouts WindowInv WindowSteps WindowMoves WindowNav WindowRestore.
Import Node Win Nav Restore.
Local Open Scope Z_scope.

Inductive Command :=
| CSplit (direction : SplitDirection) (requested : option PaneSizeSpec) (select_new : bool)
| CInsert (target : option string) (pane : Pane) (direction : SplitDirection) (select_inserted : bool)
| CTake (target : option string)
| CKill (target : option string)
| CRotate (backwards : bool)
| CSwap (first : option string) (second : string)
| CSelect (target : string)
| CSelectLast
| CSelectAdjacent (towards : PaneNavigationDirection)
| CToggleZoom
| CSetZoom (pane_id : PaneId) (zoomed : bool)
| CSetPolicy (policy : LayoutPolicy)
| CCycleLayout
| CResizeWindow (size : Size)
| CResizeActive (size : Size)
| CResizePane (target : option string) (size : Size)
| CResizePaneSpec (target : option string) (spec : PaneSizeSpec)
| CReplaceGeometries (geometries : list PaneGeometry)
| CApplyNavigation (active last : option PaneId) (history : list PaneId) (zoomed : option PaneId)
| CRename (name : string)
| CRenameGenerated (name : string)
| CMarkNameGenerated.

Definition state : Type := IdFactory * Window.

Definition discard {A} (m : op MuxError state A) : op MuxError state unit := m ≫= fun _ => mret tt.

Definition run (c : Command) : op MuxError state unit :=
  match c with
  | CSplit d req sel => discard (split_active_with_requested_size d req sel)
  | CInsert t p d sel => discard (on_window (insert_existing_after t p d sel))
  | CTake t => discard (on_window (take_pane t))
  | CKill t => discard (on_window (kill_pane t))
  | CRotate b => on_window (op_modify (rotate_panes b))
  | CSwap a b => on_window (swap_panes a b)
  | CSelect t => on_window (select_pane t)
  | CSelectLast => on_window select_last_pane
  | CSelectAdjacent d => on_window (select_adjacent_pane d)
  | CToggleZoom => discard (on_window toggle_zoom_active)
  | CSetZoom id z => discard (on_window (set_pane_zoom id z))
  | CSetPolicy p => discard (on_window (set_layout_policy p))
  | CCycleLayout => discard (on_window cycle_layout)
  | CResizeWindow s => on_window (resize_window s)
  | CResizeActive s => on_window (resize_active_pane s)
  | CResizePane t s => discard (on_window (resize_pane t s))
  | CResizePaneSpec t s => discard (on_window (resize_pane_with_spec t s))
  | CReplaceGeometries gs => on_window (replace_pane_geometries gs)
  | CApplyNavigation a l h z => on_window (op_modify (apply_client_navigation_state a l h z))
  | CRename n => on_window (op_modify (rename n))
  | CRenameGenerated n => on_window (op_modify (rename_generated n))
  | CMarkNameGenerated => on_window (op_modify mark_name_generated)
  end.

(** The fields of a size request are [u16] values. *)
Definition spec_u16 (spec : PaneSizeSpec) : Prop :=
  match spec with
  | Cells c r => (forall x, c = Some x -> in_u16 x) /\ (forall x, r = Some x -> in_u16 x)
  | Percent p _ => in_u16 p
  | Delta _ a | Edge _ a => in_u16 a
  end.

(** What the caller owes a command, and the code does not check: sizes and
    coordinates are [u16] values; a split finds the pane counter below its
    maximum; an inserted pane is new to the window and its identity is behind
    the counter; a pane is not taken from a window that has no other (the
    window would be left without panes, and [split_active] and
    [toggle_zoom_active] index its active pane: [taking_last_pane_breaks_window]);
    and a client's focus history has at most ten entries, as the captured ones
    have. *)
Definition admissible (c : Command) (s : state) : Prop :=
  let '(ids, w) := s in
  match c with
  | CSplit _ _ _ => (next_pane ids < u64_max)%N
  | CInsert _ p _ _ => p_id p ∉ ids_of (w_panes w) /\ pane_floor ids (p_id p)
  | CTake _ => (2 <= length (w_panes w))%nat
  | CResizeWindow size | CResizeActive size | CResizePane _ size => u16_size size
  | CResizePaneSpec _ spec => spec_u16 spec
  | CReplaceGeometries gs => Forall geometry_u16 gs
  | CApplyNavigation _ _ h _ => (length h <= 10)%nat
  | _ => True
  end.

Definition state_ok (s : state) : Prop :=
  let '(ids, w) := s in window_ok w /\ indexed w /\ ids_ahead ids w.

(** ** Parts of the preservation proof *)

Lemma good_synced ids w w' :
  window_ok w' -> synced w' -> ids_ahead ids w ->
  (forall id, id ∈ ids_of (w_panes w') -> id ∈ ids_of (w_panes w)) -> state_ok (ids, w').
Proof.
  intros Hok Hsy Ha Hsub. split; [done|]. split; [apply synced_indexed; [apply Hok|done]|].
  unfold ids_ahead in *. rewrite Forall_forall in *. auto.
Qed.

Lemma good_kept ids w w' :
  window_ok w' -> indexed w -> ids_ahead ids w ->
  w_pane_geometries w' = w_pane_geometries w ->
  ids_of (w_panes w') ≡ₚ ids_of (w_panes w) -> state_ok (ids, w').
Proof.
  intros Hok Hix Ha Hg Hids. split; [done|]. split.
  - unfold indexed in *. rewrite Hg, Hix. apply Permutation_length in Hids. unfold ids_of in Hids.
    rewrite !length_fmap in Hids. by rewrite Hids.
  - unfold ids_ahead in *. by rewrite Hids.
Qed.

Lemma good_select ids w i :
  state_ok (ids, w) -> (i < length (w_panes w))%nat -> state_ok (ids, set_active_pane_index i w).
Proof.
  intros (Hok & Hix & Ha) Hi. destruct (select_ok w i Hok Hi) as (H1 & _).
  eapply good_kept; [done|exact Hix|done| |by destruct (set_active_same i w) as (-> & _)].
  rewrite set_active_pane_index_unfold. by destruct (record_focus_same i w) as (_ & _ & _ & Hg & _).
Qed.

Lemma size_new_u16 c r s : in_u16 c -> in_u16 r -> Size_new c r = Ok s -> u16_size s.
Proof. intros Hc Hr H. apply Size_new_Ok in H as [-> _]; done. Qed.

Lemma size_from_direction_u16 current dir a m1 m2 s :
  u16_size current -> in_u16 a -> size_from_direction current dir a m1 m2 = Ok s -> u16_size s.
Proof.
  intros [Hc Hr] Ha. unfold size_from_direction. destruct (a =? 0); [done|].
  destruct dir; intros (x & Hx%ok_or_Ok_inv & H)%bind_Ok_inv;
    (apply checked_sub_Some in Hx as [H1 ->] || apply checked_add_Some in Hx as [H1 ->]);
    (eapply size_new_u16; [| |exact H]; solve_int).
Qed.

Lemma resolve_size_u16 source fallback spec messages s :
  u16_size source -> u16_size fallback -> spec_u16 spec ->
  resolve_size_spec source fallback spec messages = Ok s -> u16_size s.
Proof.
  intros [Hs1 Hs2] [Hf1 Hf2] Hsp. destruct spec as [c r|p axis|dir a|dir a]; simpl in *.
  - destruct Hsp as [Hc Hr]. intros H.
    assert (in_u16 (default (columns fallback) c) /\ in_u16 (default (rows fallback) r)) as [H1 H2]
      by (destruct c, r; simpl; auto).
    destruct c, r, (empty_cells messages); try done; exact (size_new_u16 _ _ _ H1 H2 H).
  - unfold percent_size_for_axis. destruct (p =? 0); [done|].
    assert (forall t n m x, in_u16 t -> scaled_dimension t p n m = Ok x -> in_u16 x) as Hsc.
    { intros t n m x Ht. unfold scaled_dimension, u16_try_from.
      destruct (_ <=? u16_MAX) eqn:E; [|done]. intros [= <-]. bool_to_prop. solve_int. }
    intros (c & H1 & (r & H2 & H3)%bind_Ok_inv)%bind_Ok_inv.
    eapply size_new_u16; [| |exact H3].
    + destruct axis; [|injection H1 as <-; done|]; exact (Hsc _ _ _ _ Hs1 H1).
    + destruct axis; [injection H2 as <-; done| |]; exact (Hsc _ _ _ _ Hs2 H2).
  - by apply size_from_direction_u16.
  - by apply size_from_direction_u16.
Qed.

(** ** Each command *)

Definition safe_step (p : state * result unit) : Prop := no_panic p.2 /\ state_ok p.1.

Definition safe_method {A} (m : method A) (ids : IdFactory) (w : Window) : Prop :=
  let '(w', r) := m w in no_panic r /\ state_ok (ids, w').

Lemma safe_discard {A} (m : method A) ids w :
  safe_method m ids w -> safe_step (discard (on_window m) (ids, w)).
Proof.
  unfold safe_method, safe_step, discard, on_window. op_run.
  destruct (m w) as [w' [a|e|]]; cbn [fst snd]; intros [H1 H2]; split; done.
Qed.

Lemma safe_on_window (m : method unit) ids w :
  safe_method m ids w -> safe_step (on_window m (ids, w)).
Proof.
  unfold safe_method, safe_step, on_window. op_run. by destruct (m w) as [w' r].
Qed.

Section Commands.
Context (ids : IdFactory) (w : Window).
Hypothesis Hs : state_ok (ids, w).

(** An error that leaves the window as it was. *)
Lemma safe_same : state_ok (ids, w).
Proof using Hs. done. Qed.

Lemma safe_kill target : safe_method (kill_pane target) ids w.
Proof using Hs.
  destruct Hs as (Hok & Hix & Ha). unfold safe_method.
  pose proof (kill_pane_spec w target Hok) as H. destruct (kill_pane target w) as [w' [p|e|]]; [| |done].
  - destruct H as (index & _ & Hrem & Hok' & Hsy' & Hids & _). split; [done|].
    apply (good_synced ids w); try done. intros id. rewrite Hids, <- remaining_ids.
    rewrite (remaining_ids_perm w index p Hrem). set_solver.
  - subst. done.
Qed.

Lemma safe_take target : (2 <= length (w_panes w))%nat -> safe_method (take_pane target) ids w.
Proof using Hs.
  intros Hn. destruct Hs as (Hok & Hix & Ha). unfold safe_method, take_pane.
  pose proof (no_panic_pane_index w target) as Hnp.
  destruct (pane_index w target) as [index|e|] eqn:Hi; [|done|done].
  apply pane_index_Ok in Hi; [|done]. destruct (lookup_lt_is_Some_2 _ _ Hi) as [p Hp].
  destruct (take_pane_at_spec w index p Hok Hp) as (w' & -> & H & _). specialize (H Hn).
  destruct H as (Hok' & Hsy' & Hids & _). split; [done|].
  apply (good_synced ids w); try done. intros id. rewrite Hids, <- remaining_ids.
  rewrite (remaining_ids_perm w index p Hp). set_solver.
Qed.

Lemma safe_insert target p d sel :
  p_id p ∉ ids_of (w_panes w) -> pane_floor ids (p_id p) ->
  safe_method (insert_existing_after target p d sel) ids w.
Proof using Hs.
  intros Hfresh Hfl. destruct Hs as (Hok & Hix & Ha). unfold safe_method.
  pose proof (insert_existing_spec w target p d sel Hok Hfresh) as H.
  destruct (insert_existing_after target p d sel w) as [w' [q|e|]]; [| |done].
  - destruct H as (Hok' & Hsy' & _ & _ & _ & Hids & _). split; [done|]. split; [done|].
    split; [apply synced_indexed; [apply Hok'|done]|]. unfold ids_ahead. rewrite Hids. by constructor.
  - subst. done.
Qed.

Lemma safe_resize_at index size :
  (index < length (w_panes w))%nat -> u16_size size -> safe_method (resize_pane_at_index index size) ids w.
Proof using Hs.
  intros Hi Hu. destruct Hs as (Hok & Hix & Ha). unfold safe_method.
  pose proof (resize_pane_at_index_spec w index size Hok Hi Hu) as H.
  destruct (resize_pane_at_index index size w) as [w' [p|e|]]; [| |done].
  - destruct H as (Hok' & Hsy' & _ & _ & _ & _ & Hids & _). split; [done|].
    apply (good_synced ids w); try done. intros id. by rewrite Hids.
  - subst. done.
Qed.

Lemma safe_resize_pane target size : u16_size size -> safe_method (resize_pane target size) ids w.
Proof using Hs.
  intros Hu. destruct Hs as (Hok & Hix & Ha). unfold safe_method, resize_pane. op_run. cbv [id].
  pose proof (no_panic_target_or_active w target) as Hnp.
  destruct (target_or_active w target) as [i|e|] eqn:Hi; [|done|done].
  apply safe_resize_at; [|done]. by eapply target_or_active_Ok.
Qed.

Lemma safe_resize_active size : u16_size size -> safe_method (resize_active_pane size) ids w.
Proof using Hs.
  intros Hu. destruct Hs as (Hok & Hix & Ha). pose proof (fo_lt w (wo_focus w Hok)) as Hlt.
  pose proof (safe_resize_at _ size Hlt Hu) as H. unfold safe_method, resize_active_pane in *. op_run.
  destruct (resize_pane_at_index (w_active_pane_index w) size w) as [w' [p|e|]];
    destruct H as [H1 H2]; split; done.
Qed.

Lemma size_from_spec_u16 i spec size :
  spec_u16 spec -> size_from_spec w i spec = Ok size -> u16_size size.
Proof using Hs.
  intros Hsp. destruct Hs as (Hok & _). unfold size_from_spec, ok_or.
  destruct (w_panes w !! i) as [p|] eqn:Hp; [|done]. unfold resize_pane_size. simpl. intros Hr.
  eapply resolve_size_u16; [| |exact Hsp|exact Hr].
  - apply valid_size_u16, Hok.
  - apply (Forall_lookup_1 _ _ _ _ (wc_u16 w (wo_core w Hok)) Hp).
Qed.

Lemma no_panic_size_from_spec i spec : no_panic (size_from_spec w i spec).
Proof using.
  unfold size_from_spec, ok_or. destruct (w_panes w !! i) as [p|]; [|done]. apply no_panic_resolve.
Qed.

Lemma safe_resize_spec target spec : spec_u16 spec -> safe_method (resize_pane_with_spec target spec) ids w.
Proof using Hs.
  intros Hsp. pose proof Hs as (Hok & _). unfold safe_method, resize_pane_with_spec. op_run. cbv [id].
  pose proof (no_panic_pane_index w target) as Hnp.
  destruct (pane_index w target) as [i|e|] eqn:Hi; [|done|done]. clear Hnp.
  apply pane_index_Ok in Hi; [|done]. pose proof (no_panic_size_from_spec i spec) as Hnp.
  destruct (size_from_spec w i spec) as [size|e|] eqn:Hr; [|done|done].
  apply safe_resize_at; [done|]. by eapply size_from_spec_u16.
Qed.

Lemma safe_resize_window size : u16_size size -> safe_method (resize_window size) ids w.
Proof using Hs.
  intros Hu. destruct Hs as (Hok & Hix & Ha). unfold safe_method.
  pose proof (resize_window_spec w size Hok Hu) as H.
  destruct (resize_window size w) as [w' [[]|e|]]; [| |done].
  - destruct H as (_ & Hok' & Hsy' & _ & Hids & _). split; [done|].
    apply (good_synced ids w); try done. intros id. by rewrite Hids.
  - subst. done.
Qed.

Lemma safe_set_policy policy : safe_method (set_layout_policy policy) ids w.
Proof using Hs.
  destruct Hs as (Hok & Hix & Ha). unfold safe_method.
  destruct (set_layout_policy_spec w policy Hok) as (w' & -> & Hok' & Hsy' & _ & Hids & _).
  split; [done|]. apply (good_synced ids w); try done. intros id. by rewrite Hids.
Qed.

Lemma safe_swap first second : safe_method (swap_panes first second) ids w.
Proof using Hs.
  destruct Hs as (Hok & Hix & Ha). unfold safe_method, swap_panes. op_run. cbv [id].
  pose proof (no_panic_pane_index w first). pose proof (no_panic_pane_index w (Some second)).
  destruct (pane_index w first) as [i| |] eqn:Hi; [|done|done].
  destruct (pane_index w (Some second)) as [j| |] eqn:Hj; [|done|done].
  apply pane_index_Ok in Hi; [|done]. apply pane_index_Ok in Hj; [|done].
  destruct (swap_pane_indices_spec w i j Hok Hi Hj) as (w' & -> & Hok' & _ & _ & _ & Hg & Hperm & _).
  split; [done|]. by apply (good_kept ids w).
Qed.

Lemma safe_select target : safe_method (select_pane target) ids w.
Proof using Hs.
  destruct Hs as (Hok & Hix & Ha). unfold safe_method, select_pane.
  pose proof (no_panic_pane_index w (Some target)).
  destruct (pane_index w (Some target)) as [i| |] eqn:Hi; [|done|done].
  split; [done|]. apply good_select; [done|]. by eapply pane_index_Ok.
Qed.

Lemma safe_select_last : safe_method select_last_pane ids w.
Proof using Hs.
  unfold safe_method, select_last_pane. destruct (w_last_active_pane_index w) as [i|]; [|done].
  destruct (Nat.ltb_spec i (length (w_panes w))); [|done]. split; [done|]. by apply good_select.
Qed.

Lemma safe_adjacent d : safe_method (select_adjacent_pane d) ids w.
Proof using Hs.
  pose proof Hs as (Hok & Hix & Ha). unfold safe_method.
  destruct (select_adjacent_ok w d Hok Hix) as (w' & -> & [->|(i & Hi & ->)]); (split; [done|]); [done|].
  by apply good_select.
Qed.

Lemma safe_set_zoomed z :
  (forall id, z = Some id -> id ∈ ids_of (w_panes w)) -> state_ok (ids, set_zoomed w z).
Proof using Hs.
  destruct Hs as (Hok & Hix & Ha). intros Hz. apply (good_kept ids w); try done. by apply set_zoomed_ok.
Qed.

Lemma safe_toggle : safe_method toggle_zoom_active ids w.
Proof using Hs.
  pose proof Hs as (Hok & Hix & Ha). unfold safe_method, toggle_zoom_active.
  destruct (lookup_lt_is_Some_2 _ _ (fo_lt w (wo_focus w Hok))) as [p Hp]. rewrite Hp.
  split; [done|]. case_bool_decide; apply safe_set_zoomed; [done|]. intros id [= <-].
  apply list_elem_of_fmap. exists p. split; [done|]. by eapply list_elem_of_lookup_2.
Qed.

Lemma safe_set_zoom pane_id z : safe_method (set_pane_zoom pane_id z) ids w.
Proof using Hs.
  unfold safe_method, set_pane_zoom. destruct (has_pane_id (w_panes w) pane_id) eqn:Hh; simpl; [|done].
  apply has_pane_id_spec in Hh. split; [done|]. destruct z.
  - apply safe_set_zoomed. by intros id [= <-].
  - case_bool_decide; [by apply safe_set_zoomed|done].
Qed.

Lemma safe_replace gs : Forall geometry_u16 gs -> safe_method (replace_pane_geometries gs) ids w.
Proof using Hs.
  intros Hu. destruct Hs as (Hok & Hix & Ha). unfold safe_method.
  pose proof (replace_pane_geometries_spec w gs Hok Hu) as H.
  destruct (replace_pane_geometries gs w) as [w' [[]|e|]]; [| |done].
  - destruct H as (Hok' & Hg & Hids & _ & _ & _ & _ & Hperm). split; [done|]. split; [done|].
    split; [|unfold ids_ahead in *; by rewrite Hids]. unfold indexed. rewrite Hg, Hperm.
    assert (length (ids_of (w_panes w')) = length (ids_of (w_panes w))) as E by congruence.
    unfold ids_of in E. rewrite !length_fmap in E. by rewrite E.
  - subst. done.
Qed.

Lemma safe_kept w' : layout_kept w w' -> w_pane_geometries w' = w_pane_geometries w -> state_ok (ids, w').
Proof using Hs.
  destruct Hs as (Hok & Hix & Ha). intros (Hok' & _ & _ & Hids) Hg.
  apply (good_kept ids w); try done. by rewrite Hids.
Qed.

Lemma safe_split d req sel :
  (next_pane ids < u64_max)%N -> safe_step (discard (split_active_with_requested_size d req sel) (ids, w)).
Proof using Hs.
  intros Hn. destruct Hs as (Hok & Hix & Ha). unfold safe_step, discard. op_run.
  pose proof (split_active_spec ids w d req sel Hok Ha Hn) as H.
  destruct (split_active_with_requested_size d req sel (ids, w)) as [[ids' w'] [p|e|]]; cbn [fst snd].
  - destruct H as (Hok' & Hsy' & Ha' & _). split; [done|]. split; [done|]. split; [|done].
    apply synced_indexed; [apply Hok'|done].
  - destruct H as [-> ->]. done.
  - done.
Qed.
End Commands.

(** One command from a well-formed state. *)
Lemma run_safe c s : state_ok s -> admissible c s -> safe_step (run c s).
Proof.
  destruct s as [ids w]. intros Hs Hadm. pose proof Hs as (Hok & Hix & Ha). destruct c; simpl in Hadm |- *.
  - by apply safe_split.
  - destruct Hadm. apply safe_discard. by apply safe_insert.
  - apply safe_discard. by apply safe_take.
  - apply safe_discard. by apply safe_kill.
  - apply safe_on_window. unfold safe_method, op_modify. split; [done|].
    destruct (rotate_panes_spec w backwards Hok) as (Hok' & [->|Hsy'] & _ & Hids & _); [done|].
    apply (good_synced ids w); try done. intros id. rewrite Hids.
    by destruct backwards; [rewrite rotate_right1_perm|rewrite rotate_left1_perm].
  - apply safe_on_window. by apply safe_swap.
  - apply safe_on_window. by apply safe_select.
  - apply safe_on_window. by apply safe_select_last.
  - apply safe_on_window. by apply safe_adjacent.
  - apply safe_discard. by apply safe_toggle.
  - apply safe_discard. by apply safe_set_zoom.
  - apply safe_discard. by apply safe_set_policy.
  - apply safe_discard. unfold safe_method. rewrite cycle_layout_eq. by apply safe_set_policy.
  - apply safe_on_window. by apply safe_resize_window.
  - apply safe_on_window. by apply safe_resize_active.
  - apply safe_discard. by apply safe_resize_pane.
  - apply safe_discard. by apply safe_resize_spec.
  - apply safe_on_window. by apply safe_replace.
  - apply safe_on_window. unfold safe_method, op_modify. split; [done|].
    eapply safe_kept; [exact Hs|by apply apply_client_navigation_ok|].
    unfold apply_client_navigation_state. by rewrite (nonempty_match (w_panes w)) by (by apply window_nonempty).
  - apply safe_on_window. unfold safe_method, op_modify. split; [done|].
    eapply safe_kept; [exact Hs|by apply rename_kept|done].
  - apply safe_on_window. unfold safe_method, op_modify. split; [done|].
    eapply safe_kept; [exact Hs|by apply rename_kept|done].
  - apply safe_on_window. unfold safe_method, op_modify. split; [done|].
    eapply safe_kept; [exact Hs|by apply rename_kept|done].
Qed.

(** ** Tiling *)

(** A resize of one pane that is refused or that asks for the size the pane
    has.  Any other one leaves the neighbours as they are
    ([pane_resize_fills_iff]). *)
Definition keeps_size (w : Window) (index : nat) (size : Size) : Prop :=
  validate_pane_size size = Ok tt -> size_at (w_panes w) index = Some size.

(** When a command keeps the panes of a tiled window tiling it.  A rebalancing
    policy must have a cell for every pane, a resize of the window a cell for
    every child of a split; a single pane keeps its size; and rectangles that
    replace the stored ones are those of the window's own tree for pane sizes
    that fill the window, as when a border is dragged. *)
Definition fills (c : Command) (s : state) : Prop :=
  let '(ids, w) := s in
  let n := length (w_panes w) in
  match c with
  | CSplit _ _ _ | CInsert _ _ _ _ => rebalance_fits w (S n)
  | CTake _ | CKill _ => rebalance_fits w (n - 1)
  | CSetPolicy policy => policy_fits policy (w_size w) n = true
  | CCycleLayout => policy_fits (LayoutPolicy_next (w_layout_policy w)) (w_size w) n = true
  | CResizeWindow size => resize_fills w size
  | CResizeActive size => keeps_size w (w_active_pane_index w) size
  | CResizePane target size => forall i, target_or_active w target = Ok i -> keeps_size w i size
  | CResizePaneSpec target spec =>
      forall i size, pane_index w target = Ok i -> size_from_spec w i spec = Ok size -> keeps_size w i size
  | CReplaceGeometries gs =>
      let panes := write_sizes gs (w_panes w) in
      pane_geometries (w_layout_root w) panes = gs /\ exact panes (w_layout_root w) (w_size w)
  | _ => True
  end.

(** The commands that lay the whole window out anew, with a cell for every
    pane: they need not find a tiled window. *)
Definition lays_out (c : Command) (s : state) : Prop :=
  let '(ids, w) := s in
  match c with
  | CSetPolicy _ | CCycleLayout => fills c s
  | CResizeWindow size => validate_resize w size = Ok tt /\ fills c s
  | _ => False
  end.

Definition tiled (w : Window) : Prop := synced w /\ filled w.

Definition tiled_method {A} (m : method A) (w : Window) : Prop := tiled (m w).1.

Lemma tiled_on_window {A} (m : method A) ids w :
  tiled_method m w -> tiled (on_window m (ids, w)).1.2.
Proof. unfold tiled_method, on_window. op_run. by destruct (m w) as [w' r]. Qed.

Lemma tiled_discard {A} (m : method A) ids w :
  tiled_method m w -> tiled (discard (on_window m) (ids, w)).1.2.
Proof. unfold tiled_method, discard, on_window. op_run. by destruct (m w) as [w' [|e|]]. Qed.

Section TiledCommands.
Context (ids : IdFactory) (w : Window).
Hypotheses (Hs : state_ok (ids, w)) (Ht : tiled w).

Lemma tiled_removal index w' :
  rebalance_fits w (length (w_panes w) - 1) -> removal_result w index w' -> tiled w'.
Proof using Ht. intros Hf (_ & Hsy & _ & _ & H). split; [done|]. apply H; [done|apply Ht]. Qed.

Lemma tiled_kept w' : layout_kept w w' -> tiled w'.
Proof using Ht. intros (_ & H1 & H2 & _). destruct Ht. split; auto. Qed.

Lemma tiled_select i : (i < length (w_panes w))%nat -> tiled (set_active_pane_index i w).
Proof using Hs Ht.
  intros Hi. destruct Ht. destruct Hs as (Hok & _). destruct (select_ok w i Hok Hi) as (_ & H1 & H2 & _).
  split; auto.
Qed.

Lemma tiled_set_policy policy :
  policy_fits policy (w_size w) (length (w_panes w)) = true -> tiled_method (set_layout_policy policy) w.
Proof using Hs.
  intros Hf. destruct Hs as (Hok & _).
  destruct (set_layout_policy_spec w policy Hok) as (w' & Heq & _ & Hsy & _ & _ & _ & Hfill).
  unfold tiled_method. rewrite Heq. split; auto.
Qed.

Lemma tiled_kill target :
  rebalance_fits w (length (w_panes w) - 1) -> tiled_method (kill_pane target) w.
Proof using Hs Ht.
  intros Hf. destruct Hs as (Hok & _). unfold tiled_method. pose proof (kill_pane_spec w target Hok) as H.
  destruct (kill_pane target w) as [w' [p|e|]]; simpl; [|by subst|done].
  destruct H as (index & _ & _ & H). by eapply tiled_removal.
Qed.

Lemma tiled_take target :
  (2 <= length (w_panes w))%nat ->
  rebalance_fits w (length (w_panes w) - 1) -> tiled_method (take_pane target) w.
Proof using Hs Ht.
  intros Hn Hf. destruct Hs as (Hok & _). unfold tiled_method, take_pane.
  destruct (pane_index w target) as [index|e|] eqn:Hi; [|done|done].
  apply pane_index_Ok in Hi; [|done]. destruct (lookup_lt_is_Some_2 _ _ Hi) as [p Hp].
  destruct (take_pane_at_spec w index p Hok Hp) as (w' & -> & H & _). simpl.
  eapply tiled_removal; [done|by apply H].
Qed.

Lemma tiled_insert target p d sel :
  p_id p ∉ ids_of (w_panes w) -> rebalance_fits w (S (length (w_panes w))) ->
  tiled_method (insert_existing_after target p d sel) w.
Proof using Hs Ht.
  intros Hp Hf. destruct Hs as (Hok & _). unfold tiled_method.
  pose proof (insert_existing_spec w target p d sel Hok Hp) as H.
  destruct (insert_existing_after target p d sel w) as [w' [q|e|]]; simpl; [|by subst|done].
  destruct H as (_ & Hsy & _ & _ & _ & _ & _ & Hfill). split; [done|]. apply Hfill; [done|apply Ht].
Qed.

Lemma tiled_split d req sel :
  (next_pane ids < u64_max)%N -> rebalance_fits w (S (length (w_panes w))) ->
  tiled (discard (split_active_with_requested_size d req sel) (ids, w)).1.2.
Proof using Hs Ht.
  intros Hn Hf. destruct Hs as (Hok & _ & Ha). unfold discard. op_run.
  pose proof (split_active_spec ids w d req sel Hok Ha Hn) as H.
  destruct (split_active_with_requested_size d req sel (ids, w)) as [[ids' w'] [p|e|]]; cbn [fst snd].
  - destruct H as (_ & Hsy & _ & _ & _ & _ & _ & Hfill & _). split; [done|]. apply Hfill; [done|apply Ht].
  - by destruct H as [-> ->].
  - done.
Qed.

Lemma tiled_resize_window size :
  u16_size size -> resize_fills w size -> tiled_method (resize_window size) w.
Proof using Hs Ht.
  intros Hu Hf. destruct Hs as (Hok & _). unfold tiled_method.
  pose proof (resize_window_spec w size Hok Hu) as H.
  destruct (resize_window size w) as [w' [[]|e|]]; simpl; [|by subst|done].
  destruct H as (_ & _ & Hsy & _ & _ & _ & Hfill). split; auto.
Qed.

Lemma tiled_resized size :
  u16_size size -> validate_resize w size = Ok tt -> resize_fills w size ->
  tiled_method (resize_window size) w.
Proof using Hs.
  intros Hu Hv Hf. destruct Hs as (Hok & _). unfold tiled_method.
  pose proof (resize_window_spec w size Hok Hu) as H.
  destruct (resize_window size w) as [w' [[]|e|]] eqn:E; simpl; [|exfalso|done].
  - destruct H as (_ & _ & Hsy & _ & _ & _ & Hfill). split; auto.
  - unfold resize_window in E. revert E. op_run. cbv [id]. rewrite Hv. op_run.
    destruct (layout_policy_rebalances (set_size w size)); [|done].
    destruct Hok as [Hc Hr Hfo Hz]. apply validate_resize_Ok in Hv as (Hv & _); [|done].
    pose proof (set_size_ok w size ltac:(by split) Hv) as Hok1.
    destruct (apply_policy_ok _ Hok1) as (panes & root & -> & _). done.
Qed.

Lemma tiled_resize_at i size :
  u16_size size -> (i < length (w_panes w))%nat -> keeps_size w i size ->
  tiled_method (resize_pane_at_index i size) w.
Proof using Hs Ht.
  intros Hu Hi Hk. destruct Hs as (Hok & _). destruct Ht as [_ Hf]. unfold tiled_method.
  pose proof (resize_pane_at_index_spec w i size Hok Hi Hu) as H.
  destruct (resize_pane_at_index i size w) as [w' [p|e|]] eqn:E; simpl; [|by subst|done].
  destruct H as (_ & Hsy & Hp & Hps & _ & _ & _ & _ & Hoth). split; [done|].
  assert (w_layout_root w' = w_layout_root w /\ w_size w' = w_size w
          /\ size_at (w_panes w) i = Some size) as (Hr & Hsz & Hat).
  { revert E. unfold resize_pane_at_index. op_run.
    destruct (validate_pane_size size) as [[]|e|] eqn:Hv; [|done|done].
    destruct (w_panes w !! i); [|done]. intros [= <- _]. split; [done|]. split; [done|]. by apply Hk. }
  unfold filled. rewrite Hr, Hsz. apply (exact_frame (w_panes w)); [|exact Hf].
  intros j _. destruct (decide (j = i)) as [->|Hne]; [|unfold size_at; by rewrite Hoth].
  rewrite Hat. unfold size_at. rewrite Hp. simpl. by f_equal.
Qed.

Lemma tiled_replace gs :
  Forall geometry_u16 gs -> fills (CReplaceGeometries gs) (ids, w) -> tiled_method (replace_pane_geometries gs) w.
Proof using Ht.
  intros _ [Hg He]. unfold tiled_method, replace_pane_geometries.
  destruct (validate_replacement_pane_geometries _ _ _) as [[]|e|]; [|done|done].
  cbn [w_layout_root w_panes set_panes]. rewrite bool_decide_true by done.
  split; [|exact He]. unfold synced. simpl. by rewrite Hg.
Qed.

Lemma tiled_swap first second : tiled_method (swap_panes first second) w.
Proof using Hs Ht.
  destruct Hs as (Hok & _). destruct Ht. unfold tiled_method.
  pose proof (swap_panes_spec w first second Hok) as H'.
  destruct (swap_panes first second w) as [w' [[]|e|]]; simpl; [|by subst|done].
  destruct H' as (_ & H1 & H2). split; auto.
Qed.

Lemma tiled_rotate b : tiled (rotate_panes b w).
Proof using Hs Ht.
  destruct Hs as (Hok & _). destruct Ht as [H1 H2].
  destruct (rotate_panes_spec w b Hok) as (_ & [->|Hsy] & Hf & _); split; auto.
Qed.
End TiledCommands.

Lemma run_tiled c s :
  state_ok s -> admissible c s -> tiled s.2 -> fills c s -> tiled (run c s).1.2.
Proof.
  destruct s as [ids w]. intros Hs Hadm Ht Hf. pose proof Hs as (Hok & Hix & Ha). cbn [snd] in Ht.
  destruct c; cbn [admissible fills] in Hadm, Hf; cbn [run]; try done.
  - by apply (tiled_split ids).
  - destruct Hadm. apply tiled_discard. by apply (tiled_insert ids).
  - apply tiled_discard. by apply (tiled_take ids).
  - apply tiled_discard. by apply (tiled_kill ids).
  - apply tiled_on_window. by apply (tiled_rotate ids).
  - apply tiled_on_window. by apply (tiled_swap ids).
  - apply tiled_on_window. unfold tiled_method, select_pane.
    destruct (pane_index w (Some target)) as [i| |] eqn:Hi; [|done|done]. simpl.
    apply (tiled_select ids); try done. by eapply pane_index_Ok.
  - apply tiled_on_window. unfold tiled_method, select_last_pane.
    destruct (w_last_active_pane_index w) as [i|]; [|done].
    destruct (Nat.ltb_spec i (length (w_panes w))); [|done]. by apply (tiled_select ids).
  - apply tiled_on_window. unfold tiled_method.
    destruct (select_adjacent_ok w towards Hok Hix) as (w' & -> & [->|(i & Hi & ->)]); [done|].
    by apply (tiled_select ids).
  - apply tiled_discard. unfold tiled_method.
    destruct (toggle_zoom_spec w Hok) as (w' & z & -> & Hk & _). by eapply tiled_kept.
  - apply tiled_discard. unfold tiled_method. pose proof (set_pane_zoom_spec w pane_id zoomed Hok) as H.
    destruct (set_pane_zoom pane_id zoomed w) as [w' [z|e|]]; simpl; [|by destruct H as [-> _]|done].
    destruct H as (_ & Hk & _). by eapply tiled_kept.
  - apply tiled_discard. by apply (tiled_set_policy ids).
  - apply tiled_discard. unfold tiled_method. rewrite cycle_layout_eq. by apply (tiled_set_policy ids).
  - apply tiled_on_window. by apply (tiled_resize_window ids).
  - apply tiled_on_window. unfold tiled_method, resize_active_pane. op_run.
    pose proof (tiled_resize_at ids w Hs Ht _ _ Hadm (fo_lt w (wo_focus w Hok)) Hf) as H.
    unfold tiled_method in H. by destruct (resize_pane_at_index _ size w) as [w' [p|e|]].
  - apply tiled_discard. unfold tiled_method, resize_pane. op_run. cbv [id].
    destruct (target_or_active w target) as [i|e|] eqn:Hi; [|done|done].
    apply (tiled_resize_at ids); try done; [by eapply target_or_active_Ok|by apply Hf].
  - apply tiled_discard. unfold tiled_method, resize_pane_with_spec. op_run. cbv [id].
    destruct (pane_index w target) as [i|e|] eqn:Hi; [|done|done].
    destruct (size_from_spec w i spec) as [size|e|] eqn:Hr; [|done|done].
    apply (tiled_resize_at ids); try done; [by eapply size_from_spec_u16|by eapply pane_index_Ok|by apply Hf].
  - apply tiled_on_window. by apply (tiled_replace ids).
  - apply tiled_on_window. unfold tiled_method, op_modify. simpl.
    eapply tiled_kept; [exact Ht|]. by apply apply_client_navigation_ok.
Qed.

(** A layout of the whole window tiles it, whatever it was before. *)
Lemma run_lays_out c s : state_ok s -> admissible c s -> lays_out c s -> tiled (run c s).1.2.
Proof.
  destruct s as [ids w]. intros Hs Hadm Hf.
  destruct c; cbn [admissible lays_out fills] in Hadm, Hf; cbn [run]; try done.
  - apply tiled_discard. by apply (tiled_set_policy ids).
  - apply tiled_discard. unfold tiled_method. rewrite cycle_layout_eq. by apply (tiled_set_policy ids).
  - destruct Hf. apply tiled_on_window. by apply (tiled_resized ids).
Qed.

(** An accepted resize of one pane of a tiled window leaves sizes that fill the
    window only when it does not change the size: the cells are not taken from
    or given to the neighbours. *)
Lemma resize_at_fills_iff w i size :
  window_ok w -> filled w -> (i < length (w_panes w))%nat -> u16_size size ->
  validate_pane_size size = Ok tt ->
  filled (resize_pane_at_index i size w).1 <-> size_at (w_panes w) i = Some size.
Proof.
  intros Hok Hf Hi Hu Hv. unfold resize_pane_at_index. op_run. rewrite Hv. op_run.
  destruct (lookup_lt_is_Some_2 _ _ Hi) as [p Hp]. rewrite Hp. cbn [fst]. unfold filled. simpl.
  set (panes := <[i := pane_set_size size p]> (w_panes w)).
  assert (size_at panes i = Some size) as Hat
    by (unfold size_at, panes; by rewrite list_lookup_insert_eq).
  assert (forall j, j <> i -> size_at panes j = size_at (w_panes w) j) as Hoth
    by (intros j Hj; unfold size_at, panes; by rewrite list_lookup_insert_ne).
  destruct (wo_root w Hok) as [Hl Ha]. destruct (valid_size_u16 _ (wc_size w (wo_core w Hok))) as [[_ Hc] [_ Hr]].
  split.
  - intros He. rewrite <- Hat. symmetry.
    apply (exact_slot_determined _ _ i (w_layout_root w) (w_size w)); try done.
    + eapply tree_ok_NoDup. apply Hok.
    + rewrite Hl. apply elem_of_seq. lia.
  - intros Hs. apply (exact_frame (w_panes w)); [|done]. intros j _.
    destruct (decide (j = i)) as [->|Hne]; [by rewrite Hat, Hs|by apply Hoth].
Qed.

(** ** Sequences of commands *)

(** Runs commands one after the other; a failed command leaves its state to
    the next one. *)
Fixpoint exec (cs : list Command) (s : state) : state * list (result unit) :=
  match cs with
  | [] => (s, [])
  | c :: cs => let '(s, r) := run c s in let '(s, rs) := exec cs s in (s, r :: rs)
  end.

(** Each command of the sequence satisfies a condition in the state it runs
    in. *)
Fixpoint along (P : Command -> state -> Prop) (cs : list Command) (s : state) : Prop :=
  match cs with
  | [] => True
  | c :: cs => P c s /\ along P cs (run c s).1
  end.

Lemma exec_safe cs : forall s,
  state_ok s -> along admissible cs s ->
  state_ok (exec cs s).1 /\ Forall no_panic (exec cs s).2.
Proof.
  induction cs as [|c cs IH]; intros s Hs Ha; simpl in *; [by split|].
  destruct Ha as [Hc Ha]. destruct (run_safe c s Hs Hc) as [Hnp Hs'].
  destruct (run c s) as [s' r]. simpl in *. destruct (IH s' Hs' Ha) as [H1 H2].
  destruct (exec cs s') as [s'' rs]. simpl in *. by split; [|constructor].
Qed.

(** Whether a run ends with a tiled window: it was tiled at the start ([t]), or
    laid out as a whole at some command, and every command since then leaves a
    cell for every pane. *)
Fixpoint ends_tiled (t : Prop) (cs : list Command) (s : state) : Prop :=
  match cs with
  | [] => t
  | c :: cs => ends_tiled (lays_out c s \/ t /\ fills c s) cs (run c s).1
  end.

Lemma exec_tiled cs : forall (t : Prop) s,
  state_ok s -> along admissible cs s -> (t -> tiled s.2) -> ends_tiled t cs s ->
  state_ok (exec cs s).1 /\ tiled (exec cs s).1.2.
Proof.
  induction cs as [|c cs IH]; intros t s Hs Ha Ht He; simpl in *; [by auto|].
  destruct Ha as [Hc Ha]. destruct (run_safe c s Hs Hc) as [_ Hs'].
  assert (lays_out c s \/ t /\ fills c s -> tiled (run c s).1.2) as Ht'.
  { intros [Hl|[H1 H2]]; [by apply run_lays_out|]. apply run_tiled; auto. }
  destruct (run c s) as [s' r]. simpl in *. destruct (IH _ s' Hs' Ha Ht' He) as [H1 H2].
  by destruct (exec cs s') as [s'' rs].
Qed.

(** ** A new window *)

Lemma single_ok id index name size p :
  valid_size size -> p_index p = 0%nat -> p_size p = size -> p_active p = true ->
  window_ok (single id index name size p) /\ tiled (single id index name size p).
Proof.
  intros Hv Hi Hsz Hact. assert (1 <= columns size /\ 1 <= rows size) as [H1 H2]
    by (unfold valid_size in Hv; lia). split; [split|split].
  - split; simpl; try done; try lia.
    + intros [|i] q Hq; simpl in Hq; [|done]. by injection Hq as <-.
    + apply NoDup_singleton.
    + constructor; [|constructor]. rewrite Hsz. by apply valid_size_u16.
  - split; [done|done].
  - split; simpl; [lia| |constructor|set_solver].
    intros [|i] q Hq; simpl in Hq; [|done]. by injection Hq as <-.
  - done.
  - unfold synced. simpl. unfold pane_geometries. simpl. by rewrite Hsz.
  - exists p. simpl. done.
Qed.

Lemma new_ok ids index name size :
  u16_size size -> (next_pane ids < u64_max)%N ->
  match Win.new index name size ids with
  | (ids', Ok w) => state_ok (ids', w) /\ tiled w /\ w_size w = size
  | (ids', Err _) => ids' = ids
  | (_, Panic) => False
  end.
Proof.
  intros Hu Hn. unfold Win.new. op_run.
  pose proof (no_panic_Size_new (columns size) (rows size)) as Hnp. unfold Size_new in Hnp.
  replace (mkSize (columns size) (rows size)) with size in Hnp by (by destruct size).
  destruct (Size_validate size) as [[]|e|] eqn:Hv; [|done|done]. clear Hnp.
  apply Size_validate_Ok in Hv; [|done].
  pose proof (pane_floor_new ids Hn) as Hfl. unfold alloc.
  destruct (IdFactoryOps.pane ids) as [pid ids1] eqn:Hp.
  destruct (IdFactoryOps.window ids1) as [wid ids2] eqn:Hw.
  set (p := mkPane pid 0 "shell" TitleDefault size true true).
  destruct (single_ok wid index name size p Hv eq_refl eq_refl eq_refl) as [Hok Ht].
  split; [|by split]. split; [done|]. split; [apply synced_indexed; [apply Hok|apply Ht]|].
  constructor; [|constructor]. simpl in Hfl |- *. destruct ids1 as [s1 w1 g1 p1 c1 a1].
  simpl in Hw. injection Hw as _ <-. exact Hfl.
Qed.

(** ** Checking the conditions *)

Definition u16_b (x : Z) : bool := (0 <=? x) && (x <=? u16_MAX).
Definition u16_size_b (s : Size) : bool := u16_b (columns s) && u16_b (rows s).

Definition pane_floor_b (ids : IdFactory) (id : PaneId) : bool :=
  match StableIdOps.numeric_suffix id with
  | Some (prefix, n) =>
      negb (String.eqb prefix "%") || (IdFactoryOps.saturating_succ n <=? next_pane ids)%N
  | None => true
  end.

Definition admissible_b (c : Command) (s : state) : bool :=
  let '(ids, w) := s in
  match c with
  | CSplit _ _ _ => (next_pane ids <? u64_max)%N
  | CInsert _ p _ _ => negb (has_pane_id (w_panes w) (p_id p)) && pane_floor_b ids (p_id p)
  | CTake _ => (2 <=? length (w_panes w))%nat
  | CResizeWindow size | CResizeActive size | CResizePane _ size => u16_size_b size
  | CResizePaneSpec _ spec =>
      match spec with
      | Cells c r => forallb u16_b (option_list c ++ option_list r)
      | Percent p _ => u16_b p
      | Delta _ a | Edge _ a => u16_b a
      end
  | CReplaceGeometries gs => forallb (fun g => u16_size_b (mkSize (g_columns g) (g_rows g))) gs
  | CApplyNavigation _ _ h _ => (length h <=? 10)%nat
  | _ => true
  end.

(** Whether the panes below a node fill a rectangle. *)
Fixpoint exact_b (panes : list Pane) (n : LayoutNode) (s : Size) : bool :=
  match n with
  | NPane i =>
      match panes !! i with
      | Some p => bool_decide (p_size p = s) && (1 <=? columns s) && (1 <=? rows s)
      | None => false
      end
  | NSplit d cs =>
      negb (length cs =? 0)%nat
      && (sum_Z (List.map (fun c => allocation_on_axis c panes d) cs) =? axis_extent d s)
      && forallb (fun c => exact_b panes c (child_size d s (allocation_on_axis c panes d))) cs
  end.

Definition keeps_size_b (w : Window) (i : nat) (size : Size) : bool :=
  negb (is_ok (validate_pane_size size)) || bool_decide (size_at (w_panes w) i = Some size).

(** A sufficient check: a tiled window is only resized to a larger size. *)
Definition fills_b (c : Command) (s : state) : bool :=
  let '(ids, w) := s in
  let n := length (w_panes w) in
  let rebalance n := negb (layout_policy_rebalances w) || policy_fits (w_layout_policy w) (w_size w) n in
  match c with
  | CSplit _ _ _ | CInsert _ _ _ _ => rebalance (S n)
  | CTake _ | CKill _ => rebalance (n - 1)%nat
  | CSetPolicy policy => policy_fits policy (w_size w) n
  | CCycleLayout => policy_fits (LayoutPolicy_next (w_layout_policy w)) (w_size w) n
  | CResizeWindow size =>
      if layout_policy_rebalances w then policy_fits (w_layout_policy w) size n
      else (columns (w_size w) <=? columns size) && (rows (w_size w) <=? rows size)
  | CResizeActive size => keeps_size_b w (w_active_pane_index w) size
  | CResizePane target size =>
      match target_or_active w target with Ok i => keeps_size_b w i size | _ => true end
  | CResizePaneSpec target spec =>
      match pane_index w target ≫= fun i => size_from_spec w i spec ≫= fun size => Ok (i, size) with
      | Ok (i, size) => keeps_size_b w i size
      | _ => true
      end
  | CReplaceGeometries gs =>
      let panes := write_sizes gs (w_panes w) in
      bool_decide (pane_geometries (w_layout_root w) panes = gs) && exact_b panes (w_layout_root w) (w_size w)
  | _ => true
  end.

Definition lays_out_b (c : Command) (s : state) : bool :=
  match c with CSetPolicy _ | CCycleLayout => fills_b c s | _ => false end.

Lemma u16_b_spec x : u16_b x = true -> in_u16 x.
Proof. unfold u16_b. intros H. by bool_to_prop. Qed.

Lemma u16_size_b_spec s : u16_size_b s = true -> u16_size s.
Proof. unfold u16_size_b. intros [H1 H2]%andb_true_iff. by split; apply u16_b_spec. Qed.

Lemma pane_floor_b_spec ids id : pane_floor_b ids id = true -> pane_floor ids id.
Proof.
  unfold pane_floor_b, pane_floor. intros H n Hn. rewrite Hn in H. simpl in H. by apply N.leb_le.
Qed.

Lemma admissible_b_spec c s : admissible_b c s = true -> admissible c s.
Proof.
  destruct s as [ids w]. destruct c; simpl; intros H; try done; try by apply u16_size_b_spec.
  - by apply N.ltb_lt.
  - apply andb_true_iff in H as [H1 H2]. split; [|by apply pane_floor_b_spec].
    rewrite <- has_pane_id_spec. by destruct (has_pane_id _ _).
  - by apply Nat.leb_le.
  - destruct spec as [c r|p axis|d a|d a]; simpl; try by apply u16_b_spec.
    rewrite forallb_forall in H. split; intros x ->; apply u16_b_spec, H;
      apply in_app_iff; [left|right]; simpl; by left.
  - rewrite forallb_forall in H. apply Forall_forall. intros g Hg%list_elem_of_In.
    by apply u16_size_b_spec, (H g).
  - by apply Nat.leb_le.
Qed.

Lemma exact_b_spec panes n : forall s, exact_b panes n s = true -> exact panes n s.
Proof.
  induction n as [i|d cs IH] using LayoutNode_ind'; intros s.
  - simpl. destruct (panes !! i) as [p|]; [|done]. rewrite !andb_true_iff, bool_decide_eq_true, !Z.leb_le.
    intros [[H1 H2] H3]. by exists p.
  - rewrite exact_split. cbn [exact_b]. rewrite !andb_true_iff, Z.eqb_eq. intros [[Hne Hsum] Hall].
    split; [by destruct cs|]. eexists. split; [exact Hsum|]. clear Hne Hsum. rewrite forallb_forall in Hall.
    induction IH as [|c cs Hc _ IH2]; simpl in *; constructor; auto.
Qed.

Lemma keeps_size_b_spec w i size : keeps_size_b w i size = true -> keeps_size w i size.
Proof. unfold keeps_size_b, keeps_size. intros H Hv. rewrite Hv in H. by apply bool_decide_eq_true in H. Qed.

Lemma fills_b_spec c s :
  state_ok s -> tiled s.2 -> admissible c s -> fills_b c s = true -> fills c s.
Proof.
  destruct s as [ids w]. intros (Hok & _) [_ Hf] Hadm. simpl in Hf.
  assert (forall n, negb (layout_policy_rebalances w)
                    || policy_fits (w_layout_policy w) (w_size w) n = true -> rebalance_fits w n) as Hr.
  { intros n H Hreb. by rewrite Hreb in H. }
  destruct c; cbn [fills fills_b admissible] in *; intros H; try done; try by apply Hr.
  - unfold resize_fills. destruct (layout_policy_rebalances w) eqn:E; [done|].
    destruct Hadm as [[_ H1] [_ H2]]. bool_to_prop.
    pose proof (grow_fills w size Hok Hf E ltac:(done) ltac:(done)) as Hg.
    unfold resize_fills in Hg. by rewrite E in Hg.
  - by apply keeps_size_b_spec.
  - intros i Hi. rewrite Hi in H. by apply keeps_size_b_spec.
  - intros i size Hi Hsz. rewrite Hi in H. simpl in H. rewrite Hsz in H. by apply keeps_size_b_spec.
  - apply andb_true_iff in H as [H1%bool_decide_eq_true H2%exact_b_spec]. done.
Qed.

Fixpoint along_b (P : Command -> state -> bool) (cs : list Command) (s : state) : bool :=
  match cs with
  | [] => true
  | c :: cs => P c s && along_b P cs (run c s).1
  end.

Lemma along_admissible cs : forall s, along_b admissible_b cs s = true -> along admissible cs s.
Proof.
  induction cs as [|c cs IH]; intros s; simpl; [done|]. intros [H1 H2]%andb_true_iff.
  split; [by apply admissible_b_spec|by apply IH].
Qed.

Fixpoint ends_tiled_b (t : bool) (cs : list Command) (s : state) : bool :=
  match cs with
  | [] => t
  | c :: cs => ends_tiled_b (lays_out_b c s || t && fills_b c s) cs (run c s).1
  end.

Lemma ends_tiled_b_spec cs : forall b (t : Prop) s,
  state_ok s -> along admissible cs s -> (b = true -> t /\ tiled s.2) ->
  ends_tiled_b b cs s = true -> ends_tiled t cs s.
Proof.
  induction cs as [|c cs IH]; intros b t s Hs Ha Hb; simpl; [by intros ->; apply Hb|].
  destruct Ha as [Hc Ha]. destruct (run_safe c s Hs Hc) as [_ Hs'].
  assert (lays_out_b c s = true -> lays_out c s) as Hl.
  { unfold lays_out_b, lays_out. destruct s as [ids w]. by destruct c. }
  apply IH; [done|done|]. intros Hor.
  assert (lays_out c s \/ (t /\ fills c s) /\ tiled s.2) as Hcase.
  { apply orb_true_iff in Hor as [Hor|[Hbt Hf]%andb_true_iff]; [left; by apply Hl|right].
    destruct (Hb Hbt) as [H1 H2]. split; [|done]. split; [done|]. by apply fills_b_spec. }
  split; [tauto|]. destruct Hcase as [Hc'|[[_ Hf] Ht]]; [by apply run_lays_out|by apply run_tiled].
Qed.
