(* ===== verification/WindowTheorems.v ===== *)
(** * Theorems on windows

    The claims about the layout engine, each with a witness on a concrete
    window, and the concrete behaviours of the code that differ from what it
    promises. *)

From S2P Require Import Prelude RustStr Ids LayoutTypes Sizing LayoutTree Tiling TreeEdits WindowOps PolicyLayouts WindowInv WindowSteps WindowMoves WindowNav WindowRestore WindowCommands.
Import Node Win Nav Restore.
Local Open Scope Z_scope.

(** ** A concrete window *)

(** A fresh window of 80x24 with its factory, as [Window::new] makes it. *)
Definition demo_start : state :=
  (mkIdFactory 1 2 1 2 1 1,
   single "@1" 0 "main" (mkSize 80 24)
     (mkPane "%1" 0 "shell" TitleDefault (mkSize 80 24) true true)).

Lemma demo_start_ok : state_ok demo_start /\ tiled demo_start.2.
Proof.
  destruct (single_ok "@1" 0 "main" (mkSize 80 24)
    (mkPane "%1" 0 "shell" TitleDefault (mkSize 80 24) true true)) as [Hok Ht]; try done.
  split; [|done]. split; [done|]. split; [apply synced_indexed; [apply Hok|apply Ht]|].
  constructor; [|constructor]. intros n. vm_compute. by intros [= <-].
Qed.

(** Three panes: the left half, and the right half split in two. *)
Definition demo_commands : list Command :=
  [CSplit Vertical None true; CSplit Horizontal None true].

Definition demo : state := (exec demo_commands demo_start).1.

Lemma demo_ok : state_ok demo /\ tiled demo.2.
Proof.
  destruct demo_start_ok as [Hs Ht].
  assert (along admissible demo_commands demo_start) as Ha by (apply along_admissible; vm_compute; reflexivity).
  apply (exec_tiled demo_commands (tiled demo_start.2) demo_start); [done|done|done|].
  apply (ends_tiled_b_spec demo_commands true); [done|done|done|vm_compute; reflexivity].
Qed.

Example demo_rectangles :
  w_pane_geometries demo.2
  = [mkGeometry 0 0 0 40 24; mkGeometry 1 40 0 40 12; mkGeometry 2 40 12 40 12].
Proof. vm_compute. reflexivity. Qed.

(** ** Claims *)

(** C1. From a well-formed window, along every sequence of commands in which
    each meets what the caller owes it ([admissible]: sizes are u16 values, the
    pane counter is not used up by a split, an inserted pane is new to the
    window, a taken pane is not the window's last one, an applied client
    history has at most ten entries), no command panics (no index out of range,
    no failed unwrap; sums of sizes wrap, as in a release build), failing
    commands included, and the window stays well
    formed: slots are numbered by position, exactly the active slot is marked,
    pane identities are distinct, the split tree mentions each slot once with
    two or more children per split, the focus history is a list of at most ten
    distinct live panes, a zoomed pane is a pane of the window. *)
Theorem window_commands_safe (cs : list Command) (s : state) :
  state_ok s -> along admissible cs s ->
  state_ok (exec cs s).1 /\ Forall no_panic (exec cs s).2.
Proof. apply exec_safe. Qed.

Lemma window_commands_safe_witness :
  let cs := [CSelectAdjacent NavLeft; CSetZoom "%2" true; CKill (Some "%2"); CSwap None "%3";
             CResizePane (Some "0") (mkSize 500 2); CKill (Some "nope"); CCycleLayout] in
  state_ok demo /\ state_ok (exec cs demo).1
  /\ ids_of (w_panes (exec cs demo).1.2) = ["%3"; "%1"] /\ w_zoomed_pane_id (exec cs demo).1.2 = None.
Proof.
  intros cs. split; [exact (proj1 demo_ok)|]. split; [|vm_compute; split; reflexivity].
  refine (proj1 (window_commands_safe cs demo (proj1 demo_ok) _)).
  apply along_admissible. vm_compute. reflexivity.
Defined.

(** C2. After every admissible sequence of commands that ends tiled
    ([ends_tiled]), each cell of the window lies in exactly one pane rectangle
    and no rectangle reaches outside.  A run ends tiled when the window was
    tiled at the start, or was laid out as a whole at some command (a policy
    with a cell for every pane, an accepted window resize with a cell for every
    child of a split), and every command since then fills the window: splits,
    removals, insertions, rotations, swaps, focus changes and zooms need no
    condition under the tiled policy and a cell per pane under a rebalancing
    one; a resize of one pane is refused or leaves its size; replaced
    rectangles are those of the window's tree for sizes that fill it. *)
Theorem panes_tile_window (cs : list Command) (s : state) :
  state_ok s -> along admissible cs s -> ends_tiled (tiled s.2) cs s ->
  let w := (exec cs s).1.2 in tiles (w_pane_geometries w) 0 0 (w_size w).
Proof.
  intros Hs Ha He w. destruct (exec_tiled cs _ s Hs Ha id He) as [Hok' [Hsy Hf]].
  fold w in Hsy, Hf. destruct (exec cs s).1 as [ids w0] eqn:E. simpl in *. destruct Hok' as (Hok' & _).
  apply filled_tiles; [apply Hok'|done|done].
Qed.

(** The rectangles of [demo] after the border between its columns was dragged. *)
Definition dragged : list PaneGeometry :=
  [mkGeometry 0 0 0 50 24; mkGeometry 1 50 0 30 12; mkGeometry 2 50 12 30 12].

Lemma panes_tile_window_witness :
  let cs := [CReplaceGeometries dragged; CResizePane (Some "0") (mkSize 500 2); CSetPolicy EvenGrid;
             CSplit Vertical (Some (Percent 25 AxisColumns)) false; CKill (Some "%1");
             CRotate true; CTake None] in
  state_ok demo /\ length (w_panes (exec cs demo).1.2) = 2%nat
  /\ tiles (w_pane_geometries (exec cs demo).1.2) 0 0 (w_size (exec cs demo).1.2).
Proof.
  intros cs. split; [exact (proj1 demo_ok)|]. split; [vm_compute; reflexivity|].
  assert (along admissible cs demo) as Ha by (apply along_admissible; vm_compute; reflexivity).
  refine (panes_tile_window cs demo (proj1 demo_ok) Ha _).
  apply (ends_tiled_b_spec cs true); [exact (proj1 demo_ok)|exact Ha|intros _; split; exact (proj2 demo_ok)|].
  vm_compute. reflexivity.
Defined.

Example border_drag_tiles : fills_b (CReplaceGeometries dragged) demo = true.
Proof. vm_compute. reflexivity. Qed.

(** An accepted resize of one pane of a tiled window leaves panes that fill the
    window exactly when the pane had the size before: [resize_pane_at_index]
    stores the size and neither takes the cells from the neighbours nor gives
    them to these. *)
Theorem pane_resize_fills_iff w index size :
  window_ok w -> filled w -> (index < length (w_panes w))%nat -> u16_size size ->
  validate_pane_size size = Ok tt ->
  filled (resize_pane_at_index index size w).1 <-> size_at (w_panes w) index = Some size.
Proof. apply resize_at_fills_iff. Qed.

(** A window whose last pane was taken keeps its tree and rectangles without a
    pane: splitting it and toggling its zoom index its active pane. *)
Theorem taking_last_pane_breaks_window :
  let s := (run (CTake None) demo_start).1 in
  w_panes s.2 = [] /\ (run (CTake None) demo_start).2 = Ok tt
  /\ (run (CSplit Vertical None true) s).2 = Panic /\ (run CToggleZoom s).2 = Panic.
Proof. vm_compute. repeat split; reflexivity. Qed.

(** Splitting the active pane either fails and changes nothing, or adds
    exactly one pane, right after the active slot and with a new identity; the
    new pane is focused exactly when asked, the other panes keep their
    identities, and a filled window stays filled. *)
Theorem split_adds_one_pane ids w d req select_new :
  window_ok w -> ids_ahead ids w -> (next_pane ids < u64_max)%N ->
  match split_active_with_requested_size d req select_new (ids, w) with
  | (ids', w', Ok p) =>
      window_ok w' /\ w_panes w' !! S (w_active_pane_index w) = Some p
      /\ w_active_pane_index w' = (if select_new then S (w_active_pane_index w) else w_active_pane_index w)
      /\ p_id p ∉ ids_of (w_panes w) /\ ids_of (w_panes w') ≡ₚ p_id p :: ids_of (w_panes w)
      /\ (rebalance_fits w (S (length (w_panes w))) -> filled w -> filled w')
  | (ids', w', Err _) => ids' = ids /\ w' = w
  | (_, _, Panic) => False
  end.
Proof.
  intros Hok Ha Hn. pose proof (split_active_spec ids w d req select_new Hok Ha Hn) as H.
  destruct (split_active_with_requested_size d req select_new (ids, w)) as [[ids' w'] [p|e|]]; try done.
  destruct H as (Hok' & _ & _ & _ & Hp & Hact & Hperm & Hf & _). do 3 (split; [done|]). split; [|done].
  pose proof (wc_ids w' (wo_core w' Hok')) as Hnd. rewrite Hperm in Hnd. by apply NoDup_cons in Hnd as [? _].
Qed.

Lemma split_adds_one_pane_witness :
  window_ok demo.2 /\ ids_ahead demo.1 demo.2
  /\ match split_active_with_requested_size Vertical None true (demo.1, demo.2) with
     | (_, w', Ok p) => p_id p = "%4" /\ p_id p ∉ ids_of (w_panes demo.2)
     | _ => False
     end.
Proof.
  pose proof (proj1 demo_ok) as Hs. destruct demo as [ids w] eqn:E. destruct Hs as (Hok & _ & Ha).
  assert (next_pane ids < u64_max)%N as Hn
    by (replace ids with demo.1 by (by rewrite E); vm_compute; reflexivity).
  split; [exact Hok|]. split; [exact Ha|]. cbn [fst snd].
  pose proof (split_adds_one_pane ids w Vertical None true Hok Ha Hn) as H.
  assert (match split_active_with_requested_size Vertical None true (demo.1, demo.2) with
          | (_, _, Ok p) => p_id p = "%4" | _ => False end) as H1 by (vm_compute; reflexivity).
  rewrite E in H1. cbn [fst snd] in H1.
  destruct (split_active_with_requested_size Vertical None true (ids, w)) as [[ids' w'] [p|e|]]; try done.
  destruct H as (_ & _ & _ & H & _). split; [exact H1|exact H].
Defined.

(** Killing a pane fails without effect (unknown target, or the last pane) or
    removes exactly the named pane: the others keep their order; when another
    pane than the active one goes, the active pane stays active, and when the
    active pane goes the most recently focused survivor becomes active, or the
    pane that takes over the slot when none was focused before. *)
Theorem kill_pane_focuses_successor w target :
  window_ok w ->
  match kill_pane target w with
  | (w', Ok removed) => exists index, target_or_active w target = Ok index
      /\ w_panes w !! index = Some removed
      /\ ids_of (w_panes w') = ids_of (remove_at index (w_panes w))
      /\ active_id w' = focus_successor w index
      /\ window_ok w' /\ (rebalance_fits w (length (w_panes w) - 1) -> filled w -> filled w')
  | (w', Err _) => w' = w
  | (_, Panic) => False
  end.
Proof.
  intros Hok. pose proof (kill_pane_spec w target Hok) as H.
  destruct (kill_pane target w) as [w' [p|e|]]; [|done|done].
  destruct H as (index & H1 & H2 & H3 & _ & H4 & H5 & H6). by exists index.
Qed.

Lemma kill_pane_focuses_successor_witness :
  window_ok demo.2
  /\ match kill_pane None demo.2 with
     | (w', Ok removed) => p_id removed = "%3" /\ active_id w' = focus_successor demo.2 2
     | _ => False
     end
  /\ focus_successor demo.2 2 = Some "%2".
Proof.
  pose proof (proj1 demo_ok) as Hs. destruct demo as [ids w] eqn:E. destruct Hs as (Hok & _).
  cbn [snd]. pose proof (kill_pane_focuses_successor w None Hok) as H. split; [exact Hok|].
  assert (match kill_pane None demo.2 with (_, Ok p) => p_id p = "%3" | _ => False end
          /\ w_active_pane_index demo.2 = 2%nat /\ focus_successor demo.2 2 = Some "%2") as (H1 & H2 & H3)
    by (vm_compute; repeat split; reflexivity).
  rewrite E in H1, H2, H3. cbn [snd] in H1, H2, H3. split; [|exact H3].
  destruct (kill_pane None w) as [w' [p|e|]]; try done.
  destruct H as (index & H4 & _ & _ & H5 & _). simpl in H4. injection H4 as <-. rewrite H2 in H5.
  split; [exact H1|exact H5].
Defined.

(** In a filled window, moving the focus in a direction that has a pane and
    then in the opposite direction returns to the pane it started from. *)
Theorem navigation_reverses w d a :
  window_ok w -> synced w -> filled w ->
  active_rect w = Some a -> direct_candidates w a d <> [] ->
  exists w1 w2, select_adjacent_pane d w = (w1, Ok tt)
    /\ select_adjacent_pane (opposite d) w1 = (w2, Ok tt)
    /\ active_id w1 <> active_id w /\ active_id w2 = active_id w.
Proof. intros. by apply (navigation_reverses_aux w d a). Qed.

Lemma navigation_reverses_witness :
  exists w1 w2, select_adjacent_pane NavLeft demo.2 = (w1, Ok tt)
    /\ select_adjacent_pane NavRight w1 = (w2, Ok tt)
    /\ active_id w1 <> active_id demo.2 /\ active_id w2 = active_id demo.2.
Proof.
  pose proof demo_ok as [Hs [Hsy Hf]].
  assert (active_rect demo.2 = Some (mkGeometry 2 40 12 40 12)) as Ha by (vm_compute; reflexivity).
  assert (bool_decide (length (direct_candidates demo.2 (mkGeometry 2 40 12 40 12) NavLeft) = 1%nat) = true)
    as Hc by (vm_compute; reflexivity).
  apply bool_decide_eq_true in Hc.
  destruct demo as [ids w]. destruct Hs as (Hok & _). cbn [snd] in *.
  apply (navigation_reverses w NavLeft (mkGeometry 2 40 12 40 12) Hok Hsy Hf Ha).
  intros E. rewrite E in Hc. discriminate Hc.
Defined.

(** C28. A well-formed window whose stored rectangles are those of its tree
    ([synced]) and whose panes fill it, each with a cell ([filled]), is accepted
    when it is restored from its own panes, rectangles and split tree, as a
    snapshot keeps them, and comes back with the same panes, tree, rectangles,
    size, policy and active slot; the focus history, the last pane and the zoom
    are not in a snapshot. *)
Theorem restore_roundtrip w :
  window_ok w -> synced w -> filled w ->
  exists w', from_restored_parts_with_layout (w_id w) (w_index w) (w_name w) (w_size w) (w_panes w)
               (snapshot_layout w) = Ok w'
    /\ w_panes w' = w_panes w /\ w_layout_root w' = w_layout_root w
    /\ w_pane_geometries w' = w_pane_geometries w /\ w_size w' = w_size w
    /\ w_active_pane_index w' = w_active_pane_index w /\ w_layout_policy w' = w_layout_policy w
    /\ window_ok w' /\ filled w'.
Proof. apply restore_snapshot. Qed.

Lemma restore_roundtrip_witness :
  exists w', from_restored_parts_with_layout (w_id demo.2) (w_index demo.2) (w_name demo.2)
    (w_size demo.2) (w_panes demo.2) (snapshot_layout demo.2) = Ok w' /\ w_panes w' = w_panes demo.2.
Proof.
  pose proof demo_ok as [Hs [Hsy Hf]]. destruct demo as [ids w]. destruct Hs as (Hok & _). cbn [snd] in *.
  destruct (restore_roundtrip w Hok Hsy Hf) as (w' & H1 & H2 & _). exists w'. split; [exact H1|exact H2].
Defined.

(** Whatever parts a snapshot holds, a restored window is well formed: its tree
    mentions every slot once, exactly one pane is active, and given rectangles
    are accepted only when they lie inside the window, do not overlap and are
    the rectangles of the tree. *)
Theorem restored_window_well_formed id index name size panes layout w :
  NoDup (ids_of panes) -> u16_size size -> panes_u16 panes ->
  from_restored_parts_with_layout id index name size panes layout = Ok w ->
  window_ok w /\ synced w /\ ids_of (w_panes w) = ids_of panes
  /\ (forall gs, rl_pane_geometries layout = Some gs ->
        w_pane_geometries w = gs /\ Forall (fun g => outside size g = false) gs
        /\ ForallOrdPairs (fun g h => pane_geometries_overlap g h = false) gs).
Proof. apply restore_sound. Qed.

(** Two panes stacked, restored from their sizes alone. *)
Definition stacked_panes : list Pane :=
  [mkPane "%1" 7 "a" TitleDefault (mkSize 80 10) false true;
   mkPane "%2" 7 "b" TitleDefault (mkSize 80 14) true false].

Lemma restored_window_well_formed_witness :
  NoDup (ids_of stacked_panes)
  /\ exists w, from_restored_parts_with_layout "@4" 1 "logs" (mkSize 80 24) stacked_panes
                 (mkRestoredLayout None None Tiled) = Ok w /\ window_ok w.
Proof.
  assert (NoDup (ids_of stacked_panes)) as Hnd by (apply (bool_decide_unpack _); vm_compute; exact I).
  split; [exact Hnd|].
  destruct (from_restored_parts_with_layout "@4" 1 "logs" (mkSize 80 24) stacked_panes
              (mkRestoredLayout None None Tiled)) as [w| |] eqn:H; [|vm_compute in H; discriminate H..].
  exists w. split; [reflexivity|].
  refine (proj1 (restored_window_well_formed _ _ _ _ _ _ w Hnd _ _ H)).
  - split; vm_compute; split; discriminate.
  - repeat constructor; vm_compute; discriminate.
Defined.

(** Rebuilding a split tree from rectangles terminates for every non-empty
    list of rectangles and gives a tree with exactly their indices as leaves
    and at least two children per split. *)
Theorem tree_reconstruction_total gs :
  gs <> [] ->
  exists n, Reconstruct.from_geometries gs = Ok n /\ leaves n ≡ₚ g_index <$> gs /\ arity_ok n = true.
Proof. apply from_geometries_total. Qed.

Lemma tree_reconstruction_total_witness :
  w_pane_geometries demo.2 <> []
  /\ exists n, Reconstruct.from_geometries (w_pane_geometries demo.2) = Ok n /\ arity_ok n = true.
Proof.
  assert (w_pane_geometries demo.2 <> []) as H.
  { assert (bool_decide (length (w_pane_geometries demo.2) = 3%nat) = true) as Hl by (vm_compute; reflexivity).
    apply bool_decide_eq_true in Hl. intros E. rewrite E in Hl. discriminate Hl. }
  split; [exact H|].
  destruct (tree_reconstruction_total _ H) as (n & H1 & _ & H2). exists n. split; [exact H1|exact H2].
Defined.

(** A restored tree is accepted exactly when it mentions every slot of the
    window once and every split has at least two children. *)
Theorem restored_tree_accepted_iff n m :
  validate_pane_indices n m = Ok tt <-> leaves n ≡ₚ seq 0 m /\ arity_ok n = true.
Proof. apply validate_pane_indices_Ok. Qed.

(** Selecting another pane records where the focus was: the last-pane command
    returns to it, and it is the most recent entry of the focus history. *)
Theorem select_last_returns w index :
  window_ok w -> (index < length (w_panes w))%nat -> index <> w_active_pane_index w ->
  let w1 := set_active_pane_index index w in
  last (w_pane_focus_history w1) = active_id w
  /\ exists w2, select_last_pane w1 = (w2, Ok tt) /\ active_id w2 = active_id w.
Proof. intros Hok Hlt Hne w1. by apply select_then_last. Qed.

Lemma select_last_returns_witness :
  let w1 := set_active_pane_index 0 demo.2 in
  active_id demo.2 = Some "%3" /\ active_id w1 = Some "%1"
  /\ exists w2, select_last_pane w1 = (w2, Ok tt) /\ active_id w2 = active_id demo.2.
Proof.
  intros w1. split; [vm_compute; reflexivity|]. split; [vm_compute; reflexivity|].
  pose proof (proj1 demo_ok) as Hs. destruct demo as [ids w] eqn:E. destruct Hs as (Hok & _).
  refine (proj2 (select_last_returns w 0 Hok _ _)).
  - apply (Nat.lt_le_trans _ (length (w_panes demo.2))); [vm_compute; lia|by rewrite E].
  - replace w with demo.2 by (by rewrite E). vm_compute. discriminate.
Defined.

(** A client's navigation state captured from a window and applied to it again
    leaves the focus, the focus history and the zoom as they were. *)
Theorem client_navigation_restores w :
  window_ok w ->
  let '(active, last, history, zoomed) := client_navigation_state w in
  let w' := apply_client_navigation_state active last history zoomed w in
  active_id w' = active_id w /\ w_pane_focus_history w' = w_pane_focus_history w
  /\ w_zoomed_pane_id w' = w_zoomed_pane_id w /\ w_active_pane_index w' = w_active_pane_index w.
Proof. apply client_navigation_roundtrip. Qed.

Lemma client_navigation_restores_witness :
  client_navigation_state demo.2 = (Some "%3", Some "%2", ["%1"; "%2"], None)
  /\ active_id (apply_client_navigation_state (Some "%3") (Some "%2") ["%1"; "%2"] None demo.2)
     = active_id demo.2.
Proof.
  assert (client_navigation_state demo.2 = (Some "%3", Some "%2", ["%1"; "%2"], None)) as H
    by (vm_compute; reflexivity).
  split; [exact H|]. pose proof (proj1 demo_ok) as Hs. destruct demo as [ids w]. destruct Hs as (Hok & _).
  cbn [snd] in *. pose proof (client_navigation_restores w Hok) as H'. rewrite H in H'. exact (proj1 H').
Defined.

(** Rotating the panes of a window and rotating them back gives every pane its
    slot again; in between, slot sizes and the active slot do not move. *)
Theorem rotation_inverts w (backwards : bool) :
  window_ok w ->
  let w1 := rotate_panes backwards w in
  let w2 := rotate_panes (negb backwards) w1 in
  ids_of (w_panes w2) = ids_of (w_panes w)
  /\ w_active_pane_index w1 = w_active_pane_index w
  /\ (forall i, size_at (w_panes w1) i = size_at (w_panes w) i) /\ window_ok w1.
Proof.
  intros Hok w1 w2. destruct (rotate_panes_spec w backwards Hok) as (Hok1 & _ & _ & Hi1 & Hs1 & Ha1 & _).
  fold w1 in Hok1, Hi1, Hs1, Ha1.
  destruct (rotate_panes_spec w1 (negb backwards) Hok1) as (_ & _ & _ & Hi2 & _). fold w2 in Hi2.
  split; [|done]. rewrite Hi2, Hi1. generalize (ids_of (w_panes w)). intros l.
  destruct backwards; simpl.
  - unfold rotate_right1. destruct l as [|x l _] using rev_ind; [done|].
    rewrite last_snoc, length_app. simpl. by rewrite Nat.add_sub, take_app_length.
  - destruct l as [|x l]; [done|]. simpl. unfold rotate_right1. rewrite last_snoc, length_app. simpl.
    by rewrite Nat.add_sub, take_app_length.
Qed.

Lemma rotation_inverts_witness :
  ids_of (w_panes (rotate_panes true demo.2)) = ["%3"; "%1"; "%2"]
  /\ ids_of (w_panes (rotate_panes false (rotate_panes true demo.2))) = ids_of (w_panes demo.2).
Proof.
  split; [vm_compute; reflexivity|]. pose proof (proj1 demo_ok) as Hs. destruct demo as [ids w].
  destruct Hs as (Hok & _). exact (proj1 (rotation_inverts w true Hok)).
Defined.

(** Applying a layout policy always gives a well-formed window with the same
    panes in the same order, and the panes fill the window whenever the policy
    has a cell for every pane. *)
Theorem layout_policy_fills w policy :
  window_ok w ->
  exists w', set_layout_policy policy w = (w', Ok policy) /\ window_ok w' /\ synced w'
    /\ ids_of (w_panes w') = ids_of (w_panes w) /\ active_id w' = active_id w
    /\ (policy_fits policy (w_size w) (length (w_panes w)) = true -> filled w').
Proof.
  intros Hok. destruct (set_layout_policy_spec w policy Hok) as (w' & H1 & H2 & H3 & _ & H). by exists w'.
Qed.

Lemma layout_policy_fills_witness :
  policy_fits EvenGrid (w_size demo.2) (length (w_panes demo.2)) = true
  /\ exists w', set_layout_policy EvenGrid demo.2 = (w', Ok EvenGrid) /\ filled w'.
Proof.
  assert (policy_fits EvenGrid (w_size demo.2) (length (w_panes demo.2)) = true) as Hf
    by (vm_compute; reflexivity).
  split; [exact Hf|]. pose proof (proj1 demo_ok) as Hs. destruct demo as [ids w]. destruct Hs as (Hok & _).
  destruct (layout_policy_fills w EvenGrid Hok) as (w' & H1 & _ & _ & _ & _ & H).
  exists w'. split; [exact H1|exact (H Hf)].
Defined.

(** Enlarging a filled window under the tiled policy keeps it filled, for every
    split tree. *)
Theorem enlarged_window_filled w size :
  window_ok w -> filled w -> w_layout_policy w = Tiled -> u16_size size ->
  columns (w_size w) <= columns size -> rows (w_size w) <= rows size ->
  match resize_window size w with
  | (w', Ok _) => window_ok w' /\ w_size w' = size /\ filled w' /\ synced w'
  | (w', Err _) => w' = w
  | (_, Panic) => False
  end.
Proof.
  intros Hok Hf Hp Hu Hc Hr. pose proof (resize_window_spec w size Hok Hu) as H.
  destruct (resize_window size w) as [w' [[]|e|]]; [|done|done].
  destruct H as (_ & H1 & H2 & H3 & _ & _ & H4). split; [done|]. split; [done|]. split; [|done].
  apply H4, grow_fills; try done; [by unfold layout_policy_rebalances; rewrite Hp|..];
    destruct Hu; solve_int.
Qed.

Lemma enlarged_window_filled_witness :
  w_pane_geometries (resize_window (mkSize 101 31) demo.2).1
    = [mkGeometry 0 0 0 51 31; mkGeometry 1 51 0 50 16; mkGeometry 2 51 16 50 15]
  /\ filled (resize_window (mkSize 101 31) demo.2).1.
Proof.
  split; [vm_compute; reflexivity|]. pose proof demo_ok as [Hs [_ Hf]].
  assert (match resize_window (mkSize 101 31) demo.2 with (_, Ok _) => True | _ => False end) as Hr
    by (vm_compute; exact I).
  assert (w_layout_policy demo.2 = Tiled /\ w_size demo.2 = mkSize 80 24) as [Hp Hsz]
    by (vm_compute; split; reflexivity).
  destruct demo as [ids w]. destruct Hs as (Hok & _). cbn [snd] in *.
  assert (u16_size (mkSize 101 31)) as Hu by (split; vm_compute; split; discriminate).
  assert (columns (w_size w) <= columns (mkSize 101 31)) as Hc by (rewrite Hsz; vm_compute; discriminate).
  assert (rows (w_size w) <= rows (mkSize 101 31)) as Hrw by (rewrite Hsz; vm_compute; discriminate).
  pose proof (enlarged_window_filled w (mkSize 101 31) Hok Hf Hp Hu Hc Hrw) as H.
  destruct (resize_window (mkSize 101 31) w) as [w' [[]|e|]]; [|destruct Hr|destruct Hr].
  exact (proj1 (proj2 (proj2 H))).
Defined.

(** Replacing the rectangles of a window either changes nothing or gives every
    pane the size of its rectangle; accepted rectangles lie inside the window,
    have at least the minimum pane size and do not overlap, and the rebuilt
    tree again mentions every slot once. *)
Theorem replaced_geometries_disjoint w gs :
  window_ok w -> Forall geometry_u16 gs ->
  match replace_pane_geometries gs w with
  | (w', Ok _) => window_ok w' /\ w_pane_geometries w' = gs
      /\ (forall g, g ∈ gs -> size_at (w_panes w') (g_index g) = Some (mkSize (g_columns g) (g_rows g)))
      /\ Forall (fun g => 2 <= g_columns g /\ 2 <= g_rows g /\ outside (w_size w) g = false) gs
      /\ ForallOrdPairs (fun g h => pane_geometries_overlap g h = false) gs
  | (w', Err _) => w' = w
  | (_, Panic) => False
  end.
Proof.
  intros Hok Hu. pose proof (replace_pane_geometries_spec w gs Hok Hu) as H.
  destruct (replace_pane_geometries gs w) as [w' [[]|e|]]; [|done|done].
  destruct H as (H1 & H2 & _ & _ & H3 & H4 & H5 & _). done.
Qed.

(** Rectangles that swap the two columns of [demo]. *)
Definition mirrored : list PaneGeometry :=
  [mkGeometry 0 30 0 50 24; mkGeometry 1 0 0 30 10; mkGeometry 2 0 10 30 14].

Lemma replaced_geometries_disjoint_witness :
  Forall geometry_u16 mirrored
  /\ match replace_pane_geometries mirrored demo.2 with
     | (w', Ok _) => window_ok w' /\ w_pane_geometries w' = mirrored
     | _ => False
     end.
Proof.
  assert (Forall geometry_u16 mirrored) as Hu by (repeat constructor; vm_compute; discriminate).
  split; [exact Hu|]. pose proof (proj1 demo_ok) as Hs.
  assert (match replace_pane_geometries mirrored demo.2 with (_, Ok _) => True | _ => False end) as Hr
    by (vm_compute; exact I).
  destruct demo as [ids w]. destruct Hs as (Hok & _). cbn [snd] in *.
  pose proof (replaced_geometries_disjoint w mirrored Hok Hu) as H.
  destruct (replace_pane_geometries mirrored w) as [w' [[]|e|]]; [|destruct Hr|destruct Hr].
  split; [exact (proj1 H)|exact (proj1 (proj2 H))].
Defined.

(** ** Where the code does less than it promises *)

(** A window 104 columns wide: a pane of 100 columns beside a nested split of
    two panes of two columns each. *)
Definition nested : state :=
  (exec [CSplit Vertical (Some (Cells (Some 4) None)) true; CSplit Vertical None true]
     (mkIdFactory 1 2 1 2 1 1,
      single "@1" 0 "main" (mkSize 104 24)
        (mkPane "%1" 0 "shell" TitleDefault (mkSize 104 24) true true))).1.

(** [validate_resize] accepts ten columns, since the minimum sizes of the three
    panes add up to six, but the proportional distribution gives the nested
    split a single column: its second pane starts at the window's edge. *)
Theorem resize_can_push_a_pane_outside :
  w_size nested.2 = mkSize 104 24
  /\ (resize_window (mkSize 10 24) nested.2).2 = Ok tt
  /\ w_pane_geometries (resize_window (mkSize 10 24) nested.2).1
     = [mkGeometry 0 0 0 9 24; mkGeometry 1 9 0 1 24; mkGeometry 2 10 0 1 24].
Proof. vm_compute. repeat split; reflexivity. Qed.

(** Under the even-vertical policy panes can be added by horizontal splits
    without limit: with eleven panes in ten columns the last one lies outside
    the window. *)
Theorem even_policy_overflows :
  let start := (mkIdFactory 1 2 1 2 1 1,
                single "@1" 0 "main" (mkSize 10 24)
                  (mkPane "%1" 0 "shell" TitleDefault (mkSize 10 24) true true)) in
  let s := exec (CSetPolicy EvenVertical :: replicate 10 (CSplit Horizontal None true)) start in
  forallb is_ok s.2 = true
  /\ last (w_pane_geometries s.1.2) = Some (mkGeometry 10 10 0 1 24).
Proof. vm_compute. split; reflexivity. Qed.

(** Swapping panes between windows leaves the zoom of a window on a pane that
    is now in the other window. *)
Theorem swap_between_leaves_dangling_zoom :
  let pane id := mkPane id 0 "shell" TitleDefault (mkSize 80 24) true true in
  let first := set_zoomed (single "@1" 0 "a" (mkSize 80 24) (pane "%1")) (Some "%1") in
  let second := single "@2" 1 "b" (mkSize 80 24) (pane "%2") in
  match swap_panes_between first 0 second 0 with
  | Ok (first', _) =>
      ids_of (w_panes first') = ["%2"] /\ w_zoomed_pane_id first' = Some "%1"
  | _ => False
  end.
Proof. vm_compute. split; reflexivity. Qed.

(** Inserting a pane before the active one and selecting it records neither the
    focus history nor the last pane, because the active index is not shifted
    with the panes; inserted after the active pane, it records both. *)
Theorem insert_before_active_forgets_focus :
  let p := mkPane "%9" 0 "shell" TitleDefault (mkSize 80 24) false true in
  let before := (insert_existing_after (Some "%1") p Horizontal true demo.2).1 in
  let after := (insert_existing_after (Some "%3") p Vertical true demo.2).1 in
  active_id demo.2 = Some "%3"
  /\ w_pane_focus_history before = ["%1"; "%2"] /\ w_last_active_pane_index before = Some 1%nat
  /\ w_pane_focus_history after = ["%1"; "%2"; "%3"] /\ w_last_active_pane_index after = Some 2%nat.
Proof. vm_compute. repeat split; reflexivity. Qed.

(** A pinwheel of rectangles around a central one has no clean cut.  As a
    replacement it is accepted, but the tree that is stored has other
    rectangles, so that the next refresh moves the panes. *)
Theorem replacement_can_disagree_with_tree :
  let gs := [mkGeometry 0 0 0 40 8; mkGeometry 1 40 0 40 16; mkGeometry 2 20 16 60 8;
             mkGeometry 3 0 8 20 16; mkGeometry 4 20 8 20 8] in
  let w := (exec [CSplit Vertical None true; CSplit Vertical None true; CSelect "0";
                  CSplit Horizontal None true; CSplit Horizontal None true] demo_start).1.2 in
  let w' := (replace_pane_geometries gs w).1 in
  (replace_pane_geometries gs w).2 = Ok tt /\ w_pane_geometries w' = gs
  /\ w_pane_geometries (refresh_pane_geometries w')
     = [mkGeometry 0 0 0 40 8; mkGeometry 1 0 8 40 16; mkGeometry 2 0 24 60 8;
        mkGeometry 3 0 32 20 16; mkGeometry 4 0 48 20 8].
Proof. vm_compute. repeat split; reflexivity. Qed.
