(* ===== verification/Scheduler.v ===== *)
(** * The agent scheduler ([mez-agent/src/scheduler])

    A bounded queue of agent turns with fair starts and exclusive claims on
    agents and panes.  The state is the struct of [types.rs] field by field:
    hash maps and B-tree maps are finite maps, and iteration over a B-tree
    goes through its entries in key order.  Methods are functions on the
    state; the ones that return [Result] run in [op], which keeps the state an
    error leaves behind. *)

From S2P Require Import Prelude RustStr.
Local Open Scope N_scope.

(** ** Types ([types.rs], [error.rs]) *)

Definition usize_MAX : N := 18446744073709551615.

Definition DEFAULT_MAX_CONCURRENT_AGENTS : N := 4.
Definition DEFAULT_MAX_QUEUED_TURNS : N := 256.
Definition DEFAULT_MAX_QUEUED_BYTES : N := 4 * 1024 * 1024.

Inductive SchedulerErrorKind := SInvalidArgs | SInvalidState | SQueueFull | SConflict | SNotFound.
Record SchedulerError := mkSchedulerError { se_kind : SchedulerErrorKind; se_message : string }.

Inductive ScheduledWorkKind := ShellCapable | PlanningOnly | LocalMessage | BackgroundTask.

#[global] Instance ScheduledWorkKind_eq_dec : EqDecision ScheduledWorkKind.
Proof. solve_decision. Defined.

(** [ScheduledWork] and [RunningWork] have the same fields. *)
Record ScheduledWork := mkWork {
  turn_id : string;
  conversation_id : string;
  agent_id : string;
  pane_id : option string;
  kind : ScheduledWorkKind }.
Abbreviation RunningWork := ScheduledWork.

#[global] Instance ScheduledWork_eq_dec : EqDecision ScheduledWork.
Proof. solve_decision. Defined.

Inductive SchedulerTurnState := SQueued | SRunning | SBlocked | SWaiting | SReacquiring.

#[global] Instance SchedulerTurnState_eq_dec : EqDecision SchedulerTurnState.
Proof. solve_decision. Defined.

(** [enqueued_at] is the caller's clock reading, in milliseconds. *)
Record QueuedWork := mkQueued {
  work : ScheduledWork;
  sequence : N;
  enqueued_at : N;
  estimated_bytes : N }.

Inductive SchedulerCancellation :=
| CancelledQueued (w : ScheduledWork)
| CancelledRunning (w : RunningWork)
| CancelledBlocked (w : RunningWork)
| CancelledWaiting (w : RunningWork).

Record AgentScheduler := mkScheduler {
  max_concurrent_agents : N;
  max_queued_turns : N;
  max_queued_bytes : N;
  queued : gmap string QueuedWork;
  queued_order : gmap N string;
  queued_by_agent : gmap string (gset (N * string));
  queued_by_pane : gmap string (gset string);
  ready_by_agent : gmap string (N * string);
  ready_order : gset (N * string * string);
  next_sequence : N;
  queued_bytes : N;
  turn_states : gmap string SchedulerTurnState;
  claimed_agents : gset string;
  claimed_panes : gset string;
  running : gmap string RunningWork;
  blocked : gmap string RunningWork;
  waiting : gmap string RunningWork;
  reacquiring : gmap string RunningWork;
  human_paused : gset string;
  last_started_agent_id : option string;
  admission_rejections : N;
  readiness_checks : N }.

(** Field assignments. *)
Section Setters.
Context (s : AgentScheduler).
Definition put_max_concurrent_agents (x : N) : AgentScheduler :=
  mkScheduler x (max_queued_turns s) (max_queued_bytes s) (queued s) (queued_order s)
    (queued_by_agent s) (queued_by_pane s) (ready_by_agent s) (ready_order s) (next_sequence
    s) (queued_bytes s) (turn_states s) (claimed_agents s) (claimed_panes s) (running s)
    (blocked s) (waiting s) (reacquiring s) (human_paused s) (last_started_agent_id s)
    (admission_rejections s) (readiness_checks s).
Definition put_max_queued_turns (x : N) : AgentScheduler :=
  mkScheduler (max_concurrent_agents s) x (max_queued_bytes s) (queued s) (queued_order s)
    (queued_by_agent s) (queued_by_pane s) (ready_by_agent s) (ready_order s) (next_sequence
    s) (queued_bytes s) (turn_states s) (claimed_agents s) (claimed_panes s) (running s)
    (blocked s) (waiting s) (reacquiring s) (human_paused s) (last_started_agent_id s)
    (admission_rejections s) (readiness_checks s).
Definition put_max_queued_bytes (x : N) : AgentScheduler :=
  mkScheduler (max_concurrent_agents s) (max_queued_turns s) x (queued s) (queued_order s)
    (queued_by_agent s) (queued_by_pane s) (ready_by_agent s) (ready_order s) (next_sequence
    s) (queued_bytes s) (turn_states s) (claimed_agents s) (claimed_panes s) (running s)
    (blocked s) (waiting s) (reacquiring s) (human_paused s) (last_started_agent_id s)
    (admission_rejections s) (readiness_checks s).
Definition put_queued (x : gmap string QueuedWork) : AgentScheduler :=
  mkScheduler (max_concurrent_agents s) (max_queued_turns s) (max_queued_bytes s) x
    (queued_order s) (queued_by_agent s) (queued_by_pane s) (ready_by_agent s) (ready_order s)
    (next_sequence s) (queued_bytes s) (turn_states s) (claimed_agents s) (claimed_panes s)
    (running s) (blocked s) (waiting s) (reacquiring s) (human_paused s)
    (last_started_agent_id s) (admission_rejections s) (readiness_checks s).
Definition put_queued_order (x : gmap N string) : AgentScheduler :=
  mkScheduler (max_concurrent_agents s) (max_queued_turns s) (max_queued_bytes s) (queued s) x
    (queued_by_agent s) (queued_by_pane s) (ready_by_agent s) (ready_order s) (next_sequence
    s) (queued_bytes s) (turn_states s) (claimed_agents s) (claimed_panes s) (running s)
    (blocked s) (waiting s) (reacquiring s) (human_paused s) (last_started_agent_id s)
    (admission_rejections s) (readiness_checks s).
Definition put_queued_by_agent (x : gmap string (gset (N * string))) : AgentScheduler :=
  mkScheduler (max_concurrent_agents s) (max_queued_turns s) (max_queued_bytes s) (queued s)
    (queued_order s) x (queued_by_pane s) (ready_by_agent s) (ready_order s) (next_sequence s)
    (queued_bytes s) (turn_states s) (claimed_agents s) (claimed_panes s) (running s) (blocked
    s) (waiting s) (reacquiring s) (human_paused s) (last_started_agent_id s)
    (admission_rejections s) (readiness_checks s).
Definition put_queued_by_pane (x : gmap string (gset string)) : AgentScheduler :=
  mkScheduler (max_concurrent_agents s) (max_queued_turns s) (max_queued_bytes s) (queued s)
    (queued_order s) (queued_by_agent s) x (ready_by_agent s) (ready_order s) (next_sequence
    s) (queued_bytes s) (turn_states s) (claimed_agents s) (claimed_panes s) (running s)
    (blocked s) (waiting s) (reacquiring s) (human_paused s) (last_started_agent_id s)
    (admission_rejections s) (readiness_checks s).
Definition put_ready_by_agent (x : gmap string (N * string)) : AgentScheduler :=
  mkScheduler (max_concurrent_agents s) (max_queued_turns s) (max_queued_bytes s) (queued s)
    (queued_order s) (queued_by_agent s) (queued_by_pane s) x (ready_order s) (next_sequence
    s) (queued_bytes s) (turn_states s) (claimed_agents s) (claimed_panes s) (running s)
    (blocked s) (waiting s) (reacquiring s) (human_paused s) (last_started_agent_id s)
    (admission_rejections s) (readiness_checks s).
Definition put_ready_order (x : gset (N * string * string)) : AgentScheduler :=
  mkScheduler (max_concurrent_agents s) (max_queued_turns s) (max_queued_bytes s) (queued s)
    (queued_order s) (queued_by_agent s) (queued_by_pane s) (ready_by_agent s) x
    (next_sequence s) (queued_bytes s) (turn_states s) (claimed_agents s) (claimed_panes s)
    (running s) (blocked s) (waiting s) (reacquiring s) (human_paused s)
    (last_started_agent_id s) (admission_rejections s) (readiness_checks s).
Definition put_next_sequence (x : N) : AgentScheduler :=
  mkScheduler (max_concurrent_agents s) (max_queued_turns s) (max_queued_bytes s) (queued s)
    (queued_order s) (queued_by_agent s) (queued_by_pane s) (ready_by_agent s) (ready_order s)
    x (queued_bytes s) (turn_states s) (claimed_agents s) (claimed_panes s) (running s)
    (blocked s) (waiting s) (reacquiring s) (human_paused s) (last_started_agent_id s)
    (admission_rejections s) (readiness_checks s).
Definition put_queued_bytes (x : N) : AgentScheduler :=
  mkScheduler (max_concurrent_agents s) (max_queued_turns s) (max_queued_bytes s) (queued s)
    (queued_order s) (queued_by_agent s) (queued_by_pane s) (ready_by_agent s) (ready_order s)
    (next_sequence s) x (turn_states s) (claimed_agents s) (claimed_panes s) (running s)
    (blocked s) (waiting s) (reacquiring s) (human_paused s) (last_started_agent_id s)
    (admission_rejections s) (readiness_checks s).
Definition put_turn_states (x : gmap string SchedulerTurnState) : AgentScheduler :=
  mkScheduler (max_concurrent_agents s) (max_queued_turns s) (max_queued_bytes s) (queued s)
    (queued_order s) (queued_by_agent s) (queued_by_pane s) (ready_by_agent s) (ready_order s)
    (next_sequence s) (queued_bytes s) x (claimed_agents s) (claimed_panes s) (running s)
    (blocked s) (waiting s) (reacquiring s) (human_paused s) (last_started_agent_id s)
    (admission_rejections s) (readiness_checks s).
Definition put_claimed_agents (x : gset string) : AgentScheduler :=
  mkScheduler (max_concurrent_agents s) (max_queued_turns s) (max_queued_bytes s) (queued s)
    (queued_order s) (queued_by_agent s) (queued_by_pane s) (ready_by_agent s) (ready_order s)
    (next_sequence s) (queued_bytes s) (turn_states s) x (claimed_panes s) (running s)
    (blocked s) (waiting s) (reacquiring s) (human_paused s) (last_started_agent_id s)
    (admission_rejections s) (readiness_checks s).
Definition put_claimed_panes (x : gset string) : AgentScheduler :=
  mkScheduler (max_concurrent_agents s) (max_queued_turns s) (max_queued_bytes s) (queued s)
    (queued_order s) (queued_by_agent s) (queued_by_pane s) (ready_by_agent s) (ready_order s)
    (next_sequence s) (queued_bytes s) (turn_states s) (claimed_agents s) x (running s)
    (blocked s) (waiting s) (reacquiring s) (human_paused s) (last_started_agent_id s)
    (admission_rejections s) (readiness_checks s).
Definition put_running (x : gmap string RunningWork) : AgentScheduler :=
  mkScheduler (max_concurrent_agents s) (max_queued_turns s) (max_queued_bytes s) (queued s)
    (queued_order s) (queued_by_agent s) (queued_by_pane s) (ready_by_agent s) (ready_order s)
    (next_sequence s) (queued_bytes s) (turn_states s) (claimed_agents s) (claimed_panes s) x
    (blocked s) (waiting s) (reacquiring s) (human_paused s) (last_started_agent_id s)
    (admission_rejections s) (readiness_checks s).
Definition put_blocked (x : gmap string RunningWork) : AgentScheduler :=
  mkScheduler (max_concurrent_agents s) (max_queued_turns s) (max_queued_bytes s) (queued s)
    (queued_order s) (queued_by_agent s) (queued_by_pane s) (ready_by_agent s) (ready_order s)
    (next_sequence s) (queued_bytes s) (turn_states s) (claimed_agents s) (claimed_panes s)
    (running s) x (waiting s) (reacquiring s) (human_paused s) (last_started_agent_id s)
    (admission_rejections s) (readiness_checks s).
Definition put_waiting (x : gmap string RunningWork) : AgentScheduler :=
  mkScheduler (max_concurrent_agents s) (max_queued_turns s) (max_queued_bytes s) (queued s)
    (queued_order s) (queued_by_agent s) (queued_by_pane s) (ready_by_agent s) (ready_order s)
    (next_sequence s) (queued_bytes s) (turn_states s) (claimed_agents s) (claimed_panes s)
    (running s) (blocked s) x (reacquiring s) (human_paused s) (last_started_agent_id s)
    (admission_rejections s) (readiness_checks s).
Definition put_reacquiring (x : gmap string RunningWork) : AgentScheduler :=
  mkScheduler (max_concurrent_agents s) (max_queued_turns s) (max_queued_bytes s) (queued s)
    (queued_order s) (queued_by_agent s) (queued_by_pane s) (ready_by_agent s) (ready_order s)
    (next_sequence s) (queued_bytes s) (turn_states s) (claimed_agents s) (claimed_panes s)
    (running s) (blocked s) (waiting s) x (human_paused s) (last_started_agent_id s)
    (admission_rejections s) (readiness_checks s).
Definition put_human_paused (x : gset string) : AgentScheduler :=
  mkScheduler (max_concurrent_agents s) (max_queued_turns s) (max_queued_bytes s) (queued s)
    (queued_order s) (queued_by_agent s) (queued_by_pane s) (ready_by_agent s) (ready_order s)
    (next_sequence s) (queued_bytes s) (turn_states s) (claimed_agents s) (claimed_panes s)
    (running s) (blocked s) (waiting s) (reacquiring s) x (last_started_agent_id s)
    (admission_rejections s) (readiness_checks s).
Definition put_last_started_agent_id (x : option string) : AgentScheduler :=
  mkScheduler (max_concurrent_agents s) (max_queued_turns s) (max_queued_bytes s) (queued s)
    (queued_order s) (queued_by_agent s) (queued_by_pane s) (ready_by_agent s) (ready_order s)
    (next_sequence s) (queued_bytes s) (turn_states s) (claimed_agents s) (claimed_panes s)
    (running s) (blocked s) (waiting s) (reacquiring s) (human_paused s) x
    (admission_rejections s) (readiness_checks s).
Definition put_admission_rejections (x : N) : AgentScheduler :=
  mkScheduler (max_concurrent_agents s) (max_queued_turns s) (max_queued_bytes s) (queued s)
    (queued_order s) (queued_by_agent s) (queued_by_pane s) (ready_by_agent s) (ready_order s)
    (next_sequence s) (queued_bytes s) (turn_states s) (claimed_agents s) (claimed_panes s)
    (running s) (blocked s) (waiting s) (reacquiring s) (human_paused s)
    (last_started_agent_id s) x (readiness_checks s).
Definition put_readiness_checks (x : N) : AgentScheduler :=
  mkScheduler (max_concurrent_agents s) (max_queued_turns s) (max_queued_bytes s) (queued s)
    (queued_order s) (queued_by_agent s) (queued_by_pane s) (ready_by_agent s) (ready_order s)
    (next_sequence s) (queued_bytes s) (turn_states s) (claimed_agents s) (claimed_panes s)
    (running s) (blocked s) (waiting s) (reacquiring s) (human_paused s)
    (last_started_agent_id s) (admission_rejections s) x.
End Setters.


Record SchedulerSnapshot := mkSnapshot {
  snap_queued : nat;
  snap_queued_bytes : N;
  snap_oldest_queued_age_ms : N;
  snap_running : nat;
  snap_blocked : nat;
  snap_waiting : nat;
  snap_reacquiring : nat;
  snap_active_capacity_used : nat;
  snap_max_concurrent_agents : N;
  snap_max_queued_turns : N;
  snap_max_queued_bytes : N;
  snap_admission_rejections : N;
  snap_readiness_checks : N }.

Definition usat_add (a b : N) : N := N.min usize_MAX (a + b).

(** Methods on [&mut AgentScheduler]. *)
Abbreviation smethod := (op SchedulerError AgentScheduler).

(** ** Ordered iteration *)

(** [Ord] on the key tuples: fields in order, strings by their bytes. *)
Definition string_leb (a b : string) : bool :=
  match String.compare a b with Gt => false | _ => true end.
Definition entry_leb (a b : N * string) : bool :=
  (a.1 <? b.1) || ((a.1 =? b.1) && string_leb a.2 b.2).
Definition ready_leb (a b : N * string * string) : bool :=
  (a.1.1 <? b.1.1)
  || ((a.1.1 =? b.1.1)
      && match String.compare a.1.2 b.1.2 with Lt => true | Gt => false | Eq => string_leb a.2 b.2 end).

Section Scheduler.
(** [size_of::<ScheduledWork>()] is chosen by the compiler. *)
Context (size_of_work : N).

(** ** Policy ([policy.rs]) *)

Definition validate_work (w : ScheduledWork) : outcome SchedulerError unit :=
  if str_is_empty (trim (turn_id w)) || str_is_empty (trim (conversation_id w))
     || str_is_empty (trim (agent_id w))
  then Err (mkSchedulerError SInvalidArgs
              "scheduled work requires turn, conversation, and agent identity")
  else if bool_decide (kind w = ShellCapable)
          && match pane_id w with Some p => str_is_empty (trim p) | None => true end
  then Err (mkSchedulerError SInvalidArgs "shell-capable scheduled work requires a pane id")
  else Ok tt.

Definition estimated_work_bytes (w : ScheduledWork) : N :=
  let len s := N.of_nat (String.length s) in
  usat_add (usat_add (usat_add (usat_add size_of_work (len (turn_id w))) (len (conversation_id w)))
              (len (agent_id w)))
    (match pane_id w with Some p => len p | None => 0 end).

(** ** Construction and limits ([queue.rs]) *)

Definition empty_scheduler (agents turns bytes : N) : AgentScheduler :=
  mkScheduler agents turns bytes ∅ ∅ ∅ ∅ ∅ ∅ 0 0 ∅ ∅ ∅ ∅ ∅ ∅ ∅ ∅ None 0 0.

Definition with_limits (agents turns bytes : N) : outcome SchedulerError AgentScheduler :=
  if (agents =? 0) || (turns =? 0) || (bytes =? 0)
  then Err (mkSchedulerError SInvalidArgs
              "scheduler concurrency and queue limits must be greater than zero")
  else Ok (empty_scheduler agents turns bytes).

Definition new_scheduler (agents : N) : outcome SchedulerError AgentScheduler :=
  with_limits agents DEFAULT_MAX_QUEUED_TURNS DEFAULT_MAX_QUEUED_BYTES.

Definition with_default_limit : outcome SchedulerError AgentScheduler :=
  match with_limits DEFAULT_MAX_CONCURRENT_AGENTS DEFAULT_MAX_QUEUED_TURNS DEFAULT_MAX_QUEUED_BYTES with
  | Ok s => Ok s
  | _ => Panic
  end.

Definition set_max_concurrent_agents (agents : N) : smethod unit :=
  if agents =? 0
  then op_lift (Err (mkSchedulerError SInvalidArgs "max concurrent agents must be greater than zero"))
  else op_modify (fun s => put_max_concurrent_agents s agents).

Definition set_queue_limits (turns bytes : N) : smethod unit :=
  if (turns =? 0) || (bytes =? 0)
  then op_lift (Err (mkSchedulerError SInvalidArgs "scheduler queue limits must be greater than zero"))
  else op_modify (fun s => put_max_queued_bytes (put_max_queued_turns s turns) bytes).

(** ** Readiness *)

Definition active_capacity_used (s : AgentScheduler) : N := N.of_nat (size (running s)).

(** The pane a unit of work claims. *)
Definition claimed_pane (w : ScheduledWork) : option string :=
  if bool_decide (kind w = ShellCapable) then pane_id w else None.

Definition can_start (s : AgentScheduler) (w : ScheduledWork) : bool :=
  if bool_decide (turn_id w ∈ human_paused s) then false else
  let owns_reacquiring_claim := bool_decide (turn_states s !! turn_id w = Some SReacquiring) in
  if bool_decide (agent_id w ∈ claimed_agents s) && negb owns_reacquiring_claim then false else
  if negb (bool_decide (kind w = ShellCapable)) then true else
  match pane_id w with
  | None => false
  | Some p => negb (bool_decide (p ∈ claimed_panes s)) || owns_reacquiring_claim
  end.

Definition remove_ready_agent (agent : string) (s : AgentScheduler) : AgentScheduler :=
  match ready_by_agent s !! agent with
  | Some (seq, turn) =>
      let s := put_ready_by_agent s (delete agent (ready_by_agent s)) in
      put_ready_order s (ready_order s ∖ {[ (seq, agent, turn) ]})
  | None => s
  end.

(** The entries of an agent in queue order. *)
Definition agent_entries (s : AgentScheduler) (agent : string) : list (N * string) :=
  in_order entry_leb (elements (default ∅ (queued_by_agent s !! agent))).

Definition entry_can_start (s : AgentScheduler) (e : N * string) : bool :=
  match queued s !! e.2 with Some q => can_start s (work q) | None => false end.

(** The loop: the first entry that can start, and the number of checks. *)
Fixpoint first_startable (s : AgentScheduler) (entries : list (N * string)) : option (N * string) * N :=
  match entries with
  | [] => (None, 0)
  | e :: entries =>
      if entry_can_start s e then (Some e, 1)
      else let '(c, n) := first_startable s entries in (c, n + 1)
  end.

Definition refresh_ready_for_agent (agent : string) (s : AgentScheduler) : AgentScheduler :=
  let s := remove_ready_agent agent s in
  let '(candidate, checks) := first_startable s (agent_entries s agent) in
  let s := put_readiness_checks s (N.min u64_max (readiness_checks s + checks)) in
  match candidate with
  | Some (seq, turn) =>
      put_ready_order (put_ready_by_agent s (<[agent := (seq, turn)]> (ready_by_agent s)))
        (ready_order s ∪ {[ (seq, agent, turn) ]})
  | None => s
  end.

Definition affected_agents (w : RunningWork) (s : AgentScheduler) : gset string :=
  {[ agent_id w ]} ∪
  match claimed_pane w with
  | Some p =>
      list_to_set (omap (fun t => agent_id ∘ work <$> queued s !! t)
                     (elements (default ∅ (queued_by_pane s !! p))))
  | None => ∅
  end.

(** The loop over a hash set: the order does not matter, since agents are
    refreshed independently. *)
Definition refresh_affected_readiness (w : RunningWork) (s : AgentScheduler) : AgentScheduler :=
  foldl (fun s a => refresh_ready_for_agent a s) s (elements (affected_agents w s)).

Definition claim_work (w : RunningWork) (s : AgentScheduler) : AgentScheduler :=
  let s := put_claimed_agents s (claimed_agents s ∪ {[ agent_id w ]}) in
  match claimed_pane w with
  | Some p => put_claimed_panes s (claimed_panes s ∪ {[ p ]})
  | None => s
  end.

Definition release_claims (w : RunningWork) (s : AgentScheduler) : AgentScheduler :=
  let s := put_claimed_agents s (claimed_agents s ∖ {[ agent_id w ]}) in
  let s := match claimed_pane w with
           | Some p => put_claimed_panes s (claimed_panes s ∖ {[ p ]})
           | None => s
           end in
  refresh_affected_readiness w s.

(** ** The queue *)

(** [wrapping_add(1)] on the sequence counter. *)
Definition next_seq (n : N) : N := (n + 1) mod (u64_max + 1).

(** The loop of [next_available_sequence]; one more try than there are
    queued entries is enough. *)
Fixpoint find_sequence (fuel : nat) (order : gmap N string) (n : N) : option (N * N) :=
  match fuel with
  | O => None
  | S fuel =>
      if bool_decide (is_Some (order !! n)) then find_sequence fuel order (next_seq n)
      else Some (n, next_seq n)
  end.

Definition next_available_sequence (s : AgentScheduler) : option (N * AgentScheduler) :=
  match find_sequence (S (size (queued_order s))) (queued_order s) (next_sequence s) with
  | Some (n, next) => Some (n, put_next_sequence s next)
  | None => None
  end.

Definition ensure_queue_capacity (w : ScheduledWork) : smethod unit := fun s =>
  if (max_queued_turns s <=? N.of_nat (size (queued s)))
     || (max_queued_bytes s <? usat_add (queued_bytes s) (estimated_work_bytes w))
  then (put_admission_rejections s (N.min u64_max (admission_rejections s + 1)),
        Err (mkSchedulerError SQueueFull "scheduler queue admission limit exceeded"))
  else (s, Ok tt).

(** [entry(k).or_default().insert(x)] and its inverse, which drops an empty
    set. *)
Definition index_insert {K V} `{Countable K, Countable V} (k : K) (x : V) (m : gmap K (gset V))
    : gmap K (gset V) := <[k := default ∅ (m !! k) ∪ {[ x ]}]> m.
Definition index_remove {K V} `{Countable K, Countable V} (k : K) (x : V) (m : gmap K (gset V))
    : gmap K (gset V) :=
  match m !! k with
  | Some entries =>
      let entries := entries ∖ {[ x ]} in
      if bool_decide (entries = ∅) then delete k m else <[k := entries]> m
  | None => m
  end.

(** The state after the sequence number is taken. *)
Definition insert_with_sequence (now seq : N) (w : ScheduledWork) (state : SchedulerTurnState)
    (s : AgentScheduler) : AgentScheduler :=
  let bytes := estimated_work_bytes w in
  let s := put_queued_bytes s (usat_add (queued_bytes s) bytes) in
  let s := put_queued_order s (<[seq := turn_id w]> (queued_order s)) in
  let s := put_queued_by_agent s (index_insert (agent_id w) (seq, turn_id w) (queued_by_agent s)) in
  let s := match claimed_pane w with
           | Some p => put_queued_by_pane s (index_insert p (turn_id w) (queued_by_pane s))
           | None => s
           end in
  let s := put_turn_states s (<[turn_id w := state]> (turn_states s)) in
  let s := put_queued s (<[turn_id w := mkQueued w seq now bytes]> (queued s)) in
  refresh_ready_for_agent (agent_id w) s.

(** [insert_queued]; [None] when no sequence number is free (the loop of the
    code would not end). *)
Definition insert_queued (now : N) (w : ScheduledWork) (state : SchedulerTurnState) : smethod unit :=
  fun s =>
  match next_available_sequence s with
  | Some (seq, s) => (insert_with_sequence now seq w state s, Ok tt)
  | None => (s, Panic)
  end.

Definition remove_queued (turn : string) (s : AgentScheduler) : AgentScheduler * option ScheduledWork :=
  match queued s !! turn with
  | None => (s, None)
  | Some q =>
      let agent := agent_id (work q) in
      let s := put_queued s (delete turn (queued s)) in
      let s := put_queued_order s (delete (sequence q) (queued_order s)) in
      let s := put_queued_by_agent s (index_remove agent (sequence q, turn) (queued_by_agent s)) in
      let s := match claimed_pane (work q) with
               | Some p => put_queued_by_pane s (index_remove p turn (queued_by_pane s))
               | None => s
               end in
      let s := put_queued_bytes s (queued_bytes s - estimated_bytes q) in
      let s := remove_ready_agent agent s in
      (refresh_ready_for_agent agent s, Some (work q))
  end.

Definition enqueue (now : N) (w : ScheduledWork) : smethod unit :=
  op_lift (validate_work w) ≫= fun _ =>
  op_get turn_states ≫= fun states =>
  (if bool_decide (is_Some (states !! turn_id w))
   then op_lift (Err (mkSchedulerError SConflict
                        "scheduled turn id is already queued, running, blocked, or waiting"))
   else op_lift (Ok tt)) ≫= fun _ =>
  ensure_queue_capacity w ≫= fun _ =>
  insert_queued now w SQueued.

(** ** Starting work *)

(** The filter of [start_ready_candidate_where] on an entry of the ready
    order, and the entry its search finds. *)
Definition ready_matches (s : AgentScheduler) (prefer_new_agent : bool)
    (predicate : ScheduledWork -> bool) (e : N * string * string) : bool :=
  let '(_, agent, turn) := e in
  negb (bool_decide (turn ∈ human_paused s))
  && (negb prefer_new_agent || negb (bool_decide (last_started_agent_id s = Some agent)))
  && match queued s !! turn with Some q => predicate (work q) | None => false end.

Definition ready_candidate (s : AgentScheduler) (prefer_new_agent : bool)
    (predicate : ScheduledWork -> bool) : option (N * string * string) :=
  List.find (ready_matches s prefer_new_agent predicate)
    (in_order ready_leb (elements (ready_order s))).

Definition start_work (w : ScheduledWork) (s : AgentScheduler) : AgentScheduler :=
  let is_reacquiring := bool_decide (turn_states s !! turn_id w = Some SReacquiring) in
  let s := put_last_started_agent_id s (Some (agent_id w)) in
  let s := if is_reacquiring then put_reacquiring s (delete (turn_id w) (reacquiring s))
           else claim_work w s in
  let s := put_turn_states s (<[turn_id w := SRunning]> (turn_states s)) in
  let s := put_running s (<[turn_id w := w]> (running s)) in
  refresh_affected_readiness w s.

Definition start_ready_candidate_where (prefer_new_agent : bool) (predicate : ScheduledWork -> bool)
    (s : AgentScheduler) : AgentScheduler * option RunningWork :=
  match ready_candidate s prefer_new_agent predicate with
  | None => (s, None)
  | Some (_, _, turn) =>
      match remove_queued turn s with
      | (s, None) => (s, None)
      | (s, Some w) => (start_work w s, Some w)
      end
  end.

Definition start_ready_where (predicate : ScheduledWork -> bool) (s : AgentScheduler)
    : AgentScheduler * option RunningWork :=
  if max_concurrent_agents s <=? active_capacity_used s then (s, None) else
  match start_ready_candidate_where true predicate s with
  | (s, Some w) => (s, Some w)
  | (s, None) => start_ready_candidate_where false predicate s
  end.

Definition start_ready (s : AgentScheduler) : AgentScheduler * option RunningWork :=
  start_ready_where (fun _ => true) s.

(** ** The life of a started turn *)

Definition turn_not_found : SchedulerError := mkSchedulerError SNotFound "turn not found".

Definition complete (turn : string) : smethod RunningWork := fun s =>
  match running s !! turn with
  | None => (s, Err turn_not_found)
  | Some w =>
      let s := put_running s (delete turn (running s)) in
      let s := put_turn_states s (delete turn (turn_states s)) in
      let s := put_human_paused s (human_paused s ∖ {[ turn ]}) in
      (release_claims w s, Ok w)
  end.

Definition block_running (turn : string) : smethod RunningWork := fun s =>
  match running s !! turn with
  | None => (s, Err turn_not_found)
  | Some w =>
      let s := put_running s (delete turn (running s)) in
      let s := put_blocked s (<[turn := w]> (blocked s)) in
      (put_turn_states s (<[turn := SBlocked]> (turn_states s)), Ok w)
  end.

Definition wait_running (turn : string) : smethod RunningWork := fun s =>
  match running s !! turn with
  | None => (s, Err turn_not_found)
  | Some w =>
      let s := put_running s (delete turn (running s)) in
      let s := put_waiting s (<[turn := w]> (waiting s)) in
      (put_turn_states s (<[turn := SWaiting]> (turn_states s)), Ok w)
  end.

Definition requeue_blocked (now : N) (turn : string) : smethod ScheduledWork :=
  op_get blocked ≫= fun m =>
  op_lift (ok_or (m !! turn) turn_not_found) ≫= fun w =>
  ensure_queue_capacity w ≫= fun _ =>
  op_modify (fun s => put_reacquiring (put_blocked s (delete turn (blocked s)))
                        (<[turn := w]> (reacquiring s))) ≫= fun _ =>
  insert_queued now w SReacquiring ≫= fun _ => op_lift (Ok w).

Definition requeue_waiting (now : N) (turn : string) : smethod ScheduledWork :=
  op_get waiting ≫= fun m =>
  op_lift (ok_or (m !! turn) turn_not_found) ≫= fun w =>
  ensure_queue_capacity w ≫= fun _ =>
  op_modify (fun s => put_reacquiring (put_waiting s (delete turn (waiting s)))
                        (<[turn := w]> (reacquiring s))) ≫= fun _ =>
  insert_queued now w SReacquiring ≫= fun _ => op_lift (Ok w).

Definition resume_blocked (turn : string) : smethod RunningWork := fun s =>
  if max_concurrent_agents s <=? active_capacity_used s
  then (s, Err (mkSchedulerError SInvalidState
                  "provider capacity is unavailable for blocked turn resumption"))
  else
  match blocked s !! turn with
  | None => (s, Err turn_not_found)
  | Some w =>
      let s := put_blocked s (delete turn (blocked s)) in
      let s := put_running s (<[turn := w]> (running s)) in
      (put_turn_states s (<[turn := SRunning]> (turn_states s)), Ok w)
  end.

Definition cancel (turn : string) : smethod SchedulerCancellation := fun s =>
  let s := put_human_paused s (human_paused s ∖ {[ turn ]}) in
  if bool_decide (is_Some (queued s !! turn)) then
    let state := turn_states s !! turn in
    match remove_queued turn s with
    | (s, None) =>
        (s, Err (mkSchedulerError SInvalidState "queued scheduler work disappeared during cancellation"))
    | (s, Some w) =>
        let s := if bool_decide (state = Some SReacquiring) then
                   match reacquiring s !! turn with
                   | Some claim => release_claims claim (put_reacquiring s (delete turn (reacquiring s)))
                   | None => s
                   end
                 else s in
        (put_turn_states s (delete turn (turn_states s)), Ok (CancelledQueued w))
    end
  else
  match running s !! turn with
  | Some w =>
      let s := put_running s (delete turn (running s)) in
      let s := put_turn_states s (delete turn (turn_states s)) in
      (release_claims w s, Ok (CancelledRunning w))
  | None =>
  match blocked s !! turn with
  | Some w =>
      let s := put_blocked s (delete turn (blocked s)) in
      let s := put_turn_states s (delete turn (turn_states s)) in
      (release_claims w s, Ok (CancelledBlocked w))
  | None =>
  match waiting s !! turn with
  | Some w =>
      let s := put_waiting s (delete turn (waiting s)) in
      let s := put_turn_states s (delete turn (turn_states s)) in
      (release_claims w s, Ok (CancelledWaiting w))
  | None => (s, Err turn_not_found)
  end end end.

Definition set_human_paused (turn : string) (paused : bool) (s : AgentScheduler) : AgentScheduler :=
  let s := if paused then put_human_paused s (human_paused s ∪ {[ turn ]})
           else put_human_paused s (human_paused s ∖ {[ turn ]}) in
  match queued s !! turn with
  | Some q => refresh_ready_for_agent (agent_id (work q)) s
  | None => s
  end.

(** ** Views *)

Definition queued_turns (s : AgentScheduler) : list ScheduledWork :=
  omap (fun '(_, t) => work <$> queued s !! t)
    (in_order (fun a b : N * string => a.1 <=? b.1) (map_to_list (queued_order s))).

Definition runnable_agent_ids (s : AgentScheduler) : gset string :=
  list_to_set (agent_id <$> List.filter (can_start s) (queued_turns s)).

Definition snapshot (now : N) (s : AgentScheduler) : SchedulerSnapshot :=
  let oldest :=
    match in_order (fun a b : N * string => a.1 <=? b.1) (map_to_list (queued_order s)) with
    | (_, t) :: _ => match queued s !! t with
                     | Some q => N.min u64_max (now - enqueued_at q)
                     | None => 0
                     end
    | [] => 0
    end in
  mkSnapshot (size (queued s)) (queued_bytes s) oldest (size (running s)) (size (blocked s))
    (size (waiting s)) (size (reacquiring s)) (size (running s)) (max_concurrent_agents s)
    (max_queued_turns s) (max_queued_bytes s) (admission_rejections s) (readiness_checks s).
End Scheduler.
