(* ===== verification/SchedulerInv.v ===== *)
(** * Invariants of the agent scheduler

    The lifecycle maps partition the turns, the queue indexes agree with the
    queue, claims are exactly those of the started turns and exclusive, and
    the ready index names, for every agent, its earliest queued turn that can
    start. *)

From S2P Require Import Prelude RustStr Scheduler.
Local Open Scope N_scope.

(** ** The invariant *)

(** A started turn, or one queued to reacquire capacity, owns claims. *)
Definition owner (s : AgentScheduler) (t : string) (w : RunningWork) : Prop :=
  running s !! t = Some w \/ blocked s !! t = Some w \/ waiting s !! t = Some w
  \/ reacquiring s !! t = Some w.

(** A turn is in exactly the maps its state names. *)
Definition state_at (s : AgentScheduler) (t : string) : Prop :=
  match turn_states s !! t with
  | None => queued s !! t = None /\ running s !! t = None /\ blocked s !! t = None
            /\ waiting s !! t = None /\ reacquiring s !! t = None
  | Some SQueued => is_Some (queued s !! t) /\ running s !! t = None /\ blocked s !! t = None
                    /\ waiting s !! t = None /\ reacquiring s !! t = None
  | Some SRunning => queued s !! t = None /\ is_Some (running s !! t) /\ blocked s !! t = None
                     /\ waiting s !! t = None /\ reacquiring s !! t = None
  | Some SBlocked => queued s !! t = None /\ running s !! t = None /\ is_Some (blocked s !! t)
                     /\ waiting s !! t = None /\ reacquiring s !! t = None
  | Some SWaiting => queued s !! t = None /\ running s !! t = None /\ blocked s !! t = None
                     /\ is_Some (waiting s !! t) /\ reacquiring s !! t = None
  | Some SReacquiring =>
      (exists q, queued s !! t = Some q /\ reacquiring s !! t = Some (work q))
      /\ running s !! t = None /\ blocked s !! t = None /\ waiting s !! t = None
  end.

Definition total_bytes (m : gmap string QueuedWork) : N :=
  map_fold (fun _ q acc => estimated_bytes q + acc) 0 m.

(** The queue and its indexes. *)
Record queue_ok (s : AgentScheduler) : Prop := {
  qo_id : forall t q, queued s !! t = Some q -> turn_id (work q) = t;
  qo_order : forall n t, queued_order s !! n = Some t <->
               exists q, queued s !! t = Some q /\ sequence q = n;
  qo_size : size (queued_order s) = size (queued s);
  qo_agent : forall a n t, (n, t) ∈ default ∅ (queued_by_agent s !! a) <->
               exists q, queued s !! t = Some q /\ sequence q = n /\ agent_id (work q) = a;
  qo_pane : forall p t, t ∈ default ∅ (queued_by_pane s !! p) <->
              exists q, queued s !! t = Some q /\ claimed_pane (work q) = Some p;
  qo_bytes : queued_bytes s = total_bytes (queued s) }.

(** Claims: those of the owners, and exclusive. *)
Record claims_ok (s : AgentScheduler) : Prop := {
  co_id : forall t w, owner s t w -> turn_id w = t;
  co_agents : forall a, a ∈ claimed_agents s <-> exists t w, owner s t w /\ agent_id w = a;
  co_panes : forall p, p ∈ claimed_panes s <-> exists t w, owner s t w /\ claimed_pane w = Some p;
  co_agent_once : forall t1 w1 t2 w2, owner s t1 w1 -> owner s t2 w2 -> agent_id w1 = agent_id w2 -> t1 = t2;
  co_pane_once : forall t1 w1 t2 w2 p, owner s t1 w1 -> owner s t2 w2 ->
                   claimed_pane w1 = Some p -> claimed_pane w2 = Some p -> t1 = t2 }.

(** The ready index of an agent: its first entry that can start. *)
Definition ready_exact (s : AgentScheduler) (a : string) : Prop :=
  ready_by_agent s !! a = (first_startable s (agent_entries s a)).1.

Definition order_exact (s : AgentScheduler) : Prop :=
  forall n a t, (n, a, t) ∈ ready_order s <-> ready_by_agent s !! a = Some (n, t).

(** The ready index holds except for the agents of a set. *)
Definition ready_except (A : gset string) (s : AgentScheduler) : Prop :=
  order_exact s /\ forall a, a ∉ A -> ready_exact s a.

(** The counters stay in their types; with a byte limit below the largest
    [usize] an admitted turn never saturates the byte count. *)
Definition bounds_ok (s : AgentScheduler) : Prop :=
  next_sequence s <= u64_max /\ max_queued_turns s <= usize_MAX /\ max_queued_bytes s < usize_MAX.

Record scheduler_ok (s : AgentScheduler) : Prop := {
  so_bounds : bounds_ok s;
  so_states : forall t, state_at s t;
  so_queue : queue_ok s;
  so_claims : claims_ok s;
  so_ready : ready_except ∅ s }.

(** ** Refreshing the ready index *)

(** Changes of the ready index only. *)
Definition ready_only (s s' : AgentScheduler) : Prop :=
  exists by_agent order checks,
    s' = put_readiness_checks (put_ready_order (put_ready_by_agent s by_agent) order) checks.

Lemma ready_only_refl s : ready_only s s.
Proof. exists (ready_by_agent s), (ready_order s), (readiness_checks s). by destruct s. Qed.

Lemma ready_only_trans s1 s2 s3 : ready_only s1 s2 -> ready_only s2 s3 -> ready_only s1 s3.
Proof. intros (a & b & c & ->) (a' & b' & c' & ->). by exists a', b', c'. Qed.

Lemma ready_only_states s s' t : ready_only s s' -> state_at s t -> state_at s' t.
Proof. by intros (a & b & c & ->). Qed.

Lemma ready_only_queue s s' : ready_only s s' -> queue_ok s -> queue_ok s'.
Proof. intros (a & b & c & ->) H. destruct H. constructor; assumption. Qed.

Lemma ready_only_claims s s' : ready_only s s' -> claims_ok s -> claims_ok s'.
Proof. intros (a & b & c & ->) H. destruct H. constructor; assumption. Qed.

Lemma ready_only_bounds s s' : ready_only s s' -> bounds_ok s -> bounds_ok s'.
Proof. by intros (a & b & c & ->). Qed.

Lemma ready_only_startable s s' l : ready_only s s' -> first_startable s' l = first_startable s l.
Proof.
  intros (a & b & c & ->). induction l as [|e l IH]; [done|]. simpl.
  change (entry_can_start _ e) with (entry_can_start s e). by rewrite IH.
Qed.

Lemma ready_only_entries s s' a : ready_only s s' -> agent_entries s' a = agent_entries s a.
Proof. by intros (x & y & c & ->). Qed.

Lemma remove_ready_only a s : ready_only s (remove_ready_agent a s).
Proof.
  unfold remove_ready_agent. destruct (ready_by_agent s !! a) as [[n t]|]; [|apply ready_only_refl].
  by exists (delete a (ready_by_agent s)), (ready_order s ∖ {[ (n, a, t) ]}), (readiness_checks s).
Qed.

Lemma refresh_ready_only a s : ready_only s (refresh_ready_for_agent a s).
Proof.
  unfold refresh_ready_for_agent. eapply ready_only_trans; [apply (remove_ready_only a)|].
  set (s1 := remove_ready_agent a s). destruct (first_startable s1 (agent_entries s1 a)) as [[[n t]|] c].
  - by eexists (<[a := (n, t)]> (ready_by_agent s1)), (ready_order s1 ∪ {[ (n, a, t) ]}), _.
  - by exists (ready_by_agent s1), (ready_order s1), (N.min u64_max (readiness_checks s1 + c)).
Qed.

Lemma remove_ready_spec a s :
  order_exact s ->
  order_exact (remove_ready_agent a s) /\ ready_by_agent (remove_ready_agent a s) = delete a (ready_by_agent s).
Proof.
  intros Ho. unfold remove_ready_agent. destruct (ready_by_agent s !! a) as [[n t]|] eqn:Ha.
  - split; [|done]. intros m b u. simpl. rewrite elem_of_difference, elem_of_singleton, (Ho m b u).
    rewrite lookup_delete_Some. split; [|intros [Hne H]; split; [done|congruence]].
    intros [H Hne]. split; [|done]. intros <-. apply Hne. congruence.
  - split; [done|]. by rewrite delete_id.
Qed.

Lemma refresh_spec a s :
  order_exact s ->
  order_exact (refresh_ready_for_agent a s) /\ ready_exact (refresh_ready_for_agent a s) a
  /\ (forall b, b <> a -> ready_by_agent (refresh_ready_for_agent a s) !! b = ready_by_agent s !! b).
Proof.
  intros Ho. pose proof (refresh_ready_only a s) as Hro.
  unfold ready_exact. rewrite (ready_only_startable _ _ _ Hro), (ready_only_entries _ _ _ Hro).
  pose proof (remove_ready_only a s) as Hrm. unfold refresh_ready_for_agent.
  rewrite (ready_only_entries _ _ _ Hrm), (ready_only_startable _ _ _ Hrm).
  destruct (remove_ready_spec a s Ho) as [Ho1 Hr1]. set (s1 := remove_ready_agent a s) in *.
  destruct (first_startable s (agent_entries s a)) as [[[n t]|] c]; simpl.
  - split; [|split].
    + intros m b u. simpl. rewrite elem_of_union, elem_of_singleton, (Ho1 m b u), Hr1.
      destruct (decide (b = a)) as [->|Hne].
      * rewrite lookup_insert_eq, lookup_delete_eq. split; [intros [?|?]; congruence|].
        intros [= -> ->]. by right.
      * rewrite lookup_insert_ne, lookup_delete_ne by done. split; [intros [?|?]; congruence|by left].
    + by rewrite lookup_insert_eq.
    + intros b Hb. by rewrite lookup_insert_ne, Hr1, lookup_delete_ne.
  - split; [done|]. rewrite Hr1. split; [by rewrite lookup_delete_eq|].
    intros b Hb. by rewrite lookup_delete_ne.
Qed.

Lemma refresh_except A a s : ready_except A s -> ready_except (A ∖ {[ a ]}) (refresh_ready_for_agent a s).
Proof.
  intros [Ho Hr]. destruct (refresh_spec a s Ho) as (Ho' & Ha & Hother). split; [done|].
  intros b Hb. destruct (decide (b = a)) as [->|Hne]; [done|].
  pose proof (refresh_ready_only a s) as Hro. unfold ready_exact.
  rewrite (ready_only_startable _ _ _ Hro), (ready_only_entries _ _ _ Hro), Hother by done.
  apply Hr. set_solver.
Qed.

Lemma refresh_all l : forall A s,
  ready_except A s ->
  ready_except (A ∖ list_to_set l) (foldl (fun s a => refresh_ready_for_agent a s) s l)
  /\ ready_only s (foldl (fun s a => refresh_ready_for_agent a s) s l).
Proof.
  induction l as [|a l IH]; intros A s Hr; simpl.
  - split; [|apply ready_only_refl]. by replace (A ∖ ∅) with A by set_solver.
  - destruct (IH (A ∖ {[ a ]}) (refresh_ready_for_agent a s)) as [H1 H2]; [by apply refresh_except|].
    split; [|eapply ready_only_trans; [apply refresh_ready_only|done]].
    replace (A ∖ ({[ a ]} ∪ list_to_set l)) with (A ∖ {[ a ]} ∖ list_to_set l) by set_solver. done.
Qed.

Lemma refresh_affected_spec w s :
  ready_except (affected_agents w s) s ->
  ready_except ∅ (refresh_affected_readiness w s) /\ ready_only s (refresh_affected_readiness w s).
Proof.
  intros Hr. unfold refresh_affected_readiness.
  destruct (refresh_all (elements (affected_agents w s)) _ s Hr) as [H1 H2]. split; [|done].
  rewrite list_to_set_elements_L in H1. by replace (∅ : gset string) with
    (affected_agents w s ∖ affected_agents w s) by set_solver.
Qed.

(** ** Framing the ready index *)

Lemma elem_of_agent_entries s a e : e ∈ agent_entries s a <-> e ∈ default ∅ (queued_by_agent s !! a).
Proof. unfold agent_entries. rewrite in_order_perm. apply elem_of_elements. Qed.

Lemma first_startable_frame s s' l :
  (forall e, e ∈ l -> entry_can_start s' e = entry_can_start s e) ->
  first_startable s' l = first_startable s l.
Proof.
  induction l as [|e l IH]; intros H; [done|]. simpl. rewrite (H e) by set_solver.
  destruct (entry_can_start s e); [done|]. rewrite IH; [done|]. intros e' He'. apply H. set_solver.
Qed.

(** A change that leaves the ready index alone keeps it right for the agents
    whose entries and their readiness do not change. *)
Lemma ready_frame A s s' :
  ready_except A s -> ready_by_agent s' = ready_by_agent s -> ready_order s' = ready_order s ->
  (forall a, a ∉ A -> default ∅ (queued_by_agent s' !! a) = default ∅ (queued_by_agent s !! a)) ->
  (forall a e, a ∉ A -> e ∈ default ∅ (queued_by_agent s !! a) -> entry_can_start s' e = entry_can_start s e) ->
  ready_except A s'.
Proof.
  intros [Ho Hr] Hb Hord Hix Hcan. split; [unfold order_exact; by rewrite Hb, Hord|].
  intros a Ha. unfold ready_exact. rewrite Hb, (Hr a Ha).
  assert (agent_entries s' a = agent_entries s a) as ->
    by (unfold agent_entries; by rewrite Hix).
  f_equal. symmetry. apply first_startable_frame. intros e He. apply elem_of_agent_entries in He.
  by apply (Hcan a).
Qed.

Lemma ready_except_mono A B s : ready_except A s -> A ⊆ B -> ready_except B s.
Proof. intros [Ho Hr] Hs. split; [done|]. intros a Ha. apply Hr. set_solver. Qed.

(** What [can_start] looks at. *)
Lemma can_start_frame s s' w :
  (turn_id w ∈ human_paused s' <-> turn_id w ∈ human_paused s) ->
  (turn_states s' !! turn_id w = Some SReacquiring <-> turn_states s !! turn_id w = Some SReacquiring) ->
  (agent_id w ∈ claimed_agents s' <-> agent_id w ∈ claimed_agents s) ->
  (forall p, claimed_pane w = Some p -> p ∈ claimed_panes s' <-> p ∈ claimed_panes s) ->
  can_start s' w = can_start s w.
Proof.
  intros Hh Ht Ha Hp. unfold can_start. rewrite (bool_decide_ext _ _ Hh), (bool_decide_ext _ _ Ht),
    (bool_decide_ext _ _ Ha).
  destruct (bool_decide (turn_id w ∈ human_paused s)); [done|].
  destruct (_ && _); [done|]. destruct (bool_decide (kind w = ShellCapable)) eqn:Hk; [|done]. simpl.
  destruct (pane_id w) as [p|] eqn:Hpane; [|done].
  rewrite (bool_decide_ext _ (p ∈ claimed_panes s)); [done|].
  apply Hp. unfold claimed_pane. by rewrite Hk.
Qed.

(** ** Indexes *)

Section Index.
Context {K V : Type} `{Countable K, Countable V}.

Lemma index_insert_elem (m : gmap K (gset V)) k x k' y :
  y ∈ default ∅ (index_insert k x m !! k') <-> (k' = k /\ y = x) \/ y ∈ default ∅ (m !! k').
Proof.
  unfold index_insert. destruct (decide (k' = k)) as [->|Hne].
  - rewrite lookup_insert_eq. simpl. set_solver.
  - rewrite lookup_insert_ne by done. split; [by right|]. intros [[-> _]|]; done.
Qed.

Lemma index_remove_elem (m : gmap K (gset V)) k x k' y :
  y ∈ default ∅ (index_remove k x m !! k') <-> y ∈ default ∅ (m !! k') /\ ~ (k' = k /\ y = x).
Proof.
  unfold index_remove. destruct (m !! k) as [e|] eqn:Hk.
  - case_bool_decide as He.
    + destruct (decide (k' = k)) as [->|Hne].
      * rewrite lookup_delete_eq, Hk. simpl. set_solver.
      * rewrite lookup_delete_ne by done. set_solver.
    + destruct (decide (k' = k)) as [->|Hne].
      * rewrite lookup_insert_eq, Hk. simpl. set_solver.
      * rewrite lookup_insert_ne by done. set_solver.
  - split; [|by intros []]. intros Hy. split; [done|]. intros [-> ->]. rewrite Hk in Hy. set_solver.
Qed.
End Index.

(** The entries of a map that satisfy a property, after a change. *)
Lemma exists_insert {A} (m : gmap string A) t0 x0 t (P : A -> Prop) :
  m !! t0 = None ->
  (exists x, <[t0 := x0]> m !! t = Some x /\ P x) <->
  (t = t0 /\ P x0) \/ (exists x, m !! t = Some x /\ P x).
Proof.
  intros Hn. destruct (decide (t = t0)) as [->|Hne].
  - rewrite lookup_insert_eq, Hn. naive_solver.
  - rewrite lookup_insert_ne by done. naive_solver.
Qed.

Lemma exists_delete {A} (m : gmap string A) t0 t (P : A -> Prop) :
  (exists x, delete t0 m !! t = Some x /\ P x) <-> (exists x, m !! t = Some x /\ P x) /\ t <> t0.
Proof. setoid_rewrite lookup_delete_Some. naive_solver. Qed.

(** ** Bytes *)

Lemma total_bytes_insert m t q :
  m !! t = None -> total_bytes (<[t := q]> m) = estimated_bytes q + total_bytes m.
Proof.
  intros Hm. unfold total_bytes. rewrite map_fold_insert_L; [done| |done].
  intros. lia.
Qed.

Lemma total_bytes_delete m t q :
  m !! t = Some q -> total_bytes m = estimated_bytes q + total_bytes (delete t m).
Proof.
  intros Hm. rewrite <- (insert_delete_id m t q Hm) at 1. rewrite total_bytes_insert; [done|].
  apply lookup_delete_eq.
Qed.

(** ** Sequence numbers *)

Lemma find_sequence_free fuel order n m next :
  find_sequence fuel order n = Some (m, next) -> order !! m = None.
Proof.
  revert n. induction fuel as [|fuel IH]; intros n; simpl; [done|]. case_bool_decide as H; [apply IH|].
  intros [= <- <-]. destruct (order !! n); [|done]. exfalso. eauto.
Qed.

Lemma next_seq_bound n : next_seq n < u64_max + 1.
Proof. unfold next_seq. apply N.mod_lt. by unfold u64_max. Qed.

Lemma find_sequence_next fuel order n m next :
  find_sequence fuel order n = Some (m, next) -> next <= u64_max.
Proof.
  revert n. induction fuel as [|fuel IH]; intros n; simpl; [done|]. case_bool_decide; [apply IH|].
  intros [= <- <-]. pose proof (next_seq_bound n). lia.
Qed.

(** The numbers tried, starting from [n]. *)
Lemma find_sequence_tries fuel order : forall n,
  n <= u64_max -> find_sequence fuel order n = None ->
  forall k, (k < fuel)%nat -> is_Some (order !! ((n + N.of_nat k) mod (u64_max + 1))).
Proof.
  induction fuel as [|fuel IH]; intros n Hn; simpl; [lia|]. case_bool_decide as H; [|done].
  intros Hf k Hk. destruct k as [|k].
  - by rewrite N.add_0_r, N.mod_small by lia.
  - assert (next_seq n <= u64_max) as Hnext by (pose proof (next_seq_bound n); lia).
    assert (k < fuel)%nat as Hk2 by lia.
    pose proof (IH (next_seq n) Hnext Hf k Hk2) as IH2. unfold next_seq in IH2.
    rewrite N.Div0.add_mod_idemp_l in IH2. by replace (n + N.of_nat (S k)) with (n + 1 + N.of_nat k) by lia.
Qed.

(** Residues repeat only after a full period. *)
Lemma mod_window (m x y : N) : x <= y -> y < x + m -> x mod m = y mod m -> x = y.
Proof.
  intros Hxy Hlt E. assert (m <> 0) as Hm by lia.
  pose proof (N.div_mod x m Hm) as Hx. pose proof (N.div_mod y m Hm) as Hy. rewrite E in Hx.
  assert (x / m = y / m) as Hq; [|rewrite Hq in Hx; lia].
  pose proof (N.Div0.div_le_mono x y m Hxy). destruct (N.eq_dec (x / m) (y / m)); [done|].
  assert (m * (x / m + 1) <= m * (y / m)) by (apply N.mul_le_mono_l; lia). lia.
Qed.

(** One more try than there are entries finds a free number. *)
Lemma next_sequence_total s :
  next_sequence s <= u64_max -> N.of_nat (size (queued_order s)) <= u64_max ->
  is_Some (next_available_sequence s).
Proof.
  intros Hn Hs. unfold next_available_sequence.
  destruct (find_sequence _ _ _) as [[m next]|] eqn:Hf; [by eauto|]. exfalso.
  pose proof (find_sequence_tries _ _ _ Hn Hf) as Hall. clear Hf.
  set (fuel := S (size (queued_order s))) in *.
  set (tried := (fun k => (next_sequence s + N.of_nat k) mod (u64_max + 1)) <$> seq 0 fuel).
  assert (NoDup tried) as Hnd.
  { apply NoDup_fmap_2_strong; [|apply NoDup_ListNoDup, seq_NoDup].
    intros i j Hi%elem_of_seq Hj%elem_of_seq Heq.
    destruct (N.le_ge_cases (next_sequence s + N.of_nat i) (next_sequence s + N.of_nat j)) as [Hle|Hle].
    - apply mod_window in Heq; lia.
    - symmetry in Heq. apply mod_window in Heq; lia. }
  assert (list_to_set tried ⊆ dom (queued_order s)) as Hsub.
  { intros x Hx%elem_of_list_to_set. apply list_elem_of_fmap in Hx as (k & -> & Hk%elem_of_seq).
    apply elem_of_dom. apply Hall. lia. }
  apply subseteq_size in Hsub. rewrite size_list_to_set, size_dom in Hsub by done.
  unfold tried in Hsub. rewrite length_fmap, length_seq in Hsub. unfold fuel in Hsub. lia.
Qed.

(** ** Changing the queue *)

(** [ready_frame] when the queue does not change. *)
Lemma ready_frame_queue A s s' :
  queue_ok s -> ready_except A s ->
  ready_by_agent s' = ready_by_agent s -> ready_order s' = ready_order s ->
  queued s' = queued s -> queued_by_agent s' = queued_by_agent s ->
  (forall t q, queued s !! t = Some q -> agent_id (work q) ∉ A ->
     can_start s' (work q) = can_start s (work q)) ->
  ready_except A s'.
Proof.
  intros Hq Hr Hb Ho Hqueue Hix Hcan. apply (ready_frame _ s); [done..|by rewrite Hix|].
  intros a [n t] Ha (q & Hqt & Hn & Hag)%(qo_agent s Hq). unfold entry_can_start. simpl.
  rewrite Hqueue, Hqt. apply (Hcan t); [done|]. by rewrite Hag.
Qed.

Section Queue.
Context (size_of_work : N).

Lemma insert_queue_ok now seq w st s :
  queue_ok s -> queued s !! turn_id w = None -> queued_order s !! seq = None ->
  queued_bytes s + estimated_work_bytes size_of_work w <= usize_MAX ->
  queue_ok (insert_with_sequence size_of_work now seq w st s).
Proof.
  intros Hq Hnew Hseq Hb. unfold insert_with_sequence.
  apply (ready_only_queue _ _ (refresh_ready_only _ _)).
  constructor; destruct (claimed_pane w) as [p|] eqn:Hp; simpl.
  1,2: intros t q; rewrite lookup_insert_Some; intros [[<- <-]|[_ H]]; [done|by apply (qo_id s Hq)].
  1,2: intros n t; rewrite exists_insert, <- (qo_order s Hq), lookup_insert_Some by done; simpl;
       destruct (decide (n = seq)) as [->|]; rewrite ?Hseq; naive_solver.
  1,2: by rewrite !map_size_insert_None, (qo_size s Hq).
  1,2: intros a n t; rewrite index_insert_elem, exists_insert, (qo_agent s Hq) by done; simpl; naive_solver.
  1,2: intros p' t; rewrite ?index_insert_elem, exists_insert, (qo_pane s Hq) by done; simpl;
       rewrite ?Hp; naive_solver.
  1,2: unfold usat_add; rewrite total_bytes_insert, <- (qo_bytes s Hq) by done; simpl; lia.
Qed.

Lemma insert_ready_ok now seq w st s :
  queue_ok s -> ready_except ∅ s -> queued s !! turn_id w = None ->
  ready_except ∅ (insert_with_sequence size_of_work now seq w st s).
Proof.
  intros Hq Hr Hnew. unfold insert_with_sequence.
  replace (∅ : gset string) with ({[ agent_id w ]} ∖ {[ agent_id w ]} : gset string) by set_solver.
  apply refresh_except. apply (ready_frame _ s); [apply (ready_except_mono ∅); set_solver| | | |].
  1,2: by destruct (claimed_pane w).
  - intros a Ha. apply set_eq. intros e. destruct (claimed_pane w); simpl; rewrite index_insert_elem; set_solver.
  - intros a [n t] Ha (q & Hqt & _)%(qo_agent s Hq). pose proof (qo_id s Hq t q Hqt) as Hid.
    assert (t <> turn_id w) as Hne by congruence. unfold entry_can_start.
    destruct (claimed_pane w); simpl; rewrite lookup_insert_ne, Hqt by done; apply can_start_frame; simpl;
      rewrite ?lookup_insert_ne by congruence; done.
Qed.
End Queue.

(** The queue without a turn. *)
Definition dequeued (t : string) (q : QueuedWork) (s : AgentScheduler) : AgentScheduler :=
  let s := put_queued s (delete t (queued s)) in
  let s := put_queued_order s (delete (sequence q) (queued_order s)) in
  let s := put_queued_by_agent s (index_remove (agent_id (work q)) (sequence q, t) (queued_by_agent s)) in
  let s := match claimed_pane (work q) with
           | Some p => put_queued_by_pane s (index_remove p t (queued_by_pane s))
           | None => s
           end in
  put_queued_bytes s (queued_bytes s - estimated_bytes q).

Lemma dequeued_ok t q s : queue_ok s -> queued s !! t = Some q -> queue_ok (dequeued t q s).
Proof.
  intros Hq Ht. assert (queued_order s !! sequence q = Some t) as Hord by (apply (qo_order s Hq); eauto).
  unfold dequeued. constructor; destruct (claimed_pane (work q)) as [p|] eqn:Hp; simpl.
  1,2: intros u r; rewrite lookup_delete_Some; intros [_ H]; by apply (qo_id s Hq).
  1,2: intros n u; rewrite exists_delete, <- (qo_order s Hq), lookup_delete_Some; split;
       [intros [Hne H]; split; [done|]; intros ->; apply (qo_order s Hq) in H as (r & ? & <-); congruence
       |intros [H Hne]; split; [congruence|done]].
  1,2: by rewrite !map_size_delete, Ht, Hord, (qo_size s Hq).
  1,2: intros a n u; rewrite index_remove_elem, exists_delete, (qo_agent s Hq); split;
       [intros [H Hne]; split; [done|]; intros ->; naive_solver|intros [H Hne]; split; [done|]; naive_solver].
  1,2: intros p' u; rewrite ?index_remove_elem, exists_delete, (qo_pane s Hq); naive_solver.
  1,2: rewrite (qo_bytes s Hq), (total_bytes_delete _ _ _ Ht); lia.
Qed.

Lemma dequeued_ready t q s :
  queue_ok s -> ready_except {[ agent_id (work q) ]} s -> queued s !! t = Some q ->
  ready_except {[ agent_id (work q) ]} (dequeued t q s).
Proof.
  intros Hq Hr Ht. unfold dequeued. apply (ready_frame _ s); [done| | | |].
  1,2: by destruct (claimed_pane (work q)).
  - intros a Ha. apply set_eq. intros e. destruct (claimed_pane (work q)); simpl; rewrite index_remove_elem; set_solver.
  - intros a [n u] Ha (r & Hru & _ & Hag)%(qo_agent s Hq).
    assert (u <> t) as Hne by (intros ->; assert (r = q) as -> by congruence; set_solver).
    unfold entry_can_start. destruct (claimed_pane (work q)); simpl; by rewrite lookup_delete_ne, Hru.
Qed.

(** Removing a queued turn: the queue loses it, the ready index follows, and
    nothing else changes. *)
Lemma remove_queued_spec t q s :
  queue_ok s -> ready_except {[ agent_id (work q) ]} s -> queued s !! t = Some q ->
  exists s', remove_queued t s = (s', Some (work q)) /\ ready_only (dequeued t q s) s'
    /\ queue_ok s' /\ ready_except ∅ s'.
Proof.
  intros Hq Hr Ht. unfold remove_queued. rewrite Ht. eexists. split; [reflexivity|].
  change (put_queued_bytes _ _) with (dequeued t q s).
  assert (ready_only (dequeued t q s) (refresh_ready_for_agent (agent_id (work q))
            (remove_ready_agent (agent_id (work q)) (dequeued t q s)))) as Hro.
  { eapply ready_only_trans; [apply remove_ready_only|apply refresh_ready_only]. }
  split; [exact Hro|]. split; [apply (ready_only_queue _ _ Hro); by apply dequeued_ok|].
  replace (∅ : gset string) with ({[ agent_id (work q) ]} ∖ {[ agent_id (work q) ]} : gset string) by set_solver.
  apply refresh_except. destruct (dequeued_ready t q s Hq Hr Ht) as [Ho Hx].
  destruct (remove_ready_spec (agent_id (work q)) _ Ho) as [Ho' Hdel]. split; [done|].
  intros a Ha. pose proof (remove_ready_only (agent_id (work q)) (dequeued t q s)) as Hrm. unfold ready_exact.
  rewrite Hdel, (ready_only_startable _ _ _ Hrm), (ready_only_entries _ _ _ Hrm), lookup_delete_ne by set_solver.
  by apply Hx.
Qed.

(** ** Changing claims *)

Lemma affected_agent w s : agent_id w ∈ affected_agents w s.
Proof. unfold affected_agents. set_solver. Qed.

Lemma affected_pane w s t q p :
  queue_ok s -> queued s !! t = Some q -> claimed_pane (work q) = Some p -> claimed_pane w = Some p ->
  agent_id (work q) ∈ affected_agents w s.
Proof.
  intros Hq Ht Hp Hw. unfold affected_agents. rewrite Hw. apply elem_of_union_r, elem_of_list_to_set.
  apply list_elem_of_omap. exists t. rewrite Ht. split; [|done].
  apply elem_of_elements, (qo_pane s Hq). eauto.
Qed.

(** Changes of claims of one unit of work can change the readiness of the
    agents it affects only. *)
Lemma ready_claims w s s' :
  queue_ok s -> ready_except ∅ s ->
  ready_by_agent s' = ready_by_agent s -> ready_order s' = ready_order s ->
  queued s' = queued s -> queued_by_agent s' = queued_by_agent s -> queued_by_pane s' = queued_by_pane s ->
  (forall t q, queued s !! t = Some q ->
     (t ∈ human_paused s' <-> t ∈ human_paused s) /\ turn_states s' !! t = turn_states s !! t) ->
  (forall a, a <> agent_id w -> a ∈ claimed_agents s' <-> a ∈ claimed_agents s) ->
  (forall p, claimed_pane w <> Some p -> p ∈ claimed_panes s' <-> p ∈ claimed_panes s) ->
  ready_except (affected_agents w s') s'.
Proof.
  intros Hq Hr Hb Ho Hqq Hqa Hqp Hturn Hca Hcp.
  assert (affected_agents w s' = affected_agents w s) as -> by (unfold affected_agents; by rewrite Hqq, Hqp).
  apply (ready_frame_queue _ s); [done|apply (ready_except_mono ∅); set_solver|done..|].
  intros t q Ht Hag. pose proof (qo_id s Hq t q Ht) as Hid. destruct (Hturn t q Ht) as [Hh Hst].
  apply can_start_frame; rewrite ?Hid, ?Hst; [done..| |].
  - apply Hca. intros E. apply Hag. rewrite E. apply affected_agent.
  - intros p Hp. apply Hcp. intros Hw. apply Hag. by eapply affected_pane.
Qed.

Lemma claims_ext s s' :
  claims_ok s -> (forall t w, owner s' t w <-> owner s t w) ->
  claimed_agents s' = claimed_agents s -> claimed_panes s' = claimed_panes s -> claims_ok s'.
Proof.
  intros [H1 H2 H3 H4 H5] Ho Ha Hp. constructor; rewrite ?Ha, ?Hp; setoid_rewrite Ho; assumption.
Qed.

(** The state with the claims of a unit of work dropped or added. *)
Definition unclaimed (w : RunningWork) (s : AgentScheduler) : AgentScheduler :=
  let s := put_claimed_agents s (claimed_agents s ∖ {[ agent_id w ]}) in
  match claimed_pane w with
  | Some p => put_claimed_panes s (claimed_panes s ∖ {[ p ]})
  | None => s
  end.

Lemma owner_unique s t v w : state_at s t -> owner s t v -> owner s t w -> v = w.
Proof.
  unfold state_at, owner. destruct (turn_states s !! t) as [[]|]; naive_solver.
Qed.

Lemma unclaimed_ok t w s s0 :
  claims_ok s -> state_at s t -> owner s t w ->
  (forall u v, owner s0 u v <-> owner s u v /\ u <> t) ->
  claimed_agents s0 = claimed_agents s -> claimed_panes s0 = claimed_panes s ->
  claims_ok (unclaimed w s0).
Proof.
  intros Hc Hst Hw Ho Ha Hp.
  assert (forall u v, owner (unclaimed w s0) u v <-> owner s u v /\ u <> t) as Ho'
    by (intros u v; rewrite <- Ho; unfold unclaimed; by destruct (claimed_pane w)).
  pose proof (co_agent_once s Hc) as Hao. pose proof (co_pane_once s Hc) as Hpo.
  constructor; setoid_rewrite Ho'; [|intros a|intros p|naive_solver..].
  - intros u v [H _]. by apply (co_id s Hc).
  - transitivity (a ∈ claimed_agents s ∖ {[ agent_id w ]}).
    { unfold unclaimed. destruct (claimed_pane w); simpl; by rewrite Ha. }
    rewrite elem_of_difference, elem_of_singleton, (co_agents s Hc). split.
    + intros [(u & v & Hv & <-) Hne]. exists u, v. split; [split; [done|]|done]. intros ->. apply Hne.
      by rewrite (owner_unique s t v w).
    + intros (u & v & [Hv Hne] & <-). split; [eauto|]. intros E. apply Hne. by eapply Hao.
  - transitivity (p ∈ claimed_panes s /\ claimed_pane w <> Some p).
    { unfold unclaimed. destruct (claimed_pane w); simpl; rewrite Hp; set_solver. }
    rewrite (co_panes s Hc). split.
    + intros [(u & v & Hv & Hvp) Hne]. exists u, v. split; [split; [done|]|done]. intros ->. apply Hne.
      by rewrite <- (owner_unique s t v w).
    + intros (u & v & [Hv Hne] & Hvp). split; [eauto|]. intros E. apply Hne. by eapply Hpo.
Qed.

Lemma claimed_ok t w s s0 :
  claims_ok s -> turn_id w = t -> agent_id w ∉ claimed_agents s ->
  (forall p, claimed_pane w = Some p -> p ∉ claimed_panes s) ->
  (forall u v, owner s0 u v <-> owner s u v \/ (u = t /\ v = w)) ->
  claimed_agents s0 = claimed_agents (claim_work w s) ->
  claimed_panes s0 = claimed_panes (claim_work w s) ->
  claims_ok s0.
Proof.
  intros Hc Hid Hag Hpane Ho Ha Hp. pose proof (co_agent_once s Hc) as Hao. pose proof (co_pane_once s Hc) as Hpo.
  assert (forall u v, owner s u v -> agent_id v <> agent_id w) as Hother.
  { intros u v Hv E. apply Hag, (co_agents s Hc). eauto. }
  assert (forall u v p, owner s u v -> claimed_pane v = Some p -> claimed_pane w <> Some p) as Hotherp.
  { intros u v p Hv E E'. apply (Hpane p E'), (co_panes s Hc). eauto. }
  constructor; setoid_rewrite Ho; [|intros a|intros p| |].
  - intros u v [H|[-> ->]]; [by apply (co_id s Hc)|done].
  - rewrite Ha. transitivity (a ∈ claimed_agents s ∪ {[ agent_id w ]}).
    { unfold claim_work. by destruct (claimed_pane w). }
    rewrite elem_of_union, elem_of_singleton, (co_agents s Hc). naive_solver.
  - rewrite Hp. transitivity (p ∈ claimed_panes s \/ claimed_pane w = Some p).
    { unfold claim_work. destruct (claimed_pane w); simpl; set_solver. }
    rewrite (co_panes s Hc). naive_solver.
  - intros t1 w1 t2 w2 [H1|[-> ->]] [H2|[-> ->]] E; [by eapply Hao|..|done];
      exfalso; [by eapply Hother|by eapply Hother].
  - intros t1 w1 t2 w2 p [H1|[-> ->]] [H2|[-> ->]] E1 E2; [by eapply Hpo|..|done];
      exfalso; [by eapply (Hotherp t1 w1)|by eapply (Hotherp t2 w2)].
Qed.

(** Releasing the claims of a turn that has just left its map. *)
Lemma release_spec t w s s0 :
  claims_ok s -> state_at s t -> owner s t w ->
  (forall u v, owner s0 u v <-> owner s u v /\ u <> t) ->
  claimed_agents s0 = claimed_agents s -> claimed_panes s0 = claimed_panes s ->
  queue_ok s0 -> ready_except ∅ s0 ->
  ready_only (unclaimed w s0) (release_claims w s0)
  /\ claims_ok (release_claims w s0) /\ queue_ok (release_claims w s0) /\ ready_except ∅ (release_claims w s0).
Proof.
  intros Hc Hst Hw Ho Ha Hp Hq Hr. 
  change (release_claims w s0) with (refresh_affected_readiness w (unclaimed w s0)).
  destruct (refresh_affected_spec w (unclaimed w s0)) as [Hr' Hro].
  { apply (ready_claims w s0); [done|done|..]; unfold unclaimed; destruct (claimed_pane w) eqn:E; simpl;
      try done; set_solver. }
  split; [done|]. split; [apply (ready_only_claims _ _ Hro); by eapply unclaimed_ok|]. split; [|done].
  apply (ready_only_queue _ _ Hro). destruct Hq. unfold unclaimed. by destruct (claimed_pane w); constructor.
Qed.
