(* ===== verification/SchedulerSteps.v ===== *)
(** * Steps of the agent scheduler

    Every method of the scheduler keeps [scheduler_ok], with what it returns
    and what it changes. *)

From S2P Require Import Prelude RustStr Scheduler SchedulerInv.
Local Open Scope N_scope.

(** ** Steps that leave the queue alone *)

Definition same_queue (s s' : AgentScheduler) : Prop :=
  queued s' = queued s /\ queued_order s' = queued_order s /\ queued_by_agent s' = queued_by_agent s
  /\ queued_by_pane s' = queued_by_pane s /\ queued_bytes s' = queued_bytes s
  /\ ready_by_agent s' = ready_by_agent s /\ ready_order s' = ready_order s
  /\ next_sequence s' = next_sequence s /\ max_queued_turns s' = max_queued_turns s
  /\ max_queued_bytes s' = max_queued_bytes s.

Lemma same_queue_ok s s' : same_queue s s' -> queue_ok s -> queue_ok s'.
Proof.
  intros (H1 & H2 & H3 & H4 & H5 & _) [Q1 Q2 Q3 Q4 Q5 Q6].
  constructor; rewrite ?H1, ?H2, ?H3, ?H4, ?H5; assumption.
Qed.

Lemma same_queue_bounds s s' : same_queue s s' -> bounds_ok s -> bounds_ok s'.
Proof. intros (_ & _ & _ & _ & _ & _ & _ & H1 & H2 & H3). unfold bounds_ok. by rewrite H1, H2, H3. Qed.

(** A change of the pause flag and state of a turn that is not queued. *)
Definition same_turns (t : string) (s s' : AgentScheduler) : Prop :=
  forall u, u <> t -> (u ∈ human_paused s' <-> u ∈ human_paused s) /\ turn_states s' !! u = turn_states s !! u.

Lemma same_queue_ready t s s' :
  same_queue s s' -> queue_ok s -> queued s !! t = None -> same_turns t s s' ->
  claimed_agents s' = claimed_agents s -> claimed_panes s' = claimed_panes s ->
  ready_except ∅ s -> ready_except ∅ s'.
Proof.
  intros (H1 & H2 & H3 & H4 & H5 & H6 & H7 & _) Hq Ht Hturns Ha Hp Hr.
  apply (ready_frame_queue _ s); [done..|]. intros u q Hu _. pose proof (qo_id s Hq u q Hu) as Hid.
  destruct (Hturns u) as [Hh Hst]; [congruence|].
  apply can_start_frame; rewrite ?Hid, ?Hst, ?Ha, ?Hp; done.
Qed.

(** A started turn moves between the maps of owners. *)
Lemma move_ok t s s' :
  scheduler_ok s -> same_queue s s' -> queued s !! t = None -> same_turns t s s' ->
  claimed_agents s' = claimed_agents s -> claimed_panes s' = claimed_panes s ->
  (forall u v, owner s' u v <-> owner s u v) -> (forall u, state_at s' u) ->
  scheduler_ok s'.
Proof.
  intros [Hb Hs Hq Hc Hr] Hsame Ht Hturns Ha Hp Ho Hs'. constructor; [|done|..].
  - by apply (same_queue_bounds s).
  - by apply (same_queue_ok s).
  - by apply (claims_ext s).
  - by apply (same_queue_ready t s).
Qed.

(** Case analysis on one turn of the lifecycle maps. *)
Ltac at_turn u t :=
  destruct (decide (u = t)) as [->|];
  [rewrite ?lookup_insert_eq, ?lookup_delete_eq in *
  |rewrite ?lookup_insert_ne, ?lookup_delete_ne in * by done].

(** [state_at] after a step that changes turn [t] only. *)
Ltac state_step Hs u t :=
  pose proof (Hs u) as Hu; unfold state_at in *; simpl in *; at_turn u t; naive_solver.

Lemma running_state s t w :
  state_at s t -> running s !! t = Some w ->
  turn_states s !! t = Some SRunning /\ queued s !! t = None /\ blocked s !! t = None
  /\ waiting s !! t = None /\ reacquiring s !! t = None.
Proof. unfold state_at. intros H Hr. destruct (turn_states s !! t) as [[]|]; naive_solver. Qed.

Lemma blocked_state s t w :
  state_at s t -> blocked s !! t = Some w ->
  turn_states s !! t = Some SBlocked /\ queued s !! t = None /\ running s !! t = None
  /\ waiting s !! t = None /\ reacquiring s !! t = None.
Proof. unfold state_at. intros H Hr. destruct (turn_states s !! t) as [[]|]; naive_solver. Qed.

Lemma waiting_state s t w :
  state_at s t -> waiting s !! t = Some w ->
  turn_states s !! t = Some SWaiting /\ queued s !! t = None /\ running s !! t = None
  /\ blocked s !! t = None /\ reacquiring s !! t = None.
Proof. unfold state_at. intros H Hr. destruct (turn_states s !! t) as [[]|]; naive_solver. Qed.

Lemma block_running_ok t s : scheduler_ok s -> scheduler_ok (block_running t s).1.
Proof.
  intros Hok. pose proof Hok as [Hb Hs Hq Hc Hr]. unfold block_running.
  destruct (running s !! t) as [w|] eqn:Ht; [|done]. cbn [fst].
  destruct (running_state s t w (Hs t) Ht) as (Hst & Hqt & Hbt & Hwt & Hrt).
  apply (move_ok t s); [done|done|done| |done|done| |].
  - intros u Hu. simpl. by rewrite lookup_insert_ne.
  - intros u v. unfold owner. simpl. at_turn u t; naive_solver.
  - intros u. state_step Hs u t.
Qed.

Lemma wait_running_ok t s : scheduler_ok s -> scheduler_ok (wait_running t s).1.
Proof.
  intros Hok. pose proof Hok as [Hb Hs Hq Hc Hr]. unfold wait_running.
  destruct (running s !! t) as [w|] eqn:Ht; [|done]. cbn [fst].
  destruct (running_state s t w (Hs t) Ht) as (Hst & Hqt & Hbt & Hwt & Hrt).
  apply (move_ok t s); [done|done|done| |done|done| |].
  - intros u Hu. simpl. by rewrite lookup_insert_ne.
  - intros u v. unfold owner. simpl. at_turn u t; naive_solver.
  - intros u. state_step Hs u t.
Qed.

Lemma resume_blocked_ok t s : scheduler_ok s -> scheduler_ok (resume_blocked t s).1.
Proof.
  intros Hok. pose proof Hok as [Hb Hs Hq Hc Hr]. unfold resume_blocked.
  destruct (_ <=? _); [done|]. destruct (blocked s !! t) as [w|] eqn:Ht; [|done]. cbn [fst].
  destruct (blocked_state s t w (Hs t) Ht) as (Hst & Hqt & Hbt & Hwt & Hrt).
  apply (move_ok t s); [done|done|done| |done|done| |].
  - intros u Hu. simpl. by rewrite lookup_insert_ne.
  - intros u v. unfold owner. simpl. at_turn u t; naive_solver.
  - intros u. state_step Hs u t.
Qed.

(** ** Steps that release claims *)

(** A started turn leaves its map and its claims are released. *)
Lemma release_ok t w s s0 :
  scheduler_ok s -> owner s t w -> queued s !! t = None -> same_queue s s0 -> same_turns t s s0 ->
  claimed_agents s0 = claimed_agents s -> claimed_panes s0 = claimed_panes s ->
  (forall u v, owner s0 u v <-> owner s u v /\ u <> t) -> (forall u, state_at s0 u) ->
  scheduler_ok (release_claims w s0).
Proof.
  intros [Hb Hs Hq Hc Hr] Hw Ht Hsame Hturns Ha Hp Ho Hs0.
  destruct (release_spec t w s s0) as (Hro & Hc' & Hq' & Hr'); [done..| | |].
  - by apply (same_queue_ok s).
  - by apply (same_queue_ready t s).
  - constructor; [| |done..].
    + apply (ready_only_bounds _ _ Hro). apply (same_queue_bounds _ _ Hsame) in Hb.
      unfold unclaimed. by destruct (claimed_pane w).
    + intros u. apply (ready_only_states _ _ u Hro). unfold unclaimed. destruct (claimed_pane w); apply Hs0.
Qed.

Lemma complete_ok t s : scheduler_ok s -> scheduler_ok (complete t s).1.
Proof.
  intros Hok. pose proof Hok as [Hb Hs Hq Hc Hr]. unfold complete.
  destruct (running s !! t) as [w|] eqn:Ht; [|done]. cbn [fst].
  destruct (running_state s t w (Hs t) Ht) as (Hst & Hqt & Hbt & Hwt & Hrt).
  apply (release_ok t w s); [done|by left|done|done| |done|done| |].
  - intros u Hu. simpl. rewrite lookup_delete_ne by done. set_solver.
  - intros u v. unfold owner. simpl. at_turn u t; naive_solver.
  - intros u. state_step Hs u t.
Qed.

Lemma unpaused_ok t s :
  scheduler_ok s -> queued s !! t = None -> scheduler_ok (put_human_paused s (human_paused s ∖ {[ t ]})).
Proof.
  intros Hok Ht. pose proof Hok as [Hb Hs Hq Hc Hr].
  apply (move_ok t s); [done|done|done| |done..]. intros u Hu. simpl. set_solver.
Qed.

(** ** Cancelling a queued turn *)

(** The turn leaves the queue: what the rest of the state becomes. *)
Lemma dequeued_rest t q s :
  owner (dequeued t q s) = owner s /\ turn_states (dequeued t q s) = turn_states s
  /\ claimed_agents (dequeued t q s) = claimed_agents s /\ claimed_panes (dequeued t q s) = claimed_panes s
  /\ human_paused (dequeued t q s) = human_paused s /\ queued (dequeued t q s) = delete t (queued s).
Proof. unfold dequeued, owner. by destruct (claimed_pane (work q)). Qed.

(** A turn that has left every map loses its state. *)
Lemma forget_ok t s :
  bounds_ok s -> queue_ok s -> claims_ok s -> ready_except ∅ s -> queued s !! t = None ->
  (forall u, state_at (put_turn_states s (delete t (turn_states s))) u) ->
  scheduler_ok (put_turn_states s (delete t (turn_states s))).
Proof.
  intros Hb Hq Hc Hr Ht Hs. constructor; [done|done|by apply (same_queue_ok s)|by apply (claims_ext s)|].
  apply (same_queue_ready t s); try done. intros u Hu. simpl. by rewrite lookup_delete_ne.
Qed.

Lemma dequeue_spec t q s :
  bounds_ok s -> queue_ok s -> claims_ok s -> ready_except {[ agent_id (work q) ]} s ->
  queued s !! t = Some q ->
  exists s', remove_queued t s = (s', Some (work q)) /\ ready_only (dequeued t q s) s'
    /\ bounds_ok s' /\ queue_ok s' /\ claims_ok s' /\ ready_except ∅ s'.
Proof.
  intros Hb Hq Hc Hr Ht. destruct (remove_queued_spec t q s) as (s2 & -> & Hro & Hq2 & Hr2); [done..|].
  exists s2. split; [done|]. split; [done|]. split; [|split; [done|split; [|done]]].
  - apply (ready_only_bounds _ _ Hro). unfold dequeued. by destruct (claimed_pane (work q)).
  - destruct (dequeued_rest t q s) as (E1 & E2 & E3 & E4 & E5 & E6).
    apply (ready_only_claims _ _ Hro), (claims_ext s); [done|by rewrite E1|done..].
Qed.

(** Unpausing the turn first can only change the readiness of its agent. *)
Lemma unpause_ready t q s :
  queue_ok s -> ready_except ∅ s -> queued s !! t = Some q ->
  ready_except {[ agent_id (work q) ]} (put_human_paused s (human_paused s ∖ {[ t ]})).
Proof.
  intros Hq Hr Ht. apply (ready_frame_queue _ s); [done|apply (ready_except_mono ∅); set_solver|done..|].
  intros u r Hu Ha. pose proof (qo_id s Hq u r Hu) as Hid. apply can_start_frame; try done.
  rewrite Hid. simpl. assert (u <> t) by (intros ->; apply Ha; assert (r = q) as -> by congruence; set_solver).
  set_solver.
Qed.

Lemma cancel_queued_ok t q s :
  scheduler_ok s -> queued s !! t = Some q ->
  scheduler_ok (cancel t s).1 /\ (cancel t s).2 = Ok (CancelledQueued (work q)).
Proof.
  intros [Hb Hs Hq Hc Hr] Ht. unfold cancel. set (s1 := put_human_paused s (human_paused s ∖ {[ t ]})).
  change (queued s1) with (queued s). rewrite bool_decide_true by eauto.
  destruct (dequeue_spec t q s1) as (s2 & -> & Hro & Hb2 & Hq2 & Hc2 & Hr2);
    [done|by apply (same_queue_ok s)|by apply (claims_ext s)|by apply unpause_ready|done|].
  cbn zeta. change (turn_states s1) with (turn_states s).
  destruct (dequeued_rest t q s1) as (_ & _ & _ & _ & _ & E6).
  assert (queued s2 = delete t (queued s)) as Hqd by (destruct Hro as (? & ? & ? & ->); exact E6).
  pose proof (Hs t) as Hat. unfold state_at in Hat.
  destruct (turn_states s !! t) as [[]|] eqn:Hst; try naive_solver.
  - rewrite bool_decide_false by done. split; [|done].
    apply forget_ok; [done..|by rewrite Hqd, lookup_delete_eq|].
    intros u. destruct Hro as (x & y & z & ->). pose proof (Hs u) as Hu. unfold state_at, dequeued in *.
    destruct (claimed_pane (work q)); simpl in *; at_turn u t; naive_solver.
  - rewrite bool_decide_true by done. split; [|by repeat case_match].
    destruct Hat as ((q' & Hq' & Hre) & Hrun & Hbl & Hwa). assert (q' = q) as -> by congruence.
    assert (reacquiring s2 = reacquiring s) as Hre2.
    { destruct Hro as (? & ? & ? & ->). unfold dequeued. by destruct (claimed_pane (work q)). }
    rewrite Hre2, Hre.
    destruct (release_spec t (work q) s (put_reacquiring s2 (delete t (reacquiring s))))
      as (Hro3 & Hc3 & Hq3 & Hr3); [done|by apply Hs|by right; right; right| | | |by apply (same_queue_ok s2)
        |by apply (same_queue_ready t s2); try done; rewrite Hqd, lookup_delete_eq|].
    1-3: destruct Hro as (? & ? & ? & ->); unfold dequeued, owner; destruct (claimed_pane (work q)); try done;
         intros u v; simpl; at_turn u t; naive_solver.
    apply forget_ok; [|done..| |].
    + apply (ready_only_bounds _ _ Hro3). unfold unclaimed. by destruct (claimed_pane (work q)).
    + destruct Hro3 as (? & ? & ? & ->). unfold unclaimed. destruct (claimed_pane (work q)); simpl;
        by rewrite Hqd, lookup_delete_eq.
    + intros u. destruct Hro3 as (x3 & y3 & z3 & ->), Hro as (x & y & z & ->). pose proof (Hs u) as Hu.
      unfold state_at, unclaimed, dequeued in *.
      destruct (claimed_pane (work q)); simpl in *; at_turn u t; naive_solver.
Qed.

(** What [cancel] returns. *)
Definition cancellation (t : string) (s : AgentScheduler) : outcome SchedulerError SchedulerCancellation :=
  match queued s !! t, running s !! t, blocked s !! t, waiting s !! t with
  | Some q, _, _, _ => Ok (CancelledQueued (work q))
  | None, Some w, _, _ => Ok (CancelledRunning w)
  | None, None, Some w, _ => Ok (CancelledBlocked w)
  | None, None, None, Some w => Ok (CancelledWaiting w)
  | None, None, None, None => Err turn_not_found
  end.

Lemma cancel_ok t s : scheduler_ok s -> scheduler_ok (cancel t s).1 /\ (cancel t s).2 = cancellation t s.
Proof.
  intros Hok. unfold cancellation. destruct (queued s !! t) as [q|] eqn:Ht; [by apply cancel_queued_ok|].
  pose proof (unpaused_ok t s Hok Ht) as Hok1. unfold cancel.
  set (s1 := put_human_paused s (human_paused s ∖ {[ t ]})) in *.
  change (queued s1) with (queued s). rewrite Ht, bool_decide_false by (by intros [? ?]). simpl.
  pose proof Hok as [Hb Hs Hq Hc Hr].
  destruct (running s !! t) as [w|] eqn:Hrun; [|destruct (blocked s !! t) as [w|] eqn:Hbl;
    [|destruct (waiting s !! t) as [w|] eqn:Hwa; [|done]]]; (split; [|done]).
  - destruct (running_state s t w (Hs t) Hrun) as (Hst & Hqt & Hbt & Hwt & Hrt).
    apply (release_ok t w s1); [done|by left|done|done| |done|done| |].
    + intros u Hu. simpl. by rewrite lookup_delete_ne.
    + intros u v. unfold owner. simpl. at_turn u t; naive_solver.
    + intros u. state_step Hs u t.
  - destruct (blocked_state s t w (Hs t) Hbl) as (Hst & Hqt & Hbt & Hwt & Hrt).
    apply (release_ok t w s1); [done|by right; left|done|done| |done|done| |].
    + intros u Hu. simpl. by rewrite lookup_delete_ne.
    + intros u v. unfold owner. simpl. at_turn u t; naive_solver.
    + intros u. state_step Hs u t.
  - destruct (waiting_state s t w (Hs t) Hwa) as (Hst & Hqt & Hbt & Hwt & Hrt).
    apply (release_ok t w s1); [done|by right; right; left|done|done| |done|done| |].
    + intros u Hu. simpl. by rewrite lookup_delete_ne.
    + intros u v. unfold owner. simpl. at_turn u t; naive_solver.
    + intros u. state_step Hs u t.
Qed.

(** ** Pausing and limits *)

Lemma set_human_paused_ok t paused s : scheduler_ok s -> scheduler_ok (set_human_paused t paused s).
Proof.
  intros Hok. pose proof Hok as [Hb Hs Hq Hc Hr]. unfold set_human_paused.
  assert (exists hp, (if paused then put_human_paused s (human_paused s ∪ {[ t ]})
                      else put_human_paused s (human_paused s ∖ {[ t ]})) = put_human_paused s hp
                     /\ forall u, u <> t -> u ∈ hp <-> u ∈ human_paused s) as (hp & -> & Hhp).
  { destruct paused; eexists; (split; [reflexivity|set_solver]). }
  simpl. destruct (queued s !! t) as [q|] eqn:Ht.
  - pose proof (refresh_ready_only (agent_id (work q)) (put_human_paused s hp)) as Hro.
    constructor; [by apply (ready_only_bounds _ _ Hro)|intros u; by apply (ready_only_states _ _ u Hro), Hs|..].
    + apply (ready_only_queue _ _ Hro). by apply (same_queue_ok s).
    + apply (ready_only_claims _ _ Hro). by apply (claims_ext s).
    + replace (∅ : gset string) with ({[ agent_id (work q) ]} ∖ {[ agent_id (work q) ]} : gset string) by set_solver.
      apply refresh_except, (ready_frame_queue _ s); [done|apply (ready_except_mono ∅); set_solver|done..|].
      intros u r Hu Ha. pose proof (qo_id s Hq u r Hu) as Hid. apply can_start_frame; try done.
      rewrite Hid. apply Hhp. intros ->. apply Ha. assert (r = q) as -> by congruence. set_solver.
  - apply (move_ok t s); try done. intros u Hu. split; [by apply Hhp|done].
Qed.

Lemma set_max_concurrent_agents_ok n s : scheduler_ok s -> scheduler_ok (set_max_concurrent_agents n s).1.
Proof.
  intros Hok. pose proof Hok as [Hb Hs Hq Hc Hr]. unfold set_max_concurrent_agents. destruct (n =? 0); [done|].
  constructor; [done|done|by apply (same_queue_ok s)|by apply (claims_ext s)|].
  by apply (ready_frame_queue _ s).
Qed.

Lemma set_queue_limits_ok turns bytes s :
  scheduler_ok s -> turns <= usize_MAX -> bytes < usize_MAX -> scheduler_ok (set_queue_limits turns bytes s).1.
Proof.
  intros Hok Ht Hy. pose proof Hok as [(Hb1 & Hb2 & Hb3) Hs Hq Hc Hr]. unfold set_queue_limits.
  destruct (_ || _); [done|].
  constructor; [exact (conj Hb1 (conj Ht Hy))|done| |by apply (claims_ext s)|by apply (ready_frame_queue _ s)].
  destruct Hq. by constructor.
Qed.

(** ** Admission *)

Section Admission.
Context (size_of_work : N).

(** The queue has room for a unit of work. *)
Definition admits (w : ScheduledWork) (s : AgentScheduler) : Prop :=
  N.of_nat (size (queued s)) < max_queued_turns s
  /\ queued_bytes s + estimated_work_bytes size_of_work w <= max_queued_bytes s.

#[global] Instance admits_dec w s : Decision (admits w s).
Proof. unfold admits. apply _. Defined.

Definition queue_full : SchedulerError :=
  mkSchedulerError SQueueFull "scheduler queue admission limit exceeded".

Definition rejected (s : AgentScheduler) : AgentScheduler :=
  put_admission_rejections s (N.min u64_max (admission_rejections s + 1)).

Lemma ensure_capacity_spec w s :
  bounds_ok s ->
  ensure_queue_capacity size_of_work w s =
    if bool_decide (admits w s) then (s, Ok tt) else (rejected s, Err queue_full).
Proof.
  intros (_ & _ & Hb). unfold ensure_queue_capacity, usat_add. case_bool_decide as H; unfold admits in H.
  - destruct H as [H1 H2]. destruct (_ || _) eqn:E; [|done].
    apply orb_true_iff in E as [E%N.leb_le|E%N.ltb_lt]; lia.
  - destruct (_ || _) eqn:E; [done|]. apply orb_false_iff in E as [E1%N.leb_gt E2%N.ltb_ge].
    exfalso. apply H. lia.
Qed.

Lemma rejected_ok s : scheduler_ok s -> scheduler_ok (rejected s).
Proof.
  intros Hok. pose proof Hok as [Hb Hs Hq Hc Hr].
  constructor; [done|done|by apply (same_queue_ok s)|by apply (claims_ext s)|by apply (ready_frame_queue _ s)].
Qed.

Lemma validate_total w : validate_work w <> Panic.
Proof. unfold validate_work. by repeat destruct_match. Qed.

(** The state in which the work is queued, before the ready index follows. *)
Definition inserted (now seq : N) (w : ScheduledWork) (st : SchedulerTurnState) (s : AgentScheduler)
    : AgentScheduler :=
  let bytes := estimated_work_bytes size_of_work w in
  let s := put_queued_bytes s (usat_add (queued_bytes s) bytes) in
  let s := put_queued_order s (<[seq := turn_id w]> (queued_order s)) in
  let s := put_queued_by_agent s (index_insert (agent_id w) (seq, turn_id w) (queued_by_agent s)) in
  let s := match claimed_pane w with
           | Some p => put_queued_by_pane s (index_insert p (turn_id w) (queued_by_pane s))
           | None => s
           end in
  let s := put_turn_states s (<[turn_id w := st]> (turn_states s)) in
  put_queued s (<[turn_id w := mkQueued w seq now bytes]> (queued s)).

Lemma insert_queued_spec now w st s :
  bounds_ok s -> queue_ok s -> claims_ok s -> ready_except ∅ s -> queued s !! turn_id w = None -> admits w s ->
  exists seq next s', insert_queued size_of_work now w st s = (s', Ok tt)
    /\ queued_order s !! seq = None
    /\ ready_only (inserted now seq w st (put_next_sequence s next)) s'
    /\ bounds_ok s' /\ queue_ok s' /\ claims_ok s' /\ ready_except ∅ s'.
Proof.
  intros Hb Hq Hc Hr Hnew [Hn Hy]. pose proof Hb as (Hb1 & Hb2 & Hb3). unfold insert_queued.
  assert (usize_MAX = u64_max) as Hmax by reflexivity.
  destruct (next_sequence_total s Hb1) as [[seq s1] Hseq].
  { rewrite (qo_size s Hq). lia. }
  rewrite Hseq. unfold next_available_sequence in Hseq.
  destruct (find_sequence _ _ _) as [[seq' next]|] eqn:Hf; [|done]. injection Hseq as -> <-.
  pose proof (find_sequence_free _ _ _ _ _ Hf) as Hfree. pose proof (find_sequence_next _ _ _ _ _ Hf) as Hnext.
  assert (queue_ok (put_next_sequence s next)) as Hq1 by (destruct Hq; by constructor).
  pose proof (refresh_ready_only (agent_id w) (inserted now seq w st (put_next_sequence s next))) as Hro.
  eexists seq, next, _. split; [reflexivity|]. split; [done|]. split; [exact Hro|]. split; [|split; [|split]].
  - apply (ready_only_bounds _ _ Hro). unfold inserted. destruct (claimed_pane w); exact (conj Hnext (conj Hb2 Hb3)).
  - apply insert_queue_ok; [done|done|done|]. simpl. lia.
  - apply (ready_only_claims _ _ Hro), (claims_ext s); unfold inserted; by destruct (claimed_pane w).
  - apply insert_ready_ok; [done| |done]. by apply (ready_frame_queue _ s).
Qed.

Lemma enqueue_spec now w s :
  scheduler_ok s ->
  (validate_work w = Ok tt /\ turn_states s !! turn_id w = None /\ admits w s
   /\ exists s', enqueue size_of_work now w s = (s', Ok tt) /\ scheduler_ok s'
        /\ (exists seq, queued s' = <[turn_id w := mkQueued w seq now (estimated_work_bytes size_of_work w)]> (queued s))
        /\ turn_states s' = <[turn_id w := SQueued]> (turn_states s)
        /\ claimed_agents s' = claimed_agents s /\ claimed_panes s' = claimed_panes s
        /\ human_paused s' = human_paused s)
  \/ (exists s' e, enqueue size_of_work now w s = (s', Err e) /\ (s' = s \/ s' = rejected s)
        /\ ~ (validate_work w = Ok tt /\ turn_states s !! turn_id w = None /\ admits w s)).
Proof.
  intros Hok. pose proof Hok as [Hb Hs Hq Hc Hr]. unfold enqueue. op_run.
  destruct (validate_work w) as [[]|e|] eqn:Hv; [|right; exists s, e; naive_solver|by apply validate_total in Hv].
  destruct (turn_states s !! turn_id w) as [st|] eqn:Hst.
  { right. eexists s, _. rewrite bool_decide_true by eauto. naive_solver. }
  rewrite bool_decide_false by (by intros [? ?]). cbn -[insert_queued ensure_queue_capacity].
  rewrite ensure_capacity_spec by done. case_bool_decide as Had.
  2:{ right. eexists (rejected s), _. split; [reflexivity|]. naive_solver. }
  left. do 3 (split; [done|]).
  pose proof (Hs (turn_id w)) as Hat. unfold state_at in Hat. rewrite Hst in Hat. destruct Hat as (Hqt & Hat).
  destruct (insert_queued_spec now w SQueued s) as (seq & next & s' & Heq & Hfree & Hro & Hb' & Hq' & Hc' & Hr'); [done..|].
  exists s'. split; [exact Heq|]. destruct Hro as (x & y & z & ->).
  split; [|split; [exists seq|]; unfold inserted; by destruct (claimed_pane w)].
  constructor; [done| |done..]. intros u. pose proof (Hs u) as Hu. unfold state_at, inserted in *.
  destruct (claimed_pane w); simpl in *; at_turn u (turn_id w); naive_solver.
Qed.

(** A blocked or waiting turn is queued again and keeps its claims: [s1] is
    the state in which it has moved to [reacquiring]. *)
Lemma reacquire_spec now t w s s1 :
  scheduler_ok s -> queued s !! t = None -> turn_id w = t -> admits w s -> same_queue s s1 ->
  claimed_agents s1 = claimed_agents s -> claimed_panes s1 = claimed_panes s ->
  human_paused s1 = human_paused s -> turn_states s1 = turn_states s ->
  (forall u v, owner s1 u v <-> owner s u v) ->
  (forall seq, forall u, state_at (inserted now seq w SReacquiring s1) u) ->
  exists s', insert_queued size_of_work now w SReacquiring s1 = (s', Ok tt) /\ scheduler_ok s'
    /\ turn_states s' = <[t := SReacquiring]> (turn_states s) /\ is_Some (queued s' !! t)
    /\ claimed_agents s' = claimed_agents s /\ claimed_panes s' = claimed_panes s.
Proof.
  intros [Hb Hs Hq Hc Hr] Ht Hid Had Hsame Ha Hp Hh Hts Ho Hs1.
  destruct (insert_queued_spec now w SReacquiring s1)
    as (seq & next & s' & Heq & _ & Hro & Hb' & Hq' & Hc' & Hr').
  - by apply (same_queue_bounds s).
  - by apply (same_queue_ok s).
  - by apply (claims_ext s).
  - apply (same_queue_ready t s); try done. intros u _. by rewrite Hh, Hts.
  - destruct Hsame as (-> & _). congruence.
  - destruct Hsame as (H1 & _ & _ & _ & H5 & _ & _ & _ & H9 & H10). unfold admits. by rewrite H1, H5, H9, H10.
  - exists s'. split; [done|]. split; [constructor; [done| |done..]|].
    + intros u. apply (ready_only_states _ _ u Hro). pose proof (Hs1 seq u) as Hu.
      unfold state_at, inserted in *. by destruct (claimed_pane w).
    + destruct Hro as (x & y & z & ->). rewrite <- Hts, <- Ha, <- Hp, <- Hid. unfold inserted.
      destruct (claimed_pane w); simpl; rewrite lookup_insert_eq; eauto.
Qed.

Lemma requeue_blocked_spec now t s :
  scheduler_ok s ->
  exists s', scheduler_ok s' /\
    match blocked s !! t with
    | None => requeue_blocked size_of_work now t s = (s', Err turn_not_found) /\ s' = s
    | Some w =>
        if bool_decide (admits w s)
        then requeue_blocked size_of_work now t s = (s', Ok w)
             /\ turn_states s' = <[t := SReacquiring]> (turn_states s)
             /\ claimed_agents s' = claimed_agents s /\ claimed_panes s' = claimed_panes s
        else requeue_blocked size_of_work now t s = (s', Err queue_full) /\ s' = rejected s
    end.
Proof.
  intros Hok. pose proof Hok as [Hb Hs Hq Hc Hr]. unfold requeue_blocked. op_run.
  destruct (blocked s !! t) as [w|] eqn:Ht; [|by exists s]. simpl. rewrite ensure_capacity_spec by done.
  case_bool_decide as Had; [|exists (rejected s); split; [by apply rejected_ok|done]].
  destruct (blocked_state s t w (Hs t) Ht) as (Hst & Hqt & Hrt & Hwt & Hre).
  assert (turn_id w = t) as Hid by (apply (co_id s Hc); by right; left).
  destruct (reacquire_spec now t w s (put_reacquiring (put_blocked s (delete t (blocked s)))
              (<[t := w]> (reacquiring s)))) as (s' & Heq & Hok' & Hts & _ & Hca & Hcp); [done..| | |].
  - intros u v. unfold owner. simpl. at_turn u t; naive_solver.
  - intros seq u. pose proof (Hs u) as Hu. unfold state_at, inserted in *.
    destruct (claimed_pane w); simpl in *; rewrite Hid; at_turn u t; naive_solver.
  - exists s'. split; [done|]. by rewrite Heq.
Qed.

Lemma requeue_waiting_spec now t s :
  scheduler_ok s ->
  exists s', scheduler_ok s' /\
    match waiting s !! t with
    | None => requeue_waiting size_of_work now t s = (s', Err turn_not_found) /\ s' = s
    | Some w =>
        if bool_decide (admits w s)
        then requeue_waiting size_of_work now t s = (s', Ok w)
             /\ turn_states s' = <[t := SReacquiring]> (turn_states s)
             /\ claimed_agents s' = claimed_agents s /\ claimed_panes s' = claimed_panes s
        else requeue_waiting size_of_work now t s = (s', Err queue_full) /\ s' = rejected s
    end.
Proof.
  intros Hok. pose proof Hok as [Hb Hs Hq Hc Hr]. unfold requeue_waiting. op_run.
  destruct (waiting s !! t) as [w|] eqn:Ht; [|by exists s]. simpl. rewrite ensure_capacity_spec by done.
  case_bool_decide as Had; [|exists (rejected s); split; [by apply rejected_ok|done]].
  destruct (waiting_state s t w (Hs t) Ht) as (Hst & Hqt & Hrt & Hbt & Hre).
  assert (turn_id w = t) as Hid by (apply (co_id s Hc); by right; right; left).
  destruct (reacquire_spec now t w s (put_reacquiring (put_waiting s (delete t (waiting s)))
              (<[t := w]> (reacquiring s)))) as (s' & Heq & Hok' & Hts & _ & Hca & Hcp); [done..| | |].
  - intros u v. unfold owner. simpl. at_turn u t; naive_solver.
  - intros seq u. pose proof (Hs u) as Hu. unfold state_at, inserted in *.
    destruct (claimed_pane w); simpl in *; rewrite Hid; at_turn u t; naive_solver.
  - exists s'. split; [done|]. by rewrite Heq.
Qed.
End Admission.

(** ** Starting work *)



(** ** Iteration order *)

(** An order that refines the order of a key gives lists sorted by key. *)
Definition keyed {A} (key : A -> N) (leb : A -> A -> bool) : Prop :=
  forall x y, if leb x y then key x <= key y else key y <= key x.

Definition by_key {A} (key : A -> N) (x y : A) : Prop := key x <= key y.

Lemma insert_sorted_by_key {A} (key : A -> N) leb x l :
  keyed key leb -> StronglySorted (by_key key) l -> StronglySorted (by_key key) (insert_sorted leb x l).
Proof.
  intros Hk. unfold by_key. induction 1 as [|y l Hs IH Hall]; simpl; [by repeat constructor|].
  pose proof (Hk x y) as Hxy. destruct (leb x y).
  - constructor; [by constructor|]. constructor; [done|]. eapply Forall_impl; [exact Hall|]. simpl. lia.
  - constructor; [done|]. apply Forall_forall. intros z Hz. rewrite insert_sorted_perm in Hz.
    rewrite Forall_forall in Hall. set_solver.
Qed.

Lemma in_order_by_key {A} (key : A -> N) leb l : keyed key leb -> StronglySorted (by_key key) (in_order leb l).
Proof.
  intros Hk. induction l as [|x l IH]; simpl; [constructor|]. by apply insert_sorted_by_key.
Qed.

Lemma entry_leb_keyed : keyed fst entry_leb.
Proof.
  intros x y. unfold entry_leb. destruct (x.1 <? y.1) eqn:E1; simpl; [apply N.ltb_lt in E1; lia|].
  apply N.ltb_ge in E1. destruct (x.1 =? y.1) eqn:E2; simpl; [|lia]. apply N.eqb_eq in E2.
  destruct (string_leb _ _); lia.
Qed.

Lemma ready_leb_keyed : keyed (fun e => e.1.1) ready_leb.
Proof.
  intros x y. unfold ready_leb. destruct (x.1.1 <? y.1.1) eqn:E1; simpl; [apply N.ltb_lt in E1; lia|].
  apply N.ltb_ge in E1. destruct (x.1.1 =? y.1.1) eqn:E2; simpl; [|lia]. apply N.eqb_eq in E2.
  destruct (String.compare _ _); try lia. destruct (string_leb _ _); lia.
Qed.

(** The first match in a sorted list has the least key among the matches. *)
Lemma find_least {A} (key : A -> N) f l x :
  StronglySorted (by_key key) l -> List.find f l = Some x ->
  x ∈ l /\ f x = true /\ forall y, y ∈ l -> f y = true -> key x <= key y.
Proof.
  unfold by_key. induction 1 as [|z l Hs IH Hall]; simpl; [done|]. rewrite Forall_forall in Hall.
  destruct (f z) eqn:Hz.
  - intros [= ->]. split; [set_solver|]. split; [done|]. intros y Hy _.
    apply elem_of_cons in Hy as [->|Hy]; [lia|]. by apply Hall.
  - intros Hx. destruct (IH Hx) as (H1 & H2 & H3). split; [set_solver|]. split; [done|].
    intros y Hy Hf. apply elem_of_cons in Hy as [->|Hy]; [congruence|auto].
Qed.

Lemma find_nothing {A} (f : A -> bool) l : List.find f l = None -> forall y, y ∈ l -> f y = false.
Proof. intros H y Hy. apply (List.find_none _ _ H). by apply list_elem_of_In. Qed.

(** [first_startable] is such a search. *)
Lemma first_startable_find s l : (first_startable s l).1 = List.find (entry_can_start s) l.
Proof.
  induction l as [|e l IH]; simpl; [done|]. destruct (entry_can_start s e); [done|].
  by destruct (first_startable s l).
Qed.

(** ** The ready index *)

(** A queued turn that could start now. *)
Definition startable (s : AgentScheduler) (t : string) (q : QueuedWork) : Prop :=
  queued s !! t = Some q /\ can_start s (work q) = true.

Lemma ready_entry s n a t :
  queue_ok s -> ready_except ∅ s -> (n, a, t) ∈ ready_order s ->
  exists q, startable s t q /\ sequence q = n /\ agent_id (work q) = a
    /\ forall u r, startable s u r -> agent_id (work r) = a -> n <= sequence r.
Proof.
  intros Hq [Ho Hr] Hin. apply Ho in Hin. rewrite (Hr a) in Hin by set_solver.
  rewrite first_startable_find in Hin.
  apply (find_least fst) in Hin as (He & Hf & Hmin); [|apply in_order_by_key, entry_leb_keyed].
  apply elem_of_agent_entries in He. apply (qo_agent s Hq) in He as (q & Hqt & Hn & Ha).
  unfold entry_can_start in Hf. simpl in Hf. rewrite Hqt in Hf.
  exists q. split; [done|]. split; [done|]. split; [done|]. intros u r [Hu Hc] Har.
  apply (Hmin (sequence r, u)).
  - apply elem_of_agent_entries, (qo_agent s Hq). eauto.
  - unfold entry_can_start. simpl. by rewrite Hu.
Qed.

(** Every startable turn has a ready entry of its agent that is not later. *)
Lemma startable_ready s t q :
  queue_ok s -> ready_except ∅ s -> startable s t q ->
  exists n u, (n, agent_id (work q), u) ∈ ready_order s /\ n <= sequence q.
Proof.
  intros Hq Hre [Ht Hc]. pose proof Hre as [Ho Hr].
  destruct (ready_by_agent s !! agent_id (work q)) as [[n u]|] eqn:Ha.
  - exists n, u. assert ((n, agent_id (work q), u) ∈ ready_order s) as Hin by by apply Ho.
    split; [done|]. destruct (ready_entry s n _ u Hq Hre Hin) as (r & _ & _ & _ & Hmin). by apply (Hmin t).
  - exfalso. rewrite (Hr (agent_id (work q))), first_startable_find in Ha by set_solver.
    assert (entry_can_start s (sequence q, t) = false) as Hf.
    { apply (find_nothing _ _ Ha), elem_of_agent_entries, (qo_agent s Hq). eauto. }
    unfold entry_can_start in Hf. simpl in Hf. rewrite Ht in Hf. congruence.
Qed.

(** ** Starting a turn *)

Lemma can_start_claims s w :
  can_start s w = true -> turn_states s !! turn_id w <> Some SReacquiring ->
  agent_id w ∉ claimed_agents s /\ forall p, claimed_pane w = Some p -> p ∉ claimed_panes s.
Proof.
  unfold can_start, claimed_pane. intros Hc Hst. rewrite (bool_decide_false (turn_states s !! _ = _)) in Hc by done.
  repeat (case_bool_decide; simpl in Hc; try done).
  - split; [done|]. intros p Hp. rewrite Hp in Hc. by case_bool_decide.
Qed.

Lemma queued_state s t q :
  state_at s t -> queued s !! t = Some q ->
  running s !! t = None /\ blocked s !! t = None /\ waiting s !! t = None
  /\ ((turn_states s !! t = Some SQueued /\ reacquiring s !! t = None)
      \/ (turn_states s !! t = Some SReacquiring /\ reacquiring s !! t = Some (work q))).
Proof. unfold state_at. intros H Hq. destruct (turn_states s !! t) as [[]|]; naive_solver. Qed.

(** The state in which the work runs, before the ready index follows. *)
Definition started (w : ScheduledWork) (s : AgentScheduler) : AgentScheduler :=
  let is_reacquiring := bool_decide (turn_states s !! turn_id w = Some SReacquiring) in
  let s := put_last_started_agent_id s (Some (agent_id w)) in
  let s := if is_reacquiring then put_reacquiring s (delete (turn_id w) (reacquiring s))
           else claim_work w s in
  let s := put_turn_states s (<[turn_id w := SRunning]> (turn_states s)) in
  put_running s (<[turn_id w := w]> (running s)).

Lemma started_queue w s : same_queue s (started w s).
Proof. unfold started, claim_work. destruct (bool_decide _), (claimed_pane w); done. Qed.

Lemma started_maps w s :
  running (started w s) = <[turn_id w := w]> (running s) /\ blocked (started w s) = blocked s
  /\ waiting (started w s) = waiting s /\ turn_states (started w s) = <[turn_id w := SRunning]> (turn_states s)
  /\ queued (started w s) = queued s /\ human_paused (started w s) = human_paused s
  /\ last_started_agent_id (started w s) = Some (agent_id w)
  /\ max_concurrent_agents (started w s) = max_concurrent_agents s.
Proof. unfold started, claim_work. destruct (bool_decide _), (claimed_pane w); done. Qed.

(** Readiness changes for the agents the started work affects only. *)
Lemma started_ready w s :
  queue_ok s -> ready_except ∅ s -> queued s !! turn_id w = None ->
  ready_except (affected_agents w (started w s)) (started w s).
Proof.
  intros Hq Hr Ht. destruct (started_queue w s) as (H1 & _ & H3 & H4 & _ & H6 & H7 & _).
  destruct (started_maps w s) as (_ & _ & _ & Hst & _ & Hh & _).
  apply (ready_claims w s); try done.
  - intros t q Hqt. rewrite Hst, Hh. split; [done|]. apply lookup_insert_ne. congruence.
  - intros a Ha. unfold started, claim_work. destruct (bool_decide _), (claimed_pane w); simpl; set_solver.
  - intros p Hp. unfold started, claim_work. destruct (bool_decide _), (claimed_pane w); simpl; set_solver.
Qed.

(** [s] is the state before the turn leaves the queue, [s2] the one after. *)
Lemma started_claims t q s s2 :
  scheduler_ok s -> startable s t q -> claims_ok s2 -> owner s2 = owner s ->
  turn_states s2 = turn_states s -> reacquiring s2 = reacquiring s ->
  claimed_agents s2 = claimed_agents s -> claimed_panes s2 = claimed_panes s ->
  claims_ok (started (work q) s2).
Proof.
  intros [Hb Hs Hq Hc Hr] [Ht Hcan] Hc2 Ho Hts Hre Ha Hp. pose proof (qo_id s Hq t q Ht) as Hid.
  destruct (queued_state s t q (Hs t) Ht) as (Hrun & Hbl & Hwa & [[Hst Hrq]|[Hst Hrq]]).
  - assert (turn_states s !! turn_id (work q) <> Some SReacquiring) as Hne by (rewrite Hid; congruence).
    destruct (can_start_claims s (work q) Hcan Hne) as [H1 H2].
    apply (claimed_ok t (work q) s2); [done|done|by rewrite Ha|by rewrite Hp| | |].
    + intros u v. assert (forall x y, owner s2 x y <-> owner s x y) as E by (by rewrite Ho). revert E.
      unfold owner, started. rewrite Hts, bool_decide_false by done. unfold claim_work.
      intros E. specialize (E u v). destruct (claimed_pane (work q)); simpl; rewrite Hid; at_turn u t; naive_solver.
    + unfold started. rewrite Hts, bool_decide_false by done. unfold claim_work. by destruct (claimed_pane (work q)).
    + unfold started. rewrite Hts, bool_decide_false by done. unfold claim_work. by destruct (claimed_pane (work q)).
  - assert (turn_states s2 !! turn_id (work q) = Some SReacquiring) as Hst2 by congruence.
    apply (claims_ext s2); [done| |unfold started; by rewrite bool_decide_true..].
    intros u v. assert (forall x y, owner s2 x y <-> owner s x y) as E by (by rewrite Ho). revert E.
    unfold owner, started. rewrite bool_decide_true by done. intros E. specialize (E u v). simpl.
    rewrite Hid, Hre in *. at_turn u t; naive_solver.
Qed.

Lemma start_turn_ok t q s :
  scheduler_ok s -> startable s t q ->
  exists s2, remove_queued t s = (s2, Some (work q)) /\ scheduler_ok (start_work (work q) s2)
    /\ running (start_work (work q) s2) = <[t := work q]> (running s)
    /\ queued (start_work (work q) s2) = delete t (queued s)
    /\ turn_states (start_work (work q) s2) = <[t := SRunning]> (turn_states s)
    /\ last_started_agent_id (start_work (work q) s2) = Some (agent_id (work q))
    /\ max_concurrent_agents (start_work (work q) s2) = max_concurrent_agents s.
Proof.
  intros Hok Hcan. pose proof Hok as [Hb Hs Hq Hc Hr]. pose proof Hcan as [Ht _].
  pose proof (qo_id s Hq t q Ht) as Hid.
  destruct (dequeue_spec t q s) as (s2 & -> & Hro & Hb2 & Hq2 & Hc2 & Hr2); [done..| |done|].
  { apply (ready_except_mono ∅); set_solver. }
  exists s2. split; [done|].
  assert (running s2 = running s /\ blocked s2 = blocked s /\ waiting s2 = waiting s /\ reacquiring s2 = reacquiring s
    /\ owner s2 = owner s /\ turn_states s2 = turn_states s /\ queued s2 = delete t (queued s)
    /\ claimed_agents s2 = claimed_agents s /\ claimed_panes s2 = claimed_panes s
    /\ max_concurrent_agents s2 = max_concurrent_agents s)
    as (E1 & E2 & E3 & E4 & E5 & E6 & E7 & E8 & E9 & E10).
  { destruct Hro as (? & ? & ? & ->). unfold dequeued, owner. by destruct (claimed_pane (work q)). }
  change (start_work (work q) s2) with (refresh_affected_readiness (work q) (started (work q) s2)).
  destruct (refresh_affected_spec (work q) (started (work q) s2)) as [Hr' Hro'].
  { apply started_ready; [done|done|]. by rewrite E7, Hid, lookup_delete_eq. }
  destruct (started_maps (work q) s2) as (M1 & M2 & M3 & M4 & M5 & M6 & M7 & M8).
  split; [constructor|].
  - apply (ready_only_bounds _ _ Hro'), (same_queue_bounds s2); [apply started_queue|done].
  - intros u. apply (ready_only_states _ _ u Hro'). pose proof (Hs u) as Hu. unfold state_at in *.
    rewrite M1, M2, M3, M4, M5, Hid, E1, E2, E3, E6, E7.
    destruct (queued_state s t q (Hs t) Ht) as (Hrun & Hbl & Hwa & Hst).
    unfold started, claim_work. rewrite E6, Hid.
    destruct Hst as [[Hst Hrq]|[Hst Hrq]]; rewrite Hst; destruct (claimed_pane (work q)); simpl;
      rewrite ?bool_decide_true, ?bool_decide_false by done; simpl; rewrite ?E4; at_turn u t; naive_solver.
  - apply (ready_only_queue _ _ Hro'), (same_queue_ok s2); [apply started_queue|done].
  - apply (ready_only_claims _ _ Hro'). by eapply started_claims.
  - done.
  - rewrite <- E1, <- E6, <- E7, <- E10, <- Hid. destruct Hro' as (? & ? & ? & ->). done.
Qed.

(** ** Choosing a turn *)

(** The search prefers agents other than the last one started. *)
Definition preferred (s : AgentScheduler) (prefer : bool) (a : string) : Prop :=
  prefer = true -> last_started_agent_id s <> Some a.

Lemma unpaused_startable s t q : queue_ok s -> startable s t q -> t ∉ human_paused s.
Proof.
  intros Hq [Ht Hc]. unfold can_start in Hc. rewrite (qo_id s Hq t q Ht) in Hc. by case_bool_decide.
Qed.

Lemma candidate_filter s prefer f n a t q :
  queue_ok s -> startable s t q -> agent_id (work q) = a ->
  ready_matches s prefer f (n, a, t) = true
  <-> preferred s prefer a /\ f (work q) = true.
Proof.
  intros Hq Hst Ha. unfold ready_matches. pose proof (unpaused_startable s t q Hq Hst) as Hp. destruct Hst as [Ht _].
  rewrite (bool_decide_false (t ∈ _)), Ht by done. unfold preferred. destruct prefer; simpl.
  - case_bool_decide; simpl; naive_solver.
  - naive_solver.
Qed.

Lemma candidate_some s prefer f n a t :
  scheduler_ok s -> ready_candidate s prefer f = Some (n, a, t) ->
  exists q, startable s t q /\ sequence q = n /\ agent_id (work q) = a /\ preferred s prefer a
    /\ f (work q) = true
    /\ ((forall w, f w = true) ->
        forall u r, startable s u r -> preferred s prefer (agent_id (work r)) -> n <= sequence r).
Proof.
  intros [_ _ Hq _ Hr] Hf. unfold ready_candidate in Hf.
  apply (find_least (fun e => e.1.1)) in Hf as (Hin & Hfil & Hmin); [|apply in_order_by_key, ready_leb_keyed].
  rewrite in_order_perm, elem_of_elements in Hin.
  destruct (ready_entry s n a t Hq Hr Hin) as (q & Hst & Hn & Ha & _).
  apply (candidate_filter s prefer f n a t q Hq Hst Ha) in Hfil as [Hp Hfw].
  exists q. do 5 (split; [done|]). intros Hall u r Hur Hpr.
  destruct (startable_ready s u r Hq Hr Hur) as (m & v & Hmv & Hle).
  destruct (ready_entry s m _ v Hq Hr Hmv) as (q' & Hst' & _ & Ha' & _).
  etrans; [|exact Hle]. apply (Hmin (m, agent_id (work r), v)).
  - by rewrite in_order_perm, elem_of_elements.
  - apply (candidate_filter s prefer f m _ v q' Hq Hst' Ha'). auto.
Qed.

Lemma candidate_none s prefer f u r :
  scheduler_ok s -> ready_candidate s prefer f = None -> (forall w, f w = true) ->
  startable s u r -> ~ preferred s prefer (agent_id (work r)).
Proof.
  intros [_ _ Hq _ Hr] Hf Hall Hur Hpr.
  destruct (startable_ready s u r Hq Hr Hur) as (m & v & Hmv & _).
  destruct (ready_entry s m _ v Hq Hr Hmv) as (q' & Hst' & _ & Ha' & _).
  pose proof (find_nothing _ _ Hf (m, agent_id (work r), v)) as Hno.
  rewrite in_order_perm, elem_of_elements in Hno. specialize (Hno Hmv).
  pose proof (proj2 (candidate_filter s prefer f m _ v q' Hq Hst' Ha') (conj Hpr (Hall _))) as Hyes.
  congruence.
Qed.

(** The state after turn [t] is started. *)
Definition start_effect (t : string) (w : RunningWork) (s s' : AgentScheduler) : Prop :=
  running s' = <[t := w]> (running s) /\ queued s' = delete t (queued s)
  /\ turn_states s' = <[t := SRunning]> (turn_states s)
  /\ last_started_agent_id s' = Some (agent_id w)
  /\ max_concurrent_agents s' = max_concurrent_agents s.

Lemma start_candidate_spec prefer f s :
  scheduler_ok s ->
  (ready_candidate s prefer f = None /\ start_ready_candidate_where prefer f s = (s, None))
  \/ (exists n a t q s', ready_candidate s prefer f = Some (n, a, t) /\ startable s t q
       /\ start_ready_candidate_where prefer f s = (s', Some (work q)) /\ scheduler_ok s'
       /\ start_effect t (work q) s s').
Proof.
  intros Hok. unfold start_ready_candidate_where.
  destruct (ready_candidate s prefer f) as [[[n a] t]|] eqn:Hc; [right|by left].
  destruct (candidate_some s prefer f n a t Hok Hc) as (q & Hst & _).
  destruct (start_turn_ok t q s Hok Hst) as (s2 & -> & Hok' & Heff).
  exists n, a, t, q, (start_work (work q) s2). done.
Qed.

Lemma start_ready_where_ok f s :
  scheduler_ok s ->
  scheduler_ok (start_ready_where f s).1
  /\ match start_ready_where f s with
     | (s', None) => s' = s
     | (s', Some w) =>
         N.of_nat (size (running s)) < max_concurrent_agents s /\ f w = true
         /\ exists q, startable s (turn_id w) q /\ work q = w /\ start_effect (turn_id w) w s s'
     end.
Proof.
  intros Hok. unfold start_ready_where, active_capacity_used. destruct (_ <=? _) eqn:Hcap; [done|].
  apply N.leb_gt in Hcap.
  assert (forall prefer n a t q, ready_candidate s prefer f = Some (n, a, t) -> startable s t q ->
            t = turn_id (work q) /\ f (work q) = true) as Hcand.
  { intros prefer n a t q Hc [Ht _]. destruct (candidate_some s prefer f n a t Hok Hc)
      as (q' & [Ht' _] & _ & _ & _ & Hf & _). assert (q' = q) as -> by congruence.
    split; [|done]. symmetry. by apply (qo_id s (so_queue s Hok)). }
  destruct (start_candidate_spec true f s Hok) as [[Hn ->]|(n & a & t & q & s' & Hc & Hst & -> & Hok' & Heff)].
  - destruct (start_candidate_spec false f s Hok) as [[Hn' ->]|(n & a & t & q & s' & Hc & Hst & -> & Hok' & Heff)];
      [done|]. destruct (Hcand _ _ _ _ _ Hc Hst) as [-> Hf]. split; [done|]. eauto 6.
  - destruct (Hcand _ _ _ _ _ Hc Hst) as [-> Hf]. split; [done|]. eauto 6.
Qed.
