(* ===== verification/SchedulerTheorems.v ===== *)
(** * Theorems on the agent scheduler

    The commands a host sends to the scheduler, and what holds along any
    sequence of them. *)

From S2P Require Import Prelude RustStr Scheduler SchedulerInv SchedulerSteps.
Local Open Scope N_scope.

(** ** Commands *)

Inductive SchedulerCommand :=
| Enqueue (now : N) (w : ScheduledWork)
| StartReady
| StartReadyWhere (predicate : ScheduledWork -> bool)
| Complete (t : string)
| BlockRunning (t : string)
| WaitRunning (t : string)
| RequeueBlocked (now : N) (t : string)
| RequeueWaiting (now : N) (t : string)
| ResumeBlocked (t : string)
| Cancel (t : string)
| SetHumanPaused (t : string) (paused : bool)
| SetMaxConcurrentAgents (n : N)
| SetQueueLimits (turns bytes : N).

Section Commands.
Context (size_of_work : N).

Definition discard {A} (r : AgentScheduler * outcome SchedulerError A)
    : AgentScheduler * outcome SchedulerError unit :=
  (r.1, match r.2 with Ok _ => Ok tt | Err e => Err e | Panic => Panic end).

Definition perform (c : SchedulerCommand) (s : AgentScheduler) : AgentScheduler * outcome SchedulerError unit :=
  match c with
  | Enqueue now w => enqueue size_of_work now w s
  | StartReady => ((start_ready s).1, Ok tt)
  | StartReadyWhere f => ((start_ready_where f s).1, Ok tt)
  | Complete t => discard (complete t s)
  | BlockRunning t => discard (block_running t s)
  | WaitRunning t => discard (wait_running t s)
  | RequeueBlocked now t => discard (requeue_blocked size_of_work now t s)
  | RequeueWaiting now t => discard (requeue_waiting size_of_work now t s)
  | ResumeBlocked t => discard (resume_blocked t s)
  | Cancel t => discard (cancel t s)
  | SetHumanPaused t b => (set_human_paused t b s, Ok tt)
  | SetMaxConcurrentAgents n => set_max_concurrent_agents n s
  | SetQueueLimits turns bytes => set_queue_limits turns bytes s
  end.

(** Errors leave a state to go on from; a panic or a search that does not
    end leaves none. *)
Fixpoint perform_all (cs : list SchedulerCommand) (s : AgentScheduler) : option AgentScheduler :=
  match cs with
  | [] => Some s
  | c :: cs => match perform c s with
               | (_, Panic) => None
               | (s', _) => perform_all cs s'
               end
  end.

(** Limits fit [usize]; the byte limit stays below its largest value. *)
Definition limits_fit (c : SchedulerCommand) : Prop :=
  match c with
  | SetQueueLimits turns bytes => turns <= usize_MAX /\ bytes < usize_MAX
  | _ => True
  end.

Lemma perform_ok c s :
  scheduler_ok s -> limits_fit c -> scheduler_ok (perform c s).1 /\ (perform c s).2 <> Panic.
Proof.
  intros Hok Hfit. destruct c; simpl.
  - destruct (enqueue_spec size_of_work now w s Hok) as [(_ & _ & _ & s' & -> & Hok' & _)|(s' & e & -> & [->| ->] & _)];
      simpl; (split; [|done]); [done|done|by apply rejected_ok].
  - by destruct (start_ready_where_ok (fun _ => true) s Hok) as [H _].
  - by destruct (start_ready_where_ok predicate s Hok) as [H _].
  - split; [by apply complete_ok|]. unfold complete. by destruct_match.
  - split; [by apply block_running_ok|]. unfold block_running. by destruct_match.
  - split; [by apply wait_running_ok|]. unfold wait_running. by destruct_match.
  - destruct (requeue_blocked_spec size_of_work now t s Hok) as (s' & Hok' & H).
    destruct (blocked s !! t) as [w|]; [case_bool_decide|]; destruct H as [-> _]; done.
  - destruct (requeue_waiting_spec size_of_work now t s Hok) as (s' & Hok' & H).
    destruct (waiting s !! t) as [w|]; [case_bool_decide|]; destruct H as [-> _]; done.
  - split; [by apply resume_blocked_ok|]. unfold resume_blocked. by repeat destruct_match.
  - destruct (cancel_ok t s Hok) as [H1 H2]. split; [done|]. rewrite H2. unfold cancellation.
    by repeat destruct_match.
  - split; [by apply set_human_paused_ok|done].
  - split; [by apply set_max_concurrent_agents_ok|]. unfold set_max_concurrent_agents. by destruct_match.
  - destruct Hfit. split; [by apply set_queue_limits_ok|]. unfold set_queue_limits. by destruct_match.
Qed.

Lemma perform_all_ok cs : forall s,
  scheduler_ok s -> Forall limits_fit cs -> exists s', perform_all cs s = Some s' /\ scheduler_ok s'.
Proof.
  induction cs as [|c cs IH]; intros s Hok Hfit; simpl; [by exists s|].
  apply Forall_cons in Hfit as [Hc Hcs]. destruct (perform_ok c s Hok Hc) as [Hok' Hp].
  destruct (perform c s) as [s1 [u|e|]]; [by apply IH|by apply IH|done].
Qed.

Lemma fresh_scheduler_ok agents turns bytes :
  turns <= usize_MAX -> bytes < usize_MAX -> scheduler_ok (empty_scheduler agents turns bytes).
Proof.
  intros Ht Hy. constructor.
  - split; [by unfold u64_max|]. split; assumption.
  - intros t. unfold state_at. simpl. by rewrite !lookup_empty.
  - constructor; try done; unfold empty_scheduler; simpl; setoid_rewrite lookup_empty; set_solver.
  - constructor; unfold owner, empty_scheduler; simpl; setoid_rewrite lookup_empty; set_solver.
  - split.
    + intros n a t. simpl. rewrite lookup_empty. set_solver.
    + intros a _. unfold ready_exact, agent_entries. simpl. by rewrite !lookup_empty.
Qed.

Lemma with_limits_ok agents turns bytes s :
  with_limits agents turns bytes = Ok s -> turns <= usize_MAX -> bytes < usize_MAX -> scheduler_ok s.
Proof.
  unfold with_limits. destruct (_ || _); [done|]. intros [= <-]. apply fresh_scheduler_ok.
Qed.

(** The states a host can bring a scheduler to. *)
Inductive reachable : AgentScheduler -> Prop :=
| reach_new agents turns bytes s :
    turns <= usize_MAX -> bytes < usize_MAX -> with_limits agents turns bytes = Ok s -> reachable s
| reach_step c s s' r :
    reachable s -> limits_fit c -> perform c s = (s', r) -> reachable s'.

Lemma reachable_ok s : reachable s -> scheduler_ok s.
Proof.
  induction 1 as [agents turns bytes s Ht Hy Hs|c s s' r _ IH Hfit Hc].
  - by eapply with_limits_ok.
  - destruct (perform_ok c s IH Hfit) as [H _]. by rewrite Hc in H.
Qed.

Lemma perform_all_reachable cs : forall s s',
  reachable s -> Forall limits_fit cs -> perform_all cs s = Some s' -> reachable s'.
Proof.
  induction cs as [|c cs IH]; intros s s' Hs Hfit; simpl; [congruence|].
  apply Forall_cons in Hfit as [Hc Hcs]. destruct (perform c s) as [s1 [u|e|]] eqn:E; [| |done];
    apply IH; try done; by eapply reach_step.
Qed.
End Commands.

(** ** What readiness means *)

(** No other turn that has started holds the agent or the pane of the work,
    and nobody has paused it. *)
Definition free (s : AgentScheduler) (w : ScheduledWork) : Prop :=
  turn_id w ∉ human_paused s
  /\ (kind w = ShellCapable -> is_Some (pane_id w))
  /\ forall t v, owner s t v -> t <> turn_id w ->
       agent_id v <> agent_id w /\ forall p, claimed_pane w = Some p -> claimed_pane v <> Some p.

Lemma can_start_iff s w :
  can_start s w = true <->
  turn_id w ∉ human_paused s /\ (kind w = ShellCapable -> is_Some (pane_id w))
  /\ (turn_states s !! turn_id w = Some SReacquiring
      \/ (agent_id w ∉ claimed_agents s /\ forall p, claimed_pane w = Some p -> p ∉ claimed_panes s)).
Proof.
  unfold can_start, claimed_pane. case_bool_decide as Hp; [naive_solver|].
  destruct (bool_decide (turn_states s !! turn_id w = Some SReacquiring)) eqn:Hre.
  - apply bool_decide_eq_true in Hre. rewrite andb_false_r.
    case_bool_decide as Hk; simpl; [|naive_solver].
    destruct (pane_id w) as [p|]; [|naive_solver]. rewrite orb_true_r. naive_solver.
  - apply bool_decide_eq_false in Hre. rewrite andb_true_r. case_bool_decide as Ha; [naive_solver|].
    case_bool_decide as Hk; simpl; [|naive_solver].
    destruct (pane_id w) as [p|]; [|naive_solver]. rewrite orb_false_r, negb_true_iff, bool_decide_eq_false.
    naive_solver.
Qed.

Lemma can_start_free s t q :
  scheduler_ok s -> queued s !! t = Some q -> can_start s (work q) = true <-> free s (work q).
Proof.
  intros [Hb Hs Hq Hc Hr] Ht. pose proof (qo_id s Hq t q Ht) as Hid. rewrite can_start_iff. unfold free.
  destruct (queued_state s t q (Hs t) Ht) as (Hrun & Hbl & Hwa & [[Hst Hrq]|[Hst Hrq]]); rewrite Hid, Hst.
  - assert (forall u v, owner s u v -> u <> t) as Hno by (unfold owner; naive_solver).
    rewrite (co_agents s Hc). setoid_rewrite (co_panes s Hc). naive_solver.
  - assert (owner s t (work q)) as Hown by by right; right; right.
    pose proof (co_agent_once s Hc) as H1. pose proof (co_pane_once s Hc) as H2.
    split; [|naive_solver]. intros (? & ? & _). split; [done|]. split; [done|]. intros u v Hv Hne.
    split; [intros E|intros p Hp Hp']; apply Hne; eauto.
Qed.

Lemma startable_free s t q :
  scheduler_ok s -> startable s t q <-> queued s !! t = Some q /\ free s (work q).
Proof. intros Hok. unfold startable. split; intros [H1 H2]; (split; [done|]); by apply (can_start_free s t q). Qed.

(** ** Cancelling a turn that has not started *)

Lemma cancel_queued_effect t q s :
  scheduler_ok s -> queued s !! t = Some q -> turn_states s !! t = Some SQueued ->
  let s' := (cancel t s).1 in
  queued s' = delete t (queued s) /\ turn_states s' = delete t (turn_states s)
  /\ human_paused s' = human_paused s ∖ {[ t ]}
  /\ claimed_agents s' = claimed_agents s /\ claimed_panes s' = claimed_panes s.
Proof.
  intros [Hb Hs Hq Hc Hr] Ht Hst. unfold cancel. set (s1 := put_human_paused s (human_paused s ∖ {[ t ]})).
  change (queued s1) with (queued s). rewrite bool_decide_true by eauto.
  destruct (dequeue_spec t q s1) as (s2 & -> & Hro & _);
    [done|by apply (same_queue_ok s)|by apply (claims_ext s)|by apply unpause_ready|done|].
  change (turn_states s1) with (turn_states s). rewrite Hst, bool_decide_false by done.
  destruct Hro as (x & y & z & ->). unfold dequeued. by destruct (claimed_pane (work q)).
Qed.

(** The ready index is a function of the queue, the claims, and the pauses
    and states of the queued turns. *)
Lemma ready_determined s s' :
  scheduler_ok s -> scheduler_ok s' -> queued s' = queued s ->
  (forall t q, queued s !! t = Some q -> can_start s' (work q) = can_start s (work q)) ->
  ready_by_agent s' = ready_by_agent s.
Proof.
  intros [_ _ Hq _ [_ Hr]] [_ _ Hq' _ [_ Hr']] E Hcan. apply map_eq. intros a.
  rewrite (Hr a), (Hr' a) by set_solver.
  assert (default ∅ (queued_by_agent s' !! a) = default ∅ (queued_by_agent s !! a)) as Hix.
  { apply set_eq. intros [n t]. by rewrite (qo_agent s Hq), (qo_agent s' Hq'), E. }
  unfold agent_entries. rewrite Hix. f_equal. apply first_startable_frame. intros [n t] He.
  rewrite in_order_perm, elem_of_elements in He. apply (qo_agent s Hq) in He as (q & Ht & _).
  unfold entry_can_start. simpl. rewrite E, Ht. by apply (Hcan t).
Qed.

(** ** Capacity *)

Definition capacity (s : AgentScheduler) : gmap string RunningWork * N := (running s, max_concurrent_agents s).

Lemma ready_only_capacity s s' : ready_only s s' -> capacity s' = capacity s.
Proof. by intros (x & y & z & ->). Qed.

Lemma refresh_fold_capacity l : forall s,
  capacity (foldl (fun s a => refresh_ready_for_agent a s) s l) = capacity s.
Proof.
  induction l as [|a l IH]; intros s; simpl; [done|]. by rewrite IH, (ready_only_capacity _ _ (refresh_ready_only a s)).
Qed.

Lemma release_capacity w s : capacity (release_claims w s) = capacity s.
Proof.
  unfold release_claims, refresh_affected_readiness. rewrite refresh_fold_capacity. by destruct (claimed_pane w).
Qed.

Lemma remove_queued_capacity t s : capacity (remove_queued t s).1 = capacity s.
Proof.
  unfold remove_queued. destruct (queued s !! t) as [q|]; [|done]. cbn [fst].
  rewrite (ready_only_capacity _ _ (refresh_ready_only _ _)), (ready_only_capacity _ _ (remove_ready_only _ _)).
  by destruct (claimed_pane (work q)).
Qed.

Lemma insert_queued_capacity size now w st s : capacity (insert_queued size now w st s).1 = capacity s.
Proof.
  unfold insert_queued, next_available_sequence. destruct (find_sequence _ _ _) as [[n next]|]; [|done]. cbn [fst].
  unfold insert_with_sequence. rewrite (ready_only_capacity _ _ (refresh_ready_only _ _)).
  by destruct (claimed_pane w).
Qed.

Lemma ensure_capacity_capacity size w s : capacity (ensure_queue_capacity size w s).1 = capacity s.
Proof. unfold ensure_queue_capacity. by destruct_match. Qed.
(** Capacity in use does not grow past the limit. *)
Definition within (s s' : AgentScheduler) : Prop :=
  max_concurrent_agents s' = max_concurrent_agents s
  /\ (active_capacity_used s' <= active_capacity_used s \/ active_capacity_used s' <= max_concurrent_agents s).

Lemma within_same s s' : capacity s' = capacity s -> within s s'.
Proof. intros [= Hr Hm]. unfold within, active_capacity_used. rewrite Hr, Hm. split; [done|left; lia]. Qed.

Lemma within_delete t s s' :
  capacity s' = (delete t (running s), max_concurrent_agents s) -> within s s'.
Proof.
  intros [= Hr Hm]. unfold within, active_capacity_used. rewrite Hr, Hm, map_size_delete.
  split; [done|]. left. destruct (running s !! t); simpl; lia.
Qed.

Lemma within_insert t w s s' :
  capacity s' = (<[t := w]> (running s), max_concurrent_agents s) ->
  active_capacity_used s < max_concurrent_agents s -> within s s'.
Proof.
  unfold active_capacity_used. intros [= Hr Hm] Hcap. unfold within, active_capacity_used.
  rewrite Hr, Hm, map_size_insert. split; [done|]. destruct (running s !! t); unfold id; lia.
Qed.

Lemma start_where_within f s : scheduler_ok s -> within s (start_ready_where f s).1.
Proof.
  intros Hok. destruct (start_ready_where_ok f s Hok) as [_ H].
  destruct (start_ready_where f s) as [s' [w|]]; [|by subst; apply within_same].
  destruct H as (Hcap & _ & q & _ & _ & Hr & _ & _ & _ & Hm). cbn [fst].
  apply (within_insert (turn_id w) w); [unfold capacity; congruence|exact Hcap].
Qed.

Lemma perform_within size c s :
  scheduler_ok s -> (forall n, c <> SetMaxConcurrentAgents n) -> within s (perform size c s).1.
Proof.
  intros Hok Hc. destruct c; simpl.
  - apply within_same. unfold enqueue. op_run. pose proof (ensure_capacity_capacity size w s) as Hcap.
    destruct (validate_work w); [|done..]. destruct (bool_decide _); [done|]. cbn -[insert_queued ensure_queue_capacity].
    destruct (ensure_queue_capacity size w s) as [s1 [[]|e|]]; [|done..].
    rewrite insert_queued_capacity. done.
  - by apply start_where_within.
  - by apply start_where_within.
  - unfold complete. destruct (running s !! t) as [w|]; [|by apply within_same]. cbn [fst].
    apply (within_delete t). by rewrite release_capacity.
  - unfold block_running. destruct (running s !! t) as [w|]; [|by apply within_same]. by apply (within_delete t).
  - unfold wait_running. destruct (running s !! t) as [w|]; [|by apply within_same]. by apply (within_delete t).
  - apply within_same. unfold requeue_blocked. op_run. destruct (blocked s !! t) as [w|]; [|done].
    cbn -[insert_queued ensure_queue_capacity]. pose proof (ensure_capacity_capacity size w s) as Hcap.
    destruct (ensure_queue_capacity size w s) as [s1 [[]|e|]]; [|done..]. cbn [fst] in Hcap. rewrite <- Hcap.
    set (s2 := put_reacquiring _ _). change (capacity s1) with (capacity s2).
    rewrite <- (insert_queued_capacity size now w SReacquiring s2).
    by destruct (insert_queued size now w SReacquiring s2) as [s3 [[]|e|]].
  - apply within_same. unfold requeue_waiting. op_run. destruct (waiting s !! t) as [w|]; [|done].
    cbn -[insert_queued ensure_queue_capacity]. pose proof (ensure_capacity_capacity size w s) as Hcap.
    destruct (ensure_queue_capacity size w s) as [s1 [[]|e|]]; [|done..]. cbn [fst] in Hcap. rewrite <- Hcap.
    set (s2 := put_reacquiring _ _). change (capacity s1) with (capacity s2).
    rewrite <- (insert_queued_capacity size now w SReacquiring s2).
    by destruct (insert_queued size now w SReacquiring s2) as [s3 [[]|e|]].
  - unfold resume_blocked. destruct (_ <=? _) eqn:Hle; [by apply within_same|]. apply N.leb_gt in Hle.
    destruct (blocked s !! t) as [w|]; [|by apply within_same]. by apply (within_insert t w).
  - unfold cancel. set (s1 := put_human_paused _ _). simpl. destruct (bool_decide _).
    { apply within_same. change (capacity s) with (capacity s1). pose proof (remove_queued_capacity t s1) as Hcap.
      destruct (remove_queued t s1) as [s2 [w|]]; [|done]. simpl in *. destruct (bool_decide _); [|done].
      destruct (reacquiring s2 !! t) as [v|]; [|done]. rewrite <- Hcap.
      etrans; [|exact (release_capacity v (put_reacquiring s2 (delete t (reacquiring s2))))]. done. }
    destruct (running s !! t) as [w|]; [apply (within_delete t); cbn [fst]; by rewrite release_capacity|].
    destruct (blocked s !! t) as [w|]; [apply within_same; cbn [fst]; by rewrite release_capacity|].
    destruct (waiting s !! t) as [w|]; [apply within_same; cbn [fst]; by rewrite release_capacity|].
    by apply within_same.
  - apply within_same. unfold set_human_paused. destruct paused; simpl;
      (destruct (queued s !! t) as [q|]; [|done]; by rewrite (ready_only_capacity _ _ (refresh_ready_only _ _))).
  - by destruct (Hc n).
  - apply within_same. unfold set_queue_limits. by destruct (_ || _).
Qed.

(** ** Theorems *)

(** C6. From fresh limits, every sequence of scheduler commands runs to the end:
    no command panics and the search for a free sequence number always ends.
    The state it leaves keeps the scheduler's invariant: every turn is in
    exactly the map its state names, the queue indexes and byte count agree
    with the queue, claims are those of the started turns and exclusive, and
    the ready index names each agent's first turn that can start. *)
Theorem scheduler_commands_safe size agents turns bytes s cs :
  with_limits agents turns bytes = Ok s -> turns <= usize_MAX -> bytes < usize_MAX ->
  Forall limits_fit cs ->
  exists s', perform_all size cs s = Some s' /\ scheduler_ok s'.
Proof.
  intros Hs Ht Hy Hfit. apply perform_all_ok; [|done]. by eapply with_limits_ok.
Qed.

(** C26. Turns that have started and not finished (running, blocked, waiting, or
    queued to reacquire capacity) never share an agent, and never share a pane
    they write to. *)
Theorem started_turns_exclusive size s t1 w1 t2 w2 :
  reachable size s -> owner s t1 w1 -> owner s t2 w2 -> t1 <> t2 ->
  agent_id w1 <> agent_id w2 /\ forall p, claimed_pane w1 = Some p -> claimed_pane w2 <> Some p.
Proof.
  intros Hs%reachable_ok H1 H2 Hne. destruct Hs as [_ _ _ Hc _].
  split; [intros E|intros p Hp Hp']; apply Hne.
  - by eapply (co_agent_once s Hc).
  - by eapply (co_pane_once s Hc).
Qed.

(** C27. [start_ready] starts a queued turn that is free to start, the one that
    was queued first among those of agents other than the last one started;
    only when no such agent has a turn to start does the last agent go again,
    with its first free turn. *)
Theorem start_is_fair sz s s' w :
  reachable sz s -> start_ready s = (s', Some w) ->
  exists q, queued s !! turn_id w = Some q /\ work q = w /\ free s w
    /\ N.of_nat (size (running s)) < max_concurrent_agents s
    /\ start_effect (turn_id w) w s s'
    /\ forall t r, queued s !! t = Some r -> free s (work r) ->
         if bool_decide (last_started_agent_id s = Some (agent_id w))
         then agent_id (work r) = agent_id w /\ sequence q <= sequence r
         else last_started_agent_id s <> Some (agent_id (work r)) -> sequence q <= sequence r.
Proof.
  intros Hs%reachable_ok. unfold start_ready, start_ready_where, active_capacity_used.
  destruct (_ <=? _) eqn:Hcap; [done|]. apply N.leb_gt in Hcap.
  assert (forall u r, queued s !! u = Some r -> free s (work r) -> startable s u r) as Hst
    by (intros; by apply startable_free).
  destruct (start_candidate_spec true (fun _ => true) s Hs)
    as [[Hn ->]|(n & a & t & q & s1 & Hc & Hq & -> & _ & Heff)].
  - destruct (start_candidate_spec false (fun _ => true) s Hs)
      as [[_ ->]|(n & a & t & q & s1 & Hc & Hq & -> & _ & Heff)]; [done|].
    intros [= <- <-]. pose proof Hq as [Ht Hf]%startable_free; [|done].
    pose proof (qo_id s (so_queue s Hs) t q Ht) as <-.
    destruct (candidate_some _ _ _ _ _ _ Hs Hc) as (q' & [Ht' _] & <- & _ & _ & _ & Hmin).
    assert (q' = q) as -> by congruence. exists q. do 5 (split; [done|]). intros u r Hu Hfr.
    assert (forall v x, startable s v x -> last_started_agent_id s = Some (agent_id (work x))) as Hlast.
    { intros v x Hx. pose proof (candidate_none s true _ v x Hs Hn ltac:(done) Hx) as Hnp. unfold preferred in Hnp.
      destruct (decide (last_started_agent_id s = Some (agent_id (work x)))); [done|]. by destruct Hnp. }
    pose proof (Hlast _ _ Hq) as Hl. pose proof (Hlast u r (Hst u r Hu Hfr)) as Hl'.
    rewrite bool_decide_true by done. split; [congruence|]. apply (Hmin ltac:(done) u r); [by apply Hst|done].
  - intros [= <- <-]. pose proof Hq as [Ht Hf]%startable_free; [|done].
    pose proof (qo_id s (so_queue s Hs) t q Ht) as <-.
    destruct (candidate_some _ _ _ _ _ _ Hs Hc) as (q' & [Ht' _] & <- & <- & Hp & _ & Hmin).
    assert (q' = q) as -> by congruence. exists q. do 5 (split; [done|]). intros u r Hu Hfr.
    rewrite bool_decide_false by by apply Hp. intros Hl. apply (Hmin ltac:(done) u r); [by apply Hst|by intros _].
Qed.

(** C35. [start_ready] starts nothing exactly when all capacity is in use or no
    queued turn is free to start; then it changes nothing. *)
Theorem start_makes_progress size s :
  reachable size s ->
  (start_ready s = (s, None) <->
   max_concurrent_agents s <= active_capacity_used s
   \/ forall t q, queued s !! t = Some q -> ~ free s (work q)).
Proof.
  intros Hs%reachable_ok. unfold start_ready, start_ready_where.
  destruct (_ <=? _) eqn:Hcap; [apply N.leb_le in Hcap; naive_solver|]. apply N.leb_gt in Hcap.
  destruct (start_candidate_spec true (fun _ => true) s Hs)
    as [[_ ->]|(n & a & t & q & s1 & _ & Hq & -> & _)].
  - destruct (start_candidate_spec false (fun _ => true) s Hs)
      as [[Hn ->]|(n & a & t & q & s1 & _ & Hq & -> & _)].
    + split; [|done]. intros _. right. intros t q Ht Hf.
      apply (candidate_none s false _ t q Hs Hn); [done| |done]. by apply startable_free.
    + split; [done|]. intros [?|H]; [lia|]. apply startable_free in Hq as [Ht Hf]; [|done]. exfalso. exact (H t q Ht Hf).
  - split; [done|]. intros [?|H]; [lia|]. apply startable_free in Hq as [Ht Hf]; [|done]. exfalso. exact (H t q Ht Hf).
Qed.

(** C36. [enqueue] accepts exactly the well-formed work whose turn is not known yet
    and that fits the limits on turns and bytes; then the turn is queued and
    both limits still hold.  In every other case it returns an error and the
    queue and the states of all turns are unchanged. *)
Theorem enqueue_admits_exactly size_of_work now w s :
  reachable size_of_work s ->
  let accepted := validate_work w = Ok tt /\ turn_states s !! turn_id w = None /\ admits size_of_work w s in
  let '(s', r) := enqueue size_of_work now w s in
  match r with
  | Ok _ =>
      accepted
      /\ (exists q, queued s' = <[turn_id w := q]> (queued s) /\ work q = w /\ enqueued_at q = now)
      /\ turn_states s' = <[turn_id w := SQueued]> (turn_states s)
      /\ N.of_nat (size (queued s')) <= max_queued_turns s
      /\ queued_bytes s' = queued_bytes s + estimated_work_bytes size_of_work w
      /\ queued_bytes s' <= max_queued_bytes s
  | Err _ => ~ accepted /\ queued s' = queued s /\ turn_states s' = turn_states s
  | Panic => False
  end.
Proof.
  intros Hs%reachable_ok.
  destruct (enqueue_spec size_of_work now w s Hs)
    as [(Hv & Hst & Had & s' & -> & Hok & [seq Hq] & Hts & _)|(s' & e & -> & [->| ->] & Hno)]; [|done..].
  pose proof (so_states s Hs (turn_id w)) as Hat. unfold state_at in Hat. rewrite Hst in Hat.
  destruct Hat as [Hnew _]. pose proof Had as [H1 H2].
  assert (queued_bytes s' = queued_bytes s + estimated_work_bytes size_of_work w) as Hbytes.
  { rewrite (qo_bytes s' (so_queue s' Hok)), (qo_bytes s (so_queue s Hs)), Hq, total_bytes_insert by done. simpl. lia. }
  split; [done|]. split; [by eexists|]. split; [done|]. split; [|split; [done|lia]].
  rewrite Hq, map_size_insert_None by done. lia.
Qed.

(** Cancelling a turn right after it was accepted gives its work back and
    restores the queue, the states of all turns, the claims, the byte count
    and the ready index. *)
Theorem cancel_undoes_enqueue size_of_work now w s s1 :
  reachable size_of_work s -> enqueue size_of_work now w s = (s1, Ok tt) ->
  let '(s2, r) := cancel (turn_id w) s1 in
  r = Ok (CancelledQueued w) /\ queued s2 = queued s /\ turn_states s2 = turn_states s
  /\ queued_bytes s2 = queued_bytes s
  /\ claimed_agents s2 = claimed_agents s /\ claimed_panes s2 = claimed_panes s
  /\ ready_by_agent s2 = ready_by_agent s.
Proof.
  intros Hs%reachable_ok He.
  destruct (enqueue_spec size_of_work now w s Hs)
    as [(Hv & Hst & Had & s' & Heq & Hok & [seq Hq] & Hts & Hca & Hcp & Hh)|(s' & e & Heq & _)];
    rewrite He in Heq; [|done]. injection Heq as <-.
  pose proof (so_states s Hs (turn_id w)) as Hat. unfold state_at in Hat. rewrite Hst in Hat.
  destruct Hat as [Hnew _]. set (q := mkQueued w seq now _) in *.
  assert (queued s1 !! turn_id w = Some q) as Hq1 by (by rewrite Hq, lookup_insert_eq).
  destruct (cancel_queued_ok (turn_id w) q s1 Hok Hq1) as [Hok2 Hr].
  destruct (cancel_queued_effect (turn_id w) q s1 Hok Hq1) as (F1 & F2 & F3 & F4 & F5);
    [by rewrite Hts, lookup_insert_eq|].
  destruct (cancel (turn_id w) s1) as [s2 r]. cbn [fst snd] in *.
  rewrite Hq, delete_insert_id in F1 by done. rewrite Hts, delete_insert_id in F2 by done.
  split; [done|]. split; [done|]. split; [done|]. split; [|split; [congruence|split; [congruence|]]].
  - by rewrite (qo_bytes s2 (so_queue s2 Hok2)), (qo_bytes s (so_queue s Hs)), F1.
  - apply ready_determined; [done..|]. intros t r0 Ht. pose proof (qo_id s (so_queue s Hs) t r0 Ht) as Hid.
    assert (t <> turn_id w) by congruence. apply can_start_frame; rewrite ?Hid, ?F2, ?F3, ?F4, ?F5, ?Hh, ?Hca, ?Hcp;
      [set_solver|done..].
Qed.

(** From a fresh scheduler, as long as the concurrency limit is not changed,
    the number of running turns never exceeds it: starting and resuming check
    it, and blocked, waiting and queued turns do not count. *)
Theorem capacity_respected size_of_work agents turns bytes s cs s' :
  with_limits agents turns bytes = Ok s -> turns <= usize_MAX -> bytes < usize_MAX ->
  Forall limits_fit cs -> Forall (fun c => forall n, c <> SetMaxConcurrentAgents n) cs ->
  perform_all size_of_work cs s = Some s' ->
  active_capacity_used s' <= agents.
Proof.
  intros Hs Ht Hy Hfit Hmax.
  assert (scheduler_ok s /\ active_capacity_used s <= agents /\ max_concurrent_agents s = agents) as Hinv.
  { split; [by eapply with_limits_ok|]. unfold with_limits in Hs. destruct (_ || _); [done|]. injection Hs as <-.
    split; [apply N.le_0_l|done]. }
  clear Hs. revert s Hinv. induction cs as [|c cs IH]; intros s (Hok & Hu & Hm); simpl; [by intros [= <-]|].
  apply Forall_cons in Hfit as [Hc Hcs], Hmax as [Hn Hns].
  destruct (perform_ok size_of_work c s Hok Hc) as [Hok' _].
  destruct (perform_within size_of_work c s Hok Hn) as [Hm' Hu'].
  destruct (perform size_of_work c s) as [s1 [u|e|]]; [| |done]; cbn [fst] in *;
    (apply IH; [done|done|]; split; [done|]; split; [lia|congruence]).
Qed.

(** ** Witnesses *)

Definition shell_work (t a p : string) : ScheduledWork := mkWork t "c1" a (Some p) ShellCapable.
Definition planning_work (t a : string) : ScheduledWork := mkWork t "c1" a None PlanningOnly.

Definition demo_start : AgentScheduler := empty_scheduler 2 8 4096.

(** Two turns of one agent and two of others; one starts and waits. *)
Definition demo_commands : list SchedulerCommand :=
  [Enqueue 0 (shell_work "t1" "a1" "p1"); Enqueue 1 (planning_work "t2" "a1");
   Enqueue 2 (shell_work "t3" "a2" "p1"); Enqueue 3 (planning_work "t4" "a3");
   StartReady; WaitRunning "t1"; StartReady; RequeueWaiting 4 "t1"; SetQueueLimits 6 4096].

Definition demo_state : AgentScheduler := default demo_start (perform_all 104 demo_commands demo_start).

Lemma demo_limits : Forall limits_fit demo_commands.
Proof. repeat constructor; by vm_compute. Qed.

Lemma demo_run : perform_all 104 demo_commands demo_start = Some demo_state.
Proof. by vm_compute. Qed.

Lemma demo_start_reachable : reachable 104 demo_start.
Proof. apply (reach_new 104 2 8 4096); by vm_compute. Qed.

Lemma demo_reachable : reachable 104 demo_state.
Proof. exact (perform_all_reachable 104 _ _ _ demo_start_reachable demo_limits demo_run). Qed.

Lemma scheduler_commands_safe_witness :
  with_limits 2 8 4096 = Ok demo_start
  /\ exists s', perform_all 104 demo_commands demo_start = Some s' /\ scheduler_ok s'.
Proof.
  split; [reflexivity|].
  apply (scheduler_commands_safe 104 2 8 4096); [reflexivity|by vm_compute|by vm_compute|exact demo_limits].
Defined.

Lemma started_turns_exclusive_witness :
  owner demo_state "t1" (shell_work "t1" "a1" "p1") /\ owner demo_state "t4" (planning_work "t4" "a3")
  /\ "a1"%string <> "a3"%string.
Proof.
  assert (owner demo_state "t1" (shell_work "t1" "a1" "p1")) as H1 by (right; right; right; by vm_compute).
  assert (owner demo_state "t4" (planning_work "t4" "a3")) as H4 by (left; by vm_compute).
  split; [exact H1|]. split; [exact H4|].
  exact (proj1 (started_turns_exclusive 104 demo_state "t1" (shell_work "t1" "a1" "p1")
                  "t4" (planning_work "t4" "a3") demo_reachable H1 H4 ltac:(discriminate))).
Defined.

(** The resumed turn starts, although its agent and pane are claimed. *)
Lemma start_is_fair_witness :
  exists s' q, start_ready demo_state = (s', Some (shell_work "t1" "a1" "p1"))
    /\ queued demo_state !! "t1" = Some q /\ free demo_state (work q).
Proof.
  assert (start_ready demo_state = ((start_ready demo_state).1, Some (shell_work "t1" "a1" "p1"))) as H
    by by vm_compute.
  destruct (start_is_fair 104 demo_state _ _ demo_reachable H) as (q & Hq & Hw & Hf & _).
  exists (start_ready demo_state).1, q. split; [exact H|]. split; [exact Hq|]. rewrite Hw. exact Hf.
Defined.

(** With both slots in use nothing starts. *)
Definition busy_commands : list SchedulerCommand := demo_commands ++ [StartReady].
Definition busy_state : AgentScheduler := default demo_start (perform_all 104 busy_commands demo_start).

Lemma busy_reachable : reachable 104 busy_state.
Proof.
  apply (perform_all_reachable 104 busy_commands demo_start); [exact demo_start_reachable| |by vm_compute].
  apply Forall_app. split; [exact demo_limits|by repeat constructor].
Qed.

Lemma start_makes_progress_witness :
  max_concurrent_agents busy_state <= active_capacity_used busy_state /\ start_ready busy_state = (busy_state, None).
Proof.
  assert (max_concurrent_agents busy_state <= active_capacity_used busy_state) as H by by vm_compute.
  split; [exact H|]. exact (proj2 (start_makes_progress 104 busy_state busy_reachable) (or_introl H)).
Defined.

Definition demo_work : ScheduledWork := shell_work "t5" "a4" "p2".

Lemma enqueue_admits_exactly_witness :
  exists q, queued (enqueue 104 5 demo_work demo_state).1 = <["t5" := q]> (queued demo_state) /\ enqueued_at q = 5.
Proof.
  pose proof (enqueue_admits_exactly 104 5 demo_work demo_state demo_reachable) as H.
  assert ((enqueue 104 5 demo_work demo_state).2 = Ok tt) as E by by vm_compute.
  destruct (enqueue 104 5 demo_work demo_state) as [s' r]. simpl in E. rewrite E in H.
  destruct H as (_ & (q & Hq & _ & Hn) & _). exists q. split; [exact Hq|exact Hn].
Defined.

Lemma cancel_undoes_enqueue_witness :
  queued (cancel "t5" (enqueue 104 5 demo_work demo_state).1).1 = queued demo_state.
Proof.
  assert (enqueue 104 5 demo_work demo_state = ((enqueue 104 5 demo_work demo_state).1, Ok tt)) as E by by vm_compute.
  pose proof (cancel_undoes_enqueue 104 5 demo_work demo_state _ demo_reachable E) as H.
  change (turn_id demo_work) with "t5"%string in H.
  destruct (cancel "t5" (enqueue 104 5 demo_work demo_state).1) as [s2 r]. exact (proj1 (proj2 H)).
Defined.

Lemma capacity_respected_witness : active_capacity_used busy_state <= 2.
Proof.
  apply (capacity_respected 104 2 8 4096 demo_start busy_commands);
    [reflexivity|by vm_compute|by vm_compute| | |by vm_compute].
  - apply Forall_app. split; [exact demo_limits|by repeat constructor].
  - by repeat constructor.
Defined.
