(* ===== verification/RustBytes.v ===== *)
(** * Byte strings

    Slicing, searching and splitting of byte strings, the UTF-8 check of
    [str::from_utf8], and ASCII case folding, as the wire code uses them. *)

From S2P Require Import Prelude RustStr.
From Stdlib Require Import Ascii.
Local Open Scope nat_scope.

Global Arguments String.append !_ _ / : simpl nomatch.

(** ** Slices *)

(** [&s[..n]] and [&s[n..]] for [n] in range; out of range the callers check
    the length first. *)
Fixpoint str_take (n : nat) (s : string) : string :=
  match n, s with
  | O, _ => EmptyString
  | _, EmptyString => EmptyString
  | S n, String a s => String a (str_take n s)
  end.

Fixpoint str_drop (n : nat) (s : string) : string :=
  match n, s with
  | O, _ => s
  | _, EmptyString => EmptyString
  | S n, String _ s => str_drop n s
  end.

Definition str_len (s : string) : N := N.of_nat (String.length s).

Lemma str_length_app s t : String.length (s +:+ t) = String.length s + String.length t.
Proof. induction s as [|a s IH]; simpl; [done|]. by rewrite IH. Qed.

Lemma str_app_nil_r s : s +:+ EmptyString = s.
Proof. induction s as [|a s IH]; simpl; [done|]. by rewrite IH. Qed.

Lemma str_app_assoc s t u : s +:+ (t +:+ u) = (s +:+ t) +:+ u.
Proof. induction s as [|a s IH]; simpl; [done|]. by rewrite IH. Qed.

Lemma str_take_app s t : str_take (String.length s) (s +:+ t) = s.
Proof. induction s as [|a s IH]; simpl; [by destruct t|]. by rewrite IH. Qed.

Lemma str_drop_app s t : str_drop (String.length s) (s +:+ t) = t.
Proof. induction s as [|a s IH]; simpl; [by destruct t|]. done. Qed.

Lemma str_drop_app_plus s t n : str_drop (String.length s + n) (s +:+ t) = str_drop n t.
Proof. induction s as [|a s IH]; simpl; done. Qed.

Lemma str_take_app_ge n s t :
  String.length s <= n -> str_take n (s +:+ t) = s +:+ str_take (n - String.length s) t.
Proof.
  revert n. induction s as [|a s IH]; intros n Hn; simpl; [by rewrite Nat.sub_0_r|].
  destruct n as [|n]; simpl in *; [lia|]. rewrite IH by lia. done.
Qed.

Lemma str_take_drop n s : str_take n s +:+ str_drop n s = s.
Proof. revert n. induction s as [|a s IH]; intros [|n]; simpl; [done..|]. by rewrite IH. Qed.

Lemma str_length_take n s : String.length (str_take n s) = Nat.min n (String.length s).
Proof. revert n. induction s as [|a s IH]; intros [|n]; simpl; [done..|]. by rewrite IH. Qed.

Lemma str_length_drop n s : String.length (str_drop n s) = String.length s - n.
Proof. revert n. induction s as [|a s IH]; intros [|n]; simpl; [done..|]. by rewrite IH. Qed.

Lemma str_take_all n s : String.length s <= n -> str_take n s = s.
Proof. revert n. induction s as [|a s IH]; intros [|n] H; simpl in *; [done..|lia|]. rewrite IH by lia. done. Qed.

Lemma str_drop_all n s : String.length s <= n -> str_drop n s = EmptyString.
Proof. revert n. induction s as [|a s IH]; intros [|n] H; simpl in *; [done..|lia|]. apply IH. lia. Qed.

(** Two ways to cut the same bytes. *)
Lemma str_app_split s t u v :
  s +:+ t = u +:+ v -> String.length u <= String.length s -> exists w, s = u +:+ w /\ v = w +:+ t.
Proof.
  revert s. induction u as [|a u IH]; intros s; simpl; [by exists s|].
  destruct s as [|b s]; simpl; [lia|]. intros [= -> H] Hl. destruct (IH s H) as (w & -> & ->); [lia|]. by exists w.
Qed.

(** ** Searching *)

Lemma strip_prefix_Some p s t : strip_prefix p s = Some t <-> s = p +:+ t.
Proof.
  revert s. induction p as [|a p IH]; intros s; simpl; [naive_solver|].
  destruct s as [|b s]; [done|]. destruct (Ascii.eqb_spec a b) as [->|Hne].
  - rewrite IH. split; [by intros ->|]. by intros [= ->].
  - split; [done|]. by intros [= -> _].
Qed.

(** [windows(n).position(|w| w == p)] and [str::find] for a fixed text. *)
Fixpoint find_sub (p s : string) : option nat :=
  match strip_prefix p s with
  | Some _ => Some 0
  | None => match s with
            | EmptyString => None
            | String _ s => S <$> find_sub p s
            end
  end.

(** The first match: where it is, and that none is earlier. *)
Lemma find_sub_Some p s i :
  find_sub p s = Some i ->
  exists a b, s = a +:+ p +:+ b /\ String.length a = i.
Proof.
  revert i. induction s as [|c s IH]; intros i; simpl.
  - destruct (strip_prefix p EmptyString) eqn:E; [|done]. intros [= <-].
    apply strip_prefix_Some in E. by exists EmptyString, s.
  - destruct (strip_prefix p (String c s)) eqn:E.
    + intros [= <-]. apply strip_prefix_Some in E. by exists EmptyString, s0.
    + destruct (find_sub p s) as [j|] eqn:Hj; [|done]. intros [= <-].
      destruct (IH j eq_refl) as (a & b & -> & Ha). exists (String c a), b. simpl. by rewrite Ha.
Qed.

Lemma find_sub_bound p s i : find_sub p s = Some i -> i + String.length p <= String.length s.
Proof. intros (a & b & -> & <-)%find_sub_Some. rewrite !str_length_app. lia. Qed.

(** A match in a prefix is the first match of the whole. *)
Lemma strip_prefix_app p s t r : strip_prefix p s = Some r -> strip_prefix p (s +:+ t) = Some (r +:+ t).
Proof. rewrite !strip_prefix_Some. intros ->. by rewrite str_app_assoc. Qed.

Lemma strip_prefix_app_None p s t :
  strip_prefix p s = None -> String.length p <= String.length s -> strip_prefix p (s +:+ t) = None.
Proof.
  revert s. induction p as [|a p IH]; intros [|b s]; simpl; [done..|lia|].
  destruct (a =? b)%char; [|done]. intros H Hl. apply IH; [done|lia].
Qed.

Lemma find_sub_app p s t i :
  p <> EmptyString -> find_sub p s = Some i -> find_sub p (s +:+ t) = Some i.
Proof.
  intros Hp. revert i. induction s as [|c s IH]; intros i.
  - by destruct p.
  - intros Hi. pose proof (find_sub_bound _ _ _ Hi) as Hb. revert Hi. simpl find_sub.
    destruct (strip_prefix p (String c s)) eqn:E.
    + intros [= <-]. pose proof (strip_prefix_app _ _ t _ E) as E'. simpl in E'. by rewrite E'.
    + destruct (find_sub p s) as [j|] eqn:Hj; [|done]. intros [= <-].
      assert (strip_prefix p (String c (s +:+ t)) = None) as ->
        by (apply (strip_prefix_app_None p (String c s) t); [done|lia]).
      by rewrite (IH j).
Qed.

(** No match in a proper prefix that ends before the first match does. *)
Lemma find_sub_prefix p s t i :
  p <> EmptyString -> find_sub p (s +:+ t) = Some i -> String.length s < i + String.length p ->
  find_sub p s = None.
Proof.
  intros Hp Hi Hl. destruct (find_sub p s) as [j|] eqn:Hj; [|done].
  pose proof (find_sub_bound _ _ _ Hj). apply (find_sub_app p s t) in Hj; [|done].
  assert (i = j) by congruence. lia.
Qed.

(** [str::split_once] and [str::split] at a fixed text. *)
Definition split_once (p s : string) : option (string * string) :=
  match find_sub p s with
  | Some i => Some (str_take i s, str_drop (i + String.length p) s)
  | None => None
  end.

Fixpoint split_fuel (fuel : nat) (p s : string) : list string :=
  match fuel with
  | O => [s]
  | S fuel => match split_once p s with
              | Some (l, r) => l :: split_fuel fuel p r
              | None => [s]
              end
  end.
Definition split (p s : string) : list string := split_fuel (S (String.length s)) p s.

Lemma split_once_app p s t :
  find_sub p (s +:+ p +:+ t) = Some (String.length s) -> split_once p (s +:+ p +:+ t) = Some (s, t).
Proof.
  intros H. unfold split_once. rewrite H, str_take_app, str_drop_app_plus, str_drop_app. done.
Qed.

Lemma split_fuel_more p : forall n m s,
  p <> EmptyString -> String.length s < n -> String.length s < m -> split_fuel n p s = split_fuel m p s.
Proof.
  induction n as [|n IH]; intros m s Hp Hn Hm; [lia|]. destruct m as [|m]; [lia|]. simpl.
  destruct (split_once p s) as [[l r]|] eqn:E; [|done]. f_equal. unfold split_once in E.
  destruct (find_sub p s) as [i|] eqn:Hi; [|done]. injection E as <- <-.
  pose proof (find_sub_bound _ _ _ Hi). assert (0 < String.length p) by (destruct p; [done|simpl; lia]).
  apply IH; [done|rewrite str_length_drop; lia..].
Qed.

Lemma split_app p s t :
  p <> EmptyString -> find_sub p (s +:+ p +:+ t) = Some (String.length s) ->
  split p (s +:+ p +:+ t) = s :: split p t.
Proof.
  intros Hp H. unfold split at 1. simpl. rewrite split_once_app by done. f_equal.
  assert (0 < String.length p) by (destruct p; [done|simpl; lia]).
  apply split_fuel_more; [done|rewrite ?str_length_app; lia..].
Qed.

Lemma split_none p s : find_sub p s = None -> split p s = [s].
Proof. intros H. unfold split. simpl. unfold split_once. by rewrite H. Qed.

(** ** ASCII case *)

Definition ascii_lower (a : ascii) : ascii :=
  let n := N_of_ascii a in
  if ((65 <=? n) && (n <=? 90))%N then ascii_of_N (n + 32) else a.

(** [str::to_ascii_lowercase] and [str::eq_ignore_ascii_case]. *)
Fixpoint to_ascii_lowercase (s : string) : string :=
  match s with
  | EmptyString => EmptyString
  | String a s => String (ascii_lower a) (to_ascii_lowercase s)
  end.
Definition eq_ignore_ascii_case (a b : string) : bool :=
  bool_decide (to_ascii_lowercase a = to_ascii_lowercase b).

(** ** UTF-8 *)

Definition byte_in (lo hi : N) (a : ascii) : bool :=
  let n := N_of_ascii a in ((lo <=? n) && (n <=? hi))%N.
Definition continuation (a : ascii) : bool := byte_in 128 191 a.

(** The byte sequences of the Unicode standard, table 3-7: no overlong forms,
    no surrogates, nothing above U+10FFFF. *)
Fixpoint utf8 (s : string) : bool :=
  match s with
  | EmptyString => true
  | String a s1 =>
      if byte_in 0 127 a then utf8 s1 else
      match s1 with
      | EmptyString => false
      | String b s2 =>
          if byte_in 194 223 a then continuation b && utf8 s2 else
          match s2 with
          | EmptyString => false
          | String c s3 =>
              if byte_in 224 239 a then
                (if byte_in 224 224 a then byte_in 160 191 b
                 else if byte_in 237 237 a then byte_in 128 159 b else continuation b)
                && continuation c && utf8 s3
              else
              match s3 with
              | EmptyString => false
              | String d s4 =>
                  byte_in 240 244 a
                  && (if byte_in 240 240 a then byte_in 144 191 b
                      else if byte_in 244 244 a then byte_in 128 143 b else continuation b)
                  && continuation c && continuation d && utf8 s4
              end
          end
      end
  end.

(** [str::from_utf8]. *)
Definition from_utf8 (s : string) : option string := if utf8 s then Some s else None.

Example utf8_examples :
  utf8 (bytes [226; 128; 166]%N) = true /\ utf8 (bytes [192; 128]%N) = false /\ utf8 (bytes [237; 160; 128]%N) = false
  /\ utf8 (bytes [244; 144; 128; 128]%N) = false /\ utf8 (bytes [195]%N) = false.
Proof. by vm_compute. Qed.

Lemma utf8_app s t : utf8 s = true -> utf8 t = true -> utf8 (s +:+ t) = true.
Proof.
  intros Hs Ht. remember (String.length s) as n eqn:Hn. revert s Hn Hs.
  induction (lt_wf n) as [n _ IH]; intros s -> Hs. destruct s as [|a s1]; [done|]. simpl in Hs |- *.
  destruct (byte_in 0 127 a); [apply (IH (String.length s1)); simpl; [lia|done..]|].
  destruct s1 as [|b s2]; [done|]. simpl in Hs |- *.
  destruct (byte_in 194 223 a).
  { apply andb_true_iff in Hs as [-> Hs]. apply (IH (String.length s2)); simpl; [lia|done..]. }
  destruct s2 as [|c s3]; [done|]. simpl in Hs |- *.
  destruct (byte_in 224 239 a).
  { apply andb_true_iff in Hs as [-> Hs]. apply (IH (String.length s3)); simpl; [lia|done..]. }
  destruct s3 as [|d s4]; [done|]. simpl in Hs |- *.
  apply andb_true_iff in Hs as [-> Hs]. apply (IH (String.length s4)); simpl; [lia|done..].
Qed.
