(* ===== verification/Framing.v ===== *)
(** * Protocol frames ([mezzanine/src/protocol/framing])

    Content-length frames: an ASCII header block, an empty line, and a UTF-8
    body.  Bytes and text are both [string]; [str::from_utf8] is the check that
    separates them.  The one-shot decoder, the incremental decoder and the
    codec are the functions of [wire.rs] and [codec.rs]. *)

From S2P Require Import Prelude RustStr RustBytes.
From Stdlib Require Import Ascii.
Local Open Scope N_scope.

(** ** Errors ([error.rs]) *)

Inductive MezErrorKind :=
| InvalidArgs | InvalidState | Config | Io | Conflict | NotFound | Forbidden | RateLimited | NotImplemented.

(** What [MezError::new] sets; its other fields keep their defaults here. *)
Record MezError := mkMezError { me_kind : MezErrorKind; me_message : string }.

Definition invalid_args (message : string) : MezError := mkMezError InvalidArgs message.

(** ** Types ([types.rs]) *)

Record ProtocolFrame := mkFrame { content_type : string; body : string }.
Record ProtocolFrameCodec := mkCodec { max_content_length : N }.

#[global] Instance ProtocolFrame_eq_dec : EqDecision ProtocolFrame.
Proof. solve_decision. Defined.

Definition new_codec (max : N) : outcome MezError ProtocolFrameCodec :=
  if max =? 0
  then Err (invalid_args "protocol frame codec max content length must be greater than zero")
  else Ok (mkCodec max).

(** ** The wire format ([wire.rs]) *)

Definition MAX_PROTOCOL_HEADER_BYTES : nat := 8192.

Definition CRLF : string := bytes [13; 10].
Definition CRLF2 : string := bytes [13; 10; 13; 10].

(** The header block without its terminator. *)
Definition frame_header (f : ProtocolFrame) : string :=
  "Content-Length: " +:+ u64_to_string (str_len (body f)) +:+ CRLF +:+ "Content-Type: " +:+ content_type f.

Definition encode_frame (f : ProtocolFrame) : string := frame_header f +:+ CRLF2 +:+ body f.

Definition find_header_end (input : string) : outcome MezError (option nat) :=
  let bounded := str_take MAX_PROTOCOL_HEADER_BYTES input in
  match find_sub CRLF2 bounded with
  | Some end_ => Ok (Some end_)
  | None =>
      if bool_decide (MAX_PROTOCOL_HEADER_BYTES <= String.length input)%nat
      then Err (invalid_args "protocol frame header exceeds 8192-byte limit")
      else Ok None
  end.

(** One turn of the header loop of [decode_frame]: the content length seen so
    far and the content type. *)
Definition header_line (line : string) (st : option N * string) : outcome MezError (option N * string) :=
  let '(length, ctype) := st in
  match split_once ":" line with
  | None => Err (invalid_args "malformed protocol frame header")
  | Some (name, value) =>
      let name := to_ascii_lowercase (trim name) in
      let value := trim value in
      if bool_decide (name = "content-length"%string) then
        match length with
        | Some _ => Err (invalid_args "duplicate Content-Length header")
        | None => match parse_u64 value with
                  | Some n => Ok (Some n, ctype)
                  | None => Err (invalid_args "invalid Content-Length header")
                  end
        end
      else if bool_decide (name = "content-type"%string) then Ok (length, value)
      else Ok st
  end.

Definition usize_checked_add (a b : N) : option N := if a + b <=? u64_max then Some (a + b) else None.

Definition decode_frame (input : string) (max : N) : outcome MezError (ProtocolFrame * N) :=
  find_header_end input ≫= fun found =>
  ok_or found (invalid_args "protocol frame is missing header terminator") ≫= fun header_end =>
  ok_or (from_utf8 (str_take header_end input)) (invalid_args "protocol frame headers must be UTF-8")
    ≫= fun header =>
  fold_outcome header_line (split CRLF header) (None, "application/json"%string) ≫= fun '(length, ctype) =>
  ok_or length (invalid_args "missing Content-Length header") ≫= fun length =>
  if max <? length then Err (invalid_args "Content-Length exceeds configured limit") else
  let body_start := (header_end + 4)%nat in
  ok_or (usize_checked_add (N.of_nat body_start) length) (invalid_args "Content-Length overflow")
    ≫= fun body_end =>
  if str_len input <? body_end then Err (invalid_args "incomplete protocol frame body") else
  ok_or (from_utf8 (str_take (N.to_nat length) (str_drop body_start input)))
    (invalid_args "protocol frame body must be UTF-8") ≫= fun body =>
  Ok (mkFrame ctype body, body_end).

(** One turn of the loop of [frame_content_length_from_header]. *)
Definition length_line (line : string) (length : option N) : outcome MezError (option N) :=
  match split_once ":" line with
  | None => Err (invalid_args "malformed protocol frame header")
  | Some (name, value) =>
      if eq_ignore_ascii_case (trim name) "content-length" then
        match length with
        | Some _ => Err (invalid_args "duplicate Content-Length header")
        | None => match parse_u64 (trim value) with
                  | Some n => Ok (Some n)
                  | None => Err (invalid_args "invalid Content-Length header")
                  end
        end
      else Ok length
  end.

Definition frame_content_length_from_header (header : string) : outcome MezError N :=
  ok_or (from_utf8 header) (invalid_args "protocol frame headers must be UTF-8") ≫= fun header =>
  fold_outcome length_line (split CRLF header) None ≫= fun length =>
  ok_or length (invalid_args "missing Content-Length header").

Definition decode_frame_incremental (input : string) (max : N)
    : outcome MezError (option (ProtocolFrame * N)) :=
  find_header_end input ≫= fun found =>
  match found with
  | None => Ok None
  | Some header_end =>
      frame_content_length_from_header (str_take header_end input) ≫= fun length =>
      if max <? length then Err (invalid_args "Content-Length exceeds configured limit") else
      ok_or (usize_checked_add (N.of_nat (header_end + 4)) length) (invalid_args "Content-Length overflow")
        ≫= fun body_end =>
      if str_len input <? body_end then Ok None
      else decode_frame input max ≫= fun r => Ok (Some r)
  end.

(** ** The codec ([codec.rs]); the state is the read or write buffer. *)

Definition decode (codec : ProtocolFrameCodec) : op MezError string (option ProtocolFrame) := fun src =>
  match decode_frame_incremental src (max_content_length codec) with
  | Ok None => (src, Ok None)
  | Ok (Some (frame, consumed)) => (str_drop (N.to_nat consumed) src, Ok (Some frame))
  | Err e => (src, Err e)
  | Panic => (src, Panic)
  end.

Definition encode (codec : ProtocolFrameCodec) (item : ProtocolFrame) : op MezError string unit := fun dst =>
  if max_content_length codec <? str_len (body item)
  then (dst, Err (invalid_args "protocol frame body exceeds configured limit"))
  else (dst +:+ encode_frame item, Ok tt).

(** ** Message frames ([message/framing.rs]) *)

Definition MMP_CONTENT_TYPE : string := "application/vnd.mezzanine.mmp+json; version=1".

Definition encode_mmp_body (b : string) : string := encode_frame (mkFrame MMP_CONTENT_TYPE b).

Definition decode_mmp_frame (input : string) (max : N) : outcome MezError (string * N) :=
  decode_frame input max ≫= fun '(frame, consumed) =>
  if bool_decide (content_type frame = MMP_CONTENT_TYPE) then Ok (body frame, consumed)
  else Err (invalid_args "unexpected MMP frame content type").

Example decode_example :
  decode_frame (bytes [67;79;78;84;69;78;84;45;108;101;110;103;116;104;58;50;13;10;120;58;121;13;10;13;10;123;125;33]) 10
  = Ok (mkFrame "application/json" "{}", 27).
Proof. by vm_compute. Qed.
