(* ===== verification/FramingTheorems.v ===== *)
(** * Theorems on protocol frames

    Encoding and decoding are inverse, the incremental decoder agrees with the
    one-shot decoder, a stream of frames is decoded the same however it is cut
    into chunks, and pending input is bounded. *)

From S2P Require Import Prelude RustStr RustBytes Framing.
From Stdlib Require Import Ascii.
Local Open Scope nat_scope.

Lemma fold_outcome_cons {E A S} (g : A -> S -> outcome E S) x l st :
  fold_outcome g (x :: l) st = (g x st ≫= fun st => fold_outcome g l st).
Proof. done. Qed.

(** ** Lines *)

Lemma find_sub_cons p a s :
  find_sub p (String a s) =
    match strip_prefix p (String a s) with Some _ => Some 0 | None => S <$> find_sub p s end.
Proof. done. Qed.

Abbreviation CR := (ascii_of_N 13).
Abbreviation LF := (ascii_of_N 10).

(** A carriage return with a line feed behind it. *)
Definition at_crlf (a : ascii) (s : string) : Prop := a = CR /\ exists t, s = String LF t.

Lemma strip_crlf p a s : ~ at_crlf a s -> strip_prefix (CRLF +:+ p) (String a s) = None.
Proof.
  intros H. apply eq_None_not_Some. intros [t Ht]. apply strip_prefix_Some in Ht.
  injection Ht as -> ->. apply H. split; [done|]. by eexists.
Qed.

Lemma no_crlf_cons a s : find_sub CRLF (String a s) = None -> find_sub CRLF s = None /\ ~ at_crlf a s.
Proof.
  rewrite find_sub_cons. destruct (strip_prefix CRLF (String a s)) eqn:E; [done|].
  destruct (find_sub CRLF s); [done|]. intros _. split; [done|]. intros (-> & t & ->). done.
Qed.

(** Text that does not start in the middle of a line end. *)
Definition line_start (t : string) : Prop := forall u, t <> String LF u.

Lemma at_crlf_app a s t : line_start t -> at_crlf a (s +:+ t) -> at_crlf a s.
Proof.
  intros Ht (-> & u & Hu). split; [done|]. destruct s as [|b s]; simpl in Hu; [by apply Ht in Hu|].
  injection Hu as -> _. by exists s.
Qed.

(** No occurrence inside a line, nor across its end: for [CRLF] itself, and for
    the header terminator. *)
Lemma line_step p s t :
  find_sub CRLF s = None -> line_start t ->
  find_sub (CRLF +:+ p) (s +:+ t) = Nat.add (String.length s) <$> find_sub (CRLF +:+ p) t.
Proof.
  intros Hs Ht. induction s as [|a s IH]; [by simpl; destruct (find_sub _ t)|].
  apply no_crlf_cons in Hs as [Hs Ha]. simpl (String a s +:+ t). rewrite find_sub_cons, IH by done.
  rewrite strip_crlf by (intros H; apply Ha; by eapply at_crlf_app). by destruct (find_sub _ t).
Qed.

Lemma find_line_end s t : find_sub CRLF s = None -> find_sub CRLF (s +:+ CRLF +:+ t) = Some (String.length s).
Proof. intros Hs. etrans; [by apply (line_step EmptyString)|]. simpl. f_equal. lia. Qed.

Lemma terminator_step s t :
  find_sub CRLF s = None -> line_start t ->
  find_sub CRLF2 (s +:+ t) = Nat.add (String.length s) <$> find_sub CRLF2 t.
Proof. apply (line_step CRLF). Qed.

Lemma terminator_after s t :
  find_sub CRLF s = None -> find_sub CRLF2 (s +:+ CRLF2 +:+ t) = Some (String.length s).
Proof. intros Hs. rewrite terminator_step; [|done|done]. simpl. f_equal. lia. Qed.

(** Text without carriage returns. *)
Fixpoint no_cr (s : string) : bool :=
  match s with EmptyString => true | String a s => negb (a =? CR)%char && no_cr s end.

Lemma no_cr_app s t : no_cr (s +:+ t) = no_cr s && no_cr t.
Proof. induction s as [|a s IH]; simpl; [done|]. by rewrite IH, andb_assoc. Qed.

Lemma plain_step p s t :
  no_cr s = true -> find_sub (CRLF +:+ p) (s +:+ t) = Nat.add (String.length s) <$> find_sub (CRLF +:+ p) t.
Proof.
  induction s as [|a s IH]; [by simpl; destruct (find_sub _ t)|]. simpl no_cr.
  intros [Ha%negb_true_iff%Ascii.eqb_neq Hs]%andb_true_iff. simpl (String a s +:+ t).
  rewrite find_sub_cons, IH, strip_crlf by (done || by intros [-> _]). by destruct (find_sub _ t).
Qed.

Lemma plain_crlf s t : no_cr s = true -> find_sub CRLF (s +:+ t) = Nat.add (String.length s) <$> find_sub CRLF t.
Proof. apply (plain_step EmptyString). Qed.

(** ** Digits *)

Fixpoint all_digits (s : string) : bool :=
  match s with
  | EmptyString => true
  | String a s => bool_decide (is_Some (digit_value a)) && all_digits s
  end.

Lemma digits_value_all acc s n : digits_value acc s = Some n -> all_digits s = true.
Proof.
  revert acc. induction s as [|a s IH]; intros acc; simpl; [done|].
  destruct (digit_value a) as [d|] eqn:Ha; [|done]. intros H. rewrite bool_decide_true by eauto. by eapply IH.
Qed.

Lemma number_digits n : all_digits (u64_to_string n) = true.
Proof. by eapply digits_value_all, digits_value_pretty. Qed.

(** A digit is no white space, starts no white space, and is one ASCII byte. *)
Lemma digit_plain a : is_Some (digit_value a) ->
  byte_in 0 127 a = true /\ a <> ascii_of_N 13
  /\ (forall s, strip_one white_space (String a s) = None)
  /\ (forall s, strip_one (String.rev <$> white_space) (String a s) = None).
Proof.
  destruct a as [[] [] [] [] [] [] [] []]; intros [d Hd]; vm_compute in Hd; try discriminate; (split; [done|]);
    (split; [done|]); split; reflexivity.
Qed.

Lemma all_digits_app s t : all_digits (s +:+ t) = all_digits s && all_digits t.
Proof. induction s as [|a s IH]; simpl; [done|]. by rewrite IH, andb_assoc. Qed.

Lemma str_rev_app_spec s t : String.rev_app s t = String.rev s +:+ t.
Proof.
  revert t. unfold String.rev. induction s as [|a s IH]; intros t; simpl; [done|].
  rewrite (IH (String a t)), (IH (String a EmptyString)), <- str_app_assoc. done.
Qed.

Lemma str_rev_cons a s : String.rev (String a s) = String.rev s +:+ String a EmptyString.
Proof. unfold String.rev. simpl. apply str_rev_app_spec. Qed.

Lemma str_rev_app s t : String.rev (s +:+ t) = String.rev t +:+ String.rev s.
Proof.
  induction s as [|a s IH]; [by rewrite str_app_nil_r|]. simpl (String a s +:+ t).
  by rewrite !str_rev_cons, IH, str_app_assoc.
Qed.

Lemma str_rev_involutive s : String.rev (String.rev s) = s.
Proof. induction s as [|a s IH]; [done|]. by rewrite str_rev_cons, str_rev_app, IH. Qed.

Lemma all_digits_rev s : all_digits (String.rev s) = all_digits s.
Proof.
  induction s as [|a s IH]; [done|]. rewrite str_rev_cons, all_digits_app, IH. simpl. by rewrite andb_true_r, andb_comm.
Qed.

Lemma strip_all_id ws n s : strip_one ws s = None -> strip_all n ws s = s.
Proof. intros H. destruct n; simpl; [done|]. by rewrite H. Qed.

Lemma trim_digits s : all_digits s = true -> trim s = s.
Proof.
  intros H. unfold trim. assert (trim_start s = s) as ->.
  { destruct s as [|a s]; [done|]. apply strip_all_id. simpl in H. apply andb_true_iff in H as [Ha%bool_decide_eq_true _].
    exact (proj1 (proj2 (proj2 (digit_plain a Ha))) s). }
  unfold trim_end. rewrite strip_all_id; [apply str_rev_involutive|].
  rewrite <- all_digits_rev in H. destruct (String.rev s) as [|a r]; [done|].
  simpl in H. apply andb_true_iff in H as [Ha%bool_decide_eq_true _].
  exact (proj2 (proj2 (proj2 (digit_plain a Ha))) r).
Qed.

(** The space after the colon is trimmed. *)
Lemma trim_space s : trim (String " " s) = trim s.
Proof. unfold trim. f_equal. Qed.

Lemma digits_no_cr s : all_digits s = true -> no_cr s = true.
Proof.
  induction s as [|a s IH]; [done|]. simpl. intros [Ha%bool_decide_eq_true Hs]%andb_true_iff.
  destruct (digit_plain a Ha) as (_ & Hcr & _). rewrite IH, andb_true_r by done.
  by apply negb_true_iff, Ascii.eqb_neq.
Qed.

Lemma digits_utf8 s : all_digits s = true -> utf8 s = true.
Proof.
  induction s as [|a s IH]; [done|]. simpl. intros [Ha%bool_decide_eq_true Hs]%andb_true_iff.
  destruct (digit_plain a Ha) as (-> & _). by apply IH.
Qed.

(** ** Decoding an encoded frame *)

(** A content type that survives the header: one trimmed line. *)
Record frame_ok (f : ProtocolFrame) (max : N) : Prop := {
  fo_type_utf8 : utf8 (content_type f) = true;
  fo_type_trim : trim (content_type f) = content_type f;
  fo_type_line : find_sub CRLF (content_type f) = None;
  fo_header : String.length (frame_header f) + 4 <= MAX_PROTOCOL_HEADER_BYTES;
  fo_body_utf8 : utf8 (body f) = true;
  fo_body : (str_len (body f) <= max)%N;
  fo_size : (str_len (encode_frame f) <= u64_max)%N }.

Section Encoded.
Context (f : ProtocolFrame) (max : N) (Hf : frame_ok f max).

Definition number : string := u64_to_string (str_len (body f)).
Definition length_header : string := "Content-Length: " +:+ number.
Definition type_header : string := "Content-Type: " +:+ content_type f.

Lemma header_lines : frame_header f = length_header +:+ CRLF +:+ type_header.
Proof. unfold frame_header, length_header, type_header. by rewrite <- str_app_assoc. Qed.

Lemma length_header_line : find_sub CRLF length_header = None.
Proof.
  unfold length_header. rewrite <- (str_app_nil_r number), str_app_assoc.
  rewrite (plain_crlf _ EmptyString); [done|]. rewrite no_cr_app.
  apply andb_true_iff. split; [done|]. apply digits_no_cr, number_digits.
Qed.

Lemma type_header_line : find_sub CRLF type_header = None.
Proof. unfold type_header. by rewrite plain_crlf, (fo_type_line f max Hf). Qed.

(** The terminator is found right behind the header, whatever follows. *)
Lemma terminator_found t :
  find_sub CRLF2 (frame_header f +:+ CRLF2 +:+ t) = Some (String.length (frame_header f)).
Proof.
  rewrite header_lines, <- !str_app_assoc, terminator_step by (exact length_header_line || done).
  change (find_sub CRLF2 (CRLF +:+ type_header +:+ CRLF2 +:+ t))
    with (S <$> (S <$> find_sub CRLF2 (type_header +:+ CRLF2 +:+ t))).
  rewrite terminator_after by exact type_header_line. simpl. f_equal.
  rewrite !str_length_app. simpl. lia.
Qed.

Lemma header_end_found t :
  find_header_end (frame_header f +:+ CRLF2 +:+ t) = Ok (Some (String.length (frame_header f))).
Proof.
  unfold find_header_end. pose proof (fo_header f max Hf) as Hl.
  assert (String.length (frame_header f +:+ CRLF2) <= MAX_PROTOCOL_HEADER_BYTES) as Hl'
    by (rewrite str_length_app; change (String.length CRLF2) with 4; lia).
  rewrite str_app_assoc, str_take_app_ge, <- str_app_assoc, terminator_found by done. done.
Qed.

Lemma header_utf8 : utf8 (frame_header f) = true.
Proof.
  rewrite header_lines. unfold length_header, type_header.
  repeat apply utf8_app; [done|by apply digits_utf8, number_digits|done|done|by apply (fo_type_utf8 f max)].
Qed.

Lemma header_split : split CRLF (frame_header f) = [length_header; type_header].
Proof.
  rewrite header_lines, split_app; [|done|by apply find_line_end, length_header_line].
  by rewrite split_none by exact type_header_line.
Qed.

Lemma body_length_u64 : (str_len (body f) <= u64_max)%N.
Proof.
  pose proof (fo_size f max Hf) as H. unfold str_len, encode_frame in *. rewrite !str_length_app in H. lia.
Qed.

Lemma number_parsed : parse_u64 (trim (String " " number)) = Some (str_len (body f)).
Proof.
  rewrite trim_space, trim_digits by apply number_digits. apply parse_u64_to_string, body_length_u64.
Qed.

Lemma length_header_split : split_once ":" length_header = Some ("Content-Length"%string, String " " number).
Proof. unfold length_header, split_once. simpl. by destruct number. Qed.

Lemma type_header_split : split_once ":" type_header = Some ("Content-Type"%string, String " " (content_type f)).
Proof. unfold type_header, split_once. simpl. by destruct (content_type f). Qed.

Lemma length_header_decoded t : header_line length_header (None, t) = Ok (Some (str_len (body f)), t).
Proof. unfold header_line. rewrite length_header_split, number_parsed. done. Qed.

Lemma type_header_decoded n t : header_line type_header (n, t) = Ok (n, content_type f).
Proof. unfold header_line. rewrite type_header_split, trim_space, (fo_type_trim f max Hf). done. Qed.

Lemma header_decoded :
  fold_outcome header_line (split CRLF (frame_header f)) (None, "application/json"%string)
  = Ok (Some (str_len (body f)), content_type f).
Proof.
  rewrite header_split, fold_outcome_cons, length_header_decoded. cbn [mbind outcome_bind].
  by rewrite fold_outcome_cons, type_header_decoded.
Qed.

Lemma length_line_length : length_line length_header None = Ok (Some (str_len (body f))).
Proof. unfold length_line. rewrite length_header_split, number_parsed. done. Qed.

Lemma length_line_type n : length_line type_header n = Ok n.
Proof. unfold length_line. rewrite type_header_split. done. Qed.

Lemma length_decoded : frame_content_length_from_header (frame_header f) = Ok (str_len (body f)).
Proof.
  unfold frame_content_length_from_header, from_utf8. rewrite header_utf8. cbn [ok_or mbind outcome_bind].
  rewrite header_split, fold_outcome_cons, length_line_length. cbn [mbind outcome_bind].
  by rewrite fold_outcome_cons, length_line_type.
Qed.

(** ** The decoders on an encoded frame *)

Definition frame_end : N := (N.of_nat (String.length (frame_header f) + 4) + str_len (body f))%N.

Lemma frame_end_eq : frame_end = str_len (encode_frame f).
Proof.
  unfold frame_end, encode_frame, str_len. rewrite !str_length_app. change (String.length CRLF2) with 4. lia.
Qed.

Lemma frame_end_added :
  usize_checked_add (N.of_nat (String.length (frame_header f) + 4)) (str_len (body f)) = Some frame_end.
Proof.
  unfold usize_checked_add. fold frame_end. pose proof (fo_size f max Hf) as H. rewrite <- frame_end_eq in H.
  by apply N.leb_le in H as ->.
Qed.

Lemma encoded_split t : encode_frame f +:+ t = frame_header f +:+ CRLF2 +:+ body f +:+ t.
Proof. unfold encode_frame. by rewrite <- !str_app_assoc. Qed.

Lemma decode_encoded t : decode_frame (encode_frame f +:+ t) max = Ok (f, str_len (encode_frame f)).
Proof.
  unfold decode_frame. rewrite encoded_split, header_end_found. cbn [mbind outcome_bind ok_or].
  rewrite str_take_app. unfold from_utf8. rewrite header_utf8. cbn [mbind outcome_bind ok_or].
  rewrite header_decoded. cbn [mbind outcome_bind ok_or].
  pose proof (fo_body f max Hf) as Hb. apply N.ltb_ge in Hb as ->. rewrite frame_end_added.
  cbn [mbind outcome_bind ok_or]. rewrite <- encoded_split.
  assert ((str_len (encode_frame f +:+ t) <? frame_end)%N = false) as ->.
  { apply N.ltb_ge. rewrite frame_end_eq. unfold str_len. rewrite str_length_app. lia. }
  assert (str_take (N.to_nat (str_len (body f)))
            (str_drop (String.length (frame_header f) + 4) (encode_frame f +:+ t)) = body f) as ->.
  { rewrite encoded_split, str_drop_app_plus. unfold str_len. rewrite Nat2N.id.
    change (str_drop 4 (CRLF2 +:+ body f +:+ t)) with (body f +:+ t). apply str_take_app. }
  rewrite (fo_body_utf8 f max Hf), frame_end_eq. by destruct f.
Qed.

Lemma incremental_encoded t :
  decode_frame_incremental (encode_frame f +:+ t) max = Ok (Some (f, str_len (encode_frame f))).
Proof.
  unfold decode_frame_incremental. rewrite encoded_split, header_end_found. cbn [mbind outcome_bind ok_or].
  rewrite str_take_app, length_decoded. cbn [mbind outcome_bind ok_or].
  pose proof (fo_body f max Hf) as Hb. apply N.ltb_ge in Hb as ->. rewrite frame_end_added.
  cbn [mbind outcome_bind ok_or]. rewrite <- encoded_split, decode_encoded.
  assert ((str_len (encode_frame f +:+ t) <? frame_end)%N = false) as ->; [|done].
  apply N.ltb_ge. rewrite frame_end_eq. unfold str_len. rewrite str_length_app. lia.
Qed.

(** Too little of the frame is pending, never an error. *)
Lemma incremental_pending p t :
  p +:+ t = encode_frame f -> t <> EmptyString -> decode_frame_incremental p max = Ok None.
Proof.
  intros Hp Ht. assert (String.length p < String.length (encode_frame f)) as Hlt.
  { rewrite <- Hp, str_length_app. destruct t; [done|simpl; lia]. }
  pose proof (fo_header f max Hf) as Hl.
  destruct (decide (String.length p < String.length (frame_header f) + 4)) as [Hshort|Hlong].
  - unfold decode_frame_incremental, find_header_end. rewrite str_take_all by lia.
    rewrite (find_sub_prefix CRLF2 p t (String.length (frame_header f))); [| |rewrite Hp; apply terminator_found|done].
    + by rewrite bool_decide_false by lia.
    + done.
  - assert (exists b, p = frame_header f +:+ CRLF2 +:+ b /\ body f = b +:+ t) as (b & -> & Hb).
    { unfold encode_frame in Hp. rewrite str_app_assoc in Hp. setoid_rewrite str_app_assoc.
      apply str_app_split in Hp; [done|]. rewrite str_length_app. change (String.length CRLF2) with 4. lia. }
    unfold decode_frame_incremental. rewrite header_end_found. cbn [mbind outcome_bind ok_or].
    rewrite str_take_app, length_decoded. cbn [mbind outcome_bind ok_or].
    pose proof (fo_body f max Hf) as Hm. apply N.ltb_ge in Hm as ->. rewrite frame_end_added.
    cbn [mbind outcome_bind ok_or].
    assert ((str_len (frame_header f +:+ CRLF2 +:+ b) <? frame_end)%N = true) as ->; [|done].
    apply N.ltb_lt. rewrite frame_end_eq. unfold str_len. lia.
Qed.
End Encoded.

(** ** The two header parsers agree *)

Lemma length_line_header line n t :
  length_line line n = match header_line line (n, t) with Ok (n', _) => Ok n' | Err e => Err e | Panic => Panic end.
Proof.
  unfold length_line, header_line. destruct (split_once ":" line) as [[name value]|]; [|done].
  unfold eq_ignore_ascii_case. change (to_ascii_lowercase "content-length") with "content-length"%string.
  case_bool_decide; [destruct n; [done|]; by destruct (parse_u64 (trim value))|].
  by case_bool_decide.
Qed.

Lemma length_lines_header lines : forall n t,
  fold_outcome length_line lines n =
    match fold_outcome header_line lines (n, t) with Ok (n', _) => Ok n' | Err e => Err e | Panic => Panic end.
Proof.
  induction lines as [|line lines IH]; intros n t; [done|]. rewrite !fold_outcome_cons, (length_line_header line n t).
  destruct (header_line line (n, t)) as [[n' t']|e|]; [|done..]. apply IH.
Qed.

Lemma no_panic_header_line line st : no_panic (header_line line st).
Proof. unfold no_panic, header_line. repeat destruct_match; done. Qed.

Lemma no_panic_header_lines lines : forall st, no_panic (fold_outcome header_line lines st).
Proof.
  unfold no_panic. induction lines as [|line lines IH]; intros st; [done|]. rewrite fold_outcome_cons.
  pose proof (no_panic_header_line line st). destruct (header_line line st); [apply IH|done..].
Qed.

(** The errors of the one-shot decoder that mean more input is needed. *)
Definition missing_terminator : MezError := invalid_args "protocol frame is missing header terminator".
Definition incomplete_body : MezError := invalid_args "incomplete protocol frame body".

(** The incremental decoder is the one-shot decoder with incomplete input
    turned into [None]: on every input, complete or not, well formed or not,
    it returns the same frame and the same error. *)
Theorem incremental_agrees input max :
  match decode_frame_incremental input max with
  | Ok (Some r) => decode_frame input max = Ok r
  | Ok None => decode_frame input max = Err missing_terminator \/ decode_frame input max = Err incomplete_body
  | Err e => decode_frame input max = Err e
  | Panic => False
  end.
Proof.
  unfold decode_frame_incremental. remember (decode_frame input max) as d eqn:Hd.
  unfold decode_frame in Hd. revert Hd. unfold find_header_end. destruct (find_sub CRLF2 _) as [n|]; cbn [mbind outcome_bind ok_or].
  2:{ case_bool_decide; simpl; naive_solver. }
  unfold frame_content_length_from_header. destruct (from_utf8 (str_take n input)) as [h|]; [|done].
  cbn [mbind outcome_bind ok_or]. rewrite (length_lines_header _ _ "application/json"%string).
  pose proof (no_panic_header_lines (split CRLF h) (None, "application/json"%string)) as Hnp.
  destruct (fold_outcome header_line _ _) as [[[len|] ty]|e|]; [|done..]. cbn [mbind outcome_bind ok_or].
  destruct (max <? len)%N; [done|]. destruct (usize_checked_add _ len) as [be|]; [|done]. cbn [mbind outcome_bind ok_or].
  destruct (str_len input <? be)%N; [by right|]. destruct (from_utf8 _) as [b|]; intros ->; done.
Qed.

(** ** Bounds *)

(** What the decoder waits for is bounded: with [8192 + max] bytes at hand it
    returns a frame or an error, so a peer cannot make the buffer grow. *)
Theorem pending_input_bounded input max :
  decode_frame_incremental input max = Ok None ->
  (str_len input < N.of_nat MAX_PROTOCOL_HEADER_BYTES + max)%N.
Proof.
  unfold decode_frame_incremental, find_header_end. destruct (find_sub CRLF2 _) as [n|] eqn:Hn; cbn [mbind outcome_bind].
  - apply find_sub_bound in Hn. rewrite str_length_take in Hn. change (String.length CRLF2) with 4 in Hn.
    destruct (frame_content_length_from_header _) as [len|e|]; [|done..]. cbn [mbind outcome_bind].
    destruct (N.ltb_spec max len) as [|Hlen]; [done|]. unfold usize_checked_add.
    destruct (_ <=? u64_max)%N; [|done]. cbn [mbind outcome_bind ok_or].
    destruct (N.ltb_spec (str_len input) (N.of_nat (n + 4) + len)) as [Hlt|]; [lia|].
    by destruct (decode_frame input max).
  - case_bool_decide as Hl; [done|]. unfold str_len. lia.
Qed.

(** A decoded frame lies inside the input, and its body inside the limit. *)
Lemma decoded_bounds input max f n :
  decode_frame input max = Ok (f, n) ->
  (n <= str_len input /\ str_len (body f) <= max /\ 4 + str_len (body f) <= n)%N /\ utf8 (body f) = true.
Proof.
  unfold decode_frame, find_header_end. destruct (find_sub CRLF2 _) as [i|] eqn:Hi; cbn [mbind outcome_bind ok_or];
    [|by case_bool_decide].
  destruct (from_utf8 (str_take i input)) as [h|]; [|done]. cbn [mbind outcome_bind ok_or].
  destruct (fold_outcome header_line _ _) as [[[len|] ty]|e|]; [|done..]. cbn [mbind outcome_bind ok_or].
  destruct (N.ltb_spec max len) as [|Hlen]; [done|]. unfold usize_checked_add.
  destruct (_ <=? u64_max)%N; [|done]. cbn [mbind outcome_bind ok_or].
  destruct (N.ltb_spec (str_len input) (N.of_nat (i + 4) + len)) as [|Hin]; [done|]. unfold from_utf8.
  destruct (utf8 _) eqn:Hu; [|done]. intros [= <- <-]. cbn [body]. split; [|done].
  unfold str_len in *. rewrite str_length_take, str_length_drop. lia.
Qed.

(** ** Streams of frames *)

(** A reader decodes while the buffer holds a frame, and appends what arrives:
    the loop of a framed reader around [decode].  Every frame takes a byte, so
    as many turns as there are bytes are enough. *)
Fixpoint drain (fuel : nat) (codec : ProtocolFrameCodec) (buf : string)
    : outcome MezError (list ProtocolFrame * string) :=
  match fuel with
  | O => Ok ([], buf)
  | S fuel =>
      match decode codec buf with
      | (buf, Ok None) => Ok ([], buf)
      | (buf, Ok (Some f)) => drain fuel codec buf ≫= fun '(fs, buf) => Ok (f :: fs, buf)
      | (_, Err e) => Err e
      | (_, Panic) => Panic
      end
  end.

Definition receive (codec : ProtocolFrameCodec) (chunk : string) (st : list ProtocolFrame * string)
    : outcome MezError (list ProtocolFrame * string) :=
  let '(received, buf) := st in
  let buf := buf +:+ chunk in
  drain (S (String.length buf)) codec buf ≫= fun '(fs, buf) => Ok (received ++ fs, buf).

(** Messages sent one after the other, in the order of the list. *)
Definition str_concat (l : list string) : string := foldr String.append EmptyString l.
Definition encode_all (fs : list ProtocolFrame) : string := str_concat (encode_frame <$> fs).

Lemma str_concat_app l k : str_concat (l ++ k) = str_concat l +:+ str_concat k.
Proof. induction l as [|s l IH]; simpl; [done|]. by rewrite IH, str_app_assoc. Qed.

Section Stream.
Context (codec : ProtocolFrameCodec).
Abbreviation ok := (fun f => frame_ok f (max_content_length codec)).

Lemma decode_first f t : ok f -> decode codec (encode_frame f +:+ t) = (t, Ok (Some f)).
Proof.
  intros Hf. unfold decode. rewrite incremental_encoded by done. unfold str_len.
  by rewrite Nat2N.id, str_drop_app.
Qed.

(** What is left in the buffer is the start of the next frame. *)
Definition partial (rest : string) (fs : list ProtocolFrame) : Prop :=
  match fs with
  | [] => rest = EmptyString
  | f :: _ => exists t, rest +:+ t = encode_frame f /\ t <> EmptyString
  end.

Lemma decode_partial rest fs : Forall ok fs -> partial rest fs -> decode codec rest = (rest, Ok None).
Proof.
  intros Hok Hp. unfold decode. destruct fs as [|f fs]; simpl in Hp; [by subst|].
  destruct Hp as (t & Ht & Hne). apply Forall_cons in Hok as [Hf _].
  by rewrite (incremental_pending f _ Hf rest t).
Qed.

Lemma encode_frame_pos f : 0 < String.length (encode_frame f).
Proof. unfold encode_frame. rewrite !str_length_app. change (String.length CRLF2) with 4. lia. Qed.

Lemma drain_prefix fs : forall buf t fuel,
  Forall ok fs -> buf +:+ t = encode_all fs -> String.length buf < fuel ->
  exists fs1 fs2 rest, drain fuel codec buf = Ok (fs1, rest) /\ fs = fs1 ++ fs2 /\ partial rest fs2
    /\ rest +:+ t = encode_all fs2.
Proof.
  induction fs as [|f fs IH]; intros buf t fuel Hok Hbuf Hfuel; (destruct fuel as [|fuel]; [lia|]).
  - assert (buf = EmptyString) as -> by (by destruct buf).
    exists [], [], EmptyString. cbn [drain]. rewrite (decode_partial EmptyString []) by done. done.
  - pose proof Hok as [Hf Hfs]%Forall_cons. change (encode_all (f :: fs)) with (encode_frame f +:+ encode_all fs) in Hbuf.
    destruct (decide (String.length (encode_frame f) <= String.length buf)) as [Hlong|Hshort].
    + destruct (str_app_split _ _ _ _ Hbuf Hlong) as (w & -> & Hw). cbn [drain]. rewrite decode_first by done.
      pose proof (encode_frame_pos f). rewrite str_length_app in Hfuel.
      destruct (IH w t fuel) as (fs1 & fs2 & rest & Hd & -> & Hp & Hr); [done|done|lia|].
      rewrite Hd. by exists (f :: fs1), fs2, rest.
    + symmetry in Hbuf. apply str_app_split in Hbuf as (w & Hw & Ht); [|lia].
      assert (partial buf (f :: fs)) as Hp.
      { exists w. split; [done|]. intros ->. rewrite Hw, str_app_nil_r in Hshort. lia. }
      exists [], (f :: fs), buf. cbn [drain]. rewrite (decode_partial buf (f :: fs)) by done.
      split; [done|]. split; [done|]. split; [done|]. rewrite Ht, str_app_assoc, <- Hw. done.
Qed.

Lemma receive_all chunks : forall received buf fs,
  Forall ok fs -> buf +:+ str_concat chunks = encode_all fs ->
  partial buf fs ->
  fold_outcome (receive codec) chunks (received, buf) = Ok (received ++ fs, EmptyString).
Proof.
  induction chunks as [|chunk chunks IH]; intros received buf fs Hok Hbuf Hp.
  - simpl in Hbuf. rewrite str_app_nil_r in Hbuf. simpl. destruct fs as [|f fs].
    + simpl in Hp. by rewrite Hp, app_nil_r.
    + destruct Hp as (t & Ht & Hne). exfalso. apply (f_equal String.length) in Hbuf, Ht.
      change (encode_all (f :: fs)) with (encode_frame f +:+ encode_all fs) in Hbuf.
      rewrite !str_length_app in *. assert (0 < String.length t) by (destruct t; [done|simpl; lia]). lia.
  - rewrite fold_outcome_cons. change (str_concat (chunk :: chunks)) with (chunk +:+ str_concat chunks) in Hbuf.
    rewrite str_app_assoc in Hbuf.
    destruct (drain_prefix fs (buf +:+ chunk) (str_concat chunks) (S (String.length (buf +:+ chunk))))
      as (fs1 & fs2 & rest & Hd & -> & Hp' & Hr); [done|done|lia|].
    assert (receive codec chunk (received, buf) = Ok (received ++ fs1, rest)) as ->
      by (unfold receive; by rewrite Hd).
    apply Forall_app in Hok as [_ Hok2]. cbn [mbind outcome_bind]. rewrite (IH _ _ fs2) by done. by rewrite app_assoc.
Qed.
End Stream.

(** ** Claims *)

(** Decoding what was encoded gives the frame back and consumes exactly its
    bytes, whatever bytes follow, for every frame whose content type is one
    trimmed line, whose header fits the header budget and whose body fits the
    limit. *)
Theorem frame_roundtrip f max rest :
  frame_ok f max ->
  decode_frame (encode_frame f +:+ rest) max = Ok (f, str_len (encode_frame f))
  /\ decode_frame_incremental (encode_frame f +:+ rest) max = Ok (Some (f, str_len (encode_frame f))).
Proof. intros Hf. split; [by apply decode_encoded|by apply incremental_encoded]. Qed.

(** C38. However a stream of encoded frames is cut into chunks, the codec yields
    exactly the frames that were sent, in order, raises no error on the way,
    and leaves an empty buffer, for frames whose content type is one trimmed
    UTF-8 line, whose header fits the header budget and whose body is UTF-8 and
    fits the codec's limit ([frame_ok]): the byte stream refines the list of
    messages. *)
Theorem stream_refines_messages codec fs chunks :
  Forall (fun f => frame_ok f (max_content_length codec)) fs ->
  str_concat chunks = encode_all fs ->
  fold_outcome (receive codec) chunks ([], EmptyString) = Ok (fs, EmptyString).
Proof.
  intros Hok Hc. apply (receive_all codec chunks [] EmptyString fs); [done|done|].
  destruct fs as [|f fs]; [done|]. exists (encode_frame f). split; [done|]. by destruct (encode_frame f) eqn:E.
Qed.

(** ** Witnesses *)

Definition demo_frame : ProtocolFrame := mkFrame "application/json" "{}".
Definition mmp_frame : ProtocolFrame := mkFrame MMP_CONTENT_TYPE (bytes [34; 226; 130; 172; 34]%N).

Lemma demo_frame_ok : frame_ok demo_frame 64.
Proof. constructor; try (by vm_compute); apply Nat.leb_le; by vm_compute. Qed.

Lemma mmp_frame_ok : frame_ok mmp_frame 64.
Proof. constructor; try (by vm_compute); apply Nat.leb_le; by vm_compute. Qed.

Lemma frame_roundtrip_witness :
  decode_frame (encode_frame mmp_frame +:+ "Content-") 64 = Ok (mmp_frame, str_len (encode_frame mmp_frame)).
Proof. exact (proj1 (frame_roundtrip mmp_frame 64 "Content-" mmp_frame_ok)). Defined.

(** Two frames cut in the middle of a header and of a body. *)
Definition demo_chunks : list string :=
  let all := encode_all [demo_frame; mmp_frame] in
  [str_take 10 all; EmptyString; str_drop 10 (str_take 60 all); str_drop 60 all].

Lemma stream_refines_messages_witness :
  fold_outcome (receive (mkCodec 64)) demo_chunks ([], EmptyString) = Ok ([demo_frame; mmp_frame], EmptyString).
Proof.
  apply (stream_refines_messages (mkCodec 64)).
  - constructor; [exact demo_frame_ok|constructor; [exact mmp_frame_ok|constructor]].
  - by vm_compute.
Defined.

Lemma pending_input_bounded_witness :
  decode_frame_incremental (str_take 60 (encode_frame mmp_frame)) 64 = Ok None
  /\ (60 < N.of_nat MAX_PROTOCOL_HEADER_BYTES + 64)%N.
Proof.
  assert (decode_frame_incremental (str_take 60 (encode_frame mmp_frame)) 64 = Ok None) as H by by vm_compute.
  split; [exact H|]. exact (pending_input_bounded _ 64 H).
Defined.
