(* ===== verification/EventLog.v ===== *)
(** * The event log ([mezzanine/src/protocol/event])

    A bounded log of runtime events with monotonic ids, replayed to an
    audience through a visibility filter.  The clock is an argument of
    [append]: the seconds since the Unix epoch that [SystemTime::now] gives. *)

From S2P Require Import Prelude RustStr RustBytes Framing.
Local Open Scope N_scope.

(** ** Types ([types.rs]) *)

Inductive EventKind :=
| ClientAttached | ClientDetached | WindowChanged | PaneChanged | AgentStatus | Message | ConfigChanged
| SnapshotChanged | ApprovalChanged | McpServerChanged | HookFailed | Diagnostic.

Inductive EventVisibility :=
| VisAllPrimaries
| VisPrimaryClient (client : string)
| VisSessionView
| VisAgent (agent : string)
| VisAutomation.

Inductive EventAudience :=
| AudAllPrimaries
| AudPrimaryClient (client : string)
| AudSessionView
| AudApprovedObserver (visible_from_event_id : N)
| AudAgent (agent_id : string)
| AudAutomation.

Record MezzanineEvent := mkEvent {
  ev_id : N; ev_time : string; ev_kind : EventKind; ev_session_id : option string;
  ev_visibility : EventVisibility; ev_payload : string }.

Record VisibleEvent := mkVisible {
  vis_id : N; vis_time : string; vis_kind : EventKind; vis_session_id : option string; vis_payload : string }.

Record EventLog := mkLog {
  max_events : N; max_payload_bytes : N; next_id : N; events : list MezzanineEvent }.

(** ** Times ([log.rs]); [i64] division truncates. *)

Section Civil.
Local Open Scope Z_scope.

Definition civil_from_days (days_since_unix_epoch : Z) : Z * Z * Z :=
  let z := days_since_unix_epoch + 719468 in
  let era := Z.quot (if 0 <=? z then z else z - 146096) 146097 in
  let day_of_era := z - era * 146097 in
  let year_of_era :=
    Z.quot (day_of_era - Z.quot day_of_era 1460 + Z.quot day_of_era 36524 - Z.quot day_of_era 146096) 365 in
  let year := year_of_era + era * 400 in
  let day_of_year := day_of_era - (365 * year_of_era + Z.quot year_of_era 4 - Z.quot year_of_era 100) in
  let month_prime := Z.quot (5 * day_of_year + 2) 153 in
  let day := day_of_year - Z.quot (153 * month_prime + 2) 5 + 1 in
  let month := month_prime + (if month_prime <? 10 then 3 else -9) in
  let year := if month <=? 2 then year + 1 else year in
  (year, month, day).
End Civil.

(** The [{:0w}] format of a number that is not negative. *)
Definition zero_padded (w : nat) (n : N) : string :=
  let s := u64_to_string n in
  foldr String.append s (replicate (w - String.length s) "0"%string).

Definition unix_seconds_to_rfc3339 (seconds : N) : string :=
  let days := Z.of_N (seconds / 86400) in
  let seconds_of_day := seconds mod 86400 in
  let hour := seconds_of_day / 3600 in
  let minute := (seconds_of_day mod 3600) / 60 in
  let second := seconds_of_day mod 60 in
  let '(year, month, day) := civil_from_days days in
  zero_padded 4 (Z.to_N year) +:+ "-" +:+ zero_padded 2 (Z.to_N month) +:+ "-" +:+ zero_padded 2 (Z.to_N day)
  +:+ "T" +:+ zero_padded 2 hour +:+ ":" +:+ zero_padded 2 minute +:+ ":" +:+ zero_padded 2 second +:+ "Z".

Example rfc3339_examples :
  unix_seconds_to_rfc3339 0 = "1970-01-01T00:00:00Z"%string
  /\ unix_seconds_to_rfc3339 951827696 = "2000-02-29T12:34:56Z"%string
  /\ unix_seconds_to_rfc3339 4107542399 = "2100-02-28T23:59:59Z"%string.
Proof. by vm_compute. Qed.

(** ** Visibility ([visibility.rs]) *)

Definition include_event (event : MezzanineEvent) (audience : EventAudience) : bool :=
  match ev_visibility event, audience with
  | VisAllPrimaries, AudAllPrimaries | VisSessionView, AudAllPrimaries
  | VisAllPrimaries, AudPrimaryClient _ | VisSessionView, AudPrimaryClient _
  | VisSessionView, AudSessionView => true
  | VisPrimaryClient event_client, AudPrimaryClient audience_client => bool_decide (event_client = audience_client)
  | VisSessionView, AudApprovedObserver visible_from => visible_from <=? ev_id event
  | VisAgent event_agent, AudAgent agent_id => bool_decide (event_agent = agent_id)
  | VisAutomation, AudAutomation => true
  | _, _ => false
  end.

Definition visible_event (event : MezzanineEvent) (audience : EventAudience) : option VisibleEvent :=
  if include_event event audience
  then Some (mkVisible (ev_id event) (ev_time event) (ev_kind event) (ev_session_id event) (ev_payload event))
  else None.

(** ** The log ([log.rs]) *)

Definition new_log (max_events max_payload : N) : outcome MezError EventLog :=
  if max_events =? 0 then Err (invalid_args "event log must retain at least one event")
  else if max_payload =? 0 then Err (invalid_args "event payload limit must be greater than zero")
  else Ok (mkLog max_events max_payload 1 []).

(** [while events.len() > max_events { events.pop_front() }]. *)
Fixpoint trim_front (max : N) (l : list MezzanineEvent) : list MezzanineEvent :=
  match l with
  | [] => []
  | _ :: l' => if max <? N.of_nat (length l) then trim_front max l' else l
  end.

Definition append (now : N) (kind : EventKind) (session_id : option string) (visibility : EventVisibility)
    (payload : string) : op MezError EventLog N := fun log =>
  if max_payload_bytes log <? str_len payload
  then (log, Err (invalid_args "event payload exceeds configured limit"))
  else
    let id := next_id log in
    let event := mkEvent id (unix_seconds_to_rfc3339 now) kind session_id visibility payload in
    (mkLog (max_events log) (max_payload_bytes log) (N.min u64_max (next_id log + 1))
       (trim_front (max_events log) (events log ++ [event])), Ok id).

Definition replay_for (log : EventLog) (audience : EventAudience) : list VisibleEvent :=
  omap (fun event => visible_event event audience) (events log).

Definition replay_after_for (log : EventLog) (audience : EventAudience) (after_event_id limit : N)
    : list VisibleEvent :=
  if limit =? 0 then [] else
  take (N.to_nat limit)
    (omap (fun event => visible_event event audience)
       (List.filter (fun event => after_event_id <? ev_id event) (events log))).

Definition latest_event_id (log : EventLog) : N := next_id log - 1.
Definition first_retained_event_id (log : EventLog) : option N := ev_id <$> head (events log).
Definition retention_limit (log : EventLog) : N := max_events log.
