(* ===== verification/EventTheorems.v ===== *)
(** * Theorems on the event log

    The retained log refines the unbounded history of accepted events, paging
    with a cursor replays every visible event once, an audience learns nothing
    from events that are not for it, and the timestamps name the right day. *)

From S2P Require Import Prelude RustStr RustBytes Framing EventLog.
Local Open Scope N_scope.

(** ** The unbounded history *)

(** An event to append, with the clock reading. *)
Record request := mkRequest {
  r_now : N; r_kind : EventKind; r_session : option string; r_visibility : EventVisibility; r_payload : string }.

Definition submit (r : request) (log : EventLog) : EventLog :=
  (append (r_now r) (r_kind r) (r_session r) (r_visibility r) (r_payload r) log).1.
Definition submit_all (rs : list request) (log : EventLog) : EventLog := foldl (fun log r => submit r log) log rs.

(** The specification: accepted requests are numbered from one and nothing is
    ever dropped. *)
Definition accepted (max_payload : N) (r : request) : bool := str_len (r_payload r) <=? max_payload.

Definition event_of (id : N) (r : request) : MezzanineEvent :=
  mkEvent id (unix_seconds_to_rfc3339 (r_now r)) (r_kind r) (r_session r) (r_visibility r) (r_payload r).

Fixpoint number_from (id : N) (rs : list request) : list MezzanineEvent :=
  match rs with [] => [] | r :: rs => event_of id r :: number_from (id + 1) rs end.

Definition history (max_payload : N) (rs : list request) : list MezzanineEvent :=
  number_from 1 (List.filter (accepted max_payload) rs).

(** The last [n] entries of a list. *)
Definition last_n {A} (n : N) (l : list A) : list A := drop (length l - N.to_nat n) l.

(** The log of a history. *)
Definition represents (log : EventLog) (h : list MezzanineEvent) : Prop :=
  events log = last_n (max_events log) h /\ next_id log = N.of_nat (length h) + 1.

Lemma trim_front_last max l : trim_front max l = last_n max l.
Proof.
  unfold last_n. induction l as [|e l IH]; [done|]. simpl trim_front.
  destruct (N.ltb_spec max (N.of_nat (S (length l)))) as [H|H].
  - rewrite IH. replace (length (e :: l) - N.to_nat max)%nat with (S (length l - N.to_nat max)) by (simpl; lia). done.
  - replace (length (e :: l) - N.to_nat max)%nat with 0%nat by (simpl; lia). done.
Qed.

Lemma last_n_snoc {A} n (l : list A) x : 0 < n -> last_n n (last_n n l ++ [x]) = last_n n (l ++ [x]).
Proof.
  intros Hn. unfold last_n. rewrite !length_app, length_drop. simpl.
  destruct (decide (length l <= N.to_nat n)%nat) as [Hle|Hgt].
  - replace (length l - N.to_nat n)%nat with 0%nat by lia. rewrite drop_0. f_equal. lia.
  - rewrite <- (drop_app_le l [x]) by lia. rewrite drop_drop. f_equal. lia.
Qed.

Lemma number_from_app id rs r :
  number_from id (rs ++ [r]) = number_from id rs ++ [event_of (id + N.of_nat (length rs)) r].
Proof.
  revert id. induction rs as [|r0 rs IH]; intros id; simpl; [by rewrite N.add_0_r|].
  rewrite IH. do 4 f_equal. lia.
Qed.

Lemma length_number_from id rs : length (number_from id rs) = length rs.
Proof. revert id. induction rs as [|r rs IH]; intros id; simpl; [done|]. by rewrite IH. Qed.

Lemma history_snoc max rs r :
  history max (rs ++ [r]) =
    if accepted max r
    then history max rs ++ [event_of (N.of_nat (length (history max rs)) + 1) r] else history max rs.
Proof.
  unfold history. rewrite List.filter_app. simpl. destruct (accepted max r); [|by rewrite app_nil_r].
  rewrite number_from_app, length_number_from. do 3 f_equal. lia.
Qed.

Lemma submit_represents r log h :
  represents log h -> 0 < max_events log -> N.of_nat (length h) + 1 < u64_max ->
  let h' := if accepted (max_payload_bytes log) r
            then h ++ [event_of (N.of_nat (length h) + 1) r] else h in
  represents (submit r log) h' /\ max_events (submit r log) = max_events log
  /\ max_payload_bytes (submit r log) = max_payload_bytes log.
Proof.
  intros [He Hi] Hm Hn. unfold submit, append, accepted, represents.
  destruct (N.ltb_spec (max_payload_bytes log) (str_len (r_payload r))) as [Hlt|Hge]; cbn [fst].
  - destruct (N.leb_spec (str_len (r_payload r)) (max_payload_bytes log)); [lia|]. done.
  - destruct (N.leb_spec (str_len (r_payload r)) (max_payload_bytes log)); [|lia]. cbn [events max_events next_id].
    split; [|done]. rewrite trim_front_last, He, last_n_snoc, Hi, length_app by done.
    split; [done|]. cbn [length]. lia.
Qed.

Lemma submit_all_represents rs : forall log,
  new_log (max_events log) (max_payload_bytes log) = Ok log ->
  N.of_nat (length rs) + 1 < u64_max ->
  let log' := submit_all rs log in
  represents log' (history (max_payload_bytes log) rs)
  /\ max_events log' = max_events log /\ max_payload_bytes log' = max_payload_bytes log.
Proof.
  intros log Hnew. unfold new_log in Hnew.
  destruct (N.eqb_spec (max_events log) 0) as [|Hm]; [done|].
  destruct (N.eqb_spec (max_payload_bytes log) 0) as [|Hp]; [done|]. injection Hnew as Hlog.
  induction rs as [|r rs IH] using rev_ind; intros Hn.
  - simpl. rewrite <- Hlog. done.
  - rewrite length_app in Hn. simpl in Hn. destruct IH as (Hr & H1 & H2); [lia|].
    unfold submit_all in *. rewrite foldl_app. simpl. set (log' := foldl _ log rs) in *.
    assert (length (history (max_payload_bytes log) rs) <= length rs)%nat as Hl.
    { unfold history. rewrite length_number_from. apply List.filter_length_le. }
    destruct (submit_represents r log' (history (max_payload_bytes log) rs)) as (R1 & R2 & R3); [done|lia|lia|].
    rewrite H2 in R1, R3. rewrite history_snoc. split; [exact R1|]. split; congruence.
Qed.

Lemma number_from_ids rs : forall id i e, number_from id rs !! i = Some e -> ev_id e = id + N.of_nat i.
Proof.
  induction rs as [|r rs IH]; intros id i e; simpl; [done|]. destruct i as [|i]; simpl.
  - intros [= <-]. simpl. lia.
  - intros H. apply IH in H. lia.
Qed.

(** ** Replay *)

(** Ids grow along the log. *)
Definition increasing {A} (key : A -> N) : list A -> Prop := StronglySorted (fun x y => key x < key y).

Lemma number_from_increasing rs : forall id, increasing ev_id (number_from id rs).
Proof.
  induction rs as [|r rs IH]; intros id; [constructor|]. simpl. constructor; [apply IH|].
  apply Forall_lookup. intros i e H. apply number_from_ids in H. simpl. lia.
Qed.

Lemma increasing_drop {A} (key : A -> N) n l : increasing key l -> increasing key (drop n l).
Proof.
  revert n. induction l as [|x l IH]; intros n H; [by destruct n|]. destruct n; [done|]. simpl.
  apply StronglySorted_inv in H as [H _]. by apply IH.
Qed.

(** Dropping [k] entries of a history drops the ids up to [k]. *)
Lemma drop_by_id rs k id :
  drop k (number_from id rs) = List.filter (fun e => id + N.of_nat k <=? ev_id e) (number_from id rs).
Proof.
  revert k id. induction rs as [|r rs IH]; intros k id; simpl; [by destruct k|].
  destruct k as [|k]; simpl.
  - rewrite N.add_0_r, N.leb_refl. f_equal. rewrite <- (drop_0 (number_from (id + 1) rs)) at 1. rewrite IH.
    apply List.filter_ext_in. intros e He%list_elem_of_In. apply list_elem_of_lookup in He as [i Hi].
    apply number_from_ids in Hi. destruct (N.leb_spec (id + 1 + N.of_nat 0) (ev_id e)), (N.leb_spec id (ev_id e)); lia.
  - destruct (N.leb_spec (id + N.of_nat (S k)) id); [lia|]. rewrite IH. apply List.filter_ext.
    intros e. f_equal. lia.
Qed.

(** A retained log replays what the history replays above both the cursor and
    the entries that were dropped. *)
Lemma replay_history rs max after :
  List.filter (fun e => after <? ev_id e) (last_n max (number_from 1 rs)) =
  List.filter (fun e => N.max after (N.of_nat (length rs) - max) <? ev_id e) (number_from 1 rs).
Proof.
  unfold last_n. rewrite length_number_from, drop_by_id.
  assert (forall (f g : MezzanineEvent -> bool) l,
            List.filter f (List.filter g l) = List.filter (fun e => f e && g e) l) as Hff.
  { intros f g l. induction l as [|e l IH]; simpl; [done|]. destruct (g e) eqn:G; simpl; rewrite ?andb_true_r, ?andb_false_r;
      [|done]. destruct (f e); by rewrite IH. }
  rewrite Hff. apply List.filter_ext. intros e.
  destruct (N.ltb_spec after (ev_id e)), (N.leb_spec (1 + N.of_nat (length rs - N.to_nat max)) (ev_id e)),
    (N.ltb_spec (N.max after (N.of_nat (length rs) - max)) (ev_id e)); simpl; lia.
Qed.

(** ** Paging *)

(** A client that asks for pages behind a cursor until a page is empty. *)
Fixpoint pages (fuel : nat) (log : EventLog) (audience : EventAudience) (cursor limit : N) : list VisibleEvent :=
  match fuel with
  | O => []
  | S fuel =>
      let page := replay_after_for log audience cursor limit in
      match last page with
      | None => []
      | Some e => page ++ pages fuel log audience (vis_id e) limit
      end
  end.

Definition after (cursor : N) (audience : EventAudience) (l : list MezzanineEvent) : list VisibleEvent :=
  omap (fun e => visible_event e audience) (List.filter (fun e => cursor <? ev_id e) l).

Lemma visible_event_id e a v : visible_event e a = Some v -> vis_id v = ev_id e.
Proof. unfold visible_event. destruct (include_event e a); [|done]. by intros [= <-]. Qed.

Lemma after_cons c a e l :
  after c a (e :: l) =
    if c <? ev_id e then match visible_event e a with Some v => v :: after c a l | None => after c a l end
    else after c a l.
Proof. unfold after. simpl. by destruct (c <? ev_id e). Qed.

Lemma length_after c a l : (length (after c a l) <= length l)%nat.
Proof.
  induction l as [|e l IH]; [done|]. rewrite after_cons. destruct (c <? ev_id e), (visible_event e a); simpl; lia.
Qed.

Lemma after_increasing cursor a l : increasing ev_id l -> increasing vis_id (after cursor a l).
Proof.
  unfold after. induction 1 as [|e l Hs IH Hall]; [constructor|]. simpl.
  destruct (cursor <? ev_id e); [|done]. simpl. destruct (visible_event e a) as [v|] eqn:Hv; [|done].
  constructor; [done|]. apply Forall_forall. intros u Hu. apply list_elem_of_omap in Hu as (e' & He' & Hu').
  apply list_elem_of_In, List.filter_In in He' as [He' _]. rewrite Forall_forall in Hall.
  apply visible_event_id in Hv, Hu'. rewrite Hv, Hu'. by apply Hall, list_elem_of_In.
Qed.

Lemma after_later c c' a l :
  c <= c' -> after c' a l = List.filter (fun v => c' <? vis_id v) (after c a l).
Proof.
  intros Hc. induction l as [|e l IH]; [done|]. rewrite !after_cons, IH.
  destruct (N.ltb_spec c (ev_id e)) as [H|H].
  - destruct (visible_event e a) as [v|] eqn:Hv; simpl; [|by destruct (c' <? ev_id e)].
    by rewrite (visible_event_id e a v Hv).
  - destruct (N.ltb_spec c' (ev_id e)); [lia|]. done.
Qed.

Lemma filter_behind l n v :
  increasing vis_id l -> last (take n l) = Some v -> List.filter (fun u => vis_id v <? vis_id u) l = drop n l.
Proof.
  intros Hs. revert n. induction Hs as [|x l Hs IH Hall]; intros n; [by destruct n|].
  destruct n as [|n]; [done|]. simpl. intros Hl. rewrite Forall_forall in Hall.
  assert (vis_id x <= vis_id v) as Hx.
  { destruct (take n l) as [|y k] eqn:E; simpl in Hl; [injection Hl as ->; lia|].
    apply N.lt_le_incl, Hall. apply last_Some in Hl as [l' Hl'].
    assert (v ∈ take n l) as Hv by (rewrite E, Hl'; set_solver).
    apply elem_of_take in Hv as (i & Hi & _). by eapply list_elem_of_lookup_2. }
  destruct (N.ltb_spec (vis_id v) (vis_id x)); [lia|]. destruct (take n l) as [|y k] eqn:E.
  - simpl in Hl. injection Hl as ->. assert (drop n l = l) as ->.
    { destruct n; [done|]. by destruct l. }
    clear -Hall. induction l as [|y l IH]; [done|]. simpl.
    destruct (N.ltb_spec (vis_id v) (vis_id y)) as [|H]; [f_equal; apply IH; set_solver|].
    specialize (Hall y ltac:(set_solver)). lia.
  - apply IH. by rewrite E.
Qed.

Lemma pages_spec log a limit : forall fuel cursor,
  increasing ev_id (events log) -> 0 < limit ->
  (length (after cursor a (events log)) < fuel)%nat -> pages fuel log a cursor limit = after cursor a (events log).
Proof.
  induction fuel as [|fuel IH]; intros cursor Hs Hl Hf; [lia|]. simpl. unfold replay_after_for.
  destruct (N.eqb_spec limit 0); [lia|]. fold (after cursor a (events log)).
  pose proof (after_increasing cursor a _ Hs) as Hinc. set (l := after cursor a (events log)) in *.
  destruct (last (take (N.to_nat limit) l)) as [v|] eqn:Hv.
  - assert (v ∈ take (N.to_nat limit) l) as Hin by (apply last_Some in Hv as [k ->]; set_solver).
    assert (v ∈ l) as Hvl by (apply elem_of_take in Hin as (i & Hi & _); by eapply list_elem_of_lookup_2).
    assert (cursor < vis_id v) as Hcv.
    { unfold l, after in Hvl. apply list_elem_of_omap in Hvl as (e & He & Hve). apply visible_event_id in Hve.
      apply list_elem_of_In, List.filter_In in He as [_ He%N.ltb_lt]. lia. }
    assert (after (vis_id v) a (events log) = drop (N.to_nat limit) l) as Hnext.
    { rewrite (after_later cursor) by lia. by apply filter_behind. }
    rewrite IH; [rewrite Hnext; apply take_drop|done|done|].
    rewrite Hnext, length_drop. fold l in Hf. destruct l; [set_solver|]. simpl in *. lia.
  - apply last_None in Hv. destruct l as [|x l0]; [done|]. destruct (N.to_nat limit) eqn:E; [lia|]. done.
Qed.

(** ** The calendar *)

Section Calendar.
Local Open Scope Z_scope.

(** The Gregorian calendar, as the reference: leap years, month lengths, and
    the number of days from 1970-01-01 to a date. *)
Definition leap (y : Z) : bool :=
  (y mod 4 =? 0) && (negb (y mod 100 =? 0) || (y mod 400 =? 0)).

Definition month_length (y m : Z) : Z :=
  if m =? 2 then (if leap y then 29 else 28)
  else if (m =? 4) || (m =? 6) || (m =? 9) || (m =? 11) then 30 else 31.

(** Days of the months before month [m]. *)
Definition days_before_month (y m : Z) : Z :=
  foldr Z.add 0 (month_length y <$> (Z.of_nat <$> seq 1 (Z.to_nat (m - 1)))).

(** Days of the years before year [y], counted from year 1. *)
Definition days_before_year (y : Z) : Z := 365 * (y - 1) + (y - 1) / 4 - (y - 1) / 100 + (y - 1) / 400.

Definition day_number (y m d : Z) : Z := days_before_year y + days_before_month y m + (d - 1) - 719162.

Definition valid_date (y m d : Z) : bool :=
  (1 <=? m) && (m <=? 12) && (1 <=? d) && (d <=? month_length y m).

Definition date_of (days : Z) (date : Z * Z * Z) : bool :=
  let '(y, m, d) := date in valid_date y m d && (day_number y m d =? days).

(** A year has 365 or 366 days: [days_before_year] is the sum of the lengths of
    the years before. *)
Lemma days_before_year_step y : days_before_year (y + 1) = days_before_year y + (if leap y then 366 else 365).
Proof.
  unfold days_before_year, leap. replace (y + 1 - 1) with y by lia.
  destruct (Z.eqb_spec (y mod 4) 0), (Z.eqb_spec (y mod 100) 0), (Z.eqb_spec (y mod 400) 0); cbn [negb andb orb];
    Z.div_mod_to_equations; lia.
Qed.

Lemma leap_period y e : leap (y + 400 * e) = leap y.
Proof.
  unfold leap. replace (y + 400 * e) with (y + (100 * e) * 4) at 1 by lia.
  replace (y + 400 * e) with (y + (4 * e) * 100) at 1 by lia. replace (y + 400 * e) with (y + e * 400) by lia.
  by rewrite !Z.mod_add by lia.
Qed.

Lemma month_length_period y e m : month_length (y + 400 * e) m = month_length y m.
Proof. unfold month_length. by rewrite leap_period. Qed.

Lemma date_of_period days y m d e :
  date_of (days + 146097 * e) (y + 400 * e, m, d) = date_of days (y, m, d).
Proof.
  unfold date_of, valid_date, day_number. rewrite month_length_period.
  assert (days_before_month (y + 400 * e) m = days_before_month y m) as ->.
  { unfold days_before_month. f_equal. apply list_fmap_ext. intros _ x _. apply month_length_period. }
  assert (days_before_year (y + 400 * e) = days_before_year y + 146097 * e) as ->.
  { unfold days_before_year. replace (y + 400 * e - 1) with (y - 1 + (100 * e) * 4) at 2 by lia.
    replace (y + 400 * e - 1) with (y - 1 + (4 * e) * 100) at 2 by lia.
    replace (y + 400 * e - 1) with (y - 1 + e * 400) at 2 by lia. rewrite !Z.div_add by lia. lia. }
  f_equal. apply Bool.eq_iff_eq_true. rewrite !Z.eqb_eq. lia.
Qed.

Lemma civil_period doe e :
  0 <= doe < 146097 -> 0 <= e ->
  civil_from_days (doe - 719468 + 146097 * e) =
    let '(y, m, d) := civil_from_days (doe - 719468) in (y + 400 * e, m, d).
Proof.
  intros Hd He. unfold civil_from_days.
  replace (doe - 719468 + 719468) with doe by lia.
  replace (doe - 719468 + 146097 * e + 719468) with (doe + e * 146097) by lia.
  destruct (Z.leb_spec 0 doe); [|lia]. destruct (Z.leb_spec 0 (doe + e * 146097)); [|lia].
  rewrite !(Z.quot_div_nonneg _ 146097) by lia. rewrite Z.div_add, (Z.div_small doe 146097) by lia.
  replace (doe + e * 146097 - (0 + e) * 146097) with doe by lia. replace (doe - 0 * 146097) with doe by lia.
  set (yoe := Z.quot (doe - _ + _ - _) 365). set (mp := Z.quot _ 153).
  destruct (mp + (if mp <? 10 then 3 else -9) <=? 2); f_equal; f_equal; lia.
Qed.

(** The year of the era, counted from March, and the day of that year. *)
Lemma year_of_era_spec doe :
  0 <= doe < 146097 ->
  let yoe := (doe - doe / 1460 + doe / 36524 - doe / 146096) / 365 in
  let doy := doe - (365 * yoe + yoe / 4 - yoe / 100) in
  0 <= yoe <= 399 /\ 0 <= doy <= 365 /\ (doy = 365 -> leap (yoe + 1) = true).
Proof.
  intros H yoe doy.
  assert (0 <= yoe <= 399 /\ 0 <= doy <= 365) as [Hy Hd] by (unfold doy, yoe; Z.div_mod_to_equations; lia).
  split; [done|]. split; [done|]. intros E.
  assert (days_before_year (yoe + 2) - days_before_year (yoe + 1) = 366) as Hl.
  { unfold days_before_year. replace (yoe + 2 - 1) with (yoe + 1) by lia. replace (yoe + 1 - 1) with yoe by lia.
    unfold doy, yoe in *. clear doy yoe Hy Hd. Z.div_mod_to_equations; lia. }
  pose proof (days_before_year_step (yoe + 1)) as Hs. replace (yoe + 1 + 1) with (yoe + 2) in Hs by lia.
  destruct (leap (yoe + 1)); [done|lia].
Qed.

(** Months counted from March: month [m] starts [(153 * mp + 2) / 5] days after
    the first of March. *)
Lemma month_starts y mp :
  0 <= mp <= 9 -> days_before_month y (mp + 3) = 59 + (if leap y then 1 else 0) + (153 * mp + 2) / 5.
Proof.
  intros H. assert (mp = 0 \/ mp = 1 \/ mp = 2 \/ mp = 3 \/ mp = 4 \/ mp = 5 \/ mp = 6 \/ mp = 7 \/ mp = 8 \/ mp = 9)
    as Hmp by lia.
  repeat destruct Hmp as [->|Hmp]; subst; unfold days_before_month, month_length; simpl; by destruct (leap y).
Qed.

Lemma month_ends y mp doy :
  0 <= mp <= 9 -> mp = (5 * doy + 2) / 153 -> 1 <= doy - (153 * mp + 2) / 5 + 1 <= month_length y (mp + 3).
Proof.
  intros H E. assert (mp = 0 \/ mp = 1 \/ mp = 2 \/ mp = 3 \/ mp = 4 \/ mp = 5 \/ mp = 6 \/ mp = 7 \/ mp = 8 \/ mp = 9)
    as Hmp by lia.
  repeat destruct Hmp as [Hmp|Hmp]; rewrite Hmp in *; unfold month_length; simpl; Z.div_mod_to_equations; lia.
Qed.

Lemma civil_in_era doe : 0 <= doe < 146097 -> date_of (doe - 719468) (civil_from_days (doe - 719468)) = true.
Proof.
  intros H. unfold civil_from_days. replace (doe - 719468 + 719468) with doe by lia.
  destruct (Z.leb_spec 0 doe); [|lia]. rewrite (Z.quot_div_nonneg doe 146097), (Z.div_small doe 146097) by lia.
  replace (doe - 0 * 146097) with doe by lia. rewrite !(Z.quot_div_nonneg doe) by lia.
  destruct (year_of_era_spec doe H) as (Hy & Hd & Hleap).
  rewrite (Z.quot_div_nonneg (doe - _ + _ - _)) by (clear -H; Z.div_mod_to_equations; lia).
  set (yoe := (doe - _ + _ - _) / 365) in *. rewrite !(Z.quot_div_nonneg yoe) by lia.
  set (doy := doe - (365 * yoe + _ - _)) in *. rewrite (Z.quot_div_nonneg (5 * doy + 2)) by lia.
  assert (0 <= (5 * doy + 2) / 153 <= 11) as Hmp by (clear -Hd; Z.div_mod_to_equations; lia).
  remember ((5 * doy + 2) / 153) as mp eqn:Emp. rewrite (Z.quot_div_nonneg (153 * mp + 2)) by lia.
  pose proof (days_before_year_step yoe) as Hstep.
  assert (days_before_year (yoe + 1) = 365 * yoe + yoe / 4 - yoe / 100) as Hdby.
  { unfold days_before_year. replace (yoe + 1 - 1) with yoe by lia. rewrite (Z.div_small yoe 400) by lia. lia. }
  unfold date_of, valid_date, day_number. rewrite !andb_true_iff, !Z.leb_le, Z.eqb_eq.
  destruct (Z.ltb_spec mp 10) as [Hm|Hm].
  - destruct (Z.leb_spec (mp + 3) 2); [lia|].
    pose proof (month_ends (yoe + 0 * 400) mp doy ltac:(lia) Emp) as Hend.
    rewrite month_starts by lia. replace (yoe + 0 * 400) with yoe in * by lia. destruct (leap yoe); lia.
  - destruct (Z.leb_spec (mp + -9) 2); [|lia]. replace (yoe + 0 * 400 + 1) with (yoe + 1) by lia.
    assert (mp = 10 \/ mp = 11) as [->| ->] by lia; unfold days_before_month, month_length; simpl.
    + clear Hleap Hstep. Z.div_mod_to_equations; lia.
    + destruct (leap (yoe + 1)); [|assert (doy <> 365) by (intros E; by apply Hleap in E)];
        clear Hleap Hstep; Z.div_mod_to_equations; lia.
Qed.

Lemma civil_correct days : 0 <= days -> date_of days (civil_from_days days) = true.
Proof.
  intros Hd. set (z := days + 719468). pose proof (Z.div_mod z 146097 ltac:(lia)) as Hz.
  pose proof (Z.mod_pos_bound z 146097 ltac:(lia)) as Hm. pose proof (Z.div_pos z 146097 ltac:(lia) ltac:(lia)) as Hq.
  replace days with (z mod 146097 - 719468 + 146097 * (z / 146097)) by lia. rewrite civil_period by lia.
  pose proof (civil_in_era (z mod 146097) Hm) as Hc.
  destruct (civil_from_days (z mod 146097 - 719468)) as [[y m] d]. by rewrite date_of_period.
Qed.
End Calendar.

(** ** Claims *)

(** C39. The retained log refines the unbounded history: after any sequence of
    appends it holds the last [max_events] accepted events, ids number the
    accepted events from one without gaps, and a replay behind a cursor returns
    the first [limit] visible events of the history that are newer than the
    cursor and not dropped yet. *)
Theorem log_refines_history retained max_payload log rs audience cursor limit :
  new_log retained max_payload = Ok log -> N.of_nat (length rs) + 1 < u64_max -> 0 < limit ->
  let log' := submit_all rs log in
  let h := history max_payload rs in
  events log' = last_n retained h
  /\ latest_event_id log' = N.of_nat (length h)
  /\ (forall i e, h !! i = Some e -> ev_id e = N.of_nat i + 1)
  /\ replay_after_for log' audience cursor limit
     = take (N.to_nat limit) (after (N.max cursor (N.of_nat (length h) - retained)) audience h).
Proof.
  intros Hnew Hn Hl.
  assert (max_events log = retained /\ max_payload_bytes log = max_payload) as [Hm Hp].
  { unfold new_log in Hnew. destruct (retained =? 0); [done|]. destruct (max_payload =? 0); [done|].
    by injection Hnew as <-. }
  destruct (submit_all_represents rs log) as ([He Hi] & Hm' & _); [congruence|done|].
  rewrite Hp in *. cbn zeta. rewrite Hm' in He. rewrite Hm in He. split; [done|]. split; [|split].
  - unfold latest_event_id. lia.
  - intros i e H. apply number_from_ids in H. lia.
  - unfold replay_after_for, after. rewrite He. destruct (N.eqb_spec limit 0); [lia|].
    unfold history. rewrite replay_history, length_number_from. done.
Qed.

(** A client that pages through the log with a cursor receives every retained
    event that is visible to it and newer than the cursor, exactly once and in
    order, for every page size. *)
Theorem paging_replays_everything retained max_payload log rs audience cursor limit fuel :
  new_log retained max_payload = Ok log -> N.of_nat (length rs) + 1 < u64_max -> 0 < limit ->
  let log' := submit_all rs log in
  (length (events log') < fuel)%nat ->
  pages fuel log' audience cursor limit = after cursor audience (events log').
Proof.
  intros Hnew Hn Hl log' Hf.
  assert (max_events log = retained /\ max_payload_bytes log = max_payload) as [Hm Hp].
  { unfold new_log in Hnew. destruct (retained =? 0); [done|]. destruct (max_payload =? 0); [done|].
    by injection Hnew as <-. }
  destruct (submit_all_represents rs log) as ([He _] & _ & _); [congruence|done|]. fold log' in He.
  apply pages_spec; [rewrite He; apply increasing_drop, number_from_increasing|done|].
  eapply Nat.le_lt_trans; [apply length_after|exact Hf].
Qed.

(** C40. What an audience may learn: two logs that agree on the events included for
    the audience replay the same to it.  For an observer these are session
    view events from its attachment on, so primary-only, agent and automation
    events leave no trace in its replay. *)
Theorem replay_noninterference log1 log2 audience cursor limit :
  List.filter (fun e => include_event e audience) (events log1)
  = List.filter (fun e => include_event e audience) (events log2) ->
  replay_for log1 audience = replay_for log2 audience
  /\ replay_after_for log1 audience cursor limit = replay_after_for log2 audience cursor limit
  /\ (forall v from, audience = AudApprovedObserver from -> v ∈ replay_for log1 audience ->
        from <= vis_id v /\ exists e, e ∈ events log1 /\ ev_id e = vis_id v /\ ev_visibility e = VisSessionView).
Proof.
  intros H.
  assert (forall l, omap (fun e => visible_event e audience) l
    = omap (fun e => visible_event e audience) (List.filter (fun e => include_event e audience) l)) as Hom.
  { induction l as [|e l IH]; [done|]. cbn [List.filter].
    assert (visible_event e audience = None \/ include_event e audience = true) as [E|E].
    { unfold visible_event. destruct (include_event e audience); [by right|by left]. }
    - destruct (include_event e audience) eqn:F; simpl; rewrite E; [exact IH|exact IH].
    - rewrite E. simpl. destruct (visible_event e audience); [f_equal|]; exact IH. }
  assert (forall l, List.filter (fun e => include_event e audience) (List.filter (fun e => cursor <? ev_id e) l)
    = List.filter (fun e => cursor <? ev_id e) (List.filter (fun e => include_event e audience) l)) as Hcomm.
  { induction l as [|e l IH]; [done|]. simpl.
    destruct (cursor <? ev_id e) eqn:C, (include_event e audience) eqn:E; simpl; rewrite ?C, ?E, IH; done. }
  split; [|split].
  - unfold replay_for. by rewrite Hom, H, <- Hom.
  - unfold replay_after_for. rewrite Hom, Hcomm, H, <- Hcomm, <- Hom. done.
  - intros v from -> (e & He & Hv)%list_elem_of_omap. pose proof (visible_event_id _ _ _ Hv) as Hid.
    unfold visible_event, include_event in Hv. destruct (ev_visibility e) eqn:Ev; try done.
    destruct (N.leb_spec from (ev_id e)) as [Hle|]; [|done]. split; [by rewrite Hid|]. exists e. done.
Qed.

(** The date of an event is a valid Gregorian date, and its distance from
    1970-01-01, counted with the lengths of years and months, is the number of
    days of the clock reading; the days before a year are the sum of the
    lengths of the years before it. *)
Theorem event_dates_correct seconds :
  let days := Z.of_N (seconds / 86400) in
  let '(y, m, d) := civil_from_days days in
  valid_date y m d = true /\ day_number y m d = days
  /\ days_before_year (y + 1) = (days_before_year y + if leap y then 366 else 365)%Z.
Proof.
  intros days. pose proof (civil_correct days (N2Z.is_nonneg _)) as H.
  destruct (civil_from_days days) as [[y m] d]. unfold date_of in H.
  apply andb_true_iff in H as [Hv Hd%Z.eqb_eq]. split; [done|]. split; [done|]. apply days_before_year_step.
Qed.

(** ** Witnesses *)

Definition demo_log : EventLog := mkLog 2 8 1 [].
Definition demo_requests : list request :=
  [mkRequest 0 WindowChanged (Some "$1"%string) VisSessionView "a"; mkRequest 5 Diagnostic None VisAllPrimaries "b";
   mkRequest 6 PaneChanged None VisSessionView "too long payload"; mkRequest 90000 PaneChanged None VisSessionView "c"].

Lemma log_refines_history_witness :
  new_log 2 8 = Ok demo_log
  /\ ev_payload <$> events (submit_all demo_requests demo_log) = ["b"; "c"]%string
  /\ events (submit_all demo_requests demo_log) = last_n 2 (history 8 demo_requests).
Proof.
  split; [reflexivity|]. split; [by vm_compute|].
  exact (proj1 (log_refines_history 2 8 demo_log demo_requests AudAllPrimaries 0 1
                  eq_refl ltac:(by vm_compute) ltac:(done))).
Defined.

Lemma paging_replays_everything_witness :
  vis_payload <$> pages 5 (submit_all demo_requests demo_log) (AudPrimaryClient "c1") 0 1 = ["b"; "c"]%string.
Proof.
  rewrite (paging_replays_everything 2 8 demo_log demo_requests (AudPrimaryClient "c1") 0 1 5);
    [by vm_compute|reflexivity|by vm_compute|done|apply Nat.ltb_lt; by vm_compute].
Defined.

Lemma replay_noninterference_witness :
  replay_for (submit_all demo_requests demo_log) (AudApprovedObserver 2)
  = replay_for (mkLog 9 9 9 [event_of 3 (mkRequest 90000 PaneChanged None VisSessionView "c")]) (AudApprovedObserver 2).
Proof. apply (replay_noninterference _ _ _ 0 1). by vm_compute. Defined.
