(* ===== verification/FrameRender.v ===== *)
(** * Frame templates ([mezzanine/src/protocol/framing/render.rs])

    Substitution of [#{field}] placeholders with control characters replaced,
    and the overflow policies. *)

From S2P Require Import Prelude RustStr RustBytes Framing.
From Stdlib Require Import Ascii.
Local Open Scope nat_scope.

(** ** Data ([types.rs]) *)

Inductive FrameOverflow := Truncate | Elide | Wrap.

Record FrameContext := mkContext { fields : gmap string string }.

Definition new_context : FrameContext := mkContext ∅.
Definition with_field (key value : string) (c : FrameContext) : FrameContext := mkContext (<[key := value]> (fields c)).
Definition field (c : FrameContext) (key : string) : string := default EmptyString (fields c !! key).

(** ** Characters *)

(** [str::chars], each as its UTF-8 bytes. *)
Fixpoint chars_fuel (fuel : nat) (s : string) : list string :=
  match fuel with
  | O => []
  | S fuel => match first_char s with
              | None => []
              | Some (c, s) => c :: chars_fuel fuel s
              end
  end.
Definition chars (s : string) : list string := chars_fuel (String.length s) s.

Definition collect (cs : list string) : string := foldr String.append EmptyString cs.

(** [char::is_control]: U+0000 to U+001F and U+007F to U+009F. *)
Definition is_control (c : string) : bool :=
  match c with
  | String a EmptyString => byte_in 0 31 a || byte_in 127 127 a
  | String a (String b EmptyString) => byte_in 194 194 a && byte_in 128 159 b
  | _ => false
  end.

(** ** Rendering *)

Definition sanitize_frame_text (value : string) : string :=
  collect ((fun ch => if is_control ch then " "%string else ch) <$> chars value).

Definition ellipsis : string := bytes [226; 128; 166]%N.

Definition elide (value : string) (width : nat) : string :=
  match width with
  | O => EmptyString
  | 1 => ellipsis
  | 2 => ellipsis +:+ " "
  | _ => collect (take (width - 1) (chars value)) +:+ ellipsis
  end.

(** The loop of [wrap]: a line break before every character whose index is a
    positive multiple of the width. *)
Definition wrap_text (value : string) (width : nat) : string :=
  collect (imap (fun index ch =>
    if bool_decide (0 < index) && bool_decide (index mod width = 0) then bytes [10]%N +:+ ch else ch) (chars value)).

Definition apply_overflow (value : string) (width : nat) (overflow : FrameOverflow) : string :=
  if bool_decide (width = 0) || bool_decide (length (chars value) <= width) then value else
  match overflow with
  | Truncate => collect (take width (chars value))
  | Elide => elide value width
  | Wrap => wrap_text value width
  end.

(** The loop: the text rendered so far and the rest of the template.  Every
    turn takes a placeholder off the rest. *)
Fixpoint render_loop (fuel : nat) (context : FrameContext) (rendered rest : string) : string * string :=
  match fuel with
  | O => (rendered, rest)
  | S fuel =>
      match find_sub "#{" rest with
      | None => (rendered, rest)
      | Some start =>
          let rendered := rendered +:+ sanitize_frame_text (str_take start rest) in
          let after_start := str_drop (start + 2) rest in
          match find_sub "}" after_start with
          | None => (rendered +:+ sanitize_frame_text (str_drop start rest), rest)
          | Some end_ =>
              let key := str_take end_ after_start in
              render_loop fuel context (rendered +:+ sanitize_frame_text (field context key))
                (str_drop (end_ + 1) after_start)
          end
      end
  end.

Definition render_frame_template (template : string) (context : FrameContext) (width : nat)
    (overflow : FrameOverflow) : string :=
  let '(rendered, rest) := render_loop (S (String.length template)) context EmptyString template in
  apply_overflow (rendered +:+ sanitize_frame_text rest) width overflow.

Example render_example :
  render_frame_template "[#{a}] #{b}!" (with_field "a" "x" new_context) 0 Elide = "[x] !"%string.
Proof. by vm_compute. Qed.

(** ** An unterminated placeholder *)

(** A template whose only placeholder is not closed is rendered twice: the loop
    appends the text from the placeholder on and leaves, and the code behind
    the loop appends the whole rest again. *)
Theorem unterminated_placeholder_repeats template context start :
  find_sub "#{" template = Some start -> find_sub "}" (str_drop (start + 2) template) = None ->
  render_frame_template template context 0 Elide =
    sanitize_frame_text (str_take start template) +:+ sanitize_frame_text (str_drop start template)
    +:+ sanitize_frame_text template.
Proof.
  intros Hs He. unfold render_frame_template. cbn [render_loop]. rewrite Hs, He. cbn [fst snd].
  unfold apply_overflow. rewrite bool_decide_true by done. cbn [orb String.append]. by rewrite <- str_app_assoc.
Qed.

Lemma unterminated_placeholder_repeats_witness :
  render_frame_template "name: #{user" new_context 0 Elide = "name: #{username: #{user"%string.
Proof. rewrite (unterminated_placeholder_repeats _ new_context 6); by vm_compute. Defined.
