(* ===== verification/SessionTypes.v ===== *)
(** * Session data ([mez-mux/src/session/types.rs], [time.rs])

    The records of the multiplexer session: clients with their caller-local
    navigation, observer attachments, window groups, and the session that owns
    the windows of the layout engine.  The host clock is a parameter
    ([Clock]): the n-th call of [current_unix_seconds] returns [clock_at n],
    and the session counts the calls it made. *)

From S2P Require Import Prelude RustStr Ids LayoutTypes LayoutTree WindowOps.
Local Open Scope Z_scope.

Abbreviation SessionId := StableId.
Abbreviation WindowGroupId := StableId.

Definition forbidden (m : string) : MuxError := mkMuxError Forbidden m.
Definition conflict (m : string) : MuxError := mkMuxError Conflict m.

(** ** Shell metadata *)

Record SessionShell := mkShell {
  sh_path : string;
  sh_source : string;
  sh_used_fallback : bool;
  sh_classification : string;
  sh_version_probe : option string }.

Definition SessionShell_new (path source : string) (used_fallback : bool) : SessionShell :=
  mkShell path source used_fallback "" None.
Definition with_execution_identity (sh : SessionShell) (classification : string)
    (version_probe : option string) : SessionShell :=
  mkShell (sh_path sh) (sh_source sh) (sh_used_fallback sh) classification version_probe.

(** ** Restored sessions *)

Inductive RestoredSessionState := RRunning | RDetached | REmpty | RStopping | RFailed.

(** ** Clients and their navigation *)

Inductive ClientRole := Primary | Observer | Agent | Automation.
Inductive ClientState := Attached | Pending | Detached | Revoked | ClientFailed.

#[global] Instance ClientRole_eq_dec : EqDecision ClientRole.
Proof. solve_decision. Defined.
#[global] Instance ClientState_eq_dec : EqDecision ClientState.
Proof. solve_decision. Defined.

Record ClientTerminalDescriptor := mkTerminal {
  ct_columns : Z;
  ct_rows : Z;
  ct_term : string;
  ct_features : list string }.

Record FocusCursor (T : Type) := mkCursor {
  fc_active : option T;
  fc_last : option T;
  fc_history : list T }.
Arguments mkCursor {T} _ _ _.
Arguments fc_active {T} _.
Arguments fc_last {T} _.
Arguments fc_history {T} _.

#[global] Instance FocusCursor_eq_dec {T} `{!EqDecision T} : EqDecision (FocusCursor T).
Proof. solve_decision. Defined.

Definition FocusCursor_default {T} : FocusCursor T := mkCursor None None [].
(** [FocusCursor { active, ..FocusCursor::default() }]. *)
Definition cursor_at {T} (active : T) : FocusCursor T := mkCursor (Some active) None [].

Record ClientNavigationState := mkNavigation {
  nav_groups : FocusCursor WindowGroupId;
  nav_windows_by_group : gmap WindowGroupId (FocusCursor WindowId);
  nav_panes_by_window : gmap WindowId (FocusCursor PaneId);
  nav_zoomed_panes_by_window : gmap WindowId PaneId;
  nav_revision : Z }.

#[global] Instance ClientNavigationState_eq_dec : EqDecision ClientNavigationState.
Proof. solve_decision. Defined.

Definition ClientNavigationState_default : ClientNavigationState :=
  mkNavigation FocusCursor_default ∅ ∅ ∅ 0.

Record LandingNavigationState := mkLanding {
  ln_active_group_id : option WindowGroupId;
  ln_active_window_id : option WindowId;
  ln_active_pane_id : option PaneId }.

#[global] Instance LandingNavigationState_eq_dec : EqDecision LandingNavigationState.
Proof. solve_decision. Defined.

Record Client := mkClient {
  c_id : ClientId;
  c_name : string;
  c_role : ClientRole;
  c_state : ClientState;
  c_interactive : bool;
  c_terminal : option ClientTerminalDescriptor;
  c_attached_at_unix_seconds : option Z;
  c_last_seen_at_unix_seconds : option Z;
  c_navigation : option ClientNavigationState }.

Definition client_set_state (st : ClientState) (c : Client) : Client :=
  mkClient (c_id c) (c_name c) (c_role c) st (c_interactive c) (c_terminal c)
    (c_attached_at_unix_seconds c) (c_last_seen_at_unix_seconds c) (c_navigation c).
Definition client_set_terminal (t : option ClientTerminalDescriptor) (c : Client) : Client :=
  mkClient (c_id c) (c_name c) (c_role c) (c_state c) (c_interactive c) t
    (c_attached_at_unix_seconds c) (c_last_seen_at_unix_seconds c) (c_navigation c).
Definition client_set_last_seen (at_ : Z) (c : Client) : Client :=
  mkClient (c_id c) (c_name c) (c_role c) (c_state c) (c_interactive c) (c_terminal c)
    (c_attached_at_unix_seconds c) (Some at_) (c_navigation c).
Definition client_set_navigation (n : option ClientNavigationState) (c : Client) : Client :=
  mkClient (c_id c) (c_name c) (c_role c) (c_state c) (c_interactive c) (c_terminal c)
    (c_attached_at_unix_seconds c) (c_last_seen_at_unix_seconds c) n.

Definition MAX_ATTACHED_PRIMARY_CLIENTS : nat := 16.
Definition MAX_RETAINED_DETACHED_CLIENTS : nat := 64.

Record PaneResizeEffect := mkEffect { ef_pane_id : PaneId; ef_size : Size }.

Inductive PrimaryLifecycleEdge := EdgeNone | EdgeAttached | EdgeDetached.

Record PrimaryMembershipTransition := mkMembership {
  pm_client_id : ClientId;
  pm_primary_count_before : nat;
  pm_primary_count_after : nat;
  pm_layout_owner_before : option ClientId;
  pm_layout_owner_after : option ClientId;
  pm_authoritative_size_before : Size;
  pm_authoritative_size_after : Size;
  pm_resize_effects : list PaneResizeEffect;
  pm_revoked_observer_client_ids : list ClientId;
  pm_lifecycle_edge : PrimaryLifecycleEdge }.

Record ObserverAttachment := mkObserver {
  ob_client_id : ClientId;
  ob_view_source_client_id : ClientId;
  ob_visible_from_event_id : Z }.

Inductive SessionState := Running | SessionDetached | SessionEmpty | Stopping | SessionFailed.

#[global] Instance SessionState_eq_dec : EqDecision SessionState.
Proof. solve_decision. Defined.

Record PaneStateMetadata := mkMetadata {
  pm_current_working_directory : option string;
  pm_readiness_state : string;
  pm_alternate_screen_active : bool }.

(** ** Window groups *)

Record WindowGroup := mkGroup {
  wg_id : WindowGroupId;
  wg_index : nat;
  wg_name : string;
  wg_window_ids : list WindowId;
  wg_active_window_id : option WindowId;
  wg_last_active_window_id : option WindowId;
  wg_window_focus_history : list WindowId;
  wg_created_at_unix_seconds : option Z }.

Definition group_set_index (i : nat) (g : WindowGroup) : WindowGroup :=
  mkGroup (wg_id g) i (wg_name g) (wg_window_ids g) (wg_active_window_id g)
    (wg_last_active_window_id g) (wg_window_focus_history g) (wg_created_at_unix_seconds g).
Definition group_set_name (name : string) (g : WindowGroup) : WindowGroup :=
  mkGroup (wg_id g) (wg_index g) name (wg_window_ids g) (wg_active_window_id g)
    (wg_last_active_window_id g) (wg_window_focus_history g) (wg_created_at_unix_seconds g).
Definition group_set_window_ids (ids : list WindowId) (g : WindowGroup) : WindowGroup :=
  mkGroup (wg_id g) (wg_index g) (wg_name g) ids (wg_active_window_id g)
    (wg_last_active_window_id g) (wg_window_focus_history g) (wg_created_at_unix_seconds g).
(** The three focus fields of a group. *)
Definition group_set_focus (active last : option WindowId) (history : list WindowId)
    (g : WindowGroup) : WindowGroup :=
  mkGroup (wg_id g) (wg_index g) (wg_name g) (wg_window_ids g) active last history
    (wg_created_at_unix_seconds g).
Definition group_set_active (active : option WindowId) (g : WindowGroup) : WindowGroup :=
  group_set_focus active (wg_last_active_window_id g) (wg_window_focus_history g) g.

(** [WindowGroup::new]. *)
Definition WindowGroup_new (id : WindowGroupId) (index : nat) (name : string)
    (window_id : WindowId) (created_at_unix_seconds : option Z) : WindowGroup :=
  mkGroup id index name [window_id] (Some window_id) None [] created_at_unix_seconds.

(** ** The session *)

Record Session := mkSession {
  s_ids : IdFactory;
  s_id : SessionId;
  s_name : string;
  s_state : SessionState;
  s_created_at_unix_seconds : Z;
  s_updated_at_unix_seconds : Z;
  s_last_attached_at_unix_seconds : option Z;
  s_authoritative_size : Size;
  s_shell : SessionShell;
  s_config_generation : Z;
  s_windows : list Window;
  s_window_groups : list WindowGroup;
  s_active_group_index : nat;
  s_last_active_group_index : option nat;
  s_group_focus_history : list WindowGroupId;
  s_active_window_index : nat;
  s_last_active_window_index : option nat;
  s_synchronized_window_ids : gset string;
  s_pane_state_metadata : gmap string PaneStateMetadata;
  s_clients : list Client;
  s_observer_attachments : list ObserverAttachment;
  s_landing_navigation : LandingNavigationState;
  s_layout_owner_client_id : option ClientId;
  s_layout_revision : Z;
  s_next_event_id : Z;
  s_clock_reads : nat }.

(** Field assignments. *)
Section SessionSetters.
Context (s : Session).

Definition set_ids (v : IdFactory) : Session :=
  mkSession v (s_id s) (s_name s) (s_state s) (s_created_at_unix_seconds s)
    (s_updated_at_unix_seconds s) (s_last_attached_at_unix_seconds s) (s_authoritative_size s)
    (s_shell s) (s_config_generation s) (s_windows s) (s_window_groups s) (s_active_group_index
    s) (s_last_active_group_index s) (s_group_focus_history s) (s_active_window_index s)
    (s_last_active_window_index s) (s_synchronized_window_ids s) (s_pane_state_metadata s)
    (s_clients s) (s_observer_attachments s) (s_landing_navigation s) (s_layout_owner_client_id
    s) (s_layout_revision s) (s_next_event_id s) (s_clock_reads s).
Definition set_session_name (v : string) : Session :=
  mkSession (s_ids s) (s_id s) v (s_state s) (s_created_at_unix_seconds s)
    (s_updated_at_unix_seconds s) (s_last_attached_at_unix_seconds s) (s_authoritative_size s)
    (s_shell s) (s_config_generation s) (s_windows s) (s_window_groups s) (s_active_group_index
    s) (s_last_active_group_index s) (s_group_focus_history s) (s_active_window_index s)
    (s_last_active_window_index s) (s_synchronized_window_ids s) (s_pane_state_metadata s)
    (s_clients s) (s_observer_attachments s) (s_landing_navigation s) (s_layout_owner_client_id
    s) (s_layout_revision s) (s_next_event_id s) (s_clock_reads s).
Definition set_state (v : SessionState) : Session :=
  mkSession (s_ids s) (s_id s) (s_name s) v (s_created_at_unix_seconds s)
    (s_updated_at_unix_seconds s) (s_last_attached_at_unix_seconds s) (s_authoritative_size s)
    (s_shell s) (s_config_generation s) (s_windows s) (s_window_groups s) (s_active_group_index
    s) (s_last_active_group_index s) (s_group_focus_history s) (s_active_window_index s)
    (s_last_active_window_index s) (s_synchronized_window_ids s) (s_pane_state_metadata s)
    (s_clients s) (s_observer_attachments s) (s_landing_navigation s) (s_layout_owner_client_id
    s) (s_layout_revision s) (s_next_event_id s) (s_clock_reads s).
Definition set_updated_at_unix_seconds (v : Z) : Session :=
  mkSession (s_ids s) (s_id s) (s_name s) (s_state s) (s_created_at_unix_seconds s) v
    (s_last_attached_at_unix_seconds s) (s_authoritative_size s) (s_shell s)
    (s_config_generation s) (s_windows s) (s_window_groups s) (s_active_group_index s)
    (s_last_active_group_index s) (s_group_focus_history s) (s_active_window_index s)
    (s_last_active_window_index s) (s_synchronized_window_ids s) (s_pane_state_metadata s)
    (s_clients s) (s_observer_attachments s) (s_landing_navigation s) (s_layout_owner_client_id
    s) (s_layout_revision s) (s_next_event_id s) (s_clock_reads s).
Definition set_last_attached_at_unix_seconds (v : option Z) : Session :=
  mkSession (s_ids s) (s_id s) (s_name s) (s_state s) (s_created_at_unix_seconds s)
    (s_updated_at_unix_seconds s) v (s_authoritative_size s) (s_shell s) (s_config_generation s)
    (s_windows s) (s_window_groups s) (s_active_group_index s) (s_last_active_group_index s)
    (s_group_focus_history s) (s_active_window_index s) (s_last_active_window_index s)
    (s_synchronized_window_ids s) (s_pane_state_metadata s) (s_clients s)
    (s_observer_attachments s) (s_landing_navigation s) (s_layout_owner_client_id s)
    (s_layout_revision s) (s_next_event_id s) (s_clock_reads s).
Definition set_authoritative_size (v : Size) : Session :=
  mkSession (s_ids s) (s_id s) (s_name s) (s_state s) (s_created_at_unix_seconds s)
    (s_updated_at_unix_seconds s) (s_last_attached_at_unix_seconds s) v (s_shell s)
    (s_config_generation s) (s_windows s) (s_window_groups s) (s_active_group_index s)
    (s_last_active_group_index s) (s_group_focus_history s) (s_active_window_index s)
    (s_last_active_window_index s) (s_synchronized_window_ids s) (s_pane_state_metadata s)
    (s_clients s) (s_observer_attachments s) (s_landing_navigation s) (s_layout_owner_client_id
    s) (s_layout_revision s) (s_next_event_id s) (s_clock_reads s).
Definition set_config_generation (v : Z) : Session :=
  mkSession (s_ids s) (s_id s) (s_name s) (s_state s) (s_created_at_unix_seconds s)
    (s_updated_at_unix_seconds s) (s_last_attached_at_unix_seconds s) (s_authoritative_size s)
    (s_shell s) v (s_windows s) (s_window_groups s) (s_active_group_index s)
    (s_last_active_group_index s) (s_group_focus_history s) (s_active_window_index s)
    (s_last_active_window_index s) (s_synchronized_window_ids s) (s_pane_state_metadata s)
    (s_clients s) (s_observer_attachments s) (s_landing_navigation s) (s_layout_owner_client_id
    s) (s_layout_revision s) (s_next_event_id s) (s_clock_reads s).
Definition set_windows (v : list Window) : Session :=
  mkSession (s_ids s) (s_id s) (s_name s) (s_state s) (s_created_at_unix_seconds s)
    (s_updated_at_unix_seconds s) (s_last_attached_at_unix_seconds s) (s_authoritative_size s)
    (s_shell s) (s_config_generation s) v (s_window_groups s) (s_active_group_index s)
    (s_last_active_group_index s) (s_group_focus_history s) (s_active_window_index s)
    (s_last_active_window_index s) (s_synchronized_window_ids s) (s_pane_state_metadata s)
    (s_clients s) (s_observer_attachments s) (s_landing_navigation s) (s_layout_owner_client_id
    s) (s_layout_revision s) (s_next_event_id s) (s_clock_reads s).
Definition set_window_groups (v : list WindowGroup) : Session :=
  mkSession (s_ids s) (s_id s) (s_name s) (s_state s) (s_created_at_unix_seconds s)
    (s_updated_at_unix_seconds s) (s_last_attached_at_unix_seconds s) (s_authoritative_size s)
    (s_shell s) (s_config_generation s) (s_windows s) v (s_active_group_index s)
    (s_last_active_group_index s) (s_group_focus_history s) (s_active_window_index s)
    (s_last_active_window_index s) (s_synchronized_window_ids s) (s_pane_state_metadata s)
    (s_clients s) (s_observer_attachments s) (s_landing_navigation s) (s_layout_owner_client_id
    s) (s_layout_revision s) (s_next_event_id s) (s_clock_reads s).
Definition set_active_group_index (v : nat) : Session :=
  mkSession (s_ids s) (s_id s) (s_name s) (s_state s) (s_created_at_unix_seconds s)
    (s_updated_at_unix_seconds s) (s_last_attached_at_unix_seconds s) (s_authoritative_size s)
    (s_shell s) (s_config_generation s) (s_windows s) (s_window_groups s) v
    (s_last_active_group_index s) (s_group_focus_history s) (s_active_window_index s)
    (s_last_active_window_index s) (s_synchronized_window_ids s) (s_pane_state_metadata s)
    (s_clients s) (s_observer_attachments s) (s_landing_navigation s) (s_layout_owner_client_id
    s) (s_layout_revision s) (s_next_event_id s) (s_clock_reads s).
Definition set_last_active_group_index (v : option nat) : Session :=
  mkSession (s_ids s) (s_id s) (s_name s) (s_state s) (s_created_at_unix_seconds s)
    (s_updated_at_unix_seconds s) (s_last_attached_at_unix_seconds s) (s_authoritative_size s)
    (s_shell s) (s_config_generation s) (s_windows s) (s_window_groups s) (s_active_group_index
    s) v (s_group_focus_history s) (s_active_window_index s) (s_last_active_window_index s)
    (s_synchronized_window_ids s) (s_pane_state_metadata s) (s_clients s)
    (s_observer_attachments s) (s_landing_navigation s) (s_layout_owner_client_id s)
    (s_layout_revision s) (s_next_event_id s) (s_clock_reads s).
Definition set_group_focus_history (v : list WindowGroupId) : Session :=
  mkSession (s_ids s) (s_id s) (s_name s) (s_state s) (s_created_at_unix_seconds s)
    (s_updated_at_unix_seconds s) (s_last_attached_at_unix_seconds s) (s_authoritative_size s)
    (s_shell s) (s_config_generation s) (s_windows s) (s_window_groups s) (s_active_group_index
    s) (s_last_active_group_index s) v (s_active_window_index s) (s_last_active_window_index s)
    (s_synchronized_window_ids s) (s_pane_state_metadata s) (s_clients s)
    (s_observer_attachments s) (s_landing_navigation s) (s_layout_owner_client_id s)
    (s_layout_revision s) (s_next_event_id s) (s_clock_reads s).
Definition set_active_window_index (v : nat) : Session :=
  mkSession (s_ids s) (s_id s) (s_name s) (s_state s) (s_created_at_unix_seconds s)
    (s_updated_at_unix_seconds s) (s_last_attached_at_unix_seconds s) (s_authoritative_size s)
    (s_shell s) (s_config_generation s) (s_windows s) (s_window_groups s) (s_active_group_index
    s) (s_last_active_group_index s) (s_group_focus_history s) v (s_last_active_window_index s)
    (s_synchronized_window_ids s) (s_pane_state_metadata s) (s_clients s)
    (s_observer_attachments s) (s_landing_navigation s) (s_layout_owner_client_id s)
    (s_layout_revision s) (s_next_event_id s) (s_clock_reads s).
Definition set_last_active_window_index (v : option nat) : Session :=
  mkSession (s_ids s) (s_id s) (s_name s) (s_state s) (s_created_at_unix_seconds s)
    (s_updated_at_unix_seconds s) (s_last_attached_at_unix_seconds s) (s_authoritative_size s)
    (s_shell s) (s_config_generation s) (s_windows s) (s_window_groups s) (s_active_group_index
    s) (s_last_active_group_index s) (s_group_focus_history s) (s_active_window_index s) v
    (s_synchronized_window_ids s) (s_pane_state_metadata s) (s_clients s)
    (s_observer_attachments s) (s_landing_navigation s) (s_layout_owner_client_id s)
    (s_layout_revision s) (s_next_event_id s) (s_clock_reads s).
Definition set_synchronized_window_ids (v : gset string) : Session :=
  mkSession (s_ids s) (s_id s) (s_name s) (s_state s) (s_created_at_unix_seconds s)
    (s_updated_at_unix_seconds s) (s_last_attached_at_unix_seconds s) (s_authoritative_size s)
    (s_shell s) (s_config_generation s) (s_windows s) (s_window_groups s) (s_active_group_index
    s) (s_last_active_group_index s) (s_group_focus_history s) (s_active_window_index s)
    (s_last_active_window_index s) v (s_pane_state_metadata s) (s_clients s)
    (s_observer_attachments s) (s_landing_navigation s) (s_layout_owner_client_id s)
    (s_layout_revision s) (s_next_event_id s) (s_clock_reads s).
Definition set_pane_state_metadata (v : gmap string PaneStateMetadata) : Session :=
  mkSession (s_ids s) (s_id s) (s_name s) (s_state s) (s_created_at_unix_seconds s)
    (s_updated_at_unix_seconds s) (s_last_attached_at_unix_seconds s) (s_authoritative_size s)
    (s_shell s) (s_config_generation s) (s_windows s) (s_window_groups s) (s_active_group_index
    s) (s_last_active_group_index s) (s_group_focus_history s) (s_active_window_index s)
    (s_last_active_window_index s) (s_synchronized_window_ids s) v (s_clients s)
    (s_observer_attachments s) (s_landing_navigation s) (s_layout_owner_client_id s)
    (s_layout_revision s) (s_next_event_id s) (s_clock_reads s).
Definition set_clients (v : list Client) : Session :=
  mkSession (s_ids s) (s_id s) (s_name s) (s_state s) (s_created_at_unix_seconds s)
    (s_updated_at_unix_seconds s) (s_last_attached_at_unix_seconds s) (s_authoritative_size s)
    (s_shell s) (s_config_generation s) (s_windows s) (s_window_groups s) (s_active_group_index
    s) (s_last_active_group_index s) (s_group_focus_history s) (s_active_window_index s)
    (s_last_active_window_index s) (s_synchronized_window_ids s) (s_pane_state_metadata s) v
    (s_observer_attachments s) (s_landing_navigation s) (s_layout_owner_client_id s)
    (s_layout_revision s) (s_next_event_id s) (s_clock_reads s).
Definition set_observer_attachments (v : list ObserverAttachment) : Session :=
  mkSession (s_ids s) (s_id s) (s_name s) (s_state s) (s_created_at_unix_seconds s)
    (s_updated_at_unix_seconds s) (s_last_attached_at_unix_seconds s) (s_authoritative_size s)
    (s_shell s) (s_config_generation s) (s_windows s) (s_window_groups s) (s_active_group_index
    s) (s_last_active_group_index s) (s_group_focus_history s) (s_active_window_index s)
    (s_last_active_window_index s) (s_synchronized_window_ids s) (s_pane_state_metadata s)
    (s_clients s) v (s_landing_navigation s) (s_layout_owner_client_id s) (s_layout_revision s)
    (s_next_event_id s) (s_clock_reads s).
Definition set_landing_navigation (v : LandingNavigationState) : Session :=
  mkSession (s_ids s) (s_id s) (s_name s) (s_state s) (s_created_at_unix_seconds s)
    (s_updated_at_unix_seconds s) (s_last_attached_at_unix_seconds s) (s_authoritative_size s)
    (s_shell s) (s_config_generation s) (s_windows s) (s_window_groups s) (s_active_group_index
    s) (s_last_active_group_index s) (s_group_focus_history s) (s_active_window_index s)
    (s_last_active_window_index s) (s_synchronized_window_ids s) (s_pane_state_metadata s)
    (s_clients s) (s_observer_attachments s) v (s_layout_owner_client_id s) (s_layout_revision
    s) (s_next_event_id s) (s_clock_reads s).
Definition set_layout_owner_client_id (v : option ClientId) : Session :=
  mkSession (s_ids s) (s_id s) (s_name s) (s_state s) (s_created_at_unix_seconds s)
    (s_updated_at_unix_seconds s) (s_last_attached_at_unix_seconds s) (s_authoritative_size s)
    (s_shell s) (s_config_generation s) (s_windows s) (s_window_groups s) (s_active_group_index
    s) (s_last_active_group_index s) (s_group_focus_history s) (s_active_window_index s)
    (s_last_active_window_index s) (s_synchronized_window_ids s) (s_pane_state_metadata s)
    (s_clients s) (s_observer_attachments s) (s_landing_navigation s) v (s_layout_revision s)
    (s_next_event_id s) (s_clock_reads s).
Definition set_layout_revision (v : Z) : Session :=
  mkSession (s_ids s) (s_id s) (s_name s) (s_state s) (s_created_at_unix_seconds s)
    (s_updated_at_unix_seconds s) (s_last_attached_at_unix_seconds s) (s_authoritative_size s)
    (s_shell s) (s_config_generation s) (s_windows s) (s_window_groups s) (s_active_group_index
    s) (s_last_active_group_index s) (s_group_focus_history s) (s_active_window_index s)
    (s_last_active_window_index s) (s_synchronized_window_ids s) (s_pane_state_metadata s)
    (s_clients s) (s_observer_attachments s) (s_landing_navigation s) (s_layout_owner_client_id
    s) v (s_next_event_id s) (s_clock_reads s).
Definition set_next_event_id (v : Z) : Session :=
  mkSession (s_ids s) (s_id s) (s_name s) (s_state s) (s_created_at_unix_seconds s)
    (s_updated_at_unix_seconds s) (s_last_attached_at_unix_seconds s) (s_authoritative_size s)
    (s_shell s) (s_config_generation s) (s_windows s) (s_window_groups s) (s_active_group_index
    s) (s_last_active_group_index s) (s_group_focus_history s) (s_active_window_index s)
    (s_last_active_window_index s) (s_synchronized_window_ids s) (s_pane_state_metadata s)
    (s_clients s) (s_observer_attachments s) (s_landing_navigation s) (s_layout_owner_client_id
    s) (s_layout_revision s) v (s_clock_reads s).
Definition set_clock_reads (v : nat) : Session :=
  mkSession (s_ids s) (s_id s) (s_name s) (s_state s) (s_created_at_unix_seconds s)
    (s_updated_at_unix_seconds s) (s_last_attached_at_unix_seconds s) (s_authoritative_size s)
    (s_shell s) (s_config_generation s) (s_windows s) (s_window_groups s) (s_active_group_index
    s) (s_last_active_group_index s) (s_group_focus_history s) (s_active_window_index s)
    (s_last_active_window_index s) (s_synchronized_window_ids s) (s_pane_state_metadata s)
    (s_clients s) (s_observer_attachments s) (s_landing_navigation s) (s_layout_owner_client_id
    s) (s_layout_revision s) (s_next_event_id s) v.
End SessionSetters.

(** ** The clock ([time.rs])

    [SystemTime::now] is the host's: each reading is the value the instance
    gives for its number. *)
Class Clock := clock_at : nat -> Z.

(** Methods on [&mut Session]. *)
Abbreviation smethod := (op MuxError Session).

Definition current_unix_seconds `{Clock} : smethod Z := fun s =>
  (set_clock_reads s (S (s_clock_reads s)), Ok (clock_at (s_clock_reads s))).

(** ** Windows of a session *)

Definition window_set_index (i : nat) (w : Window) : Window :=
  mkWindow (w_id w) i (w_name w) (w_name_source w) (w_created_at_unix_seconds w) (w_size w)
    (w_panes w) (w_active_pane_index w) (w_last_active_pane_index w) (w_pane_focus_history w)
    (w_zoomed_pane_id w) (w_layout_policy w) (w_layout_root w) (w_pane_geometries w).
Definition window_set_created_at (at_ : option Z) (w : Window) : Window :=
  mkWindow (w_id w) (w_index w) (w_name w) (w_name_source w) at_ (w_size w)
    (w_panes w) (w_active_pane_index w) (w_last_active_pane_index w) (w_pane_focus_history w)
    (w_zoomed_pane_id w) (w_layout_policy w) (w_layout_root w) (w_pane_geometries w).

(** The identities of a session's windows and groups, and of a window's panes. *)
Definition window_ids (s : Session) : list WindowId := w_id <$> s_windows s.
Definition group_ids (s : Session) : list WindowGroupId := wg_id <$> s_window_groups s.
Definition pane_ids (w : Window) : list PaneId := p_id <$> w_panes w.

(** [iter().position(|x| x.id == id)] over windows and groups. *)
Definition window_position (ws : list Window) (id : WindowId) : option nat :=
  position (fun w => String.eqb (w_id w) id) ws.
Definition group_position (gs : list WindowGroup) (id : WindowGroupId) : option nat :=
  position (fun g => String.eqb (wg_id g) id) gs.
Definition client_position (cs : list Client) (id : ClientId) : option nat :=
  position (fun c => String.eqb (c_id c) id) cs.
