(* ===== verification/Reconcile.v ===== *)
(** * Navigation reconciliation ([mez-mux/src/session/reconciliation.rs])

    After a topology mutation every attached primary's stable-identity view
    and the landing focus are validated against the live groups, windows and
    panes.  The definitions follow the code; the theorems show that the pass
    leaves every view naming live, mutually consistent objects, that it does
    not touch a view that already does, and that it therefore settles after
    one pass. *)

From S2P Require Import Prelude RustStr Ids LayoutTypes LayoutTree WindowOps SessionTypes.
Local Open Scope Z_scope.

(** ** Topology *)

Record NavigationTopology := mkTopology {
  t_group_ids : list WindowGroupId;
  t_group_windows : gmap WindowGroupId (list WindowId);
  t_window_group : gmap WindowId WindowGroupId;
  t_window_ids : list WindowId;
  t_window_panes : gmap WindowId (list PaneId);
  t_pane_window : gmap PaneId WindowId }.

(** The [for] loops that insert one binding per element. *)
Definition insert_all {K A} `{Countable K} {V} (key : A -> K) (value : A -> V) (l : list A)
    (m : gmap K V) : gmap K V := foldl (fun m x => <[key x := value x]> m) m l.

(** The nested loops that bind every member to its owner. *)
Definition insert_members {K A} `{Countable K} {V} (members : A -> list K) (owner : A -> V)
    (l : list A) (m : gmap K V) : gmap K V :=
  foldl (fun m x => foldl (fun m k => <[k := owner x]> m) m (members x)) m l.

Definition from_session (s : Session) : NavigationTopology :=
  mkTopology (wg_id <$> s_window_groups s)
    (insert_all wg_id wg_window_ids (s_window_groups s) ∅)
    (insert_members wg_window_ids wg_id (s_window_groups s) ∅)
    (w_id <$> s_windows s)
    (insert_all w_id pane_ids (s_windows s) ∅)
    (insert_members pane_ids w_id (s_windows s) ∅).

(** ** Values, histories and cursors *)

(** [Option::or_else]. *)
Definition or_else {A} (a b : option A) : option A := match a with Some _ => a | None => b end.

Definition contains (valid : list StableId) (v : StableId) : bool := existsb (String.eqb v) valid.

Definition valid_value (value : option StableId) (valid : list StableId) : option StableId :=
  value ≫= fun v => if contains valid v then Some v else None.

Definition newest_valid (history valid : list StableId) : option StableId :=
  List.find (contains valid) (rev history).

Fixpoint retain_unique (valid seen history : list StableId) : list StableId :=
  match history with
  | [] => []
  | v :: history =>
      if contains valid v && negb (contains seen v)
      then v :: retain_unique valid (v :: seen) history
      else retain_unique valid seen history
  end.

Definition retain_valid_unique (history valid : list StableId) : list StableId :=
  let history := retain_unique valid [] history in
  if (10 <? length history)%nat then drop (length history - 10) history else history.

(** The body shared by the window and the pane loop: a cursor repaired against
    the members of its owner, following [followed] when it moved there. *)
Definition reconcile_cursor (members : list StableId) (followed : option StableId)
    (cursor : FocusCursor StableId) : FocusCursor StableId :=
  let last := valid_value (fc_last cursor) members in
  let history := retain_valid_unique (fc_history cursor) members in
  let active :=
    or_else followed (or_else (valid_value (fc_active cursor) members)
      (or_else (newest_valid history members) (head members))) in
  mkCursor active last history.

(** One iteration: [focus] is the active value being followed, [acc] the
    cursors rebuilt so far. *)
Definition reconcile_owner (members_of : gmap StableId (list StableId))
    (owner_of : gmap StableId StableId) (old : gmap StableId (FocusCursor StableId))
    (active_owner : option StableId)
    (st : option StableId * gmap StableId (FocusCursor StableId)) (owner : StableId)
    : option StableId * gmap StableId (FocusCursor StableId) :=
  let '(focus, acc) := st in
  if bool_decide (old !! owner = None) && negb (bool_decide (active_owner = Some owner))
  then (focus, acc) else
  let members := default [] (members_of !! owner) in
  let followed := focus ≫= fun v => if bool_decide (owner_of !! v = Some owner) then Some v else None in
  let cursor := reconcile_cursor members followed (default FocusCursor_default (old !! owner)) in
  (if bool_decide (active_owner = Some owner) then fc_active cursor else focus,
   <[owner := cursor]> acc).

Section Reconciliation.
Context (t : NavigationTopology).

(** The loop over groups. *)
Definition reconcile_windows (old : gmap WindowGroupId (FocusCursor WindowId))
    (active_group : option WindowGroupId) (active_window : option WindowId)
    : option WindowId * gmap WindowGroupId (FocusCursor WindowId) :=
  foldl (reconcile_owner (t_group_windows t) (t_window_group t) old active_group)
    (active_window, ∅) (t_group_ids t).

(** The loop over windows. *)
Definition reconcile_panes (old : gmap WindowId (FocusCursor PaneId))
    (active_window : option WindowId) (active_pane : option PaneId)
    : option PaneId * gmap WindowId (FocusCursor PaneId) :=
  foldl (reconcile_owner (t_window_panes t) (t_pane_window t) old active_window)
    (active_pane, ∅) (t_window_ids t).

(** The active window and pane the view had. *)
Definition prior_window (n : ClientNavigationState) : option WindowId :=
  fc_active (nav_groups n) ≫= fun g => nav_windows_by_group n !! g ≫= fc_active.
Definition prior_pane (n : ClientNavigationState) (w : option WindowId) : option PaneId :=
  w ≫= fun w => nav_panes_by_window n !! w ≫= fc_active.

Definition zoom_is_live (e : WindowId * PaneId) : bool :=
  match t_window_panes t !! e.1 with Some panes => contains panes e.2 | None => false end.

Definition retain_zoom (zoomed : gmap WindowId PaneId) : gmap WindowId PaneId :=
  filter (fun e => zoom_is_live e = true) zoomed.

(** The comparison the revision depends on. *)
Definition navigation_changed (a b : ClientNavigationState) : bool :=
  negb (bool_decide (nav_groups a = nav_groups b))
  || negb (bool_decide (nav_windows_by_group a = nav_windows_by_group b))
  || negb (bool_decide (nav_panes_by_window a = nav_panes_by_window b))
  || negb (bool_decide (nav_zoomed_panes_by_window a = nav_zoomed_panes_by_window b)).

Definition next_revision (changed : bool) (before : ClientNavigationState) : Z :=
  if changed then sat_add u64_MAX (nav_revision before) 1 else nav_revision before.

Definition set_revision (r : Z) (n : ClientNavigationState) : ClientNavigationState :=
  mkNavigation (nav_groups n) (nav_windows_by_group n) (nav_panes_by_window n)
    (nav_zoomed_panes_by_window n) r.

Definition reconcile_navigation (landing : LandingNavigationState) (before : ClientNavigationState)
    : ClientNavigationState * bool :=
  let groups := nav_groups before in
  let active_window := prior_window before in
  let active_pane := prior_pane before active_window in
  let active_window :=
    match active_pane with Some p => t_pane_window t !! p | None => active_window end in
  let active_group := active_window ≫= fun w => t_window_group t !! w in
  let active_group :=
    or_else active_group (or_else (valid_value (fc_active groups) (t_group_ids t))
      (or_else (newest_valid (fc_history groups) (t_group_ids t))
        (or_else (valid_value (ln_active_group_id landing) (t_group_ids t))
           (head (t_group_ids t))))) in
  let groups := mkCursor active_group (valid_value (fc_last groups) (t_group_ids t))
                  (retain_valid_unique (fc_history groups) (t_group_ids t)) in
  let '(active_window, windows_by_group) :=
    reconcile_windows (nav_windows_by_group before) active_group active_window in
  let active_pane := active_pane ≫= fun p =>
    match t_pane_window t !! p with Some _ => Some p | None => None end in
  let '(_, panes_by_window) :=
    reconcile_panes (nav_panes_by_window before) active_window active_pane in
  let after := mkNavigation groups windows_by_group panes_by_window
                 (retain_zoom (nav_zoomed_panes_by_window before)) (nav_revision before) in
  let changed := navigation_changed after before in
  (set_revision (next_revision changed before) after, changed).

Definition reconcile_landing (l : LandingNavigationState) : LandingNavigationState :=
  let active_window :=
    or_else (ln_active_pane_id l ≫= fun p => t_pane_window t !! p)
      (valid_value (ln_active_window_id l) (t_window_ids t)) in
  let active_group :=
    or_else (active_window ≫= fun w => t_window_group t !! w) (head (t_group_ids t)) in
  let active_window :=
    or_else active_window (active_group ≫= fun g => t_group_windows t !! g ≫= head) in
  let active_pane :=
    active_window ≫= fun w => t_window_panes t !! w ≫= fun panes =>
      or_else (valid_value (ln_active_pane_id l) panes) (head panes) in
  mkLanding active_group active_window active_pane.

(** The loop over clients. *)
Fixpoint reconcile_clients (landing : LandingNavigationState) (cs : list Client)
    : list Client * list ClientId :=
  match cs with
  | [] => ([], [])
  | c :: cs =>
      let '(cs, affected) := reconcile_clients landing cs in
      if bool_decide (c_role c = Primary) && bool_decide (c_state c = Attached) then
        match c_navigation c with
        | None => (c :: cs, affected)
        | Some n =>
            let '(n, changed) := reconcile_navigation landing n in
            (client_set_navigation (Some n) c :: cs, if changed then c_id c :: affected else affected)
        end
      else (c :: cs, affected)
  end.
End Reconciliation.

Record TopologyReconciliation := mkReconciliation {
  tr_affected_client_ids : list ClientId;
  tr_landing_changed : bool }.

Definition reconcile_client_navigation (s : Session) : Session * TopologyReconciliation :=
  let t := from_session s in
  let landing := reconcile_landing t (s_landing_navigation s) in
  let '(clients, affected) := reconcile_clients t landing (s_clients s) in
  (set_clients (set_landing_navigation s landing) clients,
   mkReconciliation affected (negb (bool_decide (landing = s_landing_navigation s)))).

(** ** What reconciliation establishes *)

#[local] Close Scope Z_scope.



(** ** Lists of identities *)

Lemma contains_spec l v : contains l v = true <-> v ∈ l.
Proof.
  unfold contains. rewrite existsb_exists, list_elem_of_In.
  setoid_rewrite String.eqb_eq. naive_solver.
Qed.

Lemma contains_false l v : contains l v = false <-> v ∉ l.
Proof. rewrite <- contains_spec. by destruct (contains l v). Qed.

Lemma valid_value_Some o l v : valid_value o l = Some v <-> o = Some v /\ v ∈ l.
Proof.
  unfold valid_value. destruct o as [x|]; simpl; [|naive_solver].
  destruct (contains l x) eqn:E; [apply contains_spec in E|apply contains_false in E];
    naive_solver.
Qed.

Lemma valid_value_id o l : (forall v, o = Some v -> v ∈ l) -> valid_value o l = o.
Proof. intros H. destruct o as [v|]; [|done]. apply valid_value_Some. auto. Qed.

Lemma newest_valid_Some h l v : newest_valid h l = Some v -> v ∈ h /\ v ∈ l.
Proof.
  unfold newest_valid. intros [Hv Hc]%List.find_some. apply contains_spec in Hc.
  split; [|done]. apply list_elem_of_In, in_rev. done.
Qed.

Lemma retain_unique_elem valid seen h v :
  v ∈ retain_unique valid seen h -> v ∈ h /\ v ∈ valid /\ v ∉ seen.
Proof.
  revert seen. induction h as [|x h IH]; intros seen; simpl; [by intros ?%not_elem_of_nil|].
  destruct (contains valid x && negb (contains seen x)) eqn:E.
  - apply andb_true_iff in E as [E1%contains_spec E2%negb_true_iff].
    apply contains_false in E2.
    intros [->|H]%elem_of_cons; [by split; [left|]|]. apply IH in H.
    destruct H as (? & ? & Hs). split; [by right|]. split; [done|]. intros ?. apply Hs. by right.
  - intros H%IH. split; [right|]; naive_solver.
Qed.

Lemma retain_unique_NoDup valid seen h : NoDup (retain_unique valid seen h).
Proof.
  revert seen. induction h as [|x h IH]; intros seen; simpl; [constructor|].
  destruct (_ && _); [|done]. constructor; [|done].
  intros H%retain_unique_elem. destruct H as (_ & _ & H). apply H. by left.
Qed.

Lemma retain_unique_id valid seen h :
  NoDup h -> (forall v, v ∈ h -> v ∈ valid /\ v ∉ seen) -> retain_unique valid seen h = h.
Proof.
  intros Hd. revert seen. induction Hd as [|x h Hx Hd IH]; intros seen H; simpl; [done|].
  destruct (H x) as [Hv Hs]; [by left|].
  apply contains_spec in Hv. apply contains_false in Hs. rewrite Hv, Hs. simpl. f_equal.
  apply IH. intros v Hin. destruct (H v) as [? Hn]; [by right|]. split; [done|].
  intros [->|?]%elem_of_cons; done.
Qed.

(** A list of distinct identities among [members], at most ten of them. *)
Record history_ok (members history : list StableId) : Prop := {
  ho_members : forall v, v ∈ history -> v ∈ members;
  ho_nodup : NoDup history;
  ho_bound : (length history <= 10)%nat }.

Lemma retain_valid_unique_ok members h : history_ok members (retain_valid_unique h members).
Proof.
  unfold retain_valid_unique. set (r := retain_unique members [] h).
  assert (Hr : forall v, v ∈ r -> v ∈ members) by (intros v H%retain_unique_elem; naive_solver).
  pose proof (retain_unique_NoDup members [] h) as Hd. fold r in Hd.
  destruct (10 <? length r)%nat eqn:E; bool_to_prop; [|by split].
  split.
  - intros v Hv. apply Hr. rewrite <- (take_drop (length r - 10) r). apply elem_of_app. by right.
  - rewrite <- (take_drop (length r - 10) r) in Hd. by apply NoDup_app in Hd as (_ & _ & ?).
  - rewrite length_drop. lia.
Qed.

Lemma retain_valid_unique_id members h : history_ok members h -> retain_valid_unique h members = h.
Proof.
  intros [Hm Hd Hb]. unfold retain_valid_unique.
  rewrite retain_unique_id; [|done|].
  - destruct (10 <? length h)%nat eqn:E; bool_to_prop; [lia|done].
  - intros v Hv. split; [by apply Hm|]. apply not_elem_of_nil.
Qed.

(** ** Cursors *)

Record cursor_ok (members : list StableId) (c : FocusCursor StableId) : Prop := {
  co_active : exists v, fc_active c = Some v /\ v ∈ members;
  co_last : forall v, fc_last c = Some v -> v ∈ members;
  co_history : history_ok members (fc_history c) }.

Lemma reconcile_cursor_ok members followed c :
  members <> [] -> (forall v, followed = Some v -> v ∈ members) ->
  cursor_ok members (reconcile_cursor members followed c).
Proof.
  intros Hm Hf. split; simpl.
  - destruct followed as [v|]; simpl; [by eauto|].
    destruct (valid_value (fc_active c) members) as [v|] eqn:E1; simpl.
    { apply valid_value_Some in E1. naive_solver. }
    destruct (newest_valid _ _) as [v|] eqn:E2; simpl.
    { apply newest_valid_Some in E2. naive_solver. }
    destruct members as [|v l]; [done|]. exists v. split; [done|by left].
  - intros v H%valid_value_Some. naive_solver.
  - apply retain_valid_unique_ok.
Qed.

Lemma reconcile_cursor_id members followed c :
  cursor_ok members c -> (forall v, followed = Some v -> fc_active c = Some v) ->
  reconcile_cursor members followed c = c.
Proof.
  intros [(v & Ha & Hv) Hl Hh] Hf. unfold reconcile_cursor.
  rewrite (valid_value_id (fc_last c)) by done.
  rewrite (valid_value_id (fc_active c)) by (intros ? [= <-]%(eq_trans (eq_sym Ha)); done).
  rewrite retain_valid_unique_id by done. destruct c as [a l h]; simpl in *. subst a.
  destruct followed as [x|]; simpl; [|done]. by destruct (Hf x); [done|].
Qed.

#[global] Arguments reconcile_owner : simpl never.

(** ** One level of the topology *)

Record level_ok (ids : list StableId) (members : gmap StableId (list StableId))
    (owner : gmap StableId StableId) : Prop := {
  lo_nodup : NoDup ids;
  lo_dom : forall k, k ∈ ids <-> is_Some (members !! k);
  lo_nonempty : forall k l, members !! k = Some l -> l <> [];
  lo_owner : forall v k, owner !! v = Some k <-> exists l, members !! k = Some l /\ v ∈ l }.

(** The cursors of a level are kept under live owners and are valid there. *)
Definition cursors_ok (members : gmap StableId (list StableId))
    (cs : gmap StableId (FocusCursor StableId)) : Prop :=
  forall k c, cs !! k = Some c -> exists l, members !! k = Some l /\ cursor_ok l c.

Section Level.
Context (ids : list StableId) (members : gmap StableId (list StableId)).
Context (owner : gmap StableId StableId) (old : gmap StableId (FocusCursor StableId)).
Context (Hlevel : level_ok ids members owner).

(** The owner whose cursor the loop follows is the one [focus] lives in. *)
Definition follows (active focus : option StableId) : Prop :=
  forall v k, focus = Some v -> owner !! v = Some k -> active = Some k.

Abbreviation step active := (reconcile_owner members owner old active).

Lemma step_ok active focus acc k :
  k ∈ ids -> cursors_ok members acc -> follows active focus ->
  cursors_ok members (step active (focus, acc) k).2
  /\ follows active (step active (focus, acc) k).1.
Proof.
  intros Hk Hacc Hfol. apply (lo_dom _ _ _ Hlevel) in Hk as [l Hl].
  unfold reconcile_owner. destruct (_ && _); [done|]. rewrite Hl. simpl.
  set (fol := focus ≫= _).
  assert (Hf : forall v, fol = Some v -> v ∈ l).
  { subst fol. intros v. destruct focus as [x|]; simpl; [|done].
    case_bool_decide as Ho; [intros [= <-]|done].
    apply (lo_owner _ _ _ Hlevel) in Ho as (l' & ? & ?). by simplify_eq. }
  assert (Hc : cursor_ok l (reconcile_cursor l fol (default FocusCursor_default (old !! k)))).
  { apply reconcile_cursor_ok; [by eapply (lo_nonempty _ _ _ Hlevel)|done]. }
  split.
  - intros k' c. destruct (decide (k = k')) as [<-|Hne].
    + rewrite lookup_insert_eq. intros [= <-]. eauto.
    + rewrite lookup_insert_ne by done. apply Hacc.
  - case_bool_decide as Ha; [|done]. destruct Hc as [(v & Hv & Hin) _ _].
    intros x k' Hx Hk'. change (fc_active (reconcile_cursor l fol
      (default FocusCursor_default (old !! k))) = Some x) in Hx. rewrite Hv in Hx. injection Hx as ->.
    rewrite (proj2 (lo_owner _ _ _ Hlevel x k)) in Hk' by eauto. by simplify_eq.
Qed.

Lemma loop_ok active : forall todo focus acc,
  (forall k, k ∈ todo -> k ∈ ids) -> cursors_ok members acc -> follows active focus ->
  cursors_ok members (foldl (step active) (focus, acc) todo).2
  /\ follows active (foldl (step active) (focus, acc) todo).1.
Proof.
  induction todo as [|k todo IH]; intros focus acc Htodo Hacc Hfol; simpl; [done|].
  destruct (step_ok active focus acc k) as [H1 H2]; [by apply Htodo; left|done|done|].
  destruct (step active (focus, acc) k) as [focus' acc']. apply IH; [|done|done].
  intros k' ?. apply Htodo. by right.
Qed.

(** The cursor of the active owner is rebuilt, and the value it ends up with is
    the one the loop reports. *)
Lemma step_other active focus acc k k' : k <> k' ->
  (step active (focus, acc) k).2 !! k' = acc !! k'.
Proof.
  intros Hne. unfold reconcile_owner. destruct (_ && _); [done|]. simpl.
  by rewrite lookup_insert_ne.
Qed.

Lemma step_inactive_focus active focus acc k : active <> Some k ->
  (step active (focus, acc) k).1 = focus.
Proof.
  intros Hne. unfold reconcile_owner. destruct (_ && _); [done|]. simpl.
  by rewrite bool_decide_eq_false_2.
Qed.

Lemma loop_other active k : forall todo focus acc, k ∉ todo ->
  (foldl (step active) (focus, acc) todo).2 !! k = acc !! k.
Proof.
  induction todo as [|x todo IH]; intros focus acc Hk; simpl; [done|].
  apply not_elem_of_cons in Hk as [Hx Hk].
  pose proof (step_other active focus acc x k ltac:(congruence)) as H.
  destruct (step active (focus, acc) x) as [focus' acc']. by rewrite IH.
Qed.

Lemma loop_inactive active : forall todo focus acc,
  (forall k, active = Some k -> k ∉ todo) ->
  (foldl (step active) (focus, acc) todo).1 = focus.
Proof.
  induction todo as [|x todo IH]; intros focus acc Hk; simpl; [done|].
  assert (active <> Some x) as Hx by (intros ->; apply (Hk x); [done|by left]).
  pose proof (step_inactive_focus active focus acc x Hx) as H.
  destruct (step active (focus, acc) x) as [focus' acc']. rewrite IH; [done|].
  intros k Hak ?. apply (Hk k); [done|]. by right.
Qed.

Definition chosen (k : StableId) (focus : option StableId) : FocusCursor StableId :=
  reconcile_cursor (default [] (members !! k))
    (focus ≫= fun v => if bool_decide (owner !! v = Some k) then Some v else None)
    (default FocusCursor_default (old !! k)).

(** The cursor an owner receives does not depend on the owners around it. *)
Lemma loop_entry active focus k : follows active focus -> k ∈ ids ->
  (foldl (step active) (focus, ∅) ids).2 !! k =
    (if bool_decide (old !! k = None) && negb (bool_decide (active = Some k)) then None
     else Some (chosen k focus))
  /\ (active = Some k -> (foldl (step active) (focus, ∅) ids).1 = fc_active (chosen k focus)).
Proof.
  intros Hfol Hk. apply list_elem_of_split in Hk as (pre & post & Heq).
  pose proof (lo_nodup _ _ _ Hlevel) as Hnd. rewrite Heq in Hnd.
  apply NoDup_app in Hnd as (_ & Hpre & [Hpost _]%NoDup_cons).
  assert (Hkpre : k ∉ pre). { intros ?. apply (Hpre k); [done|by left]. }
  rewrite Heq, foldl_app. simpl.
  pose proof (loop_other active k pre focus ∅ Hkpre) as Hacc.
  destruct (foldl (step active) (focus, ∅) pre) as [f1 acc1] eqn:E1. simpl in Hacc.
  rewrite lookup_empty in Hacc.
  assert (Hf1 : (f1 ≫= fun v => if bool_decide (owner !! v = Some k) then Some v else None)
                = (focus ≫= fun v => if bool_decide (owner !! v = Some k) then Some v else None)).
  { destruct (decide (active = Some k)) as [Ha|Hna].
    - pose proof (loop_inactive active pre focus ∅) as Hi. rewrite E1 in Hi. simpl in Hi.
      rewrite Hi; [done|]. intros k' Hk'. congruence.
    - assert (Hnone : forall f, follows active f ->
        (f ≫= fun v => if bool_decide (owner !! v = Some k) then Some v else None) = None).
      { intros f Hf. destruct f as [v|]; simpl; [|done]. case_bool_decide as Ho; [|done].
        exfalso. apply Hna. by eapply Hf. }
      rewrite (Hnone focus) by done. apply Hnone.
      pose proof (loop_ok active pre focus ∅) as Hg. rewrite E1 in Hg. apply Hg; [|by intros ??|done].
      intros x Hx. rewrite Heq. apply elem_of_app. by left. }
  assert (Hstep : step active (f1, acc1) k =
    if bool_decide (old !! k = None) && negb (bool_decide (active = Some k)) then (f1, acc1)
    else (if bool_decide (active = Some k) then fc_active (chosen k focus) else f1,
          <[k := chosen k focus]> acc1)).
  { unfold reconcile_owner at 1. destruct (_ && _); [done|]. unfold chosen. by rewrite Hf1. }
  rewrite Hstep. split.
  - destruct (_ && _); rewrite loop_other by done; [done|]. by rewrite lookup_insert_eq.
  - intros ->. rewrite (bool_decide_eq_true_2 (Some k = Some k)) by done.
    rewrite andb_false_r. rewrite loop_inactive; [done|]. by intros k' [= <-].
Qed.

(** On a valid level the loop rebuilds the cursors it was given. *)
Lemma loop_id active focus :
  cursors_ok members old -> follows active focus ->
  (forall k, active = Some k -> exists c, old !! k = Some c /\ focus = fc_active c) ->
  foldl (step active) (focus, ∅) ids = (focus, old).
Proof.
  intros Hold Hfol Hact.
  assert (Hchosen : forall k c, k ∈ ids -> old !! k = Some c -> chosen k focus = c).
  { intros k c Hk Hc. destruct (Hold k c Hc) as (l & Hl & Hok).
    unfold chosen. rewrite Hl, Hc. simpl. apply reconcile_cursor_id; [done|].
    intros v. destruct focus as [x|]; simpl; [|done]. case_bool_decide as Ho; [|done].
    intros [= <-]. destruct (Hact k) as (c' & Hc' & Hfc); [by eapply Hfol|]. by simplify_eq. }
  apply injective_projections; simpl.
  - destruct active as [k|].
    + destruct (Hact k eq_refl) as (c & Hc & Hfc).
      assert (Hk : k ∈ ids).
      { apply (lo_dom _ _ _ Hlevel). destruct (Hold k c Hc) as (l & ? & _). eauto. }
      destruct (loop_entry (Some k) focus k Hfol Hk) as [_ ->]; [|done].
      by rewrite (Hchosen k c).
    + apply loop_inactive. done.
  - apply map_eq. intros k. destruct (decide (k ∈ ids)) as [Hk|Hk].
    + destruct (loop_entry active focus k Hfol Hk) as [-> _].
      destruct (old !! k) as [c|] eqn:Hc; simpl.
      * by rewrite (Hchosen k c).
      * rewrite bool_decide_eq_false_2; [done|].
        intros Ha. destruct (Hact k Ha) as (c & ? & _). congruence.
    + rewrite loop_other by done. rewrite lookup_empty. symmetry.
      destruct (old !! k) as [c|] eqn:Hc; [|done].
      exfalso. apply Hk. apply (lo_dom _ _ _ Hlevel). destruct (Hold k c Hc) as (l & ? & _). eauto.
Qed.
End Level.

(** ** Views *)

Record topology_ok (t : NavigationTopology) : Prop := {
  to_groups : level_ok (t_group_ids t) (t_group_windows t) (t_window_group t);
  to_windows : level_ok (t_window_ids t) (t_window_panes t) (t_pane_window t);
  to_grouped : forall w, w ∈ t_window_ids t <-> is_Some (t_window_group t !! w) }.

(** The group, window and pane a view looks at. *)
Definition active_window_of (n : ClientNavigationState) : option WindowId := prior_window n.
Definition active_pane_of (n : ClientNavigationState) : option PaneId := prior_pane n (prior_window n).

Record navigation_ok (t : NavigationTopology) (n : ClientNavigationState) : Prop := {
  no_last : forall g, fc_last (nav_groups n) = Some g -> g ∈ t_group_ids t;
  no_history : history_ok (t_group_ids t) (fc_history (nav_groups n));
  no_windows : cursors_ok (t_group_windows t) (nav_windows_by_group n);
  no_panes : cursors_ok (t_window_panes t) (nav_panes_by_window n);
  no_zoom : forall w p, nav_zoomed_panes_by_window n !! w = Some p ->
              exists l, t_window_panes t !! w = Some l /\ p ∈ l;
  no_chain : match fc_active (nav_groups n) with
             | None => t_group_ids t = []
             | Some g => g ∈ t_group_ids t /\ is_Some (active_pane_of n)
             end }.

(** A landing focus that names a live pane with its window and group. *)
Definition landing_ok (t : NavigationTopology) (l : LandingNavigationState) : Prop :=
  match ln_active_group_id l, ln_active_window_id l, ln_active_pane_id l with
  | Some g, Some w, Some p => t_window_group t !! w = Some g /\ t_pane_window t !! p = Some w
  | None, None, None => t_group_ids t = []
  | _, _, _ => False
  end.

Section Views.
Context (t : NavigationTopology) (Ht : topology_ok t).

Lemma pane_window_group p w :
  t_pane_window t !! p = Some w -> exists g, t_window_group t !! w = Some g.
Proof.
  intros Hp. apply (to_grouped t Ht), (lo_dom _ _ _ (to_windows t Ht)).
  apply (lo_owner _ _ _ (to_windows t Ht)) in Hp as (l & ? & _). eauto.
Qed.

Lemma window_group_id w g : t_window_group t !! w = Some g -> g ∈ t_group_ids t.
Proof.
  intros H. apply (lo_dom _ _ _ (to_groups t Ht)).
  apply (lo_owner _ _ _ (to_groups t Ht)) in H as (l & ? & _). eauto.
Qed.

Lemma head_elem (l : list StableId) v : head l = Some v -> v ∈ l.
Proof. destruct l; simpl; [done|]. intros [= ->]. by left. Qed.

Section Repair.
Context (landing : LandingNavigationState) (n : ClientNavigationState).

(** The values [reconcile_navigation] computes before its loops. *)
Definition followed_window : option WindowId :=
  match active_pane_of n with Some p => t_pane_window t !! p | None => prior_window n end.
Definition chosen_group : option WindowGroupId :=
  or_else (followed_window ≫= fun w => t_window_group t !! w)
    (or_else (valid_value (fc_active (nav_groups n)) (t_group_ids t))
      (or_else (newest_valid (fc_history (nav_groups n)) (t_group_ids t))
        (or_else (valid_value (ln_active_group_id landing) (t_group_ids t))
           (head (t_group_ids t))))).
Definition live_pane : option PaneId :=
  active_pane_of n ≫= fun p => match t_pane_window t !! p with Some _ => Some p | None => None end.

Abbreviation windows' := (reconcile_windows t (nav_windows_by_group n) chosen_group followed_window).
Abbreviation panes' := (reconcile_panes t (nav_panes_by_window n) windows'.1 live_pane).

Lemma reconcile_navigation_eq :
  let after := mkNavigation
    (mkCursor chosen_group (valid_value (fc_last (nav_groups n)) (t_group_ids t))
       (retain_valid_unique (fc_history (nav_groups n)) (t_group_ids t)))
    windows'.2 panes'.2 (retain_zoom t (nav_zoomed_panes_by_window n)) (nav_revision n) in
  reconcile_navigation t landing n =
    (set_revision (next_revision (navigation_changed after n) n) after, navigation_changed after n).
Proof.
  simpl. unfold reconcile_navigation. fold (active_pane_of n). fold followed_window.
  fold chosen_group. fold live_pane.
  destruct windows' as [aw ws]. simpl. by destruct (reconcile_panes t _ aw live_pane).
Qed.

Lemma chosen_group_cases :
  match chosen_group with None => t_group_ids t = [] | Some g => g ∈ t_group_ids t end.
Proof.
  unfold chosen_group.
  destruct (followed_window ≫= _) as [g|] eqn:E0; simpl.
  { apply bind_Some in E0 as (w & _ & Hw). by eapply window_group_id. }
  destruct (valid_value (fc_active (nav_groups n)) (t_group_ids t)) as [g|] eqn:E1; simpl;
    [by apply valid_value_Some in E1 as [_ ?]|].
  destruct (newest_valid (fc_history (nav_groups n)) (t_group_ids t)) as [g|] eqn:E2; simpl;
    [by apply newest_valid_Some in E2 as [_ ?]|].
  destruct (valid_value (ln_active_group_id landing) (t_group_ids t)) as [g|] eqn:E3; simpl;
    [by apply valid_value_Some in E3 as [_ ?]|].
  destruct (head (t_group_ids t)) eqn:E4; [by apply head_elem|]. by destruct (t_group_ids t).
Qed.

Lemma followed_follows : follows (t_window_group t) chosen_group followed_window.
Proof. intros w g Hw Hg. unfold chosen_group. rewrite Hw. simpl. by rewrite Hg. Qed.

Lemma windows_ok : cursors_ok (t_group_windows t) windows'.2.
Proof.
  apply (loop_ok _ _ _ _ (to_groups t Ht)); [done|by intros ??|apply followed_follows].
Qed.

(** The active window after the loop over groups. *)
Lemma windows_active g : chosen_group = Some g ->
  exists c w, windows'.2 !! g = Some c /\ fc_active c = Some w /\ windows'.1 = Some w
    /\ t_window_group t !! w = Some g
    /\ (forall v, followed_window = Some v -> t_window_group t !! v = Some g -> w = v).
Proof.
  intros Hg. pose proof chosen_group_cases as Hin. rewrite Hg in Hin.
  destruct (loop_entry _ _ _ (nav_windows_by_group n) (to_groups t Ht) chosen_group followed_window g
              followed_follows Hin) as [He Hf].
  fold windows' in He, Hf. rewrite (bool_decide_eq_true_2 (chosen_group = Some g) Hg) in He.
  rewrite andb_false_r in He. specialize (Hf Hg).
  destruct (windows_ok g _ He) as (l & Hl & [(w & Hw & Hwl) _ _]).
  exists (chosen (t_group_windows t) (t_window_group t) (nav_windows_by_group n) g followed_window), w.
  repeat split; [done|done|by rewrite Hf| |].
  - apply (lo_owner _ _ _ (to_groups t Ht)). eauto.
  - intros v Hv Hvg. unfold chosen in Hw. rewrite Hv in Hw. simpl in Hw.
    rewrite bool_decide_eq_true_2 in Hw by done. simpl in Hw. by simplify_eq.
Qed.

Lemma windows_none : chosen_group = None -> windows'.1 = followed_window.
Proof. intros Hg. apply loop_inactive. rewrite Hg. done. Qed.

Lemma live_pane_Some p : live_pane = Some p ->
  exists w, active_pane_of n = Some p /\ t_pane_window t !! p = Some w /\ followed_window = Some w.
Proof.
  unfold live_pane, followed_window. destruct (active_pane_of n) as [q|]; simpl; [|done].
  destruct (t_pane_window t !! q) as [w|] eqn:E; [|done]. intros [= <-]. eauto.
Qed.

Lemma panes_follow : follows (t_pane_window t) windows'.1 live_pane.
Proof.
  intros p w Hp Hw. apply live_pane_Some in Hp as (w' & Hp & Hw' & Hf).
  assert (w' = w) as -> by congruence.
  destruct (pane_window_group p w Hw) as [g Hg].
  assert (Hcg : chosen_group = Some g).
  { unfold chosen_group. rewrite Hf. simpl. by rewrite Hg. }
  destruct (windows_active g Hcg) as (c & w' & _ & _ & Hw1 & _ & Hv). rewrite Hw1. f_equal. by apply Hv.
Qed.

Lemma panes_ok : cursors_ok (t_window_panes t) panes'.2.
Proof. apply (loop_ok _ _ _ _ (to_windows t Ht)); [done|by intros ??|apply panes_follow]. Qed.

Lemma panes_active w : windows'.1 = Some w -> w ∈ t_window_ids t ->
  exists c p, panes'.2 !! w = Some c /\ fc_active c = Some p
    /\ (forall q, live_pane = Some q -> t_pane_window t !! q = Some w -> p = q).
Proof.
  intros Hw Hin.
  destruct (loop_entry _ _ _ (nav_panes_by_window n) (to_windows t Ht) windows'.1 live_pane w
              panes_follow Hin) as [He _].
  fold panes' in He. rewrite (bool_decide_eq_true_2 (windows'.1 = Some w) Hw) in He.
  rewrite andb_false_r in He.
  destruct (panes_ok w _ He) as (l & Hl & [(p & Hp & _) _ _]).
  eexists _, p. repeat split; [exact He|done|].
  intros q Hq Hqw. unfold chosen in Hp. rewrite Hq in Hp. simpl in Hp.
  rewrite bool_decide_eq_true_2 in Hp by done. simpl in Hp. by simplify_eq.
Qed.

Lemma zoom_ok_retained w p : retain_zoom t (nav_zoomed_panes_by_window n) !! w = Some p ->
  exists l, t_window_panes t !! w = Some l /\ p ∈ l.
Proof.
  unfold retain_zoom. intros [_ H]%map_lookup_filter_Some. unfold zoom_is_live in H. simpl in H.
  destruct (t_window_panes t !! w) as [l|]; [|done]. apply contains_spec in H. eauto.
Qed.

Lemma reconcile_navigation_ok : navigation_ok t (reconcile_navigation t landing n).1.
Proof.
  rewrite reconcile_navigation_eq. split; cbn [fst set_revision nav_groups nav_windows_by_group
    nav_panes_by_window nav_zoomed_panes_by_window fc_active fc_last fc_history].
  - intros g Hg%valid_value_Some. naive_solver.
  - apply retain_valid_unique_ok.
  - apply windows_ok.
  - apply panes_ok.
  - apply zoom_ok_retained.
  - pose proof chosen_group_cases as Hc. destruct chosen_group as [g|] eqn:Hg; [|done].
    split; [done|]. destruct (windows_active g Hg) as (c & w & Hcg & Hw & Hw1 & Hwg & _).
    destruct (panes_active w Hw1) as (c' & p & Hp & Hpa & _); [apply (to_grouped t Ht); eauto|].
    rewrite Hg in Hcg, Hp. exists p. unfold active_pane_of, prior_pane, prior_window. simpl.
    rewrite Hcg. simpl. rewrite Hw. simpl. by rewrite Hp.
Qed.

(** The view keeps looking at the pane it looked at, wherever it is now. *)
Lemma reconcile_navigation_follows p w g :
  active_pane_of n = Some p -> t_pane_window t !! p = Some w -> t_window_group t !! w = Some g ->
  let n' := (reconcile_navigation t landing n).1 in
  fc_active (nav_groups n') = Some g /\ active_window_of n' = Some w /\ active_pane_of n' = Some p.
Proof.
  intros Hp Hw Hg. assert (Hf : followed_window = Some w) by (unfold followed_window; by rewrite Hp).
  assert (Hcg : chosen_group = Some g).
  { unfold chosen_group. rewrite Hf. simpl. by rewrite Hg. }
  assert (Hl : live_pane = Some p).
  { unfold live_pane. rewrite Hp. simpl. by rewrite Hw. }
  destruct (windows_active g Hcg) as (c & w' & Hc & Hcw & Hw1 & Hwg & Hv).
  assert (w' = w) as -> by (by apply Hv).
  destruct (panes_active w Hw1) as (c' & p' & Hp' & Hpa & Hq); [apply (to_grouped t Ht); eauto|].
  assert (p' = p) as -> by (by apply Hq).
  rewrite reconcile_navigation_eq. unfold active_window_of, active_pane_of, prior_pane, prior_window.
  cbn [fst set_revision nav_groups nav_windows_by_group nav_panes_by_window fc_active].
  rewrite Hcg in *. simpl. rewrite Hc. simpl. rewrite Hcw. simpl. rewrite Hp'. done.
Qed.
End Repair.

(** A valid view is left alone, its revision included. *)
Lemma reconcile_navigation_id landing n :
  navigation_ok t n -> reconcile_navigation t landing n = (n, false).
Proof.
  intros [Hl Hh Hw Hp Hz Hc]. rewrite reconcile_navigation_eq.
  assert (Hgw : forall g c w, nav_windows_by_group n !! g = Some c -> fc_active c = Some w ->
                  t_window_group t !! w = Some g).
  { intros g c w Hgc Hcw. destruct (Hw g c Hgc) as (l & ? & [(v & ? & ?) _ _]).
    simplify_eq. apply (lo_owner _ _ _ (to_groups t Ht)). eauto. }
  assert (Hwp : forall w c p, nav_panes_by_window n !! w = Some c -> fc_active c = Some p ->
                  t_pane_window t !! p = Some w).
  { intros w c p Hwc Hcp. destruct (Hp w c Hwc) as (l & ? & [(v & ? & ?) _ _]).
    simplify_eq. apply (lo_owner _ _ _ (to_windows t Ht)). eauto. }
  assert (Hchain : match fc_active (nav_groups n) with
    | None => t_group_ids t = [] /\ followed_window n = None /\ live_pane n = None
    | Some g => exists w c c' p, nav_windows_by_group n !! g = Some c /\ fc_active c = Some w
        /\ nav_panes_by_window n !! w = Some c' /\ fc_active c' = Some p
        /\ followed_window n = Some w /\ live_pane n = Some p
    end).
  { unfold live_pane, followed_window, active_pane_of, prior_pane, prior_window in *.
    destruct (fc_active (nav_groups n)) as [g|]; simpl in *; [|done].
    destruct Hc as [_ [p Hpp]].
    destruct (nav_windows_by_group n !! g) as [c|] eqn:Eg; simpl in *; [|done].
    destruct (fc_active c) as [w|] eqn:Ew; simpl in *; [|done].
    destruct (nav_panes_by_window n !! w) as [c'|] eqn:Ep; simpl in *; [|done].
    exists w, c, c', p. rewrite Hpp. simpl. rewrite (Hwp w c' p) by done. done. }
  assert (Hcg : chosen_group landing n = fc_active (nav_groups n)).
  { unfold chosen_group. destruct (fc_active (nav_groups n)) as [g|] eqn:Eg.
    - destruct Hchain as (w & c & c' & p & ? & ? & ? & ? & -> & _). simpl. by rewrite (Hgw g c w).
    - destruct Hchain as (E & -> & _). simpl. rewrite E. simpl.
      assert (Hh0 : fc_history (nav_groups n) = []).
      { destruct (fc_history (nav_groups n)) as [|v h] eqn:Eh; [done|]. exfalso.
        apply (not_elem_of_nil v). rewrite <- E. apply (ho_members _ _ Hh). by left. }
      rewrite Hh0. simpl. by destruct (ln_active_group_id landing). }
  assert (Hw1 : reconcile_windows t (nav_windows_by_group n) (chosen_group landing n)
                  (followed_window n) = (followed_window n, nav_windows_by_group n)).
  { apply (loop_id _ _ _ _ (to_groups t Ht)); [done|apply followed_follows|].
    intros g Hg. rewrite Hcg in Hg. rewrite Hg in Hchain.
    destruct Hchain as (w & c & c' & p & ? & Hcw & _ & _ & -> & _). exists c. by rewrite Hcw. }
  rewrite Hw1. simpl.
  assert (Hp1 : reconcile_panes t (nav_panes_by_window n) (followed_window n) (live_pane n)
                  = (live_pane n, nav_panes_by_window n)).
  { apply (loop_id _ _ _ _ (to_windows t Ht)); [done| |].
    - pose proof (panes_follow landing n) as H. by rewrite Hw1 in H.
    - intros w Hfw. destruct (fc_active (nav_groups n)) as [g|].
      + destruct Hchain as (w' & c & c' & p & _ & _ & ? & Hcp & Hf & ->).
        assert (w' = w) as -> by congruence. exists c'. by rewrite Hcp.
      + destruct Hchain as (_ & ? & _). congruence. }
  rewrite Hp1. simpl. rewrite Hcg.
  rewrite valid_value_id by done. rewrite retain_valid_unique_id by done.
  assert (Hzz : retain_zoom t (nav_zoomed_panes_by_window n) = nav_zoomed_panes_by_window n).
  { apply map_filter_id. intros w p Hwp'. unfold zoom_is_live. simpl.
    destruct (Hz w p Hwp') as (l & -> & ?). by apply contains_spec. }
  rewrite Hzz.
  assert (Hch : forall r, navigation_changed (mkNavigation
            (mkCursor (fc_active (nav_groups n)) (fc_last (nav_groups n)) (fc_history (nav_groups n)))
            (nav_windows_by_group n) (nav_panes_by_window n) (nav_zoomed_panes_by_window n) r) n = false).
  { intros r. unfold navigation_changed. simpl. destruct (nav_groups n).
    by rewrite !bool_decide_eq_true_2. }
  rewrite Hch. destruct n as [[]]. done.
Qed.

Lemma reconcile_landing_ok l : landing_ok t (reconcile_landing t l).
Proof.
  pose proof (to_groups t Ht) as Hg. pose proof (to_windows t Ht) as Hw.
  assert (Hfin : forall w, w ∈ t_window_ids t -> exists panes p,
            t_window_panes t !! w = Some panes
            /\ or_else (valid_value (ln_active_pane_id l) panes) (head panes) = Some p
            /\ t_pane_window t !! p = Some w).
  { intros w [panes Hp]%(lo_dom _ _ _ Hw). exists panes.
    destruct (valid_value (ln_active_pane_id l) panes) as [p|] eqn:E.
    - exists p. repeat split; [done|]. apply (lo_owner _ _ _ Hw).
      apply valid_value_Some in E. naive_solver.
    - destruct panes as [|p panes]; [by apply (lo_nonempty _ _ _ Hw) in Hp|]. exists p.
      repeat split; [done|]. apply (lo_owner _ _ _ Hw). eexists. split; [done|by left]. }
  unfold landing_ok, reconcile_landing. cbn [ln_active_group_id ln_active_window_id ln_active_pane_id].
  destruct (or_else (ln_active_pane_id l ≫= _) _) as [w|] eqn:E.
  - assert (Hin : w ∈ t_window_ids t).
    { destruct (ln_active_pane_id l ≫= fun p => t_pane_window t !! p) as [w'|] eqn:E1; simpl in E.
      - simplify_eq. apply bind_Some in E1 as (p & _ & Hp). apply (lo_dom _ _ _ Hw).
        apply (lo_owner _ _ _ Hw) in Hp as (ps & ? & _). eauto.
      - by apply valid_value_Some in E as [_ ?]. }
    destruct (proj1 (to_grouped t Ht w) Hin) as [g Hwg]. simpl. rewrite Hwg. simpl.
    destruct (Hfin w Hin) as (panes & p & -> & Hp & Hpw). simpl. rewrite Hp. done.
  - simpl. destruct (t_group_ids t) as [|g gs] eqn:Eg; simpl; [done|].
    destruct (proj1 (lo_dom _ _ _ Hg g)) as [ws Hws]; [rewrite ?Eg; by left|]. rewrite Hws. simpl.
    destruct ws as [|w ws]; [by apply (lo_nonempty _ _ _ Hg) in Hws|]. simpl.
    assert (Hwg : t_window_group t !! w = Some g).
    { apply (lo_owner _ _ _ Hg). eexists. split; [done|by left]. }
    destruct (Hfin w) as (panes & p & -> & Hp & Hpw); [apply (to_grouped t Ht); eauto|].
    simpl. by rewrite Hp.
Qed.

Lemma reconcile_landing_id l : landing_ok t l -> reconcile_landing t l = l.
Proof.
  unfold landing_ok, reconcile_landing. destruct l as [[g|] [w|] [p|]]; simpl; try done.
  - intros [Hw Hp]. rewrite Hp. simpl. rewrite Hw. simpl.
    pose proof Hp as (ps & Hps & Hin)%(lo_owner _ _ _ (to_windows t Ht)). rewrite Hps. simpl.
    by rewrite (proj2 (contains_spec ps p) Hin).
  - intros ->. done.
Qed.
End Views.

(** ** The topology of a session *)

Section Tables.
Context {A : Type}.

Lemma insert_all_lookup {V} (key : A -> StableId) (value : A -> V) l : forall m k v,
  NoDup (key <$> l) ->
  insert_all key value l m !! k = Some v <->
  (exists x, x ∈ l /\ key x = k /\ value x = v) \/ (k ∉ key <$> l /\ m !! k = Some v).
Proof.
  unfold insert_all. induction l as [|x l IH]; intros m k v Hd; simpl.
  { split; [|by intros [(?&?%not_elem_of_nil&_)|[_ ?]]]. intros ?. right.
    split; [apply not_elem_of_nil|done]. }
  apply NoDup_cons in Hd as [Hx Hd]. rewrite IH by done. rewrite not_elem_of_cons.
  split.
  - intros [(y & ? & ? & ?)|[Hk Hm]]; [left; exists y; by rewrite elem_of_cons; auto|].
    destruct (decide (key x = k)) as [<-|Hne].
    + rewrite lookup_insert_eq in Hm. simplify_eq. left. exists x. split; [by left|done].
    + rewrite lookup_insert_ne in Hm by done. right. repeat split; [congruence|done|done].
  - intros [(y & [->|Hy]%elem_of_cons & <- & <-)|((Hne & Hk) & Hm)].
    + right. split; [done|]. by rewrite lookup_insert_eq.
    + left. eauto.
    + right. split; [done|]. by rewrite lookup_insert_ne.
Qed.

Lemma insert_keys_lookup {V} (o : V) (ks : list StableId) : forall (m : gmap StableId V) k v,
  foldl (fun m k => <[k := o]> m) m ks !! k = Some v <->
  (k ∈ ks /\ v = o) \/ (k ∉ ks /\ m !! k = Some v).
Proof.
  induction ks as [|x ks IH]; intros m k v; simpl.
  { split; [|by intros [[?%not_elem_of_nil _]|[_ ?]]]. intros ?. right.
    split; [apply not_elem_of_nil|done]. }
  rewrite IH, elem_of_cons. destruct (decide (k = x)) as [->|Hne].
  - rewrite lookup_insert_eq. destruct (decide (x ∈ ks)); naive_solver.
  - rewrite lookup_insert_ne by done. naive_solver.
Qed.

Lemma insert_members_lookup {V} (members : A -> list StableId) (owner : A -> V) l : forall m k v,
  NoDup (l ≫= members) ->
  insert_members members owner l m !! k = Some v <->
  (exists x, x ∈ l /\ k ∈ members x /\ owner x = v) \/ (k ∉ l ≫= members /\ m !! k = Some v).
Proof.
  unfold insert_members. induction l as [|x l IH]; intros m k v Hd; simpl.
  { split; [|by intros [(?&?%not_elem_of_nil&_)|[_ ?]]]. intros ?. right.
    split; [apply not_elem_of_nil|done]. }
  simpl in Hd. apply NoDup_app in Hd as (_ & Hx & Hd).
  rewrite IH by done. rewrite insert_keys_lookup, not_elem_of_app.
  split.
  - intros [(y & ? & ? & ?)|[Hk [[Hin ->]|[Hk' Hm]]]];
      [left; exists y; rewrite elem_of_cons; by auto|left; exists x; rewrite elem_of_cons; by auto|].
    by right.
  - intros [(y & [->|Hy]%elem_of_cons & Hin & <-)|((Hk & Hk') & Hm)].
    + right. split; [by apply Hx|]. by left.
    + left. eauto.
    + right. split; [done|]. by right.
Qed.

(** A table of distinct owners with non-empty, pairwise disjoint member lists is
    a level. *)
Lemma table_level (key : A -> StableId) (members : A -> list StableId) l :
  NoDup (key <$> l) -> NoDup (l ≫= members) -> Forall (fun x => members x <> []) l ->
  level_ok (key <$> l) (insert_all key members l ∅) (insert_members members key l ∅).
Proof.
  intros Hk Hm Hne.
  assert (Hlook : forall k v, insert_all key members l ∅ !! k = Some v <->
                    exists x, x ∈ l /\ key x = k /\ members x = v).
  { intros k v. rewrite insert_all_lookup by done. rewrite lookup_empty. naive_solver. }
  split; [done| | |].
  - intros k. rewrite list_elem_of_fmap. split.
    + intros (x & -> & Hx). exists (members x). apply Hlook. eauto.
    + intros [v (x & ? & <- & _)%Hlook]. eauto.
  - intros k v (x & Hx & _ & <-)%Hlook. rewrite Forall_forall in Hne. by apply Hne.
  - intros v k. rewrite insert_members_lookup by done. rewrite lookup_empty.
    setoid_rewrite Hlook. naive_solver.
Qed.
End Tables.

(** Every live window is in exactly one group, identities are distinct, groups
    and windows are not empty. *)
Record session_topology (s : Session) : Prop := {
  st_groups : NoDup (wg_id <$> s_window_groups s);
  st_windows : NoDup (w_id <$> s_windows s);
  st_partition : s_window_groups s ≫= wg_window_ids ≡ₚ w_id <$> s_windows s;
  st_group_nonempty : Forall (fun g => wg_window_ids g <> []) (s_window_groups s);
  st_window_nonempty : Forall (fun w => pane_ids w <> []) (s_windows s);
  st_panes : NoDup (s_windows s ≫= pane_ids) }.

Lemma from_session_ok s : session_topology s -> topology_ok (from_session s).
Proof.
  intros [Hg Hw Hp Hgn Hwn Hpn].
  assert (Hm : NoDup (s_window_groups s ≫= wg_window_ids)) by (by rewrite Hp).
  split; [by apply table_level|by apply table_level|].
  intros w. simpl. rewrite <- Hp. rewrite list_elem_of_bind. split.
  - intros (g & Hin & Hgs). exists (wg_id g). apply insert_members_lookup; [done|]. left. eauto.
  - intros [k Hk]. apply insert_members_lookup in Hk; [|done].
    destruct Hk as [(g & ? & ? & _)|[_ ?]]; [eauto|]. by rewrite lookup_empty in *.
Qed.
