(* ===== verification/SessionTargets.v ===== *)
(** * Target resolution and focus bookkeeping ([mez-mux/src/session/targets.rs])

    How a command finds the window, group or pane it is about, how a client's
    stable-identity view is projected into the session's focus fields and
    captured back, and how focus moves when windows disappear.  The
    authorisation checks of [clients.rs] that every command starts with are
    here too. *)

From S2P Require Import Prelude RustStr Ids LayoutTypes LayoutTree WindowOps SessionTypes Reconcile.
Local Open Scope Z_scope.

(** Assignment to the first element that satisfies [p] ([iter_mut().find]). *)
Definition update_first {A} (p : A -> bool) (f : A -> A) (l : list A) : list A :=
  match position p l with Some i => alter f i l | None => l end.

Definition has_client_id (id : ClientId) (c : Client) : bool := String.eqb (c_id c) id.
Definition has_window_id (id : WindowId) (w : Window) : bool := String.eqb (w_id w) id.
Definition has_group_id (id : WindowGroupId) (g : WindowGroup) : bool := String.eqb (wg_id g) id.

(** ** Authority ([clients.rs]) *)

Definition is_primary (c : Client) : bool :=
  bool_decide (c_role c = Primary) && bool_decide (c_state c = Attached).
Definition is_interactive_primary (c : Client) : bool := is_primary c && c_interactive c.

Definition is_attached_primary (s : Session) (client_id : ClientId) : bool :=
  existsb (fun c => has_client_id client_id c && is_interactive_primary c) (s_clients s).

Definition attached_primaries (s : Session) : list Client :=
  List.filter is_interactive_primary (s_clients s).

Definition require_primary (s : Session) (client_id : ClientId) : result unit :=
  if is_attached_primary s client_id then Ok tt
  else Err (forbidden "operation requires the primary client").

Definition navigation (s : Session) (client_id : ClientId) : result ClientNavigationState :=
  ok_or (List.find (has_client_id client_id) (s_clients s) ≫= fun c =>
           if is_primary c then c_navigation c else None)
    (forbidden "client has no attached-primary navigation").

(** [*self.navigation_mut(client_id)? = next]. *)
Definition assign_navigation (client_id : ClientId) (next : ClientNavigationState)
    : smethod unit := fun s =>
  match navigation s client_id with
  | Ok _ => (set_clients s (update_first (has_client_id client_id)
                              (client_set_navigation (Some next)) (s_clients s)), Ok tt)
  | Err e => (s, Err e)
  | Panic => (s, Panic)
  end.

(** ** Projection and capture *)

Definition project_group (n : ClientNavigationState) (g : WindowGroup) : WindowGroup :=
  match nav_windows_by_group n !! wg_id g with
  | Some c => group_set_focus (fc_active c) (fc_last c) (fc_history c) g
  | None => g
  end.

Definition project_window (n : ClientNavigationState) (w : Window) : Window :=
  let cursor := nav_panes_by_window n !! w_id w in
  Win.apply_client_navigation_state (cursor ≫= fc_active) (cursor ≫= fc_last)
    (match cursor with Some c => fc_history c | None => [] end)
    (nav_zoomed_panes_by_window n !! w_id w) w.

Definition project_navigation (n : ClientNavigationState) (s : Session) : Session :=
  let active_group_index :=
    default (s_active_group_index s)
      (fc_active (nav_groups n) ≫= group_position (s_window_groups s)) in
  let last_active_group_index := fc_last (nav_groups n) ≫= group_position (s_window_groups s) in
  let groups := project_group n <$> s_window_groups s in
  let active_window_id :=
    or_else (groups !! active_group_index ≫= wg_active_window_id)
      (fc_active (nav_groups n) ≫= fun _ => ln_active_window_id (s_landing_navigation s)) in
  let active_window_index :=
    default (s_active_window_index s) (active_window_id ≫= window_position (s_windows s)) in
  let s := set_active_group_index s active_group_index in
  let s := set_last_active_group_index s last_active_group_index in
  let s := set_group_focus_history s (fc_history (nav_groups n)) in
  let s := set_window_groups s groups in
  let s := set_active_window_index s active_window_index in
  set_windows s (project_window n <$> s_windows s).

Definition activate_client_navigation (client_id : ClientId) : smethod unit :=
  op_get id ≫= fun s =>
  op_lift (require_primary s client_id) ≫= fun _ =>
  op_lift (navigation s client_id) ≫= fun n =>
  op_modify (project_navigation n).

Definition group_cursor (g : WindowGroup) : FocusCursor WindowId :=
  mkCursor (wg_active_window_id g) (wg_last_active_window_id g) (wg_window_focus_history g).

Definition pane_cursor (w : Window) : FocusCursor PaneId :=
  let '(active, last, history, _) := Win.client_navigation_state w in mkCursor active last history.

Definition zoom_entries (ws : list Window) : gmap WindowId PaneId :=
  foldl (fun m w => match w_zoomed_pane_id w with Some p => <[w_id w := p]> m | None => m end) ∅ ws.

Definition captured_navigation (s : Session) (previous : ClientNavigationState)
    : ClientNavigationState :=
  let groups :=
    mkCursor (wg_id <$> s_window_groups s !! s_active_group_index s)
      (wg_id <$> (s_last_active_group_index s ≫= fun i => s_window_groups s !! i))
      (s_group_focus_history s) in
  let next := mkNavigation groups
                (insert_all wg_id group_cursor (s_window_groups s) ∅)
                (insert_all w_id pane_cursor (s_windows s) ∅)
                (zoom_entries (s_windows s)) 0 in
  set_revision (next_revision (navigation_changed next previous) previous) next.

Definition capture_client_navigation (client_id : ClientId) : smethod unit :=
  op_get id ≫= fun s =>
  op_lift (require_primary s client_id) ≫= fun _ =>
  op_lift (navigation s client_id) ≫= fun previous =>
  assign_navigation client_id (captured_navigation s previous).

(** ** Events *)

Definition record_event `{Clock} : smethod Z :=
  op_get s_next_event_id ≫= fun id =>
  op_modify (fun s => set_next_event_id s (wrap u64_MAX (id + 1))) ≫= fun _ =>
  current_unix_seconds ≫= fun now =>
  op_modify (fun s => set_updated_at_unix_seconds s now) ≫= fun _ => mret id.

(** ** Windows *)

Definition window_index_by_id (s : Session) (target : string) : option nat :=
  window_position (s_windows s) target.

(** [slice.get(n)] at a parsed number. *)
Definition get_N {A} (l : list A) (n : N) : option A :=
  if (n <? N.of_nat (length l))%N then l !! N.to_nat n else None.

Definition active_group_window_indexes (s : Session) : list nat :=
  match s_window_groups s !! s_active_group_index s with
  | None => seq 0 (length (s_windows s))
  | Some g => omap (window_index_by_id s) (wg_window_ids g)
  end.

Definition window_index_by_index (s : Session) (target : string) : option nat :=
  parse_u64 target ≫= fun group_index =>
  or_else (get_N (active_group_window_indexes s) group_index)
    (position (fun w => String.eqb (usize_to_string (w_index w)) target) (s_windows s)).

Definition window_index_by_name (s : Session) (target : string) : option nat :=
  or_else
    (List.find (fun i => match s_windows s !! i with
                         | Some w => String.eqb (w_name w) target
                         | None => false
                         end) (active_group_window_indexes s))
    (position (fun w => String.eqb (w_name w) target) (s_windows s)).

Definition window_index_by_target (s : Session) (target : string) : option nat :=
  or_else (window_index_by_id s target)
    (or_else (window_index_by_index s target) (window_index_by_name s target)).

Definition window_index_or_active (s : Session) (target : option string) : result nat :=
  match target with
  | None =>
      match s_windows s with
      | [] => Err (invalid_state "session has no active window")
      | _ => Ok (s_active_window_index s)
      end
  | Some target => ok_or (window_index_by_target s target) (not_found "window not found")
  end.

(** ** Groups *)

Definition group_index_by_target (s : Session) (target : string) : option nat :=
  let count := length (s_window_groups s) in
  if String.eqb target "next" then
    if (count =? 0)%nat then None else Some ((s_active_group_index s + 1) mod count)%nat
  else if String.eqb target "previous" || String.eqb target "prev" then
    if (count =? 0)%nat then None
    else if (s_active_group_index s =? 0)%nat then Some (count - 1)%nat
    else Some (s_active_group_index s - 1)%nat
  else if String.eqb target "last" then
    s_last_active_group_index s ≫= fun i => if (i <? count)%nat then Some i else None
  else
    or_else (group_position (s_window_groups s) target)
      (or_else
         (parse_u64 target ≫= fun index =>
            position (fun g => (N.of_nat (wg_index g) =? index)%N) (s_window_groups s))
         (position (fun g => String.eqb (wg_name g) target) (s_window_groups s))).

Definition group_index_or_active (s : Session) (target : option string) : result nat :=
  let active :=
    match s_window_groups s with
    | [] => Err (invalid_state "session has no window groups")
    | _ => Ok (s_active_group_index s)
    end in
  match target with
  | None => active
  | Some target =>
      if String.eqb target "current" then active
      else ok_or (group_index_by_target s target) (not_found "window group not found")
  end.

Definition group_index_containing_window_id (s : Session) (window_id : WindowId) : option nat :=
  position (fun g => contains (wg_window_ids g) window_id) (s_window_groups s).

(** ** Panes *)

Fixpoint find_pane (ws : list Window) (window_index : nat) (target : string) : option (nat * nat) :=
  match ws with
  | [] => None
  | w :: ws =>
      match Win.pane_index_by_id w target with
      | Some pane_index => Some (window_index, pane_index)
      | None => find_pane ws (S window_index) target
      end
  end.

Definition pane_location (s : Session) (target : option string) : result (nat * nat) :=
  match target with
  | None =>
      ok_or (s_windows s !! s_active_window_index s)
        (invalid_state "session has no active window") ≫= fun w =>
      Ok (s_active_window_index s, w_active_pane_index w)
  | Some target =>
      let anywhere := ok_or (find_pane (s_windows s) 0 target) (not_found "pane not found") in
      match s_windows s !! s_active_window_index s with
      | Some w =>
          match Win.pane_index w (Some target) with
          | Ok pane_index => Ok (s_active_window_index s, pane_index)
          | _ => anywhere
          end
      | None => anywhere
      end
  end.

Inductive JoinDestination :=
| JoinWindow (window_index : nat)
| JoinPane (window_index : nat) (pane_id : PaneId).

(** [self.windows[i].panes()[j]]. *)
Definition pane_at (s : Session) (window_index pane_index : nat) : result Pane :=
  index_or_panic (s_windows s) window_index ≫= fun w => index_or_panic (w_panes w) pane_index.

Definition join_destination (s : Session) (target : string) : result JoinDestination :=
  match window_index_by_target s target with
  | Some window_index => Ok (JoinWindow window_index)
  | None =>
      pane_location s (Some target) ≫= fun '(window_index, pane_index) =>
      pane_at s window_index pane_index ≫= fun p => Ok (JoinPane window_index (p_id p))
  end.

Definition adjust_window_index (window_index removed_window_index : nat)
    (removed_source_window : bool) : result nat :=
  if negb removed_source_window then Ok window_index
  else if (window_index =? removed_window_index)%nat
  then Err (invalid_state "destination window was removed")
  else if (removed_window_index <? window_index)%nat then Ok (window_index - 1)%nat
  else Ok window_index.

Definition adjust_join_destination (destination : JoinDestination) (removed_window_index : nat)
    (removed_source_window : bool) : result (nat * option string) :=
  match destination with
  | JoinWindow window_index =>
      adjust_window_index window_index removed_window_index removed_source_window ≫= fun i =>
      Ok (i, None)
  | JoinPane window_index pane_id =>
      adjust_window_index window_index removed_window_index removed_source_window ≫= fun i =>
      Ok (i, Some pane_id)
  end.

(** ** Indices and order *)

Definition reindex_windows (s : Session) : Session :=
  set_windows s (imap window_set_index (s_windows s)).
Definition reindex_window_groups (s : Session) : Session :=
  set_window_groups s (imap group_set_index (s_window_groups s)).

(** A window that is not in the flat list sorts last ([usize::MAX]). *)
Definition sync_group_window_order_with_window_order (s : Session) : Session :=
  let ordered := w_id <$> s_windows s in
  let key id := default (length ordered) (position (String.eqb id) ordered) in
  set_window_groups s
    ((fun g => group_set_window_ids (sort_by_key key (wg_window_ids g)) g) <$> s_window_groups s).

(** ** Focus *)

Definition record_bounded_focus (history : list StableId) (value : StableId) : list StableId :=
  let history := List.filter (fun v => negb (String.eqb v value)) history ++ [value] in
  if (10 <? length history)%nat then drop 1 history else history.

(** The part of [set_active_group_index] and [sync_active_group_for_window] that
    leaves the previous group. *)
Definition enter_group (index : nat) (s : Session) : Session :=
  if (s_active_group_index s =? index)%nat then s else
  let s := match s_window_groups s !! s_active_group_index s with
           | Some g => set_group_focus_history s
                         (record_bounded_focus (s_group_focus_history s) (wg_id g))
           | None => s
           end in
  let s := set_last_active_group_index s (Some (s_active_group_index s)) in
  set_active_group_index s index.

(** The part that focuses a window inside its group. *)
Definition focus_window_in_group (window_id : WindowId) (previous_window_id : option WindowId)
    (g : WindowGroup) : WindowGroup :=
  if bool_decide (wg_active_window_id g = Some window_id) then g else
  let previous := or_else (wg_active_window_id g) previous_window_id in
  let history := match previous with
                 | Some p => record_bounded_focus (wg_window_focus_history g) p
                 | None => wg_window_focus_history g
                 end in
  group_set_focus (Some window_id) previous history g.

Definition sync_active_group_for_window (window_id : WindowId) (previous_window_id : option WindowId)
    (s : Session) : Session :=
  match group_index_containing_window_id s window_id with
  | None => s
  | Some group_index =>
      let s := enter_group group_index s in
      set_window_groups s
        (alter (focus_window_in_group window_id previous_window_id) group_index (s_window_groups s))
  end.

Definition sync_active_group_to_active_window (s : Session) : Session :=
  match s_windows s !! s_active_window_index s with
  | None => s
  | Some w => sync_active_group_for_window (w_id w) None s
  end.

Definition focus_window (index : nat) (s : Session) : Session :=
  let previous_window_id := w_id <$> s_windows s !! s_active_window_index s in
  let next_window_id := w_id <$> s_windows s !! index in
  let s := if (s_active_window_index s =? index)%nat then s else
           let s := set_last_active_window_index s (Some (s_active_window_index s)) in
           set_active_window_index s index in
  match next_window_id with
  | Some id => sync_active_group_for_window id previous_window_id s
  | None => s
  end.

Definition focus_group (index : nat) : smethod unit := fun s =>
  match s_window_groups s !! index with
  | None => (s, Err (not_found "window group not found"))
  | Some g =>
      match or_else (wg_active_window_id g) (head (wg_window_ids g)) with
      | None => (s, Err (invalid_state "window group has no windows"))
      | Some window_id =>
          match window_index_by_id s window_id with
          | None => (s, Err (invalid_state "window group active window is missing"))
          | Some window_index => (focus_window window_index (enter_group index s), Ok tt)
          end
      end
  end.

(** ** Removal of windows *)

Definition focus_before_window_removal (s : Session) : option WindowId * option WindowGroupId :=
  (w_id <$> s_windows s !! s_active_window_index s,
   wg_id <$> s_window_groups s !! s_active_group_index s).

(** One group after windows disappeared. *)
Definition prune_group (live : list WindowId) (g : WindowGroup) : WindowGroup :=
  let ids := List.filter (contains live) (wg_window_ids g) in
  let is_member o := match o with Some w => contains ids w | None => false end in
  group_set_focus
    (if is_member (wg_active_window_id g) then wg_active_window_id g else head ids)
    (if is_member (wg_last_active_window_id g) then wg_last_active_window_id g else None)
    (List.filter (contains ids) (wg_window_focus_history g))
    (group_set_window_ids ids g).

Definition list_is_empty {A} (l : list A) : bool := match l with [] => true | _ => false end.

Definition reconcile_window_groups_after_window_removal (s : Session) : Session :=
  let live := w_id <$> s_windows s in
  let groups := List.filter (fun g => negb (list_is_empty (wg_window_ids g)))
                  (prune_group live <$> s_window_groups s) in
  let s := reindex_window_groups (set_window_groups s groups) in
  let count := length (s_window_groups s) in
  let s := if (count <=? s_active_group_index s)%nat
           then set_active_group_index s (count - 1)%nat else s in
  let s := set_last_active_group_index s
             (s_last_active_group_index s ≫= fun i => if (i <? count)%nat then Some i else None) in
  set_group_focus_history s
    (List.filter (contains (wg_id <$> s_window_groups s)) (s_group_focus_history s)).

(** The part of [after_window_removed] that moves the flat focus indices. *)
Definition clamp_active_window (removed_index : nat) (s : Session) : Session :=
  let count := length (s_windows s) in
  let s := set_last_active_window_index s
             (s_last_active_window_index s ≫= fun i =>
                if (i <? count)%nat && negb (i =? removed_index)%nat then Some i else None) in
  if (count =? 0)%nat then
    let s := set_active_window_index s 0 in
    let s := set_window_groups s [] in
    let s := set_active_group_index s 0 in
    let s := set_last_active_group_index s None in
    set_state s SessionEmpty
  else if (count <=? s_active_window_index s)%nat then set_active_window_index s (count - 1)%nat
  else if (removed_index <=? s_active_window_index s)%nat && (0 <? s_active_window_index s)%nat
  then set_active_window_index s (s_active_window_index s - 1)%nat
  else s.

Definition after_window_removed (removed_index : nat) (s : Session) : Session :=
  let s := reindex_windows s in
  let s := reconcile_window_groups_after_window_removal s in
  clamp_active_window removed_index s.

Definition most_recent_surviving_window_id (group_index : nat) (s : Session)
    : Session * option WindowId :=
  let live := w_id <$> s_windows s in
  match s_window_groups s !! group_index with
  | None => (s, None)
  | Some g =>
      let history := List.filter (fun w => contains (wg_window_ids g) w && contains live w)
                       (wg_window_focus_history g) in
      let g := group_set_focus (wg_active_window_id g) (wg_last_active_window_id g) history g in
      (set_window_groups s (<[group_index := g]> (s_window_groups s)), last history)
  end.

Fixpoint find_map {A B} (f : A -> option B) (l : list A) : option B :=
  match l with
  | [] => None
  | x :: l => match f x with Some b => Some b | None => find_map f l end
  end.

Definition most_recent_surviving_group_index (s : Session) : Session * option nat :=
  let live := wg_id <$> s_window_groups s in
  let history := List.filter (contains live) (s_group_focus_history s) in
  (set_group_focus_history s history, find_map (group_position (s_window_groups s)) (rev history)).

(** With windows but no group left the subtraction [len() - 1] underflows. *)
Definition surviving_group (previous_group_id : option WindowGroupId) : smethod nat := fun s =>
  match previous_group_id ≫= group_position (s_window_groups s) with
  | Some i => (s, Ok i)
  | None =>
      let '(s, recent) := most_recent_surviving_group_index s in
      match recent with
      | Some i => (s, Ok i)
      | None =>
          if (length (s_window_groups s) =? 0)%nat then (s, Panic)
          else (s, Ok (Nat.min (s_active_group_index s) (length (s_window_groups s) - 1)))
      end
  end.

Definition refocus_group (group_index : nat) : smethod unit := fun s =>
  let s := set_active_group_index s group_index in
  let '(s, recent) := most_recent_surviving_window_id group_index s in
  match s_window_groups s !! group_index with
  | None => (s, Panic)
  | Some g =>
      let window_id :=
        or_else recent (or_else (wg_active_window_id g) (head (wg_window_ids g))) in
      match window_id ≫= window_index_by_id s with
      | Some window_index =>
          let s := set_active_window_index s window_index in
          (set_window_groups s (<[group_index := group_set_active window_id g]> (s_window_groups s)),
           Ok tt)
      | None => (s, Ok tt)
      end
  end.

Definition restore_focus_after_window_removal (previous_window_id : option WindowId)
    (previous_group_id : option WindowGroupId) : smethod unit := fun s =>
  if (length (s_windows s) =? 0)%nat then
    let s := set_active_window_index s 0 in
    let s := set_active_group_index s 0 in
    let s := set_group_focus_history s [] in
    (set_state s SessionEmpty, Ok tt)
  else
    match previous_window_id ≫= window_index_by_id s with
    | Some window_index =>
        (sync_active_group_to_active_window (set_active_window_index s window_index), Ok tt)
    | None => (surviving_group previous_group_id ≫= refocus_group) s
    end.
