(* ===== verification/SessionClients.v ===== *)
(** * Clients and lifecycle ([mez-mux/src/session/clients.rs], [lifecycle.rs])

    Attachment and detachment of primaries, observers and control clients,
    layout ownership and its election, pruning of detached summaries, and the
    construction of a session.  The resizing of every window to the layout
    owner's terminal ([windows.rs]) is here because attachment calls it. *)

From S2P Require Import Prelude RustStr Ids LayoutTypes LayoutTree WindowOps SessionTypes Reconcile SessionTargets.
Local Open Scope Z_scope.

(** ** Canonical geometry ([windows.rs]) *)

Definition pane_effects (panes : list Pane) : list PaneResizeEffect :=
  (fun p => mkEffect (p_id p) (p_size p)) <$> panes.
(** The pane sizes of all windows, in order. *)
Definition all_effects (s : Session) : list PaneResizeEffect :=
  s_windows s ≫= fun w => pane_effects (w_panes w).

Definition validate_authoritative_layout_size (s : Session) (size : Size) : result unit :=
  Size_validate size ≫= fun _ =>
  for_each (fun w => Win.validate_resize w size) (s_windows s).

(** [for window in &mut self.windows { window.resize_window(size)?; }]. *)
Fixpoint resize_windows (size : Size) (ws : list Window) : list Window * result unit :=
  match ws with
  | [] => ([], Ok tt)
  | w :: ws =>
      match Win.resize_window size w with
      | (w, Ok _) => let '(ws, r) := resize_windows size ws in (w :: ws, r)
      | (w, Err e) => (w :: ws, Err e)
      | (w, Panic) => (w :: ws, Panic)
      end
  end.

Definition apply_authoritative_layout_size (size : Size) : smethod (list PaneResizeEffect) :=
  op_get id ≫= fun s =>
  op_lift (validate_authoritative_layout_size s size) ≫= fun _ =>
  if bool_decide (s_authoritative_size s = size) then mret [] else
  op_modify (fun s => set_authoritative_size s size) ≫= fun _ =>
  op_zoom s_windows (fun ws s => set_windows s ws) (op_step (resize_windows size)) ≫= fun _ =>
  op_get all_effects.

(** [size.map(|size| self.apply(size)).transpose()?.unwrap_or_default()]. *)
Definition apply_optional_size (size : option Size) : smethod (list PaneResizeEffect) :=
  match size with Some size => apply_authoritative_layout_size size | None => mret [] end.

(** ** Views ([lifecycle.rs]) *)

Definition navigation_from_landing_state (l : LandingNavigationState) : ClientNavigationState :=
  let '(windows, panes) :=
    match ln_active_group_id l, ln_active_window_id l with
    | Some group_id, Some window_id =>
        ({[ group_id := cursor_at window_id ]},
         match ln_active_pane_id l with
         | Some pane_id => {[ window_id := cursor_at pane_id ]}
         | None => ∅
         end)
    | _, _ => (∅, ∅)
    end in
  mkNavigation (mkCursor (ln_active_group_id l) None []) windows panes ∅ 0.

Definition navigation_from_landing (s : Session) : ClientNavigationState :=
  navigation_from_landing_state (s_landing_navigation s).

Definition snapshot_landing_navigation (s : Session) (source_client_id : option ClientId)
    : result LandingNavigationState :=
  match or_else source_client_id (s_layout_owner_client_id s) with
  | None => Ok (s_landing_navigation s)
  | Some source_client_id =>
      navigation s source_client_id ≫= fun n =>
      Ok (mkLanding (fc_active (nav_groups n)) (prior_window n) (prior_pane n (prior_window n)))
  end.

Definition navigation_from_primary_source (s : Session) (source_client_id : ClientId)
    : result ClientNavigationState :=
  snapshot_landing_navigation s (Some source_client_id) ≫= fun landing =>
  Ok (navigation_from_landing_state landing).

Definition active_group_for (s : Session) (client_id : ClientId) : result WindowGroup :=
  navigation s client_id ≫= fun n =>
  ok_or (fc_active (nav_groups n)) (invalid_state "client has no active window group")
    ≫= fun group_id =>
  ok_or (List.find (has_group_id group_id) (s_window_groups s))
    (invalid_state "client active window group is stale").

Definition active_window_for (s : Session) (client_id : ClientId) : result Window :=
  navigation s client_id ≫= fun n =>
  ok_or (fc_active (nav_groups n)) (invalid_state "client has no active window group")
    ≫= fun group_id =>
  ok_or (nav_windows_by_group n !! group_id ≫= fc_active)
    (invalid_state "client has no active window") ≫= fun window_id =>
  ok_or (List.find (has_window_id window_id) (s_windows s))
    (invalid_state "client active window is stale").

Definition active_pane_for (s : Session) (client_id : ClientId) : result Pane :=
  navigation s client_id ≫= fun n =>
  active_window_for s client_id ≫= fun w =>
  ok_or (nav_panes_by_window n !! w_id w ≫= fc_active) (invalid_state "client has no active pane")
    ≫= fun pane_id =>
  ok_or (List.find (fun p => String.eqb (p_id p) pane_id) (w_panes w))
    (invalid_state "client active pane is stale").

Definition mutation_revision (s : Session) : Z := sat_sub (s_next_event_id s) 1.

Definition contains_pane (s : Session) (pane_id : string) : bool :=
  existsb (fun w => has_pane_id (w_panes w) pane_id) (s_windows s).

Definition active_window_panes_synchronized (s : Session) : bool :=
  match s_windows s !! s_active_window_index s with
  | Some w => bool_decide (w_id w ∈ s_synchronized_window_ids s)
  | None => false
  end.

Definition window_panes_synchronized (s : Session) (target : option string) : result bool :=
  window_index_or_active s target ≫= fun index =>
  Ok (match s_windows s !! index with
      | Some w => bool_decide (w_id w ∈ s_synchronized_window_ids s)
      | None => false
      end).

Section Clients.
Context `{Clock}.

(** [Session::new_default]; [reads] is the number of clock readings made before. *)
Definition new_default (shell : SessionShell) (size : Size) (reads : nat) : result Session :=
  Size_validate size ≫= fun _ =>
  let '(id, ids) := IdFactoryOps.session IdFactoryOps.default in
  let now := clock_at reads in
  let '(ids, window) := Win.new 0 "0" size ids in
  window ≫= fun window =>
  let window := window_set_created_at (Some now) window in
  let '(group_id, ids) := IdFactoryOps.window_group ids in
  let group := WindowGroup_new group_id 0 "0" (w_id window) (Some now) in
  Win.active_pane window ≫= fun active =>
  Ok (mkSession ids id "default" Running now now None size shell 0 [window] [group] 0 None [] 0 None
        ∅ ∅ [] [] (mkLanding (Some (wg_id group)) (Some (w_id window)) (Some (p_id active)))
        None 0 1 (S reads)).

Definition advance_config_generation : smethod Z :=
  op_modify (fun s => set_config_generation s (sat_add u64_MAX (s_config_generation s) 1)) ≫= fun _ =>
  record_event ≫= fun _ => op_get s_config_generation.

Definition rename_session (primary_client_id : ClientId) (name : string) : smethod unit :=
  op_get id ≫= fun s =>
  op_lift (require_primary s primary_client_id) ≫= fun _ =>
  op_lift (if str_is_empty name then Err (invalid_args "session name must not be empty") else Ok tt)
    ≫= fun _ =>
  op_modify (fun s => set_session_name s name) ≫= fun _ =>
  record_event ≫= fun _ => mret tt.

(** ** Attachment *)

Definition validate_client_terminal_descriptor (t : ClientTerminalDescriptor) : result unit :=
  if (ct_columns t =? 0) || (ct_rows t =? 0)
  then Err (invalid_args "client terminal descriptor dimensions must be non-zero") else
  Size_new (ct_columns t) (ct_rows t) ≫= fun _ =>
  if str_is_empty (trim (ct_term t))
  then Err (invalid_args "client terminal descriptor requires term")
  else if existsb (fun f => str_is_empty (trim f)) (ct_features t)
  then Err (invalid_args "client terminal descriptor features must be non-empty")
  else Ok tt.

Definition validate_optional_terminal (t : option ClientTerminalDescriptor) : result unit :=
  match t with Some t => validate_client_terminal_descriptor t | None => Ok tt end.

(** [terminal.map(|t| Size::new(t.columns, t.rows)).transpose()?]. *)
Definition terminal_size (t : option ClientTerminalDescriptor) : result (option Size) :=
  match t with
  | Some t => Some <$> Size_new (ct_columns t) (ct_rows t)
  | None => Ok None
  end.

Definition alloc_client : smethod ClientId :=
  op_zoom s_ids (fun ids s => set_ids s ids) (op_step (Win.alloc IdFactoryOps.client)).

Definition push_client (c : Client) : smethod unit :=
  op_modify (fun s => set_clients s (s_clients s ++ [c])).

(** Taking ownership of the canonical geometry. *)
Definition take_layout_ownership (owner : option ClientId) (size : option Size)
    : smethod (list PaneResizeEffect) :=
  op_modify (fun s => set_layout_owner_client_id s owner) ≫= fun _ =>
  op_modify (fun s => set_layout_revision s (sat_add u64_MAX (s_layout_revision s) 1)) ≫= fun _ =>
  apply_optional_size size.

Definition attach_primary_with_terminal_transition (name : string) (interactive : bool)
    (terminal : option ClientTerminalDescriptor) : smethod PrimaryMembershipTransition :=
  op_lift (if interactive then Ok tt
           else Err (forbidden "primary clients must attach through an interactive terminal"))
    ≫= fun _ =>
  op_lift (validate_optional_terminal terminal) ≫= fun _ =>
  op_get id ≫= fun s =>
  let primary_count_before := length (attached_primaries s) in
  op_lift (if (MAX_ATTACHED_PRIMARY_CLIENTS <=? primary_count_before)%nat
           then Err (conflict "session already has the maximum of 16 attached primary clients")
           else Ok tt) ≫= fun _ =>
  op_lift (terminal_size terminal) ≫= fun size =>
  op_lift (match s_layout_owner_client_id s, size with
           | None, Some size => validate_authoritative_layout_size s size
           | _, _ => Ok tt
           end) ≫= fun _ =>
  op_lift (match s_layout_owner_client_id s with
           | Some owner_id => navigation_from_primary_source s owner_id
           | None => Ok (navigation_from_landing s)
           end) ≫= fun view =>
  alloc_client ≫= fun client_id =>
  current_unix_seconds ≫= fun attached_at =>
  push_client (mkClient client_id name Primary Attached interactive terminal
                 (Some attached_at) (Some attached_at) (Some view)) ≫= fun _ =>
  (match s_layout_owner_client_id s with
   | None => take_layout_ownership (Some client_id) size
   | Some _ => mret []
   end) ≫= fun resize_effects =>
  op_modify (fun s => set_state (set_last_attached_at_unix_seconds s (Some attached_at)) Running)
    ≫= fun _ =>
  record_event ≫= fun _ =>
  op_get (fun s' =>
    mkMembership client_id primary_count_before (primary_count_before + 1)
      (s_layout_owner_client_id s) (s_layout_owner_client_id s')
      (s_authoritative_size s) (s_authoritative_size s') resize_effects []
      (if (primary_count_before =? 0)%nat then EdgeAttached else EdgeNone)).

Definition attach_primary_with_terminal (name : string) (interactive : bool)
    (terminal : option ClientTerminalDescriptor) : smethod ClientId :=
  attach_primary_with_terminal_transition name interactive terminal ≫= fun t =>
  mret (pm_client_id t).
Definition attach_primary (name : string) (interactive : bool) : smethod ClientId :=
  attach_primary_with_terminal name interactive None.

(** ** Layout ownership *)

Definition select_layout_owner_transition (authority_client_id : option ClientId)
    (target_client_id : string) : smethod PrimaryMembershipTransition :=
  op_get id ≫= fun s =>
  op_lift (ok_or authority_client_id
             (forbidden "layout ownership transfer requires an attached primary client"))
    ≫= fun authority =>
  op_lift (require_primary s authority) ≫= fun _ =>
  op_lift (ok_or (client_position (s_clients s) target_client_id) (not_found "client not found"))
    ≫= fun target_index =>
  op_lift (index_or_panic (s_clients s) target_index) ≫= fun target =>
  op_lift (if negb (c_interactive target) || negb (bool_decide (c_role target = Primary))
              || negb (bool_decide (c_state target = Attached))
           then Err (forbidden "layout ownership requires an attached interactive primary client")
           else Ok tt) ≫= fun _ =>
  let primary_count := length (attached_primaries s) in
  op_lift (terminal_size (c_terminal target)) ≫= fun target_size =>
  let transfers := negb (bool_decide (s_layout_owner_client_id s = Some (c_id target))) in
  op_lift (match transfers, target_size with
           | true, Some size => validate_authoritative_layout_size s size
           | _, _ => Ok tt
           end) ≫= fun _ =>
  current_unix_seconds ≫= fun selected_at =>
  op_modify (fun s => set_clients s (alter (client_set_last_seen selected_at) target_index (s_clients s)))
    ≫= fun _ =>
  (if transfers then take_layout_ownership (Some (c_id target)) target_size else mret [])
    ≫= fun resize_effects =>
  record_event ≫= fun _ =>
  op_get (fun s' =>
    mkMembership (c_id target) primary_count primary_count
      (s_layout_owner_client_id s) (s_layout_owner_client_id s')
      (s_authoritative_size s) (s_authoritative_size s') resize_effects [] EdgeNone).

Definition select_primary_client (authority_client_id : option ClientId) (target_client_id : string)
    : smethod ClientId :=
  select_layout_owner_transition authority_client_id target_client_id ≫= fun t =>
  mret (pm_client_id t).

(** ** Observers and control clients *)

Definition attach_observer_with_terminal (name : string) (terminal : option ClientTerminalDescriptor)
    (visible_from_event_id : Z) : smethod ClientId :=
  op_get id ≫= fun s =>
  op_lift (ok_or (s_layout_owner_client_id s)
             (conflict "observer attachment requires an attached layout-owner primary"))
    ≫= fun source_client_id =>
  op_lift (require_primary s source_client_id) ≫= fun _ =>
  op_lift (validate_optional_terminal terminal) ≫= fun _ =>
  op_lift (navigation_from_primary_source s source_client_id) ≫= fun view =>
  alloc_client ≫= fun client_id =>
  current_unix_seconds ≫= fun attached_at =>
  push_client (mkClient client_id name Observer Attached false terminal
                 (Some attached_at) (Some attached_at) (Some view)) ≫= fun _ =>
  op_modify (fun s => set_observer_attachments s
    (s_observer_attachments s ++ [mkObserver client_id source_client_id visible_from_event_id]))
    ≫= fun _ =>
  record_event ≫= fun _ => mret client_id.

(** Assignment of the terminal's dimensions. *)
Definition resize_terminal (size : Size) (t : ClientTerminalDescriptor) : ClientTerminalDescriptor :=
  mkTerminal (columns size) (rows size) (ct_term t) (ct_features t).

Definition resize_observer_terminal (client_id : ClientId) (size : Size) : smethod unit :=
  op_lift (Size_validate size) ≫= fun _ =>
  op_get id ≫= fun s =>
  op_lift (ok_or (List.find (has_client_id client_id) (s_clients s) ≫= fun c =>
                    if bool_decide (c_role c = Observer) && bool_decide (c_state c = Attached)
                    then Some c else None)
             (forbidden "operation requires an attached observer")) ≫= fun c =>
  op_lift (ok_or (c_terminal c) (invalid_state "attached observer has no terminal descriptor"))
    ≫= fun terminal =>
  current_unix_seconds ≫= fun now =>
  op_modify (fun s => set_clients s
    (update_first (has_client_id client_id)
       (fun c => client_set_last_seen now (client_set_terminal (Some (resize_terminal size terminal)) c))
       (s_clients s))) ≫= fun _ =>
  record_event ≫= fun _ => mret tt.

Definition attach_control_client (name : string) (role : ClientRole) (interactive : bool)
    : smethod ClientId :=
  op_lift (match role with
           | Primary | Observer =>
               Err (invalid_args "attach_control_client supports only agent and automation roles")
           | _ => Ok tt
           end) ≫= fun _ =>
  alloc_client ≫= fun client_id =>
  current_unix_seconds ≫= fun attached_at =>
  push_client (mkClient client_id name role Attached interactive None
                 (Some attached_at) (Some attached_at) None) ≫= fun _ =>
  record_event ≫= fun _ => mret client_id.

(** ** Detachment *)

(** The order of [min_by]: attachment time, then identity. *)
Definition option_compare (a b : option Z) : comparison :=
  match a, b with
  | None, None => Eq
  | None, Some _ => Lt
  | Some _, None => Gt
  | Some a, Some b => Z.compare a b
  end.
Definition attached_before (a b : Client) : bool :=
  match option_compare (c_attached_at_unix_seconds a) (c_attached_at_unix_seconds b) with
  | Lt => true
  | Gt => false
  | Eq => match String.compare (c_id a) (c_id b) with Lt => true | _ => false end
  end.

(** The successor of a departing layout owner, with its terminal size when the
    layout fits it. *)
Definition elect_layout_owner (s : Session) (primary_client_id : ClientId)
    : result (option (ClientId * option Size)) :=
  if bool_decide (s_layout_owner_client_id s = Some primary_client_id) then
    match iter_min attached_before
            (List.filter (fun c => negb (has_client_id primary_client_id c)) (attached_primaries s)) with
    | None => Ok None
    | Some c =>
        terminal_size (c_terminal c) ≫= fun size =>
        Ok (Some (c_id c, size ≫= fun size =>
              if is_ok (validate_authoritative_layout_size s size) then Some size else None))
    end
  else Ok None.

Definition depart (st : ClientState) (at_ : Z) (c : Client) : Client :=
  client_set_last_seen at_ (client_set_state st c).

Definition detach_primary_transition (primary_client_id : ClientId)
    : smethod PrimaryMembershipTransition :=
  op_get id ≫= fun s =>
  op_lift (require_primary s primary_client_id) ≫= fun _ =>
  let primary_count_before := length (attached_primaries s) in
  op_lift (if (primary_count_before =? 1)%nat
           then Some <$> snapshot_landing_navigation s (Some primary_client_id)
           else Ok None) ≫= fun final_primary_landing =>
  op_lift (elect_layout_owner s primary_client_id) ≫= fun elected =>
  (match client_position (s_clients s) primary_client_id with
   | Some i =>
       current_unix_seconds ≫= fun now =>
       op_modify (fun s => set_clients s (alter (depart Detached now) i (s_clients s)))
   | None => mret tt
   end) ≫= fun _ =>
  current_unix_seconds ≫= fun revoked_at =>
  let follows o := String.eqb (ob_view_source_client_id o) primary_client_id in
  let revoked := ob_client_id <$> List.filter follows (s_observer_attachments s) in
  op_modify (fun s => set_observer_attachments s
    (List.filter (fun o => negb (follows o)) (s_observer_attachments s))) ≫= fun _ =>
  op_modify (fun s => set_clients s
    (foldl (fun cs id => update_first (has_client_id id) (depart Revoked revoked_at) cs)
       (s_clients s) revoked)) ≫= fun _ =>
  let primary_count_after := (primary_count_before - 1)%nat in
  (if bool_decide (s_layout_owner_client_id s = Some primary_client_id)
   then take_layout_ownership (fst <$> elected) (elected ≫= snd)
   else mret []) ≫= fun resize_effects =>
  (if (primary_count_after =? 0)%nat then
     op_modify (fun s => set_state s SessionDetached) ≫= fun _ =>
     match final_primary_landing with
     | Some landing => op_modify (fun s => set_landing_navigation s landing)
     | None => mret tt
     end
   else mret tt) ≫= fun _ =>
  record_event ≫= fun _ =>
  op_get (fun s' =>
    mkMembership primary_client_id primary_count_before primary_count_after
      (s_layout_owner_client_id s) (s_layout_owner_client_id s')
      (s_authoritative_size s) (s_authoritative_size s') resize_effects revoked
      (if (primary_count_after =? 0)%nat then EdgeDetached else EdgeNone)).

Definition detach_primary (primary_client_id : ClientId) : smethod unit :=
  detach_primary_transition primary_client_id ≫= fun _ => mret tt.

(** The part shared by the two detach requests for a client that is not a
    primary. *)
Definition detach_other_client (client_id : ClientId) : smethod unit :=
  op_get id ≫= fun s =>
  op_lift (ok_or (client_position (s_clients s) client_id) (not_found "client not found"))
    ≫= fun i =>
  current_unix_seconds ≫= fun detached_at =>
  op_modify (fun s => set_clients s (alter (depart Detached detached_at) i (s_clients s))) ≫= fun _ =>
  op_modify (fun s => set_observer_attachments s
    (List.filter (fun o => negb (String.eqb (ob_client_id o) client_id)) (s_observer_attachments s)))
    ≫= fun _ =>
  record_event ≫= fun _ => mret tt.

Definition detach_client_target (primary_client_id : ClientId) (client_id : string) : smethod unit :=
  op_get id ≫= fun s =>
  op_lift (require_primary s primary_client_id) ≫= fun _ =>
  if existsb (fun c => has_client_id client_id c && bool_decide (c_role c = Primary)) (s_clients s)
  then
    op_lift (match List.find (has_client_id client_id) (s_clients s) with
             | Some c => Ok (c_id c)
             | None => Panic
             end) ≫= fun target_id => detach_primary target_id
  else detach_other_client client_id.

Definition detach_client_self (client_id : ClientId) : smethod unit :=
  op_get id ≫= fun s =>
  if is_attached_primary s client_id then detach_primary client_id else detach_other_client client_id.

(** ** Retained summaries *)

Definition prune_key_leb (a b : nat * Z * Z * string) : bool :=
  let '(_, seen_a, attached_a, id_a) := a in
  let '(_, seen_b, attached_b, id_b) := b in
  match Z.compare seen_a seen_b with
  | Lt => true
  | Gt => false
  | Eq => match Z.compare attached_a attached_b with
          | Lt => true
          | Gt => false
          | Eq => match String.compare id_a id_b with Gt => false | _ => true end
          end
  end.

Definition removable_clients (additionally_protected : gset ClientId) (cs : list Client)
    : list (nat * Z * Z * string) :=
  omap (fun '(index, c) =>
          if bool_decide (c_state c = Detached) && negb (bool_decide (c_id c ∈ additionally_protected))
          then Some (index, default 0 (c_last_seen_at_unix_seconds c),
                     default 0 (c_attached_at_unix_seconds c), c_id c)
          else None) (zip (seq 0 (length cs)) cs).

(** [retain] with a running index. *)
Fixpoint retain_indices (removed : list nat) (index : nat) (cs : list Client) : list Client :=
  match cs with
  | [] => []
  | c :: cs =>
      let rest := retain_indices removed (S index) cs in
      if existsb (Nat.eqb index) removed then rest else c :: rest
  end.

Definition prune_detached_client_summaries (additionally_protected : gset ClientId) (s : Session)
    : Session * nat :=
  let removable := removable_clients additionally_protected (s_clients s) in
  if (length removable <=? MAX_RETAINED_DETACHED_CLIENTS)%nat then (s, 0%nat) else
  let remove_count := (length removable - MAX_RETAINED_DETACHED_CLIENTS)%nat in
  let removed := (fun e => e.1.1.1) <$> take remove_count (in_order prune_key_leb removable) in
  (set_clients s (retain_indices removed 0 (s_clients s)), remove_count).
End Clients.
