(* ===== verification/SessionWindows.v ===== *)
(** * Window, group and pane commands of a session ([mez-mux/src/session/windows.rs])

    Every primary-authorised command and its session-owned variant.  A command
    on a client's behalf projects the client's view into the focus fields,
    mutates, and captures the view back; commands that remove or move panes
    then reconcile the views of all clients. *)

From S2P Require Import Prelude RustStr Ids LayoutTypes Sizing LayoutTree WindowOps WindowNav WindowRestore SessionTypes Reconcile SessionTargets SessionClients.
From Stdlib Require Import Ascii.
Local Open Scope Z_scope.

Record PaneResizeTransition := mkPaneResize { rt_pane : Pane; rt_effects : list PaneResizeEffect }.
Record BreakPaneTransition := mkBreak { bt_window_id : WindowId; bt_effects : list PaneResizeEffect }.
Record JoinPaneTransition := mkJoin { jt_pane_id : PaneId; jt_effects : list PaneResizeEffect }.
Record RemovePaneTransition := mkRemovePane {
  rp_pane : option Pane; rp_effects : list PaneResizeEffect }.
Record KillWindowTransition := mkKillWindow {
  kw_window : Window; kw_effects : list PaneResizeEffect }.
Record KillGroupTransition := mkKillGroup {
  kg_windows : list Window; kg_effects : list PaneResizeEffect }.

Definition DEFAULT_PANE_TITLE : string := "shell".

(** [chars().filter(|ch| !ch.is_control())]: the controls are the C0 bytes, DEL
    and the two-byte C1 characters. *)
Fixpoint strip_control (s : string) : string :=
  match s with
  | EmptyString => EmptyString
  | String a s' =>
      let n := N_of_ascii a in
      if ((n <? 32) || (n =? 127))%N then strip_control s'
      else match s' with
           | String b s'' =>
               let m := N_of_ascii b in
               if ((n =? 194) && (128 <=? m) && (m <? 160))%N then strip_control s''
               else String a (strip_control s')
           | EmptyString => String a EmptyString
           end
  end.

Definition terminal_pane_title_or_default (title : string) : string :=
  let trimmed := trim (strip_control title) in
  if str_is_empty trimmed then DEFAULT_PANE_TITLE else trimmed.

(** ** Running code on one window *)

(** [self.windows[i]]: panics out of range. *)
Definition at_window {A} (i : nat) (m : method A) : smethod A := fun s =>
  match s_windows s !! i with
  | None => (s, Panic)
  | Some w => let '(w, r) := m w in (set_windows s (<[i := w]> (s_windows s)), r)
  end.

(** [self.windows.get_mut(i).ok_or_else(|| e)?]. *)
Definition at_window_or {A} (e : MuxError) (i : nat) (m : method A) : smethod A := fun s =>
  match s_windows s !! i with None => (s, Err e) | Some _ => at_window i m s end.

Definition at_active_window {A} (m : method A) : smethod A := fun s =>
  at_window_or (invalid_state "session has no active window") (s_active_window_index s) m s.

(** A window method that also allocates from the session's factory. *)
Definition at_window_with_ids {A} (i : nat) (m : op MuxError (IdFactory * Window) A) : smethod A :=
  fun s =>
  match s_windows s !! i with
  | None => (s, Panic)
  | Some w =>
      let '((ids, w), r) := m (s_ids s, w) in
      (set_windows (set_ids s ids) (<[i := w]> (s_windows s)), r)
  end.

(** A method that cannot fail. *)
Definition total (f : Window -> Window) : method unit := op_modify f.

(** The pane sizes of the window after a method. *)
Definition with_effects {A} (m : method A) : method (A * list PaneResizeEffect) :=
  m ≫= fun a => op_get (fun w => (a, pane_effects (w_panes w))).

Section Commands.
Context `{Clock}.

Definition emit {A} (a : A) : smethod A := record_event ≫= fun _ => mret a.

Definition reconcile_views : smethod unit := op_modify (fun s => (reconcile_client_navigation s).1).

Definition authorized {A} (client : ClientId) (k : smethod A) : smethod A :=
  op_get id ≫= fun s => op_lift (require_primary s client) ≫= fun _ => k.

(** A command between the projection and the capture of its client's view. *)
Definition as_client {A} (client : ClientId) (m : smethod A) : smethod A :=
  authorized client
    (activate_client_navigation client ≫= fun _ =>
     m ≫= fun a =>
     capture_client_navigation client ≫= fun _ => mret a).

(** The same, with the event recorded after the capture. *)
Definition as_client_event {A} (client : ClientId) (m : smethod A) : smethod A :=
  as_client client m ≫= emit.

(** ** Creation *)

Definition alloc_window (index : nat) (name : string) : smethod Window := fun s =>
  let '(ids, r) := Win.new index name (s_authoritative_size s) (s_ids s) in (set_ids s ids, r).
Definition alloc_group_id : smethod WindowGroupId :=
  op_zoom s_ids (fun ids s => set_ids s ids) (op_step (Win.alloc IdFactoryOps.window_group)).

Definition push_window (w : Window) : smethod unit :=
  op_modify (fun s => set_windows s (s_windows s ++ [w])).
Definition push_group (g : WindowGroup) : smethod unit :=
  op_modify (fun s => set_window_groups s (s_window_groups s ++ [g])).

(** Appending a member, which becomes active in a group without one. *)
Definition add_member (id : WindowId) (g : WindowGroup) : WindowGroup :=
  let g := group_set_window_ids (wg_window_ids g ++ [id]) g in
  match wg_active_window_id g with None => group_set_active (Some id) g | Some _ => g end.

Definition add_to_group (group_index : nat) (id : WindowId) : smethod unit :=
  op_modify (fun s => set_window_groups s (alter (add_member id) group_index (s_window_groups s))).

Definition new_window_body (name : string) (select : bool) : smethod WindowId :=
  op_get (fun s => length (s_windows s)) ≫= fun index =>
  alloc_window index name ≫= fun window =>
  current_unix_seconds ≫= fun now =>
  let window := window_set_created_at (Some now) window in
  let id := w_id window in
  push_window window ≫= fun _ =>
  op_get s_window_groups ≫= fun groups =>
  (match groups with
   | [] =>
       alloc_group_id ≫= fun group_id =>
       current_unix_seconds ≫= fun now =>
       push_group (WindowGroup_new group_id 0 "0" id (Some now)) ≫= fun _ =>
       op_modify (fun s => set_active_group_index s 0)
   | _ =>
       op_get s_active_group_index ≫= fun active =>
       add_to_group (Nat.min active (length groups - 1)) id
   end) ≫= fun _ =>
  op_modify (fun s => if select then focus_window index s else s) ≫= fun _ => mret id.

Definition new_window (client : ClientId) (name : string) (select : bool) : smethod WindowId :=
  as_client_event client (new_window_body name select).

Definition new_window_in_group_session_owned (group_id : WindowGroupId) (name : string) (select : bool)
    : smethod WindowId :=
  op_get s_window_groups ≫= fun groups =>
  op_lift (ok_or (group_position groups group_id) (not_found "window group not found"))
    ≫= fun group_index =>
  op_get (fun s => length (s_windows s)) ≫= fun index =>
  alloc_window index name ≫= fun window =>
  current_unix_seconds ≫= fun now =>
  let window := window_set_created_at (Some now) window in
  let id := w_id window in
  push_window window ≫= fun _ =>
  add_to_group group_index id ≫= fun _ =>
  op_modify (fun s => if select then focus_window index s else s) ≫= fun _ => emit id.

Definition new_window_in_group (client : ClientId) (group_id : WindowGroupId) (name : string)
    (select : bool) : smethod WindowId :=
  as_client client (new_window_in_group_session_owned group_id name select).

Definition new_group_body (name : string) (select : bool) : smethod (WindowGroupId * WindowId) :=
  op_get (fun s => length (s_windows s)) ≫= fun window_index =>
  let unnamed := str_is_empty (trim name) in
  alloc_window window_index (if unnamed then usize_to_string window_index else name) ≫= fun window =>
  current_unix_seconds ≫= fun now =>
  let window := window_set_created_at (Some now) window in
  let window_id := w_id window in
  alloc_group_id ≫= fun group_id =>
  op_get (fun s => length (s_window_groups s)) ≫= fun group_count =>
  let group_name := if unnamed then usize_to_string group_count else name in
  push_window window ≫= fun _ =>
  push_group (WindowGroup_new group_id group_count group_name window_id (Some now)) ≫= fun _ =>
  op_modify (fun s => if select || (length (s_window_groups s) =? 1)%nat
                      then focus_window window_index s else s) ≫= fun _ =>
  mret (group_id, window_id).

Definition new_group (client : ClientId) (name : string) (select : bool)
    : smethod (WindowGroupId * WindowId) :=
  as_client_event client (new_group_body name select).

(** ** Names *)

Definition rename_window (client : ClientId) (target : option string) (name : string) : smethod unit :=
  authorized client
    (op_get id ≫= fun s =>
     op_lift (window_index_or_active s target) ≫= fun index =>
     at_window index (total (Win.rename name)) ≫= emit).

Definition rename_window_generated_session_owned (target name : string) : smethod bool :=
  op_get id ≫= fun s =>
  op_lift (window_index_or_active s (Some target)) ≫= fun index =>
  op_lift (index_or_panic (s_windows s) index) ≫= fun w =>
  if WindowNameSource_is_explicit (w_name_source w) then mret false
  else at_window index (total (Win.rename_generated name)) ≫= fun _ => emit true.

Definition rename_window_generated (client : ClientId) (target name : string) : smethod bool :=
  authorized client (rename_window_generated_session_owned target name).

Definition mark_window_name_generated_session_owned (target : string) : smethod unit :=
  op_get id ≫= fun s =>
  op_lift (window_index_or_active s (Some target)) ≫= fun index =>
  at_window index (total Win.mark_name_generated) ≫= emit.

Definition mark_window_name_generated (client : ClientId) (target : string) : smethod unit :=
  authorized client (mark_window_name_generated_session_owned target).

Definition rename_group (client : ClientId) (target : option string) (name : string) : smethod unit :=
  authorized client
    (op_lift (if str_is_empty (trim name)
              then Err (invalid_args "window group name must not be empty") else Ok tt) ≫= fun _ =>
     op_get id ≫= fun s =>
     op_lift (group_index_or_active s target) ≫= fun group_index =>
     op_lift (index_or_panic (s_window_groups s) group_index) ≫= fun _ =>
     op_modify (fun s => set_window_groups s
       (alter (group_set_name name) group_index (s_window_groups s))) ≫= emit).

(** ** Selecting windows and groups *)

Definition select_window (client : ClientId) (target : string) : smethod unit :=
  as_client_event client
    (op_get id ≫= fun s =>
     op_lift (window_index_or_active s (Some target)) ≫= fun index => op_modify (focus_window index)).

(** The index [step] positions away in the active group. *)
Definition adjacent_window (forward : bool) (s : Session) : result nat :=
  match s_windows s with
  | [] => Err (invalid_state "session has no windows")
  | _ =>
      let indexes := active_group_window_indexes s in
      match indexes with
      | [] => Err (invalid_state "active group has no windows")
      | _ =>
          let pos := default 0%nat (position (Nat.eqb (s_active_window_index s)) indexes) in
          let pos := if forward then ((pos + 1) mod length indexes)%nat
                     else if (pos =? 0)%nat then (length indexes - 1)%nat else (pos - 1)%nat in
          index_or_panic indexes pos
      end
  end.

Definition next_window (client : ClientId) : smethod unit :=
  as_client_event client
    (op_get id ≫= fun s => op_lift (adjacent_window true s) ≫= fun index =>
     op_modify (focus_window index)).

Definition previous_window (client : ClientId) : smethod unit :=
  as_client_event client
    (op_get id ≫= fun s => op_lift (adjacent_window false s) ≫= fun index =>
     op_modify (focus_window index)).

Definition last_window (client : ClientId) : smethod unit :=
  as_client_event client
    (op_get id ≫= fun s =>
     op_lift (ok_or
       (or_else
          (s_window_groups s !! s_active_group_index s ≫= fun g =>
             wg_last_active_window_id g ≫= window_index_by_id s)
          (s_last_active_window_index s ≫= fun i =>
             if (i <? length (s_windows s))%nat then Some i else None))
       (invalid_state "session has no last active window")) ≫= fun index =>
     op_modify (focus_window index)).

Definition group_selection (client : ClientId) (choose : Session -> result nat)
    : smethod (list PaneResizeEffect) :=
  as_client client (op_get id ≫= fun s => op_lift (choose s) ≫= focus_group) ≫= fun _ =>
  op_get all_effects ≫= emit.

Definition select_group_transition (client : ClientId) (target : string) :=
  group_selection client (fun s => group_index_or_active s (Some target)).

Definition next_group_transition (client : ClientId) :=
  group_selection client (fun s =>
    match s_window_groups s with
    | [] => Err (invalid_state "session has no window groups")
    | _ => Ok ((s_active_group_index s + 1) mod length (s_window_groups s))%nat
    end).

Definition previous_group_transition (client : ClientId) :=
  group_selection client (fun s =>
    match s_window_groups s with
    | [] => Err (invalid_state "session has no window groups")
    | _ => Ok (if (s_active_group_index s =? 0)%nat then (length (s_window_groups s) - 1)%nat
               else (s_active_group_index s - 1)%nat)
    end).

Definition last_group_transition (client : ClientId) :=
  group_selection client (fun s =>
    ok_or (s_last_active_group_index s ≫= fun i =>
             if (i <? length (s_window_groups s))%nat then Some i else None)
      (invalid_state "session has no last active group")).

(** ** Synchronised input *)

Definition set_window_panes_synchronized (client : ClientId) (target : option string) (enabled : bool)
    : smethod bool :=
  authorized client
    (op_get id ≫= fun s =>
     op_lift (window_index_or_active s target) ≫= fun index =>
     op_lift (index_or_panic (s_windows s) index) ≫= fun w =>
     op_modify (fun s => set_synchronized_window_ids s
       (if enabled then {[ w_id w ]} ∪ s_synchronized_window_ids s
        else s_synchronized_window_ids s ∖ {[ w_id w ]})) ≫= fun _ => emit enabled).

Definition set_active_window_panes_synchronized (client : ClientId) (enabled : bool) : smethod bool :=
  set_window_panes_synchronized client None enabled.

Definition toggle_active_window_panes_synchronized (client : ClientId) : smethod bool :=
  op_get active_window_panes_synchronized ≫= fun enabled =>
  set_active_window_panes_synchronized client (negb enabled).

(** ** Order *)

Definition move_window (client : ClientId) (source : option string) (target_index : nat)
    : smethod unit :=
  authorized client
    (op_get id ≫= fun s =>
     op_lift (match s_windows s with [] => Err (invalid_state "session has no windows") | _ => Ok tt end)
       ≫= fun _ =>
     op_lift (if (length (s_windows s) <=? target_index)%nat
              then Err (invalid_args "move-window target index is outside the window range")
              else Ok tt) ≫= fun _ =>
     op_lift (window_index_or_active s source) ≫= fun source_index =>
     if (source_index =? target_index)%nat then mret tt else
     op_lift (index_or_panic (s_windows s) (s_active_window_index s)) ≫= fun active =>
     let last_active := s_last_active_window_index s ≫= fun i => w_id <$> s_windows s !! i in
     op_lift (index_or_panic (s_windows s) source_index) ≫= fun window =>
     op_modify (fun s =>
       let s := set_windows s (insert_at target_index window (remove_at source_index (s_windows s))) in
       let s := sync_group_window_order_with_window_order (reindex_windows s) in
       let s := set_active_window_index s (default 0%nat (window_index_by_id s (w_id active))) in
       set_last_active_window_index s (last_active ≫= window_index_by_id s)) ≫= emit).

(** ** Splitting *)

Definition split_window_at (i : nat) (m : op MuxError (IdFactory * Window) Pane) : smethod PaneId :=
  at_window_with_ids i m ≫= fun p => mret (p_id p).

Definition split_active_window (m : op MuxError (IdFactory * Window) Pane) : smethod PaneId :=
  op_get id ≫= fun s =>
  op_lift (ok_or (s_windows s !! s_active_window_index s)
             (invalid_state "session has no active window")) ≫= fun _ =>
  split_window_at (s_active_window_index s) m.

Definition split_active_pane_select (client : ClientId) (direction : SplitDirection) (select_new : bool)
    : smethod PaneId :=
  as_client_event client (split_active_window (Win.split_active_select direction select_new)).
Definition split_active_pane (client : ClientId) (direction : SplitDirection) : smethod PaneId :=
  split_active_pane_select client direction true.

Definition split_active_pane_with_size_spec_select (client : ClientId) (direction : SplitDirection)
    (requested_size : PaneSizeSpec) (select_new : bool) : smethod PaneId :=
  as_client_event client
    (split_active_window (Win.split_active_with_size_spec_select direction requested_size select_new)).
Definition split_active_pane_with_size_spec (client : ClientId) (direction : SplitDirection)
    (requested_size : PaneSizeSpec) : smethod PaneId :=
  split_active_pane_with_size_spec_select client direction requested_size true.

Definition split_pane_in_window_select_session_owned (window_id : WindowId)
    (direction : SplitDirection) (select_new : bool) : smethod PaneId :=
  op_get s_windows ≫= fun windows =>
  op_lift (ok_or (window_position windows window_id) (not_found "window not found")) ≫= fun i =>
  split_window_at i (Win.split_active_select direction select_new) ≫= emit.

Definition split_pane_in_window_select (client : ClientId) (window_id : WindowId)
    (direction : SplitDirection) (select_new : bool) : smethod PaneId :=
  as_client client (split_pane_in_window_select_session_owned window_id direction select_new).

(** ** Selecting panes *)

Definition select_pane (client : ClientId) (target : string) : smethod unit :=
  as_client_event client (at_active_window (Win.select_pane target)).

Definition select_pane_global (client : ClientId) (target : string) : smethod unit :=
  as_client_event client
    (op_get id ≫= fun s =>
     op_lift (pane_location s (Some target)) ≫= fun '(window_index, pane_index) =>
     op_lift (pane_at s window_index pane_index) ≫= fun p =>
     op_modify (focus_window window_index) ≫= fun _ =>
     at_active_window (Win.select_pane (p_id p))).

(** A focus move followed by the identity of the new active pane. *)
Definition focusing (m : method unit) : method PaneId :=
  m ≫= fun _ => op_get id ≫= fun w => op_lift (p_id <$> Win.active_pane w).

Definition select_adjacent_pane (client : ClientId) (direction : PaneNavigationDirection)
    : smethod PaneId :=
  as_client_event client (at_active_window (focusing (Nav.select_adjacent_pane direction))).

Definition select_last_pane (client : ClientId) : smethod PaneId :=
  as_client_event client (at_active_window (focusing Win.select_last_pane)).

(** ** Zoom *)

Definition toggle_active_pane_zoom_transition (client : ClientId)
    : smethod (option PaneId * list PaneResizeEffect) :=
  as_client_event client (at_active_window (with_effects Win.toggle_zoom_active)).

Definition set_pane_zoom_transition (client : ClientId) (target : option string) (zoomed : bool)
    : smethod (PaneId * bool * list PaneResizeEffect) :=
  as_client_event client
    (op_get id ≫= fun s =>
     op_lift (pane_location s target) ≫= fun '(window_index, pane_index) =>
     op_lift (pane_at s window_index pane_index) ≫= fun p =>
     at_window window_index (with_effects (Win.set_pane_zoom (p_id p) zoomed)) ≫= fun r =>
     mret (p_id p, zoomed, r.2)).

(** ** Layout of a window *)

Definition rotate_panes_transition (client : ClientId) (reverse : bool)
    : smethod (list PaneResizeEffect) :=
  authorized client
    (at_active_window (with_effects (total (Win.rotate_panes reverse))) ≫= fun r => emit r.2).

Definition cycle_layout_transition (client : ClientId)
    : smethod (LayoutPolicy * list PaneResizeEffect) :=
  authorized client (at_active_window (with_effects Win.cycle_layout) ≫= emit).

Definition select_window_layout_transition (client : ClientId) (target : option string)
    (layout_name : string) : smethod (LayoutPolicy * list PaneResizeEffect) :=
  authorized client
    (op_lift (ok_or (LayoutPolicy_from_name layout_name)
                (invalid_args "select-layout layout is invalid")) ≫= fun policy =>
     op_get id ≫= fun s =>
     op_lift (window_index_or_active s target) ≫= fun index =>
     at_window index (with_effects (Win.set_layout_policy policy)) ≫= emit).

Definition select_layout_transition (client : ClientId) (layout_name : string) :=
  select_window_layout_transition client None layout_name.

Definition rebalance_target_window_transition (client : ClientId) (target : option string)
    : smethod (LayoutPolicy * list PaneResizeEffect) :=
  authorized client
    (op_get id ≫= fun s =>
     op_lift (window_index_or_active s target) ≫= fun index =>
     at_window index (with_effects (op_get w_layout_policy ≫= Win.set_layout_policy)) ≫= emit).

Definition rebalance_window_transition (client : ClientId) :=
  rebalance_target_window_transition client None.

Definition set_window_layout_policy_session_owned (window_id : WindowId) (policy : LayoutPolicy)
    : smethod LayoutPolicy :=
  op_get s_windows ≫= fun windows =>
  op_lift (ok_or (window_position windows window_id) (not_found "window not found")) ≫= fun i =>
  at_window i (Win.set_layout_policy policy) ≫= emit.

Definition set_window_layout_policy (client : ClientId) (window_id : WindowId) (policy : LayoutPolicy)
    : smethod LayoutPolicy :=
  authorized client (set_window_layout_policy_session_owned window_id policy).

(** ** Sizes *)

Definition pane_transition (r : Pane * list PaneResizeEffect) : PaneResizeTransition :=
  mkPaneResize r.1 r.2.

Definition resize_pane_transition (client : ClientId) (target : option string) (size : Size)
    : smethod PaneResizeTransition :=
  authorized client
    (at_active_window (with_effects (Win.resize_pane target size)) ≫= fun r =>
     emit (pane_transition r)).

Definition resize_pane_with_spec_transition (client : ClientId) (target : option string)
    (spec : PaneSizeSpec) : smethod PaneResizeTransition :=
  authorized client
    (at_active_window (with_effects (Win.resize_pane_with_spec target spec)) ≫= fun r =>
     emit (pane_transition r)).

Definition replace_active_window_pane_geometries_transition (client : ClientId)
    (geometries : list PaneGeometry) : smethod (list PaneResizeEffect) :=
  authorized client
    (at_active_window (with_effects (Restore.replace_pane_geometries geometries)) ≫= fun r =>
     emit r.2).

Definition resize_pane_in_window (client : ClientId) (window_id : WindowId) (pane_id : PaneId)
    (size : Size) : smethod Pane :=
  authorized client
    (op_get id ≫= fun s =>
     op_lift (window_index_or_active s (Some window_id)) ≫= fun index =>
     at_window index (Win.resize_pane (Some pane_id) size) ≫= emit).

Definition resize_authoritative_terminal_transition (client : ClientId) (size : Size)
    : smethod (list PaneResizeEffect) :=
  authorized client
    (op_lift (Size_validate size) ≫= fun _ =>
     op_get id ≫= fun s =>
     let owner := bool_decide (s_layout_owner_client_id s = Some client) in
     op_lift (if owner then validate_authoritative_layout_size s size else Ok tt) ≫= fun _ =>
     op_lift (ok_or (client_position (s_clients s) client)
                (forbidden "operation requires the primary client")) ≫= fun i =>
     current_unix_seconds ≫= fun now =>
     op_modify (fun s => set_clients s
       (alter (fun c => client_set_last_seen now
                          (client_set_terminal (resize_terminal size <$> c_terminal c) c))
          i (s_clients s))) ≫= fun _ =>
     if negb owner then emit []
     else if bool_decide (s_authoritative_size s = size) then emit []
     else
       apply_authoritative_layout_size size ≫= fun effects =>
       op_modify (fun s => set_layout_revision s (sat_add u64_MAX (s_layout_revision s) 1)) ≫= fun _ =>
       emit effects).

(** ** Pane state *)

Definition pane_set_live (live : bool) (p : Pane) : Pane :=
  mkPane (p_id p) (p_index p) (p_title p) (p_title_source p) (p_size p) (p_active p) live.
Definition pane_set_title (title : string) (source : PaneTitleSource) (p : Pane) : Pane :=
  mkPane (p_id p) (p_index p) title source (p_size p) (p_active p) (p_live p).

(** [self.windows[i].panes_mut()[j]]. *)
Definition update_pane (window_index pane_index : nat) (f : Pane -> Pane) : smethod unit :=
  at_window window_index (total (fun w => set_panes w (alter f pane_index (w_panes w)))).

Definition set_pane_live_state (pane_id : string) (live : bool) : smethod unit :=
  op_get id ≫= fun s =>
  op_lift (pane_location s (Some pane_id)) ≫= fun '(i, j) =>
  op_lift (pane_at s i j) ≫= fun _ =>
  update_pane i j (pane_set_live live) ≫= emit.

(** The four title updates differ in when they apply and in the provenance they
    record. *)
Definition update_title (pane_id title : string) (skip : string -> Pane -> bool)
    (source : PaneTitleSource) : smethod bool :=
  let title := terminal_pane_title_or_default title in
  op_get id ≫= fun s =>
  op_lift (pane_location s (Some pane_id)) ≫= fun '(i, j) =>
  op_lift (pane_at s i j) ≫= fun p =>
  if skip title p then mret false
  else update_pane i j (pane_set_title title source) ≫= fun _ => emit true.

Definition set_pane_title_from_terminal (pane_id title : string) : smethod bool :=
  update_title pane_id title (fun title p =>
    String.eqb (p_title p) title || PaneTitleSource_is_explicit (p_title_source p)
    || bool_decide (p_title_source p = TitleProgram)) TitleAutomatic.

Definition restore_pane_title_state (pane_id title : string) (source : PaneTitleSource) : smethod bool :=
  update_title pane_id title (fun title p =>
    String.eqb (p_title p) title && bool_decide (p_title_source p = source)) source.

Definition set_pane_title_from_program (pane_id title : string) : smethod bool :=
  update_title pane_id title (fun title p =>
    (String.eqb (p_title p) title && bool_decide (p_title_source p = TitleProgram))
    || PaneTitleSource_is_explicit (p_title_source p)) TitleProgram.

Definition set_pane_title_explicit (pane_id title : string) : smethod bool :=
  update_title pane_id title (fun title p =>
    String.eqb (p_title p) title && PaneTitleSource_is_explicit (p_title_source p)) TitleExplicit.

Definition pane_title_state (s : Session) (pane_id : string) : result (string * PaneTitleSource) :=
  pane_location s (Some pane_id) ≫= fun '(i, j) =>
  pane_at s i j ≫= fun p => Ok (p_title p, p_title_source p).

Definition rename_pane (client : ClientId) (target : option string) (name : string) : smethod unit :=
  authorized client
    (op_get id ≫= fun s =>
     op_lift (pane_location s target) ≫= fun '(i, j) =>
     op_lift (pane_at s i j) ≫= fun p =>
     set_pane_title_explicit (p_id p) name ≫= fun _ => mret tt).
End Commands.
