(* ===== verification/SessionMoves.v ===== *)
(** * Moving and removing panes, windows and groups ([mez-mux/src/session/windows.rs])

    The commands that change which panes and windows exist or where they
    live: swap, break, join, kill, and the shutdown of the session. *)

From S2P Require Import Prelude RustStr Ids LayoutTypes LayoutTree WindowOps SessionTypes Reconcile SessionTargets SessionClients SessionWindows.
Local Open Scope Z_scope.

Section Moves.
Context `{Clock}.

(** ** Swapping *)

Definition swap_between_windows (source source_pane target target_pane : nat) : smethod unit :=
  op_get s_windows ≫= fun ws =>
  op_lift (index_or_panic ws source) ≫= fun first =>
  op_lift (index_or_panic ws target) ≫= fun second =>
  op_lift (Win.swap_panes_between first source_pane second target_pane) ≫= fun '(first, second) =>
  op_modify (fun s => set_windows s (<[target := second]> (<[source := first]> (s_windows s)))).

Definition swap_panes_transition (client : ClientId) (source : option string) (target : string)
    : smethod (list PaneResizeEffect) :=
  as_client client
    (op_get id ≫= fun s =>
     op_lift (pane_location s source) ≫= fun '(source_window, source_pane) =>
     op_lift (pane_location s (Some target)) ≫= fun '(target_window, target_pane) =>
     if (source_window =? target_window)%nat
     then at_window source_window (Win.swap_panes source target)
     else swap_between_windows source_window source_pane target_window target_pane) ≫= fun _ =>
  reconcile_views ≫= fun _ =>
  record_event ≫= fun _ => op_get all_effects.

(** ** Breaking a pane out *)

(** The group list after the pane's new window is placed next to its source. *)
Definition place_broken_window (source_window_id window_id : WindowId) (group_position : option nat)
    (removed_source_window : bool) (g : WindowGroup) : WindowGroup :=
  let ids := wg_window_ids g in
  let ids :=
    match removed_source_window, group_position with
    | true, Some pos => <[pos := window_id]> ids
    | true, None => ids
    | false, Some pos => insert_at (Nat.min (pos + 1) (length ids)) window_id ids
    | false, None => ids ++ [window_id]
    end in
  let g := group_set_window_ids ids g in
  if bool_decide (wg_active_window_id g = Some source_window_id) && removed_source_window
  then group_set_active (Some window_id) g else g.

Definition place_in_groups (source_group_index : option nat) (source_group_window_position : option nat)
    (source_window_id window_id : WindowId) (removed_source_window : bool) : smethod unit :=
  op_get id ≫= fun s =>
  match source_group_index ≫= fun i => (fun g => (i, g)) <$> s_window_groups s !! i with
  | Some (i, g) =>
      op_modify (fun s => set_window_groups s
        (<[i := place_broken_window source_window_id window_id source_group_window_position
                  removed_source_window g]> (s_window_groups s)))
  | None =>
      match s_window_groups s with
      | [] =>
          alloc_group_id ≫= fun group_id =>
          current_unix_seconds ≫= fun now =>
          push_group (WindowGroup_new group_id 0 "0" window_id (Some now))
      | _ =>
          op_modify (fun s => set_window_groups s
            (alter (fun g => group_set_window_ids (wg_window_ids g ++ [window_id]) g)
               (s_active_group_index s) (s_window_groups s)))
      end
  end.

Definition break_pane_body (target : option string) (name : option string) (select_new_window : bool)
    : smethod WindowId :=
  op_get id ≫= fun s =>
  op_lift (pane_location s target) ≫= fun '(source_window_index, source_pane_index) =>
  op_lift (pane_at s source_window_index source_pane_index) ≫= fun p =>
  op_lift (Size_validate (p_size p)) ≫= fun _ =>
  op_lift (index_or_panic (s_windows s) source_window_index) ≫= fun source_window =>
  let source_window_id := w_id source_window in
  let source_group_index := group_index_containing_window_id s source_window_id in
  let source_group_window_position :=
    source_group_index ≫= fun i => s_window_groups s !! i ≫= fun g =>
      position (String.eqb source_window_id) (wg_window_ids g) in
  at_window source_window_index (Win.take_pane_at source_pane_index) ≫= fun pane =>
  op_get s_windows ≫= fun ws =>
  op_lift (index_or_panic ws source_window_index) ≫= fun source_window =>
  let removed_source_window := list_is_empty (w_panes source_window) in
  op_modify (fun s => if removed_source_window
                      then reindex_windows (set_windows s (remove_at source_window_index (s_windows s)))
                      else s) ≫= fun _ =>
  op_get (fun s => length (s_windows s)) ≫= fun new_window_index =>
  let window_name := default (usize_to_string new_window_index) name in
  op_get s_authoritative_size ≫= fun size =>
  op_zoom s_ids (fun ids s => set_ids s ids)
    (Win.from_existing_pane new_window_index window_name size pane) ≫= fun window =>
  current_unix_seconds ≫= fun now =>
  let window := window_set_created_at (Some now) window in
  let window_id := w_id window in
  push_window window ≫= fun _ =>
  place_in_groups source_group_index source_group_window_position source_window_id window_id
    removed_source_window ≫= fun _ =>
  op_modify reindex_windows ≫= fun _ =>
  op_modify reconcile_window_groups_after_window_removal ≫= fun _ =>
  op_modify (fun s =>
    if select_new_window || (length (s_windows s) =? 1)%nat then focus_window new_window_index s
    else if removed_source_window then
      sync_active_group_to_active_window
        (set_active_window_index s (Nat.min (s_active_window_index s) (length (s_windows s) - 1)))
    else s) ≫= fun _ =>
  mret window_id.

Definition break_pane_transition (client : ClientId) (target : option string) (name : option string)
    (select_new_window : bool) : smethod BreakPaneTransition :=
  authorized client
    (op_get s_authoritative_size ≫= fun size => op_lift (Size_validate size) ≫= fun _ =>
     as_client client (break_pane_body target name select_new_window) ≫= fun window_id =>
     reconcile_views ≫= fun _ =>
     record_event ≫= fun _ =>
     op_get (fun s => mkBreak window_id (all_effects s))).

(** ** Removing a window *)

Definition remove_window (index : nat) : smethod Window :=
  op_get focus_before_window_removal ≫= fun previous =>
  op_get s_windows ≫= fun ws =>
  op_lift (index_or_panic ws index) ≫= fun window =>
  op_modify (fun s => after_window_removed index (set_windows s (remove_at index (s_windows s))))
    ≫= fun _ =>
  restore_focus_after_window_removal previous.1 previous.2 ≫= fun _ => mret window.

(** ** Joining *)

Definition join_rejects (s : Session) (source_window_index source_pane_index : nat)
    (destination : JoinDestination) : result unit :=
  match destination with
  | JoinPane window_index pane_id =>
      if (window_index =? source_window_index)%nat then
        pane_at s source_window_index source_pane_index ≫= fun p =>
        if String.eqb (p_id p) pane_id
        then Err (invalid_args "join-pane source and destination pane must differ") else Ok tt
      else Ok tt
  | JoinWindow window_index =>
      if (window_index =? source_window_index)%nat then
        index_or_panic (s_windows s) source_window_index ≫= fun w =>
        if (length (w_panes w) =? 1)%nat
        then Err (invalid_args "join-pane cannot move the final pane into its own window") else Ok tt
      else Ok tt
  end.

Definition join_pane_body (source : option string) (target : string) (direction : SplitDirection)
    (select_joined_pane : bool) : smethod PaneId :=
  op_get id ≫= fun s =>
  op_lift (pane_location s source) ≫= fun '(source_window_index, source_pane_index) =>
  op_lift (join_destination s target) ≫= fun destination =>
  op_lift (join_rejects s source_window_index source_pane_index destination) ≫= fun _ =>
  let previous := focus_before_window_removal s in
  at_window source_window_index (Win.take_pane_at source_pane_index) ≫= fun pane =>
  op_get s_windows ≫= fun ws =>
  op_lift (index_or_panic ws source_window_index) ≫= fun source_window =>
  let removed_source_window := list_is_empty (w_panes source_window) in
  (if removed_source_window then
     op_modify (fun s => after_window_removed source_window_index
                           (set_windows s (remove_at source_window_index (s_windows s)))) ≫= fun _ =>
     restore_focus_after_window_removal previous.1 previous.2
   else mret tt) ≫= fun _ =>
  op_lift (adjust_join_destination destination source_window_index removed_source_window)
    ≫= fun '(destination_window_index, destination_pane_target) =>
  at_window destination_window_index
    (Win.insert_existing_after destination_pane_target pane direction select_joined_pane) ≫= fun _ =>
  op_modify (fun s => if select_joined_pane then focus_window destination_window_index s else s)
    ≫= fun _ =>
  mret (p_id pane).

Definition join_pane_transition (client : ClientId) (source : option string) (target : string)
    (direction : SplitDirection) (select_joined_pane : bool) : smethod JoinPaneTransition :=
  as_client client (join_pane_body source target direction select_joined_pane) ≫= fun pane_id =>
  reconcile_views ≫= fun _ =>
  record_event ≫= fun _ =>
  op_get (fun s => mkJoin pane_id (all_effects s)).

(** ** Killing panes *)

(** The removal shared by [kill_pane_session_owned] and
    [close_exited_pane_with_effects]. *)
Definition remove_pane (window_index : nat) (kill_target : string) : smethod (option Pane) :=
  op_get s_windows ≫= fun ws =>
  op_lift (index_or_panic ws window_index) ≫= fun w =>
  if (length (w_panes w) =? 1)%nat
  then remove_window window_index ≫= fun w => mret (head (w_panes w))
  else at_window window_index (Win.kill_pane (Some kill_target)) ≫= fun p => mret (Some p).

Definition finish_removal (removed : option Pane) : smethod RemovePaneTransition :=
  reconcile_views ≫= fun _ =>
  record_event ≫= fun _ =>
  op_get (fun s => mkRemovePane removed (all_effects s)).

Definition kill_pane_session_owned (target : option string) (force : bool)
    : smethod RemovePaneTransition :=
  op_get id ≫= fun s =>
  op_lift (pane_location s target) ≫= fun '(window_index, pane_index) =>
  op_lift (ok_or (s_windows s !! window_index) (invalid_state "session has no active window"))
    ≫= fun window =>
  op_lift (ok_or (w_panes window !! pane_index) (not_found "pane not found")) ≫= fun target_pane =>
  op_lift (if p_live target_pane && negb force
           then Err (forbidden "killing a live pane requires an explicit force flag")
           else Ok tt) ≫= fun _ =>
  remove_pane window_index (p_id target_pane) ≫= finish_removal.

Definition kill_pane_with_effects (client : ClientId) (target : option string) (force : bool)
    : smethod RemovePaneTransition :=
  as_client client (kill_pane_session_owned target force).

Definition close_exited_pane_with_effects (pane_id : string) : smethod RemovePaneTransition :=
  op_get id ≫= fun s =>
  op_lift (pane_location s (Some pane_id)) ≫= fun '(window_index, _) =>
  remove_pane window_index pane_id ≫= finish_removal.

(** ** Killing the session *)

Definition clear_layout (s : Session) : Session :=
  let s := set_windows s [] in
  let s := set_window_groups s [] in
  let s := set_active_group_index s 0 in
  let s := set_last_active_group_index s None in
  let s := set_group_focus_history s [] in
  let s := set_active_window_index s 0 in
  let s := set_last_active_window_index s None in
  set_state s SessionEmpty.

Definition kill_session (client : ClientId) (force : bool) : smethod unit :=
  authorized client
    (activate_client_navigation client ≫= fun _ =>
     op_get id ≫= fun s =>
     op_lift (if existsb p_live (s_windows s ≫= w_panes) && negb force
              then Err (forbidden "killing a session with live panes requires an explicit force flag")
              else Ok tt) ≫= fun _ =>
     op_modify clear_layout ≫= fun _ =>
     reconcile_views ≫= emit).

Definition force_supervisor_shutdown : smethod unit :=
  current_unix_seconds ≫= fun now =>
  op_modify (fun s => set_clients s
    ((fun c => if bool_decide (c_state c = Attached) then depart Detached now c else c)
       <$> s_clients s)) ≫= fun _ =>
  op_modify (fun s => set_layout_owner_client_id s None) ≫= fun _ =>
  op_modify (fun s => set_layout_revision s (sat_add u64_MAX (s_layout_revision s) 1)) ≫= fun _ =>
  op_modify clear_layout ≫= fun _ =>
  reconcile_views ≫= emit.

(** ** Killing windows and groups *)

Definition kill_window_transition (client : ClientId) (target : option string) (force : bool)
    : smethod KillWindowTransition :=
  as_client client
    (op_get id ≫= fun s =>
     op_lift (window_index_or_active s target) ≫= fun index =>
     op_lift (index_or_panic (s_windows s) index) ≫= fun w =>
     op_lift (if existsb p_live (w_panes w) && negb force
              then Err (forbidden "killing a window with live panes requires an explicit force flag")
              else Ok tt) ≫= fun _ =>
     remove_window index) ≫= fun removed =>
  reconcile_views ≫= fun _ =>
  op_get all_effects ≫= fun effects => emit (mkKillWindow removed effects).

Definition kill_group_body (target : option string) (force : bool) : smethod (list Window) :=
  op_get id ≫= fun s =>
  op_lift (if (length (s_window_groups s) <=? 1)%nat
           then Err (forbidden "killing the final window group requires kill-session")
           else Ok tt) ≫= fun _ =>
  op_lift (group_index_or_active s target) ≫= fun group_index =>
  op_lift (index_or_panic (s_window_groups s) group_index) ≫= fun g =>
  let member w := contains (wg_window_ids g) (w_id w) in
  let doomed := List.filter member (s_windows s) in
  op_lift (if existsb p_live (doomed ≫= w_panes) && negb force
           then Err (forbidden "killing a group with live panes requires an explicit force flag")
           else Ok tt) ≫= fun _ =>
  let previous := focus_before_window_removal s in
  op_modify (fun s => set_windows s (List.filter (fun w => negb (member w)) (s_windows s))) ≫= fun _ =>
  op_modify reindex_windows ≫= fun _ =>
  op_modify reconcile_window_groups_after_window_removal ≫= fun _ =>
  restore_focus_after_window_removal previous.1 previous.2 ≫= fun _ => mret doomed.

Definition kill_group_transition (client : ClientId) (target : option string) (force : bool)
    : smethod KillGroupTransition :=
  as_client client (kill_group_body target force) ≫= fun removed =>
  reconcile_views ≫= fun _ =>
  op_get all_effects ≫= fun effects => emit (mkKillGroup removed effects).
End Moves.

(** * The short forms of the session commands ([mez-mux/src/session/windows.rs])

    Every command that reports pane sizes has a short form that runs it and
    keeps only its main result. *)

Module Plain.
Section Plain.
Context `{Clock}.

Definition only {A B} (f : A -> B) (m : smethod A) : smethod B := m ≫= fun a => mret (f a).
Definition discard {A} (_ : A) : unit := tt.

Definition select_group (client : ClientId) (target : string) : smethod unit :=
  only discard (select_group_transition client target).
Definition next_group (client : ClientId) : smethod unit := only discard (next_group_transition client).
Definition previous_group (client : ClientId) : smethod unit :=
  only discard (previous_group_transition client).
Definition last_group (client : ClientId) : smethod unit := only discard (last_group_transition client).
Definition toggle_active_pane_zoom (client : ClientId) : smethod (option PaneId) :=
  only fst (toggle_active_pane_zoom_transition client).
Definition rotate_panes (client : ClientId) (reverse : bool) : smethod unit :=
  only discard (rotate_panes_transition client reverse).
Definition cycle_layout (client : ClientId) : smethod LayoutPolicy :=
  only fst (cycle_layout_transition client).
Definition select_layout (client : ClientId) (layout_name : string) : smethod LayoutPolicy :=
  only fst (select_layout_transition client layout_name).
Definition rebalance_window (client : ClientId) : smethod LayoutPolicy :=
  only fst (rebalance_window_transition client).
Definition resize_pane (client : ClientId) (target : option string) (size : Size) : smethod Pane :=
  only rt_pane (resize_pane_transition client target size).
Definition resize_pane_with_spec (client : ClientId) (target : option string) (spec : PaneSizeSpec)
    : smethod Pane :=
  only rt_pane (resize_pane_with_spec_transition client target spec).
Definition replace_active_window_pane_geometries (client : ClientId) (geometries : list PaneGeometry)
    : smethod unit :=
  only discard (replace_active_window_pane_geometries_transition client geometries).
Definition resize_authoritative_terminal (client : ClientId) (size : Size) : smethod unit :=
  only discard (resize_authoritative_terminal_transition client size).
Definition swap_panes (client : ClientId) (source : option string) (target : string) : smethod unit :=
  only discard (swap_panes_transition client source target).
Definition break_pane (client : ClientId) (target name : option string) (select_new_window : bool)
    : smethod WindowId :=
  only bt_window_id (break_pane_transition client target name select_new_window).
Definition join_pane (client : ClientId) (source : option string) (target : string)
    (direction : SplitDirection) (select_joined_pane : bool) : smethod PaneId :=
  only jt_pane_id (join_pane_transition client source target direction select_joined_pane).
Definition kill_pane (client : ClientId) (target : option string) (force : bool)
    : smethod (option Pane) :=
  only rp_pane (kill_pane_with_effects client target force).
Definition close_exited_pane (pane_id : string) : smethod (option Pane) :=
  only rp_pane (close_exited_pane_with_effects pane_id).
Definition kill_window (client : ClientId) (target : option string) (force : bool) : smethod Window :=
  only kw_window (kill_window_transition client target force).
Definition kill_group (client : ClientId) (target : option string) (force : bool)
    : smethod (list Window) :=
  only kg_windows (kill_group_transition client target force).

(** Windows of the active group in the order shown, and the place of a window in it. *)
Definition active_group_windows (s : Session) : list Window :=
  omap (fun i => s_windows s !! i) (active_group_window_indexes s).
Definition active_group_window_display_index (s : Session) (window_id : WindowId) : option nat :=
  s_window_groups s !! s_active_group_index s ≫= fun g =>
  position (String.eqb window_id) (wg_window_ids g).
End Plain.
End Plain.
