(* ===== verification/SessionRestore.v ===== *)
(** * Restoring a session ([mez-mux/src/session/snapshot.rs])

    The decoded snapshot, the session rebuilt from it, and the replacement of
    a live session's layout by a snapshot under fresh identities. *)

From S2P Require Import Prelude RustStr Ids LayoutTypes LayoutTree WindowOps WindowRestore SessionTypes Reconcile SessionTargets SessionClients SessionWindows.
Local Open Scope Z_scope.

Record RestoredPane := mkRestoredPane {
  rpn_id : PaneId;
  rpn_index : nat;
  rpn_title : string;
  rpn_active : bool;
  rpn_size : Size;
  rpn_geometry : option PaneGeometry;
  rpn_current_working_directory : option string;
  rpn_readiness_state : string;
  rpn_alternate_screen_active : bool }.

Record RestoredWindow := mkRestoredWindow {
  rwn_id : WindowId;
  rwn_index : nat;
  rwn_name : string;
  rwn_active : bool;
  rwn_size : Size;
  rwn_layout_policy : LayoutPolicy;
  rwn_layout_root : option LayoutNode;
  rwn_panes : list RestoredPane }.

Record RestoredWindowGroup := mkRestoredGroup {
  rwg_id : WindowGroupId;
  rwg_index : nat;
  rwg_name : string;
  rwg_window_ids : list WindowId;
  rwg_active_window_id : option WindowId;
  rwg_last_active_window_id : option WindowId;
  rwg_active : bool }.

Record SessionRestoreInput := mkRestoreInput {
  ri_session_id : SessionId;
  ri_name : string;
  ri_state : RestoredSessionState;
  ri_authoritative_size : Size;
  ri_active_window_id : option WindowId;
  ri_landing_navigation : LandingNavigationState;
  ri_windows : list RestoredWindow;
  ri_window_groups : list RestoredWindowGroup }.

Definition restored_state (st : RestoredSessionState) : SessionState :=
  match st with
  | RRunning => Running
  | RDetached => SessionDetached
  | REmpty => SessionEmpty
  | RStopping => Stopping
  | RFailed => SessionFailed
  end.

Definition validate_restored_geometry (input : SessionRestoreInput) : result unit :=
  Size_validate (ri_authoritative_size input) ≫= fun _ =>
  for_each (fun w =>
    Size_validate (rwn_size w) ≫= fun _ =>
    for_each (fun p =>
      Size_validate (rpn_size p) ≫= fun _ =>
      match rpn_geometry p with
      | Some g => Size_new (g_columns g) (g_rows g) ≫= fun _ => Ok tt
      | None => Ok tt
      end) (rwn_panes w)) (ri_windows input).

Definition restored_metadata (p : RestoredPane) : PaneStateMetadata :=
  mkMetadata (rpn_current_working_directory p) (rpn_readiness_state p) (rpn_alternate_screen_active p).

Definition restored_pane (id : PaneId) (p : RestoredPane) : Pane :=
  mkPane id (rpn_index p) (rpn_title p) TitleExplicit (rpn_size p) (rpn_active p) false.

(** [has_complete_geometry.then_some(pane_geometries)]. *)
Definition complete_geometry (ps : list RestoredPane) : option (list PaneGeometry) :=
  mapM rpn_geometry ps.

Definition restored_layout (w : RestoredWindow) : RestoredWindowLayout :=
  mkRestoredLayout (complete_geometry (rwn_panes w)) (rwn_layout_root w) (rwn_layout_policy w).

(** [Option::replace] on the index of the element marked active: a second mark
    is an error. *)
Definition mark_active (message : string) (active : bool) (index : nat) (found : option nat)
    : result (option nat) :=
  if active then
    match found with Some _ => Err (invalid_args message) | None => Ok (Some index) end
  else Ok found.

Definition check_index (message : string) (index expected : nat) : result unit :=
  if (index =? expected)%nat then Ok tt else Err (invalid_args message).

Definition WINDOW_ORDER : string := "restored windows must be stored in contiguous index order".
Definition PANE_ORDER : string := "restored panes must be stored in contiguous index order".
Definition GROUP_ORDER : string := "restored window groups must be stored in contiguous index order".
Definition MANY_WINDOWS : string := "restored session contains multiple active windows".
Definition MANY_GROUPS : string := "restored session contains multiple active window groups".
Definition NO_WINDOW : string := "restored session must contain at least one window".
Definition ONE_WINDOW : string := "restored session must contain exactly one active window".
Definition ONE_GROUP : string := "restored session must contain exactly one active window group".
Definition GROUP_EMPTY : string := "restored window group must contain at least one window".

(** ** A new session *)

(** What the window loop accumulates. *)
Record restore_windows := mkRestoreWindows {
  rs_ids : list StableId;
  rs_active : option nat;
  rs_metadata : gmap string PaneStateMetadata;
  rs_windows : list Window }.

Fixpoint restore_panes (expected : nat) (ps : list RestoredPane) (ids : list StableId)
    (metadata : gmap string PaneStateMetadata) (panes : list Pane)
    : result (list StableId * gmap string PaneStateMetadata * list Pane) :=
  match ps with
  | [] => Ok (ids, metadata, panes)
  | p :: ps =>
      check_index PANE_ORDER (rpn_index p) expected ≫= fun _ =>
      restore_panes (S expected) ps (ids ++ [rpn_id p]) (<[rpn_id p := restored_metadata p]> metadata)
        (panes ++ [restored_pane (rpn_id p) p])
  end.

Fixpoint restore_window_loop (restored_at : Z) (expected : nat) (ws : list RestoredWindow)
    (st : restore_windows) : result restore_windows :=
  match ws with
  | [] => Ok st
  | w :: ws =>
      check_index WINDOW_ORDER (rwn_index w) expected ≫= fun _ =>
      mark_active MANY_WINDOWS (rwn_active w) expected (rs_active st) ≫= fun active =>
      restore_panes 0 (rwn_panes w) (rs_ids st ++ [rwn_id w]) (rs_metadata st) []
        ≫= fun '(ids, metadata, panes) =>
      Restore.from_restored_parts_with_layout (rwn_id w) (rwn_index w) (rwn_name w) (rwn_size w) panes
        (restored_layout w) ≫= fun window =>
      restore_window_loop restored_at (S expected) ws
        (mkRestoreWindows ids active metadata
           (rs_windows st ++ [window_set_created_at (Some restored_at) window]))
  end.

Fixpoint restore_group_loop (restored_at : Z) (expected : nat) (gs : list RestoredWindowGroup)
    (active : option nat) (ids : list StableId) (groups : list WindowGroup)
    : result (option nat * list StableId * list WindowGroup) :=
  match gs with
  | [] => Ok (active, ids, groups)
  | g :: gs =>
      check_index GROUP_ORDER (rwg_index g) expected ≫= fun _ =>
      mark_active MANY_GROUPS (rwg_active g) expected active ≫= fun active =>
      ok_or (head (rwg_window_ids g)) (invalid_args GROUP_EMPTY) ≫= fun first_window =>
      let group := WindowGroup_new (rwg_id g) (rwg_index g) (rwg_name g) first_window
                     (Some restored_at) in
      let group := group_set_window_ids (rwg_window_ids g) group in
      let group := group_set_focus (rwg_active_window_id g) (rwg_last_active_window_id g)
                     (wg_window_focus_history group) group in
      restore_group_loop restored_at (S expected) gs active (ids ++ [rwg_id g]) (groups ++ [group])
  end.

Section Restore.
Context `{Clock}.

Definition from_restore_input (shell : SessionShell) (input : SessionRestoreInput) (reads : nat)
    : result Session :=
  validate_restored_geometry input ≫= fun _ =>
  let restored_at := clock_at reads in
  restore_window_loop restored_at 0 (ri_windows input)
    (mkRestoreWindows [ri_session_id input] None ∅ []) ≫= fun st =>
  match rs_windows st with
  | [] => Err (invalid_args NO_WINDOW)
  | _ =>
      ok_or (rs_active st) (invalid_args ONE_WINDOW) ≫= fun active_window_index =>
      (match ri_active_window_id input with
       | Some active_window_id =>
           index_or_panic (rs_windows st) active_window_index ≫= fun w =>
           if bool_decide (w_id w = active_window_id) then Ok tt
           else Err (invalid_args "restored active_window_id does not match the active window")
       | None => Ok tt
       end) ≫= fun _ =>
      restore_group_loop restored_at 0 (ri_window_groups input) None (rs_ids st) []
        ≫= fun '(active_group, restored_ids, groups) =>
      ok_or active_group (invalid_args ONE_GROUP) ≫= fun active_group_index =>
      Ok (mkSession (IdFactoryOps.after_existing_ids restored_ids) (ri_session_id input)
            (ri_name input) (restored_state (ri_state input)) restored_at restored_at None
            (ri_authoritative_size input) shell 0 (rs_windows st) groups active_group_index None []
            active_window_index None ∅ (rs_metadata st) [] [] (ri_landing_navigation input) None 0 1
            (S reads))
  end.

(** ** Replacing the layout of a live session *)

(** What the loops accumulate: the fresh identities given to the old ones, and
    the objects built. *)
Record fresh_layout := mkFresh {
  fl_ids : IdFactory;
  fl_window_ids : gmap string WindowId;
  fl_pane_ids : gmap string PaneId;
  fl_group_ids : gmap string WindowGroupId;
  fl_active_window : option nat;
  fl_active_group : option nat;
  fl_metadata : gmap string PaneStateMetadata;
  fl_windows : list Window;
  fl_groups : list WindowGroup }.

(** The loops keep the factory they advanced when they fail. *)
Abbreviation restoring := (op MuxError fresh_layout).

Definition alloc_fresh (next : IdFactory -> StableId * IdFactory) : restoring StableId := fun st =>
  let '(id, ids) := next (fl_ids st) in
  (mkFresh ids (fl_window_ids st) (fl_pane_ids st) (fl_group_ids st) (fl_active_window st)
     (fl_active_group st) (fl_metadata st) (fl_windows st) (fl_groups st), Ok id).

Fixpoint fresh_panes (expected : nat) (ps : list RestoredPane) (panes : list Pane)
    : restoring (list Pane) :=
  match ps with
  | [] => mret panes
  | p :: ps =>
      op_lift (check_index PANE_ORDER (rpn_index p) expected) ≫= fun _ =>
      alloc_fresh IdFactoryOps.pane ≫= fun pane_id =>
      op_modify (fun st =>
        mkFresh (fl_ids st) (fl_window_ids st) (<[rpn_id p := pane_id]> (fl_pane_ids st))
          (fl_group_ids st) (fl_active_window st) (fl_active_group st)
          (<[pane_id := restored_metadata p]> (fl_metadata st)) (fl_windows st) (fl_groups st))
        ≫= fun _ =>
      fresh_panes (S expected) ps (panes ++ [restored_pane pane_id p])
  end.

Fixpoint fresh_windows (restored_at : Z) (expected : nat) (ws : list RestoredWindow)
    : restoring unit :=
  match ws with
  | [] => mret tt
  | w :: ws =>
      op_lift (check_index WINDOW_ORDER (rwn_index w) expected) ≫= fun _ =>
      op_get fl_active_window ≫= fun found =>
      op_lift (mark_active MANY_WINDOWS (rwn_active w) expected found) ≫= fun active =>
      alloc_fresh IdFactoryOps.window ≫= fun window_id =>
      op_modify (fun st =>
        mkFresh (fl_ids st) (<[rwn_id w := window_id]> (fl_window_ids st)) (fl_pane_ids st)
          (fl_group_ids st) active (fl_active_group st) (fl_metadata st) (fl_windows st)
          (fl_groups st)) ≫= fun _ =>
      fresh_panes 0 (rwn_panes w) [] ≫= fun panes =>
      op_lift (Restore.from_restored_parts_with_layout window_id (rwn_index w) (rwn_name w)
                 (rwn_size w) panes (restored_layout w)) ≫= fun window =>
      op_modify (fun st =>
        mkFresh (fl_ids st) (fl_window_ids st) (fl_pane_ids st) (fl_group_ids st)
          (fl_active_window st) (fl_active_group st) (fl_metadata st)
          (fl_windows st ++ [window_set_created_at (Some restored_at) window]) (fl_groups st))
        ≫= fun _ =>
      fresh_windows restored_at (S expected) ws
  end.

(** The live identity of a restored one. *)
Definition live_window (ids : gmap string WindowId) (message : string) (id : WindowId)
    : result WindowId := ok_or (ids !! id) (invalid_args message).

Fixpoint live_windows (ids : gmap string WindowId) (message : string) (l : list WindowId)
    : result (list WindowId) :=
  match l with
  | [] => Ok []
  | id :: l =>
      live_window ids message id ≫= fun live =>
      live_windows ids message l ≫= fun l => Ok (live :: l)
  end.

Definition live_optional (ids : gmap string WindowId) (message : string) (o : option WindowId)
    : result (option WindowId) :=
  match o with Some id => Some <$> live_window ids message id | None => Ok None end.

Fixpoint fresh_groups (restored_at : Z) (expected : nat) (gs : list RestoredWindowGroup)
    : restoring unit :=
  match gs with
  | [] => mret tt
  | g :: gs =>
      op_lift (check_index GROUP_ORDER (rwg_index g) expected) ≫= fun _ =>
      op_get fl_active_group ≫= fun found =>
      op_lift (mark_active MANY_GROUPS (rwg_active g) expected found) ≫= fun active =>
      op_get fl_window_ids ≫= fun live =>
      op_lift (live_windows live "restored window group references an unknown window"
                 (rwg_window_ids g)) ≫= fun window_ids =>
      op_lift (ok_or (head window_ids) (invalid_args GROUP_EMPTY)) ≫= fun first_window =>
      alloc_fresh IdFactoryOps.window_group ≫= fun group_id =>
      op_modify (fun st =>
        mkFresh (fl_ids st) (fl_window_ids st) (fl_pane_ids st)
          (<[rwg_id g := group_id]> (fl_group_ids st)) (fl_active_window st) active
          (fl_metadata st) (fl_windows st) (fl_groups st)) ≫= fun _ =>
      let group := WindowGroup_new group_id (rwg_index g) (rwg_name g) first_window
                     (Some restored_at) in
      let group := group_set_window_ids window_ids group in
      op_lift (live_optional live "restored window group references an unknown active window"
                 (rwg_active_window_id g)) ≫= fun active_window =>
      op_lift (live_optional live "restored window group references an unknown last active window"
                 (rwg_last_active_window_id g)) ≫= fun last_window =>
      let group := group_set_focus active_window last_window (wg_window_focus_history group) group in
      op_modify (fun st =>
        mkFresh (fl_ids st) (fl_window_ids st) (fl_pane_ids st) (fl_group_ids st)
          (fl_active_window st) (fl_active_group st) (fl_metadata st) (fl_windows st)
          (fl_groups st ++ [group])) ≫= fun _ =>
      fresh_groups restored_at (S expected) gs
  end.

Definition build_fresh_layout (restored_at : Z) (input : SessionRestoreInput)
    : restoring (nat * nat * LandingNavigationState) :=
  fresh_windows restored_at 0 (ri_windows input) ≫= fun _ =>
  op_get fl_windows ≫= fun windows =>
  op_lift (match windows with [] => Err (invalid_args NO_WINDOW) | _ => Ok tt end) ≫= fun _ =>
  op_get fl_active_window ≫= fun active =>
  op_lift (ok_or active (invalid_args ONE_WINDOW)) ≫= fun active_window_index =>
  fresh_groups restored_at 0 (ri_window_groups input) ≫= fun _ =>
  op_get fl_active_group ≫= fun active =>
  op_lift (ok_or active (invalid_args ONE_GROUP)) ≫= fun active_group_index =>
  op_get (fun st =>
    let l := ri_landing_navigation input in
    (active_window_index, active_group_index,
     mkLanding (ln_active_group_id l ≫= fun id => fl_group_ids st !! id)
       (ln_active_window_id l ≫= fun id => fl_window_ids st !! id)
       (ln_active_pane_id l ≫= fun id => fl_pane_ids st !! id))).

(** [layout_from_restore_input_with_fresh_ids]: the built layout, with the
    factory of the session advanced. *)
Definition layout_from_restore_input_with_fresh_ids (input : SessionRestoreInput)
    : smethod (fresh_layout * (nat * nat * LandingNavigationState)) :=
  current_unix_seconds ≫= fun restored_at =>
  op_step (fun s =>
    let '(st, r) :=
      build_fresh_layout restored_at input (mkFresh (s_ids s) ∅ ∅ ∅ None None ∅ [] []) in
    (set_ids s (fl_ids st), (fun r => (st, r)) <$> r)).

(** The terminal of the layout owner, or the restored size. *)
Definition owner_terminal_size (s : Session) (restored : Size) : result Size :=
  let terminal :=
    s_layout_owner_client_id s ≫= fun owner_id =>
    List.find (has_client_id owner_id) (s_clients s) ≫= c_terminal in
  default restored <$> terminal_size terminal.

Definition apply_layout_from_restore_input (input : SessionRestoreInput) : smethod unit :=
  op_lift (validate_restored_geometry input) ≫= fun _ =>
  op_get id ≫= fun s =>
  op_lift (owner_terminal_size s (ri_authoritative_size input)) ≫= fun authoritative_size =>
  layout_from_restore_input_with_fresh_ids input
    ≫= fun '(st, (active_window_index, active_group_index, landing)) =>
  op_modify (fun s =>
    let s := set_authoritative_size s (ri_authoritative_size input) in
    let s := set_windows s (fl_windows st) in
    let s := set_window_groups s (fl_groups st) in
    let s := set_active_window_index s active_window_index in
    let s := set_last_active_window_index s None in
    let s := set_active_group_index s active_group_index in
    let s := set_last_active_group_index s None in
    let s := set_group_focus_history s [] in
    let s := set_pane_state_metadata s (fl_metadata st) in
    set_landing_navigation s landing) ≫= fun _ =>
  apply_authoritative_layout_size authoritative_size ≫= fun _ =>
  reconcile_views ≫= emit.

(** The layout is built on a clone, which replaces the session only on success;
    the clock has been read in either case. *)
Definition replace_layout_from_restore_input (input : SessionRestoreInput) : smethod unit := fun s =>
  match apply_layout_from_restore_input input s with
  | (candidate, Ok _) => (candidate, Ok tt)
  | (candidate, Err e) => (set_clock_reads s (s_clock_reads candidate), Err e)
  | (candidate, Panic) => (set_clock_reads s (s_clock_reads candidate), Panic)
  end.
End Restore.
