(* ===== verification/SessionInv.v ===== *)
(** * Invariants of a session

    A small program logic for methods that mutate in place ([wp]: the method
    does not panic, and its states after success and after an error satisfy
    the given assertions), the facts about windows the session relies on, and
    the invariant [session_ok]: the topology is well formed, every window is,
    focus points at live objects, the identity factory is ahead of every
    identity, the clients satisfy the membership rules, and every attached
    primary's view names live objects. *)

From S2P Require Import Prelude RustStr Ids LayoutTypes Sizing LayoutTree Tiling TreeEdits WindowOps PolicyLayouts WindowInv WindowSteps WindowMoves WindowNav WindowRestore WindowCommands.
From S2P Require Import SessionTypes Reconcile SessionTargets SessionClients SessionWindows SessionMoves.
From Stdlib Require Import Ascii.
Local Open Scope Z_scope.

(** ** Weakest preconditions *)

Definition wp {S A} (m : op MuxError S A) (s : S) (Q : S -> A -> Prop) (R : S -> Prop) : Prop :=
  match m s with
  | (s', Ok a) => Q s' a
  | (s', Err _) => R s'
  | (_, Panic) => False
  end.

Section WP.
Context {S : Type}.
Implicit Types (s : S) (R : S -> Prop).

Lemma wp_bind {A B} (m : op MuxError S A) (f : A -> op MuxError S B) s Q R :
  wp m s (fun s' a => wp (f a) s' Q R) R -> wp (m ≫= f) s Q R.
Proof.
  unfold wp, mbind, op_bind. destruct (m s) as [s' [a|e|]]; [|done|done].
  by destruct (f a s') as [s'' []].
Qed.

Lemma wp_ret {A} (a : A) s Q R : Q s a -> wp (mret a) s Q R.
Proof. done. Qed.
Lemma wp_get {A} (f : S -> A) s Q R : Q s (f s) -> wp (op_get f) s Q R.
Proof. done. Qed.
Lemma wp_modify (f : S -> S) s (Q : S -> unit -> Prop) R : Q (f s) tt -> wp (op_modify f) s Q R.
Proof. done. Qed.
Lemma wp_lift {A} (r : result A) s Q R :
  no_panic r -> (forall a, r = Ok a -> Q s a) -> (forall e, r = Err e -> R s) -> wp (op_lift r) s Q R.
Proof. unfold wp, op_lift. destruct r; [auto|eauto|done]. Qed.

Lemma wp_mono {A} (m : op MuxError S A) s (Q Q' : S -> A -> Prop) (R R' : S -> Prop) :
  wp m s Q R -> (forall s' a, Q s' a -> Q' s' a) -> (forall s', R s' -> R' s') -> wp m s Q' R'.
Proof. unfold wp. destruct (m s) as [s' []]; auto. Qed.
End WP.

(** Strips the reads and checks at the head of a method. *)
Ltac wp_next :=
  lazymatch goal with
  | |- wp (mbind _ _) _ _ _ => apply wp_bind
  | |- wp (op_get _) _ _ _ => apply wp_get; cbv [id]
  | |- wp (mret _) _ _ _ => apply wp_ret
  | |- wp (op_modify _) _ _ _ => apply wp_modify
  | |- wp (push_window _) _ _ _ => apply wp_modify
  | |- wp (push_group _) _ _ _ => apply wp_modify
  | |- wp (add_to_group _ _) _ _ _ => apply wp_modify
  | |- wp (push_client _) _ _ _ => apply wp_modify
  | |- wp reconcile_views _ _ _ => apply wp_modify
  end.
Ltac wps := repeat (wp_next; cbv beta); cbv beta.

(** ** Identities *)

Definition floor (prefix : ascii) (next : N) (id : StableId) : Prop :=
  forall n, StableIdOps.numeric_suffix id = Some (String prefix EmptyString, n) ->
            (IdFactoryOps.saturating_succ n <= next)%N.

Lemma floor_mono p n m id : (n <= m)%N -> floor p n id -> floor p m id.
Proof. intros H Hf k Hk. etrans; [by apply Hf|done]. Qed.

Lemma floor_fresh p n ids :
  (N_of_ascii p < 128)%N -> (n < u64_max)%N -> Forall (floor p n) ids -> StableIdOps.new p n ∉ ids.
Proof.
  intros Hp Hn Hall Hin. rewrite Forall_forall in Hall. specialize (Hall _ Hin n).
  rewrite numeric_suffix_new in Hall; [|done|by apply N.lt_le_incl].
  specialize (Hall eq_refl). unfold IdFactoryOps.saturating_succ in Hall.
  revert Hall Hn. generalize u64_max. lia.
Qed.

Lemma floor_new p n : (N_of_ascii p < 128)%N -> (n < u64_max)%N ->
  floor p (IdFactoryOps.wrapping_succ n) (StableIdOps.new p n).
Proof.
  intros Hp Hn k. rewrite numeric_suffix_new; [|done|by apply N.lt_le_incl]. intros [= <-].
  rewrite wrapping_succ_small by done. unfold IdFactoryOps.saturating_succ.
  revert Hn. generalize u64_max. lia.
Qed.

Lemma wrapping_succ_ge n : (n < u64_max)%N -> (n <= IdFactoryOps.wrapping_succ n)%N.
Proof. intros Hn. rewrite wrapping_succ_small by done. lia. Qed.

(** Every counter can still be advanced. *)
Record room (f : IdFactory) : Prop := {
  rm_window : (Ids.next_window f < u64_max)%N;
  rm_group : (next_window_group f < u64_max)%N;
  rm_pane : (next_pane f < u64_max)%N;
  rm_client : (next_client f < u64_max)%N }.

(** ** Windows *)

Definition key (w : Window) : WindowId * nat := (w_id w, w_index w).

(** Methods that keep the identity and the index of their window. *)
Definition keyed {A} (m : method A) : Prop := forall w, key (m w).1 = key w.

Create HintDb keys discriminated.

Lemma keyed_bind {A B} (m : method A) (f : A -> method B) :
  keyed m -> (forall a, keyed (f a)) -> keyed (m ≫= f).
Proof.
  intros Hm Hf w. unfold mbind, op_bind. pose proof (Hm w) as H.
  destruct (m w) as [w' [a|e|]]; simpl in *; [|done|done]. by rewrite (Hf a w').
Qed.
Lemma keyed_get {A} (f : Window -> A) : keyed (op_get f).
Proof. done. Qed.
Lemma keyed_lift {A} (r : result A) : keyed (op_lift r).
Proof. done. Qed.
Lemma keyed_ret {A} (a : A) : keyed (mret a).
Proof. done. Qed.
Lemma keyed_modify f : (forall w, key (f w) = key w) -> keyed (op_modify f).
Proof. done. Qed.
Lemma keyed_step {A} (m : method A) : keyed m -> keyed (op_step m).
Proof. done. Qed.
Lemma keyed_if {A} (b : bool) (m n : method A) : keyed m -> keyed n -> keyed (if b then m else n).
Proof. by destruct b. Qed.

#[export] Hint Resolve keyed_bind keyed_get keyed_lift keyed_ret keyed_modify keyed_step keyed_if : keys.

(** Case analysis on a method written as a function of the window. *)
Ltac keyed_cases := intros ?; repeat (simpl; case_match; subst; simpl); try done.

Lemma set_active_no_history_key i w : key (Win.set_active_pane_index_without_history i w) = key w.
Proof. done. Qed.
Lemma set_active_key i w : key (Win.set_active_pane_index i w) = key w.
Proof. unfold Win.set_active_pane_index. by repeat case_match. Qed.
Lemma refresh_key w : key (Win.refresh_pane_geometries w) = key w.
Proof. done. Qed.
Lemma retain_zoom_key w : key (Win.retain_valid_zoom w) = key w.
Proof. unfold Win.retain_valid_zoom. by repeat case_match. Qed.
Lemma rotate_key b w : key (Win.rotate_panes b w) = key w.
Proof. unfold Win.rotate_panes. case_match; [done|]. by rewrite refresh_key, retain_zoom_key. Qed.
Lemma apply_navigation_key a l h z w : key (Win.apply_client_navigation_state a l h z w) = key w.
Proof. unfold Win.apply_client_navigation_state. by case_match. Qed.

Lemma grid_keyed : keyed Win.apply_even_grid_layout.
Proof. intros w. unfold Win.apply_even_grid_layout. by repeat (case_match; simpl). Qed.
Lemma policy_keyed : keyed Win.apply_layout_policy.
Proof.
  intros w. unfold Win.apply_layout_policy. pose proof (grid_keyed w) as H.
  repeat (case_match; simpl in *; try done).
Qed.
Lemma rebalance_keyed : keyed Win.rebalance_after_pane_count_change.
Proof. intros w. unfold Win.rebalance_after_pane_count_change. case_match; [apply policy_keyed|done]. Qed.
Lemma reflow_keyed i size : keyed (Win.reflow_after_pane_removal i size).
Proof.
  intros w. unfold Win.reflow_after_pane_removal. repeat (case_match; simpl in *; try done).
  all: try apply rebalance_keyed; try apply policy_keyed.
Qed.
#[export] Hint Resolve grid_keyed policy_keyed rebalance_keyed reflow_keyed : keys.

Lemma set_policy_keyed p : keyed (Win.set_layout_policy p).
Proof. unfold Win.set_layout_policy. eauto with keys. Qed.
Lemma select_keyed t : keyed (Win.select_pane t).
Proof. intros w. unfold Win.select_pane. case_match; simpl; [apply set_active_key|done|done]. Qed.
Lemma select_last_keyed : keyed Win.select_last_pane.
Proof.
  intros w. unfold Win.select_last_pane. repeat case_match; simpl; [apply set_active_key|done|done].
Qed.
Lemma adjacent_keyed d : keyed (Nav.select_adjacent_pane d).
Proof.
  intros w. unfold Nav.select_adjacent_pane. repeat case_match; simpl; try done. apply set_active_key.
Qed.
Lemma toggle_keyed : keyed Win.toggle_zoom_active.
Proof. intros w. unfold Win.toggle_zoom_active. by repeat case_match. Qed.
Lemma set_zoom_keyed p z : keyed (Win.set_pane_zoom p z).
Proof. intros w. unfold Win.set_pane_zoom. by repeat case_match. Qed.
Lemma resize_at_keyed i size : keyed (Win.resize_pane_at_index i size).
Proof.
  unfold Win.resize_pane_at_index. apply keyed_bind; [auto with keys|]. intros _ w.
  unfold op_step. by case_match.
Qed.
Lemma resize_pane_keyed t size : keyed (Win.resize_pane t size).
Proof. unfold Win.resize_pane. eauto using resize_at_keyed with keys. Qed.
Lemma resize_spec_keyed t spec : keyed (Win.resize_pane_with_spec t spec).
Proof.
  unfold Win.resize_pane_with_spec. apply keyed_bind; [auto with keys|]. intros w.
  apply keyed_bind; [auto with keys|]. intros i. apply keyed_bind; [auto with keys|].
  intros size. apply resize_at_keyed.
Qed.
Lemma replace_keyed gs : keyed (Restore.replace_pane_geometries gs).
Proof.
  intros w. unfold Restore.replace_pane_geometries. case_match; [|done|done].
  repeat (case_match; simpl; try done).
Qed.
Lemma swap_indices_keyed i j : keyed (Win.swap_pane_indices i j).
Proof.
  intros w. unfold Win.swap_pane_indices. repeat (case_match; simpl; try done).
  by rewrite retain_zoom_key.
Qed.
Lemma swap_keyed a b : keyed (Win.swap_panes a b).
Proof.
  unfold Win.swap_panes. apply keyed_bind; [auto with keys|]. intros w.
  apply keyed_bind; [auto with keys|]. intros i. apply keyed_bind; [auto with keys|].
  intros j. apply swap_indices_keyed.
Qed.
Lemma resize_window_keyed size : keyed (Win.resize_window size).
Proof.
  unfold Win.resize_window. apply keyed_bind; [auto with keys|]. intros w.
  apply keyed_bind; [auto with keys|]. intros _. apply keyed_bind; [by auto with keys|].
  intros _ w'. unfold op_step. case_match; [apply policy_keyed|done].
Qed.

Lemma most_recent_key w : key (Win.most_recent_surviving_pane_index w).1 = key w.
Proof. done. Qed.

Lemma take_at_keyed i : keyed (Win.take_pane_at i).
Proof.
  intros w. unfold Win.take_pane_at. case_match; [|done].
  case_match; [done|].
  match goal with |- context [let '(_, _) := ?x in _] => assert (Hk : key x.1 = key w) end.
  { by case_match. }
  destruct (if p_active _ then _ else _) as [w' next]. simpl in Hk.
  rewrite (keyed_bind _ _ (reflow_keyed i _)); [by rewrite <- Hk|].
  intros _. apply keyed_bind; [|by auto with keys]. apply keyed_modify. intros x.
  by rewrite retain_zoom_key.
Qed.

Lemma kill_keyed t : keyed (Win.kill_pane t).
Proof.
  unfold Win.kill_pane. apply keyed_bind; [auto with keys|]. intros w.
  apply keyed_bind; [auto with keys|]. intros i.
  apply keyed_bind; [by destruct (_ =? 1)%nat; auto with keys|]. intros _.
  apply keyed_bind; [auto with keys|]. intros a. apply keyed_bind; [auto with keys|]. intros r.
  apply keyed_bind; [by auto with keys|]. intros _.
  apply keyed_bind; [intros x; unfold op_step; by destruct (p_active r)|]. intros n.
  apply keyed_bind; [by auto with keys|]. intros _.
  apply keyed_bind; [apply reflow_keyed|]. intros _.
  apply keyed_bind; [apply keyed_modify; intros x; by rewrite retain_zoom_key|]. by auto with keys.
Qed.

Lemma insert_split_keyed t e p d : keyed (Win.insert_split_pane t e p d).
Proof. intros w. unfold Win.insert_split_pane. by destruct (Node.split_pane _ _ _ _). Qed.

Lemma insert_existing_keyed t p d sel : keyed (Win.insert_existing_after t p d sel).
Proof.
  unfold Win.insert_existing_after. apply keyed_bind; [auto with keys|]. intros w.
  apply keyed_bind; [auto with keys|]. intros i.
  apply keyed_bind; [auto with keys|]. intros a. apply keyed_bind; [auto with keys|]. intros tp.
  apply keyed_bind; [auto with keys|]. intros [e c].
  apply keyed_bind; [apply insert_split_keyed|]. intros _.
  apply keyed_bind; [apply keyed_modify; intros x; repeat case_match; try done; apply set_active_key|].
  intros _. apply keyed_bind; [apply rebalance_keyed|]. intros _. eauto with keys.
Qed.

Lemma split_key d req sel ids w :
  key ((Win.split_active_with_requested_size d req sel (ids, w)).1).2 = key w.
Proof.
  unfold Win.split_active_with_requested_size. op_run.
  destruct (index_or_panic _ _) as [active| |]; simpl; try done.
  destruct (match req with Some _ => _ | None => _ end) as [[e c]| |]; simpl; try done.
  unfold Win.alloc, Win.on_window. op_run. destruct (IdFactoryOps.pane ids) as [id ids']. op_run. simpl.
  match goal with |- context [Win.insert_split_pane ?a ?b ?c ?d w] =>
    pose proof (insert_split_keyed a b c d w) as H1;
    destruct (Win.insert_split_pane a b c d w) as [w1 [u| |]] end; simpl in *; try done.
  match goal with |- context [Win.rebalance_after_pane_count_change ?x] =>
    pose proof (rebalance_keyed x) as H2;
    destruct (Win.rebalance_after_pane_count_change x) as [w2 [u'| |]] end; simpl in *;
    rewrite H2; (destruct sel; [rewrite set_active_key|]); done.
Qed.

(** ** Window methods that keep the panes *)

(** What the session needs of a method: it does not panic, keeps the window
    well formed, and changes neither its identity nor its panes. *)
Definition quiet {A} (m : method A) (ids : IdFactory) (w : Window) : Prop :=
  no_panic (m w).2 /\ state_ok (ids, (m w).1) /\ key (m w).1 = key w
  /\ ids_of (w_panes (m w).1) ≡ₚ ids_of (w_panes w).

Lemma quiet_intro {A} (m : method A) ids w :
  safe_method m ids w -> keyed m -> ids_of (w_panes (m w).1) ≡ₚ ids_of (w_panes w) -> quiet m ids w.
Proof.
  unfold safe_method, quiet. intros Hs Hk Hp. specialize (Hk w). destruct (m w) as [w' r].
  destruct Hs as [? ?]. done.
Qed.

(** A method followed by one that only reads. *)
Lemma quiet_then {A B} (m : method A) (f : A -> Window -> result B) ids w :
  quiet m ids w -> (forall a w', m w = (w', Ok a) -> no_panic (f a w')) ->
  quiet (m ≫= fun a => op_get id ≫= fun w => op_lift (f a w)) ids w.
Proof.
  unfold quiet. op_run. cbv [id]. intros (Hn & Hs & Hk & Hp) Hf.
  destruct (m w) as [w' [a|e|]]; simpl in *; [|done|done].
  split; [by apply Hf|done].
Qed.

Section Quiet.
Context (ids : IdFactory) (w : Window) (Hs : state_ok (ids, w)).
Local Abbreviation Hok := (proj1 Hs).

Lemma set_active_ids i : ids_of (w_panes (Win.set_active_pane_index i w)) = ids_of (w_panes w).
Proof using. by destruct (set_active_same i w) as (-> & _). Qed.

Lemma quiet_select t : quiet (Win.select_pane t) ids w.
Proof using Hs.
  apply quiet_intro; [by apply safe_select|apply select_keyed|].
  unfold Win.select_pane. case_match; cbn [fst]; [by rewrite set_active_ids|done|done].
Qed.

Lemma quiet_select_last : quiet Win.select_last_pane ids w.
Proof using Hs.
  apply quiet_intro; [by apply safe_select_last|apply select_last_keyed|].
  unfold Win.select_last_pane. repeat case_match; cbn [fst]; try done.
  by rewrite set_active_ids.
Qed.

Lemma quiet_adjacent d : quiet (Nav.select_adjacent_pane d) ids w.
Proof using Hs.
  apply quiet_intro; [by apply safe_adjacent|apply adjacent_keyed|]. destruct Hs as (Hok' & Hix & _).
  destruct (select_adjacent_ok w d Hok' Hix) as (w' & -> & [->|(i & _ & ->)]); cbn [fst]; [done|].
  by rewrite set_active_ids.
Qed.

Lemma quiet_toggle : quiet Win.toggle_zoom_active ids w.
Proof using Hs.
  apply quiet_intro; [by apply safe_toggle|apply toggle_keyed|].
  unfold Win.toggle_zoom_active. by repeat case_match.
Qed.

Lemma quiet_set_zoom p z : quiet (Win.set_pane_zoom p z) ids w.
Proof using Hs.
  apply quiet_intro; [by apply safe_set_zoom|apply set_zoom_keyed|].
  unfold Win.set_pane_zoom. by repeat case_match.
Qed.

Lemma quiet_set_policy p : quiet (Win.set_layout_policy p) ids w.
Proof using Hs.
  apply quiet_intro; [by apply safe_set_policy|apply set_policy_keyed|].
  destruct (set_layout_policy_spec w p Hok) as (w' & -> & _ & _ & _ & Hi & _). cbn [fst]. by rewrite Hi.
Qed.

Lemma quiet_cycle : quiet Win.cycle_layout ids w.
Proof using Hs.
  pose proof (quiet_set_policy (LayoutPolicy_next (w_layout_policy w))) as H.
  unfold quiet. by rewrite cycle_layout_eq.
Qed.

Lemma quiet_rebalance : quiet (op_get w_layout_policy ≫= Win.set_layout_policy) ids w.
Proof using Hs. apply quiet_set_policy. Qed.

Lemma quiet_resize_at i size : (i < length (w_panes w))%nat -> u16_size size ->
  quiet (Win.resize_pane_at_index i size) ids w.
Proof using Hs.
  intros Hi Hu. apply quiet_intro; [by apply safe_resize_at|apply resize_at_keyed|].
  pose proof (resize_pane_at_index_spec w i size Hok Hi Hu) as H.
  destruct (Win.resize_pane_at_index i size w) as [w' [p|e|]]; cbn [fst]; [|by subst|done].
  by destruct H as (_ & _ & _ & _ & _ & _ & -> & _).
Qed.

Lemma quiet_resize_pane t size : u16_size size -> quiet (Win.resize_pane t size) ids w.
Proof using Hs.
  intros Hu. unfold quiet, Win.resize_pane. op_run. cbv [id].
  pose proof (no_panic_target_or_active w t).
  destruct (Win.target_or_active w t) as [i|e|] eqn:Hi; [|by simpl|done].
  apply (quiet_resize_at i size); [eapply target_or_active_Ok; [apply Hs|exact Hi]|done].
Qed.

Lemma quiet_resize_spec t spec : spec_u16 spec -> quiet (Win.resize_pane_with_spec t spec) ids w.
Proof using Hs.
  intros Hu. apply quiet_intro; [by apply safe_resize_spec|apply resize_spec_keyed|].
  pose proof (safe_resize_spec ids w Hs t spec Hu) as Hsafe.
  unfold safe_method, Win.resize_pane_with_spec in *. revert Hsafe. op_run. cbv [id].
  destruct (Win.pane_index w t) as [i|e|] eqn:Hi; [|done|done].
  destruct (Win.size_from_spec w i spec) as [size|e|] eqn:Hz; [|done|done]. intros _.
  unfold Win.resize_pane_at_index. op_run. destruct (validate_pane_size size); try done.
  case_match; [|done]. simpl. unfold ids_of. rewrite list_fmap_insert. simpl.
  by rewrite list_insert_id by (rewrite list_lookup_fmap; by simplify_option_eq).
Qed.

Lemma quiet_replace gs : Forall geometry_u16 gs -> quiet (Restore.replace_pane_geometries gs) ids w.
Proof using Hs.
  intros Hu. apply quiet_intro; [by apply safe_replace|apply replace_keyed|].
  pose proof (replace_pane_geometries_spec w gs Hok Hu) as H.
  destruct (Restore.replace_pane_geometries gs w) as [w' [[]|e|]]; cbn [fst]; [|by subst|done].
  by destruct H as (_ & _ & -> & _).
Qed.

Lemma quiet_resize_window size : u16_size size -> quiet (Win.resize_window size) ids w.
Proof using Hs.
  intros Hu. apply quiet_intro; [by apply safe_resize_window|apply resize_window_keyed|].
  pose proof (resize_window_spec w size Hok Hu) as H.
  destruct (Win.resize_window size w) as [w' [[]|e|]]; cbn [fst]; [|by subst|done].
  by destruct H as (_ & _ & _ & _ & -> & _).
Qed.

Lemma quiet_swap a b : quiet (Win.swap_panes a b) ids w.
Proof using Hs.
  apply quiet_intro; [by apply safe_swap|apply swap_keyed|].
  unfold Win.swap_panes. op_run. cbv [id].
  destruct (Win.pane_index w a) as [i| |] eqn:Hi; try done.
  destruct (Win.pane_index w (Some b)) as [j| |] eqn:Hj; try done.
  apply pane_index_Ok in Hi; [|apply Hs]. apply pane_index_Ok in Hj; [|apply Hs].
  by destruct (swap_pane_indices_spec w i j Hok Hi Hj) as (w' & -> & _ & _ & _ & _ & _ & ? & _).
Qed.

Lemma quiet_rotate b : quiet (total (Win.rotate_panes b)) ids w.
Proof using Hs.
  destruct Hs as (Hok' & Hix & Ha). unfold quiet, total, op_modify. simpl.
  destruct (rotate_panes_spec w b Hok') as (Hok'' & Hsy & _ & Hids & _).
  assert (Hperm : ids_of (w_panes (Win.rotate_panes b w)) ≡ₚ ids_of (w_panes w)).
  { rewrite Hids. by destruct b; [rewrite rotate_right1_perm|rewrite rotate_left1_perm]. }
  split; [done|]. split; [|split; [apply rotate_key|done]].
  destruct Hsy as [->|Hsy]; [done|]. apply (good_synced ids w); try done. intros id. by rewrite Hperm.
Qed.

Lemma quiet_kept (f : Window -> Window) :
  layout_kept w (f w) -> w_pane_geometries (f w) = w_pane_geometries w -> key (f w) = key w ->
  quiet (total f) ids w.
Proof using Hs.
  intros Hk Hg Hkey. unfold quiet, total, op_modify. simpl. split; [done|].
  split; [by eapply safe_kept|]. split; [done|]. by destruct Hk as (_ & _ & _ & ->).
Qed.

Lemma quiet_name name src : quiet (total (fun w => set_name w name src)) ids w.
Proof using Hs. apply quiet_kept; [by apply rename_kept, Hs|done|done]. Qed.

(** An assignment to a field of one pane that the layout does not read. *)
Lemma quiet_pane (f : Pane -> Pane) j :
  (forall p, p_id (f p) = p_id p /\ p_index (f p) = p_index p /\ p_size (f p) = p_size p
             /\ p_active (f p) = p_active p) ->
  quiet (total (fun w => set_panes w (alter f j (w_panes w)))) ids w.
Proof using Hs.
  intros Hf. pose proof Hok as Hw.
  assert (Hids : ids_of (alter f j (w_panes w)) = ids_of (w_panes w)).
  { apply list_eq. intros i. unfold ids_of. rewrite !list_lookup_fmap, list_lookup_alter.
    case_decide; [|done]. subst. destruct (w_panes w !! i) as [p|]; simpl; [|done].
    by destruct (Hf p) as (-> & _). }
  assert (Hr : reslotted (w_panes w) (alter f j (w_panes w))).
  { split; [|apply length_alter]. intros i p'. rewrite list_lookup_alter.
    case_decide as Hij; [subst i|intros ->; by exists p'].
    destruct (w_panes w !! j) as [p|]; simpl; [|done]. intros [= <-]. exists p.
    by destruct (Hf p) as (_ & -> & -> & ->). }
  destruct (reslotted_ok w _ Hw Hr) as (H1 & H2 & H3); [by rewrite Hids|].
  apply quiet_kept; [|done|done]. split; [done|]. split; [done|]. by split.
Qed.
End Quiet.
