(* ===== verification/SessionOk.v ===== *)
(** * The session invariant

    [session_base]: topology, windows, identities, focus and clients;
    [session_ok]: moreover every attached primary's view and the landing focus
    name live objects.  The invariant only reads part of the session
    ([skeleton]), survives growth of the topology, and is established from
    [session_base] by one reconciliation pass. *)

From S2P Require Import Prelude RustStr Ids LayoutTypes LayoutTree WindowOps WindowInv WindowSteps WindowMoves WindowCommands.
From S2P Require Import SessionTypes Reconcile SessionTargets SessionClients SessionWindows SessionMoves SessionInv.
From Stdlib Require Import Ascii.
Local Open Scope Z_scope.

(** ** Views that survive growth *)

Record view_ok (t : NavigationTopology) (n : ClientNavigationState) : Prop := {
  vo_last : forall g, fc_last (nav_groups n) = Some g -> g ∈ t_group_ids t;
  vo_history : history_ok (t_group_ids t) (fc_history (nav_groups n));
  vo_windows : cursors_ok (t_group_windows t) (nav_windows_by_group n);
  vo_panes : cursors_ok (t_window_panes t) (nav_panes_by_window n);
  vo_zoom : forall w p, nav_zoomed_panes_by_window n !! w = Some p ->
              exists l, t_window_panes t !! w = Some l /\ p ∈ l;
  vo_chain : forall g, fc_active (nav_groups n) = Some g ->
               g ∈ t_group_ids t /\ is_Some (active_pane_of n) }.

Lemma navigation_view t n : navigation_ok t n -> view_ok t n.
Proof. intros [Hl Hh Hw Hp Hz Hc]. split; try done. intros g Hg. by rewrite Hg in Hc. Qed.

Definition landing_view (t : NavigationTopology) (l : LandingNavigationState) : Prop :=
  match ln_active_group_id l, ln_active_window_id l, ln_active_pane_id l with
  | Some g, Some w, Some p =>
      (exists ws, t_group_windows t !! g = Some ws /\ w ∈ ws)
      /\ (exists ps, t_window_panes t !! w = Some ps /\ p ∈ ps)
  | None, None, None => True
  | _, _, _ => False
  end.

Lemma landing_ok_view t l : topology_ok t -> landing_ok t l -> landing_view t l.
Proof.
  intros Ht. unfold landing_ok, landing_view. repeat case_match; try done.
  by rewrite (lo_owner _ _ _ (to_groups t Ht)), (lo_owner _ _ _ (to_windows t Ht)).
Qed.

(** Every group and window keeps its members. *)
Definition members_grow (m m' : gmap StableId (list StableId)) : Prop :=
  forall k l, m !! k = Some l -> exists l', m' !! k = Some l' /\ forall v, v ∈ l -> v ∈ l'.

Record grows (t t' : NavigationTopology) : Prop := {
  gr_ids : forall g, g ∈ t_group_ids t -> g ∈ t_group_ids t';
  gr_groups : members_grow (t_group_windows t) (t_group_windows t');
  gr_windows : members_grow (t_window_panes t) (t_window_panes t') }.

Lemma history_grow l l' h : (forall v, v ∈ l -> v ∈ l') -> history_ok l h -> history_ok l' h.
Proof. intros Hs [Hm ? ?]. split; auto. Qed.

Lemma cursor_grow l l' c : (forall v, v ∈ l -> v ∈ l') -> cursor_ok l c -> cursor_ok l' c.
Proof.
  intros Hs [(v & ? & ?) ? ?]. split; [by eauto|by eauto|by eapply history_grow].
Qed.

Lemma cursors_grow m m' cs : members_grow m m' -> cursors_ok m cs -> cursors_ok m' cs.
Proof.
  intros Hg Hc k c Hk. destruct (Hc k c Hk) as (l & Hl & Hok).
  destruct (Hg k l Hl) as (l' & ? & ?). exists l'. split; [done|]. by eapply cursor_grow.
Qed.

Lemma view_grow t t' n : grows t t' -> view_ok t n -> view_ok t' n.
Proof.
  intros [Hi Hg Hw] [Hl Hh Hcw Hcp Hz Hc]. split.
  - auto.
  - by eapply history_grow.
  - by eapply cursors_grow.
  - by eapply cursors_grow.
  - intros w p Hp. destruct (Hz w p Hp) as (l & Hl' & ?). destruct (Hw w l Hl') as (l' & ? & ?). eauto.
  - intros g Ha. destruct (Hc g Ha). split; [auto|done].
Qed.

Lemma landing_grow t t' l : grows t t' -> landing_view t l -> landing_view t' l.
Proof.
  intros [_ Hg Hw]. unfold landing_view. repeat case_match; try done.
  intros [(ws & Hws & ?) (ps & Hps & ?)].
  destruct (Hg _ _ Hws) as (ws' & ? & ?). destruct (Hw _ _ Hps) as (ps' & ? & ?). split; eauto.
Qed.

(** ** The state *)

Record focus_inv (s : Session) : Prop := {
  fi_groups : Forall (fun g => cursor_ok (wg_window_ids g) (group_cursor g)) (s_window_groups s);
  fi_history : history_ok (wg_id <$> s_window_groups s) (s_group_focus_history s);
  fi_empty : s_windows s = [] -> s_active_window_index s = 0%nat;
  fi_active : s_windows s <> [] -> exists g w,
    s_window_groups s !! s_active_group_index s = Some g
    /\ s_windows s !! s_active_window_index s = Some w
    /\ wg_active_window_id g = Some (w_id w) }.

(** Membership: identities are distinct, attached primaries are interactive, own
    a view and are at most sixteen; the layout owner is one of them, and there
    is one as long as a primary is attached; every observer attachment links an
    attached observer to an attached primary. *)
Record clients_inv (s : Session) : Prop := {
  ci_nodup : NoDup (c_id <$> s_clients s);
  ci_primary : Forall (fun c => is_primary c = true ->
                 c_interactive c = true /\ is_Some (c_navigation c)) (s_clients s);
  ci_count : (length (attached_primaries s) <= MAX_ATTACHED_PRIMARY_CLIENTS)%nat;
  ci_owner : match s_layout_owner_client_id s with
             | Some o => is_attached_primary s o = true
             | None => attached_primaries s = []
             end;
  ci_observers : Forall (fun o =>
      (exists c, c ∈ s_clients s /\ c_id c = ob_client_id o /\ c_role c = Observer
                 /\ c_state c = Attached)
      /\ is_attached_primary s (ob_view_source_client_id o) = true) (s_observer_attachments s);
  ci_attachments : NoDup (ob_client_id <$> s_observer_attachments s);
  ci_terminals : Forall (fun c => forall t, c_terminal c = Some t ->
      in_u16 (ct_columns t) /\ in_u16 (ct_rows t)) (s_clients s) }.

Record ids_inv (s : Session) : Prop := {
  ii_windows : Forall (floor "@" (Ids.next_window (s_ids s))) (w_id <$> s_windows s);
  ii_groups : Forall (floor "g" (next_window_group (s_ids s))) (wg_id <$> s_window_groups s);
  ii_clients : Forall (floor "c" (next_client (s_ids s))) (c_id <$> s_clients s) }.

Record session_base (s : Session) : Prop := {
  sb_topology : session_topology s;
  sb_windex : forall i w, s_windows s !! i = Some w -> w_index w = i;
  sb_gindex : forall i g, s_window_groups s !! i = Some g -> wg_index g = i;
  sb_windows : Forall (fun w => state_ok (s_ids s, w)) (s_windows s);
  sb_ids : ids_inv s;
  sb_size : valid_size (s_authoritative_size s);
  sb_focus : focus_inv s;
  sb_clients : clients_inv s }.

Definition views_ok (t : NavigationTopology) (cs : list Client) : Prop :=
  Forall (fun c => is_primary c = true -> forall n, c_navigation c = Some n -> view_ok t n) cs.

Record session_ok (s : Session) : Prop := {
  so_base : session_base s;
  so_views : views_ok (from_session s) (s_clients s);
  so_landing : landing_view (from_session s) (s_landing_navigation s) }.

(** ** The part of the session the invariant reads *)

Definition skeleton (s : Session) :=
  (s_ids s, s_windows s, s_window_groups s, s_active_group_index s, s_group_focus_history s,
   s_active_window_index s, s_clients s, s_observer_attachments s, s_landing_navigation s,
   s_layout_owner_client_id s, s_authoritative_size s).

Lemma base_frame s s' : skeleton s = skeleton s' -> session_base s -> session_base s'.
Proof.
  destruct s, s'. unfold skeleton. simpl. intros [= -> -> -> -> -> -> -> -> -> -> ->].
  intros [[] ? ? ? [] ? [] []]. repeat (split; try done).
Qed.

Lemma ok_frame s s' : skeleton s = skeleton s' -> session_ok s -> session_ok s'.
Proof.
  intros Hk [Hb Hv Hl]. pose proof (base_frame s s' Hk Hb) as Hb'.
  destruct s, s'. unfold skeleton in Hk. simpl in Hk. simplify_eq. by split.
Qed.

(** ** Topology of the tables *)

Lemma group_windows_lookup s k l : NoDup (wg_id <$> s_window_groups s) ->
  t_group_windows (from_session s) !! k = Some l <->
  exists g, g ∈ s_window_groups s /\ wg_id g = k /\ wg_window_ids g = l.
Proof. intros H. simpl. rewrite insert_all_lookup by done. rewrite lookup_empty. naive_solver. Qed.

Lemma window_panes_lookup s k l : NoDup (w_id <$> s_windows s) ->
  t_window_panes (from_session s) !! k = Some l <->
  exists w, w ∈ s_windows s /\ w_id w = k /\ pane_ids w = l.
Proof. intros H. simpl. rewrite insert_all_lookup by done. rewrite lookup_empty. naive_solver. Qed.

Lemma session_grows s s' :
  session_topology s -> session_topology s' ->
  (forall g, g ∈ s_window_groups s -> exists g', g' ∈ s_window_groups s' /\ wg_id g' = wg_id g
     /\ forall v, v ∈ wg_window_ids g -> v ∈ wg_window_ids g') ->
  (forall w, w ∈ s_windows s -> exists w', w' ∈ s_windows s' /\ w_id w' = w_id w
     /\ forall p, p ∈ pane_ids w -> p ∈ pane_ids w') ->
  grows (from_session s) (from_session s').
Proof.
  intros Ht Ht' Hg Hw. split.
  - intros g. simpl. rewrite !list_elem_of_fmap. intros (x & -> & Hx).
    destruct (Hg x Hx) as (g' & ? & <- & _). eauto.
  - intros k l (g & Hin & <- & <-)%group_windows_lookup; [|apply Ht].
    destruct (Hg g Hin) as (g' & ? & ? & ?). exists (wg_window_ids g'). split; [|done].
    apply group_windows_lookup; [apply Ht'|]. eauto.
  - intros k l (w & Hin & <- & <-)%window_panes_lookup; [|apply Ht].
    destruct (Hw w Hin) as (w' & ? & ? & ?). exists (pane_ids w'). split; [|done].
    apply window_panes_lookup; [apply Ht'|]. eauto.
Qed.

(** Growth carries the views over to a state with the same clients. *)
Lemma ok_grow s s' :
  session_ok s -> session_base s' -> s_clients s' = s_clients s ->
  s_landing_navigation s' = s_landing_navigation s -> grows (from_session s) (from_session s') ->
  session_ok s'.
Proof.
  intros [Hb Hv Hl] Hb' Hc Hln Hg. split; [done| |].
  - unfold views_ok in *. rewrite Hc. eapply Forall_impl; [exact Hv|]. simpl. intros c H Hp n Hn.
    eapply view_grow; eauto.
  - rewrite Hln. by eapply landing_grow.
Qed.

(** ** Reconciliation establishes the views *)

Section Pass.
Context (t : NavigationTopology) (Ht : topology_ok t) (l : LandingNavigationState).

Lemma reconcile_clients_spec cs :
  Forall2 (fun c c' => c' = c \/ exists n, c_navigation c = Some n /\ is_primary c = true
     /\ c' = client_set_navigation (Some (reconcile_navigation t l n).1) c) cs
    (reconcile_clients t l cs).1
  /\ Forall (fun c => is_primary c = true -> forall n, c_navigation c = Some n -> navigation_ok t n)
       (reconcile_clients t l cs).1.
Proof using Ht.
  induction cs as [|c cs [IH1 IH2]]; simpl; [by repeat constructor|].
  destruct (reconcile_clients t l cs) as [cs' aff]. simpl in *.
  change (bool_decide (c_role c = Primary) && bool_decide (c_state c = Attached)) with (is_primary c).
  destruct (is_primary c) eqn:Hp.
  - destruct (c_navigation c) as [n|] eqn:Hn; simpl.
    + destruct (reconcile_navigation t l n) as [n' ch] eqn:Hr. simpl.
      pose proof (reconcile_navigation_ok t Ht l n) as Hok. rewrite Hr in Hok.
      split; constructor; try done; [right; exists n; by rewrite Hr|].
      simpl. intros _ n0 [= <-]. done.
    + split; constructor; try done; [by left|]. rewrite Hn. done.
  - simpl. split; constructor; try done; [by left|]. by rewrite Hp.
Qed.
End Pass.

Lemma Forall2_fmap_eq {A B} (f : A -> B) (R : A -> A -> Prop) l k :
  (forall a b, R a b -> f b = f a) -> Forall2 R l k -> f <$> k = f <$> l.
Proof. intros HR. induction 1; simpl; [done|]. f_equal; auto. Qed.

(** Clients that differ in their views and times only. *)
Definition same_client (c c' : Client) : Prop :=
  c_id c' = c_id c /\ c_role c' = c_role c /\ c_state c' = c_state c
  /\ c_interactive c' = c_interactive c
  /\ (is_Some (c_navigation c) -> is_Some (c_navigation c'))
  /\ (forall t, c_terminal c' = Some t -> in_u16 (ct_columns t) /\ in_u16 (ct_rows t)).

Lemma is_primary_same c c' : same_client c c' -> is_primary c' = is_primary c.
Proof. intros (_ & Hr & Hs & _). unfold is_primary. by rewrite Hr, Hs. Qed.

Lemma is_interactive_primary_same c c' :
  same_client c c' -> is_interactive_primary c' = is_interactive_primary c.
Proof.
  intros H. unfold is_interactive_primary. rewrite (is_primary_same _ _ H).
  by destruct H as (_ & _ & _ & -> & _).
Qed.

Lemma attached_primary_same s s' id :
  Forall2 same_client (s_clients s) (s_clients s') ->
  is_attached_primary s' id = is_attached_primary s id.
Proof.
  unfold is_attached_primary. induction 1 as [|c c' cs cs' Hc _ IH]; simpl; [done|]. rewrite IH. f_equal.
  unfold has_client_id. rewrite (is_interactive_primary_same _ _ Hc). by destruct Hc as (-> & _).
Qed.

Lemma attached_primaries_same s s' :
  Forall2 same_client (s_clients s) (s_clients s') ->
  Forall2 same_client (attached_primaries s) (attached_primaries s').
Proof.
  unfold attached_primaries. induction 1 as [|c c' cs cs' Hc _ IH]; simpl; [done|].
  rewrite (is_interactive_primary_same _ _ Hc).
  destruct (is_interactive_primary c); [by constructor|done].
Qed.

Lemma clients_inv_same s s' :
  clients_inv s -> Forall2 same_client (s_clients s) (s_clients s') ->
  s_layout_owner_client_id s' = s_layout_owner_client_id s ->
  s_observer_attachments s' = s_observer_attachments s -> clients_inv s'.
Proof.
  intros [Hn Hp Hc Ho Hob Hon Ht] HF Hown Hobs.
  pose proof (attached_primaries_same s s' HF) as HA.
  assert (Hid : c_id <$> s_clients s' = c_id <$> s_clients s).
  { eapply Forall2_fmap_eq; [|exact HF]. by intros ? ? (? & _). }
  split.
  - by rewrite Hid.
  - clear -Hp HF. induction HF as [|c c' cs cs' Hcc _ IH]; [done|].
    apply Forall_cons in Hp as [Hp Hps]. constructor; [|auto].
    intros H. rewrite (is_primary_same _ _ Hcc) in H. destruct (Hp H).
    destruct Hcc as (_ & _ & _ & -> & ? & _). auto.
  - by rewrite <- (Forall2_length _ _ _ HA).
  - rewrite Hown. destruct (s_layout_owner_client_id s) as [o|].
    + by rewrite (attached_primary_same s s').
    + rewrite Ho in HA. by inversion HA.
  - rewrite Hobs. eapply Forall_impl; [exact Hob|]. simpl. intros o ((c & Hin & H1 & H2 & H3) & Hsrc).
    split; [|by rewrite (attached_primary_same s s')].
    apply list_elem_of_lookup in Hin as [i Hi].
    destruct (Forall2_lookup_l _ _ _ _ _ HF Hi) as (c' & Hi' & (E1 & E2 & E3 & _)).
    exists c'. split; [by eapply list_elem_of_lookup_2|]. by rewrite E1, E2, E3.
  - by rewrite Hobs.
  - apply Forall_lookup. intros i c' Hc'.
    destruct (Forall2_lookup_r _ _ _ _ _ HF Hc') as (c & _ & (_ & _ & _ & _ & _ & H)). done.
Qed.

Lemma same_client_refl s : clients_inv s -> Forall2 same_client (s_clients s) (s_clients s).
Proof.
  intros H. pose proof (ci_terminals s H) as Ht. induction Ht; constructor; [|done]. by repeat split; auto; apply H0.
Qed.

(** ** Changing the clients' views and times *)

Lemma base_clients s cs :
  session_base s -> Forall2 same_client (s_clients s) cs -> session_base (set_clients s cs).
Proof.
  intros [Ht Hw Hg Hws [Hi1 Hi2 Hi3] Hs Hf Hc] HF. destruct Ht, Hf.
  split; [by split|done|done|done| |done|by split|by eapply clients_inv_same].
  split; [done|done|]. simpl. erewrite Forall2_fmap_eq; [exact Hi3| |exact HF]. by intros ? ? (? & _).
Qed.

Lemma base_landing s l : session_base s -> session_base (set_landing_navigation s l).
Proof. intros [[] ? ? ? [] ? [] []]. repeat (split; try done). Qed.

Lemma reconcile_same_clients s : session_base s ->
  Forall2 same_client (s_clients s) (s_clients (reconcile_client_navigation s).1).
Proof.
  intros Hb. pose proof (from_session_ok s (sb_topology s Hb)) as Ht. unfold reconcile_client_navigation.
  set (l := reconcile_landing _ _).
  pose proof (reconcile_clients_spec _ Ht l (s_clients s)) as [HF _].
  destruct (reconcile_clients _ l (s_clients s)) as [cs aff]. simpl in *.
  pose proof (ci_terminals s (sb_clients s Hb)) as Hterm.
  revert Hterm. clear -HF. induction HF as [|c c' cs cs' Hc _ IH]; [by constructor|].
  intros [Hct Hcs]%Forall_cons. constructor; [|auto].
  destruct Hc as [->|(n & ? & ? & ->)]; repeat split; try done; try apply (Hct t H1);
    intros; by eapply Hct.
Qed.

Lemma reconcile_client_navigation_ok s :
  session_base s -> session_ok (reconcile_client_navigation s).1.
Proof.
  intros Hb. pose proof (from_session_ok s (sb_topology s Hb)) as Ht.
  pose proof (reconcile_same_clients s Hb) as HF. revert HF.
  unfold reconcile_client_navigation. set (t := from_session s) in *.
  set (l := reconcile_landing t (s_landing_navigation s)).
  pose proof (reconcile_clients_spec t Ht l (s_clients s)) as [_ Hn].
  destruct (reconcile_clients t l (s_clients s)) as [cs aff]. simpl in *. intros HF.
  split; simpl.
  - apply base_clients; [by apply base_landing|done].
  - eapply Forall_impl; [exact Hn|]. simpl. intros c Hc Hp n Hcn. apply navigation_view. by apply Hc.
  - apply (landing_ok_view t); [done|]. by apply reconcile_landing_ok.
Qed.

(** ** Changing the windows *)

(** The same windows, possibly with their panes reordered. *)
Definition same_window (ids : IdFactory) (w w' : Window) : Prop :=
  key w' = key w /\ ids_of (w_panes w') ≡ₚ ids_of (w_panes w) /\ state_ok (ids, w').

Lemma Forall2_bind_perm (R : Window -> Window -> Prop) ws ws' :
  (forall w w', R w w' -> pane_ids w' ≡ₚ pane_ids w) -> Forall2 R ws ws' ->
  ws' ≫= pane_ids ≡ₚ ws ≫= pane_ids.
Proof. intros HR. induction 1 as [|w w' ws ws' H _ IH]; simpl; [done|]. by rewrite (HR _ _ H), IH. Qed.

Lemma topology_windows s ws ids :
  session_topology s -> Forall2 (same_window ids) (s_windows s) ws ->
  session_topology (set_windows s ws).
Proof.
  intros [Hg Hw Hp Hgn Hwn Hpn] HF.
  assert (Hid : w_id <$> ws = w_id <$> s_windows s).
  { eapply Forall2_fmap_eq; [|exact HF]. intros ? ? ([= ?] & _). done. }
  split; simpl; try done; [by rewrite Hid|by rewrite Hid| |].
  - apply Forall_lookup. intros i w Hi. destruct (Forall2_lookup_r _ _ _ _ _ HF Hi) as (w0 & Hi0 & _ & Hpp & _).
    rewrite Forall_lookup in Hwn. specialize (Hwn _ _ Hi0). intros E. apply Hwn.
    unfold pane_ids in *. unfold ids_of in Hpp. rewrite E in Hpp. by apply Permutation_nil_l in Hpp.
  - rewrite (Forall2_bind_perm (same_window ids)); [done| |exact HF]. by intros ? ? (_ & ? & _).
Qed.

Lemma base_windows s ws :
  session_base s -> Forall2 (same_window (s_ids s)) (s_windows s) ws -> session_base (set_windows s ws).
Proof.
  intros [Ht Hw Hg Hws [Hi1 Hi2 Hi3] Hs [Hf1 Hf2 Hf0 Hf3] Hc] HF.
  assert (Hid : w_id <$> ws = w_id <$> s_windows s).
  { eapply Forall2_fmap_eq; [|exact HF]. intros ? ? ([= ?] & _). done. }
  split; simpl; try done.
  - by eapply topology_windows.
  - intros i w Hi. destruct (Forall2_lookup_r _ _ _ _ _ HF Hi) as (w0 & Hi0 & [= _ ->] & _). auto.
  - apply Forall_lookup. intros i w Hi.
    destruct (Forall2_lookup_r _ _ _ _ _ HF Hi) as (w0 & Hi0 & _ & _ & ?). done.
  - split; simpl; [by rewrite Hid|done|done].
  - split; simpl; [done|done| |].
    { intros E. apply Hf0. apply (f_equal length) in E. rewrite <- (Forall2_length _ _ _ HF) in E.
      by apply nil_length_inv. }
    intros Hne. destruct Hf3 as (g & w & ? & Hw0 & ?).
    { intros E. rewrite E in HF. inversion HF. by subst. }
    destruct (Forall2_lookup_l _ _ _ _ _ HF Hw0) as (w' & ? & [= E _] & _).
    exists g, w'. by rewrite E.
  - by destruct Hc.
Qed.

Lemma windows_grow s ws :
  session_base s -> Forall2 (same_window (s_ids s)) (s_windows s) ws ->
  grows (from_session s) (from_session (set_windows s ws)).
Proof.
  intros Hb HF. apply session_grows; [apply Hb|by apply (base_windows s ws)| |].
  - simpl. eauto.
  - simpl. intros w [i Hi]%list_elem_of_lookup.
    destruct (Forall2_lookup_l _ _ _ _ _ HF Hi) as (w' & Hi' & [= E _] & Hp & _).
    exists w'. split; [by eapply list_elem_of_lookup_2|]. split; [done|].
    intros p. change (p ∈ ids_of (w_panes w) -> p ∈ ids_of (w_panes w')). by rewrite Hp.
Qed.

Lemma ok_windows s ws :
  session_ok s -> Forall2 (same_window (s_ids s)) (s_windows s) ws -> session_ok (set_windows s ws).
Proof.
  intros Hs HF. apply (ok_grow s); try done; [apply base_windows; [apply Hs|done]|].
  apply windows_grow; [apply Hs|done].
Qed.

Lemma grows_refl t : grows t t.
Proof. split; [done|by intros k l ?; exists l|by intros k l ?; exists l]. Qed.

Lemma same_window_refl ids w : state_ok (ids, w) -> same_window ids w w.
Proof. done. Qed.

Lemma Forall2_insert_same {A} (R : A -> A -> Prop) l i x y :
  l !! i = Some x -> R x y -> Forall (fun a => R a a) l -> Forall2 R l (<[i := y]> l).
Proof.
  intros Hi Hxy Hl. apply Forall2_same_length_lookup. split; [by rewrite length_insert|].
  intros j a b Ha Hb. rewrite list_lookup_insert in Hb. case_decide as E.
  - destruct E as [-> _]. by simplify_eq.
  - rewrite Forall_lookup in Hl. simplify_eq. eauto.
Qed.

Lemma at_window_quiet {A} (m : method A) i w s :
  session_ok s -> s_windows s !! i = Some w -> quiet m (s_ids s) w ->
  wp (at_window i m) s (fun s' _ => session_ok s' /\ s_clients s' = s_clients s) session_ok.
Proof.
  intros Hs Hi (Hn & Hok & Hk & Hp). unfold wp, at_window. rewrite Hi.
  assert (HF : Forall2 (same_window (s_ids s)) (s_windows s) (<[i := (m w).1]> (s_windows s))).
  { eapply Forall2_insert_same; [exact Hi|done|].
    eapply Forall_impl; [apply (sb_windows s (so_base s Hs))|]. intros x Hx. by apply same_window_refl. }
  pose proof (ok_windows s _ Hs HF) as H.
  destruct (m w) as [w' [a|e|]]; simpl in *; [|done|done]. split; [done|done].
Qed.

Lemma windows_state s i w : session_base s -> s_windows s !! i = Some w -> state_ok (s_ids s, w).
Proof. intros Hb Hi. exact (Forall_lookup_1 _ _ _ _ (sb_windows s Hb) Hi). Qed.

(** ** Events and clock *)

Section Events.
Context `{Clock}.

Lemma wp_clock s Q R : Q (set_clock_reads s (S (s_clock_reads s))) (clock_at (s_clock_reads s)) ->
  wp current_unix_seconds s Q R.
Proof. done. Qed.

Lemma wp_record_event s Q R :
  (forall s' id, skeleton s' = skeleton s -> Q s' id) -> wp record_event s Q R.
Proof. intros HQ. unfold record_event. wps. apply wp_clock. wps. by apply HQ. Qed.

Lemma wp_emit {A} (a : A) s (Q : Session -> A -> Prop) R :
  (forall s', skeleton s' = skeleton s -> Q s' a) -> wp (emit a) s Q R.
Proof. intros HQ. unfold emit. apply wp_bind, wp_record_event. intros s' id Hk. wps. by apply HQ. Qed.

(** A method that maintains the invariant. *)
Definition maintains {A} (m : smethod A) (s : Session) : Prop :=
  wp m s (fun s' _ => session_ok s') session_ok.

Lemma maintains_emit {A} (a : A) s : session_ok s -> maintains (emit a) s.
Proof. intros Hs. apply wp_emit. intros s' Hk. by eapply ok_frame. Qed.

Lemma maintains_bind {A B} (m : smethod A) (f : A -> smethod B) s :
  maintains m s -> (forall a s', session_ok s' -> maintains (f a) s') -> maintains (m ≫= f) s.
Proof. intros Hm Hf. apply wp_bind. eapply wp_mono; [exact Hm|simpl; intros; by apply Hf|done]. Qed.

Lemma maintains_reconcile s : session_base s -> maintains reconcile_views s.
Proof. intros Hb. apply wp_modify. by apply reconcile_client_navigation_ok. Qed.

Lemma require_primary_no_panic s c : no_panic (require_primary s c).
Proof. unfold require_primary. by case_match. Qed.

Lemma require_primary_Ok s c : require_primary s c = Ok tt <-> is_attached_primary s c = true.
Proof. unfold require_primary. by destruct (is_attached_primary s c). Qed.

Lemma maintains_authorized {A} c (k : smethod A) s :
  session_ok s -> (is_attached_primary s c = true -> maintains k s) -> maintains (authorized c k) s.
Proof.
  intros Hs Hk. unfold maintains, authorized. wps. apply wp_lift; [apply require_primary_no_panic| |done].
  intros [] ?%require_primary_Ok. by apply Hk.
Qed.
End Events.
