(* ===== verification/SessionFocus.v ===== *)
(** * Focus: projection, capture and selection

    Projecting a valid view into the focus fields keeps the invariant, and
    what is captured back is again a valid view.  Selecting a window or a
    group keeps the active window inside the active group. *)

From S2P Require Import Prelude RustStr Ids LayoutTypes LayoutTree WindowOps WindowInv WindowSteps WindowMoves WindowCommands.
From S2P Require Import SessionTypes Reconcile SessionTargets SessionClients SessionWindows SessionMoves SessionInv SessionOk.
Local Open Scope Z_scope.

(** ** Lookup by identity *)

Lemma position_unique {A} (f : A -> StableId) l i x :
  NoDup (f <$> l) -> l !! i = Some x -> position (fun y => String.eqb (f y) (f x)) l = Some i.
Proof.
  intros Hd Hi. apply position_Some. exists x. split; [done|]. split; [apply String.eqb_refl|].
  apply Forall_lookup. intros j y Hy. apply String.eqb_neq. intros E.
  pose proof (lookup_lt_Some _ _ _ Hy) as Hlt. rewrite length_take in Hlt.
  rewrite lookup_take_lt in Hy by lia.
  assert (i = j) as <-; [|lia]. eapply (NoDup_lookup (f <$> l)); [done| |].
  - rewrite list_lookup_fmap, Hi. done.
  - rewrite list_lookup_fmap, Hy. simpl. by rewrite E.
Qed.

Lemma position_by_id {A} (f : A -> StableId) l id :
  NoDup (f <$> l) -> id ∈ f <$> l ->
  exists i x, position (fun y => String.eqb (f y) id) l = Some i /\ l !! i = Some x /\ f x = id.
Proof.
  intros Hd [i Hi]%list_elem_of_lookup. rewrite list_lookup_fmap in Hi.
  destruct (l !! i) as [x|] eqn:Hx; [|done]. simpl in Hi. injection Hi as <-.
  exists i, x. split; [by apply position_unique|done].
Qed.

Lemma position_id_Some {A} (f : A -> StableId) l id i :
  position (fun y => String.eqb (f y) id) l = Some i -> exists x, l !! i = Some x /\ f x = id.
Proof. intros (x & ? & E%String.eqb_eq & _)%position_Some. eauto. Qed.

Lemma NoDup_elem_eq {A} (f : A -> StableId) l x y :
  NoDup (f <$> l) -> x ∈ l -> y ∈ l -> f x = f y -> x = y.
Proof.
  intros Hd [i Hi]%list_elem_of_lookup [j Hj]%list_elem_of_lookup E.
  assert (i = j) as <-; [|congruence]. eapply (NoDup_lookup (f <$> l)); [done| |].
  - rewrite list_lookup_fmap, Hi. done.
  - rewrite list_lookup_fmap, Hj. simpl. by rewrite E.
Qed.

Lemma find_by_client_id (cs : list Client) c :
  NoDup (c_id <$> cs) -> c ∈ cs -> List.find (has_client_id (c_id c)) cs = Some c.
Proof.
  intros Hd Hin. induction cs as [|x cs IH]; [by apply not_elem_of_nil in Hin|].
  simpl. unfold has_client_id at 1. apply NoDup_cons in Hd as [Hx Hd].
  apply elem_of_cons in Hin as [->|Hin].
  - by rewrite String.eqb_refl.
  - destruct (String.eqb_spec (c_id x) (c_id c)) as [E|_]; [|by apply IH].
    exfalso. apply Hx. rewrite E. by apply list_elem_of_fmap_2.
Qed.

Lemma attached_primary_client s id : is_attached_primary s id = true ->
  exists c, c ∈ s_clients s /\ c_id c = id /\ is_interactive_primary c = true.
Proof.
  unfold is_attached_primary. intros (c & Hin & [H1%String.eqb_eq H2]%andb_true_iff)%existsb_exists.
  apply list_elem_of_In in Hin. eauto.
Qed.

Lemma interactive_is_primary c : is_interactive_primary c = true -> is_primary c = true.
Proof. unfold is_interactive_primary. by intros [? _]%andb_true_iff. Qed.

Lemma navigation_valid s id : session_ok s -> is_attached_primary s id = true ->
  exists n, navigation s id = Ok n /\ view_ok (from_session s) n.
Proof.
  intros Hs (c & Hin & <- & Hp%interactive_is_primary)%attached_primary_client.
  pose proof (sb_clients s (so_base s Hs)) as Hc.
  pose proof (ci_primary s Hc) as Hnav. rewrite Forall_forall in Hnav.
  destruct (Hnav c Hin Hp) as [_ [n Hn]]. exists n. split.
  - unfold navigation. rewrite find_by_client_id by (try apply Hc; done). simpl. by rewrite Hp, Hn.
  - pose proof (so_views s Hs) as Hv. unfold views_ok in Hv. rewrite Forall_forall in Hv. eauto.
Qed.

(** ** Topology facts *)

Section Topology.
Context (s : Session) (Ht : session_topology s).

Lemma member_is_window g w :
  g ∈ s_window_groups s -> w ∈ wg_window_ids g -> w ∈ w_id <$> s_windows s.
Proof using Ht. intros Hg Hw. rewrite <- (st_partition s Ht). apply list_elem_of_bind. eauto. Qed.

Lemma window_has_group w : w ∈ w_id <$> s_windows s ->
  exists i g, s_window_groups s !! i = Some g /\ w ∈ wg_window_ids g.
Proof using Ht.
  rewrite <- (st_partition s Ht), list_elem_of_bind. intros (g & Hw & [i Hi]%list_elem_of_lookup). eauto.
Qed.

Lemma group_unique g g' w :
  g ∈ s_window_groups s -> g' ∈ s_window_groups s -> w ∈ wg_window_ids g -> w ∈ wg_window_ids g' ->
  wg_id g = wg_id g'.
Proof using Ht.
  intros Hg Hg' Hw Hw'. pose proof (from_session_ok s Ht) as Hok.
  assert (Hl : forall g, g ∈ s_window_groups s -> w ∈ wg_window_ids g ->
            t_window_group (from_session s) !! w = Some (wg_id g)).
  { intros x Hx Hwx. apply (lo_owner _ _ _ (to_groups _ Hok)). exists (wg_window_ids x). split; [|done].
    apply group_windows_lookup; [apply Ht|]. eauto. }
  pose proof (Hl g Hg Hw) as E1. pose proof (Hl g' Hg' Hw') as E2. congruence.
Qed.

Lemma groups_nonempty : s_windows s <> [] <-> s_window_groups s <> [].
Proof using Ht.
  split.
  - intros Hne E. apply Hne. pose proof (st_partition s Ht) as Hp. rewrite E in Hp. simpl in Hp.
    apply Permutation_nil_l in Hp. by destruct (s_windows s).
  - intros Hne E. pose proof (st_partition s Ht) as Hp. rewrite E in Hp. simpl in Hp.
    apply Permutation_nil_r in Hp. destruct (s_window_groups s) as [|g gs] eqn:Eg; [done|].
    pose proof (st_group_nonempty s Ht) as Hn. rewrite Eg in Hn. apply Forall_cons in Hn as [Hn _].
    simpl in Hp. apply app_eq_nil in Hp as [? _]. done.
Qed.

Lemma window_position_is_Some w : w ∈ w_id <$> s_windows s ->
  exists i x, window_position (s_windows s) w = Some i /\ s_windows s !! i = Some x /\ w_id x = w.
Proof using Ht. apply position_by_id, Ht. Qed.

Lemma group_containing w : w ∈ w_id <$> s_windows s ->
  exists i g, group_index_containing_window_id s w = Some i /\ s_window_groups s !! i = Some g
    /\ w ∈ wg_window_ids g.
Proof using Ht.
  intros (i & g & Hi & Hw)%window_has_group.
  destruct (position_is_Some (fun g => contains (wg_window_ids g) w) (s_window_groups s) g) as [j Hj].
  { by eapply list_elem_of_lookup_2. }
  { by apply contains_spec. }
  pose proof Hj as (g' & Hg' & Hc%contains_spec & _)%position_Some. exists j, g'. done.
Qed.
End Topology.

(** ** Focus-only changes of the groups *)

(** The same groups with other focus fields. *)
Definition refocused (g g' : WindowGroup) : Prop :=
  wg_id g' = wg_id g /\ wg_index g' = wg_index g /\ wg_window_ids g' = wg_window_ids g
  /\ cursor_ok (wg_window_ids g') (group_cursor g').

Lemma refocused_bind gs gs' : Forall2 refocused gs gs' -> gs' ≫= wg_window_ids = gs ≫= wg_window_ids.
Proof. induction 1 as [|g g' gs gs' (_ & _ & H & _) _ IH]; [done|]. simpl. by f_equal. Qed.

(** The invariant without the clause on the active indices, which the code
    breaks between the removal of windows and the restoration of focus. *)
Record session_loose (s : Session) : Prop := {
  sl_topology : session_topology s;
  sl_windex : forall i w, s_windows s !! i = Some w -> w_index w = i;
  sl_gindex : forall i g, s_window_groups s !! i = Some g -> wg_index g = i;
  sl_windows : Forall (fun w => state_ok (s_ids s, w)) (s_windows s);
  sl_ids : ids_inv s;
  sl_size : valid_size (s_authoritative_size s);
  sl_groups : Forall (fun g => cursor_ok (wg_window_ids g) (group_cursor g)) (s_window_groups s);
  sl_history : history_ok (wg_id <$> s_window_groups s) (s_group_focus_history s);
  sl_clients : clients_inv s }.

Definition active_ok (s : Session) : Prop :=
  (s_windows s = [] -> s_active_window_index s = 0%nat) /\
  (s_windows s <> [] -> exists g w,
    s_window_groups s !! s_active_group_index s = Some g
    /\ s_windows s !! s_active_window_index s = Some w
    /\ wg_active_window_id g = Some (w_id w)).

Lemma active_intro s g w :
  s_window_groups s !! s_active_group_index s = Some g ->
  s_windows s !! s_active_window_index s = Some w ->
  wg_active_window_id g = Some (w_id w) -> active_ok s.
Proof. intros Hg Hw Ha. split; [|by eauto]. intros E. by rewrite E in Hw. Qed.

Lemma base_loose s : session_base s -> session_loose s.
Proof. intros [? ? ? ? ? ? [] ?]. by split. Qed.
Lemma loose_base s : session_loose s -> active_ok s -> session_base s.
Proof. intros [] [? ?]. by repeat (split; try done). Qed.

(** A state with the same windows and clients whose groups are refocused. *)
Record reshape (s s' : Session) : Prop := {
  rf_windows : Forall2 (same_window (s_ids s)) (s_windows s) (s_windows s');
  rf_groups : Forall2 refocused (s_window_groups s) (s_window_groups s');
  rf_ids : s_ids s' = s_ids s;
  rf_clients : s_clients s' = s_clients s;
  rf_observers : s_observer_attachments s' = s_observer_attachments s;
  rf_owner : s_layout_owner_client_id s' = s_layout_owner_client_id s;
  rf_size : s_authoritative_size s' = s_authoritative_size s;
  rf_landing : s_landing_navigation s' = s_landing_navigation s;
  rf_history : history_ok (wg_id <$> s_window_groups s) (s_group_focus_history s') }.

Lemma reshape_gids s s' : reshape s s' -> wg_id <$> s_window_groups s' = wg_id <$> s_window_groups s.
Proof. intros H. eapply Forall2_fmap_eq; [|apply H]. by intros ? ? (? & _). Qed.
Lemma reshape_wids s s' : reshape s s' -> w_id <$> s_windows s' = w_id <$> s_windows s.
Proof. intros H. eapply Forall2_fmap_eq; [|apply H]. by intros ? ? ([= ?] & _). Qed.

Lemma reshape_panes s s' :
  reshape s s' -> s_windows s' ≫= pane_ids ≡ₚ s_windows s ≫= pane_ids.
Proof. intros H. eapply Forall2_bind_perm; [|apply H]. by intros ? ? (_ & ? & _). Qed.

Lemma reshape_loose s s' : reshape s s' -> session_loose s -> session_loose s'.
Proof.
  intros Hr Hb. pose proof (reshape_gids s s' Hr) as Hgid. pose proof (reshape_wids s s' Hr) as Hwid.
  destruct Hb as [Ht Hw Hg Hws [Hi1 Hi2 Hi3] Hs _ _ Hc].
  destruct Hr as [HW HG Hids Hcl Hob Hown Hsz _ Hh].
  pose proof (topology_windows s (s_windows s') _ Ht HW) as [Ht1 Ht2 Ht3 Ht4 Ht5 Ht6].
  simpl in *. pose proof (refocused_bind _ _ HG) as Hbind.
  split.
  - split; [by rewrite Hgid|done|by rewrite Hbind| |done|done].
    apply Forall_lookup. intros i g Hi. destruct (Forall2_lookup_r _ _ _ _ _ HG Hi) as (g0 & Hg0 & _ & _ & -> & _).
    rewrite Forall_lookup in Ht4. eauto.
  - intros i w Hi. destruct (Forall2_lookup_r _ _ _ _ _ HW Hi) as (w0 & Hi0 & [= _ ->] & _). auto.
  - intros i g Hi. destruct (Forall2_lookup_r _ _ _ _ _ HG Hi) as (g0 & Hg0 & _ & -> & _). auto.
  - rewrite Hids. apply Forall_lookup. intros i w Hi.
    by destruct (Forall2_lookup_r _ _ _ _ _ HW Hi) as (w0 & _ & _ & _ & ?).
  - split; rewrite Hids; [by rewrite Hwid|by rewrite Hgid|by rewrite Hcl].
  - by rewrite Hsz.
  - apply Forall_lookup. intros i g Hi. by destruct (Forall2_lookup_r _ _ _ _ _ HG Hi) as (g0 & _ & _ & _ & _ & ?).
  - by rewrite Hgid.
  - apply (clients_inv_same s); [done| |done|done]. rewrite Hcl. by apply same_client_refl.
Qed.

Lemma reshape_grows s s' :
  session_topology s -> session_topology s' -> reshape s s' -> grows (from_session s) (from_session s').
Proof.
  intros Ht Ht' Hr. apply session_grows; [done|done| |].
  - intros g [i Hi]%list_elem_of_lookup.
    destruct (Forall2_lookup_l _ _ _ _ _ (rf_groups s s' Hr) Hi) as (g' & Hi' & ? & _ & E & _).
    exists g'. split; [by eapply list_elem_of_lookup_2|]. split; [done|]. intros v. by rewrite E.
  - intros w [i Hi]%list_elem_of_lookup.
    destruct (Forall2_lookup_l _ _ _ _ _ (rf_windows s s' Hr) Hi) as (w' & Hi' & [= E _] & Hp & _).
    exists w'. split; [by eapply list_elem_of_lookup_2|]. split; [done|].
    intros p. change (p ∈ ids_of (w_panes w) -> p ∈ ids_of (w_panes w')). by rewrite Hp.
Qed.

Lemma reshape_ok s s' : reshape s s' -> active_ok s' -> session_ok s -> session_ok s'.
Proof.
  intros Hr Ha Hs. pose proof (reshape_loose s s' Hr (base_loose s (so_base s Hs))) as Hl.
  apply (ok_grow s); [done|by apply loose_base|apply Hr|apply Hr|].
  apply reshape_grows; [apply Hs|apply Hl|done].
Qed.

Lemma same_windows_refl s : session_loose s -> Forall2 (same_window (s_ids s)) (s_windows s) (s_windows s).
Proof.
  intros Hb. pose proof (sl_windows s Hb) as H. induction H; constructor; [by apply same_window_refl|done].
Qed.

Lemma refocused_refl s : session_loose s -> Forall2 refocused (s_window_groups s) (s_window_groups s).
Proof. intros Hb. pose proof (sl_groups s Hb) as H. induction H; by constructor. Qed.

(** ** Projection *)

Section Project.
Context (s : Session) (n : ClientNavigationState).
Context (Hb : session_base s) (Hv : view_ok (from_session s) n).

Lemma project_group_refocused g : g ∈ s_window_groups s -> refocused g (project_group n g).
Proof using Hb Hv.
  intros Hg. unfold project_group. destruct (nav_windows_by_group n !! wg_id g) as [c|] eqn:Hc.
  - destruct (vo_windows _ _ Hv _ _ Hc) as (l & Hl & Hok).
    apply group_windows_lookup in Hl as (g' & Hg' & E & <-); [|apply Hb].
    assert (g' = g) as -> by (eapply (NoDup_elem_eq wg_id); [apply Hb|done|done|done]).
    repeat split; apply Hok.
  - pose proof (fi_groups s (sb_focus s Hb)) as H. rewrite Forall_forall in H. split; [done|].
    split; [done|]. split; [done|]. by apply H.
Qed.

Lemma project_window_same w : w ∈ s_windows s -> same_window (s_ids s) w (project_window n w).
Proof using Hb Hv.
  intros [i Hi]%list_elem_of_lookup. pose proof (windows_state s i w Hb Hi) as Hw.
  unfold project_window. set (h := match nav_panes_by_window n !! w_id w with Some c => _ | None => _ end).
  assert (Hlen : (length h <= 10)%nat).
  { subst h. destruct (nav_panes_by_window n !! w_id w) as [c|] eqn:Hc; [|simpl; lia].
    destruct (vo_panes _ _ Hv _ _ Hc) as (l & _ & Hok). apply Hok. }
  destruct (apply_client_navigation_ok w (nav_panes_by_window n !! w_id w ≫= fc_active)
              (nav_panes_by_window n !! w_id w ≫= fc_last) h
              (nav_zoomed_panes_by_window n !! w_id w) (proj1 Hw) Hlen) as [Hk _].
  split; [apply apply_navigation_key|]. split; [by destruct Hk as (_ & _ & _ & ->)|].
  eapply safe_kept; [exact Hw|exact Hk|].
  unfold Win.apply_client_navigation_state. case_match; done.
Qed.

Lemma project_navigation_refocus :
  reshape s (project_navigation n s) /\ active_ok (project_navigation n s).
Proof using Hb Hv.
  assert (HG : Forall2 refocused (s_window_groups s) (project_group n <$> s_window_groups s)).
  { apply Forall2_fmap_r, Forall_Forall2_diag, Forall_forall. apply project_group_refocused. }
  assert (HW : Forall2 (same_window (s_ids s)) (s_windows s) (project_window n <$> s_windows s)).
  { apply Forall2_fmap_r, Forall_Forall2_diag, Forall_forall. apply project_window_same. }
  split; [split; simpl; try done; apply Hv|].
  split; simpl.
  { intros E. apply fmap_nil_inv in E. rewrite E. simpl. rewrite (fi_empty s (sb_focus s Hb) E).
    by destruct (or_else _ _). }
  intros Hne. assert (Hne' : s_windows s <> []) by (by intros E; rewrite E in Hne).
  set (agi := default (s_active_group_index s) _).
  assert (Hagi : exists g, s_window_groups s !! agi = Some g).
  { subst agi. destruct (fc_active (nav_groups n)) as [g|] eqn:Ha; simpl.
    - destruct (vo_chain _ _ Hv g Ha) as [Hin _].
      destruct (position_by_id wg_id (s_window_groups s) g) as (i & x & Hp & Hx & _);
        [apply Hb|done|]. unfold group_position. rewrite Hp. simpl. eauto.
    - destruct (fi_active s (sb_focus s Hb) Hne') as (g & w & ? & _). eauto. }
  destruct Hagi as [g Hg]. rewrite list_lookup_fmap, Hg. simpl.
  destruct (Forall2_lookup_l _ _ _ _ _ HG Hg) as (g' & Hg' & Hid & _ & Hm & [(a & Ha & Hain) _ _]).
  rewrite list_lookup_fmap, Hg in Hg'. injection Hg' as <-. simpl in Ha. rewrite Ha. simpl.
  destruct (window_position_is_Some s (sb_topology s Hb) a) as (j & w & Hj & Hw & Hwid).
  { eapply member_is_window; [apply Hb|by eapply list_elem_of_lookup_2|by rewrite <- Hm]. }
  rewrite Hj. simpl. exists (project_group n g), (project_window n w).
  split; [done|]. rewrite list_lookup_fmap, Hw. split; [done|].
  rewrite Ha. f_equal. destruct (project_window_same w) as ([= ->] & _); [by eapply list_elem_of_lookup_2|done].
Qed.
End Project.

(** ** Capture *)

Lemma pane_cursor_ok ids w : state_ok (ids, w) -> cursor_ok (pane_ids w) (pane_cursor w).
Proof.
  intros (Hok & _ & _). pose proof (wo_focus w Hok) as [Hlt _ Hd Hh].
  destruct (lookup_lt_is_Some_2 _ _ Hlt) as [p Hp]. split; simpl.
  - exists (p_id p). rewrite Hp. split; [done|]. apply list_elem_of_fmap_2. by eapply list_elem_of_lookup_2.
  - intros v. destruct (w_last_active_pane_index w) as [i|]; simpl; [|done].
    destruct (w_panes w !! i) as [q|] eqn:Hq; simpl; [|done]. intros [= <-].
    apply list_elem_of_fmap_2. by eapply list_elem_of_lookup_2.
  - split; [exact Hh|done|apply (wc_bound w (wo_core w Hok))].
Qed.

Lemma zoom_entries_lookup ws : forall (m : gmap WindowId PaneId) k p,
  foldl (fun m w => match w_zoomed_pane_id w with Some p => <[w_id w := p]> m | None => m end) m ws !! k
    = Some p -> (exists w, w ∈ ws /\ w_id w = k /\ w_zoomed_pane_id w = Some p) \/ m !! k = Some p.
Proof.
  induction ws as [|w ws IH]; intros m k p; simpl; [by right|]. intros [(x & ? & ? & ?)|H]%IH.
  { left. exists x. rewrite elem_of_cons. auto. }
  destruct (w_zoomed_pane_id w) as [q|] eqn:Hz; [|by right].
  destruct (decide (w_id w = k)) as [<-|Hne].
  - rewrite lookup_insert_eq in H. simplify_eq. left. exists w. rewrite elem_of_cons. auto.
  - rewrite lookup_insert_ne in H by done. by right.
Qed.

Lemma captured_view s previous : session_base s -> view_ok (from_session s) (captured_navigation s previous).
Proof.
  intros Hb. pose proof (sb_topology s Hb) as Ht. pose proof (sb_focus s Hb) as Hf.
  assert (Hgl : forall k c, insert_all wg_id group_cursor (s_window_groups s) ∅ !! k = Some c <->
            exists g, g ∈ s_window_groups s /\ wg_id g = k /\ group_cursor g = c).
  { intros k c. rewrite insert_all_lookup by apply Ht. rewrite lookup_empty. naive_solver. }
  assert (Hwl : forall k c, insert_all w_id pane_cursor (s_windows s) ∅ !! k = Some c <->
            exists w, w ∈ s_windows s /\ w_id w = k /\ pane_cursor w = c).
  { intros k c. rewrite insert_all_lookup by apply Ht. rewrite lookup_empty. naive_solver. }
  assert (Hst : forall w, w ∈ s_windows s -> state_ok (s_ids s, w)).
  { intros w [i Hi]%list_elem_of_lookup. by eapply windows_state. }
  unfold captured_navigation.
  split; cbn [set_revision nav_groups nav_windows_by_group nav_panes_by_window
    nav_zoomed_panes_by_window fc_last fc_active fc_history].
  - intros k. destruct (s_last_active_group_index s) as [i|]; simpl; [|done].
    destruct (s_window_groups s !! i) as [g|] eqn:Hg; simpl; [|done]. intros [= <-].
    apply list_elem_of_fmap_2. by eapply list_elem_of_lookup_2.
  - apply Hf.
  - intros k c (g & Hg & <- & <-)%Hgl. exists (wg_window_ids g). split.
    + apply group_windows_lookup; [apply Ht|]. eauto.
    + pose proof (fi_groups s Hf) as H. rewrite Forall_forall in H. auto.
  - intros k c (w & Hw & <- & <-)%Hwl. exists (pane_ids w). split.
    + apply window_panes_lookup; [apply Ht|]. eauto.
    + eapply pane_cursor_ok. by apply Hst.
  - intros k p [(w & Hw & <- & Hz)|H]%zoom_entries_lookup; [|by rewrite lookup_empty in H].
    exists (pane_ids w). split; [apply window_panes_lookup; [apply Ht|]; eauto|].
    apply (wo_zoom w (proj1 (Hst w Hw)) p Hz).
  - intros k Hk. destruct (s_window_groups s !! s_active_group_index s) as [g|] eqn:Hg; [|done].
    simpl in Hk. injection Hk as <-.
    split; [apply list_elem_of_fmap_2; by eapply list_elem_of_lookup_2|].
    destruct (fi_active s Hf) as (g' & w & Hg' & Hw & Ha).
    { apply groups_nonempty; [done|]. by intros E; rewrite E in Hg. }
    rewrite Hg in Hg'. injection Hg' as <-. unfold active_pane_of, prior_pane, prior_window.
    cbn [nav_groups nav_windows_by_group nav_panes_by_window fc_active]. simpl.
    rewrite (proj2 (Hgl (wg_id g) (group_cursor g))); [|eauto using list_elem_of_lookup_2]. simpl.
    rewrite Ha. simpl.
    rewrite (proj2 (Hwl (w_id w) (pane_cursor w))); [|eauto using list_elem_of_lookup_2]. simpl.
    destruct (co_active _ _ (pane_cursor_ok (s_ids s) w (windows_state s _ _ Hb Hw))) as (v & Hv & _).
    exists v. exact Hv.
Qed.

Lemma update_first_Forall2 {A} (R : A -> A -> Prop) p f (l : list A) :
  Forall (fun x => R x x) l -> (forall x, x ∈ l -> p x = true -> R x (f x)) ->
  Forall2 R l (update_first p f l).
Proof.
  intros Hr Hf. unfold update_first. destruct (position p l) as [i|] eqn:Hp.
  - apply position_Some in Hp as (x & Hx & Hpx & _). rewrite (list_alter_insert f i x) by done.
    eapply Forall2_insert_same; [done| |done]. apply Hf; [by eapply list_elem_of_lookup_2|done].
  - clear -Hr. induction Hr; by constructor.
Qed.

Lemma update_first_elem {A} p (f : A -> A) l y :
  y ∈ update_first p f l -> y ∈ l \/ exists x, x ∈ l /\ p x = true /\ y = f x.
Proof.
  unfold update_first. destruct (position p l) as [i|] eqn:Hp; [|by left].
  apply position_Some in Hp as (x & Hx & Hpx & _). intros [j Hj]%list_elem_of_lookup.
  rewrite list_lookup_alter in Hj. case_decide as E.
  - subst j. rewrite Hx in Hj. simpl in Hj. injection Hj as <-. right. exists x.
    split; [by eapply list_elem_of_lookup_2|done].
  - left. by eapply list_elem_of_lookup_2.
Qed.

Lemma same_client_self s c : clients_inv s -> c ∈ s_clients s -> same_client c c.
Proof.
  intros Hc [i Hi]%list_elem_of_lookup.
  destruct (Forall2_lookup_l _ _ _ _ _ (same_client_refl s Hc) Hi) as (c' & Hc' & ?). by simplify_eq.
Qed.

(** Assignments to one client. *)
Lemma update_client_same s p f : clients_inv s ->
  (forall c, c ∈ s_clients s -> same_client c c -> same_client c (f c)) ->
  Forall2 same_client (s_clients s) (update_first p f (s_clients s)).
Proof.
  intros Hc Hf. apply update_first_Forall2.
  - apply Forall_forall. intros c Hin. by eapply same_client_self.
  - intros c Hin _. apply Hf; [done|by eapply same_client_self].
Qed.

Lemma same_client_navigation n c : same_client c c -> same_client c (client_set_navigation (Some n) c).
Proof. intros (_ & _ & _ & _ & _ & Ht). repeat split; try done; by apply Ht. Qed.

(** Giving a client a valid view. *)
Lemma assign_view s id n :
  session_ok s -> view_ok (from_session s) n ->
  session_ok (set_clients s (update_first (has_client_id id) (client_set_navigation (Some n)) (s_clients s))).
Proof.
  intros Hs Hn. pose proof (so_base s Hs) as Hb. split; simpl.
  - apply base_clients; [done|]. apply update_client_same; [apply Hb|]. intros. by apply same_client_navigation.
  - apply Forall_forall. intros c Hin Hp m Hm. change (from_session (set_clients s _)) with (from_session s).
    apply update_first_elem in Hin as [Hin|(x & Hin & _ & ->)].
    + pose proof (so_views s Hs) as Hv. unfold views_ok in Hv. rewrite Forall_forall in Hv. eauto.
    + simpl in Hm. injection Hm as <-. done.
  - apply Hs.
Qed.

(** ** Commands on a client's behalf *)

Section AsClient.
Context `{Clock}.

(** Projecting a client's view refocuses the session. *)
Lemma activate_reshape s id : session_ok s -> is_attached_primary s id = true ->
  wp (activate_client_navigation id) s
    (fun s' _ => session_ok s' /\ is_attached_primary s' id = true /\ reshape s s') session_ok.
Proof.
  intros Hs Hp. unfold activate_client_navigation. wps.
  apply wp_lift; [apply require_primary_no_panic| |done]. intros _ _. wps.
  destruct (navigation_valid s id Hs Hp) as (n & Hn & Hv). rewrite Hn.
  apply wp_lift; [done| |done]. intros ? [= <-]. wps.
  pose proof (project_navigation_refocus s n (so_base s Hs) Hv) as [Hr Ha].
  split; [by apply (reshape_ok s)|]. split; [|done]. exact Hp.
Qed.

Lemma maintains_activate s id : session_ok s -> is_attached_primary s id = true ->
  wp (activate_client_navigation id) s
    (fun s' _ => session_ok s' /\ is_attached_primary s' id = true /\ s_ids s' = s_ids s) session_ok.
Proof.
  intros Hs Hp. eapply wp_mono; [by apply activate_reshape| |done]. cbv beta.
  intros s' _ (H1 & H2 & H3). split; [done|]. split; [done|]. apply H3.
Qed.

Lemma maintains_capture s id : session_ok s -> is_attached_primary s id = true ->
  maintains (capture_client_navigation id) s.
Proof.
  intros Hs Hp. unfold maintains, capture_client_navigation. wps.
  apply wp_lift; [apply require_primary_no_panic| |done]. intros _ _. wps.
  destruct (navigation_valid s id Hs Hp) as (n & Hn & Hv). rewrite Hn.
  apply wp_lift; [done| |done]. intros ? [= <-].
  unfold wp, assign_navigation. rewrite Hn. apply assign_view; [done|]. by apply captured_view, Hs.
Qed.

(** The body of a command: it keeps the invariant and the clients. *)
Definition body_ok {A} (m : smethod A) (s : Session) : Prop :=
  wp m s (fun s' _ => session_ok s' /\ s_clients s' = s_clients s) session_ok.

Lemma maintains_as_client {A} id (m : smethod A) s :
  session_ok s ->
  (forall s', session_ok s' -> is_attached_primary s' id = true -> s_ids s' = s_ids s -> 
     wp m s' (fun s'' _ => session_ok s'' /\ is_attached_primary s'' id = true) session_ok) ->
  maintains (as_client id m) s.
Proof.
  intros Hs Hm. unfold as_client. apply maintains_authorized; [done|]. intros Hp. unfold maintains. wps.
  eapply wp_mono; [by apply maintains_activate| |done]. simpl. intros s1 _ (Hs1 & Hp1 & Hi1). wps.
  eapply wp_mono; [by apply Hm| |done]. simpl. intros s2 a (Hs2 & Hp2). wps.
  eapply wp_mono; [by apply maintains_capture| |done]. simpl. intros s3 _ Hs3. by wps.
Qed.

Lemma attached_primary_clients s s' id :
  s_clients s' = s_clients s -> is_attached_primary s' id = is_attached_primary s id.
Proof. unfold is_attached_primary. by intros ->. Qed.

Lemma maintains_as_client_body {A} id (m : smethod A) s :
  session_ok s -> (forall s', session_ok s' -> s_ids s' = s_ids s -> body_ok m s') ->
  maintains (as_client id m) s.
Proof.
  intros Hs Hm. apply maintains_as_client; [done|]. intros s' Hs' Hp Hi.
  eapply wp_mono; [by apply Hm| |done]. simpl. intros s'' _ (? & Hc). split; [done|].
  by rewrite (attached_primary_clients s').
Qed.

Lemma maintains_as_client_event {A} id (m : smethod A) s :
  session_ok s -> (forall s', session_ok s' -> s_ids s' = s_ids s -> body_ok m s') ->
  maintains (as_client_event id m) s.
Proof.
  intros Hs Hm. apply maintains_bind; [by apply maintains_as_client_body|].
  intros a s' Hs'. by apply maintains_emit.
Qed.
End AsClient.
