(* ===== verification/SessionRemoval.v ===== *)
(** * Selecting and removing windows

    Selecting a window or group from a state whose topology is well formed
    makes the active indices consistent; after windows disappear, pruning the
    groups restores the topology and restoring focus the active indices. *)

From S2P Require Import Prelude RustStr Ids LayoutTypes LayoutTree WindowOps WindowInv WindowSteps WindowMoves WindowCommands.
From S2P Require Import SessionTypes Reconcile SessionTargets SessionClients SessionWindows SessionMoves SessionInv SessionOk SessionFocus.
From Stdlib Require Import Ascii.
Local Open Scope Z_scope.

(** ** Histories *)

Lemma filter_history members members' h f :
  history_ok members h -> (forall v, v ∈ members -> f v = true -> v ∈ members') ->
  history_ok members' (List.filter f h).
Proof.
  intros [Hm Hd Hb] Hf. split.
  - intros v [Hin Hv]%list_elem_of_In%filter_In. apply list_elem_of_In in Hin. auto.
  - apply NoDup_ListNoDup. apply NoDup_ListNoDup in Hd. by apply List.NoDup_filter.
  - etrans; [|exact Hb]. apply filter_length_le.
Qed.

Lemma record_bounded_focus_ok members h v :
  history_ok members h -> v ∈ members -> history_ok members (record_bounded_focus h v).
Proof.
  intros Hh Hv. unfold record_bounded_focus. set (f := fun x => negb (String.eqb x v)).
  pose proof (filter_history members members h f Hh (fun x H _ => H)) as [Hm Hd Hb].
  assert (Hn : v ∉ List.filter f h).
  { intros [_ Hf]%list_elem_of_In%filter_In. subst f. simpl in Hf. by rewrite String.eqb_refl in Hf. }
  assert (Hall : forall x, x ∈ List.filter f h ++ [v] -> x ∈ members).
  { intros x [?|Hx%list_elem_of_singleton]%elem_of_app; [auto|by subst]. }
  assert (Hnd : NoDup (List.filter f h ++ [v])).
  { apply NoDup_app. split; [done|]. split; [|apply NoDup_singleton].
    intros x Hx Hx'%list_elem_of_singleton. by subst. }
  destruct (10 <? length (List.filter f h ++ [v]))%nat eqn:E; bool_to_prop.
  - destruct (List.filter f h ++ [v]) as [|x l] eqn:El; [simpl in E; lia|]. simpl. rewrite drop_0.
    apply NoDup_cons in Hnd as [_ ?]. split; [intros y ?; apply Hall; by right|done|].
    pose proof (f_equal length El) as Hlen. rewrite length_app in Hlen. simpl in Hlen.
    unfold StableId in *. lia.
  - split; [done|done|unfold StableId in *; lia].
Qed.

(** ** Entering a group and a window *)

Section Enter.
Context (s : Session) (Hl : session_loose s).

Lemma reshape_refl : reshape s s.
Proof using Hl. split; try done; [by apply same_windows_refl|by apply refocused_refl|apply Hl]. Qed.

Lemma enter_group_reshape i : reshape s (enter_group i s).
Proof using Hl.
  unfold enter_group. destruct (_ =? _)%nat; [apply reshape_refl|].
  destruct (s_window_groups s !! s_active_group_index s) as [g|] eqn:Hg;
    (split; simpl; try done; [by apply same_windows_refl|by apply refocused_refl|]).
  - apply record_bounded_focus_ok; [apply Hl|]. apply list_elem_of_fmap_2. by eapply list_elem_of_lookup_2.
  - apply Hl.
Qed.

Lemma enter_group_fields i :
  s_windows (enter_group i s) = s_windows s /\ s_window_groups (enter_group i s) = s_window_groups s
  /\ s_active_group_index (enter_group i s) = i
  /\ s_active_window_index (enter_group i s) = s_active_window_index s.
Proof using.
  unfold enter_group. destruct (Nat.eqb_spec (s_active_group_index s) i) as [->|]; [done|].
  by destruct (s_window_groups s !! s_active_group_index s).
Qed.

Lemma focus_in_group_refocused id prev g :
  id ∈ wg_window_ids g -> cursor_ok (wg_window_ids g) (group_cursor g) ->
  refocused g (focus_window_in_group id prev g)
  /\ wg_active_window_id (focus_window_in_group id prev g) = Some id.
Proof using.
  intros Hid Hc. unfold focus_window_in_group. case_bool_decide as E; [by repeat split; try apply Hc|].
  destruct Hc as [(a & Ha & Hain) Hlast Hh]. simpl in *. rewrite Ha. simpl. split; [|done].
  repeat split; simpl; try done; [by eauto|by intros v [= <-]|..];
    apply (record_bounded_focus_ok _ _ a Hh Hain).
Qed.
End Enter.

Lemma Forall2_compose {A} (P Q R : A -> A -> Prop) l k m :
  (forall x y z, P x y -> Q y z -> R x z) -> Forall2 P l k -> Forall2 Q k m -> Forall2 R l m.
Proof.
  intros HR H. revert m. induction H as [|x y l k Hxy _ IH]; intros m Hm; inversion Hm; subst; constructor; eauto.
Qed.

Lemma reshape_trans s s' s'' : reshape s s' -> reshape s' s'' -> reshape s s''.
Proof.
  intros H1 H2. pose proof (reshape_gids s s' H1) as Hg.
  destruct H1 as [W1 G1 I1 C1 O1 L1 Z1 N1 _], H2 as [W2 G2 I2 C2 O2 L2 Z2 N2 H2].
  split; try congruence.
  - rewrite I1 in W2. eapply Forall2_compose; [|exact W1|exact W2].
    intros a b c (K1 & P1 & _) (K2 & P2 & Q2). split; [congruence|]. split; [by rewrite P2|done].
  - eapply Forall2_compose; [|exact G1|exact G2].
    intros a b c (K1 & P1 & Q1 & _) (K2 & P2 & Q2 & R2).
    split; [congruence|]. split; [congruence|]. split; [congruence|done].
Qed.

Section Sync.
Context (s : Session) (Hl : session_loose s).

Lemma sync_reshape id prev : id ∈ w_id <$> s_windows s ->
  let s' := sync_active_group_for_window id prev s in
  reshape s s' /\ s_windows s' = s_windows s /\ s_active_window_index s' = s_active_window_index s
  /\ exists g, s_window_groups s' !! s_active_group_index s' = Some g /\ wg_active_window_id g = Some id.
Proof using Hl.
  intros Hid. destruct (group_containing s (sl_topology s Hl) id Hid) as (i & g & Hi & Hg & Hin).
  unfold sync_active_group_for_window. rewrite Hi. simpl.
  destruct (enter_group_fields s i) as (E1 & E2 & E3 & E4).
  pose proof (enter_group_reshape s Hl i) as Hr. rewrite E2.
  pose proof (sl_groups s Hl) as Hgs. pose proof (Forall_lookup_1 _ _ _ _ Hgs Hg) as Hc.
  destruct (focus_in_group_refocused id prev g Hin Hc) as [Hf Ha].
  split; [|split; [done|split; [done|]]].
  - eapply reshape_trans; [exact Hr|]. destruct Hr as [? ? rf_ids ? ? ? ? ? ?]. split; simpl; try done.
    + rewrite E1, rf_ids. by apply same_windows_refl.
    + rewrite E2. rewrite (list_alter_insert _ i g) by done. eapply Forall2_insert_same; [done|done|].
      eapply Forall_impl; [exact Hgs|]. by intros.
    + by rewrite E2.
  - rewrite E3. exists (focus_window_in_group id prev g). split; [|done].
    rewrite list_lookup_alter. rewrite decide_True by done. by rewrite Hg.
Qed.

End Sync.

Lemma focus_window_ok s i : session_loose s -> (i < length (s_windows s))%nat ->
  reshape s (focus_window i s) /\ active_ok (focus_window i s).
Proof.
  intros Hl [w Hw]%lookup_lt_is_Some_2. unfold focus_window. rewrite Hw. simpl.
  set (s1 := if (s_active_window_index s =? i)%nat then s else _).
  assert (Hs1 : reshape s s1 /\ s_windows s1 = s_windows s /\ s_active_window_index s1 = i).
  { subst s1. pose proof (reshape_refl s Hl) as H.
    destruct (Nat.eqb_spec (s_active_window_index s) i) as [<-|]; [done|]. split; [|done].
    destruct H. by split. }
  destruct Hs1 as (Hr1 & Hw1 & Ha1). pose proof (reshape_loose s s1 Hr1 Hl) as Hl1.
  destruct (sync_reshape s1 Hl1 (w_id w) (w_id <$> s_windows s !! s_active_window_index s))
    as (Hr2 & Hw2 & Ha2 & g & Hg & Hga).
  { rewrite Hw1. apply list_elem_of_fmap_2. by eapply list_elem_of_lookup_2. }
  split; [by eapply reshape_trans|]. apply (active_intro _ g w); [done| |done].
  by rewrite Hw2, Ha2, Hw1, Ha1.
Qed.

Lemma focus_group_ok s i : session_ok s -> wp (focus_group i) s
  (fun s' _ => session_ok s' /\ s_clients s' = s_clients s) session_ok.
Proof.
  intros Hs. unfold wp, focus_group. destruct (s_window_groups s !! i) as [g|] eqn:Hg; [|done].
  destruct (or_else _ _) as [id|]; [|done]. destruct (window_index_by_id s id) as [j|] eqn:Hj; [|done].
  pose proof (base_loose s (so_base s Hs)) as Hl. pose proof (enter_group_reshape s Hl i) as Hr.
  pose proof (reshape_loose _ _ Hr Hl) as Hl1. destruct (enter_group_fields s i) as (E1 & _).
  destruct (focus_window_ok (enter_group i s) j Hl1) as [Hr2 Ha].
  { rewrite E1. by eapply position_lt. }
  pose proof (reshape_trans _ _ _ Hr Hr2) as Hr3. split; [by eapply reshape_ok|apply Hr3].
Qed.

(** ** Pruning the groups *)

(** A state in which groups may still name windows that are gone, and in which
    focus may point anywhere. *)
Record prunable (s : Session) : Prop := {
  pb_groups : NoDup (wg_id <$> s_window_groups s);
  pb_windows : NoDup (w_id <$> s_windows s);
  pb_members : NoDup (s_window_groups s ≫= wg_window_ids);
  pb_live : forall v, v ∈ w_id <$> s_windows s -> v ∈ s_window_groups s ≫= wg_window_ids;
  pb_nonempty : Forall (fun w => pane_ids w <> []) (s_windows s);
  pb_panes : NoDup (s_windows s ≫= pane_ids);
  pb_windex : forall i w, s_windows s !! i = Some w -> w_index w = i;
  pb_states : Forall (fun w => state_ok (s_ids s, w)) (s_windows s);
  pb_ids : ids_inv s;
  pb_size : valid_size (s_authoritative_size s);
  pb_histories : Forall (fun g => NoDup (wg_window_focus_history g)
                   /\ (length (wg_window_focus_history g) <= 10)%nat) (s_window_groups s);
  pb_history : NoDup (s_group_focus_history s) /\ (length (s_group_focus_history s) <= 10)%nat;
  pb_clients : clients_inv s }.

Lemma filter_elem (f : StableId -> bool) l v : v ∈ List.filter f l <-> v ∈ l /\ f v = true.
Proof. rewrite !list_elem_of_In. apply filter_In. Qed.

Lemma NoDup_list_filter {A} (f : A -> bool) l : NoDup l -> NoDup (List.filter f l).
Proof. rewrite !NoDup_ListNoDup. apply List.NoDup_filter. Qed.

Lemma filter_distinct (f : StableId -> bool) h members :
  NoDup h /\ (length h <= 10)%nat -> (forall v, f v = true -> v ∈ members) ->
  history_ok members (List.filter f h).
Proof.
  intros [Hd Hb] Hf. split.
  - intros v [_ ?]%filter_elem. auto.
  - by apply NoDup_list_filter.
  - etrans; [apply filter_length_le|done].
Qed.

Definition pruned_groups (s : Session) : list WindowGroup :=
  List.filter (fun g => negb (list_is_empty (wg_window_ids g)))
    (prune_group (w_id <$> s_windows s) <$> s_window_groups s).

Section Prune.
Context (s : Session) (Hp : prunable s).
Local Abbreviation live := (w_id <$> s_windows s).

Lemma pruned_elem g : g ∈ pruned_groups s <->
  exists g0, g0 ∈ s_window_groups s /\ g = prune_group live g0 /\ wg_window_ids g <> [].
Proof using.
  unfold pruned_groups. rewrite list_elem_of_In, filter_In, <- list_elem_of_In, list_elem_of_fmap.
  split.
  - intros ((g0 & -> & Hg) & Hne). exists g0. split; [done|]. split; [done|]. intros E.
    unfold list_is_empty in Hne. by rewrite E in Hne.
  - intros (g0 & Hg & -> & Hne). split; [by eauto|]. by destruct (wg_window_ids (prune_group live g0)).
Qed.

Lemma prune_group_ids g : wg_window_ids (prune_group live g) = List.filter (contains live) (wg_window_ids g).
Proof using. done. Qed.

Lemma bind_filter_nonempty (gs : list WindowGroup) :
  List.filter (fun g => negb (list_is_empty (wg_window_ids g))) gs ≫= wg_window_ids
  = gs ≫= wg_window_ids.
Proof using.
  induction gs as [|g gs IH]; [done|]. simpl. destruct (wg_window_ids g) eqn:E; simpl; [done|].
  rewrite E. simpl. f_equal. f_equal. exact IH.
Qed.

Lemma bind_prune (gs : list WindowGroup) :
  (prune_group live <$> gs) ≫= wg_window_ids = List.filter (contains live) (gs ≫= wg_window_ids).
Proof using.
  induction gs as [|g gs IH]; [done|]. simpl. rewrite List.filter_app. by f_equal.
Qed.

Lemma pruned_partition : pruned_groups s ≫= wg_window_ids ≡ₚ live.
Proof using Hp.
  unfold pruned_groups. rewrite bind_filter_nonempty, bind_prune. apply NoDup_Permutation.
  - apply NoDup_list_filter, Hp.
  - apply Hp.
  - intros v. rewrite filter_elem, contains_spec. split; [by intros [_ ?]|].
    intros Hv. split; [by apply (pb_live s Hp)|done].
Qed.

Lemma prune_cursor g0 : NoDup (wg_window_focus_history g0)
    /\ (length (wg_window_focus_history g0) <= 10)%nat ->
  wg_window_ids (prune_group live g0) <> [] ->
  cursor_ok (wg_window_ids (prune_group live g0)) (group_cursor (prune_group live g0)).
Proof using.
  intros Hh Hne. unfold prune_group in *. simpl in *. set (ids := List.filter _ _) in *. split; simpl.
  - destruct (wg_active_window_id g0) as [a|]; simpl.
    + destruct (contains ids a) eqn:E; [apply contains_spec in E; eauto|].
      destruct ids as [|x l]; [done|]. exists x. split; [done|by left].
    + destruct ids as [|x l]; [done|]. exists x. split; [done|by left].
  - intros v. destruct (wg_last_active_window_id g0) as [a|]; simpl; [|done].
    destruct (contains ids a) eqn:E; [|done]. intros [= <-]. by apply contains_spec.
  - apply filter_distinct; [done|]. intros v. apply contains_spec.
Qed.

Lemma pruned_gids : NoDup (wg_id <$> pruned_groups s).
Proof using Hp.
  unfold pruned_groups. pose proof (pb_groups s Hp) as Hd. revert Hd. clear Hp.
  induction (s_window_groups s) as [|g gs IH]; simpl; [done|]. intros [Hg Hd]%NoDup_cons.
  specialize (IH Hd). destruct (list_is_empty _); simpl; [done|]. constructor; [|done].
  intros Hin. apply Hg. apply list_elem_of_fmap in Hin as (x & Ex & Hx).
  apply list_elem_of_In, filter_In in Hx as [Hx _]. apply list_elem_of_In, list_elem_of_fmap in Hx as (y & -> & Hy).
  rewrite Ex. apply list_elem_of_fmap. by exists y.
Qed.

Lemma pruned_gids_sub v : v ∈ wg_id <$> pruned_groups s -> v ∈ wg_id <$> s_window_groups s.
Proof using.
  intros (g & -> & (g0 & Hg & -> & _)%pruned_elem)%list_elem_of_fmap.
  apply list_elem_of_fmap. by exists g0.
Qed.

(** The fields of the state after the pass. *)
Lemma prune_fields :
  let s' := reconcile_window_groups_after_window_removal s in
  s_windows s' = s_windows s /\ s_window_groups s' = imap group_set_index (pruned_groups s)
  /\ s_ids s' = s_ids s /\ s_clients s' = s_clients s
  /\ s_observer_attachments s' = s_observer_attachments s
  /\ s_layout_owner_client_id s' = s_layout_owner_client_id s
  /\ s_authoritative_size s' = s_authoritative_size s
  /\ s_landing_navigation s' = s_landing_navigation s
  /\ s_active_window_index s' = s_active_window_index s
  /\ s_group_focus_history s' =
       List.filter (contains (wg_id <$> s_window_groups s')) (s_group_focus_history s).
Proof using.
  unfold reconcile_window_groups_after_window_removal. fold (pruned_groups s).
  cbv zeta. destruct (_ <=? _)%nat; by repeat split.
Qed.
End Prune.

Lemma imap_fmap_same {A B} (f : nat -> A -> A) (g : A -> B) l :
  (forall i x, g (f i x) = g x) -> g <$> imap f l = g <$> l.
Proof.
  intros H. apply list_eq. intros i. rewrite !list_lookup_fmap, list_lookup_imap.
  destruct (l !! i); simpl; [by rewrite H|done].
Qed.

Lemma imap_bind_same {A B} (f : nat -> A -> A) (g : A -> list B) l :
  (forall i x, g (f i x) = g x) -> imap f l ≫= g = l ≫= g.
Proof.
  intros H. revert f H. induction l as [|x l IH]; intros f H; [done|]. simpl. rewrite H. f_equal.
  apply IH. intros i y. apply H.
Qed.

Lemma prune_loose s : prunable s -> session_loose (reconcile_window_groups_after_window_removal s).
Proof.
  intros Hp. destruct (prune_fields s) as (Ew & Eg & Ei & Ec & Eo & El & Es & _ & _ & Eh).
  set (s' := reconcile_window_groups_after_window_removal s) in *.
  assert (Hgid : wg_id <$> s_window_groups s' = wg_id <$> pruned_groups s).
  { rewrite Eg. by apply imap_fmap_same. }
  pose proof Hp as [P1 P2 P3 P4 P5 P6 P7 P8 [I1 I2 I3] P10 P11 P12 P13].
  split.
  - split; [rewrite Hgid; by apply pruned_gids|by rewrite Ew| | |by rewrite Ew|by rewrite Ew].
    + rewrite Ew, Eg. rewrite imap_bind_same by done. by apply pruned_partition.
    + rewrite Eg. apply Forall_lookup. intros i g. rewrite list_lookup_imap.
      destruct (pruned_groups s !! i) as [g0|] eqn:Hg; simpl; [|done]. intros [= <-]. simpl.
      apply list_elem_of_lookup_2 in Hg. apply pruned_elem in Hg as (x & _ & _ & ?). done.
  - by rewrite Ew.
  - rewrite Eg. intros i g. rewrite list_lookup_imap. destruct (pruned_groups s !! i); simpl; [|done].
    by intros [= <-].
  - by rewrite Ei, Ew.
  - split; rewrite Ei; [by rewrite Ew| |by rewrite Ec]. rewrite Hgid.
    apply Forall_forall. intros v Hv. rewrite Forall_forall in I2. apply I2. by apply pruned_gids_sub.
  - by rewrite Es.
  - rewrite Eg. apply Forall_lookup. intros i g. rewrite list_lookup_imap.
    destruct (pruned_groups s !! i) as [g0|] eqn:Hg; simpl; [|done]. intros [= <-].
    apply list_elem_of_lookup_2 in Hg. apply pruned_elem in Hg as (x & Hx & -> & Hne).
    change (cursor_ok (wg_window_ids (prune_group (w_id <$> s_windows s) x))
              (group_cursor (prune_group (w_id <$> s_windows s) x))).
    apply prune_cursor; [|done]. rewrite Forall_forall in P11. by apply P11.
  - rewrite Eh. apply filter_distinct; [done|]. intros v. apply contains_spec.
  - apply (clients_inv_same s); [done| |done|done]. rewrite Ec. by apply same_client_refl.
Qed.

(** ** Removing windows *)

Lemma sublist_fmap_of {A B} (f : A -> B) l k : l `sublist_of` k -> f <$> l `sublist_of` f <$> k.
Proof. induction 1; simpl; [constructor|by constructor|by constructor]. Qed.

Lemma sublist_bind {A B} (f : A -> list B) l k : l `sublist_of` k -> l ≫= f `sublist_of` k ≫= f.
Proof.
  induction 1; simpl; [done|by apply sublist_app|]. by apply sublist_inserts_l.
Qed.

Lemma sublist_remove_at {A} i (l : list A) : remove_at i l `sublist_of` l.
Proof.
  unfold remove_at. rewrite <- (take_drop i l) at 3. apply sublist_app; [done|].
  rewrite <- (drop_drop l i 1) || (replace (S i) with (i + 1)%nat by lia; rewrite <- drop_drop).
  destruct (drop i l); [constructor|]. simpl. rewrite drop_0. by constructor.
Qed.

Lemma sublist_list_filter {A} (f : A -> bool) l : List.filter f l `sublist_of` l.
Proof. induction l as [|x l IH]; simpl; [done|]. destruct (f x); by constructor. Qed.

Lemma state_ok_index ids i w : state_ok (ids, w) -> state_ok (ids, window_set_index i w).
Proof. intros ([[] ? [] ?] & ? & ?). split; [|done]. split; [by split|done|by split|done]. Qed.

(** Keeping some of the windows, in order. *)
Definition keep_windows (ws : list Window) (s : Session) : Session := reindex_windows (set_windows s ws).

Lemma keep_prunable s ws : session_loose s -> ws `sublist_of` s_windows s -> prunable (keep_windows ws s).
Proof.
  intros Hl Hsub. pose proof (sl_topology s Hl) as Ht. pose proof (sl_ids s Hl) as [I1 I2 I3].
  assert (Hin : forall w, w ∈ ws -> w ∈ s_windows s) by (intros; by eapply elem_of_sublist).
  assert (Hid : w_id <$> imap window_set_index ws = w_id <$> ws) by (by apply imap_fmap_same).
  assert (Hpn : imap window_set_index ws ≫= pane_ids = ws ≫= pane_ids) by (by apply imap_bind_same).
  assert (Hall : forall P : Window -> Prop, (forall i w, P w -> P (window_set_index i w)) ->
            Forall P (s_windows s) -> Forall P (imap window_set_index ws)).
  { intros P HP H. apply Forall_lookup. intros i w. rewrite list_lookup_imap.
    destruct (ws !! i) as [x|] eqn:Hx; simpl; [|done]. intros [= <-]. apply HP.
    rewrite Forall_forall in H. apply H, Hin. by eapply list_elem_of_lookup_2. }
  split; simpl.
  - apply Ht.
  - rewrite Hid. eapply sublist_NoDup; [apply (st_windows s Ht)|]. by apply sublist_fmap_of.
  - rewrite (st_partition s Ht). apply Ht.
  - intros v. rewrite Hid, (st_partition s Ht). rewrite !list_elem_of_fmap. intros (w & -> & Hw). eauto.
  - apply Hall; [done|apply Ht].
  - rewrite Hpn. eapply sublist_NoDup; [apply (st_panes s Ht)|]. by apply sublist_bind.
  - intros i w. rewrite list_lookup_imap. destruct (ws !! i); simpl; [|done]. by intros [= <-].
  - apply Hall; [intros; by apply state_ok_index|apply Hl].
  - split; simpl; [|done|done]. rewrite Hid. rewrite Forall_forall in *. intros v Hv. apply I1.
    eapply elem_of_sublist; [exact Hv|]. by apply sublist_fmap_of.
  - apply Hl.
  - eapply Forall_impl; [apply (sl_groups s Hl)|]. intros g [_ _ [_ ? ?]]. done.
  - pose proof (sl_history s Hl) as [_ ? ?]. done.
  - destruct (sl_clients s Hl). by split.
Qed.

(** The clients and their attachments, which the removal of windows leaves
    alone. *)
Definition membership (s : Session) :=
  (s_ids s, s_clients s, s_observer_attachments s, s_layout_owner_client_id s).

(** ** Restoring focus *)

Lemma prune_membership s :
  membership (reconcile_window_groups_after_window_removal s) = membership s
  /\ s_windows (reconcile_window_groups_after_window_removal s) = s_windows s.
Proof. destruct (prune_fields s) as (? & _ & ? & ? & ? & ? & _). unfold membership. by split; [f_equal; [f_equal; [f_equal|]|]|]. Qed.

(** The part of the session that [session_loose] reads. *)
Definition loose_skeleton (s : Session) :=
  (s_windows s, s_window_groups s, s_group_focus_history s, s_authoritative_size s, membership s).

Lemma loose_frame s s' : loose_skeleton s' = loose_skeleton s -> session_loose s -> session_loose s'.
Proof.
  destruct s, s'. unfold loose_skeleton, membership. simpl.
  intros [= -> -> -> -> -> -> -> ->] [[] ? ? ? [] ? ? ? []]. repeat (split; try done).
Qed.

Lemma loose_skeleton_fields s s' : loose_skeleton s' = loose_skeleton s ->
  s_windows s' = s_windows s /\ membership s' = membership s.
Proof. unfold loose_skeleton. generalize (membership s), (membership s'). intros m m' [=]. by subst. Qed.

Lemma clamp_skeleton s i : session_loose s -> loose_skeleton (clamp_active_window i s) = loose_skeleton s.
Proof.
  intros Hl. unfold clamp_active_window.
  destruct (Nat.eqb_spec (length (s_windows s)) 0) as [E|_].
  - apply nil_length_inv in E. unfold loose_skeleton. simpl.
    assert (Eg : s_window_groups s = []).
    { destruct (s_window_groups s) eqn:Eg; [done|]. exfalso.
      apply (proj2 (groups_nonempty s (sl_topology s Hl))); [by rewrite Eg|done]. }
    by rewrite Eg.
  - by repeat case_match.
Qed.

(** After the removal the invariant holds except for the active indices. *)
Lemma after_removal_loose s i ws :
  session_loose s -> ws `sublist_of` s_windows s ->
  session_loose (after_window_removed i (set_windows s ws))
  /\ membership (after_window_removed i (set_windows s ws)) = membership s
  /\ s_windows (after_window_removed i (set_windows s ws)) = imap window_set_index ws.
Proof.
  intros Hl Hsub. pose proof (prune_loose _ (keep_prunable s ws Hl Hsub)) as Hp.
  destruct (prune_membership (keep_windows ws s)) as [Hm Hw].
  change (after_window_removed i (set_windows s ws)) with
    (clamp_active_window i (reconcile_window_groups_after_window_removal (keep_windows ws s))).
  pose proof (clamp_skeleton _ i Hp) as Hk. split; [by eapply loose_frame|].
  destruct (loose_skeleton_fields _ _ Hk) as [Hkw Hkm]. split; [by rewrite Hkm|by rewrite Hkw, Hw].
Qed.

Section Restore.
Context (s : Session) (Hl : session_loose s).

Lemma loose_groups : s_windows s <> [] -> s_window_groups s <> [].
Proof using Hl. apply groups_nonempty, Hl. Qed.

Lemma reshape_of s' :
  s_windows s' = s_windows s -> Forall2 refocused (s_window_groups s) (s_window_groups s') ->
  membership s' = membership s -> s_authoritative_size s' = s_authoritative_size s ->
  s_landing_navigation s' = s_landing_navigation s ->
  history_ok (wg_id <$> s_window_groups s) (s_group_focus_history s') -> reshape s s'.
Proof using Hl.
  intros E1 HG [= E4 E5 E6 E7] E3 E8 Hh. split; try done. rewrite E1. by apply same_windows_refl.
Qed.

Lemma find_map_Some {A B} (f : A -> option B) l b : find_map f l = Some b -> exists a, a ∈ l /\ f a = Some b.
Proof using.
  induction l as [|x l IH]; simpl; [done|]. destruct (f x) eqn:E.
  - intros [= ->]. exists x. split; [by left|done].
  - intros (a & ? & ?)%IH. exists a. split; [by right|done].
Qed.

Lemma group_position_lt ws id i : group_position ws id = Some i -> (i < length ws)%nat.
Proof using. intros (g & Hg & _)%position_id_Some. by eapply lookup_lt_Some. Qed.

Lemma surviving_group_ok prev : s_windows s <> [] ->
  wp (surviving_group prev) s (fun s' i =>
    reshape s s' /\ s_windows s' = s_windows s /\ (i < length (s_window_groups s'))%nat) (fun _ => False).
Proof using Hl.
  intros Hne. unfold wp, surviving_group. destruct (prev ≫= group_position (s_window_groups s)) as [i|] eqn:Hi.
  { split; [by apply reshape_refl|]. split; [done|]. destruct prev as [p|]; [|done].
    by eapply group_position_lt. }
  unfold most_recent_surviving_group_index. set (s' := set_group_focus_history s _).
  assert (Hr : reshape s s').
  { apply reshape_of; try done; [exact (refocused_refl s Hl)|]. simpl.
    eapply filter_history; [apply Hl|done]. }
  destruct (find_map _ _) as [i|] eqn:Hf.
  { split; [done|]. split; [done|]. apply find_map_Some in Hf as (a & _ & Ha). by eapply group_position_lt. }
  assert (Hg : s_window_groups s <> []) by (by apply loose_groups).
  change (s_window_groups s') with (s_window_groups s).
  destruct (Nat.eqb_spec (length (s_window_groups s)) 0) as [E|E].
  { by apply nil_length_inv in E. }
  split; [done|]. split; [done|]. change (s_window_groups s') with (s_window_groups s). lia.
Qed.

Lemma refocus_group_ok i : (i < length (s_window_groups s))%nat ->
  wp (refocus_group i) s (fun s' _ => reshape s s' /\ active_ok s' /\ s_windows s' = s_windows s) (fun _ => False).
Proof using Hl.
  intros [g Hg]%lookup_lt_is_Some_2. unfold wp, refocus_group, most_recent_surviving_window_id. simpl.
  rewrite Hg. simpl. rewrite list_lookup_insert_eq by (by eapply lookup_lt_Some).
  pose proof (Forall_lookup_1 _ _ _ _ (sl_groups s Hl) Hg) as [(a & Ha & Hain) Hlast Hh]. simpl in Ha, Hlast, Hh.
  set (f := fun w => contains (wg_window_ids g) w && _).
  set (h := List.filter f (wg_window_focus_history g)).
  pose proof (filter_history _ (wg_window_ids g) _ f Hh (fun v Hv _ => Hv)) as Hh'. fold h in Hh'.
  simpl. rewrite Ha.
  assert (Hid : exists id, or_else (last h) (or_else (Some a) (head (wg_window_ids g))) = Some id
                  /\ id ∈ wg_window_ids g).
  { destruct (last h) as [id|] eqn:Hlast'; simpl; [|by eauto]. exists id. split; [done|].
    apply Hh'. by apply last_Some_elem_of. }
  destruct Hid as (id & -> & Hidin). simpl.
  destruct (window_position_is_Some s (sl_topology s Hl) id) as (j & w & Hj & Hw & <-).
  { eapply member_is_window; [apply Hl|by eapply list_elem_of_lookup_2|done]. }
  unfold window_index_by_id. simpl. rewrite Hj. split; [|split; [|done]].
  - apply reshape_of; simpl; try done; [|apply Hl]. rewrite list_insert_insert_eq.
    eapply Forall2_insert_same; [exact Hg| |].
    + split; [done|]. split; [done|]. split; [done|]. split; simpl; [by eauto|done|done].
    + eapply Forall_impl; [apply (sl_groups s Hl)|]. by intros.
  - eapply (active_intro _ _ w); simpl; [|exact Hw|].
    + rewrite list_lookup_insert_eq; [done|]. rewrite length_insert. by eapply lookup_lt_Some.
    + done.
Qed.
End Restore.

Lemma restore_focus_ok s pw pg : session_loose s ->
  wp (restore_focus_after_window_removal pw pg) s
    (fun s' _ => session_base s' /\ membership s' = membership s /\ s_windows s' = s_windows s)
    (fun _ => False).
Proof.
  intros Hl. unfold restore_focus_after_window_removal.
  assert (Hdone : forall s', reshape s s' -> active_ok s' -> s_windows s' = s_windows s ->
            session_base s' /\ membership s' = membership s /\ s_windows s' = s_windows s).
  { intros s' Hr Ha. split; [apply loose_base; [by eapply reshape_loose|done]|].
    split; [|done]. destruct Hr. unfold membership. congruence. }
  unfold wp. destruct (Nat.eqb_spec (length (s_windows s)) 0) as [E|E].
  { apply nil_length_inv in E. apply Hdone; [|by split|done].
    apply reshape_of; try done; [exact (refocused_refl s Hl)|].
    split; simpl; [by intros v ?%not_elem_of_nil|constructor|lia]. }
  assert (Hne : s_windows s <> []) by (by intros E'; rewrite E' in E).
  destruct (pw ≫= window_index_by_id s) as [j|] eqn:Hj.
  - destruct pw as [id|]; [|done]. simpl in Hj. apply position_id_Some in Hj as (w & Hw & <-).
    set (s1 := set_active_window_index s j).
    assert (Hr1 : reshape s s1) by (apply reshape_of; try done; [exact (refocused_refl s Hl)|apply Hl]).
    pose proof (reshape_loose _ _ Hr1 Hl) as Hl1. unfold sync_active_group_to_active_window.
    change (s_windows s1 !! s_active_window_index s1) with (s_windows s !! j). rewrite Hw.
    destruct (sync_reshape s1 Hl1 (w_id w) None) as (Hr & Hw2 & Ha2 & g & Hg & Hga).
    { apply list_elem_of_fmap_2. by eapply list_elem_of_lookup_2. }
    apply Hdone; [by eapply reshape_trans| |by rewrite Hw2]. apply (active_intro _ g w); [done| |done].
    by rewrite Hw2, Ha2.
  - change (wp (surviving_group pg ≫= refocus_group) s
      (fun s' _ => session_base s' /\ membership s' = membership s /\ s_windows s' = s_windows s)
      (fun _ => False)). wps.
    eapply wp_mono; [by apply surviving_group_ok| |done]. simpl. intros s1 i (Hr1 & Hw1 & Hi).
    pose proof (reshape_loose _ _ Hr1 Hl) as Hl1.
    eapply wp_mono; [by apply refocus_group_ok| |done]. simpl. intros s2 _ (Hr2 & Ha & Hw2).
    apply Hdone; [by eapply reshape_trans|done|congruence].
Qed.

(** ** Edits of a session's windows and groups *)



(** ** The identity factory *)

Record ids_grow (f f' : IdFactory) : Prop := {
  ig_window : (Ids.next_window f <= Ids.next_window f')%N;
  ig_group : (next_window_group f <= next_window_group f')%N;
  ig_pane : (next_pane f <= next_pane f')%N;
  ig_client : (next_client f <= next_client f')%N }.

Lemma ids_grow_refl f : ids_grow f f.
Proof. by split. Qed.
Lemma ids_grow_trans f g h : ids_grow f g -> ids_grow g h -> ids_grow f h.
Proof. intros [] []. split; by etrans. Qed.

Lemma state_ok_grow f f' w : ids_grow f f' -> state_ok (f, w) -> state_ok (f', w).
Proof.
  intros Hg (? & ? & Ha). split; [done|]. split; [done|]. eapply Forall_impl; [exact Ha|].
  intros id. apply pane_floor_mono, Hg.
Qed.

Lemma ids_inv_grow s f : ids_grow (s_ids s) f -> ids_inv s -> ids_inv (set_ids s f).
Proof.
  intros [] []. split; simpl; (eapply Forall_impl; [eassumption|]; intros id; by apply floor_mono).
Qed.

Lemma base_ids s f : ids_grow (s_ids s) f -> session_base s -> session_base (set_ids s f).
Proof.
  intros Hg [Ht Hw Hgi Hws Hi Hs Hf Hc]. split; try done.
  - by destruct Ht.
  - eapply Forall_impl; [exact Hws|]. intros w. by apply state_ok_grow.
  - by apply ids_inv_grow.
  - by destruct Hf.
  - by destruct Hc.
Qed.

Lemma ok_ids s f : ids_grow (s_ids s) f -> session_ok s -> session_ok (set_ids s f).
Proof. intros Hg Hs. split; [apply base_ids; [done|apply Hs]|apply Hs|apply Hs]. Qed.

Lemma pane_grow f : room f -> ids_grow f (IdFactoryOps.pane f).2.
Proof. intros [? ? Hp ?]. destruct f. split; simpl in *; try done. by apply wrapping_succ_ge. Qed.
Lemma window_grow f : room f -> ids_grow f (IdFactoryOps.window f).2.
Proof. intros [Hw ? ? ?]. destruct f. split; simpl in *; try done. by apply wrapping_succ_ge. Qed.
Lemma group_grow f : room f -> ids_grow f (IdFactoryOps.window_group f).2.
Proof. intros [? Hg ? ?]. destruct f. split; simpl in *; try done. by apply wrapping_succ_ge. Qed.
Lemma client_grow f : room f -> ids_grow f (IdFactoryOps.client f).2.
Proof. intros [? ? ? Hc]. destruct f. split; simpl in *; try done. by apply wrapping_succ_ge. Qed.

(** ** Replacing one window *)

Lemma bind_perm {A B} (f : A -> list B) l k : l ≡ₚ k -> l ≫= f ≡ₚ k ≫= f.
Proof. intros H. by rewrite H. Qed.

Lemma bind_remove {A B} (f : A -> list B) l i x :
  l !! i = Some x -> l ≫= f ≡ₚ f x ++ (remove_at i l ≫= f).
Proof. intros Hi. rewrite <- (bind_perm f _ _ (remove_at_perm i x l Hi)). done. Qed.

Lemma remove_at_insert {A} i (x : A) l : remove_at i (<[i := x]> l) = remove_at i l.
Proof. unfold remove_at. rewrite take_insert_ge, drop_insert_lt by lia. done. Qed.

Lemma bind_replace {A B} (f : A -> list B) l i x y :
  l !! i = Some x -> <[i := y]> l ≫= f ≡ₚ f y ++ (remove_at i l ≫= f).
Proof.
  intros Hi. rewrite (bind_remove f (<[i := y]> l) i y).
  - by rewrite remove_at_insert.
  - apply list_lookup_insert_eq. by eapply lookup_lt_Some.
Qed.

Lemma fmap_replace {A B} (f : A -> B) (l : list A) i x y :
  l !! i = Some x -> f y = f x -> f <$> <[i := y]> l = f <$> l.
Proof.
  intros Hi E. rewrite list_fmap_insert, E. apply list_insert_id. by rewrite list_lookup_fmap, Hi.
Qed.

Lemma Forall_replace {A} (P : A -> Prop) (l : list A) i y : Forall P l -> P y -> Forall P (<[i := y]> l).
Proof. intros. by apply Forall_insert. Qed.

Section Replace.
Context (s : Session) (i : nat) (w w' : Window).
Context (Hw : s_windows s !! i = Some w) (Hk : key w' = key w) (Hok : state_ok (s_ids s, w')).
Context (Hd : NoDup (<[i := w']> (s_windows s) ≫= pane_ids)).

Local Abbreviation s' := (set_windows s (<[i := w']> (s_windows s))).

Lemma replace_ids : w_id <$> s_windows s' = w_id <$> s_windows s.
Proof using Hw Hk. simpl. eapply fmap_replace; [done|]. by injection Hk. Qed.

Lemma base_replace : session_base s -> session_base s'.
Proof using All.
  intros Hb. pose proof Hb as [Ht Hwi Hg Hws [I1 I2 I3] Hs [F1 F2 F3 F4] Hc]. pose proof replace_ids as Hid.
  assert (Hwid : w_id w' = w_id w) by (by injection Hk).
  split; simpl in *; try done.
  - destruct Ht. split; simpl in *; try done; rewrite ?Hid; try done.
    apply Forall_replace; [done|]. destruct Hok as (Hwok & _). intros E.
    apply (window_nonempty _ Hwok). unfold pane_ids in E. by apply fmap_nil_inv in E.
  - intros j x. rewrite list_lookup_insert. case_decide as E; [|by auto].
    destruct E as [<- _]. intros [= <-]. injection Hk as _ ->. auto.
  - by apply Forall_replace.
  - split; simpl; [by rewrite Hid|done|done].
  - assert (Hlen : length (<[i := w']> (s_windows s)) = length (s_windows s)) by apply length_insert.
    split; simpl; [done|done| |].
    + intros E. apply F3. apply nil_length_inv. rewrite <- Hlen, E. done.
    + intros Hne. destruct F4 as (g & x & ? & Hx & ?).
      { intros E. apply Hne. apply nil_length_inv. by rewrite Hlen, E. }
      destruct (decide (s_active_window_index s = i)) as [E|Hni].
      * rewrite E, Hw in Hx. injection Hx as <-. exists g, w'. split; [done|]. split; [|by rewrite Hwid].
        rewrite E. apply list_lookup_insert_eq. by eapply lookup_lt_Some.
      * exists g, x. by rewrite list_lookup_insert_ne.
  - by destruct Hc.
Qed.

Lemma ok_replace : (forall p, p ∈ pane_ids w -> p ∈ pane_ids w') -> session_ok s -> session_ok s'.
Proof using All.
  intros Hsub Hs. pose proof (base_replace (so_base s Hs)) as Hb.
  apply (ok_grow s); [done|done|done|done|]. apply session_grows; [apply Hs|apply Hb| |]; simpl; [by eauto|].
  intros x [j Hj]%list_elem_of_lookup. destruct (decide (j = i)) as [->|Hne].
  - rewrite Hw in Hj. injection Hj as <-. exists w'. split; [|split; [by injection Hk|done]].
    eapply list_elem_of_lookup_2. apply list_lookup_insert_eq. by eapply lookup_lt_Some.
  - exists x. split; [|done]. eapply list_elem_of_lookup_2. by rewrite list_lookup_insert_ne.
Qed.
End Replace.

(** Dropping panes of a window, or adding fresh ones, keeps panes distinct. *)
Lemma panes_drop s i w w' extra :
  session_topology s -> s_windows s !! i = Some w -> pane_ids w ≡ₚ extra ++ pane_ids w' ->
  NoDup (<[i := w']> (s_windows s) ≫= pane_ids).
Proof.
  intros Ht Hw Hp. pose proof (st_panes s Ht) as Hd. rewrite (bind_remove _ _ _ _ Hw), Hp in Hd.
  rewrite (bind_replace _ _ _ _ _ Hw). rewrite <- app_assoc in Hd. by apply NoDup_app in Hd as (_ & _ & ?).
Qed.

Lemma panes_add s i w w' p :
  session_topology s -> s_windows s !! i = Some w -> pane_ids w' ≡ₚ p :: pane_ids w ->
  p ∉ s_windows s ≫= pane_ids -> NoDup (<[i := w']> (s_windows s) ≫= pane_ids).
Proof.
  intros Ht Hw Hp Hf. rewrite (bind_replace _ _ _ _ _ Hw), Hp. simpl.
  pose proof (st_panes s Ht) as Hd. rewrite (bind_remove _ _ _ _ Hw) in Hd, Hf. by constructor.
Qed.

(** ** Adding a window *)

Inductive group_added (id : WindowId) (next : N) (gs : list WindowGroup) : list WindowGroup -> Prop :=
| joins_group i g : gs !! i = Some g -> group_added id next gs (<[i := add_member id g]> gs)
| opens_group g : wg_window_ids g = [id] -> cursor_ok [id] (group_cursor g) ->
    wg_index g = length gs -> wg_id g ∉ wg_id <$> gs -> floor "g" next (wg_id g) ->
    group_added id next gs (gs ++ [g]).

Record window_added (s s' : Session) (w : Window) : Prop := {
  wa_windows : s_windows s' = s_windows s ++ [w];
  wa_groups : group_added (w_id w) (next_window_group (s_ids s')) (s_window_groups s) (s_window_groups s');
  wa_state : state_ok (s_ids s', w);
  wa_index : w_index w = length (s_windows s);
  wa_fresh : w_id w ∉ w_id <$> s_windows s;
  wa_floor : floor "@" (Ids.next_window (s_ids s')) (w_id w);
  wa_panes : forall p, p ∈ pane_ids w -> p ∉ s_windows s ≫= pane_ids;
  wa_ids : ids_grow (s_ids s) (s_ids s');
  wa_clients : s_clients s' = s_clients s;
  wa_observers : s_observer_attachments s' = s_observer_attachments s;
  wa_owner : s_layout_owner_client_id s' = s_layout_owner_client_id s;
  wa_size : s_authoritative_size s' = s_authoritative_size s;
  wa_landing : s_landing_navigation s' = s_landing_navigation s;
  wa_history : s_group_focus_history s' = s_group_focus_history s }.

Lemma add_member_ids id g : wg_window_ids (add_member id g) = wg_window_ids g ++ [id].
Proof. unfold add_member. by destruct (wg_active_window_id _). Qed.
Lemma add_member_id id g : wg_id (add_member id g) = wg_id g.
Proof. unfold add_member. by destruct (wg_active_window_id _). Qed.
Lemma add_member_index id g : wg_index (add_member id g) = wg_index g.
Proof. unfold add_member. by destruct (wg_active_window_id _). Qed.
Lemma add_member_cursor id g : cursor_ok (wg_window_ids g) (group_cursor g) ->
  group_cursor (add_member id g) = group_cursor g.
Proof. intros [(a & Ha & _) _ _]. simpl in Ha. unfold add_member. simpl. by rewrite Ha. Qed.

Section GroupAdded.
Context (id : WindowId) (next : N) (gs gs' : list WindowGroup).
Context (Hadd : group_added id next gs gs').

Lemma added_members : gs' ≫= wg_window_ids ≡ₚ id :: (gs ≫= wg_window_ids).
Proof using Hadd.
  destruct Hadd as [i g Hi|g Hids]; simpl.
  - rewrite (bind_replace _ _ _ _ _ Hi), (bind_remove _ _ _ _ Hi), add_member_ids.
    rewrite <- app_assoc. simpl. by rewrite <- Permutation_middle.
  - rewrite bind_app. simpl. rewrite Hids. simpl. by rewrite Permutation_app_comm.
Qed.

Lemma added_gids : NoDup (wg_id <$> gs) -> NoDup (wg_id <$> gs').
Proof using Hadd.
  intros Hd. destruct Hadd as [i g Hi|g _ _ _ Hf _].
  - by rewrite (fmap_replace _ _ _ _ _ Hi) by apply add_member_id.
  - rewrite fmap_app. apply NoDup_app. split; [done|]. split; [|apply NoDup_singleton].
    intros v Hv Hv'%list_elem_of_singleton. by subst.
Qed.

Lemma added_gids_mono v : v ∈ wg_id <$> gs -> v ∈ wg_id <$> gs'.
Proof using Hadd.
  destruct Hadd as [i g Hi|g _ _ _ _ _].
  - by rewrite (fmap_replace _ _ _ _ _ Hi) by apply add_member_id.
  - rewrite fmap_app, elem_of_app. by left.
Qed.

(** A fact about groups that adding a member keeps. *)
Lemma added_Forall (P : WindowGroup -> Prop) :
  Forall P gs -> (forall g, P g -> P (add_member id g)) ->
  (forall g, wg_window_ids g = [id] -> cursor_ok [id] (group_cursor g) -> floor "g" next (wg_id g) -> P g) ->
  Forall P gs'.
Proof using Hadd.
  intros HP Hm Hn. destruct Hadd as [i g Hi|g ? ? _ _ ?].
  - apply Forall_replace; [done|]. apply Hm. by eapply Forall_lookup_1.
  - apply Forall_app. split; [done|]. by repeat constructor; apply Hn.
Qed.

Lemma added_index : (forall i g, gs !! i = Some g -> wg_index g = i) ->
  forall i g, gs' !! i = Some g -> wg_index g = i.
Proof using Hadd.
  intros Hx i g. destruct Hadd as [j h Hj|h _ _ Hlen _ _].
  - rewrite list_lookup_insert. case_decide as E; [|by auto]. destruct E as [<- _].
    intros [= <-]. rewrite add_member_index. auto.
  - intros [?|[? [? <-]%list_lookup_singleton_Some]]%lookup_app_Some; [auto|]. rewrite Hlen. lia.
Qed.

Lemma added_grow g : g ∈ gs -> exists g', g' ∈ gs' /\ wg_id g' = wg_id g
  /\ forall v, v ∈ wg_window_ids g -> v ∈ wg_window_ids g'.
Proof using Hadd.
  intros [j Hj]%list_elem_of_lookup. destruct Hadd as [i h Hi|h _ _ _ _ _].
  - destruct (decide (j = i)) as [->|Hne].
    + rewrite Hi in Hj. injection Hj as <-. exists (add_member id h).
      rewrite add_member_id, add_member_ids. split; [|split; [done|]].
      * eapply list_elem_of_lookup_2. apply list_lookup_insert_eq. by eapply lookup_lt_Some.
      * intros v. rewrite elem_of_app. by left.
    + exists g. split; [|done]. eapply list_elem_of_lookup_2. by rewrite list_lookup_insert_ne.
  - exists g. split; [|done]. rewrite elem_of_app. left. by eapply list_elem_of_lookup_2.
Qed.

Lemma added_lookup i g : gs !! i = Some g -> Forall (fun g => cursor_ok (wg_window_ids g) (group_cursor g)) gs ->
  exists g', gs' !! i = Some g' /\ wg_active_window_id g' = wg_active_window_id g.
Proof using Hadd.
  intros Hg Hc. destruct Hadd as [j h Hj|h _ _ _ _ _].
  - destruct (decide (i = j)) as [->|Hne].
    + rewrite Hj in Hg. injection Hg as <-. exists (add_member id h).
      split; [apply list_lookup_insert_eq; by eapply lookup_lt_Some|].
      pose proof (add_member_cursor id h (Forall_lookup_1 _ _ _ _ Hc Hj)) as E. by injection E.
    + exists g. by rewrite list_lookup_insert_ne.
  - exists g. split; [by apply lookup_app_l_Some|done].
Qed.
End GroupAdded.

Section Added.
Context (s s' : Session) (w : Window) (Hb : session_base s) (Ha : window_added s s' w).

Lemma added_topology : session_topology s'.
Proof using Hb Ha.
  destruct (sb_topology s Hb) as [T1 T2 T3 T4 T5 T6], Ha. split.
  - by eapply added_gids.
  - rewrite wa_windows0, fmap_app. apply NoDup_app. split; [done|]. split; [|apply NoDup_singleton].
    intros v Hv Hv'%list_elem_of_singleton. by subst.
  - rewrite (added_members _ _ _ _ wa_groups0), wa_windows0, fmap_app, T3. simpl.
    by rewrite Permutation_app_comm.
  - eapply added_Forall; [done|exact T4| |].
    + intros g _. rewrite add_member_ids. by destruct (wg_window_ids g).
    + intros g -> _ _. done.
  - rewrite wa_windows0. apply Forall_app. split; [done|]. repeat constructor.
    intros E. apply (window_nonempty _ (proj1 wa_state0)). unfold pane_ids in E. by apply fmap_nil_inv in E.
  - rewrite wa_windows0, bind_app. apply NoDup_app. split; [done|]. simpl. rewrite app_nil_r. split.
    + intros p Hp Hp'. by apply (wa_panes0 p).
    + apply (wc_ids w (wo_core w (proj1 wa_state0))).
Qed.

Lemma added_loose : session_loose s'.
Proof using Hb Ha.
  pose proof added_topology as Ht. pose proof (sb_ids s Hb) as [I1 I2 I3].
  destruct Ha as [Ew Eg Hst Hix Hfr Hfl _ Hgr Ec Eo El Es _ Eh].
  split; [done| | | | | | | |].
  - rewrite Ew. intros i x [?|[? [? <-]%list_lookup_singleton_Some]]%lookup_app_Some.
    + by apply (sb_windex s Hb).
    + rewrite Hix. lia.
  - eapply added_index; [done|]. apply Hb.
  - rewrite Ew. apply Forall_app. split; [|by apply Forall_singleton].
    eapply Forall_impl; [apply (sb_windows s Hb)|]. intros x. by apply state_ok_grow.
  - destruct Hgr. split.
    + rewrite Ew, fmap_app. apply Forall_app. split; [|by apply Forall_singleton].
      eapply Forall_impl; [exact I1|]. intros v. by apply floor_mono.
    + apply Forall_fmap. eapply added_Forall; [done| | |by intros].
      * apply (Forall_fmap wg_id) in I2. eapply Forall_impl; [exact I2|]. intros g. by apply floor_mono.
      * intros g. simpl. by rewrite add_member_id.
    + rewrite Ec. eapply Forall_impl; [exact I3|]. intros v. by apply floor_mono.
  - rewrite Es. apply Hb.
  - eapply added_Forall; [done|apply (sb_focus s Hb)| |].
    + intros g Hg. simpl. rewrite add_member_cursor, add_member_ids by done.
      eapply cursor_grow; [|exact Hg]. intros v. rewrite elem_of_app. by left.
    + by intros g -> ? _.
  - rewrite Eh. eapply history_grow; [|apply (sb_focus s Hb)]. intros v. by eapply added_gids_mono.
  - apply (clients_inv_same s); [apply Hb| |done|done]. rewrite Ec. apply same_client_refl, Hb.
Qed.

Lemma added_grows : grows (from_session s) (from_session s').
Proof using Hb Ha.
  apply session_grows; [apply Hb|apply added_topology| |].
  - intros g Hg. eapply added_grow; [apply Ha|done].
  - intros x Hx. exists x. rewrite (wa_windows _ _ _ Ha), elem_of_app. auto.
Qed.

(** A window added to a session with windows does not move the focus. *)
Lemma added_active : s_windows s <> [] -> s_active_group_index s' = s_active_group_index s ->
  s_active_window_index s' = s_active_window_index s -> active_ok s'.
Proof using Hb Ha.
  intros Hne E1 E2. destruct (fi_active s (sb_focus s Hb) Hne) as (g & x & Hg & Hx & Hgx).
  assert (Hx' : s_windows s' !! s_active_window_index s' = Some x).
  { rewrite E2, (wa_windows _ _ _ Ha). by apply lookup_app_l_Some. }
  rewrite <- E1 in Hg. destruct (added_lookup _ _ _ _ (wa_groups _ _ _ Ha) _ _ Hg) as (g' & Hg' & Hact).
  { by apply (fi_groups s (sb_focus s Hb)). }
  eapply active_intro; [exact Hg'|exact Hx'|by rewrite Hact].
Qed.
End Added.
