(* ===== verification/SessionGrowth.v ===== *)
(** * Commands that add windows, groups and panes

    Creation keeps the invariant as long as the identity factory has room:
    the new identity is not in use, the new window joins exactly one group,
    and every view stays valid because the topology only grows. *)

From S2P Require Import Prelude RustStr Ids LayoutTypes Sizing LayoutTree WindowOps WindowInv WindowSteps WindowMoves WindowCommands.
From S2P Require Import SessionTypes Reconcile SessionTargets SessionClients SessionWindows SessionMoves SessionInv SessionOk SessionFocus SessionRemoval.
From Stdlib Require Import Ascii.
Local Open Scope Z_scope.

(** ** A new window *)

Record fresh_window (s : Session) (ids : IdFactory) (index : nat) (w : Window) : Prop := {
  fw_state : state_ok (ids, w);
  fw_index : w_index w = index;
  fw_fresh : w_id w ∉ w_id <$> s_windows s;
  fw_floor : floor "@" (Ids.next_window ids) (w_id w);
  fw_panes : forall p, p ∈ pane_ids w -> p ∉ s_windows s ≫= pane_ids;
  fw_ids : ids_grow (s_ids s) ids;
  fw_group : next_window_group ids = next_window_group (s_ids s) }.

Lemma pane_unused s : session_base s -> room (s_ids s) ->
  (IdFactoryOps.pane (s_ids s)).1 ∉ s_windows s ≫= pane_ids.
Proof.
  intros Hb Hr (w & Hp & [i Hi]%list_elem_of_lookup)%list_elem_of_bind.
  destruct (windows_state s i w Hb Hi) as (_ & _ & Ha). by apply (pane_fresh (s_ids s) _ Ha (rm_pane _ Hr)).
Qed.

Lemma alloc_window_ok s index name : session_base s -> room (s_ids s) ->
  wp (alloc_window index name) s
    (fun s' w => exists ids, s' = set_ids s ids /\ fresh_window s ids index w) (fun s' => s' = s).
Proof.
  intros Hb Hr. pose proof (pane_unused s Hb Hr) as Hp. unfold wp, alloc_window.
  pose proof (valid_size_u16 _ (sb_size s Hb)) as Hu.
  pose proof (new_ok (s_ids s) index name (s_authoritative_size s) Hu (rm_pane _ Hr)) as Hn.
  pose proof (ii_windows s (sb_ids s Hb)) as Hfl. destruct Hr as [Rw Rg Rp Rc].
  revert Hn. unfold Win.new. op_run. destruct (Size_validate _) as [[]|e|]; [|by destruct s|done].
  unfold Win.alloc. destruct (s_ids s) as [a b c d e f] eqn:Eids. simpl in *. intros (Hst & _ & _).
  eexists. split; [done|]. split; simpl; try done.
  - by apply floor_fresh.
  - by apply floor_new.
  - intros p ->%list_elem_of_singleton. done.
  - rewrite Eids. by split; simpl; try done; apply wrapping_succ_ge.
  - by rewrite Eids.
Qed.

Lemma state_ok_created ids t w : state_ok (ids, w) -> state_ok (ids, window_set_created_at t w).
Proof. intros ([[] ? [] ?] & ? & ?). split; [|done]. split; [by split|done|by split|done]. Qed.

Lemma fresh_created s ids i w now : fresh_window s ids i w ->
  fresh_window s ids i (window_set_created_at (Some now) w).
Proof. intros []. split; try done. by apply state_ok_created. Qed.

Section Growth.
Context `{Clock}.

(** The end of a creation: the new window may take the focus. *)
Lemma added_selected s s' w (sel : bool) i :
  session_ok s -> window_added s s' w -> (i < length (s_windows s'))%nat ->
  (sel = false -> active_ok s') ->
  session_ok (if sel then focus_window i s' else s')
  /\ s_clients (if sel then focus_window i s' else s') = s_clients s.
Proof.
  intros Hs Ha Hi Hact. pose proof (added_loose s s' w (so_base s Hs) Ha) as Hl.
  pose proof (added_grows s s' w (so_base s Hs) Ha) as Hg.
  assert (Hok : forall s'', reshape s' s'' -> active_ok s'' ->
            session_ok s'' /\ s_clients s'' = s_clients s).
  { intros s'' Hr Ha''. pose proof (reshape_loose _ _ Hr Hl) as Hl''.
    assert (Hg2 : grows (from_session s') (from_session s'')).
    { apply reshape_grows; [apply Hl|apply Hl''|done]. }
    split; [|by rewrite (rf_clients _ _ Hr), (wa_clients _ _ _ Ha)].
    apply (ok_grow s); [done|by apply loose_base| | |].
    - by rewrite (rf_clients _ _ Hr), (wa_clients _ _ _ Ha).
    - by rewrite (rf_landing _ _ Hr), (wa_landing _ _ _ Ha).
    - destruct Hg as [G1 G2 G3], Hg2 as [K1 K2 K3]. split; [by auto| |].
      + intros k l Hk. destruct (G2 k l Hk) as (l' & Hl' & ?). destruct (K2 k l' Hl') as (l'' & ? & ?).
        exists l''. auto.
      + intros k l Hk. destruct (G3 k l Hk) as (l' & Hl' & ?). destruct (K3 k l' Hl') as (l'' & ? & ?).
        exists l''. auto. }
  destruct sel.
  - destruct (focus_window_ok s' i Hl Hi) as [Hr Ha']. by apply Hok.
  - apply Hok; [by apply reshape_refl|by apply Hact].
Qed.

Lemma new_group_added id next gs group_id name now :
  group_id ∉ wg_id <$> gs -> floor "g" next group_id ->
  group_added id next gs (gs ++ [WindowGroup_new group_id (length gs) name id now]).
Proof.
  intros Hf Hfl. apply opens_group; try done. split; simpl.
  - exists id. split; [done|by left].
  - done.
  - split; simpl; [by intros v ?%not_elem_of_nil|constructor|lia].
Qed.

Lemma wp_alloc_group s Q R :
  Q (set_ids s (IdFactoryOps.window_group (s_ids s)).2) (IdFactoryOps.window_group (s_ids s)).1 ->
  wp alloc_group_id s Q R.
Proof.
  unfold wp, alloc_group_id, op_zoom, op_step, Win.alloc.
  by destruct (IdFactoryOps.window_group (s_ids s)).
Qed.

Lemma group_alloc ids gs :
  Forall (floor "g" (next_window_group ids)) gs -> (next_window_group ids < u64_max)%N ->
  let '(id, ids') := IdFactoryOps.window_group ids in
  id ∉ gs /\ floor "g" (next_window_group ids') id /\ ids_grow ids ids'.
Proof.
  intros Hf Hr. destruct ids as [a b c d e f]. simpl in *.
  split; [by apply floor_fresh|]. split; [by apply floor_new|]. by split; simpl; try done; apply wrapping_succ_ge.
Qed.

Lemma fresh_added s s' ids ids' w :
  fresh_window s ids (length (s_windows s)) w -> ids_grow ids ids' ->
  s_ids s' = ids' -> s_windows s' = s_windows s ++ [w] ->
  group_added (w_id w) (next_window_group ids') (s_window_groups s) (s_window_groups s') ->
  s_clients s' = s_clients s -> s_observer_attachments s' = s_observer_attachments s ->
  s_layout_owner_client_id s' = s_layout_owner_client_id s ->
  s_authoritative_size s' = s_authoritative_size s ->
  s_landing_navigation s' = s_landing_navigation s ->
  s_group_focus_history s' = s_group_focus_history s -> window_added s s' w.
Proof.
  intros [H1 H2 H3 H4 H5 H6 H7] Hg <- Hw Hgr ? ? ? ? ? ?. split; try done.
  - by eapply state_ok_grow.
  - eapply floor_mono; [apply Hg|done].
  - by eapply ids_grow_trans.
Qed.

Lemma last_index s s' w : window_added s s' w -> (length (s_windows s) < length (s_windows s'))%nat.
Proof. intros Ha. rewrite (wa_windows _ _ _ Ha), length_app. simpl. lia. Qed.

Lemma new_window_body_ok s name sel : session_ok s -> room (s_ids s) ->
  body_ok (new_window_body name sel) s.
Proof.
  intros Hs Hr. pose proof (so_base s Hs) as Hb. unfold body_ok, new_window_body. wps.
  eapply wp_mono; [by apply alloc_window_ok| |by intros ? ->]. cbv beta. intros _ w0 (ids & -> & Hfw). wps.
  apply wp_clock. wps. apply (fresh_created _ _ _ _ (clock_at (s_clock_reads (set_ids s ids)))) in Hfw.
  set (w := window_set_created_at _ w0) in *. clearbody w.
  change (s_window_groups _) with (s_window_groups s).
  destruct (s_window_groups s) as [|g0 gs] eqn:Eg.
  - wps. apply wp_alloc_group. wps. apply wp_clock. wps.
    pose proof (group_alloc ids [] (Forall_nil_2 _)) as Hga. rewrite (fw_group _ _ _ _ Hfw) in Hga.
    specialize (Hga (rm_group _ Hr)).
    change (s_ids (set_windows _ _)) with ids.
    destruct (IdFactoryOps.window_group ids) as [gid ids'] eqn:Hgid. destruct Hga as (Hnew & Hfl & Hgr). simpl fst.
    assert (Ew : s_windows s = []).
    { destruct (s_windows s) eqn:E; [done|]. exfalso.
      apply (proj1 (groups_nonempty s (sb_topology s Hb))); [by rewrite E|done]. }
    match goal with |- session_ok (if sel then focus_window _ ?x else _) /\ _ => set (s' := x) end.
    assert (Ha : window_added s s' w).
    { eapply fresh_added; [exact Hfw|exact Hgr|done|done| |done..].
      subst s'. simpl. rewrite Eg. apply (new_group_added _ _ []); done. }
    apply (added_selected s s' w); [done|done|by eapply last_index|]. intros _.
    eapply active_intro.
    + subst s'. simpl. rewrite Eg. done.
    + subst s'. simpl. rewrite (fi_empty s (sb_focus s Hb) Ew), Ew. done.
    + done.
  - wps. change (s_active_group_index _) with (s_active_group_index s). wps.
    match goal with |- session_ok (if sel then focus_window _ ?x else _) /\ _ => set (s' := x) end.
    assert (Ha : window_added s s' w).
    { eapply fresh_added; [exact Hfw|apply ids_grow_refl|done|done| |done..].
      subst s'. simpl. rewrite Eg. set (k := Nat.min _ _).
      destruct (lookup_lt_is_Some_2 (g0 :: gs) k) as [g Hg]; [subst k; simpl; lia|].
      rewrite (list_alter_insert _ k g) by done. by apply joins_group. }
    apply (added_selected s s' w); [done|done|by eapply last_index|]. intros _.
    eapply added_active; [exact Hb|exact Ha| |done|done].
    apply groups_nonempty; [apply Hb|]. by rewrite Eg.
Qed.

Lemma body_emit {A} (a : A) s0 s : session_ok s -> s_clients s = s_clients s0 ->
  wp (emit a) s (fun s' _ => session_ok s' /\ s_clients s' = s_clients s0) session_ok.
Proof.
  intros Hs Hc. apply wp_emit. intros s' Hk. split; [by eapply ok_frame|].
  rewrite <- Hc. unfold skeleton in Hk. congruence.
Qed.

Lemma new_window_in_group_ok s gid name sel : session_ok s -> room (s_ids s) ->
  body_ok (new_window_in_group_session_owned gid name sel) s.
Proof.
  intros Hs Hr. pose proof (so_base s Hs) as Hb. unfold body_ok, new_window_in_group_session_owned. wps.
  destruct (group_position (s_window_groups s) gid) as [k|] eqn:Hk; [|done].
  apply wp_lift; [done| |done]. intros ? [= <-]. wps.
  eapply wp_mono; [by apply alloc_window_ok| |by intros ? ->]. cbv beta. intros _ w0 (ids & -> & Hfw). wps.
  apply wp_clock. wps. apply (fresh_created _ _ _ _ (clock_at (s_clock_reads (set_ids s ids)))) in Hfw.
  set (w := window_set_created_at _ w0) in *. clearbody w.
  match goal with |- wp _ (if sel then focus_window _ ?x else _) _ _ => set (s' := x) end.
  apply position_id_Some in Hk as (g & Hg & _).
  assert (Ha : window_added s s' w).
  { eapply fresh_added; [exact Hfw|apply ids_grow_refl|done|done| |done..].
    subst s'. simpl. rewrite (list_alter_insert _ k g) by done. by apply joins_group. }
  destruct (added_selected s s' w sel (length (s_windows s))) as [H1 H2];
    [done|done|by eapply last_index| |by apply body_emit]. intros _.
  eapply added_active; [exact Hb|exact Ha| |done|done].
  apply groups_nonempty; [apply Hb|]. intros E. by rewrite E in Hg.
Qed.

Lemma new_group_body_ok s name sel : session_ok s -> room (s_ids s) ->
  body_ok (new_group_body name sel) s.
Proof.
  intros Hs Hr. pose proof (so_base s Hs) as Hb. unfold body_ok, new_group_body. wps.
  eapply wp_mono; [by apply alloc_window_ok| |by intros ? ->]. cbv beta. intros _ w0 (ids & -> & Hfw). wps.
  apply wp_clock. wps. apply (fresh_created _ _ _ _ (clock_at (s_clock_reads (set_ids s ids)))) in Hfw.
  set (w := window_set_created_at _ w0) in *. clearbody w.
  apply wp_alloc_group. wps.
  assert (Hga : Forall (floor "g" (next_window_group ids)) (wg_id <$> s_window_groups s)).
  { rewrite (fw_group _ _ _ _ Hfw). apply (sb_ids s Hb). }
  apply group_alloc in Hga; [|rewrite (fw_group _ _ _ _ Hfw); apply Hr].
  change (s_ids (set_clock_reads _ _)) with ids.
  destruct (IdFactoryOps.window_group ids) as [gid ids']. destruct Hga as (Hnew & Hfl & Hgr). simpl fst.
  match goal with |- session_ok (if _ then focus_window _ ?x else _) /\ _ => set (s' := x) end.
  assert (Ha : window_added s s' w).
  { eapply fresh_added; [exact Hfw|exact Hgr|done|done| |done..]. by apply new_group_added. }
  apply (added_selected s s' w); [done|done|by eapply last_index|].
  intros [_ Hlen%Nat.eqb_neq]%orb_false_iff.
  eapply added_active; [exact Hb|exact Ha| |done|done].
  apply groups_nonempty; [apply Hb|]. intros E. apply Hlen. subst s'. simpl. by rewrite E.
Qed.

(** ** Splitting *)

Lemma split_ok s i w d req sel : session_ok s -> room (s_ids s) -> s_windows s !! i = Some w ->
  body_ok (at_window_with_ids i (Win.split_active_with_requested_size d req sel)) s.
Proof.
  intros Hs Hr Hw. pose proof (so_base s Hs) as Hb. pose proof (windows_state s i w Hb Hw) as Hst.
  pose proof (split_active_spec (s_ids s) w d req sel (proj1 Hst) (proj2 (proj2 Hst)) (rm_pane _ Hr)) as H'.
  pose proof (split_key d req sel (s_ids s) w) as Hk.
  unfold body_ok, wp, at_window_with_ids. rewrite Hw.
  pose proof (pane_grow (s_ids s) Hr) as Hg. pose proof (pane_unused s Hb Hr) as Hnew.
  destruct (Win.split_active_with_requested_size d req sel (s_ids s, w)) as [[ids w'] [p|e|]]; simpl in *.
  - destruct H' as (Hok' & Hsy & Ha & _ & _ & _ & Hperm & _ & Hal). rewrite Hal in Hg, Hnew. simpl in Hg, Hnew. split; [|done].
    assert (Hst' : state_ok (ids, w')).
    { split; [done|]. split; [|done]. apply synced_indexed; [apply Hok'|done]. }
    apply (ok_replace (set_ids s ids) i w w'); [done|done|done| | |by apply ok_ids].
    + eapply (panes_add s); [apply Hb|done|exact Hperm|done].
    + intros q Hq. change (q ∈ ids_of (w_panes w')). rewrite Hperm. by right.
  - destruct H' as [-> ->]. rewrite list_insert_id by done. apply (ok_frame s); [by destruct s|done].
  - done.
Qed.
End Growth.

(** ** Commands that remove panes, windows and groups *)



(** ** Locations *)

Lemma window_index_or_active_ok s target i : session_base s ->
  window_index_or_active s target = Ok i -> (i < length (s_windows s))%nat.
Proof.
  intros Hb. unfold window_index_or_active. destruct target as [t|].
  - intros Hi%ok_or_Ok_inv. unfold window_index_by_target in Hi.
    assert (Hg : forall k, k ∈ active_group_window_indexes s -> (k < length (s_windows s))%nat).
    { intros k. unfold active_group_window_indexes. case_match.
      - intros (v & _ & Hv)%list_elem_of_omap. by eapply position_lt.
      - rewrite list_elem_of_In, in_seq. lia. }
    destruct (window_index_by_id s t) eqn:E1; [injection Hi as <-; by eapply position_lt|].
    destruct (window_index_by_index s t) eqn:E2; simpl in Hi.
    + injection Hi as <-. unfold window_index_by_index in E2. destruct (parse_u64 t); [|done]. simpl in E2.
      unfold get_N in E2. destruct (_ <? _)%N; simpl in E2; [|by eapply position_lt].
      destruct (_ !! _) eqn:E3; simpl in E2; [|by eapply position_lt].
      injection E2 as <-. apply Hg. by eapply list_elem_of_lookup_2.
    + unfold window_index_by_name in Hi. destruct (List.find _ _) eqn:E3; simpl in Hi.
      * injection Hi as <-. apply find_some in E3 as [Hin _]. apply Hg. by apply list_elem_of_In.
      * by eapply position_lt.
  - destruct (s_windows s) as [|x ws] eqn:E; [done|]. intros [= <-]. rewrite <- E.
    destruct (fi_active s (sb_focus s Hb)) as (g & w & _ & Hw & _); [by rewrite E|].
    by eapply lookup_lt_Some.
Qed.

Lemma no_panic_window_index s target : no_panic (window_index_or_active s target).
Proof. unfold window_index_or_active. destruct target; [auto with mez|]. by case_match. Qed.

Lemma find_pane_ok ws k t i j : find_pane ws k t = Some (i, j) ->
  exists w p, ws !! (i - k)%nat = Some w /\ (k <= i)%nat /\ w_panes w !! j = Some p /\ p_id p = t.
Proof.
  revert k. induction ws as [|w ws IH]; intros k; simpl; [done|].
  destruct (Win.pane_index_by_id w t) as [j'|] eqn:E.
  - intros [= <- <-]. unfold Win.pane_index_by_id in E. apply position_Some in E as (p & Hp & Hid & _).
    exists w, p. rewrite Nat.sub_diag. split; [done|]. split; [lia|]. split; [done|]. by apply String.eqb_eq.
  - intros (w' & p & Hw & Hle & Hp)%IH. exists w', p.
    destruct (i - k)%nat eqn:E'; [lia|]. simpl. replace n with (i - S k)%nat by lia.
    split; [done|]. split; [lia|done].
Qed.

Lemma pane_location_ok s target i j : session_base s -> pane_location s target = Ok (i, j) ->
  exists w p, s_windows s !! i = Some w /\ w_panes w !! j = Some p.
Proof.
  intros Hb. unfold pane_location. destruct target as [t|].
  - assert (Hany : ok_or (find_pane (s_windows s) 0 t) (not_found "pane not found") = Ok (i, j) ->
              exists w p, s_windows s !! i = Some w /\ w_panes w !! j = Some p).
    { intros (w & p & Hw & _ & Hp & _)%ok_or_Ok_inv%find_pane_ok. rewrite Nat.sub_0_r in Hw. eauto. }
    destruct (s_windows s !! s_active_window_index s) as [w|] eqn:Hw; [|done].
    destruct (Win.pane_index w (Some t)) as [j'|e|] eqn:E; [|done|done]. intros [= <- <-].
    pose proof (windows_state s _ w Hb Hw) as (Hok & _). apply pane_index_Ok in E; [|done].
    destruct (lookup_lt_is_Some_2 _ _ E) as [p Hp]. eauto.
  - destruct (s_windows s !! s_active_window_index s) as [w|] eqn:Hw; simpl; [|done]. intros [= <- <-].
    pose proof (windows_state s _ w Hb Hw) as (Hok & _).
    destruct (lookup_lt_is_Some_2 _ _ (fo_lt w (wo_focus w Hok))) as [p Hp]. eauto.
Qed.

Lemma no_panic_pane_location s target : no_panic (pane_location s target).
Proof.
  unfold pane_location. destruct target as [t|].
  - repeat case_match; auto with mez; done.
  - destruct (s_windows s !! _); done.
Qed.

Lemma no_panic_Size_validate size : no_panic (Size_validate size).
Proof.
  pose proof (no_panic_Size_new (columns size) (rows size)) as Hn. unfold Size_new in Hn.
  destruct size as [c r]. simpl in Hn. by destruct (Size_validate (mkSize c r)).
Qed.

Lemma index_or_panic_lookup {A} (l : list A) i x : l !! i = Some x -> index_or_panic l i = Ok x :> result A.
Proof. unfold index_or_panic. by intros ->. Qed.

Lemma pane_at_ok s i j w p :
  s_windows s !! i = Some w -> w_panes w !! j = Some p -> pane_at s i j = Ok p.
Proof.
  intros Hw Hp. unfold pane_at. rewrite (index_or_panic_lookup _ _ _ Hw). simpl.
  by apply index_or_panic_lookup.
Qed.

(** ** Commands that end with stale views *)

Section Stale.
Context `{Clock}.

Lemma attached_navigation s id : clients_inv s -> is_attached_primary s id = true ->
  exists n, navigation s id = Ok n.
Proof.
  intros Hc (c & Hin & <- & Hp%interactive_is_primary)%attached_primary_client.
  pose proof (ci_primary s Hc) as Hnav. rewrite Forall_forall in Hnav.
  destruct (Hnav c Hin Hp) as [_ [n Hn]]. exists n.
  unfold navigation. rewrite find_by_client_id by (try apply Hc; done). simpl. by rewrite Hp, Hn.
Qed.

Lemma capture_base s id : session_base s -> is_attached_primary s id = true ->
  wp (capture_client_navigation id) s (fun s' _ => session_base s') (fun _ => False).
Proof.
  intros Hb Hp. unfold capture_client_navigation. wps.
  pose proof (proj2 (require_primary_Ok s id) Hp) as Hr. rewrite Hr.
  apply wp_lift; [done| |done]. intros _ _. wps.
  destruct (attached_navigation s id (sb_clients s Hb) Hp) as [n Hn]. rewrite Hn.
  apply wp_lift; [done| |done]. intros ? [= <-]. unfold wp, assign_navigation. rewrite Hn.
  apply base_clients; [done|]. apply update_client_same; [apply Hb|]. intros. by apply same_client_navigation.
Qed.

(** A command body after which only [session_base] holds. *)
Definition stale_ok {A} (m : smethod A) (s : Session) : Prop :=
  wp m s (fun s' _ => session_base s' /\ s_clients s' = s_clients s) session_ok.

Lemma as_client_stale {A B} id (m : smethod A) (k : A -> smethod B) s :
  session_ok s -> (forall s', session_ok s' -> s_ids s' = s_ids s -> stale_ok m s') ->
  (forall a s', session_ok s' -> maintains (k a) s') ->
  maintains (as_client id m ≫= fun a => reconcile_views ≫= fun _ => k a) s.
Proof.
  intros Hs Hm Hk. unfold maintains. wps. unfold as_client.
  unfold authorized. wps. apply wp_lift; [apply require_primary_no_panic| |done].
  intros [] Hp%require_primary_Ok. wps.
  eapply wp_mono; [by apply maintains_activate| |done]. cbv beta. intros s1 _ (Hs1 & Hp1 & Hi1). wps.
  eapply wp_mono; [by apply Hm| |done]. cbv beta. intros s2 a (Hs2 & Hc2). wps.
  eapply wp_mono; [apply capture_base; [done|]| |done].
  { by rewrite (attached_primary_clients s1). }
  cbv beta. intros s3 _ Hs3. wps. apply Hk. by apply reconcile_client_navigation_ok.
Qed.

Lemma remove_window_ok s i : session_base s -> (i < length (s_windows s))%nat ->
  wp (remove_window i) s (fun s' _ => session_base s' /\ s_clients s' = s_clients s) (fun _ => False).
Proof.
  intros Hb [w Hw]%lookup_lt_is_Some_2. unfold remove_window. wps.
  rewrite (index_or_panic_lookup _ _ _ Hw). apply wp_lift; [done| |done]. intros ? [= <-]. wps.
  destruct (after_removal_loose s i (remove_at i (s_windows s)) (base_loose s Hb)) as (Hl & Hm & _);
    [apply sublist_remove_at|].
  eapply wp_mono; [by apply restore_focus_ok| |done].
  cbv beta. intros s'' _ (? & Hm' & _). wps. split; [done|]. unfold membership in *. congruence.
Qed.

(** A window that has lost a pane. *)
Lemma removal_replace s i w j p w' : session_base s -> s_windows s !! i = Some w ->
  w_panes w !! j = Some p -> removal_result w j w' -> key w' = key w ->
  session_base (set_windows s (<[i := w']> (s_windows s))).
Proof.
  intros Hb Hw Hp (Hok' & Hsy & Hids & _) Hk.
  destruct (windows_state s i w Hb Hw) as (Hok & Hix & Ha).
  assert (Hperm : ids_of (w_panes w) ≡ₚ p_id p :: ids_of (w_panes w')).
  { rewrite Hids, <- remaining_ids. by apply remaining_ids_perm. }
  apply (base_replace s i w w'); [done|done| | |done].
  - apply (good_synced _ w); try done. intros id Hid. rewrite Hperm. by right.
  - by apply (panes_drop s i w w' [p_id p]); [apply Hb|done|].
Qed.

Lemma at_window_kill s i w t : session_ok s -> s_windows s !! i = Some w ->
  wp (at_window i (Win.kill_pane t)) s (fun s' _ => session_base s' /\ s_clients s' = s_clients s) session_ok.
Proof.
  intros Hs Hw. pose proof (so_base s Hs) as Hb.
  destruct (windows_state s i w Hb Hw) as (Hok & _).
  pose proof (kill_pane_spec w t Hok) as Hk. pose proof (kill_keyed t w) as Hkey.
  unfold wp, at_window. rewrite Hw. destruct (Win.kill_pane t w) as [w' [p|e|]]; simpl in *; [| |done].
  - destruct Hk as (j & _ & Hp & Hr). split; [|done]. by eapply removal_replace.
  - subst w'. rewrite list_insert_id by done. apply (ok_frame s); [by destruct s|done].
Qed.

Lemma remove_pane_ok s i t : session_ok s -> (i < length (s_windows s))%nat ->
  wp (remove_pane i t) s (fun s' _ => session_base s' /\ s_clients s' = s_clients s) session_ok.
Proof.
  intros Hs Hi. destruct (lookup_lt_is_Some_2 _ _ Hi) as [w Hw]. unfold remove_pane. wps.
  rewrite (index_or_panic_lookup _ _ _ Hw). apply wp_lift; [done| |done]. intros ? [= <-].
  destruct (_ =? 1)%nat; wps.
  - eapply wp_mono; [apply remove_window_ok; [apply Hs|done]| |done]. cbv beta. intros. by wps.
  - eapply wp_mono; [by eapply at_window_kill| |done]. cbv beta. intros. by wps.
Qed.

Lemma session_finish_removal_ok r s : session_base s -> wp (finish_removal r) s
  (fun s' _ => session_ok s' /\ forall id, is_attached_primary s' id = is_attached_primary s id) session_ok.
Proof.
  intros Hb. unfold finish_removal. wps. apply wp_record_event. intros s' e Hk. wps. split.
  - eapply ok_frame; [symmetry; exact Hk|]. by apply reconcile_client_navigation_ok.
  - intros id. rewrite <- (attached_primary_same s (reconcile_client_navigation s).1 id).
    + apply attached_primary_clients. unfold skeleton in Hk. congruence.
    + by apply reconcile_same_clients.
Qed.

(** ** The commands *)

Lemma close_exited_pane_ok s p : session_ok s -> maintains (close_exited_pane_with_effects p) s.
Proof.
  intros Hs. unfold maintains, close_exited_pane_with_effects. wps.
  apply wp_lift; [apply no_panic_pane_location| |done]. intros [i j] Hl. wps.
  apply pane_location_ok in Hl as (w & q & Hw & _); [|apply Hs].
  eapply wp_mono; [apply remove_pane_ok; [done|by eapply lookup_lt_Some]| |done].
  cbv beta. intros s' r [Hb _]. eapply wp_mono; [by apply session_finish_removal_ok| |done]. by intros ? ? [? _].
Qed.

Lemma kill_pane_ok s id t force : session_ok s -> maintains (kill_pane_with_effects id t force) s.
Proof.
  intros Hs. apply maintains_as_client; [done|]. intros s1 Hs1 Hp1 _. unfold kill_pane_session_owned. wps.
  apply wp_lift; [apply no_panic_pane_location| |done]. intros [i j] Hl. wps.
  apply pane_location_ok in Hl as (w & q & Hw & Hq); [|apply Hs1].
  rewrite Hw. apply wp_lift; [done| |done]. intros ? [= <-]. wps.
  rewrite Hq. apply wp_lift; [done| |done]. intros ? [= <-]. wps.
  apply wp_lift; [by destruct (p_live q && negb force)| |done]. intros _ _. wps.
  eapply wp_mono; [apply remove_pane_ok; [done|by eapply lookup_lt_Some]| |done].
  cbv beta. intros s' r [Hb Hc]. eapply wp_mono; [by apply session_finish_removal_ok| |done].
  cbv beta. intros s'' _ [? Ha]. split; [done|]. by rewrite Ha, (attached_primary_clients s1).
Qed.

Lemma kill_window_ok s id t force : session_ok s -> maintains (kill_window_transition id t force) s.
Proof.
  intros Hs. apply as_client_stale; [done| |].
  - intros s1 Hs1 _. unfold stale_ok. wps.
    apply wp_lift; [apply no_panic_window_index| |done]. intros i Hi. wps.
    apply window_index_or_active_ok in Hi; [|apply Hs1]. destruct (lookup_lt_is_Some_2 _ _ Hi) as [w Hw].
    rewrite (index_or_panic_lookup _ _ _ Hw). apply wp_lift; [done| |done]. intros ? [= <-]. wps.
    apply wp_lift; [by destruct (existsb p_live (w_panes w) && negb force)| |done]. intros _ _.
    eapply wp_mono; [apply remove_window_ok; [apply Hs1|done]|by intros ? ?|done].
  - intros a s' Hs'. apply maintains_bind; [by wps|]. intros. by apply maintains_emit.
Qed.

Lemma group_index_or_active_ok s t i : session_base s ->
  group_index_or_active s t = Ok i -> (i < length (s_window_groups s))%nat.
Proof.
  intros Hb. unfold group_index_or_active.
  assert (Hact : s_window_groups s <> [] -> (s_active_group_index s < length (s_window_groups s))%nat).
  { intros Hne. destruct (fi_active s (sb_focus s Hb)) as (g & w & Hg & _).
    - apply groups_nonempty; [apply Hb|done].
    - by eapply lookup_lt_Some. }
  assert (Hdef : match s_window_groups s with
                 | [] => Err (invalid_state "session has no window groups")
                 | _ => Ok (s_active_group_index s)
                 end = Ok i -> (i < length (s_window_groups s))%nat).
  { destruct (s_window_groups s) eqn:E; [done|]. intros [= <-]. by apply Hact. }
  destruct t as [t|]; [|done]. destruct (String.eqb t "current"); [done|].
  intros Hi%ok_or_Ok_inv. unfold group_index_by_target in Hi.
  set (n := length (s_window_groups s)) in *.
  assert (Hpos : n <> 0%nat -> (s_active_group_index s < n)%nat).
  { intros Hn. apply Hact. intros E. apply Hn. subst n. by rewrite E. }
  clear Hdef Hact. repeat (case_match; simplify_eq); bool_to_prop.
  - apply Nat.mod_upper_bound. lia.
  - lia.
  - specialize (Hpos ltac:(lia)). lia.
  - destruct (s_last_active_group_index s) as [k|]; [|done]. simpl in Hi.
    destruct (Nat.ltb_spec k n); [|done]. by injection Hi as <-.
  - destruct (group_position _ t) eqn:E; [injection Hi as <-; by eapply group_position_lt|].
    destruct (parse_u64 t ≫= _) eqn:E2; simpl in Hi.
    + injection Hi as <-. destruct (parse_u64 t); [|done]. by eapply position_lt.
    + by eapply position_lt.
Qed.

Lemma no_panic_group_index s t : no_panic (group_index_or_active s t).
Proof. unfold group_index_or_active. destruct t; repeat case_match; auto with mez; done. Qed.

Lemma kill_group_ok s id t force : session_ok s -> maintains (kill_group_transition id t force) s.
Proof.
  intros Hs. apply as_client_stale; [done| |].
  - intros s1 Hs1 _. unfold stale_ok, kill_group_body. wps.
    apply wp_lift; [by destruct (_ <=? 1)%nat| |done]. intros _ _. wps.
    apply wp_lift; [apply no_panic_group_index| |done]. intros i Hi. wps.
    apply group_index_or_active_ok in Hi; [|apply Hs1]. destruct (lookup_lt_is_Some_2 _ _ Hi) as [g Hg].
    rewrite (index_or_panic_lookup _ _ _ Hg). apply wp_lift; [done| |done]. intros ? [= <-]. wps.
    apply wp_lift; [by destruct (existsb _ _ && negb force)| |done]. intros _ _. wps.
    set (ws := List.filter _ (s_windows s1)). fold (keep_windows ws s1).
    assert (Hsub : ws `sublist_of` s_windows s1) by apply sublist_list_filter.
    pose proof (prune_loose _ (keep_prunable s1 ws (base_loose s1 (so_base s1 Hs1)) Hsub)) as Hl.
    destruct (prune_membership (keep_windows ws s1)) as [Hm _].
    eapply wp_mono; [by apply restore_focus_ok| |done]. cbv beta. intros s2 _ (Hb2 & Hm2 & _). wps.
    split; [done|]. rewrite Hm in Hm2. by injection Hm2.
  - intros a s' Hs'. apply maintains_bind; [by wps|]. intros. by apply maintains_emit.
Qed.

Lemma clear_layout_base s : session_base s -> session_base (clear_layout s).
Proof.
  intros [_ _ _ _ [_ _ I3] Hs _ Hc]. split; try done.
  - split; simpl; try constructor; try done.
  - split; simpl; [by apply Forall_nil| |done|done]. split; simpl; [by intros v ?%not_elem_of_nil|constructor|lia].
  - by destruct Hc.
Qed.

Lemma kill_session_ok s id force : session_ok s -> maintains (kill_session id force) s.
Proof.
  intros Hs. apply maintains_authorized; [done|]. intros Hp. unfold maintains. wps.
  eapply wp_mono; [by apply maintains_activate| |done]. cbv beta. intros s1 _ (Hs1 & _ & _). wps.
  apply wp_lift; [by destruct (existsb _ _ && negb force)| |done]. intros _ _. wps.
  apply maintains_emit. apply reconcile_client_navigation_ok, clear_layout_base, Hs1.
Qed.
End Stale.
