(* ===== verification/SessionRelocate.v ===== *)
(** * Commands that move panes and windows

    Breaking a pane out of its window, joining it into another, reordering
    windows, and swapping panes inside a window. *)

From S2P Require Import Prelude RustStr Ids LayoutTypes LayoutTree WindowOps WindowInv WindowSteps WindowMoves WindowCommands.
From S2P Require Import SessionTypes Reconcile SessionTargets SessionClients SessionWindows SessionMoves SessionInv SessionOk SessionFocus SessionRemoval SessionGrowth.
From Stdlib Require Import Ascii.
Local Open Scope Z_scope.

(** ** Breaking a pane out *)

(** The windows [ws] with the new window [w], before focus is settled. *)
Record relocated (s s' : Session) (ws : list Window) (w : Window) : Prop := {
  rl_windows : s_windows s' = imap window_set_index (ws ++ [w]);
  rl_gids : wg_id <$> s_window_groups s' = wg_id <$> s_window_groups s;
  rl_members : s_window_groups s' ≫= wg_window_ids ≡ₚ w_id <$> ws ++ [w];
  rl_histories : wg_window_focus_history <$> s_window_groups s'
                   = wg_window_focus_history <$> s_window_groups s;
  rl_sub : w_id <$> ws `sublist_of` w_id <$> s_windows s;
  rl_states : Forall (fun w => state_ok (s_ids s', w)) (ws ++ [w]);
  rl_panes : (ws ++ [w]) ≫= pane_ids ≡ₚ s_windows s ≫= pane_ids;
  rl_fresh : w_id w ∉ w_id <$> s_windows s;
  rl_floor : floor "@" (Ids.next_window (s_ids s')) (w_id w);
  rl_ids : ids_grow (s_ids s) (s_ids s');
  rl_clients : s_clients s' = s_clients s;
  rl_observers : s_observer_attachments s' = s_observer_attachments s;
  rl_owner : s_layout_owner_client_id s' = s_layout_owner_client_id s;
  rl_size : s_authoritative_size s' = s_authoritative_size s;
  rl_history : s_group_focus_history s' = s_group_focus_history s }.

Lemma imap_Forall (P : Window -> Prop) ws :
  (forall i w, P w -> P (window_set_index i w)) -> Forall P ws -> Forall P (imap window_set_index ws).
Proof.
  intros HP H. apply Forall_lookup. intros i w. rewrite list_lookup_imap.
  destruct (ws !! i) as [x|] eqn:Hx; simpl; [|done]. intros [= <-]. apply HP. by eapply Forall_lookup_1.
Qed.

Section Relocated.
Context (s s' : Session) (ws : list Window) (w : Window).
Context (Hl : session_loose s) (Hr : relocated s s' ws w).

Lemma relocated_wids : w_id <$> s_windows s' = w_id <$> ws ++ [w].
Proof using Hr. rewrite (rl_windows _ _ _ _ Hr). by apply imap_fmap_same. Qed.

Lemma relocated_distinct : NoDup (w_id <$> ws ++ [w]).
Proof using Hl Hr.
  rewrite fmap_app. apply NoDup_app. split; [|split; [|apply NoDup_singleton]].
  - eapply sublist_NoDup; [apply (st_windows s (sl_topology s Hl))|apply Hr].
  - intros v Hv Hv'%list_elem_of_singleton. subst. apply (rl_fresh _ _ _ _ Hr).
    eapply elem_of_sublist; [exact Hv|apply Hr].
Qed.

Lemma relocated_prunable : prunable s'.
Proof using Hl Hr.
  pose proof relocated_wids as Hid. pose proof relocated_distinct as Hd.
  pose proof (sl_topology s Hl) as Ht. pose proof (sl_ids s Hl) as [I1 I2 I3].
  pose proof Hr as [Ew Eg Em Eh Hsub Hst Hp Hfr Hfl Hgr Ec Eo El Es Egh].
  split.
  - rewrite Eg. apply Ht.
  - by rewrite Hid.
  - by rewrite Em.
  - intros v. by rewrite Em, Hid.
  - rewrite Ew. apply imap_Forall; [done|]. eapply Forall_impl; [exact Hst|]. intros x (Hok & _) E.
    apply (window_nonempty x Hok). unfold pane_ids in E. by apply fmap_nil_inv in E.
  - rewrite Ew, imap_bind_same by done. rewrite Hp. apply Ht.
  - rewrite Ew. intros i x. rewrite list_lookup_imap. destruct ((ws ++ [w]) !! i); simpl; [|done].
    by intros [= <-].
  - rewrite Ew. apply imap_Forall; [intros; by apply state_ok_index|done].
  - destruct Hgr. split.
    + rewrite Hid, fmap_app. apply Forall_app. split; [|by apply Forall_singleton].
      apply Forall_forall. intros v Hv. eapply elem_of_sublist in Hv; [|exact Hsub].
      rewrite Forall_forall in I1. eapply floor_mono; [|by apply I1]. done.
    + rewrite Eg. eapply Forall_impl; [exact I2|]. intros v. by apply floor_mono.
    + rewrite Ec. eapply Forall_impl; [exact I3|]. intros v. by apply floor_mono.
  - rewrite Es. apply Hl.
  - apply (Forall_fmap wg_window_focus_history
      (fun h => NoDup h /\ (length h <= 10)%nat)). rewrite Eh.
    apply Forall_fmap. eapply Forall_impl; [apply (sl_groups s Hl)|]. intros g [_ _ [_ ? ?]]. done.
  - rewrite Egh. pose proof (sl_history s Hl) as [_ ? ?]. done.
  - apply (clients_inv_same s); [apply Hl| |done|done]. rewrite Ec. apply same_client_refl, Hl.
Qed.
End Relocated.

(** Pruning groups of which every member is live changes no active window. *)
Section PruneLive.
Context (s : Session) (g : WindowGroup) (a : WindowId).
Context (Hlive : forall v, v ∈ s_window_groups s ≫= wg_window_ids -> v ∈ w_id <$> s_windows s).
Context (Hne : Forall (fun g => wg_window_ids g <> []) (s_window_groups s)).
Context (Hg : s_window_groups s !! s_active_group_index s = Some g).
Context (Ha : wg_active_window_id g = Some a) (Hin : a ∈ wg_window_ids g).
Local Abbreviation live := (w_id <$> s_windows s).

Lemma prune_members h : h ∈ s_window_groups s -> List.filter (contains live) (wg_window_ids h) = wg_window_ids h.
Proof using Hlive.
  intros Hh. apply forallb_filter_id, forallb_forall. intros v Hv%list_elem_of_In.
  apply contains_spec, Hlive. apply list_elem_of_bind. eauto.
Qed.

Lemma pruned_all : pruned_groups s = prune_group live <$> s_window_groups s.
Proof using Hlive Hne.
  unfold pruned_groups. apply forallb_filter_id, forallb_forall.
  intros x (h & -> & Hh)%list_elem_of_In%list_elem_of_fmap. rewrite Forall_forall in Hne. specialize (Hne h Hh).
  rewrite prune_group_ids, prune_members by done. by destruct (wg_window_ids h).
Qed.

Lemma prune_active :
  let s' := reconcile_window_groups_after_window_removal s in
  s_active_group_index s' = s_active_group_index s
  /\ exists g', s_window_groups s' !! s_active_group_index s = Some g' /\ wg_active_window_id g' = Some a.
Proof using All.
  cbv zeta. destruct (prune_fields s) as (_ & Eg & _). rewrite Eg.
  pose proof (lookup_lt_Some _ _ _ Hg) as Hlt.
  split.
  - unfold reconcile_window_groups_after_window_removal. fold (pruned_groups s). rewrite pruned_all. cbv zeta.
    simpl. rewrite length_imap, length_fmap.
    destruct (Nat.leb_spec (length (s_window_groups s)) (s_active_group_index s)); [lia|done].
  - rewrite list_lookup_imap, pruned_all, list_lookup_fmap, Hg. simpl. eexists. split; [done|]. simpl.
    rewrite prune_members by (by eapply list_elem_of_lookup_2). rewrite Ha. simpl.
    by rewrite (proj2 (contains_spec _ _) Hin).
Qed.
End PruneLive.

(** Where the new window goes in its source's group. *)
Lemma place_perm src new pos (removed : bool) g :
  wg_window_ids g !! pos = Some src ->
  wg_window_ids (place_broken_window src new (Some pos) removed g)
    ≡ₚ new :: (if removed then remove_at pos (wg_window_ids g) else wg_window_ids g).
Proof.
  intros Hp. unfold place_broken_window. pose proof (lookup_lt_Some _ _ _ Hp) as Hlt.
  assert (Hids : forall b : bool, wg_window_ids (if b then group_set_active (Some new)
     (group_set_window_ids (if removed then <[pos := new]> (wg_window_ids g)
        else insert_at (Nat.min (pos + 1) (length (wg_window_ids g))) new (wg_window_ids g)) g)
     else group_set_window_ids (if removed then <[pos := new]> (wg_window_ids g)
        else insert_at (Nat.min (pos + 1) (length (wg_window_ids g))) new (wg_window_ids g)) g)
     = (if removed then <[pos := new]> (wg_window_ids g)
        else insert_at (Nat.min (pos + 1) (length (wg_window_ids g))) new (wg_window_ids g))).
  { by intros []. }
  destruct removed.
  - rewrite Hids. rewrite insert_take_drop by done. unfold remove_at. by rewrite <- Permutation_middle.
  - rewrite Hids. unfold insert_at. rewrite <- Permutation_middle. by rewrite take_drop.
Qed.

Lemma place_fields src new pos removed g :
  wg_id (place_broken_window src new pos removed g) = wg_id g
  /\ wg_window_focus_history (place_broken_window src new pos removed g) = wg_window_focus_history g
  /\ (removed = false ->
      wg_active_window_id (place_broken_window src new pos removed g) = wg_active_window_id g).
Proof.
  unfold place_broken_window. destruct (bool_decide _); destruct removed; done.
Qed.

(** ** Taking a pane out of its window *)

(** The window after the pane at [j] left: empty, or well formed without it. *)
Definition taken (w : Window) (j : nat) (w' : Window) : Prop :=
  key w' = key w /\
  ((length (w_panes w) = 1%nat /\ w_panes w' = [])
   \/ ((2 <= length (w_panes w))%nat /\ removal_result w j w')).

Lemma wp_take s i j w p Q (R : Session -> Prop) :
  session_base s -> s_windows s !! i = Some w -> w_panes w !! j = Some p ->
  (forall w', taken w j w' -> Q (set_windows s (<[i := w']> (s_windows s))) p) ->
  wp (at_window i (Win.take_pane_at j)) s Q R.
Proof.
  intros Hb Hw Hp HQ. destruct (windows_state s i w Hb Hw) as (Hok & _).
  destruct (take_pane_at_spec w j p Hok Hp) as (w' & E & Hmany & Hone).
  pose proof (take_at_keyed j w) as Hk. unfold wp, at_window. rewrite Hw, E. rewrite E in Hk. simpl in Hk.
  apply HQ. split; [done|]. pose proof (lookup_lt_Some _ _ _ Hp).
  destruct (decide (length (w_panes w) = 1%nat)) as [H1|H1].
  - left. split; [done|]. by apply Hone.
  - right. split; [lia|]. apply Hmany. lia.
Qed.

(** The windows that remain. *)
Definition remaining (s : Session) (i : nat) (w' : Window) : list Window :=
  if list_is_empty (w_panes w') then imap window_set_index (remove_at i (s_windows s))
  else <[i := w']> (s_windows s).

Section Taken.
Context (s : Session) (i j : nat) (w w' : Window) (p : Pane).
Context (Hb : session_base s) (Hw : s_windows s !! i = Some w) (Hp : w_panes w !! j = Some p).
Context (Ht : taken w j w').

Lemma taken_cases :
  (list_is_empty (w_panes w') = true /\ remaining s i w' = imap window_set_index (remove_at i (s_windows s))
   /\ pane_ids w = [p_id p])
  \/ (list_is_empty (w_panes w') = false /\ remaining s i w' = <[i := w']> (s_windows s)
      /\ removal_result w j w').
Proof using Hp Ht.
  destruct Ht as (_ & [(H1 & H2)|(H1 & H2)]); [left|right].
  - unfold remaining. rewrite H2. split; [done|]. split; [done|].
    unfold pane_ids. destruct (w_panes w) as [|q [|]]; try done.
    destruct j; simpl in Hp; [|done]. by injection Hp as ->.
  - unfold remaining. pose proof (window_nonempty w' (proj1 H2)). by destruct (w_panes w').
Qed.

Lemma taken_ids : list_is_empty (w_panes w') = false ->
  w_id <$> remaining s i w' = w_id <$> s_windows s.
Proof using All.
  intros E. destruct taken_cases as [(E' & _)|(_ & -> & _)]; [congruence|].
  eapply fmap_replace; [exact Hw|]. destruct Ht as [Hk _]. by injection Hk.
Qed.

Lemma taken_removed_ids : list_is_empty (w_panes w') = true ->
  w_id <$> remaining s i w' = w_id <$> remove_at i (s_windows s).
Proof using All.
  intros E. destruct taken_cases as [(_ & -> & _)|(E' & _)]; [|congruence]. by apply imap_fmap_same.
Qed.

Lemma taken_sub : w_id <$> remaining s i w' `sublist_of` w_id <$> s_windows s.
Proof using All.
  destruct (list_is_empty (w_panes w')) eqn:E.
  - rewrite taken_removed_ids by done. apply sublist_fmap_of, sublist_remove_at.
  - by rewrite taken_ids.
Qed.

Lemma taken_perm : list_is_empty (w_panes w') = false ->
  ids_of (w_panes w) ≡ₚ p_id p :: ids_of (w_panes w').
Proof using All.
  intros E. destruct taken_cases as [(E' & _)|(_ & _ & (_ & _ & Hids & _))]; [congruence|].
  rewrite Hids, <- remaining_ids. by apply remaining_ids_perm.
Qed.

Lemma taken_states : Forall (fun x => state_ok (s_ids s, x)) (remaining s i w').
Proof using All.
  pose proof (sb_windows s Hb) as Hall. destruct (windows_state s i w Hb Hw) as (Hok & Hix & Ha).
  destruct taken_cases as [(_ & -> & _)|(E & -> & Hr)].
  - apply imap_Forall; [intros; by apply state_ok_index|]. apply Forall_forall. intros x Hx.
    rewrite Forall_forall in Hall. apply Hall. eapply elem_of_sublist; [exact Hx|apply sublist_remove_at].
  - apply Forall_replace; [done|]. pose proof (taken_perm E) as Hperm. destruct Hr as (Hok' & Hsy & _).
    apply (good_synced _ w); try done. intros id Hid. rewrite Hperm. by right.
Qed.

Lemma taken_panes : s_windows s ≫= pane_ids ≡ₚ p_id p :: (remaining s i w' ≫= pane_ids).
Proof using All.
  rewrite (bind_remove _ _ _ _ Hw). destruct taken_cases as [(_ & -> & E)|(E & -> & Hr)].
  - rewrite imap_bind_same by done. by rewrite E.
  - rewrite (bind_replace _ _ _ _ _ Hw). unfold pane_ids at 1 3.
    change (p_id <$> w_panes w) with (ids_of (w_panes w)). by rewrite taken_perm.
Qed.
End Taken.

(** The window built around the pane. *)
Lemma wp_from_existing s s1 index name p Q (R : Session -> Prop) :
  session_base s -> room (s_ids s) -> s_ids s1 = s_ids s -> pane_floor (s_ids s) (p_id p) ->
  Size_validate (p_size p) = Ok tt ->
  (forall ids w, state_ok (ids, w) -> pane_ids w = [p_id p] -> w_id w ∉ w_id <$> s_windows s ->
     floor "@" (Ids.next_window ids) (w_id w) -> ids_grow (s_ids s) ids -> Q (set_ids s1 ids) w) ->
  wp (op_zoom s_ids (fun ids s => set_ids s ids)
        (Win.from_existing_pane index name (s_authoritative_size s) p)) s1 Q R.
Proof.
  intros Hb Hr Hi Hpf Hv HQ. pose proof (window_grow (s_ids s) Hr) as Hg.
  pose proof (ii_windows s (sb_ids s Hb)) as Hfl. pose proof (rm_window _ Hr) as Hrw.
  pose proof (sb_size s Hb) as Hsz. pose proof (proj2 (Size_validate_Ok _ (valid_size_u16 _ Hsz)) Hsz) as Hvs.
  unfold wp, Win.from_existing_pane. op_run. rewrite Hi, Hvs. rewrite Hv. unfold Win.alloc.
  destruct (IdFactoryOps.window (s_ids s)) as [wid ids] eqn:Ew. simpl in Hg.
  set (q := pane_set_active true _).
  destruct (single_ok wid index name (s_authoritative_size s) q Hsz) as [Hok Ht]; [done..|].
  apply HQ; [| | | |done].
  - split; [done|]. split; [apply synced_indexed; [apply Hok|apply Ht]|].
    apply Forall_singleton. eapply pane_floor_mono; [apply Hg|exact Hpf].
  - done.
  - destruct (s_ids s) as [a b c d e f]. simpl in Ew. injection Ew as <- <-. simpl in *. by apply floor_fresh.
  - destruct (s_ids s) as [a b c d e f]. simpl in Ew. injection Ew as <- <-. simpl in *. by apply floor_new.
Qed.

Lemma placed_members s i w gi g pos new (removed : bool) :
  session_topology s -> s_windows s !! i = Some w -> s_window_groups s !! gi = Some g ->
  wg_window_ids g !! pos = Some (w_id w) ->
  <[gi := place_broken_window (w_id w) new (Some pos) removed g]> (s_window_groups s) ≫= wg_window_ids
    ≡ₚ new :: (w_id <$> if removed then remove_at i (s_windows s) else s_windows s).
Proof.
  intros Ht Hw Hg Hpos. rewrite (bind_replace _ _ _ _ _ Hg), (place_perm _ _ _ _ _ Hpos). simpl. f_equiv.
  pose proof (st_partition s Ht) as Hp. rewrite (bind_remove _ _ _ _ Hg) in Hp. destruct removed; [|done].
  rewrite <- (remove_at_perm _ _ _ Hpos), <- (fmap_Permutation w_id _ _ (remove_at_perm _ _ _ Hw)) in Hp.
  simpl in Hp. by apply Permutation_cons_inv in Hp.
Qed.

Lemma relocated_intro s s' i j w w' p nw gi g pos :
  session_base s -> s_windows s !! i = Some w -> w_panes w !! j = Some p -> taken w j w' ->
  s_window_groups s !! gi = Some g -> wg_window_ids g !! pos = Some (w_id w) ->
  state_ok (s_ids s', nw) -> pane_ids nw = [p_id p] -> w_id nw ∉ w_id <$> s_windows s ->
  floor "@" (Ids.next_window (s_ids s')) (w_id nw) -> ids_grow (s_ids s) (s_ids s') ->
  s_windows s' = imap window_set_index (remaining s i w' ++ [nw]) ->
  s_window_groups s' = <[gi := place_broken_window (w_id w) (w_id nw) (Some pos)
                                (list_is_empty (w_panes w')) g]> (s_window_groups s) ->
  s_clients s' = s_clients s -> s_observer_attachments s' = s_observer_attachments s ->
  s_layout_owner_client_id s' = s_layout_owner_client_id s ->
  s_authoritative_size s' = s_authoritative_size s ->
  s_group_focus_history s' = s_group_focus_history s -> relocated s s' (remaining s i w') nw.
Proof.
  intros Hb Hw Hp Ht Hg Hpos Hst Hpn Hfr Hfl Hgr Ew Eg ? ? ? ? ?.
  destruct (place_fields (w_id w) (w_id nw) (Some pos) (list_is_empty (w_panes w')) g) as (F1 & F2 & _).
  split; try done.
  - rewrite Eg. by eapply fmap_replace.
  - rewrite Eg, (placed_members s i w gi g pos) by (try done; apply Hb).
    rewrite fmap_app. simpl. rewrite Permutation_app_comm. simpl. f_equiv.
    destruct (list_is_empty (w_panes w')) eqn:E.
    + by erewrite taken_removed_ids.
    + by erewrite taken_ids.
  - rewrite Eg. by eapply fmap_replace.
  - by eapply taken_sub.
  - apply Forall_app. split; [|by apply Forall_singleton].
    eapply Forall_impl; [by eapply taken_states|]. intros x. by apply state_ok_grow.
  - rewrite bind_app. simpl. rewrite Hpn. simpl. rewrite Permutation_app_comm. simpl.
    symmetry. by eapply taken_panes.
Qed.

(** Focus after the pane was broken out. *)
Section BreakFocus.
Context (s s' : Session) (ws : list Window) (w : Window).
Context (Hb : session_base s) (Hr : relocated s s' ws w).

Lemma relocated_base s'' : reshape (reconcile_window_groups_after_window_removal s') s'' -> active_ok s'' ->
  session_base s'' /\ s_clients s'' = s_clients s.
Proof using Hb Hr.
  intros Hre Ha. pose proof (prune_loose _ (relocated_prunable s s' ws w (base_loose s Hb) Hr)) as Hl.
  destruct (prune_membership s') as [Hm _]. split.
  - apply loose_base; [by eapply reshape_loose|done].
  - rewrite (rf_clients _ _ Hre). unfold membership in Hm. rewrite <- (rl_clients _ _ _ _ Hr). congruence.
Qed.

Lemma relocated_loose : session_loose (reconcile_window_groups_after_window_removal s').
Proof using Hb Hr. apply prune_loose. eapply relocated_prunable; [by apply base_loose|done]. Qed.

Lemma relocated_windows : s_windows (reconcile_window_groups_after_window_removal s')
  = imap window_set_index (ws ++ [w]).
Proof using Hr. destruct (prune_membership s') as [_ ->]. apply Hr. Qed.

Lemma relocated_focus k : (k <= length ws)%nat ->
  session_base (focus_window k (reconcile_window_groups_after_window_removal s'))
  /\ s_clients (focus_window k (reconcile_window_groups_after_window_removal s')) = s_clients s.
Proof using Hb Hr.
  intros Hk. pose proof relocated_loose as Hl.
  destruct (focus_window_ok _ k Hl) as [Hre Ha].
  - rewrite relocated_windows, length_imap, length_app. simpl. lia.
  - by apply relocated_base.
Qed.

Lemma relocated_sync k : (k <= length ws)%nat ->
  let s3 := sync_active_group_to_active_window
              (set_active_window_index (reconcile_window_groups_after_window_removal s') k) in
  session_base s3 /\ s_clients s3 = s_clients s.
Proof using Hb Hr.
  intros Hk. pose proof relocated_loose as Hl. pose proof relocated_windows as Hw.
  pose proof relocated_base as Hbase.
  set (s2 := reconcile_window_groups_after_window_removal s') in *. clearbody s2. cbv zeta.
  set (s3 := set_active_window_index s2 k).
  assert (Hr3 : reshape s2 s3) by (apply reshape_of; try done; [exact (refocused_refl s2 Hl)|apply Hl]).
  pose proof (reshape_loose _ _ Hr3 Hl) as Hl3. unfold sync_active_group_to_active_window.
  change (s_windows s3 !! s_active_window_index s3) with (s_windows s2 !! k).
  destruct (lookup_lt_is_Some_2 (s_windows s2) k) as [x Hx].
  { rewrite Hw, length_imap, length_app. simpl. lia. }
  rewrite Hx. destruct (sync_reshape s3 Hl3 (w_id x) None) as (Hre & Hw2 & Ha2 & g & Hg & Hga).
  { apply list_elem_of_fmap_2. by eapply list_elem_of_lookup_2. }
  apply Hbase; [by eapply reshape_trans|]. apply (active_intro _ g x); [done| |done]. by rewrite Hw2, Ha2.
Qed.

(** Without a change of focus the active window stays. *)
Lemma relocated_same g x a : 
  s_window_groups s' !! s_active_group_index s' = Some g -> wg_active_window_id g = Some a ->
  a ∈ wg_window_ids g -> ws !! s_active_window_index s' = Some x -> w_id x = a ->
  Forall (fun g => wg_window_ids g <> []) (s_window_groups s') ->
  session_base (reconcile_window_groups_after_window_removal s')
  /\ s_clients (reconcile_window_groups_after_window_removal s') = s_clients s.
Proof using Hb Hr.
  intros Hg Ha Hin Hx Hxa Hne. pose proof relocated_loose as Hl.
  apply relocated_base; [by apply reshape_refl|].
  destruct (prune_active s' g a) as (E & g' & Hg' & Ha'); try done.
  { intros v. rewrite (rl_members _ _ _ _ Hr). by rewrite (relocated_wids s s' ws w Hr). }
  destruct (prune_fields s') as (_ & _ & _ & _ & _ & _ & _ & _ & Eawi & _).
  apply (active_intro _ g' (window_set_index (s_active_window_index s') x)).
  - by rewrite E.
  - rewrite Eawi, relocated_windows, list_lookup_imap, (lookup_app_l_Some _ _ _ _ Hx). done.
  - simpl. by rewrite Ha', Hxa.
Qed.
End BreakFocus.

Section Break.
Context `{Clock}.

Lemma break_body_ok s target name sel : session_ok s -> room (s_ids s) ->
  stale_ok (break_pane_body target name sel) s.
Proof.
  intros Hs Hr. pose proof (so_base s Hs) as Hb. unfold stale_ok, break_pane_body. wps.
  apply wp_lift; [apply no_panic_pane_location| |done]. intros [i j] Hloc. wps.
  apply pane_location_ok in Hloc as (w & p & Hw & Hp); [|done].
  rewrite (pane_at_ok s i j w p Hw Hp). apply wp_lift; [done| |done]. intros ? [= <-]. wps.
  apply wp_lift; [apply no_panic_Size_validate| |done]. intros [] Hv. wps.
  rewrite (index_or_panic_lookup _ _ _ Hw). apply wp_lift; [done| |done]. intros ? [= <-]. wps.
  destruct (group_containing s (sb_topology s Hb) (w_id w)) as (gi & g & Hgi & Hg & Hgin).
  { apply list_elem_of_fmap_2. by eapply list_elem_of_lookup_2. }
  rewrite Hgi. simpl (Some gi ≫= _). rewrite Hg. simpl (Some g ≫= _).
  destruct (position_is_Some (String.eqb (w_id w)) (wg_window_ids g) (w_id w)) as [pos Hpos];
    [done|apply String.eqb_refl|].
  rewrite Hpos. apply position_Some in Hpos as (x & Hpos & Ex%String.eqb_eq & _). subst x.
  apply (wp_take s i j w p); [done|done|done|]. intros w' Ht. wps.
  change (s_windows (set_windows s ?l)) with l.
  rewrite (index_or_panic_lookup _ i w') by (apply list_lookup_insert_eq; by eapply lookup_lt_Some).
  apply wp_lift; [done| |done]. intros ? [= <-]. wps.
  set (s1 := if list_is_empty (w_panes w') then _ else _).
  assert (Hs1 : s_windows s1 = remaining s i w' /\ s_window_groups s1 = s_window_groups s
     /\ s_ids s1 = s_ids s /\ s_authoritative_size s1 = s_authoritative_size s /\ membership s1 = membership s
     /\ s_group_focus_history s1 = s_group_focus_history s
     /\ s_active_window_index s1 = s_active_window_index s /\ s_active_group_index s1 = s_active_group_index s).
  { subst s1. unfold remaining. destruct (list_is_empty (w_panes w')); simpl; [|done].
    by rewrite remove_at_insert. }
  clearbody s1. destruct Hs1 as (Ew1 & Eg1 & Ei1 & Ez1 & Em1 & Eh1 & Ea1 & Eag1). rewrite Ez1.
  destruct (windows_state s i w Hb Hw) as (_ & _ & Hahead).
  apply (wp_from_existing s); [done|done|done| |done|].
  { unfold ids_ahead in Hahead. rewrite Forall_forall in Hahead. apply Hahead. unfold ids_of.
    apply list_elem_of_fmap_2. by eapply list_elem_of_lookup_2. }
  intros ids nw0 Hst0 Hpn0 Hfr0 Hfl0 Hgr. wps. apply wp_clock. wps.
  set (nw := window_set_created_at _ nw0).
  assert (Hst : state_ok (ids, nw)) by (by apply state_ok_created).
  assert (Hnw : pane_ids nw = [p_id p] /\ w_id nw ∉ w_id <$> s_windows s
            /\ floor "@" (Ids.next_window ids) (w_id nw)) by done.
  clearbody nw. clear Hst0 Hpn0 Hfr0 Hfl0. destruct Hnw as (Hpn & Hfr & Hfl).
  unfold place_in_groups. wps. simpl (s_window_groups _). rewrite Eg1. simpl (Some gi ≫= _). rewrite Hg. simpl (_ <$> Some g). cbv beta iota. wps.
  match goal with |- context [reconcile_window_groups_after_window_removal ?x] => set (s2 := x) end.
  assert (Hrel : relocated s s2 (remaining s i w') nw).
  { unfold membership in Em1. injection Em1 as Em2 Em3 Em4 Em5.
    apply (relocated_intro s s2 i j w w' p nw gi g pos); subst s2; simpl; try done.
    - by rewrite Ew1.
    - by rewrite Eg1. }
  assert (E2 : s_active_group_index s2 = s_active_group_index s
            /\ s_active_window_index s2 = s_active_window_index s
            /\ s_window_groups s2 = <[gi := place_broken_window (w_id w) (w_id nw) (Some pos)
                                (list_is_empty (w_panes w')) g]> (s_window_groups s)).
  { subst s2. simpl. by rewrite Eg1. }
  destruct E2 as (Eag2 & Ea2 & Eg2). clearbody s2.
  pose proof (relocated_windows s s2 _ nw Hrel) as Hw3. rewrite Ew1, Hw3, length_imap, length_app.
  change (length [nw]) with 1%nat.
  destruct (sel || _) eqn:Esel; [by apply (relocated_focus s s2 _ nw Hb Hrel)|].
  destruct (list_is_empty (w_panes w')) eqn:Erem.
  - apply (relocated_sync s s2 _ nw Hb Hrel). lia.
  - destruct (fi_active s (sb_focus s Hb)) as (ag & aw & Hag & Haw & Hact); [by intros E; rewrite E in Hw|].
    assert (Hids : forall k h, s_window_groups s2 !! k = Some h -> exists h0, s_window_groups s !! k = Some h0
              /\ wg_active_window_id h = wg_active_window_id h0
              /\ forall v, v ∈ wg_window_ids h0 -> v ∈ wg_window_ids h).
    { intros k h. rewrite Eg2, list_lookup_insert. case_decide as E; [|by eauto].
      destruct E as [<- _]. intros [= <-]. exists g. split; [done|].
      split; [by apply place_fields|]. intros v ?. rewrite (place_perm _ _ _ _ _ Hpos). by right. }
    destruct (lookup_lt_is_Some_2 (s_window_groups s2) (s_active_group_index s2)) as [ag2 Hag2].
    { rewrite Eg2, length_insert, Eag2. by eapply lookup_lt_Some. }
    destruct (Hids _ _ Hag2) as (h0 & Hh0 & Hacth & Hsub). rewrite Eag2, Hag in Hh0. injection Hh0 as <-.
    assert (Hain : w_id aw ∈ wg_window_ids ag).
    { destruct (Forall_lookup_1 _ _ _ _ (fi_groups s (sb_focus s Hb)) Hag) as [(a & Ha & Hin) _ _].
      simpl in Ha. rewrite Hact in Ha. by injection Ha as ->. }
    assert (Hxx : w_id <$> remaining s i w' = w_id <$> s_windows s) by (by eapply taken_ids).
    assert (Hx : exists x, remaining s i w' !! s_active_window_index s2 = Some x /\ w_id x = w_id aw).
    { rewrite Ea2. apply (f_equal (lookup (s_active_window_index s))) in Hxx.
      rewrite !list_lookup_fmap, Haw in Hxx. simpl in Hxx.
      destruct (remaining s i w' !! _) as [x|]; [|done]. exists x. split; [done|]. by injection Hxx. }
    destruct Hx as (x & Hx & Exa).
    apply (relocated_same s s2 _ nw Hb Hrel ag2 x (w_id aw)); [done|by rewrite Hacth|by apply Hsub|done|done|].
    apply Forall_lookup. intros k h Hk. destruct (Hids k h Hk) as (h0 & Hh0 & _ & Hs0).
    pose proof (Forall_lookup_1 _ _ _ _ (st_group_nonempty s (sb_topology s Hb)) Hh0) as Hn0.
    simpl in Hn0. destruct (wg_window_ids h0) as [|v l] eqn:Ev; [done|].
    intros E. specialize (Hs0 v). rewrite E in Hs0. apply (not_elem_of_nil v), Hs0. by left.
Qed.

Lemma break_pane_ok s id target name sel : session_ok s -> room (s_ids s) ->
  maintains (break_pane_transition id target name sel) s.
Proof.
  intros Hs Hr. apply maintains_authorized; [done|]. intros _. unfold maintains. wps.
  apply wp_lift; [apply no_panic_Size_validate| |done]. intros _ _.
  apply as_client_stale; [done| |].
  - intros s1 Hs1 Hi. apply break_body_ok; [done|by rewrite Hi].
  - intros a s1 Hs1. unfold maintains. wps. apply wp_record_event. intros s2 e Hk. wps.
    by eapply ok_frame.
Qed.

(** ** Joining *)

Lemma set_windows_twice s a b : set_windows (set_windows s a) b = set_windows s b.
Proof. by destruct s. Qed.

(** The state from which the pane is inserted: its source window is smaller or
    gone, and no window holds it. *)
Lemma join_source_ok s i j w w' p pw pg :
  session_base s -> s_windows s !! i = Some w -> w_panes w !! j = Some p -> taken w j w' ->
  let removed := list_is_empty (w_panes w') in
  wp (if removed then
        op_modify (fun s => after_window_removed i (set_windows s (remove_at i (s_windows s)))) ≫= fun _ =>
        restore_focus_after_window_removal pw pg
      else mret tt) (set_windows s (<[i := w']> (s_windows s)))
    (fun s' _ => session_base s' /\ membership s' = membership s
       /\ length (s_windows s') = (length (s_windows s) - if removed then 1 else 0)%nat
       /\ p_id p ∉ s_windows s' ≫= pane_ids) (fun _ => False).
Proof.
  intros Hb Hw Hp Ht. cbv zeta. pose proof (taken_panes s i j w w' p Hb Hw Hp Ht) as Hperm.
  pose proof (st_panes s (sb_topology s Hb)) as Hd. rewrite Hperm in Hd. apply NoDup_cons in Hd as [Hpn _].
  pose proof (lookup_lt_Some _ _ _ Hw) as Hlt.
  destruct (taken_cases s i j w w' p Hp Ht) as [(-> & Er & _)|(-> & Er & Hres)]; rewrite Er in Hpn.
  - wps. change (s_windows (set_windows s ?l)) with l. rewrite remove_at_insert, set_windows_twice.
    destruct (after_removal_loose s i (remove_at i (s_windows s)) (base_loose s Hb)) as (Hl & Hm & Hws);
      [apply sublist_remove_at|].
    eapply wp_mono; [by apply restore_focus_ok| |done]. cbv beta. intros s' _ (Hb' & Hm' & Hw').
    split; [done|]. split; [by rewrite Hm'|]. rewrite Hw', Hws. split; [|done].
    by rewrite length_imap, length_remove_at.
  - wps. split; [|split; [done|split; [|done]]].
    + eapply removal_replace; [done|done|exact Hp|done|]. apply Ht.
    + simpl. rewrite length_insert. lia.
Qed.

Lemma at_window_insert s i w p t d sel :
  session_base s -> s_windows s !! i = Some w -> p_id p ∉ s_windows s ≫= pane_ids ->
  pane_floor (s_ids s) (p_id p) ->
  wp (at_window i (Win.insert_existing_after t p d sel)) s
    (fun s' _ => session_base s' /\ s_clients s' = s_clients s
                 /\ length (s_windows s') = length (s_windows s)) (eq s).
Proof.
  intros Hb Hw Hf Hfl. destruct (windows_state s i w Hb Hw) as (Hok & Hix & Ha).
  assert (Hp : p_id p ∉ ids_of (w_panes w)).
  { intros Hin. apply Hf. apply list_elem_of_bind. exists w. split; [done|by eapply list_elem_of_lookup_2]. }
  pose proof (insert_existing_spec w t p d sel Hok Hp) as Hi. pose proof (insert_existing_keyed t p d sel w) as Hk.
  unfold wp, at_window. rewrite Hw. destruct (Win.insert_existing_after t p d sel w) as [w' [q|e|]]; simpl in *; [| |done].
  2:{ subst w'. rewrite list_insert_id by done. by destruct s. }
  destruct Hi as (Hok' & Hsy & _ & _ & _ & Hperm & _). split; [|split; [done|apply length_insert]].
  apply (base_replace s i w w'); [done|done| | |done].
  - split; [done|]. split; [apply synced_indexed; [apply Hok'|done]|]. unfold ids_ahead. rewrite Hperm.
    by constructor.
  - by eapply (panes_add s); [apply Hb|done|exact Hperm|].
Qed.

Definition destination_window (d : JoinDestination) : nat :=
  match d with JoinWindow i => i | JoinPane i _ => i end.

Lemma join_destination_ok s target d : session_base s -> join_destination s target = Ok d ->
  (destination_window d < length (s_windows s))%nat.
Proof.
  intros Hb. unfold join_destination. destruct (window_index_by_target s target) as [i|] eqn:Hi.
  - intros [= <-]. simpl. apply (window_index_or_active_ok s (Some target) i Hb). unfold window_index_or_active.
    by rewrite Hi.
  - destruct (pane_location s (Some target)) as [[i j]|e|] eqn:Hl; simpl; [|done|done].
    apply pane_location_ok in Hl as (w & p & Hw & Hp); [|done]. rewrite (pane_at_ok _ _ _ _ _ Hw Hp). simpl.
    intros [= <-]. simpl. by eapply lookup_lt_Some.
Qed.

Lemma no_panic_join_destination s target : session_base s -> no_panic (join_destination s target).
Proof.
  intros Hb. unfold join_destination. destruct (window_index_by_target s target); [done|].
  pose proof (no_panic_pane_location s (Some target)) as Hn.
  destruct (pane_location s (Some target)) as [[i j]|e|] eqn:Hl; simpl; [|done|done].
  apply pane_location_ok in Hl as (w & p & Hw & Hp); [|done]. by rewrite (pane_at_ok _ _ _ _ _ Hw Hp).
Qed.

Lemma adjust_ok d i (removed : bool) n k t :
  (destination_window d < n)%nat -> (i < n)%nat ->
  adjust_join_destination d i removed = Ok (k, t) -> (k < n - if removed then 1 else 0)%nat.
Proof.
  intros Hd Hi. unfold adjust_join_destination, adjust_window_index.
  destruct d as [x|x pid]; simpl in *; destruct removed; simpl; try (intros [= <- <-]; lia);
    destruct (Nat.eqb_spec x i); simpl; try done;
    destruct (Nat.ltb_spec i x); simpl; intros [= <- <-]; lia.
Qed.

Lemma no_panic_adjust d i removed : no_panic (adjust_join_destination d i removed).
Proof.
  unfold adjust_join_destination, adjust_window_index.
  destruct d; destruct removed; simpl; try done; repeat case_match; simpl; by auto with mez.
Qed.

Lemma no_panic_join_rejects s i j w p d :
  s_windows s !! i = Some w -> w_panes w !! j = Some p -> no_panic (join_rejects s i j d).
Proof.
  intros Hw Hp. unfold join_rejects. rewrite (pane_at_ok _ _ _ _ _ Hw Hp), (index_or_panic_lookup _ _ _ Hw).
  destruct d; simpl; repeat (case_match; simpl; try done).
Qed.

(** Every pane of the first session is a pane of the second. *)
Definition panes_kept (s s' : Session) : Prop :=
  forall id, id ∈ s_windows s ≫= pane_ids -> id ∈ s_windows s' ≫= pane_ids.

(** A failed join changes nothing, or has taken the pane out of its window and
    lost it; the windows and groups are well formed in both cases. *)
Lemma join_body_ok s source target d sel : session_ok s ->
  wp (join_pane_body source target d sel) s
    (fun s' _ => session_base s' /\ s_clients s' = s_clients s)
    (fun s' => s' = s \/ session_base s' /\ ~ panes_kept s s').
Proof.
  intros Hs. pose proof (so_base s Hs) as Hb. unfold join_pane_body. wps.
  apply wp_lift; [apply no_panic_pane_location| |by left]. intros [i j] Hloc. wps.
  apply pane_location_ok in Hloc as (w & p & Hw & Hp); [|done].
  apply wp_lift; [by apply no_panic_join_destination| |by left]. intros dest Hdest. wps.
  apply join_destination_ok in Hdest; [|done].
  apply wp_lift; [by eapply no_panic_join_rejects| |by left]. intros _ _. wps.
  assert (Hin : p_id p ∈ s_windows s ≫= pane_ids).
  { apply list_elem_of_bind. exists w. split; [|by eapply list_elem_of_lookup_2].
    apply list_elem_of_fmap_2. by eapply list_elem_of_lookup_2. }
  apply (wp_take s i j w p); [done|done|done|]. intros w' Ht. wps.
  change (s_windows (set_windows s ?l)) with l.
  rewrite (index_or_panic_lookup _ i w') by (apply list_lookup_insert_eq; by eapply lookup_lt_Some).
  apply wp_lift; [done| |done]. intros ? [= <-]. wps.
  eapply wp_mono; [by apply (join_source_ok s i j w w' p)| |done].
  cbv beta. intros s1 _ (Hb1 & Hm1 & Hlen1 & Hf1). wps.
  assert (Hlost : ~ panes_kept s s1) by (intros Hk; by apply Hf1, Hk).
  apply wp_lift; [apply no_panic_adjust| |by right]. intros [k t] Hadj. wps.
  eapply adjust_ok in Hadj; [|exact Hdest|by eapply lookup_lt_Some]. rewrite <- Hlen1 in Hadj.
  destruct (lookup_lt_is_Some_2 _ _ Hadj) as [x Hx].
  assert (Hfl : pane_floor (s_ids s1) (p_id p)).
  { unfold membership in Hm1. injection Hm1 as -> _ _ _. destruct (windows_state s i w Hb Hw) as (_ & _ & Hah).
    unfold ids_ahead in Hah. rewrite Forall_forall in Hah. apply Hah. apply list_elem_of_fmap_2.
    by eapply list_elem_of_lookup_2. }
  eapply wp_mono; [by apply (at_window_insert s1 k x)| |intros ? <-; by right]. cbv beta. intros s2 _ (Hb2 & Hc2 & Hlen2). wps.
  assert (Hc : s_clients s2 = s_clients s) by (rewrite Hc2; unfold membership in Hm1; congruence).
  destruct sel; [|done]. destruct (focus_window_ok s2 k (base_loose s2 Hb2)) as [Hre Ha]; [lia|].
  split; [apply loose_base; [by eapply reshape_loose, base_loose|done]|]. by rewrite (rf_clients _ _ Hre).
Qed.

(** A join keeps the invariant when it succeeds or when no pane is lost; a
    failed one keeps the windows and groups well formed in any case. *)
Lemma join_pane_ok s id source target d sel : session_ok s ->
  wp (join_pane_transition id source target d sel) s (fun s' _ => session_ok s')
    (fun s' => session_base s' /\ (panes_kept s s' -> session_ok s')).
Proof.
  intros Hs. unfold join_pane_transition. wps. unfold as_client, authorized. wps.
  apply wp_lift; [apply require_primary_no_panic| |by split; [apply Hs|]]. intros [] Hp%require_primary_Ok. wps.
  eapply wp_mono; [by apply activate_reshape| |by intros s' Hs'; split; [apply Hs'|]].
  cbv beta. intros s1 _ (Hs1 & Hp1 & Hre). wps.
  eapply wp_mono; [by apply join_body_ok| |].
  2:{ intros s2 [->|[Hb2 Hl]]; [by split; [apply Hs1|]|]. split; [done|]. intros Hk. destruct Hl.
      intros x Hx. apply Hk. by rewrite <- (reshape_panes s s1 Hre). }
  cbv beta. intros s2 a (Hb2 & Hc2). wps.
  eapply wp_mono; [apply capture_base; [done|by rewrite (attached_primary_clients s1)]| |done].
  cbv beta. intros s3 _ Hs3. wps. apply wp_record_event. intros s4 e Hk. wps.
  eapply ok_frame; [symmetry; exact Hk|]. by apply reconcile_client_navigation_ok.
Qed.

(** ** Swapping inside a window *)

(** Both panes are located in the same window of the client's view. *)
Definition swap_local (s : Session) (id : ClientId) (source : option string) (target : string) : Prop :=
  match navigation s id with
  | Ok n =>
      match pane_location (project_navigation n s) source, pane_location (project_navigation n s) (Some target) with
      | Ok (i, _), Ok (k, _) => i = k
      | _, _ => True
      end
  | _ => True
  end.

Lemma wp_capture_any s c : wp (capture_client_navigation c) s (fun _ _ => True) (fun _ => True).
Proof.
  unfold capture_client_navigation. wps.
  apply wp_lift; [apply require_primary_no_panic| |done]. intros _ _. wps.
  unfold wp, op_lift, assign_navigation. destruct (navigation s c) eqn:E; [done|done|].
  unfold navigation, ok_or in E. by case_match.
Qed.

(** No swap panics, also not between two windows. *)
Lemma wp_swap_panes s c source target : session_ok s ->
  wp (swap_panes_transition c source target) s (fun _ _ => True) (fun _ => True).
Proof.
  intros Hs. unfold swap_panes_transition. wps. unfold as_client, authorized. wps.
  apply wp_lift; [apply require_primary_no_panic| |done]. intros [] Hp%require_primary_Ok. wps.
  eapply wp_mono; [by apply activate_reshape| |done]. cbv beta. intros s1 _ (Hs1 & Hp1 & _). wps.
  apply wp_lift; [apply no_panic_pane_location| |done]. intros [i j] Hl1. wps.
  apply wp_lift; [apply no_panic_pane_location| |done]. intros [k l] Hl2.
  apply pane_location_ok in Hl1 as (w & p & Hw & Hpj); [|apply Hs1].
  apply pane_location_ok in Hl2 as (x & q & Hx & Hql); [|apply Hs1].
  assert (forall s2, wp (capture_client_navigation c) s2
            (fun s3 _ => wp (reconcile_views ≫= fun _ => record_event ≫= fun _ => op_get all_effects) s3
                           (fun _ _ => True) (fun _ => True)) (fun _ => True)) as Hend.
  { intros s2. eapply wp_mono; [apply wp_capture_any| |done]. cbv beta. intros s3 _ _. wps.
    apply wp_record_event. intros. by wps. }
  destruct (Nat.eqb_spec i k) as [->|Hne].
  - eapply wp_mono; [eapply at_window_quiet; [done|exact Hw|]| |done].
    { apply quiet_swap. eapply windows_state; [apply Hs1|done]. }
    cbv beta. intros s2 u _. wps. apply Hend.
  - unfold swap_between_windows. wps. rewrite (index_or_panic_lookup _ _ _ Hw), (index_or_panic_lookup _ _ _ Hx).
    apply wp_lift; [done| |done]. intros ? [= <-]. wps. apply wp_lift; [done| |done]. intros ? [= <-]. wps.
    unfold Win.swap_panes_between. rewrite (index_or_panic_lookup _ _ _ Hpj), (index_or_panic_lookup _ _ _ Hql).
    apply wp_lift; [done| |done]. intros [f g] _. wps. apply Hend.
Qed.

Lemma swap_panes_ok s id source target : session_ok s -> swap_local s id source target ->
  maintains (swap_panes_transition id source target) s.
Proof.
  intros Hs Hloc. unfold maintains, swap_panes_transition. wps. unfold as_client, authorized. wps.
  apply wp_lift; [apply require_primary_no_panic| |done]. intros [] Hp%require_primary_Ok.
  unfold activate_client_navigation. wps.
  rewrite (proj2 (require_primary_Ok s id) Hp). apply wp_lift; [done| |done]. intros _ _. wps.
  destruct (navigation_valid s id Hs Hp) as (n & Hn & Hv). unfold swap_local in Hloc. rewrite Hn in Hloc |- *.
  apply wp_lift; [done| |done]. intros ? [= <-]. wps.
  destruct (project_navigation_refocus s n (so_base s Hs) Hv) as [Hre Ha].
  pose proof (reshape_ok s _ Hre Ha Hs) as Hs1. pose proof (rf_clients _ _ Hre) as Hc1.
  set (s1 := project_navigation n s) in *. clearbody s1.
  apply wp_lift; [apply no_panic_pane_location| |done]. intros [i j] Hl1. wps. rewrite Hl1 in Hloc.
  apply wp_lift; [apply no_panic_pane_location| |done]. intros [k l] Hl2. rewrite Hl2 in Hloc. subst k.
  rewrite Nat.eqb_refl. apply pane_location_ok in Hl1 as (w & p & Hw & _); [|apply Hs1].
  eapply wp_mono; [eapply at_window_quiet; [done|exact Hw|]| |done].
  { apply quiet_swap. eapply windows_state; [apply Hs1|done]. }
  cbv beta. intros s2 u [Hs2 Hc2]. wps.
  eapply wp_mono; [apply maintains_capture; [done|]| |done].
  { by rewrite (attached_primary_clients s1), (attached_primary_clients s). }
  cbv beta. intros s3 _ Hs3. wps. apply wp_record_event. intros s4 e Hk. wps.
  eapply ok_frame; [symmetry; exact Hk|]. apply reconcile_client_navigation_ok, Hs3.
Qed.

(** ** Reordering windows *)

(** The groups after their members were sorted. *)
Definition resorted (g g' : WindowGroup) : Prop :=
  wg_id g' = wg_id g /\ wg_index g' = wg_index g /\ group_cursor g' = group_cursor g
  /\ wg_window_ids g' ≡ₚ wg_window_ids g.

Lemma resorted_members gs gs' : Forall2 resorted gs gs' -> gs' ≫= wg_window_ids ≡ₚ gs ≫= wg_window_ids.
Proof. induction 1 as [|g g' gs gs' (_ & _ & _ & Hp) _ IH]; [done|]. simpl. by rewrite Hp, IH. Qed.

Lemma reordered_ok s s' ws :
  session_ok s -> ws ≡ₚ s_windows s -> s_windows s' = imap window_set_index ws ->
  Forall2 resorted (s_window_groups s) (s_window_groups s') ->
  membership s' = membership s -> s_authoritative_size s' = s_authoritative_size s ->
  s_landing_navigation s' = s_landing_navigation s ->
  s_group_focus_history s' = s_group_focus_history s -> active_ok s' -> session_ok s'.
Proof.
  intros Hs Hperm Ew Hgs [= Ei Ec Eo El] Es Eln Eh Hact.
  pose proof (so_base s Hs) as Hb. pose proof (sb_topology s Hb) as Ht.
  assert (Hid : w_id <$> s_windows s' ≡ₚ w_id <$> s_windows s).
  { rewrite Ew, imap_fmap_same by done. by rewrite Hperm. }
  assert (Hpn : s_windows s' ≫= pane_ids ≡ₚ s_windows s ≫= pane_ids).
  { rewrite Ew, imap_bind_same by done. by apply bind_perm. }
  assert (Hgid : wg_id <$> s_window_groups s' = wg_id <$> s_window_groups s).
  { eapply Forall2_fmap_eq; [|exact Hgs]. by intros ? ? (? & _). }
  assert (Ht' : session_topology s').
  { destruct Ht as [T1 T2 T3 T4 T5 T6]. split.
    - by rewrite Hgid.
    - by rewrite Hid.
    - by rewrite (resorted_members _ _ Hgs), T3, Hid.
    - apply Forall_lookup. intros i g' Hg'. destruct (Forall2_lookup_r _ _ _ _ _ Hgs Hg') as (g & Hg & _ & _ & _ & Hp).
      pose proof (Forall_lookup_1 _ _ _ _ T4 Hg) as Hne. simpl in Hne. intros E. rewrite E in Hp.
      by apply Permutation_nil_l in Hp.
    - rewrite Ew. apply imap_Forall; [done|]. by rewrite Hperm.
    - by rewrite Hpn. }
  assert (Hl : session_loose s').
  { pose proof (sb_ids s Hb) as [I1 I2 I3]. split; [done| | | | | | | |].
    - rewrite Ew. intros i x. rewrite list_lookup_imap. destruct (ws !! i); simpl; [|done]. by intros [= <-].
    - intros i g' Hg'. destruct (Forall2_lookup_r _ _ _ _ _ Hgs Hg') as (g & Hg & _ & -> & _).
      by apply (sb_gindex s Hb).
    - rewrite Ew, Ei. apply imap_Forall; [intros; by apply state_ok_index|]. rewrite Hperm. apply Hb.
    - split; rewrite Ei; [by rewrite Hid|by rewrite Hgid|by rewrite Ec].
    - rewrite Es. apply Hb.
    - apply Forall_lookup. intros i g' Hg'.
      destruct (Forall2_lookup_r _ _ _ _ _ Hgs Hg') as (g & Hg & _ & _ & -> & Hp).
      eapply cursor_grow; [|exact (Forall_lookup_1 _ _ _ _ (fi_groups s (sb_focus s Hb)) Hg)].
      intros v. by rewrite Hp.
    - rewrite Hgid, Eh. apply Hb.
    - apply (clients_inv_same s); [apply Hb| |done|done]. rewrite Ec. apply same_client_refl, Hb. }
  apply (ok_grow s); [done|by apply loose_base|done|done|]. apply session_grows; [done|done| |].
  - intros g [i Hi]%list_elem_of_lookup.
    destruct (Forall2_lookup_l _ _ _ _ _ Hgs Hi) as (g' & Hi' & ? & _ & _ & Hp).
    exists g'. split; [by eapply list_elem_of_lookup_2|]. split; [done|]. intros v. by rewrite Hp.
  - intros w Hw. rewrite <- Hperm in Hw. apply list_elem_of_lookup in Hw as [i Hi].
    exists (window_set_index i w). split; [|done]. eapply list_elem_of_lookup_2.
    by rewrite Ew, list_lookup_imap, Hi.
Qed.

Lemma move_window_ok s id source target : session_ok s -> maintains (move_window id source target) s.
Proof.
  intros Hs. pose proof (so_base s Hs) as Hb. apply maintains_authorized; [done|]. intros _. unfold maintains. wps.
  apply wp_lift; [by destruct (s_windows s)| |done]. intros _ _. wps.
  apply wp_lift; [by destruct (_ <=? _)%nat| |done]. intros _ _. wps.
  apply wp_lift; [apply no_panic_window_index| |done]. intros k Hk.
  apply window_index_or_active_ok in Hk; [|done]. destruct (lookup_lt_is_Some_2 _ _ Hk) as [w Hw].
  destruct (_ =? _)%nat; [done|]. wps.
  destruct (fi_active s (sb_focus s Hb)) as (g & aw & Hg & Haw & Hact); [by intros E; rewrite E in Hw|].
  rewrite (index_or_panic_lookup _ _ _ Haw). apply wp_lift; [done| |done]. intros ? [= <-]. wps.
  rewrite (index_or_panic_lookup _ _ _ Hw). apply wp_lift; [done| |done]. intros ? [= <-]. wps.
  apply maintains_emit. set (ws := insert_at target w (remove_at k (s_windows s))).
  assert (Hperm : ws ≡ₚ s_windows s).
  { subst ws. rewrite insert_at_perm. by apply remove_at_perm. }
  set (s1 := sync_group_window_order_with_window_order (reindex_windows (set_windows s ws))).
  assert (Hw1 : s_windows s1 = imap window_set_index ws) by done.
  destruct (position_by_id w_id (s_windows s1) (w_id aw)) as (j & x & Hj & Hx & Hxid).
  { rewrite Hw1, imap_fmap_same by done. rewrite Hperm. apply Hb. }
  { rewrite Hw1, imap_fmap_same by done. rewrite Hperm. apply list_elem_of_fmap_2.
    by eapply list_elem_of_lookup_2. }
  assert (Hgs : Forall2 resorted (s_window_groups s) (s_window_groups s1)).
  { subst s1. simpl. apply Forall2_fmap_r, Forall_Forall2_diag, Forall_forall. intros h _.
    split; [done|]. split; [done|]. split; [done|]. apply sort_by_key_perm. }
  apply (reordered_ok s _ ws); try done.
  destruct (Forall2_lookup_l _ _ _ _ _ Hgs Hg) as (g' & Hg' & _ & _ & Hcur & _).
  apply (active_intro _ g' x); simpl.
  - exact Hg'.
  - unfold window_index_by_id, window_position. rewrite Hj. exact Hx.
  - rewrite Hxid, <- Hact. by injection Hcur.
Qed.
End Break.
