(* ===== verification/SessionMembers.v ===== *)
(** * Clients: attachment, ownership and departure

    The membership commands keep the invariant: at most sixteen attached
    primaries, a layout owner exactly while one is attached, observers linked
    to attached primaries, valid views. *)

From S2P Require Import Prelude RustStr Ids LayoutTypes Sizing LayoutTree WindowOps WindowInv WindowSteps WindowMoves WindowCommands.
From S2P Require Import SessionTypes Reconcile SessionTargets SessionClients SessionWindows SessionMoves SessionInv SessionOk SessionFocus SessionRemoval SessionGrowth.
From Stdlib Require Import Ascii.
Local Open Scope Z_scope.

(** ** Sizes *)

Lemma ok_size s size : session_ok s -> valid_size size -> session_ok (set_authoritative_size s size).
Proof.
  intros [[Ht Hw Hg Hws Hi Hs Hf Hc] Hv Hl] Hz. split; [|done|done].
  split; try done; [by destruct Ht|by destruct Hi|by destruct Hf|by destruct Hc].
Qed.

Lemma resize_windows_ok ids size ws : Forall (fun w => state_ok (ids, w)) ws -> u16_size size ->
  Forall2 (same_window ids) ws (resize_windows size ws).1 /\ no_panic (resize_windows size ws).2.
Proof.
  intros Hws Hu. induction Hws as [|w ws Hw Hws IH]; simpl; [by split; [constructor|]|].
  destruct (quiet_resize_window ids w Hw size Hu) as (Hn & Hst & Hk & Hp).
  assert (Hrefl : Forall2 (same_window ids) ws ws).
  { clear -Hws. induction Hws; constructor; [by apply same_window_refl|done]. }
  destruct (Win.resize_window size w) as [w' [[]|e|]]; simpl in *; [|by split; [constructor|]|done].
  destruct (resize_windows size ws) as [ws' r]. simpl in *. destruct IH. by split; [constructor|].
Qed.

Lemma no_panic_for_each {A} (f : A -> result unit) l :
  (forall x, x ∈ l -> no_panic (f x)) -> no_panic (for_each f l).
Proof.
  intros Hf. induction l as [|x l IH]; simpl; [done|]. pose proof (Hf x ltac:(by left)) as Hx.
  destruct (f x); [|done|done]. apply IH. intros y Hy. apply Hf. by right.
Qed.

Lemma no_panic_validate_layout s size : no_panic (validate_authoritative_layout_size s size).
Proof.
  unfold validate_authoritative_layout_size. pose proof (no_panic_Size_validate size).
  destruct (Size_validate size); simpl; [|done|done].
  apply no_panic_for_each. intros w _. apply no_panic_validate_resize.
Qed.

Section Sizes.
Context `{Clock}.

Lemma apply_size_ok s size : session_ok s -> u16_size size ->
  wp (apply_authoritative_layout_size size) s
    (fun s' _ => session_ok s' /\ grows (from_session s) (from_session s')) session_ok.
Proof.
  intros Hs Hu. unfold apply_authoritative_layout_size. wps.
  apply wp_lift; [apply no_panic_validate_layout| |done]. intros [] Hv.
  case_bool_decide as E; [by split; [|apply grows_refl]|]. wps.
  assert (Hz : valid_size size).
  { unfold validate_authoritative_layout_size in Hv. apply bind_Ok_inv in Hv as ([] & Hv & _).
    by apply Size_validate_Ok. }
  pose proof (ok_size s size Hs Hz) as Hs1. change (from_session s) with (from_session (set_authoritative_size s size)).
  set (s1 := set_authoritative_size s size) in *. clearbody s1.
  destruct (resize_windows_ok (s_ids s1) size (s_windows s1)) as [HF Hn]; [apply Hs1|done|].
  pose proof (ok_windows s1 _ Hs1 HF) as Hok.
  pose proof (windows_grow s1 _ (so_base s1 Hs1) HF) as Hg. unfold wp, op_zoom, op_step.
  destruct (resize_windows size (s_windows s1)) as [ws [[]|e|]]; simpl in *; [|done|done]. done.
Qed.

Lemma apply_optional_ok s size : session_ok s -> (forall z, size = Some z -> u16_size z) ->
  wp (apply_optional_size size) s
    (fun s' _ => session_ok s' /\ grows (from_session s) (from_session s')) session_ok.
Proof.
  intros Hs Hu. destruct size as [z|]; [apply apply_size_ok; auto|]. by split; [|apply grows_refl].
Qed.
End Sizes.

(** ** Changes of the clients *)

Lemma ok_members s s' :
  session_ok s -> s_windows s' = s_windows s -> s_window_groups s' = s_window_groups s ->
  s_active_group_index s' = s_active_group_index s -> s_group_focus_history s' = s_group_focus_history s ->
  s_active_window_index s' = s_active_window_index s -> s_authoritative_size s' = s_authoritative_size s ->
  ids_grow (s_ids s) (s_ids s') -> landing_view (from_session s) (s_landing_navigation s') ->
  Forall (floor "c" (next_client (s_ids s'))) (c_id <$> s_clients s') ->
  clients_inv s' -> views_ok (from_session s) (s_clients s') -> session_ok s'.
Proof.
  intros Hs Ew Eg Eag Eh Ea Ez Hgr Hln Hfl Hc Hv. pose proof (so_base s Hs) as Hb.
  assert (Ef : from_session s' = from_session s) by (unfold from_session; by rewrite Ew, Eg).
  assert (Hl : session_loose (set_ids s (s_ids s'))) by (apply base_loose, base_ids; done).
  split; [|by rewrite Ef|by rewrite Ef].
  pose proof (base_ids s _ Hgr Hb) as [[] Hwi Hgi Hws [] Hz [] _]. simpl in *.
  split; rewrite ?Ew, ?Eg, ?Ez; try done.
  - split; rewrite ?Ew, ?Eg; done.
  - split; rewrite ?Ew, ?Eg; done.
  - split; rewrite ?Ew, ?Eg, ?Eag, ?Eh, ?Ea; done.
Qed.

(** Clients that keep their view. *)
Definition quiet_client (c c' : Client) : Prop := same_client c c' /\ c_navigation c' = c_navigation c.

Lemma ok_clients s cs : session_ok s -> Forall2 quiet_client (s_clients s) cs -> session_ok (set_clients s cs).
Proof.
  intros Hs HF. assert (HS : Forall2 same_client (s_clients s) cs).
  { eapply Forall2_impl; [exact HF|]. by intros ? ? []. }
  split; [apply base_clients; [apply Hs|done]| |apply Hs].
  apply Forall_lookup. intros i c' Hc'. destruct (Forall2_lookup_r _ _ _ _ _ HF Hc') as (c & Hc & Hsc & Hn).
  rewrite (is_primary_same _ _ Hsc), Hn.
  exact (Forall_lookup_1 _ _ _ _ (so_views s Hs) Hc).
Qed.

Lemma alter_client_quiet s f i : clients_inv s ->
  (forall c, c ∈ s_clients s -> same_client c c -> quiet_client c (f c)) ->
  Forall2 quiet_client (s_clients s) (alter f i (s_clients s)).
Proof.
  intros Hc Hf. destruct (s_clients s !! i) as [c|] eqn:Hi.
  - rewrite (list_alter_insert _ i c) by done. eapply Forall2_insert_same; [done| |].
    + assert (c ∈ s_clients s) by (by eapply list_elem_of_lookup_2). apply Hf; [done|by eapply same_client_self].
    + apply Forall_forall. intros x Hx. split; [by eapply same_client_self|done].
  - assert (alter f i (s_clients s) = s_clients s) as ->.
    { apply list_eq. intros j. rewrite list_lookup_alter. case_decide; [subst; by rewrite Hi|done]. }
    apply Forall_Forall2_diag, Forall_forall.
    intros x Hx. split; [by eapply same_client_self|done].
Qed.

(** ** Views for newcomers *)

Lemma empty_history members : history_ok members [].
Proof. split; [by intros v ?%not_elem_of_nil|constructor|simpl; lia]. Qed.

Lemma cursor_at_ok (members : list StableId) v : v ∈ members -> cursor_ok members (cursor_at v).
Proof. intros Hv. split; [by exists v|done|apply empty_history]. Qed.

Lemma landing_navigation_view t l : landing_view t l ->
  (forall g ws, t_group_windows t !! g = Some ws -> g ∈ t_group_ids t) ->
  view_ok t (navigation_from_landing_state l).
Proof.
  unfold landing_view, navigation_from_landing_state. intros Hl Hg.
  destruct (ln_active_group_id l) as [g|], (ln_active_window_id l) as [w|], (ln_active_pane_id l) as [p|];
    try done.
  - destruct Hl as [(ws & Hws & Hw) (ps & Hps & Hp)]. split; simpl; try done.
    + apply empty_history.
    + intros k c [<- <-]%lookup_singleton_Some. exists ws. split; [done|]. by apply cursor_at_ok.
    + intros k c [<- <-]%lookup_singleton_Some. exists ps. split; [done|]. by apply cursor_at_ok.
    + intros k [= <-]. split; [by eapply Hg|]. unfold active_pane_of, prior_pane, prior_window. simpl.
      rewrite lookup_singleton_eq. simpl. rewrite lookup_singleton_eq. simpl. eauto.
  - split; simpl; try done. apply empty_history.
Qed.

Lemma snapshot_view t n : view_ok t n ->
  landing_view t (mkLanding (fc_active (nav_groups n)) (prior_window n) (prior_pane n (prior_window n))).
Proof.
  intros Hv. unfold landing_view. simpl. destruct (fc_active (nav_groups n)) as [g|] eqn:Hg.
  - destruct (vo_chain t n Hv g Hg) as [_ [p Hp]]. unfold active_pane_of in Hp. rewrite Hp.
    destruct (prior_window n) as [w|] eqn:Hw; [|done]. unfold prior_window in Hw. rewrite Hg in Hw. simpl in *.
    destruct (nav_windows_by_group n !! g) as [c|] eqn:Hc; [|done]. simpl in Hw.
    destruct (nav_panes_by_window n !! w) as [d|] eqn:Hd; [|done]. simpl in Hp.
    destruct (vo_windows t n Hv g c Hc) as (ws & Hws & [(v & Hv1 & Hv2) _ _]).
    destruct (vo_panes t n Hv w d Hd) as (ps & Hps & [(u & Hu1 & Hu2) _ _]).
    rewrite Hw in Hv1. rewrite Hp in Hu1. injection Hv1 as <-. injection Hu1 as <-. split; [by exists ws|by exists ps].
  - unfold prior_window. by rewrite Hg.
Qed.

Lemma group_windows_id s g ws : session_topology s ->
  t_group_windows (from_session s) !! g = Some ws -> g ∈ t_group_ids (from_session s).
Proof.
  intros Ht (x & Hx & <- & _)%group_windows_lookup; [|apply Ht]. simpl. by apply list_elem_of_fmap_2.
Qed.

Lemma snapshot_landing_ok s id l : session_ok s -> is_attached_primary s id = true ->
  snapshot_landing_navigation s (Some id) = Ok l -> landing_view (from_session s) l.
Proof.
  intros Hs Hp. destruct (navigation_valid s id Hs Hp) as (n & Hn & Hv).
  unfold snapshot_landing_navigation. simpl. rewrite Hn. simpl. intros [= <-]. by apply snapshot_view.
Qed.

Lemma primary_source_view s id n : session_ok s -> is_attached_primary s id = true ->
  navigation_from_primary_source s id = Ok n -> view_ok (from_session s) n.
Proof.
  intros Hs Hp Hn. unfold navigation_from_primary_source in Hn. apply bind_Ok_inv in Hn as (l & Hl & [= <-]).
  apply landing_navigation_view; [by eapply snapshot_landing_ok|]. intros g ws. apply group_windows_id, Hs.
Qed.

Lemma no_panic_navigation s id : no_panic (navigation s id).
Proof. unfold navigation. auto with mez. Qed.
Lemma no_panic_snapshot s id : no_panic (snapshot_landing_navigation s (Some id)).
Proof.
  unfold snapshot_landing_navigation. simpl. pose proof (no_panic_navigation s id). by destruct (navigation s id).
Qed.
Lemma no_panic_primary_source s id : no_panic (navigation_from_primary_source s id).
Proof.
  unfold navigation_from_primary_source. pose proof (no_panic_snapshot s id).
  by destruct (snapshot_landing_navigation s (Some id)).
Qed.

(** ** Attaching *)

Definition terminal_u16 (t : option ClientTerminalDescriptor) : Prop :=
  forall d, t = Some d -> in_u16 (ct_columns d) /\ in_u16 (ct_rows d).

Lemma terminal_size_u16 t z : terminal_u16 t -> terminal_size t = Ok (Some z) -> u16_size z.
Proof.
  intros Ht. destruct t as [d|]; simpl; [|done]. destruct (Ht d eq_refl) as [? ?].
  destruct (Size_new (ct_columns d) (ct_rows d)) as [z'|e|] eqn:E; simpl; [|done|done]. intros [= <-].
  by apply Size_new_Ok in E as [-> _].
Qed.

Lemma no_panic_terminal_size t : no_panic (terminal_size t).
Proof.
  destruct t as [d|]; simpl; [|done]. pose proof (no_panic_Size_new (ct_columns d) (ct_rows d)).
  by destruct (Size_new _ _).
Qed.

Lemma no_panic_validate_terminal t : no_panic (validate_optional_terminal t).
Proof.
  destruct t as [d|]; simpl; [|done]. unfold validate_client_terminal_descriptor.
  destruct (_ || _); [done|]. pose proof (no_panic_Size_new (ct_columns d) (ct_rows d)).
  destruct (Size_new _ _); simpl; [|done|done]. by repeat case_match.
Qed.

Lemma attached_app s s' c id : s_clients s' = s_clients s ++ [c] ->
  is_attached_primary s' id = is_attached_primary s id || (has_client_id id c && is_interactive_primary c).
Proof. intros E. unfold is_attached_primary. rewrite E, existsb_app. simpl. by rewrite orb_false_r. Qed.

(** The newcomer's identity. *)
Lemma client_alloc s : session_base s -> room (s_ids s) ->
  let '(id, ids) := IdFactoryOps.client (s_ids s) in
  id ∉ c_id <$> s_clients s /\ ids_grow (s_ids s) ids
  /\ Forall (floor "c" (next_client ids)) (c_id <$> s_clients s) /\ floor "c" (next_client ids) id.
Proof.
  intros Hb Hr. pose proof (ii_clients s (sb_ids s Hb)) as Hc. pose proof (rm_client _ Hr) as Hrc.
  pose proof (client_grow (s_ids s) Hr) as Hg. destruct (s_ids s) as [a b c d e f]. simpl in *.
  split; [by apply floor_fresh|]. split; [done|]. split; [|by apply floor_new].
  eapply Forall_impl; [exact Hc|]. intros v. by apply floor_mono, wrapping_succ_ge.
Qed.

Lemma wp_alloc_client s Q R :
  Q (set_ids s (IdFactoryOps.client (s_ids s)).2) (IdFactoryOps.client (s_ids s)).1 -> wp alloc_client s Q R.
Proof.
  unfold wp, alloc_client, op_zoom, op_step, Win.alloc. by destruct (IdFactoryOps.client (s_ids s)).
Qed.

(** A client joins; the owner and the observers may change with it. *)
Lemma attach_ok s s' c :
  session_ok s -> s_clients s' = s_clients s ++ [c] ->
  s_windows s' = s_windows s -> s_window_groups s' = s_window_groups s ->
  s_active_group_index s' = s_active_group_index s -> s_group_focus_history s' = s_group_focus_history s ->
  s_active_window_index s' = s_active_window_index s -> s_authoritative_size s' = s_authoritative_size s ->
  s_landing_navigation s' = s_landing_navigation s -> ids_grow (s_ids s) (s_ids s') ->
  c_id c ∉ c_id <$> s_clients s -> Forall (floor "c" (next_client (s_ids s'))) (c_id <$> s_clients s) ->
  floor "c" (next_client (s_ids s')) (c_id c) -> terminal_u16 (c_terminal c) ->
  (is_primary c = true -> c_interactive c = true
     /\ exists n, c_navigation c = Some n /\ view_ok (from_session s) n) ->
  (length (attached_primaries s') <= MAX_ATTACHED_PRIMARY_CLIENTS)%nat ->
  match s_layout_owner_client_id s' with
  | Some o => is_attached_primary s' o = true
  | None => attached_primaries s' = []
  end ->
  (s_observer_attachments s' = s_observer_attachments s
   \/ c_role c = Observer /\ c_state c = Attached /\ exists src e, is_attached_primary s src = true
      /\ s_observer_attachments s' = s_observer_attachments s ++ [mkObserver (c_id c) src e]) ->
  session_ok s'.
Proof.
  intros Hs Ec Ew Eg Eag Eh Ea Ez Eln Hgr Hfr Hfl Hflc Ht Hpr Hcount Hown Hobs.
  pose proof (sb_clients s (so_base s Hs)) as [C1 C2 C3 C4 C5 C6 C7].
  apply (ok_members s); try done.
  - rewrite Eln. apply Hs.
  - rewrite Ec, fmap_app. apply Forall_app. split; [done|by apply Forall_singleton].
  - split; try done; rewrite ?Ec.
    + rewrite fmap_app. apply NoDup_app. split; [done|]. split; [|apply NoDup_singleton].
      intros v Hv Hv'%list_elem_of_singleton. by subst.
    + apply Forall_app. split; [done|]. apply Forall_singleton. intros Hp.
      destruct (Hpr Hp) as (? & n & ? & _). split; [done|by exists n].
    + assert (Hold : Forall (fun o => (exists c', c' ∈ s_clients s' /\ c_id c' = ob_client_id o
                /\ c_role c' = Observer /\ c_state c' = Attached)
              /\ is_attached_primary s' (ob_view_source_client_id o) = true) (s_observer_attachments s)).
      { eapply Forall_impl; [exact C5|]. simpl. intros o ((c' & Hin & ?) & Hsrc). split.
        - exists c'. rewrite Ec, elem_of_app. split; [by left|done].
        - rewrite (attached_app s s' c) by done. by rewrite Hsrc. }
      destruct Hobs as [->|(Hr & Hst & src & e & Hsrc & ->)]; rewrite Ec in Hold; [done|].
      apply Forall_app. split; [done|]. apply Forall_singleton. simpl. split.
      * exists c. rewrite elem_of_app, list_elem_of_singleton. by split; [right|].
      * rewrite (attached_app s s' c) by done. by rewrite Hsrc.
    + destruct Hobs as [->|(Hr & Hst & src & e & Hsrc & ->)]; [done|].
      rewrite fmap_app. apply NoDup_app. split; [done|]. split; [|apply NoDup_singleton].
      intros v Hv Hv'%list_elem_of_singleton. simpl in Hv'. subst v. apply Hfr.
      apply list_elem_of_fmap in Hv as (o & Eo & Hin). rewrite Forall_forall in C5.
      destruct (C5 o Hin) as ((c' & Hc' & E' & _) & _). rewrite Eo, <- E'. by apply list_elem_of_fmap_2.
    + apply Forall_app. split; [done|]. apply Forall_singleton. intros d Hd. by apply Ht.
  - rewrite Ec. apply Forall_app. split; [apply Hs|]. apply Forall_singleton. intros Hp n Hn.
    destruct (Hpr Hp) as (_ & n' & Hn' & ?). congruence.
Qed.

Lemma attached_primaries_app s s' c : s_clients s' = s_clients s ++ [c] ->
  attached_primaries s' = attached_primaries s ++ (if is_interactive_primary c then [c] else []).
Proof.
  intros E. unfold attached_primaries. rewrite E, List.filter_app. simpl.
  by destruct (is_interactive_primary c).
Qed.

Section Attach.
Context `{Clock}.

Lemma wp_record_ok s (Q : Session -> Z -> Prop) R :
  session_ok s -> (forall s' e, session_ok s' -> Q s' e) -> wp record_event s Q R.
Proof. intros Hs HQ. apply wp_record_event. intros s' e Hk. apply HQ. by eapply ok_frame. Qed.

(** The checks of an attachment, whose failures leave the session alone. *)
Lemma owner_view s : session_ok s -> forall view,
  match s_layout_owner_client_id s with
  | Some owner_id => navigation_from_primary_source s owner_id
  | None => Ok (navigation_from_landing s)
  end = Ok view -> view_ok (from_session s) view.
Proof.
  intros Hs view. pose proof (ci_owner s (sb_clients s (so_base s Hs))) as Ho.
  destruct (s_layout_owner_client_id s) as [o|].
  - by apply primary_source_view.
  - intros [= <-]. apply landing_navigation_view; [apply Hs|]. intros g ws. apply group_windows_id, Hs.
Qed.

Lemma attach_primary_ok s name interactive terminal :
  session_ok s -> room (s_ids s) -> terminal_u16 terminal ->
  maintains (attach_primary_with_terminal_transition name interactive terminal) s.
Proof.
  intros Hs Hr Ht. pose proof (so_base s Hs) as Hb. pose proof (sb_clients s Hb) as Hci.
  unfold maintains, attach_primary_with_terminal_transition. wps.
  destruct interactive; [|done]. apply wp_lift; [done| |done]. intros _ _. wps.
  apply wp_lift; [apply no_panic_validate_terminal| |done]. intros _ _. wps.
  destruct (Nat.leb_spec MAX_ATTACHED_PRIMARY_CLIENTS (length (attached_primaries s))) as [|Hlt]; [done|].
  apply wp_lift; [done| |done]. intros _ _. wps.
  apply wp_lift; [apply no_panic_terminal_size| |done]. intros size Hsize. wps.
  apply wp_lift; [|intros _ _|done].
  { destruct (s_layout_owner_client_id s), size; try done. apply no_panic_validate_layout. }
  wps. apply wp_lift; [|intros view Hview%owner_view; [|done]|done].
  { destruct (s_layout_owner_client_id s); [apply no_panic_primary_source|done]. }
  wps. apply wp_alloc_client. wps. apply wp_clock. wps.
  pose proof (client_alloc s Hb Hr) as Ha. destruct (IdFactoryOps.client (s_ids s)) as [cid ids].
  destruct Ha as (Hfr & Hgr & Hfl & Hflc). cbv [fst snd].
  set (c := mkClient cid name Primary Attached true terminal _ _ _).
  assert (Hint : is_interactive_primary c = true) by done.
  assert (Hstep : forall s1, s_clients s1 = s_clients s ++ [c] ->
    s_windows s1 = s_windows s -> s_window_groups s1 = s_window_groups s ->
    s_active_group_index s1 = s_active_group_index s -> s_group_focus_history s1 = s_group_focus_history s ->
    s_active_window_index s1 = s_active_window_index s -> s_authoritative_size s1 = s_authoritative_size s ->
    s_landing_navigation s1 = s_landing_navigation s -> s_ids s1 = ids ->
    s_observer_attachments s1 = s_observer_attachments s ->
    (s_layout_owner_client_id s1 = Some cid \/
     exists o, s_layout_owner_client_id s = Some o /\ s_layout_owner_client_id s1 = Some o) -> session_ok s1).
  { intros s1 Ec Ew Eg Eag Eh Ea Ez Eln Ei Eo Eown.
    apply (attach_ok s s1 c); try done; try (by rewrite Ei).
    - intros _. split; [done|]. by exists view.
    - rewrite (attached_primaries_app s s1 c), Hint, length_app by done. simpl. lia.
    - destruct Eown as [->|(o & Eo1 & ->)]; rewrite (attached_app s s1 c) by done.
      + rewrite Hint. unfold has_client_id. simpl. rewrite String.eqb_refl. apply orb_true_r.
      + pose proof (ci_owner s Hci) as Ho. rewrite Eo1 in Ho. by rewrite Ho.
    - by left. }
  destruct (s_layout_owner_client_id s) as [o|] eqn:Eown.
  - wps. apply wp_record_ok; [|by intros; wps]. apply Hstep; try done. right. by exists o.
  - unfold take_layout_ownership. wps.
    eapply wp_mono; [apply apply_optional_ok| |done].
    + apply Hstep; try done. by left.
    + intros z ->. by eapply terminal_size_u16.
    + cbv beta. intros s2 fx [Hs2 _]. wps. apply wp_record_ok; [|by intros; wps]. by apply (ok_frame s2).
Qed.

Lemma maintains_then {A B} (m : smethod A) (f : A -> B) s : maintains m s -> maintains (m ≫= fun a => mret (f a)) s.
Proof. intros Hm. apply maintains_bind; [done|]. intros. by wps. Qed.

Lemma attach_observer_ok s name terminal e : session_ok s -> room (s_ids s) -> terminal_u16 terminal ->
  maintains (attach_observer_with_terminal name terminal e) s.
Proof.
  intros Hs Hr Ht. pose proof (so_base s Hs) as Hb. pose proof (sb_clients s Hb) as Hci.
  unfold maintains, attach_observer_with_terminal. wps.
  destruct (s_layout_owner_client_id s) as [src|] eqn:Eown; [|done].
  apply wp_lift; [done| |done]. intros ? [= <-]. wps.
  apply wp_lift; [apply require_primary_no_panic| |done]. intros [] Hp%require_primary_Ok. wps.
  apply wp_lift; [apply no_panic_validate_terminal| |done]. intros _ _. wps.
  apply wp_lift; [apply no_panic_primary_source| |done]. intros view _. wps.
  apply wp_alloc_client. wps. apply wp_clock. wps.
  pose proof (client_alloc s Hb Hr) as Ha. destruct (IdFactoryOps.client (s_ids s)) as [cid ids].
  destruct Ha as (Hfr & Hgr & Hfl & Hflc). cbv [fst snd].
  apply wp_record_ok; [|by intros; wps]. set (c := mkClient cid name Observer Attached false terminal _ _ _).
  eapply (attach_ok s _ c); try done.
  - rewrite (attached_primaries_app s _ c) by done. rewrite app_nil_r. apply Hci.
  - simpl. rewrite Eown. rewrite (attached_app s _ c) by done. by rewrite Hp.
  - right. split; [done|]. split; [done|]. by exists src, e.
Qed.

Lemma attach_control_ok s name role interactive : session_ok s -> room (s_ids s) ->
  maintains (attach_control_client name role interactive) s.
Proof.
  intros Hs Hr. pose proof (so_base s Hs) as Hb. pose proof (sb_clients s Hb) as Hci.
  unfold maintains, attach_control_client. wps.
  apply wp_lift; [by destruct role| |done]. intros u Hrole. wps.
  apply wp_alloc_client. wps. apply wp_clock. wps.
  pose proof (client_alloc s Hb Hr) as Ha. destruct (IdFactoryOps.client (s_ids s)) as [cid ids].
  destruct Ha as (Hfr & Hgr & Hfl & Hflc). cbv [fst snd].
  apply wp_record_ok; [|by intros; wps]. set (c := mkClient cid name role Attached interactive None _ _ _).
  assert (Hnp : is_primary c = false) by (unfold is_primary; by destruct role).
  assert (Hnip : is_interactive_primary c = false) by (unfold is_interactive_primary; by rewrite Hnp).
  eapply (attach_ok s _ c); try done.
  - by rewrite Hnp.
  - rewrite (attached_primaries_app s _ c), Hnip by done. rewrite app_nil_r. apply Hci.
  - simpl. pose proof (ci_owner s Hci) as Ho. destruct (s_layout_owner_client_id s) as [o|].
    + rewrite (attached_app s _ c) by done. by rewrite Ho.
    + rewrite (attached_primaries_app s _ c), Hnip by done. by rewrite app_nil_r.
  - by left.
Qed.
End Attach.
