(* ===== verification/SessionDepart.v ===== *)
(** * Clients: ownership transfer, terminals and departure *)

From S2P Require Import Prelude RustStr Ids LayoutTypes Sizing LayoutTree WindowOps WindowInv WindowSteps WindowMoves WindowCommands.
From S2P Require Import SessionTypes Reconcile SessionTargets SessionClients SessionWindows SessionMoves SessionInv SessionOk SessionFocus SessionRemoval SessionGrowth SessionMembers.
From Stdlib Require Import Ascii.
Local Open Scope Z_scope.

(** ** Ownership *)

Lemma ok_owner s o : session_ok s -> is_attached_primary s o = true ->
  session_ok (set_layout_owner_client_id s (Some o)).
Proof.
  intros Hs Ho. pose proof (sb_clients s (so_base s Hs)) as [C1 C2 C3 C4 C5 C6 C7].
  apply (ok_members s); try done; [apply Hs|apply (sb_ids s (so_base s Hs))|apply Hs].
Qed.

Lemma quiet_seen now c : same_client c c -> quiet_client c (client_set_last_seen now c).
Proof. intros (_ & _ & _ & _ & _ & Ht). split; [|done]. repeat split; try done; by apply Ht. Qed.

Lemma quiet_terminal t c : same_client c c -> terminal_u16 t ->
  forall now, quiet_client c (client_set_last_seen now (client_set_terminal t c)).
Proof. intros _ Ht now. split; [|done]. repeat split; try done; by apply (Ht t0). Qed.

Section Owner.
Context `{Clock}.

Lemma take_ownership_ok s o size : session_ok s -> is_attached_primary s o = true ->
  (forall z, size = Some z -> u16_size z) ->
  wp (take_layout_ownership (Some o) size) s (fun s' _ => session_ok s') session_ok.
Proof.
  intros Hs Ho Hz. unfold take_layout_ownership. wps.
  eapply wp_mono; [apply apply_optional_ok; [|done]|by intros ? ? [? _]|done].
  apply (ok_frame (set_layout_owner_client_id s (Some o))); [done|]. by apply ok_owner.
Qed.

Lemma select_owner_ok s authority target : session_ok s ->
  maintains (select_layout_owner_transition authority target) s.
Proof.
  intros Hs. pose proof (so_base s Hs) as Hb. pose proof (sb_clients s Hb) as Hci.
  unfold maintains, select_layout_owner_transition. wps.
  apply wp_lift; [by destruct authority| |done]. intros a _. wps.
  apply wp_lift; [apply require_primary_no_panic| |done]. intros _ _. wps.
  destruct (client_position (s_clients s) target) as [i|] eqn:Hi; [|done].
  apply wp_lift; [done| |done]. intros ? [= <-]. wps. apply position_id_Some in Hi as (c & Hc & _).
  rewrite (index_or_panic_lookup _ _ _ Hc). apply wp_lift; [done| |done]. intros ? [= <-]. wps.
  destruct (negb (c_interactive c) || _ || _) eqn:Hel; [done|].
  apply orb_false_iff in Hel as [[H1%negb_false_iff H2%negb_false_iff]%orb_false_iff H3%negb_false_iff].
  apply wp_lift; [done| |done]. intros _ _. wps.
  apply wp_lift; [apply no_panic_terminal_size| |done]. intros size Hsize. wps.
  apply wp_lift; [|intros _ _|done].
  { destruct (negb _), size; try done. apply no_panic_validate_layout. }
  wps. apply wp_clock. wps.
  assert (Hin : c ∈ s_clients s) by (by eapply list_elem_of_lookup_2).
  assert (Hatt : is_attached_primary s (c_id c) = true).
  { unfold is_attached_primary. apply existsb_exists. exists c. split; [by apply list_elem_of_In|].
    unfold has_client_id, is_interactive_primary, is_primary. by rewrite String.eqb_refl, H1, H2, H3. }
  set (now := clock_at (s_clock_reads s)).
  assert (HF : Forall2 quiet_client (s_clients s) (alter (client_set_last_seen now) i (s_clients s))).
  { apply alter_client_quiet; [done|]. intros x _ Hx. by apply quiet_seen. }
  pose proof (ok_clients s _ Hs HF) as Hs1.
  match goal with |- wp _ ?x _ _ => set (s1 := x) end.
  assert (Hs2 : session_ok s1) by (by apply (ok_frame (set_clients s (alter (client_set_last_seen now) i (s_clients s))))).
  assert (Hatt1 : is_attached_primary s1 (c_id c) = true).
  { rewrite (attached_primary_same s s1); [done|]. eapply Forall2_impl; [exact HF|]. by intros ? ? []. }
  clearbody s1. destruct (negb _).
  - eapply wp_mono; [apply take_ownership_ok; [done|done|]| |done].
    + intros z ->. eapply terminal_size_u16; [|exact Hsize]. intros d Hd.
      pose proof (ci_terminals s Hci) as Ht. rewrite Forall_forall in Ht. by apply (Ht c).
    + cbv beta. intros s3 fx Hs3. wps. apply wp_record_ok; [done|]. by intros; wps.
  - wps. apply wp_record_ok; [done|]. by intros; wps.
Qed.

Lemma resize_observer_ok s id size : session_ok s -> u16_size size ->
  maintains (resize_observer_terminal id size) s.
Proof.
  intros Hs [Hu1 Hu2]. pose proof (sb_clients s (so_base s Hs)) as Hci.
  unfold maintains, resize_observer_terminal. wps.
  apply wp_lift; [apply no_panic_Size_validate| |done]. intros _ _. wps.
  apply wp_lift; [auto with mez| |done]. intros c _. wps.
  apply wp_lift; [auto with mez| |done]. intros t _. wps. apply wp_clock. wps.
  apply wp_record_ok; [|by intros; wps].
  match goal with |- session_ok (set_clients ?s1 (update_first ?p ?f ?cs)) =>
    apply (ok_frame (set_clients s (update_first p f (s_clients s)))); [done|] end.
  apply ok_clients; [done|]. apply update_first_Forall2.
  - apply Forall_forall. intros x Hx. split; [by eapply same_client_self|done].
  - intros x Hx _. apply quiet_terminal; [by eapply same_client_self|]. by intros d [= <-].
Qed.

Lemma resize_authoritative_ok s id size : session_ok s -> u16_size size ->
  maintains (resize_authoritative_terminal_transition id size) s.
Proof.
  intros Hs Hu. pose proof (sb_clients s (so_base s Hs)) as Hci. apply maintains_authorized; [done|].
  intros _. unfold maintains. wps.
  apply wp_lift; [apply no_panic_Size_validate| |done]. intros _ _. wps.
  apply wp_lift; [|intros _ _|done].
  { case_bool_decide; [apply no_panic_validate_layout|done]. }
  wps. apply wp_lift; [auto with mez| |done]. intros i _. wps. apply wp_clock. wps.
  match goal with |- wp _ (set_clients _ (alter ?f _ _)) _ _ => set (g := f) end.
  assert (HF : Forall2 quiet_client (s_clients s) (alter g i (s_clients s))).
  { apply alter_client_quiet; [done|]. intros x Hx Hxx. apply quiet_terminal; [done|].
    intros d Hd. destruct (c_terminal x) as [t|]; [|done]. simpl in Hd. injection Hd as <-. apply Hu. }
  pose proof (ok_clients s _ Hs HF) as Hs1.
  match goal with |- wp _ ?x _ _ => set (s1 := x) end.
  assert (Hs2 : session_ok s1) by (by apply (ok_frame (set_clients s (alter g i (s_clients s))))).
  clearbody s1. destruct (negb _); [by apply maintains_emit|]. case_bool_decide; [by apply maintains_emit|]. wps.
  eapply wp_mono; [by apply apply_size_ok| |done]. cbv beta. intros s3 fx [Hs3 _]. wps.
  apply maintains_emit. by apply (ok_frame s3).
Qed.
End Owner.

(** ** Departure *)

(** Clients of which those named in [ids] have moved to state [st]. *)
Definition moved (ids : list ClientId) (st : ClientState) (c c' : Client) : Prop :=
  c_id c' = c_id c /\ c_role c' = c_role c /\ c_interactive c' = c_interactive c
  /\ c_terminal c' = c_terminal c /\ c_navigation c' = c_navigation c
  /\ ((c_id c ∈ ids /\ c_state c' = st) \/ (c_id c ∉ ids /\ c_state c' = c_state c)).

Lemma moved_ids ids st cs cs' : Forall2 (moved ids st) cs cs' -> c_id <$> cs' = c_id <$> cs.
Proof. intros HF. eapply Forall2_fmap_eq; [|exact HF]. by intros ? ? (? & _). Qed.

Lemma update_moved id st at_ cs : NoDup (c_id <$> cs) ->
  Forall2 (moved [id] st) cs (update_first (has_client_id id) (depart st at_) cs).
Proof.
  intros Hd. apply Forall2_same_length_lookup. unfold update_first.
  destruct (position (has_client_id id) cs) as [k|] eqn:Hk.
  - apply position_Some in Hk as (x & Hx & Hid%String.eqb_eq & _).
    split; [by rewrite length_alter|]. intros j c c' Hc Hc'. rewrite list_lookup_alter in Hc'. case_decide as E.
    + subst j. rewrite Hx in Hc, Hc'. simpl in Hc'. simplify_eq. repeat split; try done.
      left. split; [by left|done].
    + rewrite Hc in Hc'. injection Hc' as <-. repeat split; try done. right. split; [|done].
      intros Hin%list_elem_of_singleton. apply E. eapply (NoDup_lookup (c_id <$> cs)); [done| |].
      * rewrite list_lookup_fmap, Hx. simpl. by rewrite Hid.
      * rewrite list_lookup_fmap, Hc. simpl. by rewrite Hin.
  - split; [done|]. intros j c c' Hc Hc'. rewrite Hc in Hc'. injection Hc' as <-. repeat split; try done.
    right. split; [|done]. intros Hin%list_elem_of_singleton.
    destruct (position_is_Some (has_client_id id) cs c) as [k Hk']; [by eapply list_elem_of_lookup_2| |congruence].
    unfold has_client_id. by rewrite Hin, String.eqb_refl.
Qed.

Lemma moved_trans ids ids' st c c' c'' : moved ids st c c' -> moved ids' st c' c'' -> moved (ids ++ ids') st c c''.
Proof.
  intros (E1 & E2 & E3 & E4 & E5 & H1) (F1 & F2 & F3 & F4 & F5 & H2).
  repeat split; try congruence. rewrite E1 in H2. rewrite elem_of_app.
  destruct H2 as [[? ?]|[? ?]]; [left; by split; [right|]|].
  destruct H1 as [[? ?]|[? ?]]; [left; split; [by left|congruence]|]. right. split; [|congruence]. by intros [].
Qed.

Lemma revoke_moved ids st at_ : forall cs, NoDup (c_id <$> cs) ->
  Forall2 (moved ids st) cs (foldl (fun cs id => update_first (has_client_id id) (depart st at_) cs) cs ids).
Proof.
  induction ids as [|id ids IH]; intros cs Hd; simpl.
  - apply Forall_Forall2_diag, Forall_forall. intros c _. repeat split; try done. right. split; [|done].
    apply not_elem_of_nil.
  - pose proof (update_moved id st at_ cs Hd) as H1.
    eapply Forall2_compose; [|exact H1|apply IH; by rewrite (moved_ids _ _ _ _ H1)].
    intros x y z. apply (moved_trans [id]).
Qed.

(** The session of which the clients in [gone] have left: they are not primaries
    any more, the others are what they were. *)
Definition left_clients (gone : list ClientId) (c c' : Client) : Prop :=
  c_id c' = c_id c /\ c_role c' = c_role c /\ c_interactive c' = c_interactive c
  /\ c_terminal c' = c_terminal c /\ c_navigation c' = c_navigation c
  /\ (if decide (c_id c ∈ gone) then c_state c' <> Attached else c_state c' = c_state c).

Lemma left_interactive gone c c' : left_clients gone c c' ->
  is_interactive_primary c' = is_interactive_primary c && negb (bool_decide (c_id c ∈ gone)).
Proof.
  intros (_ & Hr & Hi & _ & _ & Hst). unfold is_interactive_primary, is_primary. rewrite Hr, Hi.
  case_decide as E.
  - rewrite (bool_decide_eq_true_2 _ E), (bool_decide_eq_false_2 (c_state c' = Attached)) by done.
    by rewrite !andb_false_r.
  - rewrite (bool_decide_eq_false_2 _ E), Hst. simpl. by rewrite andb_true_r.
Qed.

Lemma left_attached gone s s' id : Forall2 (left_clients gone) (s_clients s) (s_clients s') ->
  is_attached_primary s' id = is_attached_primary s id && negb (bool_decide (id ∈ gone)).
Proof.
  unfold is_attached_primary. induction 1 as [|c c' cs cs' Hc _ IH]; simpl; [done|].
  rewrite IH, (left_interactive _ _ _ Hc). unfold has_client_id. destruct Hc as (-> & _).
  destruct (String.eqb_spec (c_id c) id) as [->|]; simpl; [|done].
  by destruct (is_interactive_primary c), (bool_decide (id ∈ gone)), (existsb _ cs).
Qed.

Lemma left_primaries gone s s' : Forall2 (left_clients gone) (s_clients s) (s_clients s') ->
  Forall2 (left_clients gone)
    (List.filter (fun c => negb (bool_decide (c_id c ∈ gone))) (attached_primaries s)) (attached_primaries s').
Proof.
  unfold attached_primaries. induction 1 as [|c c' cs cs' Hc _ IH]; simpl; [done|].
  rewrite (left_interactive _ _ _ Hc). destruct (is_interactive_primary c); simpl; [|done].
  destruct (negb _); simpl; [by constructor|done].
Qed.

Lemma departed_ok s s' gone :
  session_ok s -> Forall2 (left_clients gone) (s_clients s) (s_clients s') ->
  s_windows s' = s_windows s -> s_window_groups s' = s_window_groups s ->
  s_active_group_index s' = s_active_group_index s -> s_group_focus_history s' = s_group_focus_history s ->
  s_active_window_index s' = s_active_window_index s -> s_authoritative_size s' = s_authoritative_size s ->
  s_ids s' = s_ids s -> landing_view (from_session s) (s_landing_navigation s') ->
  match s_layout_owner_client_id s' with
  | Some o => is_attached_primary s o = true /\ o ∉ gone
  | None => List.filter (fun c => negb (bool_decide (c_id c ∈ gone))) (attached_primaries s) = []
  end ->
  s_observer_attachments s' `sublist_of` s_observer_attachments s ->
  (forall o, o ∈ s_observer_attachments s' ->
     ob_client_id o ∉ gone /\ ob_view_source_client_id o ∉ gone) ->
  session_ok s'.
Proof.
  intros Hs HF Ew Eg Eag Eh Ea Ez Ei Hln Hown Hsub Hobs.
  pose proof (sb_clients s (so_base s Hs)) as [C1 C2 C3 C4 C5 C6 C7].
  assert (Hid : c_id <$> s_clients s' = c_id <$> s_clients s).
  { eapply Forall2_fmap_eq; [|exact HF]. by intros ? ? (? & _). }
  assert (Hatt : forall id, is_attached_primary s id = true -> id ∉ gone -> is_attached_primary s' id = true).
  { intros id Hp Hn. by rewrite (left_attached gone s s' id HF), Hp, bool_decide_eq_false_2. }
  assert (Hprim : forall c c', left_clients gone c c' -> is_primary c' = true -> is_primary c = true).
  { intros c c' (_ & Hr & _ & _ & _ & Hst). unfold is_primary. rewrite Hr.
    intros [H1 H2%bool_decide_eq_true]%andb_true_iff. case_decide; [done|]. by rewrite H1, <- Hst, bool_decide_eq_true_2. }
  apply (ok_members s); try done; [by rewrite Ei|rewrite Ei, Hid; apply (sb_ids s (so_base s Hs))| |].
  - split.
    + by rewrite Hid.
    + apply Forall_lookup. intros i c' Hc'. destruct (Forall2_lookup_r _ _ _ _ _ HF Hc') as (c & Hc & Hlc).
      intros Hp. pose proof (Forall_lookup_1 _ _ _ _ C2 Hc (Hprim c c' Hlc Hp)).
      destruct Hlc as (_ & _ & -> & _ & -> & _). done.
    + rewrite <- (Forall2_length _ _ _ (left_primaries gone s s' HF)).
      etrans; [apply filter_length_le|done].
    + destruct (s_layout_owner_client_id s') as [o|]; [destruct Hown; by apply Hatt|].
      pose proof (left_primaries gone s s' HF) as HL. rewrite Hown in HL. by inversion HL.
    + apply Forall_forall. intros o Ho. destruct (Hobs o Ho) as [Hn1 Hn2].
      rewrite Forall_forall in C5. destruct (C5 o) as ((c & Hin & E1 & E2 & E3) & Hsrc).
      { by eapply elem_of_sublist. }
      split; [|by apply Hatt]. apply list_elem_of_lookup in Hin as [i Hi].
      destruct (Forall2_lookup_l _ _ _ _ _ HF Hi) as (c' & Hi' & (F1 & F2 & _ & _ & _ & Hst)).
      exists c'. split; [by eapply list_elem_of_lookup_2|]. rewrite E1 in Hst. rewrite decide_False in Hst by done.
      split; [congruence|]. split; congruence.
    + eapply sublist_NoDup; [exact C6|]. by apply sublist_fmap_of.
    + apply Forall_lookup. intros i c' Hc'. destruct (Forall2_lookup_r _ _ _ _ _ HF Hc') as (c & Hc & Hlc).
      destruct Hlc as (_ & _ & _ & -> & _). by eapply (Forall_lookup_1 _ _ _ _ C7 Hc).
  - apply Forall_lookup. intros i c' Hc'. destruct (Forall2_lookup_r _ _ _ _ _ HF Hc') as (c & Hc & Hlc).
    intros Hp n Hn. pose proof (Hprim c c' Hlc Hp) as Hpc. destruct Hlc as (_ & _ & _ & _ & E & _).
    rewrite E in Hn. exact (Forall_lookup_1 _ _ _ _ (so_views s Hs) Hc Hpc n Hn).
Qed.

Lemma moved_left pid revoked c c1 c2 :
  moved [pid] Detached c c1 -> moved revoked Revoked c1 c2 -> left_clients (pid :: revoked) c c2.
Proof.
  intros (E1 & E2 & E3 & E4 & E5 & H1) (F1 & F2 & F3 & F4 & F5 & H2).
  repeat split; try congruence. rewrite E1 in H2. rewrite list_elem_of_singleton in H1. case_decide as Hin.
  - destruct H2 as [[_ ->]|[Hn ->]]; [done|]. apply elem_of_cons in Hin as [Hp|?]; [|done].
    destruct H1 as [[_ ->]|[? _]]; done.
  - rewrite elem_of_cons in Hin. destruct H2 as [[? _]|[_ ->]]; [naive_solver|].
    destruct H1 as [[? _]|[_ ->]]; [naive_solver|done].
Qed.

(** Observers are not primaries. *)
Lemma primary_not_observer s id o : clients_inv s -> is_attached_primary s id = true ->
  o ∈ s_observer_attachments s -> ob_client_id o <> id.
Proof.
  intros Hc (c & Hin & <- & Hp%interactive_is_primary)%attached_primary_client Ho E.
  pose proof (ci_observers s Hc) as Hob. rewrite Forall_forall in Hob.
  destruct (Hob o Ho) as ((c' & Hin' & E1 & E2 & _) & _).
  assert (c' = c) as -> by (eapply (NoDup_elem_eq c_id); [apply Hc|done|done|congruence]).
  unfold is_primary in Hp. by rewrite E2 in Hp.
Qed.

Section Detach.
Context `{Clock}.

Definition follows (pid : ClientId) (o : ObserverAttachment) : bool :=
  String.eqb (ob_view_source_client_id o) pid.

(** The clients and attachments after a primary left. *)
Section Leaving.
Context (s : Session) (pid : ClientId) (Hs : session_ok s) (Hp : is_attached_primary s pid = true).
Local Abbreviation revoked := (ob_client_id <$> List.filter (follows pid) (s_observer_attachments s)).
Local Abbreviation gone := (pid :: revoked).

Lemma attached_not_gone id : is_attached_primary s id = true -> id <> pid -> id ∉ gone.
Proof using Hs.
  intros Hid Hne. rewrite elem_of_cons. intros [?|(o & E & Hin)%list_elem_of_fmap]; [done|].
  apply list_elem_of_In, filter_In in Hin as [Hin _]. apply list_elem_of_In in Hin.
  eapply (primary_not_observer s id o); [apply (so_base s Hs)|done|done|done].
Qed.

Lemma kept_not_gone o :
  o ∈ List.filter (fun o => negb (follows pid o)) (s_observer_attachments s) ->
  ob_client_id o ∉ gone /\ ob_view_source_client_id o ∉ gone.
Proof using Hs Hp.
  intros Hin. apply list_elem_of_In, filter_In in Hin as [Hin Hf]. apply list_elem_of_In in Hin.
  pose proof (sb_clients s (so_base s Hs)) as Hc. apply negb_true_iff in Hf. split.
  - rewrite elem_of_cons. intros [E|(o' & E & Hin')%list_elem_of_fmap].
    + by eapply (primary_not_observer s pid o).
    + apply list_elem_of_In, filter_In in Hin' as [Hin' Hf']. apply list_elem_of_In in Hin'.
      assert (o = o') as -> by (eapply (NoDup_elem_eq ob_client_id); [apply Hc|done|done|done]). congruence.
  - pose proof (ci_observers s Hc) as Hob. rewrite Forall_forall in Hob. destruct (Hob o Hin) as [_ Hsrc].
    apply attached_not_gone; [done|]. intros E. unfold follows in Hf. rewrite E, String.eqb_refl in Hf. done.
Qed.

Lemma elected_ok e : elect_layout_owner s pid = Ok e -> s_layout_owner_client_id s = Some pid ->
  match fst <$> e with
  | Some o => is_attached_primary s o = true /\ o ∉ gone
  | None => List.filter (fun c => negb (bool_decide (c_id c ∈ gone))) (attached_primaries s) = []
  end /\ (forall z, e ≫= snd = Some z -> u16_size z).
Proof using Hs.
  intros He Ho. unfold elect_layout_owner in He. rewrite Ho, bool_decide_eq_true_2 in He by done.
  set (l := List.filter _ (attached_primaries s)) in He.
  destruct (iter_min attached_before l) as [c|] eqn:Hm.
  - apply iter_min_elem in Hm. subst l. apply list_elem_of_In, filter_In in Hm as [Hin Hne].
    apply filter_In in Hin as [Hin Hip]. apply negb_true_iff, String.eqb_neq in Hne.
    apply bind_Ok_inv in He as (size & Hsize & [= <-]). simpl. split.
    + assert (Ha : is_attached_primary s (c_id c) = true).
      { unfold is_attached_primary. apply existsb_exists. exists c. split; [done|].
        unfold has_client_id. by rewrite String.eqb_refl, Hip. }
      split; [done|]. by apply attached_not_gone.
    + intros z. destruct size as [z'|]; simpl; [|done]. destruct (is_ok _); [|done]. intros [= <-].
      eapply terminal_size_u16; [|exact Hsize]. intros d Hd.
      pose proof (ci_terminals s (sb_clients s (so_base s Hs))) as Ht. rewrite Forall_forall in Ht.
      apply (Ht c); [by apply list_elem_of_In|done].
  - injection He as <-. simpl. split; [|done].
    assert (El : l = []) by (by destruct l). subst l. clear Hm. revert El.
    induction (attached_primaries s) as [|c cs IH]; simpl; [done|].
    unfold has_client_id at 1. destruct (String.eqb_spec (c_id c) pid) as [->|]; simpl; [|done].
    rewrite bool_decide_eq_true_2 by (by left). simpl. exact IH.
Qed.
End Leaving.

Lemma client_position_attached s id : is_attached_primary s id = true ->
  exists i, client_position (s_clients s) id = Some i.
Proof.
  intros (c & Hin & <- & _)%attached_primary_client.
  destruct (position_is_Some (fun x => String.eqb (c_id x) (c_id c)) (s_clients s) c) as [i Hi];
    [done|apply String.eqb_refl|by exists i].
Qed.

Lemma ok_landing s l : session_ok s -> landing_view (from_session s) l -> session_ok (set_landing_navigation s l).
Proof. intros Hs Hl. split; [apply base_landing, Hs|apply Hs|done]. Qed.

Lemma no_panic_elect s pid : no_panic (elect_layout_owner s pid).
Proof.
  unfold elect_layout_owner. destruct (bool_decide _); [|done]. destruct (iter_min _ _) as [c|]; [|done].
  pose proof (no_panic_terminal_size (c_terminal c)). by destruct (terminal_size _).
Qed.

(** The end of a departure: the final primary's focus becomes the landing view. *)
Lemma finish_detach_ok s s2 landing (final : bool) (fx : Session -> PrimaryMembershipTransition) :
  session_ok s2 -> grows (from_session s) (from_session s2) ->
  (forall l, landing = Some l -> landing_view (from_session s) l) ->
  wp ((if final then
         op_modify (fun s => set_state s SessionDetached) ≫= fun _ =>
         match landing with
         | Some l => op_modify (fun s => set_landing_navigation s l)
         | None => mret tt
         end
       else mret tt) ≫= fun _ => record_event ≫= fun _ => op_get fx)
    s2 (fun s' _ => session_ok s') session_ok.
Proof.
  intros Hs2 Hg Hln. wps. destruct final; wps.
  - destruct landing as [l|]; wps; (apply wp_record_ok; [|by intros; wps]); [|by apply (ok_frame s2)].
    apply (ok_frame (set_landing_navigation s2 l)); [done|]. apply ok_landing; [done|].
    eapply landing_grow; [exact Hg|]. by apply Hln.
  - apply wp_record_ok; [done|]. by intros; wps.
Qed.

Lemma detach_primary_ok s pid : session_ok s -> maintains (detach_primary_transition pid) s.
Proof.
  intros Hs. pose proof (sb_clients s (so_base s Hs)) as Hci. unfold maintains, detach_primary_transition. wps.
  apply wp_lift; [apply require_primary_no_panic| |done]. intros [] Hp%require_primary_Ok. wps.
  apply wp_lift; [|intros landing Hland|done].
  { destruct (_ =? 1)%nat; [|done]. pose proof (no_panic_snapshot s pid).
    by destruct (snapshot_landing_navigation s (Some pid)). }
  assert (Hln : forall l, landing = Some l -> landing_view (from_session s) l).
  { intros l ->. destruct (_ =? 1)%nat; [|done].
    destruct (snapshot_landing_navigation s (Some pid)) as [l'| |] eqn:E; simpl in Hland; [|done|done].
    injection Hland as ->. by eapply snapshot_landing_ok. }
  clear Hland. wps. apply wp_lift; [apply no_panic_elect| |done]. intros elected Hel. wps.
  destruct (client_position_attached s pid Hp) as [i Hi]. rewrite Hi. wps. apply wp_clock. wps. apply wp_clock. wps.
  set (revoked := ob_client_id <$> List.filter _ (s_observer_attachments s)).
  match goal with |- wp _ ?x _ _ => set (s1 := x) end.
  assert (HF : Forall2 (left_clients (pid :: revoked)) (s_clients s) (s_clients s1)).
  { pose proof (update_moved pid Detached (clock_at (s_clock_reads s)) (s_clients s) (ci_nodup s Hci)) as H1.
    unfold update_first in H1. unfold client_position in Hi. unfold has_client_id in H1. rewrite Hi in H1.
    eapply Forall2_compose; [|exact H1|]. { intros x y z. apply moved_left. }
    subst s1. simpl. apply revoke_moved. rewrite (moved_ids _ _ _ _ H1). apply Hci. }
  assert (Hstep : forall s2, s_clients s2 = s_clients s1 -> s_windows s2 = s_windows s ->
    s_window_groups s2 = s_window_groups s -> s_active_group_index s2 = s_active_group_index s ->
    s_group_focus_history s2 = s_group_focus_history s -> s_active_window_index s2 = s_active_window_index s ->
    s_authoritative_size s2 = s_authoritative_size s -> s_ids s2 = s_ids s ->
    s_landing_navigation s2 = s_landing_navigation s ->
    s_observer_attachments s2 = List.filter (fun o => negb (follows pid o)) (s_observer_attachments s) ->
    match s_layout_owner_client_id s2 with
    | Some o => is_attached_primary s o = true /\ o ∉ pid :: revoked
    | None => List.filter (fun c => negb (bool_decide (c_id c ∈ pid :: revoked))) (attached_primaries s) = []
    end -> session_ok s2).
  { intros s2 Ec Ew Eg Eag Eh Ea Ez Ei Eln Eo Hown.
    apply (departed_ok s s2 (pid :: revoked)); try done.
    - by rewrite Ec.
    - rewrite Eln. apply Hs.
    - rewrite Eo. apply sublist_list_filter.
    - rewrite Eo. intros o Ho. by apply (kept_not_gone s pid Hs Hp). }
  case_bool_decide as Eown.
  - destruct (elected_ok s pid Hs elected Hel Eown) as [Hown Hu].
    unfold take_layout_ownership. wps.
    eapply wp_mono; [apply apply_optional_ok; [|done]| |done].
    + apply Hstep; try done.
    + cbv beta. intros s2 fx [Hs2 Hg]. apply (finish_detach_ok s s2); [done|done|by apply Hln].
  - apply wp_ret. cbv beta. apply (finish_detach_ok s); [|by apply grows_refl|by apply Hln]. apply Hstep; try done.
    change (s_layout_owner_client_id s1) with (s_layout_owner_client_id s).
    pose proof (ci_owner s Hci) as Ho. destruct (s_layout_owner_client_id s) as [o|].
    + split; [done|]. apply attached_not_gone; [done|done|]. by intros ->.
    + by rewrite Ho.
Qed.

Lemma detach_other_ok s id : session_ok s -> is_attached_primary s id = false ->
  maintains (detach_other_client id) s.
Proof.
  intros Hs Hn. pose proof (sb_clients s (so_base s Hs)) as Hci. unfold maintains, detach_other_client. wps.
  destruct (client_position (s_clients s) id) as [i|] eqn:Hi; [|done].
  apply wp_lift; [done| |done]. intros ? [= <-]. wps. apply wp_clock. wps.
  apply wp_record_ok; [|by intros; wps].
  assert (Hne : forall o, is_attached_primary s o = true -> o ∉ [id]).
  { intros o Ho ->%list_elem_of_singleton. congruence. }
  apply (departed_ok s _ [id]); try done; simpl.
  - pose proof (update_moved id Detached (clock_at (s_clock_reads s)) (s_clients s) (ci_nodup s Hci)) as H1.
    unfold update_first in H1. unfold client_position in Hi. unfold has_client_id in H1. rewrite Hi in H1.
    eapply Forall2_impl; [exact H1|]. intros x y (E1 & E2 & E3 & E4 & E5 & Hst). repeat split; try done.
    case_decide; destruct Hst as [[? ->]|[? ->]]; done.
  - apply Hs.
  - pose proof (ci_owner s Hci) as Ho. destruct (s_layout_owner_client_id s) as [o|]; [by auto|by rewrite Ho].
  - apply sublist_list_filter.
  - intros o Ho. apply list_elem_of_In, filter_In in Ho as [Hin Hf]. apply list_elem_of_In in Hin.
    pose proof (ci_observers s Hci) as Hob. rewrite Forall_forall in Hob. destruct (Hob o Hin) as [_ Hsrc].
    split; [|by apply Hne]. intros E%list_elem_of_singleton. rewrite E, String.eqb_refl in Hf. done.
Qed.

Lemma detach_ok s id : session_ok s -> maintains (detach_primary id) s.
Proof. intros Hs. apply maintains_then. by apply detach_primary_ok. Qed.

Lemma detach_self_ok s id : session_ok s -> maintains (detach_client_self id) s.
Proof.
  intros Hs. unfold maintains, detach_client_self. wps. destruct (is_attached_primary s id) eqn:E.
  - by apply detach_ok.
  - by apply detach_other_ok.
Qed.

Lemma detach_target_ok s pid id : session_ok s -> maintains (detach_client_target pid id) s.
Proof.
  intros Hs. unfold maintains, detach_client_target. wps.
  apply wp_lift; [apply require_primary_no_panic| |done]. intros _ _.
  destruct (existsb _ (s_clients s)) eqn:E.
  - wps. apply existsb_exists in E as (c & Hin & [Hid _]%andb_true_iff).
    destruct (List.find (has_client_id id) (s_clients s)) as [c'|] eqn:Hf.
    + apply wp_lift; [done| |done]. intros ? [= <-]. by apply detach_ok.
    + exfalso. eapply find_none in Hf; [|exact Hin]. congruence.
  - apply detach_other_ok; [done|]. apply not_true_iff_false. intros Ha.
    apply attached_primary_client in Ha as (c & Hin & <- & Hp%interactive_is_primary).
    apply not_true_iff_false in E. apply E. apply existsb_exists. exists c. split; [by apply list_elem_of_In|].
    unfold has_client_id, is_primary in *. rewrite String.eqb_refl. by apply andb_true_iff in Hp as [-> _].
Qed.
End Detach.

(** ** Pruning of retained summaries *)

Lemma retain_sublist removed : forall cs k, retain_indices removed k cs `sublist_of` cs.
Proof.
  intros cs. induction cs as [|c cs IH]; intros k; simpl; [done|]. destruct (existsb _ _); by constructor.
Qed.

Lemma retain_filter removed (P : Client -> bool) : forall cs k,
  (forall i c, cs !! i = Some c -> (k + i)%nat ∈ removed -> P c = false) ->
  List.filter P (retain_indices removed k cs) = List.filter P cs.
Proof.
  intros cs. induction cs as [|c cs IH]; intros k Hr; simpl; [done|].
  assert (Hrest : List.filter P (retain_indices removed (S k) cs) = List.filter P cs).
  { apply IH. intros i x Hx Hin. apply (Hr (S i) x); [done|]. by rewrite Nat.add_succ_r. }
  destruct (existsb (Nat.eqb k) removed) eqn:E; simpl; rewrite Hrest; [|done].
  apply existsb_exists in E as (x & Hx & ->%Nat.eqb_eq). rewrite (Hr 0%nat c); [done|done|].
  rewrite Nat.add_0_r. by apply list_elem_of_In.
Qed.

Lemma removable_detached protected cs i e : e ∈ removable_clients protected cs -> e.1.1.1 = i ->
  exists c, cs !! i = Some c /\ c_state c = Detached.
Proof.
  unfold removable_clients. rewrite list_elem_of_omap. intros ([j c] & Hin & Hf) Ei.
  apply list_elem_of_lookup in Hin as [k Hk]. apply lookup_zip_Some in Hk as [Hj Hc].
  apply lookup_seq in Hj as [-> Hlt]. simpl in Hf.
  destruct (bool_decide (c_state c = Detached)) eqn:Hst; simpl in Hf; [|done].
  destruct (negb _); [|done]. injection Hf as <-. simpl in Ei. subst i. exists c. split; [done|].
  by apply bool_decide_eq_true in Hst.
Qed.

Lemma prune_clients_ok s protected : session_ok s -> session_ok (prune_detached_client_summaries protected s).1.
Proof.
  intros Hs. unfold prune_detached_client_summaries.
  set (removable := removable_clients protected (s_clients s)).
  destruct (_ <=? _)%nat; [done|]. simpl. set (removed := _ <$> take _ _).
  set (cs := retain_indices removed 0 (s_clients s)).
  assert (Hdet : forall i c, s_clients s !! i = Some c -> (0 + i)%nat ∈ removed -> c_state c <> Attached).
  { intros i c Hc (e & Ee & He)%list_elem_of_fmap.
    assert (e ∈ removable) as He'.
    { rewrite <- (in_order_perm prune_key_leb removable).
      rewrite <- (take_drop (length removable - MAX_RETAINED_DETACHED_CLIENTS)). apply elem_of_app. by left. }
    destruct (removable_detached _ _ i _ He') as (c' & Hc' & Hst); [by rewrite <- Ee|]. simplify_eq. by rewrite Hst. }
  assert (Hsub : cs `sublist_of` s_clients s) by apply retain_sublist.
  assert (HP : forall P, (forall c, c_state c <> Attached -> P c = false) ->
            List.filter P cs = List.filter P (s_clients s)).
  { intros P HP. apply retain_filter. intros i c Hc Hi. apply HP. by eapply Hdet. }
  assert (Hprim : attached_primaries (set_clients s cs) = attached_primaries s).
  { apply HP. intros c Hc. unfold is_interactive_primary, is_primary.
    by rewrite (bool_decide_eq_false_2 _ Hc), andb_false_r. }
  assert (Hatt : forall id, is_attached_primary (set_clients s cs) id = is_attached_primary s id).
  { intros id. unfold is_attached_primary. simpl. apply eq_iff_eq_true. rewrite !existsb_exists.
    assert (Hf : forall c, In c cs /\ (has_client_id id c && is_interactive_primary c) = true <->
               In c (s_clients s) /\ (has_client_id id c && is_interactive_primary c) = true).
    { intros c. set (P := fun c => has_client_id id c && is_interactive_primary c).
      change (In c cs /\ P c = true <-> In c (s_clients s) /\ P c = true).
      rewrite <- !filter_In, HP; [done|]. intros x Hx. subst P. simpl. unfold is_interactive_primary, is_primary.
      by rewrite (bool_decide_eq_false_2 _ Hx), !andb_false_r. }
    split; intros (c & Hc); exists c; by apply Hf. }
  pose proof (sb_clients s (so_base s Hs)) as [C1 C2 C3 C4 C5 C6 C7].
  assert (Hall : forall P : Client -> Prop, Forall P (s_clients s) -> Forall P cs).
  { intros P H. rewrite Forall_forall in *. intros c Hc. apply H. by eapply elem_of_sublist. }
  apply (ok_members s); try done.
  - apply Hs.
  - pose proof (ii_clients s (sb_ids s (so_base s Hs))) as Hi. simpl. rewrite Forall_forall in *. intros v Hv.
    apply Hi. eapply elem_of_sublist; [exact Hv|]. by apply sublist_fmap_of.
  - split; simpl; try done; [|by apply Hall|by rewrite Hprim| | |by apply Hall].
    + eapply sublist_NoDup; [exact C1|]. by apply sublist_fmap_of.
    + rewrite Hprim. destruct (s_layout_owner_client_id s); [by rewrite Hatt|done].
    + eapply Forall_impl; [exact C5|]. simpl. intros o ((c & Hin & H1 & H2 & H3) & Hsrc). rewrite Hatt.
      split; [|done]. exists c. split; [|done].
      assert (Hc : In c (List.filter (fun x => bool_decide (c_state x = Attached)) (s_clients s))).
      { apply filter_In. split; [by apply list_elem_of_In|]. by rewrite H3. }
      rewrite <- HP in Hc; [by apply filter_In in Hc as [? _]; apply list_elem_of_In|].
      intros x Hx. by apply bool_decide_eq_false_2.
  - apply Hall. apply Hs.
Qed.
