(* ===== verification/SessionSteps.v ===== *)
(** * The session's commands

    Every state-changing operation of a session as a value of one type, its
    run, what its caller owes it, and the proof that each keeps the
    invariant without panicking. *)

From S2P Require Import Prelude RustStr Ids LayoutTypes Sizing LayoutTree WindowOps PolicyLayouts WindowInv WindowSteps WindowMoves WindowNav WindowRestore WindowCommands.
From S2P Require Import SessionTypes Reconcile SessionTargets SessionClients SessionWindows SessionMoves SessionInv SessionOk SessionFocus SessionRemoval SessionGrowth SessionRelocate SessionMembers SessionDepart.
Local Open Scope Z_scope.

(** ** Methods of one window *)

Lemma quiet_effects {A} (m : method A) ids w : quiet m ids w -> quiet (with_effects m) ids w.
Proof.
  unfold quiet, with_effects. op_run. intros (Hn & ?). destruct (m w) as [w' [a|e|]]; simpl in *; done.
Qed.

Lemma quiet_focusing (m : method unit) ids w : quiet m ids w -> quiet (focusing m) ids w.
Proof.
  intros Hq. apply quiet_then; [done|]. intros [] w' E. destruct Hq as (_ & Hst & _). rewrite E in Hst.
  simpl in Hst. destruct Hst as (Hok & _). unfold Win.active_pane.
  destruct (lookup_lt_is_Some_2 _ _ (fo_lt w' (wo_focus w' Hok))) as [p Hp].
  unfold index_or_panic. by rewrite Hp.
Qed.

Section Commands.
Context `{Clock}.

Lemma at_window_ok {A} (m : method A) i s : session_ok s -> (i < length (s_windows s))%nat ->
  (forall w, state_ok (s_ids s, w) -> quiet m (s_ids s) w) -> body_ok (at_window i m) s.
Proof.
  intros Hs [w Hw]%lookup_lt_is_Some_2 Hq. eapply at_window_quiet; [done|exact Hw|]. apply Hq.
  eapply windows_state; [apply Hs|done].
Qed.

Lemma at_active_ok {A} (m : method A) s : session_ok s ->
  (forall w, state_ok (s_ids s, w) -> quiet m (s_ids s) w) -> body_ok (at_active_window m) s.
Proof.
  intros Hs Hq. unfold body_ok, wp, at_active_window, at_window_or.
  destruct (s_windows s !! s_active_window_index s) as [w|] eqn:Hw; [|done].
  apply (at_window_ok m); [done|by eapply lookup_lt_Some|done].
Qed.

Lemma body_maintains {A} (m : smethod A) s : body_ok m s -> maintains m s.
Proof. intros Hb. eapply wp_mono; [exact Hb|by intros ? ? [? _]|done]. Qed.

Lemma then_emit {A B} (m : smethod A) (f : A -> B) s :
  maintains m s -> maintains (m ≫= fun a => emit (f a)) s.
Proof. intros Hm. apply maintains_bind; [done|]. intros. by apply maintains_emit. Qed.

Lemma body_then {A B} (m : smethod A) (f : A -> B) s : body_ok m s -> body_ok (m ≫= fun a => mret (f a)) s.
Proof. intros Hb. apply wp_bind. eapply wp_mono; [exact Hb|by intros; wps|done]. Qed.

(** A body that first computes an index of a window. *)
Lemma indexed_body {A} (choose : Session -> result nat) (m : nat -> smethod A) s :
  session_ok s -> no_panic (choose s) ->
  (forall i, choose s = Ok i -> (i < length (s_windows s))%nat) ->
  (forall i, (i < length (s_windows s))%nat -> body_ok (m i) s) ->
  body_ok (op_get id ≫= fun s => op_lift (choose s) ≫= m) s.
Proof.
  intros Hs Hn Hi Hm. unfold body_ok. wps. apply wp_lift; [done| |done]. intros i E. apply Hm. by apply Hi.
Qed.

Lemma target_body {A} target (m : nat -> smethod A) s : session_ok s ->
  (forall i, (i < length (s_windows s))%nat -> body_ok (m i) s) ->
  body_ok (op_get id ≫= fun s => op_lift (window_index_or_active s target) ≫= m) s.
Proof.
  intros Hs Hm. apply (indexed_body (fun s => window_index_or_active s target)); [done| | |done].
  - apply no_panic_window_index.
  - intros i. apply window_index_or_active_ok, Hs.
Qed.

Lemma target_maintains {A} target (m : nat -> smethod A) s : session_ok s ->
  (forall i, (i < length (s_windows s))%nat -> maintains (m i) s) ->
  maintains (op_get id ≫= fun s => op_lift (window_index_or_active s target) ≫= m) s.
Proof.
  intros Hs Hm. unfold maintains. wps. apply wp_lift; [apply no_panic_window_index| |done]. intros i Hi.
  apply Hm. eapply window_index_or_active_ok; [apply Hs|done].
Qed.

Lemma focus_body s i : session_ok s -> (i < length (s_windows s))%nat -> body_ok (op_modify (focus_window i)) s.
Proof.
  intros Hs Hi. unfold body_ok. wps. pose proof (base_loose s (so_base s Hs)) as Hl.
  destruct (focus_window_ok s i Hl Hi) as [Hr Ha]. split; [by eapply reshape_ok|apply Hr].
Qed.

(** ** Names *)

Lemma name_ok i f s : session_ok s -> (i < length (s_windows s))%nat ->
  (forall w, exists n src, f w = set_name w n src) -> body_ok (at_window i (total f)) s.
Proof.
  intros Hs Hi Hf. apply at_window_ok; [done|done|]. intros w Hw. destruct (Hf w) as (n & src & E).
  pose proof (quiet_name (s_ids s) w Hw n src) as Hq. unfold quiet, total, op_modify in *. simpl in *.
  by rewrite E.
Qed.

Lemma rename_window_ok s c t name : session_ok s -> maintains (rename_window c t name) s.
Proof.
  intros Hs. apply maintains_authorized; [done|]. intros _. apply target_maintains; [done|]. intros i Hi.
  apply (then_emit _ (fun a => a)), body_maintains, name_ok; try done. intros w. by eexists _, _.
Qed.

Lemma rename_generated_owned_ok s t name : session_ok s ->
  maintains (rename_window_generated_session_owned t name) s.
Proof.
  intros Hs. unfold maintains, rename_window_generated_session_owned. wps.
  apply wp_lift; [apply no_panic_window_index| |done]. intros i Hi. wps.
  apply window_index_or_active_ok in Hi; [|apply Hs].
  destruct (lookup_lt_is_Some_2 _ _ Hi) as [w Hw]. rewrite (index_or_panic_lookup _ _ _ Hw).
  apply wp_lift; [done| |done]. intros ? [= <-]. destruct (WindowNameSource_is_explicit _); [done|].
  apply (then_emit _ (fun _ => true)), body_maintains, name_ok; try done. intros x. by eexists _, _.
Qed.

Lemma mark_generated_owned_ok s t : session_ok s ->
  maintains (mark_window_name_generated_session_owned t) s.
Proof.
  intros Hs. apply target_maintains; [done|]. intros i Hi.
  apply (then_emit _ (fun a => a)), body_maintains, name_ok; try done. intros w. by eexists _, _.
Qed.

Lemma rename_group_ok s c t name : session_ok s -> maintains (rename_group c t name) s.
Proof.
  intros Hs. apply maintains_authorized; [done|]. intros _. unfold maintains. wps.
  apply wp_lift; [by destruct (str_is_empty _)| |done]. intros _ _. wps.
  apply wp_lift; [apply no_panic_group_index| |done]. intros i Hi. wps.
  apply group_index_or_active_ok in Hi; [|apply Hs]. destruct (lookup_lt_is_Some_2 _ _ Hi) as [g Hg].
  rewrite (index_or_panic_lookup _ _ _ Hg). apply wp_lift; [done| |done]. intros _ _. wps.
  apply maintains_emit. pose proof (base_loose s (so_base s Hs)) as Hl.
  rewrite (list_alter_insert _ i g) by done.
  assert (HG : Forall2 refocused (s_window_groups s) (<[i := group_set_name name g]> (s_window_groups s))).
  { pose proof (sl_groups s Hl) as Hgs. eapply Forall2_insert_same; [done| |].
    - split; [done|]. split; [done|]. split; [done|]. exact (Forall_lookup_1 _ _ _ _ Hgs Hg).
    - eapply Forall_impl; [exact Hgs|]. by intros. }
  apply (reshape_ok s); [|split|done].
  - apply reshape_of; try done. apply Hl.
  - apply (fi_empty s (sb_focus s (so_base s Hs))).
  - intros Hne. destruct (fi_active s (sb_focus s (so_base s Hs)) Hne) as (h & w & Hh & Hw & Ha).
    destruct (decide (s_active_group_index s = i)) as [E|Hni]; simpl.
    + rewrite E, Hg in Hh. injection Hh as <-. exists (group_set_name name g), w. split; [|done].
      rewrite E. apply list_lookup_insert_eq. by eapply lookup_lt_Some.
    + exists h, w. by rewrite list_lookup_insert_ne.
Qed.

(** ** Selecting *)

Lemma select_window_ok s c t : session_ok s -> maintains (select_window c t) s.
Proof.
  intros Hs. apply maintains_as_client_event; [done|]. intros s' Hs' _. apply target_body; [done|].
  intros i Hi. by apply focus_body.
Qed.

Lemma group_indexes_lt s i : i ∈ active_group_window_indexes s -> (i < length (s_windows s))%nat.
Proof.
  unfold active_group_window_indexes. case_match.
  - intros (v & _ & Hv)%list_elem_of_omap. by eapply position_lt.
  - rewrite list_elem_of_In, in_seq. lia.
Qed.

Lemma adjacent_window_ok s forward : no_panic (adjacent_window forward s)
  /\ forall i, adjacent_window forward s = Ok i -> (i < length (s_windows s))%nat.
Proof.
  unfold adjacent_window. destruct (s_windows s) as [|x0 ws] eqn:Ew; [done|].
  pose proof (group_indexes_lt s) as Hlt. rewrite Ew in Hlt.
  destruct (active_group_window_indexes s) as [|x l] eqn:Ei; [done|]. rewrite <- Ei in *.
  set (pos := default 0%nat _). set (k := if forward then _ else _).
  assert (Hpos : (pos < length (active_group_window_indexes s))%nat).
  { subst pos. destruct (position _ _) as [p|] eqn:Hp; simpl; [by eapply position_lt|]. rewrite Ei. simpl. lia. }
  assert (Hk : (k < length (active_group_window_indexes s))%nat).
  { subst k. destruct forward; [apply Nat.mod_upper_bound; lia|]. destruct (Nat.eqb_spec pos 0); lia. }
  destruct (lookup_lt_is_Some_2 _ _ Hk) as [v Hv]. rewrite (index_or_panic_lookup _ _ _ Hv).
  split; [done|]. intros i [= <-]. apply Hlt. by eapply list_elem_of_lookup_2.
Qed.

Lemma adjacent_ok s c forward : session_ok s ->
  maintains (as_client_event c (op_get id ≫= fun s => op_lift (adjacent_window forward s) ≫= fun index =>
    op_modify (focus_window index))) s.
Proof.
  intros Hs. apply maintains_as_client_event; [done|]. intros s' Hs' _.
  destruct (adjacent_window_ok s' forward) as [Hn Hi].
  apply (indexed_body (adjacent_window forward)); [done|done|done|]. intros i Hi'. by apply focus_body.
Qed.

Lemma last_window_ok s c : session_ok s -> maintains (last_window c) s.
Proof.
  intros Hs. apply maintains_as_client_event; [done|]. intros s' Hs' _.
  apply (indexed_body (fun s => ok_or _ _)); [done|auto with mez| |].
  - intros i Hi%ok_or_Ok_inv. destruct (s_window_groups s' !! _ ≫= _) as [j|] eqn:E; simpl in Hi.
    + injection Hi as <-. destruct (s_window_groups s' !! _) as [g|]; [|done]. simpl in E.
      destruct (wg_last_active_window_id g); [|done]. by eapply position_lt.
    + destruct (s_last_active_window_index s') as [j|]; [|done]. simpl in Hi.
      destruct (Nat.ltb_spec j (length (s_windows s'))); [|done]. by injection Hi as <-.
  - intros i Hi. by apply focus_body.
Qed.

Lemma group_selection_ok s c choose : session_ok s -> (forall s', no_panic (choose s')) ->
  maintains (group_selection c choose) s.
Proof.
  intros Hs Hn. apply maintains_bind.
  - apply maintains_as_client_body; [done|]. intros s' Hs' _. unfold body_ok. wps.
    apply wp_lift; [done| |done]. intros i _. by apply focus_group_ok.
  - intros _ s' Hs'. unfold maintains. wps. by apply maintains_emit.
Qed.

Lemma synchronize_ok s c t enabled : session_ok s -> maintains (set_window_panes_synchronized c t enabled) s.
Proof.
  intros Hs. apply maintains_authorized; [done|]. intros _. unfold maintains. wps.
  apply wp_lift; [apply no_panic_window_index| |done]. intros i Hi. wps.
  apply window_index_or_active_ok in Hi; [|apply Hs].
  destruct (lookup_lt_is_Some_2 _ _ Hi) as [w Hw]. rewrite (index_or_panic_lookup _ _ _ Hw).
  apply wp_lift; [done| |done]. intros ? [= <-]. wps. apply maintains_emit. by apply (ok_frame s).
Qed.

(** ** Panes *)

Lemma split_active_ok s c d req sel : session_ok s -> room (s_ids s) ->
  maintains (as_client_event c (split_active_window (Win.split_active_with_requested_size d req sel))) s.
Proof.
  intros Hs Hr. apply maintains_as_client_event; [done|]. intros s' Hs' Hi. unfold body_ok, split_active_window. wps.
  destruct (s_windows s' !! s_active_window_index s') as [w|] eqn:Hw; [|done].
  apply wp_lift; [done| |done]. intros _ _. unfold split_window_at.
  apply body_then. eapply split_ok; [done|by rewrite Hi|exact Hw].
Qed.

Lemma split_in_window_body s wid d sel : session_ok s -> room (s_ids s) ->
  body_ok (split_pane_in_window_select_session_owned wid d sel) s.
Proof.
  intros Hs Hr. unfold body_ok, split_pane_in_window_select_session_owned. wps.
  destruct (window_position (s_windows s) wid) as [i|] eqn:Hi; [|done].
  apply wp_lift; [done| |done]. intros ? [= <-]. wps. apply position_id_Some in Hi as (w & Hw & _).
  unfold split_window_at. wps. eapply wp_mono; [eapply split_ok; [done|done|exact Hw]| |done].
  cbv beta. intros s1 p [Hs1 Hc1]. wps. by apply body_emit.
Qed.

Lemma active_window_ok {A} s c (m : method A) : session_ok s ->
  (forall ids w, state_ok (ids, w) -> quiet m ids w) -> maintains (as_client_event c (at_active_window m)) s.
Proof.
  intros Hs Hq. apply maintains_as_client_event; [done|]. intros s' Hs' _. apply at_active_ok; auto.
Qed.

Lemma select_global_ok s c t : session_ok s -> maintains (select_pane_global c t) s.
Proof.
  intros Hs. apply maintains_as_client_event; [done|]. intros s' Hs' _. unfold body_ok. wps.
  apply wp_lift; [apply no_panic_pane_location| |done]. intros [i j] Hl. wps.
  apply pane_location_ok in Hl as (w & p & Hw & Hp); [|apply Hs'].
  rewrite (pane_at_ok _ _ _ _ _ Hw Hp). apply wp_lift; [done| |done]. intros ? [= <-]. wps.
  assert (Hi : (i < length (s_windows s'))%nat) by (by eapply lookup_lt_Some).
  destruct (focus_body s' i Hs' Hi) as [Hs1 Hc1]. simpl in Hs1, Hc1.
  eapply wp_mono; [apply at_active_ok; [done|]| |done].
  - intros x Hx. by apply quiet_select.
  - cbv beta. intros s2 _ [? Hc2]. split; [done|]. by rewrite Hc2.
Qed.

Lemma set_zoom_ok s c t z : session_ok s -> maintains (set_pane_zoom_transition c t z) s.
Proof.
  intros Hs. apply maintains_as_client_event; [done|]. intros s' Hs' _. unfold body_ok. wps.
  apply wp_lift; [apply no_panic_pane_location| |done]. intros [i j] Hl. wps.
  apply pane_location_ok in Hl as (w & p & Hw & Hp); [|apply Hs'].
  rewrite (pane_at_ok _ _ _ _ _ Hw Hp). apply wp_lift; [done| |done]. intros ? [= <-].
  apply body_then. apply at_window_ok; [done|by eapply lookup_lt_Some|].
  intros x Hx. apply quiet_effects. by apply quiet_set_zoom.
Qed.

(** Commands on the active window that do not touch any view. *)
Lemma plain_active_ok {A B} s c (m : method A) (f : A -> B) : session_ok s ->
  (forall ids w, state_ok (ids, w) -> quiet m ids w) ->
  maintains (authorized c (at_active_window m ≫= fun a => emit (f a))) s.
Proof.
  intros Hs Hq. apply maintains_authorized; [done|]. intros _. apply then_emit, body_maintains.
  apply at_active_ok; auto.
Qed.

Lemma plain_target_ok {A B} s c t (m : method A) (f : A -> B) : session_ok s ->
  (forall ids w, state_ok (ids, w) -> quiet m ids w) ->
  maintains (authorized c (op_get id ≫= fun s => op_lift (window_index_or_active s t) ≫= fun index =>
    at_window index m ≫= fun a => emit (f a))) s.
Proof.
  intros Hs Hq. apply maintains_authorized; [done|]. intros _. apply target_maintains; [done|]. intros i Hi.
  apply then_emit, body_maintains, at_window_ok; auto.
Qed.

Lemma set_policy_owned_ok s wid p : session_ok s ->
  maintains (set_window_layout_policy_session_owned wid p) s.
Proof.
  intros Hs. unfold maintains, set_window_layout_policy_session_owned. wps.
  destruct (window_position (s_windows s) wid) as [i|] eqn:Hi; [|done].
  apply wp_lift; [done| |done]. intros ? [= <-]. apply (then_emit _ (fun a => a)), body_maintains.
  apply at_window_ok; [done|by eapply position_lt|]. intros w Hw. by apply quiet_set_policy.
Qed.

Lemma select_layout_ok s c t name : session_ok s -> maintains (select_window_layout_transition c t name) s.
Proof.
  intros Hs. apply maintains_authorized; [done|]. intros _. unfold maintains. wps.
  apply wp_lift; [auto with mez| |done]. intros p _. apply target_maintains; [done|]. intros i Hi.
  apply (then_emit _ (fun a => a)), body_maintains, at_window_ok; [done|done|].
  intros w Hw. by apply quiet_effects, quiet_set_policy.
Qed.

Lemma update_pane_ok s i j f : session_ok s -> (i < length (s_windows s))%nat ->
  (forall p, p_id (f p) = p_id p /\ p_index (f p) = p_index p /\ p_size (f p) = p_size p
             /\ p_active (f p) = p_active p) -> maintains (update_pane i j f) s.
Proof.
  intros Hs Hi Hf. apply body_maintains, at_window_ok; [done|done|]. intros w Hw. by apply quiet_pane.
Qed.

Lemma set_live_ok s p live : session_ok s -> maintains (set_pane_live_state p live) s.
Proof.
  intros Hs. unfold maintains, set_pane_live_state. wps.
  apply wp_lift; [apply no_panic_pane_location| |done]. intros [i j] Hl. wps.
  apply pane_location_ok in Hl as (w & q & Hw & Hq); [|apply Hs].
  rewrite (pane_at_ok _ _ _ _ _ Hw Hq). apply wp_lift; [done| |done]. intros ? [= <-].
  apply (then_emit _ (fun a => a)), update_pane_ok; [done|by eapply lookup_lt_Some|done].
Qed.

Lemma update_title_ok s p t skip src : session_ok s -> maintains (update_title p t skip src) s.
Proof.
  intros Hs. unfold maintains, update_title. wps.
  apply wp_lift; [apply no_panic_pane_location| |done]. intros [i j] Hl. wps.
  apply pane_location_ok in Hl as (w & q & Hw & Hq); [|apply Hs].
  rewrite (pane_at_ok _ _ _ _ _ Hw Hq). apply wp_lift; [done| |done]. intros ? [= <-].
  destruct (skip _ q); [done|].
  apply (then_emit _ (fun _ => true)), update_pane_ok; [done|by eapply lookup_lt_Some|done].
Qed.

Lemma rename_pane_ok s c t name : session_ok s -> maintains (rename_pane c t name) s.
Proof.
  intros Hs. apply maintains_authorized; [done|]. intros _. unfold maintains. wps.
  apply wp_lift; [apply no_panic_pane_location| |done]. intros [i j] Hl. wps.
  apply pane_location_ok in Hl as (w & q & Hw & Hq); [|apply Hs].
  rewrite (pane_at_ok _ _ _ _ _ Hw Hq). apply wp_lift; [done| |done]. intros ? [= <-].
  apply maintains_then. by apply update_title_ok.
Qed.
End Commands.
