(* ===== verification/SessionCommands.v ===== *)
(** * Runs of a session

    The commands as data, what a caller owes each of them, and the theorem
    that no command panics and that a session stays well formed, except for a
    swap between two windows and for the clients' views after a join that lost
    its pane. *)

From S2P Require Import Prelude RustStr Ids LayoutTypes Sizing LayoutTree WindowOps PolicyLayouts WindowInv WindowSteps WindowMoves WindowNav WindowRestore WindowCommands.
From S2P Require Import SessionTypes Reconcile SessionTargets SessionClients SessionWindows SessionMoves SessionInv SessionOk SessionFocus SessionRemoval SessionGrowth SessionRelocate SessionMembers SessionDepart SessionSteps.
Local Open Scope Z_scope.

Inductive SCommand :=
| SNewWindow (c : ClientId) (name : string) (sel : bool)
| SNewWindowIn (c : ClientId) (g : WindowGroupId) (name : string) (sel : bool)
| SNewWindowInOwned (g : WindowGroupId) (name : string) (sel : bool)
| SNewGroup (c : ClientId) (name : string) (sel : bool)
| SRenameWindow (c : ClientId) (t : option string) (name : string)
| SRenameGenerated (c : ClientId) (t name : string)
| SRenameGeneratedOwned (t name : string)
| SMarkGenerated (c : ClientId) (t : string)
| SMarkGeneratedOwned (t : string)
| SRenameGroup (c : ClientId) (t : option string) (name : string)
| SSelectWindow (c : ClientId) (t : string)
| SNextWindow (c : ClientId) | SPreviousWindow (c : ClientId) | SLastWindow (c : ClientId)
| SSelectGroup (c : ClientId) (t : string)
| SNextGroup (c : ClientId) | SPreviousGroup (c : ClientId) | SLastGroup (c : ClientId)
| SSynchronize (c : ClientId) (t : option string) (b : bool)
| SToggleSynchronized (c : ClientId)
| SMoveWindow (c : ClientId) (t : option string) (index : nat)
| SSplit (c : ClientId) (d : SplitDirection) (req : option PaneSizeSpec) (sel : bool)
| SSplitIn (c : ClientId) (w : WindowId) (d : SplitDirection) (sel : bool)
| SSplitInOwned (w : WindowId) (d : SplitDirection) (sel : bool)
| SSelectPane (c : ClientId) (t : string)
| SSelectPaneGlobal (c : ClientId) (t : string)
| SSelectAdjacent (c : ClientId) (d : PaneNavigationDirection)
| SSelectLastPane (c : ClientId)
| SToggleZoom (c : ClientId)
| SSetZoom (c : ClientId) (t : option string) (z : bool)
| SRotate (c : ClientId) (reverse : bool)
| SCycleLayout (c : ClientId)
| SSelectLayout (c : ClientId) (t : option string) (name : string)
| SRebalance (c : ClientId) (t : option string)
| SSetPolicy (c : ClientId) (w : WindowId) (p : LayoutPolicy)
| SSetPolicyOwned (w : WindowId) (p : LayoutPolicy)
| SResizePane (c : ClientId) (t : option string) (size : Size)
| SResizePaneSpec (c : ClientId) (t : option string) (spec : PaneSizeSpec)
| SReplaceGeometries (c : ClientId) (gs : list PaneGeometry)
| SResizePaneIn (c : ClientId) (w : WindowId) (p : PaneId) (size : Size)
| SResizeTerminal (c : ClientId) (size : Size)
| SSetLive (p : string) (live : bool)
| STitleTerminal (p t : string) | STitleProgram (p t : string) | STitleExplicit (p t : string)
| STitleRestore (p t : string) (src : PaneTitleSource)
| SRenamePane (c : ClientId) (t : option string) (name : string)
| SSwapPanes (c : ClientId) (source : option string) (target : string)
| SBreakPane (c : ClientId) (t name : option string) (sel : bool)
| SJoinPane (c : ClientId) (source : option string) (target : string) (d : SplitDirection) (sel : bool)
| SKillPane (c : ClientId) (t : option string) (force : bool)
| SCloseExited (p : string)
| SKillWindow (c : ClientId) (t : option string) (force : bool)
| SKillGroup (c : ClientId) (t : option string) (force : bool)
| SKillSession (c : ClientId) (force : bool)
| SAttachPrimary (name : string) (interactive : bool) (t : option ClientTerminalDescriptor)
| SAttachObserver (name : string) (t : option ClientTerminalDescriptor) (from_event : Z)
| SAttachControl (name : string) (role : ClientRole) (interactive : bool)
| SSelectOwner (authority : option ClientId) (target : string)
| SResizeObserver (c : ClientId) (size : Size)
| SDetachPrimary (c : ClientId) | SDetachTarget (c : ClientId) (target : string) | SDetachSelf (c : ClientId)
| SPruneClients (protected : gset ClientId)
| SRenameSession (c : ClientId) (name : string)
| SAdvanceConfig.

Section Runs.
Context `{Clock}.

Definition forget {A} (m : smethod A) : smethod unit := m ≫= fun _ => mret tt.

Definition srun (c : SCommand) : smethod unit :=
  match c with
  | SNewWindow c name sel => forget (new_window c name sel)
  | SNewWindowIn c g name sel => forget (new_window_in_group c g name sel)
  | SNewWindowInOwned g name sel => forget (new_window_in_group_session_owned g name sel)
  | SNewGroup c name sel => forget (new_group c name sel)
  | SRenameWindow c t name => forget (rename_window c t name)
  | SRenameGenerated c t name => forget (rename_window_generated c t name)
  | SRenameGeneratedOwned t name => forget (rename_window_generated_session_owned t name)
  | SMarkGenerated c t => forget (mark_window_name_generated c t)
  | SMarkGeneratedOwned t => forget (mark_window_name_generated_session_owned t)
  | SRenameGroup c t name => forget (rename_group c t name)
  | SSelectWindow c t => forget (select_window c t)
  | SNextWindow c => forget (next_window c)
  | SPreviousWindow c => forget (previous_window c)
  | SLastWindow c => forget (last_window c)
  | SSelectGroup c t => forget (select_group_transition c t)
  | SNextGroup c => forget (next_group_transition c)
  | SPreviousGroup c => forget (previous_group_transition c)
  | SLastGroup c => forget (last_group_transition c)
  | SSynchronize c t b => forget (set_window_panes_synchronized c t b)
  | SToggleSynchronized c => forget (toggle_active_window_panes_synchronized c)
  | SMoveWindow c t i => forget (move_window c t i)
  | SSplit c d None sel => forget (split_active_pane_select c d sel)
  | SSplit c d (Some spec) sel => forget (split_active_pane_with_size_spec_select c d spec sel)
  | SSplitIn c w d sel => forget (split_pane_in_window_select c w d sel)
  | SSplitInOwned w d sel => forget (split_pane_in_window_select_session_owned w d sel)
  | SSelectPane c t => forget (select_pane c t)
  | SSelectPaneGlobal c t => forget (select_pane_global c t)
  | SSelectAdjacent c d => forget (select_adjacent_pane c d)
  | SSelectLastPane c => forget (select_last_pane c)
  | SToggleZoom c => forget (toggle_active_pane_zoom_transition c)
  | SSetZoom c t z => forget (set_pane_zoom_transition c t z)
  | SRotate c b => forget (rotate_panes_transition c b)
  | SCycleLayout c => forget (cycle_layout_transition c)
  | SSelectLayout c t name => forget (select_window_layout_transition c t name)
  | SRebalance c t => forget (rebalance_target_window_transition c t)
  | SSetPolicy c w p => forget (set_window_layout_policy c w p)
  | SSetPolicyOwned w p => forget (set_window_layout_policy_session_owned w p)
  | SResizePane c t size => forget (resize_pane_transition c t size)
  | SResizePaneSpec c t spec => forget (resize_pane_with_spec_transition c t spec)
  | SReplaceGeometries c gs => forget (replace_active_window_pane_geometries_transition c gs)
  | SResizePaneIn c w p size => forget (resize_pane_in_window c w p size)
  | SResizeTerminal c size => forget (resize_authoritative_terminal_transition c size)
  | SSetLive p live => forget (set_pane_live_state p live)
  | STitleTerminal p t => forget (set_pane_title_from_terminal p t)
  | STitleProgram p t => forget (set_pane_title_from_program p t)
  | STitleExplicit p t => forget (set_pane_title_explicit p t)
  | STitleRestore p t src => forget (restore_pane_title_state p t src)
  | SRenamePane c t name => forget (rename_pane c t name)
  | SSwapPanes c source target => forget (swap_panes_transition c source target)
  | SBreakPane c t name sel => forget (break_pane_transition c t name sel)
  | SJoinPane c source target d sel => forget (join_pane_transition c source target d sel)
  | SKillPane c t force => forget (kill_pane_with_effects c t force)
  | SCloseExited p => forget (close_exited_pane_with_effects p)
  | SKillWindow c t force => forget (kill_window_transition c t force)
  | SKillGroup c t force => forget (kill_group_transition c t force)
  | SKillSession c force => forget (kill_session c force)
  | SAttachPrimary name i t => forget (attach_primary_with_terminal name i t)
  | SAttachObserver name t e => forget (attach_observer_with_terminal name t e)
  | SAttachControl name role i => forget (attach_control_client name role i)
  | SSelectOwner a t => forget (select_primary_client a t)
  | SResizeObserver c size => forget (resize_observer_terminal c size)
  | SDetachPrimary c => forget (detach_primary c)
  | SDetachTarget c t => forget (detach_client_target c t)
  | SDetachSelf c => forget (detach_client_self c)
  | SPruneClients protected => fun s => ((prune_detached_client_summaries protected s).1, Ok tt)
  | SRenameSession c name => forget (rename_session c name)
  | SAdvanceConfig => forget advance_config_generation
  end.

(** What the caller owes: sizes are [u16] values, and a command that makes a
    window, a group, a pane or a client finds the counters of the identity
    factory below their maximum. *)
Definition sadmissible (c : SCommand) (s : Session) : Prop :=
  match c with
  | SNewWindow _ _ _ | SNewWindowIn _ _ _ _ | SNewWindowInOwned _ _ _ | SNewGroup _ _ _
  | SSplit _ _ _ _ | SSplitIn _ _ _ _ | SSplitInOwned _ _ _ | SBreakPane _ _ _ _
  | SAttachControl _ _ _ => room (s_ids s)
  | SAttachPrimary _ _ t | SAttachObserver _ t _ => room (s_ids s) /\ terminal_u16 t
  | SResizePane _ _ size | SResizePaneIn _ _ _ size | SResizeTerminal _ size | SResizeObserver _ size =>
      u16_size size
  | SResizePaneSpec _ _ spec => spec_u16 spec
  | SReplaceGeometries _ gs => Forall geometry_u16 gs
  | _ => True
  end.

(** A swap stays inside one window of the client's view: one between two windows
    can leave a window zoomed on a pane it gave away. *)
Definition local_swap (c : SCommand) (s : Session) : Prop :=
  match c with SSwapPanes c source target => swap_local s c source target | _ => True end.

(** A join succeeds, or fails before it has taken the pane out of its window: one
    that the destination refuses afterwards loses the pane. *)
Definition join_keeps_panes (c : SCommand) (s : Session) : Prop :=
  match c with
  | SJoinPane _ _ _ _ _ => is_ok (srun c s).2 = true \/ panes_kept s (srun c s).1
  | _ => True
  end.

Lemma session_forget_ok {A} (m : smethod A) s : maintains m s -> maintains (forget m) s.
Proof. intros Hm. by apply (maintains_then m (fun _ => tt)). Qed.

Lemma srun_ok c s :
  session_ok s -> sadmissible c s -> local_swap c s -> join_keeps_panes c s -> maintains (srun c) s.
Proof.
  intros Hs Ha Hl Hj. destruct c; simpl in Ha, Hl |- *; try (apply session_forget_ok).
  - apply maintains_as_client_event; [done|]. intros s' Hs' Hi. apply new_window_body_ok; [done|by rewrite Hi].
  - apply maintains_as_client_body; [done|]. intros s' Hs' Hi. apply new_window_in_group_ok; [done|by rewrite Hi].
  - apply body_maintains. by apply new_window_in_group_ok.
  - apply maintains_as_client_event; [done|]. intros s' Hs' Hi. apply new_group_body_ok; [done|by rewrite Hi].
  - by apply rename_window_ok.
  - apply maintains_authorized; [done|]. intros _. by apply rename_generated_owned_ok.
  - by apply rename_generated_owned_ok.
  - apply maintains_authorized; [done|]. intros _. by apply mark_generated_owned_ok.
  - by apply mark_generated_owned_ok.
  - by apply rename_group_ok.
  - by apply select_window_ok.
  - by apply adjacent_ok.
  - by apply adjacent_ok.
  - by apply last_window_ok.
  - apply group_selection_ok; [done|]. intros. apply no_panic_group_index.
  - apply group_selection_ok; [done|]. intros s'. by destruct (s_window_groups s').
  - apply group_selection_ok; [done|]. intros s'. by destruct (s_window_groups s').
  - apply group_selection_ok; [done|]. intros s'. auto with mez.
  - by apply synchronize_ok.
  - unfold maintains, toggle_active_window_panes_synchronized. wps. by apply synchronize_ok.
  - by apply move_window_ok.
  - destruct req; apply session_forget_ok; by apply split_active_ok.
  - apply maintains_as_client_body; [done|]. intros s' Hs' Hi. apply split_in_window_body; [done|by rewrite Hi].
  - apply body_maintains. by apply split_in_window_body.
  - apply active_window_ok; [done|]. intros ids w Hw. by apply quiet_select.
  - by apply select_global_ok.
  - apply active_window_ok; [done|]. intros ids w Hw. by apply quiet_focusing, quiet_adjacent.
  - apply active_window_ok; [done|]. intros ids w Hw. by apply quiet_focusing, quiet_select_last.
  - apply active_window_ok; [done|]. intros ids w Hw. by apply quiet_effects, quiet_toggle.
  - by apply set_zoom_ok.
  - apply plain_active_ok; [done|]. intros ids w Hw. by apply quiet_effects, quiet_rotate.
  - apply (plain_active_ok s c _ (fun a => a)); [done|]. intros ids w Hw. by apply quiet_effects, quiet_cycle.
  - by apply select_layout_ok.
  - apply (plain_target_ok s c t _ (fun a => a)); [done|]. intros ids w Hw. by apply quiet_effects, quiet_rebalance.
  - apply maintains_authorized; [done|]. intros _. by apply set_policy_owned_ok.
  - by apply set_policy_owned_ok.
  - apply plain_active_ok; [done|]. intros ids w Hw. by apply quiet_effects, quiet_resize_pane.
  - apply plain_active_ok; [done|]. intros ids w Hw. by apply quiet_effects, quiet_resize_spec.
  - apply plain_active_ok; [done|]. intros ids w Hw. by apply quiet_effects, quiet_replace.
  - apply (plain_target_ok s c (Some w) _ (fun a => a)); [done|]. intros ids x Hx. by apply quiet_resize_pane.
  - by apply resize_authoritative_ok.
  - by apply set_live_ok.
  - by apply update_title_ok.
  - by apply update_title_ok.
  - by apply update_title_ok.
  - by apply update_title_ok.
  - by apply rename_pane_ok.
  - by apply swap_panes_ok.
  - by apply break_pane_ok.
  - pose proof (join_pane_ok s c source target d sel Hs) as Ho. revert Hj Ho.
    unfold maintains, wp, join_keeps_panes. cbn [srun]. unfold forget. op_run.
    destruct (join_pane_transition c source target d sel s) as [s' [a|e|]]; simpl; [done| |done].
    intros [|Hk] [_ Ho]; [done|auto].
  - by apply kill_pane_ok.
  - by apply close_exited_pane_ok.
  - by apply kill_window_ok.
  - by apply kill_group_ok.
  - by apply kill_session_ok.
  - destruct Ha. apply maintains_then. by apply attach_primary_ok.
  - destruct Ha. by apply attach_observer_ok.
  - by apply attach_control_ok.
  - apply maintains_then. by apply select_owner_ok.
  - by apply resize_observer_ok.
  - by apply detach_ok.
  - by apply detach_target_ok.
  - by apply detach_self_ok.
  - unfold maintains, wp. by apply prune_clients_ok.
  - unfold maintains, rename_session. wps. apply wp_lift; [apply require_primary_no_panic| |done]. intros _ _. wps.
    apply wp_lift; [by destruct (str_is_empty _)| |done]. intros _ _. wps.
    apply wp_record_ok; [by apply (ok_frame s)|]. intros. by wps.
  - unfold maintains, advance_config_generation. wps. apply wp_record_ok; [by apply (ok_frame s)|]. intros. by wps.
Qed.

(** What every command keeps: it does not panic; it leaves the windows, groups
    and membership well formed unless it swaps panes of two windows; and it
    leaves the clients' views well formed too unless it is a join that lost its
    pane. *)
Lemma srun_safe c s : session_ok s -> sadmissible c s ->
  no_panic (srun c s).2 /\ (local_swap c s -> session_base (srun c s).1)
  /\ (local_swap c s -> join_keeps_panes c s -> session_ok (srun c s).1).
Proof.
  intros Hs Ha.
  assert (maintains (srun c) s -> no_panic (srun c s).2 /\ session_ok (srun c s).1) as Hm.
  { unfold maintains, wp. by destruct (srun c s) as [s' []]. }
  assert (forall A (m : smethod A) Q R, wp m s Q R -> no_panic (forget m s).2) as Hf.
  { intros A m Q R. unfold wp, forget. op_run. by destruct (m s) as [s' []]. }
  assert (local_swap c s /\ join_keeps_panes c s -> no_panic (srun c s).2 /\ session_ok (srun c s).1) as Hok.
  { intros [H1 H2]. by apply Hm, srun_ok. }
  destruct c; try (destruct Hok as [H1 H2]; [by split|]; split; [done|]; split; [|done]; intros _; apply H2).
  - split; [eapply Hf, wp_swap_panes, Hs|]. split; intros; apply Hok; by split.
  - pose proof (join_pane_ok s c source target d sel Hs) as Ho. split; [eapply Hf, Ho|].
    split; [|intros H1 H2; by apply Hok]. intros _. revert Ho. cbn [srun]. unfold wp, forget. op_run.
    destruct (join_pane_transition c source target d sel s) as [s' [a|e|]]; simpl; [apply so_base|tauto|done].
Qed.
End Runs.

(** ** Views of other clients *)



(** Methods that do not change the list of clients, whatever they return. *)
Definition keeps {A} (m : smethod A) : Prop := forall s, s_clients (m s).1 = s_clients s.

Create HintDb keeps discriminated.

Lemma keeps_bind {A B} (m : smethod A) (f : A -> smethod B) :
  keeps m -> (forall a, keeps (f a)) -> keeps (m ≫= f).
Proof.
  intros Hm Hf s. unfold mbind, op_bind. pose proof (Hm s) as E.
  destruct (m s) as [s' [a|e|]]; simpl in *; [|done|done]. by rewrite Hf.
Qed.
Lemma keeps_get {A} (f : Session -> A) : keeps (op_get f).
Proof. done. Qed.
Lemma keeps_lift {A} (r : result A) : keeps (op_lift r).
Proof. done. Qed.
Lemma keeps_ret {A} (a : A) : keeps (mret a).
Proof. done. Qed.
Lemma keeps_modify f : (forall s, s_clients (f s) = s_clients s) -> keeps (op_modify f).
Proof. done. Qed.
Lemma keeps_if {A} (b : bool) (m n : smethod A) : keeps m -> keeps n -> keeps (if b then m else n).
Proof. by destruct b. Qed.
#[export] Hint Resolve keeps_bind keeps_get keeps_lift keeps_ret keeps_if : keeps.

Lemma keeps_at_window {A} i (m : method A) : keeps (at_window i m).
Proof. intros s. unfold at_window. destruct (s_windows s !! i); [|done]. by destruct (m w). Qed.
Lemma keeps_at_active {A} (m : method A) : keeps (at_active_window m).
Proof.
  intros s. unfold at_active_window, at_window_or. destruct (s_windows s !! _); [|done]. apply keeps_at_window.
Qed.
Lemma keeps_with_ids {A} i (m : op MuxError (IdFactory * Window) A) : keeps (at_window_with_ids i m).
Proof.
  intros s. unfold at_window_with_ids. destruct (s_windows s !! i); [|done]. by destruct (m _) as [[? ?] ?].
Qed.
Lemma keeps_alloc_window i name : keeps (alloc_window i name).
Proof. intros s. unfold alloc_window. by destruct (Win.new _ _ _ _). Qed.
Lemma keeps_alloc_group : keeps alloc_group_id.
Proof. intros s. unfold alloc_group_id, op_zoom, op_step, Win.alloc. by destruct (IdFactoryOps.window_group _). Qed.

Lemma enter_group_clients i s : s_clients (enter_group i s) = s_clients s.
Proof. unfold enter_group. by repeat case_match. Qed.
Lemma sync_clients w prev s : s_clients (sync_active_group_for_window w prev s) = s_clients s.
Proof. unfold sync_active_group_for_window. case_match; [apply enter_group_clients|done]. Qed.
Lemma focus_window_clients i s : s_clients (focus_window i s) = s_clients s.
Proof. unfold focus_window. destruct (w_id <$> s_windows s !! i); [rewrite sync_clients|]; by destruct (_ =? _)%nat. Qed.
Lemma keeps_focus_group i : keeps (focus_group i).
Proof.
  intros s. unfold focus_group. repeat (case_match; simpl; try done). by rewrite focus_window_clients, enter_group_clients.
Qed.
#[export] Hint Resolve keeps_at_window keeps_at_active keeps_with_ids keeps_alloc_window keeps_alloc_group keeps_focus_group : keeps.

(** Decomposes a method into its parts. *)
Ltac keeps_tac :=
  repeat first
    [ apply keeps_bind; [|intros ?]
    | apply keeps_modify; intros ?; repeat case_match; by rewrite ?focus_window_clients
    | progress auto with keeps
    | progress (repeat case_match) ].

Section Views.
Context `{Clock}.

Lemma keeps_clock : keeps current_unix_seconds.
Proof. done. Qed.
Lemma keeps_record : keeps record_event.
Proof. done. Qed.
Lemma keeps_emit {A} (a : A) : keeps (emit a).
Proof. done. Qed.

(** ** Assignment to one client's view *)

Lemma find_update_other (cs : list Client) c d f : d <> c -> (forall x, c_id (f x) = c_id x) ->
  List.find (has_client_id d) (update_first (has_client_id c) f cs) = List.find (has_client_id d) cs.
Proof.
  intros Hne Hf. unfold update_first. destruct (position (has_client_id c) cs) as [i|] eqn:Hp; [|done].
  apply position_Some in Hp as (x & Hx & Hid%String.eqb_eq & _). revert i Hx.
  induction cs as [|y cs IH]; intros [|i] Hx; simpl in *; try done.
  - injection Hx as ->. unfold has_client_id. rewrite Hf.
    destruct (String.eqb_spec (c_id x) d); [congruence|done].
  - destruct (has_client_id d y); [done|]. by apply IH.
Qed.

Lemma assign_other c d n s : d <> c -> navigation (assign_navigation c n s).1 d = navigation s d.
Proof.
  intros Hne. unfold assign_navigation. destruct (navigation s c); try done.
  unfold navigation. simpl. by rewrite find_update_other.
Qed.

Lemma navigation_clients s s' d : s_clients s' = s_clients s -> navigation s' d = navigation s d.
Proof. unfold navigation. by intros ->. Qed.

(** Methods that leave [d]'s view alone. *)
Definition spares (d : ClientId) {A} (m : smethod A) : Prop := forall s, navigation (m s).1 d = navigation s d.

Lemma spares_keeps d {A} (m : smethod A) : keeps m -> spares d m.
Proof. intros Hk s. apply navigation_clients, Hk. Qed.

Lemma spares_bind d {A B} (m : smethod A) (f : A -> smethod B) :
  spares d m -> (forall a, spares d (f a)) -> spares d (m ≫= f).
Proof.
  intros Hm Hf s. unfold mbind, op_bind. pose proof (Hm s) as E.
  destruct (m s) as [s' [a|e|]]; simpl in *; [|done|done]. by rewrite Hf.
Qed.

Lemma spares_as_client c d {A} (m : smethod A) : d <> c -> keeps m -> spares d (as_client c m).
Proof.
  intros Hne Hm. unfold as_client, authorized, activate_client_navigation, capture_client_navigation.
  repeat (apply spares_bind; [|intros ?]); try (apply spares_keeps; done).
  intros s. by apply assign_other.
Qed.

Lemma spares_event c d {A} (m : smethod A) : d <> c -> keeps m -> spares d (as_client_event c m).
Proof.
  intros Hne Hm. apply spares_bind; [by apply spares_as_client|]. intros a. by apply spares_keeps.
Qed.

Lemma spares_forget d {A} (m : smethod A) : spares d m -> spares d (forget m).
Proof. intros Hm. apply spares_bind; [done|]. intros _. by apply spares_keeps. Qed.
End Views.
#[export] Hint Resolve keeps_clock keeps_record keeps_emit : keeps.

(** The commands that act through the view of one client. *)
Definition view_command (c : SCommand) : option ClientId :=
  match c with
  | SNewWindow c _ _ | SNewWindowIn c _ _ _ | SNewGroup c _ _ | SSelectWindow c _ | SNextWindow c
  | SPreviousWindow c | SLastWindow c | SSelectGroup c _ | SNextGroup c | SPreviousGroup c | SLastGroup c
  | SSplit c _ _ _ | SSplitIn c _ _ _ | SSelectPane c _ | SSelectPaneGlobal c _ | SSelectAdjacent c _
  | SSelectLastPane c | SToggleZoom c | SSetZoom c _ _ => Some c
  | _ => None
  end.

Section Isolation.
Context `{Clock}.

Lemma spares_group c d choose : d <> c -> spares d (group_selection c choose).
Proof.
  intros Hne. apply spares_bind; [apply spares_as_client; [done|]; keeps_tac|].
  intros _. apply spares_keeps. keeps_tac.
Qed.

Lemma keeps_split i m : keeps (split_window_at i m).
Proof. unfold split_window_at. keeps_tac. Qed.

Lemma view_command_spares cmd c d : view_command cmd = Some c -> d <> c -> spares d (srun cmd).
Proof.
  intros Hc Hne. destruct cmd; simpl in Hc; try done; injection Hc as ->; simpl;
    try (apply spares_forget; apply spares_event; [done|keeps_tac]);
    try (apply spares_forget; by apply spares_group).
  - apply spares_forget, spares_as_client; [done|]. unfold new_window_in_group_session_owned. keeps_tac.
  - destruct req; apply spares_forget, spares_event; try done; unfold split_active_window;
      (apply keeps_bind; [done|]; intros ?; apply keeps_bind; [done|]; intros ?; apply keeps_split).
  - apply spares_forget, spares_as_client; [done|]. unfold split_pane_in_window_select_session_owned.
    apply keeps_bind; [done|]; intros ?; apply keeps_bind; [done|]; intros ?.
    apply keeps_bind; [apply keeps_split|]. intros ?. apply keeps_emit.
Qed.
End Isolation.
