(* ===== verification/SessionTheorems.v ===== *)
(** * What a session guarantees *)

From S2P Require Import Prelude RustStr Ids LayoutTypes Sizing LayoutTree WindowOps WindowInv WindowSteps WindowMoves WindowCommands.
From S2P Require Import SessionTypes Reconcile SessionTargets SessionClients SessionWindows SessionMoves SessionInv SessionOk SessionFocus SessionRemoval SessionGrowth SessionRelocate SessionMembers SessionDepart SessionSteps SessionCommands.
From Stdlib Require Import Ascii.
Local Open Scope Z_scope.

(** ** A fresh session *)

Lemma empty_session_ok s :
  s_windows s = [] -> s_window_groups s = [] -> s_clients s = [] -> s_observer_attachments s = [] ->
  s_layout_owner_client_id s = None -> s_group_focus_history s = [] -> s_active_window_index s = 0%nat ->
  s_landing_navigation s = mkLanding None None None -> valid_size (s_authoritative_size s) -> session_ok s.
Proof.
  intros Ew Eg Ec Eo El Eh Ea Eln Hz. split; [split|by unfold views_ok; rewrite Ec; constructor|by rewrite Eln].
  - split; rewrite ?Ew, ?Eg; simpl; try done; constructor.
  - rewrite Ew. by intros i w ?.
  - rewrite Eg. by intros i g ?.
  - rewrite Ew. constructor.
  - split; rewrite ?Ew, ?Eg, ?Ec; constructor.
  - done.
  - split; rewrite ?Ew, ?Eg, ?Eh; try done; try apply empty_history.
  - split; unfold attached_primaries; rewrite ?Ec, ?Eo, ?El; simpl; try done; try constructor; lia.
Qed.

Section Fresh.
Context `{Clock}.

Lemma new_default_ok shell size reads s :
  u16_size size -> new_default shell size reads = Ok s -> session_ok s.
Proof.
  intros Hu Hn. unfold new_default in Hn. apply bind_Ok_inv in Hn as ([] & Hv & Hn).
  apply Size_validate_Ok in Hv; [|done]. destruct (IdFactoryOps.session IdFactoryOps.default) as [sid ids0] eqn:E0.
  set (s0 := mkSession ids0 sid "default" Running (clock_at reads) (clock_at reads) None size shell 0 [] [] 0
               None [] 0 None ∅ ∅ [] [] (mkLanding None None None) None 0 1 (S reads)).
  assert (Hs0 : session_ok s0) by (by apply empty_session_ok).
  assert (Hr : room (s_ids s0)) by (simpl; injection E0 as _ <-; by split).
  pose proof (alloc_window_ok s0 0 "0" (so_base s0 Hs0) Hr) as Hw. unfold wp, alloc_window in Hw. simpl in Hw.
  destruct (Win.new 0 "0" size ids0) as [ids1 [w0|e|]]; simpl in Hn; [|done|done].
  destruct Hw as (ids & Eids & Hfw). apply (f_equal s_ids) in Eids. simpl in Eids. subst ids.
  apply (fresh_created _ _ _ _ (clock_at reads)) in Hfw.
  set (w := window_set_created_at (Some (clock_at reads)) w0) in *.
  assert (Ewid : w_id w0 = w_id w) by done. clearbody w.
  pose proof (group_alloc ids1 [] (Forall_nil_2 _)) as Hg. rewrite (fw_group _ _ _ _ Hfw) in Hg.
  specialize (Hg (rm_group _ Hr)). destruct (IdFactoryOps.window_group ids1) as [gid ids2].
  destruct Hg as (Hnew & Hfl & Hgr). apply bind_Ok_inv in Hn as (p & Hp & Hn). simpl in Hn. injection Hn as <-.
  rewrite !Ewid.
  set (g := WindowGroup_new gid 0 "0" (w_id w) (Some (clock_at reads))).
  match goal with |- session_ok (mkSession ?a1 ?a2 ?a3 ?a4 ?a5 ?a6 ?a7 ?a8 ?a9 ?b1 ?b2 ?b3 ?b4 ?b5 ?b6 ?b7 ?b8 ?b9 ?c1 ?c2 ?c3 ?c4 ?c5 ?c6 ?c7 ?c8) =>
    set (s1 := mkSession a1 a2 a3 a4 a5 a6 a7 a8 a9 b1 b2 b3 b4 b5 b6 b7 b8 b9 c1 c2 c3 (mkLanding None None None) c5 c6 c7 c8);
    change (session_ok (set_landing_navigation s1 c4)) end.
  assert (Ha : window_added s0 s1 w).
  { eapply fresh_added; [exact Hfw|exact Hgr|done|done| |done..]. by apply (new_group_added _ _ []). }
  destruct (added_selected s0 s1 w false 0 Hs0 Ha) as [Hs1 _].
  { simpl. lia. }
  { intros _. by apply (active_intro _ g w). }
  apply ok_landing; [exact Hs1|]. unfold landing_view. simpl. split.
  - exists [w_id w]. rewrite lookup_insert_eq. split; [done|by left].
  - exists (pane_ids w). rewrite lookup_insert_eq. split; [done|].
    unfold Win.active_pane, index_or_panic in Hp. destruct (w_panes w !! w_active_pane_index w) as [q|] eqn:Hq; [|done].
    injection Hp as <-. apply list_elem_of_fmap_2. by eapply list_elem_of_lookup_2.
Qed.

(** The sessions a program reaches from a fresh one, with swaps inside windows
    and without a join that lost its pane. *)
Inductive reachable : Session -> Prop :=
| reach_new shell size reads s :
    u16_size size -> new_default shell size reads = Ok s -> reachable s
| reach_step c s : reachable s -> sadmissible c s -> local_swap c s -> join_keeps_panes c s ->
    reachable (srun c s).1.

Lemma session_reachable_ok s : reachable s -> session_ok s.
Proof.
  induction 1 as [shell size reads s Hu Hn|c s _ IH Ha Hl Hj]; [by eapply new_default_ok|].
  by apply srun_safe.
Qed.

(** C3. On a session reached from a fresh one, a command whose sizes are u16
    values and that finds the identity counters below their maximum
    ([sadmissible]) does not panic, whether it succeeds or fails.  Unless it
    swaps panes of two different windows, it leaves the windows, groups and
    membership well formed: the groups partition the windows, every window is
    well formed with distinct panes, the active window is the active one of the
    active group, identities are below the factory's counters.  Unless it is
    moreover a join that fails after the pane was taken out of its window
    (which loses the pane), every attached primary's view names live groups,
    windows and panes.  [reachable] has the same two exceptions for the
    commands before. *)
Theorem session_commands_safe s c : reachable s -> sadmissible c s ->
  no_panic (srun c s).2 /\ (local_swap c s -> session_base (srun c s).1)
  /\ (local_swap c s -> join_keeps_panes c s -> session_ok (srun c s).1).
Proof. intros Hr%session_reachable_ok Ha. by apply srun_safe. Qed.

(** C34. A reachable session has at most sixteen attached primaries; it has a
    layout owner exactly while a primary is attached, and the owner is one of
    them; an observer is attached through an attached primary. *)
Theorem membership_rules s : reachable s ->
  (length (attached_primaries s) <= 16)%nat
  /\ (s_layout_owner_client_id s = None <-> attached_primaries s = [])
  /\ (forall o, s_layout_owner_client_id s = Some o -> is_attached_primary s o = true)
  /\ (forall a, a ∈ s_observer_attachments s -> is_attached_primary s (ob_view_source_client_id a) = true).
Proof.
  intros Hr%session_reachable_ok. pose proof (sb_clients s (so_base s Hr)) as [_ _ Hn Ho Hob _ _].
  split; [exact Hn|]. split; [|split].
  - split; [by intros E; rewrite E in Ho|]. intros E. destruct (s_layout_owner_client_id s) as [o|]; [|done].
    apply attached_primary_client in Ho as (c & Hin & _ & Hp). exfalso.
    assert (Hc : In c (attached_primaries s)) by (apply filter_In; split; [by apply list_elem_of_In|done]).
    by rewrite E in Hc.
  - intros o E. by rewrite E in Ho.
  - intros a Ha. rewrite Forall_forall in Hob. by apply Hob.
Qed.

(** C32. A command through one client's view, successful or not, leaves the view
    of every other client as it is. *)
Theorem views_isolated s cmd c d :
  view_command cmd = Some c -> d <> c -> navigation (srun cmd s).1 d = navigation s d.
Proof. intros Hc Hne. by apply (view_command_spares cmd c d). Qed.
End Fresh.

(** ** Reconciliation *)

(** The clients after a pass: only the views of attached primaries change. *)
Lemma reconciled_clients t l cs : topology_ok t ->
  Forall2 (fun c c' => c' = (if is_primary c
     then client_set_navigation ((fun n => (reconcile_navigation t l n).1) <$> c_navigation c) c else c))
    cs (reconcile_clients t l cs).1.
Proof.
  intros Ht. induction cs as [|c cs IH]; simpl; [constructor|].
  destruct (reconcile_clients t l cs) as [cs' aff]. simpl in *.
  change (bool_decide (c_role c = Primary) && bool_decide (c_state c = Attached)) with (is_primary c).
  destruct (is_primary c) eqn:Hp; [|constructor; [by rewrite Hp|done]].
  destruct (c_navigation c) as [n|] eqn:Hn; simpl.
  - destruct (reconcile_navigation t l n) as [n' ch] eqn:Hr. simpl.
    constructor; [|done]. by rewrite Hp, Hn; simpl; rewrite Hr.
  - constructor; [|done]. rewrite Hp, Hn. destruct c; simpl in *. by subst.
Qed.

(** C33. Whatever the views were, one pass over a session with a well-formed
    topology changes nothing but the views of attached primaries and the landing
    focus: it makes every attached primary's view name live objects only, at
    every level, and the landing focus a live pane in its window and group;
    observers and detached clients keep the view they have. *)
Theorem reconciliation_repairs_views s : session_topology s ->
  let s' := (reconcile_client_navigation s).1 in
  s' = set_clients (set_landing_navigation s (s_landing_navigation s')) (s_clients s')
  /\ landing_ok (from_session s) (s_landing_navigation s')
  /\ Forall2 (fun c c' => if is_primary c
       then c' = client_set_navigation (c_navigation c') c
            /\ (c_navigation c' = None <-> c_navigation c = None)
            /\ (forall n, c_navigation c' = Some n -> navigation_ok (from_session s) n)
       else c' = c) (s_clients s) (s_clients s').
Proof.
  intros Ht. pose proof (from_session_ok s Ht) as Hok. unfold reconcile_client_navigation.
  set (l := reconcile_landing _ _). pose proof (reconciled_clients (from_session s) l (s_clients s) Hok) as HF.
  destruct (reconcile_clients _ l (s_clients s)) as [cs aff]. simpl in *.
  split; [by destruct s|]. split; [by apply reconcile_landing_ok|].
  eapply Forall2_impl; [exact HF|]. simpl. intros c c' ->. destruct (is_primary c); [|done]. simpl.
  split; [done|]. split; [by destruct (c_navigation c)|].
  intros n Hn. destruct (c_navigation c) as [n0|]; simpl in Hn; [|done]. injection Hn as <-.
  by apply reconcile_navigation_ok.
Qed.

(** Focus follows the pane: when the pane an attached primary looks at still
    exists, in whatever window and group it is now, the pass leaves the client
    looking at it there. *)
Theorem reconciliation_follows_pane s i c n p w g :
  session_topology s -> s_clients s !! i = Some c -> is_primary c = true -> c_navigation c = Some n ->
  active_pane_of n = Some p -> w ∈ s_windows s -> p ∈ pane_ids w ->
  g ∈ s_window_groups s -> w_id w ∈ wg_window_ids g ->
  exists c' n', s_clients (reconcile_client_navigation s).1 !! i = Some c' /\ c_navigation c' = Some n'
    /\ fc_active (nav_groups n') = Some (wg_id g) /\ active_window_of n' = Some (w_id w)
    /\ active_pane_of n' = Some p.
Proof.
  intros Ht Hi Hp Hn Hap Hw Hpw Hg Hwg. pose proof (from_session_ok s Ht) as Hok.
  assert (H1 : t_pane_window (from_session s) !! p = Some (w_id w)).
  { apply (lo_owner _ _ _ (to_windows _ Hok)). exists (pane_ids w). split; [|done].
    apply window_panes_lookup; [apply Ht|]. by exists w. }
  assert (H2 : t_window_group (from_session s) !! w_id w = Some (wg_id g)).
  { apply (lo_owner _ _ _ (to_groups _ Hok)). exists (wg_window_ids g). split; [|done].
    apply group_windows_lookup; [apply Ht|]. by exists g. }
  unfold reconcile_client_navigation. set (l := reconcile_landing _ _).
  pose proof (reconciled_clients (from_session s) l (s_clients s) Hok) as HF.
  destruct (reconcile_clients _ l (s_clients s)) as [cs aff]. simpl in *.
  destruct (Forall2_lookup_l _ _ _ _ _ HF Hi) as (c' & Hc' & ->). rewrite Hp, Hn in Hc'. simpl in Hc'.
  eexists _, _. split; [exact Hc'|]. split; [done|]. by apply reconcile_navigation_follows.
Qed.

Lemma reconcile_clients_settled t l cs : topology_ok t ->
  Forall (fun c => is_primary c = true -> forall n, c_navigation c = Some n -> navigation_ok t n) cs ->
  reconcile_clients t l cs = (cs, []).
Proof.
  intros Ht. induction 1 as [|c cs Hc _ IH]; simpl; [done|]. rewrite IH.
  change (bool_decide (c_role c = Primary) && bool_decide (c_state c = Attached)) with (is_primary c).
  destruct (is_primary c) eqn:Hp; [|done]. destruct (c_navigation c) as [n|] eqn:Hn; [|done].
  rewrite reconcile_navigation_id by auto. destruct c. simpl in *. by subst.
Qed.

(** The pass settles: a second pass changes nothing, reports no affected
    client and no landing change, and in particular bumps no revision. *)
Theorem reconciliation_settles s : session_topology s ->
  let s' := (reconcile_client_navigation s).1 in
  reconcile_client_navigation s' = (s', mkReconciliation [] false).
Proof.
  intros Ht. pose proof (from_session_ok s Ht) as Hok. cbv zeta.
  pose proof (reconcile_landing_ok _ Hok (s_landing_navigation s)) as Hl.
  pose proof (reconcile_clients_spec _ Hok (reconcile_landing (from_session s) (s_landing_navigation s))
                (s_clients s)) as [_ Hc].
  unfold reconcile_client_navigation at 2 3. set (l := reconcile_landing _ _) in *.
  destruct (reconcile_clients (from_session s) l (s_clients s)) as [cs aff]. simpl fst in *.
  unfold reconcile_client_navigation.
  change (from_session (set_clients (set_landing_navigation s l) cs)) with (from_session s).
  change (s_landing_navigation (set_clients (set_landing_navigation s l) cs)) with l.
  change (s_clients (set_clients (set_landing_navigation s l) cs)) with cs.
  rewrite (reconcile_landing_id _ Hok l Hl), reconcile_clients_settled by done.
  rewrite bool_decide_eq_true_2 by done. done.
Qed.

(** ** A concrete session *)

#[local] Instance demo_clock : Clock := Z.of_nat.

Definition demo_shell : SessionShell := mkShell "/bin/sh" "test" false "posix" None.

(** The value of a successful result. *)
Definition unwrap {A} (r : result A) : is_ok r = true -> A :=
  match r with Ok a => fun _ => a | _ => fun H => False_rect A (Bool.diff_false_true H) end.

Lemma unwrap_Ok {A} (r : result A) (H : is_ok r = true) : r = Ok (unwrap r H).
Proof. by destruct r. Qed.

Definition start_of (size : Size) (H : is_ok (new_default demo_shell size 0) = true) : Session :=
  unwrap (new_default demo_shell size 0) H.

Lemma start_reachable size H : u16_size size -> reachable (start_of size H).
Proof. intros Hu. eapply reach_new; [exact Hu|]. apply unwrap_Ok. Qed.

Definition runs (cs : list SCommand) (s : Session) : Session := foldl (fun s c => (srun c s).1) s cs.

Definition demo_start : Session := start_of (mkSize 80 24) eq_refl.

(** Two primaries; three panes in two windows. *)
Definition demo_commands : list SCommand :=
  [SAttachPrimary "one" true None; SNewWindow "c1" "work" true; SSplit "c1" Vertical None true;
   SAttachPrimary "two" true (Some (mkTerminal 100 40 "xterm" []))].

Definition demo : Session := runs demo_commands demo_start.

(** Discharges what commands with concrete arguments ask for. *)
Ltac admissible_tac :=
  first [ exact I
        | split; vm_compute; reflexivity
        | split; [split; vm_compute; reflexivity|intros ? [= <-]; vm_compute; split; split; discriminate]
        | split; [split; vm_compute; reflexivity|by intros ?] ].

Ltac reach_tac :=
  lazymatch goal with
  | |- reachable (srun ?c ?s).1 => apply (reach_step c s); [reach_tac|admissible_tac|exact I|exact I]
  | |- reachable _ => apply start_reachable; vm_compute; split; split; discriminate
  end.

Lemma session_demo_reachable : reachable demo.
Proof. unfold demo, runs, demo_commands. cbn [foldl]. reach_tac. Qed.

Lemma session_commands_safe_witness :
  let c := SKillPane "c1" (Some "%2") true in
  let j := SJoinPane "c1" (Some "%2") "%1" Vertical false in
  reachable demo /\ session_ok (srun c demo).1 /\ session_ok (srun j demo).1 /\ no_panic (srun c demo).2
  /\ s_windows (srun c demo).1 ≫= pane_ids = ["%1"; "%3"]
  /\ s_windows (srun j demo).1 ≫= pane_ids = ["%1"; "%2"; "%3"].
Proof.
  intros c j. split; [exact session_demo_reachable|].
  destruct (session_commands_safe demo c session_demo_reachable I) as (H1 & _ & H2).
  destruct (session_commands_safe demo j session_demo_reachable I) as (_ & _ & H3).
  split; [exact (H2 I I)|]. split; [apply (H3 I); left; vm_compute; reflexivity|].
  split; [exact H1|]. vm_compute. split; reflexivity.
Defined.

Lemma membership_rules_witness :
  (length (attached_primaries demo) <= 16)%nat /\ length (attached_primaries demo) = 2%nat
  /\ s_layout_owner_client_id demo = Some "c1".
Proof.
  split; [apply (membership_rules demo session_demo_reachable)|]. vm_compute. split; reflexivity.
Defined.

Lemma views_isolated_witness :
  navigation (srun (SSelectWindow "c1" "@1") demo).1 "c2" = navigation demo "c2"
  /\ navigation (srun (SSelectWindow "c1" "@1") demo).1 "c1" <> navigation demo "c1".
Proof.
  split; [by apply (views_isolated demo (SSelectWindow "c1" "@1") "c1" "c2")|].
  vm_compute. discriminate.
Defined.

(** The demo session after its second window was removed behind the clients'
    backs. *)
Definition stale_demo : Session :=
  after_window_removed 1 (set_windows demo (take 1 (s_windows demo))).

Lemma stale_demo_topology : session_topology stale_demo.
Proof.
  eapply sl_topology, (after_removal_loose demo 1).
  - apply base_loose, so_base, session_reachable_ok, session_demo_reachable.
  - apply sublist_take.
Qed.

Lemma reconciliation_repairs_views_witness :
  landing_ok (from_session stale_demo) (s_landing_navigation (reconcile_client_navigation stale_demo).1)
  /\ is_ok (active_window_for stale_demo "c1") = false
  /\ is_ok (active_window_for (reconcile_client_navigation stale_demo).1 "c1") = true.
Proof.
  split; [apply (reconciliation_repairs_views stale_demo stale_demo_topology)|]. vm_compute. split; reflexivity.
Defined.

Lemma reconciliation_settles_witness :
  let s' := (reconcile_client_navigation stale_demo).1 in
  reconcile_client_navigation s' = (s', mkReconciliation [] false)
  /\ tr_affected_client_ids (reconcile_client_navigation stale_demo).2 = ["c1"; "c2"].
Proof.
  split; [apply (reconciliation_settles stale_demo stale_demo_topology)|]. vm_compute. reflexivity.
Defined.

(** The demo session after pane %3 moved to a window of its own, before the pass. *)
Definition moved_demo : Session := (break_pane_body (Some "%3") None false demo).1.

Lemma break_body_topology s t n sel : session_ok s -> room (s_ids s) ->
  is_ok (break_pane_body t n sel s).2 = true -> session_topology (break_pane_body t n sel s).1.
Proof.
  intros Hs Hr Hok. pose proof (break_body_ok s t n sel Hs Hr) as Hb. unfold stale_ok, wp in Hb.
  destruct (break_pane_body t n sel s) as [s' [a|e|]]; [|done|done]. apply Hb.
Qed.

Lemma moved_demo_topology : session_topology moved_demo.
Proof.
  apply break_body_topology.
  - apply session_reachable_ok, session_demo_reachable.
  - split; vm_compute; reflexivity.
  - vm_compute. reflexivity.
Qed.

Lemma reconciliation_follows_pane_witness :
  (exists c' n', s_clients (reconcile_client_navigation moved_demo).1 !! 0%nat = Some c'
     /\ c_navigation c' = Some n' /\ fc_active (nav_groups n') = Some "g1"
     /\ active_window_of n' = Some "@3" /\ active_pane_of n' = Some "%3")
  /\ (prior_window <$> (s_clients moved_demo !! 0%nat ≫= c_navigation)) = Some (Some "@2").
Proof.
  split; [|vm_compute; reflexivity].
  unshelve epose proof (reconciliation_follows_pane moved_demo 0 ?[c] ?[n] "%3" ?[w] ?[g] moved_demo_topology
    _ _ _ _ _ _ _ _) as (c' & n' & H1 & H2 & H3 & H4 & H5); cycle 4.
  - vm_compute. reflexivity.
  - vm_compute. reflexivity.
  - vm_compute. reflexivity.
  - vm_compute. reflexivity.
  - eapply (list_elem_of_lookup_2 _ 2). vm_compute. reflexivity.
  - vm_compute. left.
  - eapply (list_elem_of_lookup_2 _ 0). vm_compute. reflexivity.
  - vm_compute. right. right. left.
  - exists c', n'. split; [exact H1|]. split; [exact H2|]. split; [exact H3|]. split; [exact H4|exact H5].
Defined.

(** ** A join that loses its pane *)

Definition flat_demo : Session :=
  runs [SAttachPrimary "one" true None; SNewWindow "c1" "work" true] (start_of (mkSize 80 1) eq_refl).

(** A join that fails in the destination window is not undone: in a reachable
    session of one row, joining the pane %2 below %1 returns an error, but the
    pane and its window are gone, and the client's view, which no pass has
    reconciled, names the removed window, so that its active window cannot be
    found any more. *)
Theorem failed_join_loses_pane :
  let s' := (join_pane_transition "c1" (Some "%2") "%1" Horizontal true flat_demo).1 in
  reachable flat_demo
  /\ contains_pane flat_demo "%2" = true /\ is_ok (active_window_for flat_demo "c1") = true
  /\ (join_pane_transition "c1" (Some "%2") "%1" Horizontal true flat_demo).2
     = Err (invalid_state "cannot split horizontally with fewer than 2 rows")
  /\ contains_pane s' "%2" = false /\ w_id <$> s_windows s' = ["@1"]
  /\ active_window_for s' "c1" = Err (invalid_state "client active window is stale").
Proof.
  cbv zeta. split; [unfold flat_demo, runs; cbn [foldl]; reach_tac|]. vm_compute. repeat split; reflexivity.
Qed.
