(* ===== verification/RustText.v ===== *)
(** * More of the Rust text API

    Splitting and joining at a character, replacement, lines, the characters
    of a string, ordered maps with string keys, and the components of a Unix
    path. *)

From S2P Require Import Prelude RustStr RustBytes.
From Stdlib Require Import Ascii.

(** ** Characters and pieces *)

(** [str::contains(char)] for an ASCII character. *)
Fixpoint contains_char (c : ascii) (s : string) : bool :=
  match s with
  | EmptyString => false
  | String a s => (a =? c)%char || contains_char c s
  end.

(** [str::split(char)]: always at least one piece. *)
Fixpoint split_char (c : ascii) (s : string) : list string :=
  match s with
  | EmptyString => [EmptyString]
  | String a s =>
      if (a =? c)%char then EmptyString :: split_char c s
      else match split_char c s with
           | [] => [String a EmptyString]
           | p :: ps => String a p :: ps
           end
  end.

(** [slice::join(&str)]. *)
Fixpoint join (sep : string) (l : list string) : string :=
  match l with
  | [] => EmptyString
  | [s] => s
  | s :: l => s +:+ sep +:+ join sep l
  end.

(** [str::replace(char, &str)]. *)
Fixpoint replace_char (c : ascii) (t s : string) : string :=
  match s with
  | EmptyString => EmptyString
  | String a s => (if (a =? c)%char then t else String a EmptyString) +:+ replace_char c t s
  end.

Definition starts_with_char (c : ascii) (s : string) : bool :=
  match s with String a _ => (a =? c)%char | EmptyString => false end.
(** [str::starts_with(&str)]. *)
Definition starts_with (p s : string) : bool :=
  match strip_prefix p s with Some _ => true | None => false end.
Definition ends_with_char (c : ascii) (s : string) : bool := starts_with_char c (String.rev s).

(** The text before the first [c], the whole text without one. *)
Fixpoint before_char (c : ascii) (s : string) : string :=
  match s with
  | EmptyString => EmptyString
  | String a s => if (a =? c)%char then EmptyString else String a (before_char c s)
  end.

(** The text after the first [c], nothing without one. *)
Fixpoint after_char (c : ascii) (s : string) : string :=
  match s with
  | EmptyString => EmptyString
  | String a s => if (a =? c)%char then s else after_char c s
  end.

(** [str.bytes().all(p)]. *)
Fixpoint all_bytes (p : ascii -> bool) (s : string) : bool :=
  match s with EmptyString => true | String a s => p a && all_bytes p s end.

(** [str::chars], each character as its UTF-8 bytes. *)
Fixpoint chars_fuel (fuel : nat) (s : string) : list string :=
  match fuel with
  | O => []
  | S fuel => match first_char s with
              | None => []
              | Some (c, rest) => c :: chars_fuel fuel rest
              end
  end.
Definition chars (s : string) : list string := chars_fuel (String.length s) s.

Definition is_ascii_alphanumeric (a : ascii) : bool :=
  byte_in 48 57 a || byte_in 65 90 a || byte_in 97 122 a.
Definition is_ascii_alphabetic (a : ascii) : bool := byte_in 65 90 a || byte_in 97 122 a.
Definition is_ascii_hexdigit (a : ascii) : bool :=
  byte_in 48 57 a || byte_in 65 70 a || byte_in 97 102 a.

Definition NL : ascii := "010"%char.
Definition CR : ascii := "013"%char.
Definition TAB : ascii := "009"%char.
Definition NUL : ascii := "000"%char.
Definition BACKSLASH : ascii := "092"%char.
Definition SQUOTE : ascii := "039"%char.
Definition DQUOTE : ascii := "034"%char.

(** Removes one [c] from the end. *)
Fixpoint strip_last_char (c : ascii) (s : string) : string :=
  match s with
  | EmptyString => EmptyString
  | String a EmptyString => if (a =? c)%char then EmptyString else s
  | String a s => String a (strip_last_char c s)
  end.

(** [str::lines]: a line ends at a line feed, a carriage return before it is
    dropped, and an empty last piece is no line. *)
Fixpoint finish_lines (pieces : list string) : list string :=
  match pieces with
  | [] => []
  | [last] => if str_is_empty last then [] else [last]
  | p :: ps => strip_last_char CR p :: finish_lines ps
  end.
Definition lines (s : string) : list string := finish_lines (split_char NL s).

(** [str::trim_end_matches(char)]. *)
Fixpoint drop_char (c : ascii) (s : string) : string :=
  match s with
  | EmptyString => EmptyString
  | String a s' => if (a =? c)%char then drop_char c s' else s
  end.
Definition trim_end_char (c : ascii) (s : string) : string := String.rev (drop_char c (String.rev s)).

(** ** Ordered maps ([BTreeMap<String, V>]): entries in the order of their keys *)

Definition str_ltb (a b : string) : bool :=
  match String.compare a b with Lt => true | _ => false end.
Definition str_leb (a b : string) : bool :=
  match String.compare a b with Gt => false | _ => true end.

Section BTree.
Context {V : Type}.
Definition btree : Type := list (string * V).

Fixpoint bt_get (k : string) (m : btree) : option V :=
  match m with
  | [] => None
  | (k', v) :: m => if String.eqb k k' then Some v else bt_get k m
  end.

Fixpoint bt_insert (k : string) (v : V) (m : btree) : btree :=
  match m with
  | [] => [(k, v)]
  | (k', v') :: m' =>
      match String.compare k k' with
      | Lt => (k, v) :: m
      | Eq => (k, v) :: m'
      | Gt => (k', v') :: bt_insert k v m'
      end
  end.

Definition bt_extend (m n : btree) : btree := foldl (fun m e => bt_insert e.1 e.2 m) m n.
End BTree.
Arguments btree V : clear implicits.

(** [Vec::sort] followed by [Vec::dedup] on strings. *)
Fixpoint dedup (l : list string) : list string :=
  match l with
  | [] => []
  | x :: l => match dedup l with
              | y :: l' => if String.eqb x y then y :: l' else x :: y :: l'
              | [] => [x]
              end
  end.
Definition sort_dedup (l : list string) : list string := dedup (in_order str_leb l).

(** [slice::starts_with]. *)
Fixpoint list_starts_with (p l : list string) : bool :=
  match p, l with
  | [], _ => true
  | x :: p, y :: l => String.eqb x y && list_starts_with p l
  | _, _ => false
  end.

(** ** Unix paths *)

Inductive Component := RootDir | CurDir | ParentDir | Normal (name : string).
#[global] Instance Component_eq_dec : EqDecision Component.
Proof. solve_decision. Defined.

Definition path_is_absolute (p : string) : bool := starts_with_char "/" p.

Definition component_of (piece : string) : option Component :=
  if str_is_empty piece || String.eqb piece "." then None
  else if String.eqb piece ".." then Some ParentDir else Some (Normal piece).

(** [Path::components]: empty pieces and dots vanish, except a dot that leads a
    relative path. *)
Definition components (p : string) : list Component :=
  let pieces := split_char "/" p in
  let body := omap component_of pieces in
  if path_is_absolute p then RootDir :: body
  else match pieces with
       | first :: _ => if String.eqb first "." then CurDir :: body else body
       | [] => body
       end.

Fixpoint components_start_with (base l : list Component) : bool :=
  match base, l with
  | [], _ => true
  | x :: base, y :: l => bool_decide (x = y) && components_start_with base l
  | _, _ => false
  end.
(** [Path::new(p).starts_with(base)]. *)
Definition path_starts_with (p base : string) : bool :=
  components_start_with (components base) (components p).

Example components_example : components "/a//./b/../c/"
  = [RootDir; Normal "a"; Normal "b"; ParentDir; Normal "c"].
Proof. reflexivity. Qed.
Example components_relative : components "./a" = [CurDir; Normal "a"].
Proof. reflexivity. Qed.

(** * Lemmas on the text API

    Containment, splitting after joining, escaping, lines and ordered maps. *)

(** ** Containment *)

Lemma contains_app c s t : contains_char c (s +:+ t) = contains_char c s || contains_char c t.
Proof. induction s as [|a s IH]; simpl; [done|]. by rewrite IH, orb_assoc. Qed.

Lemma contains_cons c a s : contains_char c (String a s) = (a =? c)%char || contains_char c s.
Proof. done. Qed.

Lemma rev_app_contains c s t :
  contains_char c (String.rev_app s t) = contains_char c s || contains_char c t.
Proof.
  revert t. induction s as [|a s IH]; intros t; simpl; [done|]. rewrite IH. simpl.
  destruct (a =? c)%char, (contains_char c s); done.
Qed.

Lemma rev_contains c s : contains_char c (String.rev s) = contains_char c s.
Proof. unfold String.rev. rewrite rev_app_contains. apply orb_false_r. Qed.

Lemma strip_prefix_contains c w s r :
  strip_prefix w s = Some r -> contains_char c w = false -> contains_char c r = contains_char c s.
Proof. intros ->%strip_prefix_Some Hw. by rewrite contains_app, Hw. Qed.

Lemma strip_one_contains c ws s r :
  strip_one ws s = Some r -> forallb (fun w => negb (contains_char c w)) ws = true ->
  contains_char c r = contains_char c s.
Proof.
  induction ws as [|w ws IH]; simpl; [done|]. intros Hs [Hw Hws]%andb_true_iff.
  destruct (strip_prefix w s) as [r'|] eqn:E; [|by apply IH].
  injection Hs as <-. eapply strip_prefix_contains; [done|]. by apply negb_true_iff.
Qed.

Lemma strip_all_contains c n ws s :
  forallb (fun w => negb (contains_char c w)) ws = true ->
  contains_char c (strip_all n ws s) = contains_char c s.
Proof.
  intros Hws. revert s. induction n as [|n IH]; intros s; simpl; [done|].
  destruct (strip_one ws s) as [r|] eqn:E; [|done]. rewrite IH. by eapply strip_one_contains.
Qed.

(** Trimming keeps every character that is not white space. *)
Lemma trim_contains c s :
  forallb (fun w => negb (contains_char c w)) white_space = true ->
  contains_char c (trim s) = contains_char c s.
Proof.
  intros Hws. unfold trim, trim_end, trim_start.
  assert (Hrev : forallb (fun w => negb (contains_char c w)) (String.rev <$> white_space) = true).
  { revert Hws. generalize white_space. intros ws. induction ws as [|w ws IH]; simpl; [done|].
    intros [Hw Hr]%andb_true_iff. rewrite rev_contains, Hw. by apply IH. }
  by rewrite rev_contains, strip_all_contains, rev_contains, strip_all_contains.
Qed.

Lemma contains_not_empty c s : contains_char c s = true -> str_is_empty s = false.
Proof. by destruct s. Qed.

Lemma all_bytes_contains p c s : p c = false -> all_bytes p s = true -> contains_char c s = false.
Proof.
  intros Hc. induction s as [|a s IH]; simpl; [done|]. intros [Ha Hs]%andb_true_iff.
  rewrite IH by done. destruct (Ascii.eqb_spec a c) as [->|]; [congruence|done].
Qed.

(** ** Splitting what was joined *)

Lemma split_char_none c s : contains_char c s = false -> split_char c s = [s].
Proof.
  induction s as [|a s IH]; simpl; [done|]. intros [Ha Hs]%orb_false_iff.
  by rewrite Ha, IH.
Qed.

Lemma split_char_app c s t :
  contains_char c s = false -> split_char c (s +:+ String c t) = s :: split_char c t.
Proof.
  induction s as [|a s IH]; simpl; intros Hs; [by rewrite Ascii.eqb_refl|].
  apply orb_false_iff in Hs as [Ha Hs]. by rewrite Ha, IH.
Qed.

Lemma join_cons sep s l : l <> [] -> join sep (s :: l) = s +:+ sep +:+ join sep l.
Proof. by destruct l. Qed.

Lemma split_join c l : l <> [] -> Forall (fun s => contains_char c s = false) l ->
  split_char c (join (String c EmptyString) l) = l.
Proof.
  intros Hne Hl. induction Hl as [|s l Hs Hl IH]; [done|].
  destruct l as [|s' l]; [by apply split_char_none|].
  rewrite join_cons by done. cbn [String.app]. rewrite split_char_app by done. by rewrite IH.
Qed.

Lemma before_char_app c s t : contains_char c s = false -> before_char c (s +:+ String c t) = s.
Proof.
  induction s as [|a s IH]; simpl; [by rewrite Ascii.eqb_refl|].
  intros [Ha Hs]%orb_false_iff. by rewrite Ha, IH.
Qed.
Lemma after_char_app c s t : contains_char c s = false -> after_char c (s +:+ String c t) = t.
Proof.
  induction s as [|a s IH]; simpl; [by rewrite Ascii.eqb_refl|].
  intros [Ha Hs]%orb_false_iff. by rewrite Ha, IH.
Qed.

(** ** Lines *)

Lemma strip_last_other c a s : a <> c -> strip_last_char c (s +:+ String a EmptyString) = s +:+ String a EmptyString.
Proof.
  intros Hne. induction s as [|b s IH].
  - simpl. destruct (Ascii.eqb_spec a c); [done|done].
  - simpl. rewrite IH. by destruct (s +:+ String a EmptyString) eqn:E; [destruct s|].
Qed.

(** A line as it is written: no line feed in it, and a last character that is
    not a carriage return. *)
Definition plain_line (s : string) : Prop :=
  contains_char NL s = false /\ exists body a, s = body +:+ String a EmptyString /\ a <> CR.

Lemma finish_plain ls : Forall plain_line ls -> finish_lines ls = ls.
Proof.
  induction 1 as [|s ls [_ (body & a & -> & Ha)] Hls IH]; [done|].
  destruct ls as [|s' ls]; simpl.
  - by destruct body.
  - f_equal; [by apply strip_last_other|]. exact IH.
Qed.

Lemma lines_join ls : Forall plain_line ls -> lines (join (String NL EmptyString) ls) = ls.
Proof.
  intros Hls. unfold lines. destruct ls as [|s ls]; [done|].
  rewrite split_join; [by apply finish_plain|done|].
  eapply Forall_impl; [exact Hls|]. by intros x [H _].
Qed.

(** ** Ordered maps *)

Lemma compare_eqb a b : String.compare a b = Eq <-> a = b.
Proof.
  split; [apply String.compare_eq_iff|]. intros ->. induction b as [|c b IH]; simpl; [done|].
  unfold Ascii.compare. by rewrite N.compare_refl.
Qed.

Section BTreeLemmas.
Context {V : Type}.
Implicit Types m : btree V.

Lemma bt_get_insert k v m k' :
  bt_get k' (bt_insert k v m) = if String.eqb k' k then Some v else bt_get k' m.
Proof.
  induction m as [|[k0 v0] m IH]; simpl; [done|].
  destruct (String.compare k k0) eqn:E; simpl; [|done|].
  - apply compare_eqb in E as ->. by destruct (String.eqb k' k0).
  - rewrite IH. destruct (String.eqb_spec k' k0) as [->|]; [|done].
    destruct (String.eqb_spec k0 k) as [->|]; [|done].
    assert (String.compare k k = Eq) by (by apply compare_eqb). congruence.
Qed.

Lemma bt_insert_elem k v m e : e ∈ bt_insert k v m -> e = (k, v) \/ e ∈ m.
Proof.
  induction m as [|[k0 v0] m IH]; simpl; [rewrite list_elem_of_singleton; by left|].
  destruct (String.compare k k0); rewrite !elem_of_cons; intuition.
Qed.

Lemma bt_extend_elem m n e : e ∈ bt_extend m n -> e ∈ m \/ e ∈ n.
Proof.
  unfold bt_extend. revert m. induction n as [|[k v] n IH]; intros m; simpl; [by left|].
  intros [[->|H]%bt_insert_elem|H]%IH; [right; by left|by left|right; by right].
Qed.
End BTreeLemmas.
