(* ===== verification/PermTypes.v ===== *)
(** * Permission data and path authority ([mez-agent/src/permissions/types.rs],
    [identity.rs], [error.rs])

    Decisions, rules, effects, approval records and the path scopes an agent
    works under, with the intersection of two authorities. *)

From S2P Require Import Prelude RustStr RustBytes RustText.
From Stdlib Require Import Ascii.

(** ** Errors *)

Inductive PermissionErrorKind := PInvalidArgs | PConflict | PNotFound.
Record PermissionError := mkPermissionError {
  pe_kind : PermissionErrorKind;
  pe_message : string }.
Definition perm_invalid_args (m : string) : PermissionError := mkPermissionError PInvalidArgs m.
Definition perm_conflict (m : string) : PermissionError := mkPermissionError PConflict m.
Definition perm_not_found (m : string) : PermissionError := mkPermissionError PNotFound m.

Abbreviation presult := (outcome PermissionError).
Abbreviation pmethod S A := (op PermissionError S A).

(** ** Identities *)

Inductive PermissionPreset := ReadOnly | Auto.
Inductive ApprovalPolicy := Ask | AutoAllow | FullAccess | HostAccess.
Inductive RuleDecision := Forbid | Prompt | Allow.
#[global] Instance RuleDecision_eq_dec : EqDecision RuleDecision.
Proof. solve_decision. Defined.

Definition bypasses_prompts (p : ApprovalPolicy) : bool :=
  match p with FullAccess | HostAccess => true | _ => false end.
Definition bypasses_sandbox (p : ApprovalPolicy) : bool :=
  match p with HostAccess => true | _ => false end.

(** The derived order: the most restrictive decision first. *)
Definition rank (d : RuleDecision) : nat :=
  match d with Forbid => 0 | Prompt => 1 | Allow => 2 end.
Definition decision_min (a b : RuleDecision) : RuleDecision :=
  if rank b <? rank a then b else a.
(** [iter().min()]. *)
Definition min_decision (l : list RuleDecision) : option RuleDecision :=
  match l with [] => None | d :: l => Some (foldl decision_min d l) end.

Inductive PermissionAuthorityChange := Narrowing | NoChange | Broadening.

Definition compare_authority_rank (current requested : nat) : PermissionAuthorityChange :=
  match Nat.compare requested current with Lt => Narrowing | Eq => NoChange | Gt => Broadening end.
Definition permission_preset_authority_rank (p : PermissionPreset) : nat :=
  match p with ReadOnly => 0 | Auto => 1 end.
Definition approval_policy_authority_rank (p : ApprovalPolicy) : nat :=
  match p with Ask => 0 | AutoAllow => 1 | FullAccess => 2 | HostAccess => 3 end.
Definition compare_permission_preset_authority (current requested : PermissionPreset) :=
  compare_authority_rank (permission_preset_authority_rank current)
    (permission_preset_authority_rank requested).
Definition compare_approval_policy_authority (current requested : ApprovalPolicy) :=
  compare_authority_rank (approval_policy_authority_rank current)
    (approval_policy_authority_rank requested).

(** ** Rules *)

Definition DEFAULT_COMMAND_SHELL_CLASSIFICATION : string := "unix-like".

Inductive CommandShellDialect := Posix | Fish.
#[global] Instance CommandShellDialect_eq_dec : EqDecision CommandShellDialect.
Proof. solve_decision. Defined.

Definition from_shell_classification (c : string) : CommandShellDialect :=
  if eq_ignore_ascii_case c "fish"
     || ((5 <=? String.length c) && eq_ignore_ascii_case (str_take 5 c) "fish-")
  then Fish else Posix.

Inductive RuleMatch :=
| Prefix
| Exact
| ExactSha256 (digest_hex shell_classification : string).

Inductive CommandRuleScope := BuiltIn | ScopeSession | Project | User | Managed.
#[global] Instance CommandRuleScope_eq_dec : EqDecision CommandRuleScope.
Proof. solve_decision. Defined.

Inductive ArgumentPolicy :=
| NoArguments
| ExecutableProbe (allowed_options : list string)
| UnameProbe
| LiteralOutput
| ReadPaths (allowed_options : list string)
| ScriptThenReadPaths (allowed_options : list string)
| FindReadOnly
| GitReadOnly (subcommand : string).

Inductive EffectCompleteness := EffectsUnknown | Complete.
#[global] Instance EffectCompleteness_eq_dec : EqDecision EffectCompleteness.
Proof. solve_decision. Defined.

Record DeclaredCommandEffects := mkDeclared {
  de_completeness : EffectCompleteness;
  de_read_scopes : list string;
  de_write_scopes : list string;
  de_network : option bool;
  de_credentials : option bool;
  de_process_control : option bool }.

Record EffectiveCommandEffects := mkEffects {
  reads : list string;
  writes : list string;
  creates : list string;
  deletes : list string;
  touches : list string;
  network : bool;
  credentials : bool;
  process_control : bool;
  destructive : bool;
  privilege_change : bool;
  unknown : bool }.

Definition no_effects : EffectiveCommandEffects :=
  mkEffects [] [] [] [] [] false false false false false false.
Definition unknown_effects : EffectiveCommandEffects :=
  mkEffects [] [] [] [] [] false false false false false true.

Record CommandRule := mkRule {
  r_id : option string;
  r_pattern : list string;
  r_decision : RuleDecision;
  r_match : RuleMatch;
  r_argument_policy : ArgumentPolicy;
  r_scope : CommandRuleScope;
  r_justification : option string;
  r_declared_effects : option DeclaredCommandEffects }.

Definition rule_new (pattern : list string) (decision : RuleDecision) (m : RuleMatch)
    : presult CommandRule :=
  match pattern with
  | [] => Err (perm_invalid_args "command prefix rule pattern must not be empty")
  | _ => Ok (mkRule None pattern decision m NoArguments Managed None None)
  end.

Definition with_argument_policy (p : ArgumentPolicy) (r : CommandRule) : CommandRule :=
  mkRule (r_id r) (r_pattern r) (r_decision r) (r_match r) p (r_scope r) (r_justification r)
    (r_declared_effects r).
Definition with_scope (sc : CommandRuleScope) (r : CommandRule) : CommandRule :=
  mkRule (r_id r) (r_pattern r) (r_decision r) (r_match r) (r_argument_policy r) sc
    (r_justification r) (r_declared_effects r).
Definition with_justification (j : string) (r : CommandRule) : CommandRule :=
  mkRule (r_id r) (r_pattern r) (r_decision r) (r_match r) (r_argument_policy r) (r_scope r)
    (Some j) (r_declared_effects r).

Definition rule_id_byte (a : ascii) : bool :=
  is_ascii_alphanumeric a || (a =? "_")%char || (a =? "-")%char || (a =? ".")%char.

Definition with_id (id : string) (r : CommandRule) : presult CommandRule :=
  if str_is_empty id || (128 <? String.length id) || negb (all_bytes rule_id_byte id)
  then Err (perm_invalid_args "command rule id must be 1-128 ASCII characters [A-Za-z0-9_.-]")
  else Ok (mkRule (Some id) (r_pattern r) (r_decision r) (r_match r) (r_argument_policy r)
             (r_scope r) (r_justification r) (r_declared_effects r)).

Definition is_none {A} (o : option A) : bool := match o with None => true | Some _ => false end.

Definition with_declared_effects (e : DeclaredCommandEffects) (r : CommandRule)
    : presult CommandRule :=
  if negb (bool_decide (r_decision r = Allow))
  then Err (perm_invalid_args "declared command effects are accepted only on allow rules")
  else if existsb (fun p => str_is_empty p || contains_char NUL p)
            (de_read_scopes e ++ de_write_scopes e)
  then Err (perm_invalid_args
    "declared command effect scopes must be non-empty and contain no NUL bytes")
  else if bool_decide (de_completeness e = Complete)
          && (is_none (de_network e) || is_none (de_credentials e) || is_none (de_process_control e))
  then Err (perm_invalid_args
    "complete declared command effects require network, credentials, and process_control")
  else Ok (mkRule (r_id r) (r_pattern r) (r_decision r) (r_match r) (r_argument_policy r)
             (r_scope r) (r_justification r) (Some e)).

Record CandidateEvaluation := mkCandidate {
  ce_command : string;
  ce_decision : RuleDecision;
  ce_matched_rule_ids : list string;
  ce_effects : EffectiveCommandEffects;
  ce_confinement_effects : option EffectiveCommandEffects;
  ce_completeness : EffectCompleteness }.

Record PermissionEvaluation := mkEvaluation {
  ev_decision : RuleDecision;
  ev_candidates : list CandidateEvaluation;
  ev_matched_rule_ids : list string;
  ev_effects : EffectiveCommandEffects;
  ev_confinement_effects : option EffectiveCommandEffects;
  ev_completeness : EffectCompleteness }.

Definition set_decision (d : RuleDecision) (e : PermissionEvaluation) : PermissionEvaluation :=
  mkEvaluation d (ev_candidates e) (ev_matched_rule_ids e) (ev_effects e)
    (ev_confinement_effects e) (ev_completeness e).

Record PermissionPolicy := mkPolicy {
  pp_preset : PermissionPreset;
  pp_approval_policy : ApprovalPolicy;
  pp_rules : list CommandRule;
  pp_approval_bypass : bool;
  pp_trusted_directories : list string }.

Record AgentShellPermissionSummary := mkSummary {
  sum_preset : PermissionPreset;
  sum_approval_policy : ApprovalPolicy;
  sum_approval_bypass : bool;
  sum_command_rule_count : nat }.

(** ** Approvals *)

Inductive ApprovalScope := GrantSession | GrantGlobal.
Inductive ApprovalDecision := Approve | Disapprove | Redirect.
#[global] Instance ApprovalDecision_eq_dec : EqDecision ApprovalDecision.
Proof. solve_decision. Defined.

Record ApprovalGrant := mkGrant {
  ag_id : string;
  ag_command_prefix : list string;
  ag_scope : ApprovalScope;
  ag_decision : ApprovalDecision }.

Record SessionApprovalStore := mkApprovals {
  sa_next_id : N;
  sa_grants : btree ApprovalGrant }.

Inductive BlockedApprovalState := Pending | Approved | Disapproved | Redirected.
#[global] Instance BlockedApprovalState_eq_dec : EqDecision BlockedApprovalState.
Proof. solve_decision. Defined.

Record BlockedApprovalRequest := mkBlocked {
  ba_id : string;
  ba_requesting_agent_id : string;
  ba_pane_id : string;
  ba_parent_agent_chain : list string;
  ba_action_kind : string;
  ba_action_summary : string;
  ba_declared_effects : list string;
  ba_matched_rules : list string;
  ba_read_scopes : list string;
  ba_write_scopes : list string;
  ba_cooperation_mode : option string;
  ba_created_at : option Z;
  ba_decided_at : option Z;
  ba_decided_by : option string;
  ba_state : BlockedApprovalState;
  ba_decision : option ApprovalDecision;
  ba_redirect_instruction : option string }.

Record BlockedApprovalQueue := mkQueue {
  bq_next_id : N;
  bq_requests : btree BlockedApprovalRequest }.

Record CommandRuleStore := mkRuleStore { rs_rules : list CommandRule }.

(** ** Path authority *)



Inductive PathResolutionStatus := ShellResolved | HostResolved | Unresolved.
#[global] Instance PathResolutionStatus_eq_dec : EqDecision PathResolutionStatus.
Proof. solve_decision. Defined.
Inductive ResolvedPathKind := Existing | CreateTarget.
#[global] Instance ResolvedPathKind_eq_dec : EqDecision ResolvedPathKind.
Proof. solve_decision. Defined.
Inductive ResolvedPathObjectKind := ObjUnknown | ObjFile | ObjDirectory | ObjUnixSocket | ObjOther.

Record ResolvedPathEvidence := mkEvidence {
  pv_canonical_path : string;
  pv_kind : ResolvedPathKind;
  pv_nearest_existing_parent : string;
  pv_object_kind : ResolvedPathObjectKind }.

Record PathScopes := mkScopes {
  ps_current_directory : string;
  ps_read_scopes : list string;
  ps_write_scopes : list string;
  ps_path_evidence : btree ResolvedPathEvidence;
  ps_resolution_status : PathResolutionStatus }.

Definition is_traversal (c : Component) : bool :=
  match c with CurDir | ParentDir => true | _ => false end.

Definition validate_canonical_authority_path (path label : string) : presult unit :=
  if str_is_empty path || contains_char NUL path || negb (path_is_absolute path)
  then Err (perm_invalid_args (label +:+ " must be a non-empty absolute canonical path"))
  else if existsb is_traversal (components path)
  then Err (perm_invalid_args (label +:+ " must not contain lexical traversal components"))
  else Ok tt.

(** The paths kept so far in order; a path below a kept one is skipped. *)
Definition keep_uncovered (normalized : list string) (path : string) : list string :=
  if existsb (path_starts_with path) normalized then normalized else normalized ++ [path].
Definition normalize_authority_paths (paths : list string) : list string :=
  foldl keep_uncovered [] (sort_dedup paths).

Definition overlap (requested maximum : string) : list string :=
  if path_starts_with requested maximum then [requested]
  else if path_starts_with maximum requested then [maximum] else [].
Definition intersect_authority_paths (maximum requested : list string) : list string :=
  normalize_authority_paths (requested ≫= fun r => maximum ≫= overlap r).

Definition check_evidence (e : string * ResolvedPathEvidence) : presult unit :=
  let '(requested, ev) := e in
  if str_is_empty requested || contains_char NUL requested
  then Err (perm_invalid_args "requested path mappings must be non-empty and contain no NUL bytes")
  else
    validate_canonical_authority_path (pv_canonical_path ev) "canonical path mapping" ≫= fun _ =>
    validate_canonical_authority_path (pv_nearest_existing_parent ev) "nearest existing parent"
      ≫= fun _ =>
    if negb (path_starts_with (pv_canonical_path ev) (pv_nearest_existing_parent ev))
    then Err (perm_invalid_args "canonical path mapping must stay below its nearest existing parent")
    else if bool_decide (pv_kind ev = Existing)
            && negb (String.eqb (pv_canonical_path ev) (pv_nearest_existing_parent ev))
    then Err (perm_invalid_args
      "existing path evidence must identify the target as its existing parent")
    else Ok tt.

Definition try_resolved_with_evidence (current_directory : string) (read_scopes write_scopes : list string)
    (path_evidence : btree ResolvedPathEvidence) (status : PathResolutionStatus)
    : presult PathScopes :=
  validate_canonical_authority_path current_directory "current directory" ≫= fun _ =>
  for_each (fun sc => validate_canonical_authority_path sc "path scope") (read_scopes ++ write_scopes)
    ≫= fun _ =>
  for_each check_evidence path_evidence ≫= fun _ =>
  let writes := normalize_authority_paths write_scopes in
  let reads := normalize_authority_paths (read_scopes ++ writes) in
  Ok (mkScopes current_directory reads writes path_evidence status).

Definition try_shell_resolved_with_evidence (cwd : string) (reads writes : list string)
    (evidence : btree ResolvedPathEvidence) : presult PathScopes :=
  try_resolved_with_evidence cwd reads writes evidence ShellResolved.
Definition try_host_resolved_with_evidence (cwd : string) (reads writes : list string)
    (evidence : btree ResolvedPathEvidence) : presult PathScopes :=
  try_resolved_with_evidence cwd reads writes evidence HostResolved.

Definition existing_evidence (canonical : string) : ResolvedPathEvidence :=
  mkEvidence canonical Existing canonical ObjUnknown.
Definition try_shell_resolved (cwd : string) (reads writes : list string)
    (canonical_paths : btree string) : presult PathScopes :=
  try_shell_resolved_with_evidence cwd reads writes
    ((fun e => (e.1, existing_evidence e.2)) <$> canonical_paths).

Definition unresolved (cwd : string) (reads writes : list string) : PathScopes :=
  mkScopes cwd reads writes [] Unresolved.

Definition intersection (self requested : PathScopes) : presult PathScopes :=
  if bool_decide (ps_resolution_status self = Unresolved)
     || bool_decide (ps_resolution_status requested = Unresolved)
  then Err (perm_conflict "path authority intersection requires trusted resolved operands")
  else
    let read_scopes := intersect_authority_paths (ps_read_scopes self) (ps_read_scopes requested) in
    let write_scopes := intersect_authority_paths (ps_write_scopes self) (ps_write_scopes requested) in
    let path_evidence := bt_extend (ps_path_evidence self) (ps_path_evidence requested) in
    let status :=
      if bool_decide (ps_resolution_status self = HostResolved)
         || bool_decide (ps_resolution_status requested = HostResolved)
      then HostResolved else ShellResolved in
    try_resolved_with_evidence (ps_current_directory requested) read_scopes write_scopes
      path_evidence status.

(** ** Coverage

    A list of scopes authorises the paths at or below one of its entries. *)

Definition covers (scopes : list string) (path : string) : bool :=
  existsb (path_starts_with path) scopes.

Lemma components_start_with_prefix b l : components_start_with b l = true <-> b `prefix_of` l.
Proof.
  revert l. induction b as [|x b IH]; intros [|y l]; simpl.
  - split; [by exists []|done].
  - split; [by eexists|done].
  - split; [done|intros [k Hk]; done].
  - rewrite andb_true_iff, IH. split.
    + intros [->%bool_decide_eq_true [k ->]]. by exists k.
    + intros [k [= -> ->]]. split; [by apply bool_decide_eq_true|by exists k].
Qed.

Lemma path_starts_with_prefix p b :
  path_starts_with p b = true <-> components b `prefix_of` components p.
Proof. apply components_start_with_prefix. Qed.

Lemma path_starts_with_refl p : path_starts_with p p = true.
Proof. by apply path_starts_with_prefix. Qed.

Lemma path_starts_with_trans p q r :
  path_starts_with p q = true -> path_starts_with q r = true -> path_starts_with p r = true.
Proof. rewrite !path_starts_with_prefix. intros. by etrans. Qed.

Lemma covers_true l p : covers l p = true <-> exists s, s ∈ l /\ path_starts_with p s = true.
Proof. unfold covers. rewrite existsb_exists. setoid_rewrite list_elem_of_In. done. Qed.

Lemma covers_app l k p : covers (l ++ k) p = covers l p || covers k p.
Proof. apply existsb_app. Qed.

Lemma covers_below l p q : covers l p = true -> path_starts_with q p = true -> covers l q = true.
Proof.
  rewrite !covers_true. intros (s & Hs & Hp) Hq. exists s. split; [done|].
  by eapply path_starts_with_trans.
Qed.

Lemma dedup_elem x l : x ∈ dedup l <-> x ∈ l.
Proof.
  induction l as [|y l IH]; simpl; [done|].
  destruct (dedup l) as [|z l'] eqn:E.
  - rewrite !elem_of_cons, <- IH. set_solver.
  - destruct (String.eqb_spec y z) as [->|]; rewrite ?elem_of_cons, <- IH, ?elem_of_cons; set_solver.
Qed.

Lemma sort_dedup_elem x l : x ∈ sort_dedup l <-> x ∈ l.
Proof. unfold sort_dedup. by rewrite dedup_elem, in_order_perm. Qed.

Lemma keep_uncovered_covers l acc p :
  covers (foldl keep_uncovered acc l) p = covers acc p || covers l p.
Proof.
  revert acc. induction l as [|x l IH]; intros acc; simpl; [by rewrite orb_false_r|].
  rewrite IH. unfold keep_uncovered. fold (covers acc x).
  destruct (covers acc x) eqn:E; rewrite ?covers_app; simpl.
  - destruct (path_starts_with p x) eqn:Ep; simpl; [|done].
    by rewrite (covers_below _ _ _ E Ep).
  - rewrite orb_false_r. by rewrite orb_assoc.
Qed.

Lemma covers_elem_eq l k p : (forall x, x ∈ l <-> x ∈ k) -> covers l p = covers k p.
Proof. intros H. apply eq_true_iff_eq. rewrite !covers_true. by setoid_rewrite H. Qed.

Lemma normalize_covers l p : covers (normalize_authority_paths l) p = covers l p.
Proof.
  unfold normalize_authority_paths. rewrite keep_uncovered_covers. simpl.
  apply covers_elem_eq. intros x. apply sort_dedup_elem.
Qed.

Lemma keep_uncovered_elem l acc x : x ∈ foldl keep_uncovered acc l -> x ∈ acc \/ x ∈ l.
Proof.
  revert acc. induction l as [|y l IH]; intros acc; simpl; [by left|].
  intros [H|H]%IH; [|right; by right]. unfold keep_uncovered in H.
  destruct (existsb _ acc); [by left|]. set_solver.
Qed.

Lemma normalize_elem x l : x ∈ normalize_authority_paths l -> x ∈ l.
Proof. intros [H|H]%keep_uncovered_elem; [by apply not_elem_of_nil in H|by apply sort_dedup_elem]. Qed.

(** Two paths above a common one are comparable. *)
Lemma path_starts_with_comparable p a b :
  path_starts_with p a = true -> path_starts_with p b = true ->
  path_starts_with a b = true \/ path_starts_with b a = true.
Proof. rewrite !path_starts_with_prefix. intros Ha Hb. destruct (prefix_weak_total _ _ _ Ha Hb); auto. Qed.

Lemma overlap_covers r m p :
  covers (overlap r m) p = path_starts_with p r && path_starts_with p m.
Proof.
  apply eq_true_iff_eq. rewrite andb_true_iff, covers_true. unfold overlap. split.
  - intros (s & Hs & Hp).
    destruct (path_starts_with r m) eqn:E1; [|destruct (path_starts_with m r) eqn:E2];
      rewrite ?list_elem_of_singleton in Hs; subst; [| |by apply not_elem_of_nil in Hs];
      split; try done; by eapply path_starts_with_trans.
  - intros [Hr Hm]. destruct (path_starts_with r m) eqn:E1; [set_solver|].
    destruct (path_starts_with_comparable _ _ _ Hr Hm) as [|E2]; [congruence|].
    rewrite E2. set_solver.
Qed.

Lemma covers_bind {A} (f : A -> list string) l p : covers (l ≫= f) p = existsb (fun x => covers (f x) p) l.
Proof. induction l as [|x l IH]; [done|]. by rewrite bind_cons, covers_app, IH. Qed.

Lemma existsb_andb_l {A} (b : bool) (f : A -> bool) l : existsb (fun x => b && f x) l = b && existsb f l.
Proof. induction l as [|x l IH]; simpl; [by rewrite andb_false_r|]. rewrite IH. by destruct b. Qed.

Lemma existsb_ext {A} (f g : A -> bool) l : (forall x, f x = g x) -> existsb f l = existsb g l.
Proof. intros H. induction l as [|x l IH]; simpl; [done|]. by rewrite H, IH. Qed.

Lemma intersect_covers m r p :
  covers (intersect_authority_paths m r) p = covers m p && covers r p.
Proof.
  unfold intersect_authority_paths. rewrite normalize_covers, covers_bind.
  rewrite (existsb_ext _ (fun x => covers m p && path_starts_with p x)).
  - rewrite existsb_andb_l. done.
  - intros x. cbv beta. rewrite covers_bind, (existsb_ext _ (fun y => path_starts_with p x && path_starts_with p y)).
    + rewrite existsb_andb_l. by rewrite andb_comm.
    + intros y. apply overlap_covers.
Qed.

Lemma intersect_elem x m r : x ∈ intersect_authority_paths m r -> x ∈ m \/ x ∈ r.
Proof.
  intros H%normalize_elem. apply list_elem_of_bind in H as (y & H & Hy).
  apply list_elem_of_bind in H as (z & H & Hz). unfold overlap in H.
  destruct (path_starts_with y z); [|destruct (path_starts_with z y)]; set_solver.
Qed.
