(* ===== verification/PermShell.v ===== *)
(** * Shell commands ([mez-agent/src/permissions/classification.rs])

    Splitting a command line into candidate commands, the argument checks of
    the built-in rules, and the effects a command is classified with.  The
    word splitter is the [shlex] crate, a parameter. *)

From S2P Require Import Prelude RustStr RustBytes RustText PermTypes.
From Stdlib Require Import Ascii.

(** [shlex::split]. *)
Class Shlex := shlex_split : string -> option (list string).

Record ShellAnalysis := mkAnalysis {
  sa_candidates : list string;
  sa_unsafe_syntax : bool }.

Inductive QuoteState := Ground | Single | Double.
#[global] Instance QuoteState_eq_dec : EqDecision QuoteState.
Proof. solve_decision. Defined.

Definition push_candidate (candidates : list string) (current : string) : list string :=
  let candidate := trim current in
  if str_is_empty candidate then candidates else candidates ++ [candidate].

Definition push_char (s : string) (a : ascii) : string := s +:+ String a EmptyString.

Definition one_of (l : list ascii) (a : ascii) : bool := existsb (fun b => (a =? b)%char) l.

(** Characters that start a redirection, an expansion or a group. *)
Definition expansion_chars : list ascii := ["<"; ">"; "`"; "$"; "("; ")"]%char.
(** Characters only Fish treats as syntax. *)
Definition fish_chars : list ascii :=
  ["*"; "?"; "{"; "}"; "["; "]"; "~"; "^"; "#"; "%"]%char.

Definition str_in (l : list string) (s : string) : bool := existsb (String.eqb s) l.

Section Analysis.
Context (dialect : CommandShellDialect).

Definition is_fish : bool := bool_decide (dialect = Fish).

(** The loop over the characters. *)
Fixpoint scan (s : string) (quote : QuoteState) (candidates : list string) (current : string)
    (unsafe : bool) {struct s} : list string * string * QuoteState * bool :=
  match s with
  | EmptyString => (candidates, current, quote, unsafe)
  | String ch s =>
      match quote with
      | Single =>
          scan s (if (ch =? SQUOTE)%char then Ground else Single) candidates
            (push_char current ch) unsafe
      | Double =>
          let unsafe :=
            if (ch =? DQUOTE)%char then unsafe
            else if (ch =? "$")%char || (ch =? "`")%char
                    || (is_fish && ((ch =? "(")%char || (ch =? ")")%char))
            then true else unsafe in
          scan s (if (ch =? DQUOTE)%char then Ground else Double) candidates
            (push_char current ch) unsafe
      | Ground =>
          if (ch =? SQUOTE)%char then scan s Single candidates (push_char current ch) unsafe
          else if (ch =? DQUOTE)%char then scan s Double candidates (push_char current ch) unsafe
          else if (ch =? BACKSLASH)%char then
            let unsafe := if is_fish then true else unsafe in
            match s with
            | String next s => scan s Ground candidates (push_char (push_char current ch) next) unsafe
            | EmptyString => (candidates, push_char current ch, Ground, unsafe)
            end
          else if (ch =? ";")%char || (ch =? NL)%char then
            scan s Ground (push_candidate candidates current) EmptyString unsafe
          else if (ch =? "|")%char then
            match s with
            | String "|" s' => scan s' Ground (push_candidate candidates current) EmptyString unsafe
            | _ => scan s Ground (push_candidate candidates current) EmptyString unsafe
            end
          else if (ch =? "&")%char then
            match s with
            | String "&" s' => scan s' Ground (push_candidate candidates current) EmptyString unsafe
            | _ => scan s Ground (push_candidate candidates current) EmptyString
                     (if is_fish then true else unsafe)
            end
          else if one_of expansion_chars ch then scan s Ground candidates (push_char current ch) true
          else if is_fish && one_of fish_chars ch then
            scan s Ground candidates (push_char current ch) true
          else scan s Ground candidates (push_char current ch) unsafe
      end
  end.
End Analysis.

Definition fish_keywords : list string :=
  ["and"; "or"; "not"; "begin"; "end"; "if"; "else"; "for"; "while"; "switch"; "case"; "function";
   "break"; "continue"; "return"].

Definition fish_command_assignment (token : string) : bool :=
  if negb (contains_char "=" token) then false
  else match before_char "=" token with
       | EmptyString => false
       | String a rest =>
           (is_ascii_alphabetic a || (a =? "_")%char)
           && all_bytes (fun b => is_ascii_alphanumeric b || (b =? "_")%char) rest
       end.

Definition fish_tokens_are_unsafe (tokens : list string) : bool :=
  match tokens with
  | [] => true
  | first :: _ => str_in fish_keywords first || fish_command_assignment first
  end.

Section Words.
Context `{Shlex}.

Definition tokenize_shell_words (command : string) : option (list string) :=
  match shlex_split command with
  | None | Some [] => None
  | Some tokens => Some tokens
  end.

Definition analyze_shell_for_dialect (command : string) (dialect : CommandShellDialect)
    : ShellAnalysis :=
  let '(candidates, current, quote, unsafe) := scan dialect command Ground [] EmptyString false in
  let unsafe := negb (bool_decide (quote = Ground)) || unsafe in
  let candidates := push_candidate candidates current in
  let fish_unsafe :=
    bool_decide (dialect = Fish)
    && existsb (fun c => match tokenize_shell_words c with
                         | None => true
                         | Some tokens => fish_tokens_are_unsafe tokens
                         end) candidates in
  mkAnalysis candidates (fish_unsafe || unsafe).

Definition analyze_shell (command : string) : ShellAnalysis :=
  analyze_shell_for_dialect command Posix.

Definition tokenize_single_candidate (command : string) : option (list string) :=
  let analysis := analyze_shell command in
  if sa_unsafe_syntax analysis then None
  else match sa_candidates analysis with
       | [candidate] => tokenize_shell_words candidate
       | _ => None
       end.
End Words.

(** ** Argument checks *)

Definition token_has_shell_syntax (token : string) : bool :=
  contains_char ";" token || contains_char "|" token || contains_char "&" token
  || contains_char "$" token || contains_char "`" token || contains_char "<" token
  || contains_char ">" token.

(** The name of an option, without a value attached with [=]. *)
Definition option_name (token : string) : string := before_char "=" token.

Definition read_path_option_is_allowed (option : string) (allowed_options : list string) : bool :=
  if str_in allowed_options option then true
  else if starts_with "--" option || negb (starts_with_char "-" option) || (String.length option <=? 2)
  then false
  else forallb (fun flag => str_in allowed_options ("-" +:+ flag)) (chars (str_drop 1 option)).

Fixpoint read_paths_loop (allowed_options : list string) (paths_only : bool) (remaining : list string)
    : bool :=
  match remaining with
  | [] => true
  | token :: rest =>
      if String.eqb token "--" then read_paths_loop allowed_options true rest
      else if negb paths_only && starts_with_char "-" token then
        if read_path_option_is_allowed (option_name token) allowed_options
        then read_paths_loop allowed_options paths_only rest else false
      else if token_has_shell_syntax token then false
      else read_paths_loop allowed_options paths_only rest
  end.
Definition remaining_args_are_read_paths (remaining allowed_options : list string) : bool :=
  read_paths_loop allowed_options false remaining.

(** The arguments after the leading options; [None] when an option is refused. *)
Fixpoint skip_script_options (allowed_options : list string) (remaining : list string)
    : option (list string) :=
  match remaining with
  | [] => Some []
  | token :: rest =>
      if String.eqb token "--" then Some rest
      else if negb (starts_with_char "-" token) then Some remaining
      else if String.eqb (option_name token) "-i" || starts_with "--in-place" (option_name token)
      then None
      else if str_in allowed_options (option_name token)
      then skip_script_options allowed_options rest else None
  end.
Definition remaining_args_are_script_then_read_paths (remaining allowed_options : list string) : bool :=
  match skip_script_options allowed_options remaining with
  | Some (_ :: paths) => remaining_args_are_read_paths paths []
  | _ => false
  end.

Definition dangerous_find_args : list string :=
  ["-delete"; "-exec"; "-execdir"; "-ok"; "-okdir"; "-fls"; "-fprint"; "-fprintf"].

Fixpoint find_expression (remaining : list string) : bool :=
  match remaining with
  | [] => true
  | token :: rest =>
      if str_in ["-print"; "-print0"; "-ls"; "-not"; "!"] token then find_expression rest
      else if str_in ["-maxdepth"; "-mindepth"; "-name"; "-iname"; "-path"; "-ipath"; "-type"] token
      then match rest with
           | [] => false
           | value :: rest => if token_has_shell_syntax value then false else find_expression rest
           end
      else false
  end.
Fixpoint skip_find_roots (remaining : list string) : list string :=
  match remaining with
  | token :: rest => if starts_with_char "-" token then remaining else skip_find_roots rest
  | [] => []
  end.
Definition find_args_are_read_only (remaining : list string) : bool :=
  if existsb (fun t => str_in dangerous_find_args t || token_has_shell_syntax t) remaining
  then false else find_expression (skip_find_roots remaining).

Definition literal_output_args_are_safe (remaining : list string) : bool :=
  let remaining := match remaining with
                   | token :: rest => if String.eqb token "--" then rest else remaining
                   | [] => []
                   end in
  match remaining with [] => false | _ => forallb (fun t => negb (token_has_shell_syntax t)) remaining end.

Definition is_git_read_only_subcommand (subcommand : string) : bool :=
  str_in ["diff"; "log"; "show"; "rev-parse"] subcommand.
Definition validate_git_read_only_subcommand (subcommand : string) : presult unit :=
  if is_git_read_only_subcommand subcommand then Ok tt
  else Err (perm_invalid_args "unknown git read-only command rule subcommand").

Definition git_read_only_arg_is_blocked (token : string) : bool :=
  str_in ["-o"; "--output"; "-p"; "--paginate"; "--ext-diff"; "--external"; "--textconv"] token
  || existsb (fun p => starts_with p token)
       ["--output="; "--paginate="; "--ext-diff="; "--external="; "--textconv="].

Fixpoint git_args_loop (pathspecs_only : bool) (remaining : list string) : bool :=
  match remaining with
  | [] => true
  | token :: rest =>
      if token_has_shell_syntax token then false
      else if pathspecs_only then git_args_loop pathspecs_only rest
      else if String.eqb token "--" then git_args_loop true rest
      else if git_read_only_arg_is_blocked token then false
      else git_args_loop pathspecs_only rest
  end.
Definition git_read_only_args_are_safe (subcommand : string) (remaining : list string) : bool :=
  is_ok (validate_git_read_only_subcommand subcommand) && git_args_loop false remaining.

Definition probe_name_byte (a : ascii) : bool :=
  is_ascii_alphanumeric a || one_of ["_"; "-"; "."; "+"]%char a.
Definition is_executable_probe_name (token : string) : bool :=
  negb (str_is_empty token) && negb (starts_with_char "-" token)
  && negb (token_has_shell_syntax token) && all_bytes probe_name_byte token.

Fixpoint executable_probe_loop (allowed_options : list string) (names_started : bool)
    (remaining : list string) : bool :=
  match remaining with
  | [] => names_started
  | token :: rest =>
      if String.eqb token "--" && negb names_started then executable_probe_loop allowed_options true rest
      else if negb names_started && starts_with_char "-" token then
        if str_in allowed_options (option_name token)
        then executable_probe_loop allowed_options names_started rest else false
      else if is_executable_probe_name token then executable_probe_loop allowed_options true rest
      else false
  end.
Definition remaining_args_are_executable_probes (remaining allowed_options : list string) : bool :=
  executable_probe_loop allowed_options false remaining.

Definition uname_options : list string :=
  ["-a"; "--all"; "-s"; "--kernel-name"; "-n"; "--nodename"; "-r"; "--kernel-release"; "-v";
   "--kernel-version"; "-m"; "--machine"; "-p"; "--processor"; "-i"; "--hardware-platform"; "-o";
   "--operating-system"].
Definition uname_arg_is_safe (token : string) : bool :=
  if token_has_shell_syntax token then false
  else if str_in uname_options token then true
  else if starts_with_char "-" token && (2 <? String.length token)
  then all_bytes (one_of ["a"; "s"; "n"; "r"; "v"; "m"; "p"; "i"; "o"]%char) (str_drop 1 token)
  else false.
Definition uname_args_are_safe (remaining : list string) : bool := forallb uname_arg_is_safe remaining.

(** ** Effects *)

Definition collect_read_path_args (args : list string) : list string :=
  List.filter (fun a => negb (starts_with_char "-" a)) args.

Definition is_current_directory_reference (path : string) : bool :=
  String.eqb path "." || String.eqb (trim_end_char "/" path) ".".

Fixpoint listing_paths (paths_only : bool) (args : list string) : list string :=
  match args with
  | [] => []
  | arg :: rest =>
      if negb paths_only && String.eqb arg "--" then listing_paths true rest
      else if negb paths_only && starts_with_char "-" arg then listing_paths paths_only rest
      else arg :: listing_paths paths_only rest
  end.
Definition collect_listing_read_path_args (args : list string) : list string :=
  (fun p => if is_current_directory_reference p then "."%string else p) <$>
    match listing_paths false args with [] => ["."] | paths => paths end.

Fixpoint skip_options (args : list string) : list string :=
  match args with
  | arg :: rest => if starts_with_char "-" arg then skip_options rest else args
  | [] => []
  end.
Definition collect_script_command_read_path_args (args : list string) : list string :=
  collect_read_path_args (tail (skip_options args)).

Fixpoint leading_roots (args : list string) : list string :=
  match args with
  | arg :: rest => if starts_with_char "-" arg then [] else arg :: leading_roots rest
  | [] => []
  end.
Definition collect_find_root_args (args : list string) : list string :=
  match leading_roots args with [] => ["."] | roots => roots end.

Definition set_reads (paths : list string) (e : EffectiveCommandEffects) : EffectiveCommandEffects :=
  mkEffects paths (writes e) (creates e) (deletes e) (touches e) (network e) (credentials e)
    (process_control e) (destructive e) (privilege_change e) (unknown e).

Definition classify_tokens (tokens : list string) : EffectiveCommandEffects :=
  match tokens with
  | [] => unknown_effects
  | command :: args =>
      if str_in ["pwd"; "test"; "command"; "type"; "which"; "uname"; "hostname"; "printf"] command
      then no_effects
      else if String.eqb command "ls" then set_reads (collect_listing_read_path_args args) no_effects
      else if str_in ["cat"; "head"; "tail"; "wc"; "grep"; "rg"] command
      then set_reads (collect_read_path_args args) no_effects
      else if str_in ["sed"; "awk"] command
      then set_reads (collect_script_command_read_path_args args) no_effects
      else if String.eqb command "find" then set_reads (collect_find_root_args args) no_effects
      else if String.eqb command "git"
              && match args with
                 | sub :: _ => str_in ["status"; "diff"; "log"; "show"; "rev-parse"] sub
                 | [] => false
                 end
      then set_reads ["."] no_effects
      else if String.eqb command "curl"
      then mkEffects [] [] [] [] [] true false false false false false
      else if String.eqb command "rm"
      then mkEffects [] [] [] args [] false false false true false false
      else if str_in ["sudo"; "su"] command
      then mkEffects [] [] [] [] [] false false false false true true
      else if String.eqb command "kill"
      then mkEffects [] [] [] [] [] false false true true false false
      else unknown_effects
  end.
