(* ===== verification/Sha256.v ===== *)
(** * SHA-256 ([sha256] and [sha256_hex] of [mez-agent/src/permissions/rules.rs])

    The digest behind exact command rules, on 32-bit words with wrap-around,
    and its hexadecimal form. *)

From S2P Require Import Prelude RustStr RustBytes RustText.
From Stdlib Require Import Ascii.
Local Open Scope Z_scope.

(** ** 32-bit words *)

Definition wadd (a b : Z) : Z := wrap u32_MAX (a + b).
(** [!x] on [u32]. *)
Definition wnot (a : Z) : Z := Z.lxor a u32_MAX.
(** [x >> n]. *)
Definition wshr (a n : Z) : Z := Z.shiftr a n.
(** [u32::rotate_right]. *)
Definition rotate_right (a n : Z) : Z :=
  Z.lor (Z.shiftr a n) (wrap u32_MAX (Z.shiftl a (32 - n))).

(** The words the source writes in hexadecimal. *)
Definition K : list Z :=
  [1116352408; 1899447441; 3049323471; 3921009573; 961987163; 1508970993; 2453635748;
   2870763221; 3624381080; 310598401; 607225278; 1426881987; 1925078388; 2162078206;
   2614888103; 3248222580; 3835390401; 4022224774; 264347078; 604807628; 770255983;
   1249150122; 1555081692; 1996064986; 2554220882; 2821834349; 2952996808; 3210313671;
   3336571891; 3584528711; 113926993; 338241895; 666307205; 773529912; 1294757372;
   1396182291; 1695183700; 1986661051; 2177026350; 2456956037; 2730485921; 2820302411;
   3259730800; 3345764771; 3516065817; 3600352804; 4094571909; 275423344; 430227734;
   506948616; 659060556; 883997877; 958139571; 1322822218; 1537002063; 1747873779;
   1955562222; 2024104815; 2227730452; 2361852424; 2428436474; 2756734187; 3204031479;
   3329325298].

Definition initial_hash : list Z :=
  [1779033703; 3144134277; 1013904242; 2773480762; 1359893119; 2600822924; 528734635;
   1541459225].

(** ** Bytes *)

(** The bytes of a string, and big-endian words. *)
Fixpoint bytes_of (s : string) : list Z :=
  match s with EmptyString => [] | String a s => Z.of_N (N_of_ascii a) :: bytes_of s end.

Definition u32_from_be_bytes (b0 b1 b2 b3 : Z) : Z :=
  Z.lor (Z.shiftl b0 24) (Z.lor (Z.shiftl b1 16) (Z.lor (Z.shiftl b2 8) b3)).
Definition u32_to_be_bytes (x : Z) : list Z :=
  [Z.land (Z.shiftr x 24) 255; Z.land (Z.shiftr x 16) 255; Z.land (Z.shiftr x 8) 255; Z.land x 255].
Definition u64_to_be_bytes (x : Z) : list Z :=
  u32_to_be_bytes (Z.shiftr x 32) ++ u32_to_be_bytes (wrap u32_MAX x).

(** ** Padding *)

(** [while message.len() % 64 != 56 { message.push(0) }]: at most 63 rounds. *)
Fixpoint pad_zeros (fuel : nat) (message : list Z) : list Z :=
  if (length message mod 64 =? 56)%nat then message
  else match fuel with
       | O => message
       | S fuel => pad_zeros fuel (message ++ [0])
       end.

Definition pad (input : list Z) : list Z :=
  let bit_len := wrap u64_MAX (Z.of_nat (length input) * 8) in
  pad_zeros 63 (input ++ [0x80]) ++ u64_to_be_bytes bit_len.

(** [as_chunks::<64>], whole blocks only. *)
Fixpoint chunks (n : nat) (l : list Z) : list (list Z) :=
  match n with
  | O => []
  | S n => take 64 l :: chunks n (drop 64 l)
  end.
Definition blocks (message : list Z) : list (list Z) := chunks (length message / 64) message.

(** ** The compression function *)

Definition nth_word (l : list Z) (i : nat) : Z := nth i l 0.

Definition first_words (chunk : list Z) : list Z :=
  (fun i : nat => u32_from_be_bytes (nth_word chunk (i * 4)) (nth_word chunk (i * 4 + 1))
              (nth_word chunk (i * 4 + 2)) (nth_word chunk (i * 4 + 3))) <$> seq 0 16.

(** One iteration of [for index in 16..64]; [w] holds the words before [index]. *)
Definition extend_word (w : list Z) (index : nat) : list Z :=
  let w15 := nth_word w (index - 15) in
  let w2 := nth_word w (index - 2) in
  let s0 := Z.lxor (Z.lxor (rotate_right w15 7) (rotate_right w15 18)) (wshr w15 3) in
  let s1 := Z.lxor (Z.lxor (rotate_right w2 17) (rotate_right w2 19)) (wshr w2 10) in
  w ++ [wadd (wadd (wadd (nth_word w (index - 16)) s0) (nth_word w (index - 7))) s1].
Definition message_schedule (chunk : list Z) : list Z :=
  foldl extend_word (first_words chunk) (seq 16 48).

Record Working := mkWorking { wa : Z; wb : Z; wc : Z; wd : Z; we : Z; wf : Z; wg : Z; wh : Z }.

Definition sha_round (w : list Z) (v : Working) (index : nat) : Working :=
  let e := we v in
  let a := wa v in
  let s1 := Z.lxor (Z.lxor (rotate_right e 6) (rotate_right e 11)) (rotate_right e 25) in
  let ch := Z.lxor (Z.land e (wf v)) (Z.land (wnot e) (wg v)) in
  let temp1 := wadd (wadd (wadd (wadd (wh v) s1) ch) (nth_word K index)) (nth_word w index) in
  let s0 := Z.lxor (Z.lxor (rotate_right a 2) (rotate_right a 13)) (rotate_right a 22) in
  let maj := Z.lxor (Z.lxor (Z.land a (wb v)) (Z.land a (wc v))) (Z.land (wb v) (wc v)) in
  let temp2 := wadd s0 maj in
  mkWorking (wadd temp1 temp2) a (wb v) (wc v) (wadd (wd v) temp1) e (wf v) (wg v).

Definition compress (h : list Z) (chunk : list Z) : list Z :=
  let w := message_schedule chunk in
  let v0 := mkWorking (nth_word h 0) (nth_word h 1) (nth_word h 2) (nth_word h 3)
              (nth_word h 4) (nth_word h 5) (nth_word h 6) (nth_word h 7) in
  let v := foldl (sha_round w) v0 (seq 0 64) in
  [wadd (nth_word h 0) (wa v); wadd (nth_word h 1) (wb v); wadd (nth_word h 2) (wc v);
   wadd (nth_word h 3) (wd v); wadd (nth_word h 4) (we v); wadd (nth_word h 5) (wf v);
   wadd (nth_word h 6) (wg v); wadd (nth_word h 7) (wh v)].

Definition sha256 (input : list Z) : list Z :=
  foldl compress initial_hash (blocks (pad input)) ≫= u32_to_be_bytes.

(** ** Hexadecimal *)

(** A hexadecimal digit, as [{:x}] prints it. *)
Definition hex_digit (n : Z) : ascii :=
  ascii_of_N (Z.to_N (if n <? 10 then 48 + n else 87 + n)).
Definition byte_hex (b : Z) : string :=
  String (hex_digit (Z.shiftr b 4)) (String (hex_digit (Z.land b 15)) EmptyString).
Fixpoint hex_string (l : list Z) : string :=
  match l with [] => EmptyString | b :: l => byte_hex b +:+ hex_string l end.
Definition sha256_hex (input : list Z) : string := hex_string (sha256 input).

Example sha256_abc :
  sha256_hex (bytes_of "abc")
  = "ba7816bf8f01cfea414140de5dae2223b00361a396177a9cb410ff61f20015ad"%string.
Proof. vm_compute. reflexivity. Qed.

Example sha256_two_blocks :
  sha256_hex (bytes_of "abcdbcdecdefdefgefghfghighijhijkijkljklmklmnlmnomnopnopq")
  = "248d6a61d20638b8e5c026930c3e6039a33ce45964ff2167f6ecedd419db06c1"%string.
Proof. vm_compute. reflexivity. Qed.

(** ** The constants

    The literals are the first 32 bits of the fractional parts of the cube and
    square roots of the first primes, as the standard defines them. *)

Definition is_prime (n : nat) : bool :=
  (2 <=? n)%nat && forallb (fun d => negb (n mod d =? 0)%nat) (seq 2 (n - 2)).
Definition primes_below (n : nat) : list nat := List.filter is_prime (seq 2 n).

(** The largest [r] below [2^bits] with [f r <= x], for an increasing [f]. *)
Fixpoint root_bits (bits : nat) (f : Z -> Z) (x r : Z) : Z :=
  match bits with
  | O => r
  | S bits =>
      let r' := r + 2 ^ Z.of_nat bits in
      root_bits bits f x (if f r' <=? x then r' else r)
  end.
Definition cube_root_fraction (p : nat) : Z :=
  root_bits 40 (fun r => r * r * r) (Z.of_nat p * 2 ^ 96) 0 mod 2 ^ 32.
Definition square_root_fraction (p : nat) : Z :=
  root_bits 40 (fun r => r * r) (Z.of_nat p * 2 ^ 64) 0 mod 2 ^ 32.

Lemma round_constants : K = cube_root_fraction <$> take 64 (primes_below 312).
Proof. vm_compute. reflexivity. Qed.
Lemma initial_constants : initial_hash = square_root_fraction <$> take 8 (primes_below 312).
Proof. vm_compute. reflexivity. Qed.
