(* ===== verification/PermRules.v ===== *)
(** * Command rules ([mez-agent/src/permissions/rules.rs])

    The built-in rules, the text form of a rule record, and exact command
    rules.  The JSON form of declared effects is [serde_json]'s, a parameter. *)

From S2P Require Import Prelude RustStr RustBytes RustText PermTypes PermShell Sha256.
From Stdlib Require Import Ascii.

(** ** Built-in rules *)

(** [push_rule]: a rule without a pattern is not added. *)
Definition push_rule (pattern : list string) (d : RuleDecision) (m : RuleMatch)
    (rules : list CommandRule) : list CommandRule :=
  match rule_new pattern d m with
  | Ok r => rules ++ [with_scope BuiltIn r]
  | _ => rules
  end.
Definition push_rule_with_policy (pattern : list string) (d : RuleDecision) (m : RuleMatch)
    (p : ArgumentPolicy) (rules : list CommandRule) : list CommandRule :=
  match rule_new pattern d m with
  | Ok r => rules ++ [with_scope BuiltIn (with_argument_policy p r)]
  | _ => rules
  end.

Definition git_status_options : list string := ["--short"; "--branch"; "--porcelain"; "--ignored"].
Definition text_read_options : list string :=
  ["-n"; "-v"; "-i"; "-H"; "--line-number"; "--ignore-case"].
Definition script_read_options : list string := ["-n"; "-E"; "-r"; "--regexp-extended"].
Definition listing_read_options : list string :=
  ["-1"; "-a"; "-A"; "-C"; "-d"; "-F"; "-G"; "-h"; "-l"; "-m"; "-p"; "-q"; "-r"; "-R"; "-s"; "-S";
   "-t"; "-u"; "-x"; "--all"; "--almost-all"; "--classify"; "--color"; "--directory"; "--format";
   "--group-directories-first"; "--human-readable"; "--indicator-style"; "--recursive"; "--reverse";
   "--size"; "--sort"; "--time"].
Definition type_options : list string := ["-a"; "-p"; "-P"; "-t"].

Definition builtin_rules : list CommandRule :=
  let rules := [] in
  let rules := push_rule ["pwd"] Allow Exact rules in
  let rules := push_rule ["test"] Allow Prefix rules in
  let rules := push_rule_with_policy ["command"; "-v"] Allow Prefix (ExecutableProbe []) rules in
  let rules := push_rule_with_policy ["type"] Allow Prefix (ExecutableProbe type_options) rules in
  let rules := push_rule_with_policy ["which"] Allow Prefix (ExecutableProbe ["-a"]) rules in
  let rules := push_rule_with_policy ["uname"] Allow Prefix UnameProbe rules in
  let rules := push_rule ["hostname"] Allow Exact rules in
  let rules := push_rule ["env"] Prompt Prefix rules in
  let rules := push_rule_with_policy ["printf"] Allow Prefix LiteralOutput rules in
  let rules := push_rule_with_policy ["ls"] Allow Prefix (ReadPaths listing_read_options) rules in
  let rules := push_rule_with_policy ["cat"] Allow Prefix (ReadPaths []) rules in
  let rules := push_rule_with_policy ["head"] Allow Prefix (ReadPaths ["-n"]) rules in
  let rules := push_rule_with_policy ["tail"] Allow Prefix (ReadPaths ["-n"]) rules in
  let rules := push_rule_with_policy ["wc"] Allow Prefix (ReadPaths ["-l"; "-c"; "-w"]) rules in
  let rules := push_rule_with_policy ["grep"] Allow Prefix (ReadPaths text_read_options) rules in
  let rules := push_rule_with_policy ["rg"] Allow Prefix (ReadPaths text_read_options) rules in
  let rules := push_rule_with_policy ["sed"] Allow Prefix (ScriptThenReadPaths script_read_options) rules in
  let rules := push_rule_with_policy ["awk"] Allow Prefix (ScriptThenReadPaths []) rules in
  let rules := push_rule_with_policy ["find"] Allow Prefix FindReadOnly rules in
  let rules := push_rule ["xargs"] Prompt Prefix rules in
  let rules := push_rule_with_policy ["git"; "status"] Allow Prefix (ReadPaths git_status_options) rules in
  let rules := push_rule_with_policy ["git"; "diff"] Allow Prefix (GitReadOnly "diff") rules in
  let rules := push_rule_with_policy ["git"; "log"] Allow Prefix (GitReadOnly "log") rules in
  let rules := push_rule_with_policy ["git"; "show"] Allow Prefix (GitReadOnly "show") rules in
  push_rule_with_policy ["git"; "rev-parse"] Allow Prefix (GitReadOnly "rev-parse") rules.

(** ** Names *)

Definition scope_name (s : CommandRuleScope) : string :=
  match s with
  | BuiltIn => "built-in" | ScopeSession => "session" | Project => "project" | User => "user"
  | Managed => "managed"
  end.
Definition parse_scope (v : string) : presult CommandRuleScope :=
  if String.eqb v "built-in" then Ok BuiltIn
  else if String.eqb v "session" then Ok ScopeSession
  else if String.eqb v "project" then Ok Project
  else if String.eqb v "user" then Ok User
  else if String.eqb v "managed" then Ok Managed
  else Err (perm_invalid_args "unknown command rule scope").

Definition decision_name (d : RuleDecision) : string :=
  match d with Forbid => "deny" | Prompt => "prompt" | Allow => "allow" end.
Definition parse_decision (v : string) : presult RuleDecision :=
  if String.eqb v "deny" || String.eqb v "forbid" then Ok Forbid
  else if String.eqb v "prompt" then Ok Prompt
  else if String.eqb v "allow" then Ok Allow
  else Err (perm_invalid_args "unknown command rule decision").

(** ** Exact commands *)

Definition shell_classification_byte (a : ascii) : bool :=
  is_ascii_alphanumeric a || one_of ["."; "_"; "-"]%char a.
Definition validate_shell_classification (c : string) : presult unit :=
  if str_is_empty c || negb (all_bytes shell_classification_byte c)
  then Err (perm_invalid_args
    "exact_sha256 shell classification must be non-empty ASCII [A-Za-z0-9._-]")
  else Ok tt.
Definition validate_sha256_hex (digest_hex : string) : presult unit :=
  if negb (String.length digest_hex =? 64) || negb (all_bytes is_ascii_hexdigit digest_hex)
  then Err (perm_invalid_args "exact_sha256 digest must be 64 hexadecimal characters")
  else Ok tt.

(** Carriage returns, alone or before a line feed, become line feeds. *)
Fixpoint normalize_newlines (s : string) : string :=
  match s with
  | EmptyString => EmptyString
  | String a rest =>
      if (a =? CR)%char then
        String NL (match rest with
                   | String b rest' => if (b =? NL)%char then normalize_newlines rest'
                                       else normalize_newlines rest
                   | EmptyString => EmptyString
                   end)
      else String a (normalize_newlines rest)
  end.
Definition normalize_exact_command_text (input : string) (strip_submit_newline : bool) : string :=
  let normalized := normalize_newlines input in
  if strip_submit_newline && ends_with_char NL normalized
  then strip_last_char NL normalized else normalized.

(** The bytes that are hashed. *)
Definition exact_preimage (shell_classification text : string) : string :=
  "mez-command-sha256-v1" +:+ String NUL (shell_classification +:+ String NUL text).
Definition exact_command_sha256 (shell_classification text : string) : string :=
  sha256_hex (bytes_of (exact_preimage shell_classification text)).

Definition from_exact_sha256_digest (digest_hex shell_classification : string) (d : RuleDecision)
    : presult CommandRule :=
  validate_sha256_hex digest_hex ≫= fun _ =>
  validate_shell_classification shell_classification ≫= fun _ =>
  Ok (mkRule None [digest_hex] d (ExactSha256 digest_hex shell_classification) NoArguments Managed
        None None).
Definition new_exact_sha256 (text shell_classification : string) (d : RuleDecision)
    : presult CommandRule :=
  validate_shell_classification shell_classification ≫= fun _ =>
  from_exact_sha256_digest (exact_command_sha256 shell_classification text) shell_classification d.

(** ** Rule records *)

Definition match_record_value (m : RuleMatch) : string :=
  match m with
  | Prefix => "prefix"
  | Exact => "exact"
  | ExactSha256 digest_hex shell_classification =>
      "exact_sha256:" +:+ shell_classification +:+ ":" +:+ digest_hex
  end.
(** Pieces two and three of [value.splitn(3, ':')]. *)
Definition parse_match (v : string) : presult RuleMatch :=
  if String.eqb v "prefix" then Ok Prefix
  else if String.eqb v "exact" then Ok Exact
  else if starts_with "exact_sha256:" v then
    let rest := after_char ":" v in
    let shell_classification := before_char ":" rest in
    let digest_hex := after_char ":" rest in
    validate_shell_classification shell_classification ≫= fun _ =>
    validate_sha256_hex digest_hex ≫= fun _ =>
    Ok (ExactSha256 digest_hex shell_classification)
  else Err (perm_invalid_args "unknown command rule match kind").

Definition split_policy_options (options : string) : list string :=
  List.filter (fun o => negb (str_is_empty o)) (split_char "," options).

Definition argument_policy_record (p : ArgumentPolicy) : string :=
  match p with
  | NoArguments => "none"
  | ExecutableProbe o => "executable_probe:" +:+ join "," o
  | UnameProbe => "uname_probe"
  | LiteralOutput => "literal_output"
  | ReadPaths o => "read_paths:" +:+ join "," o
  | ScriptThenReadPaths o => "script_then_read_paths:" +:+ join "," o
  | FindReadOnly => "find_read_only"
  | GitReadOnly subcommand => "git_read_only:" +:+ subcommand
  end.
Definition parse_argument_policy (v : string) : presult ArgumentPolicy :=
  if String.eqb v "none" then Ok NoArguments
  else if String.eqb v "find_read_only" then Ok FindReadOnly
  else if String.eqb v "uname_probe" then Ok UnameProbe
  else if String.eqb v "literal_output" then Ok LiteralOutput
  else match strip_prefix "executable_probe:" v with
  | Some o => Ok (ExecutableProbe (split_policy_options o))
  | None =>
  match strip_prefix "read_paths:" v with
  | Some o => Ok (ReadPaths (split_policy_options o))
  | None =>
  match strip_prefix "script_then_read_paths:" v with
  | Some o => Ok (ScriptThenReadPaths (split_policy_options o))
  | None =>
  match strip_prefix "git_read_only:" v with
  | Some subcommand =>
      validate_git_read_only_subcommand subcommand ≫= fun _ => Ok (GitReadOnly subcommand)
  | None => Err (perm_invalid_args "unknown command rule argument policy")
  end end end end.

Definition escape_record_field (v : string) : string :=
  replace_char NL (String BACKSLASH "n")
    (replace_char TAB (String BACKSLASH "t")
      (replace_char BACKSLASH (String BACKSLASH (String BACKSLASH EmptyString)) v)).

Fixpoint split_fields (line : string) (fields : list string) (current : string) (escaped : bool)
    : list string :=
  match line with
  | EmptyString => fields ++ [current]
  | String ch line =>
      if escaped then
        let c := if (ch =? "t")%char then TAB else if (ch =? "n")%char then NL else ch in
        split_fields line fields (push_char current c) false
      else if (ch =? BACKSLASH)%char then split_fields line fields current true
      else if (ch =? TAB)%char then split_fields line (fields ++ [current]) EmptyString false
      else split_fields line fields (push_char current ch) false
  end.
Definition split_record_fields (line : string) : list string :=
  split_fields line [] EmptyString false.

(** The separator of pattern words, U+001F. *)
Definition US : ascii := "031"%char.

(** [serde_json] on declared effects. *)
Class EffectsJson := {
  effects_to_json : DeclaredCommandEffects -> option string;
  effects_from_json : string -> option DeclaredCommandEffects }.

Section Records.
Context `{EffectsJson}.

Definition rule_fields (r : CommandRule) : list string :=
  [scope_name (r_scope r); decision_name (r_decision r); match_record_value (r_match r);
   argument_policy_record (r_argument_policy r); join (String US EmptyString) (r_pattern r);
   default EmptyString (r_justification r); default EmptyString (r_id r);
   default EmptyString (r_declared_effects r ≫= effects_to_json)].
Definition encode_rule_record (r : CommandRule) : string :=
  join (String TAB EmptyString) (escape_record_field <$> rule_fields r).

(** The optional identity and effects of an eight-field record. *)
Definition decode_tail (id effects : string) (r : CommandRule) : presult CommandRule :=
  (if str_is_empty id then Ok r else with_id id r) ≫= fun r =>
  if str_is_empty effects then Ok r
  else ok_or (effects_from_json effects)
         (perm_invalid_args "command rule record has invalid declared effects") ≫= fun e =>
       with_declared_effects e r.

Definition decode_head (scope decision m policy pattern justification : string)
    : presult CommandRule :=
  parse_scope scope ≫= fun scope =>
  parse_decision decision ≫= fun decision =>
  parse_match m ≫= fun m =>
  parse_argument_policy policy ≫= fun policy =>
  rule_new (split_char US pattern) decision m ≫= fun r =>
  let r := with_scope scope (with_argument_policy policy r) in
  Ok (if str_is_empty justification then r else with_justification justification r).

Definition decode_rule_record (line : string) : presult CommandRule :=
  match split_record_fields line with
  | [scope; decision; m; policy; pattern; justification] =>
      decode_head scope decision m policy pattern justification
  | [scope; decision; m; policy; pattern; justification; id; effects] =>
      decode_head scope decision m policy pattern justification ≫= decode_tail id effects
  | _ => Err (perm_invalid_args "command rule record has invalid field count")
  end.

(** ** The rule store ([CommandRuleStore] of [policy.rs]) *)

Definition store_new : CommandRuleStore := mkRuleStore [].

Definition store_add (r : CommandRule) : pmethod CommandRuleStore unit := fun st =>
  if bool_decide (r_scope r = BuiltIn)
  then (st, Err (perm_invalid_args "persisted command rule store must not contain built-in rules"))
  else (mkRuleStore (rs_rules st ++ [r]), Ok tt).

Definition parse_rule_id (rule_id : string) : presult N :=
  ok_or (strip_prefix "rule" rule_id)
    (perm_invalid_args "command rule id must use the rule<N> format") ≫= fun value =>
  ok_or (parse_u64 value) (perm_invalid_args "command rule id number is invalid") ≫= fun number =>
  if (number =? 0)%N then Err (perm_invalid_args "command rule id numbers are one-based")
  else Ok (number - 1)%N.

Definition store_remove (rule_id : string) : pmethod CommandRuleStore CommandRule := fun st =>
  match parse_rule_id rule_id with
  | Ok index =>
      if (N.of_nat (length (rs_rules st)) <=? index)%N
      then (st, Err (perm_not_found "command rule not found"))
      else match rs_rules st !! N.to_nat index with
           | Some r => (mkRuleStore (remove_at (N.to_nat index) (rs_rules st)), Ok r)
           | None => (st, Panic)
           end
  | Err e => (st, Err e)
  | Panic => (st, Panic)
  end.

Definition store_encode (st : CommandRuleStore) : string :=
  join (String NL EmptyString) (encode_rule_record <$> rs_rules st).

Fixpoint decode_lines (ls : list string) (st : CommandRuleStore) : presult CommandRuleStore :=
  match ls with
  | [] => Ok st
  | line :: ls =>
      if str_is_empty (trim line) then decode_lines ls st
      else decode_rule_record line ≫= fun r =>
           match store_add r st with
           | (st, Ok _) => decode_lines ls st
           | (_, Err e) => Err e
           | (_, Panic) => Panic
           end
  end.
Definition store_decode (data : string) : presult CommandRuleStore := decode_lines (lines data) store_new.
End Records.
