(* ===== verification/PermPolicy.v ===== *)
(** * Permission decisions ([mez-agent/src/permissions/policy.rs])

    Which rules match a command, the decision for a whole command line with
    its approval mode and the session's approvals, the effects reported with
    it, and the queue of approvals a user has to answer. *)

From S2P Require Import Prelude RustStr RustBytes RustText PermTypes PermShell Sha256 PermRules.
From Stdlib Require Import Ascii.

(** ** Matching *)

Definition arguments_match (r : CommandRule) (remaining : list string) : bool :=
  match r_argument_policy r with
  | NoArguments => match remaining with [] => true | _ => false end
  | ExecutableProbe o => remaining_args_are_executable_probes remaining o
  | UnameProbe => uname_args_are_safe remaining
  | LiteralOutput => literal_output_args_are_safe remaining
  | ReadPaths o => remaining_args_are_read_paths remaining o
  | ScriptThenReadPaths o => remaining_args_are_script_then_read_paths remaining o
  | FindReadOnly => find_args_are_read_only remaining
  | GitReadOnly subcommand => git_read_only_args_are_safe subcommand remaining
  end.

Definition rule_matches (tokens : list string) (r : CommandRule) : bool :=
  match r_match r with
  | Prefix =>
      list_starts_with (r_pattern r) tokens
      && (negb (bool_decide (r_decision r = Allow)) || negb (bool_decide (r_scope r = BuiltIn))
          || arguments_match r (drop (length (r_pattern r)) tokens))
  | Exact => bool_decide (tokens = r_pattern r)
  | ExactSha256 _ _ => false
  end.

Definition exact_sha256_matches (digest_hex shell_classification : string) (r : CommandRule) : bool :=
  match r_match r with
  | ExactSha256 d c => String.eqb d digest_hex && String.eqb c shell_classification
  | _ => false
  end.

Definition is_exact_match (tokens : list string) (r : CommandRule) : bool :=
  match r_match r with Exact => bool_decide (r_pattern r = tokens) | _ => false end.

Definition is_configured_allow (r : CommandRule) : bool :=
  bool_decide (r_decision r = Allow) && negb (bool_decide (r_scope r = BuiltIn)).

(** ** Effects *)

Definition normalize_effect_paths (e : EffectiveCommandEffects) : EffectiveCommandEffects :=
  mkEffects (sort_dedup (reads e)) (sort_dedup (writes e)) (sort_dedup (creates e))
    (sort_dedup (deletes e)) (sort_dedup (touches e)) (network e) (credentials e)
    (process_control e) (destructive e) (privilege_change e) (unknown e).

Definition merge_declared_semantic_effects (e : EffectiveCommandEffects) (d : DeclaredCommandEffects)
    : EffectiveCommandEffects :=
  mkEffects (reads e) (writes e) (creates e) (deletes e) (touches e)
    (network e || default false (de_network d)) (credentials e || default false (de_credentials d))
    (process_control e || default false (de_process_control d)) (destructive e)
    (privilege_change e) (unknown e).
Definition merge_declared_confinement_effects (e : EffectiveCommandEffects) (d : DeclaredCommandEffects)
    : EffectiveCommandEffects :=
  merge_declared_semantic_effects
    (mkEffects (reads e ++ de_read_scopes d) (writes e ++ de_write_scopes d) (creates e) (deletes e)
       (touches e) (network e) (credentials e) (process_control e) (destructive e)
       (privilege_change e) (unknown e)) d.

Definition set_unknown (b : bool) (e : EffectiveCommandEffects) : EffectiveCommandEffects :=
  mkEffects (reads e) (writes e) (creates e) (deletes e) (touches e) (network e) (credentials e)
    (process_control e) (destructive e) (privilege_change e) b.

Definition declares_completely (r : CommandRule) : bool :=
  match r_declared_effects r with
  | Some d => bool_decide (de_completeness d = Complete)
  | None => false
  end.

Definition merge_candidate_effects (e : EffectiveCommandEffects) (rules : list CommandRule)
    (decision : RuleDecision) : EffectiveCommandEffects * option EffectiveCommandEffects :=
  let allow := List.filter is_configured_allow rules in
  if negb (bool_decide (decision = Allow)) || match allow with [] => true | _ => false end
  then (e, None)
  else
    let complete := forallb declares_completely allow in
    let declared := omap r_declared_effects allow in
    let e := foldl merge_declared_semantic_effects e declared in
    let e := normalize_effect_paths (set_unknown (negb complete) e) in
    (e, if complete
        then Some (normalize_effect_paths (foldl merge_declared_confinement_effects no_effects declared))
        else None).

Definition stable_rule_ids (rules : list CommandRule) : list string := sort_dedup (omap r_id rules).

Definition completeness_of (confinement : option EffectiveCommandEffects) : EffectCompleteness :=
  match confinement with Some _ => Complete | None => EffectsUnknown end.

Definition candidate_evaluation_from_rules_with_decision (command : string) (rules : list CommandRule)
    (classified : EffectiveCommandEffects) (decision : RuleDecision) : CandidateEvaluation :=
  let '(effects, confinement) := merge_candidate_effects classified rules decision in
  mkCandidate command decision (stable_rule_ids rules) effects confinement (completeness_of confinement).
Definition candidate_evaluation_from_rules (command : string) (rules : list CommandRule)
    (classified : EffectiveCommandEffects) : CandidateEvaluation :=
  candidate_evaluation_from_rules_with_decision command rules classified
    (default Prompt (min_decision (r_decision <$> rules))).

Definition union_effects (a e : EffectiveCommandEffects) : EffectiveCommandEffects :=
  mkEffects (reads a ++ reads e) (writes a ++ writes e) (creates a ++ creates e)
    (deletes a ++ deletes e) (touches a ++ touches e) (network a || network e)
    (credentials a || credentials e) (process_control a || process_control e)
    (destructive a || destructive e) (privilege_change a || privilege_change e)
    (unknown a || unknown e).
Definition aggregate_candidate_effects (candidates : list CandidateEvaluation)
    : EffectiveCommandEffects :=
  normalize_effect_paths (foldl union_effects no_effects (ce_effects <$> candidates)).

Definition union_confinement (a e : EffectiveCommandEffects) : EffectiveCommandEffects :=
  mkEffects (reads a ++ reads e) (writes a ++ writes e) (creates a) (deletes a) (touches a)
    (network a || network e) (credentials a || credentials e)
    (process_control a || process_control e) (destructive a) (privilege_change a) (unknown a).
Definition aggregate_candidate_confinement_effects (candidates : list CandidateEvaluation)
    : option EffectiveCommandEffects :=
  match candidates with
  | [] => None
  | _ =>
      if existsb (fun c => is_none (ce_confinement_effects c)) candidates then None
      else Some (normalize_effect_paths
                   (foldl union_confinement no_effects (omap ce_confinement_effects candidates)))
  end.

(** ** Decisions *)

Definition cwd_starts_with (cwd trusted : string) : bool :=
  if String.eqb cwd trusted then true
  else
    let trusted := if ends_with_char "/" trusted then trusted else trusted +:+ "/" in
    starts_with trusted cwd && (String.length trusted <? String.length cwd).

Definition requires_confirmation (e : EffectiveCommandEffects) : bool :=
  unknown e || destructive e || privilege_change e || credentials e || network e.

Section Policy.
Context `{Shlex}.

Section Evaluation.
Context (p : PermissionPolicy).

Definition apply_approval_policy (decision : RuleDecision) (cwd_trusted : bool) : RuleDecision :=
  if bypasses_prompts (pp_approval_policy p) && bool_decide (decision = Prompt)
  then Allow else decision.

Definition matching_token_rules (tokens : list string) : list CommandRule :=
  List.filter (rule_matches tokens) (pp_rules p).
Definition matching_exact_token_rules (tokens : list string) : list CommandRule :=
  List.filter (is_exact_match tokens) (pp_rules p).
Definition matching_exact_sha256_rules (candidate shell_classification : string) : list CommandRule :=
  let normalized := normalize_exact_command_text candidate false in
  let digest_hex := exact_command_sha256 shell_classification normalized in
  List.filter (exact_sha256_matches digest_hex shell_classification) (pp_rules p).

Definition evaluate_tokens (tokens : list string) : RuleDecision :=
  let matching := matching_token_rules tokens in
  let rule_decision := default Prompt (min_decision (r_decision <$> matching)) in
  if negb (bool_decide (rule_decision = Allow)) then rule_decision
  else if existsb is_configured_allow matching then Allow
  else if requires_confirmation (classify_tokens tokens) then Prompt else Allow.

Definition evaluate_exact_sha256_candidate (candidate shell_classification : string)
    : option RuleDecision :=
  min_decision (r_decision <$> matching_exact_sha256_rules candidate shell_classification).

Definition evaluate_exact_policy_command_rules (candidate : string) : option RuleDecision :=
  tokenize_shell_words candidate ≫= fun tokens =>
  min_decision (r_decision <$> matching_exact_token_rules tokens).

(** The loop over the candidates; every branch that does not recurse is a [return]. *)
Fixpoint decide_candidates (shell_classification : string) (unsafe : bool) (cwd_trusted : bool)
    (decision : RuleDecision) (candidates : list string) : RuleDecision :=
  match candidates with
  | [] => apply_approval_policy decision cwd_trusted
  | candidate :: rest =>
      let continue d :=
        if bool_decide (decision_min decision d = Forbid) then Forbid
        else decide_candidates shell_classification unsafe cwd_trusted (decision_min decision d) rest in
      match evaluate_exact_sha256_candidate candidate shell_classification with
      | Some exact => continue exact
      | None =>
          if unsafe then
            match evaluate_exact_policy_command_rules candidate with
            | Some exact => continue exact
            | None =>
                if match tokenize_shell_words candidate with
                   | Some tokens => bool_decide (evaluate_tokens tokens = Forbid)
                   | None => false
                   end
                then Forbid
                else decide_candidates shell_classification unsafe cwd_trusted
                       (decision_min decision Prompt) rest
            end
          else
            match tokenize_shell_words candidate with
            | None => apply_approval_policy Prompt cwd_trusted
            | Some tokens => continue (evaluate_tokens tokens)
            end
      end
  end.

Definition evaluate_shell_command_scoped_with_classification (command : string)
    (scopes : option PathScopes) (shell_classification : string) : RuleDecision :=
  if pp_approval_bypass p then Allow
  else
    let cwd_trusted :=
      match scopes with
      | Some s => existsb (cwd_starts_with (ps_current_directory s)) (pp_trusted_directories p)
      | None => false
      end in
    let analysis :=
      analyze_shell_for_dialect command (from_shell_classification shell_classification) in
    match sa_candidates analysis with
    | [] => apply_approval_policy Prompt cwd_trusted
    | candidates =>
        decide_candidates shell_classification (sa_unsafe_syntax analysis) cwd_trusted Allow candidates
    end.

Definition evaluate_candidate_structured (command : string) (unsafe_syntax : bool)
    (shell_classification : string) : CandidateEvaluation :=
  match matching_exact_sha256_rules command shell_classification with
  | (_ :: _) as rules => candidate_evaluation_from_rules command rules unknown_effects
  | [] =>
      let tokens := tokenize_shell_words command in
      if unsafe_syntax then
        match default [] (matching_exact_token_rules <$> tokens) with
        | (_ :: _) as rules => candidate_evaluation_from_rules command rules unknown_effects
        | [] =>
            let matching := default [] (matching_token_rules <$> tokens) in
            mkCandidate command
              (if existsb (fun r => bool_decide (r_decision r = Forbid)) matching
               then Forbid else Prompt)
              (stable_rule_ids matching) unknown_effects None EffectsUnknown
        end
      else
        match tokens with
        | None => mkCandidate command Prompt [] unknown_effects None EffectsUnknown
        | Some tokens =>
            candidate_evaluation_from_rules_with_decision command (matching_token_rules tokens)
              (classify_tokens tokens) (evaluate_tokens tokens)
        end
  end.

Definition evaluate_shell_command_structured_scoped_with_classification (command : string)
    (scopes : option PathScopes) (shell_classification : string) : PermissionEvaluation :=
  let decision :=
    evaluate_shell_command_scoped_with_classification command scopes shell_classification in
  let analysis :=
    analyze_shell_for_dialect command (from_shell_classification shell_classification) in
  let candidates :=
    (fun c => evaluate_candidate_structured c (sa_unsafe_syntax analysis) shell_classification)
      <$> sa_candidates analysis in
  let confinement := aggregate_candidate_confinement_effects candidates in
  mkEvaluation decision candidates (sort_dedup (candidates ≫= ce_matched_rule_ids))
    (aggregate_candidate_effects candidates) confinement (completeness_of confinement).

Definition evaluate_shell_command_scoped (command : string) (scopes : option PathScopes)
    : RuleDecision :=
  evaluate_shell_command_scoped_with_classification command scopes
    DEFAULT_COMMAND_SHELL_CLASSIFICATION.
Definition evaluate_shell_command (command : string) : RuleDecision :=
  evaluate_shell_command_scoped command None.
Definition evaluate_shell_command_in_scope (command : string) (scopes : PathScopes) : RuleDecision :=
  evaluate_shell_command_scoped command (Some scopes).
Definition evaluate_shell_command_for_shell_classification (command shell_classification : string)
    : RuleDecision :=
  evaluate_shell_command_scoped_with_classification command None shell_classification.
Definition evaluate_shell_command_structured (command : string) : PermissionEvaluation :=
  evaluate_shell_command_structured_scoped_with_classification command None
    DEFAULT_COMMAND_SHELL_CLASSIFICATION.
Definition evaluate_shell_command_structured_for_shell_classification
    (command shell_classification : string) : PermissionEvaluation :=
  evaluate_shell_command_structured_scoped_with_classification command None shell_classification.
Definition evaluate_shell_command_structured_in_scope (command : string) (scopes : PathScopes)
    : PermissionEvaluation :=
  evaluate_shell_command_structured_scoped_with_classification command (Some scopes)
    DEFAULT_COMMAND_SHELL_CLASSIFICATION.

(** Rules only, for commands no shell runs. *)
Definition evaluate_policy_command_rules (command : string) : RuleDecision :=
  let analysis := analyze_shell_for_dialect command
                    (from_shell_classification DEFAULT_COMMAND_SHELL_CLASSIFICATION) in
  default Prompt (min_decision
    ((fun c => match tokenize_shell_words c with
               | Some tokens => evaluate_tokens tokens
               | None => Prompt
               end) <$> sa_candidates analysis)).
End Evaluation.
End Policy.
