(* ===== verification/PermApprovals.v ===== *)
(** * Approvals and the live policy ([mez-agent/src/permissions/policy.rs],
    [SessionApprovalStore] of [types.rs])

    Edits of the live policy, the approvals of a session applied to a
    decision, and the queue of blocked requests. *)

From S2P Require Import Prelude RustStr RustBytes RustText PermTypes PermShell Sha256 PermRules PermPolicy.
From Stdlib Require Import Ascii.

(** ** The live policy *)

Definition policy_default : PermissionPolicy := mkPolicy ReadOnly Ask builtin_rules false [].

Definition set_rules (rules : list CommandRule) (p : PermissionPolicy) : PermissionPolicy :=
  mkPolicy (pp_preset p) (pp_approval_policy p) rules (pp_approval_bypass p) (pp_trusted_directories p).
Definition add_rule (r : CommandRule) (p : PermissionPolicy) : PermissionPolicy :=
  set_rules (pp_rules p ++ [r]) p.
Definition set_approval_bypass (active : bool) (p : PermissionPolicy) : PermissionPolicy :=
  mkPolicy (pp_preset p) (pp_approval_policy p) (pp_rules p) active (pp_trusted_directories p).
Definition with_approval_policy (a : ApprovalPolicy) (p : PermissionPolicy) : PermissionPolicy :=
  mkPolicy (pp_preset p) a (pp_rules p) (pp_approval_bypass p) (pp_trusted_directories p).
Definition agent_shell_summary (p : PermissionPolicy) : AgentShellPermissionSummary :=
  mkSummary (pp_preset p) (pp_approval_policy p) (pp_approval_bypass p) (length (pp_rules p)).

Definition remove_rule (rule_id : string) : pmethod PermissionPolicy CommandRule := fun p =>
  match parse_rule_id rule_id with
  | Ok index =>
      if (N.of_nat (length (pp_rules p)) <=? index)%N
      then (p, Err (perm_not_found "command rule not found"))
      else match pp_rules p !! N.to_nat index with
           | Some r =>
               if bool_decide (r_scope r = BuiltIn)
               then (p, Err (perm_invalid_args
                      "built-in command rules cannot be removed from the live policy"))
               else (set_rules (remove_at (N.to_nat index) (pp_rules p)) p, Ok r)
           | None => (p, Panic)
           end
  | Err e => (p, Err e)
  | Panic => (p, Panic)
  end.

(** ** Approvals of a session *)

Definition approvals_default : SessionApprovalStore := mkApprovals 1 [].

(** [self.next_id += 1] panics past [u64::MAX]. *)
Definition decide_prefix (prefix : list string) (scope : ApprovalScope) (d : ApprovalDecision)
    : pmethod SessionApprovalStore string := fun st =>
  match prefix with
  | [] => (st, Err (perm_invalid_args "approval command prefix must not be empty"))
  | _ =>
      let id := "ap" +:+ u64_to_string (sa_next_id st) in
      if (sa_next_id st =? u64_max)%N then (st, Panic)
      else (mkApprovals (sa_next_id st + 1)%N
              (bt_insert id (mkGrant id prefix scope d) (sa_grants st)), Ok id)
  end.

(** [max_by_key]: the last of the greatest entries. *)
Definition later_longest (best : option ApprovalGrant) (g : ApprovalGrant) : option ApprovalGrant :=
  match best with
  | None => Some g
  | Some b => if (length (ag_command_prefix b) <=? length (ag_command_prefix g))%nat
              then Some g else Some b
  end.

Section Approvals.
Context `{Shlex}.

Definition approvals_evaluate (st : SessionApprovalStore) (command : string)
    : option ApprovalDecision :=
  tokenize_single_candidate command ≫= fun tokens =>
  ag_decision <$>
    foldl later_longest None
      (List.filter (fun g => list_starts_with (ag_command_prefix g) tokens) (snd <$> sa_grants st)).

Definition approval_prefix_for_shell_command (command : string) : presult (list string) :=
  ok_or (tokenize_single_candidate command)
    (perm_invalid_args "unable to derive approval prefix from shell command").

Definition classify_shell_command_for_shell_classification (command shell_classification : string)
    : presult (list EffectiveCommandEffects) :=
  let analysis := analyze_shell_for_dialect command (from_shell_classification shell_classification) in
  if sa_unsafe_syntax analysis then Ok [unknown_effects]
  else fold_outcome (fun candidate effects =>
         ok_or (tokenize_shell_words candidate) (perm_invalid_args "unable to tokenize shell command")
           ≫= fun tokens => Ok (effects ++ [classify_tokens tokens]))
         (sa_candidates analysis) [].
Definition classify_shell_command (command : string) : presult (list EffectiveCommandEffects) :=
  classify_shell_command_for_shell_classification command DEFAULT_COMMAND_SHELL_CLASSIFICATION.

Definition evaluate_structured_with_approvals (p : PermissionPolicy) (command : string)
    (approvals : SessionApprovalStore) (scopes : option PathScopes) (shell_classification : string)
    : PermissionEvaluation :=
  let evaluation :=
    evaluate_shell_command_structured_scoped_with_classification p command scopes
      shell_classification in
  let base := ev_decision evaluation in
  let scope_requires_fresh_approval :=
    negb (is_none scopes) && bool_decide (base = Prompt)
    && bool_decide (evaluate_shell_command_scoped_with_classification p command None
                      shell_classification = Allow) in
  set_decision
    match approvals_evaluate approvals command with
    | Some Approve =>
        if bool_decide (base = Prompt) && negb scope_requires_fresh_approval then Allow else base
    | Some Disapprove | Some Redirect => Forbid
    | None => base
    end evaluation.

Definition evaluate_shell_command_with_approvals_scoped (p : PermissionPolicy) (command : string)
    (approvals : SessionApprovalStore) (scopes : option PathScopes) : RuleDecision :=
  ev_decision (evaluate_structured_with_approvals p command approvals scopes
                 DEFAULT_COMMAND_SHELL_CLASSIFICATION).
Definition evaluate_shell_command_with_approvals (p : PermissionPolicy) (command : string)
    (approvals : SessionApprovalStore) : RuleDecision :=
  evaluate_shell_command_with_approvals_scoped p command approvals None.
End Approvals.

(** ** Blocked requests *)

Definition queue_default : BlockedApprovalQueue := mkQueue 1 [].

(** The request as it is stored: a new identity, pending, undecided. *)
Definition fresh_request (id : string) (now : Z) (r : BlockedApprovalRequest) : BlockedApprovalRequest :=
  mkBlocked id (ba_requesting_agent_id r) (ba_pane_id r) (ba_parent_agent_chain r) (ba_action_kind r)
    (ba_action_summary r) (ba_declared_effects r) (ba_matched_rules r) (ba_read_scopes r)
    (ba_write_scopes r) (ba_cooperation_mode r) (Some now) None None Pending None None.

(** The counter that has reached [u64::MAX] is the panic of a build with overflow
    checks; it takes 2^64 calls. *)
Definition create_at (r : BlockedApprovalRequest) (now : Z) : pmethod BlockedApprovalQueue string :=
  fun q =>
  if str_is_empty (ba_requesting_agent_id r) || str_is_empty (ba_pane_id r)
     || str_is_empty (ba_action_kind r) || str_is_empty (ba_action_summary r)
  then (q, Err (perm_invalid_args
         "blocked approval requests require agent, pane, action kind, and summary"))
  else
    let id := "ba" +:+ u64_to_string (bq_next_id q) in
    if (bq_next_id q =? u64_max)%N then (q, Panic)
    else (mkQueue (bq_next_id q + 1)%N (bt_insert id (fresh_request id now r) (bq_requests q)), Ok id).

Definition decided_state (d : ApprovalDecision) : BlockedApprovalState :=
  match d with Approve => Approved | Disapprove => Disapproved | Redirect => Redirected end.

Definition decided (d : ApprovalDecision) (instruction client : option string) (now : Z)
    (r : BlockedApprovalRequest) : BlockedApprovalRequest :=
  mkBlocked (ba_id r) (ba_requesting_agent_id r) (ba_pane_id r) (ba_parent_agent_chain r)
    (ba_action_kind r) (ba_action_summary r) (ba_declared_effects r) (ba_matched_rules r)
    (ba_read_scopes r) (ba_write_scopes r) (ba_cooperation_mode r) (ba_created_at r) (Some now)
    client (decided_state d) (Some d) instruction.

Definition decide_with_client_at (request_id : string) (d : ApprovalDecision)
    (instruction client : option string) (now : Z)
    : pmethod BlockedApprovalQueue BlockedApprovalRequest := fun q =>
  match bt_get request_id (bq_requests q) with
  | None => (q, Err (perm_not_found "approval request not found"))
  | Some r =>
      if negb (bool_decide (ba_state r = Pending))
      then (q, Err (perm_conflict "blocked approval request has already been decided"))
      else if bool_decide (d = Redirect)
              && match instruction with Some i => str_is_empty (trim i) | None => true end
      then (q, Err (perm_invalid_args "redirect decisions require a redirect instruction"))
      else
        let r := decided d instruction client now r in
        (mkQueue (bq_next_id q) (bt_insert request_id r (bq_requests q)), Ok r)
  end.
Definition decide_at (request_id : string) (d : ApprovalDecision) (instruction : option string) (now : Z)
    : pmethod BlockedApprovalQueue BlockedApprovalRequest :=
  decide_with_client_at request_id d instruction None now.

Definition queue_get (q : BlockedApprovalQueue) (request_id : string) : option BlockedApprovalRequest :=
  bt_get request_id (bq_requests q).
Definition pending (q : BlockedApprovalQueue) : list BlockedApprovalRequest :=
  List.filter (fun r => bool_decide (ba_state r = Pending)) (snd <$> bq_requests q).
