(* ===== verification/PermDecisions.v ===== *)
(** * The decision for a command line

    The decision of a command line is the most restrictive one of its
    candidates, built-in rules allow reads only, deny rules only restrict. *)

From S2P Require Import Prelude RustStr RustBytes RustText PermTypes PermShell Sha256 PermRules PermPolicy PermApprovals.
From Stdlib Require Import Ascii.

(** ** The order of decisions *)

Lemma rank_inj a b : rank a = rank b -> a = b.
Proof. by destruct a, b. Qed.

Lemma rank_min a b : rank (decision_min a b) = Nat.min (rank a) (rank b).
Proof. by destruct a, b. Qed.

Lemma decision_min_assoc a b c : decision_min a (decision_min b c) = decision_min (decision_min a b) c.
Proof. by destruct a, b, c. Qed.
Lemma decision_min_comm a b : decision_min a b = decision_min b a.
Proof. by destruct a, b. Qed.
Lemma decision_min_Allow d : decision_min Allow d = d.
Proof. by destruct d. Qed.
Lemma decision_min_Forbid d : decision_min d Forbid = Forbid.
Proof. by destruct d. Qed.
Lemma rank_le_Forbid d : rank d <= rank Forbid -> d = Forbid.
Proof. destruct d; simpl; [done|lia|lia]. Qed.

Lemma foldl_decision_min d l : foldl decision_min d l = decision_min d (foldl decision_min Allow l).
Proof.
  revert d. induction l as [|x l IH]; intros d; simpl; [by destruct d|].
  rewrite IH, (IH (decision_min Allow x)), decision_min_Allow. by rewrite decision_min_assoc.
Qed.

(** The most restrictive decision, [Allow] for an empty list. *)
Definition strictest (l : list RuleDecision) : RuleDecision := foldl decision_min Allow l.

Lemma strictest_cons d l : strictest (d :: l) = decision_min d (strictest l).
Proof. unfold strictest. simpl. by rewrite foldl_decision_min, decision_min_Allow. Qed.

Lemma min_decision_strictest l : l <> [] -> min_decision l = Some (strictest l).
Proof. destruct l as [|d l]; [done|]. intros _. unfold strictest. simpl. by rewrite decision_min_Allow. Qed.

Lemma strictest_le l d : d ∈ l -> rank (strictest l) <= rank d.
Proof.
  induction l as [|x l IH]; [by intros ?%not_elem_of_nil|]. rewrite strictest_cons, rank_min.
  intros [->|H]%elem_of_cons; [lia|]. specialize (IH H). lia.
Qed.

Lemma strictest_Allow l : strictest l = Allow <-> Forall (eq Allow) l.
Proof.
  induction l as [|x l IH]; [done|]. rewrite strictest_cons, Forall_cons, <- IH.
  destruct x, (strictest l); cbv; naive_solver.
Qed.

Lemma strictest_Forbid l : strictest l = Forbid <-> Forbid ∈ l.
Proof.
  induction l as [|x l IH]; [split; [done|by intros ?%not_elem_of_nil]|].
  rewrite strictest_cons, elem_of_cons, <- IH. destruct x, (strictest l); cbv; naive_solver.
Qed.

Lemma strictest_app l k : strictest (l ++ k) = decision_min (strictest l) (strictest k).
Proof.
  induction l as [|x l IH]; [by rewrite decision_min_Allow|].
  simpl. rewrite !strictest_cons, IH. by rewrite decision_min_assoc.
Qed.

(** The strictest decision among rules, [Prompt] without one. *)
Lemma default_min_decision_Forbid rules :
  default Prompt (min_decision (r_decision <$> rules)) = Forbid
  <-> existsb (fun r => bool_decide (r_decision r = Forbid)) rules = true.
Proof.
  rewrite existsb_exists. setoid_rewrite bool_decide_eq_true. setoid_rewrite <- list_elem_of_In.
  destruct rules as [|r rules]; [split; [done|by intros (? & ?%not_elem_of_nil & _)]|].
  rewrite min_decision_strictest by done. cbn [default from_option]. unfold id. rewrite strictest_Forbid.
  rewrite list_elem_of_fmap. split; intros (x & ? & ?); eauto.
Qed.

(** ** One candidate *)

Section Decisions.
Context `{Shlex}.

Lemma evaluate_tokens_Forbid p tokens :
  evaluate_tokens p tokens = Forbid
  <-> existsb (fun r => bool_decide (r_decision r = Forbid)) (matching_token_rules p tokens) = true.
Proof.
  rewrite <- default_min_decision_Forbid. unfold evaluate_tokens.
  set (d := default Prompt _). destruct d; simpl; [done|done|].
  split; [|done]. repeat case_match; done.
Qed.

Lemma from_rules_decision c rules e : rules <> [] ->
  Some (ce_decision (candidate_evaluation_from_rules c rules e)) = min_decision (r_decision <$> rules).
Proof.
  intros Hne. unfold candidate_evaluation_from_rules, candidate_evaluation_from_rules_with_decision.
  destruct (merge_candidate_effects _ _ _). simpl.
  destruct rules as [|r rules]; [done|]. by rewrite min_decision_strictest.
Qed.

Lemma from_rules_with_decision c rules e d :
  ce_decision (candidate_evaluation_from_rules_with_decision c rules e d) = d.
Proof. unfold candidate_evaluation_from_rules_with_decision. by destruct (merge_candidate_effects _ _ _). Qed.

(** The decision of one candidate, as the loop computes it. *)
Definition candidate_decision (p : PermissionPolicy) (unsafe : bool) (cls c : string) : RuleDecision :=
  ce_decision (evaluate_candidate_structured p c unsafe cls).

Lemma candidate_decision_sha p unsafe cls c d :
  evaluate_exact_sha256_candidate p c cls = Some d -> candidate_decision p unsafe cls c = d.
Proof.
  unfold evaluate_exact_sha256_candidate, candidate_decision, evaluate_candidate_structured.
  destruct (matching_exact_sha256_rules p c cls) as [|r rules] eqn:E; [done|].
  rewrite <- (from_rules_decision c (r :: rules) unknown_effects) by done. by intros Hd%Some_inj.
Qed.

Lemma no_sha_match p c cls :
  evaluate_exact_sha256_candidate p c cls = None -> matching_exact_sha256_rules p c cls = [].
Proof. unfold evaluate_exact_sha256_candidate. by destruct (matching_exact_sha256_rules p c cls). Qed.

(** The rules that name the words of a candidate exactly. *)
Lemma candidate_decision_exact p cls c d :
  evaluate_exact_sha256_candidate p c cls = None ->
  evaluate_exact_policy_command_rules p c = Some d -> candidate_decision p true cls c = d.
Proof.
  intros Hs Hd. unfold candidate_decision, evaluate_candidate_structured.
  rewrite (no_sha_match _ _ _ Hs). unfold evaluate_exact_policy_command_rules in Hd.
  destruct (tokenize_shell_words c) as [tokens|]; [|done]. simpl in *.
  destruct (matching_exact_token_rules p tokens) as [|r rules]; [done|].
  rewrite <- (from_rules_decision c (r :: rules) unknown_effects) in Hd by done. by apply Some_inj in Hd.
Qed.

Lemma candidate_decision_unsafe p cls c :
  evaluate_exact_sha256_candidate p c cls = None ->
  evaluate_exact_policy_command_rules p c = None ->
  candidate_decision p true cls c
  = if match tokenize_shell_words c with
       | Some tokens => bool_decide (evaluate_tokens p tokens = Forbid)
       | None => false
       end then Forbid else Prompt.
Proof.
  intros Hs Hd. unfold candidate_decision, evaluate_candidate_structured.
  rewrite (no_sha_match _ _ _ Hs). unfold evaluate_exact_policy_command_rules in Hd.
  destruct (tokenize_shell_words c) as [tokens|]; [|done]. simpl in *.
  destruct (matching_exact_token_rules p tokens) as [|r rules]; [|done].
  simpl. pose proof (evaluate_tokens_Forbid p tokens) as Hf.
  destruct (existsb _ _) eqn:E; case_bool_decide; naive_solver.
Qed.

Lemma candidate_decision_safe p cls c tokens :
  evaluate_exact_sha256_candidate p c cls = None -> tokenize_shell_words c = Some tokens ->
  candidate_decision p false cls c = evaluate_tokens p tokens.
Proof.
  intros Hs Ht. unfold candidate_decision, evaluate_candidate_structured.
  rewrite (no_sha_match _ _ _ Hs), Ht. by rewrite from_rules_with_decision.
Qed.

Lemma candidate_decision_unsplit p cls c :
  evaluate_exact_sha256_candidate p c cls = None -> tokenize_shell_words c = None ->
  candidate_decision p false cls c = Prompt.
Proof.
  intros Hs Ht. unfold candidate_decision, evaluate_candidate_structured.
  by rewrite (no_sha_match _ _ _ Hs), Ht.
Qed.

(** ** The loop over candidates *)

(** A candidate the loop can decide without giving up on the rest. *)
Definition decidable_candidate (p : PermissionPolicy) (unsafe : bool) (cls c : string) : bool :=
  unsafe || negb (is_none (evaluate_exact_sha256_candidate p c cls))
  || negb (is_none (tokenize_shell_words c)).

Lemma apply_Forbid p t : apply_approval_policy p Forbid t = Forbid.
Proof. unfold apply_approval_policy. by rewrite andb_false_r. Qed.

(** One round: a candidate contributes its decision, or ends the loop. *)
Lemma decide_candidates_step p cls unsafe t d c cs : d <> Forbid ->
  decide_candidates p cls unsafe t d (c :: cs)
  = if decidable_candidate p unsafe cls c then
      (if bool_decide (decision_min d (candidate_decision p unsafe cls c) = Forbid) then Forbid
       else decide_candidates p cls unsafe t (decision_min d (candidate_decision p unsafe cls c)) cs)
    else apply_approval_policy p Prompt t.
Proof.
  intros Hd. unfold decidable_candidate. simpl.
  destruct (evaluate_exact_sha256_candidate p c cls) as [e|] eqn:Hs.
  { rewrite (candidate_decision_sha _ _ _ _ _ Hs). by destruct unsafe. }
  destruct unsafe; simpl.
  - destruct (evaluate_exact_policy_command_rules p c) as [e|] eqn:He.
    { by rewrite (candidate_decision_exact _ _ _ _ Hs He). }
    rewrite (candidate_decision_unsafe _ _ _ Hs He).
    destruct (match tokenize_shell_words c with Some _ => _ | None => _ end).
    + rewrite decision_min_Forbid. by rewrite bool_decide_eq_true_2.
    + rewrite bool_decide_eq_false_2; [done|]. by destruct d.
  - destruct (tokenize_shell_words c) as [tokens|] eqn:Ht; [|done].
    by rewrite (candidate_decision_safe _ _ _ _ Hs Ht).
Qed.

(** When no candidate ends the loop early, the result is the strictest decision. *)
Lemma decide_candidates_strictest p cls unsafe t d cs :
  d <> Forbid -> forallb (decidable_candidate p unsafe cls) cs = true ->
  decide_candidates p cls unsafe t d cs
  = apply_approval_policy p (decision_min d (strictest (candidate_decision p unsafe cls <$> cs))) t.
Proof.
  revert d. induction cs as [|c cs IH]; intros d Hd Hc.
  { simpl. f_equal. by destruct d. }
  simpl in Hc. apply andb_true_iff in Hc as [Hc Hcs].
  rewrite decide_candidates_step, Hc by done. rewrite fmap_cons, strictest_cons, decision_min_assoc.
  case_bool_decide as E; [|by rewrite IH].
  rewrite E. by rewrite decision_min_comm, decision_min_Forbid, apply_Forbid.
Qed.

(** Under a mode that asks, a command is allowed only when every candidate is. *)
Lemma decide_candidates_Allow p cls unsafe t d cs :
  bypasses_prompts (pp_approval_policy p) = false -> d <> Forbid ->
  decide_candidates p cls unsafe t d cs = Allow ->
  d = Allow /\ Forall (fun c => candidate_decision p unsafe cls c = Allow) cs.
Proof.
  intros Hb. revert d. induction cs as [|c cs IH]; intros d Hd.
  { simpl. unfold apply_approval_policy. rewrite Hb. simpl. by intros ->. }
  rewrite decide_candidates_step by done.
  destruct (decidable_candidate p unsafe cls c).
  - case_bool_decide as E; [done|]. intros [Hm Hcs]%IH; [|done].
    split; [|constructor; [|done]]; destruct d, (candidate_decision p unsafe cls c); done.
  - unfold apply_approval_policy. by rewrite Hb.
Qed.
End Decisions.

(** ** What an allowed command line is made of *)



(** ** Built-in rules *)

(** A label of the classifier that says a command at most reads files.
    [classify_tokens] labels by the command's name: it sets no [writes],
    [creates], [touches] or [credentials], and it does not look into the scripts
    of sed and awk. *)
Definition labelled_reads_only (e : EffectiveCommandEffects) : Prop :=
  writes e = [] /\ creates e = [] /\ deletes e = [] /\ touches e = [] /\ network e = false
  /\ credentials e = false /\ process_control e = false /\ destructive e = false
  /\ privilege_change e = false /\ unknown e = false.

Lemma no_effects_labelled_reads_only paths : labelled_reads_only (set_reads paths no_effects).
Proof. by repeat split. Qed.

Lemma confirmed_labelled_reads_only tokens :
  requires_confirmation (classify_tokens tokens) = false -> labelled_reads_only (classify_tokens tokens).
Proof.
  destruct tokens as [|command args]; [done|]. unfold classify_tokens.
  repeat match goal with |- context [if ?b then _ else _] => destruct b end;
    intros Hc; first [discriminate Hc | by repeat split].
Qed.

Lemma builtin_scope : forallb (fun r => bool_decide (r_scope r = BuiltIn)) builtin_rules = true.
Proof. vm_compute. reflexivity. Qed.
Lemma builtin_no_sha digest cls : List.filter (exact_sha256_matches digest cls) builtin_rules = [].
Proof. reflexivity. Qed.
Lemma builtin_exact tokens :
  List.filter (is_exact_match tokens) builtin_rules <> [] -> tokens = ["pwd"] \/ tokens = ["hostname"].
Proof.
  intros Hne. destruct (decide (tokens = ["pwd"])) as [|Hp]; [by left|].
  destruct (decide (tokens = ["hostname"])) as [|Hh]; [by right|]. exfalso. apply Hne.
  unfold is_exact_match. cbn. rewrite !bool_decide_eq_false_2; done.
Qed.

Lemma no_configured_builtin tokens :
  existsb is_configured_allow (List.filter (rule_matches tokens) builtin_rules) = false.
Proof.
  apply not_true_iff_false. rewrite existsb_exists. intros (r & [Hr _]%filter_In & Ha).
  pose proof (proj1 (forallb_forall _ _) builtin_scope r Hr) as Hs. simpl in Hs.
  unfold is_configured_allow in Ha. rewrite Hs in Ha. by rewrite andb_false_r in Ha.
Qed.

Section Builtin.
Context `{Shlex} (p : PermissionPolicy).
Hypothesis Hrules : pp_rules p = builtin_rules.

(** A candidate whose words an allowing built-in rule accepts, with its arguments,
    and the classifier labels as reading at most. *)
Definition read_candidate (c : string) : Prop :=
  exists tokens r, tokenize_shell_words c = Some tokens /\ labelled_reads_only (classify_tokens tokens)
    /\ In r builtin_rules /\ r_decision r = Allow /\ rule_matches tokens r = true.

Lemma allowed_tokens_read c tokens :
  tokenize_shell_words c = Some tokens -> evaluate_tokens p tokens = Allow -> read_candidate c.
Proof.
  intros Ht. unfold evaluate_tokens, matching_token_rules. rewrite Hrules.
  rewrite no_configured_builtin.
  destruct (List.filter (rule_matches tokens) builtin_rules) as [|r rs] eqn:E; [done|].
  rewrite min_decision_strictest by done. cbn [default from_option]. unfold id.
  case_bool_decide as Hd; cbn [negb]; [|intros Hx; by destruct (Hd Hx)].
  destruct (requires_confirmation _) eqn:Hc; [done|]. intros _.
  assert (Hr : In r (r :: rs)) by (by left). rewrite <- E in Hr. apply filter_In in Hr as [Hr Hm].
  exists tokens, r. split; [done|]. split; [by apply confirmed_labelled_reads_only|].
  split; [done|]. split; [|done]. apply strictest_Allow in Hd. by inversion Hd.
Qed.

Lemma exact_tokens_read c tokens : tokenize_shell_words c = Some tokens ->
  tokens = ["pwd"] \/ tokens = ["hostname"] -> read_candidate c.
Proof.
  intros Ht Hp.
  destruct Hp as [->| ->];
    [exists ["pwd"], (mkRule None ["pwd"] Allow Exact NoArguments BuiltIn None None)
    |exists ["hostname"], (mkRule None ["hostname"] Allow Exact NoArguments BuiltIn None None)];
    (split; [done|]; split; [by repeat split|]; split; [vm_compute; tauto|done]).
Qed.

Lemma builtin_sha_none cls c : evaluate_exact_sha256_candidate p c cls = None.
Proof.
  unfold evaluate_exact_sha256_candidate, matching_exact_sha256_rules. rewrite Hrules.
  generalize (exact_command_sha256 cls (normalize_exact_command_text c false)). intros digest.
  by rewrite builtin_no_sha.
Qed.

Lemma builtin_exact_read c d : evaluate_exact_policy_command_rules p c = Some d -> read_candidate c.
Proof.
  unfold evaluate_exact_policy_command_rules, matching_exact_token_rules. rewrite Hrules.
  destruct (tokenize_shell_words c) as [tokens|] eqn:Ht; [|done]. intros He.
  apply (exact_tokens_read c tokens Ht), builtin_exact. revert He. rewrite bind_Some.
  intros (t & [= <-] & He). destruct (List.filter _ _); [done|]. by intros ?.
Qed.

Lemma allowed_candidate_reads unsafe cls c :
  candidate_decision p unsafe cls c = Allow -> read_candidate c.
Proof.
  pose proof (builtin_sha_none cls c) as Hs. destruct unsafe.
  - destruct (evaluate_exact_policy_command_rules p c) as [d|] eqn:He.
    + intros _. by eapply builtin_exact_read.
    + rewrite (candidate_decision_unsafe _ _ _ Hs He). by case_match.
  - destruct (tokenize_shell_words c) as [tokens|] eqn:Ht.
    + rewrite (candidate_decision_safe _ _ _ _ Hs Ht). by apply allowed_tokens_read.
    + by rewrite (candidate_decision_unsplit _ _ _ Hs Ht).
Qed.
End Builtin.

(** ** Deny rules *)

Section Deny.
Context `{Shlex} (p : PermissionPolicy) (r : CommandRule).
Hypothesis Hdeny : r_decision r = Forbid.

Lemma filter_add_rule (f : CommandRule -> bool) :
  List.filter f (pp_rules (add_rule r p)) = List.filter f (pp_rules p) ++ (if f r then [r] else []).
Proof. simpl. rewrite List.filter_app. simpl. done. Qed.

(** The strictest decision among the matching rules, after the deny rule is added. *)
Lemma min_decision_add (f : CommandRule -> bool) :
  min_decision (r_decision <$> List.filter f (pp_rules (add_rule r p)))
  = if f r then Some Forbid else min_decision (r_decision <$> List.filter f (pp_rules p)).
Proof.
  rewrite filter_add_rule. destruct (f r); [|by rewrite app_nil_r].
  rewrite fmap_app. cbn [fmap list_fmap]. rewrite Hdeny.
  rewrite min_decision_strictest by (by destruct (_ <$> List.filter f (pp_rules p))).
  rewrite strictest_app. by rewrite decision_min_Forbid.
Qed.

Lemma evaluate_tokens_add tokens :
  evaluate_tokens (add_rule r p) tokens
  = if rule_matches tokens r then Forbid else evaluate_tokens p tokens.
Proof.
  unfold evaluate_tokens, matching_token_rules. rewrite min_decision_add.
  destruct (rule_matches tokens r) eqn:E; [done|].
  by rewrite filter_add_rule, E, app_nil_r.
Qed.

Lemma evaluate_sha_add c cls :
  evaluate_exact_sha256_candidate (add_rule r p) c cls = Some Forbid
  \/ evaluate_exact_sha256_candidate (add_rule r p) c cls = evaluate_exact_sha256_candidate p c cls.
Proof.
  unfold evaluate_exact_sha256_candidate, matching_exact_sha256_rules. rewrite min_decision_add.
  by destruct (exact_sha256_matches _ _ r); [left|right].
Qed.

Lemma evaluate_exact_add c :
  evaluate_exact_policy_command_rules (add_rule r p) c = Some Forbid
  \/ evaluate_exact_policy_command_rules (add_rule r p) c = evaluate_exact_policy_command_rules p c.
Proof.
  unfold evaluate_exact_policy_command_rules, matching_exact_token_rules.
  destruct (tokenize_shell_words c) as [tokens|]; [|by right]. cbv beta iota delta [mbind option_bind].
  rewrite min_decision_add. by destruct (is_exact_match tokens r); [left|right].
Qed.

Lemma rank_Forbid d : rank Forbid <= rank d.
Proof. simpl. lia. Qed.

(** No candidate becomes more permissive. *)
Lemma candidate_decision_add unsafe cls c :
  rank (candidate_decision (add_rule r p) unsafe cls c) <= rank (candidate_decision p unsafe cls c).
Proof.
  destruct (evaluate_sha_add c cls) as [Hs|Hs].
  { rewrite (candidate_decision_sha _ _ _ _ _ Hs). apply rank_Forbid. }
  destruct (evaluate_exact_sha256_candidate p c cls) as [d|] eqn:Hp.
  { by rewrite (candidate_decision_sha _ _ _ _ _ Hs), (candidate_decision_sha _ _ _ _ _ Hp). }
  destruct unsafe.
  - destruct (evaluate_exact_add c) as [He|He].
    { rewrite (candidate_decision_exact _ _ _ _ Hs He). apply rank_Forbid. }
    destruct (evaluate_exact_policy_command_rules p c) as [d|] eqn:Hq.
    { by rewrite (candidate_decision_exact _ _ _ _ Hs He), (candidate_decision_exact _ _ _ _ Hp Hq). }
    rewrite (candidate_decision_unsafe _ _ _ Hs He), (candidate_decision_unsafe _ _ _ Hp Hq).
    destruct (tokenize_shell_words c) as [tokens|]; [|done]. rewrite evaluate_tokens_add.
    destruct (rule_matches tokens r); [apply rank_Forbid|done].
  - destruct (tokenize_shell_words c) as [tokens|] eqn:Ht.
    + rewrite (candidate_decision_safe _ _ _ _ Hs Ht), (candidate_decision_safe _ _ _ _ Hp Ht).
      rewrite evaluate_tokens_add. destruct (rule_matches tokens r); [apply rank_Forbid|done].
    + by rewrite (candidate_decision_unsplit _ _ _ Hs Ht), (candidate_decision_unsplit _ _ _ Hp Ht).
Qed.

(** A candidate that ends the loop still does, or is denied. *)
Lemma decidable_candidate_add unsafe cls c :
  candidate_decision (add_rule r p) unsafe cls c = Forbid
  \/ decidable_candidate (add_rule r p) unsafe cls c = decidable_candidate p unsafe cls c.
Proof.
  unfold decidable_candidate. destruct (evaluate_sha_add c cls) as [Hs|Hs]; rewrite Hs; [|by right].
  left. by apply candidate_decision_sha.
Qed.

Lemma apply_policy_mono d d' t :
  rank d' <= rank d ->
  rank (apply_approval_policy (add_rule r p) d' t) <= rank (apply_approval_policy p d t).
Proof.
  unfold apply_approval_policy. simpl. destruct (bypasses_prompts _); [|done].
  destruct d, d'; simpl; lia.
Qed.

Lemma decide_candidates_add unsafe cls t cs d d' :
  d <> Forbid -> d' <> Forbid -> rank d' <= rank d ->
  rank (decide_candidates (add_rule r p) cls unsafe t d' cs) <= rank (decide_candidates p cls unsafe t d cs).
Proof.
  revert d d'. induction cs as [|c cs IH]; intros d d' Hd Hd' Hle; [by apply apply_policy_mono|].
  rewrite !decide_candidates_step by done.
  pose proof (candidate_decision_add unsafe cls c) as Hc.
  set (m := decision_min d (candidate_decision p unsafe cls c)).
  set (m' := decision_min d' (candidate_decision (add_rule r p) unsafe cls c)).
  assert (Hm : rank m' <= rank m) by (subst m m'; rewrite !rank_min; lia).
  destruct (decidable_candidate_add unsafe cls c) as [Hf|Heq].
  - destruct (decidable_candidate (add_rule r p) unsafe cls c) eqn:Hdec.
    + rewrite bool_decide_eq_true_2; [apply rank_Forbid|].
      subst m'. by rewrite Hf, decision_min_Forbid.
    + unfold candidate_decision, evaluate_candidate_structured in Hf.
      unfold decidable_candidate in Hdec.
      destruct unsafe; [done|].
      destruct (evaluate_exact_sha256_candidate _ c cls) eqn:Hs; [done|].
      destruct (tokenize_shell_words c) eqn:Ht; [done|].
      by rewrite (no_sha_match _ _ _ Hs) in Hf.
  - rewrite Heq. destruct (decidable_candidate p unsafe cls c); [|by apply apply_policy_mono].
    destruct (decide (m' = Forbid)) as [H1|H1].
    + rewrite (bool_decide_eq_true_2 _ H1). apply rank_Forbid.
    + assert (H2 : m <> Forbid) by (intros H2; rewrite H2 in Hm; by apply rank_le_Forbid in Hm).
      rewrite (bool_decide_eq_false_2 _ H1), (bool_decide_eq_false_2 _ H2). by apply IH.
Qed.
End Deny.
