(* ===== verification/PermRecords.v ===== *)
(** * Rule records survive storage

    Escaping and splitting of fields are inverse, so are the text forms of
    every part of a rule, a rule record, and a whole store. *)

From S2P Require Import Prelude RustStr RustBytes RustText PermTypes PermShell Sha256 PermRules PermPolicy PermApprovals PermDecisions.
From Stdlib Require Import Ascii.

(** ** Fields *)

Lemma replace_char_app c t s u :
  replace_char c t (s +:+ u) = replace_char c t s +:+ replace_char c t u.
Proof. induction s as [|a s IH]; simpl; [done|]. by rewrite IH, str_app_assoc. Qed.

(** What one character becomes. *)
Definition escape_char (a : ascii) : string :=
  if (a =? BACKSLASH)%char then String BACKSLASH (String BACKSLASH EmptyString)
  else if (a =? TAB)%char then String BACKSLASH "t"
  else if (a =? NL)%char then String BACKSLASH "n"
  else String a EmptyString.

Lemma escape_cons a v : escape_record_field (String a v) = escape_char a +:+ escape_record_field v.
Proof.
  unfold escape_record_field, escape_char. cbn [replace_char].
  rewrite !replace_char_app.
  destruct (Ascii.eqb_spec a BACKSLASH) as [->|H1]; [done|].
  cbn [replace_char]. rewrite !replace_char_app.
  destruct (Ascii.eqb_spec a TAB) as [->|H2]; [done|].
  cbn [replace_char]. destruct (Ascii.eqb_spec a NL) as [->|H3]; [done|].
  cbn [replace_char]. by rewrite (proj2 (Ascii.eqb_neq a NL) H3) || done.
Qed.

Lemma split_fields_escaped a rest fields current :
  split_fields (escape_char a +:+ rest) fields current false
  = split_fields rest fields (push_char current a) false.
Proof.
  unfold escape_char.
  destruct (Ascii.eqb_spec a BACKSLASH) as [->|H1]; [done|].
  destruct (Ascii.eqb_spec a TAB) as [->|H2]; [done|].
  destruct (Ascii.eqb_spec a NL) as [->|H3]; [done|]. simpl.
  by rewrite (proj2 (Ascii.eqb_neq _ _) H1), (proj2 (Ascii.eqb_neq _ _) H2).
Qed.

Lemma push_char_app current a v : push_char current a +:+ v = current +:+ String a v.
Proof. unfold push_char. by rewrite <- str_app_assoc. Qed.

Lemma split_fields_field v rest fields current :
  split_fields (escape_record_field v +:+ rest) fields current false
  = split_fields rest fields (current +:+ v) false.
Proof.
  revert current. induction v as [|a v IH]; intros current; [by rewrite str_app_nil_r|].
  rewrite escape_cons, <- str_app_assoc, split_fields_escaped, IH. by rewrite push_char_app.
Qed.

Lemma split_fields_join fs fields : fs <> [] ->
  split_fields (join (String TAB EmptyString) (escape_record_field <$> fs)) fields EmptyString false
  = fields ++ fs.
Proof.
  revert fields. induction fs as [|f fs IH]; intros fields Hne; [done|].
  destruct fs as [|f' fs].
  - cbn [fmap list_fmap join]. rewrite <- (str_app_nil_r (escape_record_field f)), split_fields_field. done.
  - rewrite fmap_cons, join_cons by done. rewrite split_fields_field.
    cbn [String.app split_fields]. rewrite IH by done. by rewrite <- app_assoc.
Qed.

Lemma split_record_join fs : fs <> [] ->
  split_record_fields (join (String TAB EmptyString) (escape_record_field <$> fs)) = fs.
Proof. apply split_fields_join. Qed.

Lemma escape_no_newline v : contains_char NL (escape_record_field v) = false.
Proof.
  induction v as [|a v IH]; [done|]. rewrite escape_cons, contains_app, IH, orb_false_r.
  unfold escape_char.
  destruct (Ascii.eqb_spec a BACKSLASH); [done|]. destruct (Ascii.eqb_spec a TAB); [done|].
  destruct (Ascii.eqb_spec a NL) as [|H]; [done|]. simpl. by rewrite (proj2 (Ascii.eqb_neq _ _) H).
Qed.

Lemma join_no_newline fs :
  contains_char NL (join (String TAB EmptyString) (escape_record_field <$> fs)) = false.
Proof.
  induction fs as [|f fs IH]; [done|]. destruct fs as [|f' fs]; [by apply escape_no_newline|].
  rewrite fmap_cons, join_cons by done. by rewrite !contains_app, escape_no_newline, IH.
Qed.

(** ** The parts of a rule *)

Lemma parse_scope_name sc : parse_scope (scope_name sc) = Ok sc.
Proof. by destruct sc. Qed.
Lemma parse_decision_name d : parse_decision (decision_name d) = Ok d.
Proof. by destruct d. Qed.

Definition match_wf (m : RuleMatch) : bool :=
  match m with
  | ExactSha256 digest cls =>
      is_ok (validate_sha256_hex digest) && is_ok (validate_shell_classification cls)
  | _ => true
  end.

Lemma validate_Ok {A} (r : presult A) : is_ok r = true -> exists a, r = Ok a.
Proof. destruct r; eauto; done. Qed.

Lemma strip_prefix_self p s : strip_prefix p (p +:+ s) = Some s.
Proof. by apply strip_prefix_Some. Qed.

Lemma parse_match_value m : match_wf m = true -> parse_match (match_record_value m) = Ok m.
Proof.
  destruct m as [| |digest cls]; [done..|]. simpl match_wf.
  intros [[[] Hd]%validate_Ok [[] Hc]%validate_Ok]%andb_true_iff.
  assert (Hn : contains_char ":" cls = false).
  { unfold validate_shell_classification in Hc. destruct (str_is_empty cls); [done|].
    destruct (all_bytes shell_classification_byte cls) eqn:Hb; [|done].
    by apply (all_bytes_contains shell_classification_byte). }
  unfold parse_match, match_record_value, starts_with.
  change (after_char ":" ("exact_sha256:" +:+ cls +:+ ":" +:+ digest)) with (cls +:+ String ":" digest).
  rewrite strip_prefix_self, before_char_app, after_char_app, Hc, Hd by done. done.
Qed.

Definition option_wf (o : string) : Prop := str_is_empty o = false /\ contains_char "," o = false.
Definition argument_policy_wf (p : ArgumentPolicy) : Prop :=
  match p with
  | ExecutableProbe o | ReadPaths o | ScriptThenReadPaths o => Forall option_wf o
  | GitReadOnly subcommand => is_git_read_only_subcommand subcommand = true
  | _ => True
  end.

Lemma split_options_join o : Forall option_wf o -> split_policy_options (join "," o) = o.
Proof.
  intros Ho. unfold split_policy_options. destruct o as [|x o]; [done|].
  rewrite split_join; [|done|by eapply Forall_impl; [exact Ho|intros y []]].
  induction Ho as [|y l [Hy _] Hl IH]; [done|]. simpl. by rewrite Hy, IH.
Qed.

Lemma parse_argument_policy_record p :
  argument_policy_wf p -> parse_argument_policy (argument_policy_record p) = Ok p.
Proof.
  destruct p as [|o| | |o|o| |sub]; simpl argument_policy_wf; intros Hp; try done;
    unfold parse_argument_policy, argument_policy_record.
  1-3: pose proof (split_options_join o Hp) as Ho; revert Ho; generalize (join "," o);
    intros t Ht; cbn -[split_policy_options]; by rewrite Ht.
  cbn. unfold validate_git_read_only_subcommand. by rewrite Hp.
Qed.

(** ** Records *)

(** What the format can carry; [encode_rule_record] checks none of it.  Pattern
    words hold no separator U+001F; options are not empty and hold no comma; the
    match and the git subcommand are ones the parser accepts; a justification is
    not empty; id and declared effects are ones the builder accepts. *)
Record rule_wf (r : CommandRule) : Prop := {
  wf_pattern : r_pattern r <> [];
  wf_words : Forall (fun w => contains_char US w = false) (r_pattern r);
  wf_match : match_wf (r_match r) = true;
  wf_policy : argument_policy_wf (r_argument_policy r);
  wf_justification : r_justification r <> Some EmptyString;
  wf_id : forall id, r_id r = Some id -> is_ok (with_id id r) = true;
  wf_effects : forall e, r_declared_effects r = Some e -> is_ok (with_declared_effects e r) = true }.

(** What the code relies on from [serde_json]: a value it wrote is read back,
    and its text ends with the brace that closes the object. *)
Class EffectsJsonLaws `{EffectsJson} : Prop :=
  json_round_trip : forall e, exists body,
    effects_to_json e = Some (body +:+ "}") /\ effects_from_json (body +:+ "}") = Some e.

Section RoundTrip.
Context `{EffectsJsonLaws}.

Lemma with_id_Ok id r : is_ok (with_id id r) = true ->
  str_is_empty id = false
  /\ forall r', with_id id r' = Ok (mkRule (Some id) (r_pattern r') (r_decision r') (r_match r')
                                      (r_argument_policy r') (r_scope r') (r_justification r')
                                      (r_declared_effects r')).
Proof.
  unfold with_id. destruct (str_is_empty id); [done|]. simpl.
  destruct (_ || _); [done|]. done.
Qed.

Lemma with_effects_Ok e r : is_ok (with_declared_effects e r) = true ->
  forall r', r_decision r' = r_decision r ->
    with_declared_effects e r' = Ok (mkRule (r_id r') (r_pattern r') (r_decision r') (r_match r')
                                       (r_argument_policy r') (r_scope r') (r_justification r') (Some e)).
Proof.
  unfold with_declared_effects. intros Hok r' Hd. rewrite Hd. by repeat destruct (if _ then _ else _) || case_match.
Qed.

Lemma decode_head_fields r : rule_wf r ->
  decode_head (scope_name (r_scope r)) (decision_name (r_decision r)) (match_record_value (r_match r))
    (argument_policy_record (r_argument_policy r)) (join (String US EmptyString) (r_pattern r))
    (default EmptyString (r_justification r))
  = Ok (mkRule None (r_pattern r) (r_decision r) (r_match r) (r_argument_policy r) (r_scope r)
          (r_justification r) None).
Proof.
  intros Hr. unfold decode_head. rewrite parse_scope_name, parse_decision_name.
  rewrite (parse_match_value _ (wf_match r Hr)), (parse_argument_policy_record _ (wf_policy r Hr)).
  cbv beta iota delta [mbind outcome_bind].
  rewrite (split_join _ _ (wf_pattern r Hr) (wf_words r Hr)).
  pose proof (wf_pattern r Hr) as Hp. pose proof (wf_justification r Hr) as Hj.
  destruct (r_pattern r) as [|w ws]; [done|].
  destruct (r_justification r) as [[|a j]|]; done.
Qed.

Lemma decode_tail_fields r : rule_wf r ->
  decode_tail (default EmptyString (r_id r))
    (default EmptyString (r_declared_effects r ≫= effects_to_json))
    (mkRule None (r_pattern r) (r_decision r) (r_match r) (r_argument_policy r) (r_scope r)
       (r_justification r) None)
  = Ok r.
Proof.
  intros Hr. unfold decode_tail.
  set (r0 := mkRule None _ _ _ _ _ _ _).
  assert (Hid : (if str_is_empty (default EmptyString (r_id r)) then Ok r0
                 else with_id (default EmptyString (r_id r)) r0)
                = Ok (mkRule (r_id r) (r_pattern r) (r_decision r) (r_match r) (r_argument_policy r)
                        (r_scope r) (r_justification r) None)).
  { pose proof (wf_id r Hr) as Hi. destruct (r_id r) as [id|]; [|done].
    destruct (with_id_Ok id r (Hi id eq_refl)) as [He Hw]. simpl. rewrite He. by rewrite Hw. }
  rewrite Hid. cbv beta iota delta [mbind outcome_bind]. clear Hid.
  pose proof (wf_effects r Hr) as He.
  destruct r as [rid pat d m ap sc j [e|]]; [|done]. simpl in *.
  destruct (json_round_trip e) as (body & -> & Hb). simpl.
  destruct (body +:+ "}") as [|a s] eqn:E; [by destruct body|]. simpl. rewrite Hb. simpl.
  by rewrite (with_effects_Ok e _ (He e eq_refl)).
Qed.

Lemma decode_encode_record r : rule_wf r -> decode_rule_record (encode_rule_record r) = Ok r.
Proof.
  intros Hr. unfold decode_rule_record, encode_rule_record. rewrite split_record_join by done.
  unfold rule_fields. rewrite (decode_head_fields r Hr).
  cbv beta iota delta [mbind outcome_bind]. by apply decode_tail_fields.
Qed.

(** ** Lines *)

(** The last field of a record. *)
Lemma join_last fs f : join (String TAB EmptyString) (escape_record_field <$> (fs ++ [f]))
  = match fs with [] => EmptyString
    | _ => join (String TAB EmptyString) (escape_record_field <$> fs) +:+ String TAB EmptyString end
    +:+ escape_record_field f.
Proof.
  induction fs as [|g fs IH]; [done|]. destruct fs as [|g' fs]; [by rewrite <- str_app_assoc|].
  change ((g :: g' :: fs) ++ [f]) with (g :: ((g' :: fs) ++ [f])).
  rewrite !fmap_cons, join_cons, IH by (by destruct fs).
  rewrite join_cons by done. by rewrite !str_app_assoc.
Qed.

Lemma escape_app u v : escape_record_field (u +:+ v) = escape_record_field u +:+ escape_record_field v.
Proof.
  induction u as [|a u IH]; [done|].
  change (String a u +:+ v) with (String a (u +:+ v)). by rewrite !escape_cons, IH, str_app_assoc.
Qed.

Lemma encode_record_last r :
  let head := [scope_name (r_scope r); decision_name (r_decision r); match_record_value (r_match r);
               argument_policy_record (r_argument_policy r);
               join (String US EmptyString) (r_pattern r);
               default EmptyString (r_justification r); default EmptyString (r_id r)] in
  encode_rule_record r
  = (join (String TAB EmptyString) (escape_record_field <$> head) +:+ String TAB EmptyString)
    +:+ escape_record_field (default EmptyString (r_declared_effects r ≫= effects_to_json)).
Proof. intros head. unfold encode_rule_record. exact (join_last head _). Qed.

Lemma record_plain_line r : plain_line (encode_rule_record r).
Proof.
  split; [apply join_no_newline|]. rewrite encode_record_last.
  generalize (join (String TAB EmptyString) (escape_record_field <$>
    [scope_name (r_scope r); decision_name (r_decision r); match_record_value (r_match r);
     argument_policy_record (r_argument_policy r); join (String US EmptyString) (r_pattern r);
     default EmptyString (r_justification r); default EmptyString (r_id r)])). intros s.
  destruct (r_declared_effects r) as [e|].
  - destruct (json_round_trip e) as (body & He & _). cbn [mbind option_bind]. rewrite He. simpl default.
    rewrite escape_app. exists ((s +:+ String TAB EmptyString) +:+ escape_record_field body), "}"%char.
    split; [|done]. by rewrite str_app_assoc.
  - exists s, TAB. split; [|done]. simpl. by rewrite str_app_nil_r.
Qed.

(** A record starts with a scope name, all of which contain an [e] or an [s]. *)
Lemma record_not_blank r : str_is_empty (trim (encode_rule_record r)) = false.
Proof.
  assert (Hc : forall c, contains_char c (scope_name (r_scope r)) = true ->
    c <> BACKSLASH -> c <> TAB -> c <> NL -> contains_char c (encode_rule_record r) = true).
  { intros c Hc H1 H2 H3. unfold encode_rule_record, rule_fields.
    rewrite fmap_cons, join_cons, contains_app by done.
    apply orb_true_iff. left. revert Hc. generalize (scope_name (r_scope r)). intros s.
    induction s as [|a s IH]; [done|]. rewrite escape_cons, contains_app.
    rewrite contains_cons. intros [->%Ascii.eqb_eq|Hs]%orb_true_iff; [|by rewrite (IH Hs), orb_true_r].
    unfold escape_char. rewrite !(proj2 (Ascii.eqb_neq _ _)) by done. simpl. by rewrite Ascii.eqb_refl. }
  destruct (r_scope r) eqn:E;
    [apply (contains_not_empty "b") | apply (contains_not_empty "s") | apply (contains_not_empty "p")
    | apply (contains_not_empty "u") | apply (contains_not_empty "m")];
    (rewrite trim_contains by reflexivity; apply Hc; [by rewrite ?E|done..]).
Qed.

Lemma decode_lines_records rs st :
  Forall rule_wf rs -> Forall (fun r => r_scope r <> BuiltIn) rs ->
  decode_lines (encode_rule_record <$> rs) st = Ok (mkRuleStore (rs_rules st ++ rs)).
Proof.
  revert st. induction rs as [|r rs IH]; intros st Hwf Hsc; [by destruct st; simpl; rewrite app_nil_r|].
  inversion Hwf as [|? ? Hr Hrs]; inversion Hsc as [|? ? Hb Hbs]; subst.
  rewrite fmap_cons. cbn [decode_lines]. rewrite record_not_blank, decode_encode_record by done.
  cbv beta iota delta [mbind outcome_bind]. unfold store_add. rewrite bool_decide_eq_false_2 by done.
  rewrite IH by done. simpl. by rewrite <- app_assoc.
Qed.

Lemma store_round_trip st :
  Forall rule_wf (rs_rules st) -> Forall (fun r => r_scope r <> BuiltIn) (rs_rules st) ->
  store_decode (store_encode st) = Ok st.
Proof.
  intros Hwf Hsc. unfold store_decode, store_encode. rewrite lines_join.
  - rewrite decode_lines_records by done. by destruct st.
  - apply Forall_fmap. apply Forall_true. intros r. apply record_plain_line.
Qed.
End RoundTrip.

(** * Exact command rules

    The digest is always 64 hexadecimal characters over whole blocks, the
    hashed bytes determine shell and text, and a rule made for a command
    decides that command. *)

(** ** Padding *)

Lemma pad_zeros_length fuel m j :
  j <= fuel -> (length m + j) mod 64 = 56 -> length (pad_zeros fuel m) mod 64 = 56.
Proof.
  revert m j. induction fuel as [|fuel IH]; intros m j Hj Hm; cbn [pad_zeros];
    destruct (Nat.eqb_spec (length m mod 64) 56) as [E|E]; [exact E| |exact E|].
  - assert (j = 0) as -> by lia. by rewrite Nat.add_0_r in Hm.
  - destruct j as [|j]; [by rewrite Nat.add_0_r in Hm|].
    apply (IH _ j); [lia|]. rewrite length_app. cbn [length].
    by replace (length m + 1 + j) with (length m + S j) by lia.
Qed.

Lemma reach_56 n : exists j, j <= 63 /\ (n + j) mod 64 = 56.
Proof.
  pose proof (Nat.div_mod_eq n 64). pose proof (Nat.mod_upper_bound n 64).
  destruct (decide (n mod 64 <= 56)).
  - exists (56 - n mod 64). split; [lia|].
    replace (n + (56 - n mod 64)) with (56 + (n / 64) * 64) by lia. by rewrite Nat.Div0.mod_add.
  - exists (120 - n mod 64). split; [lia|].
    replace (n + (120 - n mod 64)) with (56 + (n / 64 + 1) * 64) by lia. by rewrite Nat.Div0.mod_add.
Qed.

(** The padding loop always ends on a block boundary. *)
Lemma pad_whole_blocks input : length (pad input) mod 64 = 0.
Proof.
  unfold pad. rewrite length_app. destruct (reach_56 (length (input ++ [128%Z]))) as (j & Hj & Hm).
  pose proof (pad_zeros_length 63 _ j Hj Hm) as H. revert H.
  generalize (length (pad_zeros 63 (input ++ [128%Z]))). intros k H.
  change (length (u64_to_be_bytes _)) with 8. by rewrite Nat.Div0.add_mod, H.
Qed.

(** ** The digest *)

Lemma foldl_compress_length h bs : length h = 8 -> length (foldl compress h bs) = 8.
Proof. revert h. induction bs as [|b bs IH]; intros h Hh; [done|]. simpl. by apply IH. Qed.

Lemma to_be_bytes_range x : Forall (fun b => (0 <= b < 256)%Z) (u32_to_be_bytes x).
Proof.
  unfold u32_to_be_bytes. change 255%Z with (Z.ones 8).
  repeat (constructor; [rewrite Z.land_ones by lia; apply Z.mod_pos_bound; lia|]). constructor.
Qed.

Lemma be_bytes_length l : length (l ≫= u32_to_be_bytes) = 4 * length l.
Proof. induction l as [|x l IH]; [done|]. rewrite bind_cons, length_app, IH. cbn [length u32_to_be_bytes]. lia. Qed.

Lemma sha256_bytes input :
  length (sha256 input) = 32 /\ Forall (fun b => (0 <= b < 256)%Z) (sha256 input).
Proof.
  unfold sha256. split.
  - by rewrite be_bytes_length, foldl_compress_length.
  - apply Forall_bind, Forall_true. intros x. apply to_be_bytes_range.
Qed.

Lemma hex_digit_hex n : (0 <= n < 16)%Z -> is_ascii_hexdigit (hex_digit n) = true.
Proof.
  intros Hn. assert (Hc : In (Z.to_nat n) (seq 0 16)) by (apply in_seq; lia).
  rewrite <- (Z2Nat.id n) by lia. revert Hc. generalize (Z.to_nat n). intros k Hk.
  repeat (destruct Hk as [<-|Hk]; [reflexivity|]). done.
Qed.

Lemma hex_string_valid l : Forall (fun b => (0 <= b < 256)%Z) l ->
  String.length (hex_string l) = 2 * length l /\ all_bytes is_ascii_hexdigit (hex_string l) = true.
Proof.
  induction 1 as [|b l Hb Hl [IH1 IH2]]; [done|]. simpl. split; [lia|].
  rewrite !hex_digit_hex; [done| |].
  - change 15%Z with (Z.ones 4). rewrite Z.land_ones by lia. apply Z.mod_pos_bound. lia.
  - rewrite Z.shiftr_div_pow2 by lia. change (2 ^ 4)%Z with 16%Z. split; [apply Z.div_pos; lia|].
    apply Z.div_lt_upper_bound; lia.
Qed.

Lemma sha256_hex_valid input : validate_sha256_hex (sha256_hex input) = Ok tt.
Proof.
  destruct (sha256_bytes input) as [Hl Hr]. destruct (hex_string_valid _ Hr) as [H1 H2].
  unfold validate_sha256_hex, sha256_hex. by rewrite H1, Hl, H2.
Qed.

(** ** The hashed bytes *)

Lemma bytes_of_inj s t : bytes_of s = bytes_of t -> s = t.
Proof.
  revert t. induction s as [|a s IH]; intros [|b t]; simpl; try done.
  intros [= Hab Hst]. f_equal; [|by apply IH].
  rewrite <- (ascii_N_embedding a), <- (ascii_N_embedding b). f_equal. lia.
Qed.

Lemma app_NUL_inj s t u v : contains_char NUL s = false -> contains_char NUL t = false ->
  s +:+ String NUL u = t +:+ String NUL v -> s = t /\ u = v.
Proof.
  intros Hs Ht E. split.
  - by rewrite <- (before_char_app NUL s u), <- (before_char_app NUL t v), E.
  - by rewrite <- (after_char_app NUL s u), <- (after_char_app NUL t v), E.
Qed.

Lemma classification_no_NUL c : validate_shell_classification c = Ok tt -> contains_char NUL c = false.
Proof.
  unfold validate_shell_classification. destruct (str_is_empty c); [done|]. simpl.
  destruct (all_bytes shell_classification_byte c) eqn:Hb; [|done]. intros _.
  by apply (all_bytes_contains shell_classification_byte).
Qed.

Lemma exact_preimage_inj c1 t1 c2 t2 :
  validate_shell_classification c1 = Ok tt -> validate_shell_classification c2 = Ok tt ->
  bytes_of (exact_preimage c1 t1) = bytes_of (exact_preimage c2 t2) -> c1 = c2 /\ t1 = t2.
Proof.
  intros H1%classification_no_NUL H2%classification_no_NUL E%bytes_of_inj.
  unfold exact_preimage in E. apply (app_NUL_inj "mez-command-sha256-v1" "mez-command-sha256-v1") in E
    as [_ E]; [|done..]. by apply app_NUL_inj in E.
Qed.

(** ** Normalisation *)

Lemma normalize_no_CR s : contains_char CR (normalize_newlines s) = false.
Proof.
  assert (H : forall n s, String.length s <= n -> contains_char CR (normalize_newlines s) = false);
    [|by eapply H].
  clear s. intros n. induction n as [|n IH]; intros s Hl; [by destruct s; [|simpl in Hl; lia]|].
  destruct s as [|a s]; [done|]. simpl in Hl |- *.
  destruct (Ascii.eqb_spec a CR) as [->|Ha].
  - simpl. destruct s as [|b s]; [done|]. simpl in Hl.
    destruct (b =? NL)%char; apply IH; simpl; lia.
  - simpl. rewrite (proj2 (Ascii.eqb_neq _ _) Ha). simpl. apply IH. lia.
Qed.

Lemma normalize_plain s : contains_char CR s = false -> normalize_newlines s = s.
Proof.
  induction s as [|a s IH]; [done|]. simpl. intros [Ha Hs]%orb_false_iff.
  by rewrite Ha, IH.
Qed.

(** ** Rules made for a command *)

Lemma new_exact_Ok text cls d : validate_shell_classification cls = Ok tt ->
  new_exact_sha256 text cls d
  = Ok (mkRule None [exact_command_sha256 cls text] d
          (ExactSha256 (exact_command_sha256 cls text) cls) NoArguments Managed None None).
Proof.
  intros Hc. unfold new_exact_sha256, from_exact_sha256_digest.
  assert (Hd : validate_sha256_hex (exact_command_sha256 cls text) = Ok tt) by apply sha256_hex_valid.
  revert Hd. generalize (exact_command_sha256 cls text). intros digest Hd.
  rewrite Hc. cbv beta iota delta [mbind outcome_bind]. by rewrite Hd.
Qed.

Lemma exact_rule_matches digest cls d :
  exact_sha256_matches digest cls
    (mkRule None [digest] d (ExactSha256 digest cls) NoArguments Managed None None) = true.
Proof. unfold exact_sha256_matches. simpl. by rewrite !String.eqb_refl. Qed.
