(* ===== verification/PermTheorems.v ===== *)
(** * What permissions guarantee

    Decisions for command lines, path authority, stored rules, exact command
    rules and the approval queue. *)

From S2P Require Import Prelude RustStr RustBytes RustText PermTypes PermShell Sha256 PermRules PermPolicy PermApprovals PermDecisions PermRecords.
From Stdlib Require Import Ascii.

(** ** Decisions *)

Section Decisions.
Context `{Shlex}.

(** The candidates of a command line and whether its syntax is unsafe. *)
Definition candidates_of (command cls : string) : list string :=
  sa_candidates (analyze_shell_for_dialect command (from_shell_classification cls)).
Definition unsafe_of (command cls : string) : bool :=
  sa_unsafe_syntax (analyze_shell_for_dialect command (from_shell_classification cls)).

Lemma evaluate_candidates p command scopes cls :
  pp_approval_bypass p = false ->
  exists t, evaluate_shell_command_scoped_with_classification p command scopes cls
    = match candidates_of command cls with
      | [] => apply_approval_policy p Prompt t
      | cs => decide_candidates p cls (unsafe_of command cls) t Allow cs
      end.
Proof.
  intros Hb. unfold evaluate_shell_command_scoped_with_classification, candidates_of, unsafe_of.
  rewrite Hb. eexists. by destruct (sa_candidates _).
Qed.


(** C23. With the built-in rules alone, without the approval bypass, and under an
    approval mode that asks, a command line is allowed only when it has a candidate and every candidate
    splits into words that an allowing built-in rule accepts with its arguments
    and that [classify_tokens] labels as reading at most: the label has no
    writes, deletions, network, credentials, process control, privileges or
    unknown effects.  The label follows the command's name and says nothing
    about what a sed or awk script does ([script_hooks_allowed]). *)
Theorem builtin_rules_allow_labelled_reads p command scopes cls :
  pp_rules p = builtin_rules -> pp_approval_bypass p = false ->
  bypasses_prompts (pp_approval_policy p) = false ->
  evaluate_shell_command_scoped_with_classification p command scopes cls = Allow ->
  candidates_of command cls <> [] /\ Forall read_candidate (candidates_of command cls).
Proof.
  intros Hr Hb Ha He. destruct (evaluate_candidates p command scopes cls Hb) as [t Ht].
  rewrite Ht in He. clear Ht. destruct (candidates_of command cls) as [|c cs].
  - unfold apply_approval_policy in He. by rewrite Ha in He.
  - split; [done|]. apply decide_candidates_Allow in He as [_ Hcs]; [|done..].
    eapply Forall_impl; [exact Hcs|]. intros x. exact (allowed_candidate_reads p Hr (unsafe_of command cls) cls x).
Qed.

(** C25. Adding a deny rule of any kind, in any scope, never makes the decision
    for a command line more permissive. *)
Theorem deny_rules_only_restrict p r command scopes cls :
  r_decision r = Forbid ->
  rank (evaluate_shell_command_scoped_with_classification (add_rule r p) command scopes cls)
  <= rank (evaluate_shell_command_scoped_with_classification p command scopes cls).
Proof.
  intros Hd. unfold evaluate_shell_command_scoped_with_classification. simpl pp_approval_bypass.
  destruct (pp_approval_bypass p); [done|]. simpl pp_trusted_directories.
  destruct (sa_candidates _) as [|c cs]; [by apply apply_policy_mono|].
  by apply decide_candidates_add.
Qed.

(** ** Approvals *)

Lemma scopes_irrelevant p command s1 s2 cls :
  evaluate_shell_command_scoped_with_classification p command s1 cls
  = evaluate_shell_command_scoped_with_classification p command s2 cls.
Proof.
  unfold evaluate_shell_command_scoped_with_classification. destruct (pp_approval_bypass p); [done|].
  set (t1 := match s1 with Some _ => _ | None => _ end). set (t2 := match s2 with Some _ => _ | None => _ end).
  clearbody t1 t2. destruct (sa_candidates _) as [|c cs]; [done|].
  generalize (c :: cs) Allow. intros l. induction l as [|x l IH]; intros d; [done|]. cbn [decide_candidates].
  destruct (evaluate_exact_sha256_candidate p x cls); [by rewrite IH|].
  destruct (sa_unsafe_syntax _); [|by destruct (tokenize_shell_words x); [rewrite IH|]].
  destruct (evaluate_exact_policy_command_rules p x); by rewrite IH.
Qed.

(** Session approvals applied to a command line: a disapproved or redirected
    prefix forbids it, an approved one turns a prompt into permission and
    changes nothing else, so an approval never lifts a denial; path scopes do
    not change the outcome. *)
Theorem approvals_never_lift_denials p command approvals scopes cls :
  let base := evaluate_shell_command_scoped_with_classification p command None cls in
  ev_decision (evaluate_structured_with_approvals p command approvals scopes cls)
  = match approvals_evaluate approvals command with
    | Some Approve => if bool_decide (base = Prompt) then Allow else base
    | Some _ => Forbid
    | None => base
    end.
Proof.
  intros base. unfold evaluate_structured_with_approvals. simpl.
  rewrite (scopes_irrelevant p command scopes None cls). fold base.
  destruct (approvals_evaluate approvals command) as [[]|]; try done.
  destruct (decide (base = Prompt)) as [E|E].
  - rewrite (bool_decide_eq_true_2 (base = Prompt)) by done.
    rewrite (bool_decide_eq_false_2 (base = Allow)) by (by rewrite E). by rewrite andb_false_r.
  - by rewrite (bool_decide_eq_false_2 (base = Prompt)).
Qed.

(** The grant an evaluation follows. *)
Lemma later_longest_spec l best :
  match foldl later_longest best l with
  | Some g => (g ∈ l \/ best = Some g)
      /\ (forall g', g' ∈ l \/ best = Some g' -> length (ag_command_prefix g') <= length (ag_command_prefix g))
  | None => l = [] /\ best = None
  end.
Proof.
  revert best. induction l as [|x l IH]; intros best.
  { simpl. destruct best as [g|]; [|done]. split; [by right|]. intros g' [?%not_elem_of_nil|[= ->]]; done. }
  cbn [foldl]. specialize (IH (later_longest best x)).
  destruct (foldl later_longest (later_longest best x) l) as [g|].
  - destruct IH as [Hg Hmax]. unfold later_longest in *.
    destruct best as [b|].
    + destruct (Nat.leb_spec (length (ag_command_prefix b)) (length (ag_command_prefix x))) as [Hle|Hlt].
      * split; [set_solver|]. intros g' [[->|Hg']%elem_of_cons|[= ->]]; [by apply Hmax; right|by apply Hmax; left|].
        etrans; [exact Hle|]. apply Hmax. by right.
      * split; [set_solver|]. intros g' [[->|Hg']%elem_of_cons|[= ->]]; [|by apply Hmax; left|by apply Hmax; right].
        etrans; [apply Nat.lt_le_incl, Hlt|]. apply Hmax. by right.
    + split; [set_solver|]. intros g' [[->|Hg']%elem_of_cons|?]; [by apply Hmax; right|by apply Hmax; left|done].
  - destruct IH as [_ IH]. unfold later_longest in IH. destruct best as [b|]; [by destruct (_ <=? _)|done].
Qed.

Theorem longest_approval_wins st command d :
  approvals_evaluate st command = Some d ->
  exists tokens g, tokenize_single_candidate command = Some tokens /\ ag_decision g = d
    /\ g ∈ snd <$> sa_grants st /\ list_starts_with (ag_command_prefix g) tokens = true
    /\ forall g', g' ∈ snd <$> sa_grants st -> list_starts_with (ag_command_prefix g') tokens = true ->
         length (ag_command_prefix g') <= length (ag_command_prefix g).
Proof.
  unfold approvals_evaluate. destruct (tokenize_single_candidate command) as [tokens|]; [|done].
  cbv beta iota delta [mbind option_bind]. set (l := List.filter _ _).
  pose proof (later_longest_spec l None) as Hs. destruct (foldl later_longest None l) as [g|]; [|done].
  intros [= Hd]. destruct Hs as [[Hg|?] Hmax]; [|done].
  exists tokens, g. split; [done|]. split; [done|].
  assert (Hin : forall x, x ∈ l <-> x ∈ snd <$> sa_grants st
                     /\ list_starts_with (ag_command_prefix x) tokens = true).
  { intros x. subst l. rewrite !list_elem_of_In, filter_In. done. }
  apply Hin in Hg as [Hg1 Hg2]. split; [done|]. split; [done|].
  intros g' H1 H2. apply Hmax. left. by apply Hin.
Qed.
End Decisions.

(** ** Path authority *)

(** An authority as the resolvers build it. *)
Definition resolved (s : PathScopes) : Prop :=
  exists cwd reads writes evidence status,
    try_resolved_with_evidence cwd reads writes evidence status = Ok s /\ status <> Unresolved.

Definition valid_path (sc : string) : Prop := validate_canonical_authority_path sc "path scope" = Ok tt.

Lemma resolved_inv s : resolved s ->
  validate_canonical_authority_path (ps_current_directory s) "current directory" = Ok tt
  /\ Forall valid_path (ps_read_scopes s) /\ Forall valid_path (ps_write_scopes s)
  /\ Forall (fun e => check_evidence e = Ok tt) (ps_path_evidence s)
  /\ ps_resolution_status s <> Unresolved
  /\ forall path, covers (ps_write_scopes s) path = true -> covers (ps_read_scopes s) path = true.
Proof.
  intros (cwd & reads & writes & evidence & status & Ht & Hs). unfold try_resolved_with_evidence in Ht.
  destruct (validate_canonical_authority_path cwd _) as [[]| |] eqn:Hc; [|done..].
  cbv beta iota delta [mbind outcome_bind] in Ht.
  destruct (for_each _ (reads ++ writes)) as [[]| |] eqn:Hp; [|done..].
  destruct (for_each check_evidence evidence) as [[]| |] eqn:He; [|done..].
  injection Ht as <-. simpl. apply for_each_Ok in Hp, He. rewrite Forall_app in Hp. destruct Hp as [Hr Hw].
  assert (Hn : forall l, Forall valid_path l -> Forall valid_path (normalize_authority_paths l)).
  { intros l Hl. apply Forall_forall. intros x Hx%normalize_elem. by eapply Forall_forall in Hl. }
  split; [done|]. split; [|split; [by apply Hn|split; [done|split; [done|]]]].
  - apply Hn, Forall_app. split; [done|by apply Hn].
  - intros path Hpath. rewrite normalize_covers, covers_app, Hpath. apply orb_true_r.
Qed.

Lemma intersect_valid m r : Forall valid_path m -> Forall valid_path r ->
  Forall valid_path (intersect_authority_paths m r).
Proof.
  intros Hm Hr. apply Forall_forall. intros x [Hx|Hx]%intersect_elem;
    [by eapply Forall_forall in Hm|by eapply Forall_forall in Hr].
Qed.

(** C29. The intersection of two resolved authorities always exists and is their
    greatest lower bound: a path may be read (written) under it exactly when it
    may be read (written) under both, and it keeps the requested working
    directory. *)
Theorem authority_intersection_is_meet a b : resolved a -> resolved b ->
  exists r, intersection a b = Ok r
    /\ (forall path, covers (ps_read_scopes r) path
                     = covers (ps_read_scopes a) path && covers (ps_read_scopes b) path)
    /\ (forall path, covers (ps_write_scopes r) path
                     = covers (ps_write_scopes a) path && covers (ps_write_scopes b) path)
    /\ ps_current_directory r = ps_current_directory b /\ resolved r.
Proof.
  intros (_ & Har & Haw & Hae & Hau & Hasub)%resolved_inv (Hbc & Hbr & Hbw & Hbe & Hbu & Hbsub)%resolved_inv.
  unfold intersection. rewrite !(bool_decide_eq_false_2 (_ = Unresolved)) by done. cbn [orb].
  set (st := if _ || _ then HostResolved else ShellResolved).
  set (rs := intersect_authority_paths (ps_read_scopes a) (ps_read_scopes b)).
  set (ws := intersect_authority_paths (ps_write_scopes a) (ps_write_scopes b)).
  set (ev := bt_extend _ _).
  assert (Ht : try_resolved_with_evidence (ps_current_directory b) rs ws ev st
               = Ok (mkScopes (ps_current_directory b)
                       (normalize_authority_paths (rs ++ normalize_authority_paths ws))
                       (normalize_authority_paths ws) ev st)).
  { unfold try_resolved_with_evidence. rewrite Hbc. cbv beta iota delta [mbind outcome_bind].
    rewrite (proj2 (for_each_Ok _ _)).
    - rewrite (proj2 (for_each_Ok check_evidence ev)); [done|].
      apply Forall_forall. intros e [He|He]%bt_extend_elem;
        [by eapply Forall_forall in Hae|by eapply Forall_forall in Hbe].
    - apply Forall_app. split; by apply intersect_valid. }
  eexists. split; [exact Ht|]. cbn [ps_read_scopes ps_write_scopes ps_current_directory].
  split; [|split; [|split; [done|]]].
  - intros path. rewrite normalize_covers, covers_app, normalize_covers. subst rs ws.
    rewrite !intersect_covers. specialize (Hasub path). specialize (Hbsub path).
    destruct (covers (ps_write_scopes a) path), (covers (ps_write_scopes b) path);
      rewrite ?andb_false_r, ?orb_false_r; simpl; rewrite ?orb_false_r; try done.
    by rewrite Hasub, Hbsub.
  - intros path. rewrite normalize_covers. apply intersect_covers.
  - do 5 eexists. split; [exact Ht|]. subst st. by destruct (_ || _).
Qed.

(** ** Stored rules *)

(** C30. A store of rules the record format can carry ([rule_wf]: no U+001F in a
    pattern word, no empty option and no comma in one, a match and a git
    subcommand that the parser accepts, no empty justification, an id and
    declared effects that the builder accepts), none of them built-in, is read
    back from its text exactly as it was written, given that [serde_json] reads
    back the effects it writes. *)
Theorem rule_store_roundtrip `{EffectsJsonLaws} st :
  Forall rule_wf (rs_rules st) -> Forall (fun r => r_scope r <> BuiltIn) (rs_rules st) ->
  store_decode (store_encode st) = Ok st.
Proof. apply store_round_trip. Qed.

(** ** Exact command rules *)

(** A rule made for a command under a valid shell name always exists, and
    once added it decides that command: the decision is the rule's, or a
    stricter one of another exact rule, whatever the syntax and the other rules
    say.  The bytes that are hashed determine the shell and the text. *)
Theorem exact_rule_decides `{Shlex} p c cls d unsafe :
  validate_shell_classification cls = Ok tt ->
  let text := normalize_exact_command_text c false in
  (exists r, new_exact_sha256 text cls d = Ok r
    /\ rank (candidate_decision (add_rule r p) unsafe cls c) <= rank d
    /\ (matching_exact_sha256_rules p c cls = [] -> candidate_decision (add_rule r p) unsafe cls c = d))
  /\ (forall cls' c', validate_shell_classification cls' = Ok tt ->
       bytes_of (exact_preimage cls' (normalize_exact_command_text c' false))
       = bytes_of (exact_preimage cls text) ->
       cls' = cls /\ normalize_exact_command_text c' false = text).
Proof.
  intros Hc text. split; [|by intros cls' c' Hc' E; apply exact_preimage_inj in E].
  eexists. split; [by apply new_exact_Ok|]. set (r := mkRule _ _ _ _ _ _ _ _).
  assert (Hm : matching_exact_sha256_rules (add_rule r p) c cls = matching_exact_sha256_rules p c cls ++ [r]).
  { unfold matching_exact_sha256_rules. fold text. rewrite filter_add_rule.
    subst r. by rewrite exact_rule_matches. }
  assert (He : evaluate_exact_sha256_candidate (add_rule r p) c cls
               = Some (strictest (r_decision <$> (matching_exact_sha256_rules p c cls ++ [r])))).
  { unfold evaluate_exact_sha256_candidate. rewrite Hm. apply min_decision_strictest.
    by destruct (matching_exact_sha256_rules p c cls). }
  rewrite (candidate_decision_sha _ _ _ _ _ He). split.
  - apply strictest_le. rewrite fmap_app. apply elem_of_app. right. by left.
  - intros ->. change (strictest [d] = d). apply decision_min_Allow.
Qed.

(** ** Blocked requests *)

(** The calls a queue receives, and a run of them; a call that fails leaves the
    queue as its definition says. *)
Inductive QCall :=
| QCreate (r : BlockedApprovalRequest) (now : Z)
| QDecide (request_id : string) (d : ApprovalDecision) (instruction client : option string) (now : Z).

Definition qcall (c : QCall) (q : BlockedApprovalQueue) : BlockedApprovalQueue :=
  match c with
  | QCreate r now => (create_at r now q).1
  | QDecide id d i client now => (decide_with_client_at id d i client now q).1
  end.
Definition qrun (cs : list QCall) (q : BlockedApprovalQueue) : BlockedApprovalQueue :=
  foldl (fun q c => qcall c q) q cs.

(** Every stored identity was issued. *)
Definition queue_ok (q : BlockedApprovalQueue) : Prop :=
  forall id r, queue_get q id = Some r ->
    exists n, id = "ba" +:+ u64_to_string n /\ (n < bq_next_id q)%N.

Lemma queue_default_ok : queue_ok queue_default.
Proof. done. Qed.

Lemma request_id_inj n m : "ba" +:+ u64_to_string n = "ba" +:+ u64_to_string m -> n = m.
Proof. intros E. injection E as E. by apply (inj u64_to_string). Qed.

(** A decision as it may be recorded. *)
Definition decided_from (r r' : BlockedApprovalRequest) : Prop :=
  ba_state r = Pending
  /\ exists d i client now, r' = decided d i client now r
     /\ (d = Redirect -> exists text, i = Some text /\ str_is_empty (trim text) = false).

Lemma qcall_spec c q : queue_ok q ->
  queue_ok (qcall c q)
  /\ forall id r, queue_get q id = Some r ->
       exists r', queue_get (qcall c q) id = Some r' /\ (r' = r \/ decided_from r r').
Proof.
  intros Hq. destruct c as [req now|rid d i client now]; cbn [qcall].
  - unfold create_at. destruct (_ || _); [simpl; eauto|].
    destruct (bq_next_id q =? u64_max)%N; [cbn [fst]; eauto|]. cbn [fst]. split.
    + intros id r. unfold queue_get. cbn [bq_requests bq_next_id]. rewrite bt_get_insert.
      destruct (String.eqb_spec id ("ba" +:+ u64_to_string (bq_next_id q))) as [->|Hne].
      * intros _. exists (bq_next_id q). split; [done|lia].
      * intros (n & -> & Hn)%Hq. exists n. split; [done|lia].
    + intros id r Hr. exists r. split; [|by left]. unfold queue_get in *. cbn [bq_requests]. rewrite bt_get_insert.
      destruct (String.eqb_spec id ("ba" +:+ u64_to_string (bq_next_id q))) as [->|Hne]; [|done].
      apply Hq in Hr as (n & E & Hn). apply request_id_inj in E. lia.
  - unfold decide_with_client_at. destruct (bt_get rid (bq_requests q)) as [r0|] eqn:Hr0; [|simpl; eauto].
    destruct (decide (ba_state r0 = Pending)) as [Hp|Hp];
      [rewrite bool_decide_eq_true_2 by done|rewrite bool_decide_eq_false_2 by done; simpl; eauto].
    cbn [negb]. destruct (bool_decide (d = Redirect) && _) eqn:Hi; [cbn [fst]; eauto|]. cbn [fst]. split.
    + intros id r. unfold queue_get. cbn [bq_requests bq_next_id]. rewrite bt_get_insert.
      destruct (String.eqb_spec id rid) as [->|]; [|apply Hq]. intros _. by apply (Hq rid r0).
    + intros id r Hr. unfold queue_get in *. cbn [bq_requests]. rewrite bt_get_insert.
      destruct (String.eqb_spec id rid) as [->|]; [|by eauto].
      assert (r0 = r) as -> by congruence. eexists. split; [done|]. right. split; [done|].
      exists d, i, client, now. split; [done|]. intros ->. simpl in Hi.
      destruct i as [text|]; [by eauto|done].
Qed.

(** C31. Whatever calls follow, a request stays in the queue under its identity
    and is decided at most once: it is unchanged, or it was pending and carries
    exactly one decision, with a non-blank instruction when it redirects. *)
Theorem requests_decided_once cs1 cs2 id r :
  let q := qrun cs1 queue_default in
  queue_get q id = Some r ->
  exists r', queue_get (qrun cs2 q) id = Some r' /\ (r' = r \/ decided_from r r').
Proof.
  intros q. assert (Hq : queue_ok q).
  { subst q. unfold qrun. generalize queue_default_ok. generalize queue_default.
    induction cs1 as [|c cs IH]; intros q0 H0; [done|]. simpl. apply IH. by apply qcall_spec. }
  clearbody q. revert q Hq r. induction cs2 as [|c cs IH]; intros q Hq r Hr; [by exists r; auto|].
  destruct (qcall_spec c q Hq) as [Hq' Hs]. destruct (Hs id r Hr) as (r1 & Hr1 & H1).
  destruct (IH (qcall c q) Hq' r1 Hr1) as (r' & Hr' & H'). exists r'. split; [exact Hr'|].
  destruct H1 as [->|H1]; [done|]. destruct H' as [->|[Hp _]]; [by right|].
  destruct H1 as [_ (d & i & client & now & -> & _)]. by destruct d.
Qed.

(** ** Concrete inputs *)

(** A word splitter for the examples: words are separated by spaces, and a
    backslash, which would need quoting rules, is refused. *)
Definition space_shlex : Shlex := fun s =>
  if contains_char BACKSLASH s then None
  else Some (List.filter (fun w => negb (str_is_empty w)) (split_char " " s)).

Definition deny_rule (pattern : list string) : CommandRule :=
  mkRule None pattern Forbid Prefix NoArguments User None None.

Definition full_access : PermissionPolicy :=
  with_approval_policy FullAccess (add_rule (deny_rule ["rm"]) policy_default).


Lemma builtin_rules_allow_labelled_reads_witness :
  @candidates_of space_shlex "ls -la src | grep -n fn" "unix-like" <> []
  /\ Forall (@read_candidate space_shlex) (@candidates_of space_shlex "ls -la src | grep -n fn" "unix-like").
Proof.
  apply (@builtin_rules_allow_labelled_reads space_shlex policy_default "ls -la src | grep -n fn" None "unix-like");
    [reflexivity|reflexivity|reflexivity|vm_compute; reflexivity].
Defined.

(** The built-in rules allow an awk script that runs a command and a sed script
    that writes a file, and label both as reads. *)
Theorem script_hooks_allowed :
  let decide c := @evaluate_shell_command_scoped_with_classification space_shlex policy_default c None "unix-like" in
  decide "awk 'BEGIN{system(ARGV[1])}' reboot" = Allow /\ decide "sed -n wout src" = Allow
  /\ labelled_reads_only (classify_tokens ["awk"; "BEGIN{system(ARGV[1])}"; "reboot"])
  /\ labelled_reads_only (classify_tokens ["sed"; "-n"; "wout"; "src"]).
Proof. vm_compute. repeat split; reflexivity. Qed.

Lemma deny_rules_only_restrict_witness :
  rank (@evaluate_shell_command_scoped_with_classification space_shlex
          (add_rule (deny_rule ["ls"]) policy_default) "pwd; ls" None "unix-like")
  <= rank (@evaluate_shell_command_scoped_with_classification space_shlex policy_default "pwd; ls" None
             "unix-like")
  /\ @evaluate_shell_command_scoped_with_classification space_shlex
       (add_rule (deny_rule ["ls"]) policy_default) "pwd; ls" None "unix-like" = Forbid.
Proof.
  split; [|vm_compute; reflexivity].
  apply (@deny_rules_only_restrict space_shlex policy_default (deny_rule ["ls"]) "pwd; ls" None "unix-like").
  reflexivity.
Defined.

Definition maximum_scopes : PathScopes :=
  mkScopes "/w" ["/etc"; "/w"] ["/w"] [] ShellResolved.
Definition requested_scopes : PathScopes :=
  mkScopes "/w/src" ["/tmp"; "/w/src"] ["/tmp"; "/w/src"] [] HostResolved.

Lemma maximum_resolved : resolved maximum_scopes.
Proof. exists "/w", ["/etc"], ["/w"], [], ShellResolved. split; [reflexivity|done]. Qed.
Lemma requested_resolved : resolved requested_scopes.
Proof. exists "/w/src", [], ["/tmp"; "/w/src/"; "/w/src"], [], HostResolved. split; [reflexivity|done]. Qed.

Lemma authority_intersection_is_meet_witness :
  exists r, intersection maximum_scopes requested_scopes = Ok r
    /\ covers (ps_write_scopes r) "/w/src/main.rs" = true /\ covers (ps_read_scopes r) "/tmp" = false.
Proof.
  destruct (authority_intersection_is_meet maximum_scopes requested_scopes maximum_resolved requested_resolved)
    as (r & Hr & Hreads & Hwrites & _).
  exists r. split; [exact Hr|]. split; [rewrite Hwrites|rewrite Hreads]; reflexivity.
Defined.

(** A text form of declared effects for the examples. *)
#[global] Instance DeclaredCommandEffects_eq_dec : EqDecision DeclaredCommandEffects.
Proof. solve_decision. Defined.

Definition effects_tuple (e : DeclaredCommandEffects) :=
  (bool_decide (de_completeness e = Complete), de_read_scopes e, de_write_scopes e, de_network e,
   de_credentials e, de_process_control e).
Definition tuple_effects (t : bool * list string * list string * option bool * option bool * option bool) :=
  let '(c, r, w, n, k, p) := t in mkDeclared (if c : bool then Complete else EffectsUnknown) r w n k p.
#[global] Instance DeclaredCommandEffects_countable : Countable DeclaredCommandEffects.
Proof. refine (inj_countable' effects_tuple tuple_effects _). by intros [[] ? ? ? ? ?]. Defined.

Definition number_json : EffectsJson := {|
  effects_to_json e := Some (u64_to_string (Npos (encode e)) +:+ "}");
  effects_from_json s :=
    digits_value 0 (strip_last_char "}" s) ≫= fun n =>
    match n with Npos x => decode x | N0 => None end |}.

Lemma strip_last_self c s : strip_last_char c (s +:+ String c EmptyString) = s.
Proof.
  induction s as [|a s IH]; simpl; [by rewrite Ascii.eqb_refl|]. rewrite IH.
  by destruct (s +:+ String c EmptyString) eqn:E; [destruct s|].
Qed.

Lemma number_json_laws : @EffectsJsonLaws number_json.
Proof.
  intros e. exists (u64_to_string (Npos (encode e))). split; [done|]. simpl.
  rewrite strip_last_self. unfold u64_to_string. rewrite digits_value_pretty. simpl. apply decode_encode.
Qed.

Definition stored_rules : CommandRuleStore := mkRuleStore
  [mkRule (Some "build") ["cargo"; "build"] Allow Prefix NoArguments User None
     (Some (mkDeclared Complete ["."] ["target"] (Some true) (Some false) (Some false)));
   mkRule None ["git"; "log"] Allow Prefix (GitReadOnly "log") Project
     (Some (bytes [97; 9; 98; 10; 92]%N)) None].

Lemma stored_rules_wf : Forall rule_wf (rs_rules stored_rules).
Proof.
  repeat constructor; simpl; try done; intros ? [= <-]; reflexivity.
Qed.

Lemma rule_store_roundtrip_witness :
  @store_decode number_json (@store_encode number_json stored_rules) = Ok stored_rules.
Proof.
  apply (@rule_store_roundtrip number_json number_json_laws stored_rules stored_rules_wf).
  repeat constructor; done.
Defined.

Lemma exact_rule_decides_witness :
  validate_shell_classification "bash" = Ok tt
  /\ exists r, new_exact_sha256 "rm -r build" "bash" Allow = Ok r
       /\ @candidate_decision space_shlex (add_rule r policy_default) false "bash" "rm -r build" = Allow.
Proof.
  split; [reflexivity|].
  destruct (@exact_rule_decides space_shlex policy_default "rm -r build" "bash" Allow false eq_refl)
    as [(r & Hr & _ & Hd) _].
  exists r. split; [exact Hr|]. apply Hd. unfold matching_exact_sha256_rules. apply builtin_no_sha.
Defined.

Definition demo_request : BlockedApprovalRequest :=
  mkBlocked "" "a1" "p1" [] "shell" "make" [] [] [] [] None None None None Pending None None.

Lemma requests_decided_once_witness :
  let q := qrun [QCreate demo_request 5] queue_default in
  exists r', queue_get (qrun [QDecide "ba1" Approve None (Some "c1") 6; QDecide "ba1" Disapprove None None 7] q)
               "ba1" = Some r'
    /\ (r' = fresh_request "ba1" 5 demo_request
        \/ decided_from (fresh_request "ba1" 5 demo_request) r').
Proof.
  intros q.
  apply (requests_decided_once [QCreate demo_request 5]
    [QDecide "ba1" Approve None (Some "c1") 6; QDecide "ba1" Disapprove None None 7] "ba1").
  reflexivity.
Defined.

(** ** Surprising behaviour *)

(** A quoted word with an escaped quote in it, then a denied command: the scanner
    closes the quote at the escaped one, the word splitter does not. *)
Definition hidden_denial : string :=
  "echo " +:+ String DQUOTE "a" +:+ String BACKSLASH (String DQUOTE "; rm -rf x; echo ")
  +:+ String DQUOTE "b" +:+ String DQUOTE EmptyString.

(** A candidate that does not split into words ends the evaluation before later
    candidates are seen: under full access the line is allowed although the
    evaluation reports a candidate that a rule denies. *)
Lemma untokenizable_candidate_hides_denial :
  let e := @evaluate_shell_command_structured_scoped_with_classification space_shlex full_access
             hidden_denial None "unix-like" in
  ev_decision e = Allow /\ Forbid ∈ ce_decision <$> ev_candidates e.
Proof. vm_compute. split; [reflexivity|]. right. left. Qed.

(** Nine approvals of a command, then a disapproval of it. *)
Definition ten_decisions : SessionApprovalStore :=
  foldl (fun st d => (decide_prefix ["make"] GrantSession d st).1) approvals_default
    [Approve; Approve; Approve; Approve; Approve; Approve; Approve; Approve; Approve; Disapprove].

(** Identities are compared as text, where [ap10] is before [ap9], so the tenth
    decision does not replace the ninth. *)
Lemma tenth_decision_ignored :
  @approvals_evaluate space_shlex ten_decisions "make" = Some Approve.
Proof. vm_compute. reflexivity. Qed.
