(* ===== verification/ProviderRetry.v ===== *)
(** * Provider retries ([mez-agent/src/scheduler/provider_retry.rs],
    [ProviderRetryPolicy] of [mez-agent/src/provider_error.rs])

    The retry budget and backoff, and the reducer that takes a turn from a
    failed provider call through recovery and a timer to the next call. *)

From S2P Require Import Prelude RustStr.
Local Open Scope Z_scope.

Inductive ProviderErrorRetryClass :=
| ContextLimit | OutputLimit | RetryableTransport | RetryableIncomplete | NonRetryable.
#[global] Instance ProviderErrorRetryClass_eq_dec : EqDecision ProviderErrorRetryClass.
Proof. solve_decision. Defined.

Record ProviderRetryPolicy := mkRetryPolicy {
  max_attempts : Z;
  unlimited : bool;
  initial_delay_ms : Z;
  max_delay_ms : Z }.

Definition DEFAULT_PROVIDER_RETRY_POLICY : ProviderRetryPolicy :=
  mkRetryPolicy 5 false 1000 (15 * 60 * 1000).

Definition is_retryable (c : ProviderErrorRetryClass) : bool :=
  match c with NonRetryable => false | _ => true end.

Definition should_retry (p : ProviderRetryPolicy) (recorded_attempts : Z)
    (c : ProviderErrorRetryClass) : bool :=
  is_retryable c
  && ((recorded_attempts <? max_attempts p)
      || (unlimited p && bool_decide (c = RetryableTransport))).

(** [2u64.saturating_pow(exponent)]. *)
Definition sat_pow2 (exponent : Z) : Z := Z.min u64_MAX (2 ^ exponent).

Definition exponential_delay (p : ProviderRetryPolicy) (attempt : Z) : Z :=
  let exponent := Z.min (sat_sub attempt 1) 10 in
  Z.min (sat_mul u64_MAX (initial_delay_ms p) (sat_pow2 exponent)) (max_delay_ms p).

Definition jittered (delay jitter_sample : Z) : Z :=
  let jitter_floor := delay / 2 in
  let jitter_span := sat_sub delay jitter_floor in
  sat_add u64_MAX jitter_floor (jitter_sample mod sat_add u64_MAX jitter_span 1).

Definition delay_ms (p : ProviderRetryPolicy) (attempt : Z) (advised jitter : option Z) : Z :=
  let exponential := exponential_delay p attempt in
  let local :=
    if exponential =? max_delay_ms p then exponential
    else match jitter with None => exponential | Some j => jittered exponential j end in
  Z.max local (Z.min (default 0 advised) (max_delay_ms p)).

Inductive ProviderRetryRecovery := RecoverNone | RecoverContextLimit | RecoverOutputLimit.
Definition from_retry_class (c : ProviderErrorRetryClass) : option ProviderRetryRecovery :=
  match c with
  | ContextLimit => Some RecoverContextLimit
  | OutputLimit => Some RecoverOutputLimit
  | RetryableTransport | RetryableIncomplete => Some RecoverNone
  | NonRetryable => None
  end.

Inductive ProviderRetryRecoveryResult := RecoveryReady | RecoveryFailed | RecoveryTurnUnavailable.
Inductive ProviderRetryDispatchResult := DispatchReady | DispatchTurnUnavailable.

Inductive ProviderRetryEvent :=
| FailureObserved (turn_id : string) (c : ProviderErrorRetryClass)
| FailureObservedWithTiming (turn_id : string) (c : ProviderErrorRetryClass)
    (advised_delay_ms : option Z) (jitter_sample : Z)
| RecoveryCompleted (turn_id : string) (attempt : Z) (result : ProviderRetryRecoveryResult)
| TimerElapsed (turn_id : string) (attempt : Z)
| DispatchCompleted (turn_id : string) (attempt : Z) (result : ProviderRetryDispatchResult)
| TurnSettled (turn_id : string).

Inductive ProviderRetryEffect :=
| Recover (turn_id : string) (recovery : ProviderRetryRecovery) (attempt max : Z) (unlimited : bool)
    (delay : Z)
| ScheduleTimer (turn_id : string) (attempt delay : Z)
| DispatchProvider (turn_id : string) (attempt : Z).

Inductive ProviderRetryTransition :=
| Effect (e : ProviderRetryEffect) | Applied | Terminal | Abandoned | Ignored.

Inductive ProviderRetryPhase := Recovering | TimerPending | Dispatching | Dispatched.
#[global] Instance ProviderRetryPhase_eq_dec : EqDecision ProviderRetryPhase.
Proof. solve_decision. Defined.

Record ProviderRetryState := mkRetryState {
  rs_attempt : Z;
  rs_provider_calls : Z;
  rs_incomplete_sequence : bool;
  rs_delay_ms : Z;
  rs_phase : ProviderRetryPhase }.

Record ProviderRetryScheduler := mkRetryScheduler {
  prs_policy : ProviderRetryPolicy;
  prs_turns : gmap string ProviderRetryState }.

Definition retry_new (p : ProviderRetryPolicy) : ProviderRetryScheduler := mkRetryScheduler p ∅.
Definition set_policy (p : ProviderRetryPolicy) (s : ProviderRetryScheduler) : ProviderRetryScheduler :=
  mkRetryScheduler p (prs_turns s).
Definition set_turns (m : gmap string ProviderRetryState) (s : ProviderRetryScheduler)
    : ProviderRetryScheduler := mkRetryScheduler (prs_policy s) m.
Definition remove_turn (t : string) (s : ProviderRetryScheduler) : ProviderRetryScheduler :=
  set_turns (delete t (prs_turns s)) s.
Definition set_phase (ph : ProviderRetryPhase) (st : ProviderRetryState) : ProviderRetryState :=
  mkRetryState (rs_attempt st) (rs_provider_calls st) (rs_incomplete_sequence st) (rs_delay_ms st) ph.
Definition enter_phase (t : string) (ph : ProviderRetryPhase) (s : ProviderRetryScheduler)
    : ProviderRetryScheduler := set_turns (alter (set_phase ph) t (prs_turns s)) s.

Definition retry_attempt (s : ProviderRetryScheduler) (t : string) : Z :=
  default 0 (rs_attempt <$> prs_turns s !! t).
Definition provider_calls (s : ProviderRetryScheduler) (t : string) : Z :=
  default 0 (rs_provider_calls <$> prs_turns s !! t).
Definition incomplete_sequence (s : ProviderRetryScheduler) (t : string) : bool :=
  default false (rs_incomplete_sequence <$> prs_turns s !! t).
Definition pending_timer (s : ProviderRetryScheduler) (t : string) : option (Z * Z) :=
  prs_turns s !! t ≫= fun st =>
  if bool_decide (rs_phase st = TimerPending) then Some (rs_attempt st, rs_delay_ms st) else None.

Definition record_invocation (t : string) (calls retries : Z) (s : ProviderRetryScheduler)
    : ProviderRetryScheduler :=
  let st := default (mkRetryState 0 0 false 0 Dispatched) (prs_turns s !! t) in
  set_turns (<[t := mkRetryState (sat_add u64_MAX (rs_attempt st) retries)
                      (sat_add u64_MAX (rs_provider_calls st) calls)
                      (rs_incomplete_sequence st || negb (retries =? 0))
                      (rs_delay_ms st) (rs_phase st)]> (prs_turns s)) s.

Definition state_matches (s : ProviderRetryScheduler) (t : string) (attempt : Z)
    (ph : ProviderRetryPhase) : bool :=
  match prs_turns s !! t with
  | Some st => (rs_attempt st =? attempt) && bool_decide (rs_phase st = ph)
  | None => false
  end.

Definition observe_failure (t : string) (c : ProviderErrorRetryClass) (advised jitter : option Z)
    (s : ProviderRetryScheduler) : ProviderRetryScheduler * ProviderRetryTransition :=
  if str_is_empty (trim t) then (s, Terminal)
  else
    match match prs_turns s !! t with
          | Some st => if bool_decide (rs_phase st = Dispatched) then Some (rs_attempt st) else None
          | None => Some 0
          end with
    | None => (s, Ignored)
    | Some recorded_attempts =>
        match from_retry_class c with
        | None => (remove_turn t s, Terminal)
        | Some recovery =>
            if negb (should_retry (prs_policy s) recorded_attempts c) then (remove_turn t s, Terminal)
            else
              let attempt := sat_add u64_MAX recorded_attempts 1 in
              let delay := delay_ms (prs_policy s) attempt advised jitter in
              (set_turns (<[t := mkRetryState attempt (provider_calls s t) (incomplete_sequence s t)
                                   delay Recovering]> (prs_turns s)) s,
               Effect (Recover t recovery attempt (max_attempts (prs_policy s))
                         (unlimited (prs_policy s)) delay))
        end
    end.

Definition complete_recovery (t : string) (attempt : Z) (r : ProviderRetryRecoveryResult)
    (s : ProviderRetryScheduler) : ProviderRetryScheduler * ProviderRetryTransition :=
  if negb (state_matches s t attempt Recovering) then (s, Ignored)
  else match r with
       | RecoveryReady =>
           match prs_turns s !! t with
           | None => (s, Ignored)
           | Some st => (enter_phase t TimerPending s, Effect (ScheduleTimer t attempt (rs_delay_ms st)))
           end
       | RecoveryFailed => (remove_turn t s, Terminal)
       | RecoveryTurnUnavailable => (remove_turn t s, Abandoned)
       end.

Definition observe_timer (t : string) (attempt : Z) (s : ProviderRetryScheduler)
    : ProviderRetryScheduler * ProviderRetryTransition :=
  if negb (state_matches s t attempt TimerPending) then (s, Ignored)
  else (enter_phase t Dispatching s, Effect (DispatchProvider t attempt)).

Definition complete_dispatch (t : string) (attempt : Z) (r : ProviderRetryDispatchResult)
    (s : ProviderRetryScheduler) : ProviderRetryScheduler * ProviderRetryTransition :=
  if negb (state_matches s t attempt Dispatching) then (s, Ignored)
  else match r with
       | DispatchReady => (enter_phase t Dispatched s, Applied)
       | DispatchTurnUnavailable => (remove_turn t s, Abandoned)
       end.

Definition apply_event (e : ProviderRetryEvent) (s : ProviderRetryScheduler)
    : ProviderRetryScheduler * ProviderRetryTransition :=
  match e with
  | FailureObserved t c => observe_failure t c None None s
  | FailureObservedWithTiming t c advised jitter => observe_failure t c advised (Some jitter) s
  | RecoveryCompleted t attempt r => complete_recovery t attempt r s
  | TimerElapsed t attempt => observe_timer t attempt s
  | DispatchCompleted t attempt r => complete_dispatch t attempt r s
  | TurnSettled t =>
      match prs_turns s !! t with
      | Some _ => (remove_turn t s, Applied)
      | None => (s, Ignored)
      end
  end.
