(* ===== verification/RetryTheorems.v ===== *)
(** * Theorems on provider retries

    The backoff stays within its bounds, a turn is dispatched again at most as
    often as the budget allows with consecutive attempt numbers, and repeated
    effect results change nothing. *)

From S2P Require Import Prelude RustStr ProviderRetry.
Local Open Scope Z_scope.

(** ** Backoff *)

Definition policy_ok (p : ProviderRetryPolicy) : Prop :=
  0 <= max_attempts p <= u32_MAX /\ in_u64 (initial_delay_ms p) /\ in_u64 (max_delay_ms p).

Lemma sat_pow2_pos e : 0 <= e -> 1 <= sat_pow2 e.
Proof. intros He. unfold sat_pow2. pose proof (Z.pow_pos_nonneg 2 e). solve_int. Qed.

Lemma sat_pow2_mono e e' : 0 <= e <= e' -> sat_pow2 e <= sat_pow2 e'.
Proof. intros He. unfold sat_pow2. pose proof (Z.pow_le_mono_r 2 e e'). lia. Qed.

Lemma exponential_delay_range p attempt : policy_ok p ->
  0 <= exponential_delay p attempt <= max_delay_ms p.
Proof.
  intros (_ & Hi & Hm). unfold exponential_delay, sat_mul.
  set (e := Z.min (sat_sub attempt 1) 10). assert (0 <= e) by (subst e; solve_int).
  pose proof (sat_pow2_pos e). unfold in_u64 in *. nia.
Qed.

Lemma jittered_range d j : in_u64 d -> in_u64 j -> d / 2 <= jittered d j <= d.
Proof.
  intros Hd Hj. unfold jittered, sat_sub, sat_add, in_u64, u64_MAX in *.
  pose proof (Z.div_mod d 2 ltac:(lia)) as Hdm. pose proof (Z.mod_pos_bound d 2 ltac:(lia)).
  rewrite (Z.max_r 0 (d - d / 2)) by lia. rewrite (Z.min_r _ (d - d / 2 + 1)) by lia.
  pose proof (Z.mod_pos_bound j (d - d / 2 + 1) ltac:(lia)). lia.
Qed.

(** The delay before a retry never exceeds the configured maximum, is never
    below the provider's advice as far as the maximum allows, is the exponential
    backoff without jitter, between half of it and all of it with jitter, and the
    backoff never shrinks from one attempt to the next. *)
Theorem retry_delay_bounded p attempt advised jitter :
  policy_ok p -> in_u64 attempt ->
  (forall a, advised = Some a -> in_u64 a) -> (forall j, jitter = Some j -> in_u64 j) ->
  let advice := Z.min (default 0 advised) (max_delay_ms p) in
  let backoff := exponential_delay p attempt in
  Z.max (backoff / 2) advice <= delay_ms p attempt advised jitter <= Z.max backoff advice
  /\ (jitter = None -> delay_ms p attempt advised jitter = Z.max backoff advice)
  /\ delay_ms p attempt advised jitter <= max_delay_ms p
  /\ backoff <= exponential_delay p (attempt + 1).
Proof.
  intros Hp Ha Hadv Hj advice backoff. pose proof (exponential_delay_range p attempt Hp) as Hb.
  fold backoff in Hb.
  assert (Hl : let local := if backoff =? max_delay_ms p then backoff
                 else match jitter with None => backoff | Some j => jittered backoff j end in
               backoff / 2 <= local <= backoff /\ (jitter = None -> local = backoff)).
  { pose proof (Z.div_le_upper_bound backoff 2 backoff ltac:(lia) ltac:(lia)).
    destruct Hp as (_ & _ & Hm). destruct (backoff =? max_delay_ms p); [lia|].
    destruct jitter as [j|]; [|lia]. split; [|done].
    apply jittered_range; [unfold in_u64 in *; lia|by apply Hj]. }
  unfold delay_ms. fold backoff advice. simpl in Hl.
  set (local := if backoff =? max_delay_ms p then _ else _) in *.
  destruct Hl as [Hl1 Hl2]. split; [lia|]. split; [intros E; by rewrite (Hl2 E)|]. split; [lia|].
  subst backoff. unfold exponential_delay. destruct Hp as (_ & Hi & _). unfold in_u64 in *.
  pose proof (sat_pow2_mono (Z.min (sat_sub attempt 1) 10) (Z.min (sat_sub (attempt + 1) 1) 10)
                ltac:(unfold sat_sub; lia)).
  unfold sat_mul. nia.
Qed.

(** ** The retry budget *)

Definition event_turn (e : ProviderRetryEvent) : string :=
  match e with
  | FailureObserved t _ | FailureObservedWithTiming t _ _ _ | RecoveryCompleted t _ _
  | TimerElapsed t _ | DispatchCompleted t _ _ | TurnSettled t => t
  end.

(** Is the transition a new provider call for the turn? *)
Definition dispatches (t : string) (tr : ProviderRetryTransition) : bool :=
  match tr with Effect (DispatchProvider t' _) => String.eqb t' t | _ => false end.

(** Runs of the reducer, with the number of provider calls each turn was given
    since it was last dropped. *)
Inductive retry_run (p : ProviderRetryPolicy) : ProviderRetryScheduler -> (string -> Z) -> Prop :=
| run_new : retry_run p (retry_new p) (fun _ => 0)
| run_event s n e : retry_run p s n ->
    retry_run p (apply_event e s).1
      (fun t => match prs_turns (apply_event e s).1 !! t with
                | None => 0
                | Some _ => n t + (if dispatches t (apply_event e s).2 then 1 else 0)
                end).

(** The calls a state accounts for. *)
Definition calls_of (st : ProviderRetryState) : Z :=
  match rs_phase st with
  | Recovering | TimerPending => rs_attempt st - 1
  | Dispatching | Dispatched => rs_attempt st
  end.

Definition turn_ok (p : ProviderRetryPolicy) (o : option ProviderRetryState) (n : Z) : Prop :=
  match o with
  | None => n = 0
  | Some st => 1 <= rs_attempt st <= max_attempts p /\ n = calls_of st
  end.

Lemma state_matches_Some s t a ph : state_matches s t a ph = true ->
  exists st, prs_turns s !! t = Some st /\ rs_attempt st = a /\ rs_phase st = ph.
Proof.
  unfold state_matches. destruct (prs_turns s !! t) as [st|]; [|done]. intros Hm. bool_to_prop. eauto.
Qed.

(** An event leaves the other turns alone. *)
Lemma apply_event_other e s t : t <> event_turn e ->
  prs_turns (apply_event e s).1 !! t = prs_turns s !! t /\ dispatches t (apply_event e s).2 = false.
Proof.
  intros Hne. destruct e; simpl in *;
    unfold observe_failure, complete_recovery, observe_timer, complete_dispatch, enter_phase, remove_turn;
    repeat (case_match || simpl || simplify_eq);
    rewrite ?lookup_delete_ne, ?lookup_insert_ne, ?lookup_alter_ne by done;
    try (split; [done|]); try done; by apply String.eqb_neq.
Qed.

Section Budget.
Context (p : ProviderRetryPolicy) (Hp : policy_ok p) (Hfinite : unlimited p = false).

Lemma should_retry_finite n c : should_retry p n c = true -> n < max_attempts p.
Proof. unfold should_retry. rewrite Hfinite. intros Hs. bool_to_prop. rewrite orb_false_r in *. by bool_to_prop. Qed.

Lemma observe_failure_ok s t c advised jitter n : prs_policy s = p -> turn_ok p (prs_turns s !! t) n ->
  let '(s', tr) := observe_failure t c advised jitter s in
  turn_ok p (prs_turns s' !! t)
    (match prs_turns s' !! t with None => 0 | Some _ => n + (if dispatches t tr then 1 else 0) end).
Proof.
  intros Hpol Hok. unfold observe_failure.
  assert (Hsame : turn_ok p (prs_turns s !! t)
            match prs_turns s !! t with None => 0 | Some _ => n + 0 end).
  { by destruct (prs_turns s !! t); [rewrite Z.add_0_r|]. }
  destruct (str_is_empty (trim t)); [done|].
  set (recorded := match prs_turns s !! t with Some st => _ | None => _ end).
  assert (Hr : forall r, recorded = Some r -> 0 <= r <= max_attempts p /\ n = r).
  { intros r. subst recorded. unfold turn_ok in Hok. destruct (prs_turns s !! t) as [st|].
    - destruct Hok as [Ha Hn]. case_bool_decide as Hph; [|done]. intros [= <-].
      unfold calls_of in Hn. rewrite Hph in Hn. lia.
    - intros [= <-]. destruct Hp as [? _]. lia. }
  clearbody recorded. destruct recorded as [r|]; [|done]. destruct (Hr r eq_refl) as [Hrange ->].
  assert (Hgone : turn_ok p (prs_turns (remove_turn t s) !! t)
            match prs_turns (remove_turn t s) !! t with None => 0 | Some _ => r + 0 end).
  { simpl. by rewrite lookup_delete_eq. }
  destruct (from_retry_class c) as [recovery|]; [|done].
  destruct (should_retry (prs_policy s) r c) eqn:Hs; [|done]. cbn [negb].
  rewrite Hpol in Hs. apply should_retry_finite in Hs. simpl. rewrite lookup_insert_eq. simpl.
  unfold calls_of. simpl. destruct Hp as [Hm _]. unfold sat_add, u64_MAX, u32_MAX in *. lia.
Qed.

Lemma turn_event_ok s e n : prs_policy s = p -> turn_ok p (prs_turns s !! event_turn e) n ->
  let t := event_turn e in
  turn_ok p (prs_turns (apply_event e s).1 !! t)
    (match prs_turns (apply_event e s).1 !! t with
     | None => 0 | Some _ => n + (if dispatches t (apply_event e s).2 then 1 else 0) end).
Proof.
  intros Hpol Hok t.
  assert (Hsame : turn_ok p (prs_turns s !! t)
            match prs_turns s !! t with None => 0 | Some _ => n + 0 end).
  { subst t. by destruct (prs_turns s !! event_turn e); [rewrite Z.add_0_r|]. }
  assert (Hgone : forall x, turn_ok p (prs_turns (remove_turn t s) !! t)
            match prs_turns (remove_turn t s) !! t with None => 0 | Some _ => x end).
  { intros x. simpl. by rewrite lookup_delete_eq. }
  destruct e as [u c|u c adv j|u a r|u a|u a r|u]; subst t; cbn [apply_event event_turn] in *.
  - pose proof (observe_failure_ok s u c None None n Hpol Hok) as Hf. by destruct (observe_failure _ _ _ _ _).
  - pose proof (observe_failure_ok s u c adv (Some j) n Hpol Hok) as Hf. by destruct (observe_failure _ _ _ _ _).
  - unfold complete_recovery. destruct (state_matches s u a Recovering) eqn:Hm; [|done]. cbn [negb].
    apply state_matches_Some in Hm as (st & Hst & <- & Hph). rewrite Hst in *.
    destruct r; [|apply Hgone..]. simpl. rewrite lookup_alter_eq, Hst. simpl in *.
    unfold calls_of in *. rewrite Hph in Hok. simpl. lia.
  - unfold observe_timer. destruct (state_matches s u a TimerPending) eqn:Hm; [|done]. cbn [negb].
    apply state_matches_Some in Hm as (st & Hst & <- & Hph). rewrite Hst in *.
    simpl. rewrite lookup_alter_eq, Hst, String.eqb_refl. simpl in *.
    unfold calls_of in *. rewrite Hph in Hok. simpl. lia.
  - unfold complete_dispatch. destruct (state_matches s u a Dispatching) eqn:Hm; [|done]. cbn [negb].
    apply state_matches_Some in Hm as (st & Hst & <- & Hph). rewrite Hst in *.
    destruct r; [|apply Hgone]. simpl. rewrite lookup_alter_eq, Hst. simpl in *.
    unfold calls_of in *. rewrite Hph in Hok. simpl. lia.
  - destruct (prs_turns s !! u) eqn:Hu; [apply Hgone|]. simpl. by rewrite Hu.
Qed.

Lemma apply_event_policy e s : prs_policy (apply_event e s).1 = prs_policy s.
Proof.
  destruct e; simpl; unfold observe_failure, complete_recovery, observe_timer, complete_dispatch;
    repeat (case_match; simpl); simplify_eq; done.
Qed.

Lemma retry_run_ok s n : retry_run p s n ->
  prs_policy s = p /\ forall t, turn_ok p (prs_turns s !! t) (n t).
Proof.
  induction 1 as [|s n e Hrun [Hpol Hok]].
  { split; [done|]. intros t. simpl. by rewrite lookup_empty. }
  split; [by rewrite apply_event_policy|]. intros t.
  destruct (decide (t = event_turn e)) as [->|Hne]; [by apply turn_event_ok|].
  destruct (apply_event_other e s t Hne) as [-> ->]. specialize (Hok t).
  by destruct (prs_turns s !! t); [rewrite Z.add_0_r|].
Qed.
End Budget.

(** C37. Under a limited policy ([unlimited = false]), whatever events arrive in whatever order, a turn
    is given at most [max_attempts] further provider calls before it is dropped,
    and its attempt numbers count them: the next call after [n] calls is attempt
    [n + 1]. *)
Theorem retry_budget_respected p s n t :
  policy_ok p -> unlimited p = false -> retry_run p s n ->
  0 <= n t <= max_attempts p
  /\ (forall e a, (apply_event e s).2 = Effect (DispatchProvider t a) -> a = n t + 1).
Proof.
  intros Hp Hf Hrun. destruct (retry_run_ok p Hp Hf s n Hrun) as [Hpol Hok]. specialize (Hok t). split.
  - unfold turn_ok, calls_of in Hok. destruct Hp as [? _].
    destruct (prs_turns s !! t) as [st|]; [destruct (rs_phase st); lia|lia].
  - intros e a He. destruct e as [u c|u c adv j|u b r|u b|u b r|u]; cbn [apply_event] in He;
      unfold observe_failure, complete_recovery, observe_timer, complete_dispatch in He;
      repeat (case_match; try done). cbn [snd] in He. injection He as -> ->.
    apply negb_false_iff, state_matches_Some in H as (st & Hst & <- & Hph).
    rewrite Hst in Hok. unfold turn_ok, calls_of in Hok. rewrite Hph in Hok. lia.
Qed.

(** The results of effects that the reducer waits for. *)
Definition is_result (e : ProviderRetryEvent) : bool :=
  match e with FailureObserved _ _ | FailureObservedWithTiming _ _ _ _ => false | _ => true end.

(** Delivering the result of an effect twice is the same as delivering it
    once: the second one is ignored and changes nothing. *)
Theorem repeated_results_ignored s e : is_result e = true ->
  apply_event e (apply_event e s).1 = ((apply_event e s).1, Ignored).
Proof.
  assert (Hmiss : forall s' t a ph, state_matches s t a ph = true ->
    (prs_turns s' !! t = None \/ exists st ph', prs_turns s' !! t = Some (set_phase ph' st) /\ ph' <> ph) ->
    state_matches s' t a ph = false).
  { intros s' t a ph _ [E|(st & ph' & E & Hne)]; unfold state_matches; rewrite E; [done|]. simpl.
    rewrite bool_decide_eq_false_2 by done. apply andb_false_r. }
  destruct e as [u c|u c adv j|u a r|u a|u a r|u]; try done; intros _; cbn [apply_event].
  - unfold complete_recovery at 2 3. destruct (state_matches s u a Recovering) eqn:Hm; cbn [negb].
    + destruct (state_matches_Some _ _ _ _ Hm) as (st & Hst & _ & _). rewrite Hst.
      destruct r; unfold complete_recovery; rewrite (Hmiss _ _ _ _ Hm); try done; cbn;
        rewrite ?lookup_delete_eq, ?lookup_alter_eq, ?Hst; [right|by left..]. simpl. eauto.
    + unfold complete_recovery. cbn [fst]. by rewrite Hm.
  - unfold observe_timer at 2 3. destruct (state_matches s u a TimerPending) eqn:Hm; cbn [negb].
    + destruct (state_matches_Some _ _ _ _ Hm) as (st & Hst & _ & _).
      unfold observe_timer. rewrite (Hmiss _ _ _ _ Hm); [done|]. cbn. rewrite lookup_alter_eq, Hst. right. simpl. eauto.
    + unfold observe_timer. cbn [fst]. by rewrite Hm.
  - unfold complete_dispatch at 2 3. destruct (state_matches s u a Dispatching) eqn:Hm; cbn [negb].
    + destruct (state_matches_Some _ _ _ _ Hm) as (st & Hst & _ & _).
      destruct r; unfold complete_dispatch; rewrite (Hmiss _ _ _ _ Hm); try done; cbn;
        rewrite ?lookup_delete_eq, ?lookup_alter_eq, ?Hst; [right|by left]. simpl. eauto.
    + unfold complete_dispatch. cbn [fst]. by rewrite Hm.
  - destruct (prs_turns s !! u) eqn:Hu; cbn [fst]; [cbn; by rewrite lookup_delete_eq|by rewrite Hu].
Qed.

(** ** Concrete runs *)

Lemma default_policy_ok : policy_ok DEFAULT_PROVIDER_RETRY_POLICY.
Proof. unfold policy_ok, in_u64, u32_MAX, u64_MAX. simpl. lia. Qed.

Lemma retry_delay_bounded_witness :
  delay_ms DEFAULT_PROVIDER_RETRY_POLICY 3 (Some 2500) (Some 77) <= 15 * 60 * 1000
  /\ delay_ms DEFAULT_PROVIDER_RETRY_POLICY 3 (Some 2500) (Some 77) = 2500.
Proof.
  split; [|reflexivity].
  destruct (retry_delay_bounded DEFAULT_PROVIDER_RETRY_POLICY 3 (Some 2500) (Some 77) default_policy_ok)
    as (_ & _ & H & _); [unfold in_u64, u64_MAX; lia| | |exact H];
    intros ? [= <-]; unfold in_u64, u64_MAX; lia.
Defined.

Definition demo_events : list ProviderRetryEvent :=
  [FailureObserved "turn" RetryableTransport; RecoveryCompleted "turn" 1 RecoveryReady;
   TimerElapsed "turn" 1; TimerElapsed "turn" 1; DispatchCompleted "turn" 1 DispatchReady;
   FailureObserved "turn" ContextLimit; RecoveryCompleted "turn" 2 RecoveryReady].

Definition retry_after (es : list ProviderRetryEvent) : ProviderRetryScheduler :=
  foldl (fun s e => (apply_event e s).1) (retry_new DEFAULT_PROVIDER_RETRY_POLICY) es.

Lemma run_exists es : exists n, retry_run DEFAULT_PROVIDER_RETRY_POLICY (retry_after es) n.
Proof.
  unfold retry_after. assert (H : exists n, retry_run DEFAULT_PROVIDER_RETRY_POLICY
    (retry_new DEFAULT_PROVIDER_RETRY_POLICY) n) by (eexists; constructor).
  revert H. generalize (retry_new DEFAULT_PROVIDER_RETRY_POLICY).
  induction es as [|e es IH]; intros s [n Hn]; simpl; [by exists n|]. apply IH. eexists. by constructor.
Qed.

Lemma retry_budget_respected_witness : exists n,
  retry_run DEFAULT_PROVIDER_RETRY_POLICY (retry_after demo_events) n
  /\ 0 <= n "turn"%string <= 5 /\ 2 = n "turn"%string + 1.
Proof.
  destruct (run_exists demo_events) as [n Hn]. exists n. split; [exact Hn|].
  destruct (retry_budget_respected DEFAULT_PROVIDER_RETRY_POLICY (retry_after demo_events) n "turn"
              default_policy_ok eq_refl Hn) as [H1 H2].
  split; [exact H1|]. apply (H2 (TimerElapsed "turn" 2)). vm_compute. reflexivity.
Defined.

Lemma repeated_results_ignored_witness :
  let s := retry_after (take 2 demo_events) in
  apply_event (TimerElapsed "turn" 1) (apply_event (TimerElapsed "turn" 1) s).1
  = ((apply_event (TimerElapsed "turn" 1) s).1, Ignored)
  /\ (apply_event (TimerElapsed "turn" 1) s).2 = Effect (DispatchProvider "turn" 1).
Proof.
  intros s. split; [|vm_compute; reflexivity].
  apply (repeated_results_ignored s (TimerElapsed "turn" 1)). reflexivity.
Defined.
