(* ===== verification/Utf8Text.v ===== *)
(** * Unicode text addressed by byte offsets

    Rust strings as lists of Unicode scalar values.  Offsets are byte offsets
    of the UTF-8 encoding, as in the code: a slice or an insertion at an
    offset inside a character panics.  A Rust string holds at most
    [isize::MAX] bytes, so sums of offsets into one string are exact and the
    code's saturating additions on them are written [+]. *)

From S2P Require Import Prelude.
#[local] Open Scope Z_scope.

(** ** Characters *)

Notation rchar := Z (only parsing).
Notation text := (list Z) (only parsing).

(** [char::from_u32]. *)
Definition from_u32 (v : Z) : option rchar :=
  if (v <? 0xd800) || ((0xdfff <? v) && (v <=? 0x10ffff)) then Some v else None.

(** [char::len_utf8]. *)
Definition len_utf8 (c : rchar) : Z :=
  if c <? 0x80 then 1 else if c <? 0x800 then 2 else if c <? 0x10000 then 3 else 4.

(** [char::is_whitespace]: the White_Space property. *)
Definition is_whitespace (c : rchar) : bool :=
  ((9 <=? c) && (c <=? 13)) || (c =? 32) || (c =? 0x85) || (c =? 0xa0) || (c =? 0x1680)
  || ((0x2000 <=? c) && (c <=? 0x200a)) || (c =? 0x2028) || (c =? 0x2029)
  || (c =? 0x202f) || (c =? 0x205f) || (c =? 0x3000).

(** What the code takes from the Unicode database: the alphanumeric
    characters, lower-casing and the display width of a character. *)
Class UnicodeTables := {
  is_alphanumeric : rchar -> bool;
  to_lowercase : text -> text;
  char_width : rchar -> option nat;
  str_width : text -> nat;
}.

(** ** Offsets *)

(** [str::len]. *)
Definition blen (s : text) : Z := sum_Z (len_utf8 <$> s).

(** The text before and after an offset on a character boundary. *)
Fixpoint split_text (at_ : Z) (s : text) : option (text * text) :=
  if at_ =? 0 then Some ([], s)
  else match s with
       | [] => None
       | c :: s =>
           if at_ <? len_utf8 c then None
           else '(a, b) ← split_text (at_ - len_utf8 c) s; Some (c :: a, b)
       end.

(** [str::is_char_boundary]. *)
Definition is_char_boundary (s : text) (at_ : Z) : bool :=
  match split_text at_ s with Some _ => true | None => false end.

(** [str::char_indices], the first character at offset [from]. *)
Fixpoint char_indices_from (from : Z) (s : text) : list (Z * rchar) :=
  match s with
  | [] => []
  | c :: s => (from, c) :: char_indices_from (from + len_utf8 c) s
  end.
Definition char_indices (s : text) : list (Z * rchar) := char_indices_from 0 s.

(** [str::find(char)] and [str::rfind(char)]. *)
Definition find_char (c : rchar) (s : text) : option Z :=
  fst <$> head (filter (fun p => p.2 = c) (char_indices s)).
Definition rfind_char (c : rchar) (s : text) : option Z :=
  fst <$> last (filter (fun p => p.2 = c) (char_indices s)).

(** [str::contains(char)]. *)
Definition contains_rchar (c : rchar) (s : text) : bool := bool_decide (c ∈ s).

(** [str::contains(&str)]. *)
Fixpoint text_prefix (p s : text) : bool :=
  match p, s with
  | [], _ => true
  | a :: p, b :: s => (a =? b) && text_prefix p s
  | _ :: _, [] => false
  end.
Fixpoint contains_text (p s : text) : bool :=
  text_prefix p s || match s with [] => false | _ :: s => contains_text p s end.

(** [str::split(char)]. *)
Fixpoint split_text_at (c : rchar) (s : text) : list text :=
  match s with
  | [] => [[]]
  | a :: s =>
      if a =? c then [] :: split_text_at c s
      else match split_text_at c s with
           | [] => [[a]]
           | p :: ps => (a :: p) :: ps
           end
  end.

(** The characters of an ASCII literal. *)
Definition chars (s : string) : text :=
  (fun a => Z.of_nat (Ascii.nat_of_ascii a)) <$> String.list_ascii_of_string s.

(** ** Slices and edits, which panic inside a character *)

Section Slices.
Context {E : Type}.

Definition or_panic {A} (o : option A) : outcome E A :=
  match o with Some a => Ok a | None => Panic end.

(** [&text[..n]], [&text[n..]] and [&text[m..n]]. *)
Definition slice_to (s : text) (n : Z) : outcome E text := fst <$> or_panic (split_text n s).
Definition slice_from (s : text) (n : Z) : outcome E text := snd <$> or_panic (split_text n s).
Definition slice (s : text) (m n : Z) : outcome E text :=
  if n <? m then Panic else t ← slice_to s n; slice_from t m.

(** [String::insert_str]. *)
Definition insert_str (s : text) (n : Z) (t : text) : outcome E text :=
  '(a, b) ← or_panic (split_text n s); Ok (a ++ t ++ b).

(** [String::replace_range(m..n, t)]. *)
Definition replace_text (s : text) (m n : Z) (t : text) : outcome E text :=
  if n <? m then Panic
  else '(a, b) ← or_panic (split_text n s); p ← slice_to a m; Ok (p ++ t ++ b).

(** [String::truncate]: nothing to do beyond the end. *)
Definition truncate (s : text) (n : Z) : outcome E text :=
  if blen s <? n then Ok s else slice_to s n.

End Slices.

(** ** Boundaries *)

(** [n] is the offset of a character of [s], or of its end. *)
Definition boundary (s : text) (n : Z) : Prop := exists a b, s = a ++ b /\ n = blen a.

Lemma len_utf8_pos c : 1 <= len_utf8 c <= 4.
Proof. unfold len_utf8. repeat case_match; lia. Qed.

Lemma blen_nil : blen [] = 0.
Proof. done. Qed.
Lemma blen_cons c s : blen (c :: s) = len_utf8 c + blen s.
Proof. done. Qed.
Lemma blen_app s t : blen (s ++ t) = blen s + blen t.
Proof. unfold blen. by rewrite fmap_app, sum_Z_app. Qed.
Lemma blen_nonneg s : 0 <= blen s.
Proof.
  induction s as [|c s IH]; [done|]. rewrite blen_cons. pose proof (len_utf8_pos c). lia.
Qed.
Lemma blen_ge_length s : Z.of_nat (length s) <= blen s.
Proof.
  induction s as [|c s IH]; [done|]. rewrite blen_cons. pose proof (len_utf8_pos c).
  simpl. lia.
Qed.
Lemma blen_zero s : blen s = 0 <-> s = [].
Proof.
  split; [|by intros ->]. pose proof (blen_ge_length s). intros H0.
  destruct s; [done|]. simpl in *. lia.
Qed.
#[export] Hint Rewrite blen_nil blen_cons blen_app : mezz.
#[export] Hint Resolve blen_nonneg : mez.

Lemma split_text_app a b : split_text (blen a) (a ++ b) = Some (a, b).
Proof.
  induction a as [|c a IH]; [by destruct b|].
  rewrite blen_cons. simpl. pose proof (len_utf8_pos c). pose proof (blen_nonneg a).
  rewrite (proj2 (Z.eqb_neq _ _)), (proj2 (Z.ltb_ge _ _)) by lia.
  replace (len_utf8 c + blen a - len_utf8 c) with (blen a) by lia. by rewrite IH.
Qed.

Lemma split_text_Some n s a b : split_text n s = Some (a, b) -> s = a ++ b /\ n = blen a.
Proof.
  revert n a. induction s as [|c s IH]; intros n a; simpl;
    destruct (n =? 0) eqn:E; bool_to_prop; try naive_solver.
  destruct (n <? len_utf8 c); [done|].
  destruct (split_text _ s) as [[a' b']|] eqn:F; simpl; [|done].
  intros [= <- <-]. apply IH in F as [-> ?]. rewrite blen_cons. split; [done|lia].
Qed.

Lemma boundary_split s n : boundary s n <-> is_Some (split_text n s).
Proof.
  split.
  - intros (a & b & -> & ->). rewrite split_text_app. eauto.
  - intros [[a b] H]. apply split_text_Some in H as [-> ->]. by exists a, b.
Qed.

Lemma is_char_boundary_spec s n : is_char_boundary s n = true <-> boundary s n.
Proof.
  rewrite boundary_split. unfold is_char_boundary. destruct (split_text n s); naive_solver.
Qed.

Lemma boundary_range s n : boundary s n -> 0 <= n <= blen s.
Proof.
  intros (a & b & -> & ->). rewrite blen_app. pose proof (blen_nonneg a).
  pose proof (blen_nonneg b). lia.
Qed.
Lemma boundary_0 s : boundary s 0.
Proof. by exists [], s. Qed.
Lemma boundary_end s : boundary s (blen s).
Proof. exists s, []. by rewrite app_nil_r. Qed.
Lemma boundary_pre a b : boundary (a ++ b) (blen a).
Proof. by exists a, b. Qed.
Lemma boundary_min s n : boundary s n -> Z.min n (blen s) = n.
Proof. intros H%boundary_range. lia. Qed.
Lemma boundary_app_l s t n : boundary s n -> boundary (s ++ t) n.
Proof. intros (a & b & -> & ->). exists a, (b ++ t). by rewrite <- (assoc_L (++)). Qed.
Lemma boundary_app_r s t n : boundary t n -> boundary (s ++ t) (blen s + n).
Proof.
  intros (a & b & -> & ->). exists (s ++ a), b. by rewrite blen_app, <- (assoc_L (++)).
Qed.
#[export] Hint Resolve boundary_0 boundary_end boundary_pre boundary_app_l boundary_app_r : mez.

Lemma slice_to_app {E} a b : slice_to (E:=E) (a ++ b) (blen a) = Ok a.
Proof. unfold slice_to. by rewrite split_text_app. Qed.
Lemma slice_from_app {E} a b : slice_from (E:=E) (a ++ b) (blen a) = Ok b.
Proof. unfold slice_from. by rewrite split_text_app. Qed.
Lemma slice_app {E} a m b : slice (E:=E) (a ++ m ++ b) (blen a) (blen a + blen m) = Ok m.
Proof.
  unfold slice. pose proof (blen_nonneg m). rewrite (proj2 (Z.ltb_ge _ _)) by lia.
  rewrite (assoc_L (++)), <- blen_app, slice_to_app. cbn. apply slice_from_app.
Qed.
Lemma insert_str_app {E} a b t : insert_str (E:=E) (a ++ b) (blen a) t = Ok (a ++ t ++ b).
Proof. unfold insert_str. by rewrite split_text_app. Qed.
Lemma replace_text_app {E} a m b t :
  replace_text (E:=E) (a ++ m ++ b) (blen a) (blen a + blen m) t = Ok (a ++ t ++ b).
Proof.
  unfold replace_text. pose proof (blen_nonneg m). rewrite (proj2 (Z.ltb_ge _ _)) by lia.
  rewrite (assoc_L (++)), <- blen_app, split_text_app. cbn. by rewrite slice_to_app.
Qed.

Lemma truncate_app {E} a b : truncate (E:=E) (a ++ b) (blen a) = Ok a.
Proof.
  unfold truncate. rewrite blen_app. pose proof (blen_nonneg b).
  rewrite (proj2 (Z.ltb_ge _ _)) by lia. apply slice_to_app.
Qed.

(** Two boundaries in order cut the text in three. *)
Lemma boundaries_cut s m n :
  boundary s m -> boundary s n -> m <= n ->
  exists a b c, s = a ++ b ++ c /\ m = blen a /\ n = blen a + blen b.
Proof.
  intros (a & b & -> & ->) (a' & b' & H & ->) Hle.
  destruct (decide (length a <= length a')%nat) as [Hl|Hl].
  - assert (a' = a ++ drop (length a) a') as Ha.
    { apply (f_equal (take (length a))) in H. rewrite take_app_length in H.
      rewrite take_app_le in H by done. rewrite H at 1. by rewrite take_drop. }
    exists a, (drop (length a) a'), b'. rewrite Ha in H.
    rewrite <- (assoc_L (++)) in H. rewrite <- H. split; [done|]. split; [done|].
    rewrite Ha at 1. by rewrite blen_app.
  - assert (a = a' ++ drop (length a') a) as Ha.
    { apply (f_equal (take (length a'))) in H. rewrite take_app_length in H.
      rewrite take_app_le in H by lia. rewrite <- H at 1. by rewrite take_drop. }
    assert (drop (length a') a = []) as Hd.
    { apply blen_zero. rewrite Ha, blen_app in Hle. pose proof (blen_nonneg (drop (length a') a)).
      lia. }
    rewrite Hd, app_nil_r in Ha. exists a, [], b. rewrite <- Ha. simpl.
    split; [done|]. split; [done|]. rewrite blen_nil. lia.
Qed.

Lemma split_text_inj a b a' b' : a ++ b = a' ++ b' -> blen a = blen a' -> a = a' /\ b = b'.
Proof.
  intros H Hl. assert (split_text (blen a) (a ++ b) = Some (a', b')) as F.
  { rewrite H, Hl. apply split_text_app. }
  rewrite split_text_app in F. naive_solver.
Qed.

(** ** Character positions *)

Lemma char_indices_from_app k a b :
  char_indices_from k (a ++ b) = char_indices_from k a ++ char_indices_from (k + blen a) b.
Proof.
  revert k. induction a as [|c a IH]; intros k; cbn [char_indices_from app].
  - by rewrite blen_nil, Z.add_0_r.
  - rewrite IH, blen_cons. by rewrite Z.add_assoc.
Qed.

Lemma char_indices_snoc s c : last (char_indices (s ++ [c])) = Some (blen s, c).
Proof. unfold char_indices. by rewrite char_indices_from_app, last_app. Qed.

Lemma char_indices_from_elem k s i c :
  (i, c) ∈ char_indices_from k s -> exists a b, s = a ++ c :: b /\ i = k + blen a.
Proof.
  revert k. induction s as [|d s IH]; intros k; cbn [char_indices_from]; [by intros ?%not_elem_of_nil|].
  intros [[= -> ->]|H]%elem_of_cons.
  - exists [], s. by rewrite blen_nil, Z.add_0_r.
  - apply IH in H as (a & b & -> & ->). exists (d :: a), b. split; [done|].
    rewrite blen_cons. lia.
Qed.

Lemma find_char_Some c s n :
  find_char c s = Some n -> exists a b, s = a ++ c :: b /\ n = blen a /\ c ∉ a.
Proof.
  unfold find_char, char_indices. intros H.
  assert (forall k n, fst <$> head (filter (fun p => p.2 = c) (char_indices_from k s)) = Some n ->
            exists a b, s = a ++ c :: b /\ n = k + blen a /\ c ∉ a) as G; [|by apply (G 0)].
  clear. induction s as [|d s IH]; intros k n; cbn [char_indices_from]; [done|].
  rewrite filter_cons. case_decide as E; simpl in E.
  - intros [= <-]. subst d. exists [], s. rewrite blen_nil, Z.add_0_r.
    split; [done|]. split; [done|]. apply not_elem_of_nil.
  - intros (a & b & -> & -> & Hn)%IH. exists (d :: a), b. split; [done|].
    rewrite blen_cons. split; [lia|]. rewrite not_elem_of_cons. naive_solver.
Qed.

Lemma find_char_None c s : find_char c s = None -> c ∉ s.
Proof.
  unfold find_char, char_indices. generalize 0 as k.
  induction s as [|d s IH]; intros k; cbn [char_indices_from]; [intros _; apply not_elem_of_nil|].
  rewrite filter_cons. case_decide as E; simpl in E; [done|].
  intros H%IH. rewrite not_elem_of_cons. naive_solver.
Qed.

Lemma rfind_char_Some c s n :
  rfind_char c s = Some n -> exists a b, s = a ++ c :: b /\ n = blen a /\ c ∉ b.
Proof.
  unfold rfind_char, char_indices.
  revert n. induction s as [|d s IH] using rev_ind; intros n; [done|].
  rewrite char_indices_from_app, filter_app. cbn [char_indices_from].
  rewrite filter_cons, filter_nil. case_decide as E; simpl in E.
  - subst d. rewrite last_app. simpl. intros [= <-]. exists s, []. rewrite Z.add_0_l.
    split; [done|]. split; [done|]. apply not_elem_of_nil.
  - rewrite app_nil_r. intros (a & b & -> & -> & Hn)%IH.
    exists a, (b ++ [d]). rewrite <- (assoc_L (++)). split; [done|]. split; [done|].
    rewrite not_elem_of_app, list_elem_of_singleton. naive_solver.
Qed.

Lemma rfind_char_None c s : rfind_char c s = None -> c ∉ s.
Proof.
  unfold rfind_char, char_indices.
  induction s as [|d s IH] using rev_ind; [intros _; apply not_elem_of_nil|].
  rewrite char_indices_from_app, filter_app. cbn [char_indices_from].
  rewrite filter_cons, filter_nil. case_decide as E; simpl in E.
  - by rewrite last_app.
  - rewrite app_nil_r. intros H%IH. rewrite not_elem_of_app, list_elem_of_singleton. naive_solver.
Qed.

(** * UTF-8 validation and encoding

    [str::from_utf8] on bytes: the decoded characters, the length of the valid
    prefix ([valid_up_to]), and whether the input ends inside a character
    ([error_len() == None]) or holds an invalid sequence; with the encoder and
    their round trip. *)

Notation byte := Z (only parsing).
Notation bytes := (list Z) (only parsing).

Inductive utf8_stop := Utf8End | Utf8Short | Utf8Invalid.
#[global] Instance utf8_stop_eq_dec : EqDecision utf8_stop.
Proof. solve_decision. Defined.

Definition in_range (lo hi b : Z) : bool := (lo <=? b) && (b <=? hi).
Definition is_continuation (b : byte) : bool := in_range 0x80 0xbf b.
(** The second byte of a three-byte and of a four-byte sequence. *)
Definition second_of_3 (b c : byte) : bool :=
  if b =? 0xe0 then in_range 0xa0 0xbf c
  else if b =? 0xed then in_range 0x80 0x9f c else is_continuation c.
Definition second_of_4 (b c : byte) : bool :=
  if b =? 0xf0 then in_range 0x90 0xbf c
  else if b =? 0xf4 then in_range 0x80 0x8f c else is_continuation c.

(** One valid sequence, and how the scan stopped. *)
Definition utf8_cons (c : rchar) (n : nat) (r : text * nat * utf8_stop) : text * nat * utf8_stop :=
  let '(s, k, stop) := r in (c :: s, (n + k)%nat, stop).

(** The characters of the valid prefix, its length in bytes, and the end. *)
Fixpoint utf8_scan (l : bytes) : text * nat * utf8_stop :=
  match l with
  | [] => ([], O, Utf8End)
  | b :: l1 =>
      if b <? 0x80 then utf8_cons b 1 (utf8_scan l1)
      else if in_range 0xc2 0xdf b then
        match l1 with
        | [] => ([], O, Utf8Short)
        | c :: l2 =>
            if is_continuation c
            then utf8_cons ((b - 0xc0) * 64 + (c - 0x80)) 2 (utf8_scan l2)
            else ([], O, Utf8Invalid)
        end
      else if in_range 0xe0 0xef b then
        match l1 with
        | [] => ([], O, Utf8Short)
        | c :: l2 =>
            if second_of_3 b c then
              match l2 with
              | [] => ([], O, Utf8Short)
              | d :: l3 =>
                  if is_continuation d
                  then utf8_cons ((b - 0xe0) * 4096 + (c - 0x80) * 64 + (d - 0x80)) 3 (utf8_scan l3)
                  else ([], O, Utf8Invalid)
              end
            else ([], O, Utf8Invalid)
        end
      else if in_range 0xf0 0xf4 b then
        match l1 with
        | [] => ([], O, Utf8Short)
        | c :: l2 =>
            if second_of_4 b c then
              match l2 with
              | [] => ([], O, Utf8Short)
              | d :: l3 =>
                  if is_continuation d then
                    match l3 with
                    | [] => ([], O, Utf8Short)
                    | e :: l4 =>
                        if is_continuation e
                        then utf8_cons ((b - 0xf0) * 262144 + (c - 0x80) * 4096 + (d - 0x80) * 64
                                        + (e - 0x80)) 4 (utf8_scan l4)
                        else ([], O, Utf8Invalid)
                    end
                  else ([], O, Utf8Invalid)
              end
            else ([], O, Utf8Invalid)
        end
      else ([], O, Utf8Invalid)
  end.

(** [str::from_utf8(bytes).ok()]. *)
Definition from_utf8 (l : bytes) : option text :=
  match utf8_scan l with (s, _, Utf8End) => Some s | _ => None end.

(** [char::encode_utf8]. *)
Definition encode_char (c : rchar) : bytes :=
  if c <? 0x80 then [c]
  else if c <? 0x800 then [0xc0 + c / 64; 0x80 + c mod 64]
  else if c <? 0x10000 then [0xe0 + c / 4096; 0x80 + c / 64 mod 64; 0x80 + c mod 64]
  else [0xf0 + c / 262144; 0x80 + c / 4096 mod 64; 0x80 + c / 64 mod 64; 0x80 + c mod 64].
Definition encode (s : text) : bytes := s ≫= encode_char.

(** ** Round trip *)

(** A Unicode scalar value. *)
Definition scalar (c : rchar) : Prop := 0 <= c < 0xd800 \/ 0xdfff < c <= 0x10ffff.
#[global] Instance scalar_dec c : Decision (scalar c).
Proof. unfold scalar. apply _. Defined.

Lemma in_range_true lo hi b : lo <= b <= hi -> in_range lo hi b = true.
Proof. intros H. unfold in_range. apply andb_true_iff. split; apply Z.leb_le; lia. Qed.
Lemma in_range_false lo hi b : ~ (lo <= b <= hi) -> in_range lo hi b = false.
Proof.
  intros H. unfold in_range. apply andb_false_iff.
  destruct (decide (lo <= b)); [right|left]; apply Z.leb_gt; lia.
Qed.

Lemma continuation_mod x : is_continuation (0x80 + x mod 64) = true.
Proof. apply in_range_true. pose proof (Z.mod_pos_bound x 64). lia. Qed.

Lemma utf8_scan_char c l : scalar c ->
  utf8_scan (encode_char c ++ l) = utf8_cons c (Z.to_nat (len_utf8 c)) (utf8_scan l).
Proof.
  intros Hc. unfold scalar in Hc. unfold encode_char, len_utf8.
  destruct (c <? 0x80) eqn:E1; bool_to_prop.
  { cbn [app utf8_scan]. by rewrite (proj2 (Z.ltb_lt _ _)) by lia. }
  destruct (c <? 0x800) eqn:E2; bool_to_prop.
  { cbn [app utf8_scan]. assert (2 <= c / 64 < 32) by (Z.to_euclidean_division_equations; lia).
    rewrite (proj2 (Z.ltb_ge _ _)), in_range_true, continuation_mod by lia.
    replace (_ * 64 + _) with c by (Z.to_euclidean_division_equations; lia). done. }
  destruct (c <? 0x10000) eqn:E3; bool_to_prop.
  { cbn [app utf8_scan]. assert (0 <= c / 4096 < 16) by (Z.to_euclidean_division_equations; lia).
    rewrite (proj2 (Z.ltb_ge _ _)), (in_range_false 0xc2), (in_range_true 0xe0) by lia.
    assert (second_of_3 (0xe0 + c / 4096) (0x80 + c / 64 mod 64) = true) as ->.
    { unfold second_of_3.
      destruct (_ =? 0xe0) eqn:?; [apply in_range_true; bool_to_prop; Z.to_euclidean_division_equations; lia|].
      destruct (_ =? 0xed) eqn:?; [apply in_range_true; bool_to_prop; Z.to_euclidean_division_equations; lia|].
      apply continuation_mod. }
    rewrite continuation_mod. replace (_ * 4096 + _ + _) with c by (Z.to_euclidean_division_equations; lia). done. }
  cbn [app utf8_scan]. assert (0 <= c / 262144 < 5) by (Z.to_euclidean_division_equations; lia).
  rewrite (proj2 (Z.ltb_ge _ _)), (in_range_false 0xc2), (in_range_false 0xe0), (in_range_true 0xf0) by lia.
  assert (second_of_4 (0xf0 + c / 262144) (0x80 + c / 4096 mod 64) = true) as ->.
  { unfold second_of_4.
    destruct (_ =? 0xf0) eqn:?; [apply in_range_true; bool_to_prop; Z.to_euclidean_division_equations; lia|].
    destruct (_ =? 0xf4) eqn:?; [apply in_range_true; bool_to_prop; Z.to_euclidean_division_equations; lia|].
    apply continuation_mod. }
  rewrite !continuation_mod.
  replace (_ * 262144 + _ + _ + _) with c by (Z.to_euclidean_division_equations; lia). done.
Qed.

Lemma utf8_scan_encode s : Forall scalar s ->
  utf8_scan (encode s) = (s, length (encode s), Utf8End).
Proof.
  induction 1 as [|c s Hc _ IH]; [done|]. unfold encode in *. rewrite bind_cons.
  rewrite utf8_scan_char, IH by done. simpl. do 2 f_equal. rewrite length_app. f_equal.
  unfold len_utf8, encode_char. by repeat case_match.
Qed.
Lemma from_utf8_encode s : Forall scalar s -> from_utf8 (encode s) = Some s.
Proof. intros Hs. unfold from_utf8. by rewrite utf8_scan_encode. Qed.

(** The valid prefix is a prefix of the input. *)
Lemma utf8_scan_length l s n stop : utf8_scan l = (s, n, stop) -> (n <= length l)%nat.
Proof.
  revert s n stop. induction l as [l IH] using (induction_ltof1 _ length). unfold ltof in IH.
  assert (forall c k t (r : text * nat * utf8_stop) s n stop, r = utf8_scan t ->
    (k + length t <= length l)%nat -> (length t < length l)%nat ->
    utf8_cons c k r = (s, n, stop) -> (n <= length l)%nat) as G.
  { intros c k t [[s' n'] e] s n stop Hr Hk Ht [= <- <- <-]. symmetry in Hr. apply IH in Hr; lia. }
  intros s n stop. destruct l as [|b l1]; cbn [utf8_scan]; [by intros [= <- <- <-]|].
  repeat case_match; intros Heq; try (by injection Heq as <- <- <-; simpl; lia);
    (eapply G; [reflexivity| | |exact Heq]); simpl; lia.
Qed.

(** ** Decoding a stream *)

(** [Utf8Error::error_len] of bytes that start with an invalid sequence. *)
Definition utf8_error_len (l : bytes) : nat :=
  match l with
  | b :: c :: d :: _ =>
      if in_range 0xe0 0xef b then if second_of_3 b c then 2 else 1
      else if in_range 0xf0 0xf4 b then
        if second_of_4 b c then if is_continuation d then 3 else 2 else 1
      else 1
  | _ => 1
  end%nat.

(** The decoder of [String::from_utf8_lossy] one byte at a time: the bytes
    [p] of a sequence that has begun and the next byte give the characters that
    are now complete, the replacement character for a maximal invalid part, and
    the bytes of the sequence that has begun. *)
Definition REPLACEMENT : rchar := 0xFFFD.
Definition first_byte (b : byte) : text * bytes :=
  match utf8_scan [b] with
  | (t, _, Utf8End) => (t, [])
  | (_, _, Utf8Short) => ([], [b])
  | (_, _, Utf8Invalid) => ([REPLACEMENT], [])
  end.
Definition next_byte (p : bytes) (b : byte) : text * bytes :=
  match p with
  | [] => first_byte b
  | _ =>
      match utf8_scan (p ++ [b]) with
      | (t, _, Utf8End) => (t, [])
      | (_, _, Utf8Short) => ([], p ++ [b])
      | (_, _, Utf8Invalid) => let '(t, q) := first_byte b in (REPLACEMENT :: t, q)
      end
  end.
Fixpoint decode_stream (p : bytes) (l : bytes) : text * bytes :=
  match l with
  | [] => ([], p)
  | b :: l => let '(t, q) := next_byte p b in let '(u, r) := decode_stream q l in (t ++ u, r)
  end.
Definition preceded (t : text) (r : text * bytes) : text * bytes := (t ++ r.1, r.2).

Lemma preceded_app t u r : preceded t (preceded u r) = preceded (t ++ u) r.
Proof. unfold preceded. cbn. by rewrite app_assoc. Qed.
Lemma preceded_nil r : preceded [] r = r.
Proof. by destruct r. Qed.

Lemma decode_stream_cons p b l :
  decode_stream p (b :: l) = preceded (next_byte p b).1 (decode_stream (next_byte p b).2 l).
Proof. cbn [decode_stream]. destruct (next_byte p b) as [t q]. cbn. by destruct (decode_stream q l). Qed.
Lemma decode_stream_app p k l :
  decode_stream p (k ++ l) = preceded (decode_stream p k).1 (decode_stream (decode_stream p k).2 l).
Proof.
  revert p. induction k as [|b k IH]; intros p; cbn [app]; [by rewrite preceded_nil|].
  rewrite !decode_stream_cons, IH. cbn. apply preceded_app.
Qed.

(** The first sequence of some bytes: a character, a part of one that the
    bytes end in, or a maximal invalid part. *)
Inductive sequence_view (l : bytes) : Prop :=
  | view_char c k : (1 <= k <= length l)%nat -> utf8_scan l = utf8_cons c k (utf8_scan (drop k l)) ->
      decode_stream [] l = preceded [c] (decode_stream [] (drop k l)) -> sequence_view l
  | view_short : (length l <= 3)%nat -> utf8_scan l = ([], O, Utf8Short) ->
      decode_stream [] l = ([], l) -> sequence_view l
  | view_invalid : (1 <= utf8_error_len l)%nat -> utf8_scan l = ([], O, Utf8Invalid) ->
      decode_stream [] l = preceded [REPLACEMENT] (decode_stream [] (drop (utf8_error_len l) l)) ->
      sequence_view l.

Lemma short_step p b : utf8_scan (p ++ [b]) = ([], O, Utf8Short) -> next_byte p b = ([], p ++ [b]).
Proof. intros E. destruct p; unfold next_byte, first_byte; cbn [app] in E |- *; by rewrite E. Qed.
Lemma char_step p b c n : utf8_scan (p ++ [b]) = ([c], n, Utf8End) -> next_byte p b = ([c], []).
Proof. intros E. destruct p; unfold next_byte, first_byte; cbn [app] in E |- *; by rewrite E. Qed.
Lemma invalid_first b : utf8_scan [b] = ([], O, Utf8Invalid) -> next_byte [] b = ([REPLACEMENT], []).
Proof. intros E. unfold next_byte, first_byte. by rewrite E. Qed.
Lemma invalid_step p b : p <> [] -> utf8_scan (p ++ [b]) = ([], O, Utf8Invalid) ->
  next_byte p b = preceded [REPLACEMENT] (next_byte [] b).
Proof. intros Hp E. destruct p; [done|]. cbn [next_byte]. rewrite E. by destruct (first_byte b). Qed.
(** The byte that ends an invalid part begins the next sequence. *)
Lemma decode_again p b l : p <> [] -> utf8_scan (p ++ [b]) = ([], O, Utf8Invalid) ->
  decode_stream p (b :: l) = preceded [REPLACEMENT] (decode_stream [] (b :: l)).
Proof. intros Hp E. rewrite !decode_stream_cons, (invalid_step p b Hp E). cbn [preceded fst snd]. by rewrite preceded_app. Qed.

(** A scan whose tests on the bytes are known. *)
Ltac scan_known :=
  cbn [utf8_scan app drop utf8_error_len];
  repeat match goal with E : ?b = _ |- context [if ?b then _ else _] => rewrite E end; try reflexivity.
(** The decoder through a part of a sequence, through the end of one, and
    through a byte that does not continue it. *)
Ltac goes_on p b := rewrite (decode_stream_cons p b), (short_step p b) by scan_known; cbn [fst snd app]; rewrite ?preceded_nil.
Ltac ends_char p b := rewrite (decode_stream_cons p b); erewrite (char_step p b) by scan_known; cbn [fst snd].
Ltac breaks p := apply (decode_again p); [done|scan_known].

Lemma view_2 b l : (b <? 0x80) = false -> in_range 0xc2 0xdf b = true -> sequence_view (b :: l).
Proof.
  intros E0 E1. destruct l as [|c l].
  { apply view_short; [cbn; lia|scan_known|]. by goes_on (@nil Z) b. }
  destruct (is_continuation c) eqn:E2.
  - eapply (view_char _ _ 2); [cbn; lia|scan_known|]. goes_on (@nil Z) b. by ends_char [b] c.
  - assert (utf8_error_len (b :: c :: l) = 1%nat) as El.
    { destruct l; [done|]. cbn. unfold in_range in *. by repeat case_match; lia. }
    apply view_invalid; rewrite ?El; [done|scan_known|]. goes_on (@nil Z) b. breaks [b].
Qed.

Lemma view_3 b l : (b <? 0x80) = false -> in_range 0xc2 0xdf b = false -> in_range 0xe0 0xef b = true ->
  sequence_view (b :: l).
Proof.
  intros E0 E1 E2. destruct l as [|c l].
  { apply view_short; [cbn; lia|scan_known|]. by goes_on (@nil Z) b. }
  destruct (second_of_3 b c) eqn:E3.
  - destruct l as [|d l].
    { apply view_short; [cbn; lia|scan_known|]. goes_on (@nil Z) b. by goes_on [b] c. }
    destruct (is_continuation d) eqn:E4.
    + eapply (view_char _ _ 3); [cbn; lia|scan_known|]. goes_on (@nil Z) b. goes_on [b] c. by ends_char [b; c] d.
    + assert (utf8_error_len (b :: c :: d :: l) = 2%nat) as El by scan_known.
      apply view_invalid; rewrite ?El; [lia|scan_known|]. goes_on (@nil Z) b. goes_on [b] c. breaks [b; c].
  - assert (utf8_error_len (b :: c :: l) = 1%nat) as El by (destruct l; scan_known).
    apply view_invalid; rewrite ?El; [done|scan_known|]. goes_on (@nil Z) b. breaks [b].
Qed.

Lemma view_4 b l : (b <? 0x80) = false -> in_range 0xc2 0xdf b = false -> in_range 0xe0 0xef b = false ->
  in_range 0xf0 0xf4 b = true -> sequence_view (b :: l).
Proof.
  intros E0 E1 E2 E3. destruct l as [|c l].
  { apply view_short; [cbn; lia|scan_known|]. by goes_on (@nil Z) b. }
  destruct (second_of_4 b c) eqn:E4.
  2:{ assert (utf8_error_len (b :: c :: l) = 1%nat) as El by (destruct l; scan_known).
      apply view_invalid; rewrite ?El; [done|scan_known|]. goes_on (@nil Z) b. breaks [b]. }
  destruct l as [|d l].
  { apply view_short; [cbn; lia|scan_known|]. goes_on (@nil Z) b. by goes_on [b] c. }
  destruct (is_continuation d) eqn:E5.
  2:{ assert (utf8_error_len (b :: c :: d :: l) = 2%nat) as El by scan_known.
      apply view_invalid; rewrite ?El; [lia|scan_known|]. goes_on (@nil Z) b. goes_on [b] c. breaks [b; c]. }
  destruct l as [|e l].
  { apply view_short; [cbn; lia|scan_known|]. goes_on (@nil Z) b. goes_on [b] c. by goes_on [b; c] d. }
  destruct (is_continuation e) eqn:E6.
  - eapply (view_char _ _ 4); [cbn; lia|scan_known|]. goes_on (@nil Z) b. goes_on [b] c. goes_on [b; c] d.
    by ends_char [b; c; d] e.
  - assert (utf8_error_len (b :: c :: d :: e :: l) = 3%nat) as El by scan_known.
    apply view_invalid; rewrite ?El; [lia|scan_known|]. goes_on (@nil Z) b. goes_on [b] c. goes_on [b; c] d.
    breaks [b; c; d].
Qed.

Lemma view b l : sequence_view (b :: l).
Proof.
  destruct (b <? 0x80) eqn:E0.
  { apply (view_char _ b 1); [cbn; lia|scan_known|]. by ends_char (@nil Z) b. }
  destruct (in_range 0xc2 0xdf b) eqn:E1; [by apply view_2|].
  destruct (in_range 0xe0 0xef b) eqn:E2; [by apply view_3|].
  destruct (in_range 0xf0 0xf4 b) eqn:E3; [by apply view_4|].
  assert (utf8_error_len (b :: l) = 1%nat) as El.
  { destruct l as [|c [|d l]]; [done..|]. scan_known. }
  apply view_invalid; rewrite ?El; [done|scan_known|].
  rewrite decode_stream_cons, invalid_first by scan_known. done.
Qed.

(** What a scan tells of the stream it scans. *)
Lemma decode_stream_scan l t n stop : utf8_scan l = (t, n, stop) ->
  decode_stream [] l = preceded t
    match stop with
    | Utf8End => ([], [])
    | Utf8Short => ([], drop n l)
    | Utf8Invalid => preceded [REPLACEMENT]
        (decode_stream [] (drop (utf8_error_len (drop n l)) (drop n l)))
    end
  /\ match stop with
     | Utf8End => True
     | Utf8Short => (length (drop n l) <= 3)%nat /\ decode_stream [] (drop n l) = ([], drop n l)
     | Utf8Invalid => (length (drop (utf8_error_len (drop n l)) (drop n l)) < length l)%nat
     end.
Proof.
  revert t n stop. induction l as [l IH] using (induction_ltof1 _ length). unfold ltof in IH. intros t n stop.
  destruct l as [|b l]; [by intros [= <- <- <-]|]. destruct (view b l) as [c k Hk Es Ed|Hl Es Ed|Hl Es Ed]; rewrite Es.
  - destruct (utf8_scan (drop k (b :: l))) as [[u m] e] eqn:Eu. cbn [utf8_cons]. intros [= <- <- <-].
    assert (length (drop k (b :: l)) < length (b :: l))%nat as Hlt by (rewrite length_drop; cbn in *; lia).
    destruct (IH _ Hlt _ _ _ Eu) as [D B]. rewrite drop_drop in D, B. rewrite Ed, D, preceded_app.
    split; [done|]. destruct e; [done|done|]. lia.
  - intros [= <- <- <-]. by rewrite Ed.
  - intros [= <- <- <-]. rewrite preceded_nil, !drop_0. split; [done|]. rewrite length_drop. cbn [length]. lia.
Qed.
