(* ===== verification/ReadlineText.v ===== *)
(** * Readline text functions

    The free functions of the line buffer (mez-mux/src/readline/buffer.rs):
    character, word and row boundaries, soft-wrapped rows, collapsed-paste
    ranges and labels, and the rendering of a line with its paste blocks.
    The offsets a function slices at are checked, so that a cursor inside a
    character shows as [Panic]; a loop that never ends shows as [Err], with the
    state of the search for a paste marker when it is that one. *)

From S2P Require Import Prelude Utf8Text.
#[local] Open Scope Z_scope.

(** The result of code that cannot fail but may panic or run forever: in the
    search for a paste marker, from an id and with a number of characters and
    paste blocks to avoid, or in another loop. *)
Inductive endless := Endless | MarkersUsedUp (next_id : Z) (occupied : nat).
#[global] Instance endless_eq_dec : EqDecision endless.
Proof. solve_decision. Defined.
Notation ro := (outcome endless).

Section Readline.
Context {UT : UnicodeTables}.

(** ** Character boundaries *)

Definition previous_boundary (s : text) (cursor : Z) : ro Z :=
  let bounded := Z.min cursor (blen s) in
  if bounded =? 0 then Ok 0
  else t ← slice_to s bounded; Ok (default 0 (fst <$> last (char_indices t))).

Definition next_boundary (s : text) (cursor : Z) : ro Z :=
  let bounded := Z.min cursor (blen s) in
  if blen s <=? bounded then Ok (blen s)
  else
    t ← slice_from s bounded;
    Ok (match char_indices t !! 1%nat with
        | Some (offset, _) => bounded + offset
        | None => blen s
        end).

Definition line_start_before_cursor (s : text) (cursor : Z) : ro Z :=
  let bounded := Z.min cursor (blen s) in
  t ← slice_to s bounded;
  Ok (match rfind_char 10 t with Some index => index + 1 | None => 0 end).

Definition line_end_after_cursor (s : text) (cursor : Z) : ro Z :=
  let bounded := Z.min cursor (blen s) in
  t ← slice_from s bounded;
  Ok (match find_char 10 t with Some offset => bounded + offset | None => blen s end).

(** ** Words *)

Definition readline_word_is_identifier (c : rchar) : bool := is_alphanumeric c || (c =? 95).
Definition readline_word_is_symbol (c : rchar) : bool :=
  negb (is_whitespace c) && negb (readline_word_is_identifier c).

Definition previous_char (s : text) (cursor : Z) : ro (option (Z * rchar)) :=
  t ← slice_to s (Z.min cursor (blen s)); Ok (last (char_indices t)).

Definition next_char (s : text) (cursor : Z) : ro (option (Z * rchar)) :=
  let bounded := Z.min cursor (blen s) in
  t ← slice_from s bounded;
  Ok (match t with [] => None | c :: _ => Some (bounded + len_utf8 c, c) end).

(** [while let Some((previous, ch)) = previous_char(text, position)
    { if !p(ch) { break; } position = previous; }], and its mirror image. *)
Fixpoint skip_left (fuel : nat) (p : rchar -> bool) (s : text) (position : Z) : ro Z :=
  match fuel with
  | O => Err Endless
  | S fuel =>
      r ← previous_char s position;
      match r with
      | Some (previous, c) => if p c then skip_left fuel p s previous else Ok position
      | None => Ok position
      end
  end.
Fixpoint skip_right (fuel : nat) (p : rchar -> bool) (s : text) (position : Z) : ro Z :=
  match fuel with
  | O => Err Endless
  | S fuel =>
      r ← next_char s position;
      match r with
      | Some (next, c) => if p c then skip_right fuel p s next else Ok position
      | None => Ok position
      end
  end.

Definition previous_word_boundary (s : text) (cursor : Z) : ro Z :=
  let fuel := S (length s) in
  position ← skip_left fuel is_whitespace s (Z.min cursor (blen s));
  r ← previous_char s position;
  match r with
  | None => Ok position
  | Some (_, c) =>
      if readline_word_is_identifier c
      then skip_left fuel readline_word_is_identifier s position
      else skip_left fuel readline_word_is_symbol s position
  end.

Definition next_word_boundary (s : text) (cursor : Z) : ro Z :=
  let fuel := S (length s) in
  position ← skip_right fuel is_whitespace s (Z.min cursor (blen s));
  r ← next_char s position;
  match r with
  | None => Ok position
  | Some (_, c) =>
      if readline_word_is_identifier c
      then skip_right fuel readline_word_is_identifier s position
      else skip_right fuel readline_word_is_symbol s position
  end.

(** The word around a column, counted in characters; [start] and [end] move
    while the neighbouring character belongs to the same class. *)
Fixpoint word_start (same : rchar -> bool) (l : list rchar) (start : nat) : nat :=
  match start with
  | O => O
  | S before =>
      match l !! before with
      | Some c => if same c then word_start same l before else start
      | None => start
      end
  end.
Fixpoint word_end (same : rchar -> bool) (rest : list rchar) (e : nat) : nat :=
  match rest with
  | c :: rest => if same c then word_end same rest (S e) else e
  | [] => e
  end.
Definition readline_word_column_range (s : text) (column : nat) : nat * nat :=
  match s with
  | [] => (O, O)
  | _ :: _ =>
      let index := Nat.min column (length s - 1) in
      match s !! index with
      | None => (length s, length s)
      | Some c =>
          if is_whitespace c then (index, index)
          else
            let identifier := readline_word_is_identifier c in
            let same d := negb (is_whitespace d
                                || negb (Bool.eqb (readline_word_is_identifier d) identifier)) in
            (word_start same s index, word_end same (drop (S index) s) (S index))
      end
  end.

(** ** Logical rows *)

Fixpoint byte_index_scan (l : list (Z * rchar)) (consumed column start end_ : Z) : Z :=
  match l with
  | [] => end_
  | (offset, _) :: l =>
      if consumed =? column then start + offset
      else byte_index_scan l (consumed + 1) column start end_
  end.
Definition byte_index_for_column (s : text) (start end_ column : Z) : ro Z :=
  t ← slice s start end_; Ok (byte_index_scan (char_indices t) 0 column start end_).

Definition previous_row_cursor_position (s : text) (cursor column : Z) : ro (option Z) :=
  current_start ← line_start_before_cursor s cursor;
  if current_start =? 0 then Ok None
  else
    let previous_end := sat_sub current_start 1 in
    previous_start ← line_start_before_cursor s previous_end;
    i ← byte_index_for_column s previous_start previous_end column;
    Ok (Some i).

Definition next_row_cursor_position (s : text) (cursor column : Z) : ro (option Z) :=
  current_end ← line_end_after_cursor s cursor;
  if blen s <=? current_end then Ok None
  else
    let next_start := current_end + 1 in
    next_end ← line_end_after_cursor s next_start;
    i ← byte_index_for_column s next_start next_end column;
    Ok (Some i).

(** ** Soft-wrapped rows *)

(** [UnicodeWidthChar::width(ch).unwrap_or(0).max(1)]. *)
Definition cell_width (c : rchar) : Z := Z.max (Z.of_nat (default O (char_width c))) 1.

Record VisualRow := {
  vr_start : Z;
  vr_end : Z;
  end_cursor_belongs_to_next : bool;
}.

(** The loop of [visual_row_end]: the boundary reached and the last break
    after a space. *)
Fixpoint visual_row_scan (l : list (Z * rchar)) (start columns width bound : Z)
    (space : option (Z * Z)) : Z * option (Z * Z) :=
  match l with
  | [] => (bound, space)
  | (relative, c) :: l =>
      let index := start + relative in
      let char_width := cell_width c in
      if (0 <? width) && (columns <? width + char_width) then (bound, space)
      else
        let next := index + len_utf8 c in
        let space := if is_whitespace c && (0 <? width) then Some (index, next) else space in
        let width := width + char_width in
        if columns <=? width then (next, space)
        else visual_row_scan l start columns width next space
  end.

Definition visual_row_end (s : text) (start end_ columns : Z) : ro (Z * Z * bool) :=
  t ← slice s start end_;
  let '(bound, space) := visual_row_scan (char_indices t) start columns 0 start None in
  Ok (if end_ <=? bound then (bound, bound, false)
      else match space with
           | Some (space_start, space_end) =>
               if start <? space_start then (space_end, space_end, space_end <? end_)
               else (bound, bound, bound <? end_)
           | None => (bound, bound, bound <? end_)
           end).

(** The [while row_start < end] loop. *)
Fixpoint visual_rows_loop (fuel : nat) (s : text) (row_start end_ columns : Z)
    : ro (list VisualRow) :=
  if row_start <? end_ then
    match fuel with
    | O => Err Endless
    | S fuel =>
        '(row_end, consumed, belongs) ← visual_row_end s row_start end_ columns;
        rows ← visual_rows_loop fuel s consumed end_ columns;
        Ok ({| vr_start := row_start; vr_end := row_end;
               end_cursor_belongs_to_next := belongs |} :: rows)
    end
  else Ok [].
Definition visual_rows_for_logical_line (s : text) (start end_ columns : Z)
    : ro (list VisualRow) :=
  rows ← visual_rows_loop (S (length s)) s start end_ columns;
  Ok (match rows with
      | [] => [{| vr_start := start; vr_end := end_; end_cursor_belongs_to_next := false |}]
      | _ :: _ => rows
      end).

Definition display_width_between (s : text) (start end_ : Z) : ro Z :=
  t ← slice s start end_; Ok (sum_Z (cell_width <$> t)).

Fixpoint visual_row_index_from (s : text) (cursor : Z) (index : nat) (rows : list VisualRow)
    : ro (option (nat * Z)) :=
  match rows with
  | [] => Ok None
  | row :: rows =>
      if (cursor =? vr_end row) && end_cursor_belongs_to_next row
         && match head rows with Some next => vr_start next =? vr_end row | None => false end
      then visual_row_index_from s cursor (S index) rows
      else if (vr_start row <=? cursor) && (cursor <=? vr_end row) then
        w ← display_width_between s (vr_start row) cursor; Ok (Some (index, w))
      else visual_row_index_from s cursor (S index) rows
  end.
Definition visual_row_index_and_column (s : text) (cursor : Z) (rows : list VisualRow)
    : ro (option (nat * Z)) := visual_row_index_from s cursor 0 rows.

Fixpoint display_column_scan (l : list (Z * rchar)) (width column start end_ : Z) : Z :=
  match l with
  | [] => end_
  | (relative, c) :: l =>
      if column <=? width then start + relative
      else display_column_scan l (width + cell_width c) column start end_
  end.
Definition byte_index_for_display_column (s : text) (start end_ column : Z) : ro Z :=
  t ← slice s start end_; Ok (display_column_scan (char_indices t) 0 column start end_).

Definition previous_visual_row_cursor_position (s : text) (cursor columns column : Z)
    : ro (option Z) :=
  let columns := Z.max columns 1 in
  current_start ← line_start_before_cursor s cursor;
  current_end ← line_end_after_cursor s cursor;
  rows ← visual_rows_for_logical_line s current_start current_end columns;
  r ← visual_row_index_and_column s cursor rows;
  match r with
  | None => Ok None
  | Some (S before, _) =>
      row ← index_or_panic rows before;
      i ← byte_index_for_display_column s (vr_start row) (vr_end row) column;
      Ok (Some i)
  | Some (O, _) =>
      if current_start =? 0 then Ok None
      else
        let previous_end := sat_sub current_start 1 in
        previous_start ← line_start_before_cursor s previous_end;
        previous_rows ← visual_rows_for_logical_line s previous_start previous_end columns;
        match last previous_rows with
        | None => Ok None
        | Some row =>
            i ← byte_index_for_display_column s (vr_start row) (vr_end row) column;
            Ok (Some i)
        end
  end.

(** [rows.iter().enumerate().find_map(..)] over the rows after the first:
    [previous] is the row before the head of the list, at index [index]. *)
Fixpoint boundary_row_from (s : text) (cursor column : Z) (index : nat) (previous : VisualRow)
    (rows : list VisualRow) : ro (option nat) :=
  match rows with
  | [] => Ok None
  | row :: rows =>
      if (cursor =? vr_start row) && (vr_end previous =? vr_start row) then
        w ← display_width_between s (vr_start previous) (vr_end previous);
        if w <=? column then Ok (Some index)
        else boundary_row_from s cursor column (S index) row rows
      else boundary_row_from s cursor column (S index) row rows
  end.
Definition boundary_row_index (s : text) (cursor column : Z) (rows : list VisualRow)
    : ro (option nat) :=
  match rows with [] => Ok None | row :: rows => boundary_row_from s cursor column 0 row rows end.

(** [boundary_row_index.or_else(..)]. *)
Definition down_row_index (s : text) (cursor column : Z) (rows : list VisualRow)
    : ro (option nat) :=
  b ← boundary_row_index s cursor column rows;
  match b with
  | Some index => Ok (Some index)
  | None =>
      r ← visual_row_index_and_column s cursor rows;
      match r with Some (index, _) => Ok (Some index) | None => Ok None end
  end.

(** The row below [row_index]: the next soft row, or the first one of the next
    logical line. *)
Definition row_below (s : text) (current_end columns : Z) (rows : list VisualRow)
    (row_index : nat) : ro (option VisualRow) :=
  match rows !! S row_index with
  | Some next_row => Ok (Some next_row)
  | None =>
      if blen s <=? current_end then Ok None
      else
        let next_start := current_end + 1 in
        next_end ← line_end_after_cursor s next_start;
        next_rows ← visual_rows_for_logical_line s next_start next_end columns;
        match next_rows with [] => Ok None | row :: _ => Ok (Some row) end
  end.

Definition next_visual_row_cursor_position (s : text) (cursor columns column : Z)
    : ro (option Z) :=
  let columns := Z.max columns 1 in
  current_start ← line_start_before_cursor s cursor;
  current_end ← line_end_after_cursor s cursor;
  rows ← visual_rows_for_logical_line s current_start current_end columns;
  r ← down_row_index s cursor column rows;
  match r with
  | None => Ok None
  | Some row_index =>
      n ← row_below s current_end columns rows row_index;
      match n with
      | None => Ok None
      | Some next_row =>
          i ← byte_index_for_display_column s (vr_start next_row) (vr_end next_row) column;
          Ok (Some i)
      end
  end.

(** ** Paste ranges, labels and rendering *)

Record ReadlinePasteRange := { pr_start : Z; pr_end : Z }.
Record ReadlinePasteBlock := { pb_marker : rchar; pb_content : text }.
#[global] Instance paste_range_eq_dec : EqDecision ReadlinePasteRange.
Proof. solve_decision. Defined.
#[global] Instance paste_block_eq_dec : EqDecision ReadlinePasteBlock.
Proof. solve_decision. Defined.

Fixpoint valid_paste_ranges_from (previous_end : Z) (s : text) (l : list ReadlinePasteRange)
    : bool :=
  match l with
  | [] => true
  | r :: l =>
      (pr_start r <? pr_end r) && (previous_end <=? pr_start r) && (pr_end r <=? blen s)
      && is_char_boundary s (pr_start r) && is_char_boundary s (pr_end r)
      && valid_paste_ranges_from (pr_end r) s l
  end.
Definition valid_paste_ranges (s : text) (l : list ReadlinePasteRange) : bool :=
  valid_paste_ranges_from 0 s l.

(** [{:.1}] of [n / d] for a power of two [d]: the quotient is exact in [f64]
    below 2^53 and is printed rounded to one decimal, ties to even. *)
Definition round_half_even (n d : Z) : Z :=
  let q := n / d in
  let r := n mod d in
  if 2 * r <? d then q else if d <? 2 * r then q + 1 else if Z.even q then q else q + 1.
Definition one_decimal (n d : Z) : string :=
  let tenths := round_half_even (n * 10) d in
  pretty (tenths / 10) +:+ "." +:+ pretty (tenths mod 10).

Definition paste_block_label (bytes : Z) : text :=
  chars (if bytes <? 1024 then "[Pasted " +:+ pretty bytes +:+ " B]"
         else if bytes <? 1024 * 1024 then "[Pasted " +:+ one_decimal bytes 1024 +:+ " KiB]"
         else "[Pasted " +:+ one_decimal bytes (1024 * 1024) +:+ " MiB]").

Inductive RenderLineMode := Collapsed | Expanded.

(** [iter().find(|block| block.marker == marker)]. *)
Definition block_for_marker (blocks : list ReadlinePasteBlock) (marker : rchar)
    : option ReadlinePasteBlock :=
  head (filter (fun b => pb_marker b = marker) blocks).

Definition render_char (blocks : list ReadlinePasteBlock) (mode : RenderLineMode) (c : rchar)
    : text :=
  match block_for_marker blocks c with
  | Some b =>
      match mode with
      | Collapsed => paste_block_label (blen (pb_content b))
      | Expanded => pb_content b
      end
  | None => [c]
  end.
Definition render_line_with_blocks (line : text) (blocks : list ReadlinePasteBlock)
    (mode : RenderLineMode) : text :=
  line ≫= render_char blocks mode.

Fixpoint render_with_insert_from (l : list (Z * rchar)) (blocks : list ReadlinePasteBlock)
    (insert_at : Z) (insert_text : text) : text :=
  match l with
  | [] => []
  | (index, c) :: l =>
      (if index =? insert_at then insert_text else [])
      ++ render_char blocks Collapsed c
      ++ render_with_insert_from l blocks insert_at insert_text
  end.
Definition render_line_with_insert (line : text) (blocks : list ReadlinePasteBlock)
    (insert_at : Z) (insert_text : text) : text :=
  render_with_insert_from (char_indices line) blocks insert_at insert_text
  ++ (if insert_at =? blen line then insert_text else []).

Record ReadlineHistoryEntry := {
  he_text : text;
  he_ranges : list ReadlinePasteRange;
}.
Definition literal (s : text) : ReadlineHistoryEntry := {| he_text := s; he_ranges := [] |}.
Definition entry_is_valid (e : ReadlineHistoryEntry) : bool :=
  valid_paste_ranges (he_text e) (he_ranges e).

Fixpoint render_entry_from (s : text) (copied : Z) (l : list ReadlinePasteRange) : ro text :=
  match l with
  | [] => slice_from s copied
  | r :: l =>
      t ← slice s copied (pr_start r);
      rest ← render_entry_from s (pr_end r) l;
      Ok (t ++ paste_block_label (sat_sub (pr_end r) (pr_start r)) ++ rest)
  end.
Definition render_history_entry (e : ReadlineHistoryEntry) : ro text :=
  if entry_is_valid e then render_entry_from (he_text e) 0 (he_ranges e) else Ok (he_text e).

End Readline.
