(* ===== verification/Readline.v ===== *)
(** * The readline buffer

    The editable line with its history (mez-mux/src/readline/buffer.rs): one
    definition per method of [ReadlineBuffer], with the field updates in the
    order of the code.  The history is shared by [Arc] in the code and copied
    on write, so it is a value here. *)

From S2P Require Import Prelude Utf8Text ReadlineText.
#[local] Open Scope Z_scope.

(** ** Data *)

Definition READLINE_BRACKETED_PASTE_MAX_BYTES : Z := 1024 * 1024.
Definition DEFAULT_READLINE_HISTORY_LIMIT : Z := 1000.
Definition MAX_READLINE_HISTORY_ENTRY_BYTES : Z := 2 * READLINE_BRACKETED_PASTE_MAX_BYTES.
Definition MAX_READLINE_HISTORY_BYTES : Z := 4 * MAX_READLINE_HISTORY_ENTRY_BYTES.
Definition READLINE_PASTE_BLOCK_THRESHOLD_BYTES : Z := 1024.
Definition READLINE_PASTE_BLOCK_MARKER_BASE : Z := 0xf0000.
Definition READLINE_PASTE_BLOCK_THRESHOLD_LINES : nat := 6.

Inductive ReadlineEdit :=
| Insert (c : rchar)
| InsertText (s : text)
| InsertPaste (s : text)
| MoveLeft | MoveRight | MoveWordLeft | MoveWordRight
| MoveHome | MoveEnd | MoveBufferStart | MoveBufferEnd
| MoveRowUpOrHistoryPrevious | MoveRowDownOrHistoryNext
| Backspace | DeleteForward | KillWordLeft | KillWordRight | KillToStart | KillToEnd
| HistoryPrevious | HistoryNext | HistorySearchBackward
| Submit.

Inductive ReadlineOutcome :=
| Edited
| Submitted (s : text)
| SubmittedWithDisplay (s display : text) (ranges : list ReadlinePasteRange)
| Cancelled
| Eof
| Noop.
#[global] Instance readline_outcome_eq_dec : EqDecision ReadlineOutcome.
Proof. solve_decision. Defined.

Record ReadlineHistory := {
  entries : list text;
  normalized_entries : list text;
  entry_ranges : list (list ReadlinePasteRange);
  hist_bytes : Z;
}.
Definition empty_history : ReadlineHistory :=
  {| entries := []; normalized_entries := []; entry_ranges := []; hist_bytes := 0 |}.

Record ReadlineDraft := {
  dr_line : text;
  dr_cursor : Z;
  dr_paste_blocks : list ReadlinePasteBlock;
  dr_next_paste_block_id : Z;
}.

Record ReadlineBuffer := {
  line : text;
  cursor : Z;
  history : ReadlineHistory;
  history_limit : Z;
  history_cursor : option nat;
  history_entry_cursor_navigation : bool;
  vertical_navigation_column : option Z;
  draft_before_history : text;
  paste_blocks : list ReadlinePasteBlock;
  next_paste_block_id : Z;
  draft_before_history_paste_blocks : list ReadlinePasteBlock;
  draft_before_history_next_paste_block_id : Z;
}.

(** ** Field updates *)

Definition set_edit (l : text) (c : Z) (blocks : list ReadlinePasteBlock) (id : Z)
    (b : ReadlineBuffer) : ReadlineBuffer :=
  {| line := l; cursor := c; history := history b; history_limit := history_limit b;
     history_cursor := history_cursor b;
     history_entry_cursor_navigation := history_entry_cursor_navigation b;
     vertical_navigation_column := vertical_navigation_column b;
     draft_before_history := draft_before_history b;
     paste_blocks := blocks; next_paste_block_id := id;
     draft_before_history_paste_blocks := draft_before_history_paste_blocks b;
     draft_before_history_next_paste_block_id := draft_before_history_next_paste_block_id b |}.
Definition set_navigation (hc : option nat) (nav : bool) (col : option Z) (b : ReadlineBuffer)
    : ReadlineBuffer :=
  {| line := line b; cursor := cursor b; history := history b; history_limit := history_limit b;
     history_cursor := hc; history_entry_cursor_navigation := nav;
     vertical_navigation_column := col; draft_before_history := draft_before_history b;
     paste_blocks := paste_blocks b; next_paste_block_id := next_paste_block_id b;
     draft_before_history_paste_blocks := draft_before_history_paste_blocks b;
     draft_before_history_next_paste_block_id := draft_before_history_next_paste_block_id b |}.
Definition set_draft (l : text) (blocks : list ReadlinePasteBlock) (id : Z) (b : ReadlineBuffer)
    : ReadlineBuffer :=
  {| line := line b; cursor := cursor b; history := history b; history_limit := history_limit b;
     history_cursor := history_cursor b;
     history_entry_cursor_navigation := history_entry_cursor_navigation b;
     vertical_navigation_column := vertical_navigation_column b;
     draft_before_history := l; paste_blocks := paste_blocks b;
     next_paste_block_id := next_paste_block_id b;
     draft_before_history_paste_blocks := blocks;
     draft_before_history_next_paste_block_id := id |}.
Definition set_history_value (h : ReadlineHistory) (b : ReadlineBuffer) : ReadlineBuffer :=
  {| line := line b; cursor := cursor b; history := h; history_limit := history_limit b;
     history_cursor := history_cursor b;
     history_entry_cursor_navigation := history_entry_cursor_navigation b;
     vertical_navigation_column := vertical_navigation_column b;
     draft_before_history := draft_before_history b;
     paste_blocks := paste_blocks b; next_paste_block_id := next_paste_block_id b;
     draft_before_history_paste_blocks := draft_before_history_paste_blocks b;
     draft_before_history_next_paste_block_id := draft_before_history_next_paste_block_id b |}.

Definition set_line_cursor (l : text) (c : Z) (b : ReadlineBuffer) : ReadlineBuffer :=
  set_edit l c (paste_blocks b) (next_paste_block_id b) b.
Definition set_cursor (c : Z) (b : ReadlineBuffer) : ReadlineBuffer := set_line_cursor (line b) c b.
Definition set_column (col : option Z) (b : ReadlineBuffer) : ReadlineBuffer :=
  set_navigation (history_cursor b) (history_entry_cursor_navigation b) col b.
(** [draft_before_history.clear()] and [draft_before_history_paste_blocks.clear()]. *)
Definition clear_draft (b : ReadlineBuffer) : ReadlineBuffer :=
  set_draft [] [] (draft_before_history_next_paste_block_id b) b.
(** [if self.history_cursor.is_some() { self.history_entry_cursor_navigation = true; }
    self.vertical_navigation_column = None;] *)
Definition note_cursor_movement (b : ReadlineBuffer) : ReadlineBuffer :=
  set_navigation (history_cursor b)
    (match history_cursor b with Some _ => true | None => history_entry_cursor_navigation b end)
    None b.

Definition leave_history_navigation_for_edit (b : ReadlineBuffer) : ReadlineBuffer :=
  clear_draft (set_navigation None false None b).

Definition cleanup_unused_paste_blocks (b : ReadlineBuffer) : ReadlineBuffer :=
  match paste_blocks b with
  | [] => b
  | blocks =>
      set_edit (line b) (cursor b) (filter (fun k => pb_marker k ∈ line b) blocks)
        (next_paste_block_id b) b
  end.

(** ** Construction *)

Definition with_history_limit (limit : Z) : ReadlineBuffer :=
  {| line := []; cursor := 0; history := empty_history; history_limit := limit;
     history_cursor := None; history_entry_cursor_navigation := false;
     vertical_navigation_column := None; draft_before_history := [];
     paste_blocks := []; next_paste_block_id := 0;
     draft_before_history_paste_blocks := [];
     draft_before_history_next_paste_block_id := 0 |}.
Definition readline_new : ReadlineBuffer := with_history_limit DEFAULT_READLINE_HISTORY_LIMIT.

Definition structured_history_entry (b : ReadlineBuffer) (index : nat)
    : option ReadlineHistoryEntry :=
  t ← entries (history b) !! index;
  r ← entry_ranges (history b) !! index;
  Some {| he_text := t; he_ranges := r |}.

Section Buffer.
Context {UT : UnicodeTables}.

(** ** Paste blocks *)

(** One candidate of the marker search. *)
Definition marker_candidate (id : Z) : rchar :=
  default READLINE_PASTE_BLOCK_MARKER_BASE
    (from_u32 (sat_add u32_MAX READLINE_PASTE_BLOCK_MARKER_BASE id)).
Definition marker_free (b : ReadlineBuffer) (c : rchar) : bool :=
  negb (contains_rchar c (line b))
  && match block_for_marker (paste_blocks b) c with None => true | Some _ => false end.

(** The search that does not end. *)
Definition markers_used_up (b : ReadlineBuffer) : endless :=
  MarkersUsedUp (next_paste_block_id b) (length (line b) + length (paste_blocks b)).
(** The [loop] of [next_paste_block_marker]: the marker and the next id. *)
Fixpoint marker_loop (fuel : nat) (b : ReadlineBuffer) (id : Z) : ro (rchar * Z) :=
  match fuel with
  | O => Err (markers_used_up b)
  | S fuel =>
      let candidate := marker_candidate id in
      let id := sat_add u32_MAX id 1 in
      if marker_free b candidate then Ok (candidate, id) else marker_loop fuel b id
  end.
(** One more than the number of markers: later iterations only repeat the
    candidate U+F0000. *)
Definition marker_fuel : nat := Z.to_nat 0x20001.
Definition next_paste_block_marker (b : ReadlineBuffer) : ro (rchar * Z) :=
  marker_loop marker_fuel b (next_paste_block_id b).

Definition insert_paste_block (content : text) (b : ReadlineBuffer) : ro ReadlineBuffer :=
  '(marker, id) ← next_paste_block_marker b;
  l ← insert_str (line b) (cursor b) [marker];
  Ok (set_edit l (cursor b + len_utf8 marker)
        (paste_blocks b ++ [{| pb_marker := marker; pb_content := content |}]) id b).

Definition pasted_text_exceeds_visible_prompt_height (s : text) : bool :=
  match split_text_at 10 s !! READLINE_PASTE_BLOCK_THRESHOLD_LINES with
  | Some _ => true | None => false
  end.

Definition collapsed_step (blocks : list ReadlinePasteBlock)
    (st : list ReadlinePasteRange * Z) (c : rchar) : list ReadlinePasteRange * Z :=
  let '(ranges, raw_offset) := st in
  match block_for_marker blocks c with
  | Some k =>
      let e := raw_offset + blen (pb_content k) in
      (ranges ++ [{| pr_start := raw_offset; pr_end := e |}], e)
  | None => (ranges, raw_offset + len_utf8 c)
  end.
Definition collapsed_paste_ranges (b : ReadlineBuffer) : list ReadlinePasteRange :=
  (foldl (collapsed_step (paste_blocks b)) ([], 0) (line b)).1.

Definition expanded_line (b : ReadlineBuffer) : text :=
  render_line_with_blocks (line b) (paste_blocks b) Expanded.
Definition rendered_line (b : ReadlineBuffer) : text :=
  render_line_with_blocks (line b) (paste_blocks b) Collapsed.

Definition rendered_line_with_insert (b : ReadlineBuffer) (insert_at : Z) (insert_text : text)
    : option text :=
  if (blen (line b) <? insert_at) || negb (is_char_boundary (line b) insert_at) then None
  else Some (render_line_with_insert (line b) (paste_blocks b) insert_at insert_text).

Definition rendered_columns_before (b : ReadlineBuffer) (byte_offset : Z) : ro Z :=
  let bounded := Z.min byte_offset (blen (line b)) in
  if negb (is_char_boundary (line b) bounded) then Ok 0
  else
    t ← slice_to (line b) bounded;
    Ok (sum_Z (cell_width <$> render_line_with_blocks t (paste_blocks b) Collapsed)).

(** ** Retained history *)

Fixpoint set_last {A} (x : A) (l : list A) : list A :=
  match l with [] => [] | [_] => [x] | y :: l => y :: set_last x l end.

(** [Vec::remove(0)]. *)
Definition remove_first {A} (l : list A) : ro (A * list A) :=
  match l with [] => Panic | x :: l => Ok (x, l) end.

Definition history_over_limit (limit : Z) (h : ReadlineHistory) : bool :=
  (limit <? Z.of_nat (length (entries h))) || (MAX_READLINE_HISTORY_BYTES <? hist_bytes h).
Fixpoint evict_history (fuel : nat) (limit : Z) (h : ReadlineHistory) : ro ReadlineHistory :=
  if history_over_limit limit h then
    match fuel with
    | O => Err Endless
    | S fuel =>
        '(removed, es) ← remove_first (entries h);
        '(_, ns) ← remove_first (normalized_entries h);
        '(_, rs) ← remove_first (entry_ranges h);
        evict_history fuel limit
          {| entries := es; normalized_entries := ns; entry_ranges := rs;
             hist_bytes := sat_sub (hist_bytes h) (blen removed) |}
    end
  else Ok h.

Definition remember_submission (submitted : ReadlineHistoryEntry) (b : ReadlineBuffer)
    : ro ReadlineBuffer :=
  let h := history b in
  if (history_limit b =? 0) || bool_decide (he_text submitted = [])
     || (MAX_READLINE_HISTORY_ENTRY_BYTES <? blen (he_text submitted))
     || negb (valid_paste_ranges (he_text submitted) (he_ranges submitted))
  then Ok b
  else if bool_decide (last (entries h) = Some (he_text submitted)) then
    Ok (set_history_value
          {| entries := entries h; normalized_entries := normalized_entries h;
             entry_ranges := set_last (he_ranges submitted) (entry_ranges h);
             hist_bytes := hist_bytes h |} b)
  else
    let h :=
      {| entries := entries h ++ [he_text submitted];
         normalized_entries := normalized_entries h ++ [to_lowercase (he_text submitted)];
         entry_ranges := entry_ranges h ++ [he_ranges submitted];
         hist_bytes := sat_add u64_MAX (hist_bytes h) (blen (he_text submitted)) |} in
    h ← evict_history (S (length (entries h))) (history_limit b) h;
    Ok (set_history_value h b).

Definition set_structured_history (l : list ReadlineHistoryEntry) (b : ReadlineBuffer)
    : ro ReadlineBuffer :=
  b ← fold_outcome remember_submission l (set_history_value empty_history b);
  Ok (clear_draft (set_navigation None false None b)).
Definition set_history (l : list text) (b : ReadlineBuffer) : ro ReadlineBuffer :=
  b ← fold_outcome (fun e => remember_submission (literal e)) l (set_history_value empty_history b);
  Ok (clear_draft (set_navigation None false None b)).

(** ** Replacing the line *)

Definition replace_current_line_with_text (s : text) (b : ReadlineBuffer) : ReadlineBuffer :=
  set_column None (set_edit s (blen s) [] (next_paste_block_id b) b).

(** [while self.cursor > 0 && !self.line.is_char_boundary(self.cursor)
    { self.cursor -= 1; }] *)
Fixpoint back_to_boundary (fuel : nat) (s : text) (c : Z) : ro Z :=
  if (0 <? c) && negb (is_char_boundary s c) then
    match fuel with O => Err Endless | S fuel => back_to_boundary fuel s (c - 1) end
  else Ok c.

Definition set_line (s : text) (b : ReadlineBuffer) : ReadlineBuffer :=
  let b := replace_current_line_with_text s b in
  clear_draft
    (set_navigation None false (vertical_navigation_column b) (set_cursor (blen (line b)) b)).

Definition set_line_and_cursor (s : text) (at_ : Z) (b : ReadlineBuffer) : ro ReadlineBuffer :=
  let b := replace_current_line_with_text s b in
  c ← back_to_boundary (S (4 * length s)) s (Z.min at_ (blen s));
  Ok (clear_draft
        (set_navigation None false (vertical_navigation_column b) (set_cursor c b))).

Definition set_line_and_cursor_preserving_paste_blocks (s : text) (at_ : Z) (b : ReadlineBuffer)
    : ro ReadlineBuffer :=
  c ← back_to_boundary (S (4 * length s)) s (Z.min at_ (blen s));
  Ok (clear_draft
        (set_navigation None false None
           (cleanup_unused_paste_blocks (set_line_cursor s c b)))).

Definition replace_range (start end_ : Z) (replacement : text) (b : ReadlineBuffer)
    : ro (ReadlineBuffer * bool) :=
  if (end_ <? start) || (blen (line b) <? end_)
     || negb (is_char_boundary (line b) start) || negb (is_char_boundary (line b) end_)
  then Ok (b, false)
  else
    let b := leave_history_navigation_for_edit b in
    l ← replace_text (line b) start end_ replacement;
    Ok (cleanup_unused_paste_blocks
          (set_line_cursor l (start + blen replacement) b), true).

(** ** Insertion *)

Definition insert_text (s : text) (b : ReadlineBuffer) : ro ReadlineBuffer :=
  let b := leave_history_navigation_for_edit b in
  l ← insert_str (line b) (cursor b) s;
  Ok (set_line_cursor l (cursor b + blen s) b).

Definition insert_char (c : rchar) (b : ReadlineBuffer) : ro ReadlineBuffer :=
  let b := leave_history_navigation_for_edit b in
  l ← insert_str (line b) (cursor b) [c];
  Ok (set_line_cursor l (cursor b + len_utf8 c) b).

Definition insert_pasted_text (s : text) (b : ReadlineBuffer) : ro ReadlineBuffer :=
  let b := leave_history_navigation_for_edit b in
  if (READLINE_PASTE_BLOCK_THRESHOLD_BYTES <=? blen s)
     || pasted_text_exceeds_visible_prompt_height s
  then insert_paste_block s b
  else
    l ← insert_str (line b) (cursor b) s;
    Ok (set_line_cursor l (cursor b + blen s) b).

(** ** Cursor movement *)

Definition move_left (b : ReadlineBuffer) : ro (ReadlineBuffer * bool) :=
  if cursor b =? 0 then Ok (b, false)
  else
    let b := note_cursor_movement b in
    c ← previous_boundary (line b) (cursor b); Ok (set_cursor c b, true).

Definition move_right (b : ReadlineBuffer) : ro (ReadlineBuffer * bool) :=
  if blen (line b) <=? cursor b then Ok (b, false)
  else
    let b := note_cursor_movement b in
    c ← next_boundary (line b) (cursor b); Ok (set_cursor c b, true).

(** The tail of [move_home], [move_end] and the word movements. *)
Definition move_to (target : Z) (b : ReadlineBuffer) : ReadlineBuffer * bool :=
  if cursor b =? target then (b, false) else (set_cursor target (note_cursor_movement b), true).

Definition move_home (b : ReadlineBuffer) : ro (ReadlineBuffer * bool) :=
  target ← line_start_before_cursor (line b) (cursor b); Ok (move_to target b).
Definition move_end (b : ReadlineBuffer) : ro (ReadlineBuffer * bool) :=
  target ← line_end_after_cursor (line b) (cursor b); Ok (move_to target b).
Definition move_buffer_start (b : ReadlineBuffer) : ro (ReadlineBuffer * bool) := Ok (move_to 0 b).
Definition move_buffer_end (b : ReadlineBuffer) : ro (ReadlineBuffer * bool) :=
  Ok (move_to (blen (line b)) b).
Definition move_word_left (b : ReadlineBuffer) : ro (ReadlineBuffer * bool) :=
  target ← previous_word_boundary (line b) (cursor b); Ok (move_to target b).
Definition move_word_right (b : ReadlineBuffer) : ro (ReadlineBuffer * bool) :=
  target ← next_word_boundary (line b) (cursor b); Ok (move_to target b).

(** ** Deletion *)

(** [self.leave_history_navigation_for_edit(); self.line.replace_range(m..n, "");
    self.cursor = c; self.cleanup_unused_paste_blocks();] *)
Definition delete_span (m n c : Z) (b : ReadlineBuffer) : ro (ReadlineBuffer * bool) :=
  let b := leave_history_navigation_for_edit b in
  l ← replace_text (line b) m n [];
  Ok (cleanup_unused_paste_blocks (set_line_cursor l c b), true).

Definition kill_word_left (b : ReadlineBuffer) : ro (ReadlineBuffer * bool) :=
  target ← previous_word_boundary (line b) (cursor b);
  if target =? cursor b then Ok (b, false) else delete_span target (cursor b) target b.
Definition kill_word_right (b : ReadlineBuffer) : ro (ReadlineBuffer * bool) :=
  target ← next_word_boundary (line b) (cursor b);
  if target =? cursor b then Ok (b, false) else delete_span (cursor b) target (cursor b) b.
Definition backspace (b : ReadlineBuffer) : ro (ReadlineBuffer * bool) :=
  if cursor b =? 0 then Ok (b, false)
  else start ← previous_boundary (line b) (cursor b); delete_span start (cursor b) start b.
Definition delete_forward (b : ReadlineBuffer) : ro (ReadlineBuffer * bool) :=
  if blen (line b) <=? cursor b then Ok (b, false)
  else e ← next_boundary (line b) (cursor b); delete_span (cursor b) e (cursor b) b.
Definition kill_to_start (b : ReadlineBuffer) : ro (ReadlineBuffer * bool) :=
  if cursor b =? 0 then Ok (b, false) else delete_span 0 (cursor b) 0 b.
Definition kill_to_end (b : ReadlineBuffer) : ro (ReadlineBuffer * bool) :=
  if cursor b =? blen (line b) then Ok (b, false)
  else
    let b := leave_history_navigation_for_edit b in
    l ← truncate (line b) (cursor b);
    Ok (cleanup_unused_paste_blocks (set_line_cursor l (cursor b) b), true).

(** ** History navigation *)

(** [self.line.push_str(t); self.cursor = self.line.len();] *)
Definition push_line (t : text) (b : ReadlineBuffer) : ReadlineBuffer :=
  set_line_cursor (line b ++ t) (blen (line b ++ t)) b.

Fixpoint load_ranges (s : text) (copied : Z) (l : list ReadlinePasteRange) (b : ReadlineBuffer)
    : ro ReadlineBuffer :=
  match l with
  | [] => t ← slice_from s copied; Ok (push_line t b)
  | r :: l =>
      t ← slice s copied (pr_start r);
      content ← slice s (pr_start r) (pr_end r);
      b ← insert_paste_block content (push_line t b);
      load_ranges s (pr_end r) l b
  end.
Definition replace_current_line_with_history_entry (e : ReadlineHistoryEntry)
    (b : ReadlineBuffer) : ro ReadlineBuffer :=
  load_ranges (he_text e) 0 (he_ranges e)
    (set_column None (set_edit [] 0 [] (next_paste_block_id b) b)).

Definition load_history_index (index : nat) (b : ReadlineBuffer) : ro ReadlineBuffer :=
  match structured_history_entry b index with
  | None => Ok b
  | Some e =>
      b ← replace_current_line_with_history_entry e b;
      Ok (set_navigation (Some index) false (vertical_navigation_column b)
            (set_cursor (blen (line b)) b))
  end.

(** Saving the line as the draft to return to. *)
Definition save_draft (b : ReadlineBuffer) : ReadlineBuffer :=
  set_draft (line b) (paste_blocks b) (next_paste_block_id b) b.

Definition history_previous (b : ReadlineBuffer) : ro (ReadlineBuffer * bool) :=
  match entries (history b) with
  | [] => Ok (b, false)
  | _ :: _ =>
      match history_cursor b with
      | Some O => Ok (b, false)
      | Some (S index) => b ← load_history_index index b; Ok (b, true)
      | None =>
          b ← load_history_index (length (entries (history b)) - 1) (save_draft b); Ok (b, true)
      end
  end.

Definition history_next (b : ReadlineBuffer) : ro (ReadlineBuffer * bool) :=
  match history_cursor b with
  | None => Ok (b, false)
  | Some index =>
      if decide (S index < length (entries (history b)))%nat then
        b ← load_history_index (S index) b; Ok (b, true)
      else
        let l := draft_before_history b in
        Ok (clear_draft
              (set_navigation None false None
                 (set_edit l (blen l) (draft_before_history_paste_blocks b)
                    (draft_before_history_next_paste_block_id b) b)), true)
  end.

(** [while index > 0 { index -= 1; if matches(index) { return index } }]. *)
Fixpoint search_before (normalized : list text) (query : text) (index : nat) : ro (option nat) :=
  match index with
  | O => Ok None
  | S index =>
      e ← index_or_panic normalized index;
      if contains_text query e then Ok (Some index) else search_before normalized query index
  end.
(** [(start..len).find(matches)]. *)
Fixpoint search_in (normalized : list text) (query : text) (l : list nat) : ro (option nat) :=
  match l with
  | [] => Ok None
  | index :: l =>
      e ← index_or_panic normalized index;
      if contains_text query e then Ok (Some index) else search_in normalized query l
  end.

Definition history_search_backward (b : ReadlineBuffer) : ro (ReadlineBuffer * bool) :=
  match entries (history b) with
  | [] => Ok (b, false)
  | _ :: _ =>
      let '(query, b) :=
        match history_cursor b with
        | Some _ => (draft_before_history b, b)
        | None => (line b, save_draft b)
        end in
      if bool_decide (query = []) then history_previous b
      else
        r ← search_before (normalized_entries (history b)) (to_lowercase query)
              (default (length (entries (history b))) (history_cursor b));
        match r with
        | Some index => b ← load_history_index index b; Ok (b, true)
        | None => Ok (b, false)
        end
  end.

Definition history_substring_match_before (b : ReadlineBuffer) (query : text) (before : nat)
    : ro (option nat) :=
  search_before (normalized_entries (history b)) (to_lowercase query)
    (Nat.min before (length (entries (history b)))).
Definition history_substring_match_after (b : ReadlineBuffer) (query : text) (after : nat)
    : ro (option nat) :=
  search_in (normalized_entries (history b)) (to_lowercase query)
    (seq (S after) (length (entries (history b)) - S after)).

(** ** Drafts of an incremental search *)

Definition draft_snapshot (b : ReadlineBuffer) : ReadlineDraft :=
  {| dr_line := line b; dr_cursor := cursor b; dr_paste_blocks := paste_blocks b;
     dr_next_paste_block_id := next_paste_block_id b |}.
Definition expanded_draft (d : ReadlineDraft) : text :=
  render_line_with_blocks (dr_line d) (dr_paste_blocks d) Expanded.
Definition restore_history_search_draft (d : ReadlineDraft) (b : ReadlineBuffer)
    : ReadlineBuffer :=
  clear_draft
    (set_navigation None false None
       (set_edit (dr_line d) (dr_cursor d) (dr_paste_blocks d) (dr_next_paste_block_id d) b)).
Definition load_history_search_match (index : nat) (d : ReadlineDraft) (b : ReadlineBuffer)
    : ro (ReadlineBuffer * bool) :=
  match entries (history b) !! index with
  | None => Ok (b, false)
  | Some _ =>
      b ← load_history_index index
            (set_draft (dr_line d) (dr_paste_blocks d) (dr_next_paste_block_id d) b);
      Ok (b, true)
  end.

(** ** Row movement *)

(** [self.line[current_start..self.cursor].chars().count()]. *)
Definition logical_column (b : ReadlineBuffer) : ro Z :=
  current_start ← line_start_before_cursor (line b) (cursor b);
  t ← slice (line b) current_start (cursor b);
  Ok (Z.of_nat (length t)).

(** Whether history navigation owns the vertical arrows. *)
Definition history_owns_arrows (b : ReadlineBuffer) : bool :=
  match history_cursor b with Some _ => negb (history_entry_cursor_navigation b) | None => false end.

Definition move_row_up_or_history_previous (b : ReadlineBuffer) : ro (ReadlineBuffer * bool) :=
  if history_owns_arrows b then history_previous b
  else
    current_column ← logical_column b;
    let preferred_column := default current_column (vertical_navigation_column b) in
    target ← previous_row_cursor_position (line b) (cursor b) preferred_column;
    match target with
    | Some target => Ok (set_cursor target (set_column (Some preferred_column) b), true)
    | None => history_previous (set_column None b)
    end.

Definition move_row_down_or_history_next (b : ReadlineBuffer) : ro (ReadlineBuffer * bool) :=
  if history_owns_arrows b then history_next b
  else
    current_column ← logical_column b;
    let preferred_column := default current_column (vertical_navigation_column b) in
    target ← next_row_cursor_position (line b) (cursor b) preferred_column;
    match target with
    | Some target => Ok (set_cursor target (set_column (Some preferred_column) b), true)
    | None => history_next (set_column None b)
    end.

(** The soft row of the cursor in its logical line. *)
Definition current_visual_row (columns : Z) (b : ReadlineBuffer) : ro (option (nat * Z)) :=
  current_start ← line_start_before_cursor (line b) (cursor b);
  current_end ← line_end_after_cursor (line b) (cursor b);
  rows ← visual_rows_for_logical_line (line b) current_start current_end columns;
  visual_row_index_and_column (line b) (cursor b) rows.

Definition move_visual_row_up_or_history_previous (columns : Z) (b : ReadlineBuffer)
    : ro (ReadlineBuffer * bool) :=
  if history_owns_arrows b then history_previous b
  else
    let columns := Z.max columns 1 in
    row ← current_visual_row columns b;
    match row with
    | None => move_row_up_or_history_previous (set_column None b)
    | Some (_, current_column) =>
        let preferred_column := default current_column (vertical_navigation_column b) in
        target ← previous_visual_row_cursor_position (line b) (cursor b) columns preferred_column;
        match target with
        | Some target => Ok (set_cursor target (set_column (Some preferred_column) b), true)
        | None => move_row_up_or_history_previous (set_column None b)
        end
    end.

Definition move_visual_row_down_or_history_next (columns : Z) (b : ReadlineBuffer)
    : ro (ReadlineBuffer * bool) :=
  if history_owns_arrows b then history_next b
  else
    let columns := Z.max columns 1 in
    row ← current_visual_row columns b;
    match row with
    | None => move_row_down_or_history_next (set_column None b)
    | Some (_, current_column) =>
        let preferred_column := default current_column (vertical_navigation_column b) in
        target ← next_visual_row_cursor_position (line b) (cursor b) columns preferred_column;
        match target with
        | Some target => Ok (set_cursor target (set_column (Some preferred_column) b), true)
        | None => move_row_down_or_history_next (set_column None b)
        end
    end.

(** ** Submission and the edit dispatcher *)

Definition submit_with_display (b : ReadlineBuffer)
    : ro (ReadlineBuffer * (text * text * list ReadlinePasteRange)) :=
  let submitted := expanded_line b in
  let display := rendered_line b in
  let ranges := collapsed_paste_ranges b in
  let b := clear_draft (set_navigation None false None
             (set_edit [] 0 [] (next_paste_block_id b) b)) in
  b ← remember_submission {| he_text := submitted; he_ranges := ranges |} b;
  Ok (b, (submitted, display, ranges)).
Definition submit (b : ReadlineBuffer) : ro (ReadlineBuffer * text) :=
  '(b, (submitted, _, _)) ← submit_with_display b; Ok (b, submitted).

Definition bool_outcome (changed : bool) : ReadlineOutcome := if changed then Edited else Noop.
Definition with_bool_outcome (r : ro (ReadlineBuffer * bool)) : ro (ReadlineBuffer * ReadlineOutcome) :=
  '(b, changed) ← r; Ok (b, bool_outcome changed).

Definition apply_edit (e : ReadlineEdit) (b : ReadlineBuffer)
    : ro (ReadlineBuffer * ReadlineOutcome) :=
  match e with
  | Insert c => b ← insert_char c b; Ok (b, Edited)
  | InsertText s => if bool_decide (s = []) then Ok (b, Noop) else b ← insert_text s b; Ok (b, Edited)
  | InsertPaste s =>
      if bool_decide (s = []) then Ok (b, Noop) else b ← insert_pasted_text s b; Ok (b, Edited)
  | MoveLeft => with_bool_outcome (move_left b)
  | MoveRight => with_bool_outcome (move_right b)
  | MoveWordLeft => with_bool_outcome (move_word_left b)
  | MoveWordRight => with_bool_outcome (move_word_right b)
  | MoveHome => with_bool_outcome (move_home b)
  | MoveEnd => with_bool_outcome (move_end b)
  | MoveBufferStart => with_bool_outcome (move_buffer_start b)
  | MoveBufferEnd => with_bool_outcome (move_buffer_end b)
  | MoveRowUpOrHistoryPrevious => with_bool_outcome (move_row_up_or_history_previous b)
  | MoveRowDownOrHistoryNext => with_bool_outcome (move_row_down_or_history_next b)
  | Backspace => with_bool_outcome (backspace b)
  | DeleteForward => with_bool_outcome (delete_forward b)
  | KillWordLeft => with_bool_outcome (kill_word_left b)
  | KillWordRight => with_bool_outcome (kill_word_right b)
  | KillToStart => with_bool_outcome (kill_to_start b)
  | KillToEnd => with_bool_outcome (kill_to_end b)
  | HistoryPrevious => with_bool_outcome (history_previous b)
  | HistoryNext => with_bool_outcome (history_next b)
  | HistorySearchBackward => with_bool_outcome (history_search_backward b)
  | Submit =>
      '(b, (s, display, ranges)) ← submit_with_display b;
      Ok (b, if bool_decide (s = display) then Submitted s
             else SubmittedWithDisplay s display ranges)
  end.

(** ** Display and source projection *)

Record ReadlineSourceSpan := {
  sp_display : Z * Z;
  sp_source : option (Z * Z);
  sp_collapsed : bool;
}.
Record ReadlineSourceProjection := {
  pj_display : text;
  pj_source : text;
  pj_spans : list ReadlineSourceSpan;
}.

(** Pushing an unaccepted insertion, and one character of the line. *)
Definition project_insertion (s : text) (p : ReadlineSourceProjection) : ReadlineSourceProjection :=
  {| pj_display := pj_display p ++ s; pj_source := pj_source p;
     pj_spans := pj_spans p ++
       [{| sp_display := (blen (pj_display p), blen (pj_display p ++ s));
           sp_source := None; sp_collapsed := false |}] |}.
Definition project_char (blocks : list ReadlinePasteBlock) (c : rchar)
    (p : ReadlineSourceProjection) : ReadlineSourceProjection :=
  let '(d, s, collapsed) :=
    match block_for_marker blocks c with
    | Some k => (pj_display p ++ paste_block_label (blen (pb_content k)),
                 pj_source p ++ pb_content k, true)
    | None => (pj_display p ++ [c], pj_source p ++ [c], false)
    end in
  {| pj_display := d; pj_source := s;
     pj_spans := pj_spans p ++
       [{| sp_display := (blen (pj_display p), blen d);
           sp_source := Some (blen (pj_source p), blen s); sp_collapsed := collapsed |}] |}.
Definition project_at (insertion : option (Z * text)) (index : Z)
    (p : ReadlineSourceProjection) : ReadlineSourceProjection :=
  match insertion with
  | Some (at_, s) => if at_ =? index then project_insertion s p else p
  | None => p
  end.
Definition source_projection (insertion : option (Z * text)) (b : ReadlineBuffer)
    : option ReadlineSourceProjection :=
  if match insertion with Some (at_, _) => negb (is_char_boundary (line b) at_) | None => false end
  then None
  else
    Some (project_at insertion (blen (line b))
            (foldl (fun p '(index, c) => project_char (paste_blocks b) c (project_at insertion index p))
               {| pj_display := []; pj_source := []; pj_spans := [] |}
               (char_indices (line b)))).

(** [str::get(range)]. *)
Definition get_range (s : text) (m n : Z) : option text :=
  match slice (E:=endless) s m n with Ok t => Some t | _ => None end.

Fixpoint copy_spans (p : ReadlineSourceProjection) (sel : Z * Z) (source : bool)
    (l : list ReadlineSourceSpan) : option text :=
  match l with
  | [] => Some []
  | span :: l =>
      let start := Z.max sel.1 (sp_display span).1 in
      let end_ := Z.min sel.2 (sp_display span).2 in
      if end_ <=? start then copy_spans p sel source l
      else
        match sp_source span with
        | None => copy_spans p sel source l
        | Some raw =>
            t ← (if source && sp_collapsed span then get_range (pj_source p) raw.1 raw.2
                 else if source then
                   offset ← checked_sub start (sp_display span).1;
                   raw_start ← checked_add u64_MAX raw.1 offset;
                   raw_end ← checked_add u64_MAX raw_start (end_ - start);
                   get_range (pj_source p) raw_start raw_end
                 else get_range (pj_display p) start end_);
            rest ← copy_spans p sel source l;
            Some (t ++ rest)
        end
  end.
Definition copy_range (p : ReadlineSourceProjection) (sel : Z * Z) (source : bool) : option text :=
  if (sel.2 <? sel.1) || negb (is_char_boundary (pj_display p) sel.1)
     || negb (is_char_boundary (pj_display p) sel.2)
  then None
  else copy_spans p sel source (pj_spans p).

End Buffer.
