(* ===== verification/ReadlineSpec.v ===== *)
(** * The line editor as text before and after the cursor

    The reference for the line buffer: a pair of texts, the one before and the
    one after the cursor, and what every edit of the line does to it.  The
    lemmas say what the offset functions of the buffer compute on a line cut
    at the cursor. *)

From S2P Require Import Prelude Utf8Text ReadlineText Readline.
#[local] Open Scope Z_scope.

(** ** Results without errors *)

(** The number of paste markers. *)
Definition MARKERS : Z := 0x20000.

Section Posts.
Context {A B : Type}.

(** The code returns, with a result that satisfies [Q]. *)
Definition yields (r : ro A) (Q : A -> Prop) : Prop := exists a, r = Ok a /\ Q a.
(** The code does not panic; it returns with a result that satisfies [Q], or
    searches without end for a paste marker, which it does only when the ids up
    to the last marker are all occupied. *)
Definition safe (r : ro A) (Q : A -> Prop) : Prop :=
  match r with
  | Ok a => Q a
  | Err (MarkersUsedUp next_id occupied) => 0 <= next_id /\ MARKERS <= next_id + Z.of_nat occupied
  | Err Endless | Panic => False
  end.

Lemma yields_Ok a (Q : A -> Prop) : Q a -> yields (Ok a) Q.
Proof. by exists a. Qed.
Lemma safe_Ok a (Q : A -> Prop) : Q a -> safe (Ok a) Q.
Proof. done. Qed.
Lemma yields_safe (r : ro A) Q : yields r Q -> safe r Q.
Proof. by intros (a & -> & HQ). Qed.
Lemma yields_mono (r : ro A) (P Q : A -> Prop) : yields r P -> (forall a, P a -> Q a) -> yields r Q.
Proof. intros (a & -> & HP) H. exists a. auto. Qed.
Lemma safe_mono (r : ro A) (P Q : A -> Prop) : safe r P -> (forall a, P a -> Q a) -> safe r Q.
Proof. destruct r as [a|[]|]; simpl; auto. Qed.
End Posts.

Lemma yields_bind {A B} (m : ro A) (f : A -> ro B) P Q :
  yields m P -> (forall a, P a -> yields (f a) Q) -> yields (m ≫= f) Q.
Proof. intros (a & -> & HP) H. by apply H. Qed.
Lemma safe_bind {A B} (m : ro A) (f : A -> ro B) P Q :
  safe m P -> (forall a, P a -> safe (f a) Q) -> safe (m ≫= f) Q.
Proof. destruct m as [a|[]|]; simpl; auto. Qed.
#[export] Hint Resolve yields_Ok safe_Ok : mez.

(** ** Runs of characters *)

(** The longest prefix of characters in [p], and what follows it. *)
Fixpoint take_while (p : rchar -> bool) (s : text) : text :=
  match s with [] => [] | c :: s => if p c then c :: take_while p s else [] end.
Fixpoint drop_while (p : rchar -> bool) (s : text) : text :=
  match s with [] => [] | c :: s => if p c then drop_while p s else c :: s end.
(** The text without its longest suffix of characters in [p]. *)
Definition rstrip (p : rchar -> bool) (s : text) : text := reverse (drop_while p (reverse s)).

Lemma take_drop_while p s : take_while p s ++ drop_while p s = s.
Proof. induction s as [|c s IH]; simpl; [done|]. destruct (p c); simpl; congruence. Qed.
Lemma rstrip_snoc p s c : rstrip p (s ++ [c]) = if p c then rstrip p s else s ++ [c].
Proof.
  unfold rstrip. rewrite reverse_snoc. simpl. destruct (p c); [done|].
  by rewrite reverse_cons, reverse_involutive.
Qed.
Lemma rstrip_prefix p s : exists t, s = rstrip p s ++ t.
Proof.
  induction s as [|c s [t IH]] using rev_ind; [by exists []|].
  rewrite rstrip_snoc. destruct (p c).
  - exists (t ++ [c]). rewrite (assoc_L (++)). by rewrite <- IH.
  - exists []. by rewrite app_nil_r.
Qed.
Lemma rstrip_nil p : rstrip p [] = [].
Proof. done. Qed.
Lemma rstrip_all p s : Forall (fun c => p c = true) s -> rstrip p s = [].
Proof.
  induction s as [|c s IH] using rev_ind; [done|].
  rewrite Forall_app, Forall_singleton. intros [? Hc]. rewrite rstrip_snoc, Hc. auto.
Qed.
Lemma take_while_all p s : Forall (fun c => p c = true) s -> take_while p s = s.
Proof. induction 1 as [|c s Hc _ IH]; simpl; [done|]. by rewrite Hc, IH. Qed.
Lemma rstrip_app_stop p a c s :
  p c = false -> Forall (fun c => p c = true) s -> rstrip p (a ++ c :: s) = a ++ [c].
Proof.
  intros Hc. induction s as [|d s IH] using rev_ind; intros Hs.
  - by rewrite rstrip_snoc, Hc.
  - rewrite Forall_app, Forall_singleton in Hs. destruct Hs as [Hs Hd].
    rewrite app_comm_cons, (assoc_L (++)), rstrip_snoc, Hd. by apply IH.
Qed.
Lemma take_while_app_stop p c s t :
  p c = false -> Forall (fun c => p c = true) s -> take_while p (s ++ c :: t) = s.
Proof. intros Hc. induction 1 as [|d s Hd _ IH]; simpl; [by rewrite Hc|]. by rewrite Hd, IH. Qed.

Definition not_newline (c : rchar) : bool := negb (c =? 10).
Lemma not_newline_all s : 10 ∉ s -> Forall (fun c => not_newline c = true) s.
Proof.
  intros H. rewrite Forall_forall. intros c Hc. unfold not_newline.
  destruct (c =? 10) eqn:E; [|done]. bool_to_prop. by subst.
Qed.

(** ** The reference editor *)

Section Spec.
Context {UT : UnicodeTables}.

(** Where a word movement to the left and to the right ends. *)
Definition word_left (a : text) : text :=
  let a := rstrip is_whitespace a in
  match last a with
  | None => a
  | Some c =>
      if readline_word_is_identifier c then rstrip readline_word_is_identifier a
      else rstrip readline_word_is_symbol a
  end.
Definition word_right (s : text) : text :=
  let w := take_while is_whitespace s in
  match drop_while is_whitespace s with
  | [] => w
  | (c :: _) as rest =>
      w ++ take_while (if readline_word_is_identifier c then readline_word_is_identifier
                       else readline_word_is_symbol) rest
  end.

(** The cursor moved left onto a prefix of the text before it, and right over
    a prefix of the text after it. *)
Definition spec_move_left (p : text) (z : text * text) : text * text :=
  (p, drop (length p) z.1 ++ z.2).
Definition spec_move_right (p : text) (z : text * text) : text * text :=
  (z.1 ++ p, drop (length p) z.2).

(** What an edit of the line does; paste blocks, rows, the history and
    submission are not edits of the line alone. *)
Definition spec_edit (e : ReadlineEdit) (z : text * text) : option (text * text) :=
  match e with
  | Insert c => Some (z.1 ++ [c], z.2)
  | InsertText s => Some (z.1 ++ s, z.2)
  | MoveLeft => Some (spec_move_left (removelast z.1) z)
  | MoveRight => Some (spec_move_right (take 1 z.2) z)
  | MoveWordLeft => Some (spec_move_left (word_left z.1) z)
  | MoveWordRight => Some (spec_move_right (word_right z.2) z)
  | MoveHome => Some (spec_move_left (rstrip not_newline z.1) z)
  | MoveEnd => Some (spec_move_right (take_while not_newline z.2) z)
  | MoveBufferStart => Some (spec_move_left [] z)
  | MoveBufferEnd => Some (spec_move_right z.2 z)
  | Backspace => Some (removelast z.1, z.2)
  | DeleteForward => Some (z.1, drop 1 z.2)
  | KillWordLeft => Some (word_left z.1, z.2)
  | KillWordRight => Some (z.1, drop (length (word_right z.2)) z.2)
  | KillToStart => Some ([], z.2)
  | KillToEnd => Some (z.1, [])
  | _ => None
  end.

Lemma word_left_prefix a : exists t, a = word_left a ++ t.
Proof.
  unfold word_left. destruct (rstrip_prefix is_whitespace a) as [t Ht].
  destruct (last _) as [c|]; [|by exists t]. set (a' := rstrip is_whitespace a) in *.
  assert (exists t', a' = (if readline_word_is_identifier c then rstrip readline_word_is_identifier a'
                           else rstrip readline_word_is_symbol a') ++ t') as [t' Ht'].
  { destruct (readline_word_is_identifier c); apply rstrip_prefix. }
  exists (t' ++ t). rewrite (assoc_L (++)). by rewrite <- Ht'.
Qed.
Lemma word_right_prefix s : exists t, s = word_right s ++ t.
Proof.
  unfold word_right. pose proof (take_drop_while is_whitespace s) as H.
  destruct (drop_while is_whitespace s) as [|c rest]; [by exists []; rewrite app_nil_r in *|].
  set (q := if readline_word_is_identifier c then _ else _).
  exists (drop_while q (c :: rest)). rewrite <- (assoc_L (++)), take_drop_while. done.
Qed.

(** ** The offset functions on a line cut at the cursor *)

Lemma bound_min a b : Z.min (blen a) (blen (a ++ b)) = blen a.
Proof. apply boundary_min, boundary_pre. Qed.

Lemma previous_char_cut a b :
  previous_char (a ++ b) (blen a) = Ok (last (char_indices a)).
Proof. unfold previous_char. by rewrite bound_min, slice_to_app. Qed.
Lemma next_char_cut a b :
  next_char (a ++ b) (blen a)
  = Ok (match b with [] => None | c :: _ => Some (blen a + len_utf8 c, c) end).
Proof. unfold next_char. by rewrite bound_min, slice_from_app. Qed.

Lemma skip_left_cut fuel p a b :
  (length a < fuel)%nat -> skip_left fuel p (a ++ b) (blen a) = Ok (blen (rstrip p a)).
Proof.
  revert a b. induction fuel as [|fuel IH]; intros a b Hf; [lia|].
  cbn [skip_left]. rewrite previous_char_cut. cbn [mbind outcome_bind].
  destruct a as [|c a _] using rev_ind; [done|].
  rewrite char_indices_snoc, rstrip_snoc. destruct (p c); [|done].
  rewrite <- (assoc_L (++)). apply IH. rewrite length_app in Hf. simpl in Hf. lia.
Qed.
Lemma skip_right_cut fuel p a b :
  (length b < fuel)%nat ->
  skip_right fuel p (a ++ b) (blen a) = Ok (blen a + blen (take_while p b)).
Proof.
  revert a b. induction fuel as [|fuel IH]; intros a b Hf; [lia|].
  cbn [skip_right]. rewrite next_char_cut. cbn [mbind outcome_bind].
  destruct b as [|c b]; cbn [take_while]; [by rewrite blen_nil, Z.add_0_r|].
  destruct (p c); [|by rewrite blen_nil, Z.add_0_r].
  replace (blen a + len_utf8 c) with (blen (a ++ [c])) by (rewrite blen_app, blen_cons, blen_nil; lia).
  replace (a ++ c :: b) with ((a ++ [c]) ++ b) by (by rewrite <- (assoc_L (++))).
  rewrite IH by (simpl in Hf; lia). rewrite blen_app, !blen_cons, blen_nil.
  f_equal. lia.
Qed.

Lemma previous_word_boundary_cut a b :
  previous_word_boundary (a ++ b) (blen a) = Ok (blen (word_left a)).
Proof.
  unfold previous_word_boundary, word_left. rewrite bound_min.
  rewrite skip_left_cut by (rewrite length_app; lia). cbn [mbind outcome_bind].
  destruct (rstrip_prefix is_whitespace a) as [t Ht]. set (a' := rstrip is_whitespace a) in *.
  rewrite Ht, <- (assoc_L (++)), previous_char_cut. cbn [mbind outcome_bind].
  destruct a' as [|c a' _] using rev_ind; [done|].
  rewrite char_indices_snoc, last_snoc.
  destruct (readline_word_is_identifier c); apply skip_left_cut; rewrite !length_app; simpl; lia.
Qed.
Lemma next_word_boundary_cut a b :
  next_word_boundary (a ++ b) (blen a) = Ok (blen a + blen (word_right b)).
Proof.
  unfold next_word_boundary, word_right. rewrite bound_min.
  rewrite skip_right_cut by (rewrite length_app; lia). cbn [mbind outcome_bind].
  pose proof (take_drop_while is_whitespace b) as H.
  set (w := take_while is_whitespace b) in *. set (rest := drop_while is_whitespace b) in *.
  rewrite <- H, (assoc_L (++)), <- blen_app, next_char_cut. cbn [mbind outcome_bind].
  destruct rest as [|c rest]; [by rewrite blen_app|].
  destruct (readline_word_is_identifier c); rewrite skip_right_cut by (rewrite !length_app; simpl; lia);
    rewrite !blen_app; f_equal; lia.
Qed.

Lemma previous_boundary_cut a b :
  previous_boundary (a ++ b) (blen a) = Ok (blen (removelast a)).
Proof.
  unfold previous_boundary. rewrite bound_min.
  destruct a as [|c a _] using rev_ind; [done|].
  rewrite slice_to_app, removelast_last. cbn [mbind outcome_bind].
  rewrite char_indices_snoc.
  destruct (blen (a ++ [c]) =? 0) eqn:E; [|done]. bool_to_prop.
  apply blen_zero in E. by destruct a.
Qed.
Lemma next_boundary_cut a b :
  next_boundary (a ++ b) (blen a) = Ok (blen a + blen (take 1 b)).
Proof.
  unfold next_boundary. rewrite bound_min, blen_app.
  destruct b as [|c b].
  - change (take 1 []) with (@nil Z). rewrite blen_nil, !Z.add_0_r. by rewrite Z.leb_refl.
  - rewrite blen_cons. pose proof (len_utf8_pos c). pose proof (blen_nonneg b).
    rewrite (proj2 (Z.leb_gt _ _)) by lia. rewrite slice_from_app. cbn [mbind outcome_bind].
    destruct b as [|d b]; unfold char_indices; simpl; rewrite ?blen_cons, blen_nil; f_equal; lia.
Qed.
Lemma line_start_cut a b :
  line_start_before_cursor (a ++ b) (blen a) = Ok (blen (rstrip not_newline a)).
Proof.
  unfold line_start_before_cursor. rewrite bound_min, slice_to_app. cbn [mbind outcome_bind].
  destruct (rfind_char 10 a) as [n|] eqn:H.
  - apply rfind_char_Some in H as (p & q & -> & -> & Hq).
    rewrite rstrip_app_stop by (done || by apply not_newline_all).
    by rewrite blen_app, blen_cons, blen_nil.
  - apply rfind_char_None in H. by rewrite rstrip_all by (by apply not_newline_all).
Qed.
Lemma line_end_cut a b :
  line_end_after_cursor (a ++ b) (blen a) = Ok (blen a + blen (take_while not_newline b)).
Proof.
  unfold line_end_after_cursor. rewrite bound_min, slice_from_app. cbn [mbind outcome_bind].
  destruct (find_char 10 b) as [n|] eqn:H.
  - apply find_char_Some in H as (p & q & -> & -> & Hq).
    by rewrite take_while_app_stop by (done || by apply not_newline_all).
  - apply find_char_None in H. rewrite take_while_all by (by apply not_newline_all).
    by rewrite blen_app.
Qed.

End Spec.

(** * Edits of the line refine the reference editor

    What insertions, cursor movements and deletions do to a buffer cut at its
    cursor, and that this is what the reference editor says. *)

(** The buffer shows the text [z.1], the cursor, and the text [z.2]. *)
Definition at_cut (b : ReadlineBuffer) (z : text * text) : Prop :=
  line b = z.1 ++ z.2 /\ cursor b = blen z.1.

(** Every paste block is in the line. *)
Definition blocks_present (b : ReadlineBuffer) : Prop :=
  Forall (fun k => pb_marker k ∈ line b) (paste_blocks b).

(** An edit of the line: the history stays, blocks go only with their marker. *)
Record line_edit (b b' : ReadlineBuffer) : Prop := {
  le_history : history b' = history b;
  le_limit : history_limit b' = history_limit b;
  le_id : next_paste_block_id b' = next_paste_block_id b;
  le_draft_id :
    draft_before_history_next_paste_block_id b' = draft_before_history_next_paste_block_id b;
  le_navigation :
    (history_cursor b' = history_cursor b /\ draft_before_history b' = draft_before_history b
     /\ draft_before_history_paste_blocks b' = draft_before_history_paste_blocks b)
    \/ (history_cursor b' = None /\ draft_before_history_paste_blocks b' = []);
  le_blocks : paste_blocks b' = filter (fun k => pb_marker k ∈ line b') (paste_blocks b);
}.

Lemma blocks_present_filter b (l : text) :
  Forall (fun k => pb_marker k ∈ l) (paste_blocks b) ->
  filter (fun k => pb_marker k ∈ l) (paste_blocks b) = paste_blocks b.
Proof. apply filter_all. Qed.

Lemma line_edit_refl b : blocks_present b -> line_edit b b.
Proof. intros Hb. split; [done..|by left|]. by rewrite blocks_present_filter. Qed.

Lemma cleanup_line b : line (cleanup_unused_paste_blocks b) = line b.
Proof. unfold cleanup_unused_paste_blocks. by destruct (paste_blocks b). Qed.
Lemma cleanup_cursor b : cursor (cleanup_unused_paste_blocks b) = cursor b.
Proof. unfold cleanup_unused_paste_blocks. by destruct (paste_blocks b). Qed.
Lemma cleanup_blocks b :
  paste_blocks (cleanup_unused_paste_blocks b)
  = filter (fun k => pb_marker k ∈ line b) (paste_blocks b).
Proof. unfold cleanup_unused_paste_blocks. by destruct (paste_blocks b) eqn:E. Qed.
(** Cleaning up touches the paste blocks only. *)
Lemma cleanup_eq b :
  cleanup_unused_paste_blocks b
  = set_edit (line b) (cursor b) (filter (fun k => pb_marker k ∈ line b) (paste_blocks b))
      (next_paste_block_id b) b.
Proof. unfold cleanup_unused_paste_blocks. destruct b as [? ? ? ? ? ? ? ? [] ? ? ?]; done. Qed.
#[export] Hint Rewrite cleanup_line cleanup_cursor cleanup_blocks : mezz.

Section Edits.
Context {UT : UnicodeTables}.

Lemma move_to_cut b z p q :
  blocks_present b -> at_cut b z -> line b = p ++ q ->
  exists b' ch, move_to (blen p) b = (b', ch) /\ at_cut b' (p, q) /\ line_edit b b'
    /\ (ch = false <-> (p, q) = z).
Proof.
  intros Hb [Hl Hc] Hpq. unfold move_to. destruct (cursor b =? blen p) eqn:E; bool_to_prop.
  - exists b, false. split; [done|]. rewrite Hc in E. rewrite Hpq in Hl.
    destruct (split_text_inj _ _ _ _ Hl) as [-> ->]; [done|]. destruct z as [a c]. simpl in *.
    split; [by split|]. split; [|done]. by apply line_edit_refl.
  - eexists _, true. split; [done|]. split; [done|].
    split; [split; [done..|by left|]; simpl; by rewrite blocks_present_filter|].
    split; [done|]. intros <-. simpl in *. congruence.
Qed.

Lemma delete_span_cut b a m c cur :
  line b = a ++ m ++ c ->
  exists b', delete_span (blen a) (blen a + blen m) cur b = Ok (b', true)
    /\ line b' = a ++ c /\ cursor b' = cur /\ line_edit b b'.
Proof.
  intros Hl. unfold delete_span.
  change (line (leave_history_navigation_for_edit b)) with (line b).
  rewrite Hl, replace_text_app. cbn [mbind outcome_bind app].
  eexists. split; [done|]. rewrite cleanup_eq. repeat split. by right.
Qed.

Lemma insert_text_cut b z s :
  blocks_present b -> at_cut b z ->
  exists b', insert_text s b = Ok b' /\ at_cut b' (z.1 ++ s, z.2) /\ line_edit b b'.
Proof.
  intros Hb [Hl Hc]. unfold insert_text.
  change (line (leave_history_navigation_for_edit b)) with (line b).
  change (cursor (leave_history_navigation_for_edit b)) with (cursor b).
  rewrite Hl, Hc, insert_str_app. cbn [mbind outcome_bind]. eexists. split; [done|].
  split; [split; simpl; [by rewrite <- (assoc_L (++))|by rewrite blen_app]|].
  split; [done..|by right|]. simpl. rewrite filter_all; [done|].
  eapply Forall_impl; [exact Hb|]. simpl. rewrite Hl. set_solver.
Qed.
Lemma insert_char_text c b : insert_char c b = insert_text [c] b.
Proof. unfold insert_char, insert_text. by rewrite blen_cons, blen_nil, Z.add_0_r. Qed.

Lemma move_left_to b : move_left b = (target ← previous_boundary (line b) (cursor b);
  if cursor b =? 0 then Ok (b, false) else Ok (set_cursor target (note_cursor_movement b), true)).
Proof.
  unfold move_left. destruct (cursor b =? 0) eqn:E; [|done].
  unfold previous_boundary. bool_to_prop. rewrite E.
  pose proof (blen_nonneg (line b)). by rewrite Z.min_l by lia.
Qed.

Lemma blen_removelast (a : text) : a <> [] -> blen (removelast a) < blen a.
Proof.
  intros H. destruct (exists_last H) as (p & c & ->). rewrite removelast_last, blen_app, blen_cons.
  pose proof (len_utf8_pos c). rewrite blen_nil. lia.
Qed.
Lemma removelast_prefix (a : text) : exists t, a = removelast a ++ t.
Proof.
  destruct a as [|c a _] using rev_ind; [by exists []|]. exists [c]. by rewrite removelast_last.
Qed.

(** A movement to a prefix of the text before the cursor, or over a prefix of
    the text after it. *)
Lemma move_left_cut b z p :
  blocks_present b -> at_cut b z -> (exists t, z.1 = p ++ t) ->
  exists b' ch, move_to (blen p) b = (b', ch) /\ at_cut b' (spec_move_left p z) /\ line_edit b b'
    /\ (ch = false <-> spec_move_left p z = z).
Proof.
  intros Hb Hz [t Ht]. apply move_to_cut; [done..|]. destruct Hz as [-> _]. simpl.
  rewrite Ht, drop_app_length. by rewrite <- (assoc_L (++)).
Qed.
Lemma move_right_cut b z p :
  blocks_present b -> at_cut b z -> (exists t, z.2 = p ++ t) ->
  exists b' ch, move_to (blen z.1 + blen p) b = (b', ch) /\ at_cut b' (spec_move_right p z)
    /\ line_edit b b' /\ (ch = false <-> spec_move_right p z = z).
Proof.
  intros Hb Hz [t Ht]. rewrite <- blen_app. apply move_to_cut; [done..|]. destruct Hz as [-> _]. simpl.
  rewrite Ht, drop_app_length. by rewrite <- (assoc_L (++)).
Qed.

(** What the theorem says of one edit. *)
Definition refines_to (b : ReadlineBuffer) (z z' : text * text)
    (r : ro (ReadlineBuffer * ReadlineOutcome)) : Prop :=
  exists b' o, r = Ok (b', o) /\ at_cut b' z' /\ line_edit b b'
    /\ (o = Noop <-> z' = z) /\ (o = Edited <-> z' <> z).

Lemma refines_move b z z' (r : ro (ReadlineBuffer * bool)) :
  (exists b' ch, r = Ok (b', ch) /\ at_cut b' z' /\ line_edit b b' /\ (ch = false <-> z' = z)) ->
  refines_to b z z' (with_bool_outcome r).
Proof.
  intros (b' & ch & -> & Hz & He & Hch). eexists b', (bool_outcome ch). split; [done|].
  split; [done|]. split; [done|]. destruct ch; simpl; intuition congruence.
Qed.
Lemma refines_moved b z z' target :
  (exists b' ch, move_to target b = (b', ch) /\ at_cut b' z' /\ line_edit b b' /\ (ch = false <-> z' = z)) ->
  refines_to b z z' (with_bool_outcome (Ok (move_to target b))).
Proof. intros (b' & ch & H & ?). apply refines_move. exists b', ch. by rewrite H. Qed.
Lemma refines_move_to b z z' target (r : ro Z) :
  r = Ok target ->
  (exists b' ch, move_to target b = (b', ch) /\ at_cut b' z' /\ line_edit b b' /\ (ch = false <-> z' = z)) ->
  refines_to b z z' (with_bool_outcome (target ← r; Ok (move_to target b))).
Proof.
  intros ->. apply refines_moved.
Qed.

(** A deletion of the span between the cursor and another boundary. *)
Lemma refines_delete b z a m c r :
  blocks_present b -> at_cut b z -> line b = a ++ m ++ c ->
  (m = [] -> r = Ok (b, false)) ->
  (m <> [] -> r = delete_span (blen a) (blen a + blen m) (blen a) b) ->
  (m = [] <-> (a, c) = z) ->
  refines_to b z (a, c) (with_bool_outcome r).
Proof.
  intros Hb Hz Hl H0 H1 Hm. apply refines_move. destruct (decide (m = [])) as [->|Hne].
  - rewrite H0 by done. exists b, false. split; [done|].
    rewrite (proj1 Hm) by done. split; [done|]. split; [|done]. by apply line_edit_refl.
  - rewrite H1 by done. destruct (delete_span_cut b a m c (blen a) Hl) as (b' & -> & ? & ? & ?).
    exists b', true. split; [done|]. split; [done|]. split; [done|]. naive_solver.
Qed.

Lemma app_nil_iff {A} (a m : list A) : m = [] <-> a = a ++ m.
Proof. split; [intros ->; by rewrite app_nil_r|]. intros H. apply (app_inv_head a). by rewrite app_nil_r. Qed.

(** Deleting to the left down to a prefix of the text before the cursor, and to
    the right over a prefix of the text after it. *)
Lemma refines_delete_left b z p r :
  blocks_present b -> at_cut b z -> (exists t, z.1 = p ++ t) ->
  (blen p = cursor b -> r = Ok (b, false)) ->
  (blen p <> cursor b -> r = delete_span (blen p) (cursor b) (blen p) b) ->
  refines_to b z (p, z.2) (with_bool_outcome r).
Proof.
  intros Hb Hz [t Ht] H0 H1. pose proof Hz as [Hl Hc]. rewrite Ht in Hl, Hc.
  rewrite blen_app in Hc. apply (refines_delete _ _ _ t); [done..| | | |].
  - by rewrite <- (assoc_L (++)) in Hl.
  - intros ->. apply H0. rewrite blen_nil in Hc. lia.
  - intros Hne. rewrite <- Hc. apply H1. rewrite Hc. intros E. apply Hne, blen_zero. lia.
  - destruct z as [a c]. simpl in *. rewrite Ht. rewrite (app_nil_iff p t). split; congruence.
Qed.
Lemma refines_delete_right b z p r :
  blocks_present b -> at_cut b z -> (exists t, z.2 = p ++ t) ->
  (p = [] -> r = Ok (b, false)) ->
  (p <> [] -> r = delete_span (cursor b) (cursor b + blen p) (cursor b) b) ->
  refines_to b z (z.1, drop (length p) z.2) (with_bool_outcome r).
Proof.
  intros Hb Hz [t Ht] H0 H1. pose proof Hz as [Hl Hc]. rewrite Ht, drop_app_length.
  apply (refines_delete _ _ _ p); [done|done| |done| |].
  - by rewrite Hl, Ht.
  - rewrite <- Hc. done.
  - destruct z as [a c]. simpl in *. rewrite Ht. split; [by intros ->|].
    intros [= E]. destruct p; [done|]. apply (f_equal length) in E. rewrite length_app in E.
    simpl in E. lia.
Qed.

(** Rendering does not see blocks whose marker is not in the line. *)
Lemma block_for_marker_filter blocks (l : text) c :
  c ∈ l -> block_for_marker (filter (fun k => pb_marker k ∈ l) blocks) c = block_for_marker blocks c.
Proof.
  intros Hc. unfold block_for_marker. induction blocks as [|k blocks IH]; [done|].
  rewrite !filter_cons. destruct (decide (pb_marker k ∈ l)) as [Hk|Hk].
  - rewrite filter_cons. by destruct (decide (pb_marker k = c)).
  - destruct (decide (pb_marker k = c)) as [<-|]; [done|]. exact IH.
Qed.
Lemma render_filter l l' blocks mode :
  l ⊆ l' ->
  render_line_with_blocks l (filter (fun k => pb_marker k ∈ l') blocks) mode
  = render_line_with_blocks l blocks mode.
Proof.
  unfold render_line_with_blocks. intros Hl. induction l as [|c l IH]; [done|].
  rewrite !bind_cons. f_equal; [|apply IH; set_solver].
  unfold render_char. by rewrite block_for_marker_filter by set_solver.
Qed.

Lemma move_left_move_to b z :
  at_cut b z -> move_left b = Ok (move_to (blen (removelast z.1)) b).
Proof.
  intros [Hl Hc]. unfold move_left, move_to. rewrite Hc.
  destruct (decide (z.1 = [])) as [->|Hne]; [done|].
  pose proof (blen_removelast _ Hne). rewrite !(proj2 (Z.eqb_neq _ _)); [|lia|].
  - change (line (note_cursor_movement b)) with (line b).
    change (cursor (note_cursor_movement b)) with (cursor b).
    by rewrite Hl, Hc, previous_boundary_cut.
  - by rewrite blen_zero.
Qed.
Lemma move_right_move_to b z :
  at_cut b z -> move_right b = Ok (move_to (blen z.1 + blen (take 1 z.2)) b).
Proof.
  intros [Hl Hc]. unfold move_right, move_to. rewrite Hc, Hl, blen_app.
  destruct z.2 as [|c s]; cbn [take].
  - rewrite !blen_nil, !Z.add_0_r, Z.leb_refl, Z.eqb_refl. done.
  - rewrite !blen_cons, take_0, blen_nil. pose proof (len_utf8_pos c). pose proof (blen_nonneg s).
    rewrite (proj2 (Z.leb_gt _ _)), (proj2 (Z.eqb_neq _ _)) by lia.
    change (line (note_cursor_movement b)) with (line b).
    change (cursor (note_cursor_movement b)) with (cursor b).
    rewrite Hl, Hc, next_boundary_cut. done.
Qed.

Lemma insert_refines b z s (r : ro ReadlineBuffer) :
  blocks_present b -> at_cut b z -> s <> [] -> r = insert_text s b ->
  refines_to b z (z.1 ++ s, z.2) (b ← r; Ok (b, Edited)).
Proof.
  intros Hb Hz Hs ->. destruct (insert_text_cut b z s Hb Hz) as (b' & -> & ? & ?).
  exists b', Edited. split; [done|]. split; [done|]. split; [done|].
  assert ((z.1 ++ s, z.2) <> z) as Hne; [|by split].
  destruct z as [a c]. simpl. intros [= E]. by apply Hs, (app_nil_iff a).
Qed.

Lemma take_prefix n (s : text) : exists t, s = take n s ++ t.
Proof. exists (drop n s). by rewrite take_drop. Qed.
Lemma take_while_prefix p s : exists t, s = take_while p s ++ t.
Proof. exists (drop_while p s). by rewrite take_drop_while. Qed.

Lemma kill_to_end_span b z :
  at_cut b z -> z.2 <> [] ->
  kill_to_end b = delete_span (cursor b) (cursor b + blen z.2) (cursor b) b.
Proof.
  intros [Hl Hc] Hne. unfold kill_to_end, delete_span.
  change (line (leave_history_navigation_for_edit b)) with (line b).
  change (cursor (leave_history_navigation_for_edit b)) with (cursor b).
  rewrite Hl, Hc, truncate_app, blen_app.
  rewrite (proj2 (Z.eqb_neq _ _)) by (rewrite <- blen_zero in Hne; lia).
  pose proof (replace_text_app (E:=endless) z.1 z.2 [] []) as H. rewrite !app_nil_r in H.
  by rewrite H.
Qed.

Lemma apply_edit_refines e b z z' :
  blocks_present b -> at_cut b z -> spec_edit e z = Some z' -> refines_to b z z' (apply_edit e b).
Proof.
  intros Hb Hz. pose proof Hz as [Hl Hc].
  destruct e; cbn [spec_edit apply_edit]; intros Hs; simplify_eq.
  - apply insert_refines; [done..|]. apply insert_char_text.
  - case_bool_decide as Es; [|by apply insert_refines]. subst s. rewrite app_nil_r.
    exists b, Noop. split; [done|]. split; [by destruct z|]. split; [|by destruct z].
    by apply line_edit_refl.
  - rewrite (move_left_move_to b z) by done. apply refines_moved.
    apply move_left_cut; [done..|]. apply removelast_prefix.
  - rewrite (move_right_move_to b z) by done. apply refines_moved.
    apply move_right_cut; [done..|]. apply take_prefix.
  - eapply refines_move_to; [rewrite Hl, Hc; apply previous_word_boundary_cut|].
    apply move_left_cut; [done..|]. apply word_left_prefix.
  - eapply refines_move_to; [rewrite Hl, Hc; apply next_word_boundary_cut|].
    apply move_right_cut; [done..|]. apply word_right_prefix.
  - eapply refines_move_to; [rewrite Hl, Hc; apply line_start_cut|].
    apply move_left_cut; [done..|]. apply rstrip_prefix.
  - eapply refines_move_to; [rewrite Hl, Hc; apply line_end_cut|].
    apply move_right_cut; [done..|]. apply take_while_prefix.
  - apply refines_moved.
    apply (move_left_cut b z []); [done..|]. by exists z.1.
  - eapply refines_moved. rewrite Hl, blen_app.
    apply move_right_cut; [done..|]. exists []. by rewrite app_nil_r.
  - apply refines_delete_left; [done..|apply removelast_prefix| |]; unfold backspace; rewrite Hc.
    + intros E. destruct (decide (z.1 = [])) as [->|Hne]; [done|].
      pose proof (blen_removelast _ Hne). lia.
    + intros E. rewrite (proj2 (Z.eqb_neq _ _)), Hl, previous_boundary_cut; [done|].
      rewrite blen_zero. intros E0. by rewrite E0 in E.
  - replace (drop 1 z.2) with (drop (length (take 1 z.2)) z.2) by (by destruct z.2).
    apply refines_delete_right; [done..|apply take_prefix| |]; unfold delete_forward;
      rewrite Hc, Hl, blen_app; pose proof (blen_nonneg z.2).
    + intros E. destruct z.2; [|done]. by rewrite (proj2 (Z.leb_le _ _)) by (rewrite blen_nil; lia).
    + intros E. rewrite (proj2 (Z.leb_gt _ _)), next_boundary_cut; [done|].
      assert (blen z.2 <> 0); [|lia]. rewrite blen_zero. intros E0. by rewrite E0 in E.
  - apply refines_delete_left; [done..|apply word_left_prefix| |]; unfold kill_word_left;
      rewrite Hc, Hl, previous_word_boundary_cut; cbn [mbind outcome_bind]; intros E.
    + by rewrite (proj2 (Z.eqb_eq _ _)).
    + by rewrite (proj2 (Z.eqb_neq _ _)).
  - apply refines_delete_right; [done..|apply word_right_prefix| |]; unfold kill_word_right;
      rewrite Hc, Hl, next_word_boundary_cut; cbn [mbind outcome_bind]; intros E.
    + rewrite E, blen_nil. by rewrite (proj2 (Z.eqb_eq _ _)) by lia.
    + rewrite (proj2 (Z.eqb_neq _ _)); [done|]. rewrite <- blen_zero in E. lia.
  - apply refines_delete_left; [done..|by exists z.1| |]; unfold kill_to_start; intros E.
    + by rewrite <- E.
    + by rewrite (proj2 (Z.eqb_neq _ _)).
  - replace (@nil Z) with (drop (length z.2) z.2) by (by rewrite drop_all).
    apply refines_delete_right; [done..|exists []; by rewrite app_nil_r| |]; intros E.
    + unfold kill_to_end. rewrite Hc, Hl, E, app_nil_r, Z.eqb_refl. done.
    + by apply kill_to_end_span.
Qed.

End Edits.
