(* ===== verification/ReadlineRows.v ===== *)
(** * Rows of the line

    Movement between logical rows and between soft-wrapped rows stays on
    character boundaries, and the soft-wrapped rows of a logical line are a
    partition of it into rows that fit, broken after a space where there is
    one. *)

From S2P Require Import Prelude Utf8Text ReadlineText Readline ReadlineSpec.
#[local] Open Scope Z_scope.

Section Rows.
Context {UT : UnicodeTables}.

(** ** Slices between boundaries *)

Lemma slice_cut s m n :
  boundary s m -> boundary s n -> m <= n ->
  exists a t c, s = a ++ t ++ c /\ m = blen a /\ n = blen a + blen t /\ slice (E:=endless) s m n = Ok t.
Proof.
  intros Hm Hn Hle. destruct (boundaries_cut s m n Hm Hn Hle) as (a & t & c & -> & -> & ->).
  exists a, t, c. repeat split. apply slice_app.
Qed.

(** An offset of [s] between two others. *)
Definition boundary_in (s : text) (m n i : Z) : Prop := boundary s i /\ m <= i <= n.

Lemma boundary_in_offset a t c i d :
  (i, d) ∈ char_indices t -> boundary_in (a ++ t ++ c) (blen a) (blen a + blen t) (blen a + i).
Proof.
  intros (p & q & -> & ->)%char_indices_from_elem. rewrite Z.add_0_l. split.
  - apply boundary_app_r, boundary_app_l, boundary_pre.
  - rewrite blen_app. pose proof (blen_nonneg p). pose proof (blen_nonneg (d :: q)). lia.
Qed.
Lemma boundary_in_end a t c :
  boundary_in (a ++ t ++ c) (blen a) (blen a + blen t) (blen a + blen t).
Proof. split; [by apply boundary_app_r, boundary_pre|]. pose proof (blen_nonneg t). lia. Qed.

Lemma byte_index_scan_spec l consumed column start e :
  byte_index_scan l consumed column start e = e
  \/ exists i d, (i, d) ∈ l /\ byte_index_scan l consumed column start e = start + i.
Proof.
  revert consumed. induction l as [|[i d] l IH]; intros k; [by left|]. cbn [byte_index_scan].
  destruct (k =? column).
  - right. exists i, d. split; [left|done].
  - destruct (IH (k + 1)) as [H|(j & d' & Hj & ->)]; [by left|].
    right. exists j, d'. split; [by right|done].
Qed.
Lemma display_column_scan_spec l width column start e :
  display_column_scan l width column start e = e
  \/ exists i d, (i, d) ∈ l /\ display_column_scan l width column start e = start + i.
Proof.
  revert width. induction l as [|[i d] l IH]; intros k; [by left|]. cbn [display_column_scan].
  destruct (column <=? k).
  - right. exists i, d. split; [left|done].
  - destruct (IH (k + cell_width d)) as [H|(j & d' & Hj & ->)]; [by left|].
    right. exists j, d'. split; [by right|done].
Qed.

Lemma byte_index_for_column_in s m n column :
  boundary s m -> boundary s n -> m <= n ->
  yields (byte_index_for_column s m n column) (boundary_in s m n).
Proof.
  intros Hm Hn Hle. destruct (slice_cut s m n Hm Hn Hle) as (a & t & c & -> & -> & -> & Hs).
  unfold byte_index_for_column. rewrite Hs. apply yields_Ok.
  destruct (byte_index_scan_spec (char_indices t) 0 column (blen a) (blen a + blen t))
    as [->|(i & d & Hi & ->)]; [apply boundary_in_end|by eapply boundary_in_offset].
Qed.
Lemma byte_index_for_display_column_in s m n column :
  boundary s m -> boundary s n -> m <= n ->
  yields (byte_index_for_display_column s m n column) (boundary_in s m n).
Proof.
  intros Hm Hn Hle. destruct (slice_cut s m n Hm Hn Hle) as (a & t & c & -> & -> & -> & Hs).
  unfold byte_index_for_display_column. rewrite Hs. apply yields_Ok.
  destruct (display_column_scan_spec (char_indices t) 0 column (blen a) (blen a + blen t))
    as [->|(i & d & Hi & ->)]; [apply boundary_in_end|by eapply boundary_in_offset].
Qed.
Lemma display_width_yields s m n :
  boundary s m -> boundary s n -> m <= n -> yields (display_width_between s m n) (fun w => 0 <= w).
Proof.
  intros Hm Hn Hle. destruct (slice_cut s m n Hm Hn Hle) as (a & t & c & -> & -> & -> & Hs).
  unfold display_width_between. rewrite Hs. apply yields_Ok, sum_Z_nonneg.
  rewrite Forall_fmap. apply Forall_true. intros d. unfold cell_width. simpl. lia.
Qed.

(** ** Logical rows *)

(** The start of a logical row, after a newline or at the start of the text,
    and its end. *)
Definition row_start_of (s : text) (n m : Z) : Prop :=
  boundary s m /\ m <= n /\ (m = 0 \/ boundary s (m - 1)).
Definition row_end_of (s : text) (n m : Z) : Prop :=
  boundary s m /\ n <= m /\ (m = blen s \/ boundary s (m + 1)).

Lemma line_start_yields s n :
  boundary s n -> yields (line_start_before_cursor s n) (row_start_of s n).
Proof.
  intros (a & b & -> & ->). rewrite line_start_cut. apply yields_Ok.
  destruct (rstrip_prefix not_newline a) as [t Ht].
  split; [|split].
  - rewrite Ht at 1. rewrite <- (assoc_L (++)). apply boundary_pre.
  - rewrite Ht at 2. rewrite blen_app. pose proof (blen_nonneg t). lia.
  - destruct (decide (10 ∈ a)) as [Hin|Hin].
    + right. destruct (rfind_char 10 a) as [k|] eqn:E; [|by apply rfind_char_None in E].
      apply rfind_char_Some in E as (p & q & -> & -> & Hq).
      rewrite rstrip_app_stop by (done || by apply not_newline_all).
      rewrite blen_app, blen_cons, blen_nil. replace (_ - 1) with (blen p) by (cbn; lia).
      rewrite <- (assoc_L (++)). apply boundary_pre.
    + left. by rewrite rstrip_all by (by apply not_newline_all).
Qed.
Lemma line_end_yields s n :
  boundary s n -> yields (line_end_after_cursor s n) (row_end_of s n).
Proof.
  intros (a & b & -> & ->). rewrite line_end_cut. apply yields_Ok.
  pose proof (take_drop_while not_newline b) as Hb.
  pose proof (blen_nonneg (take_while not_newline b)). split; [|split; [lia|]].
  - rewrite <- Hb at 1. apply boundary_app_r, boundary_pre.
  - destruct (decide (10 ∈ b)) as [Hin|Hin].
    + right. destruct (find_char 10 b) as [k|] eqn:E; [|by apply find_char_None in E].
      apply find_char_Some in E as (p & q & -> & -> & Hq).
      rewrite take_while_app_stop by (done || by apply not_newline_all).
      rewrite <- Z.add_assoc. apply boundary_app_r. exists (p ++ [10]), q.
      rewrite <- (assoc_L (++)). split; [done|]. by rewrite blen_app.
    + left. rewrite take_while_all by (by apply not_newline_all). by rewrite blen_app.
Qed.

(** Optional cursor positions are boundaries. *)
Definition lands (s : text) (o : option Z) : Prop := forall i, o = Some i -> boundary s i.
Lemma lands_None s : lands s None.
Proof. by intros i. Qed.
Lemma lands_Some s m n i : boundary_in s m n i -> lands s (Some i).
Proof. by intros [? _] j [= <-]. Qed.

Lemma sat_sub_1 n : 1 <= n -> sat_sub n 1 = n - 1.
Proof. unfold sat_sub. lia. Qed.

(** The row above one that does not start the text. *)
Lemma row_above s n m :
  boundary s n -> row_start_of s n m -> m <> 0 ->
  boundary s (sat_sub m 1)
  /\ yields (line_start_before_cursor s (sat_sub m 1)) (fun k => boundary s k /\ k <= sat_sub m 1).
Proof.
  intros Hn (Hm & Hle & [->|H1]) Hne; [done|].
  pose proof (boundary_range _ _ H1). rewrite sat_sub_1 by lia. split; [done|].
  eapply yields_mono; [by apply line_start_yields|]. by intros k (? & ? & _).
Qed.
(** The row below one that does not end the text. *)
Lemma row_under s n m :
  row_end_of s n m -> blen s <=? m = false ->
  boundary s (m + 1)
  /\ yields (line_end_after_cursor s (m + 1)) (fun k => boundary s k /\ m + 1 <= k).
Proof.
  intros (Hm & Hle & H1) Hlt. bool_to_prop. destruct H1 as [->|H1]; [lia|]. split; [done|].
  eapply yields_mono; [by apply line_end_yields|]. by intros k (? & ? & _).
Qed.

Lemma previous_row_lands s n column :
  boundary s n -> yields (previous_row_cursor_position s n column) (lands s).
Proof.
  intros Hn. unfold previous_row_cursor_position.
  eapply yields_bind; [by apply line_start_yields|]. intros m Hm.
  destruct (m =? 0) eqn:E; [apply yields_Ok, lands_None|]. bool_to_prop.
  destruct (row_above s n m Hn Hm E) as [Hp Hy].
  eapply yields_bind; [exact Hy|]. intros k [Hk Hle].
  eapply yields_bind; [by apply byte_index_for_column_in|]. intros i Hi.
  by eapply yields_Ok, lands_Some.
Qed.
Lemma next_row_lands s n column :
  boundary s n -> yields (next_row_cursor_position s n column) (lands s).
Proof.
  intros Hn. unfold next_row_cursor_position.
  eapply yields_bind; [by apply line_end_yields|]. intros m Hm.
  destruct (blen s <=? m) eqn:E; [apply yields_Ok, lands_None|].
  destruct (row_under s n m Hm E) as [Hp Hy].
  eapply yields_bind; [exact Hy|]. intros k [Hk Hle].
  eapply yields_bind; [by apply byte_index_for_column_in|]. intros i Hi.
  by eapply yields_Ok, lands_Some.
Qed.

(** ** Soft-wrapped rows *)

Definition cells (t : text) : Z := sum_Z (cell_width <$> t).

Lemma cells_app s t : cells (s ++ t) = cells s + cells t.
Proof. unfold cells. by rewrite fmap_app, sum_Z_app. Qed.
Lemma cells_cons c t : cells (c :: t) = cell_width c + cells t.
Proof. done. Qed.
Lemma cell_width_pos c : 1 <= cell_width c.
Proof. unfold cell_width. lia. Qed.
Lemma cells_ge_length t : Z.of_nat (length t) <= cells t.
Proof.
  induction t as [|c t IH]; [done|]. rewrite cells_cons. pose proof (cell_width_pos c). simpl. lia.
Qed.

(** A row fits its columns, or is one wide character. *)
Definition fits (columns : Z) (t : text) : Prop := cells t <= columns \/ (length t <= 1)%nat.
(** Where a row may be broken before [rest]: at the end of the line, after a
    space, or, in a row without spaces after its first character, where the
    next character does not fit. *)
Definition breaks (columns : Z) (t rest : text) : Prop :=
  rest = []
  \/ (exists p c, t = p ++ [c] /\ is_whitespace c = true)
  \/ (forall c p q, t = p ++ c :: q -> p <> [] -> is_whitespace c = false)
     /\ (forall d, head rest = Some d -> columns < cells t + cell_width d).
Fixpoint wrapped (columns : Z) (ts : list text) : Prop :=
  match ts with
  | [] => True
  | t :: ts => t <> [] /\ fits columns t /\ breaks columns t (concat ts) /\ wrapped columns ts
  end.
(** The rows of consecutive texts from an offset. *)
Fixpoint rows_of (start : Z) (ts : list text) : list VisualRow :=
  match ts with
  | [] => []
  | t :: ts =>
      {| vr_start := start; vr_end := start + blen t;
         end_cursor_belongs_to_next := match ts with [] => false | _ => true end |}
      :: rows_of (start + blen t) ts
  end.

(** The last break after a space that the scan remembers. *)
Definition space_in (start : Z) (p : text) (space : option (Z * Z)) : Prop :=
  match space with
  | None => forall c u v, p = u ++ c :: v -> u <> [] -> is_whitespace c = false
  | Some (i, n) => exists u c v, p = u ++ c :: v /\ u <> [] /\ is_whitespace c = true
                     /\ i = start + blen u /\ n = start + blen u + len_utf8 c
  end.

Lemma space_in_snoc start p c space :
  space_in start p space ->
  space_in start (p ++ [c])
    (if is_whitespace c && (0 <? cells p) then Some (start + blen p, start + blen p + len_utf8 c)
     else space).
Proof.
  intros Hs. destruct (is_whitespace c && (0 <? cells p)) eqn:E.
  - apply andb_true_iff in E as [Hw H0]. bool_to_prop. exists p, c, []. repeat split; [|done].
    intros ->. by cbn in H0.
  - destruct space as [[i n]|]; simpl in *.
    + destruct Hs as (u & d & v & -> & Hu & Hw & -> & ->). exists u, d, (v ++ [c]).
      by rewrite <- (assoc_L (++)).
    + intros d u v Huv Hu. destruct v as [|d' v _] using rev_ind.
      * apply app_inj_tail in Huv as [-> ->]. apply andb_false_iff in E as [|E]; [done|].
        bool_to_prop. pose proof (cells_ge_length u). destruct u; [done|]. simpl in *. lia.
      * rewrite app_comm_cons, (assoc_L (++)) in Huv. apply app_inj_tail in Huv as [-> _].
        by eapply Hs.
Qed.

(** The scan takes a prefix of the text that fits, and stops before a
    character that does not. *)
Lemma visual_row_scan_spec t start columns p space :
  space_in start p space -> fits columns p ->
  exists q r space', t = q ++ r
    /\ visual_row_scan (char_indices_from (blen p) t) start columns (cells p) (start + blen p) space
       = (start + blen (p ++ q), space')
    /\ space_in start (p ++ q) space' /\ fits columns (p ++ q)
    /\ (t <> [] -> p ++ q <> [])
    /\ (forall d, head r = Some d -> columns < cells (p ++ q) + cell_width d).
Proof.
  revert p space. induction t as [|c t IH]; intros p space Hs Hf; cbn [char_indices_from visual_row_scan].
  { exists [], [], space. rewrite !app_nil_r. do 4 (split; [done|]). split; [congruence|done]. }
  pose proof (cell_width_pos c) as Hc. pose proof (cells_ge_length p) as Hp.
  destruct ((0 <? cells p) && (columns <? cells p + cell_width c)) eqn:E1.
  { apply andb_true_iff in E1 as [E0 E1]. bool_to_prop. exists [], (c :: t), space.
    rewrite app_nil_r. repeat split; try done; [intros _ ->; change (cells []) with 0 in E0; lia|].
    by intros d [= <-]. }
  assert (fits columns (p ++ [c])) as Hf'.
  { apply andb_false_iff in E1 as [E1|E1]; bool_to_prop.
    - right. rewrite length_app. simpl. lia.
    - left. rewrite cells_app. cbn. lia. }
  pose proof (space_in_snoc _ _ c _ Hs) as Hs'.
  assert (cells p + cell_width c = cells (p ++ [c])) as Hw by (rewrite cells_app; cbn; lia).
  assert (start + blen p + len_utf8 c = start + blen (p ++ [c])) as Hb
    by (rewrite blen_app, blen_cons, blen_nil; lia).
  rewrite Hw, Hb in *. destruct (columns <=? cells (p ++ [c])) eqn:E2.
  { bool_to_prop. eexists [c], t, _. repeat split; try done; [by destruct p|].
    intros d _. pose proof (cell_width_pos d). lia. }
  replace (blen p + len_utf8 c) with (blen (p ++ [c])) by (rewrite blen_app, blen_cons, blen_nil; lia).
  destruct (IH (p ++ [c]) _ Hs' Hf') as (q & r & sp & -> & -> & H).
  rewrite <- (assoc_L (++)) in *. exists (c :: q), r, sp. split; [done|]. split; [done|].
  destruct H as (? & ? & _ & ?). repeat split; try done. by destruct p.
Qed.

Lemma fits_prefix columns p q : fits columns (p ++ q) -> fits columns p.
Proof.
  unfold fits. rewrite cells_app, length_app. pose proof (cells_ge_length q). intros [?|?]; [left|right]; lia.
Qed.

(** One row of a text that is not empty. *)
Lemma visual_row_end_spec a t c columns :
  t <> [] ->
  exists q r, t = q ++ r /\ q <> [] /\ fits columns q /\ breaks columns q r
    /\ visual_row_end (a ++ t ++ c) (blen a) (blen a + blen t) columns
       = Ok (blen a + blen q, blen a + blen q, match r with [] => false | _ => true end).
Proof.
  intros Hne. unfold visual_row_end. rewrite slice_app. cbn [mbind outcome_bind].
  destruct (visual_row_scan_spec t (blen a) columns [] None) as (q & r & sp & -> & Hscan & Hsp & Hf & Hq & Hr).
  { intros d u v H. by destruct u. } { right. simpl. lia. }
  unfold char_indices. cbn [app] in *. rewrite blen_nil, Z.add_0_r in Hscan.
  change (cells []) with 0 in Hscan. rewrite Hscan.
  destruct r as [|d r].
  { exists q, []. rewrite app_nil_r in *. rewrite Z.leb_refl. repeat split; auto. by left. }
  rewrite blen_app, blen_cons. pose proof (len_utf8_pos d). pose proof (blen_nonneg r).
  rewrite (proj2 (Z.leb_gt _ _)) by lia.
  destruct sp as [[i n]|].
  - destruct Hsp as (u & e & v & -> & Hu & Hw & -> & ->).
    assert (0 < blen u) by (pose proof (blen_ge_length u); destruct u; simpl in *; [done|lia]).
    rewrite (proj2 (Z.ltb_lt _ _)) by lia.
    exists (u ++ [e]), (v ++ d :: r). rewrite <- !(assoc_L (++)). split; [done|].
    split; [by destruct u|]. split; [by eapply (fits_prefix _ _ v); rewrite <- (assoc_L (++))|].
    split; [right; left; eauto|]. rewrite !blen_app, !blen_cons, blen_nil.
    pose proof (blen_nonneg v). rewrite (proj2 (Z.ltb_lt _ _)) by lia.
    rewrite Z.add_0_r, Z.add_assoc. by destruct v.
  - exists q, (d :: r). repeat split; auto; [by right; right|].
    by rewrite (proj2 (Z.ltb_lt _ _)) by lia.
Qed.

Lemma visual_rows_loop_spec fuel a t c columns :
  (length t < fuel)%nat ->
  exists ts, t = concat ts /\ wrapped columns ts
    /\ visual_rows_loop fuel (a ++ t ++ c) (blen a) (blen a + blen t) columns
       = Ok (rows_of (blen a) ts).
Proof.
  revert a t. induction fuel as [|fuel IH]; intros a t Hf; [lia|]. cbn [visual_rows_loop].
  destruct (decide (t = [])) as [->|Hne].
  { exists []. repeat split. rewrite (proj2 (Z.ltb_ge _ _)) by (rewrite blen_nil; lia). done. }
  pose proof Hne as H0. rewrite <- blen_zero in H0. pose proof (blen_nonneg t).
  rewrite (proj2 (Z.ltb_lt _ _)) by lia.
  destruct (visual_row_end_spec a t c columns Hne) as (q & r & -> & Hq & Hfit & Hbr & ->).
  cbn [mbind outcome_bind].
  assert (length r < fuel)%nat as Hr by (rewrite length_app in Hf; destruct q; simpl in *; [done|lia]).
  destruct (IH (a ++ q) r Hr) as (ts & -> & Hw & Hl).
  rewrite blen_app, <- (assoc_L (++)) in Hl.
  rewrite <- (assoc_L (++)), blen_app, Z.add_assoc, Hl. cbn [mbind outcome_bind].
  exists (q :: ts). split; [done|]. split; [done|]. cbn [rows_of].
  destruct ts as [|t' ts]; [done|]. destruct Hw as (Ht' & _). simpl. by destruct t'.
Qed.

(** The rows of a logical line: [ts] concatenates to it. *)
Definition rows_partition (columns : Z) (t : text) (ts : list text) : Prop :=
  t = concat ts /\ (t = [] /\ ts = [[]] \/ t <> [] /\ wrapped columns ts).

Lemma visual_rows_spec a t c columns :
  exists ts, rows_partition columns t ts
    /\ visual_rows_for_logical_line (a ++ t ++ c) (blen a) (blen a + blen t) columns
       = Ok (rows_of (blen a) ts).
Proof.
  unfold visual_rows_for_logical_line.
  destruct (visual_rows_loop_spec (S (length (a ++ t ++ c))) a t c columns) as (ts & Ht & Hw & ->).
  { rewrite !length_app. lia. }
  cbn [mbind outcome_bind]. destruct ts as [|q ts].
  - exists [[]]. subst t. split; [by split; [|left]|]. done.
  - exists (q :: ts). split; [|done]. split; [done|]. right. split; [|done].
    destruct Hw as [Hq _]. subst t. simpl. by destruct q.
Qed.

(** ** Movement between soft-wrapped rows *)

Definition row_in (s : text) (row : VisualRow) : Prop :=
  boundary s (vr_start row) /\ boundary s (vr_end row) /\ vr_start row <= vr_end row.

Lemma rows_of_in a ts c : Forall (row_in (a ++ concat ts ++ c)) (rows_of (blen a) ts).
Proof.
  revert a. induction ts as [|t ts IH]; intros a; cbn [rows_of concat]; constructor.
  - pose proof (blen_nonneg t). split; [apply boundary_pre|]. cbn [vr_start vr_end].
    split; [|lia]. rewrite <- (assoc_L (++)). apply boundary_app_r, boundary_pre.
  - specialize (IH (a ++ t)). rewrite blen_app in IH. rewrite <- !(assoc_L (++)) in IH |- *. exact IH.
Qed.

Lemma visual_rows_yields s m n columns :
  boundary s m -> boundary s n -> m <= n ->
  yields (visual_rows_for_logical_line s m n columns) (Forall (row_in s)).
Proof.
  intros Hm Hn Hle. destruct (boundaries_cut s m n Hm Hn Hle) as (a & t & c & -> & -> & ->).
  destruct (visual_rows_spec a t c columns) as (ts & [-> _] & ->). apply yields_Ok, rows_of_in.
Qed.

Lemma visual_row_index_yields s cursor rows :
  boundary s cursor -> Forall (row_in s) rows ->
  yields (visual_row_index_and_column s cursor rows)
    (fun o => forall i w, o = Some (i, w) -> (i < length rows)%nat /\ 0 <= w).
Proof.
  intros Hc Hrows. unfold visual_row_index_and_column.
  assert (forall k, yields (visual_row_index_from s cursor k rows)
    (fun o => forall i w, o = Some (i, w) -> (i < k + length rows)%nat /\ 0 <= w)) as G; [|apply G].
  induction Hrows as [|row rows (Hs & He & Hle) _ IH]; intros k; cbn [visual_row_index_from].
  { by apply yields_Ok. }
  assert (yields (visual_row_index_from s cursor (S k) rows)
    (fun o => forall i w, o = Some (i, w) -> (i < k + length (row :: rows))%nat /\ 0 <= w)) as Hnext.
  { eapply yields_mono; [apply IH|]. intros o Ho i w H. apply Ho in H. simpl. lia. }
  destruct (_ && _ && _); [done|].
  destruct ((vr_start row <=? cursor) && (cursor <=? vr_end row)) eqn:E; [|done].
  apply andb_true_iff in E as [E1 E2]. bool_to_prop.
  eapply yields_bind; [by apply display_width_yields|]. intros w Hw. apply yields_Ok.
  intros i w' [= <- <-]. split; [simpl; lia|done].
Qed.

Lemma down_row_index_yields s cursor column rows :
  boundary s cursor -> Forall (row_in s) rows ->
  yields (down_row_index s cursor column rows) (fun _ => True).
Proof.
  intros Hc Hrows. unfold down_row_index.
  assert (yields (boundary_row_index s cursor column rows) (fun _ => True)) as Hb.
  { unfold boundary_row_index. destruct Hrows as [|row rows Hrow Hrows]; [by apply yields_Ok|].
    generalize O as k. revert row Hrow. induction Hrows as [|row' rows Hrow' _ IH]; intros row Hrow k;
      cbn [boundary_row_from]; [by apply yields_Ok|].
    destruct (_ && _); [|by apply IH]. destruct Hrow as (? & ? & ?).
    eapply yields_bind; [by apply display_width_yields|]. intros w _.
    destruct (w <=? column); [by apply yields_Ok|by apply IH]. }
  eapply yields_bind; [exact Hb|]. intros [i|] _; [by apply yields_Ok|].
  eapply yields_bind; [by apply visual_row_index_yields|]. intros [[i w]|] _; by apply yields_Ok.
Qed.

(** The logical row of the cursor and its soft rows. *)
Lemma current_rows s n columns (f : Z -> Z -> list VisualRow -> ro (option Z)) :
  boundary s n ->
  (forall m k rows, row_start_of s n m -> row_end_of s n k -> Forall (row_in s) rows ->
     yields (f m k rows) (lands s)) ->
  yields (current_start ← line_start_before_cursor s n;
          current_end ← line_end_after_cursor s n;
          rows ← visual_rows_for_logical_line s current_start current_end columns;
          f current_start current_end rows) (lands s).
Proof.
  intros Hn Hf. eapply yields_bind; [by apply line_start_yields|]. intros m Hm.
  eapply yields_bind; [by apply line_end_yields|]. intros k Hk.
  eapply yields_bind; [apply visual_rows_yields; destruct Hm as (? & ? & _), Hk as (? & ? & _); [done..|lia]|].
  intros rows Hrows. by apply Hf.
Qed.

Lemma display_column_lands s row column :
  row_in s row ->
  yields (i ← byte_index_for_display_column s (vr_start row) (vr_end row) column; Ok (Some i)) (lands s).
Proof.
  intros (? & ? & ?). eapply yields_bind; [by apply byte_index_for_display_column_in|].
  intros i Hi. by eapply yields_Ok, lands_Some.
Qed.

Lemma previous_visual_row_lands s n columns column :
  boundary s n -> yields (previous_visual_row_cursor_position s n columns column) (lands s).
Proof.
  intros Hn. unfold previous_visual_row_cursor_position. apply current_rows; [done|].
  intros m k rows Hm Hk Hrows.
  eapply yields_bind; [by apply visual_row_index_yields|]. intros [[[|i] w]|] Hi.
  - destruct (m =? 0) eqn:E; [apply yields_Ok, lands_None|]. bool_to_prop.
    destruct (row_above s n m Hn Hm E) as [Hp Hy].
    eapply yields_bind; [exact Hy|]. intros j [Hj Hle].
    eapply yields_bind; [by apply visual_rows_yields|]. intros above Habove.
    destruct (last above) as [row|] eqn:Hl; [|apply yields_Ok, lands_None].
    apply display_column_lands. rewrite Forall_forall in Habove. apply Habove.
    by apply last_Some_elem_of.
  - destruct (Hi (S i) w eq_refl) as [Hlt _].
    destruct (lookup_lt_is_Some_2 rows i) as [row Hrow]; [lia|].
    unfold index_or_panic. rewrite Hrow. cbn [mbind outcome_bind].
    apply display_column_lands. by eapply Forall_lookup_1.
  - apply yields_Ok, lands_None.
Qed.

Lemma next_visual_row_lands s n columns column :
  boundary s n -> yields (next_visual_row_cursor_position s n columns column) (lands s).
Proof.
  intros Hn. unfold next_visual_row_cursor_position. apply current_rows; [done|].
  intros m k rows Hm Hk Hrows.
  eapply yields_bind; [by apply down_row_index_yields|]. intros [i|] _; [|apply yields_Ok, lands_None].
  assert (yields (row_below s k (Z.max columns 1) rows i)
            (fun o => forall row, o = Some row -> row_in s row)) as Hb.
  { unfold row_below. destruct (rows !! S i) as [row|] eqn:Hrow.
    - apply yields_Ok. intros row' [= <-]. by eapply Forall_lookup_1.
    - destruct (blen s <=? k) eqn:E; [by apply yields_Ok|].
      destruct (row_under s n k Hk E) as [Hp Hy].
      eapply yields_bind; [exact Hy|]. intros j [Hj Hle].
      eapply yields_bind; [by apply visual_rows_yields|]. intros [|row under] Hu; apply yields_Ok; [done|].
      intros row' [= <-]. by apply Forall_cons_1 in Hu as [? _]. }
  eapply yields_bind; [exact Hb|]. intros [row|] Hrow; [|apply yields_Ok, lands_None].
  apply display_column_lands. auto.
Qed.

Lemma current_visual_row_yields columns b :
  boundary (line b) (cursor b) ->
  yields (current_visual_row columns b) (fun o => forall i w, o = Some (i, w) -> 0 <= w).
Proof.
  intros Hn. unfold current_visual_row. eapply yields_bind; [by apply line_start_yields|]. intros m Hm.
  eapply yields_bind; [by apply line_end_yields|]. intros k Hk.
  eapply yields_bind; [apply visual_rows_yields; destruct Hm as (? & ? & _), Hk as (? & ? & _); [done..|lia]|].
  intros rows Hrows. eapply yields_mono; [by apply visual_row_index_yields|].
  intros o Ho i w H. by destruct (Ho i w H).
Qed.
Lemma logical_column_yields b :
  boundary (line b) (cursor b) -> yields (logical_column b) (fun w => 0 <= w).
Proof.
  intros Hn. unfold logical_column. eapply yields_bind; [by apply line_start_yields|].
  intros m (Hm & Hle & _). destruct (slice_cut _ _ _ Hm Hn Hle) as (a & t & c & _ & _ & _ & ->).
  apply yields_Ok. lia.
Qed.

End Rows.
