(* ===== verification/ReadlineInv.v ===== *)
(** * The readline buffer stays well formed

    The invariant of the buffer and its preservation by every method: the
    cursor is on a character boundary, paste blocks are distinct, non-empty
    and present in the line, and the history is aligned and within its
    bounds. *)

From S2P Require Import Prelude Utf8Text ReadlineText Readline ReadlineSpec ReadlineRows.
#[local] Open Scope Z_scope.

Section Inv.
Context {UT : UnicodeTables}.

(** ** The invariant *)

(** Paste blocks of a line. *)
Record blocks_ok (l : text) (blocks : list ReadlinePasteBlock) : Prop := {
  bk_present : Forall (fun k => pb_marker k ∈ l) blocks;
  bk_contents : Forall (fun k => pb_content k <> []) blocks;
  bk_distinct : NoDup (pb_marker <$> blocks);
}.

(** The index-aligned columns of the history. *)
Record aligned (h : ReadlineHistory) : Prop := {
  al_normalized : normalized_entries h = to_lowercase <$> entries h;
  al_ranges : Forall2 (fun t r => valid_paste_ranges t r = true) (entries h) (entry_ranges h);
  al_entries : Forall (fun t => t <> [] /\ blen t <= MAX_READLINE_HISTORY_ENTRY_BYTES) (entries h);
  al_bytes : hist_bytes h = sum_Z (blen <$> entries h);
  al_fresh : forall i t, entries h !! i = Some t -> entries h !! S i <> Some t;
}.
Record history_ok (limit : Z) (h : ReadlineHistory) : Prop := {
  ho_aligned : aligned h;
  ho_limit : Z.of_nat (length (entries h)) <= limit;
  ho_bytes : hist_bytes h <= MAX_READLINE_HISTORY_BYTES;
}.

Record buffer_ok (b : ReadlineBuffer) : Prop := {
  bo_cursor : boundary (line b) (cursor b);
  bo_blocks : blocks_ok (line b) (paste_blocks b);
  bo_draft : blocks_ok (draft_before_history b) (draft_before_history_paste_blocks b);
  bo_history : history_ok (history_limit b) (history b);
  bo_history_cursor : forall i, history_cursor b = Some i -> (i < length (entries (history b)))%nat;
  bo_id : 0 <= next_paste_block_id b;
  bo_draft_id : 0 <= draft_before_history_next_paste_block_id b;
}.

Lemma blocks_ok_nil l : blocks_ok l [].
Proof. split; [done..|]. constructor. Qed.
Lemma aligned_empty : aligned empty_history.
Proof. by split. Qed.
Lemma history_ok_empty limit : 0 <= limit -> history_ok limit empty_history.
Proof. intros H. split; [apply aligned_empty|done..]. Qed.
#[local] Hint Resolve blocks_ok_nil aligned_empty history_ok_empty : mez.

Lemma with_history_limit_ok limit : 0 <= limit -> buffer_ok (with_history_limit limit).
Proof. intros H. split; simpl; auto with mez; done. Qed.

(** ** Building states from parts *)

(** The line, cursor and blocks change; the rest is as before. *)
Lemma set_edit_ok b l c blocks id :
  buffer_ok b -> boundary l c -> blocks_ok l blocks -> 0 <= id -> buffer_ok (set_edit l c blocks id b).
Proof. intros [] Hc Hb Hid. by split. Qed.
Lemma set_cursor_ok b c : buffer_ok b -> boundary (line b) c -> buffer_ok (set_cursor c b).
Proof. intros Hb Hc. apply set_edit_ok; [done..| |]; apply Hb. Qed.
Lemma set_navigation_ok b nav col : buffer_ok b -> buffer_ok (set_navigation (history_cursor b) nav col b).
Proof. intros []. by split. Qed.
Lemma leave_ok b : buffer_ok b -> buffer_ok (leave_history_navigation_for_edit b).
Proof. intros []. split; simpl; auto with mez; done. Qed.
Lemma clear_navigation_ok b col : buffer_ok b -> buffer_ok (clear_draft (set_navigation None false col b)).
Proof. intros []. split; simpl; auto with mez; done. Qed.
Lemma save_draft_ok b : buffer_ok b -> buffer_ok (save_draft b).
Proof. intros []. by split. Qed.
Lemma note_movement_ok b : buffer_ok b -> buffer_ok (note_cursor_movement b).
Proof. apply set_navigation_ok. Qed.
Lemma set_column_ok b col : buffer_ok b -> buffer_ok (set_column col b).
Proof. apply set_navigation_ok. Qed.
#[local] Hint Resolve set_edit_ok set_cursor_ok set_navigation_ok leave_ok clear_navigation_ok
  save_draft_ok note_movement_ok set_column_ok : mez.

Lemma blocks_ok_mono l l' blocks :
  blocks_ok l blocks -> l ⊆ l' -> blocks_ok l' blocks.
Proof. intros [Hp ? ?] Hs. split; [|done..]. eapply Forall_impl; [exact Hp|]. set_solver. Qed.
Lemma blocks_ok_filter l l' blocks :
  blocks_ok l blocks -> blocks_ok l' (filter (fun k => pb_marker k ∈ l') blocks).
Proof.
  intros [? Hc Hd]. split.
  - rewrite Forall_forall. intros k Hk. by apply list_elem_of_filter in Hk as [? _].
  - rewrite Forall_forall in Hc |- *. intros k Hk. apply list_elem_of_filter in Hk as [_ ?]. auto.
  - eapply sublist_NoDup; [exact Hd|]. apply fmap_sublist, sublist_filter.
Qed.
Lemma cleanup_ok b l c :
  buffer_ok b -> boundary l c -> buffer_ok (cleanup_unused_paste_blocks (set_line_cursor l c b)).
Proof.
  intros Hb Hc. rewrite cleanup_eq.
  change (buffer_ok (set_edit l c (filter (fun k => pb_marker k ∈ l) (paste_blocks b))
                       (next_paste_block_id b) b)).
  apply set_edit_ok; [done..| |apply Hb]. eapply blocks_ok_filter, Hb.
Qed.

(** An edit of the line keeps the invariant. *)
Lemma line_edit_ok b z b' :
  buffer_ok b -> at_cut b' z -> line_edit b b' -> buffer_ok b'.
Proof.
  intros Hb [Hl Hc] [Hh Hli Hid Hdi Hn Hbl]. split.
  - rewrite Hl, Hc. apply boundary_pre.
  - rewrite Hbl. eapply blocks_ok_filter, Hb.
  - destruct Hn as [(_ & -> & ->)|[_ ->]]; [apply Hb|apply blocks_ok_nil].
  - rewrite Hli, Hh. apply Hb.
  - rewrite Hh. destruct Hn as [(-> & _)|[-> _]]; [apply Hb|done].
  - rewrite Hid. apply Hb.
  - rewrite Hdi. apply Hb.
Qed.
Lemma buffer_ok_cut b : buffer_ok b -> exists z, at_cut b z.
Proof. intros Hb. destruct (bo_cursor _ Hb) as (a & c & Hl & Hc). by exists (a, c). Qed.

(** ** Retained history *)

(** The history without its [k] oldest entries. *)
Definition trimmed (k : nat) (h : ReadlineHistory) : ReadlineHistory :=
  {| entries := drop k (entries h); normalized_entries := drop k (normalized_entries h);
     entry_ranges := drop k (entry_ranges h); hist_bytes := sum_Z (blen <$> drop k (entries h)) |}.

Lemma trimmed_0 h : aligned h -> trimmed 0 h = h.
Proof. intros []. unfold trimmed. rewrite !drop_0, <- al_bytes0. by destruct h. Qed.
Lemma trimmed_aligned k h : aligned h -> aligned (trimmed k h).
Proof.
  intros []. split; simpl.
  - by rewrite al_normalized0, fmap_drop.
  - by apply Forall2_drop.
  - by apply Forall_drop.
  - done.
  - intros i t. rewrite !lookup_drop. replace (k + S i)%nat with (S (k + i)) by lia. apply al_fresh0.
Qed.
Lemma trimmed_S k h : trimmed 1 (trimmed k h) = trimmed (S k) h.
Proof. unfold trimmed. simpl. by rewrite !drop_drop, Nat.add_1_r. Qed.

(** One eviction. *)
Lemma evict_step fuel limit h t es :
  aligned h -> entries h = t :: es -> history_over_limit limit h = true ->
  evict_history (S fuel) limit h = evict_history fuel limit (trimmed 1 h).
Proof.
  intros Ha He Ho. cbn [evict_history]. rewrite Ho.
  destruct Ha as [Hn Hr _ Hb _]. unfold trimmed. rewrite He in *.
  apply Forall2_cons_inv_l in Hr as (r & rs & _ & _ & Hr). rewrite Hn, Hr, Hb. simpl.
  do 2 f_equal. assert (0 <= sum_Z (blen <$> es)) as Hs.
  { apply sum_Z_nonneg. rewrite Forall_fmap. apply Forall_true. intros. apply blen_nonneg. }
  rewrite drop_0. change (list_fmap _ _ blen es) with (blen <$> es). unfold sat_sub.
  change (foldr Z.add 0 (blen <$> es)) with (sum_Z (blen <$> es)). lia.
Qed.

Lemma evict_spec fuel limit h :
  1 <= limit -> aligned h -> entries h <> [] -> (length (entries h) <= fuel)%nat ->
  exists k, evict_history fuel limit h = Ok (trimmed k h) /\ (k < length (entries h))%nat
    /\ history_over_limit limit (trimmed k h) = false
    /\ (forall j, (j < k)%nat -> history_over_limit limit (trimmed j h) = true).
Proof.
  intros Hlim. revert h. induction fuel as [|fuel IH]; intros h Ha Hne Hf.
  { destruct (entries h); simpl in *; [done|lia]. }
  destruct (entries h) as [|t es] eqn:He; [done|].
  destruct (history_over_limit limit h) eqn:Ho.
  - assert (es <> []) as Hes.
    { intros ->. unfold history_over_limit in Ho. rewrite (al_bytes _ Ha), He in Ho.
      pose proof (al_entries _ Ha) as Hent. rewrite He in Hent.
      apply Forall_cons_1 in Hent as [[_ Hent] _]. change (sum_Z (blen <$> [t])) with (blen t + 0) in Ho.
      change (length [t]) with 1%nat in Ho. pose proof (blen_nonneg t).
      unfold MAX_READLINE_HISTORY_BYTES, MAX_READLINE_HISTORY_ENTRY_BYTES, READLINE_BRACKETED_PASTE_MAX_BYTES in *.
      apply orb_true_iff in Ho as [Ho|Ho]; bool_to_prop; lia. }
    rewrite (evict_step fuel limit h t es Ha He Ho).
    destruct (IH (trimmed 1 h)) as (k & -> & Hk & Hend & Hbefore).
    + by apply trimmed_aligned.
    + simpl. by rewrite He.
    + simpl. rewrite He. simpl in *. rewrite drop_0. lia.
    + simpl in Hk. rewrite He in Hk. simpl in Hk. rewrite drop_0 in Hk. exists (S k).
      assert (forall j, trimmed j (trimmed 1 h) = trimmed (S j) h) as Hj.
      { intros j. unfold trimmed. simpl. by rewrite !drop_drop. }
      rewrite Hj in Hend |- *. split; [done|]. split; [simpl in *; lia|]. split; [done|].
      intros [|j] Hlt; [by rewrite trimmed_0|]. rewrite <- (Hj j). apply Hbefore. lia.
  - exists O. rewrite trimmed_0 by done. split; [|split; [simpl; lia|split; [done|lia]]].
    cbn [evict_history]. by rewrite Ho.
Qed.

(** What remembering a submission leaves. *)
Definition kept_history (b : ReadlineBuffer) (e : ReadlineHistoryEntry) : Prop :=
  he_text e <> [] /\ blen (he_text e) <= MAX_READLINE_HISTORY_ENTRY_BYTES
  /\ entry_is_valid e = true /\ history_limit b <> 0.

(** The history with the entry appended, before eviction. *)
Definition appended (h : ReadlineHistory) (e : ReadlineHistoryEntry) : ReadlineHistory :=
  {| entries := entries h ++ [he_text e];
     normalized_entries := normalized_entries h ++ [to_lowercase (he_text e)];
     entry_ranges := entry_ranges h ++ [he_ranges e];
     hist_bytes := hist_bytes h + blen (he_text e) |}.

Lemma appended_aligned h e :
  aligned h -> he_text e <> [] -> blen (he_text e) <= MAX_READLINE_HISTORY_ENTRY_BYTES ->
  entry_is_valid e = true -> last (entries h) <> Some (he_text e) -> aligned (appended h e).
Proof.
  intros [] Hne Hmax Hv Hlast. split; simpl.
  - by rewrite al_normalized0, fmap_app.
  - apply Forall2_app; [done|]. constructor; [exact Hv|constructor].
  - apply Forall_app. by split; [|apply Forall_singleton].
  - rewrite fmap_app, sum_Z_app, al_bytes0. cbn. lia.
  - intros i t Hi Hs. rewrite lookup_app_Some in Hs. destruct Hs as [Hs|[Hge Hs]].
    + assert (S i < length (entries h))%nat by (by eapply lookup_lt_Some).
      rewrite lookup_app_l in Hi by lia. exact (al_fresh0 _ _ Hi Hs).
    + apply list_lookup_singleton_Some in Hs as [H0 <-].
      assert (S i = length (entries h)) as Hlen by lia.
      rewrite lookup_app_l in Hi by lia. apply Hlast. rewrite last_lookup.
      replace (pred (length (entries h))) with i by lia. done.
Qed.

Lemma Forall2_set_last {A B} (P : A -> B -> Prop) l k t r :
  Forall2 P l k -> last l = Some t -> P t r -> Forall2 P l (set_last r k).
Proof.
  induction 1 as [|x y l k Hxy Hlk IH]; [done|]. intros Hlast Ht.
  destruct Hlk as [|x' y' l k ? ?]; simpl in *.
  - injection Hlast as ->. by repeat constructor.
  - constructor; [done|]. by apply IH.
Qed.

(** Every branch of [remember_submission]: the entry is refused, it repeats
    the newest entry, or it is appended and the oldest entries go until the
    rest fits. *)
Lemma remember_cases b e :
  history_ok (history_limit b) (history b) ->
  (~ kept_history b e /\ remember_submission e b = Ok b)
  \/ (kept_history b e /\ last (entries (history b)) = Some (he_text e)
      /\ exists h, remember_submission e b = Ok (set_history_value h b)
           /\ history_ok (history_limit b) h /\ entries h = entries (history b)
           /\ entry_ranges h = set_last (he_ranges e) (entry_ranges (history b)))
  \/ (kept_history b e /\ last (entries (history b)) <> Some (he_text e)
      /\ exists k, let h := appended (history b) e in
           remember_submission e b = Ok (set_history_value (trimmed k h) b)
           /\ history_ok (history_limit b) (trimmed k h) /\ (k < length (entries h))%nat
           /\ (forall j, (j < k)%nat -> history_over_limit (history_limit b) (trimmed j h) = true)).
Proof.
  intros [Ha Hl Hm]. unfold remember_submission, kept_history, entry_is_valid.
  destruct (_ || _ || _ || _) eqn:E.
  { left. split; [|done]. intros (H1 & H2 & H3 & H4). rewrite H3 in E.
    rewrite (bool_decide_eq_false_2 _ H1), (proj2 (Z.ltb_ge _ _) H2), (proj2 (Z.eqb_neq _ _) H4) in E. done. }
  bool_to_prop.
  match goal with |- _ \/ (?K /\ _) \/ _ => assert K as HK by done end.
  destruct HK as (Hne & Hmax & Hv & Hnz). right.
  case_bool_decide as Elast; [left|right]; (split; [done|]; split; [done|]).
  - eexists. split; [done|]. split; [|done]. split; [|done..]. destruct Ha. split; simpl; try done.
    by eapply Forall2_set_last.
  - assert (aligned (appended (history b) e)) as Happ by (by apply appended_aligned).
    assert (sat_add u64_MAX (hist_bytes (history b)) (blen (he_text e))
            = hist_bytes (history b) + blen (he_text e)) as ->.
    { unfold sat_add. apply Z.min_r.
      unfold MAX_READLINE_HISTORY_BYTES, MAX_READLINE_HISTORY_ENTRY_BYTES, READLINE_BRACKETED_PASTE_MAX_BYTES, u64_MAX in *. lia. }
    destruct (evict_spec (S (length (entries (appended (history b) e)))) (history_limit b)
                (appended (history b) e)) as (k & Hk & Hlt & Hend & Hbefore); [lia|done| |lia|].
    { simpl. by destruct (entries (history b)). }
    unfold appended in Hk at 1 2. cbn zeta. cbn [entries] in Hk |- *. rewrite Hk. cbn [mbind outcome_bind].
    exists k. split; [done|]. split; [|done].
    unfold history_over_limit in Hend. bool_to_prop. split; [by apply trimmed_aligned|done..].
Qed.

Lemma set_history_value_ok b h :
  buffer_ok b -> history_ok (history_limit b) h ->
  (length (entries (history b)) <= length (entries h))%nat \/ history_cursor b = None ->
  buffer_ok (set_history_value h b).
Proof.
  intros [] Hh Hlen. split; simpl; [done..| |done|done]. intros i Hi.
  destruct Hlen as [Hlen|Hn]; [apply bo_history_cursor0 in Hi; lia|congruence].
Qed.

Lemma remember_ok b e :
  buffer_ok b -> history_cursor b = None ->
  yields (remember_submission e b)
    (fun b' => buffer_ok b' /\ history_cursor b' = None /\ exists h, b' = set_history_value h b).
Proof.
  intros Hb Hn. destruct (remember_cases b e (bo_history _ Hb))
    as [[_ ->]|[(_ & _ & h & -> & Hh & He & _)|(_ & _ & k & -> & Hh & _)]]; apply yields_Ok.
  - split; [done|]. split; [done|]. exists (history b). by destruct b.
  - split; [apply set_history_value_ok; auto|]. split; [done|eauto].
  - split; [apply set_history_value_ok; auto|]. split; [done|eauto].
Qed.

Lemma set_structured_history_ok l b :
  buffer_ok b -> yields (set_structured_history l b) buffer_ok.
Proof.
  intros Hb. unfold set_structured_history.
  (* The navigation is only reset at the end, so the loop runs on a history
     cursor that may be stale: it is reset here first. *)
  assert (forall l b, history_ok (history_limit b) (history b) ->
            yields (fold_outcome remember_submission l b)
              (fun b' => exists h, b' = set_history_value h b /\ history_ok (history_limit b) h)) as G.
  { clear. induction l as [|e l IH]; intros b Hh; simpl.
    - apply yields_Ok. exists (history b). split; [by destruct b|done].
    - destruct (remember_cases b e Hh)
        as [[_ ->]|[(_ & _ & h & -> & Hh' & _)|(_ & _ & k & -> & Hh' & _)]]; [by apply IH| |].
      all: eapply yields_mono; [by apply IH|].
      all: intros b' (h' & -> & ?); exists h'; by split. }
  eapply yields_bind; [apply G; simpl; apply history_ok_empty|].
  - destruct (bo_history _ Hb). lia.
  - intros b' (h & -> & Hh). apply yields_Ok. destruct Hb. split; simpl; auto with mez; done.
Qed.
Lemma set_history_structured l b : set_history l b = set_structured_history (literal <$> l) b.
Proof.
  unfold set_history, set_structured_history. f_equal. generalize (set_history_value empty_history b).
  induction l as [|s l IH]; intros b'; [done|]. simpl.
  by destruct (remember_submission (literal s) b').
Qed.

End Inv.

(** * No method of the readline buffer panics

    Preservation of the buffer invariant by paste blocks, history navigation,
    row movement and every edit.  The only code that may not return is the
    search for a free paste marker. *)

Section Safe.
Context {UT : UnicodeTables}.

(** ** Paste blocks *)

Lemma marker_free_spec b c :
  marker_free b c = true <-> c ∉ line b /\ c ∉ pb_marker <$> paste_blocks b.
Proof.
  unfold marker_free, contains_rchar. rewrite andb_true_iff, negb_true_iff, bool_decide_eq_false.
  f_equiv. unfold block_for_marker. induction (paste_blocks b) as [|k l IH]; [set_solver|].
  rewrite filter_cons. case_decide; set_solver.
Qed.

Notation BASE := READLINE_PASTE_BLOCK_MARKER_BASE.

(** *** The marker search *)

Lemma marker_candidate_low id : 0 <= id < MARKERS -> marker_candidate id = BASE + id.
Proof.
  unfold MARKERS. intros H. unfold marker_candidate, sat_add, from_u32, READLINE_PASTE_BLOCK_MARKER_BASE, u32_MAX.
  rewrite Z.min_r by lia. rewrite (proj2 (Z.ltb_ge _ _)), (proj2 (Z.ltb_lt 0xdfff _)), (proj2 (Z.leb_le _ _)) by lia.
  done.
Qed.
Lemma marker_candidate_high id : MARKERS <= id -> marker_candidate id = BASE.
Proof.
  unfold MARKERS. intros H. unfold marker_candidate, sat_add, from_u32, READLINE_PASTE_BLOCK_MARKER_BASE, u32_MAX.
  rewrite (proj2 (Z.ltb_ge _ _)), (proj2 (Z.ltb_lt 0xdfff _)), (proj2 (Z.leb_gt _ _)) by lia. done.
Qed.

(** The candidate of round [j] of a search from [id]. *)
Definition candidate_at (id : Z) (j : nat) : rchar := marker_candidate (Z.min u32_MAX (id + Z.of_nat j)).

Lemma marker_loop_Err fuel b id :
  0 <= id <= u32_MAX ->
  marker_loop fuel b id = Err (markers_used_up b) <-> forall j, (j < fuel)%nat -> marker_free b (candidate_at id j) = false.
Proof.
  revert id. induction fuel as [|fuel IH]; intros id Hid; cbn [marker_loop]; [split; [lia|done]|].
  assert (candidate_at id 0 = marker_candidate id) as H0 by (unfold candidate_at; f_equal; lia).
  assert (forall j, candidate_at (sat_add u32_MAX id 1) j = candidate_at id (S j)) as HS.
  { intros j. unfold candidate_at, sat_add. f_equal. lia. }
  destruct (marker_free b (marker_candidate id)) eqn:E.
  - split; [done|]. intros H. specialize (H O ltac:(lia)). congruence.
  - rewrite IH by (unfold sat_add, u32_MAX in *; lia). split.
    + intros H [|j] Hj; [by rewrite H0|]. rewrite <- HS. apply H. lia.
    + intros H j Hj. rewrite HS. apply H. lia.
Qed.

Lemma marker_loop_cases fuel b id : 0 <= id ->
  marker_loop fuel b id = Err (markers_used_up b)
  \/ exists m id', marker_loop fuel b id = Ok (m, id') /\ marker_free b m = true /\ 0 <= id'.
Proof.
  revert id. induction fuel as [|fuel IH]; intros id Hid; [by left|]. cbn [marker_loop].
  assert (0 <= sat_add u32_MAX id 1) by (unfold sat_add, u32_MAX; lia).
  destruct (marker_free b (marker_candidate id)) eqn:E; [right; eauto|by apply IH].
Qed.

(** The fuel is enough: a search it does not finish never ends. *)
Lemma marker_fuel_enough b fuel :
  0 <= next_paste_block_id b <= u32_MAX ->
  next_paste_block_marker b = Err (markers_used_up b) -> marker_loop fuel b (next_paste_block_id b) = Err (markers_used_up b).
Proof.
  intros Hid H. unfold next_paste_block_marker in H. rewrite marker_loop_Err in H |- * by done.
  intros j Hj. destruct (decide (j < marker_fuel)%nat) as [Hlt|Hge]; [by apply H|].
  assert (Z.of_nat marker_fuel = MARKERS + 1) as Hfuel by (unfold marker_fuel, MARKERS; lia).
  assert (Z.of_nat (marker_fuel - 1) = MARKERS) as Hlast by (unfold MARKERS in *; lia).
  assert (candidate_at (next_paste_block_id b) j
          = candidate_at (next_paste_block_id b) (marker_fuel - 1)) as ->; [|apply H; lia].
  unfold candidate_at. rewrite !marker_candidate_high; [done|rewrite Hlast|]; unfold MARKERS, u32_MAX in *; lia.
Qed.

(** Enough free markers for one that is not in the line to be found. *)
Lemma marker_search_total b :
  0 <= next_paste_block_id b ->
  next_paste_block_id b + Z.of_nat (length (line b) + length (paste_blocks b)) < MARKERS ->
  exists m id, next_paste_block_marker b = Ok (m, id) /\ marker_free b m = true /\ 0 <= id.
Proof.
  intros H0 Hlt. destruct (marker_loop_cases marker_fuel b (next_paste_block_id b) H0) as [He|?]; [|done].
  exfalso. rewrite marker_loop_Err in He by (unfold MARKERS, u32_MAX in *; lia).
  set (n := S (length (line b) + length (paste_blocks b))).
  set (id := next_paste_block_id b) in *.
  assert (length ((fun j => (BASE + (id + Z.of_nat j))%Z) <$> seq 0 n)
          <= length (line b ++ (pb_marker <$> paste_blocks b)))%nat as Hlen.
  { apply submseteq_length, NoDup_submseteq.
    - apply NoDup_fmap_2; [|apply NoDup_seq]. intros x y. lia.
    - intros c (j & -> & Hj)%list_elem_of_fmap. apply elem_of_seq in Hj.
      specialize (He j). unfold candidate_at in He.
      rewrite Z.min_r, marker_candidate_low in He by (unfold MARKERS, u32_MAX in *; lia).
      destruct (decide (BASE + (id + Z.of_nat j) ∈ line b ++ (pb_marker <$> paste_blocks b))) as [|Hn]; [done|].
      exfalso. rewrite not_elem_of_app, <- marker_free_spec in Hn.
      rewrite He in Hn; [done|]. unfold marker_fuel, MARKERS in *. lia. }
  rewrite length_fmap, length_seq, length_app, length_fmap in Hlen. lia.
Qed.

Lemma next_marker_safe b : 0 <= next_paste_block_id b ->
  safe (next_paste_block_marker b) (fun r => marker_free b r.1 = true /\ 0 <= r.2).
Proof.
  intros H0. destruct (decide (next_paste_block_id b
    + Z.of_nat (length (line b) + length (paste_blocks b)) < MARKERS)) as [Hlt|Hge].
  - by destruct (marker_search_total b H0 Hlt) as (m & id & -> & ? & ?).
  - unfold next_paste_block_marker.
    destruct (marker_loop_cases marker_fuel b _ H0) as [-> |(m & id & -> & ? & ?)]; [|done].
    cbn. split; [done|lia].
Qed.

Lemma blocks_ok_snoc l blocks m content :
  blocks_ok l blocks -> m ∈ l -> m ∉ pb_marker <$> blocks -> content <> [] ->
  blocks_ok l (blocks ++ [{| pb_marker := m; pb_content := content |}]).
Proof.
  intros [] Hm Hf Hc. split.
  - apply Forall_app. by rewrite Forall_singleton.
  - apply Forall_app. by rewrite Forall_singleton.
  - rewrite fmap_app. apply NoDup_app. split; [done|]. split; [|apply NoDup_singleton].
    intros x Hx. simpl. rewrite list_elem_of_singleton. by intros ->.
Qed.

(** The state after a paste block is inserted at the cursor. *)
Lemma insert_paste_block_safe content b :
  boundary (line b) (cursor b) -> blocks_ok (line b) (paste_blocks b) -> content <> [] ->
  0 <= next_paste_block_id b -> safe (insert_paste_block content b) (fun b' => exists a c m id,
    line b = a ++ c /\ cursor b = blen a /\ marker_free b m = true
    /\ b' = set_edit (a ++ m :: c) (blen a + len_utf8 m)
              (paste_blocks b ++ [{| pb_marker := m; pb_content := content |}]) id b
    /\ blocks_ok (line b') (paste_blocks b') /\ boundary (line b') (cursor b') /\ 0 <= id).
Proof.
  intros (a & c & Hl & Hc) Hb Hne Hid. unfold insert_paste_block.
  eapply safe_bind; [by apply next_marker_safe|]. intros [m id] [Hm Hid']. simpl in Hm, Hid'.
  rewrite Hl, Hc, insert_str_app. apply safe_Ok. exists a, c, m, id.
  split; [done|]. split; [done|]. split; [done|]. split; [done|]. apply marker_free_spec in Hm as [_ Hm].
  split; [|split; [|done]]; simpl.
  - apply blocks_ok_snoc; [|set_solver|done..]. eapply blocks_ok_mono; [exact Hb|]. rewrite Hl. set_solver.
  - replace (blen a + len_utf8 m) with (blen (a ++ [m])) by (rewrite blen_app, blen_cons, blen_nil; lia).
    replace (a ++ m :: c) with ((a ++ [m]) ++ c) by (by rewrite <- (assoc_L (++))). apply boundary_pre.
Qed.

Lemma pasted_nonempty s :
  s <> [] -> forall b, buffer_ok b -> safe (insert_pasted_text s b) buffer_ok.
Proof.
  intros Hs b Hb. unfold insert_pasted_text. apply leave_ok in Hb.
  set (b1 := leave_history_navigation_for_edit b) in *.
  destruct (_ || _).
  - eapply safe_mono; [apply insert_paste_block_safe; [apply Hb..|done|apply Hb]|].
    intros b' (a & c & m & id & _ & _ & _ & -> & Hbk & Hbd & Hid). by apply set_edit_ok.
  - destruct (bo_cursor _ Hb) as (a & c & Hl & Hc). rewrite Hl, Hc, insert_str_app. apply safe_Ok.
    apply set_edit_ok; [done| | |apply Hb].
    + rewrite <- blen_app, (assoc_L (++)). apply boundary_pre.
    + eapply blocks_ok_mono; [apply Hb|]. rewrite Hl. set_solver.
Qed.

(** ** Loading an entry *)

Lemma valid_ranges_cons copied s r l :
  valid_paste_ranges_from copied s (r :: l) = true <->
  pr_start r < pr_end r /\ copied <= pr_start r /\ boundary s (pr_start r) /\ boundary s (pr_end r)
  /\ valid_paste_ranges_from (pr_end r) s l = true.
Proof.
  cbn [valid_paste_ranges_from]. rewrite !andb_true_iff, !is_char_boundary_spec, Z.ltb_lt, !Z.leb_le.
  split; [naive_solver|]. intros (? & ? & ? & He & ?). pose proof (boundary_range _ _ He). naive_solver lia.
Qed.

Lemma load_ranges_safe s l copied b :
  valid_paste_ranges_from copied s l = true -> boundary s copied ->
  cursor b = blen (line b) -> blocks_ok (line b) (paste_blocks b) -> 0 <= next_paste_block_id b ->
  safe (load_ranges s copied l b) (fun b' => exists ln blocks id,
    b' = set_edit ln (blen ln) blocks id b /\ blocks_ok ln blocks /\ 0 <= id).
Proof.
  revert copied b. induction l as [|r l IH]; intros copied b Hv Hb Hc Hbk Hid; cbn [load_ranges].
  - destruct Hb as (p & q & -> & ->). rewrite slice_from_app. apply safe_Ok. eexists _, _, _. split; [done|].
    split; [|done]. eapply blocks_ok_mono; [exact Hbk|set_solver].
  - apply valid_ranges_cons in Hv as (Hlt & Hle & Hs & He & Hv).
    destruct (slice_cut s copied (pr_start r) Hb Hs Hle) as (_ & t & _ & _ & _ & _ & ->).
    destruct (slice_cut s (pr_start r) (pr_end r) Hs He ltac:(lia)) as (p & content & q & -> & Hp & Hq & ->).
    cbn [mbind outcome_bind].
    eapply safe_bind; [apply insert_paste_block_safe; simpl|].
    + apply boundary_end.
    + eapply blocks_ok_mono; [exact Hbk|set_solver].
    + intros ->. rewrite blen_nil in Hq. lia.
    + done.
    + intros b' (a & c & m & id & Hl & Hcur & _ & -> & Hbk' & _ & Hid'). simpl in Hl, Hcur.
      assert (c = []) as ->.
      { apply blen_zero. rewrite Hl, blen_app in Hcur. lia. }
      eapply safe_mono; [apply IH; [done|done| |exact Hbk'|done]|].
      * simpl. by rewrite blen_app, blen_cons, blen_nil, Z.add_0_r.
      * intros b'' (ln & blocks & id' & -> & ?). by exists ln, blocks, id'.
Qed.

Lemma structured_entry_valid b i e :
  buffer_ok b -> structured_history_entry b i = Some e ->
  entries (history b) !! i = Some (he_text e) /\ entry_ranges (history b) !! i = Some (he_ranges e)
  /\ entry_is_valid e = true.
Proof.
  intros Hb. unfold structured_history_entry.
  destruct (entries (history b) !! i) as [t|] eqn:Ht; [|done].
  destruct (entry_ranges (history b) !! i) as [r|] eqn:Hr; [|done].
  intros [= <-]. split; [done|]. split; [done|].
  pose proof (al_ranges _ (ho_aligned _ _ (bo_history _ Hb))) as Hal.
  exact (Forall2_lookup_lr _ _ _ _ _ _ Hal Ht Hr).
Qed.

Lemma load_history_index_safe i b :
  buffer_ok b -> safe (load_history_index i b) buffer_ok.
Proof.
  intros Hb. unfold load_history_index. destruct (structured_history_entry b i) as [e|] eqn:He; [|done].
  destruct (structured_entry_valid b i e Hb He) as (Hi & _ & Hv).
  eapply safe_bind; [apply load_ranges_safe; [exact Hv|apply boundary_0|done|apply blocks_ok_nil|apply Hb]|].
  intros b' (ln & blocks & id & -> & Hbk & Hid). apply safe_Ok.
  destruct Hb. split; simpl; try done; [apply boundary_end|]. intros j [= <-]. by eapply lookup_lt_Some.
Qed.

(** Operations that report whether they changed anything. *)
Definition keeps_ok (r : ro (ReadlineBuffer * bool)) : Prop := safe r (fun x => buffer_ok x.1).

Lemma keeps_ok_done b c : buffer_ok b -> keeps_ok (Ok (b, c)).
Proof. done. Qed.
Lemma keeps_ok_load i b : buffer_ok b -> keeps_ok (b ← load_history_index i b; Ok (b, true)).
Proof. intros Hb. eapply safe_bind; [by apply load_history_index_safe|]. done. Qed.
#[local] Hint Resolve keeps_ok_done keeps_ok_load save_draft_ok set_column_ok : mez.

Lemma history_previous_ok b : buffer_ok b -> keeps_ok (history_previous b).
Proof.
  intros Hb. unfold history_previous. destruct (entries (history b)); [auto with mez|].
  destruct (history_cursor b) as [[|i]|]; auto with mez.
Qed.
Lemma history_next_ok b : buffer_ok b -> keeps_ok (history_next b).
Proof.
  intros Hb. unfold history_next. destruct (history_cursor b) as [i|]; [|auto with mez].
  case_decide; [auto with mez|]. apply keeps_ok_done. destruct Hb. split; simpl; try done.
  - apply boundary_end.
  - apply blocks_ok_nil.
Qed.

Lemma search_before_yields es (h : ReadlineHistory) q n :
  normalized_entries h = to_lowercase <$> es -> (n <= length es)%nat ->
  yields (search_before (normalized_entries h) q n) (fun o => forall i, o = Some i -> (i < n)%nat).
Proof.
  intros Hn. induction n as [|n IH]; intros Hle; cbn [search_before]; [by apply yields_Ok|].
  assert (is_Some (normalized_entries h !! n)) as [t Ht].
  { rewrite Hn, list_lookup_fmap. apply fmap_is_Some, lookup_lt_is_Some_2. lia. }
  unfold index_or_panic. rewrite Ht. cbn [mbind outcome_bind].
  destruct (contains_text q t); [apply yields_Ok; intros i [= <-]; lia|].
  eapply yields_mono; [apply IH; lia|]. intros o Ho i Hi. specialize (Ho i Hi). lia.
Qed.
Lemma search_in_yields es (h : ReadlineHistory) q n k :
  normalized_entries h = to_lowercase <$> es -> (n + k <= length es)%nat ->
  yields (search_in (normalized_entries h) q (seq n k))
    (fun o => forall i, o = Some i -> (n <= i < length es)%nat).
Proof.
  intros Hn. revert n. induction k as [|k IH]; intros n Hle; cbn [seq search_in]; [by apply yields_Ok|].
  assert (is_Some (normalized_entries h !! n)) as [t Ht].
  { rewrite Hn, list_lookup_fmap. apply fmap_is_Some, lookup_lt_is_Some_2. lia. }
  unfold index_or_panic. rewrite Ht. cbn [mbind outcome_bind].
  destruct (contains_text q t); [apply yields_Ok; intros i [= <-]; lia|].
  eapply yields_mono; [apply IH; lia|]. intros o Ho i Hi. specialize (Ho i Hi). lia.
Qed.

Lemma match_before_yields b q n :
  buffer_ok b ->
  yields (history_substring_match_before b q n)
    (fun o => forall i, o = Some i -> (i < n /\ i < length (entries (history b)))%nat).
Proof.
  intros Hb. unfold history_substring_match_before.
  eapply yields_mono; [apply (search_before_yields (entries (history b)));
    [apply (ho_aligned _ _ (bo_history _ Hb))|lia]|].
  intros o Ho i Hi. specialize (Ho i Hi). lia.
Qed.
Lemma match_after_yields b q n :
  buffer_ok b ->
  yields (history_substring_match_after b q n)
    (fun o => forall i, o = Some i -> (n < i < length (entries (history b)))%nat).
Proof.
  intros Hb. unfold history_substring_match_after.
  destruct (decide (S n <= length (entries (history b)))%nat) as [Hle|Hgt].
  - eapply yields_mono; [apply (search_in_yields (entries (history b)));
      [apply (ho_aligned _ _ (bo_history _ Hb))|lia]|].
    intros o Ho i Hi. specialize (Ho i Hi). lia.
  - replace (length (entries (history b)) - S n)%nat with O by lia. by apply yields_Ok.
Qed.

Lemma history_search_backward_ok b : buffer_ok b -> keeps_ok (history_search_backward b).
Proof.
  intros Hb. unfold history_search_backward. destruct (entries (history b)) eqn:He; [auto with mez|].
  assert (exists q b', buffer_ok b' /\ history b' = history b /\ history_cursor b' = history_cursor b
    /\ match history_cursor b with Some _ => (draft_before_history b, b) | None => (line b, save_draft b) end
       = (q, b')) as (q & b' & Hb' & Hh & Hc & ->).
  { destruct (history_cursor b) eqn:E; [by exists (draft_before_history b), b|].
    exists (line b), (save_draft b). split; [auto with mez|]. done. }
  case_bool_decide; [by apply history_previous_ok|].
  eapply safe_bind; [apply yields_safe, (search_before_yields (entries (history b')))|].
  - apply (ho_aligned _ _ (bo_history _ Hb')).
  - destruct (history_cursor b') as [i|] eqn:E; simpl; [|lia].
    apply (bo_history_cursor _ Hb') in E. lia.
  - intros [i|] _; [by apply keeps_ok_load|done].
Qed.

(** ** Row movement *)

Lemma row_moved_ok b o col (next : ReadlineBuffer -> ro (ReadlineBuffer * bool)) :
  buffer_ok b -> lands (line b) o -> (forall b, buffer_ok b -> keeps_ok (next b)) ->
  keeps_ok (match o with
            | Some target => Ok (set_cursor target (set_column col b), true)
            | None => next (set_column None b)
            end).
Proof.
  intros Hb Ho Hn. destruct o as [i|]; [|auto with mez]. apply keeps_ok_done, set_cursor_ok; [auto with mez|].
  by apply Ho.
Qed.

Lemma move_row_up_ok b : buffer_ok b -> keeps_ok (move_row_up_or_history_previous b).
Proof.
  intros Hb. unfold move_row_up_or_history_previous.
  destruct (history_owns_arrows b); [by apply history_previous_ok|].
  eapply safe_bind; [apply yields_safe, logical_column_yields, Hb|]. intros w _.
  eapply safe_bind; [apply yields_safe, previous_row_lands, Hb|]. intros o Ho.
  apply row_moved_ok; auto using history_previous_ok.
Qed.
Lemma move_row_down_ok b : buffer_ok b -> keeps_ok (move_row_down_or_history_next b).
Proof.
  intros Hb. unfold move_row_down_or_history_next.
  destruct (history_owns_arrows b); [by apply history_next_ok|].
  eapply safe_bind; [apply yields_safe, logical_column_yields, Hb|]. intros w _.
  eapply safe_bind; [apply yields_safe, next_row_lands, Hb|]. intros o Ho.
  apply row_moved_ok; auto using history_next_ok.
Qed.
Lemma move_visual_up_ok columns b :
  buffer_ok b -> keeps_ok (move_visual_row_up_or_history_previous columns b).
Proof.
  intros Hb. unfold move_visual_row_up_or_history_previous.
  destruct (history_owns_arrows b); [by apply history_previous_ok|].
  eapply safe_bind; [apply yields_safe, current_visual_row_yields, Hb|].
  intros [[i w]|] _; [|apply move_row_up_ok; auto with mez].
  eapply safe_bind; [apply yields_safe, previous_visual_row_lands, Hb|]. intros o Ho.
  apply row_moved_ok; auto using move_row_up_ok.
Qed.
Lemma move_visual_down_ok columns b :
  buffer_ok b -> keeps_ok (move_visual_row_down_or_history_next columns b).
Proof.
  intros Hb. unfold move_visual_row_down_or_history_next.
  destruct (history_owns_arrows b); [by apply history_next_ok|].
  eapply safe_bind; [apply yields_safe, current_visual_row_yields, Hb|].
  intros [[i w]|] _; [|apply move_row_down_ok; auto with mez].
  eapply safe_bind; [apply yields_safe, next_visual_row_lands, Hb|]. intros o Ho.
  apply row_moved_ok; auto using move_row_down_ok.
Qed.

(** ** Submission and replacement *)

Lemma submit_yields b :
  buffer_ok b ->
  yields (submit_with_display b)
    (fun r => buffer_ok r.1 /\ r.2 = (expanded_line b, rendered_line b, collapsed_paste_ranges b)).
Proof.
  intros Hb. unfold submit_with_display.
  eapply yields_bind; [apply remember_ok; [|done]|].
  - destruct Hb. split; simpl; auto using blocks_ok_nil, boundary_0. done.
  - intros b' [Hb' _]. by apply yields_Ok.
Qed.

Lemma back_to_boundary_yields fuel s c :
  0 <= c <= blen s -> (Z.to_nat c <= fuel)%nat -> yields (back_to_boundary fuel s c) (boundary s).
Proof.
  revert c. induction fuel as [|fuel IH]; intros c Hc Hf; cbn [back_to_boundary].
  - assert (c = 0) as -> by lia. simpl. apply yields_Ok, boundary_0.
  - destruct ((0 <? c) && negb (is_char_boundary s c)) eqn:E.
    + apply andb_true_iff in E as [E _]. bool_to_prop. apply IH; lia.
    + apply yields_Ok. apply andb_false_iff in E as [E|E]; bool_to_prop.
      * assert (c = 0) as -> by lia. apply boundary_0.
      * by apply is_char_boundary_spec.
Qed.
Lemma blen_le_4 s : blen s <= 4 * Z.of_nat (length s).
Proof.
  induction s as [|c s IH]; [done|]. rewrite blen_cons. pose proof (len_utf8_pos c). simpl length. lia.
Qed.
Lemma clamp_yields s at_ :
  0 <= at_ -> yields (back_to_boundary (S (4 * length s)) s (Z.min at_ (blen s))) (boundary s).
Proof.
  intros H. pose proof (blen_le_4 s). pose proof (blen_nonneg s). apply back_to_boundary_yields; lia.
Qed.

Lemma replace_text_line_ok s b : buffer_ok b -> buffer_ok (replace_current_line_with_text s b).
Proof. intros Hb. apply set_column_ok, set_edit_ok; [done|apply boundary_end|apply blocks_ok_nil|apply Hb]. Qed.
Lemma set_line_ok s b : buffer_ok b -> buffer_ok (set_line s b).
Proof.
  intros Hb. unfold set_line. apply clear_navigation_ok, set_cursor_ok;
    [by apply replace_text_line_ok|apply boundary_end].
Qed.
Lemma set_line_and_cursor_ok s at_ b :
  buffer_ok b -> 0 <= at_ -> yields (set_line_and_cursor s at_ b) buffer_ok.
Proof.
  intros Hb Ha. unfold set_line_and_cursor. eapply yields_bind; [by apply clamp_yields|].
  intros c Hc. apply yields_Ok, clear_navigation_ok, set_cursor_ok; [by apply replace_text_line_ok|done].
Qed.
Lemma set_line_preserving_ok s at_ b :
  buffer_ok b -> 0 <= at_ -> yields (set_line_and_cursor_preserving_paste_blocks s at_ b) buffer_ok.
Proof.
  intros Hb Ha. unfold set_line_and_cursor_preserving_paste_blocks.
  eapply yields_bind; [by apply clamp_yields|].
  intros c Hc. by apply yields_Ok, clear_navigation_ok, cleanup_ok.
Qed.
Lemma replace_range_ok m n s b :
  buffer_ok b -> yields (replace_range m n s b) (fun r => buffer_ok r.1).
Proof.
  intros Hb. unfold replace_range. destruct (_ || _ || _ || _) eqn:E; [by apply yields_Ok|].
  repeat (apply orb_false_iff in E as [E ?]). bool_to_prop.
  rewrite !is_char_boundary_spec in *.
  destruct (boundaries_cut (line b) m n) as (a & t & c & Hl & -> & ->); [done|done|lia|].
  change (line (leave_history_navigation_for_edit b)) with (line b).
  rewrite Hl, replace_text_app. apply yields_Ok. apply cleanup_ok; [by apply leave_ok|].
  rewrite <- blen_app, (assoc_L (++)). apply boundary_pre.
Qed.

(** ** Every edit *)

Lemma with_outcome_ok r : keeps_ok r -> safe (with_bool_outcome r) (fun x => buffer_ok x.1).
Proof. intros Hr. eapply safe_bind; [exact Hr|]. by intros [b c]. Qed.

Lemma apply_edit_safe e b :
  buffer_ok b -> safe (apply_edit e b) (fun r => buffer_ok r.1).
Proof.
  intros Hb. destruct (buffer_ok_cut b Hb) as [z Hz].
  destruct (spec_edit e z) as [z'|] eqn:Hs.
  { destruct (apply_edit_refines e b z z') as (b' & o & -> & Hz' & He & _);
      [apply Hb|done..|]. simpl. by eapply line_edit_ok. }
  destruct e; try done; cbn [apply_edit].
  - case_bool_decide; [done|]. eapply safe_bind; [by apply pasted_nonempty|]. done.
  - by apply with_outcome_ok, move_row_up_ok.
  - by apply with_outcome_ok, move_row_down_ok.
  - by apply with_outcome_ok, history_previous_ok.
  - by apply with_outcome_ok, history_next_ok.
  - by apply with_outcome_ok, history_search_backward_ok.
  - eapply safe_bind; [by apply yields_safe, submit_yields|]. by intros [b' [[s d] r]] [? _].
Qed.

End Safe.
