(* ===== verification/ReadlineKeys.v ===== *)
(** * Terminal keys and bracketed pastes

    The decoder of terminal bytes (mez-mux/src/readline/decoder.rs): framing
    of key sequences and bracketed pastes over successive reads, the enhanced
    key encodings, and the bindings of a complete sequence to an edit of the
    buffer.  Instants and durations are milliseconds. *)

From S2P Require Import Prelude LayoutTypes Utf8Text ReadlineText Readline.
#[local] Open Scope Z_scope.

(** ** Byte sequences *)

(** ESC followed by ASCII text. *)
Definition esc (s : string) : bytes := 27 :: chars s.
Definition BRACKETED_PASTE_START : bytes := esc "[200~".
Definition BRACKETED_PASTE_END : bytes := esc "[201~".
Definition READLINE_BRACKETED_PASTE_STALE_AFTER : Z := 500.

(** [slice::starts_with]. *)
Definition starts_with_bytes (l p : bytes) : bool := bool_decide (take (length p) l = p).
(** [u8::is_ascii_control]. *)
Definition is_ascii_control (b : byte) : bool := (b <? 32) || (b =? 127).

(** [windows(needle.len()).position(|window| window == needle)]. *)
Fixpoint find_bytes (haystack needle : bytes) : option nat :=
  if starts_with_bytes haystack needle then Some O
  else match haystack with [] => None | _ :: h => S <$> find_bytes h needle end.

(** [(1..=max).rev().find(|len| needle.starts_with(&haystack[haystack.len() - len..]))]. *)
Fixpoint longest_suffix_from (len : nat) (haystack needle : bytes) : nat :=
  match len with
  | O => O
  | S k =>
      if starts_with_bytes needle (drop (length haystack - len) haystack) then len
      else longest_suffix_from k haystack needle
  end.
Definition longest_suffix_that_prefixes (haystack needle : bytes) : nat :=
  longest_suffix_from (Nat.min (length haystack) (length needle - 1)) haystack needle.

Definition not_utf8 {A} : outcome MuxError A :=
  Err (invalid_args "readline input is not valid UTF-8 text").

(** ** Framing of key sequences *)

Inductive DecodedSequence := SeqComplete (len : nat) (item : bytes) | SeqIncomplete.

Definition decode_text_sequence (input : bytes) : outcome MuxError DecodedSequence :=
  let len := default (length input) (position (fun b => (b =? 27) || is_ascii_control b) input) in
  let candidate := take len input in
  match utf8_scan candidate with
  | (_, _, Utf8End) => Ok (SeqComplete len candidate)
  | (_, S n, _) => Ok (SeqComplete (S n) (take (S n) input))
  | (_, O, Utf8Short) => Ok SeqIncomplete
  | (_, O, Utf8Invalid) => not_utf8
  end.

(** The final byte of a control sequence, from index [index] on. *)
Fixpoint csi_final (index : nat) (rest : bytes) : option nat :=
  match rest with
  | [] => None
  | b :: rest => if in_range 0x40 0x7e b then Some index else csi_final (S index) rest
  end.

Definition decode_escape_sequence (input : bytes) : DecodedSequence :=
  match input with
  | [] | [_] => SeqIncomplete
  | _ :: b :: rest =>
      if negb (b =? 91) then
        if b =? 79 then
          if (length input <? 3)%nat then SeqIncomplete else SeqComplete 3 (take 3 input)
        else SeqComplete 2 (take 2 input)
      else match csi_final 2 rest with
           | Some index => SeqComplete (S index) (take (S index) input)
           | None => SeqIncomplete
           end
  end.

Definition next_readline_sequence (input : bytes) : outcome MuxError DecodedSequence :=
  match input with
  | [] => Ok SeqIncomplete
  | b :: _ =>
      if starts_with_bytes input [13; 10] then Ok (SeqComplete 2 [13; 10])
      else if b =? 27 then Ok (decode_escape_sequence input)
      else if is_ascii_control b then Ok (SeqComplete 1 (take 1 input))
      else decode_text_sequence input
  end.

(** ** The paste decoder *)

Inductive ReadlineBracketedPasteRejection :=
| TooLarge (max_bytes : Z)
| Expired (stale_after : Z).
Inductive ReadlineDecodedInput :=
| Sequence (s : bytes)
| BracketedPaste (s : text)
| BracketedPasteRejected (r : ReadlineBracketedPasteRejection).
Inductive BracketedPasteFraming := Inactive | Collecting | Discarding.
#[global] Instance framing_eq_dec : EqDecision BracketedPasteFraming.
Proof. solve_decision. Defined.
#[global] Instance paste_rejection_eq_dec : EqDecision ReadlineBracketedPasteRejection.
Proof. solve_decision. Defined.
#[global] Instance decoded_input_eq_dec : EqDecision ReadlineDecodedInput.
Proof. solve_decision. Defined.

Record ReadlineTerminalInputDecoder := {
  pending : bytes;
  framing : BracketedPasteFraming;
  bracketed_paste : bytes;
  paste_rejected : bool;
  started_at : option Z;
  paste_max_bytes : Z;
  stale_after : Z;
}.

Definition with_bracketed_paste_limits (max_bytes stale : Z) : ReadlineTerminalInputDecoder :=
  {| pending := []; framing := Inactive; bracketed_paste := []; paste_rejected := false;
     started_at := None; paste_max_bytes := max_bytes; stale_after := stale |}.
Definition decoder_new : ReadlineTerminalInputDecoder :=
  with_bracketed_paste_limits READLINE_BRACKETED_PASTE_MAX_BYTES READLINE_BRACKETED_PASTE_STALE_AFTER.

Definition set_pending (p : bytes) (d : ReadlineTerminalInputDecoder) : ReadlineTerminalInputDecoder :=
  {| pending := p; framing := framing d; bracketed_paste := bracketed_paste d;
     paste_rejected := paste_rejected d; started_at := started_at d;
     paste_max_bytes := paste_max_bytes d; stale_after := stale_after d |}.
Definition set_paste (f : BracketedPasteFraming) (p : bytes) (at_ : option Z)
    (d : ReadlineTerminalInputDecoder) : ReadlineTerminalInputDecoder :=
  {| pending := pending d; framing := f; bracketed_paste := p;
     paste_rejected := paste_rejected d; started_at := at_;
     paste_max_bytes := paste_max_bytes d; stale_after := stale_after d |}.
Definition set_rejected (r : bool) (d : ReadlineTerminalInputDecoder) : ReadlineTerminalInputDecoder :=
  {| pending := pending d; framing := framing d; bracketed_paste := bracketed_paste d;
     paste_rejected := r; started_at := started_at d;
     paste_max_bytes := paste_max_bytes d; stale_after := stale_after d |}.

Definition buffered_len (d : ReadlineTerminalInputDecoder) : Z :=
  Z.of_nat (length (pending d)) + Z.of_nat (length (bracketed_paste d)).
Definition bracketed_paste_resynchronization_pending (d : ReadlineTerminalInputDecoder) : bool :=
  bool_decide (framing d = Discarding).
Definition take_bracketed_paste_rejection (d : ReadlineTerminalInputDecoder)
    : ReadlineTerminalInputDecoder * bool := (set_rejected false d, paste_rejected d).

Definition clear_bracketed_paste_framing (d : ReadlineTerminalInputDecoder)
    : ReadlineTerminalInputDecoder := set_paste Inactive [] None d.
Definition begin_bracketed_paste_discard (r : ReadlineBracketedPasteRejection)
    (d : ReadlineTerminalInputDecoder) : ReadlineTerminalInputDecoder * ReadlineDecodedInput :=
  (set_rejected true (set_paste Discarding [] None d), BracketedPasteRejected r).
Definition abandon_bracketed_paste_framing (d : ReadlineTerminalInputDecoder)
    : ReadlineTerminalInputDecoder * bool :=
  (set_pending [] (clear_bracketed_paste_framing d),
   bool_decide (framing d <> Inactive) || bool_decide (bracketed_paste d <> [])
   || bool_decide (pending d <> [])).
Definition bracketed_paste_fits (d : ReadlineTerminalInputDecoder) (additional : nat) : bool :=
  match checked_add u64_MAX (Z.of_nat (length (bracketed_paste d))) (Z.of_nat additional) with
  | Some total => total <=? paste_max_bytes d
  | None => false
  end.

(** How a read ends other than by its items. *)
Inductive decode_failure := DecodeError (e : MuxError) | DecodeEndless.
Definition not_utf8_paste : decode_failure :=
  DecodeError (invalid_args "readline paste is not valid UTF-8 text").

(** One round of the loop of [decode_at] on the bytes from the cursor on: the
    state, the item pushed, and the bytes left, [None] for [break]. *)
Definition decode_round (now : Z) (rest : bytes) (d : ReadlineTerminalInputDecoder)
    : ReadlineTerminalInputDecoder
      * outcome decode_failure (option ReadlineDecodedInput * option bytes) :=
  match framing d with
  | Discarding =>
      match find_bytes rest BRACKETED_PASTE_END with
      | Some end_offset =>
          (clear_bracketed_paste_framing d,
           Ok (None, Some (drop (end_offset + length BRACKETED_PASTE_END) rest)))
      | None =>
          let tail := longest_suffix_that_prefixes rest BRACKETED_PASTE_END in
          (set_pending (pending d ++ drop (length rest - tail) rest) d, Ok (None, None))
      end
  | Collecting =>
      match find_bytes rest BRACKETED_PASTE_END with
      | Some end_offset =>
          if negb (bracketed_paste_fits d end_offset) then
            let '(d, item) := begin_bracketed_paste_discard (TooLarge (paste_max_bytes d)) d in
            (d, Ok (Some item, Some rest))
          else
            let payload := bracketed_paste d ++ take end_offset rest in
            let d := clear_bracketed_paste_framing d in
            match from_utf8 payload with
            | None => (d, Err not_utf8_paste)
            | Some s =>
                (d, Ok (if bool_decide (s = []) then None else Some (BracketedPaste s),
                        Some (drop (end_offset + length BRACKETED_PASTE_END) rest)))
            end
      | None =>
          let tail := longest_suffix_that_prefixes rest BRACKETED_PASTE_END in
          let payload_len := (length rest - tail)%nat in
          if negb (bracketed_paste_fits d payload_len) then
            let '(d, item) := begin_bracketed_paste_discard (TooLarge (paste_max_bytes d)) d in
            (d, Ok (Some item, Some rest))
          else
            (set_pending (pending d ++ drop payload_len rest)
               (set_paste Collecting (bracketed_paste d ++ take payload_len rest) (started_at d) d),
             Ok (None, None))
      end
  | Inactive =>
      if starts_with_bytes rest BRACKETED_PASTE_START then
        (set_paste Collecting [] (Some now) d,
         Ok (None, Some (drop (length BRACKETED_PASTE_START) rest)))
      else if starts_with_bytes BRACKETED_PASTE_START rest then
        (set_pending (pending d ++ rest) d, Ok (None, None))
      else
        match next_readline_sequence rest with
        | Ok (SeqComplete len item) =>
            (d, Ok (if bool_decide (item = []) then None else Some (Sequence item),
                    Some (drop len rest)))
        | Ok SeqIncomplete => (set_pending (pending d ++ rest) d, Ok (None, None))
        | Err e => (d, Err (DecodeError e))
        | Panic => (d, Panic)
        end
  end.

(** [while cursor < bytes.len()]. *)
Fixpoint decode_loop (fuel : nat) (now : Z) (rest : bytes) (d : ReadlineTerminalInputDecoder)
    : ReadlineTerminalInputDecoder * outcome decode_failure (list ReadlineDecodedInput) :=
  match rest with
  | [] => (d, Ok [])
  | _ :: _ =>
      match fuel with
      | O => (d, Err DecodeEndless)
      | S fuel =>
          let '(d, r) := decode_round now rest d in
          match r with
          | Ok (item, next) =>
              let items := match item with Some i => [i] | None => [] end in
              match next with
              | None => (d, Ok items)
              | Some rest =>
                  let '(d, r) := decode_loop fuel now rest d in
                  (d, app items <$> r)
              end
          | Err e => (d, Err e)
          | Panic => (d, Panic)
          end
      end
  end.

Definition decode_at (input : bytes) (now : Z) (d : ReadlineTerminalInputDecoder)
    : ReadlineTerminalInputDecoder * outcome decode_failure (list ReadlineDecodedInput) :=
  let '(d, decoded) :=
    if bool_decide (framing d = Collecting)
       && match started_at d with Some t => stale_after d <=? sat_sub now t | None => false end
    then let '(d, item) := begin_bracketed_paste_discard (Expired (stale_after d)) d in (d, [item])
    else (d, []) in
  if bool_decide (input = []) && bool_decide (pending d = []) then (d, Ok decoded)
  else
    let bytes := pending d ++ input in
    let '(d, r) := decode_loop (2 * length bytes + 2) now bytes (set_pending [] d) in
    (d, app decoded <$> r).

(** ** Enhanced keys *)

Inductive KeyEvent := KeyPress | KeyRepeat | KeyRelease | KeyUnknown.
Record EnhancedKey := {
  codepoint : Z;
  alternate_codepoint : option Z;
  base_layout_codepoint : option Z;
  modifiers : Z;
  event : KeyEvent;
}.

Definition MOD_SHIFT : Z := 1.
Definition MOD_ALT : Z := 2.
Definition MOD_CTRL : Z := 4.
Definition MOD_SUPPORTED : Z := Z.lor (Z.lor MOD_SHIFT MOD_ALT) MOD_CTRL.
(** [self.flags & !SUPPORTED == 0] on 16 bits. *)
Definition is_supported (flags : Z) : bool :=
  Z.land flags (Z.lxor u16_MAX MOD_SUPPORTED) =? 0.
Definition mod_shift (flags : Z) : bool := negb (Z.land flags MOD_SHIFT =? 0).
Definition mod_alt (flags : Z) : bool := negb (Z.land flags MOD_ALT =? 0).
Definition mod_ctrl (flags : Z) : bool := negb (Z.land flags MOD_CTRL =? 0).

Definition xterm_modifier (value : Z) : option Z := checked_sub value 1.

(** [str::parse] of an unsigned integer: an optional plus sign and digits. *)
Fixpoint parse_digits (max acc : Z) (s : text) : option Z :=
  match s with
  | [] => Some acc
  | c :: s =>
      if in_range 48 57 c then
        let v := acc * 10 + (c - 48) in
        if max <? v then None else parse_digits max v s
      else None
  end.
Definition parse_uint (max : Z) (s : text) : option Z :=
  match s with
  | [] => None
  | c :: rest =>
      if c =? 43 then match rest with [] => None | _ => parse_digits max 0 rest end
      else parse_digits max 0 s
  end.
(** [field.map(str::parse).transpose().ok()]. *)
Definition parse_optional (max : Z) (o : option text) : option (option Z) :=
  match o with None => Some None | Some s => Some <$> parse_uint max s end.

Definition parse_kitty_key (params : text) : option EnhancedKey :=
  match split_text_at 59 params with
  | [] => None
  | first :: fields =>
      match split_text_at 58 first with
      | [] => None
      | c0 :: codepoints =>
          codepoint ← parse_uint u32_MAX c0;
          alternate ← parse_optional u32_MAX (codepoints !! 0%nat);
          base ← parse_optional u32_MAX (codepoints !! 1%nat);
          if (2 <? length codepoints)%nat then None
          else
            match split_text_at 58 (default (chars "1") (head fields)) with
            | [] => None
            | m0 :: parts =>
                value ← parse_uint u16_MAX m0;
                flags ← xterm_modifier value;
                ev ← parse_uint u8_MAX (default (chars "1") (head parts));
                if (1 <? length parts)%nat || (1 <? length fields)%nat then None
                else Some {| codepoint := codepoint; alternate_codepoint := alternate;
                             base_layout_codepoint := base; modifiers := flags;
                             event := if ev =? 1 then KeyPress else if ev =? 2 then KeyRepeat
                                      else if ev =? 3 then KeyRelease else KeyUnknown |}
            end
      end
  end.

Definition parse_modify_other_keys (params : text) : option EnhancedKey :=
  match split_text_at 59 params with
  | [tag; m; c] =>
      if bool_decide (tag = chars "27") then
        value ← parse_uint u16_MAX m;
        flags ← xterm_modifier value;
        codepoint ← parse_uint u32_MAX c;
        Some {| codepoint := codepoint; alternate_codepoint := None;
                base_layout_codepoint := None; modifiers := flags; event := KeyPress |}
      else None
  | _ => None
  end.

(** The slice [input[2..len - 1]] panics on the two bytes [ESC \[]. *)
Definition enhanced_key (input : bytes) : ro (option EnhancedKey) :=
  if negb (starts_with_bytes input [27; 91]) then Ok None
  else match last input with
       | None => Ok None
       | Some final_byte =>
           if (length input <? 3)%nat then Panic
           else match from_utf8 (take (length input - 3) (drop 2 input)) with
                | None => Ok None
                | Some params =>
                    if final_byte =? 117 then Ok (parse_kitty_key params)
                    else if final_byte =? 126 then Ok (parse_modify_other_keys params)
                    else Ok None
                end
       end.

Definition is_pressed (k : EnhancedKey) : bool :=
  match event k with KeyPress | KeyRepeat => true | _ => false end.

Definition readline_modified_key (input : bytes) : ro (option (rchar * Z)) :=
  k ← enhanced_key input;
  Ok (match k with
      | None => None
      | Some k =>
          if negb (is_pressed k) || negb (is_supported (modifiers k)) then None
          else match from_u32 (codepoint k) with
               | Some c => Some (c, modifiers k)
               | None => None
               end
      end).

(** [char::to_ascii_lowercase]. *)
Definition to_ascii_lowercase (c : rchar) : rchar := if in_range 65 90 c then c + 32 else c.

Definition readline_modified_key_is_ctrl (input : bytes) (target : rchar) : ro bool :=
  k ← readline_modified_key input;
  Ok (match k with
      | None => false
      | Some (c, m) =>
          mod_ctrl m && negb (mod_alt m) && (to_ascii_lowercase c =? to_ascii_lowercase target)
      end).
Definition readline_input_is_ctrl_r (input : bytes) : ro bool :=
  if bool_decide (input = [18]) then Ok true else readline_modified_key_is_ctrl input 114.
Definition readline_input_is_ctrl_v (input : bytes) : ro bool :=
  if bool_decide (input = [22]) then Ok true else readline_modified_key_is_ctrl input 118.
Definition readline_input_is_ctrl_shift_r (input : bytes) : ro bool :=
  k ← readline_modified_key input;
  Ok (match k with
      | None => false
      | Some (c, m) => mod_ctrl m && negb (mod_alt m) && mod_shift m && (c =? 82)
      end).

(** ** Bindings *)

Section Bindings.
Context {UT : UnicodeTables}.

(** What a key does: an edit, or an outcome without one. *)
Inductive key_action := Act (e : ReadlineEdit) | Out (o : ReadlineOutcome).

Definition run_action (a : key_action) (b : ReadlineBuffer) : ro (ReadlineBuffer * ReadlineOutcome) :=
  match a with Act e => apply_edit e b | Out o => Ok (b, o) end.

(** The last match of [apply_enhanced_key]. *)
Definition control_action (line_empty : bool) (c : option rchar) : key_action :=
  match to_ascii_lowercase <$> c with
  | Some 97 => Act MoveHome
  | Some 98 => Act MoveLeft
  | Some 99 => Out Cancelled
  | Some 100 => if line_empty then Out Eof else Act DeleteForward
  | Some 101 => Act MoveEnd
  | Some 102 => Act MoveRight
  | Some 107 => Act KillToEnd
  | Some 110 => Act HistoryNext
  | Some 112 => Act HistoryPrevious
  | Some 114 => Act HistorySearchBackward
  | Some 117 => Act KillToStart
  | Some 118 => Out Noop
  | Some 119 => Act KillWordLeft
  | _ => Out Noop
  end.
Definition alt_action (c : option rchar) : key_action :=
  match c with
  | Some 98 | Some 66 => Act MoveWordLeft
  | Some 102 | Some 70 => Act MoveWordRight
  | Some 100 | Some 68 => Act KillWordRight
  | _ => Out Noop
  end.
Definition enhanced_action (line_empty : bool) (k : EnhancedKey) : key_action :=
  let flags := modifiers k in
  if negb (is_pressed k) || negb (is_supported flags) then Out Noop
  else if (codepoint k =? 8) || (codepoint k =? 127) then
    if flags =? 0 then Act Backspace
    else if (flags =? MOD_ALT) || (flags =? MOD_CTRL) then Act KillWordLeft
    else Out Noop
  else if (flags =? 0) && ((codepoint k =? 10) || (codepoint k =? 13)) then Act Submit
  else if flags =? MOD_ALT then alt_action (from_u32 (codepoint k))
  else if negb (flags =? MOD_CTRL) && negb (flags =? Z.lor MOD_CTRL MOD_SHIFT) then Out Noop
  else control_action line_empty (from_u32 (codepoint k)).
Definition apply_enhanced_key (k : EnhancedKey) (b : ReadlineBuffer)
    : ro (ReadlineBuffer * ReadlineOutcome) :=
  run_action (enhanced_action (bool_decide (line b = [])) k) b.

(** The match on complete legacy sequences. *)
Definition one_of (input : bytes) (l : list bytes) : bool := bool_decide (input ∈ l).
Definition legacy_action (line_empty : bool) (input : bytes) : option key_action :=
  if one_of input [[13]; [10]; [13; 10]] then Some (Act Submit)
  else if one_of input [[3]] then Some (Out Cancelled)
  else if one_of input [[4]] then Some (if line_empty then Out Eof else Act DeleteForward)
  else if one_of input [[1]; esc "[H"; esc "[1~"; esc "OH"] then Some (Act MoveHome)
  else if one_of input [[5]; esc "[F"; esc "[4~"; esc "OF"] then Some (Act MoveEnd)
  else if one_of input [esc "[1;5H"] then Some (Act MoveBufferStart)
  else if one_of input [esc "[1;5F"] then Some (Act MoveBufferEnd)
  else if one_of input [[2]; esc "[D"; esc "OD"] then Some (Act MoveLeft)
  else if one_of input [[6]; esc "[C"; esc "OC"] then Some (Act MoveRight)
  else if one_of input [esc "b"; esc "[1;3D"; esc "[1;5D"; esc "[3D"; esc "[5D"]
    then Some (Act MoveWordLeft)
  else if one_of input [esc "f"; esc "[1;3C"; esc "[1;5C"; esc "[3C"; esc "[5C"]
    then Some (Act MoveWordRight)
  else if one_of input [[127]; [8]] then Some (Act Backspace)
  else if one_of input [esc "[3~"] then Some (Act DeleteForward)
  else if one_of input [[23]; [27; 127]; [27; 8]] then Some (Act KillWordLeft)
  else if one_of input [esc "d"] then Some (Act KillWordRight)
  else if one_of input [[21]] then Some (Act KillToStart)
  else if one_of input [[11]] then Some (Act KillToEnd)
  else if one_of input [[16]] then Some (Act HistoryPrevious)
  else if one_of input [[14]] then Some (Act HistoryNext)
  else if one_of input [esc "[A"; esc "OA"] then Some (Act MoveRowUpOrHistoryPrevious)
  else if one_of input [esc "[B"; esc "OB"] then Some (Act MoveRowDownOrHistoryNext)
  else if one_of input [[18]] then Some (Act HistorySearchBackward)
  else None.

(** The result carries the buffer also when the input is not text. *)
Definition apply_readline_terminal_input (input : bytes) (b : ReadlineBuffer)
    : ro (ReadlineBuffer * outcome MuxError ReadlineOutcome) :=
  k ← enhanced_key input;
  match k with
  | Some k => '(b, o) ← apply_enhanced_key k b; Ok (b, Ok o)
  | None =>
      is_r ← readline_input_is_ctrl_r input;
      if (is_r : bool) then '(b, o) ← apply_edit HistorySearchBackward b; Ok (b, Ok o)
      else
        match legacy_action (bool_decide (line b = [])) input with
        | Some a => '(b, o) ← run_action a b; Ok (b, Ok o)
        | None =>
            if existsb is_ascii_control input then Ok (b, Ok Noop)
            else match from_utf8 input with
                 | None => Ok (b, not_utf8)
                 | Some s =>
                     if bool_decide (s = []) then Ok (b, Ok Noop)
                     else '(b, o) ← apply_edit (InsertText s) b; Ok (b, Ok o)
                 end
        end
  end.

End Bindings.
