(* ===== verification/ReadlinePrompt.v ===== *)
(** * The prompt and its reverse history search

    The prompt state (mez-mux/src/readline/prompt.rs): the buffer, the
    incremental search through its history, and the input policy of single
    and multiline prompts. *)

From S2P Require Import Prelude LayoutTypes Utf8Text ReadlineText Readline ReadlineSpec ReadlineRows ReadlineInv ReadlineKeys.
#[local] Open Scope Z_scope.

Inductive ReadlinePromptMode := SingleLine | Multiline.

Record ReadlineReverseSearch := {
  rs_draft : ReadlineDraft;
  rs_query : text;
  rs_matched_index : option nat;
}.
Record ReadlinePromptState := {
  buffer : ReadlineBuffer;
  reverse_search : option ReadlineReverseSearch;
  prompt_body_columns : option Z;
}.

Definition set_buffer (b : ReadlineBuffer) (p : ReadlinePromptState) : ReadlinePromptState :=
  {| buffer := b; reverse_search := reverse_search p; prompt_body_columns := prompt_body_columns p |}.
Definition set_search (s : option ReadlineReverseSearch) (p : ReadlinePromptState)
    : ReadlinePromptState :=
  {| buffer := buffer p; reverse_search := s; prompt_body_columns := prompt_body_columns p |}.
Definition set_match (o : option nat) (s : ReadlineReverseSearch) : ReadlineReverseSearch :=
  {| rs_draft := rs_draft s; rs_query := rs_query s; rs_matched_index := o |}.

Definition prompt_new : ReadlinePromptState :=
  {| buffer := readline_new; reverse_search := None; prompt_body_columns := None |}.
Definition set_prompt_body_columns (columns : Z) (p : ReadlinePromptState) : ReadlinePromptState :=
  {| buffer := buffer p; reverse_search := reverse_search p;
     prompt_body_columns := Some (Z.max columns 1) |}.
Definition reverse_search_active (p : ReadlinePromptState) : bool :=
  match reverse_search p with Some _ => true | None => false end.
Definition clear_reverse_search (p : ReadlinePromptState) : ReadlinePromptState := set_search None p.

Section Prompt.
Context {UT : UnicodeTables}.

Definition rendered_reverse_search (p : ReadlinePromptState) : ro (option text) :=
  match reverse_search p with
  | None => Ok None
  | Some s =>
      let render item :=
        Some (chars "(reverse-i-search'" ++ rs_query s ++ chars "'): " ++ item) in
      match i ← rs_matched_index s; structured_history_entry (buffer p) i with
      | None => Ok (render [])
      | Some e => item ← render_history_entry e; Ok (render item)
      end
  end.
Definition reverse_search_cursor_column (p : ReadlinePromptState) : option Z :=
  s ← reverse_search p;
  Some (Z.of_nat (str_width (chars "(reverse-i-search'")) + Z.of_nat (str_width (rs_query s))).

Definition ensure_reverse_search (p : ReadlinePromptState) : ReadlinePromptState :=
  match reverse_search p with
  | Some _ => p
  | None =>
      let draft := draft_snapshot (buffer p) in
      set_search (Some {| rs_draft := draft; rs_query := expanded_draft draft;
                          rs_matched_index := None |}) p
  end.

Definition set_reverse_search_match (next : option nat) (p : ReadlinePromptState)
    : ro (ReadlinePromptState * ReadlineOutcome) :=
  match reverse_search p with
  | None => Ok (p, Noop)
  | Some s =>
      if bool_decide (rs_matched_index s = next) then Ok (p, Noop)
      else
        let p := set_search (Some (set_match next s)) p in
        match next with
        | Some index =>
            '(b, _) ← load_history_search_match index (rs_draft s) (buffer p);
            Ok (set_buffer b p, Edited)
        | None => Ok (set_buffer (restore_history_search_draft (rs_draft s) (buffer p)) p, Edited)
        end
  end.

Definition refresh_reverse_search_match (p : ReadlinePromptState) : ro ReadlinePromptState :=
  match reverse_search p with
  | None => Ok p
  | Some s =>
      next ← history_substring_match_before (buffer p) (rs_query s)
               (length (entries (history (buffer p))));
      '(p, _) ← set_reverse_search_match next p;
      Ok p
  end.

(** [while next.is_some_and(|index| history.get(index) == current_match)
    { next = next.and_then(step) }]. *)
Fixpoint skip_same (fuel : nat) (es : list text) (current : option text)
    (step : nat -> ro (option nat)) (next : option nat) : ro (option nat) :=
  match next with
  | None => Ok None
  | Some index =>
      if bool_decide (es !! index = current) then
        match fuel with
        | O => Err Endless
        | S fuel => next ← step index; skip_same fuel es current step next
        end
      else Ok (Some index)
  end.

Definition reverse_search_step (forward : bool) (p : ReadlinePromptState)
    : ro (ReadlinePromptState * ReadlineOutcome) :=
  let p := ensure_reverse_search p in
  match reverse_search p with
  | None => Ok (p, Noop)
  | Some s =>
      let b := buffer p in
      let query := rs_query s in
      let es := entries (history b) in
      let current_match := i ← rs_matched_index s; es !! i in
      let fuel := S (length es) in
      if forward then
        first ← (match rs_matched_index s with
                 | None => Ok None
                 | Some index => history_substring_match_after b query index
                 end : ro (option nat));
        next ← skip_same fuel es current_match (history_substring_match_after b query) first;
        set_reverse_search_match next p
      else
        first ← history_substring_match_before b query
                  (default (length es) (rs_matched_index s));
        next ← skip_same fuel es current_match (history_substring_match_before b query) first;
        set_reverse_search_match next p
  end.

(** [search.query.pop()]. *)
Definition set_query (q : text) (s : ReadlineReverseSearch) : ReadlineReverseSearch :=
  {| rs_draft := rs_draft s; rs_query := q; rs_matched_index := None |}.
Definition reverse_search_backspace (p : ReadlinePromptState)
    : ro (ReadlinePromptState * ReadlineOutcome) :=
  let p := ensure_reverse_search p in
  match reverse_search p with
  | None => p ← refresh_reverse_search_match p; Ok (p, Edited)
  | Some s =>
      if bool_decide (rs_query s = []) then Ok (p, Noop)
      else
        p ← refresh_reverse_search_match (set_search (Some (set_query (removelast (rs_query s)) s)) p);
        Ok (p, Edited)
  end.

Definition cancel_reverse_search (p : ReadlinePromptState) : ReadlinePromptState :=
  match reverse_search p with
  | None => p
  | Some s =>
      set_search None (set_buffer (restore_history_search_draft (rs_draft s) (buffer p)) p)
  end.

(** ** Inputs *)

Definition apply_reverse_search_input (input : bytes) (p : ReadlinePromptState)
    : ro (ReadlinePromptState * outcome MuxError (option ReadlineOutcome)) :=
  shift_r ← readline_input_is_ctrl_shift_r input;
  if (shift_r : bool) then '(p, o) ← reverse_search_step true p; Ok (p, Ok (Some o))
  else
    is_r ← readline_input_is_ctrl_r input;
    if (is_r : bool) then '(p, o) ← reverse_search_step false p; Ok (p, Ok (Some o))
    else if negb (reverse_search_active p) then Ok (p, Ok None)
    else if one_of input [[13]; [10]; [13; 10]] then Ok (set_search None p, Ok (Some Edited))
    else if one_of input [[3]; [27]] then Ok (cancel_reverse_search p, Ok (Some Edited))
    else if one_of input [[9]] then Ok (set_search None p, Ok (Some Edited))
    else if one_of input [esc "[Z"] then Ok (p, Ok (Some Noop))
    else if one_of input [[127]; [8]] then
      '(p, o) ← reverse_search_backspace p; Ok (p, Ok (Some o))
    else if one_of input [[6]; esc "[C"] then Ok (set_search None p, Ok (Some Edited))
    else if one_of input [esc "[A"; esc "[B"; [2]; esc "[D"] then
      Ok (cancel_reverse_search p, Ok (Some Edited))
    else if existsb is_ascii_control input then Ok (p, Ok (Some Noop))
    else
      match from_utf8 input with
      | None => Ok (p, not_utf8)
      | Some s =>
          if bool_decide (s = []) then Ok (p, Ok (Some Noop))
          else
            let p := ensure_reverse_search p in
            let p := match reverse_search p with
                     | Some search => set_search (Some (set_query (rs_query search ++ s) search)) p
                     | None => p
                     end in
            p ← refresh_reverse_search_match p;
            Ok (p, Ok (Some Edited))
      end.

(** An outcome of a buffer method in the prompt. *)
Definition in_buffer {A B} (f : A -> B) (p : ReadlinePromptState) (r : ro (ReadlineBuffer * A))
    : ro (ReadlinePromptState * B) := '(b, o) ← r; Ok (set_buffer b p, f o).

Definition apply_mode_input (mode : ReadlinePromptMode) (input : bytes) (p : ReadlinePromptState)
    : ro (ReadlinePromptState * option ReadlineOutcome) :=
  match mode with
  | SingleLine => Ok (p, None)
  | Multiline =>
      if one_of input [[10]; [13; 10]] then in_buffer Some p (apply_edit (InsertText [10]) (buffer p))
      else if one_of input [[27]] then
        if bool_decide (line (buffer p) = []) then Ok (p, Some Noop)
        else Ok (set_buffer (set_line [] (buffer p)) p, Some Edited)
      else if one_of input [esc "[A"; esc "OA"] then
        match prompt_body_columns p with
        | None => Ok (p, None)
        | Some columns =>
            in_buffer (fun c => Some (bool_outcome c)) p
              (move_visual_row_up_or_history_previous columns (buffer p))
        end
      else if one_of input [esc "[B"; esc "OB"] then
        match prompt_body_columns p with
        | None => Ok (p, None)
        | Some columns =>
            in_buffer (fun c => Some (bool_outcome c)) p
              (move_visual_row_down_or_history_next columns (buffer p))
        end
      else Ok (p, None)
  end.

Definition apply_terminal_input (input : bytes) (p : ReadlinePromptState)
    : ro (ReadlinePromptState * outcome MuxError ReadlineOutcome) :=
  in_buffer id p (apply_readline_terminal_input input (buffer p)).

End Prompt.

(** ** Prompts stay well formed *)



Section PromptSafe.
Context {UT : UnicodeTables}.

(** The saved draft of a search. *)
Definition draft_ok (d : ReadlineDraft) : Prop :=
  boundary (dr_line d) (dr_cursor d) /\ blocks_ok (dr_line d) (dr_paste_blocks d)
  /\ 0 <= dr_next_paste_block_id d.
Record prompt_ok (p : ReadlinePromptState) : Prop := {
  po_buffer : buffer_ok (buffer p);
  po_search : forall s, reverse_search p = Some s -> draft_ok (rs_draft s);
}.

(** ** Keys *)

(** A lone control sequence introducer, the bytes ESC [, is the one input the key
    functions do not survive ([bare_introducer_panics]): [enhanced_key] slices
    backwards on it.  The decoder, which feeds the key functions, never yields it
    ([decoded_keys_are_safe]). *)
Definition key_input (input : bytes) : Prop := input <> [27; 91].

Lemma enhanced_key_yields input : key_input input -> yields (enhanced_key input) (fun _ => True).
Proof.
  intros Hk. unfold enhanced_key. destruct (negb _) eqn:E; [by apply yields_Ok|].
  apply negb_false_iff in E. unfold starts_with_bytes in E. apply bool_decide_eq_true in E.
  destruct (last input) as [f|]; [|by apply yields_Ok].
  destruct input as [|x [|y [|z l]]]; simpl in *; try (by apply yields_Ok); try discriminate.
  - by injection E as -> ->.
  - repeat case_match; by apply yields_Ok.
Qed.
Lemma modified_key_yields input :
  key_input input -> yields (readline_modified_key input) (fun _ => True).
Proof.
  intros Hk. eapply yields_bind; [by apply enhanced_key_yields|]. intros k _. by apply yields_Ok.
Qed.
Lemma ctrl_yields input c :
  key_input input -> yields (readline_modified_key_is_ctrl input c) (fun _ => True).
Proof.
  intros Hk. eapply yields_bind; [by apply modified_key_yields|]. intros k _. by apply yields_Ok.
Qed.
Lemma ctrl_r_yields input : key_input input -> yields (readline_input_is_ctrl_r input) (fun _ => True).
Proof.
  intros Hk. unfold readline_input_is_ctrl_r. case_bool_decide; [by apply yields_Ok|]. by apply ctrl_yields.
Qed.
Lemma ctrl_shift_r_yields input :
  key_input input -> yields (readline_input_is_ctrl_shift_r input) (fun _ => True).
Proof.
  intros Hk. eapply yields_bind; [by apply modified_key_yields|]. intros k _. by apply yields_Ok.
Qed.

Lemma run_action_safe a b : buffer_ok b -> safe (run_action a b) (fun r => buffer_ok r.1).
Proof. intros Hb. destruct a; [by apply apply_edit_safe|done]. Qed.

Lemma with_result_safe {A B} (f : A -> B) (r : ro (ReadlineBuffer * A)) :
  safe r (fun x => buffer_ok x.1) ->
  safe ('(b, o) ← r; Ok (b, f o)) (fun x : ReadlineBuffer * B => buffer_ok x.1).
Proof. intros Hr. eapply safe_bind; [exact Hr|]. by intros [b o]. Qed.

Lemma terminal_input_safe input b :
  key_input input -> buffer_ok b ->
  safe (apply_readline_terminal_input input b) (fun r => buffer_ok r.1).
Proof.
  intros Hk Hb. unfold apply_readline_terminal_input.
  eapply safe_bind; [by apply yields_safe, enhanced_key_yields|]. intros [k|] _.
  { by apply with_result_safe, run_action_safe. }
  eapply safe_bind; [by apply yields_safe, ctrl_r_yields|]. intros [] _.
  { by apply with_result_safe, apply_edit_safe. }
  destruct (legacy_action _ _) as [a|]; [by apply with_result_safe, run_action_safe|].
  destruct (existsb _ _); [done|]. destruct (from_utf8 input); [|done].
  case_bool_decide; [done|]. by apply with_result_safe, apply_edit_safe.
Qed.

(** ** The reverse search *)

Lemma set_buffer_ok p b : prompt_ok p -> buffer_ok b -> prompt_ok (set_buffer b p).
Proof. intros [] Hb. by split. Qed.
Lemma no_search_ok p : prompt_ok p -> prompt_ok (set_search None p).
Proof. intros []. by split. Qed.
Lemma set_search_ok p s s' :
  prompt_ok p -> reverse_search p = Some s -> rs_draft s' = rs_draft s ->
  prompt_ok (set_search (Some s') p).
Proof. intros [? Hs] He Hd. split; [done|]. simpl. intros ? [= <-]. rewrite Hd. auto. Qed.
Lemma ensure_ok p :
  prompt_ok p -> prompt_ok (ensure_reverse_search p) /\ buffer (ensure_reverse_search p) = buffer p
    /\ is_Some (reverse_search (ensure_reverse_search p)).
Proof.
  intros Hp. unfold ensure_reverse_search. destruct (reverse_search p) eqn:E.
  - rewrite E. by eauto.
  - split; [|by eauto]. split; [apply Hp|]. simpl. intros s [= <-]. split_and!; apply Hp.
Qed.

Lemma restore_ok d b : draft_ok d -> buffer_ok b -> buffer_ok (restore_history_search_draft d b).
Proof. intros (Hc & Hb & Hid) Hok. by apply clear_navigation_ok, set_edit_ok. Qed.
Lemma load_match_ok i d b :
  draft_ok d -> buffer_ok b -> safe (load_history_search_match i d b) (fun r => buffer_ok r.1).
Proof.
  intros (_ & Hd & Hid) Hb. unfold load_history_search_match. destruct (_ !! i); [|done].
  apply keeps_ok_load. destruct Hb. by split.
Qed.
Lemma search_cancel_ok p : prompt_ok p -> prompt_ok (cancel_reverse_search p).
Proof.
  intros Hp. unfold cancel_reverse_search. destruct (reverse_search p) as [s|] eqn:E; [|done].
  apply no_search_ok, set_buffer_ok; [done|]. apply restore_ok; [by apply (po_search p Hp)|apply Hp].
Qed.

Definition keeps_prompt {A} (r : ro (ReadlinePromptState * A)) : Prop :=
  safe r (fun x => prompt_ok x.1).

Lemma set_match_ok next p : prompt_ok p -> keeps_prompt (set_reverse_search_match next p).
Proof.
  intros Hp. unfold set_reverse_search_match. destruct (reverse_search p) as [s|] eqn:E; [|done].
  case_bool_decide; [done|].
  assert (prompt_ok (set_search (Some (set_match next s)) p)) as Hp' by (by eapply set_search_ok).
  assert (draft_ok (rs_draft s)) as Hd by (by apply (po_search p Hp)).
  destruct next as [i|].
  - eapply safe_bind; [apply load_match_ok; [done|apply Hp]|]. intros [b c] Hb. by apply set_buffer_ok.
  - apply set_buffer_ok; [done|]. by apply restore_ok; [|apply Hp].
Qed.
Lemma refresh_ok p : prompt_ok p -> safe (refresh_reverse_search_match p) prompt_ok.
Proof.
  intros Hp. unfold refresh_reverse_search_match. destruct (reverse_search p) as [s|]; [|done].
  eapply safe_bind; [apply yields_safe, match_before_yields, Hp|]. intros next _.
  eapply safe_bind; [by apply set_match_ok|]. by intros [p' o].
Qed.

(** The search for a different entry moves strictly, so it ends. *)
Lemma skip_before_yields b q current fuel next :
  buffer_ok b -> (forall i, next = Some i -> (i < fuel)%nat) ->
  yields (skip_same fuel (entries (history b)) current (history_substring_match_before b q) next)
    (fun _ => True).
Proof.
  intros Hb. revert next. induction fuel as [|fuel IH]; intros [i|] Hi; try (by apply yields_Ok);
    cbn [skip_same]; specialize (Hi i eq_refl); [lia|].
  case_bool_decide; [|by apply yields_Ok].
  eapply yields_bind; [by apply match_before_yields|]. intros o Ho. apply IH.
  intros j Hj. specialize (Ho j Hj). lia.
Qed.
Lemma skip_after_yields b q current fuel next :
  buffer_ok b ->
  (forall i, next = Some i -> (length (entries (history b)) - i <= fuel /\ i < length (entries (history b)))%nat) ->
  yields (skip_same fuel (entries (history b)) current (history_substring_match_after b q) next)
    (fun _ => True).
Proof.
  intros Hb. revert next. induction fuel as [|fuel IH]; intros [i|] Hi; try (by apply yields_Ok);
    cbn [skip_same]; specialize (Hi i eq_refl); [lia|].
  case_bool_decide; [|by apply yields_Ok].
  eapply yields_bind; [by apply match_after_yields|]. intros o Ho. apply IH.
  intros j Hj. specialize (Ho j Hj). lia.
Qed.

Lemma search_step_ok forward p : prompt_ok p -> keeps_prompt (reverse_search_step forward p).
Proof.
  intros Hp0. unfold reverse_search_step. destruct (ensure_ok p Hp0) as (Hp & Hbuf & [s Hs]).
  set (p' := ensure_reverse_search p) in *. rewrite Hs. destruct forward.
  - eapply (safe_bind _ _ (fun o => forall i, o = Some i -> (i < length (entries (history (buffer p'))))%nat)).
    { destruct (rs_matched_index s) as [j|]; [|done].
      eapply safe_mono; [apply yields_safe, match_after_yields, Hp|].
      intros o Ho i Hi. specialize (Ho i Hi). lia. }
    intros first Hf. eapply safe_bind; [apply yields_safe, skip_after_yields; [apply Hp|]|].
    + intros i Hi. specialize (Hf i Hi). lia.
    + intros next _. by apply set_match_ok.
  - eapply safe_bind; [apply yields_safe, match_before_yields, Hp|]. intros first Hf.
    eapply safe_bind; [apply yields_safe, skip_before_yields; [apply Hp|]|].
    + intros i Hi. specialize (Hf i Hi). lia.
    + intros next _. by apply set_match_ok.
Qed.

Lemma search_backspace_ok p : prompt_ok p -> keeps_prompt (reverse_search_backspace p).
Proof.
  intros Hp0. unfold reverse_search_backspace. destruct (ensure_ok p Hp0) as (Hp & _ & [s Hs]).
  set (p' := ensure_reverse_search p) in *. rewrite Hs. case_bool_decide; [done|].
  eapply safe_bind; [apply refresh_ok; by eapply set_search_ok|]. done.
Qed.

Lemma reverse_input_ok input p :
  key_input input -> prompt_ok p -> keeps_prompt (apply_reverse_search_input input p).
Proof.
  intros Hk Hp. unfold apply_reverse_search_input, keeps_prompt.
  eapply safe_bind; [by apply yields_safe, ctrl_shift_r_yields|]. intros [] _.
  { eapply safe_bind; [by apply search_step_ok|]. by intros []. }
  eapply safe_bind; [by apply yields_safe, ctrl_r_yields|]. intros [] _.
  { eapply safe_bind; [by apply search_step_ok|]. by intros []. }
  pose proof (no_search_ok p Hp). pose proof (search_cancel_ok p Hp).
  repeat (case_match; [by try done|]).
  destruct (one_of input [[127]; [8]]).
  { eapply safe_bind; [by apply search_backspace_ok|]. by intros []. }
  repeat (case_match; [by try done|]).
  destruct (from_utf8 input) as [t|]; [|done]. case_bool_decide; [done|].
  destruct (ensure_ok p Hp) as (Hp' & _ & [s Hs]). cbn zeta. rewrite Hs.
  eapply safe_bind; [apply refresh_ok; by eapply set_search_ok|]. done.
Qed.

Lemma in_buffer_ok {A B} (f : A -> B) p r :
  prompt_ok p -> safe r (fun x => buffer_ok x.1) -> keeps_prompt (in_buffer f p r).
Proof.
  intros Hp Hr. eapply safe_bind; [exact Hr|]. intros [b o] Hb. by apply set_buffer_ok.
Qed.
Lemma mode_input_ok mode input p :
  prompt_ok p -> keeps_prompt (apply_mode_input mode input p).
Proof.
  intros Hp. pose proof (po_buffer p Hp) as Hb. unfold apply_mode_input. destruct mode; [done|].
  repeat case_match; try done.
  - by apply in_buffer_ok, apply_edit_safe.
  - by apply set_buffer_ok, set_line_ok.
  - by apply in_buffer_ok, move_visual_up_ok.
  - by apply in_buffer_ok, move_visual_down_ok.
Qed.

(** ** Runs *)

(** The calls a prompt owner makes. *)
Inductive prompt_command :=
| ReverseSearchInput (input : bytes)
| ModeInput (mode : ReadlinePromptMode) (input : bytes)
| TerminalInput (input : bytes)
| ApplyEdit (e : ReadlineEdit)
| SetLine (s : text)
| SetLineAndCursor (s : text) (at_ : Z)
| SetLineAndCursorPreserving (s : text) (at_ : Z)
| ReplaceRange (m n : Z) (s : text)
| SetHistory (l : list text)
| SetStructuredHistory (l : list ReadlineHistoryEntry)
| SetPromptBodyColumns (columns : Z)
| ClearReverseSearch.

Definition on_buffer (p : ReadlinePromptState) (r : ro ReadlineBuffer) : ro ReadlinePromptState :=
  b ← r; Ok (set_buffer b p).
Definition run_command (c : prompt_command) (p : ReadlinePromptState) : ro ReadlinePromptState :=
  match c with
  | ReverseSearchInput input => fst <$> apply_reverse_search_input input p
  | ModeInput mode input => fst <$> apply_mode_input mode input p
  | TerminalInput input => fst <$> apply_terminal_input input p
  | ApplyEdit e => on_buffer p (fst <$> apply_edit e (buffer p))
  | SetLine s => Ok (set_buffer (set_line s (buffer p)) p)
  | SetLineAndCursor s n => on_buffer p (set_line_and_cursor s n (buffer p))
  | SetLineAndCursorPreserving s n =>
      on_buffer p (set_line_and_cursor_preserving_paste_blocks s n (buffer p))
  | ReplaceRange m n s => on_buffer p (fst <$> replace_range m n s (buffer p))
  | SetHistory l => on_buffer p (set_history l (buffer p))
  | SetStructuredHistory l => on_buffer p (set_structured_history l (buffer p))
  | SetPromptBodyColumns columns => Ok (set_prompt_body_columns columns p)
  | ClearReverseSearch => Ok (clear_reverse_search p)
  end.
Definition run_commands : list prompt_command -> ReadlinePromptState -> ro ReadlinePromptState :=
  fold_outcome run_command.

(** Byte offsets are unsigned, and the key inputs of the search and of the
    terminal are not the two bytes ESC [. *)
Definition admissible (c : prompt_command) : Prop :=
  match c with
  | ReverseSearchInput input | TerminalInput input => key_input input
  | SetLineAndCursor _ n | SetLineAndCursorPreserving _ n => 0 <= n
  | _ => True
  end.

Definition prompt_with_limit (limit : Z) : ReadlinePromptState :=
  {| buffer := with_history_limit limit; reverse_search := None; prompt_body_columns := None |}.

Lemma prompt_with_limit_ok limit : 0 <= limit -> prompt_ok (prompt_with_limit limit).
Proof. intros H. split; [by apply with_history_limit_ok|done]. Qed.

Lemma safe_fmap {A B} (f : A -> B) (r : ro A) Q : safe r (fun a => Q (f a)) -> safe (f <$> r) Q.
Proof. by destruct r as [|[]|]. Qed.
Lemma on_buffer_ok p r : prompt_ok p -> safe r buffer_ok -> safe (on_buffer p r) prompt_ok.
Proof. intros Hp Hr. eapply safe_bind; [exact Hr|]. intros b Hb. by apply set_buffer_ok. Qed.

Lemma run_command_safe c p :
  admissible c -> prompt_ok p -> safe (run_command c p) prompt_ok.
Proof.
  intros Hc Hp. pose proof (po_buffer p Hp) as Hb. destruct c; cbn [run_command admissible] in *.
  - by apply safe_fmap, reverse_input_ok.
  - by apply safe_fmap, mode_input_ok.
  - by apply safe_fmap, in_buffer_ok, terminal_input_safe.
  - by apply on_buffer_ok, safe_fmap, apply_edit_safe.
  - by apply set_buffer_ok, set_line_ok.
  - by apply on_buffer_ok, yields_safe, set_line_and_cursor_ok.
  - by apply on_buffer_ok, yields_safe, set_line_preserving_ok.
  - by apply on_buffer_ok, safe_fmap, yields_safe, replace_range_ok.
  - rewrite set_history_structured. by apply on_buffer_ok, yields_safe, set_structured_history_ok.
  - by apply on_buffer_ok, yields_safe, set_structured_history_ok.
  - destruct Hp. by split.
  - by apply no_search_ok.
Qed.
Lemma run_commands_safe cmds p :
  Forall admissible cmds -> prompt_ok p -> safe (run_commands cmds p) prompt_ok.
Proof.
  intros Hc. revert p. induction Hc as [|c cmds Hc _ IH]; intros p Hp; [done|].
  unfold run_commands. cbn [fold_outcome]. pose proof (run_command_safe c p Hc Hp) as Hr.
  by destruct (run_command c p) as [q|[]|]; [apply IH|..].
Qed.

End PromptSafe.
