(* ===== verification/ReadlineDecode.v ===== *)
(** * Decoding terminal bytes

    The decoder always returns, emits only complete key sequences, and frames
    bracketed pastes the same way however the bytes are split into reads: what
    it holds back is the longest end of the payload that may begin the closing
    delimiter. *)

From S2P Require Import Prelude LayoutTypes Utf8Text ReadlineText Readline ReadlineKeys ReadlinePrompt.
#[local] Open Scope Z_scope.

(** ** Searching *)

Lemma starts_with_spec l p : starts_with_bytes l p = true <-> exists t, l = p ++ t.
Proof.
  unfold starts_with_bytes. rewrite bool_decide_eq_true. split.
  - intros H. exists (drop (length p) l). rewrite <- H at 1. by rewrite take_drop.
  - intros [t ->]. by rewrite take_app_length.
Qed.

Lemma find_bytes_Some h n i :
  find_bytes h n = Some i ->
  (exists t, drop i h = n ++ t) /\ (forall j, (j < i)%nat -> ~ exists t, drop j h = n ++ t).
Proof.
  revert i. induction h as [|x h IH]; intros i; cbn [find_bytes];
    destruct (starts_with_bytes _ n) eqn:E.
  1, 3: intros [= <-]; apply starts_with_spec in E; split; [done|lia].
  - done.
  - destruct (find_bytes h n) as [k|]; [|done]. intros [= <-].
    destruct (IH k eq_refl) as [H1 H2]. split; [done|]. intros [|j] Hj.
    + rewrite <- starts_with_spec. simpl. congruence.
    + apply H2. lia.
Qed.
Lemma find_bytes_None h n :
  n <> [] -> find_bytes h n = None <-> (forall i, ~ exists t, drop i h = n ++ t).
Proof.
  intros Hn. induction h as [|x h IH]; cbn [find_bytes]; destruct (starts_with_bytes _ n) eqn:E.
  1, 3: apply starts_with_spec in E; split; [done|]; intros H; by destruct (H O).
  - split; [|done]. intros _ i [t Ht]. rewrite drop_nil in Ht. by destruct n.
  - rewrite fmap_None, IH. split.
    + intros H [|i]; [|apply H]. rewrite <- starts_with_spec. simpl. congruence.
    + intros H i. apply (H (S i)).
Qed.
Lemma find_bytes_unique h n i :
  (exists t, drop i h = n ++ t) -> (forall j, (j < i)%nat -> ~ exists t, drop j h = n ++ t) ->
  n <> [] -> find_bytes h n = Some i.
Proof.
  intros Hi Hmin Hn. destruct (find_bytes h n) as [k|] eqn:E.
  - apply find_bytes_Some in E as [Hk Hkmin]. f_equal.
    destruct (decide (k < i)%nat); [by destruct (Hmin k)|].
    destruct (decide (i < k)%nat); [by destruct (Hkmin i)|lia].
  - by apply find_bytes_None with (i := i) in E.
Qed.

(** The last [k] bytes. *)
Definition suffix_of (k : nat) (s : bytes) : bytes := drop (length s - k) s.

Lemma length_suffix k s : (k <= length s)%nat -> length (suffix_of k s) = k.
Proof. intros H. unfold suffix_of. rewrite length_drop. lia. Qed.
Lemma suffix_of_0 s : suffix_of 0 s = [].
Proof. unfold suffix_of. rewrite Nat.sub_0_r. apply drop_all. Qed.
Lemma suffix_of_app_r k s c : (k <= length c)%nat -> suffix_of k (s ++ c) = suffix_of k c.
Proof.
  intros H. unfold suffix_of. rewrite length_app, drop_app_ge by lia. f_equal. lia.
Qed.
Lemma suffix_of_app_l k s c : (length c <= k)%nat -> suffix_of k (s ++ c) = suffix_of (k - length c) s ++ c.
Proof.
  intros H. unfold suffix_of. rewrite length_app, drop_app_le by lia. do 2 f_equal. lia.
Qed.
Lemma suffix_suffix k m s : (k <= m)%nat -> suffix_of k (suffix_of m s) = suffix_of k s.
Proof.
  intros H. unfold suffix_of. rewrite drop_drop, length_drop. f_equal. lia.
Qed.

(** What [longest_suffix_that_prefixes] finds. *)
Record longest_overlap (s n : bytes) (k : nat) : Prop := {
  lo_le : (k <= length s)%nat;
  lo_lt : (k < length n)%nat;
  lo_prefix : exists t, n = suffix_of k s ++ t;
  lo_max : forall j, (k < j <= length s)%nat -> (j < length n)%nat -> ~ exists t, n = suffix_of j s ++ t;
}.

Lemma longest_suffix_from_spec m s n :
  (m <= length s)%nat ->
  (longest_suffix_from m s n <= m)%nat
  /\ (exists t, n = suffix_of (longest_suffix_from m s n) s ++ t)
  /\ forall j, (longest_suffix_from m s n < j <= m)%nat -> ~ exists t, n = suffix_of j s ++ t.
Proof.
  induction m as [|m IH]; intros Hm.
  - cbn [longest_suffix_from]. rewrite suffix_of_0. split; [done|]. split; [by exists n|lia].
  - destruct IH as (H1 & H2 & H3); [lia|]. cbn [longest_suffix_from].
    change (drop (length s - S m) s) with (suffix_of (S m) s).
    destruct (starts_with_bytes n (suffix_of (S m) s)) eqn:E.
    + apply starts_with_spec in E. split; [done|]. split; [done|lia].
    + split; [lia|]. split; [done|]. intros j Hj. destruct (decide (j = S m)) as [->|].
      * rewrite <- starts_with_spec. congruence.
      * apply H3. lia.
Qed.
Lemma longest_suffix_spec s n :
  n <> [] -> longest_overlap s n (longest_suffix_that_prefixes s n).
Proof.
  intros Hn. unfold longest_suffix_that_prefixes.
  destruct (longest_suffix_from_spec (Nat.min (length s) (length n - 1)) s n) as (H1 & H2 & H3); [lia|].
  assert (length n <> O) by (by destruct n).
  split; [lia|lia|done|]. intros j Hj Hjn. apply H3. lia.
Qed.
Lemma longest_overlap_unique s n k k' : longest_overlap s n k -> longest_overlap s n k' -> k = k'.
Proof.
  intros [] []. destruct (decide (k < k')%nat).
  { exfalso. by apply (lo_max0 k'). }
  destruct (decide (k' < k)%nat); [|lia]. exfalso. by apply (lo_max1 k).
Qed.

(** Nothing before the retained end of [s] matters for what follows. *)
Section Overlap.
Variables (n s c : bytes) (k : nat).
Hypothesis Hn : n <> [].
Hypothesis Hk : longest_overlap s n k.
Hypothesis Hs : find_bytes s n = None.
Let p := suffix_of k s.

Lemma overlap_split : s ++ c = take (length s - k) s ++ p ++ c.
Proof. unfold p, suffix_of. rewrite (assoc_L (++)). by rewrite take_drop. Qed.

Lemma overlap_no_earlier i : (i < length s - k)%nat -> ~ exists t, drop i (s ++ c) = n ++ t.
Proof.
  intros Hi [t Ht]. rewrite drop_app_le in Ht by lia.
  destruct (decide (length n <= length s - i)%nat) as [Hle|Hgt].
  - apply find_bytes_None with (i := i) in Hs; [|done]. apply Hs.
    exists (drop (length n) (drop i s)). rewrite <- (take_drop (length n) (drop i s)) at 1. f_equal.
    apply (f_equal (take (length n))) in Ht. rewrite take_app_length in Ht.
    rewrite take_app_le in Ht; [done|]. rewrite length_drop. lia.
  - apply (lo_max _ _ _ Hk (length s - i)); [lia|lia|].
    unfold suffix_of. replace (length s - (length s - i))%nat with i by lia.
    exists (drop (length s - i) n).
    apply (f_equal (take (length s - i))) in Ht.
    rewrite take_app_le in Ht by (rewrite length_drop; lia).
    rewrite (take_ge (drop i s)) in Ht by (rewrite length_drop; lia).
    rewrite take_app_le in Ht by lia. rewrite Ht at 1. by rewrite take_drop.
Qed.

Lemma overlap_find :
  find_bytes (s ++ c) n = (fun i => (length s - k + i)%nat) <$> find_bytes (p ++ c) n.
Proof.
  assert (forall i, drop (length s - k + i) (s ++ c) = drop i (p ++ c)) as Hd.
  { intros i. rewrite overlap_split, drop_app_ge; rewrite length_take; [f_equal|]; lia. }
  destruct (find_bytes (p ++ c) n) as [i|] eqn:E; simpl.
  - apply find_bytes_Some in E as [Hi Hmin]. apply find_bytes_unique; [by rewrite Hd| |done].
    intros j Hj. destruct (decide (j < length s - k)%nat) as [Hlt|Hge]; [by apply overlap_no_earlier|].
    replace j with (length s - k + (j - (length s - k)))%nat by lia. rewrite Hd. apply Hmin. lia.
  - apply find_bytes_None; [done|]. intros j.
    destruct (decide (j < length s - k)%nat) as [Hlt|Hge]; [by apply overlap_no_earlier|].
    replace j with (length s - k + (j - (length s - k)))%nat by lia. rewrite Hd.
    by apply find_bytes_None.
Qed.

Lemma overlap_longest : longest_suffix_that_prefixes (p ++ c) n = longest_suffix_that_prefixes (s ++ c) n.
Proof.
  eapply longest_overlap_unique; [|by apply longest_suffix_spec].
  destruct (longest_suffix_spec (p ++ c) n Hn) as [H1 H2 H3 H4].
  set (m := longest_suffix_that_prefixes (p ++ c) n) in *.
  assert (length p = k) as Hp by (apply length_suffix, Hk).
  assert (forall j, (j <= length (p ++ c))%nat -> suffix_of j (s ++ c) = suffix_of j (p ++ c)) as Hsuf.
  { intros j Hj. rewrite overlap_split. by apply suffix_of_app_r. }
  pose proof (lo_le _ _ _ Hk). rewrite length_app in H1.
  split; [rewrite length_app; lia|done| |].
  - rewrite Hsuf by (rewrite length_app; lia). done.
  - intros j Hj Hjn [t Ht]. rewrite length_app in Hj.
    destruct (decide (j <= k + length c)%nat) as [Hle|Hgt].
    + rewrite Hsuf in Ht by (rewrite length_app; lia).
      apply (H4 j); [rewrite length_app; lia|done|by exists t].
    + rewrite suffix_of_app_l, <- (assoc_L (++)) in Ht by lia.
      apply (lo_max _ _ _ Hk (j - length c)); [lia|lia|by exists (c ++ t)].
Qed.

End Overlap.

Lemma overlap_nil n : n <> [] -> longest_overlap [] n 0.
Proof.
  intros Hn. split; [done| | |].
  - by destruct n; simpl; [|lia].
  - by exists n.
  - simpl. lia.
Qed.

(** ** Key sequences *)

Lemma csi_final_ge i l k : csi_final i l = Some k -> (i <= k < i + length l)%nat.
Proof.
  revert i. induction l as [|b l IH]; intros i; cbn [csi_final]; [done|].
  destruct (in_range _ _ b); [intros [= <-]; simpl; lia|]. intros H%IH. simpl. lia.
Qed.

(** A complete sequence consumes input and is not a bare introducer. *)
Lemma next_sequence_complete input len item :
  next_readline_sequence input = Ok (SeqComplete len item) ->
  (1 <= len)%nat /\ (item <> [] -> key_input item).
Proof.
  unfold next_readline_sequence. destruct input as [|b l]; [done|].
  destruct (starts_with_bytes (b :: l) [13; 10]); [intros [= <- <-]; split; [lia|by intros _]|].
  destruct (b =? 27) eqn:Eb.
  { bool_to_prop. subst b. unfold decode_escape_sequence. destruct l as [|c l]; [done|].
    destruct (negb (c =? 91)) eqn:Ec.
    - apply negb_true_iff in Ec. bool_to_prop. destruct (c =? 79).
      + destruct (_ <? _)%nat eqn:El; [done|]. intros [= <- <-]. split; [lia|].
        apply Nat.ltb_ge in El. destruct l as [|d l]; simpl in El; [lia|]. by intros _ [= -> ?].
      + intros [= <- <-]. split; [lia|]. intros _ [= ->]. done.
    - destruct (csi_final 2 l) as [k|] eqn:Ek; [|done]. intros [= <- <-]. split; [lia|].
      apply csi_final_ge in Ek. intros _ E. destruct k as [|[|k]]; [lia..|].
      by destruct l as [|d l]; [simpl in Ek; lia|]. }
  destruct (is_ascii_control b) eqn:Ec; [intros [= <- <-]; split; [lia|by intros _]|].
  unfold decode_text_sequence. cbn [position]. rewrite Eb, Ec. cbn [orb].
  set (len0 := default _ _). bool_to_prop.
  assert (1 <= len0)%nat as Hlen.
  { unfold len0. destruct (position _ l); simpl; lia. }
  assert (forall m, key_input (take (S m) (b :: l))) as Hkey by (intros m [= E _]; congruence).
  destruct (utf8_scan (take len0 (b :: l))) as [[s m] stop]. destruct stop, m as [|m]; try done;
    intros [= <- <-]; (split; [lia|]); intros _; try apply Hkey.
  all: destruct len0; [lia|apply Hkey].
Qed.
Lemma next_sequence_no_panic input : next_readline_sequence input <> Panic.
Proof.
  unfold next_readline_sequence, decode_text_sequence, not_utf8. by repeat case_match.
Qed.

(** ** The loop ends *)

(** Rounds left: a rejected payload is scanned twice. *)
Definition rounds (rest : bytes) (d : ReadlineTerminalInputDecoder) : nat :=
  2 * length rest + (if decide (framing d = Discarding) then 0 else 1).

(** Items a decoder may emit. *)
Definition good_item (i : ReadlineDecodedInput) : Prop :=
  match i with Sequence s => key_input s | _ => True end.
Definition decodes_to (r : outcome decode_failure (list ReadlineDecodedInput)) : Prop :=
  match r with
  | Ok items => Forall good_item items
  | Err (DecodeError _) => True
  | Err DecodeEndless | Panic => False
  end.

Lemma decode_round_spec now rest d :
  rest <> [] ->
  match (decode_round now rest d).2 with
  | Ok (item, next) =>
      (forall i, item = Some i -> good_item i)
      /\ (forall rest', next = Some rest' -> (rounds rest' (decode_round now rest d).1 < rounds rest d)%nat)
  | Err (DecodeError _) => True
  | Err DecodeEndless | Panic => False
  end.
Proof.
  intros Hne. assert (length rest <> O) by (by destruct rest). unfold rounds.
  assert (forall k (l : bytes), (1 <= k)%nat -> l <> [] -> (length (drop k l) < length l)%nat) as Hdrop.
  { intros k l Hk Hl. rewrite length_drop. assert (length l <> O) by (by destruct l). lia. }
  unfold decode_round. destruct (framing d) eqn:Ef.
  - destruct (starts_with_bytes rest BRACKETED_PASTE_START); simpl.
    { split; [done|]. intros ? [= <-]. specialize (Hdrop 6%nat rest ltac:(lia) Hne). simpl in Hdrop.
      repeat case_decide; lia. }
    destruct (starts_with_bytes BRACKETED_PASTE_START rest); [done|].
    destruct (next_readline_sequence rest) as [[len item|]|e|] eqn:E; simpl; [|done|done|].
    + apply next_sequence_complete in E as [Hlen Hkey]. split.
      * case_bool_decide; [done|]. intros ? [= <-]. simpl. auto.
      * intros ? [= <-]. specialize (Hdrop len rest Hlen Hne). repeat case_decide; lia.
    + by apply next_sequence_no_panic in E.
  - destruct (find_bytes rest BRACKETED_PASTE_END) as [e|].
    + destruct (bracketed_paste_fits d e); simpl.
      * destruct (from_utf8 _) as [t|]; [|done]. split; [case_bool_decide; [done|by intros ? [= <-]]|].
        intros ? [= <-]. specialize (Hdrop (e + 6)%nat rest ltac:(lia) Hne). repeat case_decide; lia.
      * split; [by intros ? [= <-]|]. intros ? [= <-]. repeat case_decide; simplify_eq; lia.
    + destruct (bracketed_paste_fits _ _); simpl; [done|].
      split; [by intros ? [= <-]|]. intros ? [= <-]. repeat case_decide; simplify_eq; lia.
  - destruct (find_bytes rest BRACKETED_PASTE_END) as [e|]; simpl; [|done]. split; [done|].
    intros ? [= <-]. specialize (Hdrop (e + 6)%nat rest ltac:(lia) Hne).
    repeat case_decide; simplify_eq; lia.
Qed.

Lemma decode_loop_ends fuel now rest d :
  (rounds rest d <= fuel)%nat -> decodes_to (decode_loop fuel now rest d).2.
Proof.
  revert rest d. induction fuel as [|fuel IH]; intros rest d Hf;
    (destruct rest as [|x rest]; [by constructor|]); cbn [decode_loop]; [unfold rounds in Hf; simpl in Hf; lia|].
  pose proof (decode_round_spec now (x :: rest) d) as Hr.
  destruct (decode_round now (x :: rest) d) as [d' [[item next]|e|]]; simpl in Hr |- *.
  - destruct Hr as [Hitem Hnext]; [done|].
    assert (Forall good_item match item with Some i => [i] | None => [] end) as Hi.
    { destruct item; constructor; auto. }
    destruct next as [rest'|]; [|done]. specialize (Hnext rest' eq_refl).
    specialize (IH rest' d' ltac:(lia)). destruct (decode_loop fuel now rest' d') as [d'' [items|e|]]; simpl in *.
    + by apply Forall_app.
    + done.
    + done.
  - by destruct e; apply Hr.
  - by apply Hr.
Qed.

Lemma decode_at_total input now d : decodes_to (decode_at input now d).2.
Proof.
  unfold decode_at.
  assert (forall d' decoded, Forall good_item decoded ->
    decodes_to (if bool_decide (input = []) && bool_decide (pending d' = []) then (d', Ok decoded)
                else let '(d2, r) := decode_loop (2 * length (pending d' ++ input) + 2) now
                                       (pending d' ++ input) (set_pending [] d') in
                     (d2, app decoded <$> r)).2) as G.
  { intros d' decoded Hd. destruct (_ && _); [done|].
    pose proof (decode_loop_ends (2 * length (pending d' ++ input) + 2) now (pending d' ++ input)
                  (set_pending [] d')) as Hl.
    destruct (decode_loop _ _ _ _) as [d2 r]. simpl in *.
    assert (decodes_to r) as Hr by (apply Hl; unfold rounds; case_decide; lia).
    destruct r as [items|[]|]; simpl in *; try done. by apply Forall_app. }
  destruct (bool_decide (framing d = Collecting) && _).
  - refine (G (set_rejected true (set_paste Discarding [] None d)) [_] _). by constructor.
  - refine (G d [] _). constructor.
Qed.

(** * Bracketed pastes over any split of the input

    A decoder inside a paste stands for the payload bytes it has seen; reading
    more bytes appends to them, whatever the split.  Without the closing
    delimiter nothing but a rejection is emitted; with it, the payload is
    emitted as one text. *)

Notation PASTE_END := BRACKETED_PASTE_END (only parsing).

Lemma paste_end_nonempty : BRACKETED_PASTE_END <> [].
Proof. done. Qed.
Lemma paste_end_length : length BRACKETED_PASTE_END = 6%nat.
Proof. reflexivity. Qed.
#[local] Hint Resolve paste_end_nonempty : mez.

(** ** Decoders inside a paste *)

(** The bytes held back are the longest overlap of [s] with the delimiter. *)
Record holds_back (d : ReadlineTerminalInputDecoder) (s : bytes) : Prop := {
  hb_overlap : longest_overlap s BRACKETED_PASTE_END (length (pending d));
  hb_pending : pending d = suffix_of (length (pending d)) s;
  hb_open : find_bytes s BRACKETED_PASTE_END = None;
}.
Definition collecting (d : ReadlineTerminalInputDecoder) (s : bytes) : Prop :=
  framing d = Collecting /\ bracketed_paste d ++ pending d = s /\ holds_back d s.
Definition discarding (d : ReadlineTerminalInputDecoder) (s : bytes) : Prop :=
  framing d = Discarding /\ bracketed_paste d = [] /\ holds_back d s.
Definition in_paste (d : ReadlineTerminalInputDecoder) (s : bytes) : Prop :=
  collecting d s \/ discarding d s.

(** The limits of a decoder do not change. *)
Definition same_limits (d d' : ReadlineTerminalInputDecoder) : Prop :=
  paste_max_bytes d' = paste_max_bytes d /\ stale_after d' = stale_after d.

Lemma fits_spec d n :
  paste_max_bytes d <= u64_MAX ->
  bracketed_paste_fits d n = true <->
  Z.of_nat (length (bracketed_paste d) + n) <= paste_max_bytes d.
Proof.
  intros Hm. unfold bracketed_paste_fits, checked_add.
  destruct (_ <=? u64_MAX) eqn:E; bool_to_prop; rewrite ?Z.leb_le; [lia|].
  split; [done|lia].
Qed.

Lemma suffix_app_exact (b p : bytes) : suffix_of (length p) (b ++ p) = p.
Proof.
  unfold suffix_of. rewrite length_app. replace (_ - _)%nat with (length b) by lia. apply drop_app_length.
Qed.

(** What the bytes [p] held back of [s] say about the bytes read after it. *)
Section Reading.
Variables (s p c : bytes).
Hypothesis Hp : longest_overlap s BRACKETED_PASTE_END (length p).
Hypothesis Hsuf : p = suffix_of (length p) s.
Hypothesis Hopen : find_bytes s BRACKETED_PASTE_END = None.

Lemma reading_find :
  find_bytes (s ++ c) BRACKETED_PASTE_END
  = (fun i => (length s - length p + i)%nat) <$> find_bytes (p ++ c) BRACKETED_PASTE_END.
Proof. pose proof (overlap_find _ s c _ paste_end_nonempty Hp Hopen) as H. by rewrite <- Hsuf in H. Qed.
Lemma reading_tail :
  longest_suffix_that_prefixes (p ++ c) BRACKETED_PASTE_END
  = longest_suffix_that_prefixes (s ++ c) BRACKETED_PASTE_END.
Proof. pose proof (overlap_longest _ s c _ paste_end_nonempty Hp) as H. by rewrite <- Hsuf in H. Qed.
Lemma reading_drop i : drop (length s - length p + i) (s ++ c) = drop i (p ++ c).
Proof.
  rewrite (overlap_split s c (length p)), <- Hsuf. pose proof (lo_le _ _ _ Hp).
  rewrite drop_app_ge; rewrite length_take; [f_equal|]; lia.
Qed.

(** The decoder that keeps the tail of the bytes read holds back what it should. *)
Lemma reading_holds_back d :
  find_bytes (s ++ c) BRACKETED_PASTE_END = None ->
  pending d = drop (length (p ++ c) - longest_suffix_that_prefixes (p ++ c) BRACKETED_PASTE_END) (p ++ c) ->
  holds_back d (s ++ c).
Proof.
  intros Hf Hd. pose proof (longest_suffix_spec (p ++ c) _ paste_end_nonempty) as [Hle _ _ _].
  pose proof (longest_suffix_spec (s ++ c) _ paste_end_nonempty) as Hsc.
  change (drop (_ - ?k) (p ++ c)) with (suffix_of k (p ++ c)) in Hd.
  assert (length (pending d) = longest_suffix_that_prefixes (s ++ c) BRACKETED_PASTE_END) as Hlen.
  { rewrite Hd, length_suffix by done. apply reading_tail. }
  split; [by rewrite Hlen| |done].
  rewrite Hlen, Hd, reading_tail. rewrite reading_tail in Hle.
  revert Hle. generalize (longest_suffix_that_prefixes (s ++ c) BRACKETED_PASTE_END) as k.
  intros k Hk. rewrite (overlap_split s c (length p)), <- Hsuf. symmetry. by apply suffix_of_app_r.
Qed.

End Reading.

(** ** Reading without the delimiter *)

Lemma discard_loop fuel now s p c d :
  (1 <= fuel)%nat -> framing d = Discarding -> bracketed_paste d = [] -> pending d = [] ->
  longest_overlap s BRACKETED_PASTE_END (length p) -> p = suffix_of (length p) s ->
  find_bytes s BRACKETED_PASTE_END = None -> find_bytes (s ++ c) BRACKETED_PASTE_END = None ->
  exists d', decode_loop fuel now (p ++ c) d = (d', Ok []) /\ discarding d' (s ++ c) /\ same_limits d d'.
Proof.
  intros Hfuel Hf Hb Hpe Hp Hsuf Ho Hsc. destruct fuel as [|fuel]; [lia|].
  destruct (p ++ c) as [|x l] eqn:Epc.
  - exists d. apply app_eq_nil in Epc as [-> ->]. rewrite app_nil_r in *. split; [done|].
    split; [|done]. split; [done|]. split; [done|]. split; by rewrite ?Hpe.
  - rewrite <- Epc. cbn [decode_loop]. rewrite Epc, <- Epc. unfold decode_round. rewrite Hf.
    rewrite (reading_find s p c) in Hsc by done. apply fmap_None in Hsc. rewrite Hsc, Hpe.
    eexists. split; [done|]. split; [|done]. split; [done|]. split; [done|].
    apply (reading_holds_back s p c); [done..| |done]. rewrite (reading_find s p c) by done. by rewrite Hsc.
Qed.

Lemma collect_loop fuel now s p c d :
  (2 <= fuel)%nat -> framing d = Collecting -> bracketed_paste d ++ p = s -> pending d = [] ->
  longest_overlap s BRACKETED_PASTE_END (length p) ->
  find_bytes s BRACKETED_PASTE_END = None -> find_bytes (s ++ c) BRACKETED_PASTE_END = None ->
  let kept := (length (p ++ c) - longest_suffix_that_prefixes (s ++ c) BRACKETED_PASTE_END)%nat in
  exists d', same_limits d d' /\
    if bracketed_paste_fits d kept || bool_decide (p ++ c = []) then
      decode_loop fuel now (p ++ c) d = (d', Ok []) /\ collecting d' (s ++ c)
      /\ started_at d' = started_at d
    else
      decode_loop fuel now (p ++ c) d
      = (d', Ok [BracketedPasteRejected (TooLarge (paste_max_bytes d))])
      /\ discarding d' (s ++ c).
Proof.
  intros Hfuel Hf Hb Hpe Hp Ho Hsc. destruct fuel as [|fuel]; [lia|]. cbn zeta.
  assert (p = suffix_of (length p) s) as Hsuf by (rewrite <- Hb; symmetry; apply suffix_app_exact).
  destruct (bool_decide (p ++ c = [])) eqn:Ed; bool_to_prop.
  { apply app_eq_nil in Ed as [-> ->]. rewrite app_nil_r in *. exists d. split; [done|].
    rewrite orb_true_r. split; [done|]. split; [|done]. split; [done|].
    rewrite app_nil_r. split; [by rewrite Hpe, app_nil_r|]. split; by rewrite ?Hpe. }
  rewrite orb_false_r. destruct (p ++ c) as [|x l] eqn:Epc; [done|]. rewrite <- Epc in *.
  cbn [decode_loop]. rewrite Epc, <- Epc. unfold decode_round. rewrite Hf.
  pose proof Hsc as Hpc. rewrite (reading_find s p c) in Hpc by done. apply fmap_None in Hpc. rewrite Hpc.
  rewrite (reading_tail s p c) by done.
  destruct (bracketed_paste_fits d _) eqn:Efit; cbn [negb].
  - eexists. split; [|split; [done|]]; [done|]. rewrite Hpe. split; [|done]. split; [done|].
    set (k := longest_suffix_that_prefixes (s ++ c) BRACKETED_PASTE_END). split.
    + cbn. rewrite <- (assoc_L (++)), take_drop, (assoc_L (++)). by rewrite Hb.
    + apply (reading_holds_back s p c); [done..|]. cbn. by rewrite (reading_tail s p c).
  - cbn [begin_bracketed_paste_discard].
    destruct (discard_loop fuel now s p c (set_rejected true (set_paste Discarding [] None d)))
      as (d' & Hl & Hd & Hlim); [lia|done..|].
    exists d'. split; [done|]. rewrite Hl. by split.
Qed.

(** One read inside a paste that does not complete the delimiter. *)
Definition is_rejection (i : ReadlineDecodedInput) : Prop :=
  match i with BracketedPasteRejected _ => True | _ => False end.

Lemma set_pending_id d p : pending d = p -> set_pending p d = d.
Proof. intros <-. by destruct d. Qed.

Lemma discarding_read c now s d :
  discarding d s -> find_bytes (s ++ c) BRACKETED_PASTE_END = None ->
  exists d', decode_at c now d = (d', Ok []) /\ discarding d' (s ++ c) /\ same_limits d d'.
Proof.
  intros (Hf & Hb & [Hov Hpe Ho]) Hsc. unfold decode_at. rewrite Hf. cbn [bool_decide decide andb].
  rewrite bool_decide_eq_false_2 by done. cbn [andb].
  destruct (bool_decide (c = []) && bool_decide (pending d = [])) eqn:E; bool_to_prop.
  - subst c. rewrite app_nil_r. exists d. split; [done|]. by split.
  - destruct (discard_loop (2 * length (pending d ++ c) + 2) now s (pending d) c (set_pending [] d))
      as (d' & -> & Hd & Hlim); [lia|done..|].
    exists d'. by split.
Qed.

Lemma in_paste_read c now s d :
  in_paste d s -> find_bytes (s ++ c) BRACKETED_PASTE_END = None ->
  exists d' items, decode_at c now d = (d', Ok items) /\ in_paste d' (s ++ c)
    /\ Forall is_rejection items /\ same_limits d d'.
Proof.
  intros [Hc|Hd] Hsc; cycle 1.
  { destruct (discarding_read c now s d Hd Hsc) as (d' & -> & ? & ?).
    exists d', []. split; [done|]. split; [by right|]. by split; [constructor|]. }
  destruct Hc as (Hf & Hb & [Hov Hpe Ho]). unfold decode_at.
  destruct (bool_decide (framing d = Collecting) && _) eqn:Eexp.
  - cbn [begin_bracketed_paste_discard].
    set (d0 := set_rejected true (set_paste Discarding [] None d)).
    assert (discarding d0 s) as Hd0 by (by split).
    destruct (discarding_read c now s d0 Hd0 Hsc) as (d' & Hr & Hd' & Hl).
    unfold decode_at in Hr. rewrite bool_decide_eq_false_2 in Hr by done. cbn [andb] in Hr.
    destruct (bool_decide (c = []) && bool_decide (pending d0 = [])).
    + injection Hr as <-. eexists _, [_]. split; [done|]. split; [by right|]. by split; [constructor|].
    + destruct (decode_loop _ _ _ _) as [d2 r]. destruct r as [items| |]; simplify_eq/=.
      eexists _, [_]. split; [done|]. split; [by right|]. by split; [constructor|].
  - destruct (bool_decide (c = []) && bool_decide (pending d = [])) eqn:E; bool_to_prop.
    { subst c. rewrite app_nil_r. exists d, []. split; [done|]. split; [by left|]. by split; [constructor|]. }
    destruct (collect_loop (2 * length (pending d ++ c) + 2) now s (pending d) c (set_pending [] d))
      as (d' & Hlim & Hres); [lia|done..|].
    destruct (_ || _).
    + destruct Hres as (-> & Hcol & _). exists d', []. split; [done|]. split; [by left|]. by split; [constructor|].
    + destruct Hres as [-> Hdis]. eexists d', _. split; [done|]. split; [by right|].
      split; [|done]. by repeat constructor.
Qed.

(** ** Reads in sequence *)

(** Successive reads, each with its time; an error ends the sequence. *)
Fixpoint feed (reads : list (bytes * Z)) (d : ReadlineTerminalInputDecoder)
    : ReadlineTerminalInputDecoder * outcome decode_failure (list ReadlineDecodedInput) :=
  match reads with
  | [] => (d, Ok [])
  | (input, now) :: reads =>
      let '(d, r) := decode_at input now d in
      match r with
      | Ok items => let '(d, r) := feed reads d in (d, app items <$> r)
      | Err e => (d, Err e)
      | Panic => (d, Panic)
      end
  end.
Definition stream (reads : list (bytes * Z)) : bytes := concat (fst <$> reads).

Lemma find_prefix_None s t n : n <> [] -> find_bytes (s ++ t) n = None -> find_bytes s n = None.
Proof.
  intros Hn. rewrite !find_bytes_None by done. intros H i [u Hu]. apply (H i).
  exists (u ++ t). rewrite (assoc_L (++)), <- Hu. destruct (decide (i <= length s)%nat).
  - by rewrite drop_app_le.
  - rewrite drop_ge in Hu by lia. by destruct n.
Qed.

Lemma in_paste_feed reads s d :
  in_paste d s -> find_bytes (s ++ stream reads) BRACKETED_PASTE_END = None ->
  exists d' items, feed reads d = (d', Ok items) /\ in_paste d' (s ++ stream reads)
    /\ Forall is_rejection items.
Proof.
  revert s d. induction reads as [|[c now] reads IH]; intros s d Hd Hf; cbn [feed].
  - exists d, []. unfold stream. simpl. rewrite app_nil_r. split; [done|]. by split; [|constructor].
  - unfold stream in *. cbn [fmap list_fmap concat fst] in *. rewrite (assoc_L (++)) in Hf.
    destruct (in_paste_read c now s d Hd) as (d1 & items & -> & Hd1 & Hr & _);
      [by eapply find_prefix_None|].
    destruct (IH _ _ Hd1 Hf) as (d2 & items' & -> & Hd2 & Hr').
    exists d2, (items ++ items'). split; [done|]. rewrite (assoc_L (++)). split; [done|]. by apply Forall_app.
Qed.

(** ** A complete paste *)

Section Complete.
Variables (t : text) (max_bytes stale : Z).
Let payload := encode t.
Hypothesis Ht : t <> [].
Hypothesis Hscalar : Forall scalar t.
Hypothesis Hmax : Z.of_nat (length payload) <= max_bytes <= u64_MAX.
(** The payload does not hold the delimiter, nor does it combine with it. *)
Hypothesis Hdelim : find_bytes (payload ++ BRACKETED_PASTE_END) BRACKETED_PASTE_END = Some (length payload).

Definition idle (d : ReadlineTerminalInputDecoder) : Prop :=
  framing d = Inactive /\ pending d = [] /\ bracketed_paste d = [].
Definition limited (d : ReadlineTerminalInputDecoder) : Prop :=
  paste_max_bytes d = max_bytes /\ stale_after d = stale.

(** A prefix of the framed payload with the delimiter is all of it; one
    without it keeps back at least what it has of the delimiter. *)
Lemma framed_prefix_some u rest i :
  u ++ rest = payload ++ BRACKETED_PASTE_END -> find_bytes u BRACKETED_PASTE_END = Some i ->
  i = length payload /\ rest = [] /\ u = payload ++ BRACKETED_PASTE_END.
Proof.
  intros Hu Hf. apply find_bytes_Some in Hf as [[v Hv] Hmin].
  apply find_bytes_Some in Hdelim as [_ Hno].
  assert (i <= length u)%nat as Hi.
  { destruct (decide (i <= length u)%nat); [done|]. rewrite drop_ge in Hv by lia. done. }
  assert (length payload <= i)%nat as Hge.
  { destruct (decide (i < length payload)%nat) as [Hlt|]; [|lia]. exfalso. apply (Hno i Hlt).
    exists (v ++ rest). by rewrite <- Hu, drop_app_le, Hv, <- (assoc_L (++)) by done. }
  apply (f_equal length) in Hv. rewrite length_drop, length_app, paste_end_length in Hv.
  pose proof (f_equal length Hu) as Hlen. rewrite !length_app, paste_end_length in Hlen.
  assert (rest = []) as -> by (apply length_zero_iff_nil; lia). rewrite app_nil_r in Hu.
  split; [lia|done].
Qed.
Lemma framed_prefix_none u rest :
  u ++ rest = payload ++ BRACKETED_PASTE_END -> find_bytes u BRACKETED_PASTE_END = None ->
  (length u - longest_suffix_that_prefixes u BRACKETED_PASTE_END <= length payload)%nat.
Proof.
  intros Hu Hf. destruct (decide (length u <= length payload)%nat) as [|Hgt]; [lia|].
  assert (u = payload ++ drop (length payload) u) as Hcut.
  { apply (f_equal (take (length payload))) in Hu. rewrite take_app_length, take_app_le in Hu by lia.
    rewrite <- Hu at 1. by rewrite take_drop. }
  set (e := drop (length payload) u) in *.
  assert (length u = length payload + length e)%nat as Hlu by (rewrite Hcut at 1; apply length_app).
  assert (BRACKETED_PASTE_END = e ++ rest) as He.
  { rewrite Hcut, <- (assoc_L (++)) in Hu. by apply app_inv_head in Hu. }
  assert (length e < 6)%nat as Hlt.
  { rewrite <- paste_end_length, He, length_app. destruct rest as [|x rest]; [|simpl; lia].
    exfalso. rewrite app_nil_r in *. rewrite <- He in Hcut. rewrite Hcut in Hf. congruence. }
  pose proof (longest_suffix_spec u _ paste_end_nonempty) as [_ _ _ Hm].
  set (k := longest_suffix_that_prefixes u BRACKETED_PASTE_END) in *.
  destruct (decide (k < length e)%nat) as [Hk|]; [|lia].
  exfalso. apply (Hm (length e)); [lia|by rewrite paste_end_length|].
  exists rest. rewrite Hcut at 1. by rewrite suffix_app_exact.
Qed.

(** Reading on inside the paste. *)
Lemma collect_phase fuel now s p c rest d :
  (2 <= fuel)%nat -> framing d = Collecting -> bracketed_paste d ++ p = s -> pending d = [] ->
  longest_overlap s BRACKETED_PASTE_END (length p) -> find_bytes s BRACKETED_PASTE_END = None ->
  limited d -> (s ++ c) ++ rest = payload ++ BRACKETED_PASTE_END ->
  exists d' items, decode_loop fuel now (p ++ c) d = (d', Ok items) /\ limited d'
    /\ (collecting d' (s ++ c) /\ items = [] /\ started_at d' = started_at d
        \/ idle d' /\ items = [BracketedPaste t] /\ rest = []).
Proof.
  intros Hfuel Hf Hb Hpe Hp Ho Hlim Hu.
  assert (p = suffix_of (length p) s) as Hsuf by (rewrite <- Hb; symmetry; apply suffix_app_exact).
  assert (paste_max_bytes d <= u64_MAX) as Hu64 by (destruct Hlim as [-> _]; lia).
  assert (length s = length (bracketed_paste d) + length p)%nat as Hls by (rewrite <- Hb; apply length_app).
  destruct (find_bytes (s ++ c) BRACKETED_PASTE_END) as [i|] eqn:Hsc.
  - destruct (framed_prefix_some _ _ _ Hu Hsc) as (-> & -> & Hall).
    pose proof Hsc as Hpc. rewrite (reading_find s p c) in Hpc by done.
    apply fmap_Some in Hpc as (o & Hpc & Ho').
    destruct fuel as [|[|fuel]]; [lia..|]. remember (S fuel) as fuel1 eqn:Efuel.
    destruct (p ++ c) as [|x l] eqn:Epc; [done|]. rewrite <- Epc in *.
    cbn [decode_loop]. rewrite Epc, <- Epc. unfold decode_round. rewrite Hf, Hpc.
    assert (bracketed_paste_fits d o = true) as ->.
    { apply fits_spec; [done|]. destruct Hlim as [-> _]. lia. }
    cbn [negb]. assert (bracketed_paste d ++ take o (p ++ c) = payload) as ->.
    { transitivity (take (length payload) (s ++ c)); [|by rewrite Hall, take_app_length].
      rewrite <- Hb at 1. rewrite <- (assoc_L (++)), (take_app_ge (bracketed_paste d)) by lia.
      do 2 f_equal. lia. }
    unfold payload. rewrite from_utf8_encode by done. rewrite bool_decide_eq_false_2 by done.
    assert (drop (o + length BRACKETED_PASTE_END) (p ++ c) = []) as ->.
    { rewrite <- (reading_drop s p c) by done. rewrite Hall. apply drop_ge.
      rewrite length_app. lia. }
    subst fuel1. cbn. eexists _, _. split; [done|]. split; [done|]. right. by repeat split.
  - destruct (collect_loop fuel now s p c d) as (d' & [Hm Hst] & Hres); [done..|].
    assert (limited d') as Hlim' by (unfold limited in *; by rewrite Hm, Hst).
    assert (bracketed_paste_fits d (length (p ++ c)
              - longest_suffix_that_prefixes (s ++ c) BRACKETED_PASTE_END) = true) as Hfit.
    { apply fits_spec; [done|]. destruct Hlim as [-> _].
      pose proof (framed_prefix_none _ _ Hu Hsc) as Hn. rewrite length_app in *.
      pose proof (reading_tail s p c Hp Hsuf) as Htail.
      pose proof (lo_le _ _ _ (longest_suffix_spec (p ++ c) _ paste_end_nonempty)) as Hle.
      rewrite Htail, length_app in Hle. lia. }
    rewrite Hfit in Hres. destruct Hres as (-> & Hcol & Hat).
    exists d', []. split; [done|]. split; [done|]. by left.
Qed.

(** Not yet inside the paste: [q] is what has arrived of the opening delimiter. *)
Definition opening (d : ReadlineTerminalInputDecoder) (q : bytes) : Prop :=
  framing d = Inactive /\ pending d = q /\ (length q < 6)%nat.

Lemma opening_read now q c rest d :
  opening d q -> limited d ->
  (q ++ c) ++ rest = BRACKETED_PASTE_START ++ payload ++ BRACKETED_PASTE_END ->
  exists d' items, decode_at c now d = (d', Ok items) /\ limited d'
    /\ (opening d' (q ++ c) /\ items = []
        \/ (exists s, q ++ c = BRACKETED_PASTE_START ++ s /\ collecting d' s /\ items = []
             /\ started_at d' = Some now)
        \/ idle d' /\ items = [BracketedPaste t] /\ rest = []).
Proof.
  intros (Hf & Hq & Hlen) Hlim Hu. unfold decode_at. rewrite bool_decide_eq_false_2 by congruence.
  cbn [andb]. rewrite Hq. destruct (bool_decide (c = []) && bool_decide (q = [])) eqn:E.
  { bool_to_prop. subst c. rewrite app_nil_r. exists d, []. split; [done|]. split; [done|]. left. done. }
  assert (q ++ c <> []) as Hne.
  { apply andb_false_iff in E as [E|E]; bool_to_prop; intros [? ?]%app_eq_nil; done. }
  destruct (decide (length (q ++ c) < 6)%nat) as [Hlt|Hge].
  - assert (starts_with_bytes (q ++ c) BRACKETED_PASTE_START = false) as H1.
    { destruct (starts_with_bytes (q ++ c) _) eqn:E1; [|done]. apply starts_with_spec in E1 as [v Hv].
      rewrite Hv, length_app in Hlt. simpl in Hlt. lia. }
    assert (starts_with_bytes BRACKETED_PASTE_START (q ++ c) = true) as H2.
    { apply starts_with_spec. apply (f_equal (take 6)) in Hu.
      rewrite take_app_ge in Hu by lia. eexists. symmetry. exact Hu. }
    set (n := (2 * length (q ++ c) + 2)%nat). assert (exists m, n = S m) as [m ->] by (exists (n - 1)%nat; lia).
    destruct (q ++ c) as [|x l] eqn:Eqc; [done|]. rewrite <- Eqc in *. cbn [decode_loop]. rewrite Eqc, <- Eqc.
    unfold decode_round. cbn [framing set_pending]. rewrite Hf, H1, H2. cbn.
    eexists _, []. split; [done|]. split; [done|]. left. by split.
  - assert (q ++ c = BRACKETED_PASTE_START ++ drop 6 (q ++ c)) as Hs.
    { apply (f_equal (take 6)) in Hu. rewrite take_app_le in Hu by lia.
      change (take 6 (BRACKETED_PASTE_START ++ _)) with BRACKETED_PASTE_START in Hu.
      rewrite <- Hu. by rewrite take_drop. }
    set (s := drop 6 (q ++ c)) in *.
    assert (s ++ rest = payload ++ BRACKETED_PASTE_END) as Hu'.
    { rewrite Hs, <- (assoc_L (++)) in Hu. by apply app_inv_head in Hu. }
    set (d1 := set_paste Collecting [] (Some now) (set_pending [] d)).
    assert (exists m, (2 * length (q ++ c) + 2 = S m /\ 2 <= m)%nat) as (m & -> & Hm2).
    { exists (2 * length (q ++ c) + 1)%nat. lia. }
    assert (decode_round now (q ++ c) (set_pending [] d) = (d1, Ok (None, Some s))) as Hround.
    { unfold decode_round. cbn [framing set_pending]. rewrite Hf.
      rewrite (proj2 (starts_with_spec _ _)) by (by exists s). done. }
    destruct (q ++ c) as [|x l] eqn:Eqc; [done|]. rewrite <- Eqc in *. cbn [decode_loop]. rewrite Eqc, <- Eqc.
    rewrite Hround. cbn [app].
    destruct (collect_phase m now [] [] s rest d1) as (d' & items & Hloop & Hlim' & Hend);
      try done; [by apply overlap_nil|].
    cbn [app] in Hloop. rewrite Hloop. exists d', items. split; [done|]. split; [done|]. right.
    destruct Hend as [(Hcol & -> & Hat)|Hidle]; [left|by right]. exists s. done.
Qed.

Lemma collecting_read now s c rest d t0 :
  collecting d s -> limited d -> started_at d = Some t0 -> sat_sub now t0 < stale ->
  (s ++ c) ++ rest = payload ++ BRACKETED_PASTE_END ->
  exists d' items, decode_at c now d = (d', Ok items) /\ limited d'
    /\ (collecting d' (s ++ c) /\ items = [] /\ started_at d' = Some t0
        \/ idle d' /\ items = [BracketedPaste t] /\ rest = []).
Proof.
  intros (Hf & Hb & [Hov Hpe Ho]) Hlim Hat Hfresh Hu. unfold decode_at. rewrite Hat.
  rewrite (proj2 (Z.leb_gt _ _)) by (destruct Hlim as [_ ->]; lia). rewrite andb_false_r.
  destruct (bool_decide (c = []) && bool_decide (pending d = [])) eqn:E; bool_to_prop.
  { subst c. exists d, []. rewrite app_nil_r. split; [done|]. split; [done|]. left.
    split; [|done]. split; [done|]. by split. }
  destruct (collect_phase (2 * length (pending d ++ c) + 2) now s (pending d) c rest (set_pending [] d))
    as (d' & items & -> & Hlim' & Hend); [lia|done..|].
  exists d', items. split; [done|]. split; [done|].
  destruct Hend as [(? & ? & Hs)|?]; [left|by right]. by rewrite Hs.
Qed.

(** Empty reads change nothing once the paste is complete. *)
Lemma idle_feed reads d :
  idle d -> stream reads = [] -> exists d', feed reads d = (d', Ok []) /\ idle d'.
Proof.
  revert d. induction reads as [|[c now] reads IH]; intros d Hd Hs; cbn [feed]; [by exists d|].
  unfold stream in *. cbn in Hs. apply app_eq_nil in Hs as [-> Hs].
  destruct Hd as (Hf & Hp & Hb). unfold decode_at. rewrite bool_decide_eq_false_2 by congruence.
  cbn [andb]. rewrite Hp. cbn. destruct (IH d) as (d' & -> & ?); [by repeat split|done|]. by exists d'.
Qed.

(** The reads follow each other within the time a paste may take. *)
Definition prompt_reads (reads : list (bytes * Z)) : Prop :=
  forall t1 t2, t1 ∈ reads.*2 -> t2 ∈ reads.*2 -> sat_sub t2 t1 < stale.

Lemma collecting_feed reads s d t0 :
  collecting d s -> limited d -> started_at d = Some t0 ->
  (forall now, now ∈ reads.*2 -> sat_sub now t0 < stale) ->
  s ++ stream reads = payload ++ BRACKETED_PASTE_END ->
  exists d', feed reads d = (d', Ok [BracketedPaste t]) /\ idle d'.
Proof.
  revert s d. induction reads as [|[c now] reads IH]; intros s d Hd Hlim Hat Hfr Hu; cbn [feed].
  - exfalso. unfold stream in Hu. cbn in Hu. rewrite app_nil_r in Hu.
    destruct Hd as (_ & _ & [_ _ Ho]). rewrite Hu in Ho. congruence.
  - change (stream ((c, now) :: reads)) with (c ++ stream reads) in Hu. rewrite (assoc_L (++)) in Hu.
    destruct (collecting_read now s c (stream reads) d t0) as (d1 & items & -> & Hlim1 & Hend);
      [done..|apply Hfr; left|done|].
    destruct Hend as [(Hcol & -> & Hat1)|(Hidle & -> & Hrest)].
    + destruct (IH (s ++ c) d1) as (d' & -> & ?); [done..| |done|].
      { intros n Hn. apply Hfr. by right. } by exists d'.
    + destruct (idle_feed reads d1 Hidle Hrest) as (d' & -> & ?). by exists d'.
Qed.

Lemma opening_feed reads q d :
  opening d q -> limited d -> prompt_reads reads ->
  q ++ stream reads = BRACKETED_PASTE_START ++ payload ++ BRACKETED_PASTE_END ->
  exists d', feed reads d = (d', Ok [BracketedPaste t]) /\ idle d'.
Proof.
  revert q d. induction reads as [|[c now] reads IH]; intros q d Hd Hlim Hfr Hu; cbn [feed].
  - exfalso. unfold stream in Hu. cbn in Hu. rewrite app_nil_r in Hu. destruct Hd as (_ & _ & Hq).
    rewrite Hu in Hq. simpl in Hq. lia.
  - change (stream ((c, now) :: reads)) with (c ++ stream reads) in Hu. rewrite (assoc_L (++)) in Hu.
    destruct (opening_read now q c (stream reads) d) as (d1 & items & -> & Hlim1 & Hend); [done..|].
    destruct Hend as [[Hop ->]|[(s & Hs & Hcol & -> & Hat)|(Hidle & -> & Hrest)]].
    + destruct (IH (q ++ c) d1) as (d' & -> & ?); [done..| |done|].
      { intros t1 t2 H1 H2. apply Hfr; by right. } by exists d'.
    + destruct (collecting_feed reads s d1 now) as (d' & -> & ?); [done..| | |by exists d'].
      { intros n Hn. apply Hfr; [left|by right]. }
      rewrite Hs, <- (assoc_L (++)) in Hu. by apply app_inv_head in Hu.
    + destruct (idle_feed reads d1 Hidle Hrest) as (d' & -> & ?). by exists d'.
Qed.

End Complete.
