(* ===== verification/ReadlineRecall.v ===== *)
(** * Recalling a submission

    The ranges and the display of a line as functions of its expanded text, and
    loading a history entry back into the
    line. *)

From S2P Require Import Prelude Utf8Text ReadlineText Readline ReadlineSpec ReadlineRows ReadlineInv.
#[local] Open Scope Z_scope.

Section Recall.
Context {UT : UnicodeTables}.

Notation BASE := READLINE_PASTE_BLOCK_MARKER_BASE.
(** ** Ranges and display as functions of the expanded text *)

Section Line.
Variable blocks : list ReadlinePasteBlock.

Fixpoint ranges_from (off : Z) (l : text) : list ReadlinePasteRange :=
  match l with
  | [] => []
  | c :: l =>
      match block_for_marker blocks c with
      | Some k =>
          let e := off + blen (pb_content k) in {| pr_start := off; pr_end := e |} :: ranges_from e l
      | None => ranges_from (off + len_utf8 c) l
      end
  end.
Notation expand l := (render_line_with_blocks l blocks Expanded).
Notation collapse l := (render_line_with_blocks l blocks Collapsed).

Lemma expand_cons c l : expand (c :: l) = render_char blocks Expanded c ++ expand l.
Proof. apply bind_cons. Qed.
Lemma collapse_cons c l : collapse (c :: l) = render_char blocks Collapsed c ++ collapse l.
Proof. apply bind_cons. Qed.

Lemma collapsed_fold acc off l :
  foldl (collapsed_step blocks) (acc, off) l = (acc ++ ranges_from off l, off + blen (expand l)).
Proof.
  revert acc off. induction l as [|c l IH]; intros acc off.
  - cbn [foldl ranges_from]. rewrite app_nil_r. change (expand []) with (@nil Z).
    by rewrite blen_nil, Z.add_0_r.
  - rewrite expand_cons. cbn [foldl ranges_from]. unfold collapsed_step at 2, render_char.
    destruct (block_for_marker blocks c) as [k|]; rewrite IH; rewrite blen_app, ?blen_cons, ?blen_nil; f_equal.
    1: by rewrite <- (assoc_L (++)). all: lia.
Qed.

(** The text is cut at the ranges, with labels in their place. *)
Lemma render_entry_line l pre lit :
  render_entry_from (pre ++ lit ++ expand l) (blen pre) (ranges_from (blen pre + blen lit) l)
  = Ok (lit ++ collapse l).
Proof.
  revert pre lit. induction l as [|c l IH]; intros pre lit.
  - cbn. rewrite !app_nil_r. apply slice_from_app.
  - rewrite expand_cons, collapse_cons. unfold render_char. cbn [ranges_from].
    destruct (block_for_marker blocks c) as [k|].
    + cbn [render_entry_from pr_start pr_end]. rewrite slice_app. cbn [mbind outcome_bind].
      specialize (IH (pre ++ lit ++ pb_content k) []).
      rewrite blen_nil, !blen_app, Z.add_0_r in IH. rewrite <- !(assoc_L (++)) in IH. cbn [app] in IH.
      rewrite Z.add_assoc in IH. rewrite IH. cbn [mbind outcome_bind]. do 4 f_equal.
      unfold sat_sub. pose proof (blen_nonneg (pb_content k)). lia.
    + specialize (IH pre (lit ++ [c])). rewrite blen_app, blen_cons, blen_nil in IH.
      rewrite <- !(assoc_L (++)) in IH. cbn [app] in *.
      replace (blen pre + (blen lit + (len_utf8 c + 0))) with (blen pre + blen lit + len_utf8 c) in IH by lia.
      exact IH.
Qed.

Lemma ranges_valid l pre lit :
  Forall (fun k => pb_content k <> []) blocks ->
  valid_paste_ranges_from (blen pre) (pre ++ lit ++ expand l) (ranges_from (blen pre + blen lit) l) = true.
Proof.
  intros Hk. revert pre lit. induction l as [|c l IH]; intros pre lit; [done|].
  rewrite expand_cons. unfold render_char. cbn [ranges_from].
  destruct (block_for_marker blocks c) as [k|] eqn:Eb.
  - assert (pb_content k <> []) as Hne.
    { rewrite Forall_forall in Hk. apply Hk. unfold block_for_marker in Eb.
      apply head_Some_elem_of, list_elem_of_filter in Eb. naive_solver. }
    pose proof (blen_nonneg lit). pose proof (blen_nonneg (pb_content k)).
    rewrite <- blen_zero in Hne. apply valid_ranges_cons. cbn [pr_start pr_end].
    split; [lia|]. split; [lia|]. split; [apply boundary_app_r, boundary_pre|].
    specialize (IH (pre ++ lit ++ pb_content k) []).
    rewrite blen_nil, !blen_app, Z.add_0_r, Z.add_assoc in IH. rewrite <- !(assoc_L (++)) in IH. cbn [app] in IH.
    split; [|done]. exists (pre ++ lit ++ pb_content k), (expand l).
    rewrite <- !(assoc_L (++)), !blen_app. split; [done|lia].
  - specialize (IH pre (lit ++ [c])). rewrite blen_app, blen_cons, blen_nil in IH.
    rewrite <- !(assoc_L (++)) in IH. cbn [app] in *.
    replace (blen pre + (blen lit + (len_utf8 c + 0))) with (blen pre + blen lit + len_utf8 c) in IH by lia.
    exact IH.
Qed.

End Line.

Lemma collapsed_ranges_eq b : collapsed_paste_ranges b = ranges_from (paste_blocks b) 0 (line b).
Proof. unfold collapsed_paste_ranges. by rewrite collapsed_fold. Qed.
(** The display of a buffer is the display of its history entry. *)
Lemma display_of_entry b :
  render_entry_from (expanded_line b) 0 (collapsed_paste_ranges b) = Ok (rendered_line b).
Proof.
  rewrite collapsed_ranges_eq. pose proof (render_entry_line (paste_blocks b) (line b) [] []) as H.
  by rewrite blen_nil, Z.add_0_r in H.
Qed.
Lemma submission_valid b :
  buffer_ok b -> valid_paste_ranges (expanded_line b) (collapsed_paste_ranges b) = true.
Proof.
  intros Hb. rewrite collapsed_ranges_eq.
  pose proof (ranges_valid (paste_blocks b) (line b) [] [] (bk_contents _ _ (bo_blocks _ Hb))) as H.
  by rewrite blen_nil, Z.add_0_r in H.
Qed.

(** ** Loading an entry *)

(** Text that holds no character of the marker planes. *)
Definition plain (s : text) : Prop := Forall (fun c => c < BASE) s.

(** A line that stands for the text [a] with the ranges [done], its markers
    allocated below the next id. *)
Record loaded (b : ReadlineBuffer) (a : text) (done_ : list ReadlinePasteRange) : Prop := {
  ld_cursor : cursor b = blen (line b);
  ld_id : 0 <= next_paste_block_id b;
  ld_line : Forall (fun c => c < BASE + next_paste_block_id b) (line b);
  ld_markers : Forall (fun k => BASE <= pb_marker k < BASE + next_paste_block_id b) (paste_blocks b);
  ld_text : expanded_line b = a;
  ld_ranges : collapsed_paste_ranges b = done_;
}.

Lemma block_for_marker_None blocks c :
  Forall (fun k => pb_marker k <> c) blocks -> block_for_marker blocks c = None.
Proof.
  unfold block_for_marker. induction 1 as [|k l Hk _ IH]; [done|]. rewrite filter_cons.
  by rewrite decide_False.
Qed.
Lemma block_for_marker_snoc blocks k c :
  pb_marker k <> c -> block_for_marker (blocks ++ [k]) c = block_for_marker blocks c.
Proof.
  intros Hk. unfold block_for_marker. rewrite filter_app, filter_cons, decide_False by done.
  by rewrite filter_nil, app_nil_r.
Qed.
Lemma block_for_marker_new blocks k :
  Forall (fun k' => pb_marker k' <> pb_marker k) blocks -> block_for_marker (blocks ++ [k]) (pb_marker k) = Some k.
Proof.
  intros Hf. unfold block_for_marker. rewrite filter_app.
  assert (filter (fun k' => pb_marker k' = pb_marker k) blocks = []) as ->.
  { induction Hf as [|k' l Hk' _ IH]; [done|]. by rewrite filter_cons, decide_False. }
  by rewrite filter_cons, decide_True.
Qed.

(** Rendering and ranges depend only on the blocks of the line's characters. *)
Lemma render_ext blocks blocks' l mode :
  (forall c, c ∈ l -> block_for_marker blocks' c = block_for_marker blocks c) ->
  render_line_with_blocks l blocks' mode = render_line_with_blocks l blocks mode.
Proof.
  unfold render_line_with_blocks. induction l as [|c l IH]; intros H; [done|].
  rewrite !bind_cons. f_equal; [unfold render_char; by rewrite H by left|].
  apply IH. intros d Hd. apply H. by right.
Qed.
Lemma ranges_ext blocks blocks' off l :
  (forall c, c ∈ l -> block_for_marker blocks' c = block_for_marker blocks c) ->
  ranges_from blocks' off l = ranges_from blocks off l.
Proof.
  revert off. induction l as [|c l IH]; intros off H; [done|]. cbn [ranges_from].
  rewrite H by left. destruct (block_for_marker blocks c); [f_equal|]; apply IH; intros d Hd; apply H; by right.
Qed.
Lemma ranges_app blocks off l l' :
  ranges_from blocks off (l ++ l')
  = ranges_from blocks off l
    ++ ranges_from blocks (off + blen (render_line_with_blocks l blocks Expanded)) l'.
Proof.
  revert off. induction l as [|c l IH]; intros off.
  - cbn [app ranges_from]. change (render_line_with_blocks [] blocks Expanded) with (@nil Z).
    by rewrite blen_nil, Z.add_0_r.
  - cbn [app ranges_from]. rewrite expand_cons. unfold render_char.
    destruct (block_for_marker blocks c); rewrite IH, blen_app, ?blen_cons, ?blen_nil, ?Z.add_0_r, Z.add_assoc;
      done.
Qed.
Lemma render_app blocks l l' mode :
  render_line_with_blocks (l ++ l') blocks mode
  = render_line_with_blocks l blocks mode ++ render_line_with_blocks l' blocks mode.
Proof. apply bind_app. Qed.

Lemma render_plain blocks s :
  Forall (fun k => BASE <= pb_marker k) blocks -> plain s ->
  render_line_with_blocks s blocks Expanded = s /\ forall off, ranges_from blocks off s = [].
Proof.
  intros Hk. induction 1 as [|c s Hc _ IH]; [done|].
  assert (block_for_marker blocks c = None) as Hn.
  { apply block_for_marker_None. eapply Forall_impl; [exact Hk|]. simpl. lia. }
  destruct IH as [IH1 IH2]. split.
  - rewrite expand_cons, IH1. unfold render_char. by rewrite Hn.
  - intros off. cbn [ranges_from]. by rewrite Hn.
Qed.

Lemma push_loaded b a rs s : loaded b a rs -> plain s -> loaded (push_line s b) (a ++ s) rs.
Proof.
  intros [Hc Hid Hl Hm Ht Hr] Hs. unfold push_line.
  assert (Forall (fun k => BASE <= pb_marker k) (paste_blocks b)) as Hm'.
  { eapply Forall_impl; [exact Hm|]. simpl. lia. }
  destruct (render_plain (paste_blocks b) s Hm' Hs) as [Hs1 Hs2].
  split; simpl; try done.
  - apply Forall_app. split; [done|]. eapply Forall_impl; [exact Hs|]. simpl. lia.
  - unfold expanded_line in *. simpl. by rewrite render_app, Hs1, Ht.
  - rewrite collapsed_ranges_eq in *. simpl. by rewrite ranges_app, Hs2, app_nil_r.
Qed.

(** A loaded line takes the first candidate. *)
Lemma block_loaded b a rs content :
  loaded b a rs -> next_paste_block_id b < MARKERS ->
  let m := BASE + next_paste_block_id b in
  let b' := set_edit (line b ++ [m]) (blen (line b ++ [m]))
              (paste_blocks b ++ [{| pb_marker := m; pb_content := content |}])
              (next_paste_block_id b + 1) b in
  insert_paste_block content b = Ok b'
  /\ loaded b' (a ++ content) (rs ++ [{| pr_start := blen a; pr_end := blen a + blen content |}]).
Proof.
  intros [Hc Hid Hl Hm Ht Hr] Hlt m b'.
  assert (m ∉ line b) as Hml.
  { intros Hin. rewrite Forall_forall in Hl. specialize (Hl _ Hin). simpl in Hl. unfold m in *. lia. }
  assert (Forall (fun k => pb_marker k <> m) (paste_blocks b)) as Hmk.
  { eapply Forall_impl; [exact Hm|]. unfold m. simpl. lia. }
  split.
  - unfold insert_paste_block, next_paste_block_marker.
    assert (exists f, marker_fuel = S f) as [f ->] by (exists (Z.to_nat 0x20000); unfold marker_fuel; lia).
    cbn [marker_loop]. rewrite marker_candidate_low by lia. fold m.
    rewrite (proj2 (marker_free_spec b m)).
    2: { split; [done|]. intros (k & -> & Hk)%list_elem_of_fmap. rewrite Forall_forall in Hmk. by apply (Hmk k). }
    cbn [mbind outcome_bind]. rewrite Hc.
    pose proof (insert_str_app (E:=endless) (line b) [] [m]) as Hi. rewrite !app_nil_r in Hi. rewrite Hi.
    cbn [mbind outcome_bind]. unfold b'. do 2 f_equal.
    + by rewrite blen_app, blen_cons, blen_nil, Z.add_0_r.
    + unfold sat_add, u32_MAX, MARKERS in *. lia.
  - set (k := {| pb_marker := m; pb_content := content |}).
    assert (forall c, c ∈ line b -> block_for_marker (paste_blocks b ++ [k]) c = block_for_marker (paste_blocks b) c) as Hsame.
    { intros c Hin. apply block_for_marker_snoc. simpl. intros <-. done. }
    assert (block_for_marker (paste_blocks b ++ [k]) m = Some k) as Hnew by (by apply (block_for_marker_new _ k)).
    split; simpl.
    + done.
    + lia.
    + apply Forall_app. rewrite Forall_singleton. split; [|unfold m; lia].
      eapply Forall_impl; [exact Hl|]. simpl. lia.
    + apply Forall_app. rewrite Forall_singleton. split; [|simpl; unfold m; lia].
      eapply Forall_impl; [exact Hm|]. simpl. lia.
    + unfold expanded_line in *. simpl. rewrite render_app, (render_ext (paste_blocks b)) by done.
      rewrite Ht, expand_cons. unfold render_char. fold k. rewrite Hnew. simpl. by rewrite app_nil_r.
    + rewrite collapsed_ranges_eq in *. simpl.
      rewrite ranges_app, (ranges_ext (paste_blocks b)), (render_ext (paste_blocks b)) by done.
      change (render_line_with_blocks (line b) (paste_blocks b) Expanded) with (expanded_line b).
      rewrite Hr, Ht. cbn [ranges_from]. fold k. by rewrite Hnew.
Qed.

Lemma load_ranges_exact s l a c b rs :
  s = a ++ c -> plain s -> loaded b a rs -> valid_paste_ranges_from (blen a) s l = true ->
  next_paste_block_id b + Z.of_nat (length l) <= MARKERS ->
  exists ln blocks id, load_ranges s (blen a) l b = Ok (set_edit ln (blen ln) blocks id b)
    /\ loaded (set_edit ln (blen ln) blocks id b) s (rs ++ l).
Proof.
  revert a c b rs. induction l as [|r l IH]; intros a c b rs Hs Hp Hb Hv Hid; cbn [load_ranges].
  - rewrite Hs, slice_from_app. cbn [mbind outcome_bind]. rewrite app_nil_r.
    eexists _, _, _. split; [done|]. apply (push_loaded b a rs c Hb).
    rewrite Hs in Hp. unfold plain in Hp. by apply Forall_app in Hp as [_ ?].
  - apply valid_ranges_cons in Hv as (Hlt & Hle & Hbs & Hbe & Hv).
    destruct (boundaries_cut s (pr_start r) (pr_end r)) as (u & content & v & Hcut & Hu & Hend); [done|done|lia|].
    destruct (boundaries_cut s (blen a) (pr_start r)) as (a' & t & w & Hcut' & Ha' & Hst); [|done|lia|].
    { rewrite Hs. apply boundary_pre. }
    assert (a' = a) as -> by (rewrite Hs in Hcut'; by destruct (split_text_inj a c a' (t ++ w) Hcut' Ha')).
    assert (u = a ++ t) as ->.
    { rewrite Hcut, (assoc_L (++) a) in Hcut'.
      destruct (split_text_inj u (content ++ v) (a ++ t) w Hcut') as [-> _]; [|done].
      rewrite blen_app. lia. }
    assert (slice (E:=endless) s (blen a) (pr_start r) = Ok t) as ->.
    { rewrite Hcut', Hst. apply slice_app. }
    assert (slice (E:=endless) s (pr_start r) (pr_end r) = Ok content) as ->.
    { rewrite Hcut at 1. rewrite Hend, Hu. apply slice_app. }
    cbn [mbind outcome_bind].
    assert (plain t) as Hpt.
    { unfold plain in *. rewrite Hcut, !Forall_app in Hp. naive_solver. }
    destruct (block_loaded (push_line t b) (a ++ t) rs content) as [-> Hb'];
      [by apply push_loaded|cbn [length] in Hid;
       change (next_paste_block_id (push_line t b)) with (next_paste_block_id b); lia|].
    cbn [mbind outcome_bind]. set (b1 := set_edit _ _ _ _ (push_line t b)) in *.
    assert (pr_end r = blen ((a ++ t) ++ content)) as He.
    { by rewrite Hend, (blen_app (a ++ t)). }
    rewrite He in Hv |- *.
    assert ({| pr_start := blen (a ++ t); pr_end := blen (a ++ t) + blen content |} = r) as Hr.
    { destruct r as [rs0 re0]. simpl in *. subst rs0 re0. by rewrite !blen_app. }
    rewrite Hr in Hb'.
    destruct (IH ((a ++ t) ++ content) v b1 (rs ++ [r])) as (ln & blocks & id & Hload & Hld); [|done|done|done| |].
    { rewrite Hcut. by rewrite <- !(assoc_L (++)). }
    { subst b1. cbn [next_paste_block_id set_edit push_line set_line_cursor length] in *. lia. }
    exists ln, blocks, id. rewrite Hload. split; [done|].
    rewrite <- (assoc_L (++)) in Hld. destruct Hld. by split.
Qed.

(** Recalling an entry shows exactly the text and ranges it was stored with. *)
Lemma load_history_index_exact i e b :
  structured_history_entry b i = Some e -> entry_is_valid e = true -> plain (he_text e) ->
  0 <= next_paste_block_id b ->
  next_paste_block_id b + Z.of_nat (length (he_ranges e)) <= MARKERS ->
  exists b', load_history_index i b = Ok b' /\ loaded b' (he_text e) (he_ranges e)
    /\ history_cursor b' = Some i.
Proof.
  intros He Hv Hp H0 Hid. unfold load_history_index, replace_current_line_with_history_entry. rewrite He.
  set (b0 := set_column None (set_edit [] 0 [] (next_paste_block_id b) b)).
  assert (loaded b0 [] []) as Hb0 by (by split).
  destruct (load_ranges_exact (he_text e) (he_ranges e) [] (he_text e) b0 []) as (ln & blocks & id & Hl & Hld);
    [done|done|done|exact Hv|done|].
  rewrite blen_nil in Hl. rewrite Hl. cbn [mbind outcome_bind]. eexists. split; [done|]. split; [|done].
  destruct Hld. by split.
Qed.

End Recall.

(** * The display and source projection

    The projection built for selection shows what the renderers show, and
    copying from it gives back the entered text. *)

Section Projection.
Context {UT : UnicodeTables}.

Definition empty_projection : ReadlineSourceProjection :=
  {| pj_display := []; pj_source := []; pj_spans := [] |}.
Definition project_line (insertion : option (Z * text)) (blocks : list ReadlinePasteBlock)
    (p : ReadlineSourceProjection) (l : list (Z * rchar)) : ReadlineSourceProjection :=
  foldl (fun p '(index, c) => project_char blocks c (project_at insertion index p)) p l.

(** ** What is displayed and what is the source *)

(** The text an insertion shows at an offset. *)
Definition shown_at (insertion : option (Z * text)) (index : Z) : text :=
  match insertion with Some (at_, s) => if at_ =? index then s else [] | None => [] end.

Lemma project_at_display ins i p : pj_display (project_at ins i p) = pj_display p ++ shown_at ins i.
Proof.
  unfold project_at, shown_at. destruct ins as [[at_ s]|]; [|by rewrite app_nil_r].
  destruct (at_ =? i); [done|by rewrite app_nil_r].
Qed.
Lemma project_at_source ins i p : pj_source (project_at ins i p) = pj_source p.
Proof. unfold project_at. by repeat case_match. Qed.
Lemma project_char_display blocks c p :
  pj_display (project_char blocks c p) = pj_display p ++ render_char blocks Collapsed c.
Proof. unfold project_char, render_char. by destruct (block_for_marker blocks c). Qed.
Lemma project_char_source blocks c p :
  pj_source (project_char blocks c p) = pj_source p ++ render_char blocks Expanded c.
Proof. unfold project_char, render_char. by destruct (block_for_marker blocks c). Qed.

(** The display of a line with an insertion, the first character at [k]. *)
Fixpoint display_from (ins : option (Z * text)) (blocks : list ReadlinePasteBlock) (k : Z) (l : text) : text :=
  match l with
  | [] => []
  | c :: l =>
      shown_at ins k ++ render_char blocks Collapsed c ++ display_from ins blocks (k + len_utf8 c) l
  end.

Lemma project_line_texts ins blocks k l p :
  pj_display (project_line ins blocks p (char_indices_from k l)) = pj_display p ++ display_from ins blocks k l
  /\ pj_source (project_line ins blocks p (char_indices_from k l))
     = pj_source p ++ render_line_with_blocks l blocks Expanded.
Proof.
  revert k p. induction l as [|c l IH]; intros k p.
  - cbn. by rewrite !app_nil_r.
  - cbn [char_indices_from project_line foldl display_from].
    set (p' := project_char blocks c (project_at ins k p)).
    destruct (IH (k + len_utf8 c) p') as [Hd Hs]. unfold project_line in Hd, Hs. rewrite Hd, Hs.
    unfold p'. rewrite project_char_display, project_char_source, project_at_display, project_at_source.
    rewrite expand_cons. by rewrite <- !(assoc_L (++)).
Qed.

Lemma display_none blocks k l : display_from None blocks k l = render_line_with_blocks l blocks Collapsed.
Proof. revert k. induction l as [|c l IH]; intros k; [done|]. cbn. by rewrite IH. Qed.
Lemma display_some at_ s blocks k l :
  display_from (Some (at_, s)) blocks k l = render_with_insert_from (char_indices_from k l) blocks at_ s.
Proof.
  revert k. induction l as [|c l IH]; intros k; [done|].
  cbn [display_from char_indices_from render_with_insert_from shown_at]. by rewrite IH, Z.eqb_sym.
Qed.

(** The projection shows what the renderers show. *)
Lemma projection_texts ins b p :
  source_projection ins b = Some p ->
  pj_source p = expanded_line b
  /\ match ins with
     | None => pj_display p = rendered_line b
     | Some (at_, s) => rendered_line_with_insert b at_ s = Some (pj_display p)
     end.
Proof.
  unfold source_projection. destruct (match ins with Some _ => _ | None => _ end) eqn:E; [done|].
  intros [= <-]. rewrite project_at_source, project_at_display.
  destruct (project_line_texts ins (paste_blocks b) 0 (line b) empty_projection) as [Hd Hs].
  unfold project_line, char_indices, empty_projection in *. rewrite Hd, Hs. split; [done|].
  destruct ins as [[at_ s]|]; cbn [pj_display app shown_at].
  - apply negb_false_iff in E. unfold rendered_line_with_insert, render_line_with_insert.
    rewrite E. cbn [negb orb]. apply is_char_boundary_spec, boundary_range in E.
    rewrite (proj2 (Z.ltb_ge _ _)) by lia. cbn [orb]. by rewrite display_some.
  - rewrite display_none, app_nil_r. done.
Qed.

(** ** Copying the whole display *)

Lemma get_range_app a t c : get_range (a ++ t ++ c) (blen a) (blen a + blen t) = Some t.
Proof. unfold get_range. by rewrite slice_app. Qed.

Lemma copy_spans_app p sel src l l' :
  copy_spans p sel src (l ++ l')
  = (t ← copy_spans p sel src l; t' ← copy_spans p sel src l'; Some (t ++ t')).
Proof.
  induction l as [|span l IH]; cbn [app copy_spans].
  - cbn. by destruct (copy_spans p sel src l').
  - destruct (_ <=? _); [exact IH|]. destruct (sp_source span) as [raw|]; [|exact IH].
    destruct (if (src && sp_collapsed span) : bool then _ else _) as [t|]; [|done].
    cbn [mbind option_bind]. rewrite IH.
    destruct (copy_spans p sel src l) as [u|]; [|done]. cbn [mbind option_bind].
    destruct (copy_spans p sel src l') as [v|]; [|done]. cbn [mbind option_bind].
    by rewrite (assoc_L (++)).
Qed.

Lemma label_nonempty n : paste_block_label n <> [].
Proof. unfold paste_block_label. by repeat case_match. Qed.

(** Whatever is added after it, a projection gives back its source. *)
Definition copies (p : ReadlineSourceProjection) : Prop :=
  forall d s spans n,
    blen (pj_display p) <= n -> blen (pj_source p ++ s) <= u64_MAX ->
    copy_spans {| pj_display := pj_display p ++ d; pj_source := pj_source p ++ s; pj_spans := spans |}
      (0, n) true (pj_spans p) = Some (pj_source p).

Lemma copies_insertion s p : copies p -> copies (project_insertion s p).
Proof.
  intros Hp d t spans n Hn Ht. cbn [project_insertion pj_display pj_source pj_spans] in *.
  rewrite blen_app in Hn. pose proof (blen_nonneg s).
  rewrite <- (assoc_L (++)), copy_spans_app, Hp by (done || lia). cbn.
  destruct (_ <=? _); cbn; by rewrite app_nil_r.
Qed.
Lemma copies_char blocks c p : copies p -> copies (project_char blocks c p).
Proof.
  intros Hp.
  assert (forall d s collapsed, d <> [] -> (collapsed = true \/ d = s) ->
    copies {| pj_display := pj_display p ++ d; pj_source := pj_source p ++ s;
              pj_spans := pj_spans p ++ [{| sp_display := (blen (pj_display p), blen (pj_display p ++ d));
                 sp_source := Some (blen (pj_source p), blen (pj_source p ++ s));
                 sp_collapsed := collapsed |}] |}) as G; cycle 1.
  { unfold project_char. destruct (block_for_marker blocks c); apply G; auto using label_nonempty. }
  intros d s coll Hd Hcoll d' s' spans n Hn Hs. cbn [pj_display pj_source pj_spans] in *.
  rewrite <- !(assoc_L (++)) in *. rewrite copy_spans_app.
  rewrite Hp by (rewrite ?blen_app in *; pose proof (blen_nonneg d); (done || lia)).
  cbn [mbind option_bind copy_spans fst snd sp_display sp_source sp_collapsed pj_source].
  rewrite <- blen_zero in Hd. pose proof (blen_nonneg d). pose proof (blen_nonneg (pj_display p)).
  pose proof (blen_nonneg s). pose proof (blen_nonneg s'). pose proof (blen_nonneg (pj_source p)).
  rewrite !blen_app in *. rewrite Z.max_r, Z.min_r, (proj2 (Z.leb_gt _ _)) by lia.
  destruct coll; cbn [andb].
  - rewrite get_range_app. cbn. by rewrite app_nil_r.
  - destruct Hcoll as [|<-]; [done|].
    rewrite (proj2 (checked_sub_Some _ _ 0)) by lia. cbn [mbind option_bind].
    rewrite (proj2 (checked_add_Some _ _ 0 (blen (pj_source p)))) by lia. cbn [mbind option_bind].
    rewrite (proj2 (checked_add_Some _ _ _ (blen (pj_source p) + blen d))) by lia. cbn [mbind option_bind].
    rewrite get_range_app. cbn. by rewrite app_nil_r.
Qed.
Lemma copies_at ins i p : copies p -> copies (project_at ins i p).
Proof. unfold project_at. intros Hp. repeat case_match; auto using copies_insertion. Qed.
Lemma copies_line ins blocks l p : copies p -> copies (project_line ins blocks p l).
Proof.
  revert p. induction l as [|[i c] l IH]; intros p Hp; [done|]. cbn. by apply IH, copies_char, copies_at.
Qed.

Lemma projection_copies ins b p :
  source_projection ins b = Some p -> blen (expanded_line b) <= u64_MAX ->
  copy_range p (0, blen (pj_display p)) true = Some (expanded_line b).
Proof.
  intros Hp Hmax. destruct (projection_texts ins b p Hp) as [Hs _].
  assert (copies p) as Hc.
  { unfold source_projection in Hp. destruct (match ins with Some _ => _ | None => _ end); [done|].
    injection Hp as <-. apply copies_at, (copies_line ins (paste_blocks b) _ empty_projection). done. }
  unfold copy_range. cbn [fst snd]. rewrite (proj2 (Z.ltb_ge _ _)) by apply blen_nonneg.
  rewrite (proj2 (is_char_boundary_spec _ _)) by apply boundary_0.
  rewrite (proj2 (is_char_boundary_spec _ _)) by apply boundary_end. cbn [negb orb].
  specialize (Hc [] [] (pj_spans p) (blen (pj_display p)) ltac:(lia)). rewrite !app_nil_r, Hs in Hc.
  rewrite <- Hc by done. rewrite <- Hs. by destruct p.
Qed.

End Projection.
