(* ===== verification/ReadlineTheorems.v ===== *)
(** * Properties of readline

    What the line buffer, the prompt and the terminal decoder promise, with
    concrete runs of each. *)

From S2P Require Import Prelude LayoutTypes Utf8Text ReadlineText Readline ReadlineKeys ReadlinePrompt ReadlineSpec ReadlineRows ReadlineInv ReadlineDecode ReadlineRecall.
#[local] Open Scope Z_scope.

(** Tables for ASCII text. *)
#[local] Instance ascii_tables : UnicodeTables := {
  is_alphanumeric c := in_range 48 57 c || in_range 65 90 c || in_range 97 122 c;
  to_lowercase s := to_ascii_lowercase <$> s;
  char_width c := if is_ascii_control c then None else Some 1%nat;
  str_width s := length s;
}.

Lemma safe_no_panic {A} (r : ro A) Q : safe r Q -> r <> Panic.
Proof. by destruct r. Qed.

(** ** The prompt *)

(** C7. Whatever commands a new prompt receives, as long as the key inputs of the
    search and of the terminal are none the two bytes ESC [ (which the decoder
    never yields, and on which the key functions panic), the commands do not
    panic: they return a prompt whose cursor is on a character boundary, whose
    paste blocks are distinct, non-empty and present in the line, and whose
    history is aligned, free of consecutive duplicates and within its count and
    byte bounds; or one of them searches a paste marker without end, which takes
    that the id to start from, the characters of the line and its paste blocks
    are together at least the 131072 markers. *)
Theorem readline_never_panics `{UT : UnicodeTables} limit cmds
    (Hlimit : 0 <= limit) (Hcmds : Forall admissible cmds) :
  match run_commands cmds (prompt_with_limit limit) with
  | Ok p => prompt_ok p
  | Err (MarkersUsedUp next_id occupied) => 0 <= next_id /\ 131072 <= next_id + Z.of_nat occupied
  | Err Endless | Panic => False
  end.
Proof. exact (run_commands_safe cmds _ Hcmds (prompt_with_limit_ok limit Hlimit)). Qed.

Definition demo_commands : list prompt_command :=
  [ApplyEdit (InsertText (chars "list files")); ApplyEdit Submit;
   ApplyEdit (InsertText (233 :: chars "dit" ++ [10; 8364])); SetPromptBodyColumns 3;
   ModeInput Multiline (esc "[A"); ReverseSearchInput [18]; ReverseSearchInput (chars "li");
   ReverseSearchInput [27]; TerminalInput [23]].
Lemma demo_admissible : Forall admissible demo_commands.
Proof. repeat constructor; try done. all: intros [=]. Qed.

Lemma readline_never_panics_witness :
  exists p, run_commands demo_commands (prompt_with_limit 2) = Ok p /\ prompt_ok p.
Proof.
  assert (0 <= 2) as H2 by lia. pose proof (readline_never_panics 2 demo_commands H2 demo_admissible) as H.
  destruct (run_commands demo_commands (prompt_with_limit 2)) as [p|e|] eqn:E.
  - exists p. split; [reflexivity|exact H].
  - vm_compute in E. discriminate E.
  - vm_compute in E. discriminate E.
Defined.

(** C9. Every insertion, cursor movement and deletion does to the bytes and
    the byte cursor what the reference editor does to the text before and
    after the cursor; it reports a change exactly when there is one, keeps the
    history, and drops a paste block only with its marker. *)
Theorem edits_refine_reference `{UT : UnicodeTables} e b z z'
    (Hb : blocks_ok (line b) (paste_blocks b)) (Hz : at_cut b z) (He : spec_edit e z = Some z') :
  exists b' o, apply_edit e b = Ok (b', o) /\ at_cut b' z' /\ line_edit b b'
    /\ (o = Noop <-> z' = z) /\ (o = Edited <-> z' <> z)
    /\ expanded_line b' = render_line_with_blocks (z'.1 ++ z'.2) (paste_blocks b) Expanded.
Proof.
  destruct (apply_edit_refines e b z z' (bk_present _ _ Hb) Hz He)
    as (b' & o & Hr & Hz' & Hle & Ho).
  exists b', o. split; [done|]. split; [done|]. split; [done|]. destruct Ho as [? ?].
  split; [done|]. split; [done|]. unfold expanded_line.
  rewrite (le_blocks _ _ Hle), render_filter by set_solver. by destruct Hz' as [-> _].
Qed.

(** A line with the cursor inside it. *)
Definition demo_buffer : ReadlineBuffer :=
  set_line_cursor (chars "git commit" ++ [233]) 10 (with_history_limit 5).
Lemma demo_buffer_ok : buffer_ok demo_buffer.
Proof.
  apply set_edit_ok; [by apply with_history_limit_ok|apply (boundary_pre (chars "git commit") [233])| |done].
  apply blocks_ok_nil.
Qed.
Lemma edits_refine_reference_witness :
  exists b' o, apply_edit KillWordLeft demo_buffer = Ok (b', o) /\ at_cut b' (chars "git ", [233])
    /\ line_edit demo_buffer b' /\ (o = Noop <-> (chars "git ", [233]) = (chars "git commit", [233]))
    /\ (o = Edited <-> (chars "git ", [233]) <> (chars "git commit", [233]))
    /\ expanded_line b' = chars "git " ++ [233].
Proof.
  apply (edits_refine_reference KillWordLeft demo_buffer (chars "git commit", [233]) (chars "git ", [233])).
  - apply (bo_blocks _ demo_buffer_ok).
  - by split.
  - vm_compute. reflexivity.
Defined.

(** ** History *)

(** A submission that is kept is the newest entry. *)
Lemma remembered_newest `{UT : UnicodeTables} b e :
  history_ok (history_limit b) (history b) -> kept_history b e ->
  exists h, remember_submission e b = Ok (set_history_value h b)
    /\ entries h <> []
    /\ entries h !! (length (entries h) - 1)%nat = Some (he_text e)
    /\ entry_ranges h !! (length (entries h) - 1)%nat = Some (he_ranges e).
Proof.
  intros Hh Hk. destruct (remember_cases b e Hh)
    as [[Hno _]|[(_ & Hlast & h & -> & Hh' & He & Hr)|(_ & _ & k & -> & Hh' & Hlt & _)]]; [done| |].
  - exists h. split; [done|]. rewrite He, Hr.
    pose proof (Forall2_length _ _ _ (al_ranges _ (ho_aligned _ _ Hh))) as Hlen.
    assert (entries (history b) <> []) as Hne by (by intros E; rewrite E in Hlast).
    split; [done|]. split; [by rewrite last_lookup in Hlast; rewrite Nat.sub_1_r|].
    destruct (entry_ranges (history b)) as [|r rs _] using rev_ind.
    { by destruct (entries (history b)). }
    assert (forall l : list (list ReadlinePasteRange), set_last (he_ranges e) (l ++ [r]) = l ++ [he_ranges e]) as ->.
    { induction l as [|y l IH]; [done|]. simpl. destruct l; simpl in *; by rewrite ?IH. }
    rewrite Hlen, length_app. simpl. apply list_lookup_middle. lia.
  - exists (trimmed k (appended (history b) e)). split; [done|]. simpl in *.
    pose proof (Forall2_length _ _ _ (al_ranges _ (ho_aligned _ _ Hh))) as Hlen.
    rewrite length_app in Hlt. simpl in Hlt. rewrite length_drop, length_app. simpl.
    split; [intros E; apply (f_equal length) in E; rewrite length_drop, length_app in E; simpl in E; lia|].
    rewrite !lookup_drop. replace (k + (length (entries (history b)) + 1 - k - 1))%nat
      with (length (entries (history b))) by lia.
    split; [by apply list_lookup_middle|]. by apply list_lookup_middle.
Qed.

(** C11. A non-empty submission within the entry limit, with the history enabled,
    comes back unchanged on the next history step, provided that its text holds
    no character from U+F0000 on ([plain]: the characters that mark collapsed
    pastes) and that a marker id is left for each of its pastes: the recalled
    line expands to the submitted text, shows the same collapsed display and has
    the same paste ranges, with the cursor at its end. *)
Theorem submission_recalled `{UT : UnicodeTables} b b1 submitted display ranges
    (Hb : buffer_ok b)
    (Hsubmit : submit_with_display b = Ok (b1, (submitted, display, ranges)))
    (Htext : submitted <> [] /\ blen submitted <= MAX_READLINE_HISTORY_ENTRY_BYTES /\ plain submitted)
    (Hlimit : history_limit b <> 0)
    (Hids : 0 <= next_paste_block_id b
            /\ next_paste_block_id b + Z.of_nat (length ranges) <= MARKERS) :
  exists b2, history_previous b1 = Ok (b2, true)
    /\ expanded_line b2 = submitted /\ rendered_line b2 = display
    /\ collapsed_paste_ranges b2 = ranges /\ cursor b2 = blen (line b2).
Proof.
  unfold submit_with_display in Hsubmit. set (b0 := clear_draft _) in Hsubmit.
  set (e := {| he_text := expanded_line b; he_ranges := collapsed_paste_ranges b |}) in Hsubmit.
  destruct Htext as (Hne & Hmax & Hplain). destruct Hids as [H0 Hid].
  assert (submitted = expanded_line b /\ display = rendered_line b /\ ranges = collapsed_paste_ranges b) as (-> & -> & ->).
  { destruct (remember_submission e b0); naive_solver. }
  assert (entry_is_valid e = true) as Hv by (by apply submission_valid).
  destruct (remembered_newest b0 e) as (h & Hr & Hh & Ht & Hrg); [apply Hb|by repeat split|].
  rewrite Hr in Hsubmit. simplify_eq/=.
  set (b1 := set_history_value h b0) in *.
  assert (structured_history_entry (save_draft b1) (length (entries h) - 1) = Some e) as He.
  { unfold structured_history_entry. simpl. by rewrite Ht, Hrg. }
  destruct (load_history_index_exact _ e (save_draft b1) He Hv) as (b2 & Hl & Hld & _); [done..|].
  exists b2. unfold history_previous. simpl. destruct (entries h) as [|x l] eqn:Eh; [done|].
  rewrite <- Eh in *. change (history_cursor b1) with (@None nat). cbn [mbind outcome_bind].
  change (entries (history b1)) with (entries h). rewrite Hl. cbn [mbind outcome_bind].
  destruct Hld as [Hc _ _ _ Htx Hrs]. split; [done|]. split; [done|]. split; [|done].
  pose proof (display_of_entry b2) as Hd. rewrite Htx, Hrs in Hd.
  change (he_text e) with (expanded_line b) in Hd. change (he_ranges e) with (collapsed_paste_ranges b) in Hd.
  rewrite display_of_entry in Hd. by injection Hd.
Qed.

(** A line with one large paste. *)
Definition pasted_lines : text := chars "a" ++ concat (replicate 7 [10; 98]).
Definition pasted_buffer : ReadlineBuffer :=
  match (b ← insert_text (chars "see ") (with_history_limit 5); insert_pasted_text pasted_lines b) with
  | Ok b => b
  | _ => with_history_limit 5
  end.
Definition submitted_buffer : ReadlineBuffer :=
  match submit_with_display pasted_buffer with Ok (b, _) => b | _ => pasted_buffer end.

Lemma pasted_buffer_ok : buffer_ok pasted_buffer.
Proof.
  assert (safe (b ← insert_text (chars "see ") (with_history_limit 5); insert_pasted_text pasted_lines b)
            buffer_ok) as H.
  { eapply (safe_bind _ _ buffer_ok).
    - pose proof (with_history_limit_ok 5 ltac:(lia)) as H0.
      destruct (insert_text_cut (with_history_limit 5) ([], []) (chars "see ")) as (b' & Hr & Hz & He);
        [by constructor|by split|]. rewrite Hr. by eapply line_edit_ok.
    - intros b Hb. by apply pasted_nonempty. }
  unfold pasted_buffer. destruct (_ ≫= _); [done|by apply with_history_limit_ok..].
Qed.

Lemma submission_recalled_witness :
  exists b2, history_previous submitted_buffer = Ok (b2, true)
    /\ expanded_line b2 = chars "see " ++ pasted_lines
    /\ rendered_line b2 = chars "see [Pasted 15 B]"
    /\ collapsed_paste_ranges b2 = [{| pr_start := 4; pr_end := 19 |}] /\ cursor b2 = blen (line b2).
Proof.
  apply (submission_recalled pasted_buffer).
  - apply pasted_buffer_ok.
  - vm_compute. reflexivity.
  - split; [vm_compute; discriminate|]. split; [vm_compute; discriminate|].
    unfold plain. apply (bool_decide_unpack _). vm_compute. exact I.
  - vm_compute. discriminate.
  - split; vm_compute; discriminate.
Defined.

(** Navigating the history keeps the newest entries that fit: an appended
    entry evicts no more of the oldest ones than the bounds require. *)
Lemma history_keeps_newest `{UT : UnicodeTables} b e :
  buffer_ok b -> kept_history b e -> last (entries (history b)) <> Some (he_text e) ->
  exists k b', remember_submission e b = Ok b'
    /\ entries (history b') = drop k (entries (history b) ++ [he_text e])
    /\ history_over_limit (history_limit b) (history b') = false
    /\ forall j, (j < k)%nat ->
         history_over_limit (history_limit b) (trimmed j (appended (history b) e)) = true.
Proof.
  intros Hb Hk Hn. destruct (remember_cases b e (bo_history _ Hb))
    as [[? _]|[(_ & ? & _)|(_ & _ & k & Hr & Hh & _ & Hmin)]]; [done..|].
  exists k. eexists. split; [exact Hr|]. split; [done|]. split; [|done].
  destruct Hh as [_ H1 H2]. unfold history_over_limit. simpl in *. apply orb_false_iff.
  split; apply Z.ltb_ge; done.
Qed.

(** ** Rows *)

(** The soft-wrapped rows of a logical line are a partition of it into
    consecutive rows that fit the columns or hold one wide character; a row is
    broken after a space, or, where no space follows its first character,
    before the character that does not fit. *)
Theorem soft_rows_partition `{UT : UnicodeTables} before t after columns :
  exists ts, t = concat ts
    /\ (t = [] /\ ts = [[]] \/ t <> [] /\ wrapped columns ts)
    /\ visual_rows_for_logical_line (before ++ t ++ after) (blen before) (blen before + blen t) columns
       = Ok (rows_of (blen before) ts).
Proof.
  destruct (visual_rows_spec before t after columns) as (ts & [? ?] & ?). by exists ts.
Qed.

(** ** Paste markers *)

(** The search for a paste marker returns when enough markers are unused, and
    the bound on its rounds loses no result. *)
Lemma paste_marker_found b :
  0 <= next_paste_block_id b <= u32_MAX ->
  (next_paste_block_marker b = Err (markers_used_up b) ->
   forall fuel, marker_loop fuel b (next_paste_block_id b) = Err (markers_used_up b))
  /\ (next_paste_block_id b + Z.of_nat (length (line b) + length (paste_blocks b)) < MARKERS ->
      exists m id, next_paste_block_marker b = Ok (m, id) /\ m ∉ line b
        /\ m ∉ pb_marker <$> paste_blocks b).
Proof.
  intros Hid. split; [intros He fuel; by apply marker_fuel_enough|]. intros Hlt.
  destruct (marker_search_total b ltac:(lia) Hlt) as (m & id & Hm & Hf & _). exists m, id.
  by apply marker_free_spec in Hf as [? ?].
Qed.

(** Ids are never reused: once they are used up, a second paste into a line
    that holds the first marker never returns. *)
Lemma used_up_markers_hang b fuel :
  MARKERS <= next_paste_block_id b <= u32_MAX -> READLINE_PASTE_BLOCK_MARKER_BASE ∈ line b ->
  marker_loop fuel b (next_paste_block_id b) = Err (markers_used_up b).
Proof.
  intros Hid Hin. apply marker_loop_Err; [unfold MARKERS in *; lia|]. intros j _.
  unfold candidate_at. rewrite marker_candidate_high by (unfold MARKERS, u32_MAX in *; lia).
  destruct (marker_free b _) eqn:E; [|done]. by apply marker_free_spec in E as [? _].
Qed.

(** A marker typed after a paste stands for the paste. *)
Lemma typed_marker_repeats_paste :
  (fun r => expanded_line r.1) <$> apply_edit (Insert READLINE_PASTE_BLOCK_MARKER_BASE) pasted_buffer
  = Ok (chars "see " ++ pasted_lines ++ pasted_lines).
Proof. vm_compute. reflexivity. Qed.

(** ** Selection *)

(** The projection used for selection shows what the prompt renders, with
    or without an unaccepted completion, and copying all of it as source gives
    exactly the entered text. *)
Theorem projection_copies_source `{UT : UnicodeTables} insertion b p
    (Hp : source_projection insertion b = Some p) (Hmax : blen (expanded_line b) <= u64_MAX) :
  pj_source p = expanded_line b
  /\ match insertion with
     | None => pj_display p = rendered_line b
     | Some (at_, s) => rendered_line_with_insert b at_ s = Some (pj_display p)
     end
  /\ copy_range p (0, blen (pj_display p)) true = Some (expanded_line b).
Proof.
  destruct (projection_texts insertion b p Hp) as [? ?]. split; [done|]. split; [done|].
  by eapply projection_copies.
Qed.

Definition demo_projection : ReadlineSourceProjection :=
  default empty_projection (source_projection (Some (4, chars "more ")) pasted_buffer).
Lemma projection_copies_source_witness :
  pj_source demo_projection = expanded_line pasted_buffer
  /\ rendered_line_with_insert pasted_buffer 4 (chars "more ") = Some (pj_display demo_projection)
  /\ copy_range demo_projection (0, blen (pj_display demo_projection)) true
     = Some (expanded_line pasted_buffer).
Proof.
  apply (projection_copies_source (Some (4, chars "more "))).
  - vm_compute. reflexivity.
  - vm_compute. discriminate.
Defined.

(** ** The decoder *)

(** A read always ends, in items or in the error for bytes that are not
    text, and every key sequence it yields can be applied to any well-formed
    prompt without a panic. *)
Theorem decoded_keys_are_safe `{UT : UnicodeTables} input now d :
  match (decode_at input now d).2 with
  | Ok items =>
      forall s p, Sequence s ∈ items -> prompt_ok p ->
        apply_terminal_input s p <> Panic /\ apply_reverse_search_input s p <> Panic
  | Err e => exists m, e = DecodeError m
  | Panic => False
  end.
Proof.
  pose proof (decode_at_total input now d) as H. destruct (decode_at input now d).2 as [items|[]|];
    simpl in *; [|by eauto|done|done].
  intros s p Hs Hp. rewrite Forall_forall in H. specialize (H _ Hs).
  split; eapply safe_no_panic; [|by apply reverse_input_ok].
  apply in_buffer_ok; [done|]. by apply terminal_input_safe, Hp.
Qed.

(** The sequence introducer alone, which the decoder never yields, is not
    survived by the key parser. *)
Lemma bare_introducer_panics b : apply_readline_terminal_input [27; 91] b = Panic.
Proof. reflexivity. Qed.

(** C8. Inside a paste, whatever is read before the closing delimiter, in
    whatever pieces and at whatever times, the decoder emits no key and no
    text: at most it reports a rejection, and it stays inside the paste. *)
Theorem paste_bytes_never_keys reads s d
    (Hd : in_paste d s)
    (Hopen : find_bytes (s ++ stream reads) BRACKETED_PASTE_END = None) :
  exists d' items, feed reads d = (d', Ok items) /\ in_paste d' (s ++ stream reads)
    /\ Forall is_rejection items.
Proof. by apply in_paste_feed. Qed.

(** A decoder that has just seen the opening delimiter, with room for three
    bytes. *)
Definition opened_decoder : ReadlineTerminalInputDecoder :=
  (decode_at BRACKETED_PASTE_START 0 (with_bracketed_paste_limits 3 500)).1.
Lemma opened_in_paste : in_paste opened_decoder [].
Proof.
  left. split; [done|]. split; [done|]. split; [by apply overlap_nil|done|done].
Qed.
Lemma paste_bytes_never_keys_witness :
  exists d' items,
    feed [(chars "rm -rf ", 1); ([13; 27; 91], 2); (chars "200~", 3)] opened_decoder = (d', Ok items)
    /\ in_paste d' (chars "rm -rf " ++ [13; 27; 91] ++ chars "200~") /\ Forall is_rejection items.
Proof.
  apply (paste_bytes_never_keys [(chars "rm -rf ", 1); ([13; 27; 91], 2); (chars "200~", 3)] []).
  - apply opened_in_paste.
  - vm_compute. reflexivity.
Defined.



(** A byte that is not UTF-8 in the same read as an opening delimiter loses
    the delimiter: the paste that follows is decoded as keys. *)
Lemma invalid_byte_unframes_paste :
  let d := (decode_at (255 :: BRACKETED_PASTE_START) 0 decoder_new).1 in
  (decode_at (chars "rm" ++ [13]) 1 d).2 = Ok [Sequence (chars "rm"); Sequence [13]].
Proof. vm_compute. reflexivity. Qed.
