(* ===== verification/KeyInput.v ===== *)
(** * Key chords, bindings and input classification

    The key values of the multiplexer (mez-mux/src/input.rs): their encoding
    as terminal bytes, their decoding, the configuration notation, the mouse
    packets they are told apart from (mez-terminal/src/mouse.rs), and the
    classification of one input as text for the pane, a prefix, a binding or a
    mouse event.  The presets (mez-mux/src/key_preset.rs) override the default
    bindings.  Bytes and characters are numbers, as in [Utf8Text]. *)

From S2P Require Import Prelude LayoutTypes Utf8Text Readline ReadlineKeys.
#[local] Open Scope Z_scope.

(** ** Chords *)

Inductive KeyCode :=
| KeyChar (c : rchar) | KeyUp | KeyDown | KeyLeft | KeyRight
| KeyPageUp | KeyPageDown | KeyHome | KeyEnd.
#[global] Instance KeyCode_eq_dec : EqDecision KeyCode.
Proof. solve_decision. Defined.

Record KeyModifiers := { ctrl : bool; alt : bool; shift : bool }.
#[global] Instance KeyModifiers_eq_dec : EqDecision KeyModifiers.
Proof. solve_decision. Defined.
Definition no_modifiers : KeyModifiers := {| ctrl := false; alt := false; shift := false |}.

Record KeyChord := { code : KeyCode; modifiers : KeyModifiers }.
#[global] Instance KeyChord_eq_dec : EqDecision KeyChord.
Proof. solve_decision. Defined.

Definition chord_of (c : KeyCode) (ctrl alt shift : bool) : KeyChord :=
  {| code := c; modifiers := {| ctrl := ctrl; alt := alt; shift := shift |} |}.
Definition new_chord (c : KeyCode) : KeyChord := chord_of c false false false.
Definition ctrl_chord (c : KeyCode) : KeyChord := chord_of c true false false.
Definition alt_chord (c : KeyCode) : KeyChord := chord_of c false true false.
Definition ctrl_alt_chord (c : KeyCode) : KeyChord := chord_of c true true false.

(** ** Encoding *)

(** [char::is_ascii], [is_ascii_lowercase] and [is_ascii_uppercase]. *)
Definition is_ascii_char (c : rchar) : bool := c <? 128.
Definition is_lower (c : rchar) : bool := in_range 97 122 c.
Definition is_upper (c : rchar) : bool := in_range 65 90 c.
Definition lower_ascii (c : rchar) : rchar := if is_upper c then c + 32 else c.

Definition unmodified_special_key_bytes (c : KeyCode) : option bytes :=
  match c with
  | KeyUp => Some (esc "OA") | KeyDown => Some (esc "OB")
  | KeyRight => Some (esc "OC") | KeyLeft => Some (esc "OD")
  | KeyPageUp => Some (esc "[5~") | KeyPageDown => Some (esc "[6~")
  | KeyHome => Some (esc "[H") | KeyEnd => Some (esc "[F")
  | KeyChar _ => None
  end.

(** [format!("\x1b[1;{modifier}A")] and the like: the modifier is one digit. *)
Definition modified_special_key_bytes (c : KeyCode) (m : KeyModifiers) : option bytes :=
  let modifier := 1 + Z.b2z (shift m) + Z.b2z (alt m) * 2 + Z.b2z (ctrl m) * 4 in
  let sequence (before after : string) := Some (esc before ++ [48 + modifier] ++ chars after) in
  match c with
  | KeyUp => sequence "[1;" "A" | KeyDown => sequence "[1;" "B"
  | KeyRight => sequence "[1;" "C" | KeyLeft => sequence "[1;" "D"
  | KeyPageUp => sequence "[5;" "~" | KeyPageDown => sequence "[6;" "~"
  | KeyHome => sequence "[1;" "H" | KeyEnd => sequence "[1;" "F"
  | KeyChar _ => None
  end%string.

Definition key_chord_input_bytes (k : KeyChord) : option bytes :=
  let m := modifiers k in
  match code k with
  | KeyChar c =>
      let escape := if alt m then [27] else [] in
      if ctrl m && negb (shift m) then
        let c := lower_ascii c in
        if negb (is_lower c) then None else Some (escape ++ [c - 97 + 1])
      else if negb (ctrl m) && negb (shift m) && is_ascii_char c then Some (escape ++ [c])
      else None
  | c => if bool_decide (m = no_modifiers) then unmodified_special_key_bytes c
         else modified_special_key_bytes c m
  end.

(** ** Decoding *)

Definition arrow_key_code (final_byte : byte) : option KeyCode :=
  if final_byte =? 65 then Some KeyUp else if final_byte =? 66 then Some KeyDown
  else if final_byte =? 67 then Some KeyRight else if final_byte =? 68 then Some KeyLeft
  else None.
Definition home_end_key_code (final_byte : byte) : option KeyCode :=
  if final_byte =? 72 then Some KeyHome else if final_byte =? 70 then Some KeyEnd else None.

Definition xterm_modifier_value (value : Z) : KeyModifiers :=
  let flags := sat_sub value 1 in
  {| shift := negb (Z.land flags 1 =? 0); alt := negb (Z.land flags 2 =? 0);
     ctrl := negb (Z.land flags 4 =? 0) |}.

(** [parts.next().and_then(parse).map(xterm_modifier_value).unwrap_or_default()]. *)
Definition modifier_part (part : option text) : KeyModifiers :=
  default no_modifiers (xterm_modifier_value <$> (part ≫= parse_uint u16_MAX)).

Definition xterm_csi_modifier (params : text) (default_key_number : Z) : option KeyModifiers :=
  if bool_decide (params = []) then Some no_modifiers
  else
    let parts := split_text_at 59 params in
    let key_number := default default_key_number (head parts ≫= parse_uint u16_MAX) in
    if negb (key_number =? default_key_number) then None
    else Some (modifier_part (parts !! 1%nat)).

Definition parse_csi_key_chord_bytes (input : bytes) : option (KeyChord * nat) :=
  if negb (starts_with_bytes input (esc "[")) then None
  else
    final_index ← csi_final 2 (drop 2 input);
    final_byte ← input !! final_index;
    params ← from_utf8 (take (final_index - 2) (drop 2 input));
    '(c, m) ←
      (if in_range 65 68 final_byte then
         m ← xterm_csi_modifier params 1; c ← arrow_key_code final_byte; Some (c, m)
       else if (final_byte =? 72) || (final_byte =? 70) then
         m ← xterm_csi_modifier params 1; c ← home_end_key_code final_byte; Some (c, m)
       else if final_byte =? 126 then
         let parts := split_text_at 59 params in
         key_number ← head parts ≫= parse_uint u16_MAX;
         c ← (if (key_number =? 1) || (key_number =? 7) then Some KeyHome
              else if (key_number =? 4) || (key_number =? 8) then Some KeyEnd
              else if key_number =? 5 then Some KeyPageUp
              else if key_number =? 6 then Some KeyPageDown else None);
         Some (c, modifier_part (parts !! 1%nat))
       else None);
    Some ({| code := c; modifiers := m |}, S final_index).

Definition parse_ss3_key_chord_bytes (input : bytes) : option (KeyChord * nat) :=
  if (length input <? 3)%nat || negb (starts_with_bytes input (esc "O")) then None
  else
    b ← input !! 2%nat;
    c ← match arrow_key_code b with Some c => Some c | None => home_end_key_code b end;
    Some (new_chord c, 3%nat).

Definition parse_escape_key_chord_bytes (input : bytes) : option (KeyChord * nat) :=
  match parse_csi_key_chord_bytes input with
  | Some parsed => Some parsed
  | None =>
      match parse_ss3_key_chord_bytes input with
      | Some parsed => Some parsed
      | None =>
          second ← input !! 1%nat;
          if in_range 33 126 second || (second =? 32)
          then Some (alt_chord (KeyChar second), 2%nat) else None
      end
  end.

Definition parse_key_chord_bytes (input : bytes) : option (KeyChord * nat) :=
  match input with
  | [] => None
  | first :: _ =>
      if in_range 0x01 0x1a first then Some (ctrl_chord (KeyChar (97 + first - 1)), 1%nat)
      else if first =? 27 then parse_escape_key_chord_bytes input
      else if in_range 32 126 first then Some (new_chord (KeyChar first), 1%nat)
      else None
  end.

(** ** Notation *)

(** [str::strip_prefix]. *)
Fixpoint strip_text (p s : text) : option text :=
  match p, s with
  | [], _ => Some s
  | a :: p, b :: s => if a =? b then strip_text p s else None
  | _ :: _, [] => None
  end.

(** [str::trim]. *)
Fixpoint trim_left (s : text) : text :=
  match s with c :: rest => if is_whitespace c then trim_left rest else s | [] => [] end.
Definition trim_text (s : text) : text := reverse (trim_left (reverse (trim_left s))).

Inductive ModifierTarget := TargetCtrl | TargetAlt | TargetShift.

Definition modifier_prefixes : list (text * ModifierTarget) :=
  [(chars "Ctrl+", TargetCtrl); (chars "Control+", TargetCtrl); (chars "C-", TargetCtrl);
   (chars "Alt+", TargetAlt); (chars "A-", TargetAlt);
   (chars "Shift+", TargetShift); (chars "S-", TargetShift)].

(** [replace_true] on the flag of a target: the new flags and the old value. *)
Definition replace_true (t : ModifierTarget) (m : KeyModifiers) : KeyModifiers * bool :=
  match t with
  | TargetCtrl => ({| ctrl := true; alt := alt m; shift := shift m |}, ctrl m)
  | TargetAlt => ({| ctrl := ctrl m; alt := true; shift := shift m |}, alt m)
  | TargetShift => ({| ctrl := ctrl m; alt := alt m; shift := true |}, shift m)
  end.

Fixpoint strip_modifier_from (prefixes : list (text * ModifierTarget)) (rest : text)
    (m : KeyModifiers) : result (option (text * KeyModifiers)) :=
  match prefixes with
  | [] => Ok None
  | (prefix, target) :: prefixes =>
      match strip_text prefix rest with
      | None => strip_modifier_from prefixes rest m
      | Some remaining =>
          let '(m, duplicate) := replace_true target m in
          if duplicate then Err (invalid_args "key binding repeats a modifier")
          else Ok (Some (remaining, m))
      end
  end.
Definition strip_modifier_prefix (rest : text) (m : KeyModifiers)
    : result (option (text * KeyModifiers)) :=
  strip_modifier_from modifier_prefixes rest m.

(** [while let Some(remaining) = strip_modifier_prefix(rest, &mut modifiers)?]:
    each turn sets a flag that was clear, so four turns always end the loop. *)
Fixpoint strip_modifiers (fuel : nat) (rest : text) (m : KeyModifiers)
    : result (text * KeyModifiers) :=
  match fuel with
  | O => Panic
  | S fuel =>
      r ← strip_modifier_prefix rest m;
      match r with
      | Some (remaining, m) => strip_modifiers fuel remaining m
      | None => Ok (rest, m)
      end
  end.

Definition key_names : list (text * KeyCode) :=
  [(chars "Up", KeyUp); (chars "Down", KeyDown); (chars "Left", KeyLeft);
   (chars "Right", KeyRight); (chars "PageUp", KeyPageUp); (chars "PgUp", KeyPageUp);
   (chars "PageDown", KeyPageDown); (chars "PgDown", KeyPageDown); (chars "Home", KeyHome);
   (chars "End", KeyEnd); (chars "Space", KeyChar 32)].

Definition parse_key_code_notation (rest : text) (ctrl : bool) : result KeyCode :=
  match snd <$> list_find (fun e => e.1 = rest) key_names with
  | Some (_, c) => Ok c
  | None =>
      match rest with
      | [] => Err (invalid_args "key binding is missing a key")
      | _ :: _ :: _ => Err (invalid_args "key binding key name is unknown")
      | [c] => Ok (KeyChar (if ctrl && is_upper c then lower_ascii c else c))
      end
  end.

Definition parse_key_chord_notation (notation : text) : result KeyChord :=
  let rest := trim_text notation in
  if bool_decide (rest = []) then Err (invalid_args "key binding must not be empty")
  else
    '(rest, m) ← strip_modifiers 5 rest no_modifiers;
    if bool_decide (rest = []) then Err (invalid_args "key binding is missing a key")
    else
      c ← parse_key_code_notation rest (ctrl m);
      Ok (if shift m && negb (ctrl m) && bool_decide (c = KeyChar 61)
          then chord_of (KeyChar 43) (ctrl m) (alt m) false
          else {| code := c; modifiers := m |}).

Definition code_notation (c : KeyCode) : text :=
  match c with
  | KeyChar character => [character]
  | KeyUp => chars "Up" | KeyDown => chars "Down" | KeyLeft => chars "Left"
  | KeyRight => chars "Right" | KeyPageUp => chars "PageUp" | KeyPageDown => chars "PageDown"
  | KeyHome => chars "Home" | KeyEnd => chars "End"
  end%string.
(** The components joined by dashes. *)
Definition key_chord_notation (k : KeyChord) : text :=
  (if ctrl (modifiers k) then chars "C-" else []) ++
  (if alt (modifiers k) then chars "A-" else []) ++
  (if shift (modifiers k) then chars "S-" else []) ++ code_notation (code k).

(** ** Mouse packets *)

Inductive MouseButton :=
| ButtonLeft | ButtonMiddle | ButtonRight | WheelUp | WheelDown | ButtonOther (code : Z).
Inductive MouseEventKind := MousePress | MouseRelease | MouseDrag | MouseScroll.
Record MouseModifiers := { mouse_shift : bool; mouse_alt : bool; mouse_ctrl : bool }.
Record MouseEvent := {
  mouse_kind : MouseEventKind;
  mouse_button : MouseButton;
  mouse_column : Z;
  mouse_row : Z;
  mouse_modifiers : MouseModifiers;
}.
#[global] Instance MouseButton_eq_dec : EqDecision MouseButton.
Proof. solve_decision. Defined.
#[global] Instance MouseEventKind_eq_dec : EqDecision MouseEventKind.
Proof. solve_decision. Defined.
#[global] Instance MouseModifiers_eq_dec : EqDecision MouseModifiers.
Proof. solve_decision. Defined.
#[global] Instance MouseEvent_eq_dec : EqDecision MouseEvent.
Proof. solve_decision. Defined.

Definition mouse_event (code column row : Z) (final_byte : rchar) : MouseEvent :=
  let drag := negb (Z.land code 32 =? 0) in
  let wheel := negb (Z.land code 64 =? 0) in
  let base := Z.land code 3 in
  {| mouse_kind := if wheel then MouseScroll else if final_byte =? 109 then MouseRelease
                   else if drag then MouseDrag else MousePress;
     mouse_button :=
       if wheel then
         if base =? 0 then WheelUp else if base =? 1 then WheelDown else ButtonOther (64 + base)
       else if base =? 0 then ButtonLeft else if base =? 1 then ButtonMiddle
       else if base =? 2 then ButtonRight else ButtonOther base;
     mouse_column := sat_sub column 1;
     mouse_row := sat_sub row 1;
     mouse_modifiers := {| mouse_shift := negb (Z.land code 4 =? 0);
                           mouse_alt := negb (Z.land code 8 =? 0);
                           mouse_ctrl := negb (Z.land code 16 =? 0) |} |}.

Definition parse_sgr_mouse (input : bytes) : option MouseEvent :=
  t ← from_utf8 input;
  rest ← strip_text (esc "[<") t;
  final_byte ← last rest;
  if negb ((final_byte =? 77) || (final_byte =? 109)) then None
  else match split_text_at 59 (take (length rest - 1) rest) with
       | [first; second; third] =>
           code ← parse_uint u16_MAX first;
           column ← parse_uint u16_MAX second;
           row ← parse_uint u16_MAX third;
           if (column =? 0) || (row =? 0) then None
           else Some (mouse_event code column row final_byte)
       | _ => None
       end.

(** ** Actions and bindings *)

Inductive PaneFocusDirection := PaneUp | PaneDown | PaneLeft | PaneRight.
Inductive WindowFocusTarget :=
| WindowNext | WindowPrevious | WindowLastActive | WindowIndex (index : Z)
| WindowPromptForIndex | WindowPromptForNewIndex | WindowChooseInteractively.
Inductive GroupFocusTarget :=
| GroupNext | GroupPrevious | GroupLastActive | GroupChooseInteractively.
Inductive PasteBufferTarget := MostRecent | ChooseInteractively.

Inductive MuxAction :=
| SendPrefixToPane | EnterCommandPrompt | ListKeyBindings | DetachPrimaryClient
| ChooseClientOrObserverToDetach | NewWindow | NewGroup | RenameWindow
| KillWindowAfterConfirmation | FocusWindow (t : WindowFocusTarget)
| FocusGroup (t : GroupFocusTarget) | SplitPaneVertical | SplitPaneHorizontal
| FocusPane (d : PaneFocusDirection) | CyclePane | FocusLastPane | ShowPaneIndexes
| TogglePaneZoom | CycleLayouts | KillPaneAfterConfirmation | BreakPaneToNewWindow
| SwapPanePrevious | SwapPaneNext | EnterCopyMode | EnterCopyModeAndPageUp
| PasteBuffer (t : PasteBufferTarget) | ListPasteBuffers | DeleteMostRecentPasteBuffer
| ShowMessages | ToggleAgentShell | EditAgentPrompt.
#[global] Instance PaneFocusDirection_eq_dec : EqDecision PaneFocusDirection.
Proof. solve_decision. Defined.
#[global] Instance WindowFocusTarget_eq_dec : EqDecision WindowFocusTarget.
Proof. solve_decision. Defined.
#[global] Instance GroupFocusTarget_eq_dec : EqDecision GroupFocusTarget.
Proof. solve_decision. Defined.
#[global] Instance PasteBufferTarget_eq_dec : EqDecision PasteBufferTarget.
Proof. solve_decision. Defined.
#[global] Instance MuxAction_eq_dec : EqDecision MuxAction.
Proof. solve_decision. Defined.

Inductive ConfigurableKeyAction :=
| CfgSplitVertical | CfgSplitHorizontal | CfgNewWindow | CfgNewGroup | CfgAgentShell
| CfgFocusUp | CfgFocusDown | CfgFocusLeft | CfgFocusRight
| CfgFocusPreviousWindow | CfgFocusNextWindow | CfgFocusPreviousGroup | CfgFocusNextGroup.
#[global] Instance ConfigurableKeyAction_eq_dec : EqDecision ConfigurableKeyAction.
Proof. solve_decision. Defined.

Definition ALL : list ConfigurableKeyAction :=
  [CfgSplitVertical; CfgSplitHorizontal; CfgNewWindow; CfgNewGroup; CfgAgentShell;
   CfgFocusUp; CfgFocusDown; CfgFocusLeft; CfgFocusRight;
   CfgFocusPreviousWindow; CfgFocusNextWindow; CfgFocusPreviousGroup; CfgFocusNextGroup].

(** The set of replaced defaults is a list without repetitions. *)
Record KeyBindings := {
  escape : KeyChord;
  split_vertical : option KeyChord;
  split_horizontal : option KeyChord;
  new_window : option KeyChord;
  new_group : option KeyChord;
  agent_shell : option KeyChord;
  edit_prompt : option KeyChord;
  focus_up : option KeyChord;
  focus_down : option KeyChord;
  focus_left : option KeyChord;
  focus_right : option KeyChord;
  focus_previous_window : option KeyChord;
  focus_next_window : option KeyChord;
  focus_previous_group : option KeyChord;
  focus_next_group : option KeyChord;
  replaced_default_prefix_actions : list ConfigurableKeyAction;
}.

Definition default_bindings : KeyBindings := {|
  escape := ctrl_chord (KeyChar 97);
  split_vertical := None; split_horizontal := None; new_window := None; new_group := None;
  agent_shell := None; edit_prompt := Some (new_chord (KeyChar 101));
  focus_up := None; focus_down := None; focus_left := None; focus_right := None;
  focus_previous_window := None; focus_next_window := None;
  focus_previous_group := None; focus_next_group := None;
  replaced_default_prefix_actions := [];
|}.

Definition insert_action (a : ConfigurableKeyAction) (l : list ConfigurableKeyAction)
    : list ConfigurableKeyAction :=
  if bool_decide (a ∈ l) then l else l ++ [a].
Definition default_prefix_action_is_replaced (b : KeyBindings) (a : ConfigurableKeyAction) : bool :=
  bool_decide (a ∈ replaced_default_prefix_actions b).

(** ** Classification *)

Definition classify_direct_binding (k : KeyChord) (b : KeyBindings) : option MuxAction :=
  if bool_decide (split_vertical b = Some k) then Some SplitPaneVertical
  else if bool_decide (split_horizontal b = Some k) then Some SplitPaneHorizontal
  else if bool_decide (new_window b = Some k) then Some NewWindow
  else if bool_decide (new_group b = Some k) then Some NewGroup
  else if bool_decide (agent_shell b = Some k) then Some ToggleAgentShell
  else if bool_decide (focus_up b = Some k) then Some (FocusPane PaneUp)
  else if bool_decide (focus_down b = Some k) then Some (FocusPane PaneDown)
  else if bool_decide (focus_left b = Some k) then Some (FocusPane PaneLeft)
  else if bool_decide (focus_right b = Some k) then Some (FocusPane PaneRight)
  else if bool_decide (focus_previous_window b = Some k) then Some (FocusWindow WindowPrevious)
  else if bool_decide (focus_next_window b = Some k) then Some (FocusWindow WindowNext)
  else if bool_decide (focus_previous_group b = Some k) then Some (FocusGroup GroupPrevious)
  else if bool_decide (focus_next_group b = Some k) then Some (FocusGroup GroupNext)
  else None.

Definition configurable_key_action_for_mux (a : MuxAction) : option ConfigurableKeyAction :=
  match a with
  | SplitPaneVertical => Some CfgSplitVertical
  | SplitPaneHorizontal => Some CfgSplitHorizontal
  | NewWindow => Some CfgNewWindow
  | NewGroup => Some CfgNewGroup
  | ToggleAgentShell => Some CfgAgentShell
  | FocusPane PaneUp => Some CfgFocusUp
  | FocusPane PaneDown => Some CfgFocusDown
  | FocusPane PaneLeft => Some CfgFocusLeft
  | FocusPane PaneRight => Some CfgFocusRight
  | FocusWindow WindowPrevious => Some CfgFocusPreviousWindow
  | FocusWindow WindowNext => Some CfgFocusNextWindow
  | FocusGroup GroupPrevious => Some CfgFocusPreviousGroup
  | FocusGroup GroupNext => Some CfgFocusNextGroup
  | _ => None
  end.

(** The default prefix keys, one character each; the digits select windows. *)
Definition prefix_characters : list (string * MuxAction) :=
  [(":", EnterCommandPrompt); ("?", ListKeyBindings); ("d", DetachPrimaryClient);
   ("D", ChooseClientOrObserverToDetach); ("G", FocusGroup GroupChooseInteractively);
   ("C", NewGroup); ("(", FocusGroup GroupPrevious); (")", FocusGroup GroupNext);
   ("c", NewWindow); ("a", ToggleAgentShell); (",", RenameWindow);
   ("&", KillWindowAfterConfirmation); ("w", FocusWindow WindowChooseInteractively);
   ("n", FocusWindow WindowNext); ("p", FocusWindow WindowPrevious);
   ("l", FocusWindow WindowLastActive); ("'", FocusWindow WindowPromptForIndex);
   (".", FocusWindow WindowPromptForNewIndex); ("%", SplitPaneVertical);
   (String (Ascii.ascii_of_nat 34) EmptyString, SplitPaneHorizontal); ("o", CyclePane); (";", FocusLastPane);
   ("q", ShowPaneIndexes); ("z", TogglePaneZoom); (" ", CycleLayouts);
   ("x", KillPaneAfterConfirmation); ("!", BreakPaneToNewWindow); ("{", SwapPanePrevious);
   ("}", SwapPaneNext); ("[", EnterCopyMode); ("]", PasteBuffer MostRecent);
   ("#", ListPasteBuffers); ("=", PasteBuffer ChooseInteractively);
   ("-", DeleteMostRecentPasteBuffer); ("~", ShowMessages)]%string.

Definition prefix_action (c : KeyCode) : option MuxAction :=
  match c with
  | KeyChar c =>
      if in_range 48 57 c then Some (FocusWindow (WindowIndex (c - 48)))
      else (fun e => e.2.2) <$> list_find (fun e => chars e.1 = [c]) prefix_characters
  | KeyUp => Some (FocusPane PaneUp)
  | KeyDown => Some (FocusPane PaneDown)
  | KeyLeft => Some (FocusPane PaneLeft)
  | KeyRight => Some (FocusPane PaneRight)
  | KeyPageUp => Some EnterCopyModeAndPageUp
  | KeyPageDown | KeyHome | KeyEnd => None
  end.

Definition classify_default_prefix_binding (k : KeyChord) (b : KeyBindings) : option MuxAction :=
  if bool_decide (k = escape b) then Some SendPrefixToPane
  else if negb (bool_decide (modifiers k = no_modifiers)) then None
  else
    action ← prefix_action (code k);
    match configurable_key_action_for_mux action with
    | Some a => if default_prefix_action_is_replaced b a then None else Some action
    | None => Some action
    end.

Definition classify_prefix_binding (k : KeyChord) (b : KeyBindings) : option MuxAction :=
  if bool_decide (k = escape b) then Some SendPrefixToPane
  else if bool_decide (edit_prompt b = Some k) then Some EditAgentPrompt
  else classify_default_prefix_binding k b.

Inductive TerminalInputClassification :=
| ForwardToPane
| PrefixKeyMode
| UnboundPrefix (k : KeyChord)
| CommandBinding (command : text)
| Mouse (e : MouseEvent)
| Mux (a : MuxAction).

(** [BTreeMap::get] on a map listed by key. *)
Definition command_binding (k : KeyChord) (l : list (KeyChord * text)) : option text :=
  (fun e => e.2.2) <$> list_find (fun e => e.1 = k) l.

Definition mux_or (c : TerminalInputClassification) (a : option MuxAction)
    : TerminalInputClassification :=
  match a with Some a => Mux a | None => c end.

Definition classify_terminal_input_with_command_bindings (input : bytes) (b : KeyBindings)
    (commands : list (KeyChord * text)) : TerminalInputClassification :=
  match (if starts_with_bytes input (esc "[<") then parse_sgr_mouse input else None) with
  | Some event => Mouse event
  | None =>
      match parse_key_chord_bytes input with
      | None => ForwardToPane
      | Some (first, first_len) =>
          if bool_decide (first = escape b) then
            if (first_len =? length input)%nat then PrefixKeyMode
            else
              let remaining := drop first_len input in
              match parse_key_chord_bytes remaining with
              | None => UnboundPrefix first
              | Some (second, second_len) =>
                  if negb (second_len =? length remaining)%nat then UnboundPrefix second
                  else match command_binding second commands with
                       | Some command => CommandBinding command
                       | None => mux_or (UnboundPrefix second) (classify_prefix_binding second b)
                       end
              end
          else if negb (first_len =? length input)%nat then ForwardToPane
          else mux_or ForwardToPane (classify_direct_binding first b)
      end
  end.
Definition classify_terminal_input (input : bytes) (b : KeyBindings) : TerminalInputClassification :=
  classify_terminal_input_with_command_bindings input b [].

(** ** Presets *)

Record KeyPresetDefinition := {
  preset_escape : option KeyChord;
  preset_split_vertical : option (option KeyChord);
  preset_split_horizontal : option (option KeyChord);
  preset_new_window : option (option KeyChord);
  preset_new_group : option (option KeyChord);
  preset_agent_shell : option (option KeyChord);
  preset_edit_prompt : option (option KeyChord);
  preset_focus_up : option (option KeyChord);
  preset_focus_down : option (option KeyChord);
  preset_focus_left : option (option KeyChord);
  preset_focus_right : option (option KeyChord);
  preset_focus_previous_window : option (option KeyChord);
  preset_focus_next_window : option (option KeyChord);
  preset_focus_previous_group : option (option KeyChord);
  preset_focus_next_group : option (option KeyChord);
  preset_command_bindings : list (text * text);
}.

Definition default_preset : KeyPresetDefinition := {|
  preset_escape := None; preset_split_vertical := None; preset_split_horizontal := None;
  preset_new_window := None; preset_new_group := None; preset_agent_shell := None;
  preset_edit_prompt := None; preset_focus_up := None; preset_focus_down := None;
  preset_focus_left := None; preset_focus_right := None; preset_focus_previous_window := None;
  preset_focus_next_window := None; preset_focus_previous_group := None;
  preset_focus_next_group := None; preset_command_bindings := [];
|}.

Definition simple_key_preset_definition : KeyPresetDefinition := {|
  preset_escape := Some (ctrl_chord (KeyChar 97));
  preset_split_vertical := Some (Some (alt_chord (KeyChar 92)));
  preset_split_horizontal := Some (Some (alt_chord (KeyChar 45)));
  preset_new_window := Some (Some (alt_chord (KeyChar 61)));
  preset_new_group := Some (Some (alt_chord (KeyChar 43)));
  preset_agent_shell := Some (Some (alt_chord (KeyChar 93)));
  preset_edit_prompt := None;
  preset_focus_up := Some (Some (ctrl_alt_chord KeyUp));
  preset_focus_down := Some (Some (ctrl_alt_chord KeyDown));
  preset_focus_left := Some (Some (ctrl_alt_chord KeyLeft));
  preset_focus_right := Some (Some (ctrl_alt_chord KeyRight));
  preset_focus_previous_window := Some (Some (ctrl_alt_chord KeyPageUp));
  preset_focus_next_window := Some (Some (ctrl_alt_chord KeyPageDown));
  preset_focus_previous_group := Some (Some (chord_of KeyPageUp true true true));
  preset_focus_next_group := Some (Some (chord_of KeyPageDown true true true));
  preset_command_bindings := [];
|}.

(** The declarations a preset makes for the configurable actions, in order. *)
Definition declarations (d : KeyPresetDefinition)
    : list (option (option KeyChord) * ConfigurableKeyAction) :=
  [(preset_split_vertical d, CfgSplitVertical); (preset_split_horizontal d, CfgSplitHorizontal);
   (preset_new_window d, CfgNewWindow); (preset_new_group d, CfgNewGroup);
   (preset_agent_shell d, CfgAgentShell); (preset_focus_up d, CfgFocusUp);
   (preset_focus_down d, CfgFocusDown); (preset_focus_left d, CfgFocusLeft);
   (preset_focus_right d, CfgFocusRight); (preset_focus_previous_window d, CfgFocusPreviousWindow);
   (preset_focus_next_window d, CfgFocusNextWindow);
   (preset_focus_previous_group d, CfgFocusPreviousGroup);
   (preset_focus_next_group d, CfgFocusNextGroup)].

Definition replace_declared (l : list (option (option KeyChord) * ConfigurableKeyAction))
    (replaced : list ConfigurableKeyAction) : list ConfigurableKeyAction :=
  foldl (fun r e => match e.1 with Some _ => insert_action e.2 r | None => r end) replaced l.

Definition apply_optional (target : option KeyChord) (declaration : option (option KeyChord))
    : option KeyChord :=
  default target declaration.

Definition materialize (d : KeyPresetDefinition) (b : KeyBindings) : KeyBindings := {|
  escape := default (escape b) (preset_escape d);
  split_vertical := apply_optional (split_vertical b) (preset_split_vertical d);
  split_horizontal := apply_optional (split_horizontal b) (preset_split_horizontal d);
  new_window := apply_optional (new_window b) (preset_new_window d);
  new_group := apply_optional (new_group b) (preset_new_group d);
  agent_shell := apply_optional (agent_shell b) (preset_agent_shell d);
  edit_prompt := apply_optional (edit_prompt b) (preset_edit_prompt d);
  focus_up := apply_optional (focus_up b) (preset_focus_up d);
  focus_down := apply_optional (focus_down b) (preset_focus_down d);
  focus_left := apply_optional (focus_left b) (preset_focus_left d);
  focus_right := apply_optional (focus_right b) (preset_focus_right d);
  focus_previous_window := apply_optional (focus_previous_window b) (preset_focus_previous_window d);
  focus_next_window := apply_optional (focus_next_window b) (preset_focus_next_window d);
  focus_previous_group := apply_optional (focus_previous_group b) (preset_focus_previous_group d);
  focus_next_group := apply_optional (focus_next_group b) (preset_focus_next_group d);
  replaced_default_prefix_actions :=
    replace_declared (declarations d) (replaced_default_prefix_actions b);
|}.

Definition builtin_key_preset_definition (name : string) : option KeyPresetDefinition :=
  if String.eqb name "default" then Some default_preset
  else if String.eqb name "simple" then Some simple_key_preset_definition
  else None.
Definition builtin_key_preset_bindings (name : string) : option KeyBindings :=
  (fun d => materialize d default_bindings) <$> builtin_key_preset_definition name.

Definition direct_bindings (b : KeyBindings) : list (option KeyChord) :=
  [split_vertical b; split_horizontal b; new_window b; new_group b; agent_shell b;
   focus_up b; focus_down b; focus_left b; focus_right b; focus_previous_window b;
   focus_next_window b; focus_previous_group b; focus_next_group b].
Definition direct_binding_count (d : KeyPresetDefinition) : nat :=
  length (omap id (direct_bindings (materialize d default_bindings))).

(** ** Chords and their bytes *)

(** The chords the encoder sends in bytes that do not name them: Control and Alt
    with a letter, which the decoder has no case for; Control with an upper-case
    letter, which is sent as the lower-case one; and a control character or DEL
    given as a character, whose byte is another chord or none. *)
Definition ambiguous_chord (k : KeyChord) : bool :=
  match code k with
  | KeyChar c =>
      if ctrl (modifiers k) then alt (modifiers k) || is_upper c else negb (in_range 32 126 c)
  | _ => false
  end.

(** The other chords the encoder sends ([decodable_iff]): printable characters,
    alone or with Alt; Control with a lower-case letter; the other keys with any
    modifiers. *)
Definition decodable_chord (k : KeyChord) : bool :=
  match code k with
  | KeyChar c =>
      negb (shift (modifiers k))
      && (if ctrl (modifiers k) then negb (alt (modifiers k)) && is_lower c else in_range 32 126 c)
  | _ => true
  end.

(** [Alt+\[] and [Alt+O] are also the openings of longer sequences. *)
Definition opens_sequence (k : KeyChord) : bool :=
  bool_decide (k = alt_chord (KeyChar 91)) || bool_decide (k = alt_chord (KeyChar 79)).

Lemma in_range_iff lo hi b : in_range lo hi b = true <-> lo <= b <= hi.
Proof. unfold in_range. rewrite andb_true_iff, !Z.leb_le. done. Qed.

Lemma csi_final_bounds rest : forall index i,
  csi_final index rest = Some i -> (index <= i < index + length rest)%nat.
Proof.
  induction rest as [|b rest IH]; intros index i; [done|]. cbn [csi_final length].
  destruct (in_range 64 126 b); [intros [= ->]; lia|]. intros ?%IH. lia.
Qed.

(** The decoder yields typed chords only, and consumes bytes it has. *)
Lemma parse_csi_typed input k n : parse_csi_key_chord_bytes input = Some (k, n) ->
  decodable_chord k = true /\ (0 < n <= length input)%nat.
Proof.
  unfold parse_csi_key_chord_bytes. destruct (starts_with_bytes input (esc "[")); [|done].
  intros (i & Hi & (b & Hb & (params & _ & ([c m] & Hc & [= <- <-])%bind_Some)%bind_Some)%bind_Some)%bind_Some.
  apply csi_final_bounds in Hi. rewrite length_drop in Hi. split; [|apply lookup_lt_Some in Hb; lia].
  unfold decodable_chord; cbn [code].
  assert (forall c', c <> KeyChar c') by
    (unfold arrow_key_code, home_end_key_code in Hc; repeat (case_match; simplify_option_eq; try done)).
  destruct c; try done. by destruct (H c).
Qed.

Lemma parse_ss3_typed input k n : parse_ss3_key_chord_bytes input = Some (k, n) ->
  decodable_chord k = true /\ (0 < n <= length input)%nat.
Proof.
  unfold parse_ss3_key_chord_bytes. destruct (Nat.ltb_spec (length input) 3); [done|].
  destruct (starts_with_bytes input (esc "O")); [|done]. cbn [orb negb].
  intros (b & _ & (c & Hc & [= <- <-])%bind_Some)%bind_Some. split; [|lia].
  unfold decodable_chord; cbn [code new_chord chord_of].
  destruct c; try done. unfold arrow_key_code, home_end_key_code in Hc.
  repeat (case_match; simplify_eq).
Qed.

Lemma parse_typed input k n : parse_key_chord_bytes input = Some (k, n) ->
  decodable_chord k = true /\ (0 < n <= length input)%nat.
Proof.
  destruct input as [|first rest]; [done|]. unfold parse_key_chord_bytes.
  destruct (in_range 1 26 first) eqn:Hc.
  { intros [= <- <-]. apply in_range_iff in Hc. split; [|cbn; lia]. cbn. apply in_range_iff. lia. }
  destruct (first =? 27).
  2:{ destruct (in_range 32 126 first) eqn:Hp; [|done]. intros [= <- <-]. split; [done|cbn; lia]. }
  unfold parse_escape_key_chord_bytes.
  destruct (parse_csi_key_chord_bytes (first :: rest)) as [[]|] eqn:Hcsi.
  { intros [= <- <-]. by eapply parse_csi_typed. }
  destruct (parse_ss3_key_chord_bytes (first :: rest)) as [[]|] eqn:Hss.
  { intros [= <- <-]. by eapply parse_ss3_typed. }
  intros (b & Hb & H)%bind_Some. destruct (in_range 33 126 b || (b =? 32)) eqn:Hr; [|done].
  injection H as [= <- <-]. split; [|apply lookup_lt_Some in Hb; cbn in *; lia].
  apply orb_true_iff in Hr. apply in_range_iff. rewrite in_range_iff, Z.eqb_eq in Hr. lia.
Qed.

(** The bytes of a typed chord decode to it, whatever follows. *)
Lemma special_decodes c m rest : (forall ch, c <> KeyChar ch) ->
  exists l, key_chord_input_bytes {| code := c; modifiers := m |} = Some l
    /\ parse_key_chord_bytes (l ++ rest) = Some ({| code := c; modifiers := m |}, length l).
Proof.
  intros Hc. destruct m as [[] [] []], c as [ch| | | | | | | |]; try by destruct (Hc ch).
  all: eexists; split; [vm_compute; reflexivity|]; vm_compute; reflexivity.
Qed.

Lemma char_decodes c m rest : decodable_chord {| code := KeyChar c; modifiers := m |} = true ->
  opens_sequence {| code := KeyChar c; modifiers := m |} = false \/ rest = [] ->
  exists l, key_chord_input_bytes {| code := KeyChar c; modifiers := m |} = Some l
    /\ parse_key_chord_bytes (l ++ rest) = Some ({| code := KeyChar c; modifiers := m |}, length l).
Proof.
  destruct m as [ct al sh]. unfold decodable_chord; cbn [code modifiers ctrl alt shift].
  intros [Hs Hc]%andb_true_iff Hopen. destruct sh; [done|]. destruct ct.
  - apply andb_true_iff in Hc as [Ha Hc]. destruct al; [done|]. pose proof Hc as Hr.
    apply in_range_iff in Hr. exists [c - 97 + 1]. unfold key_chord_input_bytes; cbn [code modifiers ctrl alt shift andb negb].
    unfold lower_ascii, is_upper. rewrite in_range_false by lia. rewrite Hc. split; [done|].
    cbn [app parse_key_chord_bytes]. rewrite in_range_true by lia. unfold ctrl_chord, chord_of. repeat f_equal. lia.
  - apply in_range_iff in Hc. exists ((if al then [27] else []) ++ [c]).
    unfold key_chord_input_bytes; cbn [code modifiers ctrl alt shift andb negb]. unfold is_ascii_char.
    rewrite (proj2 (Z.ltb_lt c 128)) by lia. split; [done|]. destruct al; cbn [app length parse_key_chord_bytes].
    2:{ rewrite in_range_false, (proj2 (Z.eqb_neq c 27)), in_range_true by lia. done. }
    cbn [in_range Z.leb Z.eqb Z.compare Pos.compare Pos.compare_cont andb Pos.eqb].
    unfold parse_escape_key_chord_bytes, parse_csi_key_chord_bytes, parse_ss3_key_chord_bytes.
    unfold starts_with_bytes. 
    assert (Hlast : (if in_range 33 126 c || (c =? 32) then Some (alt_chord (KeyChar c), 2%nat) else None) = Some (alt_chord (KeyChar c), 2%nat)).
    { destruct (Z.eqb_spec c 32); [by rewrite orb_true_r|]. by rewrite in_range_true by lia. }
    destruct Hopen as [Ho| ->].
    + unfold opens_sequence in Ho. apply orb_false_iff in Ho as [H1 H2]. 
      apply bool_decide_eq_false in H1, H2.
      rewrite !bool_decide_eq_false_2. 2,3: intros [= ->]; naive_solver.
      cbn [negb]. rewrite orb_true_r. exact Hlast.
    + destruct (negb (bool_decide (take _ _ = esc "["))); exact Hlast.
Qed.

Lemma typed_decodes k rest : decodable_chord k = true -> opens_sequence k = false \/ rest = [] ->
  exists l, key_chord_input_bytes k = Some l
    /\ parse_key_chord_bytes (l ++ rest) = Some (k, length l).
Proof.
  destruct k as [[c| | | | | | | |] m]; intros Hk Hrest;
    [by apply char_decodes|by apply special_decodes..].
Qed.

(** ** Bindings as a table *)

Definition binding_for (b : KeyBindings) (a : ConfigurableKeyAction) : option KeyChord :=
  match a with
  | CfgSplitVertical => split_vertical b | CfgSplitHorizontal => split_horizontal b
  | CfgNewWindow => new_window b | CfgNewGroup => new_group b | CfgAgentShell => agent_shell b
  | CfgFocusUp => focus_up b | CfgFocusDown => focus_down b | CfgFocusLeft => focus_left b
  | CfgFocusRight => focus_right b | CfgFocusPreviousWindow => focus_previous_window b
  | CfgFocusNextWindow => focus_next_window b | CfgFocusPreviousGroup => focus_previous_group b
  | CfgFocusNextGroup => focus_next_group b
  end.

Definition mux_action (a : ConfigurableKeyAction) : MuxAction :=
  match a with
  | CfgSplitVertical => SplitPaneVertical | CfgSplitHorizontal => SplitPaneHorizontal
  | CfgNewWindow => NewWindow | CfgNewGroup => NewGroup | CfgAgentShell => ToggleAgentShell
  | CfgFocusUp => FocusPane PaneUp | CfgFocusDown => FocusPane PaneDown
  | CfgFocusLeft => FocusPane PaneLeft | CfgFocusRight => FocusPane PaneRight
  | CfgFocusPreviousWindow => FocusWindow WindowPrevious
  | CfgFocusNextWindow => FocusWindow WindowNext
  | CfgFocusPreviousGroup => FocusGroup GroupPrevious
  | CfgFocusNextGroup => FocusGroup GroupNext
  end.

(** What a preset declares for an action: the outer option is the presence of
    the declaration, the inner one a binding or its removal. *)
Definition declaration_for (d : KeyPresetDefinition) (a : ConfigurableKeyAction)
    : option (option KeyChord) :=
  match a with
  | CfgSplitVertical => preset_split_vertical d | CfgSplitHorizontal => preset_split_horizontal d
  | CfgNewWindow => preset_new_window d | CfgNewGroup => preset_new_group d
  | CfgAgentShell => preset_agent_shell d | CfgFocusUp => preset_focus_up d
  | CfgFocusDown => preset_focus_down d | CfgFocusLeft => preset_focus_left d
  | CfgFocusRight => preset_focus_right d
  | CfgFocusPreviousWindow => preset_focus_previous_window d
  | CfgFocusNextWindow => preset_focus_next_window d
  | CfgFocusPreviousGroup => preset_focus_previous_group d
  | CfgFocusNextGroup => preset_focus_next_group d
  end.

Lemma configurable_of_mux a : configurable_key_action_for_mux (mux_action a) = Some a.
Proof. by destruct a. Qed.
Lemma mux_of_configurable m a : configurable_key_action_for_mux m = Some a -> m = mux_action a.
Proof. destruct m as [| | | | | | | | |[]|[]| | |[]| | | | | | | | | | | | | | | | | ]; by intros [= <-]. Qed.
Lemma all_actions a : a ∈ ALL.
Proof. destruct a; set_solver. Qed.

(** The chain of comparisons finds the first action bound to the chord. *)
Lemma direct_binding_table k b :
  classify_direct_binding k b
  = (fun e => mux_action e.2) <$> list_find (fun a => binding_for b a = Some k) ALL.
Proof.
  unfold classify_direct_binding, ALL. cbn [list_find].
  repeat (case_bool_decide;
    [rewrite decide_True by done; done|rewrite decide_False by done; cbn [list_find]]).
  done.
Qed.

Lemma insert_action_elem a a' l : a ∈ insert_action a' l <-> a = a' \/ a ∈ l.
Proof. unfold insert_action. case_bool_decide; set_solver. Qed.

Lemma replace_declared_elem a l : forall r,
  a ∈ replace_declared l r <-> a ∈ r \/ exists v, (Some v, a) ∈ l.
Proof.
  unfold replace_declared. induction l as [|[[v|] a'] l IH]; intros r; cbn [foldl fst snd]; [set_solver|..].
  - rewrite IH, insert_action_elem. set_solver.
  - rewrite IH. set_solver.
Qed.

Lemma declarations_spec d v a : (v, a) ∈ declarations d <-> v = declaration_for d a.
Proof.
  unfold declarations. split.
  - rewrite !elem_of_cons. intros H. repeat (destruct H as [[= -> ->]|H]; [done|]). set_solver.
  - intros ->. destruct a; set_solver.
Qed.

Lemma replaced_spec d b a :
  a ∈ replaced_default_prefix_actions (materialize d b)
  <-> is_Some (declaration_for d a) \/ a ∈ replaced_default_prefix_actions b.
Proof.
  cbn [materialize replaced_default_prefix_actions]. rewrite replace_declared_elem.
  setoid_rewrite declarations_spec. unfold is_Some. naive_solver.
Qed.

Lemma materialize_binding d b a :
  binding_for (materialize d b) a = apply_optional (binding_for b a) (declaration_for d a).
Proof. by destruct a. Qed.

(** A replaced action has no default prefix key left. *)
Lemma replaced_not_default k b a : a ∈ replaced_default_prefix_actions b ->
  classify_prefix_binding k b <> Some (mux_action a).
Proof.
  intros Ha. unfold classify_prefix_binding, classify_default_prefix_binding.
  case_bool_decide; [by destruct a|]. case_bool_decide; [by destruct a|].
  case_bool_decide; [|done]. cbn [negb]. destruct (prefix_action (code k)) as [m|]; [|done]. cbn [mbind option_bind].
  destruct (configurable_key_action_for_mux m) as [a'|] eqn:E.
  - unfold default_prefix_action_is_replaced. case_bool_decide; [done|]. intros [= ->].
    by rewrite configurable_of_mux in E; injection E as [= <-].
  - intros [= ->]. by rewrite configurable_of_mux in E.
Qed.

(** The bytes of a typed chord are not a mouse packet. *)
Lemma chord_not_mouse k l : decodable_chord k = true -> key_chord_input_bytes k = Some l ->
  starts_with_bytes l (esc "[<") = false.
Proof.
  destruct k as [[c| | | | | | | |] [[] [] []]]; try (intros _ [= <-]; vm_compute; reflexivity).
  all: unfold decodable_chord, key_chord_input_bytes; cbn [code modifiers ctrl alt shift andb negb]; try done.
  all: intros _ Hl; repeat case_match; try done; injection Hl as [= <-];
    apply bool_decide_eq_false; intros Heq; apply (f_equal length) in Heq; cbn in Heq; lia.
Qed.

Lemma typed_classification k l b commands :
  decodable_chord k = true -> key_chord_input_bytes k = Some l -> k <> escape b ->
  classify_terminal_input_with_command_bindings l b commands
  = mux_or ForwardToPane (classify_direct_binding k b).
Proof.
  intros Hk Hl Hesc. unfold classify_terminal_input_with_command_bindings.
  rewrite (chord_not_mouse k l Hk Hl).
  destruct (typed_decodes k [] Hk (or_intror eq_refl)) as (l' & Hl' & Hp).
  rewrite app_nil_r in Hp. rewrite Hl in Hl'. injection Hl' as [= <-].
  by rewrite Hp, bool_decide_eq_false_2, Nat.eqb_refl by done.
Qed.

Lemma decodable_iff k :
  decodable_chord k = true <-> is_Some (key_chord_input_bytes k) /\ ambiguous_chord k = false.
Proof.
  destruct k as [c [ct al sh]]. unfold decodable_chord, key_chord_input_bytes, ambiguous_chord.
  cbn [code modifiers ctrl alt shift]. destruct c as [c| | | | | | | |].
  2-9: split; [intros _; split; [|done]|done]; case_bool_decide; by eexists.
  unfold is_lower, lower_ascii, is_ascii_char, is_upper.
  destruct sh, ct; cbn [negb andb]; try by (split; [|intros [[? ?] _]]).
  - destruct al; cbn [orb negb andb]; [by split; [|intros [_ ?]]|].
    destruct (in_range 65 90 c) eqn:Eu; [rewrite in_range_iff in Eu|].
    + split; [rewrite in_range_iff; lia|by intros [_ ?]].
    + destruct (in_range 97 122 c); cbn [negb]; [|by split; [|intros [[? ?] _]]].
      split; [by split; [eexists|]|done].
  - rewrite negb_false_iff. split; [|by intros [_ ?]]. intros H. split; [|done].
    rewrite in_range_iff in H. destruct (Z.ltb_spec c 128); [by eexists|lia].
Qed.

(** C20. The decoder yields, from whatever input, exactly the chords for which
    the encoder has bytes and that are not ambiguous ([ambiguous_chord]:
    Control+Alt with a letter, Control with an upper-case letter, control
    characters and DEL as characters); it never consumes more than it is given;
    and it gives back every such chord from the encoder's bytes, whatever input
    follows, except that Alt+[ and Alt+O, which open longer sequences, have to
    end the input. *)
Theorem chord_bytes_roundtrip k :
  ((exists input n, parse_key_chord_bytes input = Some (k, n))
   <-> is_Some (key_chord_input_bytes k) /\ ambiguous_chord k = false)
  /\ (forall input n, parse_key_chord_bytes input = Some (k, n) -> (0 < n <= length input)%nat)
  /\ (forall l rest, key_chord_input_bytes k = Some l -> ambiguous_chord k = false ->
      opens_sequence k = false \/ rest = [] -> parse_key_chord_bytes (l ++ rest) = Some (k, length l)).
Proof.
  split_and!; [rewrite <- decodable_iff; split|by intros input n [_ ?]%parse_typed|].
  - by intros (input & n & [? _]%parse_typed).
  - intros Hk. destruct (typed_decodes k [] Hk (or_intror eq_refl)) as (l & _ & Hl). by eexists _, _.
  - intros l rest Hl Ha Ho. assert (decodable_chord k = true) as Hk by (apply decodable_iff; eauto).
    destruct (typed_decodes k rest Hk Ho) as (l' & Hl' & Hp). rewrite Hl in Hl'. by injection Hl' as <-.
Qed.

(** A chord a preset declares for an action fires it when typed, unless
    the chord is the prefix or bound to another action as well, and no prefix
    key fires the action any more. *)
Theorem preset_bindings_take_effect d b a k commands
    (Ha : declaration_for d a = Some (Some k)) (Hk : decodable_chord k = true)
    (Hesc : k <> escape (materialize d b))
    (Honly : forall a', binding_for (materialize d b) a' = Some k -> a' = a) :
  (exists l, key_chord_input_bytes k = Some l
    /\ classify_terminal_input_with_command_bindings l (materialize d b) commands
       = Mux (mux_action a))
  /\ forall k', classify_prefix_binding k' (materialize d b) <> Some (mux_action a).
Proof.
  split.
  - destruct (typed_decodes k [] Hk (or_intror eq_refl)) as (l & Hl & _).
    exists l. split; [done|]. rewrite (typed_classification k l _ _ Hk Hl Hesc), direct_binding_table.
    destruct (list_find _ ALL) as [[i a']|] eqn:E.
    + apply list_find_Some in E as (_ & H & _). by rewrite (Honly a' H).
    + apply list_find_None, Forall_forall with (x := a) in E; [|apply all_actions].
      by rewrite materialize_binding, Ha in E.
  - intros k'. apply replaced_not_default, replaced_spec. left. by rewrite Ha.
Qed.

(** With the simple preset, Ctrl+Alt+Up moves to the pane above and the arrow
    after the prefix no longer does. *)
Lemma preset_bindings_take_effect_witness :
  (exists l, key_chord_input_bytes (ctrl_alt_chord KeyUp) = Some l
    /\ classify_terminal_input_with_command_bindings l
         (materialize simple_key_preset_definition default_bindings) []
       = Mux (FocusPane PaneUp))
  /\ forall k', classify_prefix_binding k'
                  (materialize simple_key_preset_definition default_bindings)
                <> Some (FocusPane PaneUp).
Proof.
  apply (preset_bindings_take_effect simple_key_preset_definition default_bindings CfgFocusUp
           (ctrl_alt_chord KeyUp) []); [done|done|done|]. by intros [] [=].
Defined.

(** Every action of the simple preset can be typed. *)
Lemma simple_preset_reachable :
  forall a, exists l, classify_terminal_input l (materialize simple_key_preset_definition default_bindings)
                      = Mux (mux_action a).
Proof.
  intros a. assert (exists k l, binding_for (materialize simple_key_preset_definition default_bindings) a
    = Some k /\ key_chord_input_bytes k = Some l /\ classify_terminal_input l
      (materialize simple_key_preset_definition default_bindings) = Mux (mux_action a)) as (? & l & _ & _ & H);
    [|by exists l]. destruct a; eexists _, _; (split; [reflexivity|]); (split; [reflexivity|]); vm_compute; reflexivity.
Qed.

(** A binding on Control, Alt and a letter is accepted and encoded, but no
    input decodes to it: what the encoder sends goes to the pane. *)
Lemma ctrl_alt_letter_never_fires :
  parse_key_chord_notation (chars "C-A-x") = Ok (ctrl_alt_chord (KeyChar 120))
  /\ key_chord_input_bytes (ctrl_alt_chord (KeyChar 120)) = Some [27; 24]
  /\ (forall input n, parse_key_chord_bytes input <> Some (ctrl_alt_chord (KeyChar 120), n))
  /\ forall b, classify_terminal_input [27; 24] b = ForwardToPane.
Proof. split_and!; [vm_compute; reflexivity..| |done]. by intros input n [? _]%parse_typed. Qed.

(** ** The notation of a chord *)

(** The chords whose listed notation the parser reads back: no blank
    character, Control with the letter in lower case, and [+] instead of
    Shift with [=]. *)
Definition plain_notation (k : KeyChord) : bool :=
  match code k with
  | KeyChar c =>
      negb (is_whitespace c) && negb (ctrl (modifiers k) && is_upper c)
      && negb (shift (modifiers k) && negb (ctrl (modifiers k)) && (c =? 61))
  | _ => true
  end.

Lemma strip_one c m : strip_modifier_prefix [c] m = Ok None.
Proof.
  unfold strip_modifier_prefix, modifier_prefixes. cbn [strip_modifier_from].
  assert (Hs : forall p, (2 <= length p)%nat -> strip_text p [c] = None)
    by (intros [|a [|b p]] Hp; [cbn in Hp; lia..|]; cbn; by destruct (a =? c)).
  by rewrite !Hs by (cbn; lia).
Qed.

Lemma strip_last n c m : strip_modifiers (S n) [c] m = Ok ([c], m).
Proof. cbn [strip_modifiers]. by rewrite strip_one. Qed.

Lemma strip_notation c m :
  strip_modifiers 5 (key_chord_notation {| code := KeyChar c; modifiers := m |}) no_modifiers
  = Ok ([c], m).
Proof.
  rewrite <- (strip_last (4 - (Nat.b2n (ctrl m) + Nat.b2n (alt m) + Nat.b2n (shift m))) c m).
  by destruct m as [[] [] []].
Qed.

Lemma trim_left_id s : from_option is_whitespace false (head s) = false -> trim_left s = s.
Proof. destruct s as [|c s]; [done|]. cbn. by intros ->. Qed.
Lemma trim_text_id s :
  from_option is_whitespace false (head s) = false ->
  from_option is_whitespace false (last s) = false -> trim_text s = s.
Proof.
  intros Hh Hl. unfold trim_text. rewrite (trim_left_id s Hh), trim_left_id.
  - apply reverse_involutive.
  - by rewrite <- last_reverse, reverse_involutive.
Qed.

Lemma trim_notation k : plain_notation k = true ->
  trim_text (key_chord_notation k) = key_chord_notation k.
Proof.
  intros Hk. assert (Hc : forall c, code k = KeyChar c -> is_whitespace c = false).
  { unfold plain_notation in Hk. intros c Hc. rewrite Hc in Hk.
    apply andb_true_iff in Hk as [[Hk _]%andb_true_iff _]. by apply negb_true_iff. }
  apply trim_text_id; destruct k as [[c| | | | | | | |] [[] [] []]]; try (vm_compute; reflexivity).
  all: exact (Hc c eq_refl).
Qed.

(** The notation listed for a chord reads back as the chord. *)
Theorem notation_roundtrip k (Hk : plain_notation k = true) :
  parse_key_chord_notation (key_chord_notation k) = Ok k.
Proof.
  unfold parse_key_chord_notation. rewrite (trim_notation k Hk).
  destruct k as [[c| | | | | | | |] m]; [|by destruct m as [[] [] []]..].
  unfold plain_notation in Hk; cbn [code modifiers] in Hk.
  apply andb_true_iff in Hk as [[_ Hu]%andb_true_iff He].
  rewrite bool_decide_eq_false_2, strip_notation by (by destruct m as [[] [] []]). cbn [mbind outcome_bind].
  rewrite bool_decide_eq_false_2 by done. unfold parse_key_code_notation.
  rewrite (proj2 (list_find_None _ _)) by (repeat constructor; by intros [=]).
  cbn [fmap option_fmap option_map mbind outcome_bind]. apply negb_true_iff in Hu, He. rewrite Hu.
  case_bool_decide as Hc; [injection Hc as [= ->]; by destruct (shift m), (ctrl m)|by rewrite andb_false_r].
Qed.

Lemma notation_roundtrip_witness :
  parse_key_chord_notation (key_chord_notation (chord_of KeyPageDown true true true))
  = Ok (chord_of KeyPageDown true true true).
Proof. apply notation_roundtrip. reflexivity. Defined.

(** The loop over the modifiers ends: each turn sets a flag that was clear. *)
Definition clear_flags (m : KeyModifiers) : nat :=
  Nat.b2n (negb (ctrl m)) + Nat.b2n (negb (alt m)) + Nat.b2n (negb (shift m)).

Lemma strip_modifier_sets prefixes rest m :
  match strip_modifier_from prefixes rest m with
  | Ok (Some (_, m')) => (clear_flags m' < clear_flags m)%nat
  | Panic => False
  | _ => True
  end.
Proof.
  induction prefixes as [|[p t] prefixes IH]; [done|]. cbn [strip_modifier_from].
  destruct (strip_text p rest); [|exact IH].
  destruct t, m as [[] [] []]; cbn; try done; cbv; lia.
Qed.

Lemma notation_loop_ends fuel : forall rest m, (clear_flags m < fuel)%nat ->
  strip_modifiers fuel rest m <> Panic.
Proof.
  induction fuel as [|fuel IH]; intros rest m Hm; [lia|]. cbn [strip_modifiers]. unfold strip_modifier_prefix.
  pose proof (strip_modifier_sets modifier_prefixes rest m) as H.
  destruct (strip_modifier_from modifier_prefixes rest m) as [[[r m']|]|e|]; try done.
  cbn. apply IH. lia.
Qed.

Lemma notation_never_panics s : parse_key_chord_notation s <> Panic.
Proof.
  unfold parse_key_chord_notation. case_bool_decide; [done|].
  pose proof (notation_loop_ends 5 (trim_text s) no_modifiers ltac:(cbv; lia)) as Hloop.
  destruct (strip_modifiers 5 (trim_text s) no_modifiers) as [[rest m]|e|]; [|done..].
  cbn [mbind outcome_bind]. case_bool_decide; [done|]. unfold parse_key_code_notation.
  destruct (list_find _ key_names) as [[i [n c]]|]; [done|]. by destruct rest as [|c [|d rest]].
Qed.
