(* ===== verification/TermText.v ===== *)
(** * Terminal text, styles and provenance

    What terminal screens, their scrollback and copy mode share: the display
    widths of characters and grapheme clusters (mez-terminal/src/width.rs),
    graphic renditions and styled lines (mez-terminal/src/style.rs), the
    provenance of presented rows (mez-core/src/presentation.rs), timestamp
    formats and frames of log rows (mez-core/src/presentation/), and copy
    sources (mez-terminal/src/style/copy_source.rs). *)

From S2P Require Import Prelude Utf8Text.
#[local] Open Scope nat_scope.

(** ** Widths of terminal text (mez-terminal/src/width.rs) *)

Inductive TerminalEmojiWidth := Wide | Narrow.
#[global] Instance TerminalEmojiWidth_eq_dec : EqDecision TerminalEmojiWidth.
Proof. solve_decision. Defined.

(** The grapheme clusters of a text (unicode-segmentation) and the emoji
    policy of the process. *)
Class TerminalText := {
  terminal_graphemes : text -> list text;
  terminal_emoji_width : TerminalEmojiWidth;
}.

Section Widths.
Context {UT : UnicodeTables} {TT : TerminalText}.

Definition terminal_scalar_is_text_fallback_status_symbol (c : rchar) : bool :=
  bool_decide (c ∈ [0x203C; 0x2049; 0x2139; 0x24C2; 0x24D8; 0x3030; 0x303D]%Z)
  || existsb (fun r => in_range r.1 r.2 c)
       [(0x2194, 0x21AA); (0x231A, 0x23FF); (0x25AA, 0x25FE); (0x2600, 0x27BF);
        (0x2934, 0x2935); (0x2B00, 0x2BFF); (0x3297, 0x3299)]%Z.

Definition terminal_scalar_has_text_fallback_width (c : rchar) : bool :=
  if (c <? 128)%Z || negb (terminal_scalar_is_text_fallback_status_symbol c) then false
  else str_width [c; 0xFE0E%Z] =? 1.

Definition terminal_char_width (c : rchar) (emoji_width : TerminalEmojiWidth) : nat :=
  if bool_decide (emoji_width = Narrow) && terminal_scalar_has_text_fallback_width c then 1
  else default 0 (char_width c).

Definition narrow_text_fallback_grapheme_width (grapheme : text) : option nat :=
  match grapheme with
  | [base; variation] =>
      if ((variation =? 0xFE0E) || (variation =? 0xFE0F))%Z
      then Some (terminal_char_width base Narrow) else None
  | _ => None
  end.

Definition terminal_grapheme_width (grapheme : text) (emoji_width : TerminalEmojiWidth) : nat :=
  match (if bool_decide (emoji_width = Narrow)
         then narrow_text_fallback_grapheme_width grapheme else None) with
  | Some width => width
  | None =>
      match grapheme with
      | [c] => terminal_char_width c emoji_width
      | _ => Nat.min (str_width grapheme) 2
      end
  end.

(** [terminal_text_width] under an explicit policy. *)
Definition text_width_for (value : text) (emoji_width : TerminalEmojiWidth) : nat :=
  sum_list ((fun g => terminal_grapheme_width g emoji_width) <$> terminal_graphemes value).

(** The width of a cluster and of a text under the policy of the process. *)
Definition grapheme_width (g : text) : nat := terminal_grapheme_width g terminal_emoji_width.
Definition terminal_text_width (value : text) : nat :=
  sum_list (grapheme_width <$> terminal_graphemes value).

End Widths.

(** ** Styles (mez-terminal/src/style.rs) *)

Inductive TerminalColor := Indexed (n : Z) | Rgb (r g b : Z).
#[global] Instance TerminalColor_eq_dec : EqDecision TerminalColor.
Proof. solve_decision. Defined.

Record GraphicRendition := {
  bold : bool; dim : bool; italic : bool; underline : bool; double_underline : bool;
  strikethrough : bool; inverse : bool; hidden : bool;
  foreground : option TerminalColor; background : option TerminalColor }.
#[global] Instance GraphicRendition_eq_dec : EqDecision GraphicRendition.
Proof. solve_decision. Defined.
Definition default_rendition : GraphicRendition :=
  {| bold := false; dim := false; italic := false; underline := false; double_underline := false;
     strikethrough := false; inverse := false; hidden := false;
     foreground := None; background := None |}.

(** ** Provenance of presented rows (mez-core/src/presentation.rs) *)

(** [char::is_control]. *)
Definition is_control_char (c : rchar) : bool := in_range 0 31 c || in_range 127 159 c.

Inductive PresentationOccurrenceBasis := Unknown | LegacyRecord | LocalObservation | LocalAcceptance.
#[global] Instance PresentationOccurrenceBasis_eq_dec : EqDecision PresentationOccurrenceBasis.
Proof. solve_decision. Defined.
Record PresentationOccurrence := {
  unix_millis : option Z; basis : PresentationOccurrenceBasis }.
#[global] Instance PresentationOccurrence_eq_dec : EqDecision PresentationOccurrence.
Proof. solve_decision. Defined.

Definition new_occurrence (millis : option Z) (b : PresentationOccurrenceBasis)
    : PresentationOccurrence :=
  {| unix_millis := if bool_decide (b = Unknown) then None else millis;
     basis := if bool_decide (is_Some millis) then b else Unknown |}.
Definition legacy_record (seconds : Z) : PresentationOccurrence :=
  new_occurrence
    (let millis := (seconds * 1000)%Z in
     if (millis <=? 9223372036854775807)%Z then Some millis else None)
    LegacyRecord.
Definition occurrence_is_valid (o : PresentationOccurrence) : bool :=
  negb (Bool.eqb (bool_decide (is_Some (unix_millis o))) (bool_decide (basis o = Unknown))).

Record PresentationEntry := {
  entry_id : text; occurrence : PresentationOccurrence; first_row : bool }.
#[global] Instance PresentationEntry_eq_dec : EqDecision PresentationEntry.
Proof. solve_decision. Defined.
Definition entry_is_valid (e : PresentationEntry) : bool :=
  negb (bool_decide (entry_id e = [])) && (blen (entry_id e) <=? 1024)%Z
  && negb (existsb is_control_char (entry_id e)) && occurrence_is_valid (occurrence e).

(** ** Timestamp formats (mez-core/src/presentation/log_timestamp_format.rs) *)

Inductive LogTimestampToken := Literal (b : byte) | Hour | Minute | Second.
#[global] Instance LogTimestampToken_eq_dec : EqDecision LogTimestampToken.
Proof. solve_decision. Defined.
Record LogTimestampFormat := { tokens : list LogTimestampToken; format_width : nat }.
#[global] Instance LogTimestampFormat_eq_dec : EqDecision LogTimestampFormat.
Proof. solve_decision. Defined.
Definition default_format : LogTimestampFormat :=
  {| tokens := [Hour; Literal 58; Minute; Literal 58; Second]; format_width := 8 |}.

Definition token_cells (t : LogTimestampToken) : nat := match t with Literal _ => 1 | _ => 2 end.
(** The directive after a percent sign. *)
Definition directive (b : option byte) : option LogTimestampToken :=
  match b with
  | Some 72%Z => Some Hour
  | Some 77%Z => Some Minute
  | Some 83%Z => Some Second
  | Some 37%Z => Some (Literal 37)
  | _ => None
  end.
(** The loop of [compile] over the bytes, with the cells so far. *)
Fixpoint compile_tokens (l : bytes) (width : nat) : outcome string (list LogTimestampToken * nat) :=
  let push t (continue_ : nat -> outcome string (list LogTimestampToken * nat)) :=
    let width := width + token_cells t in
    if 32 <? width then Err "format must render at most 32 ASCII cells"
    else '(ts, w) ← continue_ width; Ok (t :: ts, w) in
  match l with
  | [] => Ok ([], width)
  | 37%Z :: l =>
      match l with
      | [] => Err "format permits only %H, %M, %S and %% directives"
      | d :: l =>
          match directive (Some d) with
          | Some t => push t (compile_tokens l)
          | None => Err "format permits only %H, %M, %S and %% directives"
          end
      end
  | b :: l =>
      if in_range 0x20 0x7e b then push (Literal b) (compile_tokens l)
      else Err "format literals must be printable ASCII without controls"
  end.
Definition compile (source : text) : outcome string LogTimestampFormat :=
  if bool_decide (source = []) || (64 <? blen source)%Z
  then Err "format must contain 1..32 cells and at most 64 ASCII source bytes"
  else '(ts, width) ← compile_tokens (encode source) 0; Ok {| tokens := ts; format_width := width |}.

(** A compiled format is as wide as its tokens, and at most 32 cells wide. *)
Lemma compile_tokens_width l width ts w : compile_tokens l width = Ok (ts, w) ->
  w = width + sum_list (token_cells <$> ts) /\ (width <= 32 -> w <= 32).
Proof.
  revert width ts w. induction l as [l IH] using (induction_ltof1 _ length). unfold ltof in IH. intros width ts w.
  assert (forall t (rest : bytes), length rest < length l ->
    (if 32 <? width + token_cells t then Err "format must render at most 32 ASCII cells"
     else '(ts, w) ← compile_tokens rest (width + token_cells t); Ok (t :: ts, w)) = Ok (ts, w) ->
    w = width + sum_list (token_cells <$> ts) /\ (width <= 32 -> w <= 32)) as G.
  { intros t rest Hl. destruct (Nat.ltb_spec 32 (width + token_cells t)); [done|].
    destruct (compile_tokens rest (width + token_cells t)) as [[ts' w']| |] eqn:E; [|done..]. intros [= <- <-].
    apply IH in E as [E1 E2]; [|done]. cbn. lia. }
  destruct l as [|b l]; cbn [compile_tokens]; [intros [= <- <-]; cbn; lia|].
  destruct (decide (b = 37%Z)) as [->|Hb].
  - destruct l as [|d l]; [done|]. destruct (directive (Some d)) as [t|]; [|done]. apply G. cbn. lia.
  - replace (match b with 37%Z => _ | _ => _ end) with
      (if in_range 0x20 0x7e b then
         if 32 <? width + token_cells (Literal b) then Err "format must render at most 32 ASCII cells"
         else '(ts, w) ← compile_tokens l (width + token_cells (Literal b)); Ok (Literal b :: ts, w)
       else Err "format literals must be printable ASCII without controls").
    + destruct (in_range _ _ b); [|done]. apply G. cbn. lia.
    + destruct b as [|b|b]; try done. by repeat (destruct b as [b|b|]; try done).
Qed.

(** ** Frames of structured log rows (mez-core/src/presentation/log_frame.rs) *)

Record LogFrame := {
  timestamp : option (nat * nat);
  separator : option (nat * nat);
  gutter : nat * nat;
  body_origin : nat;
  body_budget : nat;
  total_width : nat;
}.

Record LogFramePolicy := {
  timestamps : bool; wrap_cap : nat; timestamp_format : LogTimestampFormat }.
#[global] Instance LogFramePolicy_eq_dec : EqDecision LogFramePolicy.
Proof. solve_decision. Defined.
Definition default_policy : LogFramePolicy :=
  {| timestamps := false; wrap_cap := 0; timestamp_format := default_format |}.

Definition frame (p : LogFramePolicy) (pane_width : nat) : LogFrame :=
  let total_width := if wrap_cap p =? 0 then pane_width else Nat.min pane_width (wrap_cap p) in
  let width := format_width (timestamp_format p) in
  let margin := Nat.b2n (timestamps p && (width + 13 <=? total_width)) * (width + 1) in
  let body_origin := Nat.min (margin + 2) total_width in
  {| timestamp := if margin =? 0 then None else Some (0, width);
     separator := if margin =? 0 then None else Some (width, width + 1);
     gutter := (margin, body_origin);
     body_origin := body_origin;
     body_budget := total_width - body_origin;
     total_width := total_width |}.

Definition margin_width (f : LogFrame) : nat := from_option snd 0 (separator f).
Definition canonical_width (f : LogFrame) : nat := total_width f - margin_width f.

(** ** Copy sources (mez-terminal/src/style/copy_source.rs) *)

Inductive TerminalCopySourceGeneration := Sealed | Revision (n : Z).
Inductive TerminalCopySourceGroup := WholeEntry | SourceLine (n : Z) | RawBlock (n : Z).
Record TerminalCopySourceId := { owner : text; group : TerminalCopySourceGroup }.
Record TerminalCopySource := {
  id : TerminalCopySourceId;
  generation : TerminalCopySourceGeneration;
  source_text : text;
}.
#[global] Instance TerminalCopySourceGeneration_eq_dec : EqDecision TerminalCopySourceGeneration.
Proof. solve_decision. Defined.
#[global] Instance TerminalCopySourceGroup_eq_dec : EqDecision TerminalCopySourceGroup.
Proof. solve_decision. Defined.
#[global] Instance TerminalCopySourceId_eq_dec : EqDecision TerminalCopySourceId.
Proof. solve_decision. Defined.

Definition is_source_line (g : TerminalCopySourceGroup) : bool :=
  match g with SourceLine _ => true | _ => false end.

(** ** Styled lines *)

Record TerminalStyleSpan := {
  span_start : nat; span_length : nat; rendition : GraphicRendition }.
Record TerminalStyledLine := {
  styled_text : text;
  style_spans : list TerminalStyleSpan;
  copy_text : option text;
  line_source : option TerminalCopySource;
  presentation : option PresentationEntry;
}.
Definition plain (t : text) : TerminalStyledLine :=
  {| styled_text := t; style_spans := []; copy_text := None; line_source := None;
     presentation := None |}.
