(* ===== verification/History.v ===== *)
(** * Scrollback history (mez-terminal/src/history.rs)

    The bounded history of a terminal surface: rows in sealed chunks that
    clones of a screen share, a hidden prefix of the first chunk, and a mutable
    tail.  Chunks are values, as the code's copy-on-write makes them.  Counts
    of rows held in memory are [nat]; the configured limits are [usize]
    values.  [HistorySpec] is the plain list the chunks stand for. *)

From S2P Require Import Prelude Utf8Text TermText.
#[local] Open Scope nat_scope.

Definition DEFAULT_HISTORY_LIMIT : Z := 10000.
Definition DEFAULT_HISTORY_ROTATE_LINES : Z := 1000.
Definition HISTORY_CHUNK_RECORDS : nat := 128.

Record HistoryRecord := { record_line : TerminalStyledLine; record_wraps : bool }.

Record HistoryBuffer := {
  h_limit : Z;
  h_rotate_lines : Z;
  h_chunks : list (list HistoryRecord);
  h_front_offset : nat;
  h_tail : list HistoryRecord;
  h_len : nat;
}.

Definition empty_history (limit rotate : Z) : HistoryBuffer :=
  {| h_limit := limit; h_rotate_lines := rotate; h_chunks := []; h_front_offset := 0;
     h_tail := []; h_len := 0 |}.
Definition empty_with_same_policy (h : HistoryBuffer) : HistoryBuffer :=
  empty_history (h_limit h) (h_rotate_lines h).

(** [HistoryConfigError] is its message. *)
Definition limit_error : string := "history buffer limit must be greater than zero".
Definition rotation_error : string := "history buffer rotation line count must be greater than zero".

Definition new_with_rotation (limit rotate : Z) : outcome string HistoryBuffer :=
  if (limit =? 0)%Z then Err limit_error
  else if (rotate =? 0)%Z then Err rotation_error
  else Ok (empty_history limit rotate).
Definition new_history (limit : Z) : outcome string HistoryBuffer :=
  new_with_rotation limit DEFAULT_HISTORY_ROTATE_LINES.

(** The buffer with other rows. *)
Definition with_rows (chunks : list (list HistoryRecord)) (front : nat) (tail : list HistoryRecord)
    (len : nat) (h : HistoryBuffer) : HistoryBuffer :=
  {| h_limit := h_limit h; h_rotate_lines := h_rotate_lines h; h_chunks := chunks;
     h_front_offset := front; h_tail := tail; h_len := len |}.

(** ** Reading *)

(** The rows of chunks whose first hides [front] of its rows. *)
Definition chunk_records (chunks : list (list HistoryRecord)) (front : nat) : list HistoryRecord :=
  match chunks with
  | [] => []
  | c :: cs => drop front c ++ concat cs
  end.
Definition records (h : HistoryBuffer) : list HistoryRecord :=
  chunk_records (h_chunks h) (h_front_offset h) ++ h_tail h.
Definition record_at (h : HistoryBuffer) (i : nat) : option HistoryRecord := records h !! i.
Definition line_at (h : HistoryBuffer) (i : nat) : option text :=
  (fun r => styled_text (record_line r)) <$> record_at h i.
Definition history_line_wraps (h : HistoryBuffer) (i : nat) : bool :=
  from_option record_wraps false (record_at h i).
Definition history_lines (h : HistoryBuffer) : list text :=
  (fun r => styled_text (record_line r)) <$> records h.
Definition history_styled_lines (h : HistoryBuffer) : list TerminalStyledLine :=
  record_line <$> records h.

(** ** Eviction *)

(** The loop over the chunks: what is left of the chunks, the offset, the
    length and the count. *)
Fixpoint discard_chunks (remaining : nat) (chunks : list (list HistoryRecord)) (front len : nat)
    : list (list HistoryRecord) * nat * nat * nat :=
  match chunks with
  | [] => ([], front, len, remaining)
  | c :: cs =>
      if remaining =? 0 then (chunks, front, len, remaining)
      else
        let available := length c - front in
        if remaining <? available then (chunks, front + remaining, len - remaining, 0)
        else discard_chunks (remaining - available) cs 0 (len - available)
  end.

Definition discard_front_lines (count : nat) (h : HistoryBuffer) : HistoryBuffer :=
  let remaining := Nat.min count (h_len h) in
  if remaining =? 0 then h
  else
    let '(chunks, front, len, remaining) :=
      discard_chunks remaining (h_chunks h) (h_front_offset h) (h_len h) in
    let drained := Nat.min remaining (length (h_tail h)) in
    with_rows chunks front (drop drained (h_tail h)) (len - drained) h.

(** How many rows an overflow evicts. *)
Definition evict_count (limit rotate : Z) (len : nat) : nat :=
  let overflow := sat_sub (Z.of_nat len) limit in
  let rotation := Z.max 1 (Z.min rotate (sat_sub limit 1)) in
  Z.to_nat (Z.min (Z.max overflow rotation) (Z.of_nat len)).

(** [while self.len > self.limit { discard_front_lines(1) }], at most [fuel]
    times. *)
Fixpoint evict_singly (fuel : nat) (h : HistoryBuffer) : HistoryBuffer :=
  match fuel with
  | O => h
  | S fuel => if (h_limit h <? Z.of_nat (h_len h))%Z
              then evict_singly fuel (discard_front_lines 1 h) else h
  end.

Definition enforce_limit (h : HistoryBuffer) : HistoryBuffer :=
  let h := if (h_limit h <? Z.of_nat (h_len h))%Z
           then discard_front_lines (evict_count (h_limit h) (h_rotate_lines h) (h_len h)) h
           else h in
  evict_singly (h_len h) h.

(** ** Updates *)

Definition seal_full_tail (h : HistoryBuffer) : HistoryBuffer :=
  if length (h_tail h) <? HISTORY_CHUNK_RECORDS then h
  else with_rows (h_chunks h ++ [h_tail h]) (h_front_offset h) [] (h_len h) h.

Definition push_styled_line_with_wrap (line : TerminalStyledLine) (wraps : bool)
    (h : HistoryBuffer) : HistoryBuffer :=
  let h := seal_full_tail h in
  enforce_limit
    (with_rows (h_chunks h) (h_front_offset h)
       (h_tail h ++ [{| record_line := line; record_wraps := wraps |}]) (h_len h + 1) h).
Definition push_styled_line (line : TerminalStyledLine) (h : HistoryBuffer) : HistoryBuffer :=
  push_styled_line_with_wrap line false h.

(** [Vec::pop]. *)
Definition pop_last {A} (l : list A) : option (list A * A) :=
  match reverse l with [] => None | x :: l => Some (reverse l, x) end.

(** An empty tail is refilled with the newest chunk. *)
Definition refill_tail (h : HistoryBuffer) : option HistoryBuffer :=
  match h_tail h with
  | _ :: _ => Some h
  | [] =>
      '(chunks, chunk) ← pop_last (h_chunks h);
      let skipped := match chunks with [] => h_front_offset h | _ => 0 end in
      let front := match chunks with [] => 0 | _ => h_front_offset h end in
      Some (with_rows chunks front (drop skipped chunk) (h_len h) h)
  end.
Definition pop_styled_line (h : HistoryBuffer)
    : HistoryBuffer * option (TerminalStyledLine * bool) :=
  match refill_tail h with
  | None => (h, None)
  | Some h =>
      match pop_last (h_tail h) with
      | None => (h, None)
      | Some (tail, r) =>
          (with_rows (h_chunks h) (h_front_offset h) tail (h_len h - 1) h,
           Some (record_line r, record_wraps r))
      end
  end.

Definition set_limit (limit : Z) (h : HistoryBuffer) : HistoryBuffer * outcome string unit :=
  if (limit =? 0)%Z then (h, Err limit_error)
  else (enforce_limit
          {| h_limit := limit; h_rotate_lines := h_rotate_lines h; h_chunks := h_chunks h;
             h_front_offset := h_front_offset h; h_tail := h_tail h; h_len := h_len h |}, Ok tt).
Definition set_rotate_lines (rotate : Z) (h : HistoryBuffer)
    : HistoryBuffer * outcome string unit :=
  if (rotate =? 0)%Z then (h, Err rotation_error)
  else (enforce_limit
          {| h_limit := h_limit h; h_rotate_lines := rotate; h_chunks := h_chunks h;
             h_front_offset := h_front_offset h; h_tail := h_tail h; h_len := h_len h |}, Ok tt).

Definition clear_history (h : HistoryBuffer) : HistoryBuffer := with_rows [] 0 [] 0 h.

Definition update_record (f : TerminalStyledLine -> TerminalStyledLine) (r : HistoryRecord)
    : HistoryRecord :=
  {| record_line := f (record_line r); record_wraps := record_wraps r |}.

(** The loop of [update_styled_line] over the chunks, the first hiding [skipped]
    rows and starting at row [start]: the chunks with the row updated, or where
    the tail starts. *)
Fixpoint update_chunks (i : nat) (f : TerminalStyledLine -> TerminalStyledLine)
    (chunks : list (list HistoryRecord)) (skipped start : nat)
    : list (list HistoryRecord) + nat :=
  match chunks with
  | [] => inr start
  | c :: cs =>
      let available := length c - skipped in
      if i <? start + available then inl (alter (update_record f) (skipped + (i - start)) c :: cs)
      else match update_chunks i f cs 0 (start + available) with
           | inl cs => inl (c :: cs)
           | inr start => inr start
           end
  end.
Definition update_styled_line (i : nat) (f : TerminalStyledLine -> TerminalStyledLine)
    (h : HistoryBuffer) : HistoryBuffer :=
  if h_len h <=? i then h
  else match update_chunks i f (h_chunks h) (h_front_offset h) 0 with
       | inl chunks => with_rows chunks (h_front_offset h) (h_tail h) (h_len h) h
       | inr start =>
           with_rows (h_chunks h) (h_front_offset h)
             (alter (update_record f) (i - start) (h_tail h)) (h_len h) h
       end.

Definition with_copy_text (copy : option text) (l : TerminalStyledLine) : TerminalStyledLine :=
  {| styled_text := styled_text l; style_spans := style_spans l; copy_text := copy;
     line_source := line_source l; presentation := presentation l |}.
Definition set_copy_text (i : nat) (copy : option text) (h : HistoryBuffer) : HistoryBuffer :=
  update_styled_line i (with_copy_text copy) h.

(** ** The list the chunks stand for *)

Module HistorySpec.

Record History := { s_limit : Z; s_rotate : Z; s_rows : list HistoryRecord }.

(** Overflow removes the oldest rows: those beyond the limit, and at least one
    rotation batch that leaves a row when the limit is above one. *)
Definition trim (limit rotate : Z) (rows : list HistoryRecord) : list HistoryRecord :=
  if (Z.of_nat (length rows) <=? limit)%Z then rows
  else drop (Z.to_nat (Z.max (Z.of_nat (length rows) - limit) (Z.max 1 (Z.min rotate (limit - 1))))) rows.

Definition set_rows (rows : list HistoryRecord) (h : History) : History :=
  {| s_limit := s_limit h; s_rotate := s_rotate h; s_rows := rows |}.

End HistorySpec.

(** The calls a screen makes, and what they return. *)
Inductive history_call :=
| HPush (line : TerminalStyledLine) (wraps : bool)
| HPop
| HSetLimit (limit : Z)
| HSetRotate (rotate : Z)
| HClear
| HSetCopyText (i : nat) (copy : option text).

Inductive history_answer :=
| ADone
| APopped (row : option (TerminalStyledLine * bool))
| ASet (r : outcome string unit).

Definition history_step (c : history_call) (h : HistoryBuffer) : HistoryBuffer * history_answer :=
  match c with
  | HPush line wraps => (push_styled_line_with_wrap line wraps h, ADone)
  | HPop => let '(h, r) := pop_styled_line h in (h, APopped r)
  | HSetLimit limit => let '(h, r) := set_limit limit h in (h, ASet r)
  | HSetRotate rotate => let '(h, r) := set_rotate_lines rotate h in (h, ASet r)
  | HClear => (clear_history h, ADone)
  | HSetCopyText i copy => (set_copy_text i copy h, ADone)
  end.

Definition spec_step (c : history_call) (h : HistorySpec.History)
    : HistorySpec.History * history_answer :=
  let rows := HistorySpec.s_rows h in
  let limit := HistorySpec.s_limit h in
  let rotate := HistorySpec.s_rotate h in
  match c with
  | HPush line wraps =>
      (HistorySpec.set_rows
         (HistorySpec.trim limit rotate
            (rows ++ [{| record_line := line; record_wraps := wraps |}])) h, ADone)
  | HPop =>
      (HistorySpec.set_rows (take (length rows - 1) rows) h,
       APopped ((fun r => (record_line r, record_wraps r)) <$> last rows))
  | HSetLimit 0 => (h, ASet (Err limit_error))
  | HSetLimit limit =>
      ({| HistorySpec.s_limit := limit; HistorySpec.s_rotate := rotate;
          HistorySpec.s_rows := HistorySpec.trim limit rotate rows |}, ASet (Ok tt))
  | HSetRotate 0 => (h, ASet (Err rotation_error))
  | HSetRotate rotate =>
      ({| HistorySpec.s_limit := limit; HistorySpec.s_rotate := rotate;
          HistorySpec.s_rows := HistorySpec.trim limit rotate rows |}, ASet (Ok tt))
  | HClear => (HistorySpec.set_rows [] h, ADone)
  | HSetCopyText i copy =>
      (HistorySpec.set_rows (alter (update_record (with_copy_text copy)) i rows) h, ADone)
  end.

Fixpoint run_history {S} (step : history_call -> S -> S * history_answer) (cs : list history_call)
    (s : S) : S * list history_answer :=
  match cs with
  | [] => (s, [])
  | c :: cs => let '(s, a) := step c s in
               let '(s, l) := run_history step cs s in (s, a :: l)
  end.

(** ** The representation invariant *)

(** Every chunk holds a visible row, no chunk and no tail is longer than a
    chunk, and the length counts the visible rows. *)
Record rep_ok (h : HistoryBuffer) : Prop := {
  rep_front : match h_chunks h with [] => h_front_offset h = 0 | c :: _ => h_front_offset h < length c end;
  rep_chunks : Forall (fun c => 0 < length c <= HISTORY_CHUNK_RECORDS) (h_chunks h);
  rep_tail : length (h_tail h) <= HISTORY_CHUNK_RECORDS;
  rep_len : h_len h = length (records h);
}.
Record hist_ok (h : HistoryBuffer) : Prop := {
  hist_rep : rep_ok h;
  hist_limit : (0 < h_limit h)%Z;
  hist_rotate : (0 < h_rotate_lines h)%Z;
  hist_bound : (Z.of_nat (h_len h) <= h_limit h)%Z;
}.

(** The buffer and the list it stands for. *)
Definition abs (h : HistoryBuffer) : HistorySpec.History :=
  {| HistorySpec.s_limit := h_limit h; HistorySpec.s_rotate := h_rotate_lines h;
     HistorySpec.s_rows := records h |}.

Lemma chunk_records_length cs front :
  match cs with [] => True | c :: _ => front <= length c end ->
  length (chunk_records cs front) + front = length (concat cs) + match cs with [] => front | _ => 0 end.
Proof. destruct cs as [|c cs]; simpl; [done|]. rewrite !length_app, length_drop. lia. Qed.

Lemma discard_chunks_spec n cs front len cs' front' len' n' :
  match cs with [] => front = 0 | c :: _ => front < length c end ->
  Forall (fun c => 0 < length c <= HISTORY_CHUNK_RECORDS) cs ->
  length (chunk_records cs front) <= len ->
  discard_chunks n cs front len = (cs', front', len', n') ->
  chunk_records cs' front' = drop n (chunk_records cs front)
  /\ n' = n - length (chunk_records cs front)
  /\ len' = len - Nat.min n (length (chunk_records cs front))
  /\ match cs' with [] => front' = 0 | c :: _ => front' < length c end
  /\ Forall (fun c => 0 < length c <= HISTORY_CHUNK_RECORDS) cs'.
Proof.
  revert n front len. induction cs as [|c cs IH]; intros n front len Hf Hc Hlen; cbn [discard_chunks].
  - intros [= <- <- <- <-]. cbn. rewrite drop_nil. repeat split; (done || lia).
  - cbn [chunk_records] in *. rewrite length_app, length_drop in *.
    destruct (Nat.eqb_spec n 0) as [->|Hn].
    { intros [= <- <- <- <-]. cbn [chunk_records]. rewrite drop_0. repeat split; (done || lia). }
    destruct (Nat.ltb_spec n (length c - front)) as [Hlt|Hge].
    { intros [= <- <- <- <-]. cbn [chunk_records].
      rewrite drop_app_le by (rewrite length_drop; lia). rewrite drop_drop.
      repeat split; try done; lia. }
    intros Hd. apply Forall_cons in Hc as [Hc0 Hc].
    assert (chunk_records cs 0 = concat cs) as E by by destruct cs.
    apply IH in Hd as (H1 & H2 & H3 & H4 & H5); try done.
    + rewrite E in *. rewrite H1, H2, H3. repeat split; try done.
      * rewrite drop_app_ge by (rewrite length_drop; lia). by rewrite length_drop.
      * lia.
      * lia.
    + destruct cs as [|d cs]; [done|]. apply Forall_cons in Hc as [? _]. lia.
    + rewrite E. lia.
Qed.

Lemma discard_front_spec n h : rep_ok h ->
  rep_ok (discard_front_lines n h) /\ records (discard_front_lines n h) = drop n (records h)
  /\ h_limit (discard_front_lines n h) = h_limit h
  /\ h_rotate_lines (discard_front_lines n h) = h_rotate_lines h.
Proof.
  intros [Hf Hc Ht Hl]. unfold discard_front_lines.
  destruct (Nat.eqb_spec (Nat.min n (h_len h)) 0) as [E|E].
  { split; [done|]. split; [|done]. destruct (decide (n = 0)) as [->|]; [done|].
    assert (records h = []) as -> by (apply nil_length_inv; lia). by rewrite drop_nil. }
  destruct (discard_chunks _ _ _ _) as [[[cs front] len] n'] eqn:D.
  assert (length (records h) = length (chunk_records (h_chunks h) (h_front_offset h)) + length (h_tail h))
    as Hrec by (unfold records; by rewrite length_app).
  apply discard_chunks_spec in D as (H1 & H2 & H3 & H4 & H5); [|done..|lia].
  assert (records (with_rows cs front (drop (Nat.min n' (length (h_tail h))) (h_tail h))
            (len - Nat.min n' (length (h_tail h))) h) = drop n (records h)) as Hr.
  { unfold records. cbn [with_rows h_chunks h_front_offset h_tail]. rewrite H1.
    set (cr := chunk_records _ _) in *.
    destruct (decide (n <= h_len h)) as [Hn|Hn].
    - rewrite (Nat.min_l n (h_len h)) in * by lia. rewrite drop_app. f_equal.
      rewrite (Nat.min_l n') by lia. by rewrite H2.
    - rewrite (Nat.min_r n (h_len h)) in * by lia.
      rewrite !drop_ge; [done|rewrite length_app; lia|lia|lia]. }
  split; [|by rewrite Hr]. split; cbn [with_rows h_chunks h_front_offset h_tail h_len]; try done.
  - rewrite length_drop. lia.
  - rewrite Hr, length_drop. lia.
Qed.

Lemma evict_singly_done n h : (Z.of_nat (h_len h) <= h_limit h)%Z -> evict_singly n h = h.
Proof. intros H. destruct n as [|n]; [done|]. cbn. by rewrite (proj2 (Z.ltb_ge _ _)). Qed.

Lemma enforce_spec h : rep_ok h -> (0 < h_limit h)%Z -> (0 < h_rotate_lines h)%Z ->
  hist_ok (enforce_limit h)
  /\ abs (enforce_limit h)
     = {| HistorySpec.s_limit := h_limit h; HistorySpec.s_rotate := h_rotate_lines h;
          HistorySpec.s_rows := HistorySpec.trim (h_limit h) (h_rotate_lines h) (records h) |}.
Proof.
  intros Hr Hl Hro. unfold enforce_limit, HistorySpec.trim, abs. pose proof (rep_len h Hr) as Hlen.
  destruct (Z.ltb_spec (h_limit h) (Z.of_nat (h_len h))) as [H|H].
  - set (n := evict_count _ _ _).
    destruct (discard_front_spec n h Hr) as (Hr' & Hrec & El & Ero).
    pose proof (rep_len _ Hr') as Hlen'. rewrite Hrec, length_drop in Hlen'.
    assert (Z.of_nat (h_len (discard_front_lines n h)) <= h_limit (discard_front_lines n h))%Z as Hb.
    { rewrite El, Hlen'. unfold n, evict_count, sat_sub. lia. }
    rewrite evict_singly_done by done. split; [constructor; [done|by rewrite El|by rewrite Ero|done]|].
    rewrite El, Ero, Hrec, (proj2 (Z.leb_gt _ _)) by lia.
    assert (n = Z.to_nat (Z.min (Z.max (Z.of_nat (length (records h)) - h_limit h)
                (Z.max 1 (Z.min (h_rotate_lines h) (h_limit h - 1)))) (Z.of_nat (length (records h))))) as ->.
    { unfold n, evict_count, sat_sub. rewrite Hlen. lia. }
    do 2 f_equal. lia.
  - rewrite evict_singly_done by done. split; [by split|].
    by rewrite (proj2 (Z.leb_le _ _)) by lia.
Qed.

Lemma records_app cs front tail c len h :
  match cs with [] => front = 0 | d :: _ => front < length d end ->
  records (with_rows (cs ++ [c]) front tail len h)
  = records (with_rows cs front (c ++ tail) len h).
Proof.
  intros Hf. unfold records. cbn [with_rows h_chunks h_front_offset h_tail].
  destruct cs as [|d cs]; cbn [app chunk_records]; [subst; simpl; by rewrite app_nil_r|].
  rewrite concat_app. simpl. by rewrite app_nil_r, <- !(assoc_L (++)).
Qed.

Lemma seal_spec h : rep_ok h ->
  rep_ok (seal_full_tail h) /\ length (h_tail (seal_full_tail h)) < HISTORY_CHUNK_RECORDS
  /\ abs (seal_full_tail h) = abs h.
Proof.
  intros [Hf Hc Ht Hl]. unfold seal_full_tail.
  destruct (Nat.ltb_spec (length (h_tail h)) HISTORY_CHUNK_RECORDS); [done|].
  assert (records (with_rows (h_chunks h ++ [h_tail h]) (h_front_offset h) [] (h_len h) h)
          = records h) as E.
  { rewrite records_app by done. unfold records. cbn [with_rows h_chunks h_front_offset h_tail].
    by rewrite app_nil_r. }
  split; [|split; [simpl; unfold HISTORY_CHUNK_RECORDS; lia|unfold abs; by rewrite E]].
  split; cbn [with_rows h_chunks h_front_offset h_tail h_len]; try (by rewrite E); try (simpl; lia).
  - destruct (h_chunks h); [simpl; rewrite Hf; unfold HISTORY_CHUNK_RECORDS in *; lia|done].
  - apply Forall_app. split; [done|]. constructor; [|constructor].
    unfold HISTORY_CHUNK_RECORDS in *. lia.
Qed.

Lemma pop_last_app {A} (l : list A) x : pop_last (l ++ [x]) = Some (l, x).
Proof. unfold pop_last. rewrite reverse_snoc. by rewrite reverse_involutive. Qed.

Lemma push_spec line wraps h : hist_ok h ->
  hist_ok (push_styled_line_with_wrap line wraps h)
  /\ abs (push_styled_line_with_wrap line wraps h) = (spec_step (HPush line wraps) (abs h)).1.
Proof.
  intros [Hr Hl Hro _]. unfold push_styled_line_with_wrap.
  destruct (seal_spec h Hr) as ([Hf Hc Ht Hn] & Hlt & Ha).
  injection Ha as El Ero Erec. set (g := seal_full_tail h) in *. set (r := {| record_line := line; record_wraps := wraps |}).
  assert (records (with_rows (h_chunks g) (h_front_offset g) (h_tail g ++ [r]) (h_len g + 1) g)
          = records h ++ [r]) as E.
  { rewrite <- Erec. unfold records. cbn [with_rows h_chunks h_front_offset h_tail].
    by rewrite (assoc_L (++)). }
  destruct (enforce_spec (with_rows (h_chunks g) (h_front_offset g) (h_tail g ++ [r]) (h_len g + 1) g))
    as [Hok Habs]; [|cbn; by rewrite El|cbn; by rewrite Ero|].
  - split; cbn [with_rows h_chunks h_front_offset h_tail h_len]; try done.
    + rewrite length_app. simpl. lia.
    + rewrite E, length_app, Hn, Erec. done.
  - split; [done|]. rewrite Habs, E. cbn [with_rows h_limit h_rotate_lines]. by rewrite El, Ero.
Qed.

(** A refilled tail is not empty unless the buffer is. *)
Lemma refill_spec h : rep_ok h ->
  match refill_tail h with
  | None => records h = []
  | Some g => rep_ok g /\ abs g = abs h /\ h_tail g <> []
  end.
Proof.
  intros Hr. pose proof Hr as [Hf Hc Ht Hl]. unfold refill_tail.
  destruct (h_tail h) as [|r t] eqn:Et; [|by rewrite Et].
  destruct (h_chunks h) as [|c cs _] eqn:Ec using rev_ind.
  { cbn. unfold records. by rewrite Ec, Et. }
  rewrite pop_last_app. cbn [mbind option_bind]. apply Forall_app in Hc as [Hcs Hc].
  pose proof (Forall_inv Hc) as Hc1. cbn beta in Hc1.
  assert (records (with_rows cs (match cs with [] => 0 | _ => h_front_offset h end)
            (drop (match cs with [] => h_front_offset h | _ => 0 end) c) (h_len h) h) = records h) as E.
  { unfold records. cbn [with_rows h_chunks h_front_offset h_tail]. rewrite Ec, Et.
    destruct cs as [|d cs]; cbn [app chunk_records concat]; [by rewrite !app_nil_r|].
    rewrite concat_app. simpl. by rewrite !app_nil_r, <- (assoc_L (++)). }
  split; [|split; [unfold abs; by rewrite E|]].
  - split; cbn [with_rows h_chunks h_front_offset h_tail h_len]; try done; try (by rewrite E).
    + by destruct cs.
    + rewrite length_drop. lia.
  - cbn [with_rows h_tail]. intros D%(f_equal length). rewrite length_drop in D.
    destruct cs; simpl in *; lia.
Qed.

Lemma pop_spec h : hist_ok h ->
  hist_ok (pop_styled_line h).1
  /\ (abs (pop_styled_line h).1, APopped (pop_styled_line h).2) = spec_step HPop (abs h).
Proof.
  intros Hh. pose proof (refill_spec h (hist_rep h Hh)) as Hr. unfold pop_styled_line.
  destruct (refill_tail h) as [g|]; cbn [spec_step abs HistorySpec.s_rows].
  2:{ split; [done|]. cbn [fst snd]. unfold abs, HistorySpec.set_rows. by rewrite Hr. }
  destruct Hr as (Hg & Ha & Hne). destruct (h_tail g) as [|r t _] eqn:Et using rev_ind; [done|].
  rewrite pop_last_app. cbn [fst snd]. injection Ha as El Ero Erec. destruct Hg as [Hf Hc Ht Hl].
  set (rest := chunk_records (h_chunks g) (h_front_offset g) ++ t).
  assert (records h = rest ++ [r]) as Eh.
  { rewrite <- Erec. unfold records, rest. by rewrite Et, (assoc_L (++)). }
  assert (records (with_rows (h_chunks g) (h_front_offset g) t (h_len g - 1) g) = rest) as E by done.
  rewrite Et, length_app in Ht. rewrite Erec, Eh, length_app in Hl. simpl in Ht, Hl.
  split.
  - split; cbn [with_rows h_limit h_rotate_lines h_len]; rewrite ?El, ?Ero; try apply Hh.
    + split; cbn [with_rows h_chunks h_front_offset h_tail h_len]; try done; [lia|].
      rewrite E. lia.
    + pose proof (hist_bound h Hh). rewrite (rep_len h (hist_rep h Hh)), Eh, length_app in *.
      simpl in *. lia.
  - rewrite Eh, last_snoc, length_app, Nat.add_sub, take_app_length. unfold abs, HistorySpec.set_rows.
    cbn [with_rows h_limit h_rotate_lines]. by rewrite E, El, Ero.
Qed.

Lemma update_chunks_spec i f cs skipped start :
  match cs with [] => skipped = 0 | c :: _ => skipped < length c end -> start <= i ->
  Forall (fun c => 0 < length c <= HISTORY_CHUNK_RECORDS) cs ->
  match update_chunks i f cs skipped start with
  | inl cs' => chunk_records cs' skipped = alter (update_record f) (i - start) (chunk_records cs skipped)
               /\ i - start < length (chunk_records cs skipped)
               /\ Forall2 (fun c c' => length c' = length c) cs cs'
  | inr e => e = start + length (chunk_records cs skipped) /\ e <= i
  end.
Proof.
  revert skipped start. induction cs as [|c cs IH]; intros skipped start Hf Hs Hc; cbn [update_chunks].
  { cbn. lia. }
  apply Forall_cons in Hc as [Hc0 Hc]. cbn [chunk_records]. rewrite length_app, length_drop.
  destruct (Nat.ltb_spec i (start + (length c - skipped))) as [Hi|Hi].
  - cbn [chunk_records]. rewrite drop_alter_ge by lia. rewrite alter_app_l by (rewrite length_drop; lia).
    replace (skipped + (i - start) - skipped) with (i - start) by lia. split; [done|]. split; [lia|]. constructor; [apply length_alter|].
    by apply Forall_Forall2_diag, Forall_true.
  - assert (chunk_records cs 0 = concat cs) as E by by destruct cs.
    assert (match cs with [] => 0 = 0 | d :: _ => 0 < length d end) as Hz.
    { destruct cs; [done|]. apply Forall_cons in Hc as [? _]. lia. }
    specialize (IH 0 (start + (length c - skipped)) Hz ltac:(lia) Hc). rewrite E in IH.
    destruct (update_chunks _ _ cs _ _) as [cs'|e]; [|lia].
    destruct IH as (H1 & H2 & H3). cbn [chunk_records].
    rewrite alter_app_r_alt by (rewrite length_drop; lia). rewrite length_drop.
    assert (chunk_records cs' 0 = concat cs') as E' by by destruct cs'.
    rewrite <- E', H1.
    replace (i - start - (length c - skipped)) with (i - (start + (length c - skipped))) by lia.
    split; [done|]. split; [lia|]. by constructor.
Qed.

Lemma update_spec i f h : hist_ok h ->
  hist_ok (update_styled_line i f h)
  /\ abs (update_styled_line i f h)
     = HistorySpec.set_rows (alter (update_record f) i (records h)) (abs h).
Proof.
  intros Hh. pose proof (hist_rep h Hh) as [Hf Hc Ht Hl]. unfold update_styled_line.
  destruct (Nat.leb_spec (h_len h) i) as [Hi|Hi].
  { split; [done|]. unfold abs, HistorySpec.set_rows. cbn. do 2 f_equal.
    apply list_eq. intros j. rewrite list_lookup_alter. case_decide as E; [|done]. subst j.
    by rewrite lookup_ge_None_2 by lia. }
  pose proof (update_chunks_spec i f (h_chunks h) (h_front_offset h) 0 Hf ltac:(lia) Hc) as Hu.
  rewrite Nat.sub_0_r in Hu. destruct (update_chunks _ _ _ _ _) as [cs|e].
  - destruct Hu as (H1 & H2 & H3).
    assert (records (with_rows cs (h_front_offset h) (h_tail h) (h_len h) h)
            = alter (update_record f) i (records h)) as E.
    { unfold records. cbn [with_rows h_chunks h_front_offset h_tail]. rewrite H1.
      by rewrite alter_app_l by done. }
    split; [|unfold abs; by rewrite E]. split; try apply Hh.
    split; cbn [with_rows h_chunks h_front_offset h_tail h_len]; try done.
    + destruct H3 as [|c c' ? ? Hcc]; [done|]. by rewrite Hcc.
    + eapply Forall2_Forall_r; [exact H3|]. eapply Forall_impl; [exact Hc|]. cbn. by intros ? ? ? ->.
    + by rewrite E, length_alter.
  - destruct Hu as [-> He]. cbn [plus] in *.
    assert (records (with_rows (h_chunks h) (h_front_offset h)
              (alter (update_record f) (i - length (chunk_records (h_chunks h) (h_front_offset h)))
                 (h_tail h)) (h_len h) h) = alter (update_record f) i (records h)) as E.
    { unfold records. cbn [with_rows h_chunks h_front_offset h_tail].
      by rewrite alter_app_r_alt by done. }
    split; [|unfold abs; by rewrite E]. split; try apply Hh.
    split; cbn [with_rows h_chunks h_front_offset h_tail h_len]; try done;
      rewrite ?E, ?length_alter; done.
Qed.

(** ** Refinement *)

(** The limits a call sets are [usize] values. *)
Definition call_ok (c : history_call) : Prop :=
  match c with HSetLimit n | HSetRotate n => (0 <= n)%Z | _ => True end.

Lemma history_step_refines c h : call_ok c -> hist_ok h ->
  hist_ok (history_step c h).1
  /\ (abs (history_step c h).1, (history_step c h).2) = spec_step c (abs h).
Proof.
  intros Hc Hh. pose proof Hh as [Hr Hl Hro Hb]. destruct c as [line wraps| |n|n| |i copy]; cbn [call_ok] in Hc.
  - destruct (push_spec line wraps h Hh) as [? E]. split; [done|]. cbn [history_step fst snd]. by rewrite E.
  - destruct (pop_spec h Hh) as [? E]. cbn [history_step]. destruct (pop_styled_line h). done.
  - destruct n as [|n|n]; cbn [history_step set_limit Z.eqb]; [done| |lia].
    destruct (enforce_spec {| h_limit := Z.pos n; h_rotate_lines := h_rotate_lines h; h_chunks := h_chunks h;
      h_front_offset := h_front_offset h; h_tail := h_tail h; h_len := h_len h |}) as [Hok Ha];
      [by destruct Hr|done|done|].
    split; [done|]. cbn [fst snd]. by rewrite Ha.
  - destruct n as [|n|n]; cbn [history_step set_rotate_lines Z.eqb]; [done| |lia].
    destruct (enforce_spec {| h_limit := h_limit h; h_rotate_lines := Z.pos n; h_chunks := h_chunks h;
      h_front_offset := h_front_offset h; h_tail := h_tail h; h_len := h_len h |}) as [Hok Ha];
      [by destruct Hr|done|done|].
    split; [done|]. cbn [fst snd]. by rewrite Ha.
  - cbn. split; [|done]. split; [|done..|cbn; lia]. split; cbn; [done..|unfold HISTORY_CHUNK_RECORDS; lia|done].
  - destruct (update_spec i (with_copy_text copy) h Hh) as [? E]. split; [done|].
    cbn [history_step fst snd]. unfold set_copy_text. by rewrite E.
Qed.

Lemma run_history_refines cs h : Forall call_ok cs -> hist_ok h ->
  hist_ok (run_history history_step cs h).1
  /\ (abs (run_history history_step cs h).1, (run_history history_step cs h).2)
     = run_history spec_step cs (abs h).
Proof.
  intros Hcs. revert h. induction Hcs as [|c cs Hc _ IH]; intros h Hh; [done|].
  destruct (history_step_refines c h Hc Hh) as [Hh' E]. cbn [run_history]. rewrite <- E.
  destruct (history_step c h) as [h' a]. cbn [fst snd] in *. destruct (IH h' Hh') as [Hh2 E2].
  rewrite <- E2. by destruct (run_history history_step cs h') as [h2 l].
Qed.

Lemma new_history_ok limit rotate h :
  (0 <= limit)%Z -> (0 <= rotate)%Z -> new_with_rotation limit rotate = Ok h ->
  hist_ok h /\ h = empty_history limit rotate.
Proof.
  intros Hl Hr. unfold new_with_rotation.
  destruct (Z.eqb_spec limit 0); [done|]. destruct (Z.eqb_spec rotate 0); [done|]. intros [= <-].
  split; [|done]. split; cbn; [|lia..]. split; cbn; [done..|unfold HISTORY_CHUNK_RECORDS; lia|done].
Qed.

(** C14. The chunked scrollback buffer refines a plain list.  From a new buffer
    of a non-zero limit and rotation, any sequence of pushes, pops, limit and
    rotation changes, clears and copy-text updates returns what the list
    returns and holds the list's rows, eviction included; the buffer never
    holds more rows than its limit, counts exactly the rows it holds, and keeps
    its unsealed tail within one chunk. *)
Theorem history_refines_list limit rotate h cs :
  (0 <= limit)%Z -> (0 <= rotate)%Z -> new_with_rotation limit rotate = Ok h -> Forall call_ok cs ->
  let r := run_history history_step cs h in
  let spec := run_history spec_step cs
    {| HistorySpec.s_limit := limit; HistorySpec.s_rotate := rotate; HistorySpec.s_rows := [] |} in
  (abs r.1, r.2) = spec
  /\ history_lines r.1 = (fun row => styled_text (record_line row)) <$> HistorySpec.s_rows spec.1
  /\ h_len r.1 = length (HistorySpec.s_rows spec.1)
  /\ (Z.of_nat (h_len r.1) <= h_limit r.1)%Z
  /\ length (h_tail r.1) <= HISTORY_CHUNK_RECORDS.
Proof.
  intros Hl Hr Hn Hcs r spec. destruct (new_history_ok limit rotate h Hl Hr Hn) as [Hh ->].
  destruct (run_history_refines cs _ Hcs Hh) as [Hok E]. fold r in Hok, E.
  change (run_history spec_step cs (abs (empty_history limit rotate))) with spec in E.
  split; [done|]. rewrite <- E. destruct Hok as [Hrep _ _ Hb]. by destruct Hrep.
Qed.

Lemma history_refines_list_witness :
  let rows := [HPush (plain [97%Z]) false; HPush (plain [98%Z]) true; HPush (plain [99%Z]) false;
               HPop; HSetLimit 1; HSetRotate 0] in
  let r := run_history history_step rows (empty_history 2 1) in
  history_lines r.1 = [[98%Z]] /\ (Z.of_nat (h_len r.1) <= h_limit r.1)%Z.
Proof.
  intros rows r. assert (Forall call_ok rows) as Hc by (repeat constructor; done).
  assert (0 <= 2)%Z as H2 by lia. assert (0 <= 1)%Z as H1 by lia.
  destruct (history_refines_list 2 1 (empty_history 2 1) rows H2 H1 eq_refl Hc) as (_ & E & _ & B & _).
  split; [exact E|exact B].
Defined.
