(* ===== verification/Screen.v ===== *)
(** * The terminal screen: state, cells and editing (mez-terminal/src/screen)

    The emulated surface of a pane: the grid of cells with the renditions and
    the metadata of its rows, cursor, margins and modes, the state of the
    control-sequence parser, the saved normal screen, scrollback, and the
    projection frozen by synchronized output.  This file holds the state
    (mod.rs), the projection of rows to styled lines (mod.rs), footprints of
    wide characters (cells.rs), continuation prefixes (wrap.rs), the width of
    framed rows (log_frame.rs) and the editing operations (editing.rs).

    [TerminalScreen] groups the fields of the code's flat structure:
    [Surface] holds exactly the fields that [SavedNormalScreenState] copies, so
    a saved normal screen is a [Surface].  Rows and columns are indices into
    vectors in memory, [nat]; parameters of control sequences are [usize]
    values, [Z] cut to a length before they are used.  An index or a slice out
    of range is a [Panic].  Render generations come from a process-wide
    counter, [next_generation]. *)

From S2P Require Import Prelude LayoutTypes Utf8Text ReadlineKeys TermText History.
#[local] Open Scope nat_scope.

Notation panicking := (outcome Empty_set).

(** ** Vectors *)

(** [v[i] = x]. *)
Definition set_at {A} (i : nat) (x : A) (l : list A) : panicking (list A) :=
  if i <? length l then Ok (<[i := x]> l) else Panic.

(** The smaller of a [usize] and a length. *)
Definition zmin (z : Z) (n : nat) : nat := Z.to_nat (Z.min z (Z.of_nat n)).

(** [a..b] and [a..=b]. *)
Definition range (a b : nat) : list nat := seq a (b - a).
Definition range_incl (a b : nat) : list nat := seq a (S b - a).

(** [slice.rotate_left(n)] and [rotate_right(n)] on [v[a..b]]. *)
Definition rot_left {A} (n : nat) (l : list A) : list A := drop n l ++ take n l.
Definition rot_right {A} (n : nat) (l : list A) : list A := rot_left (length l - n) l.
Definition rotate_range {A} (rot : nat -> list A -> list A) (a b n : nat) (l : list A)
    : panicking (list A) :=
  if (a <=? b) && (b <=? length l) && (n <=? b - a)
  then Ok (take a l ++ rot n (take (b - a) (drop a l)) ++ drop b l)
  else Panic.

(** ** Cells *)

Definition MAX_CSI_STRING_BYTES : Z := 1024.
Definition MAX_DCS_STRING_BYTES : Z := 1024.
Definition MAX_OSC_STRING_BYTES : Z := 4096.
Definition MAX_TERMINAL_GRAPHEME_BYTES : nat := 256.

Inductive TerminalScreenCell := Blank | Continuation | Scalar (c : rchar) | Grapheme (t : text).
#[global] Instance TerminalScreenCell_eq_dec : EqDecision TerminalScreenCell.
Proof. solve_decision. Defined.

Definition is_written (c : TerminalScreenCell) : bool :=
  match c with Blank => false | _ => true end.
Definition cell_is_continuation (c : TerminalScreenCell) : bool :=
  match c with Continuation => true | _ => false end.
Definition is_blank (c : TerminalScreenCell) : bool :=
  match c with Blank => true | Scalar c => (c =? 32)%Z | _ => false end.
Definition cell_output (c : TerminalScreenCell) : text :=
  match c with Blank => [32%Z] | Continuation => [] | Scalar c => [c] | Grapheme t => t end.
Definition owned_text (c : TerminalScreenCell) : option text :=
  match c with
  | Blank => Some [32%Z] | Continuation => None | Scalar c => Some [c] | Grapheme t => Some t
  end.
Definition text_is_whitespace (c : TerminalScreenCell) : bool :=
  match c with
  | Blank | Continuation => true | Scalar c => is_whitespace c | Grapheme t => forallb is_whitespace t
  end.
Definition contains_scalar (expected : rchar) (c : TerminalScreenCell) : bool :=
  match c with Scalar c => (c =? expected)%Z | _ => false end.

(** The text before the last boundary at or below [n]. *)
Fixpoint floor_boundary (t : text) (n : nat) : text :=
  match split_text (Z.of_nat n) t with
  | Some (a, _) => a
  | None => match n with O => [] | S n => floor_boundary t n end
  end.
Definition bounded_terminal_grapheme (t : text) : text :=
  floor_boundary t (zmin (blen t) MAX_TERMINAL_GRAPHEME_BYTES).
Definition cell_text (t : text) : TerminalScreenCell :=
  match bounded_terminal_grapheme t with [c] => Scalar c | t => Grapheme t end.

Inductive TerminalCharset := Ascii | DecSpecialGraphics.
#[global] Instance TerminalCharset_eq_dec : EqDecision TerminalCharset.
Proof. solve_decision. Defined.

(** The glyph of each DEC Special Graphics character. *)
Definition dec_special_graphics : list (Z * rchar) :=
  [(96, 0x25C6); (97, 0x2592); (102, 0xB0); (103, 0xB1); (106, 0x2518); (107, 0x2510);
   (108, 0x250C); (109, 0x2514); (110, 0x253C); (111, 0x23BA); (112, 0x23BB); (113, 0x2500);
   (114, 0x23BC); (115, 0x23BD); (116, 0x251C); (117, 0x2524); (118, 0x2534); (119, 0x252C);
   (120, 0x2502); (121, 0x2264); (122, 0x2265); (123, 0x3C0); (124, 0x2260); (125, 0xA3);
   (126, 0xB7)]%Z.
Definition dec_special_graphics_char (c : rchar) : option rchar :=
  '(_, p) ← list_find (fun p => p.1 = c) dec_special_graphics; Some p.2.

(** ** The state *)

Record Cursor := { c_row : nat; c_column : nat }.
#[global] Instance Cursor_eq_dec : EqDecision Cursor.
Proof. solve_decision. Defined.

Inductive ParserState :=
| Ground | Escape | EscapeCharsetG0 | EscapeCharsetG1 | Csi | Osc | OscEscape | Dcs | DcsEscape.
#[global] Instance ParserState_eq_dec : EqDecision ParserState.
Proof. solve_decision. Defined.

(** The six vectors with one entry per row. *)
Record Grid := {
  cells : list (list TerminalScreenCell);
  renditions : list (list GraphicRendition);
  line_wraps : list bool;
  line_copy_texts : list (option text);
  line_copy_sources : list (option TerminalCopySource);
  line_presentations : list (option PresentationEntry);
}.

(** A surface: what alternate mode saves of the normal screen. *)
Record Surface := {
  grid : Grid;
  cursor : Cursor;
  cursor_visible : bool;
  wrap_pending : bool;
  saved_cursor : option Cursor;
  graphic_rendition : GraphicRendition;
  detached : bool;
  sf_size : Size;
  autowrap_enabled : bool;
  insert_mode_enabled : bool;
  origin_mode_enabled : bool;
  scroll_region : option (nat * nat);
}.

Record AlternateScreenState := { alt_active : bool; saved_normal_screen : option Surface }.

(** Settings of the product. *)
Record Settings := {
  log_frame_policy : LogFramePolicy;
  log_timestamp_rendition : GraphicRendition;
  preserve_copy_associations : bool;
  wrap_continuation_prefix : option text;
  emoji_width : TerminalEmojiWidth;
}.

Record Parser := {
  parser_state : ParserState;
  csi_buffer : text;
  csi_buffer_truncated : bool;
  dcs_buffer : text;
  dcs_buffer_truncated : bool;
  dcs_enabled : bool;
  osc_buffer : text;
  osc_buffer_truncated : bool;
  g0_charset : TerminalCharset;
  g1_charset : TerminalCharset;
  shift_out : bool;
  utf8_tail : bytes;
}.

Record Modes := {
  bracketed_paste_enabled : bool;
  normal_mouse_tracking_enabled : bool;
  button_event_mouse_tracking_enabled : bool;
  any_event_mouse_tracking_enabled : bool;
  sgr_mouse_enabled : bool;
  application_cursor_enabled : bool;
  line_feed_newline_enabled : bool;
  application_keypad_enabled : bool;
  focus_events_enabled : bool;
  saved_dec_private_modes : gmap Z bool;
}.

(** Events of the parser (protocol.rs): the variants it emits. *)
Inductive TerminalClipboardRequest :=
| ClipboardWrite (selection content : text)
| ClipboardQuery (selection : text).
Inductive TerminalProgressState :=
| ProgressClear | ProgressNormal (percent : Z) | ProgressError (percent : option Z)
| ProgressIndeterminate | ProgressWarning (percent : Z).
(** The events the screen itself emits; the reader of shell integration payloads
    makes the others of the type. *)
Inductive TerminalOscEvent :=
| ShellIntegration (payload : text)
| TitleChanged (title : text)
| Clipboard (request : TerminalClipboardRequest)
| Progress (state : TerminalProgressState).

Record Outputs := {
  osc_events : list TerminalOscEvent;
  terminal_response_bytes : bytes;
  title : option text;
  activity_events : Z;
  bell_events : Z;
}.

Record Generations := {
  next_generation : Z;
  render_generation : Z;
  normal_scroll_rows : Z;
  normal_scroll_epoch : Z;
}.

(** Synchronized output (synchronized_output.rs). *)
Record FrozenPresentation := {
  frozen_lines : list TerminalStyledLine;
  frozen_cursor : Cursor;
  frozen_cursor_visible : bool;
  frozen_alternate : bool;
  frozen_generation : Z;
}.
Record SynchronizedOutputState := {
  sync_active : bool;
  sync_begin_epoch : Z;
  frozen_presentation : option FrozenPresentation;
  full_redraw_required : bool;
}.
Record SynchronizedOutputFeedOutcome := {
  begin_epoch : option Z;
  rearm_timeout : bool;
  released : bool;
  full_redraw : bool;
}.

Record TerminalScreen := {
  surface : Surface;
  active_presentation : option PresentationEntry;
  active_copy_source : option TerminalCopySource;
  settings : Settings;
  parser : Parser;
  modes : Modes;
  outputs : Outputs;
  alternate : AlternateScreenState;
  alternate_screen_generation : Z;
  history : HistoryBuffer;
  generations : Generations;
  synchronized_output : SynchronizedOutputState;
  synchronized_output_outcome : SynchronizedOutputFeedOutcome;
}.

(** Updates of one field. *)

Definition set_cells (v : list (list TerminalScreenCell)) (g : Grid) : Grid :=
  {| cells := v; renditions := renditions g; line_wraps := line_wraps g;
     line_copy_texts := line_copy_texts g; line_copy_sources := line_copy_sources g;
     line_presentations := line_presentations g |}.
Definition set_renditions (v : list (list GraphicRendition)) (g : Grid) : Grid :=
  {| cells := cells g; renditions := v; line_wraps := line_wraps g;
     line_copy_texts := line_copy_texts g; line_copy_sources := line_copy_sources g;
     line_presentations := line_presentations g |}.
Definition set_line_wraps (v : list bool) (g : Grid) : Grid :=
  {| cells := cells g; renditions := renditions g; line_wraps := v;
     line_copy_texts := line_copy_texts g; line_copy_sources := line_copy_sources g;
     line_presentations := line_presentations g |}.
Definition set_line_copy_texts (v : list (option text)) (g : Grid) : Grid :=
  {| cells := cells g; renditions := renditions g; line_wraps := line_wraps g;
     line_copy_texts := v; line_copy_sources := line_copy_sources g;
     line_presentations := line_presentations g |}.
Definition set_line_copy_sources (v : list (option TerminalCopySource)) (g : Grid) : Grid :=
  {| cells := cells g; renditions := renditions g; line_wraps := line_wraps g;
     line_copy_texts := line_copy_texts g; line_copy_sources := v;
     line_presentations := line_presentations g |}.
Definition set_line_presentations (v : list (option PresentationEntry)) (g : Grid) : Grid :=
  {| cells := cells g; renditions := renditions g; line_wraps := line_wraps g;
     line_copy_texts := line_copy_texts g; line_copy_sources := line_copy_sources g;
     line_presentations := v |}.
Definition set_grid (v : Grid) (f : Surface) : Surface :=
  {| grid := v; cursor := cursor f; cursor_visible := cursor_visible f;
     wrap_pending := wrap_pending f; saved_cursor := saved_cursor f;
     graphic_rendition := graphic_rendition f; detached := detached f; sf_size := sf_size f;
     autowrap_enabled := autowrap_enabled f; insert_mode_enabled := insert_mode_enabled f;
     origin_mode_enabled := origin_mode_enabled f; scroll_region := scroll_region f |}.
Definition set_cursor (v : Cursor) (f : Surface) : Surface :=
  {| grid := grid f; cursor := v; cursor_visible := cursor_visible f;
     wrap_pending := wrap_pending f; saved_cursor := saved_cursor f;
     graphic_rendition := graphic_rendition f; detached := detached f; sf_size := sf_size f;
     autowrap_enabled := autowrap_enabled f; insert_mode_enabled := insert_mode_enabled f;
     origin_mode_enabled := origin_mode_enabled f; scroll_region := scroll_region f |}.
Definition set_cursor_visible (v : bool) (f : Surface) : Surface :=
  {| grid := grid f; cursor := cursor f; cursor_visible := v; wrap_pending := wrap_pending f;
     saved_cursor := saved_cursor f; graphic_rendition := graphic_rendition f;
     detached := detached f; sf_size := sf_size f; autowrap_enabled := autowrap_enabled f;
     insert_mode_enabled := insert_mode_enabled f; origin_mode_enabled := origin_mode_enabled f;
     scroll_region := scroll_region f |}.
Definition set_wrap_pending (v : bool) (f : Surface) : Surface :=
  {| grid := grid f; cursor := cursor f; cursor_visible := cursor_visible f; wrap_pending := v;
     saved_cursor := saved_cursor f; graphic_rendition := graphic_rendition f;
     detached := detached f; sf_size := sf_size f; autowrap_enabled := autowrap_enabled f;
     insert_mode_enabled := insert_mode_enabled f; origin_mode_enabled := origin_mode_enabled f;
     scroll_region := scroll_region f |}.
Definition set_saved_cursor (v : option Cursor) (f : Surface) : Surface :=
  {| grid := grid f; cursor := cursor f; cursor_visible := cursor_visible f;
     wrap_pending := wrap_pending f; saved_cursor := v; graphic_rendition := graphic_rendition f;
     detached := detached f; sf_size := sf_size f; autowrap_enabled := autowrap_enabled f;
     insert_mode_enabled := insert_mode_enabled f; origin_mode_enabled := origin_mode_enabled f;
     scroll_region := scroll_region f |}.
Definition set_graphic_rendition (v : GraphicRendition) (f : Surface) : Surface :=
  {| grid := grid f; cursor := cursor f; cursor_visible := cursor_visible f;
     wrap_pending := wrap_pending f; saved_cursor := saved_cursor f; graphic_rendition := v;
     detached := detached f; sf_size := sf_size f; autowrap_enabled := autowrap_enabled f;
     insert_mode_enabled := insert_mode_enabled f; origin_mode_enabled := origin_mode_enabled f;
     scroll_region := scroll_region f |}.
Definition set_detached (v : bool) (f : Surface) : Surface :=
  {| grid := grid f; cursor := cursor f; cursor_visible := cursor_visible f;
     wrap_pending := wrap_pending f; saved_cursor := saved_cursor f;
     graphic_rendition := graphic_rendition f; detached := v; sf_size := sf_size f;
     autowrap_enabled := autowrap_enabled f; insert_mode_enabled := insert_mode_enabled f;
     origin_mode_enabled := origin_mode_enabled f; scroll_region := scroll_region f |}.
Definition set_sf_size (v : Size) (f : Surface) : Surface :=
  {| grid := grid f; cursor := cursor f; cursor_visible := cursor_visible f;
     wrap_pending := wrap_pending f; saved_cursor := saved_cursor f;
     graphic_rendition := graphic_rendition f; detached := detached f; sf_size := v;
     autowrap_enabled := autowrap_enabled f; insert_mode_enabled := insert_mode_enabled f;
     origin_mode_enabled := origin_mode_enabled f; scroll_region := scroll_region f |}.
Definition set_autowrap_enabled (v : bool) (f : Surface) : Surface :=
  {| grid := grid f; cursor := cursor f; cursor_visible := cursor_visible f;
     wrap_pending := wrap_pending f; saved_cursor := saved_cursor f;
     graphic_rendition := graphic_rendition f; detached := detached f; sf_size := sf_size f;
     autowrap_enabled := v; insert_mode_enabled := insert_mode_enabled f;
     origin_mode_enabled := origin_mode_enabled f; scroll_region := scroll_region f |}.
Definition set_insert_mode_enabled (v : bool) (f : Surface) : Surface :=
  {| grid := grid f; cursor := cursor f; cursor_visible := cursor_visible f;
     wrap_pending := wrap_pending f; saved_cursor := saved_cursor f;
     graphic_rendition := graphic_rendition f; detached := detached f; sf_size := sf_size f;
     autowrap_enabled := autowrap_enabled f; insert_mode_enabled := v;
     origin_mode_enabled := origin_mode_enabled f; scroll_region := scroll_region f |}.
Definition set_origin_mode_enabled (v : bool) (f : Surface) : Surface :=
  {| grid := grid f; cursor := cursor f; cursor_visible := cursor_visible f;
     wrap_pending := wrap_pending f; saved_cursor := saved_cursor f;
     graphic_rendition := graphic_rendition f; detached := detached f; sf_size := sf_size f;
     autowrap_enabled := autowrap_enabled f; insert_mode_enabled := insert_mode_enabled f;
     origin_mode_enabled := v; scroll_region := scroll_region f |}.
Definition set_region (v : option (nat * nat)) (f : Surface) : Surface :=
  {| grid := grid f; cursor := cursor f; cursor_visible := cursor_visible f;
     wrap_pending := wrap_pending f; saved_cursor := saved_cursor f;
     graphic_rendition := graphic_rendition f; detached := detached f; sf_size := sf_size f;
     autowrap_enabled := autowrap_enabled f; insert_mode_enabled := insert_mode_enabled f;
     origin_mode_enabled := origin_mode_enabled f; scroll_region := v |}.
Definition set_surface (v : Surface) (s : TerminalScreen) : TerminalScreen :=
  {| surface := v; active_presentation := active_presentation s;
     active_copy_source := active_copy_source s; settings := settings s; parser := parser s;
     modes := modes s; outputs := outputs s; alternate := alternate s;
     alternate_screen_generation := alternate_screen_generation s; history := history s;
     generations := generations s; synchronized_output := synchronized_output s;
     synchronized_output_outcome := synchronized_output_outcome s |}.
Definition set_active_presentation (v : option PresentationEntry) (s : TerminalScreen) : TerminalScreen :=
  {| surface := surface s; active_presentation := v; active_copy_source := active_copy_source s;
     settings := settings s; parser := parser s; modes := modes s; outputs := outputs s;
     alternate := alternate s; alternate_screen_generation := alternate_screen_generation s;
     history := history s; generations := generations s;
     synchronized_output := synchronized_output s;
     synchronized_output_outcome := synchronized_output_outcome s |}.
Definition set_active_copy_source (v : option TerminalCopySource) (s : TerminalScreen) : TerminalScreen :=
  {| surface := surface s; active_presentation := active_presentation s; active_copy_source := v;
     settings := settings s; parser := parser s; modes := modes s; outputs := outputs s;
     alternate := alternate s; alternate_screen_generation := alternate_screen_generation s;
     history := history s; generations := generations s;
     synchronized_output := synchronized_output s;
     synchronized_output_outcome := synchronized_output_outcome s |}.
Definition set_settings (v : Settings) (s : TerminalScreen) : TerminalScreen :=
  {| surface := surface s; active_presentation := active_presentation s;
     active_copy_source := active_copy_source s; settings := v; parser := parser s;
     modes := modes s; outputs := outputs s; alternate := alternate s;
     alternate_screen_generation := alternate_screen_generation s; history := history s;
     generations := generations s; synchronized_output := synchronized_output s;
     synchronized_output_outcome := synchronized_output_outcome s |}.
Definition set_parser (v : Parser) (s : TerminalScreen) : TerminalScreen :=
  {| surface := surface s; active_presentation := active_presentation s;
     active_copy_source := active_copy_source s; settings := settings s; parser := v;
     modes := modes s; outputs := outputs s; alternate := alternate s;
     alternate_screen_generation := alternate_screen_generation s; history := history s;
     generations := generations s; synchronized_output := synchronized_output s;
     synchronized_output_outcome := synchronized_output_outcome s |}.
Definition set_modes (v : Modes) (s : TerminalScreen) : TerminalScreen :=
  {| surface := surface s; active_presentation := active_presentation s;
     active_copy_source := active_copy_source s; settings := settings s; parser := parser s;
     modes := v; outputs := outputs s; alternate := alternate s;
     alternate_screen_generation := alternate_screen_generation s; history := history s;
     generations := generations s; synchronized_output := synchronized_output s;
     synchronized_output_outcome := synchronized_output_outcome s |}.
Definition set_outputs (v : Outputs) (s : TerminalScreen) : TerminalScreen :=
  {| surface := surface s; active_presentation := active_presentation s;
     active_copy_source := active_copy_source s; settings := settings s; parser := parser s;
     modes := modes s; outputs := v; alternate := alternate s;
     alternate_screen_generation := alternate_screen_generation s; history := history s;
     generations := generations s; synchronized_output := synchronized_output s;
     synchronized_output_outcome := synchronized_output_outcome s |}.
Definition set_alternate (v : AlternateScreenState) (s : TerminalScreen) : TerminalScreen :=
  {| surface := surface s; active_presentation := active_presentation s;
     active_copy_source := active_copy_source s; settings := settings s; parser := parser s;
     modes := modes s; outputs := outputs s; alternate := v;
     alternate_screen_generation := alternate_screen_generation s; history := history s;
     generations := generations s; synchronized_output := synchronized_output s;
     synchronized_output_outcome := synchronized_output_outcome s |}.
Definition set_alternate_screen_generation (v : Z) (s : TerminalScreen) : TerminalScreen :=
  {| surface := surface s; active_presentation := active_presentation s;
     active_copy_source := active_copy_source s; settings := settings s; parser := parser s;
     modes := modes s; outputs := outputs s; alternate := alternate s;
     alternate_screen_generation := v; history := history s; generations := generations s;
     synchronized_output := synchronized_output s;
     synchronized_output_outcome := synchronized_output_outcome s |}.
Definition set_history (v : HistoryBuffer) (s : TerminalScreen) : TerminalScreen :=
  {| surface := surface s; active_presentation := active_presentation s;
     active_copy_source := active_copy_source s; settings := settings s; parser := parser s;
     modes := modes s; outputs := outputs s; alternate := alternate s;
     alternate_screen_generation := alternate_screen_generation s; history := v;
     generations := generations s; synchronized_output := synchronized_output s;
     synchronized_output_outcome := synchronized_output_outcome s |}.
Definition set_generations (v : Generations) (s : TerminalScreen) : TerminalScreen :=
  {| surface := surface s; active_presentation := active_presentation s;
     active_copy_source := active_copy_source s; settings := settings s; parser := parser s;
     modes := modes s; outputs := outputs s; alternate := alternate s;
     alternate_screen_generation := alternate_screen_generation s; history := history s;
     generations := v; synchronized_output := synchronized_output s;
     synchronized_output_outcome := synchronized_output_outcome s |}.
Definition set_synchronized_output (v : SynchronizedOutputState) (s : TerminalScreen) : TerminalScreen :=
  {| surface := surface s; active_presentation := active_presentation s;
     active_copy_source := active_copy_source s; settings := settings s; parser := parser s;
     modes := modes s; outputs := outputs s; alternate := alternate s;
     alternate_screen_generation := alternate_screen_generation s; history := history s;
     generations := generations s; synchronized_output := v;
     synchronized_output_outcome := synchronized_output_outcome s |}.
Definition set_synchronized_output_outcome (v : SynchronizedOutputFeedOutcome) (s : TerminalScreen) : TerminalScreen :=
  {| surface := surface s; active_presentation := active_presentation s;
     active_copy_source := active_copy_source s; settings := settings s; parser := parser s;
     modes := modes s; outputs := outputs s; alternate := alternate s;
     alternate_screen_generation := alternate_screen_generation s; history := history s;
     generations := generations s; synchronized_output := synchronized_output s;
     synchronized_output_outcome := v |}.

Definition on_surface (h : Surface -> Surface) (s : TerminalScreen) : TerminalScreen :=
  set_surface (h (surface s)) s.
Definition screen_grid (s : TerminalScreen) : Grid := grid (surface s).
Definition with_grid (g : Grid) (s : TerminalScreen) : TerminalScreen := on_surface (set_grid g) s.
(** The cursor moved to a row or a column. *)
Definition set_row (r : nat) (f : Surface) : Surface :=
  set_cursor {| c_row := r; c_column := c_column (cursor f) |} f.
Definition set_column (c : nat) (f : Surface) : Surface :=
  set_cursor {| c_row := c_row (cursor f); c_column := c |} f.
Definition row_of (s : TerminalScreen) : nat := c_row (cursor (surface s)).
Definition column_of (s : TerminalScreen) : nat := c_column (cursor (surface s)).
Definition rendition_of (s : TerminalScreen) : GraphicRendition := graphic_rendition (surface s).
Definition emoji_of (s : TerminalScreen) : TerminalEmojiWidth := emoji_width (settings s).

(** [usize::from(size.columns)] and [usize::from(size.rows)]. *)
Definition n_columns (z : Size) : nat := Z.to_nat (columns z).
Definition n_rows (z : Size) : nat := Z.to_nat (rows z).
Definition max_row (s : TerminalScreen) : nat := n_rows (sf_size (surface s)) - 1.
Definition max_column (s : TerminalScreen) : nat := n_columns (sf_size (surface s)) - 1.

Definition blank_row (z : Size) : list TerminalScreenCell := replicate (n_columns z) Blank.
Definition blank_rendition_row (z : Size) (r : GraphicRendition) : list GraphicRendition :=
  replicate (n_columns z) r.
Definition blank_cells (z : Size) : list (list TerminalScreenCell) := replicate (n_rows z) (blank_row z).
Definition blank_renditions (z : Size) (r : GraphicRendition) : list (list GraphicRendition) :=
  replicate (n_rows z) (blank_rendition_row z r).
Definition blank_grid (z : Size) (r : GraphicRendition) : Grid :=
  {| cells := blank_cells z; renditions := blank_renditions z r;
     line_wraps := replicate (n_rows z) false; line_copy_texts := replicate (n_rows z) None;
     line_copy_sources := replicate (n_rows z) None; line_presentations := replicate (n_rows z) None |}.

Section Editing.
Context {UT : UnicodeTables} {TT : TerminalText}.

Definition cell_width (c : TerminalScreenCell) (ew : TerminalEmojiWidth) : nat :=
  match c with
  | Blank => 1
  | Continuation => 0
  | Scalar c => terminal_char_width c ew
  | Grapheme t => terminal_grapheme_width t ew
  end.

(** ** Rows as styled lines (mod.rs) *)

(** The style runs of cells from display column [start]: the run being built is
    its rendition and its width. *)
Definition close_run (start : nat) (run : option (GraphicRendition * nat)) : list TerminalStyleSpan :=
  match run with
  | Some (r, width) =>
      if bool_decide (r = default_rendition) then []
      else [{| span_start := start; span_length := width; rendition := r |}]
  | None => []
  end.
Definition run_width (run : option (GraphicRendition * nat)) : nat := from_option snd 0 run.

Fixpoint style_runs (ew : TerminalEmojiWidth) (l : list (TerminalScreenCell * GraphicRendition))
    (start : nat) (run : option (GraphicRendition * nat)) : list TerminalStyleSpan :=
  match l with
  | [] => close_run start run
  | (c, r) :: l =>
      let width := Nat.max (cell_width c ew) 1 in
      match run with
      | Some (r', w) =>
          if bool_decide (r = r') then
            style_runs ew l start (Some (r', if cell_is_continuation c then w else w + width))
          else close_run start run
               ++ style_runs ew l (start + w)
                    (if cell_is_continuation c then None else Some (r, width))
      | None =>
          style_runs ew l start (if cell_is_continuation c then None else Some (r, width))
      end
  end.

(** A cell that is part of the visible row. *)
Definition significant (p : TerminalScreenCell * GraphicRendition) : bool :=
  is_written p.1 || negb (is_blank p.1) || negb (bool_decide (p.2 = default_rendition)).

Definition collect_screen_cell_text (l : list TerminalScreenCell) : text := l ≫= cell_output.

Definition styled_line_from_row (cs : list TerminalScreenCell) (rs : list GraphicRendition)
    (copy : option text) (entry : option PresentationEntry) (source : option TerminalCopySource)
    (ew : TerminalEmojiWidth) : TerminalStyledLine :=
  let visible_columns := from_option S 0 (rposition significant (zip cs rs)) in
  let limited_cells := take visible_columns cs in
  let limited_renditions := take visible_columns rs in
  {| styled_text := collect_screen_cell_text limited_cells;
     style_spans := style_runs ew (zip limited_cells limited_renditions) 0 None;
     copy_text := copy; line_source := source; presentation := entry |}.

(** Row [row] of a grid, whose metadata may be missing. *)
Definition styled_row (g : Grid) (ew : TerminalEmojiWidth) (row : nat)
    (cs : list TerminalScreenCell) (rs : list GraphicRendition) : TerminalStyledLine :=
  styled_line_from_row cs rs (mjoin (line_copy_texts g !! row)) (mjoin (line_presentations g !! row))
    (mjoin (line_copy_sources g !! row)) ew.

(** [trim_end] of a row's text, up to its last cell that is not blank. *)
Definition trim_screen_row (cs : list TerminalScreenCell) : text :=
  let visible_columns := from_option S 0 (rposition (fun c => negb (is_blank c)) cs) in
  let t := collect_screen_cell_text (take visible_columns cs) in
  take (from_option S 0 (rposition (fun c => negb (is_whitespace c)) t)) t.

Definition last_significant_row (g : Grid) : option nat :=
  rposition (fun '(row, (cs, rs)) =>
      bool_decide (is_Some (mjoin (line_presentations g !! row))) || existsb significant (zip cs rs))
    (imap (fun row p => (row, p)) (zip (cells g) (renditions g))).

(** ** Footprints (cells.rs) *)

Definition cell_at (row column : nat) (g : Grid) : panicking TerminalScreenCell :=
  cs ← index_or_panic (cells g) row; index_or_panic cs column.
Definition rendition_at (row column : nat) (g : Grid) : panicking GraphicRendition :=
  rs ← index_or_panic (renditions g) row; index_or_panic rs column.
Definition put_cell (row column : nat) (c : TerminalScreenCell) (g : Grid) : panicking Grid :=
  cs ← index_or_panic (cells g) row;
  cs ← set_at column c cs;
  Ok (set_cells (<[row := cs]> (cells g)) g).
Definition put_rendition (row column : nat) (r : GraphicRendition) (g : Grid) : panicking Grid :=
  rs ← index_or_panic (renditions g) row;
  rs ← set_at column r rs;
  Ok (set_renditions (<[row := rs]> (renditions g)) g).
(** A cell with its rendition. *)
Definition put (row column : nat) (c : TerminalScreenCell) (r : GraphicRendition) (g : Grid)
    : panicking Grid :=
  g ← put_cell row column c g; put_rendition row column r g.

(** From a column back to the cell that is not a continuation. *)
Fixpoint leading_from (cs : list TerminalScreenCell) (column : nat) : nat :=
  match column with
  | O => O
  | S k => if from_option cell_is_continuation false (cs !! column) then leading_from cs k else column
  end.
Definition leading_column_for_cell (row column : nat) (g : Grid) : option nat :=
  cs ← cells g !! row;
  if length cs =? 0 then None else Some (leading_from cs (Nat.min column (length cs - 1))).

Definition clear_cell_footprint (ew : TerminalEmojiWidth) (row column : nat)
    (r : GraphicRendition) (g : Grid) : panicking Grid :=
  match leading_column_for_cell row column g with
  | None => Ok g
  | Some leading =>
      c ← cell_at row leading g;
      cs ← index_or_panic (cells g) row;
      let end_ := Nat.min (leading + Nat.max (cell_width c ew) 1) (length cs) in
      fold_outcome (fun k => put row k Blank r) (range leading end_) g
  end.

(** The loop over the columns of a row, at most [fuel] of them. *)
Fixpoint repair_from (fuel : nat) (ew : TerminalEmojiWidth) (row column columns : nat) (g : Grid)
    : panicking Grid :=
  match fuel with
  | O => Ok g
  | S fuel =>
      if columns <=? column then Ok g
      else
        c ← cell_at row column g;
        if cell_is_continuation c then
          g ← put_cell row column Blank g; repair_from fuel ew row (column + 1) columns g
        else
          let width := cell_width c ew in
          if width <=? 1 then repair_from fuel ew row (column + 1) columns g
          else if columns <? column + width then
            fold_outcome (fun k => put_cell row k Blank) (range column columns) g
          else
            r ← rendition_at row column g;
            g ← fold_outcome (fun k => put row (column + k) Continuation r) (range 1 width) g;
            repair_from fuel ew row (column + width) columns g
  end.
Definition repair_row_continuations (ew : TerminalEmojiWidth) (row : nat) (g : Grid)
    : panicking Grid :=
  match cells g !! row with
  | None => Ok g
  | Some cs => repair_from (length cs) ew row 0 (length cs) g
  end.

(** Metadata of a row after a write; the scoped annotation is no longer on its
    first row. *)
Definition not_first (e : PresentationEntry) : PresentationEntry :=
  {| entry_id := entry_id e; occurrence := occurrence e; first_row := false |}.
Definition same_entry (a b : PresentationEntry) : bool :=
  bool_decide (entry_id a = entry_id b) && bool_decide (occurrence a = occurrence b).

Definition clear_line_copy_text (row : nat) (s : TerminalScreen) : TerminalScreen :=
  let g := screen_grid s in
  let raw := alt_active (alternate s) in
  let source :=
    e ← active_presentation s;
    if entry_is_valid e && negb raw then active_copy_source s else None in
  let g := set_line_copy_texts (<[row := None]> (line_copy_texts g)) g in
  let g := set_line_copy_sources (<[row := source]> (line_copy_sources g)) g in
  match line_presentations g !! row with
  | None => with_grid g s
  | Some previous =>
      match (if raw then None else active_presentation s) with
      | Some active =>
          let kept := from_option (fun p => same_entry p active) false previous in
          let g := set_line_presentations
                     (<[row := if kept then previous else Some active]> (line_presentations g)) g in
          set_active_presentation (Some (not_first active)) (with_grid g s)
      | None =>
          with_grid (set_line_presentations (<[row := None]> (line_presentations g)) g) s
      end
  end.

(** ** Framed rows (log_frame.rs) *)

Definition log_frame_columns (entry : option PresentationEntry) (columns : nat)
    (policy : LogFramePolicy) : nat :=
  if timestamps policy && from_option entry_is_valid false entry
  then Nat.max (canonical_width (frame policy columns)) 1
  else Nat.max columns 1.
Definition print_max_column (s : TerminalScreen) : nat :=
  log_frame_columns (active_presentation s) (n_columns (sf_size (surface s)))
    (log_frame_policy (settings s)) - 1.

(** ** Scrolling (editing.rs) *)

(** [self.cells[row] = blank_row(..)] and the metadata of the row. *)
Definition blank_line (z : Size) (r : GraphicRendition) (row : nat) (g : Grid) : panicking Grid :=
  cs ← set_at row (blank_row z) (cells g);
  rs ← set_at row (blank_rendition_row z r) (renditions g);
  ws ← set_at row false (line_wraps g);
  ts ← set_at row None (line_copy_texts g);
  ss ← set_at row None (line_copy_sources g);
  ps ← set_at row None (line_presentations g);
  Ok {| cells := cs; renditions := rs; line_wraps := ws; line_copy_texts := ts;
        line_copy_sources := ss; line_presentations := ps |}.

(** The six vectors rotated alike between two rows. *)
Definition rotate_rows (rot : forall {A}, nat -> list A -> list A) (a b n : nat) (g : Grid)
    : panicking Grid :=
  cs ← rotate_range rot a b n (cells g);
  rs ← rotate_range rot a b n (renditions g);
  ws ← rotate_range rot a b n (line_wraps g);
  ts ← rotate_range rot a b n (line_copy_texts g);
  ss ← rotate_range rot a b n (line_copy_sources g);
  ps ← rotate_range rot a b n (line_presentations g);
  Ok {| cells := cs; renditions := rs; line_wraps := ws; line_copy_texts := ts;
        line_copy_sources := ss; line_presentations := ps |}.

(** Rotates rows and blanks some of them. *)
Definition shift_rows (rot : forall {A}, nat -> list A -> list A) (a b n : nat)
    (blanks : list nat) (s : TerminalScreen) : panicking TerminalScreen :=
  g ← rotate_rows (@rot) a (b + 1) n (screen_grid s);
  g ← fold_outcome (blank_line (sf_size (surface s)) (rendition_of s)) blanks g;
  Ok (with_grid g s).

Definition active_scroll_region (s : TerminalScreen) : nat * nat :=
  match scroll_region (surface s) with
  | Some (top, bottom) => (Nat.min top (max_row s), Nat.min bottom (max_row s))
  | None => (0, max_row s)
  end.

(** One row pushed to the history. *)
Definition push_row (s : TerminalScreen) (row : nat) (h : HistoryBuffer) : panicking HistoryBuffer :=
  let g := screen_grid s in
  cs ← index_or_panic (cells g) row;
  rs ← index_or_panic (renditions g) row;
  copy ← index_or_panic (line_copy_texts g) row;
  entry ← index_or_panic (line_presentations g) row;
  source ← index_or_panic (line_copy_sources g) row;
  wraps ← index_or_panic (line_wraps g) row;
  Ok (push_styled_line_with_wrap (styled_line_from_row cs rs copy entry source (emoji_of s)) wraps h).

Definition add_scroll_rows (n : nat) (s : TerminalScreen) : TerminalScreen :=
  let k := generations s in
  set_generations
    {| next_generation := next_generation k; render_generation := render_generation k;
       normal_scroll_rows := sat_add u64_MAX (normal_scroll_rows k) (Z.of_nat n);
       normal_scroll_epoch := normal_scroll_epoch k |} s.

Definition scroll_region_up_from (top bottom : nat) (count : Z) (s : TerminalScreen)
    : panicking TerminalScreen :=
  if (bottom <? top) || (max_row s <? bottom) then Ok s
  else
    let count := zmin count (bottom - top + 1) in
    if count =? 0 then Ok s
    else
      s ← (if (top =? 0) && (bottom =? max_row s) && negb (alt_active (alternate s)) then
             let s := on_surface (set_detached false) (add_scroll_rows count s) in
             h ← fold_outcome (push_row s) (range top (top + count)) (history s);
             Ok (set_history h s)
           else Ok s);
      shift_rows (@rot_left) top bottom count (range_incl (bottom + 1 - count) bottom) s.

Definition scroll_region_down_from (top bottom : nat) (count : Z) (s : TerminalScreen)
    : panicking TerminalScreen :=
  if (bottom <? top) || (max_row s <? bottom) then Ok s
  else
    let count := zmin count (bottom - top + 1) in
    if count =? 0 then Ok s
    else shift_rows (@rot_right) top bottom count (range top (top + count)) s.

Definition scroll_region_up (count : Z) (s : TerminalScreen) : panicking TerminalScreen :=
  let '(top, bottom) := active_scroll_region s in scroll_region_up_from top bottom count s.
Definition scroll_region_down (count : Z) (s : TerminalScreen) : panicking TerminalScreen :=
  let '(top, bottom) := active_scroll_region s in scroll_region_down_from top bottom count s.

(** ** Lines *)

Definition no_wrap (s : TerminalScreen) : TerminalScreen := on_surface (set_wrap_pending false) s.

Definition index (s : TerminalScreen) : panicking TerminalScreen :=
  let s := if bool_decide (is_Some (active_presentation s)) then clear_line_copy_text (row_of s) s else s in
  let s := no_wrap s in
  let '(top, bottom) := active_scroll_region s in
  if (top <=? row_of s) && (row_of s <=? bottom) && (row_of s =? bottom)
  then scroll_region_up_from top bottom 1 s
  else Ok (on_surface (set_row (Nat.min (row_of s + 1) (max_row s))) s).

Definition next_line (s : TerminalScreen) : panicking TerminalScreen :=
  index (on_surface (set_column 0) (no_wrap s)).
Definition newline (s : TerminalScreen) : panicking TerminalScreen := next_line s.

Definition reverse_index (s : TerminalScreen) : panicking TerminalScreen :=
  let s := no_wrap s in
  let '(top, bottom) := active_scroll_region s in
  if (top <=? row_of s) && (row_of s <=? bottom) && (row_of s =? top)
  then scroll_region_down_from top bottom 1 s
  else Ok (on_surface (set_row (row_of s - 1)) s).

(** ** Continuation prefixes (wrap.rs) *)

Record StyledPrefixCell := { prefix_char : rchar; prefix_cell_width : nat; prefix_rendition : GraphicRendition }.
Definition prefix_width (p : list StyledPrefixCell) : nat := sum_list (prefix_cell_width <$> p).
Definition styled_prefix_is_non_default (p : list StyledPrefixCell) : bool :=
  existsb (fun c => negb (bool_decide (prefix_rendition c = default_rendition))) p.

(** The characters of the configured prefix read from the cells of a row. *)
Fixpoint read_prefix (ew : TerminalEmojiWidth) (cs : list TerminalScreenCell)
    (rs : list GraphicRendition) (column : nat) (expected : text) : option (list StyledPrefixCell) :=
  match expected with
  | [] => Some []
  | c :: expected =>
      let width := terminal_char_width c ew in
      cell ← cs !! column;
      if (width =? 0) || cell_is_continuation cell || negb (contains_scalar c cell) then None
      else
        rest ← read_prefix ew cs rs (column + width) expected;
        Some ({| prefix_char := c; prefix_cell_width := width;
                 prefix_rendition := default default_rendition (rs !! column) |} :: rest)
  end.
Definition wrap_continuation_prefix_from_row (row : nat) (configured : text) (s : TerminalScreen)
    : option (list StyledPrefixCell) :=
  cs ← cells (screen_grid s) !! row;
  rs ← renditions (screen_grid s) !! row;
  prefix ← read_prefix (emoji_of s) cs rs 0 configured;
  if styled_prefix_is_non_default prefix then Some prefix else None.

(** The first row of the wrapped line that holds [row]. *)
Fixpoint first_wrapped_row (wraps : list bool) (row : nat) : nat :=
  match row with
  | O => O
  | S r => if bool_decide (wraps !! r = Some true) then first_wrapped_row wraps r else row
  end.
Definition current_wrap_continuation_prefix (s : TerminalScreen) : option (list StyledPrefixCell) :=
  configured ← wrap_continuation_prefix (settings s);
  if n_columns (sf_size (surface s)) <=? text_width_for configured (emoji_of s) then None
  else
    let g := screen_grid s in
    wrap_continuation_prefix_from_row
      (first_wrapped_row (line_wraps g) (Nat.min (row_of s) (length (cells g) - 1))) configured s.

Fixpoint write_prefix_cells (prefix : list StyledPrefixCell) (s : TerminalScreen)
    : panicking TerminalScreen :=
  match prefix with
  | [] => Ok s
  | c :: prefix =>
      let width := prefix_cell_width c in
      if max_column s <? column_of s + width - 1 then Ok s
      else
        let s := clear_line_copy_text (row_of s) s in
        g ← put (row_of s) (column_of s) (Scalar (prefix_char c)) (prefix_rendition c) (screen_grid s);
        g ← fold_outcome (fun k => put (row_of s) (column_of s + k) Continuation (prefix_rendition c))
              (range 1 width) g;
        write_prefix_cells prefix (on_surface (set_column (column_of s + width)) (with_grid g s))
  end.
Definition write_wrap_continuation_prefix (prefix : list StyledPrefixCell) (s : TerminalScreen)
    : panicking TerminalScreen :=
  if n_columns (sf_size (surface s)) <=? prefix_width prefix then Ok s else write_prefix_cells prefix s.

Definition wrap_to_next_line (s : TerminalScreen) : panicking TerminalScreen :=
  let prefix := current_wrap_continuation_prefix s in
  let g := screen_grid s in
  let s := with_grid (set_line_wraps (<[row_of s := true]> (line_wraps g)) g) s in
  s ← newline s;
  let s := no_wrap s in
  match prefix with
  | Some prefix => write_wrap_continuation_prefix prefix s
  | None => Ok s
  end.

(** ** Characters *)

(** The characters of a row shifted from the cursor. *)
Definition shift_chars (rot : forall {A}, nat -> list A -> list A) (count : Z)
    (blanks : nat -> nat -> nat -> list nat) (s : TerminalScreen) : panicking TerminalScreen :=
  let s := no_wrap s in
  let row := row_of s in
  let column := column_of s in
  let width := n_columns (sf_size (surface s)) in
  let count := zmin count (width - column) in
  let s := clear_line_copy_text row s in
  let g := screen_grid s in
  g ← (if 0 <? count then
         cs ← index_or_panic (cells g) row;
         g ← (if from_option cell_is_continuation false (cs !! column)
              then clear_cell_footprint (emoji_of s) row column (rendition_of s) g else Ok g);
         cs ← index_or_panic (cells g) row;
         cs ← rotate_range rot column width count cs;
         let g := set_cells (<[row := cs]> (cells g)) g in
         rs ← index_or_panic (renditions g) row;
         rs ← rotate_range rot column width count rs;
         let g := set_renditions (<[row := rs]> (renditions g)) g in
         fold_outcome (fun k => put row k Blank (rendition_of s)) (blanks column width count) g
       else Ok g);
  g ← repair_row_continuations (emoji_of s) row g;
  Ok (with_grid g s).

Definition insert_blank_chars (count : Z) (s : TerminalScreen) : panicking TerminalScreen :=
  shift_chars (@rot_right) count (fun column _ count => range column (column + count)) s.
Definition delete_chars (count : Z) (s : TerminalScreen) : panicking TerminalScreen :=
  shift_chars (@rot_left) count (fun _ width count => range (width - count) width) s.

(** Erases columns, each with its whole footprint. *)
Definition erase_columns (ew : TerminalEmojiWidth) (r : GraphicRendition) (row : nat)
    (l : list nat) (g : Grid) : panicking Grid :=
  fold_outcome (fun k g => g ← clear_cell_footprint ew row k r g; put row k Blank r g) l g.

Definition erase_chars (count : Z) (s : TerminalScreen) : panicking TerminalScreen :=
  let s := no_wrap s in
  let start := column_of s in
  let end_ := zmin (sat_add u64_MAX (Z.of_nat start) (sat_sub count 1)) (max_column s) in
  g ← erase_columns (emoji_of s) (rendition_of s) (row_of s) (range_incl start end_) (screen_grid s);
  Ok (clear_line_copy_text (row_of s) (with_grid g s)).

Definition insert_lines (count : Z) (s : TerminalScreen) : panicking TerminalScreen :=
  let s := no_wrap s in
  let '(top, bottom) := active_scroll_region s in
  let row := row_of s in
  if (row <? top) || (bottom <? row) then Ok s
  else
    let count := zmin count (bottom - row + 1) in
    if count =? 0 then Ok s
    else shift_rows (@rot_right) row bottom count (range row (row + count)) s.

Definition delete_lines (count : Z) (s : TerminalScreen) : panicking TerminalScreen :=
  let s := no_wrap s in
  let '(top, bottom) := active_scroll_region s in
  let row := row_of s in
  if (row <? top) || (bottom <? row) then Ok s
  else
    let count := zmin count (bottom - row + 1) in
    if count =? 0 then Ok s
    else shift_rows (@rot_left) row bottom count (range_incl (bottom + 1 - count) bottom) s.

(** ** Printing *)

(** [try_extend_previous_grapheme]: whether the character joined the previous
    cluster. *)
Definition extend_at (c : rchar) (s : TerminalScreen) : option (nat * text * nat) :=
  cs ← cells (screen_grid s) !! row_of s;
  if length cs =? 0 then None
  else
    start ← (if wrap_pending (surface s) then Some (Nat.min (column_of s) (length cs - 1))
             else if column_of s =? 0 then None else Some (Nat.min (column_of s - 1) (length cs - 1)));
    leading ← leading_column_for_cell (row_of s) start (screen_grid s);
    cell ← cs !! leading;
    if is_blank cell then None
    else
      old ← owned_text cell;
      let candidate := old ++ [c] in
      if bool_decide (terminal_graphemes candidate = [candidate])
      then Some (leading, candidate, Nat.max (cell_width cell (emoji_of s)) 1) else None.

(** The cells of the extended cluster and the columns it gains or loses. *)
Definition write_extended (row leading old_width new_width : nat) (candidate : text)
    (r : GraphicRendition) (ew : TerminalEmojiWidth) (g : Grid) : panicking Grid :=
  g ← fold_outcome (fun k => clear_cell_footprint ew row k r)
        (range (leading + old_width) (leading + new_width)) g;
  g ← put_cell row leading (cell_text candidate) g;
  g ← fold_outcome (fun k => put row (leading + k) Continuation r) (range 1 new_width) g;
  fold_outcome (fun k g =>
      cs ← index_or_panic (cells g) row;
      if leading + k <? length cs then put row (leading + k) Blank r g else Ok g)
    (range new_width old_width) g.

Definition try_extend_previous_grapheme (c : rchar) (s : TerminalScreen)
    : panicking (TerminalScreen * bool) :=
  match extend_at c s with
  | None => Ok (s, false)
  | Some (leading, candidate, old_width) =>
      if (Z.of_nat MAX_TERMINAL_GRAPHEME_BYTES <? blen candidate)%Z then Ok (s, true)
      else
        let new_width := terminal_grapheme_width candidate (emoji_of s) in
        cs ← index_or_panic (cells (screen_grid s)) (row_of s);
        if (new_width =? 0) || (length cs <? leading + new_width) then Ok (s, false)
        else
          r ← rendition_at (row_of s) leading (screen_grid s);
          let last := print_max_column s in
          '(s, leading) ←
            (if autowrap_enabled (surface s) && bool_decide (is_Some (active_presentation s))
                && (last + 1 <? leading + new_width) then
               g ← clear_cell_footprint (emoji_of s) (row_of s) leading r (screen_grid s);
               s ← wrap_to_next_line (with_grid g s);
               Ok (s, column_of s)
             else Ok (s, leading));
          let s := clear_line_copy_text (row_of s) s in
          g ← write_extended (row_of s) leading old_width new_width candidate r (emoji_of s) (screen_grid s);
          let s := with_grid g s in
          let next_column := leading + new_width in
          Ok (if last <? next_column
              then on_surface (fun f => set_wrap_pending true (set_column last f)) s
              else on_surface (fun f => set_wrap_pending false (set_column next_column f)) s, true)
  end.

Definition active_charset (s : TerminalScreen) : TerminalCharset :=
  if shift_out (parser s) then g1_charset (parser s) else g0_charset (parser s).

(** The cells of a character at the cursor. *)
Definition write_char (row column width last : nat) (c : rchar) (r : GraphicRendition)
    (ew : TerminalEmojiWidth) (g : Grid) : panicking Grid :=
  cs ← index_or_panic (cells g) row;
  g ← fold_outcome (fun k => clear_cell_footprint ew row k r)
        (range column (Nat.min (column + width) (length cs))) g;
  g ← put row column (Scalar c) r g;
  fold_outcome (fun k g => if column + k <=? last then put row (column + k) Continuation r g else Ok g)
    (range 1 width) g.

Definition print_width (c : rchar) (width : nat) (s : TerminalScreen) : panicking TerminalScreen :=
  let last := print_max_column s in
  s ← (if wrap_pending (surface s) then wrap_to_next_line s else Ok s);
  s ← (if autowrap_enabled (surface s) && (last <? column_of s + width - 1)
       then wrap_to_next_line s else Ok s);
  let s := clear_line_copy_text (row_of s) s in
  let row := row_of s in
  let column := column_of s in
  s ← (if insert_mode_enabled (surface s) then insert_blank_chars (Z.of_nat width) s else Ok s);
  cs ← index_or_panic (cells (screen_grid s)) row;
  if negb (autowrap_enabled (surface s)) && (length cs <? column + width) then
    g ← fold_outcome (fun k => clear_cell_footprint (emoji_of s) row k (rendition_of s))
          (range column (length cs)) (screen_grid s);
    Ok (on_surface (fun f => set_wrap_pending false (set_column (max_column s) f)) (with_grid g s))
  else
    g ← write_char row column width last c (rendition_of s) (emoji_of s) (screen_grid s);
    let s := with_grid g s in
    let next_column := column_of s + width in
    Ok (if last <? next_column then
          if negb (autowrap_enabled (surface s))
          then on_surface (fun f => set_wrap_pending false (set_column (max_column s) f)) s
          else on_surface (fun f => set_wrap_pending true (set_column last f)) s
        else on_surface (set_column next_column) s).

Definition print (c : rchar) (s : TerminalScreen) : panicking TerminalScreen :=
  let translated :=
    match active_charset s with
    | Ascii => c
    | DecSpecialGraphics => default c (dec_special_graphics_char c)
    end in
  '(s, extended) ← (if negb (translated <? 128)%Z then try_extend_previous_grapheme translated s
                    else Ok (s, false));
  if extended : bool then Ok s
  else
    let width := terminal_char_width translated (emoji_of s) in
    if width =? 0 then Ok s else print_width translated width s.

(** ** Cursor, margins and erasing *)

(** [split(';').next()] and the second part, when not empty and a number. *)
Definition csi_param (k : nat) (params : text) : option Z :=
  part ← split_text_at 59 params !! k;
  if bool_decide (part = []) then None else parse_uint u64_MAX part.
Definition first_csi_param (params : text) : Z := default 0%Z (csi_param 0 params).
Definition csi_count (params : text) : Z := Z.max (first_csi_param params) 1.

Definition set_scroll_region (params : text) (s : TerminalScreen) : TerminalScreen :=
  if bool_decide (params = []) then
    on_surface (fun f => set_wrap_pending false
      (set_cursor {| c_row := 0; c_column := 0 |} (set_region None f))) s
  else
    let top := sat_sub (default 1%Z (csi_param 0 params)) 1 in
    let bottom := zmin (sat_sub (default (rows (sf_size (surface s))) (csi_param 1 params)) 1)
                    (max_row s) in
    if (top <? Z.of_nat bottom)%Z then
      on_surface (fun f => set_wrap_pending false
        (set_cursor {| c_row := if origin_mode_enabled f then Z.to_nat top else 0; c_column := 0 |}
           (set_region (Some (Z.to_nat top, bottom)) f))) s
    else s.

(** The row a parameter names. *)
Definition addressed_row (row : Z) (s : TerminalScreen) : nat :=
  if origin_mode_enabled (surface s) then
    let '(top, bottom) := active_scroll_region s in
    zmin (sat_add u64_MAX (Z.of_nat top) (sat_sub row 1)) bottom
  else zmin (sat_sub row 1) (max_row s).

Definition move_cursor (params : text) (s : TerminalScreen) : TerminalScreen :=
  let s := no_wrap s in
  let row := default 1%Z (csi_param 0 params) in
  let column := default 1%Z (csi_param 1 params) in
  on_surface (set_cursor {| c_row := addressed_row row s;
                            c_column := zmin (sat_sub column 1) (max_column s) |}) s.
Definition move_cursor_column (params : text) (s : TerminalScreen) : TerminalScreen :=
  let s := no_wrap s in
  on_surface (set_column (zmin (sat_sub (Z.max (first_csi_param params) 1) 1) (max_column s))) s.
Definition move_cursor_row (params : text) (s : TerminalScreen) : TerminalScreen :=
  let s := no_wrap s in
  on_surface (set_row (addressed_row (Z.max (first_csi_param params) 1) s)) s.

Definition move_cursor_relative (params : text) (row_direction column_direction : Z)
    (s : TerminalScreen) : TerminalScreen :=
  let s := no_wrap s in
  let amount := csi_count params in
  let '(min_row, limit_row) :=
    if origin_mode_enabled (surface s) then active_scroll_region s else (0, max_row s) in
  let row := Z.of_nat (row_of s) in
  let column := Z.of_nat (column_of s) in
  let row' :=
    if (row_direction <? 0)%Z then Nat.max (Z.to_nat (sat_sub row amount)) min_row
    else if (0 <? row_direction)%Z then zmin (sat_add u64_MAX row amount) limit_row
    else row_of s in
  let column' :=
    if (column_direction <? 0)%Z then Z.to_nat (sat_sub column amount)
    else if (0 <? column_direction)%Z then zmin (sat_add u64_MAX column amount) (max_column s)
    else column_of s in
  on_surface (set_cursor {| c_row := row'; c_column := column' |}) s.
Definition move_cursor_next_line (params : text) (s : TerminalScreen) : TerminalScreen :=
  on_surface (set_column 0) (move_cursor_relative params 1 0 s).
Definition move_cursor_previous_line (params : text) (s : TerminalScreen) : TerminalScreen :=
  on_surface (set_column 0) (move_cursor_relative params (-1) 0 s).

Definition clear_screen (s : TerminalScreen) : TerminalScreen :=
  on_surface (fun f => set_wrap_pending false (set_cursor {| c_row := 0; c_column := 0 |}
    (set_grid (blank_grid (sf_size f) (graphic_rendition f)) f))) s.

Definition erase_line_range (row start_column end_column : nat) (s : TerminalScreen)
    : panicking TerminalScreen :=
  let end_column := Nat.min end_column (max_column s) in
  g ← erase_columns (emoji_of s) (rendition_of s) row
        (range_incl (Nat.min start_column end_column) end_column) (screen_grid s);
  let s := clear_line_copy_text row (with_grid g s) in
  let g := screen_grid s in
  Ok (if end_column =? max_column s
      then with_grid (set_line_wraps (<[row := false]> (line_wraps g)) g) s else s).

Definition erase_rows (l : list nat) (s : TerminalScreen) : panicking TerminalScreen :=
  fold_outcome (fun row s => erase_line_range row 0 (max_column s) s) l s.

Definition erase_display (params : text) (s : TerminalScreen) : panicking TerminalScreen :=
  let s := no_wrap s in
  let parameter := first_csi_param params in
  if (parameter =? 0)%Z then
    s' ← erase_line_range (row_of s) (column_of s) (max_column s) s;
    erase_rows (range_incl (row_of s + 1) (max_row s)) s'
  else if (parameter =? 1)%Z then
    s' ← erase_rows (range 0 (row_of s)) s;
    erase_line_range (row_of s) 0 (column_of s) s'
  else if (parameter =? 2)%Z then
    s ← erase_rows (range_incl 0 (max_row s)) s;
    Ok (if alt_active (alternate s) then s else on_surface (set_detached true) s)
  else if (parameter =? 3)%Z && negb (alt_active (alternate s)) then
    Ok (on_surface (set_detached false) (set_history (clear_history (history s)) s))
  else Ok s.

Definition erase_line (params : text) (s : TerminalScreen) : panicking TerminalScreen :=
  let s := no_wrap s in
  let parameter := first_csi_param params in
  if (parameter =? 0)%Z then erase_line_range (row_of s) (column_of s) (max_column s) s
  else if (parameter =? 1)%Z then erase_line_range (row_of s) 0 (column_of s) s
  else if (parameter =? 2)%Z then erase_line_range (row_of s) 0 (max_column s) s
  else Ok s.

Definition save_cursor (s : TerminalScreen) : TerminalScreen :=
  on_surface (fun f => set_saved_cursor (Some (cursor f)) f) s.
(** A cursor cut to the grid. *)
Definition clamp_cursor (row column : nat) (c : Cursor) : Cursor :=
  {| c_row := Nat.min (c_row c) row; c_column := Nat.min (c_column c) column |}.
Definition restore_cursor (s : TerminalScreen) : TerminalScreen :=
  match saved_cursor (surface s) with
  | Some c => on_surface (fun f => set_wrap_pending false
                (set_cursor (clamp_cursor (max_row s) (max_column s) c) f)) s
  | None => s
  end.

(** ** Renditions *)

Definition sgr_params (params : text) : list Z :=
  if bool_decide (params = []) then [0%Z]
  else (fun part => default 0%Z (parse_uint u16_MAX part)) <$> split_text_at 59 params.

Definition parse_extended_sgr_color (params : list Z) : option (TerminalColor * nat) :=
  match params with
  | 5%Z :: color :: _ => Some (Indexed (Z.min color 255), 2)
  | 2%Z :: r :: g :: b :: _ => Some (Rgb (Z.min r 255) (Z.min g 255) (Z.min b 255), 4)
  | _ => None
  end.

Definition with_attributes (f : bool * bool * bool * bool -> bool * bool * bool * bool)
    (r : GraphicRendition) : GraphicRendition :=
  let '(b, d, i, u) := f (bold r, dim r, italic r, underline r) in
  {| bold := b; dim := d; italic := i; underline := u; double_underline := double_underline r;
     strikethrough := strikethrough r; inverse := inverse r; hidden := hidden r;
     foreground := foreground r; background := background r |}.
Definition with_marks (f : bool * bool * bool * bool -> bool * bool * bool * bool)
    (r : GraphicRendition) : GraphicRendition :=
  let '(d, s, i, h) := f (double_underline r, strikethrough r, inverse r, hidden r) in
  {| bold := bold r; dim := dim r; italic := italic r; underline := underline r;
     double_underline := d; strikethrough := s; inverse := i; hidden := h;
     foreground := foreground r; background := background r |}.
Definition with_colors (fg bg : option TerminalColor) (r : GraphicRendition) : GraphicRendition :=
  {| bold := bold r; dim := dim r; italic := italic r; underline := underline r;
     double_underline := double_underline r; strikethrough := strikethrough r;
     inverse := inverse r; hidden := hidden r; foreground := fg; background := bg |}.

(** A parameter that is not an extended colour. *)
Definition apply_sgr_value (v : Z) (r : GraphicRendition) : GraphicRendition :=
  if (v =? 0)%Z then default_rendition
  else if (v =? 1)%Z then with_attributes (fun '(_, d, i, u) => (true, d, i, u)) r
  else if (v =? 2)%Z then with_attributes (fun '(b, _, i, u) => (b, true, i, u)) r
  else if (v =? 3)%Z then with_attributes (fun '(b, d, _, u) => (b, d, true, u)) r
  else if (v =? 4)%Z then with_attributes (fun '(b, d, i, _) => (b, d, i, true)) r
  else if (v =? 7)%Z then with_marks (fun '(d, s, _, h) => (d, s, true, h)) r
  else if (v =? 8)%Z then with_marks (fun '(d, s, i, _) => (d, s, i, true)) r
  else if (v =? 9)%Z then with_marks (fun '(d, _, i, h) => (d, true, i, h)) r
  else if (v =? 21)%Z then
    with_marks (fun '(_, s, i, h) => (true, s, i, h))
      (with_attributes (fun '(b, d, i, _) => (b, d, i, true)) r)
  else if (v =? 22)%Z then with_attributes (fun '(_, _, i, u) => (false, false, i, u)) r
  else if (v =? 23)%Z then with_attributes (fun '(b, d, _, u) => (b, d, false, u)) r
  else if (v =? 24)%Z then
    with_marks (fun '(_, s, i, h) => (false, s, i, h))
      (with_attributes (fun '(b, d, i, _) => (b, d, i, false)) r)
  else if (v =? 27)%Z then with_marks (fun '(d, s, _, h) => (d, s, false, h)) r
  else if (v =? 28)%Z then with_marks (fun '(d, s, i, _) => (d, s, i, false)) r
  else if (v =? 29)%Z then with_marks (fun '(d, _, i, h) => (d, false, i, h)) r
  else if in_range 30 37 v then with_colors (Some (Indexed (v - 30))) (background r) r
  else if (v =? 39)%Z then with_colors None (background r) r
  else if in_range 40 47 v then with_colors (foreground r) (Some (Indexed (v - 40))) r
  else if (v =? 49)%Z then with_colors (foreground r) None r
  else if in_range 90 97 v then with_colors (Some (Indexed (v - 90 + 8))) (background r) r
  else if in_range 100 107 v then with_colors (foreground r) (Some (Indexed (v - 100 + 8))) r
  else r.

(** The loop over the parameters, [skip] of which an extended colour consumed. *)
Fixpoint apply_sgr_values (l : list Z) (skip : nat) (r : GraphicRendition) : GraphicRendition :=
  match l with
  | [] => r
  | v :: l =>
      match skip with
      | S skip => apply_sgr_values l skip r
      | O =>
          if (v =? 38)%Z || (v =? 48)%Z then
            match parse_extended_sgr_color l with
            | Some (color, consumed) =>
                apply_sgr_values l consumed
                  (if (v =? 38)%Z then with_colors (Some color) (background r) r
                   else with_colors (foreground r) (Some color) r)
            | None => apply_sgr_values l 0 r
            end
          else apply_sgr_values l 0 (apply_sgr_value v r)
      end
  end.
Definition apply_sgr (params : text) (s : TerminalScreen) : TerminalScreen :=
  on_surface (fun f => set_graphic_rendition
    (apply_sgr_values (sgr_params params) 0 (graphic_rendition f)) f) s.

End Editing.
