(* ===== verification/ScreenReflow.v ===== *)
(** * Reflow, resizing and content of a terminal screen

    Styled lines merged into logical lines and reflowed to another width
    (screen/mod.rs), the resizing of a screen (lifecycle.rs), the projections
    and updates of its content (content.rs, log_frame.rs, cells.rs) and
    synchronized output (synchronized_output.rs). *)

From S2P Require Import Prelude LayoutTypes Utf8Text ReadlineKeys TermText History Screen.
#[local] Open Scope nat_scope.

Section Reflow.
Context {UT : UnicodeTables} {TT : TerminalText}.

(** ** Styled lines *)

(** The provenance of a line: copy text, copy source and annotation. *)
Definition with_provenance (copy : option text) (source : option TerminalCopySource)
    (entry : option PresentationEntry) (l : TerminalStyledLine) : TerminalStyledLine :=
  {| styled_text := styled_text l; style_spans := style_spans l; copy_text := copy;
     line_source := source; presentation := entry |}.

Definition styled_line_width (l : TerminalStyledLine) (ew : TerminalEmojiWidth) : nat :=
  text_width_for (styled_text l) ew.

Definition styled_line_rendition_at (l : TerminalStyledLine) (column : nat) : GraphicRendition :=
  from_option (fun p => rendition p.2) default_rendition
    (list_find (fun p => span_start p <= column < span_start p + span_length p)
       (reverse (style_spans l))).

(** One more cluster at display column [start]; a run with the same rendition
    that ends there grows. *)
Definition push_styled_grapheme_at (grapheme : text) (width : nat) (r : GraphicRendition)
    (start : nat) (l : TerminalStyledLine) : TerminalStyledLine :=
  let spans :=
    if bool_decide (r = default_rendition) then style_spans l
    else
      let fresh := {| span_start := start; span_length := width; rendition := r |} in
      match pop_last (style_spans l) with
      | Some (front, p) =>
          if (span_start p + span_length p =? start) && bool_decide (rendition p = r)
          then front ++ [{| span_start := span_start p; span_length := span_length p + width;
                            rendition := rendition p |}]
          else style_spans l ++ [fresh]
      | None => [fresh]
      end in
  {| styled_text := styled_text l ++ grapheme; style_spans := spans; copy_text := copy_text l;
     line_source := line_source l; presentation := presentation l |}.
Definition push_styled_grapheme (grapheme : text) (width : nat) (r : GraphicRendition)
    (ew : TerminalEmojiWidth) (l : TerminalStyledLine) : TerminalStyledLine :=
  push_styled_grapheme_at grapheme width r (styled_line_width l ew) l.
Definition push_styled_prefix (prefix : list StyledPrefixCell) (ew : TerminalEmojiWidth)
    (l : TerminalStyledLine) : TerminalStyledLine :=
  foldl (fun l c => push_styled_grapheme [prefix_char c] (prefix_cell_width c) (prefix_rendition c) ew l)
    l prefix.

(** The configured prefix at the start of a line. *)
Fixpoint line_prefix (ew : TerminalEmojiWidth) (l : TerminalStyledLine) (t expected : text)
    (column : nat) : option (list StyledPrefixCell) :=
  match expected with
  | [] => Some []
  | e :: expected =>
      match t with
      | [] => None
      | c :: t =>
          let width := terminal_char_width c ew in
          if negb (c =? e)%Z || (width =? 0) then None
          else
            rest ← line_prefix ew l t expected (column + width);
            Some ({| prefix_char := c; prefix_cell_width := width;
                     prefix_rendition := styled_line_rendition_at l column |} :: rest)
      end
  end.
Definition continuation_prefix_from_styled_line (l : TerminalStyledLine) (configured : text)
    (ew : TerminalEmojiWidth) : option (list StyledPrefixCell) :=
  prefix ← line_prefix ew l (styled_text l) configured 0;
  if styled_prefix_is_non_default prefix then Some prefix else None.

Definition strip_continuation_prefix_from_styled_line (l : TerminalStyledLine) (configured : text)
    (ew : TerminalEmojiWidth) : option TerminalStyledLine :=
  prefix ← continuation_prefix_from_styled_line l configured ew;
  let width := prefix_width prefix in
  t ← (if text_prefix configured (styled_text l)
       then Some (drop (length configured) (styled_text l)) else None);
  Some {| styled_text := t;
          style_spans := omap (fun p =>
            let start := Nat.max (span_start p) width in
            let end_ := span_start p + span_length p in
            if start <? end_
            then Some {| span_start := start - width; span_length := end_ - start;
                         rendition := rendition p |} else None) (style_spans l);
          copy_text := copy_text l; line_source := line_source l; presentation := presentation l |}.

Definition append_styled_line (target source : TerminalStyledLine) (ew : TerminalEmojiWidth)
    : TerminalStyledLine :=
  let offset := styled_line_width target ew in
  {| styled_text := styled_text target ++ styled_text source;
     style_spans := style_spans target ++
       ((fun p => {| span_start := span_start p + offset; span_length := span_length p;
                     rendition := rendition p |}) <$> style_spans source);
     copy_text := match copy_text target, copy_text source with
                  | Some a, Some b => Some (a ++ b)
                  | None, Some b => Some b
                  | a, None => a
                  end;
     line_source := line_source target; presentation := presentation target |}.

Definition has_coherent_copy_source (l : TerminalStyledLine) : bool :=
  match presentation l, line_source l with
  | Some e, Some source => entry_is_valid e && bool_decide (owner (id source) = entry_id e)
  | _, _ => false
  end.

(** ** Logical lines *)

Record PhysicalStyledLine := { physical_line : TerminalStyledLine; wraps_to_next : bool }.

(** The line being merged, whether it starts with the prefix, and whether its
    rows agree on their source. *)
Record MergeState := {
  merged : list TerminalStyledLine;
  merging : option TerminalStyledLine;
  merge_prefixed : bool;
  merge_consistent : bool;
}.

Definition same_source (a b : option TerminalCopySource) : bool :=
  match a, b with
  | None, None => true
  | Some a, Some b =>
      bool_decide (id a = id b) && bool_decide (generation a = generation b)
      && bool_decide (source_text a = source_text b)
  | _, _ => false
  end.

Definition merge_row (configured : option text) (ew : TerminalEmojiWidth) (preserve : bool)
    (m : MergeState) (row : PhysicalStyledLine) : MergeState :=
  let line := physical_line row in
  let starts := bool_decide (merging m = None) in
  let prefixed :=
    if starts then
      from_option (fun p => bool_decide (is_Some (continuation_prefix_from_styled_line line p ew)))
        false configured
    else merge_prefixed m in
  let current := default (plain []) (merging m) in
  let agrees := match presentation current, presentation line with
                | Some a, Some b => same_entry a b | _, _ => false end in
  let '(current, consistent) :=
    if starts then (with_provenance (copy_text current) (line_source line) (presentation line) current, true)
    else if agrees then (current, merge_consistent m)
    else (with_provenance (copy_text current) (line_source current) None current,
          merge_consistent m && bool_decide (line_source current = None)
          && bool_decide (line_source line = None)) in
  let consistent :=
    if negb starts && consistent then same_source (line_source current) (line_source line)
    else consistent in
  let current := if consistent then current
                 else with_provenance None None (presentation current) current in
  let source_line :=
    if negb starts && prefixed
    then default line (p ← configured; strip_continuation_prefix_from_styled_line line p ew)
    else line in
  let source_line :=
    if negb consistent
       || (negb starts
           && ((preserve && bool_decide (is_Some (presentation current)))
               || has_coherent_copy_source current))
    then with_copy_text None source_line else source_line in
  let current := append_styled_line current source_line ew in
  if wraps_to_next row
  then {| merged := merged m; merging := Some current; merge_prefixed := prefixed;
          merge_consistent := consistent |}
  else {| merged := merged m ++ [current]; merging := None; merge_prefixed := false;
          merge_consistent := consistent |}.

Definition merge_wrapped_physical_lines (rows : list PhysicalStyledLine) (configured : option text)
    (ew : TerminalEmojiWidth) (preserve : bool) : list TerminalStyledLine :=
  let m := foldl (merge_row configured ew preserve)
             {| merged := []; merging := None; merge_prefixed := false; merge_consistent := true |} rows in
  let lines := merged m ++ from_option (fun l => [l]) [] (merging m) in
  match lines with [] => [plain []] | _ => lines end.

(** The prefix repeated on the rows of a line of [columns] columns. *)
Definition repeated_prefix (l : TerminalStyledLine) (columns : nat) (configured : option text)
    (ew : TerminalEmojiWidth) : option (list StyledPrefixCell) :=
  configured ← configured;
  prefix ← continuation_prefix_from_styled_line l configured ew;
  if prefix_width prefix <? columns then Some prefix else None.

(** The row after a soft wrap of [l]. *)
Definition continuation_row (l : TerminalStyledLine) (preserve : bool)
    (prefix : option (list StyledPrefixCell)) (ew : TerminalEmojiWidth) : TerminalStyledLine :=
  let keeps_copy :=
    (preserve && bool_decide (is_Some (presentation l)) && bool_decide (line_source l = None))
    || (has_coherent_copy_source l
        && from_option (fun source => is_source_line (group (id source))) false (line_source l)) in
  let row := with_provenance (if keeps_copy then copy_text l else None) (line_source l)
               (not_first <$> presentation l) (plain []) in
  from_option (fun p => push_styled_prefix p ew row) row prefix.

Fixpoint reflow_graphemes (l : TerminalStyledLine) (columns : nat) (preserve : bool)
    (prefix : option (list StyledPrefixCell)) (ew : TerminalEmojiWidth) (gs : list text)
    (current : TerminalStyledLine) (current_width source_column : nat) : list PhysicalStyledLine :=
  match gs with
  | [] => [{| physical_line := current; wraps_to_next := false |}]
  | g :: gs =>
      let width := terminal_grapheme_width g ew in
      if width =? 0 then reflow_graphemes l columns preserve prefix ew gs current current_width source_column
      else
        let r := styled_line_rendition_at l source_column in
        if (0 <? current_width) && (columns <? current_width + width) then
          let row := continuation_row l preserve prefix ew in
          {| physical_line := current; wraps_to_next := true |}
          :: reflow_graphemes l columns preserve prefix ew gs (push_styled_grapheme g width r ew row)
               (from_option prefix_width 0 prefix + width) (source_column + width)
        else reflow_graphemes l columns preserve prefix ew gs (push_styled_grapheme g width r ew current)
               (current_width + width) (source_column + width)
  end.

Definition reflow_one_logical_line (l : TerminalStyledLine) (columns : nat) (configured : option text)
    (ew : TerminalEmojiWidth) (policy : LogFramePolicy) (preserve : bool) : list PhysicalStyledLine :=
  let columns := log_frame_columns (presentation l) columns policy in
  reflow_graphemes l columns preserve (repeated_prefix l columns configured ew) ew
    (terminal_graphemes (styled_text l))
    (with_provenance (copy_text l) (line_source l) (presentation l) (plain [])) 0 0.
Definition reflow_logical_lines (lines : list TerminalStyledLine) (columns : nat)
    (configured : option text) (ew : TerminalEmojiWidth) (policy : LogFramePolicy) (preserve : bool)
    : list PhysicalStyledLine :=
  lines ≫= fun l => reflow_one_logical_line l (Nat.max columns 1) configured ew policy preserve.

(** ** The cursor under reflow *)

Fixpoint cursor_logical_position (rows : list PhysicalStyledLine) (cursor_row cursor_column : nat)
    (ew : TerminalEmojiWidth) (line column : nat) : option (nat * nat) :=
  match rows with
  | [] => None
  | row :: rows =>
      match cursor_row with
      | O => Some (line, column + cursor_column)
      | S cursor_row =>
          if wraps_to_next row
          then cursor_logical_position rows cursor_row cursor_column ew line
                 (column + styled_line_width (physical_line row) ew)
          else cursor_logical_position rows cursor_row cursor_column ew (line + 1) 0
      end
  end.

Definition physical_row_count_for_line (l : TerminalStyledLine) (columns : nat)
    (configured : option text) (ew : TerminalEmojiWidth) (policy : LogFramePolicy) : nat :=
  Nat.max (length (reflow_one_logical_line l (Nat.max columns 1) configured ew policy false)) 1.

(** The loop over the clusters: the position when the column is reached among
    them, or the row, the width of the row and the column after the last. *)
Fixpoint position_among (gs : list text) (ew : TerminalEmojiWidth) (logical_column columns indent : nat)
    (row current_width source_column : nat) : (nat * nat) + (nat * nat * nat) :=
  match gs with
  | [] => inr (row, current_width, source_column)
  | g :: gs =>
      if logical_column <=? source_column then inl (row, current_width)
      else
        let width := terminal_grapheme_width g ew in
        if width =? 0 then position_among gs ew logical_column columns indent row current_width source_column
        else if (0 <? current_width) && (columns <? current_width + width)
        then position_among gs ew logical_column columns indent (row + 1) (indent + width)
               (source_column + width)
        else position_among gs ew logical_column columns indent row (current_width + width)
               (source_column + width)
  end.
(** The columns past the text. *)
Fixpoint position_past (n columns indent row current_width : nat) : nat * nat :=
  match n with
  | O => (row, current_width)
  | S n => if columns <=? current_width then position_past n columns indent (row + 1) (indent + 1)
           else position_past n columns indent row (current_width + 1)
  end.

Definition physical_position_in_line (l : option TerminalStyledLine) (logical_column columns : nat)
    (configured : option text) (ew : TerminalEmojiWidth) (policy : LogFramePolicy) : nat * nat :=
  match l with
  | None => (0, 0)
  | Some l =>
      let physical_columns := columns in
      let columns := log_frame_columns (presentation l) columns policy in
      let insertion_limit :=
        if timestamps policy && from_option entry_is_valid false (presentation l)
           && (columns <? physical_columns)
        then columns else columns - 1 in
      let indent := from_option prefix_width 0 (repeated_prefix l columns configured ew) in
      let '(row, width) :=
        match position_among (terminal_graphemes (styled_text l)) ew logical_column columns indent 0 0 0 with
        | inl p => p
        | inr (row, width, source_column) =>
            position_past (logical_column - source_column) columns indent row width
        end in
      (row, Nat.min width insertion_limit)
  end.

Definition physical_position_for_logical_cursor (lines : list TerminalStyledLine)
    (logical_line logical_column columns : nat) (configured : option text)
    (ew : TerminalEmojiWidth) (policy : LogFramePolicy) : nat * nat :=
  let columns := Nat.max columns 1 in
  let row_offset :=
    sum_list ((fun l => physical_row_count_for_line l columns configured ew policy)
                <$> take logical_line lines) in
  let '(line_row, column) :=
    physical_position_in_line (lines !! logical_line) logical_column columns configured ew policy in
  (row_offset + line_row, column).

(** ** Rows written back to the grid *)

(** [renditions.iter_mut().take(b).skip(a)] all set. *)
Definition paint (a b : nat) (r : GraphicRendition) (rs : list GraphicRendition)
    : list GraphicRendition :=
  imap (fun i x => if (a <=? i) && (i <? b) then r else x) rs.

Fixpoint write_graphemes (l : TerminalStyledLine) (ew : TerminalEmojiWidth) (columns : nat)
    (gs : list text) (column : nat) (row : list TerminalScreenCell * list GraphicRendition)
    : panicking (list TerminalScreenCell * list GraphicRendition) :=
  match gs with
  | [] => Ok row
  | g :: gs =>
      let g := bounded_terminal_grapheme g in
      let width := terminal_grapheme_width g ew in
      if width =? 0 then write_graphemes l ew columns gs column row
      else if (column =? 0) && (columns <? width) && (0 <? columns) then
        cs ← set_at 0 (cell_text g) row.1;
        rs ← set_at 0 (styled_line_rendition_at l 0) row.2;
        Ok (cs, rs)
      else if columns <? column + width then Ok row
      else
        let r := styled_line_rendition_at l column in
        cs ← set_at column (cell_text g) row.1;
        rs ← set_at column r row.2;
        row ← fold_outcome (fun k row =>
            cs ← set_at (column + k) Continuation row.1;
            rs ← set_at (column + k) r row.2;
            Ok (cs, rs)) (range 1 width) (cs, rs);
        write_graphemes l ew columns gs (column + width) row
  end.
Definition write_styled_line_to_row (l : TerminalStyledLine)
    (row : list TerminalScreenCell * list GraphicRendition) (ew : TerminalEmojiWidth)
    : panicking (list TerminalScreenCell * list GraphicRendition) :=
  let columns := length row.1 in
  row ← write_graphemes l ew columns (terminal_graphemes (styled_text l)) 0 row;
  Ok (row.1, foldl (fun rs p => paint (Nat.min (span_start p) columns)
                                  (Nat.min (span_start p + span_length p) columns) (rendition p) rs)
               row.2 (style_spans l)).

(** A physical row stored as row [row] of a grid. *)
Definition store_row (ew : TerminalEmojiWidth) (p : nat * PhysicalStyledLine) (g : Grid)
    : panicking Grid :=
  let '(row, l) := p in
  let line := physical_line l in
  cs ← index_or_panic (cells g) row;
  rs ← index_or_panic (renditions g) row;
  '(cs, rs) ← write_styled_line_to_row line (cs, rs) ew;
  ws ← set_at row (wraps_to_next l) (line_wraps g);
  ts ← set_at row (copy_text line) (line_copy_texts g);
  ss ← set_at row (line_source line) (line_copy_sources g);
  ps ← set_at row (presentation line) (line_presentations g);
  Ok {| cells := <[row := cs]> (cells g); renditions := <[row := rs]> (renditions g);
        line_wraps := ws; line_copy_texts := ts; line_copy_sources := ss; line_presentations := ps |}.
Definition store_rows (z : Size) (ew : TerminalEmojiWidth) (rows : list PhysicalStyledLine)
    : panicking Grid :=
  fold_outcome (store_row ew) (imap (fun i l => (i, l)) (take (n_rows z) rows))
    (blank_grid z default_rendition).

(** ** Generations *)

(** [next_render_generation]: a fresh generation of the process. *)
Definition next_render_generation (k : Generations) : Z := wrap u64_MAX (next_generation k + 1).
Definition mark_render_changed (s : TerminalScreen) : TerminalScreen :=
  let k := generations s in
  let fresh := next_render_generation k in
  set_generations {| next_generation := fresh; render_generation := fresh;
                     normal_scroll_rows := normal_scroll_rows k;
                     normal_scroll_epoch := normal_scroll_epoch k |} s.
Definition reset_normal_viewport_origin (s : TerminalScreen) : TerminalScreen :=
  let k := generations s in
  let fresh := next_render_generation k in
  set_generations {| next_generation := fresh; render_generation := render_generation k;
                     normal_scroll_rows := 0; normal_scroll_epoch := fresh |} s.

(** ** Content *)

Definition visible_lines (s : TerminalScreen) : list text := trim_screen_row <$> cells (screen_grid s).
Definition visible_styled_lines (s : TerminalScreen) : list TerminalStyledLine :=
  let g := screen_grid s in
  imap (fun row p => styled_row g (emoji_of s) row p.1 p.2) (zip (cells g) (renditions g)).
Definition normal_content_lines (s : TerminalScreen) : list text :=
  history_lines (history s) ++ (if alt_active (alternate s) then [] else visible_lines s).
Definition normal_styled_content_lines (s : TerminalScreen) : list TerminalStyledLine :=
  history_styled_lines (history s) ++ (if alt_active (alternate s) then [] else visible_styled_lines s).

(** Row [row] as a physical line. *)
Definition physical_row (s : TerminalScreen) (row : nat) : panicking PhysicalStyledLine :=
  let g := screen_grid s in
  cs ← index_or_panic (cells g) row;
  rs ← index_or_panic (renditions g) row;
  Ok {| physical_line := styled_row g (emoji_of s) row cs rs;
        wraps_to_next := default false (line_wraps g !! row) |}.
Fixpoint physical_rows (s : TerminalScreen) (l : list nat) : panicking (list PhysicalStyledLine) :=
  match l with
  | [] => Ok []
  | row :: l => p ← physical_row s row; ps ← physical_rows s l; Ok (p :: ps)
  end.
Definition current_visible_rows (s : TerminalScreen) : panicking (list PhysicalStyledLine) :=
  let g := screen_grid s in
  let last := Nat.min (from_option (fun r => Nat.max r (row_of s)) (row_of s) (last_significant_row g))
                (length (cells g) - 1) in
  physical_rows s (range_incl 0 last).

(** ** Resizing *)

(** [self.last_significant_row() >= Some(rows)]. *)
Definition significant_from (rows : nat) (g : Grid) : bool :=
  from_option (fun r => rows <=? r) false (last_significant_row g).
Definition preserve_bottom (new_rows : nat) (s : TerminalScreen) : bool :=
  (new_rows <? length (cells (screen_grid s)))
  && ((new_rows <=? row_of s) || significant_from new_rows (screen_grid s)).

Definition clamp_saved (f : Surface) (row column : nat) : Surface :=
  set_saved_cursor (clamp_cursor row column <$> saved_cursor f) f.

Definition resize_cleared_normal_screen (z : Size) (s : TerminalScreen) : TerminalScreen :=
  let s := clear_screen (on_surface (set_sf_size z) s) in
  on_surface (fun f => clamp_saved f (max_row s) (max_column s)) s.

(** Pushes lines to the history. *)
Definition push_lines (l : list PhysicalStyledLine) (s : TerminalScreen) : TerminalScreen :=
  set_history (foldl (fun h p => push_styled_line_with_wrap (physical_line p) (wraps_to_next p) h)
                 (history s) l) s.

(** Whether a pending wrap survives: its cell fits the new width. *)
Definition preserve_delayed_wrap (z : Size) (s : TerminalScreen) : panicking bool :=
  if wrap_pending (surface s) then
    match leading_column_for_cell (row_of s) (column_of s) (screen_grid s) with
    | Some column =>
        c ← cell_at (row_of s) column (screen_grid s);
        Ok (cell_width c (emoji_of s) <=? n_columns z)
    | None => Ok false
    end
  else Ok false.

(** Reflows the visible rows to [z]; rows that no longer fit go to the history
    when [record] holds. *)
Definition reflow_visible (record : bool) (z : Size) (s : TerminalScreen) : panicking TerminalScreen :=
  let new_rows := n_rows z in
  let prefix := wrap_continuation_prefix (settings s) in
  let policy := log_frame_policy (settings s) in
  let preserve := preserve_copy_associations (settings s) in
  let bottom := preserve_bottom new_rows s in
  delayed ← preserve_delayed_wrap z s;
  source_rows ← current_visible_rows s;
  let position := cursor_logical_position source_rows (row_of s) (column_of s) (emoji_of s) 0 0 in
  let lines := merge_wrapped_physical_lines source_rows prefix (emoji_of s) preserve in
  let rows := reflow_logical_lines lines (n_columns z) prefix (emoji_of s) policy preserve in
  let visible_start := if bottom || (new_rows <? length rows) then length rows - new_rows else 0 in
  let s := on_surface (set_sf_size z) s in
  let s := if record then push_lines (take visible_start rows) s else s in
  g ← store_rows z (emoji_of s) (drop visible_start rows);
  let s := with_grid g s in
  let '(row, column) :=
    match position with
    | Some (logical_line, logical_column) =>
        let '(absolute_row, column) :=
          physical_position_for_logical_cursor lines logical_line (logical_column + Nat.b2n delayed)
            (n_columns z) prefix (emoji_of s) policy in
        (absolute_row - visible_start, column)
    | None => (row_of s, column_of s)
    end in
  let c := clamp_cursor (max_row s) (max_column s) {| c_row := row; c_column := column |} in
  Ok (on_surface (fun f =>
    clamp_saved (set_wrap_pending (delayed && autowrap_enabled f && (c_column c =? max_column s))
                   (set_cursor c f)) (max_row s) (max_column s)) s).

(** A row dropped by a shrinking grid that holds content. *)
Definition push_dropped (s : TerminalScreen) (row : nat) (h : HistoryBuffer) : panicking HistoryBuffer :=
  let g := screen_grid s in
  cs ← index_or_panic (cells g) row;
  if bool_decide (is_Some (mjoin (line_copy_texts g !! row)))
     || bool_decide (is_Some (mjoin (line_presentations g !! row)))
     || existsb (fun c => is_written c || negb (is_blank c)) cs
  then
    rs ← index_or_panic (renditions g) row;
    Ok (push_styled_line_with_wrap (styled_row g (emoji_of s) row cs rs)
          (default false (line_wraps g !! row)) h)
  else Ok h.

(** [row[..n].clone_from_slice(&source[..n])]. *)
Definition copy_prefix {A} (n : nat) (source row : list A) : panicking (list A) :=
  if (n <=? length source) && (n <=? length row) then Ok (take n source ++ drop n row) else Panic.

(** Row [row] of the new grid copied from row [row + offset]. *)
Definition keep_row (old : Grid) (offset columns row : nat) (g : Grid) : panicking Grid :=
  let source := row + offset in
  cs ← index_or_panic (cells g) row;
  old_cs ← index_or_panic (cells old) source;
  cs ← copy_prefix columns old_cs cs;
  rs ← index_or_panic (renditions g) row;
  old_rs ← index_or_panic (renditions old) source;
  rs ← copy_prefix columns old_rs rs;
  ws ← set_at row (default false (line_wraps old !! source)) (line_wraps g);
  ts ← set_at row (mjoin (line_copy_texts old !! source)) (line_copy_texts g);
  ss ← set_at row (mjoin (line_copy_sources old !! source)) (line_copy_sources g);
  ps ← set_at row (mjoin (line_presentations old !! source)) (line_presentations g);
  Ok {| cells := <[row := cs]> (cells g); renditions := <[row := rs]> (renditions g);
        line_wraps := ws; line_copy_texts := ts; line_copy_sources := ss; line_presentations := ps |}.

Definition resize_grid_preserving_cells (z : Size) (s : TerminalScreen) : panicking TerminalScreen :=
  let old := screen_grid s in
  let old_rows := length (cells old) in
  let new_rows := n_rows z in
  let bottom := preserve_bottom new_rows s in
  let offset := if bottom then old_rows - new_rows else 0 in
  let fresh := blank_grid z default_rendition in
  let rows := Nat.min (old_rows - offset) (length (cells fresh)) in
  let columns := Nat.min (from_option length 0 (head (cells old)))
                   (from_option length 0 (head (cells fresh))) in
  g ← fold_outcome (keep_row old offset columns) (range 0 rows) fresh;
  h ← (if (new_rows <? old_rows) && negb (alt_active (alternate s))
       then fold_outcome (push_dropped s) (if bottom then range 0 offset else range new_rows old_rows)
              (history s)
       else Ok (history s));
  let s := with_grid g (on_surface (set_sf_size z) (set_history h s)) in
  let moved c := clamp_cursor (max_row s) (max_column s)
                   {| c_row := c_row c - offset; c_column := c_column c |} in
  Ok (on_surface (fun f =>
    let c := moved (cursor f) in
    set_saved_cursor (moved <$> saved_cursor f)
      (set_wrap_pending (wrap_pending f && autowrap_enabled f && (c_column c =? max_column s))
         (set_cursor c f))) s).

Definition resize_detached_normal_screen (z : Size) (s : TerminalScreen) : panicking TerminalScreen :=
  if (columns (sf_size (surface s)) =? columns z)%Z then resize_grid_preserving_cells z s
  else reflow_visible false z s.

(** The newest rows of the history, at most [n], oldest first. *)
Fixpoint pull_rows (n : nat) (h : HistoryBuffer) (pulled : list PhysicalStyledLine)
    : HistoryBuffer * list PhysicalStyledLine :=
  match n with
  | O => (h, pulled)
  | S n =>
      match pop_styled_line h with
      | (h, None) => (h, pulled)
      | (h, Some (line, wraps)) =>
          pull_rows n h ({| physical_line := line; wraps_to_next := wraps |} :: pulled)
      end
  end.

Definition resize_normal_screen_rows_only (z : Size) (s : TerminalScreen) : panicking TerminalScreen :=
  let old_rows := length (cells (screen_grid s)) in
  let new_rows := n_rows z in
  let live_bottom :=
    from_option (fun r => Nat.max r (row_of s)) (row_of s) (last_significant_row (screen_grid s)) in
  if old_rows <? new_rows then resize_grid_preserving_cells z s
  else if (new_rows <? old_rows) && (live_bottom <? new_rows) then resize_grid_preserving_cells z s
  else if new_rows =? old_rows then Ok (on_surface (set_sf_size z) s)
  else
    let bottom := (new_rows <? old_rows) && (new_rows <=? live_bottom) in
    visible ← current_visible_rows s;
    let moved := if bottom || (new_rows <? length visible) then length visible - new_rows else 0 in
    let pulled := new_rows - (length visible - moved) in
    let '(h, restored) := pull_rows pulled (history s) [] in
    let s := push_lines (take moved visible) (set_history h (on_surface (set_sf_size z) s)) in
    g ← store_rows z (emoji_of s) (restored ++ drop moved visible);
    let s := with_grid g s in
    let shifted c := clamp_cursor (max_row s) (max_column s)
                       {| c_row := c_row c + length restored - moved; c_column := c_column c |} in
    Ok (on_surface (fun f =>
      let c := shifted (cursor f) in
      set_saved_cursor (shifted <$> saved_cursor f)
        (set_wrap_pending (wrap_pending f && autowrap_enabled f && (c_column c =? max_column s))
           (set_cursor c f))) s).

Definition resize_normal_screen_reflowing (z : Size) (s : TerminalScreen) : panicking TerminalScreen :=
  reflow_visible true z s.

Definition resize_alternate_screen (z : Size) (s : TerminalScreen) : panicking TerminalScreen :=
  if (columns (sf_size (surface s)) =? columns z)%Z then resize_grid_preserving_cells z s
  else resize_detached_normal_screen z s.

Definition normal_screen_viewport_is_cleared (s : TerminalScreen) : bool :=
  bool_decide (last_significant_row (screen_grid s) = None) && (row_of s =? 0) && (column_of s =? 0).

Definition resize (z : Size) (s : TerminalScreen)
    : panicking (TerminalScreen * outcome TerminalSizeError unit) :=
  match TerminalSize_validate z with
  | Ok _ =>
      if bool_decide (sf_size (surface s) = z) then Ok (s, Ok tt)
      else
        let s := reset_normal_viewport_origin (mark_render_changed s) in
        let s := on_surface (set_region None) s in
        s ← (if alt_active (alternate s) then resize_alternate_screen z s
             else if detached (surface s) then resize_detached_normal_screen z s
             else if normal_screen_viewport_is_cleared s then Ok (resize_cleared_normal_screen z s)
             else if (columns (sf_size (surface s)) =? columns z)%Z
             then resize_normal_screen_rows_only z s
             else resize_normal_screen_reflowing z s);
        Ok (s, Ok tt)
  | r => Ok (s, r)
  end.

Definition set_emoji_width (ew : TerminalEmojiWidth) (k : Settings) : Settings :=
  {| log_frame_policy := log_frame_policy k; log_timestamp_rendition := log_timestamp_rendition k;
     preserve_copy_associations := preserve_copy_associations k;
     wrap_continuation_prefix := wrap_continuation_prefix k; emoji_width := ew |}.
Definition rebuild_for_width_policy_change (ew : TerminalEmojiWidth) (s : TerminalScreen)
    : panicking TerminalScreen :=
  let s := reset_normal_viewport_origin (mark_render_changed s) in
  let s := set_settings (set_emoji_width ew (settings s)) s in
  let z := sf_size (surface s) in
  let s := no_wrap s in
  if alt_active (alternate s) || detached (surface s) then resize_detached_normal_screen z s
  else if normal_screen_viewport_is_cleared s then resize_grid_preserving_cells z s
  else resize_normal_screen_reflowing z s.

(** ** Synchronized output *)

(** The projection of the current state, with a fresh generation. *)
Definition freeze (s : TerminalScreen) : TerminalScreen * FrozenPresentation :=
  let k := generations s in
  let fresh := next_render_generation k in
  (set_generations {| next_generation := fresh; render_generation := render_generation k;
                      normal_scroll_rows := normal_scroll_rows k;
                      normal_scroll_epoch := normal_scroll_epoch k |} s,
   {| frozen_lines := visible_styled_lines s; frozen_cursor := cursor (surface s);
      frozen_cursor_visible := cursor_visible (surface s);
      frozen_alternate := alt_active (alternate s); frozen_generation := fresh |}).

Definition begin_synchronized_output (s : TerminalScreen) : TerminalScreen :=
  let o := synchronized_output s in
  let epoch := wrap u64_MAX (sync_begin_epoch o + 1) in
  let '(s, o) :=
    if sync_active o
    then (s, {| sync_active := true; sync_begin_epoch := epoch;
                frozen_presentation := frozen_presentation o;
                full_redraw_required := full_redraw_required o |})
    else let '(s, p) := freeze s in
         (s, {| sync_active := true; sync_begin_epoch := epoch; frozen_presentation := Some p;
                full_redraw_required := full_redraw_required o |}) in
  let r := synchronized_output_outcome s in
  set_synchronized_output_outcome
    {| begin_epoch := Some epoch; rearm_timeout := true; released := released r;
       full_redraw := full_redraw r |} (set_synchronized_output o s).

Definition refresh_synchronized_output_presentation (s : TerminalScreen) : TerminalScreen :=
  let o := synchronized_output s in
  if sync_active o then
    let '(s, p) := freeze s in
    set_synchronized_output
      {| sync_active := true; sync_begin_epoch := sync_begin_epoch o; frozen_presentation := Some p;
         full_redraw_required := full_redraw_required o |} s
  else s.

Definition end_synchronized_output (s : TerminalScreen) : TerminalScreen :=
  let o := synchronized_output s in
  let r := synchronized_output_outcome s in
  if sync_active o then
    set_synchronized_output_outcome
      {| begin_epoch := begin_epoch r; rearm_timeout := rearm_timeout r; released := true;
         full_redraw := full_redraw_required o |}
      (set_synchronized_output
         {| sync_active := false; sync_begin_epoch := sync_begin_epoch o; frozen_presentation := None;
            full_redraw_required := false |} s)
  else s.

Definition require_full_redraw (o : SynchronizedOutputState) : SynchronizedOutputState :=
  {| sync_active := sync_active o; sync_begin_epoch := sync_begin_epoch o;
     frozen_presentation := frozen_presentation o; full_redraw_required := true |}.
Definition mark_synchronized_output_full_redraw (s : TerminalScreen) : TerminalScreen :=
  if sync_active (synchronized_output s)
  then set_synchronized_output (require_full_redraw (synchronized_output s)) s else s.
Definition force_release_synchronized_output (s : TerminalScreen) : TerminalScreen * bool :=
  if sync_active (synchronized_output s)
  then (end_synchronized_output (mark_synchronized_output_full_redraw s), true)
  else (s, false).

Definition merge_outcome (a later : SynchronizedOutputFeedOutcome) : SynchronizedOutputFeedOutcome :=
  {| begin_epoch := match begin_epoch later with Some e => Some e | None => begin_epoch a end;
     rearm_timeout := rearm_timeout a || rearm_timeout later;
     released := released a || released later;
     full_redraw := full_redraw a || full_redraw later |}.

(** What attached clients see. *)
Definition presentation_visible_styled_lines (s : TerminalScreen) : list TerminalStyledLine :=
  from_option frozen_lines (visible_styled_lines s) (frozen_presentation (synchronized_output s)).
Definition presentation_cursor_state (s : TerminalScreen) : Cursor :=
  from_option frozen_cursor (cursor (surface s)) (frozen_presentation (synchronized_output s)).

(** ** Other updates of the content *)

Definition set_log_frame_settings (policy : LogFramePolicy) (r : GraphicRendition)
    (s : TerminalScreen) : panicking TerminalScreen :=
  let k := settings s in
  let old := log_frame_policy k in
  if bool_decide (old = policy) && bool_decide (log_timestamp_rendition k = r) then Ok s
  else
    let s := if timestamps old || timestamps policy
             then (force_release_synchronized_output s).1 else s in
    let geometry_changed :=
      negb (Bool.eqb (timestamps old) (timestamps policy))
      || (timestamps policy
          && (negb (wrap_cap old =? wrap_cap policy)
              || negb (format_width (timestamp_format old) =? format_width (timestamp_format policy)))) in
    let s := set_settings
      {| log_frame_policy := policy; log_timestamp_rendition := r;
         preserve_copy_associations := preserve_copy_associations k || timestamps policy;
         wrap_continuation_prefix := wrap_continuation_prefix k; emoji_width := emoji_width k |} s in
    s ← (if geometry_changed && negb (alt_active (alternate s))
         then resize_normal_screen_reflowing (sf_size (surface s)) s else Ok s);
    Ok (mark_render_changed s).

(** One row of the visible screen into the history, its metadata optional. *)
Definition push_visible (s : TerminalScreen) (row : nat) (h : HistoryBuffer) : panicking HistoryBuffer :=
  p ← physical_row s row;
  Ok (push_styled_line_with_wrap (physical_line p) (wraps_to_next p) h).
Definition clear_visible_into_history (s : TerminalScreen) : panicking TerminalScreen :=
  let s := reset_normal_viewport_origin (mark_render_changed s) in
  if alt_active (alternate s) then Ok (clear_screen s)
  else
    h ← (match last_significant_row (screen_grid s) with
         | Some last => fold_outcome (push_visible s) (range_incl 0 last) (history s)
         | None => Ok (history s)
         end);
    Ok (on_surface (set_detached true) (clear_screen (set_history h s))).

Definition set_history_limit (limit : Z) (s : TerminalScreen) : TerminalScreen * outcome string unit :=
  let '(h, r) := set_limit limit (history s) in (set_history h s, r).
Definition set_history_rotate_lines (n : Z) (s : TerminalScreen) : TerminalScreen * outcome string unit :=
  let '(h, r) := set_rotate_lines n (history s) in (set_history h s, r).
Definition clear_screen_history (s : TerminalScreen) : TerminalScreen :=
  mark_render_changed (on_surface (set_detached false) (set_history (clear_history (history s)) s)).

Definition preserve_normal_viewport_origin (presented s : TerminalScreen) : panicking TerminalScreen :=
  let k := generations s in
  let p := generations presented in
  if negb (bool_decide (sf_size (surface s) = sf_size (surface presented)))
     || negb (normal_scroll_epoch k =? normal_scroll_epoch p)%Z
     || alt_active (alternate s) || alt_active (alternate presented)
     || (normal_scroll_rows p <=? normal_scroll_rows k)%Z
  then Ok s
  else
    let rows := Z.to_nat (Z.min (normal_scroll_rows p - normal_scroll_rows k)
                            (rows (sf_size (surface s)))) in
    s ← scroll_region_up_from 0 (max_row s) (Z.of_nat rows) s;
    let s := if row_of s <? rows
             then on_surface (fun f => set_wrap_pending false (set_column 0 f)) s else s in
    let s := on_surface (fun f => set_row (c_row (cursor f) - rows) f) s in
    let k := generations s in
    Ok (mark_render_changed (set_generations
      {| next_generation := next_generation k; render_generation := render_generation k;
         normal_scroll_rows := normal_scroll_rows p; normal_scroll_epoch := normal_scroll_epoch k |} s)).

(** Copy texts assigned to the newest logical lines. *)
Inductive NormalPhysicalLineIndex := HistoryLine (row : nat) | VisibleLine (row : nat).
Definition normal_physical_line_count (s : TerminalScreen) : nat :=
  h_len (history s) + length (cells (screen_grid s)).
Definition normal_physical_line_index (offset : nat) (s : TerminalScreen)
    : option NormalPhysicalLineIndex :=
  let history_rows := h_len (history s) in
  if offset <? history_rows then Some (HistoryLine offset)
  else if offset - history_rows <? length (cells (screen_grid s))
  then Some (VisibleLine (offset - history_rows)) else None.
Definition normal_physical_line_wraps_to_next (offset : nat) (s : TerminalScreen) : bool :=
  match normal_physical_line_index offset s with
  | Some (HistoryLine row) => history_line_wraps (history s) row
  | Some (VisibleLine row) => default false (line_wraps (screen_grid s) !! row)
  | None => false
  end.
Definition normal_physical_line_is_blank (offset : nat) (s : TerminalScreen) : bool :=
  match normal_physical_line_index offset s with
  | Some (HistoryLine row) => from_option (forallb is_whitespace) true (line_at (history s) row)
  | Some (VisibleLine row) => from_option (forallb text_is_whitespace) true (cells (screen_grid s) !! row)
  | None => true
  end.
Definition assign_normal_physical_copy_text (copy : option text) (s : TerminalScreen)
    (index : NormalPhysicalLineIndex) : TerminalScreen :=
  match index with
  | HistoryLine row => set_history (set_copy_text row copy (history s)) s
  | VisibleLine row =>
      let g := screen_grid s in
      with_grid (set_line_copy_texts (<[row := copy]> (line_copy_texts g)) g) s
  end.
Definition assign_copy_text_at (copy : text) (s : TerminalScreen) (offset : nat) : TerminalScreen :=
  from_option (assign_normal_physical_copy_text (Some copy) s) s (normal_physical_line_index offset s).

(** The end of the last line that is not blank, and the rows inspected. *)
Fixpoint skip_blank_tail (target_end : nat) (s : TerminalScreen) : nat * nat :=
  match target_end with
  | O => (O, O)
  | S target =>
      if normal_physical_line_wraps_to_next target s || negb (normal_physical_line_is_blank target s)
      then (target_end, 1)
      else let '(e, inspected) := skip_blank_tail target s in (e, inspected + 1)
  end.
(** The first row of the logical line that ends at [start]. *)
Fixpoint logical_start (start : nat) (s : TerminalScreen) : nat * nat :=
  match start with
  | O => (O, O)
  | S previous =>
      if normal_physical_line_wraps_to_next previous s
      then let '(e, inspected) := logical_start previous s in (e, inspected + 1)
      else (start, 1)
  end.
Fixpoint assign_copy_texts (newest_first : list text) (continuation : option text)
    (target_end : nat) (s : TerminalScreen) : TerminalScreen * nat :=
  match newest_first with
  | [] => (s, O)
  | copy :: rest =>
      if target_end =? 0 then (s, O)
      else
        let '(start, inspected) := logical_start (target_end - 1) s in
        let s := assign_copy_text_at copy s start in
        let s := foldl (assign_copy_text_at (default copy continuation)) s
                   (range (start + 1) target_end) in
        let '(s, more) := assign_copy_texts rest continuation start s in (s, inspected + more)
  end.
Definition set_recent_normal_copy_texts_inner (copies : list text) (continuation : option text)
    (s : TerminalScreen) : TerminalScreen * nat :=
  if bool_decide (copies = []) || alt_active (alternate s) then (s, O)
  else
    let '(target_end, inspected) := skip_blank_tail (normal_physical_line_count s) s in
    let '(s, more) := assign_copy_texts (reverse copies) continuation target_end s in
    (s, inspected + more).
Definition set_recent_normal_copy_texts (copies : list text) (continuation : option text)
    (s : TerminalScreen) : TerminalScreen :=
  let '(s, inspected) := set_recent_normal_copy_texts_inner copies continuation s in
  if 0 <? inspected then mark_render_changed s else s.

End Reflow.
