(* ===== verification/ScreenParser.v ===== *)
(** * Control sequences and the life of a terminal screen

    The incremental parser of control sequences and its dispatch
    (screen/parser.rs), the modes it sets and the state that outlives a
    process (state.rs, screen/state.rs), construction, input of bytes, hidden
    protocol input (lifecycle.rs) and scoped presentation input (content.rs).
    Characters and bytes are numbers. *)

From S2P Require Import Prelude RustStr LayoutTypes Utf8Text ReadlineText Readline ReadlineKeys KeyInput.
From S2P Require Import TermText History Screen ScreenReflow.
#[local] Open Scope nat_scope.

(** Updates of one field. *)

Definition set_parser_state (v : ParserState) (p : Parser) : Parser :=
  {| parser_state := v; csi_buffer := csi_buffer p;
     csi_buffer_truncated := csi_buffer_truncated p; dcs_buffer := dcs_buffer p;
     dcs_buffer_truncated := dcs_buffer_truncated p; dcs_enabled := dcs_enabled p;
     osc_buffer := osc_buffer p; osc_buffer_truncated := osc_buffer_truncated p;
     g0_charset := g0_charset p; g1_charset := g1_charset p; shift_out := shift_out p;
     utf8_tail := utf8_tail p |}.
Definition set_csi_buffer (v : text) (p : Parser) : Parser :=
  {| parser_state := parser_state p; csi_buffer := v;
     csi_buffer_truncated := csi_buffer_truncated p; dcs_buffer := dcs_buffer p;
     dcs_buffer_truncated := dcs_buffer_truncated p; dcs_enabled := dcs_enabled p;
     osc_buffer := osc_buffer p; osc_buffer_truncated := osc_buffer_truncated p;
     g0_charset := g0_charset p; g1_charset := g1_charset p; shift_out := shift_out p;
     utf8_tail := utf8_tail p |}.
Definition set_csi_buffer_truncated (v : bool) (p : Parser) : Parser :=
  {| parser_state := parser_state p; csi_buffer := csi_buffer p; csi_buffer_truncated := v;
     dcs_buffer := dcs_buffer p; dcs_buffer_truncated := dcs_buffer_truncated p;
     dcs_enabled := dcs_enabled p; osc_buffer := osc_buffer p;
     osc_buffer_truncated := osc_buffer_truncated p; g0_charset := g0_charset p;
     g1_charset := g1_charset p; shift_out := shift_out p; utf8_tail := utf8_tail p |}.
Definition set_dcs_buffer (v : text) (p : Parser) : Parser :=
  {| parser_state := parser_state p; csi_buffer := csi_buffer p;
     csi_buffer_truncated := csi_buffer_truncated p; dcs_buffer := v;
     dcs_buffer_truncated := dcs_buffer_truncated p; dcs_enabled := dcs_enabled p;
     osc_buffer := osc_buffer p; osc_buffer_truncated := osc_buffer_truncated p;
     g0_charset := g0_charset p; g1_charset := g1_charset p; shift_out := shift_out p;
     utf8_tail := utf8_tail p |}.
Definition set_dcs_buffer_truncated (v : bool) (p : Parser) : Parser :=
  {| parser_state := parser_state p; csi_buffer := csi_buffer p;
     csi_buffer_truncated := csi_buffer_truncated p; dcs_buffer := dcs_buffer p;
     dcs_buffer_truncated := v; dcs_enabled := dcs_enabled p; osc_buffer := osc_buffer p;
     osc_buffer_truncated := osc_buffer_truncated p; g0_charset := g0_charset p;
     g1_charset := g1_charset p; shift_out := shift_out p; utf8_tail := utf8_tail p |}.
Definition set_dcs_enabled (v : bool) (p : Parser) : Parser :=
  {| parser_state := parser_state p; csi_buffer := csi_buffer p;
     csi_buffer_truncated := csi_buffer_truncated p; dcs_buffer := dcs_buffer p;
     dcs_buffer_truncated := dcs_buffer_truncated p; dcs_enabled := v;
     osc_buffer := osc_buffer p; osc_buffer_truncated := osc_buffer_truncated p;
     g0_charset := g0_charset p; g1_charset := g1_charset p; shift_out := shift_out p;
     utf8_tail := utf8_tail p |}.
Definition set_osc_buffer (v : text) (p : Parser) : Parser :=
  {| parser_state := parser_state p; csi_buffer := csi_buffer p;
     csi_buffer_truncated := csi_buffer_truncated p; dcs_buffer := dcs_buffer p;
     dcs_buffer_truncated := dcs_buffer_truncated p; dcs_enabled := dcs_enabled p;
     osc_buffer := v; osc_buffer_truncated := osc_buffer_truncated p; g0_charset := g0_charset p;
     g1_charset := g1_charset p; shift_out := shift_out p; utf8_tail := utf8_tail p |}.
Definition set_osc_buffer_truncated (v : bool) (p : Parser) : Parser :=
  {| parser_state := parser_state p; csi_buffer := csi_buffer p;
     csi_buffer_truncated := csi_buffer_truncated p; dcs_buffer := dcs_buffer p;
     dcs_buffer_truncated := dcs_buffer_truncated p; dcs_enabled := dcs_enabled p;
     osc_buffer := osc_buffer p; osc_buffer_truncated := v; g0_charset := g0_charset p;
     g1_charset := g1_charset p; shift_out := shift_out p; utf8_tail := utf8_tail p |}.
Definition set_g0_charset (v : TerminalCharset) (p : Parser) : Parser :=
  {| parser_state := parser_state p; csi_buffer := csi_buffer p;
     csi_buffer_truncated := csi_buffer_truncated p; dcs_buffer := dcs_buffer p;
     dcs_buffer_truncated := dcs_buffer_truncated p; dcs_enabled := dcs_enabled p;
     osc_buffer := osc_buffer p; osc_buffer_truncated := osc_buffer_truncated p; g0_charset := v;
     g1_charset := g1_charset p; shift_out := shift_out p; utf8_tail := utf8_tail p |}.
Definition set_g1_charset (v : TerminalCharset) (p : Parser) : Parser :=
  {| parser_state := parser_state p; csi_buffer := csi_buffer p;
     csi_buffer_truncated := csi_buffer_truncated p; dcs_buffer := dcs_buffer p;
     dcs_buffer_truncated := dcs_buffer_truncated p; dcs_enabled := dcs_enabled p;
     osc_buffer := osc_buffer p; osc_buffer_truncated := osc_buffer_truncated p;
     g0_charset := g0_charset p; g1_charset := v; shift_out := shift_out p;
     utf8_tail := utf8_tail p |}.
Definition set_shift_out (v : bool) (p : Parser) : Parser :=
  {| parser_state := parser_state p; csi_buffer := csi_buffer p;
     csi_buffer_truncated := csi_buffer_truncated p; dcs_buffer := dcs_buffer p;
     dcs_buffer_truncated := dcs_buffer_truncated p; dcs_enabled := dcs_enabled p;
     osc_buffer := osc_buffer p; osc_buffer_truncated := osc_buffer_truncated p;
     g0_charset := g0_charset p; g1_charset := g1_charset p; shift_out := v;
     utf8_tail := utf8_tail p |}.
Definition set_utf8_tail (v : bytes) (p : Parser) : Parser :=
  {| parser_state := parser_state p; csi_buffer := csi_buffer p;
     csi_buffer_truncated := csi_buffer_truncated p; dcs_buffer := dcs_buffer p;
     dcs_buffer_truncated := dcs_buffer_truncated p; dcs_enabled := dcs_enabled p;
     osc_buffer := osc_buffer p; osc_buffer_truncated := osc_buffer_truncated p;
     g0_charset := g0_charset p; g1_charset := g1_charset p; shift_out := shift_out p;
     utf8_tail := v |}.
Definition set_bracketed_paste_enabled (v : bool) (m : Modes) : Modes :=
  {| bracketed_paste_enabled := v;
     normal_mouse_tracking_enabled := normal_mouse_tracking_enabled m;
     button_event_mouse_tracking_enabled := button_event_mouse_tracking_enabled m;
     any_event_mouse_tracking_enabled := any_event_mouse_tracking_enabled m;
     sgr_mouse_enabled := sgr_mouse_enabled m;
     application_cursor_enabled := application_cursor_enabled m;
     line_feed_newline_enabled := line_feed_newline_enabled m;
     application_keypad_enabled := application_keypad_enabled m;
     focus_events_enabled := focus_events_enabled m;
     saved_dec_private_modes := saved_dec_private_modes m |}.
Definition set_normal_mouse_tracking_enabled (v : bool) (m : Modes) : Modes :=
  {| bracketed_paste_enabled := bracketed_paste_enabled m; normal_mouse_tracking_enabled := v;
     button_event_mouse_tracking_enabled := button_event_mouse_tracking_enabled m;
     any_event_mouse_tracking_enabled := any_event_mouse_tracking_enabled m;
     sgr_mouse_enabled := sgr_mouse_enabled m;
     application_cursor_enabled := application_cursor_enabled m;
     line_feed_newline_enabled := line_feed_newline_enabled m;
     application_keypad_enabled := application_keypad_enabled m;
     focus_events_enabled := focus_events_enabled m;
     saved_dec_private_modes := saved_dec_private_modes m |}.
Definition set_button_event_mouse_tracking_enabled (v : bool) (m : Modes) : Modes :=
  {| bracketed_paste_enabled := bracketed_paste_enabled m;
     normal_mouse_tracking_enabled := normal_mouse_tracking_enabled m;
     button_event_mouse_tracking_enabled := v;
     any_event_mouse_tracking_enabled := any_event_mouse_tracking_enabled m;
     sgr_mouse_enabled := sgr_mouse_enabled m;
     application_cursor_enabled := application_cursor_enabled m;
     line_feed_newline_enabled := line_feed_newline_enabled m;
     application_keypad_enabled := application_keypad_enabled m;
     focus_events_enabled := focus_events_enabled m;
     saved_dec_private_modes := saved_dec_private_modes m |}.
Definition set_any_event_mouse_tracking_enabled (v : bool) (m : Modes) : Modes :=
  {| bracketed_paste_enabled := bracketed_paste_enabled m;
     normal_mouse_tracking_enabled := normal_mouse_tracking_enabled m;
     button_event_mouse_tracking_enabled := button_event_mouse_tracking_enabled m;
     any_event_mouse_tracking_enabled := v; sgr_mouse_enabled := sgr_mouse_enabled m;
     application_cursor_enabled := application_cursor_enabled m;
     line_feed_newline_enabled := line_feed_newline_enabled m;
     application_keypad_enabled := application_keypad_enabled m;
     focus_events_enabled := focus_events_enabled m;
     saved_dec_private_modes := saved_dec_private_modes m |}.
Definition set_sgr_mouse_enabled (v : bool) (m : Modes) : Modes :=
  {| bracketed_paste_enabled := bracketed_paste_enabled m;
     normal_mouse_tracking_enabled := normal_mouse_tracking_enabled m;
     button_event_mouse_tracking_enabled := button_event_mouse_tracking_enabled m;
     any_event_mouse_tracking_enabled := any_event_mouse_tracking_enabled m;
     sgr_mouse_enabled := v; application_cursor_enabled := application_cursor_enabled m;
     line_feed_newline_enabled := line_feed_newline_enabled m;
     application_keypad_enabled := application_keypad_enabled m;
     focus_events_enabled := focus_events_enabled m;
     saved_dec_private_modes := saved_dec_private_modes m |}.
Definition set_application_cursor_enabled (v : bool) (m : Modes) : Modes :=
  {| bracketed_paste_enabled := bracketed_paste_enabled m;
     normal_mouse_tracking_enabled := normal_mouse_tracking_enabled m;
     button_event_mouse_tracking_enabled := button_event_mouse_tracking_enabled m;
     any_event_mouse_tracking_enabled := any_event_mouse_tracking_enabled m;
     sgr_mouse_enabled := sgr_mouse_enabled m; application_cursor_enabled := v;
     line_feed_newline_enabled := line_feed_newline_enabled m;
     application_keypad_enabled := application_keypad_enabled m;
     focus_events_enabled := focus_events_enabled m;
     saved_dec_private_modes := saved_dec_private_modes m |}.
Definition set_line_feed_newline_enabled (v : bool) (m : Modes) : Modes :=
  {| bracketed_paste_enabled := bracketed_paste_enabled m;
     normal_mouse_tracking_enabled := normal_mouse_tracking_enabled m;
     button_event_mouse_tracking_enabled := button_event_mouse_tracking_enabled m;
     any_event_mouse_tracking_enabled := any_event_mouse_tracking_enabled m;
     sgr_mouse_enabled := sgr_mouse_enabled m;
     application_cursor_enabled := application_cursor_enabled m; line_feed_newline_enabled := v;
     application_keypad_enabled := application_keypad_enabled m;
     focus_events_enabled := focus_events_enabled m;
     saved_dec_private_modes := saved_dec_private_modes m |}.
Definition set_application_keypad_enabled (v : bool) (m : Modes) : Modes :=
  {| bracketed_paste_enabled := bracketed_paste_enabled m;
     normal_mouse_tracking_enabled := normal_mouse_tracking_enabled m;
     button_event_mouse_tracking_enabled := button_event_mouse_tracking_enabled m;
     any_event_mouse_tracking_enabled := any_event_mouse_tracking_enabled m;
     sgr_mouse_enabled := sgr_mouse_enabled m;
     application_cursor_enabled := application_cursor_enabled m;
     line_feed_newline_enabled := line_feed_newline_enabled m; application_keypad_enabled := v;
     focus_events_enabled := focus_events_enabled m;
     saved_dec_private_modes := saved_dec_private_modes m |}.
Definition set_focus_events_enabled (v : bool) (m : Modes) : Modes :=
  {| bracketed_paste_enabled := bracketed_paste_enabled m;
     normal_mouse_tracking_enabled := normal_mouse_tracking_enabled m;
     button_event_mouse_tracking_enabled := button_event_mouse_tracking_enabled m;
     any_event_mouse_tracking_enabled := any_event_mouse_tracking_enabled m;
     sgr_mouse_enabled := sgr_mouse_enabled m;
     application_cursor_enabled := application_cursor_enabled m;
     line_feed_newline_enabled := line_feed_newline_enabled m;
     application_keypad_enabled := application_keypad_enabled m; focus_events_enabled := v;
     saved_dec_private_modes := saved_dec_private_modes m |}.
Definition set_saved_dec_private_modes (v : gmap Z bool) (m : Modes) : Modes :=
  {| bracketed_paste_enabled := bracketed_paste_enabled m;
     normal_mouse_tracking_enabled := normal_mouse_tracking_enabled m;
     button_event_mouse_tracking_enabled := button_event_mouse_tracking_enabled m;
     any_event_mouse_tracking_enabled := any_event_mouse_tracking_enabled m;
     sgr_mouse_enabled := sgr_mouse_enabled m;
     application_cursor_enabled := application_cursor_enabled m;
     line_feed_newline_enabled := line_feed_newline_enabled m;
     application_keypad_enabled := application_keypad_enabled m;
     focus_events_enabled := focus_events_enabled m; saved_dec_private_modes := v |}.
Definition set_osc_events (v : list TerminalOscEvent) (o : Outputs) : Outputs :=
  {| osc_events := v; terminal_response_bytes := terminal_response_bytes o; title := title o;
     activity_events := activity_events o; bell_events := bell_events o |}.
Definition set_terminal_response_bytes (v : bytes) (o : Outputs) : Outputs :=
  {| osc_events := osc_events o; terminal_response_bytes := v; title := title o;
     activity_events := activity_events o; bell_events := bell_events o |}.
Definition set_title (v : option text) (o : Outputs) : Outputs :=
  {| osc_events := osc_events o; terminal_response_bytes := terminal_response_bytes o;
     title := v; activity_events := activity_events o; bell_events := bell_events o |}.
Definition set_activity_events (v : Z) (o : Outputs) : Outputs :=
  {| osc_events := osc_events o; terminal_response_bytes := terminal_response_bytes o;
     title := title o; activity_events := v; bell_events := bell_events o |}.
Definition set_bell_events (v : Z) (o : Outputs) : Outputs :=
  {| osc_events := osc_events o; terminal_response_bytes := terminal_response_bytes o;
     title := title o; activity_events := activity_events o; bell_events := v |}.

Definition on_parser (h : Parser -> Parser) (s : TerminalScreen) : TerminalScreen :=
  set_parser (h (parser s)) s.
Definition on_modes (h : Modes -> Modes) (s : TerminalScreen) : TerminalScreen :=
  set_modes (h (modes s)) s.
Definition on_outputs (h : Outputs -> Outputs) (s : TerminalScreen) : TerminalScreen :=
  set_outputs (h (outputs s)) s.
Definition goto (p : ParserState) (s : TerminalScreen) : TerminalScreen :=
  on_parser (set_parser_state p) s.

(** ** Decoding *)

(** [split_once(';')]. *)
Fixpoint split_once_at (c : rchar) (t : text) : option (text * text) :=
  match t with
  | [] => None
  | d :: t => if (d =? c)%Z then Some ([], t)
              else '(a, b) ← split_once_at c t; Some (d :: a, b)
  end.
(** [strip_prefix]. *)
Definition strip_start (p t : text) : option text :=
  if text_prefix p t then Some (drop (length p) t) else None.

(** The sextet of a base64 byte, 64 for padding. *)
Definition base64_value (b : byte) : option Z :=
  if in_range 65 90 b then Some (b - 65)%Z
  else if in_range 97 122 b then Some (b - 97 + 26)%Z
  else if in_range 48 57 b then Some (b - 48 + 52)%Z
  else if (b =? 43)%Z then Some 62%Z
  else if (b =? 47)%Z then Some 63%Z
  else if (b =? 61)%Z then Some 64%Z
  else None.
(** A byte operation keeps its low eight bits. *)
Definition u8 (z : Z) : byte := Z.land z 255.
Definition push_decoded_base64_quartet (a b c d : Z) : option bytes :=
  if ((a =? 64) || (b =? 64))%Z then None
  else
    let first := u8 (Z.lor (Z.shiftl a 2) (Z.shiftr b 4)) in
    let second := if (c =? 64)%Z then [] else [u8 (Z.lor (Z.shiftl b 4) (Z.shiftr c 2))] in
    if (d =? 64)%Z then Some (first :: second)
    else if (c =? 64)%Z then None
    else Some (first :: second ++ [u8 (Z.lor (Z.shiftl c 6) d)]).

(** The loop over the sextets, with the sextets of the open quartet. *)
Fixpoint decode_quartets (l : bytes) (quartet : list Z) : option bytes :=
  match l with
  | [] => match quartet with [] => Some [] | _ => None end
  | b :: l =>
      v ← base64_value b;
      match quartet with
      | [x; y; z] =>
          out ← push_decoded_base64_quartet x y z v;
          rest ← decode_quartets l [];
          Some (out ++ rest)
      | _ => decode_quartets l (quartet ++ [v])
      end
  end.
Definition is_ascii_whitespace (b : byte) : bool :=
  bool_decide (b ∈ [32; 9; 10; 12; 13]%Z).
Definition decode_standard_base64 (encoded : text) : option bytes :=
  if bool_decide (encoded = [63%Z]) then None
  else decode_quartets (List.filter (fun b => negb (is_ascii_whitespace b)) (encode encoded)) [].
Definition decode_standard_base64_utf8 (encoded : text) : option text :=
  decode_standard_base64 encoded ≫= from_utf8.

Definition parse_dec_private_mode_params (params : text) : option (list Z) :=
  params ← strip_start [63%Z] params;
  mapM (parse_uint u16_MAX) (split_text_at 59 params).

Definition tracked_dec_private_mode (mode : Z) : bool :=
  bool_decide (mode ∈ [1; 6; 7; 25; 47; 1047; 1048; 1049; 1000; 1002; 1003; 1004; 1006; 2004]%Z).

(** [value.parse::<u8>()] of at most 100. *)
Definition parse_percent (t : text) : option Z :=
  v ← parse_uint u8_MAX t; if (v <=? 100)%Z then Some v else None.
Definition parse_terminal_progress (t : text) : option TerminalProgressState :=
  match split_text_at 59 t with
  | four :: state :: percent =>
      if negb (bool_decide (four = chars "4")) then None
      else match percent with
      | _ :: _ :: _ => None
      | percent =>
          let percent := head percent in
          if bool_decide (state = chars "0") then
            match percent with
            | None | Some [] => Some ProgressClear
            | Some p => if bool_decide (p = chars "0") then Some ProgressClear else None
            end
          else if bool_decide (state = chars "1") then
            p ← percent; ProgressNormal <$> parse_percent p
          else if bool_decide (state = chars "2") then
            match percent with
            | None => Some (ProgressError None)
            | Some p => (fun v => ProgressError (Some v)) <$> parse_percent p
            end
          else if bool_decide (state = chars "3") then
            match percent with None => Some ProgressIndeterminate | Some _ => None end
          else if bool_decide (state = chars "4") then
            p ← percent; ProgressWarning <$> parse_percent p
          else None
      end
  | _ => None
  end.

Section Parser.
Context {UT : UnicodeTables} {TT : TerminalText}.

(** ** Modes *)

Definition leave_alternate (a : AlternateScreenState) : AlternateScreenState * option Surface :=
  ({| alt_active := false; saved_normal_screen := None |}, saved_normal_screen a).
Definition enter_with_saved_normal_screen (f : Surface) (a : AlternateScreenState)
    : AlternateScreenState :=
  {| alt_active := true;
     saved_normal_screen := if alt_active a then saved_normal_screen a else Some f |}.

Definition saved_normal_screen_state (s : TerminalScreen) : Surface := surface s.
Definition restore_saved_normal_screen_state (f : Surface) (s : TerminalScreen)
    : panicking TerminalScreen :=
  let target_size := sf_size (surface s) in
  let s := set_surface f s in
  if bool_decide (sf_size f = target_size) then
    Ok (on_surface (fun f =>
      clamp_saved (set_cursor (clamp_cursor (max_row s) (max_column s) (cursor f)) f)
        (max_row s) (max_column s)) s)
  else '(s, _) ← resize target_size s; Ok s.

Definition next_alternate_generation (s : TerminalScreen) : TerminalScreen :=
  set_alternate_screen_generation (wrap u64_MAX (alternate_screen_generation s + 1)) s.

Definition enter_alternate_screen (mode : Z) (s : TerminalScreen) : TerminalScreen :=
  if alt_active (alternate s) then s
  else
    let s := if (mode =? 1049)%Z then save_cursor s else s in
    let s := set_alternate
               (enter_with_saved_normal_screen (saved_normal_screen_state s) (alternate s)) s in
    clear_screen (mark_synchronized_output_full_redraw (next_alternate_generation s)).
Definition leave_alternate_screen (mode : Z) (s : TerminalScreen) : panicking TerminalScreen :=
  let '(a, saved) := leave_alternate (alternate s) in
  let s := set_alternate a s in
  match saved with
  | Some f =>
      s ← restore_saved_normal_screen_state f
            (mark_synchronized_output_full_redraw (next_alternate_generation s));
      Ok (if (mode =? 1049)%Z then restore_cursor s else s)
  | None => Ok s
  end.

Definition apply_dec_private_mode (mode : Z) (enabled : bool) (s : TerminalScreen)
    : panicking TerminalScreen :=
  if bool_decide (mode ∈ [47; 1047; 1049]%Z) then
    if enabled then Ok (enter_alternate_screen mode s) else leave_alternate_screen mode s
  else Ok (
    if (mode =? 1048)%Z then if enabled then save_cursor s else restore_cursor s
    else if (mode =? 25)%Z then on_surface (set_cursor_visible enabled) s
    else if (mode =? 1)%Z then on_modes (set_application_cursor_enabled enabled) s
    else if (mode =? 7)%Z then
      on_surface (fun f => set_wrap_pending (enabled && wrap_pending f)
                             (set_autowrap_enabled enabled f)) s
    else if (mode =? 6)%Z then
      on_surface (fun f => set_wrap_pending false
        (set_cursor {| c_row := if enabled then (active_scroll_region s).1 else 0; c_column := 0 |}
           (set_origin_mode_enabled enabled f))) s
    else if (mode =? 1000)%Z then on_modes (set_normal_mouse_tracking_enabled enabled) s
    else if (mode =? 1002)%Z then on_modes (set_button_event_mouse_tracking_enabled enabled) s
    else if (mode =? 1003)%Z then on_modes (set_any_event_mouse_tracking_enabled enabled) s
    else if (mode =? 1004)%Z then on_modes (set_focus_events_enabled enabled) s
    else if (mode =? 1006)%Z then on_modes (set_sgr_mouse_enabled enabled) s
    else if (mode =? 2004)%Z then on_modes (set_bracketed_paste_enabled enabled) s
    else if (mode =? 2026)%Z then
      if enabled then begin_synchronized_output s else end_synchronized_output s
    else s).
Definition apply_dec_private_modes (l : list Z) (enabled : bool) (s : TerminalScreen)
    : panicking TerminalScreen :=
  fold_outcome (fun mode => apply_dec_private_mode mode enabled) l s.

(** A tracked mode that is not handled panics. *)
Definition dec_private_mode_enabled (mode : Z) (s : TerminalScreen) : panicking (option bool) :=
  if negb (tracked_dec_private_mode mode) then Ok None
  else if bool_decide (mode ∈ [47; 1047; 1049]%Z) then Ok (Some (alt_active (alternate s)))
  else if (mode =? 1048)%Z then Ok (Some (bool_decide (is_Some (saved_cursor (surface s)))))
  else if (mode =? 25)%Z then Ok (Some (cursor_visible (surface s)))
  else if (mode =? 1)%Z then Ok (Some (application_cursor_enabled (modes s)))
  else if (mode =? 7)%Z then Ok (Some (autowrap_enabled (surface s)))
  else if (mode =? 6)%Z then Ok (Some (origin_mode_enabled (surface s)))
  else if (mode =? 1000)%Z then Ok (Some (normal_mouse_tracking_enabled (modes s)))
  else if (mode =? 1002)%Z then Ok (Some (button_event_mouse_tracking_enabled (modes s)))
  else if (mode =? 1003)%Z then Ok (Some (any_event_mouse_tracking_enabled (modes s)))
  else if (mode =? 1004)%Z then Ok (Some (focus_events_enabled (modes s)))
  else if (mode =? 1006)%Z then Ok (Some (sgr_mouse_enabled (modes s)))
  else if (mode =? 2004)%Z then Ok (Some (bracketed_paste_enabled (modes s)))
  else Panic.

Definition save_dec_private_modes (l : list Z) (s : TerminalScreen) : panicking TerminalScreen :=
  fold_outcome (fun mode s =>
      o ← dec_private_mode_enabled mode s;
      Ok (match o with
          | Some enabled =>
              on_modes (fun m => set_saved_dec_private_modes
                                   (<[mode := enabled]> (saved_dec_private_modes m)) m) s
          | None => s
          end)) l s.
Definition restore_dec_private_modes (l : list Z) (s : TerminalScreen) : panicking TerminalScreen :=
  fold_outcome (fun mode s =>
      match saved_dec_private_modes (modes s) !! mode with
      | Some enabled => apply_dec_private_mode mode enabled s
      | None => Ok s
      end) l s.

(** ** Dispatch of control sequences *)

Definition respond (b : bytes) (s : TerminalScreen) : TerminalScreen :=
  on_outputs (fun o => set_terminal_response_bytes (terminal_response_bytes o ++ b) o) s.
Definition report_primary_device_attributes (params : text) (s : TerminalScreen) : TerminalScreen :=
  if bool_decide (params = []) || bool_decide (params = chars "0")
  then respond (27%Z :: chars "[?1;0c") s else s.
(** A position in decimal. *)
Definition number_bytes (n : nat) : bytes := chars (usize_to_string n).
Definition cursor_report (s : TerminalScreen) : bytes :=
  27%Z :: chars "[" ++ number_bytes (row_of s + 1) ++ chars ";"
  ++ number_bytes (column_of s + 1) ++ chars "R".
Definition report_device_status (params : text) (s : TerminalScreen) : TerminalScreen :=
  let parameter := first_csi_param params in
  if (parameter =? 5)%Z then respond (27%Z :: chars "[0n") s
  else if (parameter =? 6)%Z then respond (cursor_report s) s
  else s.

(** The final bytes that are not modes. *)
Definition dispatch_final (params : text) (final : rchar) (s : TerminalScreen)
    : panicking TerminalScreen :=
  let ch c := bool_decide (chars c = [final]) in
  let count := csi_count params in
  if ch "A" then Ok (move_cursor_relative params (-1) 0 s)
  else if ch "B" then Ok (move_cursor_relative params 1 0 s)
  else if ch "C" then Ok (move_cursor_relative params 0 1 s)
  else if ch "D" then Ok (move_cursor_relative params 0 (-1) s)
  else if ch "E" then Ok (move_cursor_next_line params s)
  else if ch "F" then Ok (move_cursor_previous_line params s)
  else if ch "G" || ch "`" then Ok (move_cursor_column params s)
  else if ch "H" || ch "f" then Ok (move_cursor params s)
  else if ch "X" then erase_chars count s
  else if ch "a" then Ok (move_cursor_relative params 0 1 s)
  else if ch "d" then Ok (move_cursor_row params s)
  else if ch "e" then Ok (move_cursor_relative params 1 0 s)
  else if ch "J" then erase_display params s
  else if ch "K" then erase_line params s
  else if ch "c" then Ok (report_primary_device_attributes params s)
  else if ch "n" then Ok (report_device_status params s)
  else if ch "@" then insert_blank_chars count s
  else if ch "P" then delete_chars count s
  else if ch "L" then insert_lines count s
  else if ch "M" then delete_lines count s
  else if ch "S" then scroll_region_up count s
  else if ch "T" then scroll_region_down count s
  else if ch "m" then Ok (apply_sgr params s)
  else if ch "r" then Ok (set_scroll_region params s)
  else if ch "s" then Ok (save_cursor s)
  else if ch "u" then Ok (restore_cursor s)
  else Ok s.

Definition dispatch_csi (params : text) (final : rchar) (s : TerminalScreen)
    : panicking TerminalScreen :=
  let private := parse_dec_private_mode_params params in
  let sets := (final =? 104)%Z in
  let switches := sets || (final =? 108)%Z in
  match private with
  | Some modes =>
      if switches then apply_dec_private_modes modes sets s
      else if (final =? 115)%Z then save_dec_private_modes modes s
      else if (final =? 114)%Z then restore_dec_private_modes modes s
      else dispatch_final params final s
  | None =>
      if switches && bool_decide (params = chars "20")
      then Ok (on_modes (set_line_feed_newline_enabled sets) s)
      else if switches && bool_decide (params = chars "4")
      then Ok (on_surface (set_insert_mode_enabled sets) s)
      else dispatch_final params final s
  end.

Definition feed_csi (c : rchar) (s : TerminalScreen) : panicking TerminalScreen :=
  let p := parser s in
  if in_range 64 126 c then
    s ← (if csi_buffer_truncated p then Ok s else dispatch_csi (csi_buffer p) c s);
    Ok (on_parser (fun p => set_parser_state Ground
          (set_csi_buffer_truncated false (set_csi_buffer [] p))) s)
  else if (blen (csi_buffer p) + len_utf8 c <=? MAX_CSI_STRING_BYTES)%Z
  then Ok (on_parser (fun p => set_csi_buffer (csi_buffer p ++ [c]) p) s)
  else Ok (on_parser (set_csi_buffer_truncated true) s).

(** ** Strings *)

Definition push_osc_char (c : rchar) (s : TerminalScreen) : TerminalScreen :=
  if (blen (osc_buffer (parser s)) + len_utf8 c <=? MAX_OSC_STRING_BYTES)%Z
  then on_parser (fun p => set_osc_buffer (osc_buffer p ++ [c]) p) s
  else on_parser (set_osc_buffer_truncated true) s.
Definition push_dcs_char (c : rchar) (s : TerminalScreen) : TerminalScreen :=
  if (blen (dcs_buffer (parser s)) + len_utf8 c <=? MAX_DCS_STRING_BYTES)%Z
  then on_parser (fun p => set_dcs_buffer (dcs_buffer p ++ [c]) p) s
  else on_parser (set_dcs_buffer_truncated true) s.

Definition emit (e : TerminalOscEvent) (s : TerminalScreen) : TerminalScreen :=
  on_outputs (fun o => set_osc_events (osc_events o ++ [e]) o) s.
Definition clipboard_request (t : text) : option TerminalClipboardRequest :=
  '(selection, encoded) ← split_once_at 59 t;
  if bool_decide (encoded = chars "?") then Some (ClipboardQuery selection)
  else ClipboardWrite selection <$> decode_standard_base64_utf8 encoded.
Definition dispatch_osc (payload : text) (s : TerminalScreen) : TerminalScreen :=
  match strip_start (chars "133;") payload with
  | Some rest => emit (ShellIntegration rest) s
  | None =>
      match split_once_at 59 payload with
      | None => s
      | Some (command, t) =>
          if bool_decide (command = chars "0") || bool_decide (command = chars "2")
          then emit (TitleChanged t) (on_outputs (set_title (Some t)) s)
          else if bool_decide (command = chars "9")
          then from_option (fun p => emit (Progress p) s) s (parse_terminal_progress t)
          else if bool_decide (command = chars "52")
          then from_option (fun r => emit (Clipboard r) s) s (clipboard_request t)
          else s
      end
  end.
Definition finish_osc (s : TerminalScreen) : TerminalScreen :=
  let p := parser s in
  let s := on_parser (fun p => set_osc_buffer_truncated false (set_osc_buffer [] p)) s in
  goto Ground (if osc_buffer_truncated p then s else dispatch_osc (osc_buffer p) s).
Definition feed_osc (c : rchar) (s : TerminalScreen) : TerminalScreen :=
  if (c =? 7)%Z then finish_osc s
  else if (c =? 27)%Z then goto OscEscape s
  else push_osc_char c s.
Definition feed_osc_escape (c : rchar) (s : TerminalScreen) : TerminalScreen :=
  if (c =? 92)%Z then finish_osc s
  else feed_osc c (goto Osc (push_osc_char 27 s)).

Definition finish_dcs (s : TerminalScreen) : TerminalScreen :=
  let p := parser s in
  let s := on_parser (fun p => set_dcs_buffer_truncated false (set_dcs_buffer [] p)) s in
  let s := if dcs_enabled p && negb (dcs_buffer_truncated p) then
             if text_prefix (chars "=1s") (dcs_buffer p) then begin_synchronized_output s
             else if text_prefix (chars "=2s") (dcs_buffer p) then end_synchronized_output s
             else s
           else s in
  goto Ground (on_parser (set_dcs_enabled false) s).
Definition feed_dcs (c : rchar) (s : TerminalScreen) : TerminalScreen :=
  if (c =? 27)%Z then goto DcsEscape s
  else if dcs_enabled (parser s) then push_dcs_char c s else s.
Definition feed_dcs_escape (c : rchar) (s : TerminalScreen) : TerminalScreen :=
  if (c =? 92)%Z then finish_dcs s
  else if (c =? 27)%Z then s
  else goto Dcs (if dcs_enabled (parser s) then push_dcs_char c (push_dcs_char 27 s) else s).

(** ** Characters *)

Definition designate_charset (g1 : bool) (c : rchar) (s : TerminalScreen) : TerminalScreen :=
  let set charset := on_parser (if g1 then set_g1_charset charset else set_g0_charset charset) s in
  goto Ground (if (c =? 48)%Z then set DecSpecialGraphics else if (c =? 66)%Z then set Ascii else s).

Definition feed_escape (c : rchar) (s : TerminalScreen) : panicking TerminalScreen :=
  let ch k := bool_decide (chars k = [c]) in
  if ch "[" then
    Ok (on_parser (fun p => set_parser_state Csi (set_csi_buffer_truncated false (set_csi_buffer [] p))) s)
  else if ch "]" then
    Ok (on_parser (fun p => set_parser_state Osc (set_osc_buffer_truncated false (set_osc_buffer [] p))) s)
  else if ch "(" then Ok (goto EscapeCharsetG0 s)
  else if ch ")" then Ok (goto EscapeCharsetG1 s)
  else if ch "P" then
    Ok (on_parser (fun p => set_parser_state Dcs (set_dcs_enabled true
          (set_dcs_buffer_truncated false (set_dcs_buffer [] p)))) s)
  else if ch "X" || ch "^" || ch "_" then
    Ok (on_parser (fun p => set_parser_state Dcs (set_dcs_enabled false p)) s)
  else
    s ← (if ch "7" then Ok (save_cursor s)
         else if ch "8" then Ok (restore_cursor s)
         else if ch "D" then index s
         else if ch "E" then next_line s
         else if ch "M" then reverse_index s
         else if ch "=" then Ok (on_modes (set_application_keypad_enabled true) s)
         else if ch ">" then Ok (on_modes (set_application_keypad_enabled false) s)
         else Ok s);
    Ok (goto Ground s).

Definition feed_ground (c : rchar) (s : TerminalScreen) : panicking TerminalScreen :=
  if (c =? 27)%Z then Ok (goto Escape s)
  else if (c =? 7)%Z then
    Ok (on_outputs (fun o => set_bell_events (sat_add u64_MAX (bell_events o) 1) o) s)
  else if (c =? 10)%Z then if line_feed_newline_enabled (modes s) then newline s else index s
  else if (c =? 13)%Z then Ok (on_surface (set_column 0) (no_wrap s))
  else if (c =? 8)%Z then
    let s := no_wrap s in Ok (on_surface (set_column (column_of s - 1)) s)
  else if (c =? 9)%Z then
    let s := no_wrap s in
    Ok (on_surface (set_column (Nat.min ((column_of s / 8 + 1) * 8) (max_column s))) s)
  else if (c =? 14)%Z then Ok (on_parser (set_shift_out true) s)
  else if (c =? 15)%Z then Ok (on_parser (set_shift_out false) s)
  else if is_control_char c then Ok s
  else print c s.

Definition feed_char (c : rchar) (s : TerminalScreen) : panicking TerminalScreen :=
  match parser_state (parser s) with
  | Ground => feed_ground c s
  | Escape => feed_escape c s
  | EscapeCharsetG0 => Ok (designate_charset false c s)
  | EscapeCharsetG1 => Ok (designate_charset true c s)
  | Csi => feed_csi c s
  | Osc => Ok (feed_osc c s)
  | OscEscape => Ok (feed_osc_escape c s)
  | Dcs => Ok (feed_dcs c s)
  | DcsEscape => Ok (feed_dcs_escape c s)
  end.
Definition feed_chars (t : text) (s : TerminalScreen) : panicking TerminalScreen :=
  fold_outcome feed_char t s.

(** ** Input of bytes (lifecycle.rs) *)

(** The loop of [feed] over the bytes, at most [fuel] times: valid text is fed
    as it is, an invalid sequence as the replacement character, and an
    incomplete one at the end is kept. *)
Fixpoint feed_bytes (fuel : nat) (l : bytes) (s : TerminalScreen) : panicking TerminalScreen :=
  match fuel with
  | O => Ok s
  | S fuel =>
      let '(t, valid, stop) := utf8_scan l in
      s ← feed_chars t s;
      match stop with
      | Utf8End => Ok s
      | Utf8Short => Ok (on_parser (set_utf8_tail (drop valid l)) s)
      | Utf8Invalid =>
          let l := drop valid l in
          s ← feed_chars [0xFFFD%Z] s;
          feed_bytes fuel (drop (utf8_error_len l) l) s
      end
  end.

Definition no_outcome : SynchronizedOutputFeedOutcome :=
  {| begin_epoch := None; rearm_timeout := false; released := false; full_redraw := false |}.

Definition feed (input : bytes) (s : TerminalScreen)
    : panicking (TerminalScreen * SynchronizedOutputFeedOutcome) :=
  let s := set_synchronized_output_outcome no_outcome s in
  let s := match input with
           | [] => s
           | _ => mark_render_changed
                    (on_outputs (fun o => set_activity_events (sat_add u64_MAX (activity_events o) 1) o) s)
           end in
  let l := utf8_tail (parser s) ++ input in
  let s := on_parser (set_utf8_tail []) s in
  s ← feed_bytes (length l + 1) l s;
  Ok (s, synchronized_output_outcome s).

(** ** Hidden protocol input *)

(** What a hidden feed moves aside: the grid and whether the viewport is
    detached. *)
Definition take_content (f : Surface) : Surface * (Grid * bool) :=
  (set_detached false (set_grid (blank_grid (sf_size f) default_rendition) f), (grid f, detached f)).
Definition restore_content (content : Grid * bool) (f : Surface) : Surface :=
  set_detached content.2 (set_grid content.1 f).
(** The display state of [old] put back: [RetainedDisplayMetadata]. *)
Definition restore_display_metadata (old f : Surface) : Surface :=
  {| grid := grid f; cursor := cursor old; cursor_visible := cursor_visible old;
     wrap_pending := wrap_pending old; saved_cursor := saved_cursor old;
     graphic_rendition := graphic_rendition old; detached := detached f; sf_size := sf_size f;
     autowrap_enabled := autowrap_enabled old; insert_mode_enabled := insert_mode_enabled old;
     origin_mode_enabled := origin_mode_enabled old; scroll_region := scroll_region old |}.
(** [SavedNormalScreenMetadata], which also holds the size. *)
Definition restore_saved_metadata (old f : Surface) : Surface :=
  set_sf_size (sf_size old) (restore_display_metadata old f).

Definition on_saved (h : Surface -> Surface) (s : TerminalScreen) : TerminalScreen :=
  set_alternate {| alt_active := alt_active (alternate s);
                   saved_normal_screen := h <$> saved_normal_screen (alternate s) |} s.

Definition feed_protocol_preserving_content (input : bytes) (s : TerminalScreen)
    : panicking (TerminalScreen * SynchronizedOutputFeedOutcome) :=
  match input with
  | [] => Ok (s, no_outcome)
  | _ =>
      let was_alternate := alt_active (alternate s) in
      let old := surface s in
      let old_saved := saved_normal_screen (alternate s) in
      let '(hidden, content) := take_content old in
      let quiet := on_saved (fun f => (take_content f).1)
                     (set_history (empty_with_same_policy (history s)) (set_surface hidden s)) in
      '(t, outcome) ← feed input quiet;
      let is_alternate := alt_active (alternate t) in
      let t :=
        if negb was_alternate && negb is_alternate then
          on_surface (fun f => restore_display_metadata old (restore_content content f)) t
        else if negb was_alternate && is_alternate then
          on_surface (fun f => set_grid (blank_grid (sf_size f) default_rendition) f)
            (on_saved (restore_content content) t)
        else if was_alternate && is_alternate then
          let t := on_surface (fun f => restore_display_metadata old (restore_content content f)) t in
          match old_saved with
          | Some saved =>
              match saved_normal_screen (alternate t) with
              | Some _ => on_saved (fun f => restore_content (grid saved, detached saved)
                                               (restore_saved_metadata saved f)) t
              | None => set_alternate {| alt_active := alt_active (alternate t);
                                         saved_normal_screen := Some saved |} t
              end
          | None => t
          end
        else
          on_surface (restore_content
            (from_option (fun saved => (grid saved, detached saved)) content old_saved)) t in
      let k := generations s in
      let t := set_generations
        {| next_generation := next_generation (generations t);
           render_generation := render_generation (generations t);
           normal_scroll_rows := normal_scroll_rows k; normal_scroll_epoch := normal_scroll_epoch k |}
        (set_history (history s) t) in
      let t := on_outputs (fun o => set_bell_events (bell_events (outputs s))
                                      (set_activity_events (activity_events (outputs s)) o)) t in
      let t := if bool_decide (is_Some (begin_epoch outcome))
                  && negb (sync_active (synchronized_output s))
               then refresh_synchronized_output_presentation t else t in
      Ok (t, outcome)
  end.

(** ** Construction *)

Definition default_surface (z : Size) : Surface :=
  {| grid := blank_grid z default_rendition; cursor := {| c_row := 0; c_column := 0 |};
     cursor_visible := true; wrap_pending := false; saved_cursor := None;
     graphic_rendition := default_rendition; detached := false; sf_size := z;
     autowrap_enabled := true; insert_mode_enabled := false; origin_mode_enabled := false;
     scroll_region := None |}.
Definition default_parser : Parser :=
  {| parser_state := Ground; csi_buffer := []; csi_buffer_truncated := false; dcs_buffer := [];
     dcs_buffer_truncated := false; dcs_enabled := false; osc_buffer := [];
     osc_buffer_truncated := false; g0_charset := Ascii; g1_charset := Ascii; shift_out := false;
     utf8_tail := [] |}.
Definition default_modes : Modes :=
  {| bracketed_paste_enabled := false; normal_mouse_tracking_enabled := false;
     button_event_mouse_tracking_enabled := false; any_event_mouse_tracking_enabled := false;
     sgr_mouse_enabled := false; application_cursor_enabled := false;
     line_feed_newline_enabled := false; application_keypad_enabled := false;
     focus_events_enabled := false; saved_dec_private_modes := ∅ |}.

(** [new_with_history_config] when the process counter is [counter]; the two
    generations are drawn from it in order. *)
Definition new_with_history_config (z : Size) (limit rotate : Z) (counter : Z)
    : outcome string TerminalScreen :=
  match TerminalSize_validate z with
  | Ok _ =>
      h ← new_with_rotation limit rotate;
      let epoch := wrap u64_MAX (counter + 1) in
      let render := wrap u64_MAX (epoch + 1) in
      Ok {| surface := default_surface z; active_presentation := None; active_copy_source := None;
            settings := {| log_frame_policy := default_policy;
                           log_timestamp_rendition := default_rendition;
                           preserve_copy_associations := false; wrap_continuation_prefix := None;
                           emoji_width := terminal_emoji_width |};
            parser := default_parser; modes := default_modes;
            outputs := {| osc_events := []; terminal_response_bytes := []; title := None;
                          activity_events := 0; bell_events := 0 |};
            alternate := {| alt_active := false; saved_normal_screen := None |};
            alternate_screen_generation := 0; history := h;
            generations := {| next_generation := render; render_generation := render;
                              normal_scroll_rows := 0; normal_scroll_epoch := epoch |};
            synchronized_output := {| sync_active := false; sync_begin_epoch := 0;
                                      frozen_presentation := None; full_redraw_required := false |};
            synchronized_output_outcome := no_outcome |}
  | Err e => Err (TerminalSizeError_message e)
  | Panic => Panic
  end.
Definition new_screen (z : Size) (limit counter : Z) : outcome string TerminalScreen :=
  new_with_history_config z limit DEFAULT_HISTORY_ROTATE_LINES counter.

Definition set_wrap_continuation_prefix (prefix : text) (s : TerminalScreen) : TerminalScreen :=
  let next := match prefix with [] => None | _ => Some prefix end in
  let k := settings s in
  if bool_decide (wrap_continuation_prefix k = next) then s
  else mark_render_changed (set_settings
    {| log_frame_policy := log_frame_policy k; log_timestamp_rendition := log_timestamp_rendition k;
       preserve_copy_associations := preserve_copy_associations k;
       wrap_continuation_prefix := next; emoji_width := emoji_width k |} s).

(** ** Scoped presentation input (content.rs) *)

Definition with_presentation_scope {A} (metadata : PresentationEntry)
    (source : option TerminalCopySource)
    (operation : TerminalScreen -> panicking (TerminalScreen * A)) (s : TerminalScreen)
    : panicking (TerminalScreen * A) :=
  let scoped := entry_is_valid metadata && negb (alt_active (alternate s)) in
  let inner := set_active_copy_source (if scoped then source else None)
                 (set_active_presentation (if scoped then Some metadata else None) s) in
  '(t, a) ← operation inner;
  Ok (set_active_copy_source (active_copy_source s)
        (set_active_presentation (active_presentation s) t), a).

Definition feed_presentation_scoped (b : bytes) (metadata : PresentationEntry)
    (source : option TerminalCopySource) (s : TerminalScreen) : panicking TerminalScreen :=
  '(s, _) ← with_presentation_scope metadata source (feed b) s;
  Ok (if wrap_pending (surface s) && (column_of s <? max_column s)
         && bool_decide (active_presentation s = None)
      then on_surface (fun f => set_wrap_pending false (set_column (c_column (cursor f) + 1) f)) s
      else s).
Definition feed_presentation (b : bytes) (metadata : PresentationEntry) (s : TerminalScreen)
    : panicking TerminalScreen :=
  feed_presentation_scoped b metadata None s.
Definition feed_presentation_with_copy_source (b : bytes) (metadata : PresentationEntry)
    (source : option TerminalCopySource) (s : TerminalScreen) : panicking (TerminalScreen * bool) :=
  if negb (entry_is_valid metadata)
     || from_option (fun source => negb (bool_decide (owner (id source) = entry_id metadata))) false source
  then Ok (s, false)
  else s ← feed_presentation_scoped b metadata source s; Ok (s, true).

(** ** Transient rows (content.rs) *)

Record TerminalTransientSuffix := {
  suffix_size : Size;
  suffix_generation : Z;
  suffix_history_len : nat;
  start_physical_row : nat;
  end_physical_row : nat;
  suffix_cursor : Cursor;
  trailing_blank_row : bool;
}.

(** [usize::checked_sub]. *)
Definition checked_sub (a b : nat) : option nat := if b <=? a then Some (a - b) else None.

Definition capture_transient_suffix (rows : nat) (trailing : bool) (s : TerminalScreen)
    : option TerminalTransientSuffix :=
  if (rows =? 0) || alt_active (alternate s) then None
  else
    let c := cursor (surface s) in
    let cursor_row := h_len (history s) + c_row c in
    last ← (if trailing then checked_sub cursor_row 1 else Some cursor_row);
    start ← checked_sub (last + 1) rows;
    Some {| suffix_size := sf_size (surface s);
            suffix_generation := render_generation (generations s);
            suffix_history_len := h_len (history s); start_physical_row := start;
            end_physical_row := last; suffix_cursor := c; trailing_blank_row := trailing |}.

(** The rows popped from the history, at most [n]; whether there were [n]. *)
Fixpoint pop_rows (n : nat) (h : HistoryBuffer) : HistoryBuffer * bool :=
  match n with
  | O => (h, true)
  | S n => match pop_styled_line h with
           | (h, Some _) => pop_rows n h
           | (h, None) => (h, false)
           end
  end.

Definition clear_transient_suffix (x : TerminalTransientSuffix) (s : TerminalScreen)
    : panicking (TerminalScreen * bool) :=
  if alt_active (alternate s)
     || negb (bool_decide (sf_size (surface s) = suffix_size x))
     || negb (render_generation (generations s) =? suffix_generation x)%Z
     || negb (h_len (history s) =? suffix_history_len x)
     || negb (bool_decide (cursor (surface s) = suffix_cursor x))
     || (end_physical_row x <? start_physical_row x)
     || (normal_physical_line_count s <=? end_physical_row x)
  then Ok (s, false)
  else
    let '(h, popped) := pop_rows (suffix_history_len x - start_physical_row x) (history s) in
    let s := set_history h s in
    if negb popped then Ok (s, false)
    else
      let visible_start := start_physical_row x - suffix_history_len x in
      let visible_end := Nat.min (end_physical_row x - suffix_history_len x)
                           (length (cells (screen_grid s)) - 1) in
      let clear_end := if trailing_blank_row x then Nat.max visible_end (c_row (suffix_cursor x))
                       else visible_end in
      g ← fold_outcome (blank_line (sf_size (surface s)) default_rendition)
            (range_incl visible_start clear_end) (screen_grid s);
      let s := with_grid g s in
      let c := {| c_row := Nat.min (start_physical_row x - h_len (history s))
                             (length (cells (screen_grid s)) - 1); c_column := 0 |} in
      Ok (mark_render_changed (on_surface (fun f => set_wrap_pending false (set_cursor c f)) s), true).

(** ** Restored content *)

Definition bounded_restored_line (ew : TerminalEmojiWidth) (l : TerminalStyledLine) : TerminalStyledLine :=
  let gs := terminal_graphemes (styled_text l) in
  if forallb (fun g => blen g <=? Z.of_nat MAX_TERMINAL_GRAPHEME_BYTES)%Z gs then l
  else
    (foldl (fun '(bounded, source_column, destination_column) g =>
        let retained := bounded_terminal_grapheme g in
        let width := terminal_grapheme_width retained ew in
        (push_styled_grapheme_at retained width (styled_line_rendition_at l source_column)
           destination_column bounded,
         source_column + terminal_grapheme_width g ew, destination_column + width))
      (with_provenance (copy_text l) (line_source l) (presentation l) (plain []), 0, 0) gs).1.1.

(** One visible row written back; its wrap flag stays clear. *)
Definition restore_row (ew : TerminalEmojiWidth) (p : nat * TerminalStyledLine) (g : Grid)
    : panicking Grid :=
  store_row ew (p.1, {| physical_line := p.2; wraps_to_next := false |}) g.

Definition restore_normal_styled_history_content (history_lines visible : list TerminalStyledLine)
    (s : TerminalScreen) : panicking TerminalScreen :=
  let s := reset_normal_viewport_origin (mark_render_changed s) in
  let ew := emoji_of s in
  let f := surface s in
  let h := foldl (fun h l => push_styled_line (bounded_restored_line ew l) h)
             (clear_history (history s)) history_lines in
  let z := sf_size f in
  let s := set_alternate {| alt_active := false; saved_normal_screen := None |} (set_history h s) in
  let s := set_surface
    {| grid := blank_grid z default_rendition; cursor := {| c_row := 0; c_column := 0 |};
       cursor_visible := true; wrap_pending := false; saved_cursor := None;
       graphic_rendition := graphic_rendition f; detached := false; sf_size := z;
       autowrap_enabled := autowrap_enabled f; insert_mode_enabled := insert_mode_enabled f;
       origin_mode_enabled := false; scroll_region := None |} s in
  let s := on_parser (fun p =>
    {| parser_state := Ground; csi_buffer := []; csi_buffer_truncated := csi_buffer_truncated p;
       dcs_buffer := dcs_buffer p; dcs_buffer_truncated := dcs_buffer_truncated p;
       dcs_enabled := dcs_enabled p; osc_buffer := []; osc_buffer_truncated := false;
       g0_charset := Ascii; g1_charset := Ascii; shift_out := false; utf8_tail := utf8_tail p |}) s in
  let s := on_outputs (set_osc_events []) s in
  let s := on_modes (fun m =>
    {| bracketed_paste_enabled := false; normal_mouse_tracking_enabled := false;
       button_event_mouse_tracking_enabled := false; any_event_mouse_tracking_enabled := false;
       sgr_mouse_enabled := false; application_cursor_enabled := false;
       line_feed_newline_enabled := line_feed_newline_enabled m; application_keypad_enabled := false;
       focus_events_enabled := false; saved_dec_private_modes := ∅ |}) s in
  g ← fold_outcome (restore_row ew)
        (imap (fun i l => (i, l)) (take (n_rows z) (drop (length visible - n_rows z) visible)))
        (screen_grid s);
  Ok (with_grid g s).
Definition restore_normal_styled_content (history_lines : list text) (visible : list TerminalStyledLine)
    (s : TerminalScreen) : panicking TerminalScreen :=
  restore_normal_styled_history_content (plain <$> history_lines) visible s.

(** ** Copy rows (log_frame.rs) *)

(** Rows that continue a line lose their copy text. *)
Fixpoint owned_copy_texts (unfinished : bool) (rows : list PhysicalStyledLine) : list PhysicalStyledLine :=
  match rows with
  | [] => []
  | row :: rows =>
      {| physical_line := if unfinished then with_copy_text None (physical_line row) else physical_line row;
         wraps_to_next := wraps_to_next row |} :: owned_copy_texts (wraps_to_next row) rows
  end.
Definition normal_log_frame_copy_rows (continuation_copy : text -> text) (s : TerminalScreen)
    : list TerminalStyledLine :=
  if negb (timestamps (log_frame_policy (settings s))) || alt_active (alternate s)
  then normal_styled_content_lines s
  else
    let past := owned_copy_texts false
      ((fun r => {| physical_line := record_line r; wraps_to_next := record_wraps r |}) <$> records (history s)) in
    let prefix := wrap_continuation_prefix (settings s) in
    let logical := merge_wrapped_physical_lines past prefix (emoji_of s) true in
    let rows := logical ≫= fun l =>
      imap (fun i row => with_copy_text
          ((if i =? 0 then fun t => t else continuation_copy) <$> copy_text l) (physical_line row))
        (reflow_one_logical_line l (n_columns (sf_size (surface s))) prefix (emoji_of s)
           (log_frame_policy (settings s)) true) in
    (match past with [] => [] | _ => rows end) ++ visible_styled_lines s.

(** ** Mode and saved state (state.rs) *)

Record TerminalModeState := {
  ms_title : option text;
  ms_cursor_visible : bool;
  ms_bracketed_paste : bool;
  ms_normal_mouse : bool;
  ms_button_event_mouse : bool;
  ms_any_event_mouse : bool;
  ms_sgr_mouse : bool;
  ms_application_cursor : bool;
  ms_origin_mode : bool;
  ms_autowrap : bool;
  ms_insert_mode : bool;
  ms_application_keypad : bool;
  ms_focus_events : bool;
}.
Definition mode_state (s : TerminalScreen) : TerminalModeState :=
  let m := modes s in
  let f := surface s in
  {| ms_title := title (outputs s); ms_cursor_visible := cursor_visible f;
     ms_bracketed_paste := bracketed_paste_enabled m;
     ms_normal_mouse := normal_mouse_tracking_enabled m;
     ms_button_event_mouse := button_event_mouse_tracking_enabled m;
     ms_any_event_mouse := any_event_mouse_tracking_enabled m; ms_sgr_mouse := sgr_mouse_enabled m;
     ms_application_cursor := application_cursor_enabled m; ms_origin_mode := origin_mode_enabled f;
     ms_autowrap := autowrap_enabled f; ms_insert_mode := insert_mode_enabled f;
     ms_application_keypad := application_keypad_enabled m;
     ms_focus_events := focus_events_enabled m |}.
Definition restore_mode_state (state : TerminalModeState) (s : TerminalScreen) : TerminalScreen :=
  let s := on_outputs (set_title (ms_title state)) s in
  let s := on_surface (fun f =>
    set_wrap_pending (ms_autowrap state && wrap_pending f)
      (set_insert_mode_enabled (ms_insert_mode state)
        (set_autowrap_enabled (ms_autowrap state)
          (set_origin_mode_enabled (ms_origin_mode state)
            (set_cursor_visible (ms_cursor_visible state) f))))) s in
  on_modes (fun m =>
    {| bracketed_paste_enabled := ms_bracketed_paste state;
       normal_mouse_tracking_enabled := ms_normal_mouse state;
       button_event_mouse_tracking_enabled := ms_button_event_mouse state;
       any_event_mouse_tracking_enabled := ms_any_event_mouse state;
       sgr_mouse_enabled := ms_sgr_mouse state;
       application_cursor_enabled := ms_application_cursor state;
       line_feed_newline_enabled := line_feed_newline_enabled m;
       application_keypad_enabled := ms_application_keypad state;
       focus_events_enabled := ms_focus_events state;
       saved_dec_private_modes := saved_dec_private_modes m |}) s.

Record TerminalSavedState := {
  ss_cursor : option Cursor;
  ss_modes : list (Z * bool);
  ss_g0_graphics : bool;
  ss_g1_graphics : bool;
  ss_shift_out : bool;
}.
(** The entries of a [BTreeMap] in the order of its keys. *)
Definition mode_le (a b : Z * bool) : Prop := (a.1 <= b.1)%Z.
#[global] Instance mode_le_dec a b : Decision (mode_le a b).
Proof. unfold mode_le. apply _. Defined.
Definition ordered_modes (m : gmap Z bool) : list (Z * bool) := merge_sort mode_le (map_to_list m).
Definition saved_state (s : TerminalScreen) : TerminalSavedState :=
  let p := parser s in
  {| ss_cursor := saved_cursor (surface s); ss_modes := ordered_modes (saved_dec_private_modes (modes s));
     ss_g0_graphics := bool_decide (g0_charset p = DecSpecialGraphics);
     ss_g1_graphics := bool_decide (g1_charset p = DecSpecialGraphics);
     ss_shift_out := shift_out p |}.
Definition charset_of (graphics : bool) : TerminalCharset := if graphics then DecSpecialGraphics else Ascii.
Definition restore_saved_state (state : TerminalSavedState) (s : TerminalScreen) : TerminalScreen :=
  let s := on_surface (set_saved_cursor (clamp_cursor (max_row s) (max_column s) <$> ss_cursor state)) s in
  let s := on_modes (set_saved_dec_private_modes
    (foldl (fun m p => if tracked_dec_private_mode p.1 then <[p.1 := p.2]> m else m) ∅ (ss_modes state))) s in
  on_parser (fun p => set_shift_out (ss_shift_out state)
    (set_g1_charset (charset_of (ss_g1_graphics state))
      (set_g0_charset (charset_of (ss_g0_graphics state)) p))) s.

Definition application_mouse_enabled (s : TerminalScreen) : bool :=
  let m := modes s in
  normal_mouse_tracking_enabled m || button_event_mouse_tracking_enabled m
  || any_event_mouse_tracking_enabled m.
Definition application_sgr_mouse_enabled (s : TerminalScreen) : bool :=
  application_mouse_enabled s && sgr_mouse_enabled (modes s).
Definition drain_osc_events (s : TerminalScreen) : TerminalScreen * list TerminalOscEvent :=
  (on_outputs (set_osc_events []) s, osc_events (outputs s)).
Definition drain_terminal_response_bytes (s : TerminalScreen) : TerminalScreen * bytes :=
  (on_outputs (set_terminal_response_bytes []) s, terminal_response_bytes (outputs s)).

End Parser.
