(* ===== verification/ScreenInv.v ===== *)
(** * The terminal screen stays well formed

    The invariant of a screen: the six vectors of a surface have one entry per
    row, the rows one cell and one rendition per column, the cursor is in the
    grid, the saved normal screen is such a surface, the buffers of the parser
    are bounded.  Every operation returns, never indexing out of range, and
    keeps the invariant. *)

From S2P Require Import Prelude RustStr LayoutTypes Utf8Text ReadlineText Readline ReadlineKeys KeyInput.
From S2P Require Import TermText History Screen ScreenReflow ScreenParser.
#[local] Open Scope nat_scope.

(** ** Code that returns *)

Definition returns {A} (m : panicking A) (Q : A -> Prop) : Prop := exists a, m = Ok a /\ Q a.

Lemma returns_Ok {A} (a : A) (Q : A -> Prop) : Q a -> returns (Ok a) Q.
Proof. by exists a. Qed.
Lemma returns_bind {A B} (m : panicking A) (f : A -> panicking B) P Q :
  returns m P -> (forall a, P a -> returns (f a) Q) -> returns (m ≫= f) Q.
Proof. intros (a & -> & HP) H. exact (H a HP). Qed.
Lemma returns_mono {A} (m : panicking A) (P Q : A -> Prop) :
  returns m P -> (forall a, P a -> Q a) -> returns m Q.
Proof. intros (a & -> & HP) H. exists a. auto. Qed.
Lemma returns_if {A} (b : bool) (m m' : panicking A) Q :
  (b = true -> returns m Q) -> (b = false -> returns m' Q) -> returns (if b then m else m') Q.
Proof. destruct b; auto. Qed.
Lemma returns_fold {A S} (f : A -> S -> panicking S) (I : S -> Prop) l s :
  (forall x s, x ∈ l -> I s -> returns (f x s) I) -> I s -> returns (fold_outcome f l s) I.
Proof.
  revert s. induction l as [|x l IH]; intros s Hf Hs; cbn; [by exists s|].
  destruct (Hf x s ltac:(set_solver) Hs) as (s' & -> & Hs').
  apply IH; [|done]. intros y t Hy. apply Hf. set_solver.
Qed.
Lemma returns_index {A} (l : list A) i (Q : A -> Prop) :
  i < length l -> (forall a, l !! i = Some a -> Q a) -> returns (index_or_panic l i) Q.
Proof.
  intros Hi HQ. destruct (lookup_lt_is_Some_2 l i Hi) as [a Ha]. exists a.
  unfold index_or_panic. rewrite Ha. auto.
Qed.
Lemma returns_set_at {A} i (x : A) l (Q : list A -> Prop) :
  i < length l -> Q (<[i := x]> l) -> returns (set_at i x l) Q.
Proof. intros Hi HQ. unfold set_at. rewrite (proj2 (Nat.ltb_lt _ _)) by done. by apply returns_Ok. Qed.

Lemma length_rot_left {A} n (l : list A) : length (rot_left n l) = length l.
Proof. unfold rot_left. rewrite length_app, length_drop, length_take. lia. Qed.
Lemma length_rot_right {A} n (l : list A) : length (rot_right n l) = length l.
Proof. apply length_rot_left. Qed.
Lemma Forall_rot_left {A} (P : A -> Prop) n l : Forall P l -> Forall P (rot_left n l).
Proof. intros H. apply Forall_app. split; [by apply Forall_drop|by apply Forall_take]. Qed.
Lemma Forall_rot_right {A} (P : A -> Prop) n l : Forall P l -> Forall P (rot_right n l).
Proof. apply Forall_rot_left. Qed.

(** A rotation: it keeps the length and the elements. *)
Definition rotation (rot : forall {A}, nat -> list A -> list A) : Prop :=
  (forall A n (l : list A), length (rot n l) = length l)
  /\ (forall A (P : A -> Prop) n l, Forall P l -> Forall P (rot n l)).
Lemma rotation_left : rotation (@rot_left).
Proof. split; [apply @length_rot_left|apply @Forall_rot_left]. Qed.
Lemma rotation_right : rotation (@rot_right).
Proof. split; [apply @length_rot_right|apply @Forall_rot_right]. Qed.

Lemma returns_rotate {A} (rot : forall {A}, nat -> list A -> list A) (P : A -> Prop) a b n (l : list A)
    (Q : list A -> Prop) :
  rotation (@rot) -> a <= b -> b <= length l -> n <= b - a -> Forall P l ->
  (forall k, length k = length l -> Forall P k -> Q k) -> returns (rotate_range rot a b n l) Q.
Proof.
  intros [Hlen HP] Hab Hb Hn Hl HQ. unfold rotate_range.
  rewrite (proj2 (Nat.leb_le a b)), (proj2 (Nat.leb_le b _)), (proj2 (Nat.leb_le n _)) by done.
  apply returns_Ok, HQ.
  - rewrite !length_app, Hlen, !length_take, !length_drop. lia.
  - repeat apply Forall_app_2; [by apply Forall_take| |by apply Forall_drop].
    by apply HP, Forall_take, Forall_drop.
Qed.

(** ** The invariant *)

Record grid_ok (z : Size) (g : Grid) : Prop := {
  go_cells : length (cells g) = n_rows z;
  go_widths : Forall (fun r => length r = n_columns z) (cells g);
  go_renditions : length (renditions g) = n_rows z;
  go_rendition_widths : Forall (fun r => length r = n_columns z) (renditions g);
  go_wraps : length (line_wraps g) = n_rows z;
  go_copies : length (line_copy_texts g) = n_rows z;
  go_sources : length (line_copy_sources g) = n_rows z;
  go_entries : length (line_presentations g) = n_rows z;
}.

Record surface_ok (f : Surface) : Prop := {
  so_size : valid_size (sf_size f);
  so_grid : grid_ok (sf_size f) (grid f);
  so_row : c_row (cursor f) < n_rows (sf_size f);
  so_column : c_column (cursor f) < n_columns (sf_size f);
}.

Record parser_ok (p : Parser) : Prop := {
  po_csi : (blen (csi_buffer p) <= MAX_CSI_STRING_BYTES)%Z;
  po_dcs : (blen (dcs_buffer p) <= MAX_DCS_STRING_BYTES)%Z;
  po_osc : (blen (osc_buffer p) <= MAX_OSC_STRING_BYTES)%Z;
  po_tail : length (utf8_tail p) <= 3;
  po_pending : decode_stream [] (utf8_tail p) = ([], utf8_tail p);
}.

Section Invariant.
Context {UT : UnicodeTables} {TT : TerminalText}.

(** The cells a continuation prefix takes. *)
Definition prefix_cells (p : text) (ew : TerminalEmojiWidth) : nat :=
  sum_list ((fun c => terminal_char_width c ew) <$> p).

(** A prefix repeated on presented rows leaves two columns. *)
Definition room (s : TerminalScreen) : Prop :=
  match wrap_continuation_prefix (settings s), active_presentation s with
  | Some p, Some _ => prefix_cells p (emoji_of s) + 2 <= n_columns (sf_size (surface s))
  | _, _ => True
  end.

Record screen_ok (s : TerminalScreen) : Prop := {
  sc_surface : surface_ok (surface s);
  sc_saved : from_option surface_ok True (saved_normal_screen (alternate s));
  sc_history : hist_ok (history s);
  sc_parser : parser_ok (parser s);
}.

(** A step that keeps the size and the settings, inside the scope and the mode
    it is in; in alternate mode it keeps the scrollback too. *)
Record keeps (s s' : TerminalScreen) : Prop := {
  kp_ok : screen_ok s';
  kp_size : sf_size (surface s') = sf_size (surface s);
  kp_settings : settings s' = settings s;
  kp_scope : active_presentation s' = None <-> active_presentation s = None;
  kp_tail : utf8_tail (parser s') = utf8_tail (parser s);
  kp_alternate : alternate s' = alternate s;
  kp_history : alt_active (alternate s) = true -> history s' = history s;
}.
(** And the cursor. *)
Definition keeps_cursor (s s' : TerminalScreen) : Prop :=
  keeps s s' /\ cursor (surface s') = cursor (surface s).

Lemma keeps_refl s : screen_ok s -> keeps s s.
Proof. done. Qed.
Lemma keeps_trans s s1 s2 : keeps s s1 -> keeps s1 s2 -> keeps s s2.
Proof.
  intros [_ E1 F1 A1 T1 B1 G1] [H E2 F2 A2 T2 B2 G2].
  split; [done|by rewrite E2|by rewrite F2|by rewrite A2|by rewrite T2|by rewrite B2|].
  intros Ha. rewrite G2, G1; [done..|by rewrite B1].
Qed.
Lemma keeps_cursor_trans s s1 s2 : keeps_cursor s s1 -> keeps_cursor s1 s2 -> keeps_cursor s s2.
Proof. intros [K1 E1] [K2 E2]. split; [by eapply keeps_trans|by rewrite E2]. Qed.
Lemma keeps_room s s' : keeps s s' -> room s -> room s'.
Proof.
  intros [_ E F A _ _ _]. unfold room, emoji_of. rewrite E, F. destruct (wrap_continuation_prefix _); [|done].
  destruct (active_presentation s), (active_presentation s'); naive_solver.
Qed.

(** ** Grids *)

Lemma valid_positive z : valid_size z -> 0 < n_rows z /\ 0 < n_columns z.
Proof. unfold valid_size, n_rows, n_columns. lia. Qed.

Lemma blank_grid_ok z r : grid_ok z (blank_grid z r).
Proof.
  split; cbn; unfold blank_cells, blank_renditions; rewrite ?length_replicate; try done;
    apply Forall_replicate; apply length_replicate.
Qed.

Lemma row_cells z g row cs : grid_ok z g -> cells g !! row = Some cs -> length cs = n_columns z.
Proof. intros H Hr. exact (proj1 (Forall_lookup _ _) (go_widths z g H) row cs Hr). Qed.
Lemma row_renditions z g row rs : grid_ok z g -> renditions g !! row = Some rs -> length rs = n_columns z.
Proof. intros H Hr. exact (proj1 (Forall_lookup _ _) (go_rendition_widths z g H) row rs Hr). Qed.

Lemma put_cell_ok z row column c g : grid_ok z g -> row < n_rows z -> column < n_columns z ->
  returns (put_cell row column c g) (grid_ok z).
Proof.
  intros Hg Hr Hc. unfold put_cell. eapply returns_bind; [apply returns_index; [by rewrite (go_cells z g Hg)|]|].
  { intros cs Hcs. exact (row_cells z g row cs Hg Hcs). }
  intros cs Hcs. cbn beta in Hcs. eapply returns_bind; [by apply (returns_set_at _ _ _ (fun k => length k = n_columns z)); [lia|rewrite length_insert]|].
  intros k Hk. apply returns_Ok. destruct Hg; split; cbn; rewrite ?length_insert; try done.
  by apply Forall_insert.
Qed.
Lemma put_rendition_ok z row column r g : grid_ok z g -> row < n_rows z -> column < n_columns z ->
  returns (put_rendition row column r g) (grid_ok z).
Proof.
  intros Hg Hr Hc. unfold put_rendition. eapply returns_bind; [apply returns_index; [by rewrite (go_renditions z g Hg)|]|].
  { intros cs Hcs. exact (row_renditions z g row cs Hg Hcs). }
  intros cs Hcs. cbn beta in Hcs. eapply returns_bind; [by apply (returns_set_at _ _ _ (fun k => length k = n_columns z)); [lia|rewrite length_insert]|].
  intros k Hk. apply returns_Ok. destruct Hg; split; cbn; rewrite ?length_insert; try done.
  by apply Forall_insert.
Qed.
Lemma put_ok z row column c r g : grid_ok z g -> row < n_rows z -> column < n_columns z ->
  returns (put row column c r g) (grid_ok z).
Proof.
  intros Hg Hr Hc. unfold put. eapply returns_bind; [by apply put_cell_ok|].
  intros g' Hg'. by apply put_rendition_ok.
Qed.

Lemma cell_at_ok z row column g : grid_ok z g -> row < n_rows z -> column < n_columns z ->
  returns (cell_at row column g) (fun _ => True).
Proof.
  intros Hg Hr Hc. unfold cell_at. eapply returns_bind; [apply returns_index; [by rewrite (go_cells z g Hg)|]|].
  { intros cs Hcs. exact (row_cells z g row cs Hg Hcs). }
  intros cs Hcs. cbn beta in Hcs. apply returns_index; [lia|done].
Qed.
Lemma rendition_at_ok z row column g : grid_ok z g -> row < n_rows z -> column < n_columns z ->
  returns (rendition_at row column g) (fun _ => True).
Proof.
  intros Hg Hr Hc. unfold rendition_at. eapply returns_bind; [apply returns_index; [by rewrite (go_renditions z g Hg)|]|].
  { intros cs Hcs. exact (row_renditions z g row cs Hg Hcs). }
  intros cs Hcs. cbn beta in Hcs. apply returns_index; [lia|done].
Qed.
(** A row of the grid. *)
Lemma row_ok z row g (Q : list TerminalScreenCell -> Prop) : grid_ok z g -> row < n_rows z ->
  (forall cs, length cs = n_columns z -> cells g !! row = Some cs -> Q cs) ->
  returns (index_or_panic (cells g) row) Q.
Proof.
  intros Hg Hr HQ. apply returns_index; [by rewrite (go_cells z g Hg)|].
  intros cs Hcs. apply HQ; [exact (row_cells z g row cs Hg Hcs)|done].
Qed.

Lemma elem_range a b k : k ∈ range a b <-> a <= k < b.
Proof. unfold range. rewrite elem_of_seq. lia. Qed.
Lemma elem_range_incl a b k : k ∈ range_incl a b <-> a <= k <= b.
Proof. unfold range_incl. rewrite elem_of_seq. lia. Qed.

Lemma leading_from_le cs column : leading_from cs column <= column.
Proof. induction column as [|k IH]; cbn [leading_from]; [lia|]. destruct (from_option _ _ _); lia. Qed.

Lemma leading_column_lt z row column g k : grid_ok z g ->
  leading_column_for_cell row column g = Some k -> k < n_columns z /\ row < n_rows z /\ k <= column.
Proof.
  intros Hg. unfold leading_column_for_cell. destruct (cells g !! row) as [cs|] eqn:E; cbn; [|done].
  pose proof (row_cells z g row cs Hg E). apply lookup_lt_Some in E. rewrite (go_cells z g Hg) in E.
  destruct (Nat.eqb_spec (length cs) 0); [done|]. intros [= <-].
  pose proof (leading_from_le cs (Nat.min column (length cs - 1))). lia.
Qed.

Lemma clear_cell_footprint_ok ew z row column r g : grid_ok z g ->
  returns (clear_cell_footprint ew row column r g) (grid_ok z).
Proof.
  intros Hg. unfold clear_cell_footprint.
  destruct (leading_column_for_cell row column g) as [k|] eqn:E; [|by apply returns_Ok].
  apply (leading_column_lt z) in E as (Hk & Hr & _); [|done].
  eapply returns_bind; [by apply (cell_at_ok z)|]. intros c _.
  eapply returns_bind; [apply (row_ok z row g (fun cs => length cs = n_columns z)); auto|].
  intros cs Hcs. cbn beta in Hcs. apply returns_fold; [|done].
  intros j g' Hj%elem_range Hg'. apply put_ok; [done|done|lia].
Qed.

Lemma repair_from_ok ew z fuel row column g : grid_ok z g -> row < n_rows z ->
  returns (repair_from fuel ew row column (n_columns z) g) (grid_ok z).
Proof.
  revert column g. induction fuel as [|fuel IH]; intros column g Hg Hr; cbn [repair_from]; [by apply returns_Ok|].
  destruct (Nat.leb_spec (n_columns z) column); [by apply returns_Ok|].
  eapply returns_bind; [by apply (cell_at_ok z)|]. intros c _. destruct (cell_is_continuation c).
  { eapply returns_bind; [by apply put_cell_ok|]. auto. }
  destruct (cell_width c ew <=? 1); [auto|].
  destruct (Nat.ltb_spec (n_columns z) (column + cell_width c ew)).
  { apply returns_fold; [|done]. intros j g' Hj%elem_range Hg'. apply put_cell_ok; [done|done|lia]. }
  eapply returns_bind; [by apply (rendition_at_ok z)|]. intros r _.
  eapply returns_bind.
  { apply (returns_fold _ (grid_ok z)); [|done]. intros j g' Hj%elem_range Hg'. apply put_ok; [done|done|lia]. }
  auto.
Qed.
Lemma repair_ok ew z row g : grid_ok z g -> returns (repair_row_continuations ew row g) (grid_ok z).
Proof.
  intros Hg. unfold repair_row_continuations. destruct (cells g !! row) as [cs|] eqn:E; [|by apply returns_Ok].
  rewrite (row_cells z g row cs Hg E). apply lookup_lt_Some in E. rewrite (go_cells z g Hg) in E.
  by apply repair_from_ok.
Qed.

Lemma blank_line_ok z r row g : grid_ok z g -> row < n_rows z -> returns (blank_line z r row g) (grid_ok z).
Proof.
  intros Hg Hr. destruct Hg as [H1 H2 H3 H4 H5 H6 H7 H8]. unfold blank_line.
  unfold set_at. rewrite H1, H3, H5, H6, H7, H8, (proj2 (Nat.ltb_lt _ _)) by done. cbn [mbind outcome_bind].
  apply returns_Ok. split; cbn; rewrite ?length_insert; try done;
    (apply Forall_insert; [done|apply length_replicate]).
Qed.

Lemma rotate_rows_ok (rot : forall {A}, nat -> list A -> list A) z a b n g :
  rotation (@rot) -> grid_ok z g -> a <= b -> b <= n_rows z -> n <= b - a ->
  returns (rotate_rows (@rot) a b n g) (grid_ok z).
Proof.
  intros Hrot Hg Hab Hb Hn. destruct Hg as [H1 H2 H3 H4 H5 H6 H7 H8]. unfold rotate_rows.
  assert (forall A (P : A -> Prop) l, length l = n_rows z -> Forall P l ->
    returns (rotate_range (rot A) a b n l) (fun k => length k = n_rows z /\ Forall P k)) as G.
  { intros A P l Hl HP. apply (returns_rotate rot P); try done; [lia|]. intros k Hk ?. by rewrite Hk. }
  eapply returns_bind; [apply G; [exact H1|exact H2]|]. intros cs [? ?].
  eapply returns_bind; [apply G; [exact H3|exact H4]|]. intros rs [? ?].
  do 4 (eapply returns_bind; [apply (G _ (fun _ => True)); [done|by apply Forall_true]|]; intros ? [? _]).
  by apply returns_Ok.
Qed.

(** ** Parts of a screen *)

Lemma on_surface_keeps h s : screen_ok s -> surface_ok (h (surface s)) ->
  sf_size (h (surface s)) = sf_size (surface s) -> keeps s (on_surface h s).
Proof. intros [H1 H2 H3 H4] Hf Hz. by split; [split|..]. Qed.

Lemma with_grid_keeps g s : screen_ok s -> grid_ok (sf_size (surface s)) g ->
  keeps_cursor s (with_grid g s).
Proof.
  intros Hs Hg. split; [|done]. apply on_surface_keeps; [done| |done].
  destruct (sc_surface s Hs). by split.
Qed.

(** Moving the cursor inside the grid. *)
Lemma cursor_keeps h s : screen_ok s -> grid (h (surface s)) = grid (surface s) ->
  sf_size (h (surface s)) = sf_size (surface s) ->
  c_row (cursor (h (surface s))) < n_rows (sf_size (surface s)) ->
  c_column (cursor (h (surface s))) < n_columns (sf_size (surface s)) -> keeps s (on_surface h s).
Proof.
  intros Hs Hg Hz Hr Hc. apply on_surface_keeps; [done| |done]. destruct (sc_surface s Hs).
  split; rewrite ?Hz, ?Hg; done.
Qed.
Lemma no_wrap_keeps s : screen_ok s -> keeps_cursor s (no_wrap s).
Proof.
  intros Hs. split; [|done]. destruct (sc_surface s Hs). by apply cursor_keeps.
Qed.

Lemma screen_bounds s : screen_ok s ->
  row_of s < n_rows (sf_size (surface s)) /\ column_of s < n_columns (sf_size (surface s))
  /\ max_row s < n_rows (sf_size (surface s)) /\ max_column s < n_columns (sf_size (surface s))
  /\ row_of s <= max_row s /\ column_of s <= max_column s.
Proof.
  intros Hs. destruct (sc_surface s Hs) as [Hz _ Hr Hc]. unfold row_of, column_of, max_row, max_column.
  pose proof (valid_positive _ Hz). lia.
Qed.

Lemma clear_line_copy_text_keeps row s : screen_ok s -> keeps_cursor s (clear_line_copy_text row s).
Proof.
  intros Hs. pose proof (so_grid _ (sc_surface s Hs)) as Hg. unfold clear_line_copy_text.
  set (source := _ ≫= _). set (g1 := set_line_copy_texts _ (screen_grid s)).
  set (g2 := set_line_copy_sources _ g1).
  assert (grid_ok (sf_size (surface s)) g2) as Hg2.
  { destruct Hg; split; cbn; rewrite ?length_insert; done. }
  destruct (line_presentations g2 !! row) as [previous|]; [|by apply with_grid_keeps].
  assert (forall e, grid_ok (sf_size (surface s)) (set_line_presentations (<[row := e]> (line_presentations g2)) g2))
    as Hg3.
  { intros e. clearbody g2. destruct Hg2; split; cbn; rewrite ?length_insert; done. }
  destruct (if alt_active (alternate s) then None else active_presentation s) as [active|] eqn:E;
    [|by apply with_grid_keeps].
  destruct (alt_active (alternate s)); [done|].
  destruct (with_grid_keeps _ s Hs (Hg3 (if from_option (fun p => same_entry p active) false previous
    then previous else Some active))) as [[[H1 H2 H3 H4] ? ? ? ? ? ?] Hc].
  split; [|done]. split; try done. cbn. rewrite E. done.
Qed.

(** ** Scrolling *)

Lemma shift_rows_keeps (rot : forall {A}, nat -> list A -> list A) a b n blanks s :
  rotation (@rot) -> screen_ok s -> a <= b -> b <= max_row s -> n <= b + 1 - a ->
  Forall (fun k => k <= max_row s) blanks ->
  returns (shift_rows (@rot) a b n blanks s) (keeps_cursor s).
Proof.
  intros Hrot Hs Hab Hb Hn Hblank. pose proof (so_grid _ (sc_surface s Hs)) as Hg.
  pose proof (screen_bounds s Hs). unfold shift_rows.
  eapply returns_bind; [apply (rotate_rows_ok rot (sf_size (surface s))); try done; lia|].
  intros g' Hg'. eapply returns_bind.
  { apply (returns_fold _ (grid_ok (sf_size (surface s)))); [|done]. intros k g2 Hk Hg2.
    apply blank_line_ok; [done|]. rewrite Forall_forall in Hblank. specialize (Hblank k Hk). lia. }
  intros g2 Hg2. apply returns_Ok. by apply with_grid_keeps.
Qed.

Lemma push_row_ok s row h : screen_ok s -> row <= max_row s -> hist_ok h ->
  returns (push_row s row h) hist_ok.
Proof.
  intros Hs Hr Hh. pose proof (screen_bounds s Hs) as (_ & _ & ? & _).
  destruct (so_grid _ (sc_surface s Hs)) as [H1 H2 H3 H4 H5 H6 H7 H8]. unfold push_row, screen_grid.
  do 6 (eapply returns_bind; [apply (returns_index _ _ (fun _ => True)); [lia|done]|]; intros ? _).
  apply returns_Ok. by apply push_spec.
Qed.

Lemma history_keeps h s : screen_ok s -> hist_ok h -> alt_active (alternate s) = false ->
  keeps_cursor s (set_history h s).
Proof. intros [H1 H2 H3 H4] Hh E. split; [|done]. split; [by split|done..|]. by rewrite E. Qed.
Lemma generations_keeps k s : screen_ok s -> keeps_cursor s (set_generations k s).
Proof. intros [H1 H2 H3 H4]. by split; [split; [split|..]|]. Qed.
Lemma detached_keeps b s : screen_ok s -> keeps_cursor s (on_surface (set_detached b) s).
Proof. intros Hs. split; [|done]. destruct (sc_surface s Hs). by apply cursor_keeps. Qed.

Lemma zmin_le z n : zmin z n <= n.
Proof. unfold zmin. lia. Qed.

Lemma scroll_region_up_from_keeps top bottom count s : screen_ok s ->
  returns (scroll_region_up_from top bottom count s) (keeps_cursor s).
Proof.
  intros Hs. unfold scroll_region_up_from.
  destruct (Nat.ltb_spec bottom top); [by apply returns_Ok|].
  destruct (Nat.ltb_spec (max_row s) bottom); [by apply returns_Ok|]. cbn [orb].
  pose proof (zmin_le count (bottom - top + 1)). set (n := zmin _ _) in *.
  destruct (Nat.eqb_spec n 0); [by apply returns_Ok|].
  eapply (returns_bind _ _ (fun s' => keeps_cursor s s')).
  - apply returns_if; intros B; [|by apply returns_Ok].
    apply andb_prop in B as [_ B%negb_true_iff].
    destruct (generations_keeps (generations (add_scroll_rows n s)) s Hs) as [K1 C1].
    destruct (detached_keeps false (add_scroll_rows n s) (kp_ok _ _ K1)) as [K2 C2].
    set (s2 := on_surface _ _) in *. eapply returns_bind.
    + apply (returns_fold _ hist_ok); [|exact (sc_history _ (kp_ok _ _ K2))].
      intros k h Hk%elem_range Hh. apply push_row_ok; [apply K2|change (max_row s2) with (max_row s); lia|done].
    + intros h Hh. apply returns_Ok. eapply keeps_cursor_trans; [by split; [exact K1|]|].
      eapply keeps_cursor_trans; [by split; [exact K2|]|]. apply history_keeps; [apply K2|done..].
  - intros s' [K C]. assert (max_row s' = max_row s) as Em by (unfold max_row; by rewrite (kp_size _ _ K)).
    eapply returns_mono; [apply shift_rows_keeps; rewrite ?Em; try lia; [apply rotation_left|apply K|]|].
    + apply Forall_forall. intros k Hk%elem_range_incl. lia.
    + intros s2 K2. by eapply keeps_cursor_trans.
Qed.

Lemma scroll_region_down_from_keeps top bottom count s : screen_ok s ->
  returns (scroll_region_down_from top bottom count s) (keeps_cursor s).
Proof.
  intros Hs. unfold scroll_region_down_from.
  destruct (Nat.ltb_spec bottom top); [by apply returns_Ok|].
  destruct (Nat.ltb_spec (max_row s) bottom); [by apply returns_Ok|]. cbn [orb].
  pose proof (zmin_le count (bottom - top + 1)). set (n := zmin _ _) in *.
  destruct (Nat.eqb_spec n 0); [by apply returns_Ok|].
  apply shift_rows_keeps; try lia; [apply rotation_right|done|].
  apply Forall_forall. intros k Hk%elem_range. lia.
Qed.

Lemma active_region_bounds s : (active_scroll_region s).1 <= max_row s /\ (active_scroll_region s).2 <= max_row s.
Proof. unfold active_scroll_region. destruct (scroll_region (surface s)) as [[top bottom]|]; cbn; lia. Qed.

(** ** Lines *)

Lemma column_keeps c s : screen_ok s -> c < n_columns (sf_size (surface s)) ->
  keeps s (on_surface (set_column c) s).
Proof. intros Hs Hc. destruct (sc_surface s Hs). by apply cursor_keeps. Qed.
Lemma row_keeps r s : screen_ok s -> r < n_rows (sf_size (surface s)) ->
  keeps s (on_surface (set_row r) s).
Proof. intros Hs Hc. destruct (sc_surface s Hs). by apply cursor_keeps. Qed.

Lemma index_keeps s : screen_ok s ->
  returns (index s) (fun s' => keeps s s' /\ column_of s' = column_of s).
Proof.
  intros Hs. unfold index.
  set (s1 := if bool_decide _ then _ else _).
  assert (keeps_cursor s s1) as K1.
  { unfold s1. case_bool_decide; [by apply clear_line_copy_text_keeps|done]. }
  assert (keeps_cursor s (no_wrap s1)) as K2.
  { eapply keeps_cursor_trans; [exact K1|]. apply no_wrap_keeps, K1. }
  set (s2 := no_wrap s1) in *. destruct K2 as [K2 C2].
  assert (column_of s2 = column_of s) as Ec by (unfold column_of; by rewrite C2).
  destruct (active_scroll_region s2) as [top bottom].
  apply returns_if; intros _.
  - eapply returns_mono; [apply scroll_region_up_from_keeps, K2|]. intros s3 [K3 C3].
    split; [by eapply keeps_trans|]. unfold column_of in *. by rewrite C3.
  - apply returns_Ok. split; [|done]. eapply keeps_trans; [exact K2|].
    pose proof (screen_bounds s2 (kp_ok _ _ K2)).
    apply row_keeps; [apply K2|lia].
Qed.

Lemma next_line_keeps s : screen_ok s ->
  returns (next_line s) (fun s' => keeps s s' /\ column_of s' = 0).
Proof.
  intros Hs. unfold next_line. destruct (no_wrap_keeps s Hs) as [K1 _].
  pose proof (screen_bounds _ (kp_ok _ _ K1)).
  assert (keeps s (on_surface (set_column 0) (no_wrap s))) as K2.
  { eapply keeps_trans; [exact K1|]. apply column_keeps; [apply K1|lia]. }
  eapply returns_mono; [apply index_keeps, K2|]. intros s3 [K3 C3].
  split; [by eapply keeps_trans|done].
Qed.

Lemma reverse_index_keeps s : screen_ok s -> returns (reverse_index s) (keeps s).
Proof.
  intros Hs. unfold reverse_index. destruct (no_wrap_keeps s Hs) as [K1 _]. set (s1 := no_wrap s) in *.
  destruct (active_scroll_region s1) as [top bottom]. pose proof (screen_bounds _ (kp_ok _ _ K1)).
  apply returns_if; intros _.
  - eapply returns_mono; [apply scroll_region_down_from_keeps, K1|]. intros s2 [K2 _]. by eapply keeps_trans.
  - apply returns_Ok. eapply keeps_trans; [exact K1|]. apply row_keeps; [apply K1|lia].
Qed.

(** ** Continuation prefixes *)

Lemma read_prefix_width ew cs rs column p q : read_prefix ew cs rs column p = Some q ->
  prefix_width q = prefix_cells p ew.
Proof.
  revert column q. induction p as [|c p IH]; intros column q; cbn [read_prefix]; [by intros [= <-]|].
  destruct (cs !! column); cbn [mbind option_bind]; [|done]. destruct (_ || _); [done|].
  destruct (read_prefix _ _ _ _ p) as [rest|] eqn:E; cbn; [|done]. intros [= <-].
  apply IH in E. unfold prefix_width, prefix_cells in *. cbn. by rewrite E.
Qed.

Lemma current_prefix_width s q : current_wrap_continuation_prefix s = Some q ->
  exists p, wrap_continuation_prefix (settings s) = Some p /\ prefix_width q = prefix_cells p (emoji_of s).
Proof.
  unfold current_wrap_continuation_prefix, wrap_continuation_prefix_from_row.
  destruct (wrap_continuation_prefix (settings s)) as [p|]; cbn; [|done].
  destruct (_ <=? _); [done|]. destruct (cells _ !! _) as [cs|]; cbn; [|done].
  destruct (renditions _ !! _) as [rs|]; cbn; [|done].
  destruct (read_prefix _ _ _ _ _) as [q'|] eqn:E; cbn; [|done].
  destruct (styled_prefix_is_non_default q'); [|done]. intros [= <-]. exists p.
  split; [done|]. by eapply read_prefix_width.
Qed.

Lemma write_prefix_cells_keeps prefix s : screen_ok s ->
  column_of s + prefix_width prefix < n_columns (sf_size (surface s)) ->
  returns (write_prefix_cells prefix s)
    (fun s' => keeps s s' /\ column_of s' <= column_of s + prefix_width prefix).
Proof.
  revert s. induction prefix as [|c prefix IH]; intros s Hs Hw; cbn [write_prefix_cells].
  { apply returns_Ok. split; [done|lia]. }
  change (prefix_width (c :: prefix)) with (prefix_cell_width c + prefix_width prefix) in *.
  set (w := prefix_cell_width c) in *.
  destruct (_ <? _); [apply returns_Ok; split; [done|lia]|].
  destruct (clear_line_copy_text_keeps (row_of s) s Hs) as [K1 C1]. set (s1 := clear_line_copy_text _ _) in *.
  pose proof (screen_bounds s1 (kp_ok _ _ K1)) as (Hr & Hc & _). pose proof (kp_size _ _ K1) as Ez.
  pose proof (so_grid _ (sc_surface _ (kp_ok _ _ K1))) as Hg.
  assert (column_of s1 = column_of s) as Ec by (unfold column_of; by rewrite C1). rewrite <- Ez in Hw.
  eapply returns_bind; [by apply (put_ok (sf_size (surface s1)))|]. intros g1 Hg1.
  eapply (returns_bind _ _ (grid_ok (sf_size (surface s1)))).
  { apply returns_fold; [|done]. intros k g Hk%elem_range Hg'. apply put_ok; [done|done|lia]. }
  intros g2 Hg2. destruct (with_grid_keeps g2 s1 (kp_ok _ _ K1) Hg2) as [K2 C2].
  assert (keeps s1 (on_surface (set_column (column_of s1 + w)) (with_grid g2 s1))) as K3.
  { eapply keeps_trans; [exact K2|]. apply column_keeps; [apply K2|]. rewrite (kp_size _ _ K2). lia. }
  set (s3 := on_surface _ _) in *. assert (column_of s3 = column_of s1 + w) as Ec3 by done.
  eapply returns_mono; [apply IH; [apply K3|]|].
  - rewrite (kp_size _ _ K3). lia.
  - cbn beta. intros s4 [K4 C4]. split; [|lia]. eapply keeps_trans; [exact K1|]. by eapply keeps_trans.
Qed.

(** The columns a configured prefix takes. *)
Definition configured_width (s : TerminalScreen) : nat :=
  from_option (fun p => prefix_cells p (emoji_of s)) 0 (wrap_continuation_prefix (settings s)).

Lemma wrap_to_next_line_keeps s : screen_ok s ->
  returns (wrap_to_next_line s) (fun s' => keeps s s' /\ column_of s' <= configured_width s).
Proof.
  intros Hs. unfold wrap_to_next_line. pose proof (current_prefix_width s) as Hp.
  set (prefix := current_wrap_continuation_prefix s) in *.
  destruct (with_grid_keeps (set_line_wraps (<[row_of s := true]> (line_wraps (screen_grid s))) (screen_grid s))
    s Hs) as [K1 _].
  { destruct (so_grid _ (sc_surface s Hs)). split; cbn; rewrite ?length_insert; done. }
  set (s1 := with_grid _ s) in *.
  eapply returns_bind; [apply next_line_keeps, K1|]. intros s2 [K2 C2].
  destruct (no_wrap_keeps s2 (kp_ok _ _ K2)) as [K3 C3]. set (s3 := no_wrap s2) in *.
  assert (keeps s s3) as K by (eapply keeps_trans; [exact K1|]; by eapply keeps_trans).
  assert (column_of s3 = 0) as Ec by (unfold column_of in *; by rewrite C3).
  destruct prefix as [q|]; [|apply returns_Ok; split; [done|lia]].
  destruct (Hp q eq_refl) as (p & Ep & Ew). unfold write_wrap_continuation_prefix, configured_width.
  rewrite Ep. cbn [from_option]. destruct (Nat.leb_spec (n_columns (sf_size (surface s3))) (prefix_width q)).
  - apply returns_Ok. split; [done|lia].
  - eapply returns_mono; [apply write_prefix_cells_keeps; [apply K|lia]|]. cbn beta. intros s4 [K4 C4].
    split; [by eapply keeps_trans|lia].
Qed.

(** ** Characters *)

Lemma shift_chars_keeps (rot : forall {A}, nat -> list A -> list A) count blanks s :
  rotation (@rot) -> screen_ok s ->
  (forall column width n, column + n <= width -> Forall (fun k => k < width) (blanks column width n)) ->
  returns (shift_chars (@rot) count blanks s) (keeps_cursor s).
Proof.
  intros Hrot Hs Hb. unfold shift_chars. pose proof (no_wrap_keeps s Hs) as K1.
  set (s1 := no_wrap s) in *. pose proof (screen_bounds s1 (kp_ok _ _ (proj1 K1))) as (Hr & Hc & _).
  set (n := zmin _ _). assert (n <= n_columns (sf_size (surface s1)) - column_of s1) as Hn by apply zmin_le.
  pose proof (clear_line_copy_text_keeps (row_of s1) s1 (kp_ok _ _ (proj1 K1))) as K2.
  set (s2 := clear_line_copy_text _ _) in *. pose proof (kp_size _ _ (proj1 K2)) as Ez.
  set (z := sf_size (surface s1)) in *. set (row := row_of s1) in *. set (column := column_of s1) in *.
  pose proof (so_grid _ (sc_surface _ (kp_ok _ _ (proj1 K2)))) as Hg. rewrite Ez in Hg.
  set (r := rendition_of s2). set (ew := emoji_of s2).
  eapply (returns_bind _ _ (grid_ok z)).
  - apply returns_if; intros _; [|by apply returns_Ok].
    eapply returns_bind; [apply (row_ok z _ _ (fun _ => True)); auto|]. intros cs _.
    eapply (returns_bind _ _ (grid_ok z)).
    { apply returns_if; intros _; [by apply clear_cell_footprint_ok|by apply returns_Ok]. }
    intros g1 Hg1. eapply returns_bind; [apply (row_ok z _ _ (fun l => length l = n_columns z)); auto|].
    cbn beta. intros l Hl. eapply (returns_bind _ _ (fun l => length l = n_columns z)).
    { apply (returns_rotate rot (fun _ => True)); [done|lia|lia|lia|by apply Forall_true|].
      intros k Hk _. lia. }
    cbn beta. intros l' Hl'. set (g2 := set_cells _ g1).
    assert (grid_ok z g2) as Hg2.
    { destruct Hg1; split; cbn; rewrite ?length_insert; try done. by apply Forall_insert. }
    eapply returns_bind; [apply (returns_index _ _ (fun l => length l = n_columns z))|].
    { by rewrite (go_renditions z g2 Hg2). }
    { intros a Ha. exact (row_renditions z g2 row a Hg2 Ha). }
    cbn beta. intros q Hq. eapply (returns_bind _ _ (fun l => length l = n_columns z)).
    { apply (returns_rotate rot (fun _ => True)); [done|lia|lia|lia|by apply Forall_true|].
      intros k Hk _. lia. }
    cbn beta. intros q' Hq'. apply returns_fold.
    + intros k g Hk Hg3. pose proof (proj1 (Forall_forall _ _) (Hb column (n_columns z) n ltac:(lia)) k Hk).
      by apply put_ok.
    + clearbody g2. destruct Hg2; split; cbn; rewrite ?length_insert; try done. by apply Forall_insert.
  - intros g1 Hg1. eapply returns_bind; [by apply repair_ok|]. intros g2 Hg2. apply returns_Ok.
    eapply keeps_cursor_trans; [exact K1|]. eapply keeps_cursor_trans; [exact K2|].
    apply with_grid_keeps; [apply (proj1 K2)|by rewrite Ez].
Qed.

Lemma insert_blank_chars_keeps count s : screen_ok s ->
  returns (insert_blank_chars count s) (keeps_cursor s).
Proof.
  intros Hs. apply shift_chars_keeps; [apply rotation_right|done|].
  intros column width n H. apply Forall_forall. intros k Hk%elem_range. lia.
Qed.
Lemma delete_chars_keeps count s : screen_ok s -> returns (delete_chars count s) (keeps_cursor s).
Proof.
  intros Hs. apply shift_chars_keeps; [apply rotation_left|done|].
  intros column width n H. apply Forall_forall. intros k Hk%elem_range. lia.
Qed.

Lemma erase_columns_ok ew r z row l g : grid_ok z g -> row < n_rows z ->
  Forall (fun k => k < n_columns z) l -> returns (erase_columns ew r row l g) (grid_ok z).
Proof.
  intros Hg Hr Hl. apply returns_fold; [|done]. intros k g' Hk Hg'.
  eapply returns_bind; [by apply clear_cell_footprint_ok|]. intros g2 Hg2.
  apply put_ok; [done|done|]. exact (proj1 (Forall_forall _ _) Hl k Hk).
Qed.

Lemma erase_chars_keeps count s : screen_ok s -> returns (erase_chars count s) (keeps_cursor s).
Proof.
  intros Hs. unfold erase_chars. pose proof (no_wrap_keeps s Hs) as K1. set (s1 := no_wrap s) in *.
  pose proof (screen_bounds s1 (kp_ok _ _ (proj1 K1))) as (Hr & _ & _ & Hm & _).
  eapply returns_bind; [apply (erase_columns_ok _ _ (sf_size (surface s1))); [|done|]|].
  - exact (so_grid _ (sc_surface _ (kp_ok _ _ (proj1 K1)))).
  - apply Forall_forall. intros k Hk%elem_range_incl.
    pose proof (zmin_le (sat_add u64_MAX (Z.of_nat (column_of s1)) (sat_sub count 1)) (max_column s1)). lia.
  - intros g Hg. apply returns_Ok. eapply keeps_cursor_trans; [exact K1|].
    pose proof (with_grid_keeps g s1 (kp_ok _ _ (proj1 K1)) Hg) as K2.
    eapply keeps_cursor_trans; [exact K2|]. apply clear_line_copy_text_keeps, (proj1 K2).
Qed.

Lemma insert_lines_keeps count s : screen_ok s -> returns (insert_lines count s) (keeps_cursor s).
Proof.
  intros Hs. unfold insert_lines. pose proof (no_wrap_keeps s Hs) as K1. set (s1 := no_wrap s) in *.
  pose proof (active_region_bounds s1) as [_ Hb]. destruct (active_scroll_region s1) as [top bottom].
  cbn [fst snd] in Hb. destruct (Nat.ltb_spec (row_of s1) top); [by apply returns_Ok|].
  destruct (Nat.ltb_spec bottom (row_of s1)); [by apply returns_Ok|]. cbn [orb].
  pose proof (zmin_le count (bottom - row_of s1 + 1)). destruct (_ =? _); [by apply returns_Ok|].
  eapply returns_mono; [apply shift_rows_keeps; try lia; [apply rotation_right|apply (proj1 K1)|]|].
  - apply Forall_forall. intros k Hk%elem_range. lia.
  - intros s2 K2. by eapply keeps_cursor_trans.
Qed.
Lemma delete_lines_keeps count s : screen_ok s -> returns (delete_lines count s) (keeps_cursor s).
Proof.
  intros Hs. unfold delete_lines. pose proof (no_wrap_keeps s Hs) as K1. set (s1 := no_wrap s) in *.
  pose proof (active_region_bounds s1) as [_ Hb]. destruct (active_scroll_region s1) as [top bottom].
  cbn [fst snd] in Hb. destruct (Nat.ltb_spec (row_of s1) top); [by apply returns_Ok|].
  destruct (Nat.ltb_spec bottom (row_of s1)); [by apply returns_Ok|]. cbn [orb].
  pose proof (zmin_le count (bottom - row_of s1 + 1)). destruct (_ =? _); [by apply returns_Ok|].
  eapply returns_mono; [apply shift_rows_keeps; try lia; [apply rotation_left|apply (proj1 K1)|]|].
  - apply Forall_forall. intros k Hk%elem_range_incl. lia.
  - intros s2 K2. by eapply keeps_cursor_trans.
Qed.

(** ** Printing *)

Lemma log_frame_columns_le entry columns policy : log_frame_columns entry columns policy <= Nat.max columns 1.
Proof.
  unfold log_frame_columns. destruct (_ && _); [|lia]. unfold canonical_width, frame.
  cbn [total_width]. destruct (wrap_cap policy =? 0); lia.
Qed.
Lemma print_max_column_lt s : screen_ok s -> print_max_column s < n_columns (sf_size (surface s)).
Proof.
  intros Hs. pose proof (valid_positive _ (so_size _ (sc_surface s Hs))). unfold print_max_column.
  pose proof (log_frame_columns_le (active_presentation s) (n_columns (sf_size (surface s)))
    (log_frame_policy (settings s))). lia.
Qed.

Lemma write_extended_ok z row leading old_width new_width candidate r ew g : grid_ok z g ->
  row < n_rows z -> 0 < new_width -> leading + new_width <= n_columns z ->
  returns (write_extended row leading old_width new_width candidate r ew g) (grid_ok z).
Proof.
  intros Hg Hr H0 Hl. unfold write_extended. eapply (returns_bind _ _ (grid_ok z)).
  { apply returns_fold; [|done]. intros k g' _ Hg'. by apply clear_cell_footprint_ok. }
  intros g1 Hg1. eapply returns_bind; [apply (put_cell_ok z); [done|done|lia]|]. intros g2 Hg2.
  eapply (returns_bind _ _ (grid_ok z)).
  { apply returns_fold; [|done]. intros k g' Hk%elem_range Hg'. apply put_ok; [done|done|lia]. }
  intros g3 Hg3. apply returns_fold; [|done]. intros k g' Hk Hg'.
  eapply returns_bind; [apply (row_ok z _ _ (fun l => length l = n_columns z)); auto|]. cbn beta.
  intros l Hl'. destruct (Nat.ltb_spec (leading + k) (length l)); [|by apply returns_Ok].
  apply put_ok; [done|done|lia].
Qed.

Lemma extend_at_bounds c s leading candidate w : screen_ok s ->
  extend_at c s = Some (leading, candidate, w) -> leading < n_columns (sf_size (surface s)).
Proof.
  intros Hs. unfold extend_at. destruct (cells _ !! _) as [cs|]; cbn [mbind option_bind]; [|done].
  destruct (_ =? 0); [done|]. destruct (if wrap_pending _ then _ else _) as [start|]; cbn [mbind option_bind]; [|done].
  destruct (leading_column_for_cell _ _ _) as [k|] eqn:E; cbn [mbind option_bind]; [|done].
  destruct (cs !! k); cbn [mbind option_bind]; [|done]. destruct (is_blank _); [done|].
  destruct (owned_text _); cbn [mbind option_bind]; [|done]. case_bool_decide; [|done]. intros [= -> _ _].
  eapply leading_column_lt in E; [|exact (so_grid _ (sc_surface s Hs))]. lia.
Qed.

Section Wide.
(** A character takes at most two cells. *)
Hypothesis at_most_wide : forall c w, char_width c = Some w -> w <= 2.

Lemma char_width_le c ew : terminal_char_width c ew <= 2.
Proof.
  unfold terminal_char_width. destruct (_ && _); [lia|]. destruct (char_width c) as [w|] eqn:E; cbn; [|lia].
  by eapply at_most_wide.
Qed.
Lemma grapheme_width_le g ew : terminal_grapheme_width g ew <= 2.
Proof.
  unfold terminal_grapheme_width. destruct (if bool_decide (ew = Narrow) then _ else None) as [w|] eqn:E.
  - case_bool_decide; [|done]. unfold narrow_text_fallback_grapheme_width in E.
    destruct g as [|b [|v [|]]]; try done. destruct (_ || _)%bool in E; [|done].
    injection E as <-. apply char_width_le.
  - destruct g as [|c [|]]; [lia|apply char_width_le|lia].
Qed.

Lemma try_extend_keeps c s : screen_ok s -> room s ->
  returns (try_extend_previous_grapheme c s) (fun r => keeps s r.1).
Proof.
  intros Hs Hroom. unfold try_extend_previous_grapheme.
  destruct (extend_at c s) as [[[leading candidate] w]|] eqn:E; [|by apply returns_Ok].
  apply extend_at_bounds in E; [|done]. destruct (_ <? _)%Z; [by apply returns_Ok|].
  set (nw := terminal_grapheme_width candidate _). pose proof (screen_bounds s Hs) as (Hr & _).
  pose proof (so_grid _ (sc_surface s Hs)) as Hg. set (z := sf_size (surface s)) in *.
  eapply returns_bind; [apply (row_ok z _ _ (fun l => length l = n_columns z)); auto|]. cbn beta.
  intros cs Hcs. destruct (Nat.eqb_spec nw 0); [by apply returns_Ok|].
  destruct (Nat.ltb_spec (length cs) (leading + nw)) as [|Hfit]; [by apply returns_Ok|]. cbn [orb].
  eapply returns_bind; [by apply (rendition_at_ok z)|]. intros r _.
  pose proof (print_max_column_lt s Hs) as Hlast. fold z in Hlast. set (last := print_max_column s) in *.
  eapply (returns_bind _ _ (fun p => keeps s p.1 /\ p.2 + nw <= n_columns z)).
  - destruct (_ && _ && _) eqn:B; [|apply returns_Ok; split; [done|cbn; lia]].
    apply andb_true_iff in B as [[_ B]%andb_true_iff _]. apply bool_decide_eq_true in B as [e He].
    eapply returns_bind; [by apply (clear_cell_footprint_ok _ z)|]. intros g1 Hg1.
    destruct (with_grid_keeps g1 s Hs Hg1) as [K1 _].
    eapply returns_bind; [apply wrap_to_next_line_keeps, K1|]. cbn beta. intros s2 [K2 C2].
    apply returns_Ok. cbn [fst snd]. split; [by eapply keeps_trans|].
    pose proof (grapheme_width_le candidate (emoji_of s)). fold nw in H. unfold room in Hroom. rewrite He in Hroom.
    unfold configured_width in C2. change (settings (with_grid g1 s)) with (settings s) in C2.
    change (emoji_of (with_grid g1 s)) with (emoji_of s) in C2. fold z in Hroom.
    destruct (wrap_continuation_prefix (settings s)); cbn [from_option] in C2; lia.
  - intros [s1 lead] [K1 Hfit1]. cbn [fst snd] in K1, Hfit1.
    destruct (clear_line_copy_text_keeps (row_of s1) s1 (kp_ok _ _ K1)) as [K2 C2].
    set (s2 := clear_line_copy_text _ _) in *.
    assert (keeps s s2) as K by by eapply keeps_trans. pose proof (kp_size _ _ K) as Ez.
    pose proof (screen_bounds s2 (kp_ok _ _ K)) as (Hr2 & _). fold z in Ez.
    eapply returns_bind; [apply (write_extended_ok (sf_size (surface s2)))|].
    + exact (so_grid _ (sc_surface _ (kp_ok _ _ K))).
    + done.
    + lia.
    + rewrite Ez. lia.
    + intros g Hg3. destruct (with_grid_keeps g s2 (kp_ok _ _ K) Hg3) as [K3 _].
      apply returns_Ok. cbn [fst]. set (s3 := with_grid g s2) in *.
      assert (keeps s s3) as K4 by by eapply keeps_trans. pose proof (sc_surface _ (kp_ok _ _ K4)) as [? ? Hr4 ?].
      pose proof (kp_size _ _ K4) as Ez4. fold z in Ez4.
      destruct (Nat.ltb_spec last (lead + nw)); (eapply keeps_trans; [exact K4|]);
        (apply cursor_keeps; [apply K4|done|done|exact Hr4|cbn [set_wrap_pending set_column set_cursor cursor c_column]; rewrite Ez4; lia]).
Qed.

Lemma write_char_ok z row column width last c r ew g : grid_ok z g -> row < n_rows z ->
  column < n_columns z -> last < n_columns z ->
  returns (write_char row column width last c r ew g) (grid_ok z).
Proof.
  intros Hg Hr Hc Hl. unfold write_char.
  eapply returns_bind; [apply (row_ok z _ _ (fun _ => True)); auto|]. intros cs _.
  eapply (returns_bind _ _ (grid_ok z)).
  { apply returns_fold; [|done]. intros k g' _ Hg'. by apply clear_cell_footprint_ok. }
  intros g1 Hg1. eapply returns_bind; [by apply (put_ok z)|]. intros g2 Hg2.
  apply returns_fold; [|done]. intros k g' Hk Hg'.
  destruct (Nat.leb_spec (column + k) last); [|by apply returns_Ok]. apply put_ok; [done|done|lia].
Qed.

Lemma cursor_at_keeps h s : screen_ok s -> grid (h (surface s)) = grid (surface s) ->
  sf_size (h (surface s)) = sf_size (surface s) ->
  c_row (cursor (h (surface s))) = row_of s ->
  c_column (cursor (h (surface s))) < n_columns (sf_size (surface s)) -> keeps s (on_surface h s).
Proof.
  intros Hs Hg Hz Hr Hc. apply cursor_keeps; try done. rewrite Hr. apply (screen_bounds s Hs).
Qed.

Lemma maybe_wrap_keeps (b : bool) s : screen_ok s ->
  returns (if b then wrap_to_next_line s else Ok s) (keeps s).
Proof.
  intros Hs. destruct b; [|by apply returns_Ok].
  eapply returns_mono; [by apply wrap_to_next_line_keeps|]. by intros ? [? _].
Qed.

Lemma print_width_keeps c width s : screen_ok s -> returns (print_width c width s) (keeps s).
Proof.
  intros Hs. unfold print_width. pose proof (print_max_column_lt s Hs) as Hlast.
  set (last := print_max_column s) in *.
  eapply returns_bind; [by apply maybe_wrap_keeps|]. intros s1 K1.
  eapply returns_bind; [apply maybe_wrap_keeps, K1|]. intros s2 K2.
  destruct (clear_line_copy_text_keeps (row_of s2) s2 (kp_ok _ _ K2)) as [K3 _].
  set (s3 := clear_line_copy_text _ _) in *.
  assert (keeps s s3) as K by (eapply keeps_trans; [exact K1|]; by eapply keeps_trans).
  eapply (returns_bind _ _ (keeps_cursor s3)).
  { apply returns_if; intros _; [apply insert_blank_chars_keeps, K3|apply returns_Ok; split; [apply keeps_refl, K3|done]]. }
  intros s4 [K4 C4]. assert (keeps s s4) as K5 by by eapply keeps_trans.
  pose proof (kp_size _ _ K5) as Ez. pose proof (screen_bounds s4 (kp_ok _ _ K5)) as (Hr & Hc & _ & Hm & _).
  assert (row_of s3 = row_of s4) as Er by (unfold row_of; by rewrite C4).
  assert (column_of s3 = column_of s4) as Ec by (unfold column_of; by rewrite C4). rewrite Er, Ec.
  pose proof (so_grid _ (sc_surface _ (kp_ok _ _ K5))) as Hg. set (z := sf_size (surface s4)) in *.
  eapply returns_bind; [apply (row_ok z _ _ (fun _ => True)); auto|]. intros cs _.
  apply returns_if; intros _.
  - eapply (returns_bind _ _ (grid_ok z)).
    { apply returns_fold; [|done]. intros k g' _ Hg'. by apply clear_cell_footprint_ok. }
    intros g Hg1. apply returns_Ok. destruct (with_grid_keeps g s4 (kp_ok _ _ K5) Hg1) as [K6 _].
    eapply keeps_trans; [exact K5|]. eapply keeps_trans; [exact K6|].
    apply cursor_at_keeps; [apply K6|done|done|done|exact Hm].
  - eapply returns_bind; [apply (write_char_ok z); [done|done|done|by rewrite Ez]|]. intros g Hg1.
    destruct (with_grid_keeps g s4 (kp_ok _ _ K5) Hg1) as [K6 _]. apply returns_Ok.
    eapply keeps_trans; [exact K5|]. eapply keeps_trans; [exact K6|].
    assert (last < n_columns z) as Hl by by rewrite Ez.
    destruct (Nat.ltb_spec last (column_of (with_grid g s4) + width)) as [|Hlt];
      [destruct (negb _)|]; (apply cursor_at_keeps; [apply K6|done|done|done|]); try done.
    change (column_of (with_grid g s4) + width < n_columns z). lia.
Qed.

Lemma print_keeps c s : screen_ok s -> room s -> returns (print c s) (keeps s).
Proof.
  intros Hs Hroom. unfold print. set (t := match active_charset s with Ascii => _ | _ => _ end).
  eapply (returns_bind _ _ (fun r => keeps s r.1)).
  { apply returns_if; intros _; [by apply try_extend_keeps|by apply returns_Ok]. }
  intros [s1 extended] K1. cbn [fst] in K1. destruct extended; [by apply returns_Ok|].
  destruct (_ =? 0); [by apply returns_Ok|].
  eapply returns_mono; [apply print_width_keeps, K1|]. intros s2 K2. by eapply keeps_trans.
Qed.

End Wide.

(** ** Cursor, margins and erasing *)

Lemma addressed_row_le row s : addressed_row row s <= max_row s.
Proof.
  unfold addressed_row. pose proof (active_region_bounds s) as [_ Hb].
  destruct (active_scroll_region s) as [top bottom]. cbn [snd] in Hb.
  pose proof (zmin_le (sat_add u64_MAX (Z.of_nat top) (sat_sub row 1)) bottom).
  pose proof (zmin_le (sat_sub row 1) (max_row s)). destruct (origin_mode_enabled _); lia.
Qed.

(** A cursor set inside the grid. *)
Lemma set_cursor_keeps r c s : screen_ok s -> r <= max_row s -> c <= max_column s ->
  keeps s (on_surface (set_cursor {| c_row := r; c_column := c |}) s).
Proof. intros Hs Hr Hc. pose proof (screen_bounds s Hs). apply cursor_keeps; [done..|cbn; lia|cbn; lia]. Qed.

Lemma move_cursor_keeps params s : screen_ok s -> keeps s (move_cursor params s).
Proof.
  intros Hs. unfold move_cursor. destruct (no_wrap_keeps s Hs) as [K _].
  eapply keeps_trans; [exact K|]. apply set_cursor_keeps; [apply K|apply addressed_row_le|apply zmin_le].
Qed.
Lemma move_cursor_column_keeps params s : screen_ok s -> keeps s (move_cursor_column params s).
Proof.
  intros Hs. unfold move_cursor_column. destruct (no_wrap_keeps s Hs) as [K _].
  eapply keeps_trans; [exact K|]. apply column_keeps; [apply K|].
  pose proof (screen_bounds _ (kp_ok _ _ K)).
  pose proof (zmin_le (sat_sub (Z.max (first_csi_param params) 1) 1) (max_column (no_wrap s))). lia.
Qed.
Lemma move_cursor_row_keeps params s : screen_ok s -> keeps s (move_cursor_row params s).
Proof.
  intros Hs. unfold move_cursor_row. destruct (no_wrap_keeps s Hs) as [K _].
  eapply keeps_trans; [exact K|]. apply row_keeps; [apply K|].
  pose proof (screen_bounds _ (kp_ok _ _ K)).
  pose proof (addressed_row_le (Z.max (first_csi_param params) 1) (no_wrap s)). lia.
Qed.
Lemma move_cursor_relative_keeps params dr dc s : screen_ok s -> keeps s (move_cursor_relative params dr dc s).
Proof.
  intros Hs. unfold move_cursor_relative. destruct (no_wrap_keeps s Hs) as [K _]. set (s1 := no_wrap s) in *.
  pose proof (screen_bounds _ (kp_ok _ _ K)). pose proof (active_region_bounds s1).
  destruct (if origin_mode_enabled (surface s1) then _ else _) as [lo hi] eqn:E.
  assert (lo <= max_row s1 /\ hi <= max_row s1) as [Hlo Hhi].
  { destruct (origin_mode_enabled _); [by rewrite E in *|injection E as <- <-; lia]. }
  eapply keeps_trans; [exact K|]. apply set_cursor_keeps; [apply K| |].
  - pose proof (zmin_le (sat_add u64_MAX (Z.of_nat (row_of s1)) (csi_count params)) hi).
    destruct (dr <? 0)%Z; [|destruct (0 <? dr)%Z; lia]. unfold sat_sub, csi_count. lia.
  - pose proof (zmin_le (sat_add u64_MAX (Z.of_nat (column_of s1)) (csi_count params)) (max_column s1)).
    destruct (dc <? 0)%Z; [|destruct (0 <? dc)%Z; lia]. unfold sat_sub, csi_count. lia.
Qed.
Lemma home_column_keeps s : screen_ok s -> keeps s (on_surface (set_column 0) s).
Proof. intros Hs. pose proof (screen_bounds s Hs). apply column_keeps; [done|lia]. Qed.

Lemma set_scroll_region_keeps params s : screen_ok s -> keeps s (set_scroll_region params s).
Proof.
  intros Hs. unfold set_scroll_region. pose proof (screen_bounds s Hs).
  case_bool_decide; [apply cursor_keeps; [done..|cbn; lia|cbn; lia]|].
  destruct (Z.ltb_spec (sat_sub (default 1%Z (csi_param 0 params)) 1)
    (Z.of_nat (zmin (sat_sub (default (rows (sf_size (surface s))) (csi_param 1 params)) 1) (max_row s)))); [|done].
  pose proof (zmin_le (sat_sub (default (rows (sf_size (surface s))) (csi_param 1 params)) 1) (max_row s)).
  apply cursor_keeps; [done..| |cbn; lia]. cbn. destruct (origin_mode_enabled _); lia.
Qed.

Lemma clear_screen_keeps s : screen_ok s -> keeps s (clear_screen s).
Proof.
  intros Hs. apply on_surface_keeps; [done| |done]. pose proof (screen_bounds s Hs).
  split; cbn; [apply Hs|apply blank_grid_ok|lia|lia].
Qed.

Lemma erase_line_range_keeps row a b s : screen_ok s -> row <= max_row s ->
  returns (erase_line_range row a b s) (keeps_cursor s).
Proof.
  intros Hs Hr. unfold erase_line_range. pose proof (screen_bounds s Hs) as (_ & _ & ? & ? & _).
  eapply returns_bind; [apply (erase_columns_ok _ _ (sf_size (surface s))); [apply Hs|lia|]|].
  { apply Forall_forall. intros k Hk%elem_range_incl. lia. }
  intros g Hg. pose proof (with_grid_keeps g s Hs Hg) as K1.
  pose proof (clear_line_copy_text_keeps row _ (kp_ok _ _ (proj1 K1))) as K2.
  pose proof (keeps_cursor_trans _ _ _ K1 K2) as K. set (s2 := clear_line_copy_text _ _) in *.
  apply returns_Ok. destruct (_ =? _); [|done]. eapply keeps_cursor_trans; [exact K|].
  apply with_grid_keeps; [apply (proj1 K)|].
  destruct (so_grid _ (sc_surface _ (kp_ok _ _ (proj1 K)))). split; cbn; rewrite ?length_insert; done.
Qed.
Lemma erase_rows_keeps l s : screen_ok s -> Forall (fun r => r <= max_row s) l ->
  returns (erase_rows l s) (keeps_cursor s).
Proof.
  intros Hs Hl. apply returns_fold; [|done]. intros row s' Hrow K.
  assert (max_row s' = max_row s) as Em by (unfold max_row; by rewrite (kp_size _ _ (proj1 K))).
  pose proof (proj1 (Forall_forall _ _) Hl row Hrow) as Hr. cbn beta in Hr.
  eapply returns_mono; [apply erase_line_range_keeps; [apply (proj1 K)|lia]|].
  intros s2 K2. by eapply keeps_cursor_trans.
Qed.

Lemma erase_display_keeps params s : screen_ok s -> returns (erase_display params s) (keeps s).
Proof.
  intros Hs. unfold erase_display. destruct (no_wrap_keeps s Hs) as [K _]. set (s1 := no_wrap s) in *.
  pose proof (kp_ok _ _ K) as Hs1. pose proof (screen_bounds s1 Hs1) as (_ & _ & _ & _ & Hr & _).
  eapply returns_mono; [|intros s'; apply (keeps_trans _ _ s' K)].
  assert (forall s2, keeps_cursor s1 s2 -> max_row s2 = max_row s1) as Em.
  { intros s2 [K2 _]. unfold max_row. by rewrite (kp_size _ _ K2). }
  destruct (_ =? 0)%Z; [|destruct (_ =? 1)%Z; [|destruct (_ =? 2)%Z]].
  - eapply returns_bind; [by apply erase_line_range_keeps|]. intros s2 K2.
    eapply returns_mono; [apply erase_rows_keeps; [apply (proj1 K2)|]|].
    + apply Forall_forall. intros k Hk%elem_range_incl. rewrite (Em s2 K2). lia.
    + intros s3 [K3 _]. eapply keeps_trans; [apply (proj1 K2)|done].
  - eapply returns_bind; [apply erase_rows_keeps; [done|]|].
    + apply Forall_forall. intros k Hk%elem_range. lia.
    + intros s2 K2. eapply returns_mono; [apply erase_line_range_keeps; [apply (proj1 K2)|rewrite (Em s2 K2); lia]|].
      intros s3 [K3 _]. eapply keeps_trans; [apply (proj1 K2)|done].
  - eapply returns_bind; [apply erase_rows_keeps; [done|]|].
    + apply Forall_forall. intros k Hk%elem_range_incl. lia.
    + intros s2 [K2 _]. apply returns_Ok. destruct (alt_active _); [done|].
      eapply keeps_trans; [exact K2|]. apply detached_keeps, K2.
  - destruct (_ && negb (alt_active (alternate s1))) eqn:Ea; [|by apply returns_Ok]. apply returns_Ok.
    apply andb_prop in Ea as [_ Ea%negb_true_iff].
    destruct (history_keeps (clear_history (history s1)) s1 Hs1) as [K2 _]; [|exact Ea|].
    { exact (proj1 (history_step_refines HClear (history s1) I (sc_history _ Hs1))). }
    eapply keeps_trans; [exact K2|]. apply detached_keeps, K2.
Qed.
Lemma erase_line_keeps params s : screen_ok s -> returns (erase_line params s) (keeps s).
Proof.
  intros Hs. unfold erase_line. destruct (no_wrap_keeps s Hs) as [K _]. set (s1 := no_wrap s) in *.
  pose proof (kp_ok _ _ K) as Hs1. pose proof (screen_bounds s1 Hs1) as (_ & _ & _ & _ & Hr & _).
  eapply (returns_mono _ (keeps_cursor s1)); [|intros s' K'; exact (keeps_trans _ _ s' K (proj1 K'))].
  destruct (_ =? 0)%Z; [by apply erase_line_range_keeps|]. destruct (_ =? 1)%Z; [by apply erase_line_range_keeps|].
  destruct (_ =? 2)%Z; [by apply erase_line_range_keeps|by apply returns_Ok].
Qed.

Lemma save_cursor_keeps s : screen_ok s -> keeps_cursor s (save_cursor s).
Proof. intros Hs. split; [|done]. destruct (sc_surface s Hs). by apply cursor_keeps. Qed.
Lemma restore_cursor_keeps s : screen_ok s -> keeps s (restore_cursor s).
Proof.
  intros Hs. unfold restore_cursor. destruct (saved_cursor _) as [c|]; [|done].
  pose proof (screen_bounds s Hs). apply cursor_keeps; [done..|cbn; lia|cbn; lia].
Qed.
Lemma apply_sgr_keeps params s : screen_ok s -> keeps_cursor s (apply_sgr params s).
Proof. intros Hs. split; [|done]. destruct (sc_surface s Hs). by apply cursor_keeps. Qed.

(** ** Resizing *)

Record resized (z : Size) (s s' : TerminalScreen) : Prop := {
  rz_ok : screen_ok s';
  rz_size : sf_size (surface s') = z;
  rz_settings : settings s' = settings s;
  rz_scope : active_presentation s' = active_presentation s;
  rz_alternate : alternate s' = alternate s;
  rz_parser : parser s' = parser s;
}.

Definition row_lengths (n : nat) (row : list TerminalScreenCell * list GraphicRendition) : Prop :=
  length row.1 = n /\ length row.2 = n.

Lemma set_pair_ok n k c r row : row_lengths n row -> k < n ->
  returns (cs ← set_at k c row.1; rs ← set_at k r row.2; Ok (cs, rs)) (row_lengths n).
Proof.
  intros [H1 H2] Hk. eapply returns_bind; [apply (returns_set_at _ _ _ (fun l => length l = n)); [lia|by rewrite length_insert]|].
  cbn beta. intros cs Hcs.
  eapply returns_bind; [apply (returns_set_at _ _ _ (fun l => length l = n)); [lia|by rewrite length_insert]|].
  cbn beta. intros rs Hrs. by apply returns_Ok.
Qed.

Lemma write_graphemes_ok l ew n gs column row : row_lengths n row ->
  returns (write_graphemes l ew n gs column row) (row_lengths n).
Proof.
  revert column row. induction gs as [|g gs IH]; intros column row Hrow; cbn [write_graphemes]; [by apply returns_Ok|].
  set (w := terminal_grapheme_width _ _). destruct (Nat.eqb_spec w 0); [auto|].
  destruct ((column =? 0) && (n <? w) && (0 <? n)) eqn:B.
  { apply andb_true_iff in B as [_ B]. apply Nat.ltb_lt in B. by apply set_pair_ok. }
  destruct (Nat.ltb_spec n (column + w)); [by apply returns_Ok|]. destruct Hrow as [H1 H2].
  eapply returns_bind; [apply (returns_set_at _ _ _ (fun l => length l = n)); [lia|by rewrite length_insert]|].
  cbn beta. intros cs Hcs.
  eapply returns_bind; [apply (returns_set_at _ _ _ (fun l => length l = n)); [lia|by rewrite length_insert]|].
  cbn beta. intros rs Hrs. eapply (returns_bind _ _ (row_lengths n)); [|auto].
  apply returns_fold; [|done]. intros k row' Hk%elem_range Hrow'. apply set_pair_ok; [done|lia].
Qed.

Lemma write_styled_line_ok l n row ew : row_lengths n row ->
  returns (write_styled_line_to_row l row ew) (row_lengths n).
Proof.
  intros Hrow. unfold write_styled_line_to_row. rewrite (proj1 Hrow).
  eapply returns_bind; [by apply write_graphemes_ok|]. intros [cs rs] [H1 H2]. apply returns_Ok.
  split; [done|]. cbn [fst snd] in *. revert rs H2. induction (style_spans l) as [|p ps IH]; intros rs H2; cbn; [done|].
  apply IH. unfold paint. by rewrite length_imap.
Qed.

Lemma store_row_ok ew z row l g : grid_ok z g -> row < n_rows z ->
  returns (store_row ew (row, l) g) (grid_ok z).
Proof.
  intros Hg Hr. unfold store_row. pose proof Hg as [H1 H2 H3 H4 H5 H6 H7 H8].
  eapply returns_bind; [apply (row_ok z _ _ (fun l => length l = n_columns z)); auto|]. cbn beta. intros cs Hcs.
  eapply returns_bind; [apply (returns_index _ _ (fun l => length l = n_columns z)); [lia|]|].
  { intros a Ha. exact (row_renditions z g row a Hg Ha). }
  cbn beta. intros rs Hrs. eapply returns_bind; [by apply (write_styled_line_ok _ (n_columns z))|].
  intros [cs' rs'] [Hc' Hr']. cbn [fst snd] in Hc', Hr'. unfold set_at.
  rewrite H5, H6, H7, H8, (proj2 (Nat.ltb_lt _ _)) by done. cbn [mbind outcome_bind]. apply returns_Ok.
  split; cbn; rewrite ?length_insert; try done; by apply Forall_insert.
Qed.

Lemma store_rows_ok z ew rows : returns (store_rows z ew rows) (grid_ok z).
Proof.
  unfold store_rows. apply returns_fold; [|apply blank_grid_ok]. intros [row l] g Hrow Hg.
  apply store_row_ok; [done|]. apply list_elem_of_lookup in Hrow as [i Hi].
  apply list_lookup_imap_Some in Hi as (y & Hy & [= -> ->]). apply lookup_lt_Some in Hy.
  rewrite length_take in Hy. lia.
Qed.

Lemma physical_row_ok s row : screen_ok s -> row < n_rows (sf_size (surface s)) ->
  returns (physical_row s row) (fun _ => True).
Proof.
  intros Hs Hr. pose proof (so_grid _ (sc_surface s Hs)) as Hg.
  unfold physical_row. eapply returns_bind; [apply (row_ok (sf_size (surface s)) _ _ (fun _ => True)); auto|].
  intros cs _. eapply returns_bind; [apply (returns_index _ _ (fun _ => True))|].
  - unfold screen_grid. by rewrite (go_renditions _ _ Hg).
  - done.
  - intros rs _. by apply returns_Ok.
Qed.
Lemma physical_rows_ok s l : screen_ok s -> Forall (fun r => r < n_rows (sf_size (surface s))) l ->
  returns (physical_rows s l) (fun _ => True).
Proof.
  intros Hs Hl. induction Hl as [|row l Hr _ IH]; cbn [physical_rows]; [by apply returns_Ok|].
  eapply returns_bind; [by apply physical_row_ok|]. intros p _.
  eapply returns_bind; [exact IH|]. intros ps _. by apply returns_Ok.
Qed.
Lemma current_visible_rows_ok s : screen_ok s -> returns (current_visible_rows s) (fun _ => True).
Proof.
  intros Hs. apply physical_rows_ok; [done|]. apply Forall_forall. intros k Hk%elem_range_incl.
  pose proof (go_cells _ _ (so_grid _ (sc_surface s Hs))) as Hc.
  pose proof (valid_positive _ (so_size _ (sc_surface s Hs))). unfold screen_grid in Hk. lia.
Qed.

Lemma push_lines_ok l h : hist_ok h ->
  hist_ok (foldl (fun h p => push_styled_line_with_wrap (physical_line p) (wraps_to_next p) h) h l).
Proof. revert h. induction l as [|p l IH]; intros h Hh; cbn; [done|]. apply IH. by apply push_spec. Qed.

Lemma preserve_delayed_wrap_ok z s : screen_ok s -> returns (preserve_delayed_wrap z s) (fun _ => True).
Proof.
  intros Hs. unfold preserve_delayed_wrap. destruct (wrap_pending _); [|by apply returns_Ok].
  destruct (leading_column_for_cell _ _ _) as [k|] eqn:E; [|by apply returns_Ok].
  pose proof (so_grid _ (sc_surface s Hs)) as Hg. eapply leading_column_lt in E as (Hk & Hr & _); [|exact Hg].
  eapply returns_bind; [by apply (cell_at_ok (sf_size (surface s)))|]. intros c _. by apply returns_Ok.
Qed.

(** A screen whose surface has size [z], a grid for it and a cursor in it. *)
Lemma resized_intro z s s' : screen_ok s -> valid_size z -> hist_ok (history s') ->
  grid_ok z (grid (surface s')) -> c_row (cursor (surface s')) < n_rows z ->
  c_column (cursor (surface s')) < n_columns z -> sf_size (surface s') = z ->
  settings s' = settings s -> active_presentation s' = active_presentation s ->
  alternate s' = alternate s -> parser s' = parser s -> resized z s s'.
Proof.
  intros [H1 H2 H3 H4] Hz Hh Hg Hr Hc Ez Es Ea El Ep. split; [|done..].
  split; rewrite ?El, ?Ep; try done. split; by rewrite ?Ez.
Qed.

Lemma clamp_bounds z c : valid_size z ->
  c_row (clamp_cursor (n_rows z - 1) (n_columns z - 1) c) < n_rows z
  /\ c_column (clamp_cursor (n_rows z - 1) (n_columns z - 1) c) < n_columns z.
Proof. intros Hz. pose proof (valid_positive z Hz). cbn. lia. Qed.

Lemma reflow_visible_ok record z s : screen_ok s -> valid_size z ->
  returns (reflow_visible record z s) (resized z s).
Proof.
  intros Hs Hz. unfold reflow_visible. eapply returns_bind; [by apply preserve_delayed_wrap_ok|]. intros delayed _.
  eapply returns_bind; [by apply current_visible_rows_ok|]. intros source _.
  set (lines := merge_wrapped_physical_lines _ _ _ _). set (rows := reflow_logical_lines _ _ _ _ _ _).
  match goal with |- context [take ?n rows] => set (start := n) end.
  eapply returns_bind; [apply (store_rows_ok z)|]. intros g Hg.
  set (position := cursor_logical_position _ _ _ _ _ _).
  match goal with |- context [let '(row, column) := ?m in _] => destruct m as [row column] end.
  apply returns_Ok. pose proof (clamp_bounds z {| c_row := row; c_column := column |} Hz).
  set (h := if record then foldl (fun h p => push_styled_line_with_wrap (physical_line p) (wraps_to_next p) h)
                             (history s) (take start rows) else history s).
  assert (hist_ok h) as Hh.
  { unfold h. destruct record; [apply push_lines_ok|]; apply Hs. }
  destruct record; (apply resized_intro;
    [exact Hs|exact Hz|exact Hh|exact Hg|exact (proj1 H)|exact (proj2 H)|reflexivity..]).
Qed.

Lemma push_dropped_ok s row h : screen_ok s -> row < n_rows (sf_size (surface s)) -> hist_ok h ->
  returns (push_dropped s row h) hist_ok.
Proof.
  intros Hs Hr Hh. pose proof (so_grid _ (sc_surface s Hs)) as Hg. unfold push_dropped.
  eapply returns_bind; [apply (row_ok (sf_size (surface s)) _ _ (fun _ => True)); auto|]. intros cs _.
  apply returns_if; intros _; [|by apply returns_Ok].
  eapply returns_bind; [apply (returns_index _ _ (fun _ => True)); [unfold screen_grid; by rewrite (go_renditions _ _ Hg)|done]|].
  intros rs _. apply returns_Ok. by apply push_spec.
Qed.

Lemma copy_prefix_ok {A} n (source row : list A) m : n <= length source -> n <= length row -> length row = m ->
  returns (copy_prefix n source row) (fun l => length l = m).
Proof.
  intros H1 H2 H3. unfold copy_prefix. rewrite (proj2 (Nat.leb_le _ _)), (proj2 (Nat.leb_le _ _)) by done.
  apply returns_Ok. rewrite length_app, length_take, length_drop. lia.
Qed.

Lemma keep_row_ok z z' old offset n row g : grid_ok z old -> grid_ok z' g -> row < n_rows z' ->
  row + offset < n_rows z -> n <= n_columns z -> n <= n_columns z' ->
  returns (keep_row old offset n row g) (grid_ok z').
Proof.
  intros Ho Hg Hr Hs Hn Hn'. unfold keep_row. pose proof Hg as [H1 H2 H3 H4 H5 H6 H7 H8].
  eapply returns_bind; [apply (row_ok z' _ _ (fun l => length l = n_columns z')); auto|]. cbn beta. intros cs Hcs.
  eapply returns_bind; [apply (row_ok z _ _ (fun l => length l = n_columns z)); auto|]. cbn beta. intros ocs Hocs.
  eapply returns_bind; [apply (copy_prefix_ok _ _ _ (n_columns z')); lia|]. cbn beta. intros cs' Hcs'.
  eapply returns_bind; [apply (returns_index _ _ (fun l => length l = n_columns z')); [lia|]|].
  { intros a Ha. exact (row_renditions z' g row a Hg Ha). }
  cbn beta. intros rs Hrs.
  eapply returns_bind; [apply (returns_index _ _ (fun l => length l = n_columns z)); [by rewrite (go_renditions z old Ho)|]|].
  { intros a Ha. exact (row_renditions z old _ a Ho Ha). }
  cbn beta. intros ors Hors.
  eapply returns_bind; [apply (copy_prefix_ok _ _ _ (n_columns z')); lia|]. cbn beta. intros rs' Hrs'.
  unfold set_at. rewrite H5, H6, H7, H8, (proj2 (Nat.ltb_lt _ _)) by done. cbn [mbind outcome_bind]. apply returns_Ok.
  split; cbn; rewrite ?length_insert; try done; by apply Forall_insert.
Qed.

Lemma grid_width z g : grid_ok z g -> from_option length 0 (head (cells g)) <= n_columns z.
Proof.
  intros Hg. pose proof (go_widths z g Hg) as H. destruct (cells g) as [|r l]; cbn; [lia|].
  apply Forall_cons in H as [H _]. lia.
Qed.

Lemma resize_grid_ok z s : screen_ok s -> valid_size z ->
  returns (resize_grid_preserving_cells z s) (resized z s).
Proof.
  intros Hs Hz. unfold resize_grid_preserving_cells. pose proof (so_grid _ (sc_surface s Hs)) as Hg.
  fold (screen_grid s) in Hg. pose proof (go_cells _ _ Hg) as Hc.
  set (bottom := preserve_bottom _ _). set (offset := if bottom then _ else _).
  assert (offset <= length (cells (screen_grid s))) as Ho by (unfold offset; destruct bottom; lia).
  pose proof (grid_width _ _ Hg) as W1. pose proof (grid_width z _ (blank_grid_ok z default_rendition)) as W2.
  pose proof (go_cells z _ (blank_grid_ok z default_rendition)) as Hf.
  eapply (returns_bind _ _ (grid_ok z)).
  { apply returns_fold; [|apply blank_grid_ok]. intros k g Hk%elem_range Hgk.
    apply (keep_row_ok (sf_size (surface s)) z); try done; lia. }
  intros g Hgz. eapply (returns_bind _ _ hist_ok).
  { apply returns_if; intros _; [|apply returns_Ok, Hs]. apply returns_fold; [|apply Hs].
    intros row h Hrow Hh. apply push_dropped_ok; [done| |done].
    destruct bottom; apply elem_range in Hrow; lia. }
  intros h Hh. apply returns_Ok.
  pose proof (clamp_bounds z {| c_row := c_row (cursor (surface s)) - offset; c_column := c_column (cursor (surface s)) |} Hz) as Hcl.
  apply resized_intro; [exact Hs|exact Hz|exact Hh|exact Hgz|exact (proj1 Hcl)|exact (proj2 Hcl)|reflexivity..].
Qed.

Lemma pull_rows_ok n h acc : hist_ok h -> hist_ok (pull_rows n h acc).1.
Proof.
  revert h acc. induction n as [|n IH]; intros h acc Hh; cbn [pull_rows]; [done|].
  destruct (pop_spec h Hh) as [Hp _]. destruct (pop_styled_line h) as [h' [[line wraps]|]]; [by apply IH|done].
Qed.

Lemma resize_rows_only_ok z s : screen_ok s -> valid_size z -> columns z = columns (sf_size (surface s)) ->
  returns (resize_normal_screen_rows_only z s) (resized z s).
Proof.
  intros Hs Hz Hcol. unfold resize_normal_screen_rows_only.
  destruct (_ <? _); [by apply resize_grid_ok|]. destruct (_ && _); [by apply resize_grid_ok|].
  destruct (Nat.eqb_spec (n_rows z) (length (cells (screen_grid s)))) as [E|_].
  { apply returns_Ok. destruct (sc_surface s Hs) as [Hz0 Hg Hr Hc].
    unfold screen_grid in E. rewrite (go_cells _ _ Hg) in E.
    assert (n_columns z = n_columns (sf_size (surface s))) as Ec by (unfold n_columns; by rewrite Hcol).
    apply resized_intro; [exact Hs|exact Hz|apply Hs| |cbn; lia|cbn; lia|reflexivity..].
    destruct Hg as [H1 H2 H3 H4 H5 H6 H7 H8]. cbn. split; rewrite ?Ec, ?E; done. }
  eapply returns_bind; [by apply current_visible_rows_ok|]. intros visible _.
  match goal with |- context [take ?n visible] => set (moved := n) end.
  pose proof (pull_rows_ok (n_rows z - (length visible - moved)) (history s) [] (sc_history s Hs)) as Hp.
  destruct (pull_rows _ _ _) as [h restored]. cbn [fst] in Hp.
  eapply returns_bind; [apply (store_rows_ok z)|]. intros g Hg. apply returns_Ok.
  pose proof (clamp_bounds z {| c_row := c_row (cursor (surface s)) + length restored - moved;
                                c_column := c_column (cursor (surface s)) |} Hz) as Hcl.
  apply resized_intro; [exact Hs|exact Hz|exact (push_lines_ok _ _ Hp)|exact Hg|exact (proj1 Hcl)|exact (proj2 Hcl)|reflexivity..].
Qed.

Lemma resize_detached_ok z s : screen_ok s -> valid_size z ->
  returns (resize_detached_normal_screen z s) (resized z s).
Proof.
  intros Hs Hz. unfold resize_detached_normal_screen.
  destruct (_ =? _)%Z; [by apply resize_grid_ok|by apply reflow_visible_ok].
Qed.

Lemma resize_cleared_ok z s : screen_ok s -> valid_size z -> resized z s (resize_cleared_normal_screen z s).
Proof.
  intros Hs Hz. pose proof (valid_positive z Hz).
  apply resized_intro; [exact Hs|exact Hz|apply Hs|exact (blank_grid_ok z _)|cbn; lia|cbn; lia|reflexivity..].
Qed.

Lemma generations_ok k s : screen_ok s -> screen_ok (set_generations k s).
Proof. by intros [H1 H2 H3 H4]. Qed.

Lemma resized_from z s t t' : settings t = settings s -> active_presentation t = active_presentation s ->
  alternate t = alternate s -> parser t = parser s -> resized z t t' -> resized z s t'.
Proof. intros E F G K [H1 H2 H3 H4 H5 H6]. split; [done|done|congruence..]. Qed.

(** A resize to a size [validate] accepts returns a screen of that size. *)
Lemma resize_ok z s : screen_ok s -> u16_size z ->
  returns (resize z s) (fun r => match r.2 with
                                 | Ok _ => valid_size z /\ resized z s r.1
                                 | _ => r.1 = s /\ ~ valid_size z
                                 end).
Proof.
  intros Hs Hu. pose proof (Size_validate_Ok z Hu) as Hv. unfold Size_validate, from_size_error in Hv. unfold resize.
  destruct (TerminalSize_validate z) as [[]|e|] eqn:E.
  - assert (valid_size z) as Hz by by apply Hv. case_bool_decide as Es.
    { apply returns_Ok. split; [done|]. by split. }
    set (s1 := on_surface (set_region None) _).
    assert (screen_ok s1) as Hs1.
    { destruct Hs as [[? ? ? ?] H2 H3 H4]. by split; [split|..]. }
    eapply (returns_bind _ _ (resized z s)); [|intros s2 R; by apply returns_Ok].
    eapply returns_mono; [|intros t; apply (resized_from z s s1 t eq_refl eq_refl eq_refl eq_refl)].
    destruct (alt_active _).
    { unfold resize_alternate_screen. destruct (_ =? _)%Z; [by apply resize_grid_ok|by apply resize_detached_ok]. }
    destruct (detached _); [by apply resize_detached_ok|].
    destruct (normal_screen_viewport_is_cleared s1); [apply returns_Ok; by apply resize_cleared_ok|].
    destruct (Z.eqb_spec (columns (sf_size (surface s1))) (columns z)); [by apply resize_rows_only_ok|].
    by apply reflow_visible_ok.
  - apply returns_Ok. cbn. split; [done|]. intros Hz. by apply Hv in Hz.
  - apply returns_Ok. cbn. split; [done|]. intros Hz. by apply Hv in Hz.
Qed.

Lemma resize_valid z s : screen_ok s -> valid_size z -> returns (resize z s) (fun r => resized z s r.1).
Proof.
  intros Hs Hz. assert (u16_size z) as Hu by (unfold valid_size in Hz; split; unfold in_u16, u16_MAX; lia).
  eapply returns_mono; [by apply resize_ok|]. cbn beta. intros [t [[]|e|]]; cbn [fst snd]; naive_solver.
Qed.

End Invariant.
