(* ===== verification/ScreenTheorems.v ===== *)
(** * What a terminal screen guarantees

    No input of bytes and no resize makes a screen panic or leaves its
    invariant, however the bytes are cut into reads; alternate mode, hidden
    input, scrollback and the clipboard payloads keep what they promise. *)

From S2P Require Import Prelude RustStr LayoutTypes Utf8Text ReadlineText Readline ReadlineKeys KeyInput.
From S2P Require Import TermText History Screen ScreenReflow ScreenParser ScreenInv.
#[local] Open Scope nat_scope.

Section Safety.
Context {UT : UnicodeTables} {TT : TerminalText}.

(** ** Steps that leave the grid alone *)

Lemma core_keeps s s' : screen_ok s -> surface s' = surface s -> alternate s' = alternate s ->
  history s' = history s -> parser_ok (parser s') -> settings s' = settings s ->
  active_presentation s' = active_presentation s -> utf8_tail (parser s') = utf8_tail (parser s) ->
  keeps s s'.
Proof.
  intros [H1 H2 H3 H4] E1 E2 E3 Hp E5 E6 E7. split; rewrite ?E1, ?E5, ?E6; try done.
  split; rewrite ?E1, ?E2, ?E3; done.
Qed.

Lemma modes_keeps h s : screen_ok s -> keeps s (on_modes h s).
Proof. intros Hs. by apply core_keeps; [..|apply Hs| | |]. Qed.
Lemma outputs_keeps h s : screen_ok s -> keeps s (on_outputs h s).
Proof. intros Hs. by apply core_keeps; [..|apply Hs| | |]. Qed.
Lemma parser_keeps h s : screen_ok s -> parser_ok (h (parser s)) ->
  utf8_tail (h (parser s)) = utf8_tail (parser s) -> keeps s (on_parser h s).
Proof. intros Hs Hp Ht. by apply core_keeps. Qed.
Lemma goto_keeps p s : screen_ok s -> keeps s (goto p s).
Proof. intros Hs. apply parser_keeps; [done| |done]. by destruct (sc_parser s Hs). Qed.

Lemma begin_sync_keeps s : screen_ok s -> keeps s (begin_synchronized_output s).
Proof.
  intros Hs. unfold begin_synchronized_output. destruct (sync_active _); cbn;
    (apply core_keeps; [done|reflexivity|reflexivity|reflexivity|apply Hs|reflexivity..]).
Qed.
Lemma end_sync_keeps s : screen_ok s -> keeps s (end_synchronized_output s).
Proof.
  intros Hs. unfold end_synchronized_output. destruct (sync_active _); [|done].
  apply core_keeps; [done|reflexivity|reflexivity|reflexivity|apply Hs|reflexivity..].
Qed.
Lemma full_redraw_keeps s : screen_ok s -> keeps s (mark_synchronized_output_full_redraw s).
Proof.
  intros Hs. unfold mark_synchronized_output_full_redraw. destruct (sync_active _); [|done].
  apply core_keeps; [done|reflexivity|reflexivity|reflexivity|apply Hs|reflexivity..].
Qed.
Lemma alternate_generation_keeps s : screen_ok s -> keeps s (next_alternate_generation s).
Proof. intros Hs. apply core_keeps; [done|reflexivity|reflexivity|reflexivity|apply Hs|reflexivity..]. Qed.
Lemma mark_render_keeps s : screen_ok s -> keeps s (mark_render_changed s).
Proof. intros Hs. apply core_keeps; [done|reflexivity|reflexivity|reflexivity|apply Hs|reflexivity..]. Qed.

(** ** Alternate mode *)

(** The saved normal screen is there in alternate mode, with the size of the
    screen; a resize in alternate mode gives the screen another size. *)
Definition saved_fits (s : TerminalScreen) : Prop :=
  match saved_normal_screen (alternate s) with
  | Some f => alt_active (alternate s) = true /\ sf_size f = sf_size (surface s)
  | None => alt_active (alternate s) = false
  end.

(** A step that may switch between the normal and the alternate screen. *)
Record goes (s s' : TerminalScreen) : Prop := {
  gs_ok : screen_ok s';
  gs_size : sf_size (surface s') = sf_size (surface s);
  gs_settings : settings s' = settings s;
  gs_scope : active_presentation s' = None <-> active_presentation s = None;
  gs_tail : utf8_tail (parser s') = utf8_tail (parser s);
  gs_fits : saved_fits s -> saved_fits s';
}.

Lemma keeps_goes s s' : keeps s s' -> goes s s'.
Proof.
  intros [H1 H2 H3 H4 H5 H6 H7]. split; try done. unfold saved_fits. by rewrite H6, H2.
Qed.
Lemma goes_refl s : screen_ok s -> goes s s.
Proof. done. Qed.
Lemma goes_trans s s1 s2 : goes s s1 -> goes s1 s2 -> goes s s2.
Proof.
  intros [_ E1 F1 A1 T1 G1] [H E2 F2 A2 T2 G2].
  split; [done|by rewrite E2|by rewrite F2|by rewrite A2|by rewrite T2|auto].
Qed.
Lemma goes_room s s' : goes s s' -> room s -> room s'.
Proof.
  intros [_ E F A _ _]. unfold room, emoji_of. rewrite E, F. destruct (wrap_continuation_prefix _); [|done].
  destruct (active_presentation s), (active_presentation s'); naive_solver.
Qed.
Lemma returns_goes (m : panicking TerminalScreen) s : returns m (keeps s) -> returns m (goes s).
Proof. intros H. eapply returns_mono; [exact H|]. apply keeps_goes. Qed.
Lemma returns_keeps (m : panicking TerminalScreen) s : returns m (keeps_cursor s) -> returns m (keeps s).
Proof. intros H. eapply returns_mono; [exact H|]. by intros ? [? _]. Qed.

(** Where entering takes the screen: the surface set aside, the new one blank. *)
Lemma enter_alternate_goes mode s : screen_ok s -> goes s (enter_alternate_screen mode s).
Proof.
  intros Hs. unfold enter_alternate_screen. destruct (alt_active (alternate s)) eqn:Ea; [done|].
  set (s1 := if (mode =? 1049)%Z then _ else _).
  assert (keeps s s1) as K1.
  { unfold s1. destruct (_ =? _)%Z; [by apply save_cursor_keeps|done]. }
  assert (alt_active (alternate s1) = false) as E1 by by rewrite (kp_alternate _ _ K1).
  assert (goes s1 (set_alternate (enter_with_saved_normal_screen (saved_normal_screen_state s1) (alternate s1)) s1)) as K2.
  { unfold enter_with_saved_normal_screen. rewrite E1. split; [|done..].
    destruct (kp_ok _ _ K1) as [H1 H2 H3 H4]. by split. }
  set (s2 := set_alternate _ s1) in *.
  pose proof (alternate_generation_keeps s2 (gs_ok _ _ K2)) as K3.
  pose proof (full_redraw_keeps _ (kp_ok _ _ K3)) as K4.
  pose proof (clear_screen_keeps _ (kp_ok _ _ K4)) as K5.
  eapply goes_trans; [by apply keeps_goes|]. eapply goes_trans; [exact K2|]. apply keeps_goes.
  eapply keeps_trans; [exact K3|]. by eapply keeps_trans.
Qed.

(** Back on the normal screen, nothing is set aside. *)
Lemma restore_saved_goes f s : screen_ok s -> surface_ok f -> alternate s = (leave_alternate (alternate s)).1 ->
  returns (restore_saved_normal_screen_state f s) (goes s).
Proof.
  intros Hs Hf Hn. unfold restore_saved_normal_screen_state.
  assert (screen_ok (set_surface f s)) as Hs1.
  { destruct Hs as [H1 H2 H3 H4]. by split. }
  assert (forall s', alternate s' = alternate s -> saved_fits s') as Hfit.
  { intros s' E. unfold saved_fits. by rewrite E, Hn. }
  case_bool_decide as E.
  - apply returns_Ok. pose proof (clamp_bounds (sf_size f) (cursor f) (so_size f Hf)) as [Hr Hc].
    split; [|exact E|done..|by intros _; apply Hfit]. destruct Hs as [H1 H2 H3 H4]. split; [|done..].
    destruct Hf. by split.
  - eapply returns_bind; [apply resize_valid; [exact Hs1|exact (so_size _ (sc_surface s Hs))]|].
    intros [t r] [R1 R2 R3 R4 R5 R6]. apply returns_Ok. cbn [fst] in *.
    split; [done|done|by rewrite R3|by rewrite R4|by rewrite R6|intros _; by apply Hfit].
Qed.

Lemma leave_alternate_goes mode s : screen_ok s -> returns (leave_alternate_screen mode s) (goes s).
Proof.
  intros Hs. unfold leave_alternate_screen. cbn [leave_alternate].
  set (s1 := set_alternate _ s).
  assert (goes s s1) as K1.
  { split; [|done..]. destruct Hs as [H1 H2 H3 H4]. by split. }
  pose proof (sc_saved s Hs) as Hsaved. destruct (saved_normal_screen (alternate s)) as [f|]; [|by apply returns_Ok].
  pose proof (alternate_generation_keeps s1 (gs_ok _ _ K1)) as K2.
  pose proof (full_redraw_keeps _ (kp_ok _ _ K2)) as K3. set (s3 := mark_synchronized_output_full_redraw _) in *.
  pose proof (keeps_trans _ _ _ K2 K3) as K4.
  assert (goes s s3) as K by (eapply goes_trans; [exact K1|]; by apply keeps_goes).
  eapply returns_bind; [apply restore_saved_goes; [apply K|exact Hsaved|by rewrite (kp_alternate _ _ K4)]|].
  intros s4 K5. apply returns_Ok. eapply goes_trans; [exact K|]. destruct (_ =? _)%Z; [|done].
  eapply goes_trans; [exact K5|]. apply keeps_goes, restore_cursor_keeps, K5.
Qed.

(** Modes other than the screen's. *)
Lemma apply_mode_keeps mode enabled s : screen_ok s -> mode ∉ [47; 1047; 1049]%Z ->
  returns (apply_dec_private_mode mode enabled s) (keeps s).
Proof.
  intros Hs Hm. unfold apply_dec_private_mode. rewrite bool_decide_false by done.
  apply returns_Ok. pose proof (screen_bounds s Hs). pose proof (active_region_bounds s) as [Hb _].
  pose proof (sc_surface s Hs) as [? ? ? ?].
  repeat (destruct (_ =? _)%Z; [try by apply modes_keeps|]); [..|done].
  - destruct enabled; [by apply save_cursor_keeps|by apply restore_cursor_keeps].
  - by apply cursor_keeps.
  - by apply cursor_keeps.
  - apply cursor_keeps; [done..|cbn; destruct enabled; lia|cbn; lia].
  - destruct enabled; [by apply begin_sync_keeps|by apply end_sync_keeps].
Qed.
Lemma apply_mode_goes mode enabled s : screen_ok s -> returns (apply_dec_private_mode mode enabled s) (goes s).
Proof.
  intros Hs. destruct (decide (mode ∈ [47; 1047; 1049]%Z)) as [Hm|Hm].
  - unfold apply_dec_private_mode. rewrite bool_decide_true by done.
    destruct enabled; [apply returns_Ok; by apply enter_alternate_goes|by apply leave_alternate_goes].
  - by apply returns_goes, apply_mode_keeps.
Qed.

Lemma goes_fold {A} (f : A -> TerminalScreen -> panicking TerminalScreen) l s :
  (forall x s, screen_ok s -> returns (f x s) (goes s)) -> screen_ok s ->
  returns (fold_outcome f l s) (goes s).
Proof.
  intros Hf Hs. apply returns_fold; [|done]. intros x t _ K.
  eapply returns_mono; [apply Hf, K|]. intros t' K'. by eapply goes_trans.
Qed.

Lemma mode_enabled_returns mode s : returns (dec_private_mode_enabled mode s) (fun _ => True).
Proof.
  unfold dec_private_mode_enabled, tracked_dec_private_mode. case_bool_decide as E; cbn [negb]; [|by apply returns_Ok].
  repeat (apply elem_of_cons in E as [->|E]; [by eexists|]). by apply not_elem_of_nil in E.
Qed.

(** ** Control sequences *)

Lemma blen_snoc_le t c n : (blen t + len_utf8 c <= n)%Z -> (blen (t ++ [c]) <= n)%Z.
Proof. rewrite blen_app, blen_cons, blen_nil. lia. Qed.

Lemma dispatch_final_keeps params final s : screen_ok s -> returns (dispatch_final params final s) (keeps s).
Proof.
  intros Hs. unfold dispatch_final.
  assert (forall m, returns m (keeps_cursor s) -> returns m (keeps s)) as G.
  { intros m Hm. eapply returns_mono; [exact Hm|]. by intros ? [? _]. }
  assert (forall dr dc, keeps s (move_cursor_relative params dr dc s)) as Gm.
  { intros. by apply move_cursor_relative_keeps. }
  assert (forall t, keeps s t -> returns (Ok t) (keeps s)) as Gr by (intros; by apply returns_Ok).
  repeat (match goal with |- returns (if ?b then _ else _) _ => destruct b end; [|]); try (by apply Gr, Gm).
  all: try (by apply Gr).
  - apply Gr. unfold move_cursor_next_line. eapply keeps_trans; [apply Gm|]. apply home_column_keeps, Gm.
  - apply Gr. unfold move_cursor_previous_line. eapply keeps_trans; [apply Gm|]. apply home_column_keeps, Gm.
  - by apply Gr, move_cursor_column_keeps.
  - by apply Gr, move_cursor_keeps.
  - by apply G, erase_chars_keeps.
  - by apply Gr, move_cursor_row_keeps.
  - by apply erase_display_keeps.
  - by apply erase_line_keeps.
  - apply Gr. unfold report_primary_device_attributes. destruct (_ || _); [by apply outputs_keeps|done].
  - apply Gr. unfold report_device_status. repeat (destruct (_ =? _)%Z; [by apply outputs_keeps|]). done.
  - by apply G, insert_blank_chars_keeps.
  - by apply G, delete_chars_keeps.
  - by apply G, insert_lines_keeps.
  - by apply G, delete_lines_keeps.
  - unfold scroll_region_up. destruct (active_scroll_region s). by apply G, scroll_region_up_from_keeps.
  - unfold scroll_region_down. destruct (active_scroll_region s). by apply G, scroll_region_down_from_keeps.
  - by apply Gr, apply_sgr_keeps.
  - by apply Gr, set_scroll_region_keeps.
  - by apply Gr, save_cursor_keeps.
  - by apply Gr, restore_cursor_keeps.
Qed.

(** The private modes that choose the screen. *)
Definition screen_mode (mode : Z) : bool := bool_decide (mode ∈ [47; 1047; 1049]%Z).
(** A control sequence that sets, resets or restores one of them. *)
Definition chooses_screen (params : text) (final : rchar) : bool :=
  match parse_dec_private_mode_params params with
  | Some modes => bool_decide (final ∈ [104; 108; 114]%Z) && existsb screen_mode modes
  | None => false
  end.

Lemma fold_modes_keeps (f : Z -> TerminalScreen -> panicking TerminalScreen) modes s :
  existsb screen_mode modes = false -> screen_ok s ->
  (forall mode t, screen_ok t -> mode ∉ [47; 1047; 1049]%Z -> returns (f mode t) (keeps t)) ->
  returns (fold_outcome f modes s) (keeps s).
Proof.
  intros He Hs Hf. apply returns_fold; [|done]. intros mode t Hm K.
  eapply returns_mono; [apply Hf; [apply K|]|intros t' K'; by eapply keeps_trans].
  intros Hin. assert (existsb screen_mode modes = true) as Ht; [|congruence].
  apply existsb_exists. exists mode. split; [by apply list_elem_of_In|]. by apply bool_decide_true.
Qed.

Lemma dispatch_csi_keeps params final s : screen_ok s -> chooses_screen params final = false ->
  returns (dispatch_csi params final s) (keeps s).
Proof.
  unfold chooses_screen, dispatch_csi. intros Hs Hn.
  destruct (parse_dec_private_mode_params params) as [l|].
  - destruct (Z.eqb_spec final 104) as [->|N1].
    { cbn in Hn. apply fold_modes_keeps; [done..|]. intros. by apply apply_mode_keeps. }
    destruct (Z.eqb_spec final 108) as [->|N2]; cbn [orb].
    { cbn in Hn. apply fold_modes_keeps; [done..|]. intros. by apply apply_mode_keeps. }
    destruct (Z.eqb_spec final 115) as [->|N3].
    { apply returns_fold; [|done]. intros mode t _ K. eapply returns_bind; [apply mode_enabled_returns|].
      intros o _. apply returns_Ok. eapply keeps_trans; [exact K|]. destruct o; [apply modes_keeps, K|apply keeps_refl, K]. }
    destruct (Z.eqb_spec final 114) as [->|N4]; [|by apply dispatch_final_keeps].
    cbn in Hn. apply fold_modes_keeps; [done..|]. intros mode t Ht Hm.
    destruct (_ !! mode); [by apply apply_mode_keeps|by apply returns_Ok].
  - destruct (_ && _); [apply returns_Ok; by apply modes_keeps|].
    destruct (_ && _); [|by apply dispatch_final_keeps].
    apply returns_Ok. destruct (sc_surface s Hs). by apply cursor_keeps.
Qed.

Lemma dispatch_csi_goes params final s : screen_ok s -> returns (dispatch_csi params final s) (goes s).
Proof.
  intros Hs. destruct (chooses_screen params final) eqn:E; [|by apply returns_goes, dispatch_csi_keeps].
  unfold chooses_screen, dispatch_csi in *. destruct (parse_dec_private_mode_params params) as [l|]; [|done].
  apply andb_prop in E as [E%bool_decide_eq_true _].
  repeat (apply elem_of_cons in E as [->|E]); [..|by apply not_elem_of_nil in E];
    (apply goes_fold; [|done]; intros mode t Ht).
  - by apply apply_mode_goes.
  - by apply apply_mode_goes.
  - destruct (_ !! mode); [by apply apply_mode_goes|by apply returns_Ok].
Qed.

(** A control sequence that ends by [c]. *)
Definition ends_switch (c : rchar) (s : TerminalScreen) : bool :=
  match parser_state (parser s) with
  | Csi => chooses_screen (csi_buffer (parser s)) c
  | _ => false
  end.

Lemma end_csi_keeps s : screen_ok s -> keeps s (on_parser (fun p => set_parser_state Ground
  (set_csi_buffer_truncated false (set_csi_buffer [] p))) s).
Proof. intros Hs. apply parser_keeps; [done| |done]. destruct (sc_parser s Hs). by split. Qed.
Lemma extend_csi_keeps c s : screen_ok s -> in_range 64 126 c = false -> returns (feed_csi c s) (keeps s).
Proof.
  intros Hs E. unfold feed_csi. rewrite E. destruct (sc_parser s Hs) as [P1 P2 P3 P4 P5].
  destruct (Z.leb_spec (blen (csi_buffer (parser s)) + len_utf8 c) MAX_CSI_STRING_BYTES);
    apply returns_Ok; apply parser_keeps; try done; split; first [done | by apply blen_snoc_le].
Qed.
Lemma feed_csi_keeps c s : screen_ok s -> chooses_screen (csi_buffer (parser s)) c = false ->
  returns (feed_csi c s) (keeps s).
Proof.
  intros Hs Hn. destruct (in_range 64 126 c) eqn:E; [|by apply extend_csi_keeps].
  unfold feed_csi. rewrite E. eapply (returns_bind _ _ (keeps s)).
  { apply returns_if; intros _; [by apply returns_Ok|by apply dispatch_csi_keeps]. }
  intros t K. apply returns_Ok. eapply keeps_trans; [exact K|]. apply end_csi_keeps, K.
Qed.
Lemma feed_csi_goes c s : screen_ok s -> returns (feed_csi c s) (goes s).
Proof.
  intros Hs. destruct (in_range 64 126 c) eqn:E; [|by apply returns_goes, extend_csi_keeps].
  unfold feed_csi. rewrite E. eapply (returns_bind _ _ (goes s)).
  { apply returns_if; intros _; [by apply returns_Ok|by apply dispatch_csi_goes]. }
  intros t K. apply returns_Ok. eapply goes_trans; [exact K|]. apply keeps_goes, end_csi_keeps, K.
Qed.

(** ** Strings *)

Lemma push_osc_keeps c s : screen_ok s -> keeps s (push_osc_char c s).
Proof.
  intros Hs. unfold push_osc_char. destruct (sc_parser s Hs) as [P1 P2 P3 P4 P5].
  destruct (Z.leb_spec (blen (osc_buffer (parser s)) + len_utf8 c) MAX_OSC_STRING_BYTES);
    apply parser_keeps; try done; split; first [done | by apply blen_snoc_le].
Qed.
Lemma push_dcs_keeps c s : screen_ok s -> keeps s (push_dcs_char c s).
Proof.
  intros Hs. unfold push_dcs_char. destruct (sc_parser s Hs) as [P1 P2 P3 P4 P5].
  destruct (Z.leb_spec (blen (dcs_buffer (parser s)) + len_utf8 c) MAX_DCS_STRING_BYTES);
    apply parser_keeps; try done; split; first [done | by apply blen_snoc_le].
Qed.

Lemma dispatch_osc_keeps payload s : screen_ok s -> keeps s (dispatch_osc payload s).
Proof.
  intros Hs. unfold dispatch_osc. destruct (strip_start _ _); [by apply outputs_keeps|].
  destruct (split_once_at _ _) as [[command t]|]; [|done].
  destruct (_ || _).
  { eapply keeps_trans; [by apply (outputs_keeps (set_title (Some t)))|]. apply outputs_keeps.
    exact (kp_ok _ _ (outputs_keeps (set_title (Some t)) s Hs)). }
  case_bool_decide; [destruct (parse_terminal_progress t); cbn; [by apply outputs_keeps|done]|].
  case_bool_decide; [destruct (clipboard_request t); cbn; [by apply outputs_keeps|done]|done].
Qed.

Lemma finish_osc_keeps s : screen_ok s -> keeps s (finish_osc s).
Proof.
  intros Hs. unfold finish_osc. set (s1 := on_parser _ s).
  assert (keeps s s1) as K1.
  { apply parser_keeps; [done| |done]. destruct (sc_parser s Hs). by split. }
  set (s2 := if osc_buffer_truncated _ then _ else _).
  assert (keeps s s2) as K2.
  { eapply keeps_trans; [exact K1|]. unfold s2. destruct (osc_buffer_truncated _); [apply keeps_refl, K1|].
    apply dispatch_osc_keeps, K1. }
  eapply keeps_trans; [exact K2|]. apply goto_keeps, K2.
Qed.
Lemma feed_osc_keeps c s : screen_ok s -> keeps s (feed_osc c s).
Proof.
  intros Hs. unfold feed_osc. destruct (_ =? _)%Z; [by apply finish_osc_keeps|].
  destruct (_ =? _)%Z; [by apply goto_keeps|by apply push_osc_keeps].
Qed.
Lemma feed_osc_escape_keeps c s : screen_ok s -> keeps s (feed_osc_escape c s).
Proof.
  intros Hs. unfold feed_osc_escape. destruct (_ =? _)%Z; [by apply finish_osc_keeps|].
  pose proof (push_osc_keeps 27 s Hs) as K1. pose proof (goto_keeps Osc _ (kp_ok _ _ K1)) as K2.
  eapply keeps_trans; [exact K1|]. eapply keeps_trans; [exact K2|]. apply feed_osc_keeps, K2.
Qed.

Lemma finish_dcs_keeps s : screen_ok s -> keeps s (finish_dcs s).
Proof.
  intros Hs. unfold finish_dcs. set (s1 := on_parser (fun p => set_dcs_buffer_truncated _ _) s).
  assert (keeps s s1) as K1.
  { apply parser_keeps; [done| |done]. destruct (sc_parser s Hs). by split. }
  match goal with |- keeps _ (goto _ (on_parser _ ?t)) => set (s2 := t) end.
  assert (keeps s s2) as K2.
  { eapply keeps_trans; [exact K1|]. unfold s2. destruct (_ && _); [|apply keeps_refl, K1].
    destruct (text_prefix _ _); [apply begin_sync_keeps, K1|].
    destruct (text_prefix _ _); [apply end_sync_keeps, K1|apply keeps_refl, K1]. }
  assert (keeps s2 (on_parser (set_dcs_enabled false) s2)) as K3.
  { apply parser_keeps; [apply K2| |done]. by destruct (sc_parser s2 (kp_ok _ _ K2)). }
  eapply keeps_trans; [exact K2|]. eapply keeps_trans; [exact K3|]. apply goto_keeps, K3.
Qed.
Lemma feed_dcs_keeps c s : screen_ok s -> keeps s (feed_dcs c s).
Proof.
  intros Hs. unfold feed_dcs. destruct (_ =? _)%Z; [by apply goto_keeps|].
  destruct (dcs_enabled _); [by apply push_dcs_keeps|done].
Qed.
Lemma feed_dcs_escape_keeps c s : screen_ok s -> keeps s (feed_dcs_escape c s).
Proof.
  intros Hs. unfold feed_dcs_escape. destruct (_ =? _)%Z; [by apply finish_dcs_keeps|].
  destruct (_ =? _)%Z; [done|]. destruct (dcs_enabled _); [|by apply goto_keeps].
  pose proof (push_dcs_keeps 27 s Hs) as K1. pose proof (push_dcs_keeps c _ (kp_ok _ _ K1)) as K2.
  eapply keeps_trans; [exact K1|]. eapply keeps_trans; [exact K2|]. apply goto_keeps, K2.
Qed.

(** ** Characters *)

Lemma designate_keeps g1 c s : screen_ok s -> keeps s (designate_charset g1 c s).
Proof.
  intros Hs. unfold designate_charset.
  match goal with |- keeps _ (goto _ ?t) => set (s1 := t) end.
  assert (keeps s s1) as K.
  { unfold s1. destruct (sc_parser s Hs), g1; repeat (destruct (_ =? _)%Z); try done; by apply parser_keeps. }
  eapply keeps_trans; [exact K|]. apply goto_keeps, K.
Qed.

Lemma feed_escape_keeps c s : screen_ok s -> returns (feed_escape c s) (keeps s).
Proof.
  intros Hs. unfold feed_escape. destruct (sc_parser s Hs) as [P1 P2 P3 P4 P5].
  assert (0 <= MAX_CSI_STRING_BYTES /\ 0 <= MAX_OSC_STRING_BYTES /\ 0 <= MAX_DCS_STRING_BYTES)%Z by done.
  repeat (match goal with |- returns (if ?b then Ok _ else _) _ => destruct b end; [apply returns_Ok;
    first [by apply goto_keeps | apply parser_keeps; [done|by split|done]]|]).
  eapply (returns_bind _ _ (keeps s)).
  - repeat (match goal with |- returns (if ?b then _ else _) _ => destruct b end; [|]); try (by apply returns_Ok).
    + apply returns_Ok. by apply save_cursor_keeps.
    + apply returns_Ok. by apply restore_cursor_keeps.
    + eapply returns_mono; [by apply index_keeps|]. by intros ? [? _].
    + eapply returns_mono; [by apply next_line_keeps|]. by intros ? [? _].
    + by apply reverse_index_keeps.
    + apply returns_Ok. by apply modes_keeps.
    + apply returns_Ok. by apply modes_keeps.
  - intros t K. apply returns_Ok. eapply keeps_trans; [exact K|]. apply goto_keeps, K.
Qed.

Section Wide.
Hypothesis at_most_wide : forall c w, char_width c = Some w -> w <= 2.

Lemma feed_ground_keeps c s : screen_ok s -> room s -> returns (feed_ground c s) (keeps s).
Proof.
  intros Hs Hroom. unfold feed_ground. pose proof (screen_bounds s Hs) as (Hr & Hc & Hmr & Hmc & _).
  destruct (no_wrap_keeps s Hs) as [K1 _]. destruct (sc_parser s Hs) as [P1 P2 P3 P4 P5].
  repeat (match goal with |- returns (if ?b then _ else _) _ => destruct b end; [|]).
  - apply returns_Ok. by apply goto_keeps.
  - apply returns_Ok. by apply outputs_keeps.
  - eapply returns_mono; [by apply next_line_keeps|]. by intros ? [? _].
  - eapply returns_mono; [by apply index_keeps|]. by intros ? [? _].
  - apply returns_Ok. eapply keeps_trans; [exact K1|]. apply home_column_keeps, K1.
  - apply returns_Ok. eapply keeps_trans; [exact K1|]. apply column_keeps; [apply K1|].
    change (column_of s - 1 < n_columns (sf_size (surface s))). lia.
  - apply returns_Ok. eapply keeps_trans; [exact K1|]. apply column_keeps; [apply K1|].
    change (Nat.min ((column_of s / 8 + 1) * 8) (max_column s) < n_columns (sf_size (surface s))). lia.
  - apply returns_Ok. by apply parser_keeps.
  - apply returns_Ok. by apply parser_keeps.
  - by apply returns_Ok.
  - by apply print_keeps.
Qed.

Lemma feed_char_keeps c s : screen_ok s -> room s -> ends_switch c s = false ->
  returns (feed_char c s) (keeps s).
Proof.
  intros Hs Hroom Hn. unfold feed_char, ends_switch in *. destruct (parser_state (parser s)).
  - by apply feed_ground_keeps.
  - by apply feed_escape_keeps.
  - apply returns_Ok. by apply designate_keeps.
  - apply returns_Ok. by apply designate_keeps.
  - by apply feed_csi_keeps.
  - apply returns_Ok. by apply feed_osc_keeps.
  - apply returns_Ok. by apply feed_osc_escape_keeps.
  - apply returns_Ok. by apply feed_dcs_keeps.
  - apply returns_Ok. by apply feed_dcs_escape_keeps.
Qed.
Lemma feed_char_goes c s : screen_ok s -> room s -> returns (feed_char c s) (goes s).
Proof.
  intros Hs Hroom. destruct (ends_switch c s) eqn:E; [|by apply returns_goes, feed_char_keeps].
  unfold ends_switch in E. unfold feed_char. destruct (parser_state (parser s)); try done.
  by apply feed_csi_goes.
Qed.

Lemma feed_chars_goes t s : screen_ok s -> room s -> returns (feed_chars t s) (goes s).
Proof.
  intros Hs Hroom. apply returns_fold; [|done]. intros c s1 _ K.
  eapply returns_mono; [apply feed_char_goes; [apply K|by eapply goes_room]|].
  intros s2 K2. by eapply goes_trans.
Qed.

(** ** Bytes *)

Lemma set_tail_same q s : utf8_tail (parser s) = q -> on_parser (set_utf8_tail q) s = s.
Proof. intros <-. by destruct s as [? ? ? ? []]. Qed.

Lemma feed_chars_app t u s : feed_chars (t ++ u) s = feed_chars t s ≫= feed_chars u.
Proof.
  revert s. induction t as [|c t IH]; intros s; [done|]. cbn. unfold feed_chars in *. cbn.
  destruct (feed_char c s) as [s1|[]|]; [apply IH|done].
Qed.

(** The loop over the bytes feeds the characters of the stream and keeps the
    bytes of a sequence that has begun; the fuel is enough. *)
Lemma feed_bytes_stream fuel l s : screen_ok s -> room s -> utf8_tail (parser s) = [] -> length l < fuel ->
  feed_bytes fuel l s
  = (t ← feed_chars (decode_stream [] l).1 s; Ok (on_parser (set_utf8_tail (decode_stream [] l).2) t)).
Proof.
  revert l s. induction fuel as [|fuel IH]; intros l s Hs Hroom Ht Hl; [lia|]. cbn [feed_bytes].
  destruct (utf8_scan l) as [[t n] stop] eqn:E. destruct (decode_stream_scan _ _ _ _ E) as [-> B].
  cbn [preceded fst snd].
  assert (forall u, returns (feed_chars u s) (fun s1 => goes s s1 /\ utf8_tail (parser s1) = [])) as G.
  { intros u. eapply returns_mono; [by apply feed_chars_goes|]. intros s1 K. split; [done|].
    by rewrite (gs_tail _ _ K). }
  destruct stop; cbn [preceded fst snd].
  - rewrite app_nil_r. destruct (G t) as (s1 & -> & K & Ht1). cbn. by rewrite set_tail_same.
  - by rewrite app_nil_r.
  - rewrite !feed_chars_app. destruct (G t) as (s1 & -> & K1 & Ht1). cbn [mbind outcome_bind].
    destruct (feed_chars_goes [REPLACEMENT] s1 (gs_ok _ _ K1) (goes_room _ _ K1 Hroom)) as (s2 & E2 & K2).
    rewrite feed_chars_app. change [0xFFFD%Z] with [REPLACEMENT]. rewrite E2. cbn [mbind outcome_bind].
    apply IH; [apply K2|eapply goes_room; [exact K2|by eapply goes_room]|by rewrite (gs_tail _ _ K2)|lia].
Qed.

(** What [feed] does before it reads the bytes. *)
Definition begin_feed (input : bytes) (s : TerminalScreen) : TerminalScreen :=
  let s := set_synchronized_output_outcome no_outcome s in
  on_parser (set_utf8_tail [])
    match input with
    | [] => s
    | _ => mark_render_changed
             (on_outputs (fun o => set_activity_events (sat_add u64_MAX (activity_events o) 1) o) s)
    end.
(** The characters a read completes, and the bytes it leaves pending. *)
Definition heard (input : bytes) (s : TerminalScreen) : text :=
  (decode_stream (utf8_tail (parser s)) input).1.
Definition pending (input : bytes) (s : TerminalScreen) : bytes :=
  (decode_stream (utf8_tail (parser s)) input).2.

(** The bytes pending after any stream are the beginning of one sequence. *)
Lemma pending_ok l : length (decode_stream [] l).2 <= 3
  /\ decode_stream [] (decode_stream [] l).2 = ([], (decode_stream [] l).2).
Proof.
  induction l as [l IH] using (induction_ltof1 _ length). unfold ltof in IH.
  destruct (utf8_scan l) as [[t n] stop] eqn:E. destruct (decode_stream_scan _ _ _ _ E) as [-> B].
  destruct stop; cbn [preceded fst snd]; [cbn; by split; [lia|]|done|by apply IH].
Qed.

Lemma begin_feed_core input s : screen_ok s ->
  screen_ok (begin_feed input s) /\ surface (begin_feed input s) = surface s
  /\ settings (begin_feed input s) = settings s /\ alternate (begin_feed input s) = alternate s
  /\ history (begin_feed input s) = history s
  /\ active_presentation (begin_feed input s) = active_presentation s
  /\ utf8_tail (parser (begin_feed input s)) = [].
Proof.
  intros [H1 H2 H3 [P1 P2 P3 P4 P5]]. unfold begin_feed.
  destruct input; (split; [split; [exact H1|exact H2|exact H3|by split; try (cbn; lia)]|done]).
Qed.

(** [feed] is the stream decoder in front of [feed_char]. *)
Lemma feed_stream input s : screen_ok s -> room s ->
  feed input s = (t ← feed_chars (heard input s) (begin_feed input s);
                  let t := on_parser (set_utf8_tail (pending input s)) t in
                  Ok (t, synchronized_output_outcome t)).
Proof.
  intros Hs Hroom. destruct (begin_feed_core input s Hs) as (Hb & Ef & Et & _ & _ & Ea & Eu).
  assert (room (begin_feed input s)) as Hr by (unfold room, emoji_of in *; by rewrite Ef, Et, Ea).
  assert (decode_stream [] (utf8_tail (parser s) ++ input) = (heard input s, pending input s)) as Ed.
  { unfold heard, pending. rewrite decode_stream_app, (po_pending _ (sc_parser s Hs)). cbn.
    by destruct (decode_stream (utf8_tail (parser s)) input). }
  unfold feed. set (s0 := match input with [] => _ | _ => _ end).
  assert (parser s0 = parser s) as Ep by by destruct input.
  change (on_parser (set_utf8_tail []) s0) with (begin_feed input s). rewrite Ep.
  rewrite feed_bytes_stream by (done || lia). rewrite Ed. cbn [fst snd].
  by destruct (feed_chars _ _).
Qed.

Lemma set_tail_goes q s s' : goes s s' -> length q <= 3 -> decode_stream [] q = ([], q) ->
  screen_ok (on_parser (set_utf8_tail q) s').
Proof.
  intros [H _ _ _ _ _] Hq Hd. destruct H as [H1 H2 H3 [P1 P2 P3 P4 P5]]. by split; [..|split].
Qed.

(** A step of a screen over a whole read. *)
Record reads (s s' : TerminalScreen) : Prop := {
  rd_ok : screen_ok s';
  rd_size : sf_size (surface s') = sf_size (surface s);
  rd_settings : settings s' = settings s;
  rd_scope : active_presentation s' = None <-> active_presentation s = None;
  rd_fits : saved_fits s -> saved_fits s';
}.

Lemma pending_tail input s : screen_ok s ->
  length (pending input s) <= 3 /\ decode_stream [] (pending input s) = ([], pending input s).
Proof.
  intros Hs. pose proof (pending_ok (utf8_tail (parser s) ++ input)) as H. unfold pending.
  rewrite decode_stream_app, (po_pending _ (sc_parser s Hs)) in H. done.
Qed.

Lemma feed_reads input s : screen_ok s -> room s ->
  returns (feed input s) (fun r => reads s r.1 /\ utf8_tail (parser r.1) = pending input s).
Proof.
  intros Hs Hroom. rewrite feed_stream by done.
  destruct (begin_feed_core input s Hs) as (Hb & Ef & Et & El & _ & Ea & Eu).
  assert (room (begin_feed input s)) as Hr by (unfold room, emoji_of in *; by rewrite Ef, Et, Ea).
  eapply returns_bind; [by apply feed_chars_goes|]. intros t K. apply returns_Ok. cbn [fst].
  destruct (pending_tail input s Hs) as [Hl Hd]. split; [|done].
  pose proof (set_tail_goes _ _ _ K Hl Hd). destruct K as [_ K2 K3 K4 K5 K6].
  split; [done|by rewrite <- Ef|by rewrite <- Et|by rewrite <- Ea|].
  intros Hfit. apply K6. unfold saved_fits in *. by rewrite El, Ef.
Qed.

(** ** The other updates *)

Lemma ok_core s s' : screen_ok s -> surface s' = surface s -> alternate s' = alternate s ->
  history s' = history s -> parser s' = parser s -> screen_ok s'.
Proof. intros [H1 H2 H3 H4] E1 E2 E3 E4. split; by rewrite ?E1, ?E2, ?E3, ?E4. Qed.
Lemma ok_history h s : screen_ok s -> hist_ok h -> screen_ok (set_history h s).
Proof. by intros [H1 H2 H3 H4]. Qed.
Lemma ok_history_step c s : screen_ok s -> call_ok c -> screen_ok (set_history (history_step c (history s)).1 s).
Proof. intros Hs Hc. apply ok_history; [done|]. apply history_step_refines; [done|apply Hs]. Qed.

Lemma force_release_core s : surface (force_release_synchronized_output s).1 = surface s
  /\ alternate (force_release_synchronized_output s).1 = alternate s
  /\ history (force_release_synchronized_output s).1 = history s
  /\ parser (force_release_synchronized_output s).1 = parser s
  /\ active_presentation (force_release_synchronized_output s).1 = active_presentation s.
Proof.
  unfold force_release_synchronized_output, mark_synchronized_output_full_redraw.
  destruct (sync_active (synchronized_output s)) eqn:E; [|done]. cbn [fst].
  unfold end_synchronized_output. by destruct (sync_active _).
Qed.

(** A screen outside of any presentation scope, which is where every call
    starts and ends. *)
Record at_rest (s : TerminalScreen) : Prop := {
  ar_ok : screen_ok s;
  ar_scope : active_presentation s = None;
}.

Lemma at_rest_room s : at_rest s -> room s.
Proof. intros [_ E]. unfold room. rewrite E. by destruct (wrap_continuation_prefix _). Qed.
Lemma at_rest_core s s' : at_rest s -> surface s' = surface s -> alternate s' = alternate s ->
  history s' = history s -> parser s' = parser s -> active_presentation s' = active_presentation s ->
  at_rest s'.
Proof. intros [H E] E1 E2 E3 E4 E5. split; [by apply (ok_core s)|by rewrite E5]. Qed.
Lemma at_rest_resized z s s' : at_rest s -> resized z s s' -> at_rest s'.
Proof. intros [_ E] [H _ _ Ea _ _]. split; [done|by rewrite Ea]. Qed.
Lemma at_rest_keeps s s' : at_rest s -> keeps s s' -> at_rest s'.
Proof. intros [_ E] K. split; [apply K|]. by apply (kp_scope _ _ K). Qed.

Lemma feed_rests b s : at_rest s -> returns (feed b s) (fun r => at_rest r.1).
Proof.
  intros Hs. eapply returns_mono; [apply feed_reads; [apply Hs|by apply at_rest_room]|].
  intros r [[H _ _ Ha _] _]. split; [done|]. by apply Ha, Hs.
Qed.

Lemma reflow_rests z s : at_rest s -> valid_size z -> returns (resize_normal_screen_reflowing z s) at_rest.
Proof.
  intros Hs Hz. eapply returns_mono; [apply reflow_visible_ok; [apply Hs|done]|].
  intros t R. by eapply at_rest_resized.
Qed.

Lemma set_log_frame_rests policy r s : at_rest s -> returns (set_log_frame_settings policy r s) at_rest.
Proof.
  intros Hs. unfold set_log_frame_settings. destruct (_ && _); [by apply returns_Ok|].
  set (s1 := if timestamps _ || _ then _ else _).
  assert (at_rest s1) as H1.
  { unfold s1. destruct (_ || _); [|done]. destruct (force_release_core s) as (? & ? & ? & ? & ?).
    by apply (at_rest_core s). }
  set (s2 := set_settings _ s1).
  assert (at_rest s2) as H2 by by apply (at_rest_core s1).
  eapply (returns_bind _ _ at_rest).
  - apply returns_if; intros _; [|by apply returns_Ok]. apply reflow_rests; [done|]. apply (sc_surface s2), H2.
  - intros t Ht. apply returns_Ok. by apply (at_rest_core t).
Qed.

Lemma rebuild_rests ew s : at_rest s -> returns (rebuild_for_width_policy_change ew s) at_rest.
Proof.
  intros Hs. unfold rebuild_for_width_policy_change.
  set (s1 := set_settings _ _). assert (at_rest s1) as H1 by by apply (at_rest_core s).
  assert (at_rest (no_wrap s1)) as H2 by (eapply at_rest_keeps; [exact H1|apply no_wrap_keeps, H1]).
  pose proof (so_size _ (sc_surface s1 (ar_ok _ H1))) as Hz.
  eapply (returns_mono _ (resized (sf_size (surface s1)) (no_wrap s1))); [|intros t; by apply at_rest_resized].
  destruct (_ || _); [apply resize_detached_ok; [apply H2|done]|].
  destruct (normal_screen_viewport_is_cleared _); [apply resize_grid_ok|apply reflow_visible_ok]; (apply H2 || done).
Qed.

Lemma last_significant_row_lt z g k : grid_ok z g -> last_significant_row g = Some k -> k < n_rows z.
Proof.
  intros Hg E. apply rposition_Some in E as (x & E & _). apply lookup_lt_Some in E.
  rewrite length_imap, length_zip, (go_cells z g Hg) in E. lia.
Qed.
Lemma clear_visible_rests s : at_rest s -> returns (clear_visible_into_history s) at_rest.
Proof.
  intros Hs. unfold clear_visible_into_history. set (s1 := reset_normal_viewport_origin _).
  assert (at_rest s1) as H1 by by apply (at_rest_core s).
  destruct (alt_active _).
  { apply returns_Ok. eapply at_rest_keeps; [exact H1|apply clear_screen_keeps, H1]. }
  eapply (returns_bind _ _ hist_ok).
  - destruct (last_significant_row _) as [k|] eqn:E; [|apply returns_Ok; apply H1].
    apply returns_fold; [|apply H1]. intros row h Hrow%elem_range_incl Hh. unfold push_visible.
    pose proof (so_grid _ (sc_surface s1 (ar_ok _ H1))) as Hg. pose proof (last_significant_row_lt _ _ _ Hg E).
    eapply returns_bind; [apply physical_row_ok; [apply H1|lia]|]. intros p _. apply returns_Ok. by apply push_spec.
  - intros h Hh. apply returns_Ok. set (s2 := set_history h s1).
    assert (at_rest s2) as H2 by (split; [apply ok_history; [apply H1|done]|apply H1]).
    assert (at_rest (clear_screen s2)) as H3 by (eapply at_rest_keeps; [exact H2|apply clear_screen_keeps, H2]).
    eapply at_rest_keeps; [exact H3|apply detached_keeps, H3].
Qed.

Lemma viewport_rests presented s : at_rest s -> returns (preserve_normal_viewport_origin presented s) at_rest.
Proof.
  intros Hs. unfold preserve_normal_viewport_origin. destruct (_ || _ || _ || _ || _); [by apply returns_Ok|].
  set (rows := Z.to_nat _). eapply returns_bind; [apply scroll_region_up_from_keeps, Hs|]. intros t [K _].
  apply returns_Ok. pose proof (at_rest_keeps _ _ Hs K) as Ht. pose proof (screen_bounds t (ar_ok _ Ht)) as (Hr & Hc & _).
  destruct (sc_surface t (ar_ok _ Ht)) as [Hz _ _ _]. pose proof (valid_positive _ Hz).
  set (t1 := if row_of t <? rows then _ else t).
  assert (at_rest t1 /\ sf_size (surface t1) = sf_size (surface t) /\ row_of t1 = row_of t) as (H1 & E1 & E2).
  { unfold t1. destruct (_ <? _); [|done]. split; [|done]. eapply at_rest_keeps; [exact Ht|].
    apply cursor_keeps; [apply Ht|done..|exact Hr|cbn; lia]. }
  assert (at_rest (on_surface (fun f => set_row (c_row (cursor f) - rows) f) t1)) as H2.
  { eapply at_rest_keeps; [exact H1|]. pose proof (sc_surface t1 (ar_ok _ H1)) as [? ? ? ?].
    apply cursor_keeps; [apply H1|done..|cbn; lia|done]. }
  by eapply at_rest_core.
Qed.

Lemma assign_copy_rests copy s offset : at_rest s -> at_rest (assign_copy_text_at copy s offset).
Proof.
  intros Hs. unfold assign_copy_text_at. destruct (normal_physical_line_index offset s) as [[row|row]|]; cbn; [| |done].
  - split; [|apply Hs]. apply ok_history; [apply Hs|]. by apply update_spec, Hs.
  - eapply at_rest_keeps; [exact Hs|]. apply with_grid_keeps; [apply Hs|].
    destruct (so_grid _ (sc_surface s (ar_ok _ Hs))). split; cbn; rewrite ?length_insert; done.
Qed.
Lemma assign_texts_rests newest continuation target_end s : at_rest s ->
  at_rest (assign_copy_texts newest continuation target_end s).1.
Proof.
  revert target_end s. induction newest as [|copy rest IH]; intros target_end s Hs; cbn [assign_copy_texts]; [done|].
  destruct (_ =? 0); [done|]. destruct (logical_start _ _) as [start inspected].
  match goal with |- context [assign_copy_texts rest continuation start ?t] => set (s1 := t) end.
  assert (at_rest s1) as H1.
  { unfold s1. generalize (range (start + 1) target_end). intros l.
    pose proof (assign_copy_rests copy s start Hs) as H0. revert H0. generalize (assign_copy_text_at copy s start).
    induction l as [|k l IHl]; intros t Ht; cbn; [done|]. apply IHl. by apply assign_copy_rests. }
  specialize (IH start s1 H1). by destruct (assign_copy_texts rest continuation start s1).
Qed.
Lemma copy_texts_rests copies continuation s : at_rest s -> at_rest (set_recent_normal_copy_texts copies continuation s).
Proof.
  intros Hs. unfold set_recent_normal_copy_texts, set_recent_normal_copy_texts_inner.
  destruct (_ || _); [done|]. destruct (skip_blank_tail _ _) as [target_end inspected].
  pose proof (assign_texts_rests (reverse copies) continuation target_end s Hs) as H.
  destruct (assign_copy_texts _ _ _ _) as [t more]. cbn [fst] in H. destruct (0 <? _); [|done].
  by eapply at_rest_core.
Qed.

(** ** Transient rows and restored content *)

Lemma pop_rows_ok n h : hist_ok h -> hist_ok (pop_rows n h).1.
Proof.
  revert h. induction n as [|n IH]; intros h Hh; cbn [pop_rows]; [done|].
  destruct (pop_spec h Hh) as [Hp _]. destruct (pop_styled_line h) as [h' [r|]]; [by apply IH|done].
Qed.

Lemma transient_rests x s : at_rest s -> returns (clear_transient_suffix x s) (fun r => at_rest r.1).
Proof.
  intros Hs. unfold clear_transient_suffix. destruct (_ || _ || _ || _ || _ || _ || _) eqn:B; [by apply returns_Ok|].
  rewrite !orb_false_iff in B. destruct B as [[[_ Bc%negb_false_iff%bool_decide_eq_true] _] _].
  pose proof (pop_rows_ok (suffix_history_len x - start_physical_row x) (history s) (sc_history _ (ar_ok _ Hs))) as Hp.
  destruct (pop_rows _ _) as [h popped]. cbn [fst] in Hp. set (s1 := set_history h s).
  assert (at_rest s1) as H1 by (split; [by apply ok_history; [apply Hs|]|apply Hs]).
  destruct (negb popped); [by apply returns_Ok|].
  destruct (sc_surface s1 (ar_ok _ H1)) as [Hz Hg Hr Hc]. pose proof (go_cells _ _ Hg) as Hl.
  pose proof (valid_positive _ Hz). change (cells (grid (surface s1))) with (cells (screen_grid s1)) in Hl.
  eapply (returns_bind _ _ (grid_ok (sf_size (surface s1)))).
  { apply returns_fold; [|done]. intros row g Hrow%elem_range_incl Hg'. apply blank_line_ok; [done|].
    rewrite <- Bc in Hrow. change (c_row (cursor (surface s)) < n_rows (sf_size (surface s1))) in Hr.
    destruct (trailing_blank_row x); lia. }
  intros g Hg1. apply returns_Ok. cbn [fst].
  assert (at_rest (with_grid g s1)) as H2 by (eapply at_rest_keeps; [exact H1|by apply with_grid_keeps; [apply H1|]]).
  pose proof (go_cells _ _ Hg1) as Hl1.
  set (h' := fun f => set_wrap_pending false _). apply (at_rest_core (on_surface h' (with_grid g s1))); [|done..].
  eapply at_rest_keeps; [exact H2|]. apply cursor_keeps; [apply H2|done..| |];
    unfold h'; cbn [set_wrap_pending set_cursor cursor c_row c_column];
    change (sf_size (surface (with_grid g s1))) with (sf_size (surface s1));
    change (screen_grid (with_grid g s1)) with g; lia.
Qed.

Lemma restore_rests past visible s : at_rest s ->
  returns (restore_normal_styled_history_content past visible s) at_rest.
Proof.
  intros Hs. unfold restore_normal_styled_history_content.
  set (h := foldl _ _ past). set (s1 := on_modes _ _).
  assert (hist_ok h) as Hh.
  { unfold h. clear s1 h. change (history (reset_normal_viewport_origin (mark_render_changed s))) with (history s).
    pose proof (proj1 (history_step_refines HClear (history s) I (sc_history _ (ar_ok _ Hs)))) as H0. cbn in H0.
    revert H0. generalize (clear_history (history s)). induction past as [|l past IH]; intros h Hh; cbn; [done|].
    apply IH. by apply push_spec. }
  destruct (sc_surface s (ar_ok _ Hs)) as [Hz _ _ _]. pose proof (valid_positive _ Hz).
  assert (at_rest s1) as H1.
  { split; [|apply Hs]. destruct (sc_parser s (ar_ok _ Hs)). split; [|done|exact Hh|by split].
    split; [exact Hz|exact (blank_grid_ok _ _)|cbn; lia|cbn; lia]. }
  eapply (returns_bind _ _ (grid_ok (sf_size (surface s)))).
  - apply returns_fold; [|exact (so_grid _ (sc_surface s1 (ar_ok _ H1)))]. intros [row l] g Hrow Hg.
    apply store_row_ok; [done|]. apply list_elem_of_lookup in Hrow as [i Hi].
    apply list_lookup_imap_Some in Hi as (y & Hy & [= -> ->]). apply lookup_lt_Some in Hy.
    change (sf_size (surface (reset_normal_viewport_origin (mark_render_changed s)))) with (sf_size (surface s)) in Hy.
    rewrite length_take in Hy. cbn. lia.
  - intros g Hg. apply returns_Ok. eapply at_rest_keeps; [exact H1|]. by apply with_grid_keeps; [apply H1|].
Qed.

Lemma mode_state_rests state s : at_rest s -> at_rest (restore_mode_state state s).
Proof.
  intros Hs. unfold restore_mode_state. set (h := fun f => set_wrap_pending _ _).
  assert (at_rest (on_surface h s)) as H.
  { destruct (sc_surface s (ar_ok _ Hs)). eapply at_rest_keeps; [exact Hs|]. by apply cursor_keeps; [apply Hs|..]. }
  by apply (at_rest_core (on_surface h s)).
Qed.
Lemma saved_state_rests state s : at_rest s -> at_rest (restore_saved_state state s).
Proof.
  intros Hs. unfold restore_saved_state. set (h := set_saved_cursor _).
  assert (at_rest (on_surface h s)) as H.
  { destruct (sc_surface s (ar_ok _ Hs)). eapply at_rest_keeps; [exact Hs|]. by apply cursor_keeps; [apply Hs|..]. }
  set (s1 := on_modes _ _). assert (at_rest s1) as H1 by by apply (at_rest_core (on_surface h s)).
  eapply at_rest_keeps; [exact H1|]. apply parser_keeps; [apply H1| |done]. by destruct (sc_parser s1 (ar_ok _ H1)).
Qed.

(** ** Hidden input *)

(** The grid of the normal screen, wherever it is. *)
Definition normal_grid (s : TerminalScreen) : Grid :=
  match saved_normal_screen (alternate s) with Some f => grid f | None => grid (surface s) end.

Lemma taken_ok f : surface_ok f -> surface_ok (take_content f).1.
Proof. intros [H1 H2 H3 H4]. split; [done|exact (blank_grid_ok _ _)|done..]. Qed.
Lemma restored_surface old f : sf_size f = sf_size old ->
  restore_display_metadata old (restore_content (grid old, detached old) f) = old.
Proof. intros E. destruct old, f. cbn in *. by subst. Qed.
Lemma restored_saved saved f :
  restore_content (grid saved, detached saved) (restore_saved_metadata saved f) = saved.
Proof. by destruct saved. Qed.
Lemma regrid_ok g d f : surface_ok f -> grid_ok (sf_size f) g -> surface_ok (restore_content (g, d) f).
Proof. intros [H1 H2 H3 H4] Hg. by split. Qed.

(** A hidden feed between taking the content and putting it back. *)
Definition quiet_screen (s : TerminalScreen) : TerminalScreen :=
  on_saved (fun f => (take_content f).1)
    (set_history (empty_with_same_policy (history s)) (set_surface (take_content (surface s)).1 s)).

Lemma quiet_at_rest s : at_rest s -> at_rest (quiet_screen s).
Proof.
  intros [[H1 H2 H3 H4] E]. split; [|done]. split; cbn; [by apply taken_ok| | |done].
  - destruct (saved_normal_screen _); cbn in *; [by apply taken_ok|done].
  - apply (new_history_ok (h_limit (history s)) (h_rotate_lines (history s))); destruct H3; [lia..|].
    unfold new_with_rotation. by rewrite !(proj2 (Z.eqb_neq _ _)) by lia.
Qed.
Lemma quiet_fits s : saved_fits s -> saved_fits (quiet_screen s).
Proof. unfold saved_fits. cbn. by destruct (saved_normal_screen _). Qed.

(** Putting the content back over the screen [t] the feed has left. *)
Definition restore_hidden (s t : TerminalScreen) : TerminalScreen :=
  let was_alternate := alt_active (alternate s) in
  let is_alternate := alt_active (alternate t) in
  let content := (grid (surface s), detached (surface s)) in
  if negb was_alternate && negb is_alternate then
    on_surface (fun f => restore_display_metadata (surface s) (restore_content content f)) t
  else if negb was_alternate && is_alternate then
    on_surface (fun f => set_grid (blank_grid (sf_size f) default_rendition) f)
      (on_saved (restore_content content) t)
  else if was_alternate && is_alternate then
    let t := on_surface (fun f => restore_display_metadata (surface s) (restore_content content f)) t in
    match saved_normal_screen (alternate s) with
    | Some saved =>
        match saved_normal_screen (alternate t) with
        | Some _ => on_saved (fun f => restore_content (grid saved, detached saved)
                                         (restore_saved_metadata saved f)) t
        | None => set_alternate {| alt_active := alt_active (alternate t);
                                   saved_normal_screen := Some saved |} t
        end
    | None => t
    end
  else
    on_surface (restore_content
      (from_option (fun saved => (grid saved, detached saved)) content (saved_normal_screen (alternate s)))) t.

(** The screen [t] with the surface and the mode it is left with. *)
Definition rebuilt (f : Surface) (a : AlternateScreenState) (t : TerminalScreen) : TerminalScreen :=
  set_alternate a (set_surface f t).


(** Where each of the four cases ends. *)
Definition hidden_end (s t : TerminalScreen) : Surface * AlternateScreenState :=
  match saved_normal_screen (alternate s), saved_normal_screen (alternate t) with
  | None, None | Some _, Some _ => (surface s, alternate s)
  | None, Some ft =>
      (set_grid (blank_grid (sf_size (surface t)) default_rendition) (surface t),
       {| alt_active := true;
          saved_normal_screen := Some (restore_content (grid (surface s), detached (surface s)) ft) |})
  | Some fs, None => (restore_content (grid fs, detached fs) (surface t), alternate t)
  end.

Lemma restore_hidden_eq s t : saved_fits s -> saved_fits t -> sf_size (surface t) = sf_size (surface s) ->
  restore_hidden s t = rebuilt (hidden_end s t).1 (hidden_end s t).2 t.
Proof.
  intros Sf Tf Hz. unfold restore_hidden, hidden_end, saved_fits in *.
  destruct (alternate s) as [sa [fs|]], (alternate t) as [ta [ft|]] eqn:Et; cbn -[restore_content] in *;
    repeat match goal with H : _ /\ _ |- _ => destruct H end; subst; cbn -[restore_content];
    unfold on_surface, on_saved; rewrite ?(restored_surface _ _ Hz).
  - cbn -[restore_content]. rewrite Et. cbn -[restore_content]. rewrite restored_saved.
    by destruct t, alternate.
  - rewrite <- Et. by destruct t.
  - rewrite Et. by destruct t.
  - rewrite <- Et. by destruct t.
Qed.

Lemma hidden_end_ok s t : screen_ok s -> saved_fits s -> screen_ok t -> saved_fits t ->
  sf_size (surface t) = sf_size (surface s) ->
  surface_ok (hidden_end s t).1 /\ from_option surface_ok True (saved_normal_screen (hidden_end s t).2)
  /\ sf_size (hidden_end s t).1 = sf_size (surface s) /\ alt_active (hidden_end s t).2 = alt_active (alternate t)
  /\ match saved_normal_screen (hidden_end s t).2 with
     | Some f => alt_active (hidden_end s t).2 = true /\ sf_size f = sf_size (surface s) /\ grid f = normal_grid s
     | None => alt_active (hidden_end s t).2 = false /\ grid (hidden_end s t).1 = normal_grid s
     end.
Proof.
  intros [S1 S2 _ _] Sf [T1 T2 _ _] Tf Hz. unfold hidden_end, saved_fits, normal_grid in *.
  destruct (alternate s) as [sa [fs|]], (alternate t) as [ta [ft|]]; cbn in *;
    repeat match goal with H : _ /\ _ |- _ => destruct H end; subst; try done.
  - split; [|done]. apply (regrid_ok _ _ _ T1). rewrite Hz. rewrite <- H0. apply S2.
  - split; [|split; [apply (regrid_ok _ _ _ T2); rewrite H0, Hz; apply S1|by rewrite <- Hz]].
    destruct T1. split; try done. exact (blank_grid_ok _ _).
Qed.

Lemma hidden_unfold b s : b <> [] ->
  feed_protocol_preserving_content b s
  = ('(t, outcome) ← feed b (quiet_screen s);
     let t := restore_hidden s t in
     let t := set_generations
       {| next_generation := next_generation (generations t);
          render_generation := render_generation (generations t);
          normal_scroll_rows := normal_scroll_rows (generations s);
          normal_scroll_epoch := normal_scroll_epoch (generations s) |} (set_history (history s) t) in
     let t := on_outputs (fun o => set_bell_events (bell_events (outputs s))
                                     (set_activity_events (activity_events (outputs s)) o)) t in
     let t := if bool_decide (is_Some (begin_epoch outcome)) && negb (sync_active (synchronized_output s))
              then refresh_synchronized_output_presentation t else t in
     Ok (t, outcome)).
Proof. by destruct b. Qed.

Lemma refresh_core s : surface (refresh_synchronized_output_presentation s) = surface s
  /\ alternate (refresh_synchronized_output_presentation s) = alternate s
  /\ history (refresh_synchronized_output_presentation s) = history s
  /\ parser (refresh_synchronized_output_presentation s) = parser s
  /\ active_presentation (refresh_synchronized_output_presentation s) = active_presentation s
  /\ outputs (refresh_synchronized_output_presentation s) = outputs s
  /\ normal_scroll_rows (generations (refresh_synchronized_output_presentation s)) = normal_scroll_rows (generations s).
Proof. unfold refresh_synchronized_output_presentation. by destruct (sync_active _). Qed.

(** What hidden input leaves as it was. *)
Record hidden (s t : TerminalScreen) : Prop := {
  hd_rest : at_rest t;
  hd_fits : saved_fits t;
  hd_size : sf_size (surface t) = sf_size (surface s);
  hd_history : history t = history s;
  hd_scroll : normal_scroll_rows (generations t) = normal_scroll_rows (generations s);
  hd_events : bell_events (outputs t) = bell_events (outputs s)
              /\ activity_events (outputs t) = activity_events (outputs s);
  hd_content : normal_grid t = normal_grid s;
  hd_mode : alt_active (alternate t) = alt_active (alternate s) ->
            surface t = surface s /\ alternate t = alternate s;
}.

Lemma hidden_refresh s t : hidden s t -> hidden s (refresh_synchronized_output_presentation t).
Proof.
  destruct (refresh_core t) as (E1 & E2 & E3 & E4 & E5 & E6 & E7). intros [H1 H2 H3 H4 H5 H6 H7 H8].
  split; unfold saved_fits, normal_grid in *; rewrite ?E1, ?E2, ?E3, ?E6, ?E7; try done.
  by apply (at_rest_core t).
Qed.

Lemma hidden_keeps b s : at_rest s -> saved_fits s ->
  returns (feed_protocol_preserving_content b s) (fun r => hidden s r.1).
Proof.
  intros Hs Sf. destruct (decide (b = [])) as [->|Hb]; [by apply returns_Ok|]. rewrite hidden_unfold by done.
  pose proof (quiet_at_rest s Hs) as Hq. pose proof (quiet_fits s Sf) as Qf.
  eapply returns_bind; [apply feed_reads; [apply Hq|by apply at_rest_room]|].
  intros [t outcome] [[Ht Hz _ Ha Hf] _]. cbn [fst] in *. apply returns_Ok. cbn [fst].
  specialize (Hf Qf). assert (active_presentation t = None) as Hta by (apply Ha, Hq).
  rewrite (restore_hidden_eq s t) by done.
  destruct (hidden_end_ok s t (ar_ok _ Hs) Sf Ht Hf Hz) as (E1 & E2 & E3 & E4 & E5).
  assert (hidden_end s t = (surface s, alternate s)
    \/ alt_active (alternate t) <> alt_active (alternate s)) as E6.
  { unfold hidden_end, saved_fits in *.
    destruct (saved_normal_screen (alternate s)), (saved_normal_screen (alternate t)); auto; right; intuition congruence. }
  set (f := (hidden_end s t).1) in *. set (a := (hidden_end s t).2) in *.
  match goal with |- hidden s (if _ then _ ?u else _) => assert (hidden s u) as Hu end.
  { destruct Ht as [_ _ _ T4]. destruct Hs as [[_ _ S3 _] _]. unfold saved_fits, normal_grid.
    split; unfold saved_fits, normal_grid; cbn; [by split; [split|]| |done..| |].
    - rewrite E3. by destruct (saved_normal_screen a); intuition.
    - destruct (saved_normal_screen a); by intuition.
    - intros Em. rewrite E4 in Em. destruct E6 as [E6|E6]; [|done]. unfold f, a. by rewrite E6. }
  destruct (_ && _); [by apply hidden_refresh|done].
Qed.

(** A grid fits one size. *)
Lemma grid_size_unique z z' g : valid_size z -> valid_size z' -> grid_ok z g -> grid_ok z' g -> z = z'.
Proof.
  intros (Hc & Hr & _) (Hc' & Hr' & _) [R W _ _ _ _ _ _] [R' W' _ _ _ _ _ _]. unfold n_rows, n_columns in *.
  destruct z as [c r], z' as [c' r']. cbn in *. assert (r = r') as -> by lia.
  destruct (cells g) as [|row l]; [cbn in *; lia|]. apply Forall_cons in W as [W _]. apply Forall_cons in W' as [W' _].
  f_equal. lia.
Qed.

(** Hidden input that leaves alternate mode puts the grid of the screen set
    aside under the present size. *)
Lemma hidden_leaves b s f : at_rest s -> alt_active (alternate s) = true ->
  saved_normal_screen (alternate s) = Some f -> b <> [] ->
  returns (feed_protocol_preserving_content b s) (fun r =>
    sf_size (surface r.1) = sf_size (surface s)
    /\ (alt_active (alternate r.1) = false -> grid (surface r.1) = grid f)).
Proof.
  intros Hs Ha Hf Hb. rewrite hidden_unfold by done. pose proof (quiet_at_rest s Hs) as Hq.
  eapply returns_bind; [apply feed_reads; [apply Hq|by apply at_rest_room]|].
  intros [t outcome] [[_ Hz _ _ _] _]. cbn [fst] in *. apply returns_Ok. cbn [fst].
  match goal with |- context [if _ then refresh_synchronized_output_presentation ?u else _] =>
    assert (sf_size (surface u) = sf_size (surface s)
            /\ (alt_active (alternate u) = false -> grid (surface u) = grid f)) as Hu;
    [|destruct (refresh_core u) as (E1 & E2 & _); destruct (_ && _); rewrite ?E1, ?E2; exact Hu]
  end.
  cbn. unfold restore_hidden. rewrite Ha, Hf. cbn [negb andb].
  destruct (alt_active (alternate t)) eqn:Et; cbn -[restore_content]; [|by split].
  destruct (saved_normal_screen (alternate t)); cbn -[restore_content]; by rewrite Et.
Qed.

(** ** The public calls *)

Inductive screen_call :=
| CallFeed (input : bytes)
| CallHidden (input : bytes)
| CallPresented (input : bytes) (metadata : PresentationEntry) (source : option TerminalCopySource)
| CallResize (z : Size)
| CallWidthPolicy (ew : TerminalEmojiWidth)
| CallLogFrame (policy : LogFramePolicy) (r : GraphicRendition)
| CallWrapPrefix (prefix : text)
| CallClearVisible
| CallClearHistory
| CallHistoryLimit (limit : Z)
| CallHistoryRotation (rotate : Z)
| CallViewport (presented : TerminalScreen)
| CallCopyTexts (copies : list text) (continuation : option text)
| CallReleaseSync
| CallClearTransient (x : TerminalTransientSuffix)
| CallRestoreContent (past visible : list TerminalStyledLine)
| CallRestoreModes (state : TerminalModeState)
| CallRestoreSaved (state : TerminalSavedState)
| CallDrain.

Definition screen_step (c : screen_call) (s : TerminalScreen) : panicking TerminalScreen :=
  match c with
  | CallFeed b => '(s, _) ← feed b s; Ok s
  | CallHidden b => '(s, _) ← feed_protocol_preserving_content b s; Ok s
  | CallPresented b metadata source =>
      '(s, _) ← feed_presentation_with_copy_source b metadata source s; Ok s
  | CallResize z => '(s, _) ← resize z s; Ok s
  | CallWidthPolicy ew => rebuild_for_width_policy_change ew s
  | CallLogFrame policy r => set_log_frame_settings policy r s
  | CallWrapPrefix prefix => Ok (set_wrap_continuation_prefix prefix s)
  | CallClearVisible => clear_visible_into_history s
  | CallClearHistory => Ok (clear_screen_history s)
  | CallHistoryLimit n => Ok (set_history_limit n s).1
  | CallHistoryRotation n => Ok (set_history_rotate_lines n s).1
  | CallViewport presented => preserve_normal_viewport_origin presented s
  | CallCopyTexts copies continuation => Ok (set_recent_normal_copy_texts copies continuation s)
  | CallReleaseSync => Ok (force_release_synchronized_output s).1
  | CallClearTransient x => '(s, _) ← clear_transient_suffix x s; Ok s
  | CallRestoreContent past visible => restore_normal_styled_history_content past visible s
  | CallRestoreModes state => Ok (restore_mode_state state s)
  | CallRestoreSaved state => Ok (restore_saved_state state s)
  | CallDrain => Ok (drain_terminal_response_bytes (drain_osc_events s).1).1
  end.

(** What a call needs: sizes and counts are machine integers; hidden input
    meets no saved screen of another size; presented input has two columns
    beside the prefix that continuation rows repeat. *)
Definition admissible (c : screen_call) (s : TerminalScreen) : Prop :=
  match c with
  | CallHidden _ => saved_fits s
  | CallPresented _ _ _ =>
      from_option (fun p => prefix_cells p (emoji_of s) + 2 <= n_columns (sf_size (surface s))) True
        (wrap_continuation_prefix (settings s))
  | CallResize z => u16_size z
  | CallHistoryLimit n | CallHistoryRotation n => (0 <= n)%Z
  | _ => True
  end.

Lemma presented_rests b metadata source s : at_rest s ->
  from_option (fun p => prefix_cells p (emoji_of s) + 2 <= n_columns (sf_size (surface s))) True
    (wrap_continuation_prefix (settings s)) ->
  returns (feed_presentation_with_copy_source b metadata source s) (fun r => at_rest r.1).
Proof.
  intros Hs Hp. unfold feed_presentation_with_copy_source. destruct (_ || _); [by apply returns_Ok|].
  unfold feed_presentation_scoped, with_presentation_scope. set (scoped := _ && _).
  set (inner := set_active_copy_source _ _).
  assert (screen_ok inner) as Hi by (apply (ok_core s); by try apply Hs).
  assert (room inner) as Hr.
  { unfold room. change (settings inner) with (settings s). change (emoji_of inner) with (emoji_of s).
    change (surface inner) with (surface s). destruct (wrap_continuation_prefix _); [|done]. by destruct (active_presentation _). }
  eapply (returns_bind _ _ at_rest); [|by intros t Ht; apply returns_Ok].
  eapply (returns_bind _ _ (fun r => at_rest r.1)).
  { eapply returns_bind; [by apply feed_reads|]. intros [t outcome] [[Ht _ _ _ _] _]. apply returns_Ok.
    split; [|apply Hs]. by apply (ok_core t). }
  intros [t outcome] Ht. cbn [fst] in Ht. apply returns_Ok.
  destruct (wrap_pending _ && _ && _) eqn:E; [|done]. apply andb_prop in E as [[_ E]%andb_prop _].
  apply Nat.ltb_lt in E. pose proof (screen_bounds t (ar_ok _ Ht)) as (Hrow & _ & _ & Hm & _).
  eapply at_rest_keeps; [exact Ht|]. apply cursor_keeps; [apply Ht|done..|exact Hrow|].
  change (column_of t + 1 < n_columns (sf_size (surface t))). lia.
Qed.

Lemma resize_rests z s : at_rest s -> u16_size z -> returns (resize z s) (fun r => at_rest r.1).
Proof.
  intros Hs Hu. eapply returns_mono; [by apply resize_ok; [apply Hs|]|]. intros [t r]. cbn [fst snd].
  destruct r; [intros [_ R]; by eapply at_rest_resized|by intros [-> _]..].
Qed.

Lemma returns_screen {A} (m : panicking (TerminalScreen * A)) Q :
  returns m (fun r => Q r.1) -> returns ('(s, _) ← m; Ok s) Q.
Proof. intros (a & -> & H). destruct a. by apply returns_Ok. Qed.

Lemma history_call_rests c s : at_rest s -> call_ok c -> at_rest (set_history (history_step c (history s)).1 s).
Proof. intros [H E] Hc. split; [by apply ok_history_step|done]. Qed.

Lemma screen_step_rests c s : at_rest s -> admissible c s -> returns (screen_step c s) at_rest.
Proof.
  intros Hs Ha.
  destruct c as [b|b|b metadata source|z|ew|policy r|prefix| | |limit|batch|presented|copies continuation|
    |x|past visible|state|state|];
    cbn [screen_step admissible] in *.
  - apply returns_screen. by apply feed_rests.
  - apply returns_screen. eapply returns_mono; [by apply hidden_keeps|]. intros r H. apply H.
  - apply returns_screen. by apply presented_rests.
  - apply returns_screen. by apply resize_rests.
  - by apply rebuild_rests.
  - by apply set_log_frame_rests.
  - apply returns_Ok. unfold set_wrap_continuation_prefix. case_bool_decide; [done|]. by eapply at_rest_core.
  - by apply clear_visible_rests.
  - apply returns_Ok. pose proof (history_call_rests HClear s Hs I) as H.
    eapply at_rest_core; [eapply at_rest_keeps; [exact H|apply (detached_keeps false), H]|done..].
  - apply returns_Ok. pose proof (history_call_rests (HSetLimit limit) s Hs Ha) as H. unfold set_history_limit.
    cbn [history_step] in H. by destruct (set_limit _ _).
  - apply returns_Ok. pose proof (history_call_rests (HSetRotate batch) s Hs Ha) as H. unfold set_history_rotate_lines.
    cbn [history_step] in H. by destruct (set_rotate_lines _ _).
  - by apply viewport_rests.
  - apply returns_Ok. by apply copy_texts_rests.
  - apply returns_Ok. destruct (force_release_core s) as (? & ? & ? & ? & ?). by apply (at_rest_core s).
  - apply returns_screen. by apply transient_rests.
  - by apply restore_rests.
  - apply returns_Ok. by apply mode_state_rests.
  - apply returns_Ok. by apply saved_state_rests.
  - apply returns_Ok. by apply (at_rest_core s).
Qed.

(** The screens a program can reach by admissible calls. *)
Inductive reached : TerminalScreen -> Prop :=
  | reached_new z limit rotate counter s :
      u16_size z -> (0 <= limit)%Z -> (0 <= rotate)%Z ->
      new_with_history_config z limit rotate counter = Ok s -> reached s
  | reached_call c s s' : reached s -> admissible c s -> screen_step c s = Ok s' -> reached s'.

Lemma new_rests z limit rotate counter s : u16_size z -> (0 <= limit)%Z -> (0 <= rotate)%Z ->
  new_with_history_config z limit rotate counter = Ok s -> at_rest s /\ valid_size z.
Proof.
  intros Hu Hl Hr. unfold new_with_history_config. pose proof (Size_validate_Ok z Hu) as Hv.
  unfold Size_validate, from_size_error in Hv. destruct (TerminalSize_validate z) as [[]|e|]; try done.
  assert (valid_size z) as Hz by by apply Hv.
  destruct (new_with_rotation limit rotate) as [h|e|] eqn:E; try done. intros [= <-].
  destruct (new_history_ok limit rotate h Hl Hr E) as [Hh _]. split; [|done]. split; [|done].
  pose proof (valid_positive z Hz). split; [|done|done|]; cbn.
  - split; cbn; [done|apply blank_grid_ok|lia..].
  - by split; try (cbn; lia).
Qed.
Lemma reached_rests s : reached s -> at_rest s.
Proof.
  induction 1 as [z limit rotate counter s Hu Hl Hr Hn|c s s' _ IH Ha E].
  { by destruct (new_rests z limit rotate counter s Hu Hl Hr Hn). }
  destruct (screen_step_rests c s IH Ha) as (t & Et & Ht). congruence.
Qed.

(** C4. A terminal screen never panics.  On every screen reachable from a new
    one, every admissible public call returns: no output of a program, however
    it is cut into reads and whatever control sequences, strings and invalid
    UTF-8 it holds, no resize to any pair of 16-bit counts, no change of the
    width policy, the log frame or the scrollback limits, no restored content or
    state and no transient suffix indexes a row or a
    column that is not there.  Afterwards the grid still has exactly the rows
    and columns of the size in each of its layers, the cursor is inside it, the
    scrollback is within its limit, and the parser's buffers are within
    theirs. *)
Theorem screen_calls_never_panic c s : reached s -> admissible c s ->
  exists s', screen_step c s = Ok s' /\ screen_ok s'
  /\ c_row (cursor (surface s')) < n_rows (sf_size (surface s'))
  /\ c_column (cursor (surface s')) < n_columns (sf_size (surface s'))
  /\ (Z.of_nat (h_len (history s')) <= h_limit (history s'))%Z
  /\ length (utf8_tail (parser s')) <= 3.
Proof.
  intros Hs Ha. destruct (screen_step_rests c s (reached_rests s Hs) Ha) as (t & E & [Ht _]).
  exists t. split; [done|]. split; [done|]. destruct Ht as [[_ _ ? ?] _ [_ _ _ ?] [_ _ _ ? _]]. done.
Qed.

(** C13. Reads do not tear characters.  [feed] presents to the parser exactly the
    characters of a one-byte-at-a-time UTF-8 decoder with replacement, which
    starts from the bytes left pending, and leaves pending the bytes of the
    sequence the input ends in; so however an output is cut into reads, the
    characters presented by the reads together are those of the whole output,
    and the same bytes are pending at the end. *)
Theorem feed_independent_of_reads a b s : screen_ok s -> room s ->
  feed a s = (t ← feed_chars (heard a s) (begin_feed a s);
              let t := on_parser (set_utf8_tail (pending a s)) t in
              Ok (t, synchronized_output_outcome t))
  /\ exists t outcome, feed a s = Ok (t, outcome)
     /\ heard (a ++ b) s = heard a s ++ heard b t /\ pending (a ++ b) s = pending b t.
Proof.
  intros Hs Hr. split; [by apply feed_stream|].
  destruct (feed_reads a s Hs Hr) as ([t outcome] & E & _ & Ht). cbn [fst] in Ht. exists t, outcome.
  split; [done|]. unfold heard, pending. rewrite decode_stream_app, Ht. done.
Qed.

(** C15. Hidden protocol input preserves what is shown.  On a reachable screen
    with a normal screen set aside exactly in alternate mode, and then of the
    screen's size ([saved_fits]; a resize in alternate mode breaks it, see
    [hidden_leave_needs_saved_size]), input fed with the content preserved
    leaves the normal screen's cells, the scrollback, the scroll position and
    the bell and activity counts as they were, whatever the input does; and if
    the input ends in the mode it began in, the whole surface, the cursor and
    the display modes included, and the screen set aside are unchanged. *)
Theorem hidden_input_preserves_content b s : reached s -> saved_fits s ->
  exists t outcome, feed_protocol_preserving_content b s = Ok (t, outcome) /\ screen_ok t /\ saved_fits t
  /\ normal_grid t = normal_grid s /\ history t = history s
  /\ normal_scroll_rows (generations t) = normal_scroll_rows (generations s)
  /\ bell_events (outputs t) = bell_events (outputs s)
  /\ activity_events (outputs t) = activity_events (outputs s)
  /\ (alt_active (alternate t) = alt_active (alternate s) ->
      surface t = surface s /\ alternate t = alternate s).
Proof.
  intros Hs Hf. destruct (hidden_keeps b s (reached_rests s Hs) Hf) as ([t outcome] & E & H).
  exists t, outcome. destruct H as [[? _] ? ? ? ? [? ?] ? ?]. done.
Qed.

(** C16. Hidden input that leaves alternate mode needs a screen that was not
    resized meanwhile.  On a reachable screen in alternate mode with a normal
    screen set aside, hidden input returns and keeps the size; if it ends on the
    normal screen, the grid is the one set aside, with the size that had, and
    the screen is well formed (rows and columns as many as the size says, so
    that later output stays inside them) exactly when that is the present
    size. *)
Theorem hidden_leave_needs_saved_size b s f : reached s ->
  alt_active (alternate s) = true -> saved_normal_screen (alternate s) = Some f -> b <> [] ->
  exists t outcome, feed_protocol_preserving_content b s = Ok (t, outcome)
  /\ sf_size (surface t) = sf_size (surface s)
  /\ (alt_active (alternate t) = false ->
      grid (surface t) = grid f /\ (screen_ok t <-> sf_size f = sf_size (surface s))).
Proof.
  intros Hs Ha Hf Hb. pose proof (reached_rests s Hs) as Hr.
  destruct (hidden_leaves b s f Hr Ha Hf Hb) as ([t outcome] & E & Hz & Hg). cbn [fst] in *.
  exists t, outcome. split; [done|]. split; [done|]. intros Hn. specialize (Hg Hn). split; [done|]. split.
  - intros Ht. pose proof (sc_saved s (ar_ok _ Hr)) as Hok. rewrite Hf in Hok. cbn in Hok.
    apply (grid_size_unique _ _ (grid f)); [apply Hok|rewrite <- Hz; apply Ht|apply Hok|].
    rewrite <- Hz, <- Hg. apply Ht.
  - intros He. assert (saved_fits s) as Sf by (unfold saved_fits; by rewrite Hf).
    destruct (hidden_keeps b s Hr Sf) as (r & E' & [[H _] _ _ _ _ _ _ _]). rewrite E in E'. by injection E' as <-.
Qed.

(** ** A visit to the alternate screen *)

(** No control sequence of the text switches the screen. *)
Fixpoint stays_on_screen (t : text) (s : TerminalScreen) : bool :=
  match t with
  | [] => true
  | c :: t => negb (ends_switch c s)
              && match feed_char c s with Ok s => stays_on_screen t s | _ => false end
  end.

Lemma feed_chars_keeps t s : screen_ok s -> room s -> stays_on_screen t s = true ->
  returns (feed_chars t s) (keeps s).
Proof.
  revert s. induction t as [|c t IH]; intros s Hs Hr Ht; [by apply returns_Ok|].
  cbn [stays_on_screen] in Ht. apply andb_prop in Ht as [Hc%negb_true_iff Ht].
  destruct (feed_char_keeps c s Hs Hr Hc) as (s1 & E & K). rewrite E in Ht.
  change (feed_chars (c :: t) s) with (s ← feed_char c s; feed_chars t s). rewrite E. cbn [mbind outcome_bind].
  eapply returns_mono; [apply IH; [apply K|by eapply keeps_room|done]|]. intros s2 K2. by eapply keeps_trans.
Qed.

Lemma entered s : screen_ok s -> alt_active (alternate s) = false ->
  let s1 := enter_alternate_screen 1049 s in
  alternate s1 = {| alt_active := true; saved_normal_screen := Some (surface (save_cursor s)) |}
  /\ history s1 = history s.
Proof.
  intros Hs Ha. unfold enter_alternate_screen. rewrite Ha. cbn [Z.eqb Pos.eqb].
  destruct (save_cursor_keeps s Hs) as [K _]. set (s1 := save_cursor s) in *.
  unfold enter_with_saved_normal_screen, saved_normal_screen_state. rewrite (kp_alternate _ _ K), Ha.
  set (s2 := set_alternate _ s1).
  assert (screen_ok s2) as H2.
  { destruct (kp_ok _ _ K) as [H1 _ H3 H4]. by split. }
  pose proof (alternate_generation_keeps s2 H2) as K3.
  pose proof (full_redraw_keeps _ (kp_ok _ _ K3)) as K4.
  pose proof (clear_screen_keeps _ (kp_ok _ _ K4)) as K5.
  pose proof (keeps_trans _ _ _ K3 (keeps_trans _ _ _ K4 K5)) as K6.
  split; [by rewrite (kp_alternate _ _ K6)|]. by rewrite (kp_history _ _ K6).
Qed.

Lemma clamp_inside r c k : c_row k <= r -> c_column k <= c -> clamp_cursor r c k = k.
Proof. intros Hr Hc. destruct k. unfold clamp_cursor. cbn in *. f_equal; lia. Qed.

(** The surface of [s] as [restore_cursor] leaves it after [save_cursor]. *)
Definition visited (f : Surface) : Surface :=
  set_wrap_pending false (set_saved_cursor (Some (cursor f)) f).

Lemma left_alternate s u : screen_ok s -> screen_ok u -> sf_size (surface u) = sf_size (surface s) ->
  alternate u = {| alt_active := true; saved_normal_screen := Some (surface (save_cursor s)) |} ->
  returns (leave_alternate_screen 1049 u) (fun t => surface t = visited (surface s)
    /\ alternate t = {| alt_active := false; saved_normal_screen := None |} /\ history t = history u).
Proof.
  intros Hs Hu Hz Ha. unfold leave_alternate_screen. rewrite Ha. cbn [leave_alternate saved_normal_screen].
  set (u1 := mark_synchronized_output_full_redraw _).
  assert (surface u1 = surface u /\ alternate u1 = {| alt_active := false; saved_normal_screen := None |}
          /\ history u1 = history u) as (E1 & E2 & E3).
  { unfold u1, mark_synchronized_output_full_redraw. by destruct (sync_active _). }
  unfold restore_saved_normal_screen_state. rewrite E1, Hz, bool_decide_true by done. cbn [mbind outcome_bind].
  apply returns_Ok. pose proof (screen_bounds s Hs) as (_ & _ & _ & _ & Hr & Hc).
  unfold max_row, max_column, row_of, column_of in Hr, Hc. set (u2 := on_surface _ _). cbn [Z.eqb Pos.eqb].
  assert (surface u2 = surface (save_cursor s)) as E4.
  { unfold u2, on_surface, save_cursor, clamp_saved. cbn. unfold max_row, max_column. cbn.
    rewrite !(clamp_inside _ _ (cursor (surface s)) Hr Hc). by destruct (surface s). }
  assert (alternate u2 = alternate u1 /\ history u2 = history u1) as [E5 E6] by done. clearbody u2.
  assert (restore_cursor u2 = set_surface (visited (surface s)) u2) as ->.
  { unfold restore_cursor, on_surface, max_row, max_column. rewrite E4. cbn.
    rewrite (clamp_inside _ _ (cursor (surface s)) Hr Hc). by destruct (surface s). }
  cbn. by rewrite E5, E6.
Qed.

(** C12. A visit to the alternate screen leaves the normal screen alone.
    On a well-formed screen in normal mode, with two columns left beside a prefix
    repeated on presented rows ([room]), entering by mode 1049, then any text whose control sequences do not
    themselves switch screens, with no resize in between, then leaving by mode
    1049, restores the normal surface: every cell with its rendition, the cursor, the margins and the
    modes; only a delayed wrap is dropped and the saved cursor is the cursor.
    Nothing of the visit reaches the scrollback. *)
Theorem alternate_screen_round_trip t s : screen_ok s -> room s -> alt_active (alternate s) = false ->
  stays_on_screen t (enter_alternate_screen 1049 s) = true ->
  exists u s', feed_chars t (enter_alternate_screen 1049 s) = Ok u
  /\ leave_alternate_screen 1049 u = Ok s'
  /\ surface s' = visited (surface s) /\ history s' = history s
  /\ alt_active (alternate s') = false /\ saved_normal_screen (alternate s') = None.
Proof.
  intros Hs Hr Ha Ht. pose proof (enter_alternate_goes 1049 s Hs) as G. destruct (entered s Hs Ha) as [E1 E2].
  destruct (feed_chars_keeps t _ (gs_ok _ _ G) (goes_room _ _ G Hr) Ht) as (u & Eu & K).
  destruct (left_alternate s u Hs (kp_ok _ _ K)) as (s' & El & L1 & L2 & L3).
  { rewrite (kp_size _ _ K). apply G. }
  { by rewrite (kp_alternate _ _ K). }
  exists u, s'. split; [done|]. split; [done|]. split; [done|]. rewrite L2, L3.
  split; [|done]. rewrite (kp_history _ _ K), E2; [done|by rewrite E1].
Qed.

End Wide.

(** ** Snapshots of the modes *)

Lemma fold_modes (l : list (Z * bool)) (m : gmap Z bool) : NoDup l.*1 -> Forall (fun p => tracked_dec_private_mode p.1 = true) l ->
  foldl (fun m p => if tracked_dec_private_mode p.1 then <[p.1 := p.2]> m else m) m l = list_to_map l ∪ m.
Proof.
  revert m. induction l as [|[k b] l IH]; intros m Hn Ht; [cbn; by rewrite (left_id_L ∅ (∪))|].
  apply NoDup_cons in Hn as [Hk Hn]. apply Forall_cons in Ht as [Hb Ht]. cbn [foldl fst snd] in *. rewrite Hb.
  rewrite IH by done. cbn. rewrite <- insert_union_l. symmetry. apply insert_union_r. by apply not_elem_of_list_to_map_1.
Qed.

Lemma ordered_modes_permutation m : Permutation (ordered_modes m) (map_to_list m).
Proof. apply merge_sort_Permutation. Qed.

Lemma modes_restored (m : gmap Z bool) : map_Forall (fun k _ => tracked_dec_private_mode k = true) m ->
  foldl (fun m p => if tracked_dec_private_mode p.1 then <[p.1 := p.2]> m else m) ∅ (ordered_modes m) = m.
Proof.
  intros Hm. pose proof (ordered_modes_permutation m) as P. rewrite fold_modes.
  - rewrite (right_id_L ∅ (∪)). transitivity (list_to_map (map_to_list m) : gmap Z bool); [|apply list_to_map_to_list].
    apply list_to_map_proper; [|done]. rewrite P. apply NoDup_fst_map_to_list.
  - rewrite P. apply NoDup_fst_map_to_list.
  - rewrite P. apply Forall_forall. intros [k b] Hk%elem_of_map_to_list. exact (Hm k b Hk).
Qed.

(** The modes of a screen survive a snapshot.  Restored into any screen of
    the same size, the mode state and the saved state of a screen whose saved
    cursor is inside the grid and whose saved private modes are tracked ones
    read back exactly: title, flags, character sets, saved cursor and saved
    private modes. *)
Theorem snapshot_state_roundtrip s u : sf_size (surface u) = sf_size (surface s) ->
  from_option (fun c => c_row c <= max_row s /\ c_column c <= max_column s) True (saved_cursor (surface s)) ->
  map_Forall (fun k _ => tracked_dec_private_mode k = true) (saved_dec_private_modes (modes s)) ->
  let t := restore_saved_state (saved_state s) (restore_mode_state (mode_state s) u) in
  mode_state t = mode_state s /\ saved_state t = saved_state s.
Proof.
  intros Hz Hc Hm. split; [done|]. unfold saved_state, restore_saved_state. cbn.
  rewrite (modes_restored _ Hm). unfold max_row, max_column in *. cbn. rewrite Hz. f_equal.
  - destruct (saved_cursor (surface s)) as [c|]; [|done]. cbn in *. destruct Hc. f_equal. by apply clamp_inside.
  - by destruct (g0_charset (parser s)).
  - by destruct (g1_charset (parser s)).
Qed.

(** ** Reflow *)

(** The clusters of a text that take a column. *)
Definition shown_clusters (ew : TerminalEmojiWidth) (gs : list text) : list text :=
  List.filter (fun g => negb (terminal_grapheme_width g ew =? 0)) gs.
Definition clusters_width (ew : TerminalEmojiWidth) (gs : list text) : nat :=
  sum_list ((fun g => terminal_grapheme_width g ew) <$> gs).

(** A row that holds some clusters: they fit, or there is one only. *)
Definition row_fits (ew : TerminalEmojiWidth) (columns : nat) (part : list text) (row : PhysicalStyledLine) : Prop :=
  styled_text (physical_line row) = concat part /\ (clusters_width ew part <= columns \/ length part = 1).
(** Rows that hold the parts of a line, all but the last marked as wrapped. *)
Inductive rows_of (ew : TerminalEmojiWidth) (columns : nat) : list (list text) -> list PhysicalStyledLine -> Prop :=
  | rows_last part row : row_fits ew columns part row -> wraps_to_next row = false ->
      rows_of ew columns [part] [row]
  | rows_next part row parts rows : row_fits ew columns part row -> wraps_to_next row = true ->
      rows_of ew columns parts rows -> rows_of ew columns (part :: parts) (row :: rows).

Lemma shown_width_app ew a b : clusters_width ew (a ++ b) = clusters_width ew a + clusters_width ew b.
Proof. unfold clusters_width. rewrite fmap_app. apply sum_list_with_app. Qed.
Lemma concat_snoc {A} (l : list (list A)) x : concat (l ++ [x]) = concat l ++ x.
Proof. rewrite concat_app. cbn. by rewrite app_nil_r. Qed.

Lemma shown_width_one ew g : clusters_width ew [g] = terminal_grapheme_width g ew.
Proof. unfold clusters_width. cbn. lia. Qed.
Definition shows (ew : TerminalEmojiWidth) (g : text) : Prop := terminal_grapheme_width g ew <> 0.

Lemma reflow_graphemes_rows l columns preserve ew gs current part source_column :
  styled_text current = concat part -> Forall (shows ew) part ->
  clusters_width ew part <= columns \/ length part = 1 ->
  exists parts, rows_of ew columns parts
    (reflow_graphemes l columns preserve None ew gs current (clusters_width ew part) source_column)
  /\ concat parts = part ++ shown_clusters ew gs.
Proof.
  revert current part source_column. induction gs as [|g gs IH]; intros current part source_column Ht Hp Hw;
    cbn [reflow_graphemes shown_clusters List.filter].
  { exists [part]. split; [by apply rows_last|done]. }
  destruct (Nat.eqb_spec (terminal_grapheme_width g ew) 0) as [E|E]; cbn [negb]; [by apply IH|].
  pose proof (shown_width_one ew g) as W.
  destruct ((0 <? clusters_width ew part) && (columns <? clusters_width ew part + terminal_grapheme_width g ew)) eqn:B.
  - destruct (IH (push_styled_grapheme g (terminal_grapheme_width g ew) (styled_line_rendition_at l source_column) ew
        (continuation_row l preserve None ew)) [g] (source_column + terminal_grapheme_width g ew)) as (parts & Hr & Ec);
      [cbn; by rewrite ?app_nil_r|by repeat constructor|by right|].
    exists (part :: parts). split; [|cbn; by rewrite Ec]. apply rows_next; [done..|]. by rewrite W in Hr.
  - destruct (IH (push_styled_grapheme g (terminal_grapheme_width g ew) (styled_line_rendition_at l source_column) ew current)
      (part ++ [g]) (source_column + terminal_grapheme_width g ew)) as (parts & Hr & Ec).
    + cbn. by rewrite concat_snoc, Ht.
    + apply Forall_app_2; [done|by repeat constructor].
    + rewrite shown_width_app, W. apply andb_false_iff in B as [B%Nat.ltb_ge|B%Nat.ltb_ge]; [|by left].
      destruct Hp as [|h part Hh _]; [by right|]. unfold clusters_width in B. cbn in B. unfold shows in Hh. lia.
    + exists parts. rewrite shown_width_app, W in Hr. split; [done|]. by rewrite Ec, <- app_assoc.
Qed.

(** The texts a merge has finished and the one it is at. *)
Definition merge_texts (m : MergeState) : list text * option text :=
  (styled_text <$> merged m, styled_text <$> merging m).
Lemma merge_row_texts ew preserve m row :
  merge_texts (merge_row None ew preserve m row)
  = let t := default [] (merge_texts m).2 ++ styled_text (physical_line row) in
    if wraps_to_next row then ((merge_texts m).1, Some t) else ((merge_texts m).1 ++ [t], None).
Proof.
  unfold merge_row, merge_texts. destruct m as [finished cur prefixed consistent].
  cbn [merged merging merge_prefixed merge_consistent fst snd].
  set (starts := bool_decide _). set (first_prefixed := if starts then _ else prefixed).
  set (agrees := match presentation _, presentation _ with Some a, Some b => _ | _, _ => _ end).
  match goal with |- context [let '(current, consistent) := ?m in _] => destruct m as [current steady] eqn:Em end.
  assert (styled_text current = default [] (styled_text <$> cur)) as Et.
  { destruct starts, agrees; injection Em as <- _; by destruct cur. }
  set (steady' := if negb starts && steady then _ else steady).
  set (current' := if steady' then current else _).
  assert (styled_text current' = default [] (styled_text <$> cur)) as Et' by (unfold current'; by destruct steady').
  set (line := if negb starts && first_prefixed then _ else physical_line row).
  assert (styled_text line = styled_text (physical_line row)) as El by (unfold line; by destruct (negb starts && first_prefixed)).
  set (line' := if _ || _ then _ else line).
  assert (styled_text line' = styled_text (physical_line row)) as El'.
  { unfold line'. destruct (_ || _); [exact El|exact El]. }
  destruct (wraps_to_next row); cbn; rewrite ?fmap_app; cbn; by rewrite Et', El'.
Qed.

Lemma merge_rows_texts ew columns preserve parts rows m : rows_of ew columns parts rows ->
  merge_texts (foldl (merge_row None ew preserve) m rows)
  = ((merge_texts m).1 ++ [default [] (merge_texts m).2 ++ concat (concat parts)], None).
Proof.
  intros H. revert m. induction H as [part row [Ht _] Hw|part row parts rows [Ht _] Hw _ IH]; intros m; cbn [foldl].
  - rewrite merge_row_texts, Hw, Ht. cbn. by rewrite app_nil_r.
  - rewrite IH, merge_row_texts, Hw, Ht. cbn. by rewrite concat_app, app_assoc.
Qed.

Lemma reflow_line_rows l columns ew policy preserve :
  exists parts, rows_of ew (log_frame_columns (presentation l) columns policy) parts
    (reflow_one_logical_line l columns None ew policy preserve)
  /\ concat parts = shown_clusters ew (terminal_graphemes (styled_text l)).
Proof.
  apply (reflow_graphemes_rows l _ preserve ew (terminal_graphemes (styled_text l))
    (with_provenance (copy_text l) (line_source l) (presentation l) (plain [])) [] 0); [done|constructor|].
  left. apply Nat.le_0_l.
Qed.

(** The text of a line that takes columns. *)
Definition shown_text (ew : TerminalEmojiWidth) (l : TerminalStyledLine) : text :=
  concat (shown_clusters ew (terminal_graphemes (styled_text l))).

Lemma merge_reflow_texts lines columns ew policy preserve m : (merge_texts m).2 = None ->
  merge_texts (foldl (merge_row None ew preserve) m (reflow_logical_lines lines columns None ew policy preserve))
  = ((merge_texts m).1 ++ (shown_text ew <$> lines), None).
Proof.
  revert m. induction lines as [|l lines IH]; intros m Hm.
  { change (merge_texts m = ((merge_texts m).1 ++ [], None)). rewrite app_nil_r, <- Hm. by destruct (merge_texts m). }
  destruct (reflow_line_rows l (Nat.max columns 1) ew policy preserve) as (parts & Hr & Ec).
  pose proof (merge_rows_texts _ _ preserve _ _ m Hr) as E. rewrite Hm in E.
  change (reflow_logical_lines (l :: lines) columns None ew policy preserve)
    with (reflow_one_logical_line l (Nat.max columns 1) None ew policy preserve
          ++ reflow_logical_lines lines columns None ew policy preserve).
  rewrite foldl_app, IH by by rewrite E. rewrite E. cbn [fst default from_option app].
  rewrite <- app_assoc, Ec. done.
Qed.

(** C5. Reflow keeps the lines.  Logical lines reflowed, without a continuation
    prefix, to any number of columns under any log-frame policy and merged again
    are the same lines: the text of each is the source line's, less the clusters
    that take no column, which the reflow drops.  Each line becomes rows that hold its clusters in order,
    none cut: a row's clusters fit the columns the line may use unless the row
    holds a single cluster wider than them, and all rows but the last are
    marked as wrapped. *)
Theorem reflow_preserves_lines lines columns ew policy preserve : lines <> [] ->
  styled_text <$> merge_wrapped_physical_lines
      (reflow_logical_lines lines columns None ew policy preserve) None ew preserve
  = shown_text ew <$> lines
  /\ Forall (fun l => exists parts,
      rows_of ew (log_frame_columns (presentation l) columns policy) parts
        (reflow_one_logical_line l columns None ew policy preserve)
      /\ concat (concat parts) = shown_text ew l) lines.
Proof.
  intros Hl. split.
  - unfold merge_wrapped_physical_lines. set (m0 := {| merged := []; merging := None |}).
    pose proof (merge_reflow_texts lines columns ew policy preserve m0 eq_refl) as E.
    set (m := foldl _ m0 _) in *. unfold merge_texts in E. injection E as E1 E2.
    destruct (merging m); [done|]. cbn [from_option]. rewrite app_nil_r. cbn in E1.
    destruct (merged m); [by destruct lines|done].
  - apply Forall_forall. intros l _. destruct (reflow_line_rows l columns ew policy preserve) as (parts & Hr & Ec).
    exists parts. split; [done|]. by rewrite Ec.
Qed.

End Safety.

(** ** Concrete screens *)

(** Tables for ASCII text, every character a cluster. *)
#[local] Instance one_column_tables : UnicodeTables := {
  is_alphanumeric c := in_range 48 57 c || in_range 65 90 c || in_range 97 122 c;
  to_lowercase s := to_ascii_lowercase <$> s;
  char_width c := if is_ascii_control c then None else Some 1;
  str_width s := length s;
}.
#[local] Instance one_char_clusters : TerminalText := {
  terminal_graphemes s := (fun c => [c]) <$> s;
  terminal_emoji_width := Wide;
}.
Lemma one_column_wide c w : char_width c = Some w -> w <= 2.
Proof. cbn. destruct (is_ascii_control c); [discriminate|]. intros [= <-]. lia. Defined.

Definition size_4x2 : Size := mkSize 4 2.
Definition small_screen : TerminalScreen :=
  match new_screen size_4x2 10 0 with
  | Ok s => s
  | _ => {| surface := default_surface size_4x2; active_presentation := None; active_copy_source := None;
            settings := {| log_frame_policy := default_policy; log_timestamp_rendition := default_rendition;
                           preserve_copy_associations := false; wrap_continuation_prefix := None;
                           emoji_width := Wide |};
            parser := default_parser; modes := default_modes;
            outputs := {| osc_events := []; terminal_response_bytes := []; title := None;
                          activity_events := 0; bell_events := 0 |};
            alternate := {| alt_active := false; saved_normal_screen := None |};
            alternate_screen_generation := 0; history := empty_history 10 1;
            generations := {| next_generation := 0; render_generation := 0;
                              normal_scroll_rows := 0; normal_scroll_epoch := 0 |};
            synchronized_output := {| sync_active := false; sync_begin_epoch := 0;
                                      frozen_presentation := None; full_redraw_required := false |};
            synchronized_output_outcome := no_outcome |}
  end.
Definition escape (s : string) : bytes := 27%Z :: chars s.
Definition output : bytes := chars "hello" ++ escape "[1;31m" ++ [0xe2; 0x82]%Z.
Definition hidden_output : bytes := escape "[2J" ++ chars "noise" ++ [7]%Z ++ escape "]0;t" ++ [7]%Z.

Lemma small_reached : reached small_screen.
Proof.
  apply (reached_new size_4x2 10 DEFAULT_HISTORY_ROTATE_LINES 0);
    [split; vm_compute; split; discriminate|vm_compute; discriminate..|vm_compute; reflexivity].
Defined.

Lemma screen_calls_never_panic_witness :
  (exists s', screen_step (CallFeed output) small_screen = Ok s' /\ screen_ok s'
   /\ (Z.of_nat (h_len (history s')) <= h_limit (history s'))%Z)
  /\ exists s', screen_step (CallResize (mkSize 9 65535)) small_screen = Ok s' /\ screen_ok s'.
Proof.
  split.
  - destruct (screen_calls_never_panic one_column_wide (CallFeed output) small_screen small_reached I)
      as (s' & E & H & _ & _ & B & _). exists s'. split; [exact E|]. split; [exact H|exact B].
  - destruct (screen_calls_never_panic one_column_wide (CallResize (mkSize 9 65535)) small_screen small_reached)
      as (s' & E & H & _).
    + split; vm_compute; split; discriminate.
    + exists s'. split; [exact E|exact H].
Defined.

Lemma feed_independent_of_reads_witness :
  let s := small_screen in
  heard (output ++ [0xac; 0x41]%Z) s = heard output s ++ [0x20ac; 0x41]%Z
  /\ pending output s = [0xe2; 0x82]%Z.
Proof.
  pose proof (reached_rests one_column_wide small_screen small_reached) as Hs.
  destruct (feed_independent_of_reads one_column_wide output [0xac; 0x41]%Z small_screen
    (ar_ok _ Hs) (at_rest_room _ Hs)) as (_ & t & outcome & E & H & _).
  split; [|vm_compute; reflexivity]. rewrite H. f_equal. vm_compute in E. injection E as <- _. vm_compute. reflexivity.
Defined.

Lemma hidden_input_preserves_content_witness :
  exists t outcome, feed_protocol_preserving_content hidden_output small_screen = Ok (t, outcome)
  /\ normal_grid t = normal_grid small_screen /\ bell_events (outputs t) = 0%Z /\ title (outputs t) = Some (chars "t").
Proof.
  destruct (hidden_input_preserves_content one_column_wide hidden_output small_screen small_reached)
    as (t & outcome & E & _ & _ & G & _ & _ & B & _).
  - vm_compute. reflexivity.
  - exists t, outcome. split; [exact E|]. split; [exact G|]. split; [exact B|].
    vm_compute in E. injection E as <- _. vm_compute. reflexivity.
Defined.

Lemma alternate_screen_round_trip_witness :
  exists u s', feed_chars (chars "full screen" ++ escape "[2;2H" ++ [10; 10; 10]%Z)
                 (enter_alternate_screen 1049 small_screen) = Ok u
  /\ leave_alternate_screen 1049 u = Ok s' /\ surface s' = visited (surface small_screen).
Proof.
  pose proof (reached_rests one_column_wide small_screen small_reached) as Hs.
  destruct (alternate_screen_round_trip one_column_wide (chars "full screen" ++ escape "[2;2H" ++ [10; 10; 10]%Z)
    small_screen (ar_ok _ Hs) (at_rest_room _ Hs)) as (u & s' & E1 & E2 & E3 & _).
  - reflexivity.
  - vm_compute. reflexivity.
  - exists u, s'. split; [exact E1|]. split; [exact E2|exact E3].
Defined.

Lemma snapshot_state_roundtrip_witness :
  let s := {| surface := surface (save_cursor small_screen); active_presentation := None; active_copy_source := None;
              settings := settings small_screen; parser := set_g1_charset DecSpecialGraphics default_parser;
              modes := set_saved_dec_private_modes {[1004%Z := true; 25%Z := false]} default_modes;
              outputs := outputs small_screen; alternate := alternate small_screen;
              alternate_screen_generation := 0; history := history small_screen;
              generations := generations small_screen; synchronized_output := synchronized_output small_screen;
              synchronized_output_outcome := no_outcome |} in
  saved_state (restore_saved_state (saved_state s) (restore_mode_state (mode_state s) small_screen)) = saved_state s
  /\ ss_modes (saved_state s) = [(25%Z, false); (1004%Z, true)].
Proof.
  intros s. split; [|vm_compute; reflexivity]. apply (snapshot_state_roundtrip s small_screen).
  - vm_compute. reflexivity.
  - vm_compute. split; lia.
  - apply map_Forall_to_list. repeat constructor.
Defined.

Lemma reflow_preserves_lines_witness :
  let lines := [plain (chars "hello world"); plain []] in
  styled_text <$> merge_wrapped_physical_lines
      (reflow_logical_lines lines 4 None Wide default_policy false) None Wide false
  = [chars "hello world"; []].
Proof.
  assert ([plain (chars "hello world"); plain []] <> []) as H by discriminate.
  exact (proj1 (reflow_preserves_lines [plain (chars "hello world"); plain []] 4 Wide default_policy false H)).
Defined.

(** The witness of C16: a screen that shows [hi], enters alternate mode and is
    resized to 4x4 gets back its grid of two rows by a hidden leave sequence. *)
Lemma hidden_leave_needs_saved_size_witness :
  exists s f t outcome, reached s /\ saved_normal_screen (alternate s) = Some f
  /\ feed_protocol_preserving_content (escape "[?1049l") s = Ok (t, outcome)
  /\ rows (sf_size (surface t)) = 4%Z /\ length (cells (grid (surface t))) = 2 /\ ~ screen_ok t.
Proof.
  destruct (screen_step (CallFeed (chars "hi" ++ escape "[?1049h")) small_screen) as [s1|[]|] eqn:E1.
  2:{ vm_compute in E1. discriminate. }
  destruct (screen_step (CallResize (mkSize 4 4)) s1) as [s2|[]|] eqn:E2.
  2:{ vm_compute in E1. injection E1 as <-. vm_compute in E2. discriminate. }
  assert (reached s2) as H2.
  { eapply reached_call; [eapply reached_call; [exact small_reached| |exact E1]; exact I| |exact E2].
    split; vm_compute; split; discriminate. }
  destruct (saved_normal_screen (alternate s2)) as [f|] eqn:Ef.
  2:{ vm_compute in E1. injection E1 as <-. vm_compute in E2. injection E2 as <-. discriminate. }
  assert (alt_active (alternate s2) = true) as Ha.
  { vm_compute in E1. injection E1 as <-. vm_compute in E2. injection E2 as <-. reflexivity. }
  assert (escape "[?1049l" <> []) as Hb by discriminate.
  destruct (hidden_leave_needs_saved_size one_column_wide (escape "[?1049l") s2 f H2 Ha Ef Hb)
    as (t & outcome & E3 & Hz & Hend).
  exists s2, f, t, outcome. split; [exact H2|]. split; [exact Ef|]. split; [exact E3|]. clear H2 Ha Hb.
  vm_compute in E1. injection E1 as <-. vm_compute in E2. injection E2 as <-.
  vm_compute in Ef. injection Ef as <-. vm_compute in E3. injection E3 as <- <-.
  split; [reflexivity|]. split; [reflexivity|]. intros Hok.
  destruct (Hend eq_refl) as [_ Hiff]. apply Hiff in Hok. vm_compute in Hok. discriminate Hok.
Defined.

(** Leaving alternate mode by hidden input after a resize breaks the screen: a
    4x2 screen that shows [hi], enters alternate mode, is resized to 4x4 and
    then receives the leave sequence as hidden protocol input gets back the
    saved normal grid of two rows while its size says four; the next lines of
    ordinary output index a row that is not there, and the call panics. *)
Theorem hidden_leave_after_resize_panics :
  exists s t, reached s /\ ~ saved_fits s
  /\ screen_step (CallHidden (escape "[?1049l")) s = Ok t
  /\ rows (sf_size (surface t)) = 4%Z /\ length (cells (grid (surface t))) = 2 /\ ~ screen_ok t
  /\ screen_step (CallFeed (chars "xyz" ++ [13; 10; 10; 10]%Z)) t = Panic.
Proof.
  destruct (screen_step (CallFeed (chars "hi" ++ escape "[?1049h")) small_screen) as [s1|[]|] eqn:E1.
  2:{ vm_compute in E1. discriminate. }
  destruct (screen_step (CallResize (mkSize 4 4)) s1) as [s2|[]|] eqn:E2.
  2:{ vm_compute in E1. injection E1 as <-. vm_compute in E2. discriminate. }
  assert (reached s2) as H2.
  { eapply reached_call; [eapply reached_call; [exact small_reached| |exact E1]; exact I| |exact E2].
    split; vm_compute; split; discriminate. }
  vm_compute in E1. injection E1 as <-. vm_compute in E2. injection E2 as <-.
  eexists _, _. split; [exact H2|]. clear H2. split; [by intros [_ H]|]. split; [vm_compute; reflexivity|].
  split; [done|]. split; [done|]. split; [|vm_compute; reflexivity].
  intros H. pose proof (go_cells _ _ (so_grid _ (sc_surface _ H))) as E. vm_compute in E. discriminate.
Qed.
