(* ===== verification/CopyMode.v ===== *)
(** * Copy mode and paste buffers

    The copy-mode buffer of a pane (mez-mux/src/copy.rs): scrolling, cursor
    movement over grapheme clusters, words, selection and search, the source
    carriers of copied lines, the styled copy of a terminal screen and its
    sources; and the named paste buffers (mez-mux/src/paste.rs).  Lines and
    columns are indices into vectors and strings a process can hold, below
    [isize::MAX], so the code's saturating additions on them are written [+];
    what is converted to [isize] is kept at its width. *)

From S2P Require Import Prelude RustStr LayoutTypes Utf8Text ReadlineText Readline ReadlineKeys KeyInput TermText.
#[local] Open Scope nat_scope.

Section Copy.
Context {UT : UnicodeTables} {TT : TerminalText}.

(** ** Source carriers *)

(** A record separator followed by ASCII text. *)
Definition marker (s : string) : text := 30%Z :: chars s.
Definition COPY_SOURCE_LINE_PREFIX : text := marker "mez-copy-source-line:".
Definition COPY_SOURCE_REFERENCE_PREFIX : text := marker "mez-copy-source-reference:".

(** [str::replace(char, &str)]. *)
Definition replace_char (c : rchar) (by_ s : text) : text :=
  s ≫= fun d => if (d =? c)%Z then by_ else [d].

(** [str::split_once(char)]. *)
Fixpoint split_once_char (c : rchar) (s : text) : option (text * text) :=
  match s with
  | [] => None
  | d :: s => if (d =? c)%Z then Some ([], s)
              else '(a, b) ← split_once_char c s; Some (d :: a, b)
  end.

Definition index_text (n : nat) : text := chars (usize_to_string n).

Definition copy_source_identity_in_group (group : text) (source_index : nat) : text :=
  replace_char 58 (chars "%3A") (replace_char 37 (chars "%25") group)
  ++ chars "/" ++ index_text source_index.
Definition encode_copy_source_line (source_index : nat) (copy_line : text) : text :=
  COPY_SOURCE_LINE_PREFIX ++ index_text source_index ++ chars ":" ++ copy_line.
Definition encode_copy_source_line_in_group (group : text) (source_index : nat) (copy_line : text)
    : text :=
  COPY_SOURCE_LINE_PREFIX ++ copy_source_identity_in_group group source_index
  ++ chars ":" ++ copy_line.
Definition encode_copy_source_reference_in_group (group : text) (source_index : nat) : text :=
  COPY_SOURCE_REFERENCE_PREFIX ++ copy_source_identity_in_group group source_index.
Definition decode_copy_source_line (line : text) : option (text * text) :=
  strip_text COPY_SOURCE_LINE_PREFIX line ≫= split_once_char 58.

(** ** Columns and words *)

(** The clusters of a line, scanned from column [col]. *)
Fixpoint grapheme_at (l : list text) (col target : nat) : option (nat * nat) :=
  match l with
  | [] => None
  | g :: l =>
      let next := col + grapheme_width g in
      if (col <=? target) && (target <? next) then Some (col, grapheme_width g)
      else grapheme_at l next target
  end.
Definition grapheme_at_column (line : text) (target : nat) : option (nat * nat) :=
  grapheme_at (terminal_graphemes line) 0 target.

Fixpoint column_to_scalar (l : list text) (col scalar target_column : nat) : nat :=
  match l with
  | [] => scalar
  | g :: l =>
      let next := col + grapheme_width g in
      if target_column <? next then scalar
      else column_to_scalar l next (scalar + length g) target_column
  end.
Definition display_column_to_scalar_index (line : text) (target_column : nat) : nat :=
  column_to_scalar (terminal_graphemes line) 0 0 target_column.

Fixpoint scalar_to_column (l : list text) (col scalar target_scalar : nat) : nat :=
  match l with
  | [] => col
  | g :: l =>
      if target_scalar <=? scalar then col
      else scalar_to_column l (col + grapheme_width g) (scalar + length g) target_scalar
  end.
Definition scalar_index_to_display_column (line : text) (target_scalar : nat) : nat :=
  scalar_to_column (terminal_graphemes line) 0 0 target_scalar.

(** [while index > 0 && chars[index - 1].is_whitespace() { index -= 1 }] and
    its mirror image; the index is at most the number of characters. *)
Fixpoint skip_blank_left (s : text) (index : nat) : nat :=
  match index with
  | O => O
  | S before =>
      if from_option is_whitespace false (s !! before) then skip_blank_left s before else index
  end.
Fixpoint skip_blank_right (rest : text) (index : nat) : nat :=
  match rest with
  | c :: rest => if is_whitespace c then skip_blank_right rest (S index) else index
  | [] => index
  end.

Definition previous_word_column (line : text) (column : nat) : nat :=
  let scalar := display_column_to_scalar_index line column in
  let index := skip_blank_left line (Nat.min scalar (length line)) in
  scalar_index_to_display_column line (readline_word_column_range line (index - 1)).1.

Definition next_word_column (line : text) (column : nat) : nat :=
  let scalar := display_column_to_scalar_index line column in
  let start := Nat.min scalar (length line) in
  let index := skip_blank_right (drop start line) start in
  scalar_index_to_display_column line (readline_word_column_range line index).2.

(** ** Positions and search *)

Record CopyPosition := { line : nat; column : nat }.
#[global] Instance CopyPosition_eq_dec : EqDecision CopyPosition.
Proof. solve_decision. Defined.

Inductive SearchDirection := Forward | Backward.

(** The derived order: lines first. *)
Definition position_leb (a b : CopyPosition) : bool :=
  (line a <? line b) || ((line a =? line b) && (column a <=? column b)).
Definition normalize_selection (start end_ : CopyPosition) : CopyPosition * CopyPosition :=
  if position_leb start end_ then (start, end_) else (end_, start).

Definition validate_position (lines : list text) (position : CopyPosition) : result unit :=
  match lines !! line position with
  | None => Err (invalid_args "copy mode selection line is out of range")
  | Some _ => Ok tt
  end.

(** [str::find] and [str::rfind], counted in characters. *)
Fixpoint find_text (query s : text) : option nat :=
  if text_prefix query s then Some 0
  else match s with [] => None | _ :: s => S <$> find_text query s end.
Fixpoint rfind_text (query s : text) : option nat :=
  match s with
  | [] => if text_prefix query [] then Some 0 else None
  | _ :: rest =>
      match rfind_text query rest with
      | Some i => Some (S i)
      | None => if text_prefix query s then Some 0 else None
      end
  end.

Definition search_indices (n start : nat) (direction : SearchDirection) : list nat :=
  match direction with
  | Forward => seq start (n - start) ++ seq 0 start
  | Backward => reverse (seq 0 (S start)) ++ reverse (seq (S start) (n - S start))
  end.

Definition frame_origin (frames : list (option LogFrame)) (i : nat) : nat :=
  from_option body_origin 0 (mjoin (frames !! i)).

(** One row: the part after its frame is searched. *)
Definition search_row (frames : list (option LogFrame)) (query : text)
    (direction : SearchDirection) (i : nat) (row : text) : option (CopyPosition * nat) :=
  let origin := frame_origin frames i in
  let content := drop origin row in
  index ← match direction with
          | Forward => find_text query content
          | Backward => rfind_text query content
          end;
  Some ({| line := i; column := origin + terminal_text_width (take index content) |},
        terminal_text_width query).

Fixpoint search_rows (lines : list text) (frames : list (option LogFrame)) (query : text)
    (direction : SearchDirection) (indices : list nat) : result (option (CopyPosition * nat)) :=
  match indices with
  | [] => Ok None
  | i :: indices =>
      row ← index_or_panic lines i;
      match search_row frames query direction i row with
      | Some found => Ok (Some found)
      | None => search_rows lines frames query direction indices
      end
  end.

Definition search_lines_with_frames (lines : list text) (frames : list (option LogFrame))
    (start_line : nat) (query : text) (direction : SearchDirection)
    : result (option (CopyPosition * nat)) :=
  match lines with
  | [] => Ok None
  | _ :: _ =>
      let start := Nat.min start_line (length lines - 1) in
      search_rows lines frames query direction (search_indices (length lines) start direction)
  end.
Definition search_lines (lines : list text) (start_line : nat) (query : text)
    (direction : SearchDirection) : result (option (CopyPosition * nat)) :=
  search_lines_with_frames lines [] start_line query direction.

(** ** The copy buffer *)

Record CopyBuffer := {
  lines : list text;
  log_frames : list (option LogFrame);
  viewport_rows : nat;
  scroll_top : nat;
  cursor : CopyPosition;
  selection : option (CopyPosition * CopyPosition);
  selection_anchor : option CopyPosition;
}.

Definition set_view (top : nat) (c : CopyPosition) (b : CopyBuffer) : CopyBuffer :=
  {| lines := lines b; log_frames := log_frames b; viewport_rows := viewport_rows b;
     scroll_top := top; cursor := c; selection := selection b;
     selection_anchor := selection_anchor b |}.
Definition set_selection (s : option (CopyPosition * CopyPosition)) (a : option CopyPosition)
    (b : CopyBuffer) : CopyBuffer :=
  {| lines := lines b; log_frames := log_frames b; viewport_rows := viewport_rows b;
     scroll_top := scroll_top b; cursor := cursor b; selection := s; selection_anchor := a |}.
Definition set_column (c : nat) (b : CopyBuffer) : CopyBuffer :=
  set_view (scroll_top b) {| line := line (cursor b); column := c |} b.

Definition log_frame (b : CopyBuffer) (i : nat) : option LogFrame := mjoin (log_frames b !! i).
Definition visible_end_line (b : CopyBuffer) : nat :=
  Nat.min (scroll_top b + viewport_rows b) (length (lines b)).
Definition max_top (b : CopyBuffer) : nat := length (lines b) - viewport_rows b.
Definition is_at_bottom (b : CopyBuffer) : bool := max_top b <=? scroll_top b.

(** [&self.lines[self.scroll_top..self.visible_end_line()]]. *)
Definition visible_lines (b : CopyBuffer) : result (list text) :=
  if (visible_end_line b <? scroll_top b) || (length (lines b) <? visible_end_line b) then Panic
  else Ok (take (visible_end_line b - scroll_top b) (drop (scroll_top b) (lines b))).

Definition line_width (b : CopyBuffer) (i : nat) : nat :=
  from_option terminal_text_width 0 (lines b !! i).

Definition clamp_position (b : CopyBuffer) (position : CopyPosition) : CopyPosition :=
  let line := Nat.min (line position) (length (lines b) - 1) in
  {| line := line; column := Nat.min (column position) (line_width b line) |}.

Definition keep_cursor_visible (b : CopyBuffer) : CopyBuffer :=
  if line (cursor b) <? scroll_top b then set_view (line (cursor b)) (cursor b) b
  else if scroll_top b + viewport_rows b <=? line (cursor b)
       then set_view (line (cursor b) - (viewport_rows b - 1)) (cursor b) b
  else b.

Definition update_keyboard_selection (b : CopyBuffer) : CopyBuffer :=
  match selection_anchor b with
  | Some anchor => set_selection (Some (anchor, cursor b)) (Some anchor) b
  | None => b
  end.

Definition empty_viewport {A} : result A :=
  Err (invalid_args "copy mode viewport must have at least one row").

Definition new_copy_buffer (rows_text : list text) (rows top : nat) (at_ : CopyPosition)
    : result CopyBuffer :=
  if rows =? 0 then empty_viewport
  else
    let b := {| lines := rows_text; log_frames := replicate (length rows_text) None;
                viewport_rows := rows; scroll_top := Nat.min top (length rows_text - rows);
                cursor := at_; selection := None; selection_anchor := None |} in
    Ok (keep_cursor_visible (set_view (scroll_top b) (clamp_position b at_) b)).

Definition resize_viewport_rows (rows : nat) (b : CopyBuffer) : result CopyBuffer :=
  if rows =? 0 then empty_viewport
  else
    let b := {| lines := lines b; log_frames := log_frames b; viewport_rows := rows;
                scroll_top := Nat.min (scroll_top b) (length (lines b) - rows);
                cursor := clamp_position b (cursor b);
                selection := (fun s => (clamp_position b s.1, clamp_position b s.2)) <$> selection b;
                selection_anchor := clamp_position b <$> selection_anchor b |} in
    Ok (update_keyboard_selection (keep_cursor_visible b)).

(** [usize as isize], its negation, and [Ord::clamp] on [usize]. *)
Definition isize_MAX : Z := 2 ^ 63 - 1.
Definition as_isize (n : nat) : Z :=
  let v := (Z.of_nat n mod 2 ^ 64)%Z in if (v <=? isize_MAX)%Z then v else (v - 2 ^ 64)%Z.
Definition neg_isize (v : Z) : result Z := if (v =? - 2 ^ 63)%Z then Panic else Ok (- v)%Z.
Definition clamp (v lo hi : nat) : result nat :=
  if hi <? lo then Panic else Ok (Nat.min (Nat.max v lo) hi).

Definition scroll_by (delta : Z) (b : CopyBuffer) : result CopyBuffer :=
  let top := if (delta <? 0)%Z then scroll_top b - Z.to_nat (Z.abs delta)
             else Nat.min (scroll_top b + Z.to_nat delta) (max_top b) in
  l ← clamp (line (cursor b)) top
        (Nat.min (top + (viewport_rows b - 1)) (length (lines b) - 1));
  Ok (update_keyboard_selection
        (set_view top {| line := l; column := column (cursor b) |} b)).

Definition scroll_to_top (b : CopyBuffer) : CopyBuffer :=
  update_keyboard_selection (set_view 0 {| line := 0; column := 0 |} b).
Definition scroll_to_bottom (b : CopyBuffer) : CopyBuffer :=
  let l := length (lines b) - 1 in
  update_keyboard_selection (set_view (max_top b) {| line := l; column := line_width b l |} b).

Definition page_up (b : CopyBuffer) : result CopyBuffer :=
  if scroll_top b <? viewport_rows b then Ok (scroll_to_top b)
  else delta ← neg_isize (as_isize (viewport_rows b)); scroll_by delta b.
Definition page_down (b : CopyBuffer) : result CopyBuffer :=
  if max_top b - scroll_top b <? viewport_rows b then Ok (scroll_to_bottom b)
  else scroll_by (as_isize (viewport_rows b)) b.

Definition move_cursor_left_one (b : CopyBuffer) : CopyBuffer :=
  let c := cursor b in
  if 0 <? column c then
    set_column (from_option fst (column c - 1)
                  (lines b !! line c ≫= fun row => grapheme_at_column row (column c - 1))) b
  else if 0 <? line c then
    set_view (scroll_top b) {| line := line c - 1; column := line_width b (line c - 1) |} b
  else b.

Definition move_cursor_right_one (b : CopyBuffer) : CopyBuffer :=
  let c := cursor b in
  if column c <? line_width b (line c) then
    set_column (from_option (fun g => g.1 + g.2) (column c + 1)
                  (lines b !! line c ≫= fun row => grapheme_at_column row (column c))) b
  else if line c + 1 <? length (lines b) then
    set_view (scroll_top b) {| line := line c + 1; column := 0 |} b
  else b.

Definition move_cursor_columns (delta : Z) (b : CopyBuffer) : CopyBuffer :=
  if (delta <? 0)%Z then Nat.iter (Z.to_nat (Z.abs delta)) move_cursor_left_one b
  else Nat.iter (Z.to_nat delta) move_cursor_right_one b.

Definition move_cursor_by (line_delta column_delta : Z) (b : CopyBuffer) : CopyBuffer :=
  let c := cursor b in
  let l := if (line_delta <? 0)%Z then line c - Z.to_nat (Z.abs line_delta)
           else Nat.min (line c + Z.to_nat line_delta) (length (lines b) - 1) in
  let b := set_view (scroll_top b)
             {| line := l; column := Nat.min (column c) (line_width b l) |} b in
  update_keyboard_selection (keep_cursor_visible (move_cursor_columns column_delta b)).

Definition move_cursor_to_line_start (b : CopyBuffer) : CopyBuffer :=
  update_keyboard_selection (set_column 0 b).
Definition move_cursor_to_line_end (b : CopyBuffer) : CopyBuffer :=
  update_keyboard_selection (set_column (line_width b (line (cursor b))) b).

Definition move_cursor_word_left (b : CopyBuffer) : CopyBuffer :=
  let c := cursor b in
  let origin := from_option body_origin 0 (log_frame b (line c)) in
  update_keyboard_selection
    (set_column (Nat.max (default 0 ((fun row => previous_word_column row (column c))
                                     <$> lines b !! line c)) origin) b).

Definition move_cursor_word_right (b : CopyBuffer) : CopyBuffer :=
  let c := cursor b in
  let origin := from_option body_origin 0 (log_frame b (line c)) in
  if column c <? origin then update_keyboard_selection (set_column origin b)
  else update_keyboard_selection
    (set_column (default 0 ((fun row => next_word_column row (column c)) <$> lines b !! line c)) b).

Definition begin_keyboard_selection (b : CopyBuffer) : CopyBuffer :=
  set_selection (Some (cursor b, cursor b)) (Some (cursor b)) b.
Definition clear_selection (b : CopyBuffer) : CopyBuffer := set_selection None None b.

(** *** Keys *)

Inductive CopyModeKeyAction :=
| MoveUp | MoveUpFast | MoveDown | MoveDownFast | MoveLeft | MoveWordLeft | MoveRight
| MoveWordRight | PageUp | PageDown | Top | LineStart | Bottom | LineEnd
| BeginSelection | Ignore | Cancel.
Inductive CopyModeActionOutcome := Updated | SelectionReady | Ignored | Exit.
#[global] Instance CopyModeActionOutcome_eq_dec : EqDecision CopyModeActionOutcome.
Proof. solve_decision. Defined.

Definition requires_redraw (o : CopyModeActionOutcome) : bool :=
  match o with Ignored => false | _ => true end.

Definition classify_copy_mode_key_action (input : bytes) : option CopyModeKeyAction :=
  if bool_decide (input = [27%Z]) then Some Cancel
  else if bool_decide (input = [3%Z]) then Some Ignore
  else
    '(k, consumed) ← parse_key_chord_bytes input;
    if negb (consumed =? length input) then None
    else
      let m := modifiers k in
      match code k with
      | KeyUp => Some (if ctrl m then MoveUpFast else MoveUp)
      | KeyDown => Some (if ctrl m then MoveDownFast else MoveDown)
      | KeyLeft => Some (if ctrl m || alt m then MoveWordLeft else MoveLeft)
      | KeyRight => Some (if ctrl m || alt m then MoveWordRight else MoveRight)
      | KeyPageUp => Some PageUp
      | KeyPageDown => Some PageDown
      | KeyHome => Some (if ctrl m then Top else LineStart)
      | KeyEnd => Some (if ctrl m then Bottom else LineEnd)
      | KeyChar c => if (c =? 32)%Z then Some BeginSelection else None
      end.

Definition apply_key_action (action : CopyModeKeyAction) (b : CopyBuffer)
    : result (CopyBuffer * CopyModeActionOutcome) :=
  let updated b := Ok (b, Updated) in
  match action with
  | MoveUp => updated (move_cursor_by (-1) 0 b)
  | MoveUpFast => updated (move_cursor_by (-5) 0 b)
  | MoveDown => updated (move_cursor_by 1 0 b)
  | MoveDownFast => updated (move_cursor_by 5 0 b)
  | MoveLeft => updated (move_cursor_by 0 (-1) b)
  | MoveWordLeft => updated (move_cursor_word_left b)
  | MoveRight => updated (move_cursor_by 0 1 b)
  | MoveWordRight => updated (move_cursor_word_right b)
  | PageUp => b ← page_up b; updated b
  | PageDown => b ← page_down b; updated b
  | Top => updated (scroll_to_top b)
  | LineStart => updated (move_cursor_to_line_start b)
  | Bottom => updated (scroll_to_bottom b)
  | LineEnd => updated (move_cursor_to_line_end b)
  | BeginSelection =>
      match selection b with
      | Some _ => Ok (b, SelectionReady)
      | None => updated (begin_keyboard_selection b)
      end
  | Ignore => Ok (b, Ignored)
  | Cancel => Ok (b, Exit)
  end.

(** *** Search and selection *)

Definition search (query : text) (direction : SearchDirection) (b : CopyBuffer)
    : result (CopyBuffer * option CopyPosition) :=
  if bool_decide (query = []) then
    Err (invalid_args "copy mode search query must not be empty")
  else
    found ← search_lines_with_frames (lines b) (log_frames b) (scroll_top b) query direction;
    match found with
    | Some (position, width) =>
        let b := set_view (Nat.min (line position) (length (lines b) - 1)) (cursor b) b in
        Ok (set_selection
              (Some (position, {| line := line position; column := column position + width |}))
              (selection_anchor b) b, Some position)
    | None => Ok (b, None)
    end.

Definition select_range (start end_ : CopyPosition) (b : CopyBuffer) : result CopyBuffer :=
  _ ← validate_position (lines b) start;
  _ ← validate_position (lines b) end_;
  Ok (set_selection (Some (start, end_)) (selection_anchor b) b).

Definition select_word_at (position : CopyPosition) (b : CopyBuffer) : result CopyBuffer :=
  let position := clamp_position b position in
  let origin := from_option body_origin 0 (log_frame b (line position)) in
  if column position <? origin then select_range position position b
  else
    match lines b !! line position with
    | None => Err (invalid_args "copy mode word selection line is invalid")
    | Some row =>
        let content := drop origin row in
        let scalar := display_column_to_scalar_index content (column position - origin) in
        let '(start, end_) := readline_word_column_range content scalar in
        select_range
          {| line := line position;
             column := origin + scalar_index_to_display_column content start |}
          {| line := line position;
             column := origin + scalar_index_to_display_column content end_ |} b
    end.

(** ** The styled copy of a screen *)

(** What copy mode reads of a terminal screen. *)
Record TerminalScreen := {
  normal_styled_content_lines : list TerminalStyledLine;
  visible_styled_content : list TerminalStyledLine;
  alternate_screen_active : bool;
  uses_presentation_copy_associations : bool;
  size_rows : nat;
  cursor_row : nat;
  cursor_column : nat;
}.

Record StyledCopyMode := {
  buffer : CopyBuffer;
  mode_spans : list (list TerminalStyleSpan);
  copy_overrides : list (option text);
  copy_sources : list (option TerminalCopySource);
  source_associations_enabled : bool;
  alternate_screen_was_active : bool;
}.

Definition copy_override (l : TerminalStyledLine) : option text :=
  c ← copy_text l; if bool_decide (c = styled_text l) then None else Some c.

Definition new_styled (rows : list TerminalStyledLine) (viewport top : nat) (at_ : CopyPosition)
    (alternate : bool) : result StyledCopyMode :=
  b ← new_copy_buffer (styled_text <$> rows) viewport top at_;
  Ok {| buffer := b; mode_spans := style_spans <$> rows; copy_overrides := copy_override <$> rows;
        copy_sources := line_source <$> rows; source_associations_enabled := true;
        alternate_screen_was_active := alternate |}.

Definition set_associations (enabled : bool) (frames : list (option LogFrame))
    (m : StyledCopyMode) : StyledCopyMode :=
  let b := buffer m in
  {| buffer := {| lines := lines b; log_frames := frames; viewport_rows := viewport_rows b;
                  scroll_top := scroll_top b; cursor := cursor b; selection := selection b;
                  selection_anchor := selection_anchor b |};
     mode_spans := mode_spans m; copy_overrides := copy_overrides m;
     copy_sources := copy_sources m; source_associations_enabled := enabled;
     alternate_screen_was_active := alternate_screen_was_active m |}.

Definition initial_copy_mode_view (screen : TerminalScreen) (rows : list TerminalStyledLine)
    (viewport : nat) : nat * CopyPosition :=
  let top := length rows - viewport in
  if bool_decide (length rows = 0) || alternate_screen_active screen
  then (top, {| line := top; column := 0 |})
  else
    let live_rows := Nat.max (size_rows screen) 1 in
    let live_base_line := length rows - live_rows in
    let cursor_line := Nat.min (live_base_line + Nat.min (cursor_row screen) (live_rows - 1))
                         (length rows - 1) in
    let cursor_column :=
      from_option (fun l => Nat.min (cursor_column screen) (terminal_text_width (styled_text l))) 0
        (rows !! cursor_line) in
    (if cursor_line <? top then cursor_line
     else if top + viewport <=? cursor_line then cursor_line - (viewport - 1)
     else top,
     {| line := cursor_line; column := cursor_column |}).

Definition from_projected_rows (screen : TerminalScreen) (rows : list TerminalStyledLine)
    (frames : list (option LogFrame)) (viewport : nat) (visible_only : bool)
    : result StyledCopyMode :=
  if negb (length frames =? length rows) then
    Err (invalid_args "copy row/frame geometry length mismatch")
  else
    let '(top, c) := if visible_only then (0, {| line := 0; column := 0 |})
                     else initial_copy_mode_view screen rows viewport in
    let c := {| line := line c;
                column := column c + from_option margin_width 0 (mjoin (frames !! line c)) |} in
    m ← new_styled rows viewport top c (alternate_screen_active screen);
    Ok (set_associations (uses_presentation_copy_associations screen) frames m).

Definition from_screen (screen : TerminalScreen) (viewport : nat) : result StyledCopyMode :=
  let rows := normal_styled_content_lines screen in
  let '(top, c) := initial_copy_mode_view screen rows viewport in
  m ← new_styled rows viewport top c (alternate_screen_active screen);
  Ok (set_associations (uses_presentation_copy_associations screen) (log_frames (buffer m)) m).

Definition from_visible_screen (screen : TerminalScreen) (viewport : nat) : result StyledCopyMode :=
  m ← new_styled (visible_styled_content screen) viewport 0 {| line := 0; column := 0 |}
        (alternate_screen_active screen);
  Ok (set_associations (uses_presentation_copy_associations screen) (log_frames (buffer m)) m).

Definition copy_line (m : StyledCopyMode) (i : nat) : option text :=
  match mjoin (copy_overrides m !! i) with
  | Some t => Some t
  | None => lines (buffer m) !! i
  end.

Definition copy_source (m : StyledCopyMode) (i : nat) : option TerminalCopySource :=
  source ← mjoin (copy_sources m !! i);
  if source_associations_enabled m || negb (is_source_line (group (id source)))
  then Some source else None.

(** [seen.insert(&source.id, source)] in the loop of [validate_copy_sources]:
    the sources seen so far, the newest of an id first. *)
Fixpoint validate_sources (seen l : list TerminalCopySource) : result unit :=
  match l with
  | [] => Ok tt
  | s :: l =>
      match list_find (fun t => id t = id s) seen with
      | Some (_, previous) =>
          if negb (bool_decide (generation previous = generation s))
             || negb (bool_decide (source_text previous = source_text s))
          then Err (invalid_args "copy snapshot contains conflicting source generations")
          else validate_sources (s :: seen) l
      | None => validate_sources (s :: seen) l
      end
  end.
Definition validate_copy_sources (m : StyledCopyMode) : result unit :=
  validate_sources [] (omap (fun s => s) (copy_sources m)).

Fixpoint styled_rows (m : StyledCopyMode) (indices : list nat) : result (list TerminalStyledLine) :=
  match indices with
  | [] => Ok []
  | i :: indices =>
      t ← index_or_panic (lines (buffer m)) i;
      spans ← index_or_panic (mode_spans m) i;
      over ← index_or_panic (copy_overrides m) i;
      source ← index_or_panic (copy_sources m) i;
      rest ← styled_rows m indices;
      Ok ({| styled_text := t; style_spans := spans; copy_text := over; line_source := source;
           presentation := None |}
            :: rest)
  end.
Definition visible_styled_lines (m : StyledCopyMode) : result (list TerminalStyledLine) :=
  let b := buffer m in
  styled_rows m (seq (scroll_top b) (visible_end_line b - scroll_top b)).

End Copy.

(** ** Paste buffers *)

Module Paste.

Definition DEFAULT_PASTE_BUFFER_LIMIT_BYTES : Z := 1048576.

Record PasteBuffer := {
  pb_name : text; pb_bytes : Z; pb_created : Z; pb_origin : option text; pb_preview : text }.
Record PasteBufferEntry := {
  content : text; created_at_unix_seconds : Z; sequence : Z; origin : option text }.
Record PasteBuffers := {
  limit_bytes : Z; next_sequence : Z; buffers : list (text * PasteBufferEntry) }.

(** The order of strings: that of their bytes, which is that of their
    characters. *)
Fixpoint text_ltb (a b : text) : bool :=
  match a, b with
  | [], [] => false
  | [], _ :: _ => true
  | _ :: _, [] => false
  | x :: a, y :: b => (x <? y)%Z || ((x =? y)%Z && text_ltb a b)
  end.

(** [BTreeMap::get], [insert] and [remove] on the entries in order. *)
Fixpoint get_entry (name : text) (l : list (text * PasteBufferEntry)) : option PasteBufferEntry :=
  match l with
  | [] => None
  | (n, e) :: l => if bool_decide (n = name) then Some e else get_entry name l
  end.
Fixpoint insert_entry (name : text) (e : PasteBufferEntry) (l : list (text * PasteBufferEntry))
    : list (text * PasteBufferEntry) :=
  match l with
  | [] => [(name, e)]
  | (n, d) :: rest =>
      if bool_decide (n = name) then (name, e) :: rest
      else if text_ltb name n then (name, e) :: l
      else (n, d) :: insert_entry name e rest
  end.
Definition remove_entry (name : text) (l : list (text * PasteBufferEntry))
    : list (text * PasteBufferEntry) :=
  filter (fun p => p.1 <> name) l.

Definition new_paste_buffers (limit : Z) : result PasteBuffers :=
  if (limit =? 0)%Z then
    Err (invalid_args "paste buffer byte limit must be greater than zero")
  else Ok {| limit_bytes := limit; next_sequence := 1; buffers := [] |}.
Definition default_limit : result PasteBuffers :=
  match new_paste_buffers DEFAULT_PASTE_BUFFER_LIMIT_BYTES with Ok b => Ok b | _ => Panic end.

Definition is_name_byte (c : Z) : bool :=
  in_range 48 57 c || in_range 65 90 c || in_range 97 122 c
  || (c =? 45)%Z || (c =? 95)%Z || (c =? 46)%Z.
Definition validate_paste_buffer_name (name : text) : result unit :=
  if bool_decide (name = []) || negb (forallb is_name_byte name)
  then Err (invalid_args "paste buffer name is invalid") else Ok tt.

Definition exceeds_limit {A} : result A :=
  Err (invalid_args "paste buffer content exceeds configured byte limit").

(** The insertion both [set_with_origin] and [create_with_origin] end in. *)
Definition store (now : Z) (name t : text) (o : option text) (b : PasteBuffers) : PasteBuffers :=
  {| limit_bytes := limit_bytes b;
     next_sequence := sat_add u64_MAX (next_sequence b) 1;
     buffers := insert_entry name {| content := t; created_at_unix_seconds := now;
                                     sequence := next_sequence b; origin := o |} (buffers b) |}.

Definition set_with_origin (now : Z) (name t : text) (o : option text) (b : PasteBuffers)
    : result PasteBuffers :=
  _ ← validate_paste_buffer_name name;
  if (limit_bytes b <? blen t)%Z then exceeds_limit else Ok (store now name t o b).
Definition set (now : Z) (name t : text) (b : PasteBuffers) : result PasteBuffers :=
  set_with_origin now name t None b.

Definition create_with_origin (now : Z) (name t : text) (o : option text) (b : PasteBuffers)
    : result (PasteBuffers * bool) :=
  _ ← validate_paste_buffer_name name;
  match get_entry name (buffers b) with
  | Some _ => Ok (b, false)
  | None => if (limit_bytes b <? blen t)%Z then exceeds_limit
            else Ok (store now name t o b, true)
  end.

Definition get (name : text) (b : PasteBuffers) : option text :=
  content <$> get_entry name (buffers b).

Definition delete (name : text) (b : PasteBuffers) : PasteBuffers * bool :=
  match get_entry name (buffers b) with
  | Some _ => ({| limit_bytes := limit_bytes b; next_sequence := next_sequence b;
                  buffers := remove_entry name (buffers b) |}, true)
  | None => (b, false)
  end.

(** [Iterator::max_by_key]: the last of the greatest. *)
Definition max_by_sequence (l : list (text * PasteBufferEntry)) : option (text * PasteBufferEntry) :=
  foldl (fun best p => match best with
                       | Some q => if (sequence q.2 <=? sequence p.2)%Z then Some p else best
                       | None => Some p
                       end) None l.
Definition most_recent_name (b : PasteBuffers) : option text := fst <$> max_by_sequence (buffers b).

Definition delete_most_recent (b : PasteBuffers) : PasteBuffers * option text :=
  match most_recent_name b with
  | None => (b, None)
  | Some name => let '(b, deleted) := delete name b in (b, if deleted then Some name else None)
  end.

Definition paste_buffer_preview (t : text) : text :=
  take 40 ((fun c => if is_control_char c then 32%Z else c) <$> t)
  ++ (if 40 <? length t then chars "..." else []).

Definition list_buffers (b : PasteBuffers) : list PasteBuffer :=
  (fun p => {| pb_name := p.1; pb_bytes := blen (content p.2);
               pb_created := created_at_unix_seconds p.2; pb_origin := origin p.2;
               pb_preview := paste_buffer_preview (content p.2) |}) <$> buffers b.

End Paste.
