(* ===== verification/CopyTheorems.v ===== *)
(** * Properties of copy mode and paste buffers

    The invariant of a copy buffer under every command, the first match a
    search returns, movement over grapheme clusters, the round trip of source
    carriers, the agreement of copy sources, and the refinement of the paste
    buffers to a stack of writes. *)

From S2P Require Import Prelude RustStr LayoutTypes Utf8Text ReadlineText Readline ReadlineKeys KeyInput TermText CopyMode.
#[local] Open Scope nat_scope.

(** ** The invariant of a copy buffer *)

Section Safety.
Context {UT : UnicodeTables} {TT : TerminalText}.

Definition line_ok (b : CopyBuffer) (p : CopyPosition) : Prop := line p <= length (lines b) - 1.

Record copy_ok (b : CopyBuffer) : Prop := {
  ck_rows : 0 < viewport_rows b;
  ck_count : (Z.of_nat (length (lines b)) <= isize_MAX)%Z;
  ck_frames : length (log_frames b) = length (lines b);
  ck_top : scroll_top b <= length (lines b) - 1;
  ck_cursor : line_ok b (cursor b);
  ck_selection : forall s e, selection b = Some (s, e) -> line_ok b s /\ line_ok b e;
  ck_anchor : forall a, selection_anchor b = Some a -> line_ok b a;
}.

Definition cursor_visible (b : CopyBuffer) : Prop :=
  scroll_top b <= line (cursor b) < scroll_top b + viewport_rows b.

(** Same text, same frames, same size: what every movement keeps. *)
Record same_page (b b' : CopyBuffer) : Prop := {
  sp_lines : lines b' = lines b;
  sp_frames : log_frames b' = log_frames b;
  sp_rows : viewport_rows b' = viewport_rows b;
}.
#[global] Instance same_page_preorder : PreOrder same_page.
Proof. split; [by constructor|]. intros a b c [] []. constructor; congruence. Qed.

(** A view that stays within the text. *)
Lemma set_view_ok top c b : copy_ok b -> top <= length (lines b) - 1 -> line_ok b c ->
  copy_ok (set_view top c b).
Proof. intros []. by constructor. Qed.
Lemma view_column_ok c b : copy_ok b -> copy_ok (set_column c b).
Proof. intros Hb. apply set_view_ok; [done|apply Hb..]. Qed.
Lemma set_selection_ok s a b : copy_ok b ->
  (forall p q, s = Some (p, q) -> line_ok b p /\ line_ok b q) ->
  (forall p, a = Some p -> line_ok b p) -> copy_ok (set_selection s a b).
Proof. intros []. by constructor. Qed.

Lemma update_selection_ok b : copy_ok b -> copy_ok (update_keyboard_selection b).
Proof.
  intros Hb. unfold update_keyboard_selection. destruct (selection_anchor b) as [a|] eqn:Ha; [|done].
  apply set_selection_ok; [done|intros p q [= <- <-]|intros p [= <-]].
  - split; [by eapply ck_anchor|apply Hb].
  - by eapply ck_anchor.
Qed.
Lemma update_selection_visible b : cursor_visible b -> cursor_visible (update_keyboard_selection b).
Proof. unfold update_keyboard_selection. by destruct (selection_anchor b). Qed.

Lemma keep_visible_ok b : copy_ok b -> copy_ok (keep_cursor_visible b).
Proof.
  intros Hb. pose proof (ck_cursor b Hb) as Hc. unfold line_ok in Hc. unfold keep_cursor_visible.
  repeat case_match; try done; apply set_view_ok; try done; lia.
Qed.
Lemma keep_visible_visible b : 0 < viewport_rows b -> cursor_visible (keep_cursor_visible b).
Proof.
  intros Hr. unfold keep_cursor_visible, cursor_visible.
  destruct (Nat.ltb_spec (line (cursor b)) (scroll_top b)); [cbn; lia|].
  destruct (Nat.leb_spec (scroll_top b + viewport_rows b) (line (cursor b))); cbn; lia.
Qed.

Lemma clamp_position_ok b p : line_ok b (clamp_position b p).
Proof. unfold line_ok, clamp_position. cbn. lia. Qed.

(** What a page-preserving operation on the view has to give. *)
Definition keeps_view (b b' : CopyBuffer) : Prop :=
  copy_ok b' /\ same_page b b' /\ (cursor_visible b -> cursor_visible b').
Definition shows_cursor (b b' : CopyBuffer) : Prop :=
  copy_ok b' /\ same_page b b' /\ cursor_visible b'.

Lemma shows_keeps b b' : shows_cursor b b' -> keeps_view b b'.
Proof. intros (? & ? & ?). by split_and!. Qed.

Lemma same_page_update b : same_page b (update_keyboard_selection b).
Proof. unfold update_keyboard_selection. by destruct (selection_anchor b). Qed.
Lemma same_page_keep b : same_page b (keep_cursor_visible b).
Proof. unfold keep_cursor_visible. by repeat case_match. Qed.

Lemma shows_update b top c : copy_ok b -> top <= length (lines b) - 1 -> line_ok b c ->
  top <= line c < top + viewport_rows b ->
  shows_cursor b (update_keyboard_selection (set_view top c b)).
Proof.
  intros Hb Ht Hc Hv. split_and!.
  - by apply update_selection_ok, set_view_ok.
  - etransitivity; [|apply same_page_update]. by constructor.
  - by apply update_selection_visible.
Qed.
Lemma column_update b c : copy_ok b -> keeps_view b (update_keyboard_selection (set_column c b)).
Proof.
  intros Hb. split_and!.
  - by apply update_selection_ok, view_column_ok.
  - etransitivity; [|apply same_page_update]. by constructor.
  - intros Hv. by apply update_selection_visible.
Qed.

(** ** Movements *)

Lemma scroll_by_ok delta b : copy_ok b ->
  exists b', scroll_by delta b = Ok b' /\ shows_cursor b b'.
Proof.
  intros Hb. unfold scroll_by, clamp, max_top.
  set (top := if (delta <? 0)%Z then _ else _).
  assert (Ht : top <= length (lines b) - 1).
  { pose proof (ck_top b Hb). pose proof (ck_rows b Hb). subst top. case_match; lia. }
  pose proof (ck_rows b Hb). destruct (Nat.ltb_spec (Nat.min (top + (viewport_rows b - 1)) (length (lines b) - 1)) top); [lia|].
  eexists. split; [reflexivity|]. apply shows_update; [done..|unfold line_ok|]; cbn [line]; lia.
Qed.

Lemma as_isize_small n : (Z.of_nat n <= isize_MAX)%Z -> as_isize n = Z.of_nat n.
Proof.
  intros Hn. unfold as_isize. rewrite Z.mod_small by (unfold isize_MAX in Hn; lia).
  by rewrite (proj2 (Z.leb_le _ _)) by lia.
Qed.

Lemma scroll_to_top_ok b : copy_ok b -> shows_cursor b (scroll_to_top b).
Proof. intros Hb. pose proof (ck_rows b Hb). apply shows_update; [done|unfold line_ok; cbn; lia..]. Qed.
Lemma scroll_to_bottom_ok b : copy_ok b -> shows_cursor b (scroll_to_bottom b).
Proof.
  intros Hb. pose proof (ck_rows b Hb). unfold scroll_to_bottom, max_top.
  apply shows_update; [done|unfold line_ok; cbn [line]; lia..].
Qed.

Lemma page_up_ok b : copy_ok b -> exists b', page_up b = Ok b' /\ shows_cursor b b'.
Proof.
  intros Hb. unfold page_up. destruct (Nat.ltb_spec (scroll_top b) (viewport_rows b)).
  { eexists. split; [done|by apply scroll_to_top_ok]. }
  pose proof (ck_count b Hb). pose proof (ck_top b Hb). pose proof (ck_rows b Hb).
  rewrite as_isize_small by lia. unfold neg_isize. rewrite (proj2 (Z.eqb_neq _ _)) by lia.
  by apply scroll_by_ok.
Qed.
Lemma page_down_ok b : copy_ok b -> exists b', page_down b = Ok b' /\ shows_cursor b b'.
Proof.
  intros Hb. unfold page_down. case_match; [|by apply scroll_by_ok].
  eexists. split; [done|by apply scroll_to_bottom_ok].
Qed.

Lemma left_one_ok b : copy_ok b -> copy_ok (move_cursor_left_one b) /\ same_page b (move_cursor_left_one b).
Proof.
  intros Hb. unfold move_cursor_left_one. pose proof (ck_cursor b Hb) as Hc. unfold line_ok in Hc.
  case_match; [split; [by apply view_column_ok|by constructor]|].
  case_match; [|done]. split; [|by constructor]. apply set_view_ok; [done|apply Hb|].
  unfold line_ok; cbn [line]; lia.
Qed.
Lemma right_one_ok b : copy_ok b -> copy_ok (move_cursor_right_one b) /\ same_page b (move_cursor_right_one b).
Proof.
  intros Hb. unfold move_cursor_right_one.
  case_match; [split; [by apply view_column_ok|by constructor]|].
  destruct (Nat.ltb_spec (line (cursor b) + 1) (length (lines b))); [|done].
  split; [|by constructor]. apply set_view_ok; [done|apply Hb|]. unfold line_ok; cbn [line]; lia.
Qed.

Lemma iter_ok f : (forall b, copy_ok b -> copy_ok (f b) /\ same_page b (f b)) ->
  forall n b, copy_ok b -> copy_ok (Nat.iter n f b) /\ same_page b (Nat.iter n f b).
Proof.
  intros Hf n b Hb. induction n as [|n [IH1 IH2]]; [done|]. cbn [Nat.iter nat_rect].
  destruct (Hf _ IH1) as [H1 H2]. split; [done|by etransitivity].
Qed.
Lemma columns_ok delta b : copy_ok b ->
  copy_ok (move_cursor_columns delta b) /\ same_page b (move_cursor_columns delta b).
Proof. intros Hb. unfold move_cursor_columns. case_match; apply iter_ok; auto using left_one_ok, right_one_ok. Qed.

Lemma move_by_ok dl dc b : copy_ok b -> shows_cursor b (move_cursor_by dl dc b).
Proof.
  intros Hb. unfold move_cursor_by.
  set (c := {| line := _; column := _ |}).
  assert (Hc : copy_ok (set_view (scroll_top b) c b)).
  { apply set_view_ok; [done|apply Hb|]. pose proof (ck_cursor b Hb) as H. unfold line_ok in *.
    subst c; cbn [line]. case_match; lia. }
  destruct (columns_ok dc _ Hc) as [H1 H2]. set (b1 := move_cursor_columns _ _) in *. split_and!.
  - by apply update_selection_ok, keep_visible_ok.
  - etransitivity; [|apply same_page_update]. etransitivity; [|apply same_page_keep].
    etransitivity; [|exact H2]. by constructor.
  - apply update_selection_visible, keep_visible_visible, H1.
Qed.

Lemma begin_selection_ok b : copy_ok b -> keeps_view b (begin_keyboard_selection b).
Proof.
  intros Hb. split_and!; [|by constructor|done].
  apply set_selection_ok; [done|intros p q [= <- <-]; split; apply Hb|intros p [= <-]; apply Hb].
Qed.

Lemma key_action_ok a b : copy_ok b ->
  exists b' o, apply_key_action a b = Ok (b', o) /\ keeps_view b b'.
Proof.
  intros Hb. assert (Hsame : keeps_view b b) by done.
  destruct a; cbn [apply_key_action];
    try (eexists _, _; split; [reflexivity|]; first [done|by apply shows_keeps, move_by_ok
      |by apply shows_keeps, scroll_to_top_ok|by apply shows_keeps, scroll_to_bottom_ok|by apply column_update]).
  - unfold move_cursor_word_right. case_match; (eexists _, _; split; [reflexivity|by apply column_update]).
  - destruct (page_up_ok b Hb) as (b' & -> & H). eexists _, _. split; [done|by apply shows_keeps].
  - destruct (page_down_ok b Hb) as (b' & -> & H). eexists _, _. split; [done|by apply shows_keeps].
  - destruct (selection b) eqn:E; (eexists _, _; split; [done|]); [done|by apply begin_selection_ok].
Qed.

End Safety.

(** ** Search *)

Section Search.
Context {UT : UnicodeTables} {TT : TerminalText}.

Lemma text_prefix_iff p s : text_prefix p s = true <-> exists t, s = p ++ t.
Proof.
  revert s. induction p as [|a p IH]; intros s; [split; [by exists s|done]|].
  destruct s as [|c s]; [split; [done|by intros [t [=]]]|]. cbn [text_prefix].
  rewrite andb_true_iff, Z.eqb_eq, IH. split; [intros [-> [t ->]]; by exists t|].
  intros [t [= -> ->]]. eauto.
Qed.

(** [query] occurs in [s] after [i] characters. *)
Definition occurs_at (query s : text) (i : nat) : Prop := exists t, drop i s = query ++ t /\ i <= length s.

Lemma occurs_0 query s : occurs_at query s 0 <-> text_prefix query s = true.
Proof. rewrite text_prefix_iff. unfold occurs_at. rewrite drop_0. split; [intros (t & ? & _); eauto|]. intros [t ?]. exists t. split; [done|lia]. Qed.
Lemma occurs_S query c s i : occurs_at query (c :: s) (S i) <-> occurs_at query s i.
Proof. unfold occurs_at. cbn. split; intros (t & ? & ?); exists t; split; (done || lia). Qed.
Lemma occurs_nil query i : occurs_at query [] i <-> i = 0 /\ text_prefix query [] = true.
Proof.
  split.
  - intros (t & H & Hi). cbn in Hi. assert (i = 0) as -> by lia. split; [done|]. apply text_prefix_iff. by exists t.
  - intros [-> ?]. by apply occurs_0.
Qed.

(** [str::find] gives the first occurrence and [str::rfind] the last. *)
Lemma find_text_spec query s :
  match find_text query s with
  | Some i => occurs_at query s i /\ forall j, occurs_at query s j -> i <= j
  | None => forall j, ~ occurs_at query s j
  end.
Proof.
  induction s as [|c s IH]; cbn [find_text].
  - destruct (text_prefix query []) eqn:E; [split; [by apply occurs_0|lia]|].
    intros j [_ ?]%occurs_nil. congruence.
  - destruct (text_prefix query (c :: s)) eqn:E; [split; [by apply occurs_0|lia]|].
    destruct (find_text query s) as [i|]; cbn [fmap option_fmap option_map].
    + destruct IH as [H1 H2]. split; [by apply occurs_S|]. intros [|j] Hj.
      * apply occurs_0 in Hj. congruence.
      * apply occurs_S, H2 in Hj. lia.
    + intros [|j] Hj; [apply occurs_0 in Hj; congruence|]. apply occurs_S in Hj. by eapply IH.
Qed.
Lemma rfind_text_spec query s :
  match rfind_text query s with
  | Some i => occurs_at query s i /\ forall j, occurs_at query s j -> j <= i
  | None => forall j, ~ occurs_at query s j
  end.
Proof.
  induction s as [|c s IH]; cbn [rfind_text].
  - destruct (text_prefix query []) eqn:E.
    + split; [by apply occurs_0|]. intros j [-> _]%occurs_nil. lia.
    + intros j [_ ?]%occurs_nil. congruence.
  - destruct (rfind_text query s) as [i|].
    + destruct IH as [H1 H2]. split; [by apply occurs_S|]. intros [|j] Hj; [lia|].
      apply occurs_S, H2 in Hj. lia.
    + assert (Hn : forall j, occurs_at query (c :: s) j -> j = 0)
        by (intros [|j] Hj; [done|apply occurs_S in Hj; by destruct (IH j)]).
      destruct (text_prefix query (c :: s)) eqn:E.
      * split; [by apply occurs_0|]. intros j ->%Hn. lia.
      * intros j Hj. pose proof (Hn j Hj) as ->. apply occurs_0 in Hj. congruence.
Qed.

(** How far a row is from the start of the search, the rows wrapping around. *)
Definition search_distance (n start : nat) (direction : SearchDirection) (i : nat) : nat :=
  match direction with
  | Forward => if start <=? i then i - start else i + n - start
  | Backward => if i <=? start then start - i else start + n - i
  end.

Lemma lookup_reverse_seq a n k : reverse (seq a n) !! k = if k <? n then Some (a + n - 1 - k) else None.
Proof.
  destruct (Nat.ltb_spec k n) as [Hk|Hk].
  - rewrite reverse_lookup by (rewrite length_seq; lia). rewrite length_seq, lookup_seq_lt by lia. f_equal. lia.
  - apply lookup_ge_None. rewrite length_reverse, length_seq. lia.
Qed.
Lemma lookup_seq_if a n k : seq a n !! k = if k <? n then Some (a + k) else None.
Proof.
  destruct (Nat.ltb_spec k n) as [Hk|Hk]; [by apply lookup_seq_lt|by apply lookup_seq_ge].
Qed.

(** The rows are visited by distance. *)
Lemma search_indices_lookup n start direction k i : start < n ->
  search_indices n start direction !! k = Some i
  <-> i < n /\ k = search_distance n start direction i.
Proof.
  intros Hs. unfold search_indices, search_distance.
  destruct direction; rewrite lookup_app, ?lookup_seq_if, ?lookup_reverse_seq, ?length_reverse, ?length_seq.
  all: repeat match goal with
              | |- context [?a <? ?b] => destruct (Nat.ltb_spec a b)
              | |- context [?a <=? ?b] => destruct (Nat.leb_spec a b)
              end.
  all: split; [intros Heq; simplify_eq; lia|intros [Hi ->]; first [lia|f_equal; lia]].
Qed.

(** The scan stops at the first row that matches. *)
Lemma search_rows_spec ls frames query direction indices :
  (forall i, i ∈ indices -> i < length ls) ->
  exists r, search_rows ls frames query direction indices = Ok r
    /\ match r with
       | Some f => exists k i row, indices !! k = Some i /\ ls !! i = Some row
           /\ search_row frames query direction i row = Some f
           /\ forall k' i' row', k' < k -> indices !! k' = Some i' -> ls !! i' = Some row' ->
              search_row frames query direction i' row' = None
       | None => forall i row, i ∈ indices -> ls !! i = Some row ->
           search_row frames query direction i row = None
       end.
Proof.
  induction indices as [|i indices IH]; intros Hin.
  { exists None. split; [done|]. intros i row H. set_solver. }
  destruct (lookup_lt_is_Some_2 ls i) as [row Hrow]; [apply Hin; set_solver|].
  cbn [search_rows]. unfold index_or_panic. rewrite Hrow. cbn [mbind outcome_bind].
  destruct (search_row frames query direction i row) as [f|] eqn:Hf.
  { exists (Some f). split; [done|]. exists 0, i, row. split_and!; [done..|]. intros; lia. }
  destruct IH as (r & -> & Hr); [intros; apply Hin; set_solver|]. exists r. split; [done|].
  destruct r as [f|].
  - destruct Hr as (k & i' & row' & ? & ? & ? & Hbefore). exists (S k), i', row'. split_and!; [done..|].
    intros [|k'] i'' row'' Hk' Hi'' Hrow''; [|eapply (Hbefore k'); [lia|done..]]. cbn in Hi''. congruence.
  - intros i' row' [->|Hi']%elem_of_cons Hrow'; [congruence|by eapply Hr].
Qed.

(** The part of a row the search looks at. *)
Definition row_content (ls : list text) (frames : list (option LogFrame)) (i : nat) : text :=
  drop (frame_origin frames i) (default [] (ls !! i)).

Lemma search_row_spec frames query direction i row :
  let content := drop (frame_origin frames i) row in
  match search_row frames query direction i row with
  | Some (p, w) => exists at_, occurs_at query content at_
      /\ (forall j, occurs_at query content j ->
          match direction with Forward => at_ <= j | Backward => j <= at_ end)
      /\ line p = i /\ column p = frame_origin frames i + terminal_text_width (take at_ content)
      /\ w = terminal_text_width query
  | None => forall j, ~ occurs_at query content j
  end.
Proof.
  cbn zeta. unfold search_row. set (content := drop _ row). destruct direction.
  - pose proof (find_text_spec query content) as H.
    destruct (find_text query content) as [k|]; [|done]. destruct H. cbn. exists k. by split_and!.
  - pose proof (rfind_text_spec query content) as H.
    destruct (rfind_text query content) as [k|]; [|done]. destruct H. cbn. exists k. by split_and!.
Qed.

Lemma search_lines_found ls frames start query direction : ls <> [] ->
  exists r, search_lines_with_frames ls frames start query direction = Ok r
  /\ match r with
     | None => forall i j, i < length ls -> ~ occurs_at query (row_content ls frames i) j
     | Some (p, w) => line p < length ls
         /\ (exists at_, occurs_at query (row_content ls frames (line p)) at_
             /\ (forall j, occurs_at query (row_content ls frames (line p)) j ->
                 match direction with Forward => at_ <= j | Backward => j <= at_ end)
             /\ column p = frame_origin frames (line p)
                           + terminal_text_width (take at_ (row_content ls frames (line p)))
             /\ w = terminal_text_width query)
         /\ forall i j, i < length ls -> occurs_at query (row_content ls frames i) j ->
            search_distance (length ls) (Nat.min start (length ls - 1)) direction (line p)
            <= search_distance (length ls) (Nat.min start (length ls - 1)) direction i
     end.
Proof.
  intros Hls. set (n := length ls). set (s0 := Nat.min start (n - 1)).
  assert (Hs0 : s0 < n) by (subst s0 n; destruct ls; [done|cbn; lia]).
  assert (Hvisit := fun k i => search_indices_lookup n s0 direction k i Hs0).
  destruct (search_rows_spec ls frames query direction (search_indices n s0 direction)) as (r & Hr & Hspec).
  { intros i [k Hk]%list_elem_of_lookup. by apply Hvisit in Hk as [? _]. }
  exists r. split.
  { unfold search_lines_with_frames. destruct ls; [done|]. exact Hr. }
  assert (Hrow : forall i, i < n -> exists row, ls !! i = Some row
            /\ row_content ls frames i = drop (frame_origin frames i) row).
  { intros i Hi. destruct (lookup_lt_is_Some_2 ls i Hi) as [row E]. exists row. split; [done|].
    unfold row_content. by rewrite E. }
  destruct r as [[p w]|].
  - destruct Hspec as (k & i & row & Hk & Hi & Hf & Hbefore).
    apply Hvisit in Hk as [Hin ->].
    pose proof (search_row_spec frames query direction i row) as H. cbn zeta in H. rewrite Hf in H.
    destruct H as (at_ & Hat & Hnear & <- & Hcol & Hw).
    destruct (Hrow (line p) Hin) as (row' & E & Hcontent). rewrite Hi in E. injection E as [= <-].
    rewrite Hcontent. split; [done|]. split; [by exists at_|].
    intros i j Hi' Hocc. destruct (Hrow i Hi') as (row' & E & Hcontent'). rewrite Hcontent' in Hocc.
    apply Nat.le_ngt. intros Hlt.
    pose proof (search_row_spec frames query direction i row') as H. cbn zeta in H.
    rewrite (Hbefore _ i row' Hlt (proj2 (Hvisit _ i) (conj Hi' eq_refl)) E) in H. by eapply H.
  - intros i j Hi Hocc. destruct (Hrow i Hi) as (row & E & Hcontent). rewrite Hcontent in Hocc.
    pose proof (search_row_spec frames query direction i row) as H. cbn zeta in H.
    rewrite (Hspec i row) in H; [by eapply H| |done].
    apply list_elem_of_lookup. eexists. by apply Hvisit.
Qed.

End Search.

(** ** Commands *)

Section Commands.
Context {UT : UnicodeTables} {TT : TerminalText}.

Inductive copy_command :=
| KeyAction (a : CopyModeKeyAction)
| ResizeRows (rows : nat)
| ScrollBy (delta : Z)
| MoveBy (line_delta column_delta : Z)
| Search (query : text) (direction : SearchDirection)
| SelectRange (start end_ : CopyPosition)
| SelectWord (p : CopyPosition)
| ClearSelection.

(** A command; an error leaves the buffer as it is. *)
Definition copy_step (c : copy_command) (b : CopyBuffer) : result CopyBuffer :=
  match c with
  | KeyAction a => fst <$> apply_key_action a b
  | ResizeRows rows => resize_viewport_rows rows b
  | ScrollBy delta => scroll_by delta b
  | MoveBy dl dc => Ok (move_cursor_by dl dc b)
  | Search query direction => fst <$> search query direction b
  | SelectRange s e => select_range s e b
  | SelectWord p => select_word_at p b
  | ClearSelection => Ok (clear_selection b)
  end.
Fixpoint run_copy (cmds : list copy_command) (b : CopyBuffer) : result CopyBuffer :=
  match cmds with
  | [] => Ok b
  | c :: cmds =>
      match copy_step c b with
      | Ok b => run_copy cmds b
      | Err _ => run_copy cmds b
      | Panic => Panic
      end
  end.

Definition is_search (c : copy_command) : bool := match c with Search _ _ => true | _ => false end.

(** The effect of a step: it may only fail with an error, keeps the text, and
    keeps the cursor visible unless it searches. *)
Definition step_keeps (c : copy_command) (b : CopyBuffer) (r : result CopyBuffer) : Prop :=
  match r with
  | Ok b' => copy_ok b' /\ lines b' = lines b
             /\ (is_search c = false -> cursor_visible b -> cursor_visible b')
  | Err _ => True
  | Panic => False
  end.

Lemma keeps_step c b b' : keeps_view b b' -> step_keeps c b (Ok b').
Proof. intros (? & [] & ?). by split_and!. Qed.

Lemma select_range_keeps c s e b : copy_ok b -> step_keeps c b (select_range s e b).
Proof.
  intros Hb. unfold select_range, validate_position.
  destruct (lines b !! line s) eqn:Es; [|done]. destruct (lines b !! line e) eqn:Ee; [|done]. cbn.
  apply lookup_lt_Some in Es, Ee. split_and!; [|done|done].
  apply set_selection_ok; [done|intros p q [= <- <-]; unfold line_ok; lia|apply Hb].
Qed.

Lemma resize_keeps c rows b : copy_ok b -> step_keeps c b (resize_viewport_rows rows b).
Proof.
  intros Hb. unfold resize_viewport_rows. destruct (Nat.eqb_spec rows 0); [done|].
  set (b1 := {| lines := lines b |}).
  assert (Hb1 : copy_ok b1).
  { constructor; subst b1; cbn; [lia|apply Hb|apply Hb|lia|exact (clamp_position_ok b _)| |].
    - intros s e. destruct (selection b) as [[s' e']|]; [|done]. intros [= <- <-].
      split; exact (clamp_position_ok b _).
    - intros a. destruct (selection_anchor b); [|done]. intros [= <-]. exact (clamp_position_ok b _). }
  split_and!.
  - by apply update_selection_ok, keep_visible_ok.
  - rewrite (sp_lines _ _ (same_page_update _)). by rewrite (sp_lines _ _ (same_page_keep _)).
  - intros _ _. apply update_selection_visible, keep_visible_visible, Hb1.
Qed.

Lemma search_keeps query direction b : copy_ok b ->
  step_keeps (Search query direction) b (fst <$> search query direction b).
Proof.
  intros Hb. unfold search. case_bool_decide; [done|].
  destruct (decide (lines b = [])) as [E|E].
  { rewrite E. cbn. by split_and!. }
  destruct (search_lines_found (lines b) (log_frames b) (scroll_top b) query direction E)
    as ([[p w]|] & -> & Hr); cbn; [|by split_and!].
  destruct Hr as [Hp _]. split_and!; [|done|done].
  apply set_selection_ok; [apply set_view_ok; [done|lia|apply Hb]| |].
  - intros a a' [= <- <-]. unfold line_ok; cbn. lia.
  - intros a. apply Hb.
Qed.

Lemma copy_step_keeps c b : copy_ok b -> step_keeps c b (copy_step c b).
Proof.
  intros Hb. destruct c; cbn [copy_step].
  - destruct (key_action_ok a b Hb) as (b' & o & -> & H). by apply keeps_step.
  - by apply resize_keeps.
  - destruct (scroll_by_ok delta b Hb) as (b' & -> & H). by apply keeps_step, shows_keeps.
  - by apply keeps_step, shows_keeps, move_by_ok.
  - by apply search_keeps.
  - by apply select_range_keeps.
  - unfold select_word_at. case_match; [by apply select_range_keeps|].
    case_match; [|done]. case_match. by apply select_range_keeps.
  - cbn. split_and!; [|done|done]. by apply set_selection_ok.
Qed.

Lemma run_copy_keeps cmds : forall b, copy_ok b ->
  exists b', run_copy cmds b = Ok b' /\ copy_ok b' /\ lines b' = lines b
    /\ (forallb (fun c => negb (is_search c)) cmds = true -> cursor_visible b -> cursor_visible b').
Proof.
  induction cmds as [|c cmds IH]; intros b Hb; [by exists b|]. cbn [run_copy forallb].
  pose proof (copy_step_keeps c b Hb) as Hc. destruct (copy_step c b) as [b1|e|]; [|..|done].
  - destruct Hc as (H1 & H2 & H3). destruct (IH b1 H1) as (b' & -> & H4 & H5 & H6).
    exists b'. split_and!; [done..|congruence|]. intros [Hs%negb_true_iff ?]%andb_true_iff Hv. auto.
  - destruct (IH b Hb) as (b' & -> & H4 & H5 & H6). exists b'. split_and!; [done..|].
    intros [_ ?]%andb_true_iff. auto.
Qed.

Lemma new_copy_ok ls rows top at_ b : (Z.of_nat (length ls) <= isize_MAX)%Z ->
  new_copy_buffer ls rows top at_ = Ok b -> copy_ok b /\ lines b = ls /\ cursor_visible b.
Proof.
  intros Hn. unfold new_copy_buffer. destruct (Nat.eqb_spec rows 0); [done|]. intros [= <-].
  set (b0 := {| lines := ls |}).
  assert (Hb : copy_ok (set_view (scroll_top b0) (clamp_position b0 at_) b0)).
  { constructor; cbn; [lia|done|by rewrite length_replicate|lia|exact (clamp_position_ok b0 _)|done|done]. }
  split_and!; [by apply keep_visible_ok| |apply keep_visible_visible, Hb].
  by rewrite (sp_lines _ _ (same_page_keep _)).
Qed.

End Commands.

(** ** Movement over clusters *)

Section Clusters.
Context {UT : UnicodeTables} {TT : TerminalText}.

Definition clusters_width (l : list text) : nat := sum_list (grapheme_width <$> l).

Lemma clusters_width_app l k : clusters_width (l ++ k) = clusters_width l + clusters_width k.
Proof. unfold clusters_width. by rewrite fmap_app, sum_list_with_app. Qed.

(** The cluster that covers a column. *)
Lemma grapheme_at_app l1 g l2 : forall col target,
  col + clusters_width l1 <= target < col + clusters_width l1 + grapheme_width g ->
  grapheme_at (l1 ++ g :: l2) col target = Some (col + clusters_width l1, grapheme_width g).
Proof.
  induction l1 as [|h l1 IH]; intros col target Ht; cbn [app grapheme_at].
  - change (clusters_width []) with 0 in *. rewrite Nat.add_0_r in *.
    rewrite (proj2 (Nat.leb_le _ _)), (proj2 (Nat.ltb_lt _ _)) by lia. done.
  - assert (Hw : clusters_width (h :: l1) = grapheme_width h + clusters_width l1) by done.
    rewrite Hw in *. rewrite (proj2 (Nat.ltb_ge target _)) by lia. rewrite andb_false_r, IH by lia.
    f_equal. f_equal. lia.
Qed.

(** The column lies between two clusters of the cursor's line. *)
Definition on_boundary (b : CopyBuffer) : Prop :=
  exists row l1 l2, lines b !! line (cursor b) = Some row
    /\ terminal_graphemes row = l1 ++ l2 /\ column (cursor b) = clusters_width l1.

(** Before the end of a line, the cursor is at the start of a visible cluster. *)
Lemma visible_cluster l1 l2 : clusters_width l1 < clusters_width (l1 ++ l2) ->
  exists k1 g k2, l1 ++ l2 = k1 ++ g :: k2 /\ clusters_width k1 = clusters_width l1
    /\ 0 < grapheme_width g.
Proof.
  revert l1. induction l2 as [|g l2 IH]; intros l1 Hlt; [rewrite app_nil_r in Hlt; lia|].
  destruct (decide (grapheme_width g = 0)) as [Hg|Hg].
  - assert (Hw : clusters_width (l1 ++ [g]) = clusters_width l1)
      by (rewrite clusters_width_app; unfold clusters_width; cbn; lia).
    destruct (IH (l1 ++ [g])) as (k1 & h & k2 & He & Hk & Hh).
    { rewrite Hw, <- app_assoc. exact Hlt. }
    exists k1, h, k2. rewrite <- app_assoc in He. split_and!; [done|lia|done].
  - exists l1, g, l2. split_and!; [done..|lia].
Qed.

Definition at_buffer_end (b : CopyBuffer) : Prop :=
  length (lines b) <= line (cursor b) + 1
  /\ line_width b (line (cursor b)) <= column (cursor b).

Lemma cluster_at_cursor b : on_boundary b -> column (cursor b) < line_width b (line (cursor b)) ->
  exists row k1 g k2, lines b !! line (cursor b) = Some row
    /\ terminal_graphemes row = k1 ++ g :: k2 /\ column (cursor b) = clusters_width k1
    /\ 0 < grapheme_width g.
Proof.
  intros (row & l1 & l2 & Hrow & Hg & Hc) Hlt. unfold line_width in Hlt. rewrite Hrow in Hlt.
  cbn in Hlt. unfold terminal_text_width in Hlt. fold (clusters_width (terminal_graphemes row)) in Hlt.
  rewrite Hg, Hc in Hlt. destruct (visible_cluster _ _ Hlt) as (k1 & g & k2 & He & Hk & Hgw).
  exists row, k1, g, k2. split_and!; [done|congruence|lia|done].
Qed.

Lemma right_then_left b : on_boundary b -> ~ at_buffer_end b ->
  cursor (move_cursor_left_one (move_cursor_right_one b)) = cursor b
  /\ on_boundary (move_cursor_right_one b).
Proof.
  intros Hb Hend. unfold move_cursor_right_one.
  destruct (Nat.ltb_spec (column (cursor b)) (line_width b (line (cursor b)))) as [Hlt|Hge].
  - destruct (cluster_at_cursor b Hb Hlt) as (row & k1 & g & k2 & Hrow & Hg & Hc & Hw).
    rewrite Hrow. cbn [mbind option_bind]. unfold grapheme_at_column at 1 2.
    rewrite Hg, grapheme_at_app by lia. cbn [from_option fst snd]. rewrite Nat.add_0_l. split.
    + unfold move_cursor_left_one. cbn [set_column set_view cursor column line lines].
      rewrite (proj2 (Nat.ltb_lt 0 (clusters_width k1 + grapheme_width g))) by lia. rewrite Hrow. cbn [mbind option_bind].
      unfold grapheme_at_column. rewrite Hg, grapheme_at_app by lia. cbn. rewrite <- Hc. by destruct (cursor b).
    + exists row, (k1 ++ [g]), k2. rewrite <- app_assoc. split_and!; [done..|].
      rewrite clusters_width_app. change (clusters_width [g]) with (grapheme_width g + 0).
      cbn [set_column set_view cursor column]. lia.
  - destruct Hb as (row & l1 & l2 & Hrow & Hg & Hc).
    assert (Hw : column (cursor b) = line_width b (line (cursor b))).
    { apply Nat.le_antisymm; [|done]. unfold line_width. rewrite Hrow. cbn. unfold terminal_text_width.
      rewrite Hg, Hc. fold (clusters_width (l1 ++ l2)). rewrite clusters_width_app. lia. }
    destruct (Nat.ltb_spec (line (cursor b) + 1) (length (lines b))) as [Hn|Hn];
      [|destruct Hend; by split].
    split.
    + unfold move_cursor_left_one. cbn [set_view cursor column line lines].
      rewrite Nat.ltb_irrefl, (proj2 (Nat.ltb_lt 0 (line (cursor b) + 1))) by lia. cbn [cursor]. rewrite Nat.add_sub.
      change (line_width (set_view _ _ b) ?i) with (line_width b i). rewrite <- Hw. by destruct (cursor b).
    + destruct (lookup_lt_is_Some_2 _ _ Hn) as [next Hnext].
      exists next, [], (terminal_graphemes next). by split_and!.
Qed.

End Clusters.

(** ** Source carriers *)

Lemma split_once_char_app c a b : c ∉ a -> split_once_char c (a ++ c :: b) = Some (a, b).
Proof.
  induction a as [|d a IH]; intros Ha; cbn [app split_once_char]; [by rewrite Z.eqb_refl|].
  rewrite (proj2 (Z.eqb_neq d c)) by set_solver. by rewrite IH by set_solver.
Qed.
Lemma strip_text_app p s : strip_text p (p ++ s) = Some s.
Proof. induction p as [|c p IH]; [done|]. cbn. by rewrite Z.eqb_refl. Qed.

Definition escape_group (g : text) : text :=
  replace_char 58 (chars "%3A") (replace_char 37 (chars "%25") g).

(** One character at a time. *)
Lemma escape_group_cons c g :
  escape_group (c :: g)
  = (if (c =? 37)%Z then chars "%25" else if (c =? 58)%Z then chars "%3A" else [c])
    ++ escape_group g.
Proof.
  unfold escape_group, replace_char. cbn [mbind list_bind].
  destruct (Z.eqb_spec c 37) as [->|?]; [done|]. cbn [app list_bind mbind].
  by destruct (Z.eqb_spec c 58).
Qed.

Lemma escape_group_clean g : 58%Z ∉ escape_group g.
Proof.
  induction g as [|c g IH]; [set_solver|]. rewrite escape_group_cons.
  destruct (Z.eqb_spec c 37); [cbn; set_solver|]. destruct (Z.eqb_spec c 58); [cbn; set_solver|].
  set_solver.
Qed.

Lemma escape_group_inj g h : escape_group g = escape_group h -> g = h.
Proof.
  revert h. induction g as [|c g IH]; intros [|d h]; rewrite ?escape_group_cons; [done|..].
  1,2: repeat case_match; by intros [=].
  destruct (Z.eqb_spec c 37), (Z.eqb_spec d 37), (Z.eqb_spec c 58), (Z.eqb_spec d 58); try lia;
    intros Heq; cbn in Heq; simplify_eq; f_equal; auto.
Qed.

Lemma digits_value_chars s : forall acc v, digits_value acc s = Some v ->
  Forall (fun c => 48 <= c <= 57)%Z (chars s).
Proof.
  unfold chars. induction s as [|a s IH]; intros acc v H; cbn; [constructor|].
  cbn in H. destruct (digit_value a) as [d|] eqn:Hd; [|done]. constructor; [|by eapply IH].
  unfold digit_value in Hd. destruct (_ && _)%bool eqn:E in Hd; [|done].
  apply andb_true_iff in E as [?%N.leb_le ?%N.leb_le]. unfold Ascii.nat_of_ascii. lia.
Qed.

Lemma chars_inj s t : chars s = chars t -> s = t.
Proof.
  revert t. unfold chars. induction s as [|a s IH]; intros [|d t]; cbn; [done..|].
  intros [= Ha Hs]. f_equal; [|by apply IH].
  apply Nat2Z.inj in Ha. by rewrite <- (Ascii.ascii_nat_embedding a), Ha, Ascii.ascii_nat_embedding.
Qed.

Lemma index_text_digits n : Forall (fun c => 48 <= c <= 57)%Z (index_text n).
Proof. eapply digits_value_chars, digits_value_pretty. Qed.
Lemma not_in_index c n : ~ (48 <= c <= 57)%Z -> c ∉ index_text n.
Proof. intros Hc H. exact (Hc (proj1 (Forall_forall _ _) (index_text_digits n) c H)). Qed.
Lemma index_text_inj n m : index_text n = index_text m -> n = m.
Proof.
  intros H%chars_inj. apply Nat2N.inj. apply (f_equal (digits_value 0)) in H.
  unfold usize_to_string, u64_to_string in H. rewrite !digits_value_pretty in H. congruence.
Qed.

Lemma split_last (c : Z) (a b a' b' : text) : c ∉ b -> c ∉ b' -> a ++ c :: b = a' ++ c :: b' -> a = a' /\ b = b'.
Proof.
  intros Hb Hb' H%(f_equal reverse). rewrite !reverse_app, !reverse_cons, <- !app_assoc in H.
  apply (f_equal (split_once_char c)) in H. cbn [app] in H.
  rewrite !split_once_char_app in H by (by rewrite elem_of_reverse).
  injection H as [= H1 H2]. split; by apply (inj reverse).
Qed.

Lemma identity_clean g i : 58%Z ∉ copy_source_identity_in_group g i.
Proof.
  unfold copy_source_identity_in_group. fold (escape_group g). rewrite !elem_of_app.
  intros [H|[H|H]]; [by eapply escape_group_clean|cbn in H; set_solver|].
  eapply not_in_index; [|exact H]. lia.
Qed.
Lemma identity_inj g i h j :
  copy_source_identity_in_group g i = copy_source_identity_in_group h j -> g = h /\ i = j.
Proof.
  intros H. apply (split_last 47) in H as [H1 H2].
  - split; [by apply escape_group_inj|by apply index_text_inj].
  - apply not_in_index. lia.
  - apply not_in_index. lia.
Qed.

(** ** Copy sources *)

(** Two sources with one identity say the same. *)
Definition sources_agree (l : list TerminalCopySource) : Prop :=
  forall s t, s ∈ l -> t ∈ l -> id s = id t ->
    generation s = generation t /\ source_text s = source_text t.

Lemma validate_sources_spec l : forall seen, sources_agree seen ->
  validate_sources seen l = Ok tt <-> sources_agree (seen ++ l).
Proof.
  induction l as [|s l IH]; intros seen Hseen; cbn [validate_sources]; [by rewrite app_nil_r|].
  assert (Hperm : sources_agree ((s :: seen) ++ l) <-> sources_agree (seen ++ s :: l))
    by (unfold sources_agree; split; intros H u v Hu Hv; apply H; set_solver).
  assert (Hcons : forall t, t ∈ seen -> id t = id s -> sources_agree (s :: seen)
                    <-> generation t = generation s /\ source_text t = source_text s).
  { intros t Ht Hid. split; [intros H; apply H; set_solver|]. intros [Hg Htx] u v.
    rewrite !elem_of_cons. intros [->|Hu] [->|Hv] E; [done|..].
    - destruct (Hseen t v Ht Hv); [congruence|]. split; congruence.
    - destruct (Hseen u t Hu Ht); [congruence|]. split; congruence.
    - by apply Hseen. }
  destruct (list_find _ seen) as [[i t]|] eqn:E.
  - apply list_find_Some in E as (Ht%list_elem_of_lookup_2 & Hid & _).
    destruct (decide (generation t = generation s /\ source_text t = source_text s)) as [[Hg Htx]|Hn].
    + rewrite !bool_decide_eq_true_2 by done. cbn [negb orb]. rewrite IH by (by eapply Hcons). exact Hperm.
    + split; [|intros H; destruct Hn; apply H; set_solver].
      destruct (decide (generation t = generation s)) as [Hg|Hg];
        [rewrite (bool_decide_eq_true_2 _ Hg)|rewrite (bool_decide_eq_false_2 _ Hg); done].
      rewrite bool_decide_eq_false_2 by naive_solver. done.
  - apply list_find_None in E. rewrite Forall_forall in E. rewrite IH; [exact Hperm|].
    intros u v. rewrite !elem_of_cons. intros [->|Hu] [->|Hv] Huv; [done| | |by apply Hseen].
    + by destruct (E v Hv).
    + by destruct (E u Hu).
Qed.

(** ** Paste buffers as a stack of writes *)

Module PasteSpec.
Import Paste.

(** What was stored under a name; the newest write is first. *)
Record written := { w_content : text; w_time : Z; w_origin : option text }.
Notation stack := (list (text * written)).

Definition entry_written (e : PasteBufferEntry) : written :=
  {| w_content := content e; w_time := created_at_unix_seconds e; w_origin := origin e |}.
Definition forget (name : text) (l : stack) : stack := filter (fun p => p.1 <> name) l.
Definition recall (name : text) (l : stack) : option written :=
  (fun p => p.2.2) <$> list_find (fun p => p.1 = name) l.

Inductive paste_command :=
| Set_ (now : Z) (name t : text) (o : option text)
| Create (now : Z) (name t : text) (o : option text)
| Get (name : text)
| Delete (name : text)
| MostRecentName
| DeleteMostRecent
| List_.
Inductive paste_output :=
| Failed (e : MuxError) | Panicked | Done (changed : bool) | Named (n : option text)
| Contains (t : option text) | Listed (l : list PasteBuffer).

Definition paste_step (c : paste_command) (b : PasteBuffers) : PasteBuffers * paste_output :=
  match c with
  | Set_ now n t o =>
      match set_with_origin now n t o b with
      | Ok b => (b, Done true) | Err e => (b, Failed e) | Panic => (b, Panicked) end
  | Create now n t o =>
      match create_with_origin now n t o b with
      | Ok (b, created) => (b, Done created) | Err e => (b, Failed e) | Panic => (b, Panicked) end
  | Get n => (b, Contains (get n b))
  | Delete n => let '(b, deleted) := delete n b in (b, Done deleted)
  | MostRecentName => (b, Named (most_recent_name b))
  | DeleteMostRecent => let '(b, n) := delete_most_recent b in (b, Named n)
  | List_ => (b, Listed (list_buffers b))
  end.

Definition valid_name (n : text) : bool := negb (bool_decide (n = [])) && forallb is_name_byte n.
Definition name_invalid : paste_output := Failed (invalid_args "paste buffer name is invalid").
Definition too_long : paste_output :=
  Failed (invalid_args "paste buffer content exceeds configured byte limit").
Definition listing (p : text * written) : PasteBuffer :=
  {| pb_name := p.1; pb_bytes := blen (w_content p.2); pb_created := w_time p.2;
     pb_origin := w_origin p.2; pb_preview := paste_buffer_preview (w_content p.2) |}.
Definition name_leb (p q : text * written) : bool := negb (text_ltb q.1 p.1).

(** A write goes on top, after an older one under its name is taken out. *)
Definition spec_step (limit : Z) (c : paste_command) (l : stack) : stack * paste_output :=
  let write now n t o := (n, {| w_content := t; w_time := now; w_origin := o |}) :: forget n l in
  match c with
  | Set_ now n t o =>
      if negb (valid_name n) then (l, name_invalid)
      else if (limit <? blen t)%Z then (l, too_long) else (write now n t o, Done true)
  | Create now n t o =>
      if negb (valid_name n) then (l, name_invalid)
      else match recall n l with
           | Some _ => (l, Done false)
           | None => if (limit <? blen t)%Z then (l, too_long) else (write now n t o, Done true)
           end
  | Get n => (l, Contains (w_content <$> recall n l))
  | Delete n => (forget n l, Done (bool_decide (is_Some (recall n l))))
  | MostRecentName => (l, Named (fst <$> head l))
  | DeleteMostRecent => (tail l, Named (fst <$> head l))
  | List_ => (l, Listed (listing <$> in_order name_leb l))
  end.

Fixpoint run {S} (step : paste_command -> S -> S * paste_output) (cmds : list paste_command) (s : S)
    : list paste_output :=
  match cmds with
  | [] => []
  | c :: cmds => let '(s, o) := step c s in o :: run step cmds s
  end.

(** *** The order of names *)

Lemma text_ltb_irrefl a : text_ltb a a = false.
Proof. induction a as [|x a IH]; [done|]. cbn. by rewrite Z.ltb_irrefl, Z.eqb_refl, IH. Qed.
Lemma text_ltb_cons x a y b :
  text_ltb (x :: a) (y :: b) = true <-> (x < y)%Z \/ x = y /\ text_ltb a b = true.
Proof. cbn. by rewrite orb_true_iff, andb_true_iff, Z.ltb_lt, Z.eqb_eq. Qed.
Lemma text_ltb_trans a b c : text_ltb a b = true -> text_ltb b c = true -> text_ltb a c = true.
Proof.
  revert b c. induction a as [|x a IH]; intros [|y b] [|z c]; try done.
  rewrite !text_ltb_cons. intros [?|[-> ?]] [?|[-> ?]]; [left; lia|left; lia|left; lia|right; eauto].
Qed.
Lemma text_ltb_total a b : text_ltb a b = false -> text_ltb b a = false -> a = b.
Proof.
  revert b. induction a as [|x a IH]; intros [|y b]; try done.
  rewrite <- !not_true_iff_false, !text_ltb_cons. intros H1 H2.
  assert (x = y) as -> by lia. f_equal. apply IH; apply not_true_iff_false; naive_solver.
Qed.

(** *** Entries in the order of names *)

Definition name_lt {A} (p q : text * A) : Prop := text_ltb p.1 q.1 = true.

Lemma insert_entry_perm n e l : StronglySorted name_lt l ->
  insert_entry n e l ≡ₚ (n, e) :: remove_entry n l.
Proof.
  intros Hl. induction Hl as [|[m d] l Hl IH Hall]; [done|]. cbn [insert_entry].
  assert (Hfresh : n = m \/ text_ltb n m = true -> remove_entry n l = l).
  { intros Hnm. apply filter_all. rewrite Forall_forall in Hall |- *. intros q Hq Heq. specialize (Hall q Hq).
    unfold name_lt in Hall; cbn in Hall. assert (Hn : text_ltb n q.1 = true).
    { destruct Hnm as [<-|Hlt]; [done|by eapply text_ltb_trans]. }
    by rewrite Heq, text_ltb_irrefl in Hn. }
  unfold remove_entry in *. rewrite filter_cons. case_bool_decide as Hm; cbn [fst].
  - rewrite decide_False by naive_solver. by rewrite Hfresh by auto.
  - rewrite decide_True by done. destruct (text_ltb n m) eqn:E; [by rewrite Hfresh by auto|].
    rewrite IH. apply Permutation_swap.
Qed.

Lemma insert_entry_sorted n e l : StronglySorted name_lt l ->
  StronglySorted name_lt (insert_entry n e l).
Proof.
  intros Hl. induction Hl as [|[m d] l Hl IH Hall]; [repeat constructor|]. cbn [insert_entry].
  case_bool_decide as Hm; [subst; by constructor|].
  destruct (text_ltb n m) eqn:E.
  - constructor; [by constructor|]. constructor; [done|].
    eapply Forall_impl; [exact Hall|]. intros q. by apply text_ltb_trans.
  - constructor; [done|]. rewrite Forall_forall in Hall |- *. intros q Hq.
    rewrite insert_entry_perm, elem_of_cons in Hq by done. destruct Hq as [->|Hq].
    + unfold name_lt; cbn. destruct (text_ltb m n) eqn:E'; [done|]. by destruct Hm; apply text_ltb_total.
    + apply Hall. by apply list_elem_of_filter in Hq as [_ ?].
Qed.

Lemma sorted_names {A} (l : list (text * A)) p q : StronglySorted name_lt l ->
  p ∈ l -> q ∈ l -> p.1 = q.1 -> p = q.
Proof.
  intros Hl. induction Hl as [|r l Hl IH Hall]; [set_solver|]. rewrite Forall_forall in Hall.
  rewrite !elem_of_cons. intros [->|Hp] [->|Hq] Hpq; [done|..|by apply IH].
  - specialize (Hall q Hq). unfold name_lt in Hall. rewrite Hpq, text_ltb_irrefl in Hall. done.
  - specialize (Hall p Hp). unfold name_lt in Hall. rewrite <- Hpq, text_ltb_irrefl in Hall. done.
Qed.

Lemma get_entry_elem l n e : StronglySorted name_lt l ->
  get_entry n l = Some e <-> (n, e) ∈ l.
Proof.
  intros Hl. split.
  - clear Hl. induction l as [|[m d] l IH]; [done|]. cbn [get_entry].
    case_bool_decide as Hm; [intros [= ->]; subst; set_solver|set_solver].
  - induction Hl as [|[m d] l Hl IH Hall]; [set_solver|]. cbn [get_entry]. intros Hin.
    case_bool_decide as Hm.
    + f_equal. assert (H : (m, d) = (n, e)) by (apply (sorted_names ((m, d) :: l)); [by constructor|set_solver|done|done]).
      by injection H.
    + apply IH. set_solver.
Qed.

Lemma in_order_sorted (l : stack) : (forall p q, p ∈ l -> q ∈ l -> p.1 = q.1 -> p = q) -> NoDup l ->
  StronglySorted name_lt (in_order name_leb l).
Proof.
  unfold in_order. induction l as [|p l IH]; intros Hinj Hnd; [constructor|]. cbn [foldr].
  apply NoDup_cons in Hnd as [Hp Hnd].
  specialize (IH ltac:(intros; apply Hinj; set_solver) Hnd).
  assert (Hsub : forall q, q ∈ foldr (insert_sorted name_leb) [] l -> q.1 <> p.1).
  { intros q Hq. rewrite (in_order_perm name_leb l) in Hq. intros E. destruct Hp.
    by rewrite <- (Hinj q p) by set_solver. }
  clear Hinj Hp Hnd. induction IH as [|q k Hk IHk Hall]; [repeat constructor|]. cbn [insert_sorted].
  unfold name_leb at 1. destruct (text_ltb q.1 p.1) eqn:E; cbn [negb].
  - constructor; [apply IHk; set_solver|]. rewrite Forall_forall in Hall |- *. intros r Hr.
    rewrite insert_sorted_perm, elem_of_cons in Hr. destruct Hr as [->|Hr]; [done|by apply Hall].
  - assert (Hpq : name_lt p q).
    { unfold name_lt. destruct (text_ltb p.1 q.1) eqn:E'; [done|].
      destruct (Hsub q); [set_solver|by apply text_ltb_total]. }
    constructor; [by constructor|]. constructor; [done|]. eapply Forall_impl; [exact Hall|].
    intros r. by apply text_ltb_trans.
Qed.

(** *** The most recent entry *)

Lemma max_by_sequence_spec l :
  match max_by_sequence l with
  | Some p => p ∈ l /\ forall q, q ∈ l -> (sequence q.2 <= sequence p.2)%Z
  | None => l = []
  end.
Proof.
  unfold max_by_sequence. induction l as [|p l IH] using rev_ind; [done|]. rewrite foldl_app. cbn [foldl].
  destruct (foldl _ None l) as [r|]; [|subst; cbn; set_solver].
  destruct IH as [Hr Hmax]. destruct (Z.leb_spec (sequence r.2) (sequence p.2)).
  - split; [set_solver|]. intros q [Hq| ->%list_elem_of_singleton]%elem_of_app; [|done].
    specialize (Hmax q Hq). lia.
  - split; [set_solver|]. intros q [Hq| ->%list_elem_of_singleton]%elem_of_app; [auto|lia].
Qed.

Definition newer (p q : text * PasteBufferEntry) : Prop := (sequence q.2 < sequence p.2)%Z.

Lemma max_is_newest ents l : ents ≡ₚ l -> StronglySorted newer ents -> max_by_sequence l = head ents.
Proof.
  intros Hp Hs. pose proof (max_by_sequence_spec l) as Hmax.
  destruct (max_by_sequence l) as [p|].
  - destruct Hmax as [Hin Hmax]. rewrite <- Hp in Hin. destruct Hs as [|h ents Hs Hall]; [set_solver|].
    apply elem_of_cons in Hin as [->|Hin]; [done|]. rewrite Forall_forall in Hall.
    specialize (Hall p Hin). specialize (Hmax h). rewrite <- Hp in Hmax. unfold newer in Hall.
    specialize (Hmax ltac:(set_solver)). lia.
  - subst. apply Permutation_nil_r in Hp. by subst.
Qed.

(** *** The simulation *)

Definition stack_of (ents : list (text * PasteBufferEntry)) : stack :=
  (fun p => (p.1, entry_written p.2)) <$> ents.

(** The stack is the buffers from the newest to the oldest; [room] more
    writes can be numbered. *)
Record simulates (limit : Z) (room : nat) (b : PasteBuffers) (l : stack) : Prop := {
  sm_limit : limit_bytes b = limit;
  sm_names : StronglySorted name_lt (buffers b);
  sm_room : (next_sequence b + Z.of_nat room <= u64_MAX)%Z;
  sm_stack : exists ents, l = stack_of ents /\ ents ≡ₚ buffers b /\ StronglySorted newer ents
    /\ Forall (fun p => sequence p.2 < next_sequence b)%Z ents;
}.

Lemma simulates_mono limit r r' b l : r' <= r -> simulates limit r b l -> simulates limit r' b l.
Proof. intros Hr []. constructor; [done|done|lia|done]. Qed.

Lemma stack_forget n ents : forget n (stack_of ents) = stack_of (remove_entry n ents).
Proof.
  unfold forget, stack_of, remove_entry. induction ents as [|[m e] ents IH]; [done|].
  cbn [fmap list_fmap]. rewrite !filter_cons. cbn. case_decide; [cbn; by f_equal|done].
Qed.

Lemma strongly_sorted_filter {A} (R : A -> A -> Prop) (P : A -> Prop) `{!forall x, Decision (P x)} l :
  StronglySorted R l -> StronglySorted R (filter P l).
Proof.
  induction 1 as [|x l Hl IH Hall]; [constructor|]. rewrite filter_cons. case_decide; [|done].
  constructor; [done|]. rewrite Forall_forall in Hall |- *. intros y [_ Hy]%list_elem_of_filter. by apply Hall.
Qed.

Lemma recall_get limit r b l n : simulates limit r b l ->
  recall n l = entry_written <$> get_entry n (buffers b).
Proof.
  intros [_ Hs _ (ents & -> & Hp & _ & _)]. unfold recall.
  destruct (list_find _ (stack_of ents)) as [[i [m w]]|] eqn:E.
  - apply list_find_Some in E as (Hi & Hm & _). cbn in Hm. subst m.
    apply list_elem_of_lookup_2, list_elem_of_fmap in Hi as ([m e] & [= <- ->] & He).
    rewrite Hp in He. by rewrite (proj2 (get_entry_elem _ _ e Hs) He).
  - destruct (get_entry n (buffers b)) as [e|] eqn:He; [|done].
    apply get_entry_elem in He; [|done]. rewrite <- Hp in He. apply list_find_None in E.
    rewrite Forall_forall in E. destruct (E (n, entry_written e)); [|done].
    apply list_elem_of_fmap. by exists (n, e).
Qed.

Lemma simulates_store limit r b l now n t o : simulates limit (S r) b l ->
  simulates limit r (store now n t o b)
    ((n, {| w_content := t; w_time := now; w_origin := o |}) :: forget n l).
Proof.
  intros [Hl Hs Hr (ents & -> & Hp & Hnew & Hseq)].
  assert (Hsat : sat_add u64_MAX (next_sequence b) 1 = (next_sequence b + 1)%Z)
    by (unfold sat_add; lia).
  constructor; cbn [store limit_bytes buffers next_sequence]; [done|by apply insert_entry_sorted|rewrite Hsat; lia|].
  rewrite Hsat, stack_forget.
  exists ((n, {| content := t; created_at_unix_seconds := now; sequence := next_sequence b; origin := o |})
            :: remove_entry n ents). split_and!; [done|..].
  - rewrite insert_entry_perm by done. constructor. unfold remove_entry. by rewrite Hp.
  - constructor; [by apply strongly_sorted_filter|]. unfold newer; cbn.
    rewrite Forall_forall in Hseq |- *. intros q [_ Hq]%list_elem_of_filter. by apply Hseq.
  - constructor; [cbn; lia|]. rewrite Forall_forall in Hseq |- *.
    intros q [_ Hq]%list_elem_of_filter. specialize (Hseq q Hq). cbn in Hseq. lia.
Qed.

Lemma simulates_delete limit r b l n : simulates limit r b l ->
  simulates limit r (delete n b).1 (forget n l)
  /\ (delete n b).2 = bool_decide (is_Some (recall n l)).
Proof.
  intros Hsim. rewrite (recall_get _ _ _ _ n Hsim). destruct Hsim as [Hl Hs Hr (ents & -> & Hp & Hnew & Hseq)].
  unfold delete. rewrite stack_forget. destruct (get_entry n (buffers b)) as [e|] eqn:He; cbn [fst snd].
  - split; [|by rewrite bool_decide_eq_true_2]. constructor; cbn; [done|by apply strongly_sorted_filter|done|].
    exists (remove_entry n ents). split_and!; [done|unfold remove_entry; by rewrite Hp|by apply strongly_sorted_filter|].
    rewrite Forall_forall in Hseq |- *. intros q [_ Hq]%list_elem_of_filter. by apply Hseq.
  - split; [|by rewrite bool_decide_eq_false_2 by (by intros [? [=]])].
    assert (remove_entry n ents = ents) as ->.
    { apply filter_all, Forall_forall. intros [m e] Hq Hm. cbn in Hm. subst m. rewrite Hp in Hq.
      by rewrite (proj2 (get_entry_elem _ _ e Hs) Hq) in He. }
    constructor; [done..|]. by exists ents.
Qed.

Lemma recent_head limit r b l : simulates limit r b l -> most_recent_name b = fst <$> head l.
Proof.
  intros [_ _ _ (ents & -> & Hp & Hnew & _)]. unfold most_recent_name.
  rewrite (max_is_newest ents) by done. by destruct ents.
Qed.

Lemma forget_head limit r b n w l : simulates limit r b ((n, w) :: l) -> forget n ((n, w) :: l) = l.
Proof.
  intros [_ Hs _ (ents & He & Hp & Hnew & _)]. unfold forget. rewrite filter_cons, decide_False by (cbn; naive_solver).
  destruct ents as [|[m e] ents]; [done|]. cbn in He. injection He as [= <- -> ->].
  apply filter_all, Forall_forall. intros q (p & -> & Hq)%list_elem_of_fmap Hn. cbn in Hn.
  assert (p = (n, e)) as ->.
  { apply (sorted_names (buffers b)); [done|rewrite <- Hp; set_solver..|done]. }
  inversion Hnew as [|? ? _ Hall]. rewrite Forall_forall in Hall. specialize (Hall _ Hq).
  unfold newer in Hall. lia.
Qed.

Lemma stack_sorted l : StronglySorted name_lt l -> StronglySorted name_lt (stack_of l).
Proof.
  induction 1 as [|p k Hk IH Hall]; [constructor|]. constructor; [done|]. by apply Forall_fmap.
Qed.
Lemma names_distinct {A} (l : list (text * A)) : StronglySorted name_lt l -> NoDup l.
Proof.
  induction 1 as [|p k Hk IH Hall]; [constructor|]. constructor; [|done]. intros Hp.
  rewrite Forall_forall in Hall. specialize (Hall p Hp). unfold name_lt in Hall.
  by rewrite text_ltb_irrefl in Hall.
Qed.

Lemma listing_agrees limit r b l : simulates limit r b l ->
  list_buffers b = listing <$> in_order name_leb l.
Proof.
  intros [_ Hs _ (ents & -> & Hp & _ & _)].
  assert (Hb : StronglySorted name_lt (stack_of (buffers b))).
  { by apply stack_sorted. }
  assert (stack_of (buffers b) = in_order name_leb (stack_of ents)) as <-.
  { apply (StronglySorted_unique_strong name_lt); [|done|apply in_order_sorted|].
    - intros p q _ _ H1 H2. pose proof (text_ltb_trans _ _ _ H1 H2) as H. by rewrite text_ltb_irrefl in H.
    - intros p q Hpin Hqin. apply (sorted_names (stack_of (buffers b)) p q Hb);
        unfold stack_of; rewrite <- Hp; done.
    - unfold stack_of. rewrite Hp. by apply names_distinct.
    - rewrite in_order_perm. unfold stack_of. by rewrite Hp. }
  unfold list_buffers, stack_of. rewrite <- list_fmap_compose. done.
Qed.

Lemma valid_name_spec n :
  validate_paste_buffer_name n = if valid_name n then Ok tt
                                 else Err (invalid_args "paste buffer name is invalid").
Proof. unfold validate_paste_buffer_name, valid_name. case_bool_decide; cbn; [done|]. by destruct (forallb _ n). Qed.

Lemma step_simulates limit r c b l : simulates limit (S r) b l ->
  simulates limit r (paste_step c b).1 (spec_step limit c l).1
  /\ (paste_step c b).2 = (spec_step limit c l).2.
Proof.
  intros Hsim. assert (Hsame : simulates limit r b l) by (eapply simulates_mono; [|done]; lia).
  destruct c as [now n t o|now n t o|n|n| | |]; cbn [paste_step spec_step].
  - unfold set_with_origin. rewrite valid_name_spec. destruct (valid_name n); cbn; [|done].
    rewrite (sm_limit _ _ _ _ Hsim). destruct (limit <? blen t)%Z; [done|]. split; [by apply simulates_store|done].
  - unfold create_with_origin. rewrite valid_name_spec. destruct (valid_name n); cbn; [|done].
    rewrite (recall_get _ _ _ _ n Hsim). destruct (get_entry n (buffers b)); cbn; [done|].
    rewrite (sm_limit _ _ _ _ Hsim). destruct (limit <? blen t)%Z; [done|]. split; [by apply simulates_store|done].
  - split; [done|]. cbn. unfold get. rewrite (recall_get _ _ _ _ n Hsim). by destruct (get_entry n (buffers b)).
  - destruct (simulates_delete _ _ _ _ n Hsame) as [H1 H2]. destruct (delete n b). cbn in *. by rewrite H2.
  - split; [done|]. cbn. by rewrite (recent_head _ _ _ _ Hsim).
  - unfold delete_most_recent. rewrite (recent_head _ _ _ _ Hsim).
    destruct l as [|[n w] l]; cbn [head fmap option_fmap option_map fst tail]; [done|].
    destruct (simulates_delete _ _ _ _ n Hsame) as [H1 H2].
    rewrite (forget_head _ _ _ _ _ _ Hsame) in H1. unfold recall in H2. cbn [list_find fst] in H2.
    rewrite decide_True in H2 by done. destruct (delete n b) as [b' d]. cbn in *. subst d. done.
  - split; [done|]. cbn. by rewrite (listing_agrees _ _ _ _ Hsim).
Qed.

Lemma run_simulates limit cmds : forall b l, simulates limit (length cmds) b l ->
  run paste_step cmds b = run (spec_step limit) cmds l.
Proof.
  induction cmds as [|c cmds IH]; intros b l H; [done|]. cbn [run length] in *.
  destruct (step_simulates _ _ c _ _ H) as [H1 H2].
  destruct (paste_step c b) as [b' o], (spec_step limit c l) as [l' o']. cbn in *. subst. f_equal. auto.
Qed.

End PasteSpec.

(** ** The properties *)

(** C19. Whatever commands a copy buffer receives, none panics and the copied
    text stays as it was; the viewport, the cursor and both ends of the
    selection stay on its lines, the visible rows can be drawn, and the cursor
    stays in the viewport as long as nothing is searched. *)
Theorem copy_mode_never_panics `{UT : UnicodeTables} `{TT : TerminalText} ls rows top at_ b cmds
    (Hn : (Z.of_nat (length ls) <= isize_MAX)%Z) (Hb : new_copy_buffer ls rows top at_ = Ok b) :
  exists b', run_copy cmds b = Ok b' /\ copy_ok b' /\ lines b' = ls
    /\ (exists v, visible_lines b' = Ok v /\ length v = Nat.min (viewport_rows b') (length ls - scroll_top b'))
    /\ (forallb (fun c => negb (is_search c)) cmds = true -> cursor_visible b').
Proof.
  destruct (new_copy_ok _ _ _ _ _ Hn Hb) as (Hok & Hl & Hv).
  destruct (run_copy_keeps cmds b Hok) as (b' & Hr & Hok' & Hl' & Hv'). rewrite Hl in Hl'.
  exists b'. split_and!; [done..| |auto].
  pose proof (ck_top b' Hok') as Ht. unfold visible_lines, visible_end_line. rewrite Hl' in *.
  rewrite (proj2 (Nat.ltb_ge (Nat.min _ _) _)), (proj2 (Nat.ltb_ge (length ls) _)) by lia. cbn [orb].
  eexists. split; [reflexivity|]. rewrite length_take, length_drop. lia.
Qed.

(** C22. A search returns the match nearest to the first visible row in its
    direction, wrapping around; in its row the first match forward or the last
    one backward, at the column the text before it ends; and nothing exactly
    when no row contains the query outside its frame. *)
Theorem search_finds_nearest `{UT : UnicodeTables} `{TT : TerminalText} ls frames start query direction
    (Hls : ls <> []) :
  exists r, search_lines_with_frames ls frames start query direction = Ok r
  /\ match r with
     | None => forall i j, i < length ls -> ~ occurs_at query (row_content ls frames i) j
     | Some (p, w) => line p < length ls
         /\ (exists at_, occurs_at query (row_content ls frames (line p)) at_
             /\ (forall j, occurs_at query (row_content ls frames (line p)) j ->
                 match direction with Forward => at_ <= j | Backward => j <= at_ end)
             /\ column p = frame_origin frames (line p)
                           + terminal_text_width (take at_ (row_content ls frames (line p)))
             /\ w = terminal_text_width query)
         /\ forall i j, i < length ls -> occurs_at query (row_content ls frames i) j ->
            search_distance (length ls) (Nat.min start (length ls - 1)) direction (line p)
            <= search_distance (length ls) (Nat.min start (length ls - 1)) direction i
     end.
Proof. by apply search_lines_found. Qed.

(** From a column between two clusters, moving right and then left comes
    back, over wide, combining and zero-width clusters and over line ends,
    except at the end of the buffer; and moving right again ends between two
    clusters. *)
Theorem right_then_left_returns `{UT : UnicodeTables} `{TT : TerminalText} b
    (Hb : on_boundary b) (Hend : ~ at_buffer_end b) :
  cursor (move_cursor_left_one (move_cursor_right_one b)) = cursor b
  /\ on_boundary (move_cursor_right_one b).
Proof. by apply right_then_left. Qed.

(** A source carrier gives back its line unchanged, whatever characters
    group and line have, with an identity that tells every group and index
    apart; the reference to a source carries the same identity. *)
Theorem carrier_roundtrip group index copied :
  decode_copy_source_line (encode_copy_source_line_in_group group index copied)
    = Some (copy_source_identity_in_group group index, copied)
  /\ strip_text COPY_SOURCE_REFERENCE_PREFIX (encode_copy_source_reference_in_group group index)
     = Some (copy_source_identity_in_group group index)
  /\ decode_copy_source_line (encode_copy_source_line index copied) = Some (index_text index, copied)
  /\ forall group' index',
     copy_source_identity_in_group group index = copy_source_identity_in_group group' index'
     -> group = group' /\ index = index'.
Proof.
  split_and!; [..|by apply identity_inj].
  - unfold decode_copy_source_line, encode_copy_source_line_in_group. rewrite strip_text_app.
    apply split_once_char_app, identity_clean.
  - apply strip_text_app.
  - unfold decode_copy_source_line, encode_copy_source_line. rewrite strip_text_app.
    exact (split_once_char_app 58 _ _ (not_in_index 58 index ltac:(lia))).
Qed.

(** A copy of a screen is accepted exactly when all its sources with one
    identity have the same generation and text. *)
Theorem sources_validated_exactly m :
  validate_copy_sources m = Ok tt <-> sources_agree (omap (fun s => s) (copy_sources m)).
Proof. apply (validate_sources_spec _ []). intros s t H. set_solver. Qed.

(** C21. The paste buffers answer every sequence of writes, creations, reads,
    deletions and listings as a stack of writes does, on which a write under a
    used name replaces the older one: the newest surviving write is the most
    recent, errors change nothing, and listings are in the order of names. *)
Theorem paste_buffers_refine_stack limit b cmds
    (Hb : Paste.new_paste_buffers limit = Ok b)
    (Hcmds : (Z.of_nat (length cmds) < u64_MAX)%Z) :
  PasteSpec.run PasteSpec.paste_step cmds b = PasteSpec.run (PasteSpec.spec_step limit) cmds [].
Proof.
  unfold Paste.new_paste_buffers in Hb. destruct (limit =? 0)%Z; [done|]. injection Hb as [= <-].
  apply PasteSpec.run_simulates. constructor; [done|constructor|cbn; lia|].
  exists []. split_and!; by try constructor.
Qed.

(** *** Concrete runs *)

(** Tables for ASCII text, every character a cluster. *)
#[local] Instance ascii_width_tables : UnicodeTables := {
  is_alphanumeric c := in_range 48 57 c || in_range 65 90 c || in_range 97 122 c;
  to_lowercase s := to_ascii_lowercase <$> s;
  char_width c := if is_ascii_control c then None else Some 1;
  str_width s := length s;
}.
#[local] Instance single_clusters : TerminalText := {
  terminal_graphemes s := (fun c => [c]) <$> s;
  terminal_emoji_width := Wide;
}.

Definition page : list text :=
  [chars "first target"; chars "two"; chars "third line"; chars "a target"; chars "the end"].
Definition page_commands : list copy_command :=
  [KeyAction PageUp; KeyAction BeginSelection; KeyAction MoveDownFast; KeyAction MoveWordLeft;
   ResizeRows 0; ResizeRows 3; SelectRange {| line := 9; column := 0 |} {| line := 0; column := 0 |};
   SelectWord {| line := 0; column := 7 |}; ScrollBy 2; MoveBy (-1) (-40); KeyAction PageDown].

Definition page_buffer : CopyBuffer :=
  match new_copy_buffer page 2 3 {| line := 4; column := 2 |} with
  | Ok b => b
  | _ => {| lines := []; log_frames := []; viewport_rows := 1; scroll_top := 0;
            cursor := {| line := 0; column := 0 |}; selection := None; selection_anchor := None |}
  end.

Lemma copy_mode_never_panics_witness :
  exists b', run_copy page_commands page_buffer = Ok b' /\ copy_ok b' /\ lines b' = page
    /\ (exists v, visible_lines b' = Ok v /\ length v = Nat.min (viewport_rows b') (length page - scroll_top b'))
    /\ (forallb (fun c => negb (is_search c)) page_commands = true -> cursor_visible b').
Proof.
  apply (copy_mode_never_panics page 2 3 {| line := 4; column := 2 |}); [vm_compute; discriminate|reflexivity].
Defined.

Lemma search_finds_nearest_witness :
  exists r, search_lines_with_frames page [] 4 (chars "target") Forward = Ok r /\ r <> None.
Proof.
  destruct (search_finds_nearest page [] 4 (chars "target") Forward) as (r & Hr & _); [discriminate|].
  exists r. split; [exact Hr|]. intros ->. vm_compute in Hr. discriminate Hr.
Defined.

Lemma right_then_left_returns_witness :
  cursor (move_cursor_left_one (move_cursor_right_one page_buffer)) = cursor page_buffer
  /\ on_boundary (move_cursor_right_one page_buffer).
Proof.
  apply right_then_left_returns.
  - exists (chars "the end"), [[116]; [104]]%Z, ((fun c => [c]) <$> chars "e end"). by split_and!.
  - intros [_ H]. vm_compute in H. lia.
Defined.

Definition paste_commands : list PasteSpec.paste_command :=
  [PasteSpec.Set_ 1 (chars "one") (chars "first") None; PasteSpec.Set_ 2 (chars "bad/name") [] None;
   PasteSpec.Create 3 (chars "alpha") (chars "second") None;
   PasteSpec.Set_ 4 (chars "one") (chars "third") (Some (chars "copy-mode"));
   PasteSpec.MostRecentName; PasteSpec.List_; PasteSpec.DeleteMostRecent;
   PasteSpec.MostRecentName; PasteSpec.Get (chars "one")].

Lemma paste_buffers_refine_stack_witness :
  PasteSpec.run PasteSpec.paste_step paste_commands
    {| Paste.limit_bytes := 64; Paste.next_sequence := 1; Paste.buffers := [] |}
  = PasteSpec.run (PasteSpec.spec_step 64) paste_commands [].
Proof. apply (paste_buffers_refine_stack 64); [reflexivity|vm_compute; reflexivity]. Defined.

(** A search scrolls to its match and leaves the cursor where it was, out of
    the viewport; the next movement scrolls back to the cursor. *)
Lemma search_leaves_cursor_outside :
  match search (chars "first") Forward page_buffer with
  | Ok (b, Some p) => line p = 0 /\ scroll_top b = 0 /\ line (cursor b) = 4
      /\ ~ cursor_visible b /\ scroll_top (move_cursor_by 0 1 b) = 3
  | _ => False
  end.
Proof. vm_compute. split_and!; try reflexivity. intros [_ H]. lia. Qed.

(** Scrolling moves the cursor to another line and keeps its column, which
    may lie beyond the end of that line. *)
Lemma scrolling_keeps_column :
  match run_copy [KeyAction Bottom; ScrollBy (-3)] page_buffer with
  | Ok b => line (cursor b) = 1 /\ column (cursor b) = 7 /\ line_width b 1 = 3
  | _ => False
  end.
Proof. vm_compute. done. Qed.

(** Searching again finds the same match again. *)
Lemma search_again_stays :
  match search (chars "target") Forward page_buffer with
  | Ok (b, Some p) => match search (chars "target") Forward b with
                      | Ok (_, q) => q = Some p | _ => False end
  | _ => False
  end.
Proof. vm_compute. done. Qed.
