(* ===== verification/Commands.v ===== *)
(** * The command language

    The grammar of multiplexer commands (mez-mux/src/command/mod.rs): quoting,
    tokens with their spans, sequences separated by semicolons, flags and
    positional arguments; and the typed plans a parsed command turns into
    (mez-mux/src/command/plans.rs).  Offsets are byte offsets. *)

From S2P Require Import Prelude LayoutTypes Utf8Text Readline ReadlineKeys KeyInput.
#[local] Open Scope Z_scope.

(** A word of the source: [w "text"]. *)
Notation w := chars (only parsing).

Record CommandInvocation := { name : text; args : list text }.

(** ** Scanning *)

Inductive QuoteState := NoQuote | SingleQuote | DoubleQuote.
#[global] Instance QuoteState_eq_dec : EqDecision QuoteState.
Proof. solve_decision. Defined.

Record CommandTokenSpan := { span_begin : Z; span_end : Z; value : text }.

(** The variables of the scanning loop; tokens are kept in reading order. *)
Record ScanState := {
  tokens : list CommandTokenSpan;
  current : text;
  quote : QuoteState;
  escaped : bool;
  token_start : option Z;
  semicolon : option Z;
  cursor_state : option (bool * bool);
  cursor_recorded : bool;
}.

Definition scan_start (cursor : option Z) : ScanState :=
  {| tokens := []; current := []; quote := NoQuote; escaped := false; token_start := None;
     semicolon := None; cursor_state := (fun _ => (false, false)) <$> cursor;
     cursor_recorded := false |}.

(** [state.inside_quote = quote != None; state.after_escape = escaped]. *)
Definition record_cursor (s : ScanState) : ScanState :=
  {| tokens := tokens s; current := current s; quote := quote s; escaped := escaped s;
     token_start := token_start s; semicolon := semicolon s;
     cursor_state := (fun _ => (negb (bool_decide (quote s = NoQuote)), escaped s)) <$> cursor_state s;
     cursor_recorded := true |}.
Definition record_at (cursor : option Z) (index : Z) (s : ScanState) : ScanState :=
  match cursor, cursor_state s with
  | Some offset, Some _ =>
      if negb (cursor_recorded s) && (offset <=? index) then record_cursor s else s
  | _, _ => s
  end.

(** [token_start.get_or_insert(index)] with the new quote, escape and text. *)
Definition extend_token (index : Z) (t : text) (q : QuoteState) (e : bool) (s : ScanState) : ScanState :=
  {| tokens := tokens s; current := current s ++ t; quote := q; escaped := e;
     token_start := Some (default index (token_start s)); semicolon := semicolon s;
     cursor_state := cursor_state s; cursor_recorded := cursor_recorded s |}.
Definition set_quote (q : QuoteState) (s : ScanState) : ScanState :=
  {| tokens := tokens s; current := current s; quote := q; escaped := escaped s;
     token_start := token_start s; semicolon := semicolon s;
     cursor_state := cursor_state s; cursor_recorded := cursor_recorded s |}.
(** The escaped character itself; a token has begun at the backslash. *)
Definition push_escaped (c : rchar) (s : ScanState) : ScanState :=
  {| tokens := tokens s; current := current s ++ [c]; quote := quote s; escaped := false;
     token_start := token_start s; semicolon := semicolon s;
     cursor_state := cursor_state s; cursor_recorded := cursor_recorded s |}.
(** [if let Some(start) = token_start.take() { tokens.push(...) }]. *)
Definition end_token (index : Z) (s : ScanState) : ScanState :=
  match token_start s with
  | None => s
  | Some start =>
      {| tokens := tokens s ++ [{| span_begin := start; span_end := index; value := current s |}];
         current := []; quote := quote s; escaped := escaped s; token_start := None;
         semicolon := semicolon s; cursor_state := cursor_state s;
         cursor_recorded := cursor_recorded s |}
  end.
Definition set_semicolon (index : Z) (s : ScanState) : ScanState :=
  {| tokens := tokens s; current := current s; quote := quote s; escaped := escaped s;
     token_start := token_start s; semicolon := Some index;
     cursor_state := cursor_state s; cursor_recorded := cursor_recorded s |}.

(** One character; the flag is the [break] at a semicolon. *)
Definition scan_char (stop_at_semicolon : bool) (index : Z) (c : rchar) (s : ScanState)
    : ScanState * bool :=
  if escaped s then (push_escaped c s, false)
  else if (c =? 92) && negb (bool_decide (quote s = SingleQuote)) then
    (extend_token index [] (quote s) true s, false)
  else if (c =? 39) && bool_decide (quote s = NoQuote) then
    (extend_token index [] SingleQuote false s, false)
  else if (c =? 39) && bool_decide (quote s = SingleQuote) then (set_quote NoQuote s, false)
  else if (c =? 34) && bool_decide (quote s = NoQuote) then
    (extend_token index [] DoubleQuote false s, false)
  else if (c =? 34) && bool_decide (quote s = DoubleQuote) then (set_quote NoQuote s, false)
  else if is_whitespace c && bool_decide (quote s = NoQuote) then (end_token index s, false)
  else if (c =? 59) && bool_decide (quote s = NoQuote) && stop_at_semicolon then
    (set_semicolon index (end_token index s), true)
  else (extend_token index [c] (quote s) false s, false).

Fixpoint scan_chars (stop : bool) (cursor : option Z) (index : Z) (input : text) (s : ScanState)
    : ScanState :=
  match input with
  | [] => s
  | c :: rest =>
      let '(s, break_) := scan_char stop index c (record_at cursor index s) in
      if break_ then s else scan_chars stop cursor (index + len_utf8 c) rest s
  end.

Definition scan_command_segment (input : text) (cursor : option Z) (stop : bool) : ScanState :=
  let s := scan_chars stop cursor 0 input (scan_start cursor) in
  let s := if cursor_recorded s then s else record_cursor s in
  end_token (blen input) s.

Record SegmentCursorScan := {
  sc_token_start : Z; sc_token_end : Z; tokens_before : list text; tokens_after : list text;
  active_value : text; segment_end : Z; inside_quote : bool; after_escape : bool }.

(** [take_while]. *)
Fixpoint take_while {A} (p : A -> bool) (l : list A) : list A :=
  match l with x :: l => if p x then x :: take_while p l else [] | [] => [] end.

Definition scan_segment_around_cursor (segment : text) (cursor : Z) : SegmentCursorScan :=
  let cursor := Z.min cursor (blen segment) in
  let scan := scan_command_segment segment (Some cursor) true in
  let active := position (fun t => (span_begin t <=? cursor) && (cursor <=? span_end t)) (tokens scan) in
  let '(quoted, after) := default (false, false) (cursor_state scan) in
  let result start end_ before rest active :=
    {| sc_token_start := start; sc_token_end := end_; tokens_before := value <$> before;
       tokens_after := value <$> rest; active_value := active;
       segment_end := default (blen segment) (semicolon scan);
       inside_quote := quoted; after_escape := after |} in
  match active ≫= fun i => (fun t => (i, t)) <$> tokens scan !! i with
  | Some (i, t) =>
      result (span_begin t) (span_end t) (take i (tokens scan)) (drop (S i) (tokens scan)) (value t)
  | None => result cursor cursor (take_while (fun t => span_end t <=? cursor) (tokens scan)) [] []
  end.

Definition tokenize_command_spans (input : text) : result (list CommandTokenSpan) :=
  let scan := scan_command_segment input None false in
  if escaped scan then Err (invalid_args "command ends with escape")
  else if negb (bool_decide (quote scan = NoQuote))
       then Err (invalid_args "unterminated quoted command argument")
  else Ok (tokens scan).
Definition tokenize_command (input : text) : result (list text) :=
  spans ← tokenize_command_spans input; Ok (fmap (M := list) value spans).

(** The loop of [split_semicolon_sequence]; every turn consumes a semicolon,
    so one turn more than the input has characters is enough. *)
Fixpoint split_loop (fuel : nat) (input : text) (offset : Z) : result (list text) :=
  match fuel with
  | O => Panic
  | S fuel =>
      rest ← slice_from input offset;
      let scan := scan_command_segment rest None true in
      match semicolon scan with
      | None =>
          if escaped scan then Err (invalid_args "command sequence ends with escape")
          else if negb (bool_decide (quote scan = NoQuote))
               then Err (invalid_args "unterminated quoted command argument")
          else t ← slice_from input offset; Ok [trim_text t]
      | Some separator =>
          segment ← slice input offset (offset + separator);
          rest ← split_loop fuel input (offset + (separator + 1));
          Ok (trim_text segment :: rest)
      end
  end.
Definition split_semicolon_sequence (input : text) : result (list text) :=
  split_loop (S (length input)) input 0.

Fixpoint parse_segments (segments : list text) : result (list CommandInvocation) :=
  match segments with
  | [] => Ok []
  | segment :: segments =>
      words ← tokenize_command segment;
      rest ← parse_segments segments;
      Ok (match words with [] => rest | n :: a => {| name := n; args := a |} :: rest end)
  end.
Definition parse_command_sequence (input : text) : result (list CommandInvocation) :=
  segments ← split_semicolon_sequence input;
  commands ← parse_segments segments;
  if bool_decide (length commands = O)
  then Err (invalid_args "command input did not contain a command") else Ok commands.

Definition encode_selector_argument (v : text) : text :=
  [39] ++ (v ≫= fun c => if c =? 39 then w "'\''" else [c]) ++ [39].

(** ** Flags and positional arguments *)

Definition has_word (l : list string) (t : text) : bool := existsb (fun s => bool_decide (t = w s)) l.

(** [args.windows(2).find(|window| window[0] == flag)]. *)
Fixpoint flag_value (args : list text) (flag : text) : option text :=
  match args with
  | a :: rest =>
      match rest with
      | v :: _ => if bool_decide (a = flag) then Some v else flag_value rest flag
      | [] => None
      end
  | [] => None
  end.

Definition flag_takes_value (flag : text) : bool :=
  has_word ["-t"; "-s"; "-c"; "-n"; "--name"; "-x"; "--columns"; "-y"; "--rows"; "--percent";
            "--axis"; "--delta"; "--edge"; "--amount"; "--scope"; "--match"; "--exact-sha256";
            "--shell-classification"; "--justification"; "--reason"; "--epoch"; "--content"]%string
    flag.

(** [str::starts_with('-')]. *)
Definition starts_with_dash (t : text) : bool := bool_decide (head t = Some 45).

(** A flag with a value skips the value, also past the end. *)
Fixpoint positional_args_from_slice (args : list text) : list text :=
  match args with
  | [] => []
  | a :: rest =>
      if flag_takes_value a then match rest with _ :: rest => positional_args_from_slice rest | [] => [] end
      else if starts_with_dash a then positional_args_from_slice rest
      else a :: positional_args_from_slice rest
  end.

Definition positional_args (i : CommandInvocation) : list text := positional_args_from_slice (args i).
Definition target_arg (i : CommandInvocation) : option text := flag_value (args i) (w "-t").
Definition source_arg (i : CommandInvocation) : option text := flag_value (args i) (w "-s").
Definition start_directory_arg (i : CommandInvocation) : option text := flag_value (args i) (w "-c").
Definition has_arg (i : CommandInvocation) (flag : string) : bool :=
  existsb (fun a => bool_decide (a = w flag)) (args i).
Definition has_flag (i : CommandInvocation) (short long : string) : bool :=
  existsb (fun a => bool_decide (a = w short) || bool_decide (a = w long)) (args i).

(** ** Plans *)

(** [Option::or_else]. *)
Definition or_else {A} (a b : option A) : option A := match a with Some _ => a | None => b end.
Notation "a '<|>' b" := (or_else a b) (at level 55, right associativity) : mez_scope.
#[local] Open Scope mez_scope.

(** An ASCII text as the literal it is. *)
Definition as_literal (t : text) : option string :=
  if forallb (fun c => in_range 0 127 c) t
  then Some (String.string_of_list_ascii ((fun c => Ascii.ascii_of_nat (Z.to_nat c)) <$> t)) else None.

(** [slice::join(" ")]. *)
Fixpoint join_words (l : list text) : text :=
  match l with [] => [] | [t] => t | t :: l => t ++ [32] ++ join_words l end.

Inductive ShellCommandFlag := ShellCommand | Command.
Definition spelling (f : ShellCommandFlag) : text :=
  match f with ShellCommand => w "--shell-command" | Command => w "--command" end%string.
Inductive ShellCommandSource :=
| ExplicitFlagValue (flag : ShellCommandFlag) (value_index : nat)
| DoubleDashTail (start : nat)
| PositionalWords
| NoCommand.

Definition value_index (f : ShellCommandFlag) (args : list text) : option nat :=
  i ← position (fun a => bool_decide (a = spelling f)) args;
  if (S i <? length args)%nat then Some (S i) else None.
Definition explicit_shell_command_value (args : list text) : option (ShellCommandFlag * nat) :=
  ((fun i => (ShellCommand, i)) <$> value_index ShellCommand args)
  <|> ((fun i => (Command, i)) <$> value_index Command args).
Definition double_dash_tail_start (args : list text) : option nat :=
  S <$> position (fun a => bool_decide (a = w "--")) args.
Definition has_name_flag_value (args : list text) : bool :=
  bool_decide (is_Some (flag_value args (w "-n") <|> flag_value args (w "--name"))).

Definition for_split_window (args : list text) : ShellCommandSource :=
  match explicit_shell_command_value args with
  | Some (flag, i) => ExplicitFlagValue flag i
  | None => match double_dash_tail_start args with
            | Some start => DoubleDashTail start
            | None => PositionalWords
            end
  end.
Definition for_new_window (args : list text) : ShellCommandSource :=
  match explicit_shell_command_value args with
  | Some (flag, i) => ExplicitFlagValue flag i
  | None => match double_dash_tail_start args with
            | Some start => DoubleDashTail start
            | None => if has_name_flag_value args then PositionalWords else NoCommand
            end
  end.

Definition positional_args_before_double_dash (i : CommandInvocation) : list text :=
  let end_ := default (length (args i)) (position (fun a => bool_decide (a = w "--")) (args i)) in
  positional_args_from_slice (take end_ (args i)).

Definition is_plain_byte (c : Z) : bool :=
  in_range 48 57 c || in_range 65 90 c || in_range 97 122 c
  || bool_decide (c ∈ w "_@%+=:,./-").
Definition shell_quote_word (word : text) : text :=
  if negb (bool_decide (word = [])) && forallb is_plain_byte word then word
  else [39] ++ (word ≫= fun c => if c =? 39 then w "'\''" else [c]) ++ [39].
Definition shell_join_words (words : list text) : text := join_words (shell_quote_word <$> words).

Definition empty_command {A} : result A := Err (invalid_args "pane shell command must not be empty").
Definition shell_command_from_words (words : list text) : result (option text) :=
  match words with
  | [] => Ok None
  | _ :: _ =>
      let command := shell_join_words words in
      if bool_decide (trim_text command = []) then empty_command else Ok (Some command)
  end.
Definition shell_command_for_source (i : CommandInvocation) (source : ShellCommandSource)
    : result (option text) :=
  match source with
  | ExplicitFlagValue _ k =>
      let command := default [] (args i !! k) in
      if bool_decide (trim_text command = []) then empty_command else Ok (Some command)
  | DoubleDashTail start => shell_command_from_words (drop start (args i))
  | PositionalWords => shell_command_from_words (positional_args_before_double_dash i)
  | NoCommand => Ok None
  end.
Definition new_window_shell_command (i : CommandInvocation) : result (option text) :=
  shell_command_for_source i (for_new_window (args i)).
Definition split_window_shell_command (i : CommandInvocation) : result (option text) :=
  shell_command_for_source i (for_split_window (args i)).

Definition new_window_name (i : CommandInvocation) : text :=
  default (w "shell")
    (flag_value (args i) (w "-n") <|> flag_value (args i) (w "--name")
     <|> (if bool_decide (is_Some (double_dash_tail_start (args i)))
             || bool_decide (is_Some (explicit_shell_command_value (args i)))
          then None else head (positional_args_before_double_dash i))).

(** *** Resizing *)

Definition parse_resize_amount (v : text) (message : string) : result Z :=
  ok_or (parse_uint u16_MAX v) (invalid_args message).
Definition resize_amount_flag (i : CommandInvocation) : result Z :=
  match flag_value (args i) (w "--amount") with
  | Some v => parse_resize_amount v "resize-pane amount is invalid"
  | None => Err (invalid_args "resize-pane requires --amount")
  end.
Definition optional_flag_amount (args : list text) (flag : text) : result Z :=
  match position (fun a => bool_decide (a = flag)) args ≫= fun i => args !! S i with
  | None => Ok 1
  | Some v => if starts_with_dash v then Ok 1
              else parse_resize_amount v "resize-pane amount is invalid"
  end.
(** [map(parse_resize_amount).transpose()?]. *)
Definition optional_amount (v : option text) (message : string) : result (option Z) :=
  match v with Some v => Some <$> parse_resize_amount v message | None => Ok None end.

Definition direction_flags : list (string * ResizeDirection) :=
  [("-L", ResizeLeft); ("-R", ResizeRight); ("-U", ResizeUp); ("-D", ResizeDown)]%string.

Definition resize_axis (name : text) : result ResizeAxis :=
  if has_word ["columns"; "horizontal"]%string name then Ok AxisColumns
  else if has_word ["rows"; "vertical"]%string name then Ok AxisRows
  else if has_word ["both"]%string name then Ok AxisBoth
  else Err (invalid_args "resize-pane axis is invalid").

Definition resize_spec_from_invocation (i : CommandInvocation) : result PaneSizeSpec :=
  let direction_of v message :=
    ok_or (as_literal v ≫= ResizeDirection_from_name) (invalid_args message) in
  match flag_value (args i) (w "--percent") with
  | Some percent =>
      percent ← parse_resize_amount percent "resize-pane percent is invalid";
      axis ← resize_axis (default (w "both") (flag_value (args i) (w "--axis")));
      Ok (Percent percent axis)
  | None =>
  match flag_value (args i) (w "--delta") with
  | Some direction =>
      direction ← direction_of direction "resize-pane delta direction is invalid"%string;
      amount ← resize_amount_flag i;
      Ok (Delta direction amount)
  | None =>
  match flag_value (args i) (w "--edge") with
  | Some edge =>
      edge ← direction_of edge "resize-pane edge is invalid"%string;
      amount ← resize_amount_flag i;
      Ok (Edge edge amount)
  | None =>
  match list_find (fun f => has_arg i f.1 = true) direction_flags with
  | Some (_, (flag, direction)) =>
      amount ← optional_flag_amount (args i) (w flag);
      Ok (Delta direction amount)
  | None =>
      columns ← optional_amount (flag_value (args i) (w "-x") <|> flag_value (args i) (w "--columns"))
                  "resize-pane columns are invalid";
      rows ← optional_amount (flag_value (args i) (w "-y") <|> flag_value (args i) (w "--rows"))
               "resize-pane rows are invalid";
      match columns, rows with
      | None, None => Err (invalid_args "resize-pane requires a size, percent, delta, or edge")
      | _, _ => Ok (Cells columns rows)
      end
  end end end end.

(** *** The plans of the commands *)

Record PaneSpawningPlan := {
  sp_command : text; sp_name : text; sp_shell_command : option text;
  sp_start_directory : option text; sp_select : bool }.
Record NamedTargetPlan := { nt_command : text; nt_target : option text; nt_name : text }.
Record TargetPlan := { tp_command : text; tp_target : text }.
Record ForceTargetPlan := { ft_command : text; ft_target : option text; ft_force : bool }.
Record MoveWindowPlan := { mw_command : text; mw_source : option text; mw_target_index : Z }.
Record SplitWindowPlan := {
  sw_command : text; sw_direction : SplitDirection; sw_shell_command : option text;
  sw_start_directory : option text; sw_select_new : bool }.
Inductive PaneSelectionPlan :=
| SelectTarget (target : text)
| SelectDirection (direction : PaneNavigationDirection).
Record SelectPanePlan := { pp_command : text; selection_plan : PaneSelectionPlan }.
Record RotatePanePlan := { rp_command : text; reverse_ : bool }.
Record LayoutPlan := { lp_command : text; layout_name : text }.
Record SessionNamePlan := { sn_command : text; sn_name : text }.
Record ForceOnlyPlan := { fo_command : text; fo_force : bool }.
Record DetachClientPlan := { dc_command : text; dc_target : option text }.
Inductive SynchronizePanesMode := SyncOn | SyncOff | SyncToggle | SyncStatus.
Record SynchronizePanesPlan := { sy_command : text; mode : SynchronizePanesMode }.
Inductive ResizePanePlan :=
| Zoom (command : text)
| Resize (command : text) (target : option text) (spec : PaneSizeSpec).
Inductive SwapPaneNeighbor := SwapPrevious | SwapNext.
Inductive SwapPanePlan :=
| SwapTarget (command : text) (source : option text) (target : text)
| SwapNeighbor (command : text) (neighbor : SwapPaneNeighbor).
Record BreakPanePlan := {
  bp_command : text; bp_target : option text; bp_name : option text; bp_select : bool }.
Record JoinPanePlan := {
  jp_command : text; jp_source : option text; jp_target : text;
  jp_direction : SplitDirection; jp_select : bool }.
Inductive RuntimePaneLayoutPlan :=
| RuntimeSwap (p : SwapPanePlan) | RuntimeBreak (p : BreakPanePlan) | RuntimeJoin (p : JoinPanePlan).

Inductive CommandPlan :=
| PlanNewWindow (p : PaneSpawningPlan) | PlanNewGroup (p : PaneSpawningPlan)
| PlanRenameGroup (p : NamedTargetPlan) | PlanSelectGroup (p : TargetPlan)
| PlanNextGroup (command : text) | PlanPreviousGroup (command : text) | PlanLastGroup (command : text)
| PlanKillGroup (p : ForceTargetPlan) | PlanRenameWindow (p : NamedTargetPlan)
| PlanRenamePane (p : NamedTargetPlan) | PlanSelectWindow (p : TargetPlan)
| PlanNextWindow (command : text) | PlanPreviousWindow (command : text)
| PlanLastWindow (command : text) | PlanMoveWindow (p : MoveWindowPlan)
| PlanKillWindow (p : ForceTargetPlan) | PlanSplitWindow (p : SplitWindowPlan)
| PlanSelectPane (p : SelectPanePlan) | PlanNextPane (command : text)
| PlanPreviousPane (command : text) | PlanLastPane (command : text)
| PlanRotatePane (p : RotatePanePlan) | PlanSelectLayout (p : LayoutPlan)
| PlanNextLayout (command : text) | PlanRebalanceWindow (command : text)
| PlanSynchronizePanes (p : SynchronizePanesPlan) | PlanZoomPane (command : text)
| PlanResizePane (p : ResizePanePlan) | PlanKillPane (p : ForceTargetPlan)
| PlanSwapPane (p : SwapPanePlan) | PlanBreakPane (p : BreakPanePlan)
| PlanJoinPane (p : JoinPanePlan) | PlanRenameSession (p : SessionNamePlan)
| PlanKillSession (p : ForceOnlyPlan) | PlanDetachClient (p : DetachClientPlan)
| Fallback.

(** [target_arg().or_else(|| positional_args().first())]. *)
Definition target_or_first (i : CommandInvocation) : option text :=
  target_arg i <|> head (positional_args i).

Definition resize_pane_plan (i : CommandInvocation) : result ResizePanePlan :=
  if has_flag i "-Z" "--zoom" then Ok (Zoom (name i))
  else spec ← resize_spec_from_invocation i; Ok (Resize (name i) (target_arg i) spec).

Definition split_window_selects_new_pane (i : CommandInvocation) : result bool :=
  let detached := has_flag i "-d" "--detached" || has_arg i "--no-select" in
  if has_arg i "--select" && detached
  then Err (invalid_args "split-window cannot combine --select with -d/--no-select")
  else Ok (negb detached).

(** The values of the flags that are present; more than one is an error. *)
Definition one_flag {A} (i : CommandInvocation) (flags : list (string * A)) (message : string)
    : result (option A) :=
  match filter (fun f => has_arg i f.1 = true) flags with
  | [] => Ok None
  | [f] => Ok (Some f.2)
  | _ :: _ :: _ => Err (invalid_args message)
  end.
Definition swap_pane_neighbor (i : CommandInvocation) : result (option SwapPaneNeighbor) :=
  one_flag i [("-U", SwapPrevious); ("--up", SwapPrevious); ("-D", SwapNext); ("--down", SwapNext)]%string
    "swap-pane accepts only one direction flag".
Definition select_pane_direction (i : CommandInvocation) : result (option PaneNavigationDirection) :=
  one_flag i [("-U", NavUp); ("--up", NavUp); ("-D", NavDown); ("--down", NavDown);
              ("-L", NavLeft); ("--left", NavLeft); ("-R", NavRight); ("--right", NavRight)]%string
    "select-pane accepts only one direction flag".

Definition swap_pane_plan (i : CommandInvocation) : result SwapPanePlan :=
  match target_or_first i with
  | Some target => Ok (SwapTarget (name i) (source_arg i) target)
  | None =>
      neighbor ← swap_pane_neighbor i;
      match neighbor with
      | Some neighbor =>
          match source_arg i with
          | Some _ => Err (invalid_args "swap-pane direction flags operate on the active pane")
          | None => Ok (SwapNeighbor (name i) neighbor)
          end
      | None => Err (invalid_args "swap-pane requires a target")
      end
  end.

Definition break_pane_plan (i : CommandInvocation) : BreakPanePlan :=
  {| bp_command := name i; bp_target := target_or_first i;
     bp_name := flag_value (args i) (w "-n") <|> flag_value (args i) (w "--name");
     bp_select := negb (has_flag i "-d" "--detached") |}.

Definition split_direction (i : CommandInvocation) : SplitDirection :=
  if has_flag i "-h" "--horizontal" then Horizontal else Vertical.

Definition join_pane_plan (i : CommandInvocation) : result JoinPanePlan :=
  target ← ok_or (target_or_first i) (invalid_args "join-pane requires a target");
  Ok {| jp_command := name i; jp_source := source_arg i; jp_target := target;
        jp_direction := split_direction i; jp_select := has_arg i "--select" |}.

Definition runtime_pane_layout_plan_from_invocation (i : CommandInvocation)
    : result (option RuntimePaneLayoutPlan) :=
  if has_word ["swap-pane"; "swapp"]%string (name i) then
    p ← swap_pane_plan i; Ok (Some (RuntimeSwap p))
  else if has_word ["break-pane"; "breakp"]%string (name i) then
    Ok (Some (RuntimeBreak (break_pane_plan i)))
  else if has_word ["join-pane"; "joinp"]%string (name i) then
    p ← join_pane_plan i; Ok (Some (RuntimeJoin p))
  else Ok None.

Definition synchronize_panes_plan (i : CommandInvocation) : result SynchronizePanesPlan :=
  let word := default (w "toggle") (head (positional_args i)) in
  mode ← (if has_word ["on"]%string word then Ok SyncOn
          else if has_word ["off"]%string word then Ok SyncOff
          else if has_word ["toggle"]%string word then Ok SyncToggle
          else if has_word ["status"]%string word then Ok SyncStatus
          else Err (invalid_args "synchronize-panes accepts on, off, toggle, or status"));
  Ok {| sy_command := name i; mode := mode |}.

Definition pane_spawning_plan (i : CommandInvocation) : result PaneSpawningPlan :=
  shell_command ← new_window_shell_command i;
  Ok {| sp_command := name i; sp_name := new_window_name i; sp_shell_command := shell_command;
        sp_start_directory := start_directory_arg i;
        sp_select := negb (has_flag i "-d" "--detached") |}.

Definition named_target_plan (i : CommandInvocation) (missing : string) : result NamedTargetPlan :=
  let n := join_words (positional_args i) in
  if bool_decide (n = []) then Err (invalid_args missing)
  else Ok {| nt_command := name i; nt_target := target_arg i; nt_name := n |}.
Definition rename_pane_plan (i : CommandInvocation) : result NamedTargetPlan :=
  plan ← named_target_plan i "rename-pane requires a name";
  if bool_decide (trim_text (nt_name plan) = []) then Err (invalid_args "rename-pane requires a name")
  else Ok plan.
Definition required_target_plan (i : CommandInvocation) (missing : string) : result TargetPlan :=
  target ← ok_or (target_or_first i) (invalid_args missing);
  Ok {| tp_command := name i; tp_target := target |}.
Definition force_target_plan (i : CommandInvocation) : ForceTargetPlan :=
  {| ft_command := name i; ft_target := target_arg i; ft_force := has_flag i "-f" "--force" |}.
Definition session_name_plan (i : CommandInvocation) (missing : string) : result SessionNamePlan :=
  let n := join_words (positional_args i) in
  if bool_decide (n = []) then Err (invalid_args missing)
  else Ok {| sn_command := name i; sn_name := n |}.

Definition move_window_target_index (i : CommandInvocation) : result Z :=
  target ← ok_or (target_or_first i) (invalid_args "move-window requires a target index");
  ok_or (parse_uint u64_MAX target) (invalid_args "move-window target must be a window index").
Definition move_window_plan (i : CommandInvocation) : result MoveWindowPlan :=
  index ← move_window_target_index i;
  Ok {| mw_command := name i; mw_source := source_arg i; mw_target_index := index |}.

Definition split_window_plan (i : CommandInvocation) : result SplitWindowPlan :=
  shell_command ← split_window_shell_command i;
  select_new ← split_window_selects_new_pane i;
  Ok {| sw_command := name i; sw_direction := split_direction i; sw_shell_command := shell_command;
        sw_start_directory := start_directory_arg i; sw_select_new := select_new |}.

Definition select_pane_plan (i : CommandInvocation) : result SelectPanePlan :=
  selection ← match target_or_first i with
              | Some target => Ok (SelectTarget target)
              | None =>
                  direction ← select_pane_direction i;
                  match direction with
                  | Some direction => Ok (SelectDirection direction)
                  | None => Err (invalid_args "select-pane requires a target")
                  end
              end;
  Ok {| pp_command := name i; selection_plan := selection |}.

Definition layout_plan (i : CommandInvocation) : result LayoutPlan :=
  layout ← ok_or (head (positional_args i)) (invalid_args "select-layout requires a layout");
  Ok {| lp_command := name i; layout_name := layout |}.

(** The families in the order of the match: names, and the plan. *)
Definition plan_table : list (list string * (CommandInvocation -> result CommandPlan)) :=
  let plain (f : text -> CommandPlan) i := Ok (f (name i)) in
  [(["new-window"; "neww"], fun i => p ← pane_spawning_plan i; Ok (PlanNewWindow p));
   (["new-group"; "newg"], fun i => p ← pane_spawning_plan i; Ok (PlanNewGroup p));
   (["rename-group"; "renameg"],
     fun i => p ← named_target_plan i "rename-group requires a name"; Ok (PlanRenameGroup p));
   (["select-group"; "selectg"],
     fun i => p ← required_target_plan i "select-group requires a target"; Ok (PlanSelectGroup p));
   (["next-group"; "nextg"], plain PlanNextGroup);
   (["previous-group"; "prevg"], plain PlanPreviousGroup);
   (["last-group"; "lastg"], plain PlanLastGroup);
   (["kill-group"; "killg"], fun i => Ok (PlanKillGroup (force_target_plan i)));
   (["rename-window"; "renamew"],
     fun i => p ← named_target_plan i "rename-window requires a name"; Ok (PlanRenameWindow p));
   (["rename-pane"], fun i => p ← rename_pane_plan i; Ok (PlanRenamePane p));
   (["select-window"; "selectw"],
     fun i => p ← required_target_plan i "select-window requires a target"; Ok (PlanSelectWindow p));
   (["next-window"; "next"; "nextw"], plain PlanNextWindow);
   (["previous-window"; "previous"; "prev"; "prevw"], plain PlanPreviousWindow);
   (["last-window"; "lastw"], plain PlanLastWindow);
   (["move-window"; "movew"], fun i => p ← move_window_plan i; Ok (PlanMoveWindow p));
   (["kill-window"; "killw"], fun i => Ok (PlanKillWindow (force_target_plan i)));
   (["split-window"; "splitw"], fun i => p ← split_window_plan i; Ok (PlanSplitWindow p));
   (["select-pane"; "selectp"], fun i => p ← select_pane_plan i; Ok (PlanSelectPane p));
   (["next-pane"; "nextp"], plain PlanNextPane);
   (["previous-pane"; "prev-pane"; "prevp"], plain PlanPreviousPane);
   (["last-pane"; "lastp"], plain PlanLastPane);
   (["rotate-pane"; "rotatep"],
     fun i => Ok (PlanRotatePane {| rp_command := name i; reverse_ := has_flag i "-D" "--reverse" |}));
   (["select-layout"], fun i => p ← layout_plan i; Ok (PlanSelectLayout p));
   (["next-layout"], plain PlanNextLayout);
   (["rebalance-window"], plain PlanRebalanceWindow);
   (["synchronize-panes"; "sync-panes"],
     fun i => p ← synchronize_panes_plan i; Ok (PlanSynchronizePanes p));
   (["zoom-pane"], plain PlanZoomPane);
   (["resize-pane"; "resizep"], fun i => p ← resize_pane_plan i; Ok (PlanResizePane p));
   (["kill-pane"; "killp"], fun i => Ok (PlanKillPane (force_target_plan i)));
   (["swap-pane"; "swapp"], fun i => p ← swap_pane_plan i; Ok (PlanSwapPane p));
   (["break-pane"; "breakp"], fun i => Ok (PlanBreakPane (break_pane_plan i)));
   (["join-pane"; "joinp"], fun i => p ← join_pane_plan i; Ok (PlanJoinPane p));
   (["rename-session"; "renames"],
     fun i => p ← session_name_plan i "rename-session requires a name"; Ok (PlanRenameSession p));
   (["kill-session"],
     fun i => Ok (PlanKillSession {| fo_command := name i; fo_force := has_flag i "-f" "--force" |}));
   (["detach-client"; "detach"],
     fun i => Ok (PlanDetachClient {| dc_command := name i; dc_target := target_arg i |}))]%string.

Definition command_plan_from_invocation (i : CommandInvocation) : result CommandPlan :=
  match list_find (fun e => has_word e.1 (name i) = true) plan_table with
  | Some (_, (_, plan)) => plan i
  | None => Ok Fallback
  end.
