(* ===== verification/CommandTheorems.v ===== *)
(** * Properties of the command language

    Quoted words are read back whatever they contain, alone and in sequences;
    any input is parsed without panicking, into spans that can be sliced; the
    words of a pane command reach the shell as typed. *)

From S2P Require Import Prelude LayoutTypes Utf8Text Readline ReadlineKeys KeyInput Commands.
#[local] Open Scope Z_scope.

(** ** Scanning a piece of the input *)

(** Evaluates one character in a state whose quote is known. *)
Ltac eval_quotes := repeat match goal with
  | |- context [bool_decide (?a = ?b :> QuoteState)] =>
      first [rewrite (bool_decide_eq_true_2 (a = b)) by done
            |rewrite (bool_decide_eq_false_2 (a = b)) by done]
  end.
Ltac eval_scan :=
  unfold scan_char, extend_token, push_escaped, set_quote; cbn;
  eval_quotes; cbn; rewrite ?app_nil_r, ?andb_false_r.

(** Scanning [t] at offset [k] takes state [s] to [s'], whatever follows. *)
Definition scans (stop : bool) (k : Z) (t : text) (s s' : ScanState) : Prop :=
  forall rest, scan_chars stop None k (t ++ rest) s = scan_chars stop None (k + blen t) rest s'.

Lemma scans_nil stop k s : scans stop k [] s s.
Proof. intros rest. by rewrite blen_nil, Z.add_0_r. Qed.
Lemma scans_app stop k a b s s1 s2 :
  scans stop k a s s1 -> scans stop (k + blen a) b s1 s2 -> scans stop k (a ++ b) s s2.
Proof. intros Ha Hb rest. rewrite <- app_assoc, Ha, Hb, blen_app. f_equal. lia. Qed.
Lemma scans_char stop k c s s' : scan_char stop k c s = (s', false) -> scans stop k [c] s s'.
Proof. intros H rest. cbn [app scan_chars record_at]. by rewrite H, blen_cons, blen_nil, Z.add_0_r. Qed.

(** A state between tokens or inside an unquoted token. *)
Definition unquoted (s : ScanState) : Prop := quote s = NoQuote /\ escaped s = false.

(** *** Quoted words *)

Definition add_text (t : text) (s : ScanState) : ScanState := extend_token 0 t (quote s) (escaped s) s.

Lemma add_text_add t u s : add_text u (add_text t s) = add_text (t ++ u) s.
Proof. unfold add_text, extend_token. cbn. by rewrite app_assoc. Qed.

Definition quote_body (v : text) : text := v ≫= fun c => if c =? 39 then chars "'\''" else [c].

(** Inside single quotes every character stands for itself; a quote is left,
    escaped and entered again. *)
Lemma body_scans stop v : forall k s, quote s = SingleQuote -> escaped s = false ->
  is_Some (token_start s) -> scans stop k (quote_body v) s (add_text v s).
Proof.
  induction v as [|c v IH]; intros k s Hq He [st Hst].
  { assert (add_text [] s = s) as ->; [|apply scans_nil].
    destruct s; cbn in *. subst. unfold add_text, extend_token. cbn. by rewrite app_nil_r. }
  change (quote_body (c :: v)) with ((if c =? 39 then chars "'\''" else [c]) ++ quote_body v).
  rewrite <- (add_text_add [c] v). eapply scans_app; [|by apply IH].
  destruct s as [tk cu q e ts sem cst cr]; cbn in Hq, He, Hst; subst.
  destruct (Z.eqb_spec c 39) as [->|Hc].
  - change (chars "'\''") with ([39] ++ [92] ++ [39] ++ [39]).
    eapply scans_app; [apply scans_char; reflexivity|].
    eapply scans_app; [apply scans_char; reflexivity|].
    eapply scans_app; [apply scans_char; reflexivity|].
    apply scans_char. unfold add_text. by eval_scan.
  - apply scans_char. unfold add_text. eval_scan. by rewrite (proj2 (Z.eqb_neq c 39) Hc).
Qed.

(** A quoting function whose result is scanned as the word. *)
Definition quotes (q : text -> text) : Prop := forall stop k v s, unquoted s ->
  scans stop k (q v) s (extend_token k v NoQuote false s).

Lemma single_quotes_scan : quotes encode_selector_argument.
Proof.
  intros stop k v s [Hq He]. unfold encode_selector_argument. fold (quote_body v).
  set (s1 := extend_token k [] SingleQuote false s).
  eapply (scans_app _ _ _ _ _ s1); [apply scans_char; destruct s; cbn in *; by subst|].
  eapply scans_app; [by apply body_scans|]. apply scans_char.
  destruct s; cbn in *; subst. unfold add_text, s1. by eval_scan.
Qed.

(** Characters that need no quoting. *)
Lemma plain_char stop k c s : is_plain_byte c = true -> unquoted s ->
  scan_char stop k c s = (extend_token k [c] NoQuote false s, false).
Proof.
  intros Hc [Hq He]. unfold scan_char. rewrite He, Hq.
  assert (H : c <> 92 /\ c <> 39 /\ c <> 34 /\ c <> 59 /\ is_whitespace c = false).
  { unfold is_plain_byte in Hc. rewrite !orb_true_iff, !in_range_iff, bool_decide_eq_true in Hc.
    assert (Hr : 48 <= c <= 57 \/ 65 <= c <= 90 \/ 97 <= c <= 122 \/ c ∈ [95; 64; 37; 43; 61; 58; 44; 46; 47; 45])
      by tauto.
    rewrite !elem_of_cons in Hr. unfold is_whitespace.
    split_and!; try (intros ->; set_solver || lia).
    apply not_true_iff_false. rewrite !orb_true_iff, !andb_true_iff, !Z.leb_le, !Z.eqb_eq. set_solver by lia. }
  destruct H as (H1 & H2 & H3 & H4 & ->).
  rewrite (proj2 (Z.eqb_neq c 92)), (proj2 (Z.eqb_neq c 39)), (proj2 (Z.eqb_neq c 34)),
    (proj2 (Z.eqb_neq c 59)) by done. done.
Qed.

Lemma extend_extend k k' t u s :
  extend_token k' u NoQuote false (extend_token k t NoQuote false s)
  = extend_token k (t ++ u) NoQuote false s.
Proof. unfold extend_token. cbn. by rewrite app_assoc. Qed.

Lemma plain_word_scans stop v : v <> [] -> forallb is_plain_byte v = true ->
  forall k s, unquoted s -> scans stop k v s (extend_token k v NoQuote false s).
Proof.
  intros Hv Hp. induction v as [|c v IH]; [done|]. cbn in Hp. apply andb_true_iff in Hp as [Hc Hp].
  intros k s Hs. change (c :: v) with ([c] ++ v). destruct v as [|d v].
  - rewrite app_nil_r. by apply scans_char, plain_char.
  - rewrite <- (extend_extend k (k + blen [c])). eapply scans_app; [by apply scans_char, plain_char|].
    by apply IH.
Qed.

Lemma shell_quotes_scan : quotes shell_quote_word.
Proof.
  intros stop k v s Hs. unfold shell_quote_word. case_bool_decide as Hv; cbn [negb andb].
  - by apply (single_quotes_scan stop k v).
  - destruct (forallb is_plain_byte v) eqn:Hp; [by apply plain_word_scans|].
    by apply (single_quotes_scan stop k v).
Qed.

(** *** Lists of words *)

Definition between_tokens (s : ScanState) : Prop :=
  unquoted s /\ token_start s = None /\ current s = [].

Lemma words_scan q stop : quotes q -> forall words k s, words <> [] -> between_tokens s ->
  exists s', scans stop k (join_words (q <$> words)) s s' /\ unquoted s'
    /\ semicolon s' = semicolon s /\ cursor_recorded s' = cursor_recorded s
    /\ forall e, value <$> tokens (end_token e s') = (value <$> tokens s) ++ words.
Proof.
  intros Hq words. induction words as [|v words IH]; intros k s Hw Hs; [done|].
  destruct Hs as ([Hsq Hse] & Hts & Hcu). set (s1 := extend_token k v NoQuote false s).
  assert (H1 : scans stop k (q v) s s1) by (by apply Hq).
  assert (Hend : forall e, value <$> tokens (end_token e s1) = (value <$> tokens s) ++ [v]).
  { intros e. unfold end_token, s1; cbn. rewrite Hts, Hcu. cbn. by rewrite fmap_app. }
  destruct words as [|u words].
  { exists s1. split_and!; [exact H1|done|done|done|exact Hend]. }
  set (at_ := k + blen (q v)). set (s2 := end_token at_ s1).
  assert (H2 : scans stop at_ [32] s1 s2) by (apply scans_char; unfold s2; by eval_scan).
  destruct (IH (at_ + blen [32]) s2) as (s' & H3 & H4 & H5 & H6 & H7); [done|..].
  { unfold s2, end_token, s1; cbn. rewrite Hts. by cbn. }
  exists s'. split_and!; [|done|..].
  - change (join_words (q <$> v :: u :: words)) with (q v ++ [32] ++ join_words (q <$> u :: words)).
    eapply scans_app; [exact H1|]. by eapply scans_app.
  - rewrite H5. unfold s2, end_token, s1. cbn. by rewrite ?Hts.
  - rewrite H6. unfold s2, end_token, s1. cbn. by rewrite ?Hts.
  - intros e. rewrite H7. unfold s2. by rewrite Hend, <- app_assoc.
Qed.

Lemma start_between : between_tokens (scan_start None).
Proof. done. Qed.

Lemma end_token_quote e s : quote (end_token e s) = quote s /\ escaped (end_token e s) = escaped s
  /\ semicolon (end_token e s) = semicolon s.
Proof. unfold end_token. by destruct (token_start s). Qed.
Lemma end_token_record e s : tokens (end_token e (record_cursor s)) = tokens (end_token e s).
Proof. unfold end_token, record_cursor. cbn. by destruct (token_start s). Qed.

(** Without a cursor, the end of the scan keeps the quote, the escape and the
    semicolon, and closes the last token. *)
Lemma segment_end_spec input stop s : scan_chars stop None 0 input (scan_start None) = s ->
  let r := scan_command_segment input None stop in
  quote r = quote s /\ escaped r = escaped s /\ semicolon r = semicolon s
  /\ tokens r = tokens (end_token (blen input) s).
Proof.
  intros H. cbn zeta. unfold scan_command_segment. rewrite H. destruct (cursor_recorded s).
  - destruct (end_token_quote (blen input) s) as (-> & -> & ->). done.
  - destruct (end_token_quote (blen input) (record_cursor s)) as (-> & -> & ->).
    by rewrite end_token_record.
Qed.

Lemma tokenize_words q words : quotes q -> tokenize_command (join_words (q <$> words)) = Ok words.
Proof.
  intros Hq. destruct words as [|v words]; [done|].
  destruct (words_scan q false Hq (v :: words) 0 (scan_start None)) as (s & Hs & [Hqs Hes] & _ & _ & Hv); [done..|].
  specialize (Hs []). rewrite app_nil_r in Hs. cbn [scan_chars] in Hs.
  destruct (segment_end_spec _ _ _ Hs) as (E1 & E2 & _ & E4).
  unfold tokenize_command, tokenize_command_spans. rewrite E1, E2, E4, Hqs, Hes.
  rewrite bool_decide_eq_true_2 by done. cbn [negb mbind outcome_bind]. by rewrite Hv.
Qed.

(** ** Sequences *)

Definition render_command (i : CommandInvocation) : text :=
  join_words (encode_selector_argument <$> name i :: args i).
Fixpoint render_sequence (l : list CommandInvocation) : text :=
  match l with
  | [] => []
  | [i] => render_command i
  | i :: l => render_command i ++ [59] ++ render_sequence l
  end.

Lemma encode_ends v : head (encode_selector_argument v) = Some 39 /\ last (encode_selector_argument v) = Some 39.
Proof. unfold encode_selector_argument. split; [done|]. by rewrite !last_app. Qed.

Lemma words_end words : words <> [] ->
  head (join_words (encode_selector_argument <$> words)) = Some 39
  /\ last (join_words (encode_selector_argument <$> words)) = Some 39.
Proof.
  induction words as [|v words IH]; [done|]. intros _. destruct words as [|u words]; [apply encode_ends|].
  destruct IH as [_ IH]; [done|].
  change (join_words (encode_selector_argument <$> v :: u :: words))
    with (encode_selector_argument v ++ [32] ++ join_words (encode_selector_argument <$> u :: words)).
  split; [done|]. rewrite !last_app, IH. done.
Qed.

Lemma trim_rendered i : trim_text (render_command i) = render_command i.
Proof.
  destruct (words_end (name i :: args i)) as [Hh Hl]; [done|].
  apply trim_text_id; unfold render_command; [by rewrite Hh|by rewrite Hl].
Qed.

(** Scanning up to a semicolon stops at the first one outside quotes. *)
Lemma rendered_scan i rest :
  let r := scan_command_segment (render_command i ++ rest) None true in
  match rest with
  | [] => semicolon r = None /\ escaped r = false /\ quote r = NoQuote
  | c :: _ => c = 59 -> semicolon r = Some (blen (render_command i))
  end.
Proof.
  destruct (words_scan _ true single_quotes_scan (name i :: args i) 0 (scan_start None))
    as (s & Hs & [Hqs Hes] & Hsem & _ & _); [done..|]. fold (render_command i) in Hs. cbn zeta.
  destruct rest as [|c rest].
  - specialize (Hs []). cbn [scan_chars] in Hs. destruct (segment_end_spec _ _ _ Hs) as (-> & -> & -> & _). done.
  - intros ->. specialize (Hs (59 :: rest)). cbn [scan_chars record_at] in Hs.
    assert (Hc : scan_char true (0 + blen (render_command i)) 59 s
      = (set_semicolon (0 + blen (render_command i)) (end_token (0 + blen (render_command i)) s), true)).
    { unfold scan_char. rewrite Hqs, Hes. by eval_quotes. }
    rewrite Hc in Hs. destruct (segment_end_spec _ _ _ Hs) as (_ & _ & -> & _). done.
Qed.

Lemma split_rendered l : l <> [] -> forall fuel pre, (length l <= fuel)%nat ->
  split_loop fuel (pre ++ render_sequence l) (blen pre) = Ok (render_command <$> l).
Proof.
  induction l as [|i l IH]; [done|]. intros _ [|fuel] pre Hf; [cbn in Hf; lia|]. cbn [split_loop].
  rewrite slice_from_app. cbn [mbind outcome_bind].
  destruct l as [|j l].
  - cbn [render_sequence]. pose proof (rendered_scan i []) as (H1 & H2 & H3).
    rewrite app_nil_r in H1, H2, H3. rewrite H1, H2, H3, bool_decide_eq_true_2 by done.
    cbn [negb mbind outcome_bind fmap list_fmap]. by rewrite trim_rendered.
  - change (render_sequence (i :: j :: l)) with (render_command i ++ [59] ++ render_sequence (j :: l)).
    cbn zeta. rewrite (rendered_scan i ([59] ++ render_sequence (j :: l)) eq_refl).
    rewrite slice_app. cbn [mbind outcome_bind].
    specialize (IH ltac:(done) fuel (pre ++ render_command i ++ [59])).
    rewrite !blen_app, <- !app_assoc in IH. change (blen [59]) with 1 in IH.
    rewrite IH by (cbn in *; lia).
    cbn [negb mbind outcome_bind fmap list_fmap]. by rewrite trim_rendered.
Qed.

(** ** Any input *)

(** What the scan of [pre], at offset [blen pre] of [input], has found. *)
Record scanned (input : text) (pre : text) (s : ScanState) : Prop := {
  sd_spans : Forall (fun t => boundary input (span_begin t) /\ boundary input (span_end t)
                              /\ span_begin t < span_end t <= blen pre) (tokens s);
  sd_order : StronglySorted (fun t u => span_end t < span_begin u) (tokens s);
  sd_start : forall st, token_start s = Some st -> boundary input st /\ 0 <= st < blen pre
    /\ Forall (fun t => span_end t < st) (tokens s);
  sd_gap : token_start s = None -> Forall (fun t => span_end t < blen pre) (tokens s);
}.

Lemma scanned_more input pre c s : scanned input pre s -> scanned input (pre ++ [c]) s.
Proof.
  intros [H1 H2 H3 H4]. pose proof (len_utf8_pos c).
  assert (Hb : blen pre < blen (pre ++ [c])) by (rewrite blen_app, blen_cons, blen_nil; lia).
  constructor; [|done|intros st Hst; destruct (H3 st Hst) as (? & ? & ?); split_and!; (done || lia)|].
  - eapply Forall_impl; [exact H1|]. intros t (? & ? & ?). split_and!; (done || lia).
  - intros Hn. eapply Forall_impl; [by apply H4|]. cbn. lia.
Qed.

Lemma scanned_extend input pre c post t q e s : input = pre ++ c :: post -> scanned input pre s ->
  scanned input (pre ++ [c]) (extend_token (blen pre) t q e s).
Proof.
  intros Hin Hs. pose proof (scanned_more input pre c s Hs) as [H1 H2 H3 H4]. pose proof (len_utf8_pos c).
  constructor; cbn; [done|done| |done]. intros st [= <-].
  destruct (token_start s) as [st|] eqn:E; cbn; [by apply H3|].
  rewrite blen_app, blen_cons, blen_nil. pose proof (blen_nonneg pre).
  split_and!; [rewrite Hin; apply boundary_pre|lia..|by apply (sd_gap _ _ _ Hs)].
Qed.

(** Closing a token at the current offset, before a separator. *)
Lemma scanned_close input pre post s : input = pre ++ post -> scanned input pre s ->
  Forall (fun t => boundary input (span_begin t) /\ boundary input (span_end t)
                   /\ span_begin t < span_end t <= blen pre) (tokens (end_token (blen pre) s))
  /\ StronglySorted (fun t u => span_end t < span_begin u) (tokens (end_token (blen pre) s)).
Proof.
  intros Hin [H1 H2 H3 H4]. unfold end_token. destruct (token_start s) as [st|] eqn:E; [|done]. cbn.
  destruct (H3 st eq_refl) as (Hb & Hst & Hlt). split.
  - apply Forall_app. split; [done|]. constructor; [|done]. cbn.
    split_and!; [done|rewrite Hin; apply boundary_pre|lia..].
  - apply StronglySorted_app. split_and!; [|done|repeat constructor].
    intros t u Ht ->%list_elem_of_singleton. cbn. by apply (proj1 (Forall_forall _ _) Hlt).
Qed.

Lemma scanned_separator input pre c post s : input = pre ++ c :: post -> scanned input pre s ->
  scanned input (pre ++ [c]) (end_token (blen pre) s).
Proof.
  intros Hin Hs. destruct (scanned_close input pre (c :: post) s Hin Hs) as [H1 H2].
  pose proof (len_utf8_pos c).
  assert (Hb : blen pre < blen (pre ++ [c])) by (rewrite blen_app, blen_cons, blen_nil; lia).
  constructor; [|done| |].
  - eapply Forall_impl; [exact H1|]. intros t (? & ? & ?). split_and!; (done || lia).
  - unfold end_token. destruct (token_start s) eqn:E; [done|]. by rewrite E.
  - intros _. eapply Forall_impl; [exact H1|]. cbn. intros t (_ & _ & ?). lia.
Qed.

(** Fields the invariant does not look at. *)
Lemma scanned_same input pre s s' : tokens s' = tokens s -> token_start s' = token_start s ->
  scanned input pre s -> scanned input pre s'.
Proof. intros Ht Hs [H1 H2 H3 H4]. constructor; rewrite ?Ht, ?Hs; done. Qed.

Lemma scan_char_scanned stop input pre c post s : input = pre ++ c :: post -> scanned input pre s ->
  scanned input (pre ++ [c]) (scan_char stop (blen pre) c s).1.
Proof.
  intros Hin Hs. pose proof (scanned_more input pre c s Hs) as Hm. unfold scan_char.
  repeat case_match; cbn [fst];
    first [by apply (scanned_same _ _ s)|by eapply scanned_extend|by eapply scanned_separator
          |eapply scanned_same; [..|by eapply scanned_separator]; done].
Qed.

(** A break happens at a semicolon only, which ends the scanned part. *)
Lemma scan_char_break stop k c s : semicolon s = None ->
  match scan_char stop k c s with
  | (s', true) => c = 59 /\ semicolon s' = Some k
  | (s', false) => semicolon s' = None
  end.
Proof.
  intros Hs. destruct (end_token_quote k s) as (_ & _ & He). unfold scan_char.
  repeat case_match; simplify_eq; cbn; try done; try congruence.
  split; [|done]. rewrite !andb_true_iff, Z.eqb_eq in *. tauto.
Qed.

Lemma scan_chars_scanned stop input post : forall pre s, input = pre ++ post ->
  scanned input pre s -> semicolon s = None ->
  let r := scan_chars stop None (blen pre) post s in
  match semicolon r with
  | None => scanned input input r
  | Some k => exists a b, post = a ++ 59 :: b /\ k = blen (pre ++ a)
  end.
Proof.
  induction post as [|c post IH]; intros pre s Hin Hs Hsem; cbn zeta; cbn [scan_chars record_at].
  { rewrite Hsem, Hin, app_nil_r in *. by subst. }
  pose proof (scan_char_scanned stop input pre c post s Hin Hs) as Hs'.
  pose proof (scan_char_break stop (blen pre) c s Hsem) as Hb.
  destruct (scan_char stop (blen pre) c s) as [s' [|]]; cbn [fst] in Hs'.
  - destruct Hb as [-> ->]. exists [], post. by rewrite app_nil_r.
  - specialize (IH (pre ++ [c]) s'). rewrite <- app_assoc in IH. specialize (IH Hin Hs' Hb). cbn zeta in IH.
    rewrite blen_app, blen_cons, blen_nil, Z.add_0_r in IH. destruct (semicolon _) as [k|]; [|done].
    destruct IH as (a & b & -> & ->). exists (c :: a), b. by rewrite <- app_assoc.
Qed.

Lemma scanned_start input : scanned input [] (scan_start None).
Proof. constructor; cbn; by try constructor. Qed.

Lemma spans_scanned input : let r := scan_command_segment input None false in
  Forall (fun t => boundary input (span_begin t) /\ boundary input (span_end t)
                   /\ span_begin t < span_end t <= blen input) (tokens r)
  /\ StronglySorted (fun t u => span_end t < span_begin u) (tokens r).
Proof.
  cbn zeta. set (s := scan_chars false None 0 input (scan_start None)).
  destruct (segment_end_spec input false s eq_refl) as (_ & _ & _ & ->).
  pose proof (scan_chars_scanned false input input [] (scan_start None) eq_refl
                (scanned_start input) eq_refl) as H. cbn zeta in H. change (blen []) with 0 in H. fold s in H.
  destruct (semicolon s) as [k|] eqn:E.
  - exfalso. enough (semicolon s = None) by congruence. clear H E.
    assert (Hno : forall post k s0, semicolon s0 = None -> semicolon (scan_chars false None k post s0) = None).
    { induction post as [|c post IH]; intros k0 s0 Hs0; [done|]. cbn [scan_chars record_at].
      pose proof (scan_char_break false k0 c s0 Hs0) as Hb.
      destruct (scan_char false k0 c s0) as [s' [|]] eqn:Ec; [|by apply IH].
      exfalso. unfold scan_char in Ec. rewrite andb_false_r in Ec. repeat (case_match; try done). }
    by apply Hno.
  - apply (scanned_close input input []); [by rewrite app_nil_r|done].
Qed.

Lemma split_loop_total fuel : forall input pre rest, input = pre ++ rest -> (length rest < fuel)%nat ->
  split_loop fuel input (blen pre) <> Panic.
Proof.
  induction fuel as [|fuel IH]; intros input pre rest -> Hf; [lia|]. cbn [split_loop].
  rewrite slice_from_app. cbn [mbind outcome_bind]. cbn zeta.
  set (s := scan_chars true None 0 rest (scan_start None)).
  destruct (segment_end_spec rest true s eq_refl) as (_ & _ & Hsem & _). rewrite Hsem.
  pose proof (scan_chars_scanned true rest rest [] (scan_start None) eq_refl
                (scanned_start rest) eq_refl) as H. cbn zeta in H. change (blen []) with 0 in H. fold s in H.
  destruct (semicolon s) as [k|]; [|by repeat case_match].
  destruct H as (a & b & -> & ->). rewrite app_nil_l, slice_app. cbn [mbind outcome_bind].
  specialize (IH (pre ++ a ++ 59 :: b) (pre ++ a ++ [59]) b).
  rewrite !blen_app in IH. change (blen [59]) with 1 in IH.
  rewrite length_app in Hf. cbn in Hf.
  specialize (IH ltac:(by rewrite <- !app_assoc) ltac:(lia)).
  destruct (split_loop fuel _ _); done.
Qed.

(** ** Pane commands *)

Lemma trim_left_keeps c s : is_whitespace c = false -> c ∈ s -> c ∈ trim_left s.
Proof.
  intros Hc. induction s as [|d s IH]; [done|]. cbn [trim_left]. intros Hin.
  destruct (is_whitespace d) eqn:Hd; [|done]. apply IH.
  apply elem_of_cons in Hin as [->|?]; [congruence|done].
Qed.
Lemma trim_text_nonempty c s : is_whitespace c = false -> c ∈ s -> trim_text s <> [].
Proof.
  intros Hc Hs E. assert (Hin : c ∈ trim_text s); [|rewrite E in Hin; set_solver].
  unfold trim_text. rewrite elem_of_reverse. apply trim_left_keeps; [done|].
  rewrite elem_of_reverse. by apply trim_left_keeps.
Qed.

(** A pane command has something to run. *)
Lemma quoted_visible v : exists c, is_whitespace c = false /\ c ∈ shell_quote_word v.
Proof.
  unfold shell_quote_word. destruct v as [|c v].
  { exists 39. split; [done|]. cbn. set_solver. }
  rewrite bool_decide_eq_false_2 by done. cbn [negb andb].
  destruct (forallb is_plain_byte (c :: v)) eqn:Hp; [|exists 39; split; [done|set_solver]].
  exists c. split; [|set_solver]. cbn in Hp. apply andb_true_iff in Hp as [Hc _].
  apply not_true_iff_false. intros Hw.
  unfold is_plain_byte in Hc. rewrite !orb_true_iff, !in_range_iff, bool_decide_eq_true in Hc.
  assert (Hr : 33 <= c <= 126).
  { destruct Hc as [[[?|?]|?]|Hc]; [lia..|]. cbn in Hc. set_solver by lia. }
  unfold is_whitespace in Hw. rewrite !orb_true_iff, !andb_true_iff, !Z.leb_le, !Z.eqb_eq in Hw. lia.
Qed.

Lemma joined_visible words : words <> [] -> trim_text (shell_join_words words) <> [].
Proof.
  destruct words as [|v words]; [done|]. intros _. destruct (quoted_visible v) as (c & Hc & Hin).
  apply (trim_text_nonempty c); [done|]. unfold shell_join_words. cbn [fmap list_fmap].
  assert (Hjoin : forall t l, c ∈ t -> c ∈ join_words (t :: l)).
  { intros t [|u l] Ht; [done|]. change (join_words (t :: u :: l)) with (t ++ [32] ++ join_words (u :: l)).
    apply elem_of_app. by left. }
  by apply Hjoin.
Qed.

(** ** The properties *)

(** C17. Commands with any names and arguments, quoted word by word and joined
    by blanks and semicolons, are parsed back exactly. *)
Theorem command_sequence_roundtrip l (Hl : l <> []) :
  parse_command_sequence (render_sequence l) = Ok l.
Proof.
  assert (Hparse : forall k, parse_segments (render_command <$> k) = Ok k).
  { induction k as [|[n a] k IH]; [done|]. rewrite fmap_cons. cbn [parse_segments].
    pose proof (tokenize_words _ (n :: a) single_quotes_scan) as Htok.
    change (join_words _) with (render_command {| name := n; args := a |}) in Htok.
    rewrite Htok. cbn [mbind outcome_bind]. by rewrite IH. }
  assert (Hcount : (length l <= S (length (render_sequence l)))%nat).
  { clear. induction l as [|i [|j l] IH]; [cbn; lia..|].
    change (render_sequence (i :: j :: l)) with (render_command i ++ [59] ++ render_sequence (j :: l)).
    rewrite !length_app. cbn [length] in *. lia. }
  unfold parse_command_sequence, split_semicolon_sequence.
  pose proof (split_rendered l Hl (S (length (render_sequence l))) [] Hcount) as Hs.
  cbn [app] in Hs. change (blen []) with 0 in Hs. rewrite Hs. cbn [mbind outcome_bind].
  rewrite Hparse. cbn [mbind outcome_bind]. by destruct l.
Qed.

(** C18. No input makes the parser panic or run on, and the tokens it reports
    are disjoint, in order, and slices of the input. *)
Theorem command_parsing_total input :
  parse_command_sequence input <> Panic
  /\ forall spans, tokenize_command_spans input = Ok spans ->
     StronglySorted (fun t u => span_end t < span_begin u) spans
     /\ Forall (fun t => exists a b c, input = a ++ b ++ c /\ b <> []
                 /\ span_begin t = blen a /\ span_end t = blen a + blen b) spans.
Proof.
  split.
  - unfold parse_command_sequence, split_semicolon_sequence.
    pose proof (split_loop_total (S (length input)) input [] input eq_refl ltac:(lia)) as Hs.
    change (blen []) with 0 in Hs.
    destruct (split_loop (S (length input)) input 0) as [segments|e|]; [|done..]. cbn [mbind outcome_bind].
    assert (Hp : parse_segments segments <> Panic).
    { clear. induction segments as [|g segments IH]; [done|]. cbn [parse_segments].
      unfold tokenize_command, tokenize_command_spans. repeat (case_match; try done). cbn.
      by destruct (parse_segments segments). }
    destruct (parse_segments segments); [|done..]. cbn. by case_bool_decide.
  - intros spans. unfold tokenize_command_spans. do 2 (case_match; [done|]). intros [= <-].
    destruct (spans_scanned input) as [H1 H2]. split; [exact H2|]. eapply Forall_impl; [exact H1|].
    intros t (Hb & He & Hlt). cbn in *. destruct (boundaries_cut input (span_begin t) (span_end t)) as (a & b & c & E1 & E2 & E3);
      [done|done|lia|]. exists a, b, c. split_and!; [done| |done|done]. intros ->. rewrite blen_nil in E3. lia.
Qed.

(** What follows a double dash is run as the words typed: the command
    line handed to the shell splits back into exactly these words, unless an
    explicit command flag is given. *)
Theorem tail_words_reach_shell i before tail
    (Hargs : args i = before ++ chars "--" :: tail) (Hbefore : chars "--" ∉ before)
    (Htail : tail <> []) (Hflag : explicit_shell_command_value (args i) = None) :
  exists line, split_window_shell_command i = Ok (Some line)
    /\ new_window_shell_command i = Ok (Some line)
    /\ tokenize_command line = Ok tail.
Proof.
  exists (shell_join_words tail).
  assert (Hdash : double_dash_tail_start (args i) = Some (S (length before))).
  { unfold double_dash_tail_start. rewrite Hargs. clear - Hbefore.
    induction before as [|b before IH]; cbn [app position].
    - by rewrite bool_decide_eq_true_2.
    - rewrite bool_decide_eq_false_2 by set_solver. cbn [app position] in IH.
      destruct (position _ (before ++ _)) eqn:E; rewrite ?E in *; cbn in *;
        specialize (IH ltac:(set_solver)); congruence. }
  assert (Hdrop : drop (S (length before)) (args i) = tail).
  { rewrite Hargs. change (chars "--" :: tail) with ([chars "--"] ++ tail). rewrite app_assoc.
    rewrite drop_app_length'; [done|]. rewrite length_app. cbn. lia. }
  assert (Hcommand : shell_command_from_words tail = Ok (Some (shell_join_words tail))).
  { unfold shell_command_from_words. destruct tail as [|v tail]; [done|].
    by rewrite bool_decide_eq_false_2 by (by apply joined_visible). }
  unfold split_window_shell_command, new_window_shell_command, for_split_window, for_new_window.
  rewrite Hflag, Hdash. cbn [shell_command_for_source]. rewrite Hdrop. split_and!; [done..|].
  apply (tokenize_words _ _ shell_quotes_scan).
Qed.

(** *** Concrete runs *)

Lemma command_sequence_roundtrip_witness :
  parse_command_sequence (render_sequence
    [{| name := chars "rename-window"; args := [chars "it's; here"; []] |}; {| name := []; args := [] |}])
  = Ok [{| name := chars "rename-window"; args := [chars "it's; here"; []] |}; {| name := []; args := [] |}].
Proof. apply command_sequence_roundtrip. discriminate. Defined.

Lemma tail_words_reach_shell_witness :
  exists line, split_window_shell_command
      {| name := chars "split-window"; args := [chars "-d"; chars "--"; chars "ls"; chars "my file"] |}
      = Ok (Some line)
    /\ new_window_shell_command
      {| name := chars "split-window"; args := [chars "-d"; chars "--"; chars "ls"; chars "my file"] |}
      = Ok (Some line)
    /\ tokenize_command line = Ok [chars "ls"; chars "my file"].
Proof.
  apply (tail_words_reach_shell _ [chars "-d"]); [reflexivity| |discriminate|reflexivity].
  intros H. apply list_elem_of_singleton in H. discriminate H.
Defined.

(** A segment is trimmed after its end is found: an escaped blank at the end
    of a command loses the blank and keeps the backslash. *)
Lemma trailing_escaped_blank_rejected :
  tokenize_command (chars "rename-window a\ ") = Ok [chars "rename-window"; chars "a "]
  /\ parse_command_sequence (chars "rename-window a\ ") = Err (invalid_args "command ends with escape").
Proof. split; vm_compute; reflexivity. Qed.

(** Flags are looked for after the double dash as well: words of the shell
    command choose the direction of the split, the focus and the directory,
    and a [--command] among them replaces the command. *)
Lemma tail_words_taken_as_flags :
  match parse_command_sequence (chars "split-window -- grep -h -c /x --command y -d") with
  | Ok [i] => match command_plan_from_invocation i with
              | Ok (PlanSplitWindow p) =>
                  sw_direction p = Horizontal /\ sw_select_new p = false
                  /\ sw_start_directory p = Some (chars "/x") /\ sw_shell_command p = Some (chars "y")
              | _ => False
              end
  | _ => False
  end.
Proof. vm_compute. done. Qed.
